(* ===== verification/_CoqProject ===== *)
-Q . S2P
Prelude.v
Cbuf.v
Protocol.v
Create.v
Deserialize.v
Wire.v
Builders.v
Codec.v
Safety.v
CodecSpec.v
Replies.v
Built.v
Npstring.v
Fidpool.v
Transport.v
Fcall.v
Account.v
Sample.v
Handlers.v
FcallSpec.v
Srv.v
SrvSpec.v
Session.v
Queue.v
QueueSpec.v
QueueInv.v
QueueSim.v
QueueProps.v
QueueFlush.v
QueueServe.v
Hash.v
Conf.v
Ctl.v
CtlSpec.v
Exports.v
ConfSpec.v
Ioctx.v
DiodFid.v
Ops.v
IoctxInv.v
IoctxOpen.v
OpsInv.v
OpsRules.v
OpsSpec.v
OpsSample.v
Format.v
FormatSpec.v
Fmt.v
FmtSpec.v
Users.v
UsersSpec.v
UsersCalls.v
Fsid.v
FsidSpec.v
FsidUsers.v
Lists.v
ListsSpec.v
ListsRun.v
ListsProps.v
Client.v
ClientOps.v
ClientPool.v
ClientInv.v
ClientRules.v
ClientSpec.v
ClientRun.v
ClientFile.v
ClientSample.v
Rawbuf.v
DiodAuth.v
DiodAuthSpec.v
DiodAuthProps.v
AttachAuth.v
Opt.v
OptSpec.v
OptProps.v
