(* ===== verification/Prelude.v ===== *)
(** * diod: a verification development

    diod is a file server that speaks 9P2000.L.  Its parts and how they interact:

    - libnpfs reads messages from a connection (fdtrans.c, trans.c), parses them
      (np.c), looks up the fid they name (fidpool.c), queues them for a pool of
      worker threads (srv.c, conn.c), runs a handler per message type (fcall.c),
      which calls the file system through the function pointers of [Npsrv], and
      sends the reply that the handler built (np.c, srv.c).  A part of the tree
      of files that clients see is the server's own (ctl.c).
    - libdiod is the file system behind these pointers (diod_ops.c), with a pool
      of shared paths and open files (diod_ioctx.c), its part of a fid
      (diod_fid.c) and extended attributes (diod_xattr.c); what may be attached
      to is decided by the exports (diod_exp.c) of the configuration
      (diod_conf.c).  Clients authenticate with credentials (diod_auth.c), and
      requests are served under the identity of their user (user.c,
      user-linux.c).
    - liblsd holds the hash tables that the path pool uses (hash.c) and the lists
      of exports and options (list.c).
    - libnpclient is the library of clients: mounting, walking, reading and
      writing over the same codec.  The mount command keeps its options in
      cmd/opt.c.

    *** Files

    - [Prelude]: machine integers, the outcomes [Ret], [UB] and [Abort] of C code,
      loads and stores on byte buffers, shared lemmas and tactics.
    - The codec of np.c: [Cbuf] is [struct cbuf] with the [buf_] functions,
      [Protocol] the message types and members of [Npfcall], [Create] the
      [np_create_] functions and what patches a message, [Deserialize]
      [np_deserialize].  [Wire] states the layout of every message as the protocol
      gives it; [Builders], [Codec], [Safety] and [CodecSpec] prove that the
      builders write that layout, that parsing inverts building, and that parsing
      any bytes stays in bounds.  [Replies] is about tags and shortened replies,
      [Built] states both for every builder, [Npstring] about counted strings and directory entries (npstring.c).
    - [Fidpool]: the chained hash table of fids at pointer level; it refines a map
      from numbers to fids.
    - [Transport]: fdtrans.c and trans.c over a stream of read results; framing
      loses and reorders nothing, and what is sent in pieces is what was built.
    - [Fcall]: every handler of fcall.c as a state-passing function over an
      environment [SrvEnv], which is the file system, the user database and the
      authentication.  [Account] has the rules for such functions, [Handlers] one
      lemma per handler, [FcallSpec] their properties.  [Sample] is an environment
      for concrete runs.
    - [Srv], [SrvSpec]: type check, fid lookup, dispatch and end of a request
      (srv.c, conn.c).  [Session] puts receiving, parsing and serving together for
      one connection.
    - [Queue]: requests with their reference counts, the work queues, flush, and
      the loops of the worker and read threads, as steps of threads in any order.
      [QueueSpec] is the abstract specification, [QueueInv], [QueueSim] and
      [QueueProps] the simulation, [QueueFlush] and [QueueServe] what follows for
      flushes and for liveness.
    - [Ctl], [CtlSpec]: the control file system.
    - [Conf], [ConfSpec], [Exports]: configuration, export options, and who may
      attach to what.
    - [Hash]: liblsd/hash.c; it refines a finite map.
    - [Ioctx], [DiodFid], [Ops]: diod_ioctx.c, diod_fid.c, diod_xattr.c and
      diod_ops.c in one state monad over a heap of paths and open files.
      [IoctxInv], [IoctxOpen], [OpsInv] and [OpsRules] are a small program logic
      for it with one rule per function; [OpsSpec] has the theorems on sequences of
      operations, [OpsSample] concrete runs.
    - [Format], [FormatSpec]: formatted text and the lines of ctl/tpools
      (npstring.c).  [Fmt], [FmtSpec]: the text of every message (fmt.c).
    - [Users], [UsersSpec], [UsersCalls]: the cache of users with its reference
      counts and lifetimes (user.c).  [Fsid], [FsidSpec], [FsidUsers]: how a worker
      thread takes the identity of a user (user-linux.c), and both together.
    - [Lists], [ListsSpec], [ListsRun], [ListsProps]: list.c, with nodes and
      iterators at pointer level; it refines sequences with cursors.
    - [Client], [ClientOps]: libnpclient over a peer that may answer anything.
      [ClientPool] is the pool of identifiers, [ClientInv], [ClientRules] and
      [ClientSpec] a program logic and what holds with any peer, [ClientRun] and
      [ClientFile] what holds with a server that keeps files, [ClientSample]
      concrete runs.
    - [Rawbuf]: buffers with bytes that were not written yet.
    - [DiodAuth], [DiodAuthSpec], [DiodAuthProps]: diod_auth.c, server and client;
      it refines a table of texts.  [AttachAuth]: what an attach calls when
      authentication is required.
    - [Opt], [OptSpec], [OptProps]: cmd/opt.c on the lists of [Lists].

    *** How C is modelled

    Integers are [Z] with the conversions that C makes ([u8] to [u64], [int32],
    [int64]); bytes and strings are lists of [Z]; structs are records, heaps finite
    maps from addresses to records, so that linked lists and reference counts are
    the ones of the code.  A function that can fail returns what the code returns
    (NULL is [None]); an access outside an object or to freed memory is [UB], a
    failed assertion [Abort].  [malloc] is a parameter: the class [CHeap] for the
    codec, a system call of [Os] for libdiod, an answer of the peer or of the
    outside world elsewhere.  Sums of [int]s that the code may overflow are written
    as such where a theorem depends on them (the counters of the client's loops, the
    sizes of messages and texts); reference counts and numbers of objects are
    unbounded, as 2^31 objects would have to exist at once.  Locks are not modelled as data: what
    runs under a lock is one step.  In [Queue] the steps of threads interleave; in
    [Fidpool] the two halves of [np_fid_decref] do; an operation of libdiod is one
    step.

    *** What is proved

    - Codec: [np_create_wire_format], [np_deserialize_create],
      [np_deserialize_in_bounds], [np_set_tag_deserialize],
      [p9dirent_roundtrip].
    - Transport: [np_fdtrans_recv_framing] and [_delivers], [np_trans_recv_safe],
      [np_fdtrans_send_exact], [message_end_to_end].
    - Fids: refinement of [np_fid_find], [np_fid_create] and [np_fid_decref],
      termination and completeness of [np_fidpool_destroy].
    - Requests: [received_requests_typed], [serve_request], [session_served],
      [read_only_fid], [handlers_without_fid].
    - Threads: [queues_refine], [requests_in_order], [requests_answered],
      [server_comes_to_rest], [no_reply_after_rflush].
    - File system: [operations_safe], [references_exact], [all_given_back],
      [open_shares]; the pool by [hash_refines_map].
    - Control files, configuration and exports: [ctl_read_whole],
      [ctl_list_whole], [config_file_reread], [parse_expopt_spec],
      [diod_match_exports_spec].
    - Texts: [tpools_roundtrip], [received_printed].
    - Users and identities: [users_accounted], [uid2user_identity],
      [afid2user_same], [usercache_text], [served_as_user],
      [lost_identity_refuses], [database_to_kernel].
    - Authentication: [auth_by_credential], [diod_auth_handshake],
      [attach_needs_auth].
    - Lists and options: [lists_are_sequences], [list_sort_sorts],
      [options_roundtrip], [options_answers].
    - Client: [client_calls_defined], [client_accounts], [by_path_gives_back],
      [npc_walk_correct], [npc_get_correct], [put_get_roundtrip],
      [identifiers_refine_set].
    - Runs in which the code goes wrong, found while proving the above:
      [preconditions_needed], [any_path_exported], [ctl_open_after_read],
      [reply_after_rflush], [recv_after_shrink_overflows], [np_fid_decref_race],
      [failed_auth_then_walk], [auth_write_overreads], [lookup_race],
      [user_failures], [setfsid_limits], [traced_time_crashes],
      [tpools_failures], [iterator_loses_current], [client_conditions_needed].

    *** Bounds and fuel

    Loops that are not structural take fuel, and the theorems say how much is
    enough: in [Transport] the reads that are pending, in [Fidpool] and [Ioctx] the
    number of objects on the heap, of which a list can hold each once, in [Users]
    the number of users, in [Lists] the number of nodes that there ever were, in
    [Opt] the length of the text, in [Client] the length of what is read or
    written, in [Ops] one more than the entries of a directory ([dir_max]).  Running
    out of it is [UB], or, in [Transport], in [Client] and for the loop of [aspf] in
    [Format], the outcome [None] of a call that does not return; the theorems that
    a function returns name the value, so that they also say that the fuel is
    enough.  The theorems on any sequence of client calls ([client_calls_defined],
    [client_accounts]) are about the calls that return.

    *** Not modelled

    The system behind system calls, the user database of the C library, MUNGE, Lua,
    the terminal and the RDMA libraries are parameters or left out: rdmatrans.c and
    diod_rdma.c are sequences of calls to the latter.  user-freebsd.c and
    user-stub.c are not compiled on Linux.  Creating and destroying thread pools and
    the server's list of connections (srv.c, conn.c) are left out.  The texts of the control files other
    than exports, tpools and users, logging and sockets (diod_log.c, diod_sock.c),
    the main programs and their argument parsing (cmd, but for opt.c), the host
    lists of liblsd, which only the commands and the exports use and which are a
    parameter of [Exports], the mutexes of thread.c, and the test programs
    (libtest, libtap) are not modelled. *)

From Stdlib Require Export Lia.
From stdpp Require Export base numbers list option.

#[global] Open Scope Z_scope.

(** ** Machine integers

    A w-bit C integer is a [Z]; the conversions below are the ones C performs
    on assignment, on parameter passing and on [return]. *)

Definition u8 (z : Z) : Z := z mod 2 ^ 8.
Definition u16 (z : Z) : Z := z mod 2 ^ 16.
Definition u32 (z : Z) : Z := z mod 2 ^ 32.
Definition u64 (z : Z) : Z := z mod 2 ^ 64.
Definition int32 (z : Z) : Z := (z + 2 ^ 31) mod 2 ^ 32 - 2 ^ 31.
Definition int64 (z : Z) : Z := (z + 2 ^ 63) mod 2 ^ 64 - 2 ^ 63.

Definition zlength {A} (l : list A) : Z := Z.of_nat (length l).

(** ** Outcomes of C code

    [Ret a] is a normal return, [UB] an access outside the object a pointer
    was derived from, [Abort] a failed [NP_ASSERT] or [assert] (both raise
    [SIGABRT]). *)

Inductive res (A : Type) : Type :=
| Ret (a : A)
| UB
| Abort.
Arguments Ret {A} a.
Arguments UB {A}.
Arguments Abort {A}.

Definition res_bind {A B} (c : res A) (f : A -> res B) : res B :=
  match c with
  | Ret a => f a
  | UB => UB
  | Abort => Abort
  end.

(** [NP_ASSERT (b)] *)
Definition np_assert (b : bool) : res unit := if b then Ret tt else Abort.

(** ** Error codes (Linux) *)
Definition EPERM : Z := 1.
Definition EIO : Z := 5.
Definition ENOMEM : Z := 12.
Definition EEXIST : Z := 17.
Definition EINVAL : Z := 22.
Definition EROFS : Z := 30.
Definition ENOSYS : Z := 38.
Definition EPROTO : Z := 71.

Declare Scope diod_scope.
Delimit Scope diod_scope with diod.
#[global] Open Scope diod_scope.

Notation "'let!' x ':=' c 'in' k" := (res_bind c (fun x => k))
  (at level 10, x pattern, c at level 100, k at level 200)
  : diod_scope.

(** ** Byte memory

    An object is the list of its bytes; a pointer into it is a [Z] offset.
    Reads and writes outside the object are [UB]. *)

Definition load_bytes (m : list Z) (a n : Z) : res (list Z) :=
  if (0 <=? a) && (0 <=? n) && (a + n <=? zlength m)
  then Ret (take (Z.to_nat n) (drop (Z.to_nat a) m)) else UB.

Definition store_bytes (m : list Z) (a : Z) (bs : list Z) : res (list Z) :=
  if (0 <=? a) && (a + zlength bs <=? zlength m)
  then Ret (take (Z.to_nat a) m ++ bs ++ drop (Z.to_nat a + length bs) m)
  else UB.

Definition load_byte (m : list Z) (a : Z) : res Z :=
  if 0 <=? a then
    match m !! Z.to_nat a with
    | Some b => Ret b
    | None => UB
    end
  else UB.

(** Little-endian value of a byte string, the reference definition the shift
    and mask code of np.c is compared with. *)
Fixpoint le_value (bs : list Z) : Z :=
  match bs with
  | [] => 0
  | b :: bs => b + 2 ^ 8 * le_value bs
  end.

Fixpoint le_bytes (n : nat) (v : Z) : list Z :=
  match n with
  | O => []
  | S n => v mod 2 ^ 8 :: le_bytes n (v / 2 ^ 8)
  end.

(** ** The C heap

    [malloc n] is either [NULL] or a block of [n] bytes with indeterminate
    contents; [undef] is what a scalar that was never written holds. *)
Class CHeap := {
  malloc : Z -> option (list Z);
  undef : Z;
  malloc_length : forall n b, 0 <= n -> malloc n = Some b -> zlength b = n;
}.

(** A heap that always has room, for concrete runs. *)
Definition big_heap : CHeap := {|
  malloc n := Some (replicate (Z.to_nat n) 0);
  undef := 0;
  malloc_length := fun n b Hn E => ltac:(
    injection E as <-; unfold zlength; rewrite length_replicate; lia);
|}.

(** ** Automation *)

Create HintDb machine.
Create HintDb codec.
Create HintDb cbuf.
Create Rewrite HintDb zlen.

Ltac simpl_res :=
  repeat match goal with
  | H : Ret _ = Ret _ |- _ => injection H as H; subst
  | H : Ret _ = UB |- _ => discriminate H
  | H : UB = Ret _ |- _ => discriminate H
  | H : Abort = Ret _ |- _ => discriminate H
  | H : (_, _) = (_, _) |- _ => injection H as ?; subst
  end.

(** Case analysis on the integer comparisons of the goal or a hypothesis. *)
Ltac zcases :=
  repeat match goal with
  | |- context [?a <=? ?b] => destruct (Z.leb_spec a b)
  | |- context [?a <? ?b] => destruct (Z.ltb_spec a b)
  | |- context [?a =? ?b] => destruct (Z.eqb_spec a b)
  | H : context [?a <=? ?b] |- _ => destruct (Z.leb_spec a b)
  | H : context [?a <? ?b] |- _ => destruct (Z.ltb_spec a b)
  | H : context [?a =? ?b] |- _ => destruct (Z.eqb_spec a b)
  end.

(** Inversion of a [res_bind] that returned. *)
Ltac inv_bind H :=
  match type of H with
  | res_bind ?c _ = Ret _ =>
      let a := fresh "a" in
      let E := fresh "E" in
      destruct c as [a| |] eqn:E; cbn [res_bind] in H; try discriminate H
  end.

(** ** Lemmas on machine integers *)

Lemma u8_range z : 0 <= u8 z < 2 ^ 8.
Proof. apply Z.mod_pos_bound; lia. Qed.

Lemma u16_range z : 0 <= u16 z < 2 ^ 16.
Proof. apply Z.mod_pos_bound; lia. Qed.

Lemma u32_range z : 0 <= u32 z < 2 ^ 32.
Proof. apply Z.mod_pos_bound; lia. Qed.

Lemma u64_range z : 0 <= u64 z < 2 ^ 64.
Proof. apply Z.mod_pos_bound; lia. Qed.

Lemma int32_range z : - 2 ^ 31 <= int32 z < 2 ^ 31.
Proof.
  unfold int32. pose proof (Z.mod_pos_bound (z + 2 ^ 31) (2 ^ 32)). lia.
Qed.

Lemma u16_small z : 0 <= z < 2 ^ 16 -> u16 z = z.
Proof. apply Z.mod_small. Qed.

Lemma u32_small z : 0 <= z < 2 ^ 32 -> u32 z = z.
Proof. apply Z.mod_small. Qed.

Lemma u64_small z : 0 <= z < 2 ^ 64 -> u64 z = z.
Proof. apply Z.mod_small. Qed.

Lemma u8_small z : 0 <= z < 2 ^ 8 -> u8 z = z.
Proof. apply Z.mod_small. Qed.

Lemma int32_small z : - 2 ^ 31 <= z < 2 ^ 31 -> int32 z = z.
Proof. intros. unfold int32. rewrite Z.mod_small; lia. Qed.

Lemma u32_int32 z : u32 (int32 z) = u32 z.
Proof.
  unfold u32, int32. rewrite Zminus_mod_idemp_l. f_equal. lia.
Qed.

(** A u32 at or above 2^31 becomes negative when it is passed as an [int]. *)
Lemma int32_wrap z : 2 ^ 31 <= z < 2 ^ 32 -> int32 z = z - 2 ^ 32.
Proof.
  intros. unfold int32.
  rewrite <- (Z.mod_unique (z + 2 ^ 31) (2 ^ 32) 1 (z - 2 ^ 31)); lia.
Qed.

#[export] Hint Resolve u8_range u16_range u32_range u64_range : machine.

(** ** Lemmas on byte memory *)

Lemma zlength_nonneg {A} (l : list A) : 0 <= zlength l.
Proof. unfold zlength. lia. Qed.

Lemma zlength_app {A} (l k : list A) : zlength (l ++ k) = zlength l + zlength k.
Proof. unfold zlength. rewrite length_app. lia. Qed.

Lemma load_bytes_Ret m a n bs :
  load_bytes m a n = Ret bs <->
  0 <= a /\ 0 <= n /\ a + n <= zlength m /\
  bs = take (Z.to_nat n) (drop (Z.to_nat a) m).
Proof.
  unfold load_bytes. split.
  - intros H. destruct (_ && _) eqn:E; simpl_res.
    rewrite !andb_true_iff, !Z.leb_le in E. tauto.
  - intros (?&?&?&->). rewrite !(proj2 (Z.leb_le _ _)) by lia. done.
Qed.

Lemma load_bytes_length m a n bs : load_bytes m a n = Ret bs -> zlength bs = n.
Proof.
  rewrite load_bytes_Ret. intros (?&?&?&->). unfold zlength in *.
  rewrite length_take, length_drop. lia.
Qed.

Lemma store_bytes_Ret m a bs m' :
  store_bytes m a bs = Ret m' <->
  0 <= a /\ a + zlength bs <= zlength m /\
  m' = take (Z.to_nat a) m ++ bs ++ drop (Z.to_nat a + length bs) m.
Proof.
  unfold store_bytes. split.
  - intros H. destruct (_ && _) eqn:E; simpl_res.
    rewrite !andb_true_iff, !Z.leb_le in E. tauto.
  - intros (?&?&->). rewrite !(proj2 (Z.leb_le _ _)) by lia. done.
Qed.

Lemma store_bytes_length m a bs m' :
  store_bytes m a bs = Ret m' -> length m' = length m.
Proof.
  rewrite store_bytes_Ret. unfold zlength. intros (?&?&->).
  rewrite !length_app, length_take, length_drop. lia.
Qed.

Lemma store_bytes_lookup_in m a bs m' i :
  store_bytes m a bs = Ret m' -> (i < length bs)%nat ->
  m' !! (Z.to_nat a + i)%nat = bs !! i.
Proof.
  rewrite store_bytes_Ret. unfold zlength. intros (?&?&->) Hi.
  rewrite lookup_app_r by (rewrite length_take; lia).
  rewrite length_take, lookup_app_l by lia. f_equal. lia.
Qed.

Lemma store_bytes_lookup_out m a bs m' (i : nat) :
  store_bytes m a bs = Ret m' ->
  (Z.of_nat i < a \/ a + zlength bs <= Z.of_nat i) -> m' !! i = m !! i.
Proof.
  rewrite store_bytes_Ret. unfold zlength. intros (?&?&->) Hi.
  destruct (decide (i < Z.to_nat a)%nat).
  - rewrite lookup_app_l by (rewrite length_take; lia).
    apply lookup_take_lt. lia.
  - rewrite lookup_app_r by (rewrite length_take; lia).
    rewrite lookup_app_r by (rewrite length_take; lia).
    rewrite length_take, lookup_drop. f_equal. lia.
Qed.

(** ** Little-endian lemmas *)

Lemma le_bytes_length n v : length (le_bytes n v) = n.
Proof. revert v; induction n; intros; cbn; auto. Qed.

Lemma le_value_bytes n v : le_value (le_bytes n v) = v mod 2 ^ (8 * Z.of_nat n).
Proof.
  revert v; induction n as [|n IH]; intros v; cbn [le_bytes le_value].
  - rewrite Z.mod_1_r; done.
  - rewrite IH. replace (8 * Z.of_nat (S n)) with (8 + 8 * Z.of_nat n) by lia.
    rewrite Z.pow_add_r, Z.rem_mul_r by lia. lia.
Qed.

Lemma le_value_range bs :
  Forall (fun b => 0 <= b < 2 ^ 8) bs -> 0 <= le_value bs < 2 ^ (8 * zlength bs).
Proof.
  induction 1 as [|b bs Hb _ IH]; cbn [le_value]; [done|].
  unfold zlength in *. cbn [length].
  replace (8 * Z.of_nat (S (length bs))) with (8 + 8 * Z.of_nat (length bs)) by lia.
  rewrite Z.pow_add_r by lia. lia.
Qed.

Lemma store_bytes_ok m a bs : 0 <= a -> a + zlength bs <= zlength m ->
  store_bytes m a bs =
  Ret (take (Z.to_nat a) m ++ bs ++ drop (Z.to_nat a + length bs) m).
Proof. intros. apply store_bytes_Ret. done. Qed.

Lemma load_bytes_ok m a n : 0 <= a -> 0 <= n -> a + n <= zlength m ->
  load_bytes m a n = Ret (take (Z.to_nat n) (drop (Z.to_nat a) m)).
Proof. intros. apply load_bytes_Ret. done. Qed.
