(* ===== verification/Cbuf.v ===== *)
(** * The bounds-checked buffer of libnpfs/np.c

    [struct cbuf] and its accessors, in the state-and-error monad [M].  The
    three pointers of the struct are offsets into the packet [mem]; [p] may
    run one past [ep], which is how the code records an overflow and tests it
    once at the end.  Flat 64-bit addresses are assumed: [p + len] does not
    wrap around the address space.

    Two relations carry the proofs of the whole codec.  [Writes c n]: the
    encoder [c] writes exactly [n] bytes when they fit and overflows
    otherwise, without ever touching memory outside the packet.  [Codec c g]:
    whatever [c] wrote without overflow, the decoder [g] reads back as the
    same value from any packet with these bytes. *)
From S2P Require Import Prelude.

Record cbuf := {
  mem : list Z;
  sp : Z;
  p : Z;
  ep : Z;
}.

Definition set_p (q : Z) (b : cbuf) : cbuf :=
  {| mem := mem b; sp := sp b; p := q; ep := ep b |}.

Definition set_mem (m : list Z) (b : cbuf) : cbuf :=
  {| mem := m; sp := sp b; p := p b; ep := ep b |}.

(** [Npstr] and [Npqid]: the string is a view of the packet. *)
Record Npstr := { len : Z; str : option Z }.
Record Npqid := { qtype : Z; qversion : Z; qpath : Z }.

Definition M (A : Type) : Type := cbuf -> res (A * cbuf).

Definition ret {A} (a : A) : M A := fun b => Ret (a, b).

Definition bind {A B} (c : M A) (f : A -> M B) : M B :=
  fun b => let! (a, b') := c b in f a b'.

Notation "'let*' x ':=' c 'in' k" := (bind c (fun x => k))
  (at level 10, x name, c at level 100, k at level 200) : diod_scope.

Definition buf_init (m : list Z) (data datalen : Z) : cbuf :=
  {| mem := m; sp := data; p := data; ep := data + int32 datalen |}.

Definition buf_check_overflow (b : cbuf) : bool := ep b <? p b.

Definition buf_check_size (n : Z) : M bool := fun b =>
  let n := int32 n in
  if ep b <? p b + n then
    Ret (false, if p b <=? ep b then set_p (ep b + 1) b else b)
  else Ret (true, b).

Definition buf_alloc (n : Z) : M (option Z) :=
  let* ok := buf_check_size n in
  if ok then fun b => Ret (Some (p b), set_p (p b + int32 n) b)
  else ret None.

(** The stores [buf->p[0] = ..; buf->p[1] = ..; ..; buf->p += n]. *)
Definition buf_store (bs : list Z) : M unit := fun b =>
  let! m := store_bytes (mem b) (p b) bs in
  Ret (tt, set_p (p b + zlength bs) (set_mem m b)).

(** The loads [buf->p[0], .., buf->p[n-1]; buf->p += n]. *)
Definition buf_load (n : Z) : M (list Z) := fun b =>
  let! bs := load_bytes (mem b) (p b) n in
  Ret (bs, set_p (p b + n) b).

(** [memmove (dst, s, n)] into the packet. *)
Definition buf_memmove (dst : option Z) (s : list Z) : M unit := fun b =>
  match dst with
  | Some a => let! m := store_bytes (mem b) a s in Ret (tt, set_mem m b)
  | None => UB
  end.

(** A C string argument: [None] is [NULL]; the bytes exclude the terminating
    zero, so [strlen] is their number. *)
Definition cstr := list Z.
Definition strlen (s : cstr) : Z := zlength s.
Definition strlen_opt (s : option cstr) : Z :=
  match s with Some s => strlen s | None => 0 end.

Section Put.
Context `{CHeap}.

(** Each writer returns the value it stores through its [pval] argument; when
    the size check fails that variable is left as it was. *)
Definition buf_put_int8 (val : Z) : M Z :=
  let val := u8 val in
  let* ok := buf_check_size 1 in
  if ok then let* _ := buf_store [val] in ret val else ret undef.

Definition buf_put_int16 (val : Z) : M Z :=
  let val := u16 val in
  let* ok := buf_check_size 2 in
  if ok then
    let* _ := buf_store [u8 val; u8 (Z.shiftr val 8)] in ret val
  else ret undef.

Definition buf_put_int32 (val : Z) : M Z :=
  let val := u32 val in
  let* ok := buf_check_size 4 in
  if ok then
    let* _ := buf_store [u8 val; u8 (Z.shiftr val 8);
                         u8 (Z.shiftr val 16); u8 (Z.shiftr val 24)] in
    ret val
  else ret undef.

Definition buf_put_int64 (val : Z) : M Z :=
  let val := u64 val in
  let* ok := buf_check_size 8 in
  if ok then
    let* _ := buf_store [u8 val; u8 (Z.shiftr val 8);
                         u8 (Z.shiftr val 16); u8 (Z.shiftr val 24);
                         u8 (Z.shiftr val 32); u8 (Z.shiftr val 40);
                         u8 (Z.shiftr val 48); u8 (Z.shiftr val 56)] in
    ret val
  else ret undef.

Definition buf_put_str (s : option cstr) : M Npstr :=
  let slen := int32 (strlen_opt s) in
  let* ok := buf_check_size (2 + slen) in
  if ok then
    let* _ := buf_put_int16 slen in
    let* str := buf_alloc slen in
    match s with
    | Some s =>
        if slen <? 0 then fun _ => UB
        else let* _ := buf_memmove str s in ret {| len := u16 slen; str := str |}
    | None => ret {| len := u16 slen; str := str |}
    end
  else ret {| len := undef; str := None |}.

Definition buf_put_qid (qid : Npqid) : M Npqid :=
  let* t := buf_put_int8 (qtype qid) in
  let* v := buf_put_int32 (qversion qid) in
  let* q := buf_put_int64 (qpath qid) in
  ret {| qtype := t; qversion := v; qpath := q |}.
End Put.

Definition byte_at (bs : list Z) (i : nat) : Z := default 0 (bs !! i).

Definition buf_get_int8 : M Z :=
  let* ok := buf_check_size 1 in
  if ok then let* bs := buf_load 1 in ret (u8 (byte_at bs 0)) else ret 0.

Definition buf_get_int16 : M Z :=
  let* ok := buf_check_size 2 in
  if ok then
    let* bs := buf_load 2 in
    ret (u16 (Z.lor (byte_at bs 0) (Z.shiftl (byte_at bs 1) 8)))
  else ret 0.

Definition buf_get_int32 : M Z :=
  let* ok := buf_check_size 4 in
  if ok then
    let* bs := buf_load 4 in
    ret (u32 (Z.lor (Z.lor (Z.lor (byte_at bs 0)
       (Z.shiftl (byte_at bs 1) 8)) (Z.shiftl (byte_at bs 2) 16))
       (Z.shiftl (byte_at bs 3) 24)))
  else ret 0.

Definition buf_get_int64 : M Z :=
  let* ok := buf_check_size 8 in
  if ok then
    let* bs := buf_load 8 in
    ret (u64 (Z.lor (Z.lor (Z.lor (Z.lor (Z.lor (Z.lor (Z.lor (byte_at bs 0)
       (Z.shiftl (byte_at bs 1) 8)) (Z.shiftl (byte_at bs 2) 16))
       (Z.shiftl (byte_at bs 3) 24)) (Z.shiftl (byte_at bs 4) 32))
       (Z.shiftl (byte_at bs 5) 40)) (Z.shiftl (byte_at bs 6) 48))
       (Z.shiftl (byte_at bs 7) 56)))
  else ret 0.

Definition buf_get_str : M Npstr :=
  let* n := buf_get_int16 in
  let* s := buf_alloc n in
  ret {| len := n; str := s |}.

Definition buf_get_qid : M Npqid :=
  let* t := buf_get_int8 in
  let* v := buf_get_int32 in
  let* q := buf_get_int64 in
  ret {| qtype := t; qversion := v; qpath := q |}.

(** Array loops [for (i = 0; i < n; i++) c (a[i])]. *)
Fixpoint for_each {A B} (n : nat) (f : A -> M B) (l : list A) : M (list B) :=
  match n with
  | O => ret []
  | S n =>
      match l with
      | [] => fun _ => UB
      | x :: l =>
          let* y := f x in
          let* ys := for_each n f l in
          ret (y :: ys)
      end
  end.

Fixpoint for_times {B} (n : nat) (c : M B) : M (list B) :=
  match n with
  | O => ret []
  | S n =>
      let* y := c in
      let* ys := for_times n c in
      ret (y :: ys)
  end.

(** ** Specifications *)

(** The packet holds all that the bounds admit. *)
Definition wf_cbuf (b : cbuf) : Prop := 0 <= p b /\ ep b <= zlength (mem b).

Definition same_bounds (b b' : cbuf) : Prop :=
  sp b' = sp b /\ ep b' = ep b /\ length (mem b') = length (mem b).

Record Writes {A} (c : M A) (n : Z) : Prop := {
  writes_nonneg : 0 <= n;
  writes_run : forall b, wf_cbuf b -> exists v b',
    c b = Ret (v, b') /\ same_bounds b b' /\ wf_cbuf b' /\
    (p b + n <= ep b -> p b' = p b + n) /\ (ep b < p b + n -> ep b < p b');
}.

(** The same position in another buffer. *)
Definition view (m : list Z) (s e : Z) (b : cbuf) : cbuf :=
  {| mem := m; sp := s; p := p b; ep := e |}.

(** The part of [Writes] that matters behind a size check. *)
Definition WritesFit {A} (c : M A) (n : Z) : Prop :=
  forall b, wf_cbuf b -> p b + n <= ep b -> exists v b',
    c b = Ret (v, b') /\ same_bounds b b' /\ wf_cbuf b' /\ p b' = p b + n.

Record read_back {A} (g : M A) (b : cbuf) (v : A) (b' : cbuf) : Prop := {
  rb_same : same_bounds b b';
  rb_p : p b <= p b' <= ep b;
  rb_out : forall i : nat,
    Z.of_nat i < p b \/ p b' <= Z.of_nat i -> mem b' !! i = mem b !! i;
  rb_get : forall m s e, p b' <= e -> p b' <= zlength m ->
    (forall i : nat, p b <= Z.of_nat i < p b' -> m !! i = mem b' !! i) ->
    g (view m s e b) = Ret (v, view m s e b');
}.

Record Codec {A} (c g : M A) : Prop := {
  codec_read_back : forall b v b', 0 <= p b -> c b = Ret (v, b') ->
    p b' <= ep b' -> read_back g b v b';
  codec_sticky : forall b v b', 0 <= p b -> ep b < p b -> c b = Ret (v, b') ->
    ep b' < p b';
  codec_pos : forall b v b', 0 <= p b -> c b = Ret (v, b') -> 0 <= p b';
}.

(** Total correctness of a decoder step. *)
Definition triple {A} (P : cbuf -> Prop) (c : M A) (Q : A -> cbuf -> Prop) : Prop :=
  forall b, P b -> exists v b', c b = Ret (v, b') /\ Q v b'.

(** ** Arithmetic of the byte codes *)

Lemma lor_shiftl_add a b k : 0 <= k -> 0 <= a < 2 ^ k -> 0 <= b ->
  Z.lor a (Z.shiftl b k) = a + 2 ^ k * b.
Proof.
  intros Hk Ha Hb. assert (Hd : Z.land a (Z.shiftl b k) = 0).
  { apply Z.bits_inj'. intros i Hi. rewrite Z.land_spec, Z.bits_0.
    destruct (Z.lt_ge_cases i k).
    - rewrite Z.shiftl_spec_low by lia. apply andb_false_r.
    - rewrite <- (Z.mod_small a (2 ^ k)), Z.mod_pow2_bits_high by lia. done. }
  rewrite <- Z.lxor_lor, <- Z.add_nocarry_lxor, Z.shiftl_mul_pow2 by done. lia.
Qed.

Lemma le_bytes_2 v : [u8 v; u8 (Z.shiftr v 8)] = le_bytes 2 v.
Proof.
  cbn. unfold u8. rewrite !Z.shiftr_div_pow2, ?Z.div_div by lia. done.
Qed.

Lemma le_bytes_4 v :
  [u8 v; u8 (Z.shiftr v 8); u8 (Z.shiftr v 16); u8 (Z.shiftr v 24)] = le_bytes 4 v.
Proof.
  cbn. unfold u8. rewrite !Z.shiftr_div_pow2, ?Z.div_div by lia. done.
Qed.

Lemma le_bytes_8 v :
  [u8 v; u8 (Z.shiftr v 8); u8 (Z.shiftr v 16); u8 (Z.shiftr v 24);
   u8 (Z.shiftr v 32); u8 (Z.shiftr v 40); u8 (Z.shiftr v 48);
   u8 (Z.shiftr v 56)] = le_bytes 8 v.
Proof.
  cbn. unfold u8. rewrite !Z.shiftr_div_pow2, ?Z.div_div by lia. done.
Qed.

Lemma le_bytes_bytes n v : Forall (fun b => 0 <= b < 2 ^ 8) (le_bytes n v).
Proof.
  revert v; induction n; intros; cbn [le_bytes]; constructor; auto.
  apply Z.mod_pos_bound. lia.
Qed.

(** The ranges of a list of named bytes. *)
Ltac byte_list :=
  repeat match goal with
  | H : Forall _ (?b :: _) |- _ =>
      let Hb := fresh "Hb" in
      pose proof (Forall_inv H) as Hb; cbv beta in Hb; apply Forall_inv_tail in H
  end;
  unfold byte_at; cbn [lookup list_lookup default le_value from_option id].

Lemma get16_le bs : zlength bs = 2 -> Forall (fun b => 0 <= b < 2 ^ 8) bs ->
  u16 (Z.lor (byte_at bs 0) (Z.shiftl (byte_at bs 1) 8)) = le_value bs.
Proof.
  intros Hl Hb.
  destruct bs as [|b0 [|b1 [|]]]; try (unfold zlength in Hl; cbn in Hl; lia).
  byte_list.
  rewrite lor_shiftl_add by lia. unfold u16. rewrite Z.mod_small; lia.
Qed.

Lemma get32_le bs : zlength bs = 4 -> Forall (fun b => 0 <= b < 2 ^ 8) bs ->
  u32 (Z.lor (Z.lor (Z.lor (byte_at bs 0)
       (Z.shiftl (byte_at bs 1) 8)) (Z.shiftl (byte_at bs 2) 16))
       (Z.shiftl (byte_at bs 3) 24)) = le_value bs.
Proof.
  intros Hl Hb.
  destruct bs as [|b0 [|b1 [|b2 [|b3 [|]]]]]; try (unfold zlength in Hl; cbn in Hl; lia).
  byte_list.
  rewrite (lor_shiftl_add b0 b1 8), (lor_shiftl_add _ b2 16),
    (lor_shiftl_add _ b3 24) by lia.
  unfold u32. rewrite Z.mod_small; lia.
Qed.

Lemma get64_le bs : zlength bs = 8 -> Forall (fun b => 0 <= b < 2 ^ 8) bs ->
  u64 (Z.lor (Z.lor (Z.lor (Z.lor (Z.lor (Z.lor (Z.lor (byte_at bs 0)
       (Z.shiftl (byte_at bs 1) 8)) (Z.shiftl (byte_at bs 2) 16))
       (Z.shiftl (byte_at bs 3) 24)) (Z.shiftl (byte_at bs 4) 32))
       (Z.shiftl (byte_at bs 5) 40)) (Z.shiftl (byte_at bs 6) 48))
       (Z.shiftl (byte_at bs 7) 56)) = le_value bs.
Proof.
  intros Hl Hb.
  destruct bs as [|b0 [|b1 [|b2 [|b3 [|b4 [|b5 [|b6 [|b7 [|]]]]]]]]]; try (unfold zlength in Hl; cbn in Hl; lia).
  byte_list.
  rewrite (lor_shiftl_add b0 b1 8), (lor_shiftl_add _ b2 16),
    (lor_shiftl_add _ b3 24), (lor_shiftl_add _ b4 32), (lor_shiftl_add _ b5 40),
    (lor_shiftl_add _ b6 48), (lor_shiftl_add _ b7 56) by lia.
  unfold u64. rewrite Z.mod_small; lia.
Qed.

Lemma strlen_nonneg s : 0 <= strlen s.
Proof. apply zlength_nonneg. Qed.

Lemma strlen_opt_nonneg s : 0 <= strlen_opt s.
Proof. destruct s; cbn; [apply strlen_nonneg|lia]. Qed.

(** ** Sequencing *)

Lemma bind_Ret {A B} (c : M A) (f : A -> M B) b v b' :
  bind c f b = Ret (v, b') -> exists a b1, c b = Ret (a, b1) /\ f a b1 = Ret (v, b').
Proof.
  unfold bind. intros H. inv_bind H. destruct a. eauto.
Qed.

Lemma same_bounds_trans b1 b2 b3 :
  same_bounds b1 b2 -> same_bounds b2 b3 -> same_bounds b1 b3.
Proof. unfold same_bounds. intros (->&->&->) (->&->&->). done. Qed.

Lemma same_bounds_refl b : same_bounds b b.
Proof. done. Qed.

Lemma writes_ret {A} (a : A) : Writes (ret a) 0.
Proof.
  split; [lia|]. intros b Hb. exists a, b.
  split; [done|]. split; [done|]. split; [done|]. lia.
Qed.

Lemma writes_bind {A B} (c : M A) (f : A -> M B) n k :
  Writes c n -> (forall a, Writes (f a) k) -> Writes (bind c f) (n + k).
Proof.
  intros [Hn Hc] Hf. split.
  - destruct (Hc {| mem := []; sp := 0; p := 0; ep := 0 |}) as (a & _).
    { split; cbn; unfold zlength; cbn; lia. }
    pose proof (writes_nonneg _ _ (Hf a)). lia.
  - intros b Hb. destruct (Hc b Hb) as (a & b1 & E1 & S1 & W1 & Hin & Hout).
    destruct (Hf a) as [Hk Hrun].
    destruct (Hrun b1 W1) as (v & b2 & E2 & S2 & W2 & Hin2 & Hout2).
    exists v, b2. unfold bind. rewrite E1. cbn. split; [done|].
    split; [eapply same_bounds_trans; eauto|]. split; [done|].
    destruct S1 as (_&He&_). rewrite He in *. lia.
Qed.

Lemma writes_fit {A} (c : M A) n : Writes c n -> WritesFit c n.
Proof.
  intros [_ Hc] b Hb Hfit. destruct (Hc b Hb) as (v & b' & ? & ? & ? & ? & ?).
  eauto 10.
Qed.

Lemma writes_fit_bind {A B} (c : M A) (f : A -> M B) n k : 0 <= k ->
  WritesFit c n -> (forall a, WritesFit (f a) k) -> WritesFit (bind c f) (n + k).
Proof.
  intros Hk Hc Hf b Hb Hfit.
  destruct (Hc b Hb) as (a & b1 & E1 & S1 & W1 & P1); [lia|].
  pose proof S1 as (_ & He & _).
  destruct (Hf a b1 W1) as (v & b2 & E2 & S2 & W2 & P2); [lia|].
  exists v, b2. unfold bind. rewrite E1. cbn. split; [done|].
  split; [eapply same_bounds_trans; eauto|]. split; [done|lia].
Qed.

Lemma writes_fit_bind_ret {A B} (c : M A) (h : A -> B) n :
  WritesFit c n -> WritesFit (let* a := c in ret (h a)) n.
Proof.
  intros Hc. rewrite <- (Z.add_0_r n). apply writes_fit_bind; [lia|done|].
  intros. apply writes_fit, writes_ret.
Qed.

Lemma codec_ret {A} (a : A) : Codec (ret a) (ret a).
Proof.
  split; unfold ret; intros; simpl_res; [|lia|lia].
  split; [done|lia|done|done].
Qed.

(** The continuations need only agree on the values the encoder can return
    without overflowing. *)
Lemma codec_bind_val {A B} (c g : M A) (f k : A -> M B) :
  Codec c g ->
  (forall a b b1, c b = Ret (a, b1) -> p b1 <= ep b1 -> Codec (f a) (k a)) ->
  (forall a, exists h, Codec (f a) h) ->
  Codec (bind c f) (bind g k).
Proof.
  intros [Hc Sc Pc] Hv Hf. split.
  - intros b v b2 Hb H Hok. apply bind_Ret in H as (a & b1 & E1 & E2).
    destruct (Hf a) as [h [_ Sk _]]. pose proof (Pc _ _ _ Hb E1) as Hb1.
    destruct (Z.lt_ge_cases (ep b1) (p b1)) as [Hov|Hok1].
    { pose proof (Sk _ _ _ Hb1 Hov E2). lia. }
    destruct (Hv a _ _ E1 Hok1) as [Hk _ _].
    destruct (Hc _ _ _ Hb E1 Hok1) as [R1 P1 O1 G1].
    destruct (Hk _ _ _ Hb1 E2 Hok) as [R2 P2 O2 G2].
    pose proof R1 as (_&He&Hl). split.
    + eapply same_bounds_trans; eauto.
    + lia.
    + intros i Hi. rewrite O2, O1 by lia. done.
    + intros m s e Hm Hl' Hag. unfold bind. rewrite G1; cbn; [|lia|lia|].
      * apply G2; [lia|lia|]. intros i Hi. apply Hag. lia.
      * intros i Hi. rewrite Hag, O2 by lia. done.
  - intros b v b2 Hb Ho H. apply bind_Ret in H as (a & b1 & E1 & E2).
    destruct (Hf a) as [h Hh]. eapply (codec_sticky _ _ Hh b1); eauto.
  - intros b v b2 Hb H. apply bind_Ret in H as (a & b1 & E1 & E2).
    destruct (Hf a) as [h Hh]. eapply (codec_pos _ _ Hh b1); eauto.
Qed.

Lemma codec_bind {A B} (c g : M A) (f k : A -> M B) :
  Codec c g -> (forall a, Codec (f a) (k a)) -> Codec (bind c f) (bind g k).
Proof. intros Hc Hf. apply codec_bind_val; eauto. Qed.

Lemma writes_ext {A} (c c' : M A) n : (forall b, c b = c' b) -> Writes c' n -> Writes c n.
Proof. intros E [Hn Hc]. split; [done|]. intros b Hb. rewrite E. auto. Qed.

Lemma codec_ext {A} (c c' g : M A) : (forall b, c b = c' b) -> Codec c' g -> Codec c g.
Proof. intros E [Hc Sc Pc]. split; intros b v b'; rewrite E; eauto. Qed.

(** ** The primitive accessors *)

Lemma check_size_run n b : 0 <= n < 2 ^ 31 ->
  buf_check_size n b =
  if p b + n <=? ep b then Ret (true, b)
  else Ret (false, if p b <=? ep b then set_p (ep b + 1) b else b).
Proof.
  intros. unfold buf_check_size. rewrite int32_small by lia. zcases; done || lia.
Qed.

Lemma alloc_run n b : 0 <= n < 2 ^ 31 ->
  buf_alloc n b =
  if p b + n <=? ep b then Ret (Some (p b), set_p (p b + n) b)
  else Ret (None, if p b <=? ep b then set_p (ep b + 1) b else b).
Proof.
  intros. unfold buf_alloc, bind. rewrite check_size_run by lia.
  zcases; cbn; rewrite ?int32_small by lia; done.
Qed.

(** The shape shared by the four integer writers, and by the readers. *)
Section Scalar.
Context (n : Z) (bs : list Z) (val dflt : Z) (dec : list Z -> Z).
Hypothesis Hn : 0 <= n < 2 ^ 31.
Hypothesis Hbs : zlength bs = n.
Hypothesis Hdec : dec bs = val.

Definition put_scalar : M Z :=
  let* ok := buf_check_size n in
  if ok then let* _ := buf_store bs in ret val else ret dflt.

Definition get_scalar : M Z :=
  let* ok := buf_check_size n in
  if ok then let* bs := buf_load n in ret (dec bs) else ret 0.

Lemma put_scalar_run b : wf_cbuf b ->
  put_scalar b =
  if p b + n <=? ep b then
    Ret (val, set_p (p b + n) (set_mem
      (take (Z.to_nat (p b)) (mem b) ++ bs ++
       drop (Z.to_nat (p b) + length bs) (mem b)) b))
  else Ret (dflt, if p b <=? ep b then set_p (ep b + 1) b else b).
Proof.
  intros [Hp He]. unfold put_scalar, bind. rewrite check_size_run by lia.
  destruct (Z.leb_spec (p b + n) (ep b)); cbn; [|done].
  unfold buf_store. rewrite store_bytes_ok by lia.
  cbn. rewrite Hbs. done.
Qed.

Lemma put_scalar_writes : Writes put_scalar n.
Proof.
  split; [lia|]. intros b Hb. rewrite put_scalar_run by done. destruct Hb as [Hp He].
  destruct (Z.leb_spec (p b + n) (ep b)) as [Hfit|Hov].
  - eexists _, _. split; [done|]. unfold zlength in *.
    assert (Hl : length (take (Z.to_nat (p b)) (mem b) ++ bs ++
      drop (Z.to_nat (p b) + length bs) (mem b)) = length (mem b)).
    { rewrite !length_app, length_take, length_drop. lia. }
    split; [done|]. split; [split; unfold zlength; cbn; lia|]. cbn. lia.
  - eexists _, _. split; [done|].
    destruct (Z.leb_spec (p b) (ep b)); cbn;
      (split; [done|]); (split; [split; cbn; lia|]); cbn; lia.
Qed.

Lemma put_scalar_codec : Codec put_scalar get_scalar.
Proof.
  split.
  - intros b v b' Hb H Hok. unfold put_scalar in H.
    apply bind_Ret in H as (ok & b1 & E1 & E2). rewrite check_size_run in E1 by lia.
    destruct (Z.leb_spec (p b + n) (ep b)) as [Hfit|Hov]; simpl_res.
    2:{ unfold ret in E2. simpl_res. destruct (Z.leb_spec (p b) (ep b)); cbn in *; lia. }
    apply bind_Ret in E2 as (u & b2 & E2 & E3). unfold ret in E3. simpl_res.
    unfold buf_store in E2. inv_bind E2. simpl_res.
    pose proof (store_bytes_length _ _ _ _ E) as Hlen.
    split; cbn.
    + split; [done|]. split; [done|]. done.
    + lia.
    + intros i Hi. eapply store_bytes_lookup_out; eauto; lia.
    + intros m s e Hm Hl' Hag. unfold get_scalar, bind. rewrite check_size_run by lia. cbn.
      rewrite (proj2 (Z.leb_le _ _)) by lia. cbn. unfold buf_load.
      apply store_bytes_Ret in E as Hst. destruct Hst as (_ & Hle & _).
      unfold zlength in *.
      assert (Hld : load_bytes m (p b1) n = Ret bs).
      { apply load_bytes_Ret. unfold zlength. repeat split; try lia.
        apply list_eq. intros i.
        destruct (decide (i < length bs)%nat).
        - rewrite lookup_take_lt, lookup_drop by lia.
          rewrite Hag by lia. symmetry. eapply store_bytes_lookup_in; eauto.
        - rewrite lookup_ge_None_2 by lia. symmetry. apply lookup_ge_None_2.
          rewrite length_take, length_drop. lia. }
      cbn. rewrite Hld. cbn. unfold ret, view. cbn. rewrite Hbs. done.
  - intros b v b' Hb Ho H. unfold put_scalar in H.
    apply bind_Ret in H as (ok & b1 & E1 & E2). rewrite check_size_run in E1 by lia.
    rewrite (proj2 (Z.leb_gt (p b + n) _)), (proj2 (Z.leb_gt (p b) _)) in E1 by lia.
    unfold ret in *. simpl_res. done.
  - intros b v b' Hb H. unfold put_scalar in H.
    apply bind_Ret in H as (ok & b1 & E1 & E2). rewrite check_size_run in E1 by lia.
    destruct (Z.leb_spec (p b + n) (ep b)); simpl_res.
    + apply bind_Ret in E2 as (u & b2 & E2 & E3). unfold ret in E3. simpl_res.
      unfold buf_store in E2. inv_bind E2. simpl_res. cbn. lia.
    + unfold ret in E2. simpl_res. destruct (Z.leb_spec (p b) (ep b)); cbn; lia.
Qed.
End Scalar.

(** ** A size check around an encoder *)
Section Checked.
Context {A : Type} (n : Z) (c g : M A) (d : A).
Hypothesis Hn : 0 <= n < 2 ^ 31.

Definition checked : M A :=
  let* ok := buf_check_size n in if ok then c else ret d.

Lemma checked_writes : WritesFit c n -> Writes checked n.
Proof.
  intros Hc. split; [lia|]. intros b Hb. unfold checked, bind.
  rewrite check_size_run by lia.
  destruct (Z.leb_spec (p b + n) (ep b)) as [Hfit|Hov]; cbn.
  { destruct (Hc b Hb Hfit) as (v & b' & ? & ? & ? & ?). exists v, b'.
    repeat (split; [done|]). lia. }
  eexists _, _. split; [done|]. destruct Hb as [? ?].
  destruct (Z.leb_spec (p b) (ep b)); cbn;
    (split; [done|]); (split; [split; cbn; lia|]); cbn; lia.
Qed.

Lemma checked_codec : Codec c g -> Codec checked g.
Proof.
  intros [Hc Sc Pc]. unfold checked. split.
  - intros b v b' Hb H Hok. apply bind_Ret in H as (ok & b1 & E1 & E2).
    rewrite check_size_run in E1 by lia.
    destruct (Z.leb_spec (p b + n) (ep b)); simpl_res; [eauto|].
    unfold ret in E2. simpl_res. destruct (Z.leb_spec (p b) (ep b)); cbn in *; lia.
  - intros b v b' Hb Ho H. apply bind_Ret in H as (ok & b1 & E1 & E2).
    rewrite check_size_run, (proj2 (Z.leb_gt (p b + n) _)),
      (proj2 (Z.leb_gt (p b) _)) in E1 by lia.
    simpl_res. unfold ret in E2. simpl_res. done.
  - intros b v b' Hb H. apply bind_Ret in H as (ok & b1 & E1 & E2).
    rewrite check_size_run in E1 by lia.
    destruct (Z.leb_spec (p b + n) (ep b)); simpl_res; [eauto|].
    unfold ret in E2. simpl_res. destruct (Z.leb_spec (p b) (ep b)); cbn; lia.
Qed.
End Checked.

(** ** Reserving and filling bytes *)

Lemma alloc_writes n : 0 <= n < 2 ^ 31 -> Writes (buf_alloc n) n.
Proof.
  intros Hn. split; [lia|]. intros b Hb. rewrite alloc_run by lia.
  destruct Hb as [? ?].
  destruct (Z.leb_spec (p b + n) (ep b)); [|destruct (Z.leb_spec (p b) (ep b))];
    eexists _, _; (split; [done|]); (split; [done|]);
    (split; [split; cbn; lia|]); cbn; lia.
Qed.

Lemma alloc_codec n : 0 <= n < 2 ^ 31 -> Codec (buf_alloc n) (buf_alloc n).
Proof.
  intros Hn. split; intros b v b' Hb; rewrite alloc_run by lia.
  - intros H Hok. destruct (Z.leb_spec (p b + n) (ep b)); simpl_res.
    + split; [done|cbn; lia|done|]. cbn. intros m s e Hm Hl' Hag.
      rewrite alloc_run by lia. cbn. rewrite (proj2 (Z.leb_le _ _)) by lia. done.
    + destruct (Z.leb_spec (p b) (ep b)); cbn in *; lia.
  - intros Ho H. rewrite (proj2 (Z.leb_gt (p b + n) _)),
      (proj2 (Z.leb_gt (p b) _)) in H by lia. simpl_res. done.
  - intros H. destruct (Z.leb_spec (p b + n) (ep b));
      [|destruct (Z.leb_spec (p b) (ep b))]; simpl_res; cbn; lia.
Qed.

(** [ptr = buf_alloc (n); memmove (ptr, s, n)] *)
Definition alloc_fill (s : list Z) : M (option Z) :=
  let* str := buf_alloc (zlength s) in
  let* _ := buf_memmove str s in ret str.

Lemma alloc_fill_run s b v b' : zlength s < 2 ^ 31 ->
  alloc_fill s b = Ret (v, b') ->
  p b + zlength s <= ep b /\ v = Some (p b) /\
  exists m, store_bytes (mem b) (p b) s = Ret m /\
            b' = set_p (p b + zlength s) (set_mem m b).
Proof.
  intros Hs H. apply bind_Ret in H as (q & b1 & E1 & E2).
  pose proof (zlength_nonneg s). rewrite alloc_run in E1 by lia.
  apply bind_Ret in E2 as (u & b2 & E2 & E3). unfold ret in E3. simpl_res.
  destruct (Z.leb_spec (p b + zlength s) (ep b)); injection E1 as <- <-.
  - cbn in E2. inv_bind E2. simpl_res. eauto 10.
  - discriminate E2.
Qed.

Lemma alloc_fill_codec s : zlength s < 2 ^ 31 ->
  Codec (alloc_fill s) (buf_alloc (zlength s)).
Proof.
  intros Hs. pose proof (zlength_nonneg s). split.
  - intros b v b' Hb H' Hok. apply alloc_fill_run in H' as (Hfit & -> & m & E & ->); [|done].
    pose proof (store_bytes_length _ _ _ _ E). split; [done|cbn; lia| |].
    + intros i Hi. eapply store_bytes_lookup_out; eauto; lia.
    + cbn. intros m' s' e Hm Hl' Hag. rewrite alloc_run by lia. cbn.
      rewrite (proj2 (Z.leb_le _ _)) by lia. done.
  - intros b v b' Hb Ho H'. apply alloc_fill_run in H'; lia.
  - intros b v b' Hb H'. apply alloc_fill_run in H' as (?&?&m&?&->); cbn; lia.
Qed.

Lemma alloc_fill_fit s : zlength s < 2 ^ 31 -> WritesFit (alloc_fill s) (zlength s).
Proof.
  intros Hs b [Hp He] Hfit. pose proof (zlength_nonneg s).
  unfold alloc_fill, bind. rewrite alloc_run by lia.
  rewrite (proj2 (Z.leb_le _ _)) by lia. cbn.
  destruct (store_bytes (mem b) (p b) s) as [m| |] eqn:E;
    [|rewrite store_bytes_ok in E by lia; discriminate E..].
  pose proof (store_bytes_length _ _ _ _ E). cbn. eexists _, _.
  split; [done|]. split; [done|]. split; [split; cbn; unfold zlength in *; lia|done].
Qed.

(** [ptr = buf_alloc (n); if (ptr) memmove (ptr, s, n)] *)
Definition alloc_fill_opt (s : list Z) : M (option Z) :=
  let* str := buf_alloc (zlength s) in
  let* _ := match str with Some _ => buf_memmove str s | None => ret tt end in
  ret str.

Lemma alloc_fill_opt_run s b : zlength s < 2 ^ 31 ->
  alloc_fill_opt s b =
  if p b + zlength s <=? ep b then alloc_fill s b
  else Ret (None, if p b <=? ep b then set_p (ep b + 1) b else b).
Proof.
  intros Hs. pose proof (zlength_nonneg s).
  unfold alloc_fill_opt, alloc_fill, bind. rewrite alloc_run by lia.
  zcases; done.
Qed.

Lemma alloc_fill_opt_writes s : zlength s < 2 ^ 31 ->
  Writes (alloc_fill_opt s) (zlength s).
Proof.
  intros Hs. pose proof (zlength_nonneg s). split; [lia|]. intros b Hb.
  rewrite alloc_fill_opt_run by lia.
  destruct (Z.leb_spec (p b + zlength s) (ep b)) as [Hfit|Hov].
  - destruct (alloc_fill_fit s Hs b Hb Hfit) as (v & b' & ? & ? & ? & ?).
    exists v, b'. repeat (split; [done|]). lia.
  - destruct Hb. eexists _, _. split; [done|].
    destruct (Z.leb_spec (p b) (ep b)); (split; [done|]);
      (split; [split; cbn; lia|]); cbn; lia.
Qed.

Lemma alloc_fill_opt_codec s : zlength s < 2 ^ 31 ->
  Codec (alloc_fill_opt s) (buf_alloc (zlength s)).
Proof.
  intros Hs. pose proof (zlength_nonneg s).
  destruct (alloc_fill_codec s Hs) as [Hc Sc Pc].
  split; intros b v b' Hb; rewrite alloc_fill_opt_run by lia;
    destruct (Z.leb_spec (p b + zlength s) (ep b)); eauto;
    destruct (Z.leb_spec (p b) (ep b)); intros; simpl_res; cbn in *; lia.
Qed.

(** ** The typed writers and their readers *)
Section Typed.
Context `{CHeap}.

Lemma put_int8_writes v : Writes (buf_put_int8 v) 1.
Proof. apply (put_scalar_writes 1 [u8 v] (u8 v) undef); done. Qed.

Lemma put_int16_writes v : Writes (buf_put_int16 v) 2.
Proof. eapply put_scalar_writes; done. Qed.

Lemma put_int32_writes v : Writes (buf_put_int32 v) 4.
Proof. eapply put_scalar_writes; done. Qed.

Lemma put_int64_writes v : Writes (buf_put_int64 v) 8.
Proof. eapply put_scalar_writes; done. Qed.

Lemma put_int8_codec v : Codec (buf_put_int8 v) buf_get_int8.
Proof.
  apply (put_scalar_codec 1 [u8 v] (u8 v) undef (fun bs => u8 (byte_at bs 0))); try done.
  unfold byte_at; cbn. apply u8_small, u8_range.
Qed.

Lemma put_int16_codec v : Codec (buf_put_int16 v) buf_get_int16.
Proof.
  eapply (put_scalar_codec 2 _ _ _ (fun bs => u16 (Z.lor (byte_at bs 0)
    (Z.shiftl (byte_at bs 1) 8)))); try done.
  rewrite le_bytes_2, get16_le, le_value_bytes by (done || apply le_bytes_bytes).
  apply u16_small, u16_range.
Qed.

Lemma put_int32_codec v : Codec (buf_put_int32 v) buf_get_int32.
Proof.
  eapply (put_scalar_codec 4 _ _ _ (fun bs => u32 (Z.lor (Z.lor (Z.lor (byte_at bs 0)
       (Z.shiftl (byte_at bs 1) 8)) (Z.shiftl (byte_at bs 2) 16))
       (Z.shiftl (byte_at bs 3) 24)))); try done.
  rewrite le_bytes_4, get32_le, le_value_bytes by (done || apply le_bytes_bytes).
  apply u32_small, u32_range.
Qed.

Lemma put_int64_codec v : Codec (buf_put_int64 v) buf_get_int64.
Proof.
  eapply (put_scalar_codec 8 _ _ _ (fun bs =>
    u64 (Z.lor (Z.lor (Z.lor (Z.lor (Z.lor (Z.lor (Z.lor (byte_at bs 0)
       (Z.shiftl (byte_at bs 1) 8)) (Z.shiftl (byte_at bs 2) 16))
       (Z.shiftl (byte_at bs 3) 24)) (Z.shiftl (byte_at bs 4) 32))
       (Z.shiftl (byte_at bs 5) 40)) (Z.shiftl (byte_at bs 6) 48))
       (Z.shiftl (byte_at bs 7) 56)))); try done.
  rewrite le_bytes_8, get64_le, le_value_bytes by (done || apply le_bytes_bytes).
  apply u64_small, u64_range.
Qed.

(** What [buf_put_str] does to a string that fits the 16-bit length field. *)
Lemma put_str_eq s b : strlen_opt s < 2 ^ 16 ->
  buf_put_str s b =
  checked (2 + strlen_opt s)
    (let* _ := buf_put_int16 (strlen_opt s) in
     let* q := match s with Some s => alloc_fill s | None => buf_alloc 0 end in
     ret {| len := strlen_opt s; str := q |})
    {| len := undef; str := None |} b.
Proof.
  intros Hs. pose proof (strlen_opt_nonneg s).
  unfold buf_put_str, checked. rewrite int32_small by lia.
  unfold bind at 1 5. destruct (buf_check_size _ b) as [[[] b1]| |]; cbn; try done.
  unfold bind at 1 4. destruct (buf_put_int16 _ b1) as [[? b2]| |]; cbn; try done.
  rewrite u16_small by lia.
  destruct s as [s|]; cbn; [|done]. rewrite (proj2 (Z.ltb_ge _ _)) by (cbn in *; lia).
  unfold alloc_fill, bind, ret, strlen. destruct (buf_alloc _ b2) as [[? b3]| |]; cbn; try done.
  destruct (buf_memmove _ _ b3) as [[? b4]| |]; done.
Qed.

Lemma put_int16_val v b a b1 :
  buf_put_int16 v b = Ret (a, b1) -> p b1 <= ep b1 -> a = u16 v.
Proof.
  unfold buf_put_int16. intros E Hok. apply bind_Ret in E as (ok & b0 & E0 & E).
  rewrite check_size_run in E0 by lia.
  destruct (Z.leb_spec (p b + 2) (ep b)); injection E0 as <- <-.
  - apply bind_Ret in E as (? & ? & _ & E). unfold ret in E. congruence.
  - unfold ret in E. simpl_res. destruct (Z.leb_spec (p b) (ep b)); cbn in *; lia.
Qed.

Lemma str_fill_codec s : strlen_opt s < 2 ^ 16 ->
  Codec (match s with Some s => alloc_fill s | None => buf_alloc 0 end)
        (buf_alloc (strlen_opt s)).
Proof.
  destruct s; cbn; intros; [apply alloc_fill_codec|apply alloc_codec];
    unfold strlen in *; lia.
Qed.

Lemma put_str_codec s : strlen_opt s < 2 ^ 16 -> Codec (buf_put_str s) buf_get_str.
Proof.
  intros Hs. pose proof (strlen_opt_nonneg s).
  eapply codec_ext; [intros b; by apply put_str_eq|]. apply checked_codec; [lia|].
  apply codec_bind_val.
  - apply put_int16_codec.
  - intros a b b1 E Hok. rewrite (put_int16_val _ _ _ _ E Hok), u16_small by lia.
    apply codec_bind; [by apply str_fill_codec|intros; apply codec_ret].
  - intros _. eexists. apply codec_bind; [by apply str_fill_codec|intros; apply codec_ret].
Qed.

Lemma put_str_writes s : strlen_opt s < 2 ^ 16 ->
  Writes (buf_put_str s) (2 + strlen_opt s).
Proof.
  intros Hs. pose proof (strlen_opt_nonneg s).
  eapply writes_ext; [intros b; by apply put_str_eq|]. apply checked_writes; [lia|].
  apply writes_fit_bind; [lia|apply writes_fit, put_int16_writes|]. intros _.
  apply writes_fit_bind_ret.
  destruct s; cbn in *; [apply alloc_fill_fit|apply writes_fit, alloc_writes];
    unfold strlen in *; lia.
Qed.

Lemma put_qid_writes q : Writes (buf_put_qid q) 13.
Proof.
  unfold buf_put_qid. replace 13 with (1 + (4 + (8 + 0))) by lia.
  apply writes_bind; [apply put_int8_writes|intros].
  apply writes_bind; [apply put_int32_writes|intros].
  apply writes_bind; [apply put_int64_writes|intros; apply writes_ret].
Qed.

Lemma put_qid_codec q : Codec (buf_put_qid q) buf_get_qid.
Proof.
  unfold buf_put_qid, buf_get_qid. apply codec_bind; [apply put_int8_codec|intros].
  apply codec_bind; [apply put_int32_codec|intros].
  apply codec_bind; [apply put_int64_codec|intros; apply codec_ret].
Qed.

(** The loops over the elements of a walk. *)
Lemma for_each_codec {A B} n (f : A -> M B) g l :
  (n <= length l)%nat -> (forall x, x ∈ l -> Codec (f x) g) ->
  Codec (for_each n f l) (for_times n g).
Proof.
  revert l; induction n as [|n IH]; intros l Hn Hf; cbn; [apply codec_ret|].
  destruct l as [|x l]; cbn in Hn; [lia|].
  apply codec_bind; [apply Hf; left|]. intros y.
  apply codec_bind; [|intros; apply codec_ret].
  apply IH; [lia|]. intros; apply Hf; by right.
Qed.

Lemma for_each_writes {A B} n (f : A -> M B) k l :
  (n <= length l)%nat -> (forall x, x ∈ l -> Writes (f x) (k x)) ->
  Writes (for_each n f l) (foldr (fun x s => k x + s) 0 (take n l)).
Proof.
  revert l; induction n as [|n IH]; intros l Hn Hf; cbn; [apply writes_ret|].
  destruct l as [|x l]; cbn in *; [lia|].
  apply writes_bind; [apply Hf; left|]. intros y.
  rewrite <- (Z.add_0_r (foldr _ _ _)).
  apply writes_bind; [|intros; apply writes_ret].
  apply IH; [lia|]. intros; apply Hf; by right.
Qed.
End Typed.

#[export] Hint Resolve codec_ret put_int8_codec put_int16_codec put_int32_codec
  put_int64_codec put_str_codec put_qid_codec for_each_codec : codec.
#[export] Hint Resolve writes_ret put_int8_writes put_int16_writes put_int32_writes
  put_int64_writes put_str_writes put_qid_writes : codec.

(** ** The bytes an encoder emits *)

Definition Emits {A} (c : M A) (bs : list Z) : Prop :=
  forall b, wf_cbuf b -> p b + zlength bs <= ep b -> exists v b',
    c b = Ret (v, b') /\ store_bytes (mem b) (p b) bs = Ret (mem b') /\
    p b' = p b + zlength bs /\ sp b' = sp b /\ ep b' = ep b.

Lemma store_bytes_app m a bs cs m1 m2 :
  store_bytes m a bs = Ret m1 -> store_bytes m1 (a + zlength bs) cs = Ret m2 ->
  store_bytes m a (bs ++ cs) = Ret m2.
Proof.
  intros E1 E2. pose proof (store_bytes_length _ _ _ _ E1) as Hl.
  pose proof (store_bytes_length _ _ _ _ E2) as Hl2.
  apply store_bytes_Ret in E1 as F1; destruct F1 as (? & ? & _).
  apply store_bytes_Ret in E2 as F2; destruct F2 as (? & ? & _).
  unfold zlength in *. rewrite store_bytes_ok by (rewrite ?zlength_app; unfold zlength; lia).
  f_equal. apply list_eq. intros i.
  assert (E3 : store_bytes m a (bs ++ cs) = Ret (take (Z.to_nat a) m ++ (bs ++ cs) ++
      drop (Z.to_nat a + length (bs ++ cs)) m)).
  { apply store_bytes_ok; rewrite ?zlength_app; unfold zlength; lia. }
  destruct (decide (Z.of_nat i < a \/ a + zlength (bs ++ cs) <= Z.of_nat i)) as [Ho|Hi].
  { rewrite (store_bytes_lookup_out _ _ _ _ _ E3 Ho). rewrite zlength_app in Ho.
    unfold zlength in *.
    rewrite (store_bytes_lookup_out _ _ _ _ _ E2), (store_bytes_lookup_out _ _ _ _ _ E1);
      unfold zlength; lia || done. }
  rewrite zlength_app in Hi. unfold zlength in *.
  set (k := (i - Z.to_nat a)%nat). replace i with (Z.to_nat a + k)%nat by lia.
  rewrite (store_bytes_lookup_in _ _ _ _ _ E3) by (rewrite length_app; lia).
  destruct (decide (k < length bs)%nat).
  - rewrite lookup_app_l by lia. rewrite (store_bytes_lookup_out _ _ _ _ _ E2) by lia.
    symmetry. eapply store_bytes_lookup_in; eauto.
  - rewrite lookup_app_r by lia. symmetry.
    replace (Z.to_nat a + k)%nat with (Z.to_nat (a + Z.of_nat (length bs)) + (k - length bs))%nat by lia.
    eapply store_bytes_lookup_in; eauto. lia.
Qed.

Lemma emits_ret {A} (a : A) : Emits (ret a) [].
Proof.
  intros b [Hp He] Hfit. exists a, b. unfold zlength in *. cbn in *.
  split; [done|]. rewrite store_bytes_ok by (unfold zlength; cbn; lia). cbn.
  rewrite Nat.add_0_r, take_drop. split; [done|]. lia.
Qed.

Lemma emits_bind {A B} (c : M A) (f : A -> M B) bs cs :
  Emits c bs -> (forall a, Emits (f a) cs) -> Emits (bind c f) (bs ++ cs).
Proof.
  intros Hc Hf b Hb Hfit. rewrite zlength_app in Hfit.
  pose proof (zlength_nonneg bs). pose proof (zlength_nonneg cs).
  destruct (Hc b Hb) as (a & b1 & E1 & S1 & P1 & Z1 & Q1); [lia|].
  pose proof (store_bytes_length _ _ _ _ S1).
  destruct (Hf a b1) as (v & b2 & E2 & S2 & P2 & Z2 & Q2).
  { destruct Hb. split; unfold zlength in *; lia. }
  { lia. }
  exists v, b2. unfold bind. rewrite E1, zlength_app. cbn. split; [done|].
  split; [|split; [lia|split; congruence]].
  rewrite P1 in S2. eapply store_bytes_app; eauto.
Qed.

Lemma emits_scalar n bs val dflt : 0 <= n < 2 ^ 31 -> zlength bs = n ->
  Emits (put_scalar n bs val dflt) bs.
Proof.
  intros Hn Hl b Hb Hfit. rewrite (put_scalar_run n bs val dflt Hn Hl b Hb).
  rewrite (proj2 (Z.leb_le _ _)) by lia. eexists _, _. split; [done|]. destruct Hb.
  rewrite store_bytes_ok by lia. rewrite Hl. done.
Qed.

Lemma le_bytes_mod n k v : (n <= k)%nat ->
  le_bytes n (v mod 2 ^ (8 * Z.of_nat k)) = le_bytes n v.
Proof.
  revert k v; induction n as [|n IH]; intros k v Hk; [done|]. destruct k as [|k]; [lia|].
  cbn [le_bytes]. replace (8 * Z.of_nat (S k)) with (8 + 8 * Z.of_nat k) by lia.
  rewrite Z.pow_add_r by lia. f_equal.
  - rewrite Z.rem_mul_r by lia. rewrite Z.mul_comm, Z.mod_add, Z.mod_mod by lia. done.
  - rewrite <- (IH k (v / 2 ^ 8)) by lia. f_equal.
    rewrite Z.rem_mul_r by lia. rewrite Z.mul_comm, Z.div_add by lia.
    rewrite Z.div_small by (apply Z.mod_pos_bound; lia). lia.
Qed.

Section EmitsTyped.
Context `{CHeap}.

Lemma put_int8_emits v : Emits (buf_put_int8 v) (le_bytes 1 v).
Proof. apply (emits_scalar 1 [u8 v] (u8 v) undef); done. Qed.

Lemma put_int16_emits v : Emits (buf_put_int16 v) (le_bytes 2 v).
Proof.
  rewrite <- (le_bytes_mod 2 2), <- le_bytes_2 by lia. by eapply emits_scalar.
Qed.

Lemma put_int32_emits v : Emits (buf_put_int32 v) (le_bytes 4 v).
Proof.
  rewrite <- (le_bytes_mod 4 4), <- le_bytes_4 by lia. by eapply emits_scalar.
Qed.

Lemma put_int64_emits v : Emits (buf_put_int64 v) (le_bytes 8 v).
Proof.
  rewrite <- (le_bytes_mod 8 8), <- le_bytes_8 by lia. by eapply emits_scalar.
Qed.

Lemma put_qid_emits q : Emits (buf_put_qid q)
  (le_bytes 1 (qtype q) ++ le_bytes 4 (qversion q) ++ le_bytes 8 (qpath q) ++ []).
Proof.
  apply emits_bind; [apply put_int8_emits|intros].
  apply emits_bind; [apply put_int32_emits|intros].
  apply emits_bind; [apply put_int64_emits|intros; apply emits_ret].
Qed.

Lemma alloc_fill_emits s : zlength s < 2 ^ 31 -> Emits (alloc_fill s) s.
Proof.
  intros Hs b Hb Hfit. destruct (alloc_fill_fit s Hs b Hb Hfit) as (v & b' & E & _).
  destruct (alloc_fill_run s b v b' Hs E) as (_ & -> & m & Hst & ->).
  exists (Some (p b)), (set_p (p b + zlength s) (set_mem m b)). done.
Qed.

Lemma alloc_fill_opt_emits s : zlength s < 2 ^ 31 -> Emits (alloc_fill_opt s) s.
Proof.
  intros Hs b Hb Hfit. rewrite alloc_fill_opt_run, (proj2 (Z.leb_le _ _)) by lia.
  by apply alloc_fill_emits.
Qed.

Lemma emits_ext {A} (c c' : M A) bs : (forall b, c b = c' b) -> Emits c' bs -> Emits c bs.
Proof. intros E Hc b. rewrite E. apply Hc. Qed.

Lemma emits_bind_ret {A B} (c : M A) (h : A -> B) bs :
  Emits c bs -> Emits (let* a := c in ret (h a)) bs.
Proof.
  intros Hc. rewrite <- (app_nil_r bs). apply emits_bind; [done|].
  intros. apply emits_ret.
Qed.

Lemma put_str_emits s : strlen_opt s < 2 ^ 16 ->
  Emits (buf_put_str s) (le_bytes 2 (strlen_opt s) ++ default [] s).
Proof.
  intros Hs. pose proof (strlen_opt_nonneg s).
  eapply emits_ext; [intros b; by apply put_str_eq|].
  assert (Hz : zlength (default [] s) = strlen_opt s) by (destruct s; done).
  intros b Hb Hfit. unfold checked, bind at 1.
  rewrite zlength_app, Hz in Hfit. unfold zlength in Hfit at 1.
  rewrite le_bytes_length in Hfit.
  rewrite check_size_run, (proj2 (Z.leb_le _ _)) by lia. cbn.
  eapply (emits_bind _ _ (le_bytes 2 (strlen_opt s)) (default [] s)); [| |done|].
  - apply put_int16_emits.
  - intros _. apply emits_bind_ret. destruct s; cbn in *.
    + apply alloc_fill_emits. unfold strlen in *. lia.
    + intros b' Hb' Hfit'. cbn in Hfit'. rewrite alloc_run by lia.
      unfold zlength in *. cbn in *. rewrite (proj2 (Z.leb_le _ _)) by lia.
      eexists _, _. split; [done|]. destruct Hb' as [? He].
      rewrite store_bytes_ok by (unfold zlength in *; cbn; lia). cbn.
      rewrite Nat.add_0_r, take_drop. done.
  - rewrite zlength_app, Hz. unfold zlength. rewrite le_bytes_length. lia.
Qed.

Lemma for_each_emits {A B} n (f : A -> M B) k l :
  (n <= length l)%nat -> (forall x, x ∈ l -> Emits (f x) (k x)) ->
  Emits (for_each n f l) (flat_map k (take n l)).
Proof.
  revert l; induction n as [|n IH]; intros l Hn Hf; cbn; [apply emits_ret|].
  destruct l as [|x l]; cbn in *; [lia|].
  apply emits_bind; [apply Hf; left|]. intros y. apply emits_bind_ret.
  apply IH; [lia|]. intros; apply Hf; by right.
Qed.
End EmitsTyped.

#[export] Hint Resolve emits_ret put_int8_emits put_int16_emits put_int32_emits
  put_int64_emits put_str_emits put_qid_emits for_each_emits alloc_fill_opt_emits : codec.

(** ** What the value returned by an encoder means

    [Denotes c bs R]: [c] emits [bs], and its value [v] satisfies [R m v] in
    every packet [m] that has these bytes where [c] wrote them. *)
Definition Denotes {A} (c : M A) (bs : list Z) (R : list Z -> A -> Prop) : Prop :=
  forall b, wf_cbuf b -> p b + zlength bs <= ep b -> exists v b',
    c b = Ret (v, b') /\ wf_cbuf b' /\ ep b' = ep b /\ p b' = p b + zlength bs /\
    forall m, (forall i, (i < length bs)%nat -> m !! (Z.to_nat (p b) + i)%nat = bs !! i) -> R m v.

Lemma emits_denotes {A} (c : M A) bs (R : list Z -> A -> Prop) :
  Emits c bs ->
  (forall b v b', wf_cbuf b -> p b + zlength bs <= ep b -> c b = Ret (v, b') ->
     p b' = p b + zlength bs -> p b' <= ep b' ->
     forall m, (forall i, (i < length bs)%nat -> m !! (Z.to_nat (p b) + i)%nat = bs !! i) -> R m v) ->
  Denotes c bs R.
Proof.
  intros Hc HR b Hb Hfit. destruct (Hc b Hb Hfit) as (v & b' & E & S & P & _ & Q).
  pose proof (store_bytes_length _ _ _ _ S) as Hl. pose proof (zlength_nonneg bs).
  exists v, b'. split; [done|]. split.
  { destruct Hb. split; [lia|]. unfold zlength in *. lia. }
  split; [done|]. split; [done|]. eapply HR; eauto. lia.
Qed.

Lemma denotes_ret {A} (a : A) : Denotes (ret a) [] (fun _ v => v = a).
Proof.
  intros b Hb _. exists a, b. unfold zlength. cbn. repeat split; try done; try apply Hb; lia.
Qed.

Lemma denotes_bind {A B} (c : M A) (f : A -> M B) bs cs R S :
  Denotes c bs R -> (forall a, Denotes (f a) cs (S a)) ->
  Denotes (bind c f) (bs ++ cs) (fun m v => exists a, R m a /\ S a m v).
Proof.
  intros Hc Hf b Hb Hfit. rewrite zlength_app in Hfit.
  pose proof (zlength_nonneg bs). pose proof (zlength_nonneg cs).
  destruct (Hc b Hb) as (a & b1 & E1 & W1 & Q1 & P1 & R1); [lia|].
  destruct (Hf a b1 W1) as (v & b2 & E2 & W2 & Q2 & P2 & R2); [lia|].
  exists v, b2. unfold bind. rewrite E1, zlength_app. cbn. split; [done|].
  split; [done|]. split; [congruence|]. split; [lia|]. intros m Hm. exists a. split.
  - apply R1. intros i Hi. rewrite Hm by (rewrite length_app; lia). by apply lookup_app_l.
  - apply R2. intros i Hi. destruct Hb. unfold zlength in *.
    replace (Z.to_nat (p b1) + i)%nat with (Z.to_nat (p b) + (length bs + i))%nat by lia.
    rewrite Hm by (rewrite length_app; lia). rewrite lookup_app_r by lia. f_equal. lia.
Qed.

Lemma denotes_weaken {A} (c : M A) bs bs' (R R' : list Z -> A -> Prop) :
  Denotes c bs R -> bs = bs' -> (forall m v, R m v -> R' m v) -> Denotes c bs' R'.
Proof.
  intros Hc <- HR b Hb Hfit. destruct (Hc b Hb Hfit) as (v & b' & ? & ? & ? & ? & ?). eauto 10.
Qed.

Lemma denotes_ext {A} (c c' : M A) bs R :
  (forall b, c b = c' b) -> Denotes c' bs R -> Denotes c bs R.
Proof. intros E Hc b. rewrite E. apply Hc. Qed.

(** The bytes between two offsets are those a packet was said to have there. *)
Lemma load_bytes_known m a bs : 0 <= a ->
  (forall i, (i < length bs)%nat -> m !! (Z.to_nat a + i)%nat = bs !! i) ->
  (0 < length bs)%nat \/ a <= zlength m -> load_bytes m a (zlength bs) = Ret bs.
Proof.
  intros Ha Hm Hz. assert (Hl : a + zlength bs <= zlength m).
  { unfold zlength. destruct bs as [|x l] eqn:E; [unfold zlength in Hz; cbn in *; lia|].
    rewrite <- E in *. assert (Hpos : (length bs - 1 < length bs)%nat) by (rewrite E; cbn; lia).
    destruct (lookup_lt_is_Some_2 bs _ Hpos) as [y Hy]. specialize (Hm _ Hpos).
    rewrite Hy in Hm. apply lookup_lt_Some in Hm. lia. }
  pose proof (zlength_nonneg bs). rewrite load_bytes_ok by lia. f_equal.
  apply list_eq. intros i. unfold zlength in *. rewrite Nat2Z.id.
  destruct (decide (i < length bs)%nat).
  - rewrite lookup_take_lt, lookup_drop, Hm by lia. done.
  - rewrite !lookup_ge_None_2 by (rewrite ?length_take; lia). done.
Qed.

Section DenotesTyped.
Context `{CHeap}.

Lemma put_scalar_denotes n bs val dflt : 0 <= n < 2 ^ 31 -> zlength bs = n ->
  Denotes (put_scalar n bs val dflt) bs (fun _ v => v = val).
Proof.
  intros Hn Hl. apply emits_denotes; [by apply emits_scalar|].
  intros b v b' Hb Hfit E _ _ m _. rewrite (put_scalar_run n bs val dflt Hn Hl b Hb) in E.
  rewrite (proj2 (Z.leb_le _ _)) in E by lia. by simpl_res.
Qed.

Lemma put_int8_denotes v : Denotes (buf_put_int8 v) (le_bytes 1 v) (fun _ a => a = u8 v).
Proof. apply (put_scalar_denotes 1 [u8 v] (u8 v) undef); done. Qed.

Lemma put_int16_denotes v : Denotes (buf_put_int16 v) (le_bytes 2 v) (fun _ a => a = u16 v).
Proof.
  rewrite <- (le_bytes_mod 2 2), <- le_bytes_2 by lia. by eapply put_scalar_denotes.
Qed.

Lemma put_int32_denotes v : Denotes (buf_put_int32 v) (le_bytes 4 v) (fun _ a => a = u32 v).
Proof.
  rewrite <- (le_bytes_mod 4 4), <- le_bytes_4 by lia. by eapply put_scalar_denotes.
Qed.

Lemma put_int64_denotes v : Denotes (buf_put_int64 v) (le_bytes 8 v) (fun _ a => a = u64 v).
Proof.
  rewrite <- (le_bytes_mod 8 8), <- le_bytes_8 by lia. by eapply put_scalar_denotes.
Qed.

Lemma put_qid_denotes q : Denotes (buf_put_qid q)
  (le_bytes 1 (qtype q) ++ le_bytes 4 (qversion q) ++ le_bytes 8 (qpath q) ++ [])
  (fun _ v => v = {| qtype := u8 (qtype q); qversion := u32 (qversion q);
                     qpath := u64 (qpath q) |}).
Proof.
  eapply denotes_weaken; [|done|].
  - apply denotes_bind; [apply put_int8_denotes|intros].
    apply denotes_bind; [apply put_int32_denotes|intros].
    apply denotes_bind; [apply put_int64_denotes|intros; apply denotes_ret].
  - intros m v (? & -> & ? & -> & ? & -> & ->). done.
Qed.

Lemma for_each_denotes {A B} n (f : A -> M B) k R l :
  (n <= length l)%nat -> (forall x, x ∈ l -> Denotes (f x) (k x) (R x)) ->
  Denotes (for_each n f l) (flat_map k (take n l))
    (fun m vs => Forall2 (fun x v => R x m v) (take n l) vs).
Proof.
  revert l; induction n as [|n IH]; intros l Hn Hf; cbn [for_each].
  { eapply denotes_weaken; [apply denotes_ret|done|]. intros m v ->. constructor. }
  destruct l as [|x l]; cbn [length] in Hn; [lia|].
  eapply denotes_weaken.
  - apply denotes_bind; [apply Hf; left|]. intros y.
    eapply denotes_bind; [apply (IH l); [lia|]; intros; apply Hf; by right|].
    intros ys. apply denotes_ret.
  - cbn [take flat_map]. by rewrite app_nil_r.
  - intros m v (y & Hy & ys & Hys & ->). constructor; done.
Qed.
End DenotesTyped.

(** Encoders are sequences of the typed writers: these tactics split them. *)
Ltac solve_codec :=
  lazymatch goal with
  | |- Codec (bind _ _) _ =>
      apply codec_bind; [solve_codec | intros; cbv beta; solve_codec]
  | |- _ => solve [eauto with codec]
  end.

Ltac solve_writes :=
  lazymatch goal with
  | |- Writes (bind _ _) _ =>
      eapply writes_bind; [solve_writes | intros; cbv beta; solve_writes]
  | |- _ => solve [eauto with codec]
  end.

Ltac solve_emits :=
  lazymatch goal with
  | |- Emits (bind _ _) _ =>
      eapply emits_bind; [solve_emits | intros; cbv beta; solve_emits]
  | |- _ => solve [eauto with codec]
  end.
