(* ===== verification/Protocol.v ===== *)
(** * 9P2000.L messages (libnpfs/protocol.h, libnpfs/npfs.h)

    The message types, one record per [struct Nptxxx]/[struct Nprxxx] of
    protocol.h with its fields prefixed by the union member's name, the union
    of npfs.h as an inductive type and [Npfcall] itself.  Strings and data
    pointers are views of the packet [fc_pkt]. *)
From S2P Require Import Prelude Cbuf.

Definition Tlerror : Z := 6.
Definition Rlerror : Z := 7.
Definition Tstatfs : Z := 8.
Definition Rstatfs : Z := 9.
Definition Tlopen : Z := 12.
Definition Rlopen : Z := 13.
Definition Tlcreate : Z := 14.
Definition Rlcreate : Z := 15.
Definition Tsymlink : Z := 16.
Definition Rsymlink : Z := 17.
Definition Tmknod : Z := 18.
Definition Rmknod : Z := 19.
Definition Trename : Z := 20.
Definition Rrename : Z := 21.
Definition Treadlink : Z := 22.
Definition Rreadlink : Z := 23.
Definition Tgetattr : Z := 24.
Definition Rgetattr : Z := 25.
Definition Tsetattr : Z := 26.
Definition Rsetattr : Z := 27.
Definition Txattrwalk : Z := 30.
Definition Rxattrwalk : Z := 31.
Definition Txattrcreate : Z := 32.
Definition Rxattrcreate : Z := 33.
Definition Treaddir : Z := 40.
Definition Rreaddir : Z := 41.
Definition Tfsync : Z := 50.
Definition Rfsync : Z := 51.
Definition Tlock : Z := 52.
Definition Rlock : Z := 53.
Definition Tgetlock : Z := 54.
Definition Rgetlock : Z := 55.
Definition Tlink : Z := 70.
Definition Rlink : Z := 71.
Definition Tmkdir : Z := 72.
Definition Rmkdir : Z := 73.
Definition Trenameat : Z := 74.
Definition Rrenameat : Z := 75.
Definition Tunlinkat : Z := 76.
Definition Runlinkat : Z := 77.
Definition Tversion : Z := 100.
Definition Rversion : Z := 101.
Definition Tauth : Z := 102.
Definition Rauth : Z := 103.
Definition Tattach : Z := 104.
Definition Rattach : Z := 105.
Definition Terror : Z := 106.
Definition Rerror : Z := 107.
Definition Tflush : Z := 108.
Definition Rflush : Z := 109.
Definition Twalk : Z := 110.
Definition Rwalk : Z := 111.
Definition Topen : Z := 112.
Definition Ropen : Z := 113.
Definition Tcreate : Z := 114.
Definition Rcreate : Z := 115.
Definition Tread : Z := 116.
Definition Rread : Z := 117.
Definition Twrite : Z := 118.
Definition Rwrite : Z := 119.
Definition Tclunk : Z := 120.
Definition Rclunk : Z := 121.
Definition Tremove : Z := 122.
Definition Rremove : Z := 123.
Definition Tstat : Z := 124.
Definition Rstat : Z := 125.
Definition Twstat : Z := 126.

Definition Qtdir : Z := 0x80.
Definition Qtauth : Z := 0x08.
Definition Qttmp : Z := 0x04.
Definition Qtsymlink : Z := 0x02.
Definition Qtfile : Z := 0x00.
Definition NOTAG : Z := u16 (Z.lnot 0).
Definition NOFID : Z := u32 (Z.lnot 0).
Definition NONUNAME : Z := u32 (Z.lnot 0).
Definition MAXWELEM : Z := 16.
Definition IOHDRSZ : Z := 24.
Definition DIRHDRSZ : Z := 24.
Definition QIDSIZE : Z := 1 + 4 + 8.

Record Nprlerror := {
  rlerror_ecode : Z;
}.
Record Nptstatfs := {
  tstatfs_fid : Z;
}.
Record Nprstatfs := {
  rstatfs_type : Z;
  rstatfs_bsize : Z;
  rstatfs_blocks : Z;
  rstatfs_bfree : Z;
  rstatfs_bavail : Z;
  rstatfs_files : Z;
  rstatfs_ffree : Z;
  rstatfs_fsid : Z;
  rstatfs_namelen : Z;
}.
Record Nptlopen := {
  tlopen_fid : Z;
  tlopen_flags : Z;
}.
Record Nprlopen := {
  rlopen_qid : Npqid;
  rlopen_iounit : Z;
}.
Record Nptlcreate := {
  tlcreate_fid : Z;
  tlcreate_name : Npstr;
  tlcreate_flags : Z;
  tlcreate_mode : Z;
  tlcreate_gid : Z;
}.
Record Nprlcreate := {
  rlcreate_qid : Npqid;
  rlcreate_iounit : Z;
}.
Record Nptsymlink := {
  tsymlink_fid : Z;
  tsymlink_name : Npstr;
  tsymlink_symtgt : Npstr;
  tsymlink_gid : Z;
}.
Record Nprsymlink := {
  rsymlink_qid : Npqid;
}.
Record Nptmknod := {
  tmknod_fid : Z;
  tmknod_name : Npstr;
  tmknod_mode : Z;
  tmknod_major : Z;
  tmknod_minor : Z;
  tmknod_gid : Z;
}.
Record Nprmknod := {
  rmknod_qid : Npqid;
}.
Record Nptrename := {
  trename_fid : Z;
  trename_dfid : Z;
  trename_name : Npstr;
}.
Record Nptreadlink := {
  treadlink_fid : Z;
}.
Record Nprreadlink := {
  rreadlink_target : Npstr;
}.
Record Nptgetattr := {
  tgetattr_fid : Z;
  tgetattr_request_mask : Z;
}.
Record Nprgetattr := {
  rgetattr_valid : Z;
  rgetattr_qid : Npqid;
  rgetattr_mode : Z;
  rgetattr_uid : Z;
  rgetattr_gid : Z;
  rgetattr_nlink : Z;
  rgetattr_rdev : Z;
  rgetattr_size : Z;
  rgetattr_blksize : Z;
  rgetattr_blocks : Z;
  rgetattr_atime_sec : Z;
  rgetattr_atime_nsec : Z;
  rgetattr_mtime_sec : Z;
  rgetattr_mtime_nsec : Z;
  rgetattr_ctime_sec : Z;
  rgetattr_ctime_nsec : Z;
  rgetattr_btime_sec : Z;
  rgetattr_btime_nsec : Z;
  rgetattr_gen : Z;
  rgetattr_data_version : Z;
}.
Record Nptsetattr := {
  tsetattr_fid : Z;
  tsetattr_valid : Z;
  tsetattr_mode : Z;
  tsetattr_uid : Z;
  tsetattr_gid : Z;
  tsetattr_size : Z;
  tsetattr_atime_sec : Z;
  tsetattr_atime_nsec : Z;
  tsetattr_mtime_sec : Z;
  tsetattr_mtime_nsec : Z;
}.
Record Nptxattrwalk := {
  txattrwalk_fid : Z;
  txattrwalk_attrfid : Z;
  txattrwalk_name : Npstr;
}.
Record Nprxattrwalk := {
  rxattrwalk_size : Z;
}.
Record Nptxattrcreate := {
  txattrcreate_fid : Z;
  txattrcreate_name : Npstr;
  txattrcreate_size : Z;
  txattrcreate_flag : Z;
}.
Record Nptreaddir := {
  treaddir_fid : Z;
  treaddir_offset : Z;
  treaddir_count : Z;
}.
Record Nprreaddir := {
  rreaddir_count : Z;
  rreaddir_data : option Z;
}.
Record Nptfsync := {
  tfsync_fid : Z;
  tfsync_datasync : Z;
}.
Record Nptlock := {
  tlock_fid : Z;
  tlock_type : Z;
  tlock_flags : Z;
  tlock_start : Z;
  tlock_length : Z;
  tlock_proc_id : Z;
  tlock_client_id : Npstr;
}.
Record Nprlock := {
  rlock_status : Z;
}.
Record Nptgetlock := {
  tgetlock_fid : Z;
  tgetlock_type : Z;
  tgetlock_start : Z;
  tgetlock_length : Z;
  tgetlock_proc_id : Z;
  tgetlock_client_id : Npstr;
}.
Record Nprgetlock := {
  rgetlock_type : Z;
  rgetlock_start : Z;
  rgetlock_length : Z;
  rgetlock_proc_id : Z;
  rgetlock_client_id : Npstr;
}.
Record Nptlink := {
  tlink_dfid : Z;
  tlink_fid : Z;
  tlink_name : Npstr;
}.
Record Nptmkdir := {
  tmkdir_fid : Z;
  tmkdir_name : Npstr;
  tmkdir_mode : Z;
  tmkdir_gid : Z;
}.
Record Nprmkdir := {
  rmkdir_qid : Npqid;
}.
Record Nptrenameat := {
  trenameat_olddirfid : Z;
  trenameat_oldname : Npstr;
  trenameat_newdirfid : Z;
  trenameat_newname : Npstr;
}.
Record Nptunlinkat := {
  tunlinkat_dirfid : Z;
  tunlinkat_name : Npstr;
  tunlinkat_flags : Z;
}.
Record Nptversion := {
  tversion_msize : Z;
  tversion_version : Npstr;
}.
Record Nprversion := {
  rversion_msize : Z;
  rversion_version : Npstr;
}.
Record Nptauth := {
  tauth_afid : Z;
  tauth_uname : Npstr;
  tauth_aname : Npstr;
  tauth_n_uname : Z;
}.
Record Nprauth := {
  rauth_qid : Npqid;
}.
Record Nptattach := {
  tattach_fid : Z;
  tattach_afid : Z;
  tattach_uname : Npstr;
  tattach_aname : Npstr;
  tattach_n_uname : Z;
}.
Record Nprattach := {
  rattach_qid : Npqid;
}.
Record Nptflush := {
  tflush_oldtag : Z;
}.
Record Nptwalk := {
  twalk_fid : Z;
  twalk_newfid : Z;
  twalk_nwname : Z;
  twalk_wnames : list Npstr;
}.
Record Nprwalk := {
  rwalk_nwqid : Z;
  rwalk_wqids : list Npqid;
}.
Record Nptread := {
  tread_fid : Z;
  tread_offset : Z;
  tread_count : Z;
}.
Record Nprread := {
  rread_count : Z;
  rread_data : option Z;
}.
Record Nptwrite := {
  twrite_fid : Z;
  twrite_offset : Z;
  twrite_count : Z;
  twrite_data : option Z;
}.
Record Nprwrite := {
  rwrite_count : Z;
}.
Record Nptclunk := {
  tclunk_fid : Z;
}.
Record Nptremove := {
  tremove_fid : Z;
}.

(** The union [u]; [U_none] stands for a message without a body. *)
Inductive Npfcall_u :=
| U_none
| U_rlerror (x : Nprlerror)
| U_tstatfs (x : Nptstatfs)
| U_rstatfs (x : Nprstatfs)
| U_tlopen (x : Nptlopen)
| U_rlopen (x : Nprlopen)
| U_tlcreate (x : Nptlcreate)
| U_rlcreate (x : Nprlcreate)
| U_tsymlink (x : Nptsymlink)
| U_rsymlink (x : Nprsymlink)
| U_tmknod (x : Nptmknod)
| U_rmknod (x : Nprmknod)
| U_trename (x : Nptrename)
| U_treadlink (x : Nptreadlink)
| U_rreadlink (x : Nprreadlink)
| U_tgetattr (x : Nptgetattr)
| U_rgetattr (x : Nprgetattr)
| U_tsetattr (x : Nptsetattr)
| U_txattrwalk (x : Nptxattrwalk)
| U_rxattrwalk (x : Nprxattrwalk)
| U_txattrcreate (x : Nptxattrcreate)
| U_treaddir (x : Nptreaddir)
| U_rreaddir (x : Nprreaddir)
| U_tfsync (x : Nptfsync)
| U_tlock (x : Nptlock)
| U_rlock (x : Nprlock)
| U_tgetlock (x : Nptgetlock)
| U_rgetlock (x : Nprgetlock)
| U_tlink (x : Nptlink)
| U_tmkdir (x : Nptmkdir)
| U_rmkdir (x : Nprmkdir)
| U_trenameat (x : Nptrenameat)
| U_tunlinkat (x : Nptunlinkat)
| U_tversion (x : Nptversion)
| U_rversion (x : Nprversion)
| U_tauth (x : Nptauth)
| U_rauth (x : Nprauth)
| U_tattach (x : Nptattach)
| U_rattach (x : Nprattach)
| U_tflush (x : Nptflush)
| U_twalk (x : Nptwalk)
| U_rwalk (x : Nprwalk)
| U_tread (x : Nptread)
| U_rread (x : Nprread)
| U_twrite (x : Nptwrite)
| U_rwrite (x : Nprwrite)
| U_tclunk (x : Nptclunk)
| U_tremove (x : Nptremove).

Record Npfcall := {
  fc_size : Z;
  fc_type : Z;
  fc_tag : Z;
  fc_pkt : list Z;
  fc_u : Npfcall_u;
}.

(** [sizeof (Npfcall)] on LP64: 16 bytes of header and a 272-byte union. *)
Definition sizeof_Npfcall : Z := 288.

(** The bytes a string view denotes in its packet. *)
Definition npstr_bytes (pkt : list Z) (s : Npstr) : res (list Z) :=
  match str s with
  | Some a => load_bytes pkt a (len s)
  | None => if len s =? 0 then Ret [] else UB
  end.

(** All the strings of a message, and its data view (count and pointer). *)
Definition u_strs (u : Npfcall_u) : list Npstr :=
  match u with
  | U_tlcreate x => [tlcreate_name x]
  | U_tsymlink x => [tsymlink_name x] ++ [tsymlink_symtgt x]
  | U_tmknod x => [tmknod_name x]
  | U_trename x => [trename_name x]
  | U_rreadlink x => [rreadlink_target x]
  | U_txattrwalk x => [txattrwalk_name x]
  | U_txattrcreate x => [txattrcreate_name x]
  | U_tlock x => [tlock_client_id x]
  | U_tgetlock x => [tgetlock_client_id x]
  | U_rgetlock x => [rgetlock_client_id x]
  | U_tlink x => [tlink_name x]
  | U_tmkdir x => [tmkdir_name x]
  | U_trenameat x => [trenameat_oldname x] ++ [trenameat_newname x]
  | U_tunlinkat x => [tunlinkat_name x]
  | U_tversion x => [tversion_version x]
  | U_rversion x => [rversion_version x]
  | U_tauth x => [tauth_uname x] ++ [tauth_aname x]
  | U_tattach x => [tattach_uname x] ++ [tattach_aname x]
  | U_twalk x => twalk_wnames x
  | _ => []
  end.

Definition u_data (u : Npfcall_u) : option (Z * option Z) :=
  match u with
  | U_rreaddir x => Some (rreaddir_count x, rreaddir_data x)
  | U_rread x => Some (rread_count x, rread_data x)
  | U_twrite x => Some (twrite_count x, twrite_data x)
  | _ => None
  end.
