(* ===== verification/Create.v ===== *)
(** * Building messages (libnpfs/np.c)

    The [np_create_*] family.  A message is built in three steps that
    [np_create] composes: [np_create_common] allocates the packet and writes
    the header, the body writes the fields, [np_post_check] discards the
    message when the buffer overflowed.  [None] is a [NULL] return.  Sizes are
    computed in [size_t] and stored in an [int], as in the source. *)
From S2P Require Import Prelude Cbuf Protocol.

Section Create.
Context `{CHeap}.

(** What [np_create_common] has filled in: [fc->size], [fc->type], [fc->tag]. *)
Record fc_header := { hd_size : Z; hd_type : Z; hd_tag : Z }.

Definition put_header (size id : Z) : M fc_header :=
  let* size' := buf_put_int32 size in
  let* id' := buf_put_int8 id in
  let* tag' := buf_put_int16 NOTAG in
  ret {| hd_size := size'; hd_type := id'; hd_tag := tag' |}.

Definition np_create_common (size id : Z) : res (option (fc_header * cbuf)) :=
  let size := u32 (u32 size + (4 + 1 + 2)) in
  match malloc (sizeof_Npfcall + size) with
  | None => Ret None
  | Some blk =>
      let pkt := drop (Z.to_nat sizeof_Npfcall) blk in
      let! hb := put_header size id (buf_init pkt 0 size) in
      Ret (Some hb)
  end.

Definition np_create_common_static (size id : Z) (buf : list Z) (buflen : Z)
  : res (fc_header * cbuf) :=
  let size := u32 (u32 size + (4 + 1 + 2)) in
  let! _ := np_assert (sizeof_Npfcall + size <=? u64 (int32 buflen)) in
  let pkt := drop (Z.to_nat sizeof_Npfcall) buf in
  put_header size id (buf_init pkt 0 size).

Definition mk_fcall (h : fc_header) (u : Npfcall_u) (b : cbuf) : Npfcall :=
  {| fc_size := hd_size h; fc_type := hd_type h; fc_tag := hd_tag h;
     fc_pkt := mem b; fc_u := u |}.

Definition np_post_check (fc : Npfcall) (b : cbuf) : option Npfcall :=
  if buf_check_overflow b then None else Some fc.

Definition np_create (size id : Z) (body : M Npfcall_u) : res (option Npfcall) :=
  let! o := np_create_common size id in
  match o with
  | None => Ret None
  | Some (h, b) =>
      let! (u, b) := body b in
      Ret (np_post_check (mk_fcall h u b) b)
  end.

Definition np_set_tag (fc : Npfcall) (tag : Z) : res Npfcall :=
  let tag := u16 tag in
  let! pkt := store_bytes (fc_pkt fc) 5 [u8 tag; u8 (Z.shiftr tag 8)] in
  Ret {| fc_size := fc_size fc; fc_type := fc_type fc; fc_tag := tag;
         fc_pkt := pkt; fc_u := fc_u fc |}.

Definition np_create_tversion (msize : Z) (version : cstr)
    : res (option Npfcall) :=
  let size := int32 (4 + 2 + strlen version) in
  np_create size Tversion (
    let* msize' := buf_put_int32 msize in
    let* version' := buf_put_str (Some version) in
    ret (U_tversion {| tversion_msize := msize';
      tversion_version := version' |})).

Definition np_create_rversion (msize : Z) (version : option cstr)
    : res (option Npfcall) :=
  let size := int32 (4 + 2 + strlen_opt version) in
  np_create size Rversion (
    let* msize' := buf_put_int32 msize in
    let* version' := buf_put_str version in
    ret (U_rversion {| rversion_msize := msize';
      rversion_version := version' |})).

Definition np_create_tauth (fid : Z) (uname : option cstr)
    (aname : option cstr) (n_uname : Z) : res (option Npfcall) :=
  let size := int32 (4 + 2 + strlen_opt uname + 2 + strlen_opt aname + 4) in
  np_create size Tauth (
    let* afid' := buf_put_int32 fid in
    let* uname' := buf_put_str uname in
    let* aname' := buf_put_str aname in
    let* n_uname' := buf_put_int32 n_uname in
    ret (U_tauth {| tauth_afid := afid';
      tauth_uname := uname';
      tauth_aname := aname';
      tauth_n_uname := n_uname' |})).

Definition np_create_rauth (aqid : Npqid) : res (option Npfcall) :=
  let size := QIDSIZE in
  np_create size Rauth (
    let* qid' := buf_put_qid aqid in
    ret (U_rauth {| rauth_qid := qid' |})).

Definition np_create_tflush (oldtag : Z) : res (option Npfcall) :=
  let size := 2 in
  np_create size Tflush (
    let* oldtag' := buf_put_int16 oldtag in
    ret (U_tflush {| tflush_oldtag := oldtag' |})).

Definition np_create_rflush : res (option Npfcall) :=
  let size := 0 in
  np_create size Rflush (ret U_none).

Definition np_create_tattach (fid : Z) (afid : Z) (uname : option cstr)
    (aname : option cstr) (n_uname : Z) : res (option Npfcall) :=
  let size := int32 (2 * 4 + 2 + strlen_opt uname + 2 + strlen_opt aname + 4) in
  np_create size Tattach (
    let* fid' := buf_put_int32 fid in
    let* afid' := buf_put_int32 afid in
    let* uname' := buf_put_str uname in
    let* aname' := buf_put_str aname in
    let* n_uname' := buf_put_int32 n_uname in
    ret (U_tattach {| tattach_fid := fid';
      tattach_afid := afid';
      tattach_uname := uname';
      tattach_aname := aname';
      tattach_n_uname := n_uname' |})).

Definition np_create_rattach (qid : Npqid) : res (option Npfcall) :=
  let size := QIDSIZE in
  np_create size Rattach (
    let* qid' := buf_put_qid qid in
    ret (U_rattach {| rattach_qid := qid' |})).

Definition np_create_tread (fid : Z) (offset : Z) (count : Z)
    : res (option Npfcall) :=
  let size := int32 (4 + 8 + 4) in
  np_create size Tread (
    let* fid' := buf_put_int32 fid in
    let* offset' := buf_put_int64 offset in
    let* count' := buf_put_int32 count in
    ret (U_tread {| tread_fid := fid';
      tread_offset := offset';
      tread_count := count' |})).

Definition np_create_rwrite (count : Z) : res (option Npfcall) :=
  let size := 4 in
  np_create size Rwrite (
    let* count' := buf_put_int32 count in
    ret (U_rwrite {| rwrite_count := count' |})).

Definition np_create_tclunk (fid : Z) : res (option Npfcall) :=
  let size := 4 in
  np_create size Tclunk (
    let* fid' := buf_put_int32 fid in
    ret (U_tclunk {| tclunk_fid := fid' |})).

Definition np_create_rclunk : res (option Npfcall) :=
  let size := 0 in
  np_create size Rclunk (ret U_none).

Definition np_create_tremove (fid : Z) : res (option Npfcall) :=
  let size := 4 in
  np_create size Tremove (
    let* fid' := buf_put_int32 fid in
    ret (U_tremove {| tremove_fid := fid' |})).

Definition np_create_rremove : res (option Npfcall) :=
  let size := 0 in
  np_create size Rremove (ret U_none).

Definition np_create_rlerror (ecode : Z) : res (option Npfcall) :=
  let size := 4 in
  np_create size Rlerror (
    let* ecode' := buf_put_int32 ecode in
    ret (U_rlerror {| rlerror_ecode := ecode' |})).

Definition np_create_tstatfs (fid : Z) : res (option Npfcall) :=
  let size := 4 in
  np_create size Tstatfs (
    let* fid' := buf_put_int32 fid in
    ret (U_tstatfs {| tstatfs_fid := fid' |})).

Definition np_create_rstatfs (type_ : Z) (bsize : Z) (blocks : Z) (bfree : Z)
    (bavail : Z) (files : Z) (ffree : Z) (fsid : Z) (namelen : Z)
    : res (option Npfcall) :=
  let size := int32 (2 * 4 + 6 * 8 + 4) in
  np_create size Rstatfs (
    let* type' := buf_put_int32 type_ in
    let* bsize' := buf_put_int32 bsize in
    let* blocks' := buf_put_int64 blocks in
    let* bfree' := buf_put_int64 bfree in
    let* bavail' := buf_put_int64 bavail in
    let* files' := buf_put_int64 files in
    let* ffree' := buf_put_int64 ffree in
    let* fsid' := buf_put_int64 fsid in
    let* namelen' := buf_put_int32 namelen in
    ret (U_rstatfs {| rstatfs_type := type';
      rstatfs_bsize := bsize';
      rstatfs_blocks := blocks';
      rstatfs_bfree := bfree';
      rstatfs_bavail := bavail';
      rstatfs_files := files';
      rstatfs_ffree := ffree';
      rstatfs_fsid := fsid';
      rstatfs_namelen := namelen' |})).

Definition np_create_tlopen (fid : Z) (flags : Z) : res (option Npfcall) :=
  let size := int32 (4 + 4) in
  np_create size Tlopen (
    let* fid' := buf_put_int32 fid in
    let* flags' := buf_put_int32 flags in
    ret (U_tlopen {| tlopen_fid := fid';
      tlopen_flags := flags' |})).

Definition np_create_rlopen (qid : Npqid) (iounit : Z)
    : res (option Npfcall) :=
  let size := int32 (QIDSIZE + 4) in
  np_create size Rlopen (
    let* qid' := buf_put_qid qid in
    let* iounit' := buf_put_int32 iounit in
    ret (U_rlopen {| rlopen_qid := qid';
      rlopen_iounit := iounit' |})).

Definition np_create_tlcreate (fid : Z) (name : cstr) (flags : Z) (mode : Z)
    (gid : Z) : res (option Npfcall) :=
  let size := int32 (4 + 2 + strlen name + 4 + 4 + 4) in
  np_create size Tlcreate (
    let* fid' := buf_put_int32 fid in
    let* name' := buf_put_str (Some name) in
    let* flags' := buf_put_int32 flags in
    let* mode' := buf_put_int32 mode in
    let* gid' := buf_put_int32 gid in
    ret (U_tlcreate {| tlcreate_fid := fid';
      tlcreate_name := name';
      tlcreate_flags := flags';
      tlcreate_mode := mode';
      tlcreate_gid := gid' |})).

Definition np_create_rlcreate (qid : Npqid) (iounit : Z)
    : res (option Npfcall) :=
  let size := int32 (QIDSIZE + 4) in
  np_create size Rlcreate (
    let* qid' := buf_put_qid qid in
    let* iounit' := buf_put_int32 iounit in
    ret (U_rlcreate {| rlcreate_qid := qid';
      rlcreate_iounit := iounit' |})).

Definition np_create_tsymlink (fid : Z) (name : cstr) (symtgt : cstr)
    (gid : Z) : res (option Npfcall) :=
  let size := int32 (4 + 2 + strlen name + 2 + strlen symtgt + 4) in
  np_create size Tsymlink (
    let* fid' := buf_put_int32 fid in
    let* name' := buf_put_str (Some name) in
    let* symtgt' := buf_put_str (Some symtgt) in
    let* gid' := buf_put_int32 gid in
    ret (U_tsymlink {| tsymlink_fid := fid';
      tsymlink_name := name';
      tsymlink_symtgt := symtgt';
      tsymlink_gid := gid' |})).

Definition np_create_rsymlink (qid : Npqid) : res (option Npfcall) :=
  let size := QIDSIZE in
  np_create size Rsymlink (
    let* qid' := buf_put_qid qid in
    ret (U_rsymlink {| rsymlink_qid := qid' |})).

Definition np_create_tmknod (fid : Z) (name : cstr) (mode : Z) (major : Z)
    (minor : Z) (gid : Z) : res (option Npfcall) :=
  let size := int32 (4 + 2 + strlen name + 4 + 4 + 4 + 4) in
  np_create size Tmknod (
    let* fid' := buf_put_int32 fid in
    let* name' := buf_put_str (Some name) in
    let* mode' := buf_put_int32 mode in
    let* major' := buf_put_int32 major in
    let* minor' := buf_put_int32 minor in
    let* gid' := buf_put_int32 gid in
    ret (U_tmknod {| tmknod_fid := fid';
      tmknod_name := name';
      tmknod_mode := mode';
      tmknod_major := major';
      tmknod_minor := minor';
      tmknod_gid := gid' |})).

Definition np_create_rmknod (qid : Npqid) : res (option Npfcall) :=
  let size := QIDSIZE in
  np_create size Rmknod (
    let* qid' := buf_put_qid qid in
    ret (U_rmknod {| rmknod_qid := qid' |})).

Definition np_create_trename (fid : Z) (dfid : Z) (name : cstr)
    : res (option Npfcall) :=
  let size := int32 (4 + 4 + 2 + strlen name) in
  np_create size Trename (
    let* fid' := buf_put_int32 fid in
    let* dfid' := buf_put_int32 dfid in
    let* name' := buf_put_str (Some name) in
    ret (U_trename {| trename_fid := fid';
      trename_dfid := dfid';
      trename_name := name' |})).

Definition np_create_rrename : res (option Npfcall) :=
  let size := 0 in
  np_create size Rrename (ret U_none).

Definition np_create_treadlink (fid : Z) : res (option Npfcall) :=
  let size := 4 in
  np_create size Treadlink (
    let* fid' := buf_put_int32 fid in
    ret (U_treadlink {| treadlink_fid := fid' |})).

Definition np_create_rreadlink (target : cstr) : res (option Npfcall) :=
  let size := int32 (2 + strlen target) in
  np_create size Rreadlink (
    let* target' := buf_put_str (Some target) in
    ret (U_rreadlink {| rreadlink_target := target' |})).

Definition np_create_tgetattr (fid : Z) (request_mask : Z)
    : res (option Npfcall) :=
  let size := int32 (4 + 8) in
  np_create size Tgetattr (
    let* fid' := buf_put_int32 fid in
    let* request_mask' := buf_put_int64 request_mask in
    ret (U_tgetattr {| tgetattr_fid := fid';
      tgetattr_request_mask := request_mask' |})).

Definition np_create_rgetattr (valid : Z) (qid : Npqid) (mode : Z) (uid : Z)
    (gid : Z) (nlink : Z) (rdev : Z) (size_ : Z) (blksize : Z) (blocks : Z)
    (atime_sec : Z) (atime_nsec : Z) (mtime_sec : Z) (mtime_nsec : Z)
    (ctime_sec : Z) (ctime_nsec : Z) (btime_sec : Z) (btime_nsec : Z)
    (gen : Z) (data_version : Z) : res (option Npfcall) :=
  let size := int32 (8 + QIDSIZE + 3 * 4 + 15 * 8) in
  np_create size Rgetattr (
    let* valid' := buf_put_int64 valid in
    let* qid' := buf_put_qid qid in
    let* mode' := buf_put_int32 mode in
    let* uid' := buf_put_int32 uid in
    let* gid' := buf_put_int32 gid in
    let* nlink' := buf_put_int64 nlink in
    let* rdev' := buf_put_int64 rdev in
    let* size' := buf_put_int64 size_ in
    let* blksize' := buf_put_int64 blksize in
    let* blocks' := buf_put_int64 blocks in
    let* atime_sec' := buf_put_int64 atime_sec in
    let* atime_nsec' := buf_put_int64 atime_nsec in
    let* mtime_sec' := buf_put_int64 mtime_sec in
    let* mtime_nsec' := buf_put_int64 mtime_nsec in
    let* ctime_sec' := buf_put_int64 ctime_sec in
    let* ctime_nsec' := buf_put_int64 ctime_nsec in
    let* btime_sec' := buf_put_int64 btime_sec in
    let* btime_nsec' := buf_put_int64 btime_nsec in
    let* gen' := buf_put_int64 gen in
    let* data_version' := buf_put_int64 data_version in
    ret (U_rgetattr {| rgetattr_valid := valid';
      rgetattr_qid := qid';
      rgetattr_mode := mode';
      rgetattr_uid := uid';
      rgetattr_gid := gid';
      rgetattr_nlink := nlink';
      rgetattr_rdev := rdev';
      rgetattr_size := size';
      rgetattr_blksize := blksize';
      rgetattr_blocks := blocks';
      rgetattr_atime_sec := atime_sec';
      rgetattr_atime_nsec := atime_nsec';
      rgetattr_mtime_sec := mtime_sec';
      rgetattr_mtime_nsec := mtime_nsec';
      rgetattr_ctime_sec := ctime_sec';
      rgetattr_ctime_nsec := ctime_nsec';
      rgetattr_btime_sec := btime_sec';
      rgetattr_btime_nsec := btime_nsec';
      rgetattr_gen := gen';
      rgetattr_data_version := data_version' |})).

Definition np_create_tsetattr (fid : Z) (valid : Z) (mode : Z) (uid : Z)
    (gid : Z) (size_ : Z) (atime_sec : Z) (atime_nsec : Z) (mtime_sec : Z)
    (mtime_nsec : Z) : res (option Npfcall) :=
  let size := int32 (5 * 4 + 5 * 8) in
  np_create size Tsetattr (
    let* fid' := buf_put_int32 fid in
    let* valid' := buf_put_int32 valid in
    let* mode' := buf_put_int32 mode in
    let* uid' := buf_put_int32 uid in
    let* gid' := buf_put_int32 gid in
    let* size' := buf_put_int64 size_ in
    let* atime_sec' := buf_put_int64 atime_sec in
    let* atime_nsec' := buf_put_int64 atime_nsec in
    let* mtime_sec' := buf_put_int64 mtime_sec in
    let* mtime_nsec' := buf_put_int64 mtime_nsec in
    ret (U_tsetattr {| tsetattr_fid := fid';
      tsetattr_valid := valid';
      tsetattr_mode := mode';
      tsetattr_uid := uid';
      tsetattr_gid := gid';
      tsetattr_size := size';
      tsetattr_atime_sec := atime_sec';
      tsetattr_atime_nsec := atime_nsec';
      tsetattr_mtime_sec := mtime_sec';
      tsetattr_mtime_nsec := mtime_nsec' |})).

Definition np_create_rsetattr : res (option Npfcall) :=
  let size := 0 in
  np_create size Rsetattr (ret U_none).

Definition np_create_txattrwalk (fid : Z) (attrfid : Z) (name : option cstr)
    : res (option Npfcall) :=
  let size := int32 (2 * 4 + 2 + strlen_opt name) in
  np_create size Txattrwalk (
    let* fid' := buf_put_int32 fid in
    let* attrfid' := buf_put_int32 attrfid in
    let* name' := buf_put_str name in
    ret (U_txattrwalk {| txattrwalk_fid := fid';
      txattrwalk_attrfid := attrfid';
      txattrwalk_name := name' |})).

Definition np_create_rxattrwalk (size_ : Z) : res (option Npfcall) :=
  let size := 8 in
  np_create size Rxattrwalk (
    let* size' := buf_put_int64 size_ in
    ret (U_rxattrwalk {| rxattrwalk_size := size' |})).

Definition np_create_txattrcreate (fid : Z) (name : option cstr) (size_ : Z)
    (flag : Z) : res (option Npfcall) :=
  let size := int32 (4 + 2 + strlen_opt name + 8 + 4) in
  np_create size Txattrcreate (
    let* fid' := buf_put_int32 fid in
    let* name' := buf_put_str name in
    let* size' := buf_put_int64 size_ in
    let* flag' := buf_put_int32 flag in
    ret (U_txattrcreate {| txattrcreate_fid := fid';
      txattrcreate_name := name';
      txattrcreate_size := size';
      txattrcreate_flag := flag' |})).

Definition np_create_rxattrcreate : res (option Npfcall) :=
  let size := 0 in
  np_create size Rxattrcreate (ret U_none).

Definition np_create_treaddir (fid : Z) (offset : Z) (count : Z)
    : res (option Npfcall) :=
  let size := int32 (4 + 8 + 4) in
  np_create size Treaddir (
    let* fid' := buf_put_int32 fid in
    let* offset' := buf_put_int64 offset in
    let* count' := buf_put_int32 count in
    ret (U_treaddir {| treaddir_fid := fid';
      treaddir_offset := offset';
      treaddir_count := count' |})).

Definition np_create_tfsync (fid : Z) (datasync : Z) : res (option Npfcall) :=
  let size := int32 (4 + 4) in
  np_create size Tfsync (
    let* fid' := buf_put_int32 fid in
    let* datasync' := buf_put_int32 datasync in
    ret (U_tfsync {| tfsync_fid := fid';
      tfsync_datasync := datasync' |})).

Definition np_create_rfsync : res (option Npfcall) :=
  let size := 0 in
  np_create size Rfsync (ret U_none).

Definition np_create_tlock (fid : Z) (type_ : Z) (flags : Z) (start : Z)
    (length : Z) (proc_id : Z) (client_id : cstr) : res (option Npfcall) :=
  let size := int32 (4 + 1 + 4 + 2 * 8 + 4 + 2 + strlen client_id) in
  np_create size Tlock (
    let* fid' := buf_put_int32 fid in
    let* type' := buf_put_int8 type_ in
    let* flags' := buf_put_int32 flags in
    let* start' := buf_put_int64 start in
    let* length' := buf_put_int64 length in
    let* proc_id' := buf_put_int32 proc_id in
    let* client_id' := buf_put_str (Some client_id) in
    ret (U_tlock {| tlock_fid := fid';
      tlock_type := type';
      tlock_flags := flags';
      tlock_start := start';
      tlock_length := length';
      tlock_proc_id := proc_id';
      tlock_client_id := client_id' |})).

Definition np_create_rlock (status : Z) : res (option Npfcall) :=
  let size := 1 in
  np_create size Rlock (
    let* status' := buf_put_int8 status in
    ret (U_rlock {| rlock_status := status' |})).

Definition np_create_tgetlock (fid : Z) (type_ : Z) (start : Z) (length : Z)
    (proc_id : Z) (client_id : cstr) : res (option Npfcall) :=
  let size := int32 (4 + 1 + 2 * 8 + 4 + 2 + strlen client_id) in
  np_create size Tgetlock (
    let* fid' := buf_put_int32 fid in
    let* type' := buf_put_int8 type_ in
    let* start' := buf_put_int64 start in
    let* length' := buf_put_int64 length in
    let* proc_id' := buf_put_int32 proc_id in
    let* client_id' := buf_put_str (Some client_id) in
    ret (U_tgetlock {| tgetlock_fid := fid';
      tgetlock_type := type';
      tgetlock_start := start';
      tgetlock_length := length';
      tgetlock_proc_id := proc_id';
      tgetlock_client_id := client_id' |})).

Definition np_create_rgetlock (type_ : Z) (start : Z) (length : Z)
    (proc_id : Z) (client_id : cstr) : res (option Npfcall) :=
  let size := int32 (1 + 2 * 8 + 4 + 2 + strlen client_id) in
  np_create size Rgetlock (
    let* type' := buf_put_int8 type_ in
    let* start' := buf_put_int64 start in
    let* length' := buf_put_int64 length in
    let* proc_id' := buf_put_int32 proc_id in
    let* client_id' := buf_put_str (Some client_id) in
    ret (U_rgetlock {| rgetlock_type := type';
      rgetlock_start := start';
      rgetlock_length := length';
      rgetlock_proc_id := proc_id';
      rgetlock_client_id := client_id' |})).

Definition np_create_tlink (dfid : Z) (fid : Z) (name : cstr)
    : res (option Npfcall) :=
  let size := int32 (2 * 4 + 2 + strlen name) in
  np_create size Tlink (
    let* dfid' := buf_put_int32 dfid in
    let* fid' := buf_put_int32 fid in
    let* name' := buf_put_str (Some name) in
    ret (U_tlink {| tlink_dfid := dfid';
      tlink_fid := fid';
      tlink_name := name' |})).

Definition np_create_rlink : res (option Npfcall) :=
  let size := 0 in
  np_create size Rlink (ret U_none).

Definition np_create_tmkdir (dfid : Z) (name : cstr) (mode : Z) (gid : Z)
    : res (option Npfcall) :=
  let size := int32 (4 + 2 + strlen name + 4 + 4) in
  np_create size Tmkdir (
    let* fid' := buf_put_int32 dfid in
    let* name' := buf_put_str (Some name) in
    let* mode' := buf_put_int32 mode in
    let* gid' := buf_put_int32 gid in
    ret (U_tmkdir {| tmkdir_fid := fid';
      tmkdir_name := name';
      tmkdir_mode := mode';
      tmkdir_gid := gid' |})).

Definition np_create_rmkdir (qid : Npqid) : res (option Npfcall) :=
  let size := QIDSIZE in
  np_create size Rmkdir (
    let* qid' := buf_put_qid qid in
    ret (U_rmkdir {| rmkdir_qid := qid' |})).

Definition np_create_trenameat (olddirfid : Z) (oldname : cstr)
    (newdirfid : Z) (newname : cstr) : res (option Npfcall) :=
  let size := int32 (4 + 2 + strlen oldname + 4 + 2 + strlen newname) in
  np_create size Trenameat (
    let* olddirfid' := buf_put_int32 olddirfid in
    let* oldname' := buf_put_str (Some oldname) in
    let* newdirfid' := buf_put_int32 newdirfid in
    let* newname' := buf_put_str (Some newname) in
    ret (U_trenameat {| trenameat_olddirfid := olddirfid';
      trenameat_oldname := oldname';
      trenameat_newdirfid := newdirfid';
      trenameat_newname := newname' |})).

Definition np_create_rrenameat : res (option Npfcall) :=
  let size := 0 in
  np_create size Rrenameat (ret U_none).

Definition np_create_tunlinkat (dirfid : Z) (name : cstr) (flags : Z)
    : res (option Npfcall) :=
  let size := int32 (4 + 2 + strlen name + 4) in
  np_create size Tunlinkat (
    let* dirfid' := buf_put_int32 dirfid in
    let* name' := buf_put_str (Some name) in
    let* flags' := buf_put_int32 flags in
    ret (U_tunlinkat {| tunlinkat_dirfid := dirfid';
      tunlinkat_name := name';
      tunlinkat_flags := flags' |})).

Definition np_create_runlinkat : res (option Npfcall) :=
  let size := 0 in
  np_create size Runlinkat (ret U_none).

(** ** The messages with an array, a data block or caller-provided storage *)

Definition np_create_rflush_static (buf : list Z) (buflen : Z)
  : res (option Npfcall) :=
  let size := 0 in
  let! (h, b) := np_create_common_static size Rflush buf buflen in
  Ret (if buf_check_overflow b then None else Some (mk_fcall h U_none b)).

Definition np_create_rlerror_static (ecode : Z) (buf : list Z) (bufsize : Z)
  : res (option Npfcall) :=
  let size := 4 in
  let! (h, b) := np_create_common_static size Rlerror buf bufsize in
  let! (ecode', b) := buf_put_int32 ecode b in
  Ret (if buf_check_overflow b then None
       else Some (mk_fcall h (U_rlerror {| rlerror_ecode := ecode' |}) b)).

(** The size loop [for (i = 0; i < nwname; i++) size += ..], an [int]. *)
Fixpoint twalk_size (n : nat) (wnames : list cstr) (size : Z) : res Z :=
  match n with
  | O => Ret size
  | S n =>
      match wnames with
      | [] => UB
      | w :: wnames => twalk_size n wnames (int32 (size + (2 + strlen w)))
      end
  end.

Definition np_create_twalk (fid newfid nwname : Z) (wnames : list cstr)
  : res (option Npfcall) :=
  let nwname := u16 nwname in
  let! _ := np_assert (nwname <=? MAXWELEM) in
  let! size := twalk_size (Z.to_nat nwname) wnames (2 * 4 + 2) in
  np_create size Twalk (
    let* fid' := buf_put_int32 fid in
    let* newfid' := buf_put_int32 newfid in
    let* nwname' := buf_put_int16 nwname in
    let* wnames' := for_each (Z.to_nat nwname) (fun w => buf_put_str (Some w)) wnames in
    ret (U_twalk {| twalk_fid := fid';
      twalk_newfid := newfid';
      twalk_nwname := nwname';
      twalk_wnames := wnames' |})).

Definition np_create_rwalk (nwqid : Z) (wqids : list Npqid) : res (option Npfcall) :=
  let nwqid := int32 nwqid in
  let size := int32 (2 + nwqid * QIDSIZE) in
  let! _ := np_assert (nwqid <=? MAXWELEM) in
  np_create size Rwalk (
    let* nwqid' := buf_put_int16 nwqid in
    let* wqids' := for_each (Z.to_nat nwqid) buf_put_qid wqids in
    ret (U_rwalk {| rwalk_nwqid := nwqid'; rwalk_wqids := wqids' |})).

Definition np_alloc_rread (count : Z) : res (option Npfcall) :=
  let count := u32 count in
  let size := int32 (4 + count) in
  np_create size Rread (
    let* count' := buf_put_int32 count in
    let* data' := buf_alloc count in
    ret (U_rread {| rread_count := count'; rread_data := data' |})).

(** [memmove (dst, data, count)] between the caller's array and the packet. *)
Definition copy_in (pkt : list Z) (dst : Z) (data : list Z) (count : Z)
  : res (list Z) :=
  let! bs := load_bytes data 0 count in
  store_bytes pkt dst bs.

Definition np_create_rread (count : Z) (data : list Z) : res (option Npfcall) :=
  let count := u32 count in
  let! o := np_alloc_rread count in
  match o with
  | None => Ret None
  | Some fc =>
      match fc_u fc with
      | U_rread {| rread_data := Some dst |} =>
          let! pkt := copy_in (fc_pkt fc) dst data count in
          Ret (Some {| fc_size := fc_size fc; fc_type := fc_type fc;
                       fc_tag := fc_tag fc; fc_pkt := pkt; fc_u := fc_u fc |})
      | _ => Ret (Some fc)
      end
  end.

(** The header size and the count of a message whose data was shortened. *)
Definition shrink (fc : Npfcall) (count : Z) (u : Z -> Npfcall_u) : res Npfcall :=
  let size := int32 (4 + 1 + 2 + 4 + count) in
  let! (size', b) := buf_put_int32 size (buf_init (fc_pkt fc) 0 size) in
  let! (count', b) := buf_put_int32 count (buf_init (mem b) 7 (size - 7)) in
  Ret {| fc_size := size'; fc_type := fc_type fc; fc_tag := fc_tag fc;
         fc_pkt := mem b; fc_u := u count' |}.

Definition np_set_rread_count (fc : Npfcall) (count : Z) : res Npfcall :=
  let count := u32 count in
  match fc_u fc with
  | U_rread r =>
      let! _ := np_assert (count <=? rread_count r) in
      shrink fc count (fun c =>
        U_rread {| rread_count := c; rread_data := rread_data r |})
  | _ => UB
  end.

Definition buf_copy (dst : Z) (data : list Z) (count : Z) : M unit := fun b =>
  let! m := copy_in (mem b) dst data count in
  Ret (tt, set_mem m b).

Definition np_create_twrite (fid offset count : Z) (data : list Z)
  : res (option Npfcall) :=
  let count := u32 count in
  let size := int32 (4 + 8 + 4 + count) in
  np_create size Twrite (
    let* fid' := buf_put_int32 fid in
    let* offset' := buf_put_int64 offset in
    let* count' := buf_put_int32 count in
    let* data' := buf_alloc count in
    let* _ := match data' with
              | Some dst => buf_copy dst data count
              | None => ret tt
              end in
    ret (U_twrite {| twrite_fid := fid';
      twrite_offset := offset';
      twrite_count := count';
      twrite_data := data' |})).

Definition np_create_rreaddir (count : Z) : res (option Npfcall) :=
  let count := u32 count in
  let size := int32 (4 + count) in
  np_create size Rreaddir (
    let* count' := buf_put_int32 count in
    let* data' := buf_alloc count in
    ret (U_rreaddir {| rreaddir_count := count'; rreaddir_data := data' |})).

Definition np_finalize_rreaddir (fc : Npfcall) (count : Z) : res Npfcall :=
  let count := u32 count in
  match fc_u fc with
  | U_rreaddir r =>
      let! _ := np_assert (count <=? rreaddir_count r) in
      shrink fc count (fun c =>
        U_rreaddir {| rreaddir_count := c; rreaddir_data := rreaddir_data r |})
  | _ => UB
  end.

Definition np_peek_size (buf : list Z) (len : Z) : res Z :=
  if 4 <=? len then
    let! bs := load_bytes buf 0 4 in
    Ret (u32 (Z.lor (Z.lor (Z.lor (byte_at bs 0)
       (Z.shiftl (byte_at bs 1) 8)) (Z.shiftl (byte_at bs 2) 16))
       (Z.shiftl (byte_at bs 3) 24)))
  else Ret 0.

Definition np_alloc_fcall (msize : Z) : option Npfcall :=
  let msize := int32 msize in
  match malloc (u64 (sizeof_Npfcall + msize)) with
  | None => None
  | Some blk =>
      Some {| fc_size := u32 msize; fc_type := undef; fc_tag := undef;
              fc_pkt := drop (Z.to_nat sizeof_Npfcall) blk; fc_u := U_none |}
  end.
End Create.
