(* ===== verification/Deserialize.v ===== *)
(** * Parsing messages (libnpfs/np.c)

    [np_deserialize], one parser per case of its switch.  It is run on a
    packet whose first bytes came from the peer; the size field is read
    first and bounds the rest of the parse. *)
From S2P Require Import Prelude Cbuf Protocol.

Definition get_rlerror : M Npfcall_u :=
  let* ecode' := buf_get_int32 in
  ret (U_rlerror {| rlerror_ecode := ecode' |}).

Definition get_tversion : M Npfcall_u :=
  let* msize' := buf_get_int32 in
  let* version' := buf_get_str in
  ret (U_tversion {| tversion_msize := msize';
    tversion_version := version' |}).

Definition get_rversion : M Npfcall_u :=
  let* msize' := buf_get_int32 in
  let* version' := buf_get_str in
  ret (U_rversion {| rversion_msize := msize';
    rversion_version := version' |}).

Definition get_tauth : M Npfcall_u :=
  let* afid' := buf_get_int32 in
  let* uname' := buf_get_str in
  let* aname' := buf_get_str in
  let* n_uname' := buf_get_int32 in
  ret (U_tauth {| tauth_afid := afid';
    tauth_uname := uname';
    tauth_aname := aname';
    tauth_n_uname := n_uname' |}).

Definition get_rauth : M Npfcall_u :=
  let* qid' := buf_get_qid in
  ret (U_rauth {| rauth_qid := qid' |}).

Definition get_tflush : M Npfcall_u :=
  let* oldtag' := buf_get_int16 in
  ret (U_tflush {| tflush_oldtag := oldtag' |}).

Definition get_tattach : M Npfcall_u :=
  let* fid' := buf_get_int32 in
  let* afid' := buf_get_int32 in
  let* uname' := buf_get_str in
  let* aname' := buf_get_str in
  let* n_uname' := buf_get_int32 in
  ret (U_tattach {| tattach_fid := fid';
    tattach_afid := afid';
    tattach_uname := uname';
    tattach_aname := aname';
    tattach_n_uname := n_uname' |}).

Definition get_rattach : M Npfcall_u :=
  let* qid' := buf_get_qid in
  ret (U_rattach {| rattach_qid := qid' |}).

Definition get_tread : M Npfcall_u :=
  let* fid' := buf_get_int32 in
  let* offset' := buf_get_int64 in
  let* count' := buf_get_int32 in
  ret (U_tread {| tread_fid := fid';
    tread_offset := offset';
    tread_count := count' |}).

Definition get_rread : M Npfcall_u :=
  let* count' := buf_get_int32 in
  let* data' := buf_alloc count' in
  ret (U_rread {| rread_count := count';
    rread_data := data' |}).

Definition get_twrite : M Npfcall_u :=
  let* fid' := buf_get_int32 in
  let* offset' := buf_get_int64 in
  let* count' := buf_get_int32 in
  let* data' := buf_alloc count' in
  ret (U_twrite {| twrite_fid := fid';
    twrite_offset := offset';
    twrite_count := count';
    twrite_data := data' |}).

Definition get_rwrite : M Npfcall_u :=
  let* count' := buf_get_int32 in
  ret (U_rwrite {| rwrite_count := count' |}).

Definition get_tclunk : M Npfcall_u :=
  let* fid' := buf_get_int32 in
  ret (U_tclunk {| tclunk_fid := fid' |}).

Definition get_tremove : M Npfcall_u :=
  let* fid' := buf_get_int32 in
  ret (U_tremove {| tremove_fid := fid' |}).

Definition get_tstatfs : M Npfcall_u :=
  let* fid' := buf_get_int32 in
  ret (U_tstatfs {| tstatfs_fid := fid' |}).

Definition get_rstatfs : M Npfcall_u :=
  let* type' := buf_get_int32 in
  let* bsize' := buf_get_int32 in
  let* blocks' := buf_get_int64 in
  let* bfree' := buf_get_int64 in
  let* bavail' := buf_get_int64 in
  let* files' := buf_get_int64 in
  let* ffree' := buf_get_int64 in
  let* fsid' := buf_get_int64 in
  let* namelen' := buf_get_int32 in
  ret (U_rstatfs {| rstatfs_type := type';
    rstatfs_bsize := bsize';
    rstatfs_blocks := blocks';
    rstatfs_bfree := bfree';
    rstatfs_bavail := bavail';
    rstatfs_files := files';
    rstatfs_ffree := ffree';
    rstatfs_fsid := fsid';
    rstatfs_namelen := namelen' |}).

Definition get_tlopen : M Npfcall_u :=
  let* fid' := buf_get_int32 in
  let* flags' := buf_get_int32 in
  ret (U_tlopen {| tlopen_fid := fid';
    tlopen_flags := flags' |}).

Definition get_rlopen : M Npfcall_u :=
  let* qid' := buf_get_qid in
  let* iounit' := buf_get_int32 in
  ret (U_rlopen {| rlopen_qid := qid';
    rlopen_iounit := iounit' |}).

Definition get_tlcreate : M Npfcall_u :=
  let* fid' := buf_get_int32 in
  let* name' := buf_get_str in
  let* flags' := buf_get_int32 in
  let* mode' := buf_get_int32 in
  let* gid' := buf_get_int32 in
  ret (U_tlcreate {| tlcreate_fid := fid';
    tlcreate_name := name';
    tlcreate_flags := flags';
    tlcreate_mode := mode';
    tlcreate_gid := gid' |}).

Definition get_rlcreate : M Npfcall_u :=
  let* qid' := buf_get_qid in
  let* iounit' := buf_get_int32 in
  ret (U_rlcreate {| rlcreate_qid := qid';
    rlcreate_iounit := iounit' |}).

Definition get_tsymlink : M Npfcall_u :=
  let* fid' := buf_get_int32 in
  let* name' := buf_get_str in
  let* symtgt' := buf_get_str in
  let* gid' := buf_get_int32 in
  ret (U_tsymlink {| tsymlink_fid := fid';
    tsymlink_name := name';
    tsymlink_symtgt := symtgt';
    tsymlink_gid := gid' |}).

Definition get_rsymlink : M Npfcall_u :=
  let* qid' := buf_get_qid in
  ret (U_rsymlink {| rsymlink_qid := qid' |}).

Definition get_tmknod : M Npfcall_u :=
  let* fid' := buf_get_int32 in
  let* name' := buf_get_str in
  let* mode' := buf_get_int32 in
  let* major' := buf_get_int32 in
  let* minor' := buf_get_int32 in
  let* gid' := buf_get_int32 in
  ret (U_tmknod {| tmknod_fid := fid';
    tmknod_name := name';
    tmknod_mode := mode';
    tmknod_major := major';
    tmknod_minor := minor';
    tmknod_gid := gid' |}).

Definition get_rmknod : M Npfcall_u :=
  let* qid' := buf_get_qid in
  ret (U_rmknod {| rmknod_qid := qid' |}).

Definition get_trename : M Npfcall_u :=
  let* fid' := buf_get_int32 in
  let* dfid' := buf_get_int32 in
  let* name' := buf_get_str in
  ret (U_trename {| trename_fid := fid';
    trename_dfid := dfid';
    trename_name := name' |}).

Definition get_treadlink : M Npfcall_u :=
  let* fid' := buf_get_int32 in
  ret (U_treadlink {| treadlink_fid := fid' |}).

Definition get_rreadlink : M Npfcall_u :=
  let* target' := buf_get_str in
  ret (U_rreadlink {| rreadlink_target := target' |}).

Definition get_tgetattr : M Npfcall_u :=
  let* fid' := buf_get_int32 in
  let* request_mask' := buf_get_int64 in
  ret (U_tgetattr {| tgetattr_fid := fid';
    tgetattr_request_mask := request_mask' |}).

Definition get_rgetattr : M Npfcall_u :=
  let* valid' := buf_get_int64 in
  let* qid' := buf_get_qid in
  let* mode' := buf_get_int32 in
  let* uid' := buf_get_int32 in
  let* gid' := buf_get_int32 in
  let* nlink' := buf_get_int64 in
  let* rdev' := buf_get_int64 in
  let* size' := buf_get_int64 in
  let* blksize' := buf_get_int64 in
  let* blocks' := buf_get_int64 in
  let* atime_sec' := buf_get_int64 in
  let* atime_nsec' := buf_get_int64 in
  let* mtime_sec' := buf_get_int64 in
  let* mtime_nsec' := buf_get_int64 in
  let* ctime_sec' := buf_get_int64 in
  let* ctime_nsec' := buf_get_int64 in
  let* btime_sec' := buf_get_int64 in
  let* btime_nsec' := buf_get_int64 in
  let* gen' := buf_get_int64 in
  let* data_version' := buf_get_int64 in
  ret (U_rgetattr {| rgetattr_valid := valid';
    rgetattr_qid := qid';
    rgetattr_mode := mode';
    rgetattr_uid := uid';
    rgetattr_gid := gid';
    rgetattr_nlink := nlink';
    rgetattr_rdev := rdev';
    rgetattr_size := size';
    rgetattr_blksize := blksize';
    rgetattr_blocks := blocks';
    rgetattr_atime_sec := atime_sec';
    rgetattr_atime_nsec := atime_nsec';
    rgetattr_mtime_sec := mtime_sec';
    rgetattr_mtime_nsec := mtime_nsec';
    rgetattr_ctime_sec := ctime_sec';
    rgetattr_ctime_nsec := ctime_nsec';
    rgetattr_btime_sec := btime_sec';
    rgetattr_btime_nsec := btime_nsec';
    rgetattr_gen := gen';
    rgetattr_data_version := data_version' |}).

Definition get_tsetattr : M Npfcall_u :=
  let* fid' := buf_get_int32 in
  let* valid' := buf_get_int32 in
  let* mode' := buf_get_int32 in
  let* uid' := buf_get_int32 in
  let* gid' := buf_get_int32 in
  let* size' := buf_get_int64 in
  let* atime_sec' := buf_get_int64 in
  let* atime_nsec' := buf_get_int64 in
  let* mtime_sec' := buf_get_int64 in
  let* mtime_nsec' := buf_get_int64 in
  ret (U_tsetattr {| tsetattr_fid := fid';
    tsetattr_valid := valid';
    tsetattr_mode := mode';
    tsetattr_uid := uid';
    tsetattr_gid := gid';
    tsetattr_size := size';
    tsetattr_atime_sec := atime_sec';
    tsetattr_atime_nsec := atime_nsec';
    tsetattr_mtime_sec := mtime_sec';
    tsetattr_mtime_nsec := mtime_nsec' |}).

Definition get_txattrwalk : M Npfcall_u :=
  let* fid' := buf_get_int32 in
  let* attrfid' := buf_get_int32 in
  let* name' := buf_get_str in
  ret (U_txattrwalk {| txattrwalk_fid := fid';
    txattrwalk_attrfid := attrfid';
    txattrwalk_name := name' |}).

Definition get_rxattrwalk : M Npfcall_u :=
  let* size' := buf_get_int64 in
  ret (U_rxattrwalk {| rxattrwalk_size := size' |}).

Definition get_txattrcreate : M Npfcall_u :=
  let* fid' := buf_get_int32 in
  let* name' := buf_get_str in
  let* size' := buf_get_int64 in
  let* flag' := buf_get_int32 in
  ret (U_txattrcreate {| txattrcreate_fid := fid';
    txattrcreate_name := name';
    txattrcreate_size := size';
    txattrcreate_flag := flag' |}).

Definition get_treaddir : M Npfcall_u :=
  let* fid' := buf_get_int32 in
  let* offset' := buf_get_int64 in
  let* count' := buf_get_int32 in
  ret (U_treaddir {| treaddir_fid := fid';
    treaddir_offset := offset';
    treaddir_count := count' |}).

Definition get_rreaddir : M Npfcall_u :=
  let* count' := buf_get_int32 in
  let* data' := buf_alloc count' in
  ret (U_rreaddir {| rreaddir_count := count';
    rreaddir_data := data' |}).

Definition get_tfsync : M Npfcall_u :=
  let* fid' := buf_get_int32 in
  let* datasync' := buf_get_int32 in
  ret (U_tfsync {| tfsync_fid := fid';
    tfsync_datasync := datasync' |}).

Definition get_tlock : M Npfcall_u :=
  let* fid' := buf_get_int32 in
  let* type' := buf_get_int8 in
  let* flags' := buf_get_int32 in
  let* start' := buf_get_int64 in
  let* length' := buf_get_int64 in
  let* proc_id' := buf_get_int32 in
  let* client_id' := buf_get_str in
  ret (U_tlock {| tlock_fid := fid';
    tlock_type := type';
    tlock_flags := flags';
    tlock_start := start';
    tlock_length := length';
    tlock_proc_id := proc_id';
    tlock_client_id := client_id' |}).

Definition get_rlock : M Npfcall_u :=
  let* status' := buf_get_int8 in
  ret (U_rlock {| rlock_status := status' |}).

Definition get_tgetlock : M Npfcall_u :=
  let* fid' := buf_get_int32 in
  let* type' := buf_get_int8 in
  let* start' := buf_get_int64 in
  let* length' := buf_get_int64 in
  let* proc_id' := buf_get_int32 in
  let* client_id' := buf_get_str in
  ret (U_tgetlock {| tgetlock_fid := fid';
    tgetlock_type := type';
    tgetlock_start := start';
    tgetlock_length := length';
    tgetlock_proc_id := proc_id';
    tgetlock_client_id := client_id' |}).

Definition get_rgetlock : M Npfcall_u :=
  let* type' := buf_get_int8 in
  let* start' := buf_get_int64 in
  let* length' := buf_get_int64 in
  let* proc_id' := buf_get_int32 in
  let* client_id' := buf_get_str in
  ret (U_rgetlock {| rgetlock_type := type';
    rgetlock_start := start';
    rgetlock_length := length';
    rgetlock_proc_id := proc_id';
    rgetlock_client_id := client_id' |}).

Definition get_tlink : M Npfcall_u :=
  let* dfid' := buf_get_int32 in
  let* fid' := buf_get_int32 in
  let* name' := buf_get_str in
  ret (U_tlink {| tlink_dfid := dfid';
    tlink_fid := fid';
    tlink_name := name' |}).

Definition get_tmkdir : M Npfcall_u :=
  let* fid' := buf_get_int32 in
  let* name' := buf_get_str in
  let* mode' := buf_get_int32 in
  let* gid' := buf_get_int32 in
  ret (U_tmkdir {| tmkdir_fid := fid';
    tmkdir_name := name';
    tmkdir_mode := mode';
    tmkdir_gid := gid' |}).

Definition get_rmkdir : M Npfcall_u :=
  let* qid' := buf_get_qid in
  ret (U_rmkdir {| rmkdir_qid := qid' |}).

Definition get_trenameat : M Npfcall_u :=
  let* olddirfid' := buf_get_int32 in
  let* oldname' := buf_get_str in
  let* newdirfid' := buf_get_int32 in
  let* newname' := buf_get_str in
  ret (U_trenameat {| trenameat_olddirfid := olddirfid';
    trenameat_oldname := oldname';
    trenameat_newdirfid := newdirfid';
    trenameat_newname := newname' |}).

Definition get_tunlinkat : M Npfcall_u :=
  let* dirfid' := buf_get_int32 in
  let* name' := buf_get_str in
  let* flags' := buf_get_int32 in
  ret (U_tunlinkat {| tunlinkat_dirfid := dirfid';
    tunlinkat_name := name';
    tunlinkat_flags := flags' |}).

Definition get_twalk : M (option Npfcall_u) :=
  let* fid' := buf_get_int32 in
  let* newfid' := buf_get_int32 in
  let* nwname' := buf_get_int16 in
  if MAXWELEM <? nwname' then ret None
  else
    let* wnames' := for_times (Z.to_nat nwname') buf_get_str in
    ret (Some (U_twalk {| twalk_fid := fid';
      twalk_newfid := newfid';
      twalk_nwname := nwname';
      twalk_wnames := wnames' |})).

Definition get_rwalk : M (option Npfcall_u) :=
  let* nwqid' := buf_get_int16 in
  if MAXWELEM <? nwqid' then ret None
  else
    let* wqids' := for_times (Z.to_nat nwqid') buf_get_qid in
    ret (Some (U_rwalk {| rwalk_nwqid := nwqid'; rwalk_wqids := wqids' |})).

Definition got (c : M Npfcall_u) : M (option Npfcall_u) :=
  let* u := c in ret (Some u).

(** The [switch (fc->type)]; [None] is [goto error]. *)
Definition get_body (type : Z) : M (option Npfcall_u) :=
  if type =? Rlerror then got get_rlerror
  else if type =? Tversion then got get_tversion
  else if type =? Rversion then got get_rversion
  else if type =? Tauth then got get_tauth
  else if type =? Rauth then got get_rauth
  else if type =? Tflush then got get_tflush
  else if type =? Rflush then got (ret U_none)
  else if type =? Tattach then got get_tattach
  else if type =? Rattach then got get_rattach
  else if type =? Twalk then get_twalk
  else if type =? Rwalk then get_rwalk
  else if type =? Tread then got get_tread
  else if type =? Rread then got get_rread
  else if type =? Twrite then got get_twrite
  else if type =? Rwrite then got get_rwrite
  else if type =? Tclunk then got get_tclunk
  else if type =? Rclunk then got (ret U_none)
  else if type =? Tremove then got get_tremove
  else if type =? Rremove then got (ret U_none)
  else if type =? Tstatfs then got get_tstatfs
  else if type =? Rstatfs then got get_rstatfs
  else if type =? Tlopen then got get_tlopen
  else if type =? Rlopen then got get_rlopen
  else if type =? Tlcreate then got get_tlcreate
  else if type =? Rlcreate then got get_rlcreate
  else if type =? Tsymlink then got get_tsymlink
  else if type =? Rsymlink then got get_rsymlink
  else if type =? Tmknod then got get_tmknod
  else if type =? Rmknod then got get_rmknod
  else if type =? Trename then got get_trename
  else if type =? Rrename then got (ret U_none)
  else if type =? Treadlink then got get_treadlink
  else if type =? Rreadlink then got get_rreadlink
  else if type =? Tgetattr then got get_tgetattr
  else if type =? Rgetattr then got get_rgetattr
  else if type =? Tsetattr then got get_tsetattr
  else if type =? Rsetattr then got (ret U_none)
  else if type =? Txattrwalk then got get_txattrwalk
  else if type =? Rxattrwalk then got get_rxattrwalk
  else if type =? Txattrcreate then got get_txattrcreate
  else if type =? Rxattrcreate then got (ret U_none)
  else if type =? Treaddir then got get_treaddir
  else if type =? Rreaddir then got get_rreaddir
  else if type =? Tfsync then got get_tfsync
  else if type =? Rfsync then got (ret U_none)
  else if type =? Tlock then got get_tlock
  else if type =? Rlock then got get_rlock
  else if type =? Tgetlock then got get_tgetlock
  else if type =? Rgetlock then got get_rgetlock
  else if type =? Tlink then got get_tlink
  else if type =? Rlink then got (ret U_none)
  else if type =? Tmkdir then got get_tmkdir
  else if type =? Rmkdir then got get_rmkdir
  else if type =? Trenameat then got get_trenameat
  else if type =? Rrenameat then got (ret U_none)
  else if type =? Tunlinkat then got get_tunlinkat
  else if type =? Runlinkat then got (ret U_none)
  else ret None.

(** Parse the packet of [fc]; the result is the return value and the updated
    [fc].  The union is only meaningful when the return value is not 0. *)
Definition np_deserialize (fc : Npfcall) : res (Z * Npfcall) :=
  let pkt := fc_pkt fc in
  let! (size, _) := buf_get_int32 (buf_init pkt 0 4) in
  let! (type, b) := buf_get_int8 (buf_init pkt 4 (u32 (size - 4))) in
  let! (tag, b) := buf_get_int16 b in
  let! (o, b) := get_body type b in
  let fc' u := {| fc_size := size; fc_type := type; fc_tag := tag;
                  fc_pkt := pkt; fc_u := u |} in
  match o with
  | None => Ret (0, fc' (fc_u fc))
  | Some u =>
      if buf_check_overflow b then Ret (0, fc' u) else Ret (int32 size, fc' u)
  end.
