(* ===== verification/Wire.v ===== *)
(** * The 9P2000.L wire format (protocol.md)

    The layouts of protocol.md, e.g. [size[4] Tlopen tag[2] fid[4] flags[4]],
    as data: an abstract request or reply [np_call] for every [np_create_*]
    function that is given the whole contents of a message (the others are in
    Built.v), its fields in wire order and their byte encoding.  This is the
    specification Codec.v proves np.c against. *)
From S2P Require Import Prelude Cbuf Protocol Create.

(** [x[1]], [x[2]], [x[4]], [x[8]], [x[s]], [x[13]] and [data[count]]. *)
Inductive field :=
| F1 (v : Z)
| F2 (v : Z)
| F4 (v : Z)
| F8 (v : Z)
| Fs (s : option cstr)
| F13 (q : Npqid)
| Fdata (bs : list Z).

Definition field_bytes (f : field) : list Z :=
  match f with
  | F1 v => le_bytes 1 v
  | F2 v => le_bytes 2 v
  | F4 v => le_bytes 4 v
  | F8 v => le_bytes 8 v
  | Fs s => le_bytes 2 (strlen_opt s) ++ default [] s
  | F13 q => le_bytes 1 (qtype q) ++ le_bytes 4 (qversion q) ++ le_bytes 8 (qpath q)
  | Fdata bs => bs
  end.

Inductive np_call :=
| C_tversion (msize : Z) (version : cstr)
| C_rversion (msize : Z) (version : option cstr)
| C_tauth (fid : Z) (uname : option cstr) (aname : option cstr) (n_uname : Z)
| C_rauth (aqid : Npqid)
| C_tflush (oldtag : Z)
| C_rflush
| C_tattach (fid : Z) (afid : Z) (uname : option cstr) (aname : option cstr)
    (n_uname : Z)
| C_rattach (qid : Npqid)
| C_tread (fid : Z) (offset : Z) (count : Z)
| C_rwrite (count : Z)
| C_tclunk (fid : Z)
| C_rclunk
| C_tremove (fid : Z)
| C_rremove
| C_rlerror (ecode : Z)
| C_tstatfs (fid : Z)
| C_rstatfs (type_ : Z) (bsize : Z) (blocks : Z) (bfree : Z) (bavail : Z)
    (files : Z) (ffree : Z) (fsid : Z) (namelen : Z)
| C_tlopen (fid : Z) (flags : Z)
| C_rlopen (qid : Npqid) (iounit : Z)
| C_tlcreate (fid : Z) (name : cstr) (flags : Z) (mode : Z) (gid : Z)
| C_rlcreate (qid : Npqid) (iounit : Z)
| C_tsymlink (fid : Z) (name : cstr) (symtgt : cstr) (gid : Z)
| C_rsymlink (qid : Npqid)
| C_tmknod (fid : Z) (name : cstr) (mode : Z) (major : Z) (minor : Z)
    (gid : Z)
| C_rmknod (qid : Npqid)
| C_trename (fid : Z) (dfid : Z) (name : cstr)
| C_rrename
| C_treadlink (fid : Z)
| C_rreadlink (target : cstr)
| C_tgetattr (fid : Z) (request_mask : Z)
| C_rgetattr (valid : Z) (qid : Npqid) (mode : Z) (uid : Z) (gid : Z)
    (nlink : Z) (rdev : Z) (size_ : Z) (blksize : Z) (blocks : Z)
    (atime_sec : Z) (atime_nsec : Z) (mtime_sec : Z) (mtime_nsec : Z)
    (ctime_sec : Z) (ctime_nsec : Z) (btime_sec : Z) (btime_nsec : Z)
    (gen : Z) (data_version : Z)
| C_tsetattr (fid : Z) (valid : Z) (mode : Z) (uid : Z) (gid : Z) (size_ : Z)
    (atime_sec : Z) (atime_nsec : Z) (mtime_sec : Z) (mtime_nsec : Z)
| C_rsetattr
| C_txattrwalk (fid : Z) (attrfid : Z) (name : option cstr)
| C_rxattrwalk (size_ : Z)
| C_txattrcreate (fid : Z) (name : option cstr) (size_ : Z) (flag : Z)
| C_rxattrcreate
| C_treaddir (fid : Z) (offset : Z) (count : Z)
| C_tfsync (fid : Z) (datasync : Z)
| C_rfsync
| C_tlock (fid : Z) (type_ : Z) (flags : Z) (start : Z) (length : Z)
    (proc_id : Z) (client_id : cstr)
| C_rlock (status : Z)
| C_tgetlock (fid : Z) (type_ : Z) (start : Z) (length : Z) (proc_id : Z)
    (client_id : cstr)
| C_rgetlock (type_ : Z) (start : Z) (length : Z) (proc_id : Z)
    (client_id : cstr)
| C_tlink (dfid : Z) (fid : Z) (name : cstr)
| C_rlink
| C_tmkdir (dfid : Z) (name : cstr) (mode : Z) (gid : Z)
| C_rmkdir (qid : Npqid)
| C_trenameat (olddirfid : Z) (oldname : cstr) (newdirfid : Z)
    (newname : cstr)
| C_rrenameat
| C_tunlinkat (dirfid : Z) (name : cstr) (flags : Z)
| C_runlinkat
| C_twalk (fid newfid : Z) (wnames : list cstr)
| C_rwalk (wqids : list Npqid)
| C_rread (data : list Z)
| C_twrite (fid offset : Z) (data : list Z).

Definition wire_type (c : np_call) : Z :=
  match c with
  | C_tversion _ _ => Tversion
  | C_rversion _ _ => Rversion
  | C_tauth _ _ _ _ => Tauth
  | C_rauth _ => Rauth
  | C_tflush _ => Tflush
  | C_rflush => Rflush
  | C_tattach _ _ _ _ _ => Tattach
  | C_rattach _ => Rattach
  | C_tread _ _ _ => Tread
  | C_rwrite _ => Rwrite
  | C_tclunk _ => Tclunk
  | C_rclunk => Rclunk
  | C_tremove _ => Tremove
  | C_rremove => Rremove
  | C_rlerror _ => Rlerror
  | C_tstatfs _ => Tstatfs
  | C_rstatfs _ _ _ _ _ _ _ _ _ => Rstatfs
  | C_tlopen _ _ => Tlopen
  | C_rlopen _ _ => Rlopen
  | C_tlcreate _ _ _ _ _ => Tlcreate
  | C_rlcreate _ _ => Rlcreate
  | C_tsymlink _ _ _ _ => Tsymlink
  | C_rsymlink _ => Rsymlink
  | C_tmknod _ _ _ _ _ _ => Tmknod
  | C_rmknod _ => Rmknod
  | C_trename _ _ _ => Trename
  | C_rrename => Rrename
  | C_treadlink _ => Treadlink
  | C_rreadlink _ => Rreadlink
  | C_tgetattr _ _ => Tgetattr
  | C_rgetattr _ _ _ _ _ _ _ _ _ _ _ _ _ _ _ _ _ _ _ _ => Rgetattr
  | C_tsetattr _ _ _ _ _ _ _ _ _ _ => Tsetattr
  | C_rsetattr => Rsetattr
  | C_txattrwalk _ _ _ => Txattrwalk
  | C_rxattrwalk _ => Rxattrwalk
  | C_txattrcreate _ _ _ _ => Txattrcreate
  | C_rxattrcreate => Rxattrcreate
  | C_treaddir _ _ _ => Treaddir
  | C_tfsync _ _ => Tfsync
  | C_rfsync => Rfsync
  | C_tlock _ _ _ _ _ _ _ => Tlock
  | C_rlock _ => Rlock
  | C_tgetlock _ _ _ _ _ _ => Tgetlock
  | C_rgetlock _ _ _ _ _ => Rgetlock
  | C_tlink _ _ _ => Tlink
  | C_rlink => Rlink
  | C_tmkdir _ _ _ _ => Tmkdir
  | C_rmkdir _ => Rmkdir
  | C_trenameat _ _ _ _ => Trenameat
  | C_rrenameat => Rrenameat
  | C_tunlinkat _ _ _ => Tunlinkat
  | C_runlinkat => Runlinkat
  | C_twalk _ _ _ => Twalk
  | C_rwalk _ => Rwalk
  | C_rread _ => Rread
  | C_twrite _ _ _ => Twrite
  end.

Definition wire_fields (c : np_call) : list field :=
  match c with
  | C_tversion msize version =>
      [F4 msize; Fs (Some version)]
  | C_rversion msize version =>
      [F4 msize; Fs version]
  | C_tauth fid uname aname n_uname =>
      [F4 fid; Fs uname; Fs aname; F4 n_uname]
  | C_rauth aqid =>
      [F13 aqid]
  | C_tflush oldtag =>
      [F2 oldtag]
  | C_rflush =>
      []
  | C_tattach fid afid uname aname n_uname =>
      [F4 fid; F4 afid; Fs uname; Fs aname; F4 n_uname]
  | C_rattach qid =>
      [F13 qid]
  | C_tread fid offset count =>
      [F4 fid; F8 offset; F4 count]
  | C_rwrite count =>
      [F4 count]
  | C_tclunk fid =>
      [F4 fid]
  | C_rclunk =>
      []
  | C_tremove fid =>
      [F4 fid]
  | C_rremove =>
      []
  | C_rlerror ecode =>
      [F4 ecode]
  | C_tstatfs fid =>
      [F4 fid]
  | C_rstatfs type_ bsize blocks bfree bavail files ffree fsid namelen =>
      [F4 type_; F4 bsize; F8 blocks; F8 bfree; F8 bavail; F8 files;
       F8 ffree; F8 fsid; F4 namelen]
  | C_tlopen fid flags =>
      [F4 fid; F4 flags]
  | C_rlopen qid iounit =>
      [F13 qid; F4 iounit]
  | C_tlcreate fid name flags mode gid =>
      [F4 fid; Fs (Some name); F4 flags; F4 mode; F4 gid]
  | C_rlcreate qid iounit =>
      [F13 qid; F4 iounit]
  | C_tsymlink fid name symtgt gid =>
      [F4 fid; Fs (Some name); Fs (Some symtgt); F4 gid]
  | C_rsymlink qid =>
      [F13 qid]
  | C_tmknod fid name mode major minor gid =>
      [F4 fid; Fs (Some name); F4 mode; F4 major; F4 minor; F4 gid]
  | C_rmknod qid =>
      [F13 qid]
  | C_trename fid dfid name =>
      [F4 fid; F4 dfid; Fs (Some name)]
  | C_rrename =>
      []
  | C_treadlink fid =>
      [F4 fid]
  | C_rreadlink target =>
      [Fs (Some target)]
  | C_tgetattr fid request_mask =>
      [F4 fid; F8 request_mask]
  | C_rgetattr valid qid mode uid gid nlink rdev size_ blksize blocks atime_sec
      atime_nsec mtime_sec mtime_nsec ctime_sec ctime_nsec btime_sec
      btime_nsec gen data_version =>
      [F8 valid; F13 qid; F4 mode; F4 uid; F4 gid; F8 nlink; F8 rdev;
       F8 size_; F8 blksize; F8 blocks; F8 atime_sec; F8 atime_nsec;
       F8 mtime_sec; F8 mtime_nsec; F8 ctime_sec; F8 ctime_nsec;
       F8 btime_sec; F8 btime_nsec; F8 gen; F8 data_version]
  | C_tsetattr fid valid mode uid gid size_ atime_sec atime_nsec mtime_sec
      mtime_nsec =>
      [F4 fid; F4 valid; F4 mode; F4 uid; F4 gid; F8 size_; F8 atime_sec;
       F8 atime_nsec; F8 mtime_sec; F8 mtime_nsec]
  | C_rsetattr =>
      []
  | C_txattrwalk fid attrfid name =>
      [F4 fid; F4 attrfid; Fs name]
  | C_rxattrwalk size_ =>
      [F8 size_]
  | C_txattrcreate fid name size_ flag =>
      [F4 fid; Fs name; F8 size_; F4 flag]
  | C_rxattrcreate =>
      []
  | C_treaddir fid offset count =>
      [F4 fid; F8 offset; F4 count]
  | C_tfsync fid datasync =>
      [F4 fid; F4 datasync]
  | C_rfsync =>
      []
  | C_tlock fid type_ flags start length proc_id client_id =>
      [F4 fid; F1 type_; F4 flags; F8 start; F8 length; F4 proc_id;
       Fs (Some client_id)]
  | C_rlock status =>
      [F1 status]
  | C_tgetlock fid type_ start length proc_id client_id =>
      [F4 fid; F1 type_; F8 start; F8 length; F4 proc_id;
       Fs (Some client_id)]
  | C_rgetlock type_ start length proc_id client_id =>
      [F1 type_; F8 start; F8 length; F4 proc_id; Fs (Some client_id)]
  | C_tlink dfid fid name =>
      [F4 dfid; F4 fid; Fs (Some name)]
  | C_rlink =>
      []
  | C_tmkdir dfid name mode gid =>
      [F4 dfid; Fs (Some name); F4 mode; F4 gid]
  | C_rmkdir qid =>
      [F13 qid]
  | C_trenameat olddirfid oldname newdirfid newname =>
      [F4 olddirfid; Fs (Some oldname); F4 newdirfid; Fs (Some newname)]
  | C_rrenameat =>
      []
  | C_tunlinkat dirfid name flags =>
      [F4 dirfid; Fs (Some name); F4 flags]
  | C_runlinkat =>
      []
  | C_twalk fid newfid wnames =>
      [F4 fid; F4 newfid; F2 (zlength wnames)] ++ map (fun w => Fs (Some w)) wnames
  | C_rwalk wqids => F2 (zlength wqids) :: map F13 wqids
  | C_rread data => [F4 (zlength data); Fdata data]
  | C_twrite fid offset data =>
      [F4 fid; F8 offset; F4 (zlength data); Fdata data]
  end.

Definition wire_body (c : np_call) : list Z := flat_map field_bytes (wire_fields c).

(** The whole message: [size[4] type[1] tag[2]] and the fields. *)
Definition wire_message (c : np_call) : list Z :=
  le_bytes 4 (7 + zlength (wire_body c)) ++ le_bytes 1 (wire_type c) ++
  le_bytes 2 NOTAG ++ wire_body c.

(** Strings fit their 16-bit length, walks have at most [MAXWELEM] elements and
    the whole message fits a signed 32-bit size. *)
Definition field_ok (f : field) : Prop :=
  match f with Fs s => strlen_opt s < 2 ^ 16 | _ => True end.

Definition walk_ok (c : np_call) : Prop :=
  match c with
  | C_twalk _ _ wnames => zlength wnames <= MAXWELEM
  | C_rwalk wqids => zlength wqids <= MAXWELEM
  | _ => True
  end.

Definition call_ok (c : np_call) : Prop :=
  Forall field_ok (wire_fields c) /\ walk_ok c /\
  7 + zlength (wire_body c) < 2 ^ 31.

(** The [np_create_*] function of each call. *)
Definition run_create `{CHeap} (c : np_call) : res (option Npfcall) :=
  match c with
  | C_tversion msize version =>
      np_create_tversion msize version
  | C_rversion msize version =>
      np_create_rversion msize version
  | C_tauth fid uname aname n_uname =>
      np_create_tauth fid uname aname n_uname
  | C_rauth aqid =>
      np_create_rauth aqid
  | C_tflush oldtag =>
      np_create_tflush oldtag
  | C_rflush =>
      np_create_rflush
  | C_tattach fid afid uname aname n_uname =>
      np_create_tattach fid afid uname aname n_uname
  | C_rattach qid =>
      np_create_rattach qid
  | C_tread fid offset count =>
      np_create_tread fid offset count
  | C_rwrite count =>
      np_create_rwrite count
  | C_tclunk fid =>
      np_create_tclunk fid
  | C_rclunk =>
      np_create_rclunk
  | C_tremove fid =>
      np_create_tremove fid
  | C_rremove =>
      np_create_rremove
  | C_rlerror ecode =>
      np_create_rlerror ecode
  | C_tstatfs fid =>
      np_create_tstatfs fid
  | C_rstatfs type_ bsize blocks bfree bavail files ffree fsid namelen =>
      np_create_rstatfs type_ bsize blocks bfree bavail files ffree fsid namelen
  | C_tlopen fid flags =>
      np_create_tlopen fid flags
  | C_rlopen qid iounit =>
      np_create_rlopen qid iounit
  | C_tlcreate fid name flags mode gid =>
      np_create_tlcreate fid name flags mode gid
  | C_rlcreate qid iounit =>
      np_create_rlcreate qid iounit
  | C_tsymlink fid name symtgt gid =>
      np_create_tsymlink fid name symtgt gid
  | C_rsymlink qid =>
      np_create_rsymlink qid
  | C_tmknod fid name mode major minor gid =>
      np_create_tmknod fid name mode major minor gid
  | C_rmknod qid =>
      np_create_rmknod qid
  | C_trename fid dfid name =>
      np_create_trename fid dfid name
  | C_rrename =>
      np_create_rrename
  | C_treadlink fid =>
      np_create_treadlink fid
  | C_rreadlink target =>
      np_create_rreadlink target
  | C_tgetattr fid request_mask =>
      np_create_tgetattr fid request_mask
  | C_rgetattr valid qid mode uid gid nlink rdev size_ blksize blocks atime_sec
      atime_nsec mtime_sec mtime_nsec ctime_sec ctime_nsec btime_sec
      btime_nsec gen data_version =>
      np_create_rgetattr valid qid mode uid gid nlink rdev size_ blksize blocks
        atime_sec atime_nsec mtime_sec mtime_nsec ctime_sec ctime_nsec
        btime_sec btime_nsec gen data_version
  | C_tsetattr fid valid mode uid gid size_ atime_sec atime_nsec mtime_sec
      mtime_nsec =>
      np_create_tsetattr fid valid mode uid gid size_ atime_sec atime_nsec mtime_sec
        mtime_nsec
  | C_rsetattr =>
      np_create_rsetattr
  | C_txattrwalk fid attrfid name =>
      np_create_txattrwalk fid attrfid name
  | C_rxattrwalk size_ =>
      np_create_rxattrwalk size_
  | C_txattrcreate fid name size_ flag =>
      np_create_txattrcreate fid name size_ flag
  | C_rxattrcreate =>
      np_create_rxattrcreate
  | C_treaddir fid offset count =>
      np_create_treaddir fid offset count
  | C_tfsync fid datasync =>
      np_create_tfsync fid datasync
  | C_rfsync =>
      np_create_rfsync
  | C_tlock fid type_ flags start length proc_id client_id =>
      np_create_tlock fid type_ flags start length proc_id client_id
  | C_rlock status =>
      np_create_rlock status
  | C_tgetlock fid type_ start length proc_id client_id =>
      np_create_tgetlock fid type_ start length proc_id client_id
  | C_rgetlock type_ start length proc_id client_id =>
      np_create_rgetlock type_ start length proc_id client_id
  | C_tlink dfid fid name =>
      np_create_tlink dfid fid name
  | C_rlink =>
      np_create_rlink
  | C_tmkdir dfid name mode gid =>
      np_create_tmkdir dfid name mode gid
  | C_rmkdir qid =>
      np_create_rmkdir qid
  | C_trenameat olddirfid oldname newdirfid newname =>
      np_create_trenameat olddirfid oldname newdirfid newname
  | C_rrenameat =>
      np_create_rrenameat
  | C_tunlinkat dirfid name flags =>
      np_create_tunlinkat dirfid name flags
  | C_runlinkat =>
      np_create_runlinkat
  | C_twalk fid newfid wnames => np_create_twalk fid newfid (zlength wnames) wnames
  | C_rwalk wqids => np_create_rwalk (zlength wqids) wqids
  | C_rread data => np_create_rread (zlength data) data
  | C_twrite fid offset data => np_create_twrite fid offset (zlength data) data
  end.

(** ** The fields a parsed message denotes

    The members of the union in wire order, with every string and data view
    replaced by the bytes it denotes in the packet [m]. *)

Definition str_field (m : list Z) (s : Npstr) : field :=
  match npstr_bytes m s with Ret bs => Fs (Some bs) | _ => Fs None end.

Definition data_field (m : list Z) (count : Z) (data : option Z) : field :=
  if count =? 0 then Fdata []
  else match data with
       | Some a => match load_bytes m a count with Ret bs => Fdata bs | _ => Fs None end
       | None => Fs None
       end.

Definition u_fields (m : list Z) (u : Npfcall_u) : list field :=
  match u with
  | U_none => []
  | U_tversion x =>
      [F4 (tversion_msize x); str_field m (tversion_version x)]
  | U_rversion x =>
      [F4 (rversion_msize x); str_field m (rversion_version x)]
  | U_tauth x =>
      [F4 (tauth_afid x); str_field m (tauth_uname x);
       str_field m (tauth_aname x); F4 (tauth_n_uname x)]
  | U_rauth x =>
      [F13 (rauth_qid x)]
  | U_tflush x =>
      [F2 (tflush_oldtag x)]
  | U_tattach x =>
      [F4 (tattach_fid x); F4 (tattach_afid x);
       str_field m (tattach_uname x); str_field m (tattach_aname x);
       F4 (tattach_n_uname x)]
  | U_rattach x =>
      [F13 (rattach_qid x)]
  | U_tread x =>
      [F4 (tread_fid x); F8 (tread_offset x); F4 (tread_count x)]
  | U_rwrite x =>
      [F4 (rwrite_count x)]
  | U_tclunk x =>
      [F4 (tclunk_fid x)]
  | U_tremove x =>
      [F4 (tremove_fid x)]
  | U_rlerror x =>
      [F4 (rlerror_ecode x)]
  | U_tstatfs x =>
      [F4 (tstatfs_fid x)]
  | U_rstatfs x =>
      [F4 (rstatfs_type x); F4 (rstatfs_bsize x); F8 (rstatfs_blocks x);
       F8 (rstatfs_bfree x); F8 (rstatfs_bavail x); F8 (rstatfs_files x);
       F8 (rstatfs_ffree x); F8 (rstatfs_fsid x); F4 (rstatfs_namelen x)]
  | U_tlopen x =>
      [F4 (tlopen_fid x); F4 (tlopen_flags x)]
  | U_rlopen x =>
      [F13 (rlopen_qid x); F4 (rlopen_iounit x)]
  | U_tlcreate x =>
      [F4 (tlcreate_fid x); str_field m (tlcreate_name x);
       F4 (tlcreate_flags x); F4 (tlcreate_mode x); F4 (tlcreate_gid x)]
  | U_rlcreate x =>
      [F13 (rlcreate_qid x); F4 (rlcreate_iounit x)]
  | U_tsymlink x =>
      [F4 (tsymlink_fid x); str_field m (tsymlink_name x);
       str_field m (tsymlink_symtgt x); F4 (tsymlink_gid x)]
  | U_rsymlink x =>
      [F13 (rsymlink_qid x)]
  | U_tmknod x =>
      [F4 (tmknod_fid x); str_field m (tmknod_name x); F4 (tmknod_mode x);
       F4 (tmknod_major x); F4 (tmknod_minor x); F4 (tmknod_gid x)]
  | U_rmknod x =>
      [F13 (rmknod_qid x)]
  | U_trename x =>
      [F4 (trename_fid x); F4 (trename_dfid x); str_field m (trename_name x)]
  | U_treadlink x =>
      [F4 (treadlink_fid x)]
  | U_rreadlink x =>
      [str_field m (rreadlink_target x)]
  | U_tgetattr x =>
      [F4 (tgetattr_fid x); F8 (tgetattr_request_mask x)]
  | U_rgetattr x =>
      [F8 (rgetattr_valid x); F13 (rgetattr_qid x); F4 (rgetattr_mode x);
       F4 (rgetattr_uid x); F4 (rgetattr_gid x); F8 (rgetattr_nlink x);
       F8 (rgetattr_rdev x); F8 (rgetattr_size x); F8 (rgetattr_blksize x);
       F8 (rgetattr_blocks x); F8 (rgetattr_atime_sec x);
       F8 (rgetattr_atime_nsec x); F8 (rgetattr_mtime_sec x);
       F8 (rgetattr_mtime_nsec x); F8 (rgetattr_ctime_sec x);
       F8 (rgetattr_ctime_nsec x); F8 (rgetattr_btime_sec x);
       F8 (rgetattr_btime_nsec x); F8 (rgetattr_gen x);
       F8 (rgetattr_data_version x)]
  | U_tsetattr x =>
      [F4 (tsetattr_fid x); F4 (tsetattr_valid x); F4 (tsetattr_mode x);
       F4 (tsetattr_uid x); F4 (tsetattr_gid x); F8 (tsetattr_size x);
       F8 (tsetattr_atime_sec x); F8 (tsetattr_atime_nsec x);
       F8 (tsetattr_mtime_sec x); F8 (tsetattr_mtime_nsec x)]
  | U_txattrwalk x =>
      [F4 (txattrwalk_fid x); F4 (txattrwalk_attrfid x);
       str_field m (txattrwalk_name x)]
  | U_rxattrwalk x =>
      [F8 (rxattrwalk_size x)]
  | U_txattrcreate x =>
      [F4 (txattrcreate_fid x); str_field m (txattrcreate_name x);
       F8 (txattrcreate_size x); F4 (txattrcreate_flag x)]
  | U_treaddir x =>
      [F4 (treaddir_fid x); F8 (treaddir_offset x); F4 (treaddir_count x)]
  | U_tfsync x =>
      [F4 (tfsync_fid x); F4 (tfsync_datasync x)]
  | U_tlock x =>
      [F4 (tlock_fid x); F1 (tlock_type x); F4 (tlock_flags x);
       F8 (tlock_start x); F8 (tlock_length x); F4 (tlock_proc_id x);
       str_field m (tlock_client_id x)]
  | U_rlock x =>
      [F1 (rlock_status x)]
  | U_tgetlock x =>
      [F4 (tgetlock_fid x); F1 (tgetlock_type x); F8 (tgetlock_start x);
       F8 (tgetlock_length x); F4 (tgetlock_proc_id x);
       str_field m (tgetlock_client_id x)]
  | U_rgetlock x =>
      [F1 (rgetlock_type x); F8 (rgetlock_start x); F8 (rgetlock_length x);
       F4 (rgetlock_proc_id x); str_field m (rgetlock_client_id x)]
  | U_tlink x =>
      [F4 (tlink_dfid x); F4 (tlink_fid x); str_field m (tlink_name x)]
  | U_tmkdir x =>
      [F4 (tmkdir_fid x); str_field m (tmkdir_name x); F4 (tmkdir_mode x);
       F4 (tmkdir_gid x)]
  | U_rmkdir x =>
      [F13 (rmkdir_qid x)]
  | U_trenameat x =>
      [F4 (trenameat_olddirfid x); str_field m (trenameat_oldname x);
       F4 (trenameat_newdirfid x); str_field m (trenameat_newname x)]
  | U_tunlinkat x =>
      [F4 (tunlinkat_dirfid x); str_field m (tunlinkat_name x);
       F4 (tunlinkat_flags x)]
  | U_twalk x =>
      [F4 (twalk_fid x); F4 (twalk_newfid x); F2 (twalk_nwname x)] ++
      map (str_field m) (twalk_wnames x)
  | U_rwalk x => F2 (rwalk_nwqid x) :: map F13 (rwalk_wqids x)
  | U_rread x => [F4 (rread_count x); data_field m (rread_count x) (rread_data x)]
  | U_rreaddir x =>
      [F4 (rreaddir_count x); data_field m (rreaddir_count x) (rreaddir_data x)]
  | U_twrite x =>
      [F4 (twrite_fid x); F8 (twrite_offset x); F4 (twrite_count x);
       data_field m (twrite_count x) (twrite_data x)]
  end.

(** Integers as the wire carries them; [NULL] strings are sent empty. *)
Definition norm_field (f : field) : field :=
  match f with
  | F1 v => F1 (u8 v)
  | F2 v => F2 (u16 v)
  | F4 v => F4 (u32 v)
  | F8 v => F8 (u64 v)
  | Fs s => Fs (Some (default [] s))
  | F13 q => F13 {| qtype := u8 (qtype q); qversion := u32 (qversion q);
                    qpath := u64 (qpath q) |}
  | Fdata bs => Fdata bs
  end.
