(* ===== verification/Builders.v ===== *)
(** * Message builders against the wire format

    Lemmas on [np_create]: the packet it returns for a body that emits [bs],
    and that [np_deserialize] reads it back; then the fact that each
    straight-line [np_create_*] function is such a builder for the layout of
    protocol.md. *)
From S2P Require Import Prelude Cbuf Protocol Create Deserialize Wire.

Lemma zlength_le_bytes n v : zlength (le_bytes n v) = Z.of_nat n.
Proof. unfold zlength. by rewrite le_bytes_length. Qed.

Lemma zlength_nil {A} : zlength (@nil A) = 0.
Proof. done. Qed.

Lemma zlength_default s : zlength (default [] s) = strlen_opt s.
Proof. by destruct s. Qed.

#[export] Hint Rewrite @zlength_app @zlength_nil zlength_le_bytes zlength_default : zlen.

Lemma bind_assoc {A B C} (c : M A) (f : A -> M B) (k : B -> M C) b :
  bind (bind c f) k b = bind c (fun a => bind (f a) k) b.
Proof. unfold bind. destruct (c b) as [[]| |]; done. Qed.

(** [get_body] at a given message type. *)
Ltac pick_case :=
  unfold get_body;
  repeat match goal with
  | |- context [u8 ?a =? ?b] =>
      let r := eval vm_compute in (u8 a =? b) in change (u8 a =? b) with r; cbv iota
  end.

Ltac wire_cbn :=
  unfold wire_body in *;
  cbn [wire_fields wire_type flat_map field_bytes] in *.

Ltac head t := match t with ?f _ => head f | _ => t end.

Ltac split_fields :=
  repeat match goal with
  | H : Forall _ (_ :: _) |- _ =>
      let Hx := fresh "Hx" in
      pose proof (Forall_inv H) as Hx; apply Forall_inv_tail in H; cbn [field_ok] in Hx
  end.

(** Lengths of the strings in the goal are not negative. *)
Ltac strlen_facts :=
  repeat match goal with
  | |- context [strlen_opt ?s] => lazymatch goal with
      | _ : 0 <= strlen_opt s |- _ => fail
      | _ => pose proof (strlen_opt_nonneg s) end
  | |- context [strlen ?s] => lazymatch goal with
      | _ : 0 <= strlen s |- _ => fail
      | _ => pose proof (strlen_nonneg s) end
  end.

Section Strings.
Context `{CHeap}.

(** ** One message builder *)

Lemma put_scalar_val n bs val dflt b a b1 : 0 <= n < 2 ^ 31 ->
  put_scalar n bs val dflt b = Ret (a, b1) -> p b1 <= ep b1 -> a = val.
Proof.
  intros Hn E Hok. unfold put_scalar in E. apply bind_Ret in E as (ok & b0 & E0 & E).
  rewrite check_size_run in E0 by lia.
  destruct (Z.leb_spec (p b + n) (ep b)); injection E0 as <- <-.
  - apply bind_Ret in E as (? & ? & _ & E). unfold ret in E. congruence.
  - unfold ret in E. simpl_res. destruct (Z.leb_spec (p b) (ep b)); cbn in *; lia.
Qed.

Lemma put_int32_val v b a b1 :
  buf_put_int32 v b = Ret (a, b1) -> p b1 <= ep b1 -> a = u32 v.
Proof. by apply (put_scalar_val 4). Qed.

Lemma put_int8_val v b a b1 :
  buf_put_int8 v b = Ret (a, b1) -> p b1 <= ep b1 -> a = u8 v.
Proof. by apply (put_scalar_val 1). Qed.

(** ** Strings and data blocks *)

Lemma put_str_run s b v b' : strlen_opt s < 2 ^ 16 -> wf_cbuf b ->
  p b + 2 + strlen_opt s <= ep b -> buf_put_str s b = Ret (v, b') ->
  v = {| len := strlen_opt s; str := Some (p b + 2) |}.
Proof.
  intros Hs Hb Hfit E. pose proof (strlen_opt_nonneg s).
  rewrite put_str_eq in E by done. unfold checked in E.
  apply bind_Ret in E as (ok & b0 & E0 & E). rewrite check_size_run in E0 by lia.
  rewrite (proj2 (Z.leb_le _ _)) in E0 by lia. injection E0 as <- <-.
  apply bind_Ret in E as (n & b1 & E1 & E).
  destruct (put_int16_denotes (strlen_opt s) b Hb) as (? & ? & F1 & W1 & Q1 & P1 & _).
  { rewrite zlength_le_bytes. lia. }
  rewrite E1 in F1. simpl_res. rewrite zlength_le_bytes in P1.
  apply bind_Ret in E as (q & b2 & E2 & E). unfold ret in E. simpl_res. f_equal.
  destruct s as [s|]; cbn [strlen_opt] in *.
  - apply alloc_fill_run in E2 as (_ & -> & _); [f_equal; lia|unfold strlen in *; lia].
  - rewrite alloc_run, (proj2 (Z.leb_le _ _)) in E2 by lia. injection E2 as <- _. f_equal. lia.
Qed.

Lemma put_str_denotes s : strlen_opt s < 2 ^ 16 ->
  Denotes (buf_put_str s) (le_bytes 2 (strlen_opt s) ++ default [] s)
    (fun m v => npstr_bytes m v = Ret (default [] s)).
Proof.
  intros Hs. apply emits_denotes; [by apply put_str_emits|].
  intros b v b' Hb Hfit E _ _ m Hm. autorewrite with zlen in Hfit.
  rewrite (put_str_run s b v b' Hs Hb) by (done || lia). unfold npstr_bytes. cbn [str len].
  rewrite <- zlength_default. destruct Hb as [Hb _]. apply load_bytes_known; [lia| |].
  - intros i Hi. replace (Z.to_nat (p b + 2) + i)%nat with (Z.to_nat (p b) + (2 + i))%nat by lia.
    rewrite Hm by (rewrite length_app, le_bytes_length; lia).
    rewrite lookup_app_r by (rewrite le_bytes_length; lia).
    f_equal. rewrite le_bytes_length. lia.
  - right. specialize (Hm 1%nat ltac:(rewrite length_app, le_bytes_length; lia)).
    rewrite lookup_app_l in Hm by (rewrite le_bytes_length; lia).
    cbn [le_bytes lookup list_lookup] in Hm. apply lookup_lt_Some in Hm. unfold zlength. lia.
Qed.

Lemma alloc_fill_opt_denotes data : zlength data < 2 ^ 31 ->
  Denotes (alloc_fill_opt data) data (fun m v =>
    exists a, v = Some a /\ (zlength data <> 0 -> load_bytes m a (zlength data) = Ret data)).
Proof.
  intros Hd. pose proof (zlength_nonneg data).
  apply emits_denotes; [by apply alloc_fill_opt_emits|].
  intros b v b' [Hb _] Hfit E _ _ m Hm.
  rewrite alloc_fill_opt_run, (proj2 (Z.leb_le _ _)) in E by lia.
  apply alloc_fill_run in E as (_ & -> & _); [|lia]. exists (p b). split; [done|].
  intros Hz. apply load_bytes_known; [lia|done|]. left. unfold zlength in Hz. lia.
Qed.

End Strings.

Ltac solve_denotes :=
  lazymatch goal with
  | |- Denotes (bind _ _) _ _ =>
      eapply denotes_bind; [solve_denotes | intros; cbv beta; solve_denotes]
  | |- Denotes (ret _) _ _ => apply denotes_ret
  | |- Denotes (buf_put_int8 _) _ _ => apply put_int8_denotes
  | |- Denotes (buf_put_int16 _) _ _ => apply put_int16_denotes
  | |- Denotes (buf_put_int32 _) _ _ => apply put_int32_denotes
  | |- Denotes (buf_put_int64 _) _ _ => apply put_int64_denotes
  | |- Denotes (buf_put_qid _) _ _ => apply put_qid_denotes
  | |- Denotes (buf_put_str _) _ _ => apply put_str_denotes; assumption
  | |- Denotes (alloc_fill_opt _) _ _ => apply alloc_fill_opt_denotes; lia
  end.

(** The fields of the value an encoder returned. *)
Ltac read_fields :=
  let m := fresh "m" in let v := fresh "v" in let Hv := fresh "Hv" in
  intros m v Hv; cbv beta in Hv;
  repeat match goal with
  | H : ex _ |- _ => destruct H
  | H : _ /\ _ |- _ => destruct H
  end; subst;
  cbn [u_fields wire_fields map norm_field app]; unfold str_field;
  repeat match goal with H : npstr_bytes ?m ?s = _ |- context [npstr_bytes ?m ?t] =>
    unify t s; change (npstr_bytes m t) with (npstr_bytes m s); rewrite H; clear H end.

Section Builder.
Context `{CHeap}.

Definition header_bytes (size id : Z) : list Z :=
  le_bytes 4 size ++ le_bytes 1 id ++ le_bytes 2 NOTAG ++ [].

Lemma put_header_emits size id : Emits (put_header size id) (header_bytes size id).
Proof. unfold put_header. solve_emits. Qed.

Lemma put_header_val size id b h b' : wf_cbuf b -> p b + 7 <= ep b ->
  put_header size id b = Ret (h, b') ->
  h = {| hd_size := u32 size; hd_type := u8 id; hd_tag := NOTAG |}.
Proof.
  intros Hb Hfit E. unfold put_header in E.
  apply bind_Ret in E as (v1 & b1 & E1 & E). apply bind_Ret in E as (v2 & b2 & E2 & E).
  apply bind_Ret in E as (v3 & b3 & E3 & E). unfold ret in E. simpl_res.
  destruct (writes_run _ _ (put_int32_writes size) b Hb) as (? & ? & F1 & (_&?&_) & W1 & ? & _).
  rewrite E1 in F1. simpl_res.
  destruct (writes_run _ _ (put_int8_writes id) _ W1) as (? & ? & F2 & (_&?&_) & W2 & ? & _).
  rewrite E2 in F2. simpl_res.
  destruct (writes_run _ _ (put_int16_writes NOTAG) _ W2) as (? & ? & F3 & (_&?&_) & W3 & ? & _).
  rewrite E3 in F3. simpl_res.
  rewrite (put_int32_val _ _ _ _ E1), (put_int8_val _ _ _ _ E2),
    (put_int16_val _ _ _ _ E3) by lia. done.
Qed.

(** The block [malloc] returned, less the [Npfcall] structure. *)
Lemma pkt_block size blk : 0 <= size ->
  malloc (sizeof_Npfcall + size) = Some blk ->
  zlength (drop (Z.to_nat sizeof_Npfcall) blk) = size.
Proof.
  intros Hs E. apply malloc_length in E; [|unfold sizeof_Npfcall; lia].
  unfold zlength in *. rewrite length_drop. unfold sizeof_Npfcall in *. lia.
Qed.

(** Storing as many bytes as the block has leaves nothing of it. *)
Lemma store_bytes_all m bs m' :
  store_bytes m 0 bs = Ret m' -> zlength bs = zlength m -> m' = bs.
Proof.
  intros E Hl. apply store_bytes_Ret in E as (_ & _ & ->). unfold zlength in Hl.
  rewrite drop_ge by (simpl; lia). cbn. apply app_nil_r.
Qed.

Lemma np_create_denotes size id body bs R :
  Emits body bs -> Denotes body bs R -> size = zlength bs -> 7 + size < 2 ^ 31 ->
  malloc (sizeof_Npfcall + (7 + size)) <> None ->
  exists u, np_create size id body =
    Ret (Some {| fc_size := 7 + size; fc_type := u8 id; fc_tag := NOTAG;
                 fc_pkt := header_bytes (7 + size) id ++ bs; fc_u := u |}) /\
    forall m, (forall i, (i < length bs)%nat -> m !! (7 + i)%nat = bs !! i) -> R m u.
Proof.
  intros Hem Hden Hsz Hlt Hm. pose proof (zlength_nonneg bs).
  unfold np_create, np_create_common.
  change (4 + 1 + 2) with 7.
  rewrite (u32_small size), (u32_small (size + 7)), (Z.add_comm size) by lia.
  destruct (malloc (sizeof_Npfcall + (7 + size))) as [blk|] eqn:E; [|done].
  apply pkt_block in E; [|lia]. set (pkt := drop _ blk) in *. cbv zeta.
  set (b0 := buf_init pkt 0 (7 + size)).
  assert (He : ep b0 = 7 + size) by (cbn; rewrite int32_small; lia).
  assert (Hw : wf_cbuf b0) by (split; [cbn; lia|rewrite He; cbn; lia]).
  assert (Hh : zlength (header_bytes (7 + size) id) = 7) by done.
  destruct (put_header_emits (7 + size) id b0 Hw) as (h & b1 & E1 & S1 & P1 & _ & Q1).
  { rewrite Hh, He. cbn. lia. }
  rewrite Hh in P1. cbn in P1.
  assert (Hw1 : wf_cbuf b1).
  { pose proof (store_bytes_length _ _ _ _ S1) as Hl. split; [lia|].
    unfold zlength. rewrite Hl, Q1, He. cbn. unfold zlength in E. lia. }
  destruct (Hem b1 Hw1) as (u & b2 & E2 & S2 & P2 & _ & Q2); [lia|].
  destruct (Hden b1 Hw1) as (? & ? & F2 & _ & _ & _ & HR); [lia|].
  rewrite E2 in F2. injection F2 as <- <-.
  rewrite E1. cbn [res_bind]. rewrite E2. cbn [res_bind].
  rewrite (put_header_val _ _ _ _ _ Hw ltac:(cbn; cbn in He; lia) E1).
  unfold np_post_check, buf_check_overflow, mk_fcall. cbn [hd_size hd_type hd_tag].
  rewrite (proj2 (Z.ltb_ge _ _)) by lia. exists u. split.
  - do 3 f_equal; [apply u32_small; lia|].
    assert (S3 : store_bytes (mem b1) (0 + zlength (header_bytes (7 + size) id)) bs
      = Ret (mem b2)) by (rewrite Hh; rewrite P1 in S2; exact S2).
    eapply store_bytes_all; [exact (store_bytes_app _ _ _ _ _ _ S1 S3)|].
    rewrite zlength_app, Hh. cbn. lia.
  - intros m Hbs. apply HR. intros i Hi. rewrite P1. by apply Hbs.
Qed.

(** What is known of a packet that [np_create] let through. *)
Lemma np_create_inv size id body fc :
  np_create size id body = Ret (Some fc) ->
  exists b0 b1 b2 h,
    p b0 = 0 /\ wf_cbuf b0 /\
    buf_put_int32 (u32 (u32 size + 7)) b0 = Ret (hd_size h, b1) /\
    (let* t := buf_put_int8 id in let* g := buf_put_int16 NOTAG in
     let* u := got body in ret (t, g, u)) b1
    = Ret (hd_type h, hd_tag h, Some (fc_u fc), b2) /\
    ep b0 = int32 (u32 (u32 size + 7)) /\
    p b2 <= ep b2 /\ fc = mk_fcall h (fc_u fc) b2.
Proof.
  intros E. unfold np_create, np_create_common in E. change (4 + 1 + 2) with 7 in E.
  pose proof (u32_range (u32 size + 7)). set (sz := u32 (u32 size + 7)) in *.
  destruct (malloc (sizeof_Npfcall + sz)) as [blk|] eqn:Em; [|discriminate E].
  apply pkt_block in Em; [|lia]. cbv zeta in E. set (pkt := drop _ blk) in *.
  inv_bind E. inv_bind E0. injection E0 as <-. destruct a0 as [h b3].
  inv_bind E. destruct a as [u b2]. injection E as E.
  unfold np_post_check, buf_check_overflow in E.
  destruct (Z.ltb_spec (ep b2) (p b2)); [discriminate E|]. injection E as <-.
  unfold put_header in E1. apply bind_Ret in E1 as (v & b1 & F1 & E1).
  apply bind_Ret in E1 as (t & b4 & F2 & E1). apply bind_Ret in E1 as (g & b5 & F3 & E1).
  unfold ret in E1. injection E1 as <- <-.
  exists (buf_init pkt 0 sz), b1, b2, {| hd_size := v; hd_type := t; hd_tag := g |}. cbn. split; [done|].
  split; [split; cbn; [lia|]; unfold int32; pose proof (Z.mod_le (sz + 2 ^ 31) (2 ^ 32)); lia|].
  split; [exact F1|]. split; [|done].
  unfold bind at 1. rewrite F2. cbn. unfold bind at 1. rewrite F3. cbn.
  unfold got, bind. rewrite E0. done.
Qed.

(** The part of [np_deserialize] after the size field. *)
Definition get_rest : M (Z * Z * option Npfcall_u) :=
  let* t := buf_get_int8 in
  let* g := buf_get_int16 in
  let* o := get_body t in ret (t, g, o).

Lemma np_deserialize_eq fc :
  np_deserialize fc =
  let! (size, _) := buf_get_int32 (buf_init (fc_pkt fc) 0 4) in
  let! (r, b) := get_rest (buf_init (fc_pkt fc) 4 (u32 (size - 4))) in
  let fc' u := {| fc_size := size; fc_type := r.1.1; fc_tag := r.1.2;
                  fc_pkt := fc_pkt fc; fc_u := u |} in
  match r.2 with
  | None => Ret (0, fc' (fc_u fc))
  | Some u =>
      if buf_check_overflow b then Ret (0, fc' u) else Ret (int32 size, fc' u)
  end.
Proof.
  unfold np_deserialize. destruct (buf_get_int32 _) as [[size ?]| |]; cbn; try done.
  unfold get_rest, bind. destruct (buf_get_int8 _) as [[t b1]| |]; cbn; try done.
  destruct (buf_get_int16 _) as [[g b2]| |]; cbn; try done.
  destruct (get_body _ _) as [[o b3]| |]; cbn; done.
Qed.

Lemma rest_codec id body : Codec (got body) (get_body (u8 id)) ->
  Codec (let* t := buf_put_int8 id in let* g := buf_put_int16 NOTAG in
         let* u := got body in ret (t, g, u)) get_rest.
Proof.
  intros Hc. apply codec_bind_val; [apply put_int8_codec| |].
  - intros a b b1 E Hok. rewrite (put_int8_val _ _ _ _ E Hok).
    apply codec_bind; [apply put_int16_codec|intros].
    apply codec_bind; [done|intros; apply codec_ret].
  - intros a. eexists. apply codec_bind; [apply put_int16_codec|intros].
    apply codec_bind; [exact Hc|intros; apply codec_ret].
Qed.

(** The same message in another buffer. *)
Definition set_pkt (m : list Z) (fc : Npfcall) : Npfcall :=
  {| fc_size := fc_size fc; fc_type := fc_type fc; fc_tag := fc_tag fc;
     fc_pkt := m; fc_u := fc_u fc |}.

(** Reading back what one builder wrote, from a buffer that starts with it. *)
Lemma np_create_deserialize size id body fc fc0 junk :
  Codec (got body) (get_body (u8 id)) ->
  np_create size id body = Ret (Some fc) -> fc_pkt fc0 = fc_pkt fc ++ junk ->
  np_deserialize fc0 = Ret (fc_size fc, set_pkt (fc_pkt fc0) fc).
Proof.
  intros Hc E Hpkt. apply np_create_inv in E as
    (b0 & b1 & b2 & h & P0 & W0 & E1 & E2 & He0 & Hok & Hfc).
  rewrite Hfc in Hpkt. cbn in Hpkt. pose proof (u32_range (u32 size + 7)).
  set (sz := u32 (u32 size + 7)) in *.
  destruct (writes_run _ _ (put_int32_writes sz) b0 W0)
    as (? & ? & F1 & (_ & He1 & Hl1) & W1 & Hin & Hout). rewrite E1 in F1. simpl_res.
  pose proof (rest_codec _ _ Hc) as Hr.
  assert (Hok1 : p x0 <= ep x0).
  { destruct (Z.le_gt_cases (p x0) (ep x0)); [done|].
    apply (codec_sticky _ _ Hr) in E2; [lia|by destruct W1|lia]. }
  assert (P1 : p x0 = 4) by lia.
  destruct (codec_read_back _ _ Hr x0 _ _ ltac:(lia) E2 Hok) as [(_&He2&Hl2) [? ?] O2 G2].
  destruct (codec_read_back _ _ (put_int32_codec sz) b0 _ _ ltac:(lia) E1 Hok1) as [_ _ _ G1].
  rewrite (put_int32_val _ _ _ _ E1 Hok1), u32_small in * by lia.
  assert (Hsz : int32 sz = sz).
  { destruct (Z.lt_ge_cases sz (2 ^ 31)); [apply int32_small; lia|].
    rewrite int32_wrap in He0 by lia. lia. }
  assert (Hle : sz <= zlength (mem b2)).
  { destruct W0. unfold zlength in *. lia. }
  pose proof (int32_range sz). rewrite np_deserialize_eq, Hpkt.
  set (m := mem b2 ++ junk).
  assert (Hm : zlength (mem b2) <= zlength m).
  { subst m. rewrite zlength_app. pose proof (zlength_nonneg junk). lia. }
  assert (Hag : forall i : nat, Z.of_nat i < zlength (mem b2) -> m !! i = mem b2 !! i).
  { intros i Hi. apply lookup_app_l. unfold zlength in Hi. lia. }
  assert (V0 : buf_init m 0 4 = view m 0 4 b0)
    by (unfold view, buf_init; rewrite P0; done).
  rewrite V0. clear V0.
  rewrite G1; [|lia|lia|intros i Hi; rewrite Hag by lia; apply O2; lia]. cbn [res_bind].
  replace (buf_init m 4 (u32 (sz - 4))) with (view m 4 sz x0).
  2:{ unfold view, buf_init. rewrite P1, u32_small, int32_small by lia. f_equal. lia. }
  rewrite G2; [|lia|lia|intros i Hi; apply Hag; lia]. cbn [res_bind]. unfold buf_check_overflow, view. cbn.
  rewrite (proj2 (Z.ltb_ge _ _)), Hsz by lia. rewrite Hfc. unfold mk_fcall, set_pkt. cbn.
  rewrite (put_int32_val _ _ _ _ E1 Hok1), u32_small by lia. done.
Qed.

(** ** Every call is an instance of the builder *)

Lemma emits_eq {A} (c : M A) bs bs' : Emits c bs -> bs = bs' -> Emits c bs'.
Proof. by intros ? <-. Qed.

Lemma np_create_cong size size' id body :
  size = size' -> np_create size id body = np_create size' id body.
Proof. by intros ->. Qed.

Definition built_by (c : np_call) (body : M Npfcall_u) : Prop :=
  run_create c = np_create (zlength (wire_body c)) (wire_type c) body /\
  Emits body (wire_body c) /\ Codec (got body) (get_body (u8 (wire_type c))) /\
  Denotes body (wire_body c) (fun m u => u_fields m u = map norm_field (wire_fields c)).

(** The calls whose builder is straight-line code. *)
Ltac regular_call :=
  split_fields; eexists; split; [|split; [|split]];
  [ apply np_create_cong; wire_cbn; autorewrite with zlen in *;
    cbn [strlen_opt] in *; unfold QIDSIZE; strlen_facts;
    rewrite ?int32_small by lia; lia
  | eapply emits_eq; [solve_emits | wire_cbn; rewrite ?app_nil_r, <- ?app_assoc; done]
  | cbn [wire_type]; pick_case; unfold got; solve_codec
  | eapply denotes_weaken;
    [ solve_denotes
    | wire_cbn; rewrite ?app_nil_r, <- ?app_assoc; done
    | read_fields; done ] ].


Lemma run_create_regular c :
  match c with C_twalk _ _ _ | C_rwalk _ | C_rread _ | C_twrite _ _ _ => False | _ => True end ->
  call_ok c -> exists body, built_by c body.
Proof.
  intros Hr (Hf & _ & Hsz). unfold built_by.
  destruct c; cbn [wire_fields] in Hf; try contradiction; clear Hr; cbn [run_create].
  all: match goal with |- exists _, ?t = _ /\ _ => let h := head t in unfold h end.
  all: regular_call.
Qed.
End Builder.
