(* ===== verification/Codec.v ===== *)
(** * Builders of walks and of data blocks (libnpfs/np.c)

    The builders that are not straight-line code (walks, reads and writes) are
    instances of the builder of Builders.v too, so that [run_create_built]
    covers every call. *)
From S2P Require Import Prelude Cbuf Protocol Create Deserialize Wire Builders.

Section Calls.
Context `{CHeap}.

Lemma flat_map_map {A B C} (f : A -> B) (g : B -> list C) l :
  flat_map g (map f l) = flat_map (fun x => g (f x)) l.
Proof. induction l; cbn; congruence. Qed.

Lemma twalk_size_run ws size : 0 <= size ->
  size + zlength (flat_map (fun w => field_bytes (Fs (Some w))) ws) < 2 ^ 31 ->
  twalk_size (length ws) ws size =
  Ret (size + zlength (flat_map (fun w => field_bytes (Fs (Some w))) ws)).
Proof.
  revert size. induction ws as [|w ws IH]; intros size Hs Hlt.
  - cbn. rewrite zlength_nil, Z.add_0_r. done.
  - cbn [flat_map twalk_size length] in *. rewrite zlength_app in *.
    set (fm := zlength (flat_map _ ws)) in *. pose proof (strlen_nonneg w).
    assert (Hw : zlength (field_bytes (Fs (Some w))) = 2 + strlen w).
    { cbn [field_bytes]. autorewrite with zlen. done. }
    assert (0 <= fm) by apply zlength_nonneg.
    rewrite int32_small, IH by (fold fm; lia). f_equal. fold fm. lia.
Qed.

Lemma Forall_map_fs ws : Forall field_ok (map (fun w => Fs (Some w)) ws) ->
  forall w, w ∈ ws -> strlen_opt (Some w) < 2 ^ 16.
Proof.
  intros Hf w Hw. rewrite Forall_forall in Hf.
  apply (Hf (Fs (Some w))), in_map_iff. exists w.
  split; [done|]. by apply list_elem_of_In.
Qed.

Lemma str_fields_eq m ws vs : Forall2 (fun w v => npstr_bytes m v = Ret w) ws vs ->
  map (fun w => norm_field (Fs (Some w))) ws = map (str_field m) vs.
Proof.
  induction 1 as [|w v ws vs Hv _ IH]; cbn [map]; [done|].
  unfold str_field at 1. by rewrite Hv, IH.
Qed.

Lemma run_create_twalk fid newfid ws : call_ok (C_twalk fid newfid ws) ->
  exists body, built_by (C_twalk fid newfid ws) body.
Proof.
  intros (Hf & Hw & Hsz). cbn [wire_fields walk_ok] in *. unfold MAXWELEM in Hw.
  apply Forall_app in Hf as [_ Hf]. pose proof (zlength_nonneg ws).
  assert (Hb : zlength (wire_body (C_twalk fid newfid ws)) =
    10 + zlength (flat_map (fun w => field_bytes (Fs (Some w))) ws)).
  { unfold wire_body. cbn [wire_fields app flat_map]. rewrite flat_map_map.
    cbn [field_bytes]. autorewrite with zlen. lia. }
  unfold built_by. rewrite Hb in *. unfold run_create, np_create_twalk.
  rewrite u16_small by lia. unfold MAXWELEM.
  rewrite (proj2 (Z.leb_le _ _)) by lia. cbn [res_bind np_assert].
  assert (Hn : Z.to_nat (zlength ws) = length ws) by (unfold zlength; lia).
  rewrite Hn, twalk_size_run by lia. cbn [res_bind]. eexists. split; [reflexivity|].
  pose proof (Forall_map_fs _ Hf) as Hs. split; [|split].
  - eapply emits_eq.
    + eapply emits_bind; [eauto with codec|intros]. eapply emits_bind; [eauto with codec|intros].
      eapply emits_bind; [eauto with codec|intros]. apply emits_bind_ret.
      apply (for_each_emits _ _ (fun w => field_bytes (Fs (Some w)))); [lia|].
      intros w Hin. apply put_str_emits. auto.
    + unfold wire_body. cbn [wire_fields app flat_map]. rewrite flat_map_map.
      rewrite firstn_all. done.
  - cbn [wire_type]. pick_case. unfold got, get_twalk.
    eapply codec_ext; [intros; apply bind_assoc|]. apply codec_bind; [eauto with codec|intros].
    eapply codec_ext; [intros; apply bind_assoc|]. apply codec_bind; [eauto with codec|intros].
    eapply codec_ext; [intros; apply bind_assoc|].
    assert (Hws : Codec (for_each (length ws) (fun w => buf_put_str (Some w)) ws)
      (for_times (length ws) buf_get_str)).
    { apply for_each_codec; [lia|]. intros w Hin. apply put_str_codec. auto. }
    apply codec_bind_val; [apply put_int16_codec| |].
    + intros n b b1 E Hok. rewrite (put_int16_val _ _ _ _ E Hok), u16_small by lia.
      unfold MAXWELEM. rewrite (proj2 (Z.ltb_ge _ _)), Hn by lia.
      eapply codec_ext; [intros; apply bind_assoc|]. apply codec_bind; [done|].
      intros. apply codec_ret.
    + intros n. eexists. eapply codec_ext; [intros; apply bind_assoc|].
      apply codec_bind; [exact Hws|]. intros. apply codec_ret.
  - eapply denotes_weaken.
    + eapply denotes_bind; [apply put_int32_denotes|intros].
      eapply denotes_bind; [apply put_int32_denotes|intros].
      eapply denotes_bind; [apply put_int16_denotes|intros].
      eapply denotes_bind; [|intros; apply denotes_ret].
      apply (for_each_denotes _ _ (fun w => field_bytes (Fs (Some w)))
        (fun w m v => npstr_bytes m v = Ret w)); [lia|].
      intros w Hin. apply (put_str_denotes (Some w)). auto.
    + unfold wire_body. cbn [wire_fields app flat_map]. rewrite flat_map_map, app_nil_r.
      rewrite firstn_all. done.
    + intros m v (? & -> & ? & -> & ? & -> & vs & Hvs & ->). rewrite firstn_all in Hvs.
      cbn [u_fields wire_fields map norm_field app twalk_fid twalk_newfid twalk_nwname twalk_wnames].
      do 3 f_equal. rewrite map_map. symmetry. by apply str_fields_eq.
Qed.

Lemma zlength_qids qs :
  zlength (flat_map (fun q => field_bytes (F13 q)) qs) = 13 * zlength qs.
Proof.
  induction qs as [|q qs IH]; [done|]. cbn [flat_map]. rewrite zlength_app, IH.
  unfold zlength. cbn [length]. cbn [field_bytes]. rewrite !length_app, !le_bytes_length. lia.
Qed.

Lemma qid_fields_eq qs vs : Forall2 (fun q v => F13 v = norm_field (F13 q)) qs vs ->
  map (fun q => norm_field (F13 q)) qs = map F13 vs.
Proof. induction 1 as [|q v qs vs Hv _ IH]; [done|]. cbn [map]. by rewrite Hv, IH. Qed.

Lemma run_create_rwalk qs : call_ok (C_rwalk qs) ->
  exists body, built_by (C_rwalk qs) body.
Proof.
  intros (_ & Hw & Hsz). cbn [walk_ok] in Hw. unfold MAXWELEM in Hw.
  pose proof (zlength_nonneg qs).
  assert (Hb : zlength (wire_body (C_rwalk qs)) = 2 + 13 * zlength qs).
  { unfold wire_body. cbn [wire_fields flat_map]. rewrite flat_map_map, zlength_app.
    rewrite zlength_qids. done. }
  unfold built_by. rewrite Hb in *. unfold run_create, np_create_rwalk.
  rewrite (int32_small (zlength qs)) by lia. unfold MAXWELEM.
  rewrite (proj2 (Z.leb_le _ _)) by lia. cbn [res_bind np_assert].
  assert (Hn : Z.to_nat (zlength qs) = length qs) by (unfold zlength; lia).
  rewrite Hn. eexists. split.
  { apply np_create_cong. unfold QIDSIZE. rewrite int32_small; lia. }
  split; [|split].
  - eapply emits_eq.
    + eapply emits_bind; [eauto with codec|intros]. apply emits_bind_ret.
      apply (for_each_emits _ _ (fun q => field_bytes (F13 q))); [lia|].
      intros q _. eapply emits_eq; [apply put_qid_emits|]. cbn [field_bytes].
      by rewrite app_nil_r.
    + unfold wire_body. cbn [wire_fields flat_map]. rewrite flat_map_map, firstn_all. done.
  - cbn [wire_type]. pick_case. unfold got, get_rwalk.
    eapply codec_ext; [intros; apply bind_assoc|].
    assert (Hq : Codec (for_each (length qs) buf_put_qid qs)
      (for_times (length qs) buf_get_qid)).
    { apply for_each_codec; [lia|]. intros q _. apply put_qid_codec. }
    apply codec_bind_val; [apply put_int16_codec| |].
    + intros n b b1 E Hok. rewrite (put_int16_val _ _ _ _ E Hok), u16_small by lia.
      unfold MAXWELEM. rewrite (proj2 (Z.ltb_ge _ _)), Hn by lia.
      eapply codec_ext; [intros; apply bind_assoc|]. apply codec_bind; [done|].
      intros. apply codec_ret.
    + intros n. eexists. eapply codec_ext; [intros; apply bind_assoc|].
      apply codec_bind; [exact Hq|]. intros. apply codec_ret.
  - eapply denotes_weaken.
    + eapply denotes_bind; [apply put_int16_denotes|intros].
      eapply denotes_bind; [|intros; apply denotes_ret].
      apply (for_each_denotes _ _ (fun q => field_bytes (F13 q))
        (fun q m v => F13 v = norm_field (F13 q))); [lia|].
      intros q _. eapply denotes_weaken; [apply put_qid_denotes| |].
      * cbn [field_bytes]. by rewrite app_nil_r.
      * intros m v ->. done.
    + unfold wire_body. cbn [wire_fields flat_map]. rewrite flat_map_map, firstn_all, app_nil_r.
      done.
    + intros m v (? & -> & vs & Hvs & ->). rewrite firstn_all in Hvs.
      cbn [u_fields wire_fields map norm_field rwalk_nwqid rwalk_wqids]. f_equal.
      rewrite map_map. symmetry. by eapply qid_fields_eq.
Qed.

(** *** Data blocks *)

Lemma load_bytes_all (bs : list Z) : load_bytes bs 0 (zlength bs) = Ret bs.
Proof.
  pose proof (zlength_nonneg bs). rewrite load_bytes_ok by lia.
  unfold zlength. rewrite Nat2Z.id, drop_0, firstn_all. done.
Qed.

(** Reserving a block and copying the caller's data into it. *)
Lemma alloc_copy_eq {A} data (k : option Z -> A) b : zlength data < 2 ^ 31 ->
  (let* d := buf_alloc (zlength data) in
   let* _ := match d with
             | Some dst => buf_copy dst data (zlength data)
             | None => ret tt
             end in ret (k d)) b
  = (let* d := alloc_fill_opt data in ret (k d)) b.
Proof.
  intros Hd. unfold alloc_fill_opt, bind.
  destruct (buf_alloc _ b) as [[[dst|] b1]| |]; cbn; try done.
  unfold buf_copy, copy_in. rewrite load_bytes_all. cbn.
  destruct (store_bytes _ _ _); done.
Qed.

(** A body that ends with such a block, followed by the reader of the block. *)
Lemma data_codec {A} (c g : M Z) (k : Z -> option Z -> A) data :
  zlength data < 2 ^ 31 -> Codec c g ->
  (forall b n b1, c b = Ret (n, b1) -> p b1 <= ep b1 -> n = zlength data) ->
  Codec (let* n := c in let* d := alloc_fill_opt data in ret (k n d))
        (let* n := g in let* d := buf_alloc n in ret (k n d)).
Proof.
  intros Hd Hc Hn. apply codec_bind_val; [done| |].
  - intros n b b1 E Hok. rewrite (Hn _ _ _ E Hok).
    apply codec_bind; [by apply alloc_fill_opt_codec|intros; apply codec_ret].
  - intros n. eexists. apply codec_bind; [by apply alloc_fill_opt_codec|].
    intros. apply codec_ret.
Qed.

Lemma bind_ext {A B} (c : M A) (f f' : A -> M B) b :
  (forall a b, f a b = f' a b) -> bind c f b = bind c f' b.
Proof. intros E. unfold bind. destruct (c b) as [[]| |]; cbn; auto. Qed.

Lemma data_field_eq m data a :
  (zlength data <> 0 -> load_bytes m a (zlength data) = Ret data) ->
  data_field m (zlength data) (Some a) = Fdata data.
Proof.
  intros Hd. unfold data_field. destruct (Z.eqb_spec (zlength data) 0) as [E|E].
  - destruct data; [done|]. unfold zlength in E. cbn in E. lia.
  - by rewrite Hd.
Qed.

Definition twrite_body (fid offset : Z) (data : list Z) : M Npfcall_u :=
  let* fid' := buf_put_int32 fid in
  let* offset' := buf_put_int64 offset in
  let* count' := buf_put_int32 (zlength data) in
  let* data' := alloc_fill_opt data in
  ret (U_twrite {| twrite_fid := fid'; twrite_offset := offset';
    twrite_count := count'; twrite_data := data' |}).

Lemma np_create_ext size id body body' :
  (forall b, body b = body' b) -> np_create size id body = np_create size id body'.
Proof.
  intros E. unfold np_create. destruct (np_create_common _ _) as [[[h b]|]| |]; cbn; try done.
  by rewrite E.
Qed.

Lemma run_create_twrite fid offset data : call_ok (C_twrite fid offset data) ->
  exists body, built_by (C_twrite fid offset data) body.
Proof.
  intros (_ & _ & Hsz). pose proof (zlength_nonneg data).
  assert (Hb : zlength (wire_body (C_twrite fid offset data)) = 16 + zlength data).
  { unfold wire_body. cbn [wire_fields flat_map field_bytes]. autorewrite with zlen. lia. }
  exists (twrite_body fid offset data). unfold built_by. rewrite Hb in *. split; [|split; [|split]].
  - unfold run_create, np_create_twrite. rewrite u32_small, int32_small by lia.
    replace (4 + 8 + 4 + zlength data) with (16 + zlength data) by lia.
    apply np_create_ext. intros b0.
    do 3 (apply bind_ext; intros ? ?). apply alloc_copy_eq. lia.
  - eapply emits_eq.
    + unfold twrite_body. eapply emits_bind; [eauto with codec|intros].
      eapply emits_bind; [eauto with codec|intros].
      eapply emits_bind; [eauto with codec|intros]. apply emits_bind_ret.
      apply alloc_fill_opt_emits. lia.
    + unfold wire_body. cbn [wire_fields flat_map field_bytes]. by rewrite app_nil_r.
  - cbn [wire_type]. pick_case. unfold got, get_twrite.
    apply codec_bind; [|intros; apply codec_ret].
    apply codec_bind; [eauto with codec|intros v0]. apply codec_bind; [eauto with codec|intros v1].
    apply (data_codec _ _ (fun n d => U_twrite {| twrite_fid := v0; twrite_offset := v1;
      twrite_count := n; twrite_data := d |})); [lia|apply put_int32_codec|].
    intros b n b1 E Hok. rewrite (put_int32_val _ _ _ _ E Hok). apply u32_small. lia.
  - eapply denotes_weaken; [unfold twrite_body; solve_denotes| |].
    + unfold wire_body. cbn [wire_fields flat_map field_bytes]. done.
    + intros m v (? & -> & ? & -> & ? & -> & d & (a & -> & Hd) & ->).
      cbn [u_fields wire_fields map norm_field twrite_fid twrite_offset twrite_count twrite_data].
      rewrite (u32_small (zlength data)) by lia. by rewrite (data_field_eq m data a Hd).
Qed.

Definition rread_body (data : list Z) : M Npfcall_u :=
  let* count' := buf_put_int32 (zlength data) in
  let* data' := alloc_fill_opt data in
  ret (U_rread {| rread_count := count'; rread_data := data' |}).

(** Filling the block after [np_post_check] or before it is the same. *)
Lemma np_create_rread_eq data : zlength data < 2 ^ 31 - 11 ->
  np_create_rread (zlength data) data =
  np_create (4 + zlength data) Rread (rread_body data).
Proof.
  intros Hd. pose proof (zlength_nonneg data). unfold np_create_rread, np_alloc_rread.
  cbv zeta. rewrite (u32_small (zlength data)), (u32_small (zlength data)) by lia.
  rewrite int32_small by lia. unfold np_create.
  destruct (np_create_common _ _) as [[[h b]|]| |] eqn:Ec; cbn [res_bind]; try done.
  unfold rread_body, bind at 1 3.
  destruct (buf_put_int32 _ b) as [[n b1]| |]; cbn [res_bind]; try done.
  unfold alloc_fill_opt, bind. destruct (buf_alloc _ b1) as [[[dst|] b2]| |] eqn:Ea; cbn; try done.
  - rewrite alloc_run in Ea by lia.
    destruct (Z.leb_spec (p b1 + zlength data) (ep b1)); [|simpl_res; discriminate].
    injection Ea as <- <-. unfold np_post_check, buf_check_overflow. cbn.
    rewrite (proj2 (Z.ltb_ge _ _)) by lia. cbn. unfold copy_in. rewrite load_bytes_all. cbn.
    destruct (store_bytes _ _ _); cbn; try done. rewrite (proj2 (Z.ltb_ge _ _)) by lia. done.
  - unfold np_post_check. destruct (buf_check_overflow b2); done.
Qed.

Lemma run_create_rread data : call_ok (C_rread data) ->
  exists body, built_by (C_rread data) body.
Proof.
  intros (_ & _ & Hsz). pose proof (zlength_nonneg data).
  assert (Hb : zlength (wire_body (C_rread data)) = 4 + zlength data).
  { unfold wire_body. cbn [wire_fields flat_map field_bytes]. autorewrite with zlen. lia. }
  exists (rread_body data). unfold built_by. rewrite Hb in *. split; [|split; [|split]].
  - apply np_create_rread_eq. lia.
  - eapply emits_eq.
    + eapply emits_bind; [eauto with codec|intros]. apply emits_bind_ret.
      apply alloc_fill_opt_emits. lia.
    + unfold wire_body. cbn [wire_fields flat_map field_bytes]. by rewrite app_nil_r.
  - cbn [wire_type]. pick_case. unfold got, get_rread.
    apply codec_bind; [|intros; apply codec_ret].
    apply (data_codec _ _ (fun n d => U_rread {| rread_count := n; rread_data := d |}));
      [lia|apply put_int32_codec|].
    intros b n b1 E Hok. rewrite (put_int32_val _ _ _ _ E Hok). apply u32_small. lia.
  - eapply denotes_weaken; [unfold rread_body; solve_denotes| |].
    + unfold wire_body. cbn [wire_fields flat_map field_bytes]. done.
    + intros m v (? & -> & d & (a & -> & Hd) & ->).
      cbn [u_fields wire_fields map norm_field rread_count rread_data].
      rewrite (u32_small (zlength data)) by lia. by rewrite (data_field_eq m data a Hd).
Qed.

Lemma run_create_built c : call_ok c -> exists body, built_by c body.
Proof.
  destruct c; try (apply run_create_regular; exact I);
    eauto using run_create_twalk, run_create_rwalk, run_create_rread, run_create_twrite.
Qed.
End Calls.
