(* ===== verification/Safety.v ===== *)
(** * Parsing untrusted packets (libnpfs/np.c)

    [np_deserialize] on arbitrary bytes: every read stays inside the packet,
    and when the message is accepted the string and data views it hands to
    the server lie inside the message. *)
From S2P Require Import Prelude Cbuf Protocol Create Deserialize Builders.

(** The bytes of a packet, whatever their values. *)
Definition is_packet (pkt : list Z) : Prop := Forall (fun b => 0 <= b < 2 ^ 8) pkt.

(** A string view lies between two offsets of its packet. *)
Definition str_in (lo hi : Z) (s : Npstr) : Prop :=
  exists a, str s = Some a /\ lo <= a /\ a + len s <= hi /\ 0 <= len s < 2 ^ 16.

(** A data view does, unless its count is negative as an [int]. *)
Definition data_in (lo hi : Z) (d : option (Z * option Z)) : Prop :=
  match d with
  | Some (count, view) =>
      0 <= count < 2 ^ 31 -> exists a, view = Some a /\ lo <= a /\ a + count <= hi
  | None => True
  end.

(** What a message handed to the server may point at. *)
Definition views_in (lo hi : Z) (u : Npfcall_u) : Prop :=
  Forall (str_in lo hi) (u_strs u) /\ data_in lo hi (u_data u).

(** A decoder that may be followed by another: on a buffer whose bounds are
    those of the packet it returns, only moves forward, and its value [v]
    satisfies [V lo hi e v] for the positions before and after and the end. *)
Definition Decodes {A} (g : M A) (V : Z -> Z -> Z -> A -> Prop) : Prop :=
  forall b, wf_cbuf b -> exists v b', g b = Ret (v, b') /\
    mem b' = mem b /\ ep b' = ep b /\ p b <= p b' /\ V (p b) (p b') (ep b) v.

(** A decoder in tail position: [buf_alloc] of a negative length moves back. *)
Definition Parses {A} (g : M A) (V : Z -> Z -> Z -> A -> Prop) : Prop :=
  forall b, wf_cbuf b -> exists v b', g b = Ret (v, b') /\
    mem b' = mem b /\ ep b' = ep b /\ V (p b) (p b') (ep b) v.

Definition any_value {A} : Z -> Z -> Z -> A -> Prop := fun _ _ _ _ => True.
Definition a_str (lo hi e : Z) (s : Npstr) : Prop := hi <= e -> str_in lo hi s.
Definition some_strs (lo hi e : Z) (l : list Npstr) : Prop :=
  hi <= e -> Forall (str_in lo hi) l.
Definition body_views (lo hi e : Z) (o : option Npfcall_u) : Prop :=
  forall u, o = Some u -> hi <= e -> views_in lo e u.

(** ** Combinators *)

Lemma decodes_parses {A} (g : M A) V : Decodes g V -> Parses g V.
Proof. intros Hg b Hb. destruct (Hg b Hb) as (v & b' & ? & ? & ? & ? & ?). eauto 10. Qed.

Lemma parses_weaken {A} (g : M A) (V W : Z -> Z -> Z -> A -> Prop) :
  Parses g V -> (forall lo hi e v, V lo hi e v -> W lo hi e v) -> Parses g W.
Proof. intros Hg HW b Hb. destruct (Hg b Hb) as (v & b' & ? & ? & ? & ?). eauto 10. Qed.

Lemma decodes_weaken {A} (g : M A) (V W : Z -> Z -> Z -> A -> Prop) :
  Decodes g V -> (forall lo hi e v, lo <= hi -> V lo hi e v -> W lo hi e v) -> Decodes g W.
Proof.
  intros Hg HW b Hb. destruct (Hg b Hb) as (v & b' & ? & ? & ? & ? & ?). eauto 10.
Qed.

Lemma decodes_ret {A} (a : A) :
  Decodes (ret a) (fun lo hi _ v => lo = hi /\ v = a).
Proof. intros b _. exists a, b. repeat split; done || lia. Qed.

Lemma wf_step b b' : wf_cbuf b -> mem b' = mem b -> ep b' = ep b -> p b <= p b' -> wf_cbuf b'.
Proof. intros [? ?] Hm He Hp. unfold wf_cbuf. rewrite Hm, He. lia. Qed.

Lemma parses_bind {A B} (g : M A) (f : A -> M B) V W :
  Decodes g V -> (forall a, Parses (f a) (W a)) ->
  Parses (bind g f) (fun lo hi e v =>
    exists a mid, lo <= mid /\ V lo mid e a /\ W a mid hi e v).
Proof.
  intros Hg Hf b Hb. destruct (Hg b Hb) as (a & b1 & E1 & M1 & P1 & L1 & V1).
  destruct (Hf a b1) as (v & b2 & E2 & M2 & P2 & V2); [by eapply wf_step|].
  exists v, b2. unfold bind. rewrite E1. cbn. rewrite <- P1 in *.
  split; [done|]. split; [congruence|]. split; [congruence|]. eauto.
Qed.

Lemma decodes_bind {A B} (g : M A) (f : A -> M B) V W :
  Decodes g V -> (forall a, Decodes (f a) (W a)) ->
  Decodes (bind g f) (fun lo hi e v =>
    exists a mid, lo <= mid /\ mid <= hi /\ V lo mid e a /\ W a mid hi e v).
Proof.
  intros Hg Hf b Hb. destruct (Hg b Hb) as (a & b1 & E1 & M1 & P1 & L1 & V1).
  destruct (Hf a b1) as (v & b2 & E2 & M2 & P2 & L2 & V2); [by eapply wf_step|].
  exists v, b2. unfold bind. rewrite E1. cbn. rewrite <- P1 in *.
  split; [done|]. split; [congruence|]. split; [congruence|]. split; [lia|]. eauto 10.
Qed.

(** ** Accessors *)

(** The shape of the four integer readers. *)
Lemma decodes_scalar n (h : list Z -> Z) : 0 <= n < 2 ^ 31 ->
  Decodes (let* ok := buf_check_size n in
           if ok then let* bs := buf_load n in ret (h bs) else ret 0)
    (fun lo hi e _ => hi = lo + n \/ e < hi).
Proof.
  intros Hn b [Hp He]. unfold bind. rewrite check_size_run by lia.
  destruct (Z.leb_spec (p b + n) (ep b)); cbn [res_bind].
  - unfold buf_load. rewrite load_bytes_ok by lia. cbn.
    eexists _, _. repeat split; cbn; lia.
  - cbn. eexists _, _. split; [done|].
    destruct (Z.leb_spec (p b) (ep b)); cbn; repeat split; try lia.
    all: right; lia.
Qed.

Lemma get_int8_decodes : Decodes buf_get_int8 any_value.
Proof. eapply decodes_weaken; [apply (decodes_scalar 1); lia|done]. Qed.

Lemma get_int16_decodes : Decodes buf_get_int16 (fun _ _ _ v => 0 <= v < 2 ^ 16).
Proof.
  intros b Hb. destruct (decodes_scalar 2 (fun bs => u16 (Z.lor (byte_at bs 0)
    (Z.shiftl (byte_at bs 1) 8))) ltac:(lia) b Hb) as (v & b' & E & ? & ? & ? & _).
  exists v, b'. repeat split; try done.
  all: apply bind_Ret in E as (ok & b1 & _ & E); destruct ok;
    [apply bind_Ret in E as (bs & b2 & _ & E)|]; unfold ret in E; simpl_res;
    try lia; apply u16_range.
Qed.

Lemma get_int32_decodes : Decodes buf_get_int32 any_value.
Proof. eapply decodes_weaken; [apply (decodes_scalar 4); lia|done]. Qed.

Lemma get_int64_decodes : Decodes buf_get_int64 any_value.
Proof. eapply decodes_weaken; [apply (decodes_scalar 8); lia|done]. Qed.

Lemma get_qid_decodes : Decodes buf_get_qid any_value.
Proof.
  eapply decodes_weaken; [|done]. unfold buf_get_qid.
  apply decodes_bind; [apply get_int8_decodes|intros].
  apply decodes_bind; [apply get_int32_decodes|intros].
  apply decodes_bind; [apply get_int64_decodes|intros; apply decodes_ret].
Qed.

Lemma alloc_decodes n : 0 <= n < 2 ^ 31 ->
  Decodes (buf_alloc n) (fun lo hi e v => hi <= e -> v = Some lo /\ hi = lo + n).
Proof.
  intros Hn b [Hp He]. rewrite alloc_run by lia.
  destruct (Z.leb_spec (p b + n) (ep b)).
  - eexists _, _. split; [done|]. cbn. repeat split; lia.
  - eexists _, _. split; [done|].
    destruct (Z.leb_spec (p b) (ep b)); cbn; repeat split; lia.
Qed.

(** Any length at all, in tail position. *)
Lemma alloc_parses n :
  Parses (buf_alloc n) (fun lo hi e v =>
    0 <= n < 2 ^ 31 -> hi <= e -> v = Some lo /\ lo + n <= e).
Proof.
  intros b Hb. destruct (decide (0 <= n < 2 ^ 31)) as [Hn|Hn].
  - destruct (alloc_decodes n Hn b Hb) as (v & b' & E & ? & ? & ? & HV).
    exists v, b'. do 3 (split; [done|]). intros _ Hok.
    destruct (HV Hok) as [-> ?]. split; [done|lia].
  - unfold buf_alloc, bind, buf_check_size.
    destruct (Z.ltb_spec (ep b) (p b + int32 n)); cbn; eexists _, _; (split; [done|]);
      [destruct (Z.leb_spec (p b) (ep b))|]; cbn; repeat split; tauto.
Qed.

Lemma get_str_decodes : Decodes buf_get_str a_str.
Proof.
  intros b Hb. unfold buf_get_str, bind at 1.
  destruct (get_int16_decodes b Hb) as (n & b1 & E1 & M1 & P1 & L1 & Hn).
  rewrite E1. cbn [res_bind]. unfold bind.
  destruct (alloc_decodes n ltac:(lia) b1) as (v & b2 & E2 & M2 & P2 & L2 & V2);
    [by eapply wf_step|].
  rewrite E2. cbn. eexists _, _. split; [done|].
  split; [congruence|]. split; [congruence|]. split; [lia|].
  intros Hok. rewrite P1 in V2. destruct (V2 Hok) as [-> ?]. exists (p b1). cbn. repeat split; lia.
Qed.

Lemma str_in_mono lo lo' hi hi' s : lo' <= lo -> hi <= hi' -> str_in lo hi s -> str_in lo' hi' s.
Proof. intros ? ? (a & ? & ? & ? & ?). exists a. repeat split; done || lia. Qed.

Lemma Forall_str_mono lo lo' hi hi' l : lo' <= lo -> hi <= hi' ->
  Forall (str_in lo hi) l -> Forall (str_in lo' hi') l.
Proof. intros ? ? Hl. eapply Forall_impl; [|exact Hl]. eauto using str_in_mono. Qed.

Lemma get_strs_decodes n : Decodes (for_times n buf_get_str) some_strs.
Proof.
  induction n as [|n IH]; cbn [for_times].
  - eapply decodes_weaken; [apply decodes_ret|]. intros ? ? ? ? ? (_ & ->) _. constructor.
  - eapply decodes_weaken.
    { apply decodes_bind; [apply get_str_decodes|intros s].
      apply decodes_bind; [apply IH|intros l; apply decodes_ret]. }
    intros lo hi e v _ (s & m1 & ? & ? & Hs & l & m2 & ? & ? & Hl & -> & ->) Hok.
    constructor; [|eapply Forall_str_mono; [| |apply Hl]; lia].
    eapply str_in_mono; [| |apply Hs]; lia.
Qed.

Lemma get_qids_decodes n : Decodes (for_times n buf_get_qid) any_value.
Proof.
  induction n as [|n IH]; cbn [for_times]; (eapply decodes_weaken; [|done]).
  - apply decodes_ret.
  - apply decodes_bind; [apply get_qid_decodes|intros].
    apply decodes_bind; [apply IH|intros; apply decodes_ret].
Qed.

#[export] Hint Resolve get_int8_decodes get_int16_decodes get_int32_decodes
  get_int64_decodes get_qid_decodes get_str_decodes get_strs_decodes
  get_qids_decodes : cbuf.

(** ** The cases of the switch *)

(** A case whose last field is a data block. *)
Lemma data_parses n (k : option Z -> Npfcall_u) :
  (forall d, u_strs (k d) = [] /\ u_data (k d) = Some (n, d)) ->
  Parses (let* d := buf_alloc n in ret (k d))
    (fun lo hi e u => hi <= e -> views_in lo e u).
Proof.
  intros Hk b Hb. destruct (alloc_parses n b Hb) as (v & b' & E & Hm & He & HV).
  exists (k v), b'. unfold bind. rewrite E. cbn. do 3 (split; [done|]).
  intros Hok. destruct (Hk v) as [Hs Hd]. unfold views_in. rewrite Hs, Hd.
  split; [constructor|]. intros Hn. destruct (HV Hn Hok) as [-> ?].
  exists (p b). split; [done|lia].
Qed.

Lemma views_in_mono lo lo' hi u : lo' <= lo -> views_in lo hi u -> views_in lo' hi u.
Proof.
  intros Hlo [Hs Hd]. split; [by eapply Forall_str_mono; [..|exact Hs]|].
  destruct (u_data u) as [[n d]|]; [|done]. intros Hn.
  destruct (Hd Hn) as (a & -> & ? & ?). exists a. split; [done|lia].
Qed.

(** A case is a sequence of accessors that ends with [ret]. *)
Ltac case_parses :=
  lazymatch goal with
  | |- Parses (bind (buf_alloc _) _) _ => apply data_parses; done
  | |- Parses (bind _ _) _ =>
      eapply parses_bind; [solve [eauto with cbuf]|intros ?; cbv beta; case_parses]
  | |- Parses (ret _) _ => apply decodes_parses, decodes_ret
  end.

Ltac case_views :=
  cbv beta in *;
  repeat match goal with
  | H : ex _ |- _ => destruct H
  | H : _ /\ _ |- _ => destruct H
  end; subst;
  try (match goal with
  | H : _ -> views_in ?m ?e ?u |- views_in _ ?e ?u =>
      apply (views_in_mono m); [lia|]; apply H; lia end);
  split; cbn [u_strs u_data data_in app];
  repeat lazymatch goal with
  | |- Forall _ (_ :: _) => constructor
  | |- Forall _ [] => constructor
  | |- True => exact I
  | H : a_str _ ?m _ ?s |- str_in _ _ ?s => eapply (str_in_mono _ _ m); [| |apply H]; lia
  end.

Lemma got_parses g (V : Z -> Z -> Z -> Npfcall_u -> Prop) :
  Parses g V -> (forall lo hi e u, V lo hi e u -> hi <= e -> views_in lo e u) ->
  Parses (got g) body_views.
Proof.
  intros Hg HV b Hb. destruct (Hg b Hb) as (v & b' & E & ? & ? & Hv).
  exists (Some v), b'. unfold got, bind. rewrite E. cbn.
  do 3 (split; [done|]). intros u [= <-]. eauto.
Qed.

Lemma get_twalk_parses : Parses get_twalk body_views.
Proof.
  unfold get_twalk. eapply parses_weaken.
  - eapply parses_bind; [apply get_int32_decodes|intros fid].
    eapply parses_bind; [apply get_int32_decodes|intros newfid].
    eapply parses_bind; [apply get_int16_decodes|intros n].
    instantiate (1 := fun _ lo hi e o => body_views lo hi e o).
    destruct (MAXWELEM <? n).
    + eapply parses_weaken; [apply decodes_parses, decodes_ret|].
      intros ? ? ? ? [_ ->] u [=].
    + eapply parses_weaken; [case_parses|]. intros lo hi e o Hv u ->.
      destruct Hv as (l & mid & ? & Hl & ? & [= ->]). intros ?. subst.
      split; [|done]. eapply Forall_str_mono; [| |apply Hl]; lia.
  - intros lo hi e o (? & m1 & ? & _ & ? & m2 & ? & _ & n & m3 & ? & _ & Hb) u Hu Hok.
    eapply (views_in_mono m3); [lia|]. by eapply Hb.
Qed.

Lemma get_rwalk_parses : Parses get_rwalk body_views.
Proof.
  unfold get_rwalk. eapply parses_weaken.
  - eapply parses_bind; [apply get_int16_decodes|intros n].
    instantiate (1 := fun _ lo hi e o => body_views lo hi e o).
    destruct (MAXWELEM <? n).
    + eapply parses_weaken; [apply decodes_parses, decodes_ret|].
      intros ? ? ? ? [_ ->] u [=].
    + eapply parses_weaken; [case_parses|]. intros lo hi e o Hv u ->.
      destruct Hv as (l & mid & ? & Hl & ? & [= ->]). intros ?. split; [constructor|done].
  - intros lo hi e o (n & m3 & ? & _ & Hb) u Hu Hok.
    eapply (views_in_mono m3); [lia|]. by eapply Hb.
Qed.

Lemma get_body_parses t : Parses (get_body t) body_views.
Proof.
  unfold get_body.
  repeat match goal with |- context [t =? ?c] => destruct (t =? c) end.
  all: try apply get_twalk_parses; try apply get_rwalk_parses.
  all: try (match goal with |- Parses (got ?g) _ => try unfold g end;
    eapply got_parses; [case_parses|intros; case_views]).
  all: try (eapply parses_weaken; [apply decodes_parses, decodes_ret|];
      intros ? ? ? ? [_ ->] u [=]).
Qed.
