(* ===== verification/CodecSpec.v ===== *)
(** * Correctness of the message codec (libnpfs/np.c)

    A call of an [np_create_*] function emits exactly the layout of protocol.md, and
    [np_deserialize] reads back the very [Npfcall] that was built (Built.v adds the
    replies that are filled later or live on the stack).  On arbitrary bytes from the peer, [np_deserialize] stays inside the packet,
    and the views it hands out lie inside the message, with the one exception
    [twrite_count_unchecked] shows. *)
From S2P Require Import Prelude Cbuf Protocol Create Deserialize Wire Builders Codec Safety.

(** The value of the size field of a packet. *)
Definition msg_size (pkt : list Z) : Z := le_value (take 4 pkt).

Definition blank_fcall (pkt : list Z) : Npfcall :=
  {| fc_size := 0; fc_type := 0; fc_tag := 0; fc_pkt := pkt; fc_u := U_none |}.

Definition walk_call : np_call :=
  C_twalk 5 6 [[117; 115; 114]; [108; 105; 98]].

Section Spec.
Context `{CHeap}.

Lemma header_wire c :
  header_bytes (7 + zlength (wire_body c)) (wire_type c) ++ wire_body c = wire_message c.
Proof. unfold header_bytes, wire_message. rewrite <- !app_assoc. done. Qed.

(** The first read of [np_deserialize]. *)
Lemma get_size_run pkt : is_packet (take 4 pkt) -> 4 <= zlength pkt ->
  exists b, buf_get_int32 (buf_init pkt 0 4) = Ret (msg_size pkt, b).
Proof.
  intros Hb Hl. unfold buf_get_int32, bind. rewrite check_size_run by lia.
  change (p (buf_init pkt 0 4)) with 0. change (ep (buf_init pkt 0 4)) with 4.
  change (0 + 4 <=? 4) with true. cbn [res_bind].
  unfold buf_load. cbn [p mem buf_init]. rewrite load_bytes_ok by lia. cbn [res_bind].
  rewrite drop_0. eexists. unfold ret, msg_size. rewrite get32_le; [done| |].
  - unfold zlength in *. rewrite length_take. lia.
  - done.
Qed.

(** Where a field of [n] bytes starts, the next one is [n] further on, or
    nothing fits any more. *)
Lemma views_after lo mid e u :
  mid = lo \/ e < mid -> views_in mid e u -> views_in lo e u.
Proof.
  intros [->|Hov] [Hs Hd]; [done|]. split.
  - destruct (u_strs u) as [|s l]; [constructor|].
    destruct (Forall_inv Hs) as (a & ? & ? & ? & ?). lia.
  - destruct (u_data u) as [[n d]|]; [|done]. intros Hn.
    destruct (Hd Hn) as (a & ? & ? & ?). lia.
Qed.

Lemma get_rest_parses :
  Parses get_rest (fun lo hi e r => forall u, r.2 = Some u -> hi <= e ->
    views_in (lo + 3) e u).
Proof.
  assert (Hbody : forall t g : Z, Parses (let* o := get_body t in ret (t, g, o))
    (fun lo hi e r => body_views lo hi e r.2)).
  { intros t g b Hb. destruct (get_body_parses t b Hb) as (o & b' & E & ? & ? & HV).
    exists (t, g, o), b'. unfold bind. rewrite E. done. }
  unfold get_rest. eapply parses_weaken.
  - eapply parses_bind; [apply (decodes_scalar 1); lia|intros t].
    eapply parses_bind; [apply (decodes_scalar 2); lia|intros g]. apply Hbody.
  - intros lo hi e [[t' g'] o] (t & m1 & ? & H1 & g & m2 & ? & H2 & HV) u Hu Hok.
    cbn in *. eapply views_after; [|by eapply HV]. lia.
Qed.

(** The end of the message as [buf_init] computes it, also for a size below
    the four bytes already consumed. *)
Lemma rest_end pkt size : 0 <= size < 2 ^ 31 ->
  ep (buf_init pkt 4 (u32 (size - 4))) = size.
Proof.
  intros Hs. cbn [ep buf_init]. destruct (Z.lt_ge_cases size 4).
  - replace (u32 (size - 4)) with (size - 4 + 2 ^ 32).
    + rewrite int32_wrap; lia.
    + unfold u32. apply Z.mod_unique with (-1); lia.
  - rewrite u32_small, int32_small by lia. lia.
Qed.

Lemma np_deserialize_run fc :
  is_packet (take 4 (fc_pkt fc)) -> 4 <= zlength (fc_pkt fc) ->
  msg_size (fc_pkt fc) <= zlength (fc_pkt fc) -> msg_size (fc_pkt fc) < 2 ^ 31 ->
  exists n fc', np_deserialize fc = Ret (n, fc') /\
    fc_pkt fc' = fc_pkt fc /\ fc_size fc' = msg_size (fc_pkt fc) /\
    (n = 0 \/ n = fc_size fc' /\ views_in 7 n (fc_u fc')).
Proof.
  intros Hb Hl Hs Hlt. set (pkt := fc_pkt fc) in *.
  assert (0 <= msg_size pkt).
  { by apply (le_value_range (take 4 pkt)). }
  destruct (get_size_run pkt Hb) as [b0 E0]; [lia|].
  rewrite np_deserialize_eq. fold pkt. rewrite E0. cbn [res_bind].
  pose proof (rest_end pkt (msg_size pkt) ltac:(lia)) as He.
  set (b1 := buf_init pkt 4 _) in *.
  destruct (get_rest_parses b1) as ([[t g] o] & b2 & E & _ & He2 & HV).
  { split; [done|]. rewrite He. exact Hs. }
  rewrite E. cbn [res_bind fst snd]. cbn [snd] in HV.
  rewrite He in HV. change (p b1 + 3) with 7 in HV. destruct o as [u|]; [|by eauto 10].
  unfold buf_check_overflow. destruct (Z.ltb_spec (ep b2) (p b2)); eexists _, _;
    (split; [done|]); (split; [done|]); (split; [done|]); [by left|right].
  rewrite int32_small by lia. split; [done|]. rewrite He2, He in *. by apply HV.
Qed.

Lemma run_create_denotes c :
  call_ok c -> malloc (sizeof_Npfcall + (7 + zlength (wire_body c))) <> None ->
  exists fc, run_create c = Ret (Some fc) /\
    fc = {| fc_size := 7 + zlength (wire_body c); fc_type := wire_type c; fc_tag := NOTAG;
            fc_pkt := wire_message c; fc_u := fc_u fc |} /\
    forall m, (forall i, (i < length (wire_body c))%nat ->
      m !! (7 + i)%nat = wire_body c !! i) ->
      u_fields m (fc_u fc) = map norm_field (wire_fields c).
Proof.
  intros Hc Hm. destruct (run_create_built c Hc) as (body & E & Hem & _ & Hd).
  destruct Hc as (_ & _ & Hsz).
  destruct (np_create_denotes _ (wire_type c) body _ _ Hem Hd eq_refl Hsz Hm) as (u & Hu & HR).
  rewrite header_wire in *. eexists. rewrite E, Hu. split; [reflexivity|]. cbn [fc_u].
  split; [|done]. f_equal. by destruct c.
Qed.

(** ** The properties *)

(** The packet and the union of one call; Built.v has the statement for every
    builder. *)
Lemma call_wire_format c :
  call_ok c -> malloc (sizeof_Npfcall + (7 + zlength (wire_body c))) <> None ->
  exists u, run_create c = Ret (Some {|
      fc_size := 7 + zlength (wire_body c); fc_type := wire_type c; fc_tag := NOTAG;
      fc_pkt := wire_message c; fc_u := u |}) /\
    u_fields (wire_message c) u = map norm_field (wire_fields c).
Proof.
  intros Hc Hm. destruct (run_create_denotes c Hc Hm) as (fc & E & Hfc & Hu).
  exists (fc_u fc). split; [by rewrite E, Hfc at 1|]. apply Hu.
  intros i _. unfold wire_message. rewrite !app_assoc. rewrite lookup_app_r by (cbn; lia).
  f_equal. cbn. lia.
Qed.

Lemma call_deserialize c fc fc0 junk :
  call_ok c -> run_create c = Ret (Some fc) -> fc_pkt fc0 = fc_pkt fc ++ junk ->
  np_deserialize fc0 = Ret (fc_size fc, set_pkt (fc_pkt fc0) fc).
Proof.
  intros Hc E Hp. destruct (run_create_built c Hc) as (body & Eb & _ & Hcd & _).
  rewrite Eb in E. by apply (np_create_deserialize _ _ _ _ _ junk Hcd E).
Qed.

(** C3: safety.  On a buffer of arbitrary contents that is at least as long as
    the size field at its start says (what the transport delivers), [np_deserialize] never reads
    outside the packet and never aborts; it leaves the bytes alone; it rejects
    the message, or returns its size and a message all of whose strings lie
    inside the packet after the header, and whose data (of a Twrite, Rread or
    Rreaddir) does if its count is below 2^31.  A count of 2^31 or more is not
    checked: see [twrite_count_unchecked]. *)
Theorem np_deserialize_in_bounds fc :
  is_packet (take 4 (fc_pkt fc)) -> 4 <= zlength (fc_pkt fc) ->
  msg_size (fc_pkt fc) <= zlength (fc_pkt fc) -> msg_size (fc_pkt fc) < 2 ^ 31 ->
  exists n fc', np_deserialize fc = Ret (n, fc') /\ fc_pkt fc' = fc_pkt fc /\
    (n = 0 \/ n = msg_size (fc_pkt fc) /\ views_in 7 n (fc_u fc')).
Proof.
  intros Hb Hl Hs Hlt. destruct (np_deserialize_run fc Hb Hl Hs Hlt) as (n & fc' & E & ? & <- & ?).
  eauto.
Qed.
End Spec.

(** The one gap.  A peer can send a Twrite of 23 bytes, without any data,
    whose count is 2^32 - 1: the count is passed to [buf_alloc] as an [int],
    its bounds check is passed with -1, and the parser accepts the message
    with a data view of 4 GiB that starts at the end of the packet. *)
Theorem twrite_count_unchecked :
  exists pkt fc', is_packet pkt /\ msg_size pkt = zlength pkt /\
    np_deserialize (blank_fcall pkt) = Ret (zlength pkt, fc') /\
    u_data (fc_u fc') = Some (2 ^ 32 - 1, Some (zlength pkt)).
Proof.
  exists (le_bytes 4 23 ++ le_bytes 1 Twrite ++ le_bytes 2 1 ++ le_bytes 4 5 ++
          le_bytes 8 0 ++ le_bytes 4 (2 ^ 32 - 1)).
  eexists. split; [repeat constructor; vm_compute; done|].
  split; [vm_compute; done|]. split; vm_compute; reflexivity.
Qed.

(** ** Witnesses *)

Lemma walk_call_ok : call_ok walk_call.
Proof. split; [repeat constructor; vm_compute; done|]. split; vm_compute; congruence. Qed.

Lemma np_deserialize_in_bounds_witness :
  let pkt := wire_message walk_call in
  exists n fc', np_deserialize (blank_fcall pkt) = Ret (n, fc') /\ fc_pkt fc' = pkt /\
    (n = 0 \/ n = msg_size pkt /\ views_in 7 n (fc_u fc')).
Proof.
  apply (np_deserialize_in_bounds (blank_fcall (wire_message walk_call))).
  - repeat constructor; vm_compute; done.
  - vm_compute. congruence.
  - vm_compute. congruence.
  - vm_compute. congruence.
Defined.
