(* ===== verification/Replies.v ===== *)
(** * Replies that are patched after they were built (libnpfs/np.c)

    The server builds a reply, then stores the tag of the request into it
    ([np_set_tag]); a read or readdir reply is allocated at the requested
    count, filled by the file system and cut to the bytes produced
    ([np_set_rread_count], [np_finalize_rreaddir]). *)
From S2P Require Import Prelude Cbuf Protocol Create Deserialize Wire Builders Codec Safety CodecSpec.

(** An Rread or Rreaddir message that carries [data]. *)
Definition data_message (id tag : Z) (data : list Z) : list Z :=
  le_bytes 4 (11 + zlength data) ++ le_bytes 1 id ++ le_bytes 2 tag ++
  le_bytes 4 (zlength data) ++ data.

(** The file system fills the data area of a reply through [rread.data]. *)
Definition fill_data (fc : Npfcall) (bs : list Z) : res Npfcall :=
  match u_data (fc_u fc) with
  | Some (_, Some dst) =>
      let! pkt := store_bytes (fc_pkt fc) dst bs in
      Ret {| fc_size := fc_size fc; fc_type := fc_type fc; fc_tag := fc_tag fc;
             fc_pkt := pkt; fc_u := fc_u fc |}
  | _ => UB
  end.

(** What the transport sends of a message: [fc->size] bytes. *)
Definition sent (fc : Npfcall) : list Z := take (Z.to_nat (fc_size fc)) (fc_pkt fc).

(** ** Stores over a known part of a packet *)

Lemma store_bytes_mid l old new r : length new = length old ->
  store_bytes (l ++ old ++ r) (zlength l) new = Ret (l ++ new ++ r).
Proof.
  intros Hn. rewrite store_bytes_ok.
  - unfold zlength. rewrite Nat2Z.id, take_app_length, Hn.
    rewrite drop_app, drop_ge by lia.
    replace (length l + length old - length l)%nat with (length old) by lia.
    by rewrite drop_app_length.
  - unfold zlength. lia.
  - rewrite !zlength_app. unfold zlength. lia.
Qed.

Lemma store_bytes_at a l old new r : zlength l = a -> length new = length old ->
  store_bytes (l ++ old ++ r) a new = Ret (l ++ new ++ r).
Proof. intros <-. apply store_bytes_mid. Qed.

Lemma store_bytes_front old new r : length new = length old ->
  store_bytes (old ++ r) 0 new = Ret (new ++ r).
Proof. apply (store_bytes_mid []). Qed.

Section Replies.
Context `{CHeap}.

(** Overwriting an integer field inside its bounds. *)
Lemma put_int32_at v b : wf_cbuf b -> p b + 4 <= ep b ->
  exists m, store_bytes (mem b) (p b) (le_bytes 4 v) = Ret m /\
    buf_put_int32 v b = Ret (u32 v, set_p (p b + 4) (set_mem m b)).
Proof.
  intros Hb Hfit. destruct (put_int32_emits v b Hb) as (w & b' & E & Hst & Hp & Hsp & He).
  { unfold zlength. rewrite le_bytes_length. lia. }
  exists (mem b'). split; [done|]. rewrite E.
  rewrite (put_int32_val _ _ _ _ E) by (rewrite Hp, He; unfold zlength; rewrite le_bytes_length; lia).
  destruct b as [m s q e], b' as [m' s' q' e']. cbn in *. subst. done.
Qed.

Lemma shrink_run fc n m u id tag (data : list Z) (k : nat) :
  fc_pkt fc = le_bytes 4 n ++ le_bytes 1 id ++ le_bytes 2 tag ++ le_bytes 4 m ++ data ->
  zlength data < 2 ^ 31 - 11 -> (k <= length data)%nat ->
  exists fc', shrink fc (Z.of_nat k) u = Ret fc' /\ fc_size fc' = 11 + Z.of_nat k /\
    fc_type fc' = fc_type fc /\ fc_tag fc' = fc_tag fc /\ fc_u fc' = u (Z.of_nat k) /\
    sent fc' = data_message id tag (take k data).
Proof.
  intros Hp Hd Hk. unfold shrink. change (4 + 1 + 2 + 4) with 11.
  assert (Hlen : zlength (fc_pkt fc) = 11 + zlength data).
  { rewrite Hp. autorewrite with zlen. lia. }
  unfold zlength in Hd, Hlen. rewrite (int32_small (11 + _)) by lia. set (size := 11 + Z.of_nat k).
  destruct (put_int32_at size (buf_init (fc_pkt fc) 0 size)) as (m1 & S1 & E1).
  { split; [done|]. cbn. rewrite int32_small by lia. unfold zlength. lia. }
  { cbn. rewrite int32_small by lia. lia. }
  rewrite E1. cbn [res_bind]. change (p (buf_init _ 0 _)) with 0 in *.
  change (mem (buf_init _ _ _)) with (fc_pkt fc) in S1. cbn [set_p set_mem mem p].
  rewrite Hp, store_bytes_front in S1 by (by rewrite !le_bytes_length).
  assert (Hm1 : m1 = (le_bytes 4 size ++ le_bytes 1 id ++ le_bytes 2 tag) ++ le_bytes 4 m ++ data)
    by (rewrite <- !app_assoc; congruence).
  destruct (put_int32_at (Z.of_nat k) (buf_init m1 7 (size - 7))) as (m2 & S2 & E2).
  { split; [done|]. cbn [ep buf_init mem]. rewrite int32_small by lia. rewrite Hm1.
    autorewrite with zlen. unfold zlength. lia. }
  { cbn. rewrite int32_small by lia. lia. }
  rewrite E2. cbn [res_bind]. change (p (buf_init _ 7 _)) with 7 in *.
  change (mem (buf_init m1 7 (size - 7))) with m1 in S2.
  rewrite Hm1, store_bytes_at in S2 by (autorewrite with zlen; done || by rewrite !le_bytes_length).
  assert (Hm2 : m2 = (le_bytes 4 size ++ le_bytes 1 id ++ le_bytes 2 tag) ++
    le_bytes 4 (Z.of_nat k) ++ data) by congruence.
  eexists. split; [done|]. cbn [fc_size fc_type fc_tag fc_u fc_pkt].
  rewrite !u32_small by lia. repeat (split; [done|]). unfold sent, data_message.
  cbn [fc_size fc_pkt set_p set_mem mem].
  assert (Hz : zlength (take k data) = Z.of_nat k) by (unfold zlength; rewrite length_take; lia).
  rewrite Hz, Hm2. fold size. rewrite <- !app_assoc.
  rewrite !(take_app_ge), !le_bytes_length by (rewrite ?le_bytes_length; subst size; lia).
  do 4 f_equal. f_equal. subst size. lia.
Qed.

(** A reply with a data area that is still to be filled. *)
Definition open_reply (id n : Z) (k : Z -> option Z -> Npfcall_u) : res (option Npfcall) :=
  np_create (int32 (4 + n)) id (
    let* count' := buf_put_int32 n in
    let* data' := buf_alloc n in
    ret (k count' data')).

Lemma open_reply_run id n k : 0 <= n < 2 ^ 31 - 11 ->
  malloc (sizeof_Npfcall + (11 + n)) <> None ->
  exists junk, zlength junk = n /\ open_reply id n k = Ret (Some {|
    fc_size := 11 + n; fc_type := u8 id; fc_tag := NOTAG;
    fc_pkt := le_bytes 4 (11 + n) ++ le_bytes 1 id ++ le_bytes 2 NOTAG ++ le_bytes 4 n ++ junk;
    fc_u := k n (Some 11) |}).
Proof.
  intros Hn Hm. unfold open_reply, np_create, np_create_common. change (4 + 1 + 2) with 7.
  rewrite int32_small, (u32_small (4 + n)), u32_small by lia.
  replace (4 + n + 7) with (11 + n) by lia.
  destruct (malloc _) as [blk|] eqn:E; [|done]. apply pkt_block in E; [|lia].
  set (pkt := drop _ blk) in *. cbv zeta. set (b0 := buf_init pkt 0 (11 + n)).
  assert (He : ep b0 = 11 + n) by (cbn; rewrite int32_small; lia).
  assert (Hw : wf_cbuf b0) by (split; [cbn; lia|rewrite He; cbn; lia]).
  destruct (put_header_emits (11 + n) id b0 Hw) as (h & b1 & E1 & S1 & P1 & _ & Q1).
  { rewrite He. change (0 + 7 <= 11 + n). lia. }
  change (p b0 + zlength _) with 7 in P1. change (mem b0) with pkt in S1.
  change (p b0) with 0 in S1. pose proof (store_bytes_length _ _ _ _ S1) as Hl.
  assert (Hw1 : wf_cbuf b1) by (split; [lia|unfold zlength in *; lia]).
  rewrite E1. cbn [res_bind].
  rewrite (put_header_val _ _ _ _ _ Hw ltac:(rewrite He; change (0 + 7 <= 11 + n); lia) E1).
  destruct (put_int32_at n b1 Hw1) as (m2 & S2 & E2); [lia|].
  unfold bind at 1. rewrite E2. cbn [res_bind]. unfold bind. rewrite alloc_run by lia.
  cbn [p ep set_p set_mem]. rewrite (proj2 (Z.leb_le _ _)) by lia. cbn [res_bind ret].
  unfold np_post_check, buf_check_overflow. cbn [p ep set_p set_mem].
  rewrite (proj2 (Z.ltb_ge _ _)) by lia.
  exists (drop 11 pkt). split; [unfold zlength in *; rewrite length_drop; lia|].
  unfold mk_fcall. cbn [hd_size hd_type hd_tag mem set_p set_mem].
  rewrite !u32_small, P1 by lia. do 3 f_equal.
  rewrite P1 in S2. pose proof (store_bytes_app pkt 0 _ _ _ _ S1 S2) as S3.
  apply store_bytes_Ret in S3 as (_ & _ & ->). unfold header_bytes.
  rewrite <- !app_assoc. done.
Qed.

(** Allocating, filling and cutting a reply. *)
Lemma open_reply_cut id n k data : 0 <= n < 2 ^ 31 - 11 ->
  malloc (sizeof_Npfcall + (11 + n)) <> None -> zlength data <= n ->
  (forall c d, u_data (k c d) = Some (c, d)) ->
  exists fc fc1, open_reply id n k = Ret (Some fc) /\ fc_u fc = k n (Some 11) /\
    fill_data fc data = Ret fc1 /\ fc_u fc1 = fc_u fc /\
    forall u, exists fc', shrink fc1 (zlength data) u = Ret fc' /\
      fc_u fc' = u (zlength data) /\ fc_size fc' = 11 + zlength data /\
      fc_type fc' = u8 id /\ sent fc' = data_message id NOTAG data /\ fc_tag fc' = NOTAG.
Proof.
  intros Hn Hm Hd Hk. destruct (open_reply_run id n k Hn Hm) as (junk & Hj & E).
  eexists _, _. split; [exact E|]. split; [done|]. unfold fill_data. cbn [fc_u fc_pkt].
  rewrite Hk. unfold zlength in *.
  assert (Hh : le_bytes 4 (11 + n) ++ le_bytes 1 id ++ le_bytes 2 NOTAG ++
    le_bytes 4 n ++ junk = (le_bytes 4 (11 + n) ++ le_bytes 1 id ++ le_bytes 2 NOTAG ++
    le_bytes 4 n) ++ take (length data) junk ++ drop (length data) junk)
    by (rewrite take_drop, <- !app_assoc; done).
  rewrite Hh at 1. rewrite store_bytes_at; [|done|rewrite length_take; lia].
  cbn [res_bind fc_size fc_type fc_tag fc_u].
  split; [reflexivity|]. split; [reflexivity|]. intros u. rewrite <- !app_assoc.
  set (fc1 := {| fc_size := _; fc_pkt := _; fc_u := _ |}).
  destruct (shrink_run fc1 (11 + n) n u id NOTAG (data ++ drop (length data) junk) (length data))
    as (fc' & Es & Hsz & Hty & Htag & Hu & Hs); [done| |rewrite length_app; lia|].
  { unfold zlength. rewrite length_app, length_drop. lia. }
  exists fc'. rewrite take_app_length in Hs. unfold zlength. done.
Qed.

(** ** The tag of a reply *)

Lemma bind_Ret3 {A B C D} (c : M A) (f : A -> M B) (g : A -> B -> M C) (k : A -> B -> C -> D)
    b v b' :
  (let* x := c in let* y := f x in let* z := g x y in ret (k x y z)) b = Ret (v, b') ->
  exists x y z b1 b2, c b = Ret (x, b1) /\ f x b1 = Ret (y, b2) /\ g x y b2 = Ret (z, b') /\
    v = k x y z.
Proof.
  intros E. apply bind_Ret in E as (x & b1 & E1 & E). apply bind_Ret in E as (y & b2 & E2 & E).
  apply bind_Ret in E as (z & b3 & E3 & E). unfold ret in E. simpl_res. eauto 12.
Qed.

(** The state after each part of a message that was built without overflow. *)
Lemma np_create_parts size id body fc :
  Codec (got body) (get_body (u8 id)) ->
  np_create size id body = Ret (Some fc) ->
  exists b0 b1 b2 b3 b4,
    p b0 = 0 /\ p b1 = 4 /\ p b2 = 5 /\ p b3 = 7 /\ p b4 <= fc_size fc /\
    mem b4 = fc_pkt fc /\ 0 <= fc_size fc < 2 ^ 31 /\ fc_size fc <= zlength (fc_pkt fc) /\
    fc_type fc = u8 id /\ wf_cbuf b2 /\ 7 <= ep b2 /\
    read_back buf_get_int32 b0 (fc_size fc) b1 /\ read_back buf_get_int8 b1 (fc_type fc) b2 /\
    read_back buf_get_int16 b2 (fc_tag fc) b3 /\
    read_back (get_body (u8 id)) b3 (Some (fc_u fc)) b4.
Proof.
  intros Hc E. apply np_create_inv in E as
    (b0 & b1 & b4 & h & P0 & W0 & E1 & E2 & He0 & Hok & Hfc).
  pose proof (u32_range (u32 size + 7)) as Hr. set (sz := u32 (u32 size + 7)) in *.
  apply bind_Ret3 in E2 as (t & g & u & b2 & b3 & E2 & E3 & E4 & [= <- <- <-]).
  destruct (writes_run _ _ (put_int32_writes sz) b0 W0)
    as (? & ? & F1 & (_ & He1 & Hl1) & W1 & Hin1 & Hout1). rewrite E1 in F1. simpl_res.
  destruct (writes_run _ _ (put_int8_writes id) _ W1)
    as (? & ? & F2 & (_ & He2 & Hl2) & W2 & Hin2 & Hout2). rewrite E2 in F2. simpl_res.
  destruct (writes_run _ _ (put_int16_writes NOTAG) _ W2)
    as (? & ? & F3 & (_ & He3 & Hl3) & W3 & Hin3 & Hout3). rewrite E3 in F3. simpl_res.
  rename x0 into b1, x1 into b2, x2 into b3.
  assert (Hok3 : p b3 <= ep b3).
  { destruct (Z.le_gt_cases (p b3) (ep b3)); [done|].
    apply (codec_sticky _ _ Hc) in E4; [lia|by destruct W3|lia]. }
  assert (Q3 : p b0 + 7 <= ep b0) by lia.
  pose proof (codec_read_back _ _ (put_int32_codec sz) b0 _ _ ltac:(lia) E1 ltac:(lia)) as R1.
  pose proof (codec_read_back _ _ (put_int8_codec id) b1 _ _ ltac:(lia) E2 ltac:(lia)) as R2.
  pose proof (codec_read_back _ _ (put_int16_codec NOTAG) b2 _ _ ltac:(lia) E3 ltac:(lia)) as R3.
  pose proof (codec_read_back _ _ Hc b3 _ _ ltac:(lia) E4 ltac:(lia)) as R4.
  pose proof R4 as [(_ & He4 & Hl4) _ _ _].
  assert (Hsz : int32 sz = sz).
  { destruct (Z.lt_ge_cases sz (2 ^ 31)); [apply int32_small; lia|].
    rewrite int32_wrap in He0 by lia. lia. }
  pose proof (int32_range sz). assert (Hv : hd_size h = sz).
  { rewrite (put_int32_val _ _ _ _ E1) by lia. apply u32_small. lia. }
  exists b0, b1, b2, b3, b4. rewrite Hfc in *. unfold mk_fcall in *. cbn in *.
  rewrite Hv in *. destruct W0. unfold zlength in *.
  repeat (split; [first [done|lia]|]).
  split; [by apply (put_int8_val _ _ _ _ E2); lia|].
  repeat (split; [first [done|lia]|]). done.
Qed.
(** Reading a 16-bit field that was stored by other means. *)
Lemma get_int16_stored tag b m m' s e : wf_cbuf b -> p b + 2 <= ep b -> p b + 2 <= e ->
  store_bytes m (p b) (le_bytes 2 tag) = Ret m' ->
  buf_get_int16 (view m' s e b) = Ret (u16 tag, set_p (p b + 2) (view m' s e b)).
Proof.
  intros Hw Hfit He Hst.
  destruct (put_int16_emits tag b Hw) as (v & b' & E & Hs & Hp & _ & Hep).
  { rewrite zlength_le_bytes. lia. }
  rewrite zlength_le_bytes in Hp. pose proof Hw as [Hp0 _].
  pose proof (codec_read_back _ _ (put_int16_codec tag) b _ _ Hp0 E ltac:(lia)) as [_ _ _ G].
  rewrite (put_int16_val _ _ _ _ E) in G by lia.
  pose proof (store_bytes_length _ _ _ _ Hst) as Hl. apply store_bytes_Ret in Hst as F.
  destruct F as (_ & F & _). rewrite zlength_le_bytes in F.
  rewrite G; [|lia|unfold zlength in *; lia|].
  - unfold view, set_p. cbn. rewrite Hp. done.
  - intros i Hi. set (j := (i - Z.to_nat (p b))%nat).
    replace i with (Z.to_nat (p b) + j)%nat by lia.
    rewrite (store_bytes_lookup_in _ _ _ _ _ Hst), (store_bytes_lookup_in _ _ _ _ _ Hs);
      rewrite ?le_bytes_length; done || lia.
Qed.

(** A store into a buffer is a store into a longer one. *)
Lemma store_bytes_junk m a bs m' junk : store_bytes m a bs = Ret m' ->
  store_bytes (m ++ junk) a bs = Ret (m' ++ junk) /\ zlength m <= zlength (m' ++ junk).
Proof.
  intros E. pose proof (store_bytes_length _ _ _ _ E) as Hl. pose proof (zlength_nonneg junk).
  split; [|rewrite zlength_app; unfold zlength in *; lia].
  apply store_bytes_Ret in E as (? & ? & ->). rewrite store_bytes_ok by (rewrite ?zlength_app; lia).
  unfold zlength in *. rewrite take_app_le, drop_app_le, <- !app_assoc by lia. done.
Qed.

Lemma np_create_tagged size id body fc tag :
  Codec (got body) (get_body (u8 id)) ->
  np_create size id body = Ret (Some fc) ->
  exists fc', np_set_tag fc tag = Ret fc' /\ fc_tag fc' = u16 tag /\ fc_u fc' = fc_u fc /\
    fc_size fc' = fc_size fc /\ fc_type fc' = fc_type fc /\
    length (fc_pkt fc') = length (fc_pkt fc) /\
    forall fc0 junk, fc_pkt fc0 = fc_pkt fc' ++ junk ->
      np_deserialize fc0 = Ret (fc_size fc', set_pkt (fc_pkt fc0) fc').
Proof.
  intros Hc E. destruct (np_create_parts _ _ _ _ Hc E) as (b0 & b1 & b2 & b3 & b4 &
    P0 & P1 & P2 & P3 & P4 & Hm & Hsz & Hle & Hty & W2 & He2 & R1 & R2 & R3 & R4).
  destruct R1 as [_ _ _ G1], R2 as [_ _ O2 G2], R3 as [_ _ O3 _], R4 as [_ [? ?] O4 G4].
  unfold np_set_tag. rewrite le_bytes_2. change (u16 tag) with (tag mod 2 ^ (8 * Z.of_nat 2)).
  rewrite (le_bytes_mod 2 2) by lia. change (tag mod _) with (u16 tag).
  destruct (store_bytes (fc_pkt fc) 5 (le_bytes 2 tag)) as [m| |] eqn:Est.
  2,3: rewrite store_bytes_ok in Est by (rewrite ?zlength_le_bytes; lia); discriminate Est.
  cbn [res_bind]. eexists. split; [done|]. repeat (split; [done|]). cbn [fc_pkt fc_size].
  pose proof (store_bytes_length _ _ _ _ Est) as Hl. split; [done|]. intros fc0 junk Hpkt.
  rewrite np_deserialize_eq, Hpkt. unfold set_pkt. cbn [fc_pkt fc_u fc_type fc_tag fc_size].
  destruct (store_bytes_junk _ _ _ _ junk Est) as [Est' Hz]. clear Hpkt.
  set (m' := m ++ junk) in *. assert (zlength (fc_pkt fc) <= zlength m') by done. clear Hz Est.
  rename Est' into Est. clearbody m'. clear Hl m. rename m' into m.
  assert (Hout : forall i : nat, Z.of_nat i < zlength (fc_pkt fc) ->
    Z.of_nat i < 5 \/ 7 <= Z.of_nat i -> m !! i = fc_pkt fc !! i).
  { intros i Hlt Hi. rewrite (store_bytes_lookup_out _ _ _ _ _ Est) by (rewrite zlength_le_bytes; lia).
    apply lookup_app_l. unfold zlength in Hlt. lia. }
  replace (buf_init m 0 4) with (view m 0 4 b0) by (unfold view; rewrite P0; done).
  rewrite G1; [|lia|lia|intros i Hi; rewrite Hout, <- Hm, O4, O3, O2 by lia; done].
  cbn [res_bind].
  replace (buf_init m 4 (u32 (fc_size fc - 4))) with (view m 4 (fc_size fc) b1).
  2:{ unfold view, buf_init. rewrite P1, u32_small, int32_small by lia. f_equal. lia. }
  unfold get_rest, bind.
  rewrite G2; [|lia|lia|intros i Hi; rewrite Hout, <- Hm, O4, O3 by lia; done]. cbn [res_bind].
  rewrite <- P2 in Est. rewrite (get_int16_stored tag b2 _ m _ _ W2) with (3 := Est) by lia.
  cbn [res_bind]. replace (set_p (p b2 + 2) (view m 4 (fc_size fc) b2))
    with (view m 4 (fc_size fc) b3) by (unfold view, set_p; cbn; f_equal; lia).
  rewrite Hty, G4; [|lia|lia|intros i Hi; rewrite Hout, <- Hm by lia; done].
  cbn [res_bind ret fst snd]. unfold buf_check_overflow, view. cbn [p ep].
  rewrite (proj2 (Z.ltb_ge _ _)), int32_small by lia. done.
Qed.

(** Tags.  After [np_set_tag] the bytes of a built message still parse to
    the same message, with the tag that was set. *)
Theorem np_set_tag_deserialize c fc tag :
  call_ok c -> run_create c = Ret (Some fc) ->
  exists fc', np_set_tag fc tag = Ret fc' /\ fc_tag fc' = u16 tag /\ fc_u fc' = fc_u fc /\
    forall fc0 junk, fc_pkt fc0 = fc_pkt fc' ++ junk ->
      np_deserialize fc0 = Ret (fc_size fc', set_pkt (fc_pkt fc0) fc').
Proof.
  intros Hc E. destruct (run_create_built c Hc) as (body & Eb & _ & Hcd & _).
  rewrite Eb in E. destruct (np_create_tagged _ _ _ _ tag Hcd E) as
    (fc' & ? & ? & ? & ? & ? & ? & ?). eauto 10.
Qed.

Lemma data_message_rread data : data_message Rread NOTAG data = wire_message (C_rread data).
Proof.
  unfold wire_message, data_message, wire_body.
  cbn [wire_fields flat_map field_bytes wire_type]. rewrite app_nil_r, zlength_app.
  rewrite zlength_le_bytes. do 2 f_equal. lia.
Qed.

Lemma rread_run count data :
  0 <= count < 2 ^ 31 - 11 -> zlength data <= count ->
  malloc (sizeof_Npfcall + (11 + count)) <> None ->
  exists fc fc1 fc', np_alloc_rread count = Ret (Some fc) /\
    fill_data fc data = Ret fc1 /\ np_set_rread_count fc1 (zlength data) = Ret fc' /\
    fc_type fc' = Rread /\
    fc_u fc' = U_rread {| rread_count := zlength data; rread_data := Some 11 |} /\
    sent fc' = wire_message (C_rread data).
Proof.
  intros Hn Hd Hm. pose proof (zlength_nonneg data).
  destruct (open_reply_cut Rread count
    (fun c d => U_rread {| rread_count := c; rread_data := d |}) data Hn Hm Hd)
    as (fc & fc1 & E & Hu & Ef & Hu1 & Hcut); [done|].
  destruct (Hcut (fun c => U_rread {| rread_count := c; rread_data := Some 11 |}))
    as (fc' & Es & Hu' & _ & Hty & Hs & _).
  exists fc, fc1, fc'. unfold np_alloc_rread. cbv zeta. rewrite u32_small by lia.
  split; [exact E|]. split; [done|]. split; [|split; [done|split; [done|]]].
  - unfold np_set_rread_count. cbv zeta. rewrite u32_small, Hu1, Hu by lia.
    cbn [rread_count rread_data]. rewrite (proj2 (Z.leb_le _ _)) by lia. exact Es.
  - rewrite Hs. apply data_message_rread.
Qed.

(** Reads.  A read reply is allocated for the requested count, filled with
    the bytes the file system produced and cut to them; what is sent is
    exactly the Rread message of protocol.md with these bytes, however many
    were requested and whatever the allocator left in the block. *)
Theorem np_rread_sent count data :
  0 <= count < 2 ^ 31 - 11 -> zlength data <= count ->
  malloc (sizeof_Npfcall + (11 + count)) <> None ->
  exists fc fc1 fc', np_alloc_rread count = Ret (Some fc) /\
    fill_data fc data = Ret fc1 /\ np_set_rread_count fc1 (zlength data) = Ret fc' /\
    sent fc' = wire_message (C_rread data).
Proof.
  intros Hn Hd Hm. destruct (rread_run count data Hn Hd Hm) as (fc & fc1 & fc' & ? & ? & ? & _ & _ & ?).
  eauto 10.
Qed.

(** Directory reads.  The same for readdir: the reply sent has the Rreaddir
    header, the exact total size and count, and the entries written. *)
Theorem np_rreaddir_sent count data :
  0 <= count < 2 ^ 31 - 11 -> zlength data <= count ->
  malloc (sizeof_Npfcall + (11 + count)) <> None ->
  exists fc fc1 fc', np_create_rreaddir count = Ret (Some fc) /\
    fill_data fc data = Ret fc1 /\ np_finalize_rreaddir fc1 (zlength data) = Ret fc' /\
    fc_size fc' = 11 + zlength data /\ sent fc' = data_message Rreaddir NOTAG data.
Proof.
  intros Hn Hd Hm. pose proof (zlength_nonneg data).
  destruct (open_reply_cut Rreaddir count
    (fun c d => U_rreaddir {| rreaddir_count := c; rreaddir_data := d |}) data Hn Hm Hd)
    as (fc & fc1 & E & Hu & Ef & Hu1 & Hcut); [done|].
  destruct (Hcut (fun c => U_rreaddir {| rreaddir_count := c; rreaddir_data := Some 11 |}))
    as (fc' & Es & _ & Hsz & _ & Hs & _).
  exists fc, fc1, fc'. unfold np_create_rreaddir. cbv zeta. rewrite u32_small by lia.
  split; [exact E|]. split; [done|]. split; [|done].
  unfold np_finalize_rreaddir. cbv zeta. rewrite u32_small, Hu1, Hu by lia.
  cbn [rreaddir_count rreaddir_data]. rewrite (proj2 (Z.leb_le _ _)) by lia. exact Es.
Qed.

(** *** Static replies *)

Lemma static_header size id buf buflen : 0 <= size < 2 ^ 31 - 7 - 288 ->
  zlength buf = buflen -> buflen = sizeof_Npfcall + 7 + size ->
  exists b, np_create_common_static size id buf buflen =
    Ret ({| hd_size := 7 + size; hd_type := u8 id; hd_tag := NOTAG |}, b) /\
    wf_cbuf b /\ p b = 7 /\ ep b = 7 + size /\
    take 7 (mem b) = header_bytes (7 + size) id /\ zlength (mem b) = 7 + size.
Proof.
  intros Hs Hb Hl. unfold np_create_common_static. change (4 + 1 + 2) with 7.
  rewrite (u32_small size), (u32_small (size + 7)), (Z.add_comm size) by lia.
  unfold sizeof_Npfcall in *. rewrite int32_small, u64_small by lia.
  rewrite (proj2 (Z.leb_le _ _)) by lia. cbn [res_bind np_assert].
  set (pkt := drop _ buf). set (b0 := buf_init pkt 0 (7 + size)).
  assert (Hpk : zlength pkt = 7 + size).
  { subst pkt. unfold zlength in *. rewrite length_drop. lia. }
  assert (He : ep b0 = 7 + size) by (cbn; rewrite int32_small; lia).
  assert (Hw : wf_cbuf b0) by (split; [cbn; lia|rewrite He; cbn; lia]).
  destruct (put_header_emits (7 + size) id b0 Hw) as (h & b1 & E1 & S1 & P1 & _ & Q1).
  { change (zlength (header_bytes _ _)) with 7. change (p b0) with 0. lia. }
  exists b1. rewrite E1.
  rewrite (put_header_val _ _ _ _ _ Hw ltac:(change (p b0) with 0; lia) E1), u32_small by lia.
  split; [done|]. change (mem b0) with pkt in S1. change (p b0) with 0 in *.
  pose proof (store_bytes_length _ _ _ _ S1) as Hlen.
  change (0 + zlength _) with 7 in P1. unfold zlength in *.
  split; [split; unfold zlength; lia|]. repeat (split; [lia|]). split; [|lia].
  apply store_bytes_Ret in S1 as (_ & _ & ->). done.
Qed.

Lemma rflush_static_run buf : zlength buf = sizeof_Npfcall + 7 ->
  exists fc, np_create_rflush_static buf (sizeof_Npfcall + 7) = Ret (Some fc) /\
    fc_pkt fc = wire_message C_rflush /\ fc_size fc = 7 /\ fc_type fc = Rflush /\ fc_tag fc = NOTAG /\ fc_u fc = U_none.
Proof.
  intros Hb.
  destruct (static_header 0 Rflush buf _ ltac:(lia) Hb) as (b & E & _ & P & Q & Ht & Hl); [lia|].
  unfold np_create_rflush_static. rewrite E. cbn [res_bind].
  unfold buf_check_overflow. rewrite P, Q. cbn. eexists. split; [done|]. cbn.
  rewrite take_ge in Ht by (unfold zlength in Hl; lia). by rewrite Ht.
Qed.

Lemma rlerror_static_run ecode buf : zlength buf = sizeof_Npfcall + 11 ->
  exists fc, np_create_rlerror_static ecode buf (sizeof_Npfcall + 11) = Ret (Some fc) /\
    fc_pkt fc = wire_message (C_rlerror ecode) /\
    fc_u fc = U_rlerror {| rlerror_ecode := u32 ecode |} /\
    fc_size fc = 11 /\ fc_type fc = Rlerror /\ fc_tag fc = NOTAG.
Proof.
  intros Hb.
  destruct (static_header 4 Rlerror buf _ ltac:(lia) Hb) as (b & E & W & P & Q & Ht & Hl); [lia|].
  unfold np_create_rlerror_static. rewrite E. cbn [res_bind].
  destruct (put_int32_at ecode b W) as (m & S & ->); [lia|]. cbn [res_bind].
  unfold buf_check_overflow. cbn [p ep set_p set_mem]. rewrite P, Q.
  change (7 + 4 <? 7 + 4) with false. cbv iota. eexists. split; [done|].
  cbn [fc_pkt fc_u fc_size fc_type fc_tag mk_fcall hd_size hd_type hd_tag mem set_p set_mem]. split; [|done].
  rewrite P in S. apply store_bytes_Ret in S as (_ & _ & ->).
  change (Z.to_nat 7) with 7%nat. rewrite Ht. rewrite drop_ge; [|unfold zlength in Hl; rewrite le_bytes_length; lia].
  rewrite app_nil_r. unfold header_bytes, wire_message, wire_body. cbn [wire_fields flat_map field_bytes wire_type].
  rewrite app_nil_r, <- !app_assoc. done.
Qed.

(** Out of memory.  The replies a worker builds on its stack when [malloc]
    fails need no heap: with the buffer sizes of npfs.h they are always
    produced, never abort, and are the Rflush and Rlerror messages of
    protocol.md for every error code. *)
Theorem static_replies_total ecode buf :
  (zlength buf = sizeof_Npfcall + 7 ->
   exists fc, np_create_rflush_static buf (sizeof_Npfcall + 7) = Ret (Some fc) /\
     fc_pkt fc = wire_message C_rflush) /\
  (zlength buf = sizeof_Npfcall + 11 ->
   exists fc, np_create_rlerror_static ecode buf (sizeof_Npfcall + 11) = Ret (Some fc) /\
     fc_pkt fc = wire_message (C_rlerror ecode) /\
     fc_u fc = U_rlerror {| rlerror_ecode := u32 ecode |}).
Proof.
  split; intros Hb.
  - destruct (rflush_static_run buf Hb) as (fc & ? & ? & _). eauto.
  - destruct (rlerror_static_run ecode buf Hb) as (fc & ? & ? & ? & _). eauto.
Qed.
End Replies.

(** ** Witnesses *)

Lemma np_set_tag_deserialize_witness :
  exists fc fc', @run_create big_heap walk_call = Ret (Some fc) /\
    np_set_tag fc 77 = Ret fc' /\ fc_tag fc' = 77 /\
    np_deserialize (blank_fcall (fc_pkt fc' ++ [9])) =
    Ret (fc_size fc', set_pkt (fc_pkt fc' ++ [9]) fc').
Proof.
  destruct (@run_create big_heap walk_call) as [[fc|]| |] eqn:E;
    [|vm_compute in E; discriminate E..].
  destruct (@np_set_tag_deserialize big_heap walk_call fc 77 walk_call_ok E)
    as (fc' & E' & T & _ & D).
  exists fc, fc'. split; [reflexivity|]. split; [exact E'|]. split; [exact T|].
  apply (D (blank_fcall (fc_pkt fc' ++ [9])) [9]). reflexivity.
Defined.

Lemma np_rread_sent_witness :
  exists fc fc1 fc', @np_alloc_rread big_heap 100 = Ret (Some fc) /\
    fill_data fc [1; 2; 3] = Ret fc1 /\ @np_set_rread_count big_heap fc1 3 = Ret fc' /\
    sent fc' = wire_message (C_rread [1; 2; 3]).
Proof.
  apply (@np_rread_sent big_heap 100 [1; 2; 3]).
  - lia.
  - vm_compute. congruence.
  - discriminate.
Defined.

Lemma np_rreaddir_sent_witness :
  exists fc fc1 fc', @np_create_rreaddir big_heap 100 = Ret (Some fc) /\
    fill_data fc [1; 2; 3] = Ret fc1 /\ @np_finalize_rreaddir big_heap fc1 3 = Ret fc' /\
    fc_size fc' = 14 /\ sent fc' = data_message Rreaddir NOTAG [1; 2; 3].
Proof.
  apply (@np_rreaddir_sent big_heap 100 [1; 2; 3]).
  - lia.
  - vm_compute. congruence.
  - discriminate.
Defined.

Lemma static_replies_total_witness :
  exists fc, @np_create_rlerror_static big_heap 5 (replicate 299 0) (sizeof_Npfcall + 11)
    = Ret (Some fc) /\ fc_pkt fc = wire_message (C_rlerror 5) /\
      fc_u fc = U_rlerror {| rlerror_ecode := u32 5 |}.
Proof. apply (@static_replies_total big_heap 5 (replicate 299 0)). vm_compute. reflexivity. Defined.
