(* ===== verification/Built.v ===== *)
(** * Every message builder (libnpfs/np.c)

    The builders of np.c as the server and the client use them: the calls of
    Wire.v, a read or readdir reply that is allocated at the requested count,
    filled and cut to size, and the replies that are built in a buffer of the
    caller when there is no memory.  What each sends is the layout of protocol.md,
    and [np_deserialize] reads it back. *)
From S2P Require Import Prelude Cbuf Protocol Create Deserialize Wire Builders Codec Safety CodecSpec Replies.

(** A message with its builder. *)
Inductive np_built :=
| B_call (c : np_call)
| B_rread (count : Z) (data : list Z)
| B_rreaddir (count : Z) (data : list Z)
| B_rflush_static (buf : list Z)
| B_rlerror_static (ecode : Z) (buf : list Z).

Section Build.
Context `{CHeap}.

(** Allocating a reply, filling it and setting its count. *)
Definition fill_reply (alloc : res (option Npfcall)) (data : list Z) (set : Npfcall -> Z -> res Npfcall)
  : res (option Npfcall) :=
  let! o := alloc in
  match o with
  | None => Ret None
  | Some fc =>
      let! fc := fill_data fc data in
      let! fc := set fc (zlength data) in
      Ret (Some fc)
  end.

Definition build (m : np_built) : res (option Npfcall) :=
  match m with
  | B_call c => run_create c
  | B_rread count data => fill_reply (np_alloc_rread count) data np_set_rread_count
  | B_rreaddir count data => fill_reply (np_create_rreaddir count) data np_finalize_rreaddir
  | B_rflush_static buf => np_create_rflush_static buf (zlength buf)
  | B_rlerror_static ecode buf => np_create_rlerror_static ecode buf (zlength buf)
  end.

(** The block that is allocated, if one is. *)
Definition block_size (m : np_built) : option Z :=
  match m with
  | B_call c => Some (sizeof_Npfcall + (7 + zlength (wire_body c)))
  | B_rread count _ | B_rreaddir count _ => Some (sizeof_Npfcall + (11 + count))
  | B_rflush_static _ | B_rlerror_static _ _ => None
  end.

Definition has_memory (m : np_built) : bool :=
  match block_size m with Some n => bool_decide (is_Some (malloc n)) | None => true end.
End Build.

(** The layout: type and fields. *)
Definition built_type (m : np_built) : Z :=
  match m with
  | B_call c => wire_type c
  | B_rread _ _ => Rread
  | B_rreaddir _ _ => Rreaddir
  | B_rflush_static _ => Rflush
  | B_rlerror_static _ _ => Rlerror
  end.

Definition built_fields (m : np_built) : list field :=
  match m with
  | B_call c => wire_fields c
  | B_rread _ data | B_rreaddir _ data => [F4 (zlength data); Fdata data]
  | B_rflush_static _ => []
  | B_rlerror_static ecode _ => [F4 ecode]
  end.

Definition built_message (m : np_built) : list Z :=
  let body := flat_map field_bytes (built_fields m) in
  le_bytes 4 (7 + zlength body) ++ le_bytes 1 (built_type m) ++ le_bytes 2 NOTAG ++ body.

(** What the caller has to ensure: strings of less than 64 KiB, walks of at most 16
    elements, messages of less than 2 GiB; no more data than was asked for; buffers
    of the sizes that npfs.h gives for them. *)
Definition built_ok (m : np_built) : Prop :=
  match m with
  | B_call c => call_ok c
  | B_rread count data | B_rreaddir count data => 0 <= count < 2 ^ 31 - 11 /\ zlength data <= count
  | B_rflush_static buf => zlength buf = sizeof_Npfcall + 7
  | B_rlerror_static _ buf => zlength buf = sizeof_Npfcall + 11
  end.

Definition data_kind (id : Z) : Z -> option Z -> Npfcall_u :=
  fun c d => if id =? Rread then U_rread {| rread_count := c; rread_data := d |}
             else U_rreaddir {| rreaddir_count := c; rreaddir_data := d |}.

Section Spec.
Context `{CHeap}.

(** ** Data blocks *)

(** A body that writes a count and a block. *)
Definition block_body (k : Z -> option Z -> Npfcall_u) (data : list Z) : M Npfcall_u :=
  let* n := buf_put_int32 (zlength data) in
  let* d := alloc_fill_opt data in
  ret (k n d).

Lemma block_body_run id k data : (forall c d, u_data (k c d) = Some (c, d)) -> zlength data < 2 ^ 31 - 11 ->
  malloc (sizeof_Npfcall + (11 + zlength data)) <> None ->
  np_create (4 + zlength data) id (block_body k data) = Ret (Some {|
    fc_size := 11 + zlength data; fc_type := u8 id; fc_tag := NOTAG;
    fc_pkt := data_message id NOTAG data; fc_u := k (zlength data) (Some 11) |}).
Proof.
  intros Hk Hd Hm. pose proof (zlength_nonneg data).
  destruct (open_reply_run id (zlength data) k ltac:(lia) Hm) as (junk & Hj & E). unfold open_reply in E.
  remember (le_bytes 4 (11 + zlength data) ++ _) as pk eqn:Hpk in E.
  rewrite int32_small in E by lia. unfold np_create in *.
  destruct (np_create_common _ _) as [[[h b]|]| |]; cbn [res_bind] in *; try done.
  unfold block_body, alloc_fill_opt, bind in *. destruct (buf_put_int32 _ b) as [[n b1]| |]; cbn [res_bind] in *; try done.
  destruct (buf_alloc _ b1) as [[d b2]| |]; cbn [res_bind ret] in *; try done.
  unfold np_post_check in *. destruct (buf_check_overflow b2) eqn:Ho; [done|].
  unfold mk_fcall in *. injection E as E1 E2 E3 E4 E5.
  pose proof (f_equal u_data E5) as Eu. rewrite !Hk in Eu. injection Eu as -> ->.
  assert (Hh : le_bytes 4 (11 + zlength data) ++ le_bytes 1 id ++ le_bytes 2 NOTAG ++ le_bytes 4 (zlength data) ++ junk
    = (le_bytes 4 (11 + zlength data) ++ le_bytes 1 id ++ le_bytes 2 NOTAG ++ le_bytes 4 (zlength data)) ++ junk ++ [])
    by (rewrite app_nil_r, <- !app_assoc; done).
  unfold buf_memmove. rewrite E4, Hpk, Hh, store_bytes_at by (done || (unfold zlength in *; lia)). cbn [res_bind ret].
  unfold buf_check_overflow in *. cbn [p ep set_mem]. rewrite Ho, E1, E2, E3. cbn [mem set_mem].
  rewrite app_nil_r, <- !app_assoc. done.
Qed.

Lemma data_kind_data id c d : u_data (data_kind id c d) = Some (c, d).
Proof. unfold data_kind. by destruct (id =? Rread). Qed.

Lemma block_body_codec id data : id = Rread \/ id = Rreaddir -> zlength data < 2 ^ 31 ->
  Codec (got (block_body (data_kind id) data)) (get_body (u8 id)).
Proof.
  intros Hid Hd. pose proof (zlength_nonneg data). destruct Hid as [-> | ->].
  - pick_case. unfold got, get_rread. apply codec_bind; [|intros; apply codec_ret].
    apply (data_codec _ _ (fun n d => U_rread {| rread_count := n; rread_data := d |}));
      [lia|apply put_int32_codec|].
    intros b n b1 E Hok. rewrite (put_int32_val _ _ _ _ E Hok). apply u32_small. lia.
  - pick_case. unfold got, get_rreaddir. apply codec_bind; [|intros; apply codec_ret].
    apply (data_codec _ _ (fun n d => U_rreaddir {| rreaddir_count := n; rreaddir_data := d |}));
      [lia|apply put_int32_codec|].
    intros b n b1 E Hok. rewrite (put_int32_val _ _ _ _ E Hok). apply u32_small. lia.
Qed.
End Spec.

(** Reading a data message; the heap does not matter. *)
Lemma data_message_deserialize id data fc0 junk : id = Rread \/ id = Rreaddir -> zlength data < 2 ^ 31 - 11 ->
  fc_pkt fc0 = data_message id NOTAG data ++ junk ->
  np_deserialize fc0 = Ret (11 + zlength data, {| fc_size := 11 + zlength data; fc_type := id; fc_tag := NOTAG;
    fc_pkt := fc_pkt fc0; fc_u := data_kind id (zlength data) (Some 11) |}).
Proof.
  intros Hid Hd Hp.
  pose proof (@block_body_run big_heap id (data_kind id) data (data_kind_data id) Hd ltac:(discriminate)) as E.
  pose proof (@block_body_codec big_heap id data Hid ltac:(lia)) as Hc.
  rewrite (@np_create_deserialize big_heap _ _ _ _ fc0 junk Hc E Hp). unfold set_pkt. cbn [fc_size fc_type fc_tag fc_u].
  destruct Hid as [-> | ->]; done.
Qed.

Section Properties.
Context `{CHeap}.

(** ** Memory *)

Lemma np_create_no_memory size id body : 0 <= size < 2 ^ 31 - 7 ->
  malloc (sizeof_Npfcall + (7 + size)) = None -> np_create size id body = Ret None.
Proof.
  intros Hs Hm. unfold np_create, np_create_common. change (4 + 1 + 2) with 7.
  rewrite (u32_small size), (u32_small (size + 7)), (Z.add_comm size), Hm by lia. done.
Qed.

Lemma no_block n : bool_decide (is_Some (malloc n)) = false -> malloc n = None.
Proof. intros Hb. case_bool_decide as Hn; [done|]. by apply eq_None_not_Some. Qed.

Lemma a_block n : bool_decide (is_Some (malloc n)) = true -> malloc n <> None.
Proof. intros Hb E. rewrite E in Hb. done. Qed.

Lemma build_no_memory m : built_ok m -> has_memory m = false -> build m = Ret None.
Proof.
  unfold has_memory. destruct m as [c|count data|count data|buf|ecode buf]; cbn [built_ok block_size build]; [|..|done|done].
  - intros Hc Hm%no_block. destruct (run_create_built c Hc) as (body & -> & _). destruct Hc as (_ & _ & Hsz).
    apply np_create_no_memory; [pose proof (zlength_nonneg (wire_body c)); lia|done].
  - intros [Hc _] Hm%no_block. unfold fill_reply, np_alloc_rread. cbv zeta. rewrite u32_small, int32_small by lia.
    rewrite np_create_no_memory; [done|lia|by replace (7 + (4 + count)) with (11 + count) by lia].
  - intros [Hc _] Hm%no_block. unfold fill_reply, np_create_rreaddir. cbv zeta. rewrite u32_small, int32_small by lia.
    rewrite np_create_no_memory; [done|lia|by replace (7 + (4 + count)) with (11 + count) by lia].
Qed.

(** ** What was built *)

Lemma data_message_built id data :
  data_message id NOTAG data = let body := flat_map field_bytes [F4 (zlength data); Fdata data] in
    le_bytes 4 (7 + zlength body) ++ le_bytes 1 id ++ le_bytes 2 NOTAG ++ body.
Proof.
  unfold data_message. cbn [flat_map field_bytes]. rewrite app_nil_r, zlength_app, zlength_le_bytes. do 2 f_equal. lia.
Qed.

(** The message, as it is read back from any buffer that starts with it. *)
Definition reads_back (fc : Npfcall) : Prop :=
  forall fc0 junk, fc_pkt fc0 = sent fc ++ junk -> np_deserialize fc0 = Ret (fc_size fc, set_pkt (fc_pkt fc0) fc).

(** A message that was built right. *)
Definition well_built (m : np_built) (fc : Npfcall) : Prop :=
  fc_size fc = zlength (built_message m) /\ fc_type fc = built_type m /\ fc_tag fc = NOTAG /\
  sent fc = built_message m /\ u_fields (sent fc) (fc_u fc) = map norm_field (built_fields m).

Lemma call_built c : call_ok c -> has_memory (B_call c) = true ->
  exists fc, build (B_call c) = Ret (Some fc) /\ well_built (B_call c) fc /\ reads_back fc.
Proof.
  intros Hc Hm%a_block. destruct (call_wire_format c Hc Hm) as (u & E & Hu).
  assert (Hl : zlength (wire_message c) = 7 + zlength (wire_body c)).
  { unfold wire_message. rewrite !zlength_app, !zlength_le_bytes. lia. }
  assert (Hsent : forall fc, fc_pkt fc = wire_message c -> fc_size fc = 7 + zlength (wire_body c) -> sent fc = wire_message c).
  { intros fc Hp Hs. unfold sent. rewrite Hp, Hs, <- Hl. unfold zlength. by rewrite Nat2Z.id, firstn_all. }
  eexists. split; [exact E|]. split.
  - split_and!; [exact (eq_sym Hl)|done|done|by apply Hsent|]. by rewrite Hsent.
  - intros fc0 junk Hp. rewrite Hsent in Hp by done. by apply (call_deserialize c _ _ junk Hc E).
Qed.

(** Both replies with data. *)
Lemma data_built id count data : id = Rread \/ id = Rreaddir -> 0 <= count < 2 ^ 31 - 11 -> zlength data <= count ->
  malloc (sizeof_Npfcall + (11 + count)) <> None ->
  exists fc fc1 fc', open_reply id count (data_kind id) = Ret (Some fc) /\ fill_data fc data = Ret fc1 /\
    fc_u fc1 = data_kind id count (Some 11) /\ shrink fc1 (zlength data) (fun c => data_kind id c (Some 11)) = Ret fc' /\
    fc_size fc' = zlength (data_message id NOTAG data) /\ fc_type fc' = id /\ fc_tag fc' = NOTAG /\
    sent fc' = data_message id NOTAG data /\
    u_fields (sent fc') (fc_u fc') = map norm_field [F4 (zlength data); Fdata data] /\ reads_back fc'.
Proof.
  intros Hid Hn Hd Hm. pose proof (zlength_nonneg data).
  assert (Hl : zlength (data_message id NOTAG data) = 11 + zlength data).
  { unfold data_message. rewrite !zlength_app, !zlength_le_bytes. lia. }
  destruct (open_reply_cut id count (data_kind id) data Hn Hm Hd (data_kind_data id)) as (fc & fc1 & E & Hu & Ef & Hu1 & Hcut).
  destruct (Hcut (fun c => data_kind id c (Some 11))) as (fc' & Es & Hu' & Hsz & Hty & Hs & Htag).
  assert (Htype : fc_type fc' = id) by (rewrite Hty; destruct Hid as [-> | ->]; done).
  exists fc, fc1, fc'. rewrite Hl, Hs, Hu', Hu1, Hu. split_and!; try done.
  - assert (Hf : data_field (data_message id NOTAG data) (zlength data) (Some 11) = Fdata data).
    { apply data_field_eq. intros _. rewrite load_bytes_ok by lia. unfold data_message. f_equal.
      rewrite !app_assoc, drop_app_ge by (rewrite !length_app, !le_bytes_length; cbn; lia).
      rewrite !length_app, !le_bytes_length. cbn [Nat.add Nat.sub Z.to_nat Pos.to_nat]. rewrite drop_0.
      unfold zlength. by rewrite Nat2Z.id, firstn_all. }
    unfold data_kind. cbn [map norm_field]. rewrite (u32_small (zlength data)) by lia.
    destruct (id =? Rread); cbn [u_fields rread_count rread_data rreaddir_count rreaddir_data]; by rewrite Hf.
  - intros fc0 junk Hp. rewrite Hs in Hp. rewrite (data_message_deserialize id data fc0 junk) by (done || lia).
    unfold set_pkt. by rewrite Hsz, Htype, Htag, Hu'.
Qed.

Lemma rread_built count data : built_ok (B_rread count data) -> has_memory (B_rread count data) = true ->
  exists fc, build (B_rread count data) = Ret (Some fc) /\ well_built (B_rread count data) fc /\ reads_back fc.
Proof.
  intros [Hn Hd] Hm%a_block. pose proof (zlength_nonneg data).
  destruct (data_built Rread count data ltac:(by left) Hn Hd Hm) as (fc & fc1 & fc' & E & Ef & Hu & Es & H1 & H2 & H3 & H4 & H5 & H6).
  exists fc'. split.
  - cbn [build]. unfold fill_reply, np_alloc_rread. cbv zeta. rewrite u32_small by lia.
    unfold open_reply, data_kind in E. cbn in E. rewrite E. cbn [res_bind]. rewrite Ef. cbn [res_bind].
    unfold np_set_rread_count. rewrite u32_small, Hu by lia. cbn. rewrite (proj2 (Z.leb_le _ _)) by lia. cbn [np_assert res_bind].
    unfold data_kind in Es. cbn in Es. by rewrite Es.
  - split; [|done]. unfold well_built. rewrite data_message_built in *. done.
Qed.

Lemma rreaddir_built count data : built_ok (B_rreaddir count data) -> has_memory (B_rreaddir count data) = true ->
  exists fc, build (B_rreaddir count data) = Ret (Some fc) /\ well_built (B_rreaddir count data) fc /\ reads_back fc.
Proof.
  intros [Hn Hd] Hm%a_block. pose proof (zlength_nonneg data).
  destruct (data_built Rreaddir count data ltac:(by right) Hn Hd Hm) as (fc & fc1 & fc' & E & Ef & Hu & Es & H1 & H2 & H3 & H4 & H5 & H6).
  exists fc'. split.
  - cbn [build]. unfold fill_reply, np_create_rreaddir. cbv zeta. rewrite u32_small by lia.
    unfold open_reply, data_kind in E. cbn in E. rewrite E. cbn [res_bind]. rewrite Ef. cbn [res_bind].
    unfold np_finalize_rreaddir. rewrite u32_small, Hu by lia. cbn. rewrite (proj2 (Z.leb_le _ _)) by lia. cbn [np_assert res_bind].
    unfold data_kind in Es. cbn in Es. by rewrite Es.
  - split; [|done]. unfold well_built. rewrite data_message_built in *. done.
Qed.

(** ** Replies in a buffer of the caller *)

Lemma reads_back_same fc fc' : reads_back fc -> sent fc' = sent fc -> fc_size fc' = fc_size fc -> fc_type fc' = fc_type fc ->
  fc_tag fc' = fc_tag fc -> fc_u fc' = fc_u fc -> reads_back fc'.
Proof.
  intros Hr Es E1 E2 E3 E4 fc0 junk Hp. rewrite Es in Hp. rewrite (Hr fc0 junk Hp). unfold set_pkt. by rewrite E1, E2, E3, E4.
Qed.
End Properties.

(** The same messages made with memory to spare. *)
Lemma rflush_heap : exists fc, @run_create big_heap C_rflush = Ret (Some fc) /\ fc_u fc = U_none.
Proof. eexists. split; vm_compute; reflexivity. Qed.

Lemma rlerror_heap ecode : exists fc, @run_create big_heap (C_rlerror ecode) = Ret (Some fc) /\
  fc_u fc = U_rlerror {| rlerror_ecode := u32 ecode |}.
Proof.
  destruct (@np_create_denotes big_heap 4 Rlerror
    (let* ecode' := @buf_put_int32 big_heap ecode in ret (U_rlerror {| rlerror_ecode := ecode' |}))
    (le_bytes 4 ecode) (fun _ u => u = U_rlerror {| rlerror_ecode := u32 ecode |})) as (u & E & Hu).
  - eapply emits_eq; [solve_emits|]. by rewrite ?app_nil_r.
  - eapply denotes_weaken; [solve_denotes|by rewrite ?app_nil_r|]. by intros m v (? & -> & ->).
  - by rewrite zlength_le_bytes.
  - lia.
  - discriminate.
  - eexists. split; [exact E|]. apply (Hu (replicate 7 0 ++ le_bytes 4 ecode)).
    intros i _. rewrite lookup_app_r by (rewrite length_replicate; lia). f_equal. rewrite length_replicate. lia.
Qed.

Section Static.
Context `{CHeap}.

Lemma heap_reads_back c fc fc' : call_ok c -> @run_create big_heap c = Ret (Some fc) -> fc_pkt fc' = wire_message c ->
  fc_size fc' = 7 + zlength (wire_body c) -> fc_type fc' = wire_type c -> fc_tag fc' = NOTAG -> fc_u fc' = fc_u fc ->
  well_built (B_call c) fc' /\ reads_back fc'.
Proof.
  intros Hc E Hp H1 H2 H3 H4. destruct (@call_built big_heap c Hc eq_refl) as (fc2 & E2 & (G1 & G2 & G3 & G4 & G5) & Hr).
  cbn [build] in E2. rewrite E in E2. injection E2 as <-.
  assert (Hl : zlength (wire_message c) = 7 + zlength (wire_body c)).
  { unfold wire_message. rewrite !zlength_app, !zlength_le_bytes. lia. }
  assert (Hs : sent fc' = wire_message c).
  { unfold sent. rewrite Hp, H1, <- Hl. unfold zlength. by rewrite Nat2Z.id, firstn_all. }
  change (built_message (B_call c)) with (wire_message c) in *. rewrite Hl in G1. cbn [built_type] in G2. split.
  - unfold well_built. change (built_message (B_call c)) with (wire_message c). rewrite Hs, H4, Hl, <- G4. done.
  - by eapply reads_back_same; [exact Hr|congruence..].
Qed.

Lemma rflush_built buf : built_ok (B_rflush_static buf) ->
  exists fc, build (B_rflush_static buf) = Ret (Some fc) /\ well_built (B_rflush_static buf) fc /\ reads_back fc.
Proof.
  intros Hb. destruct (rflush_static_run buf Hb) as (fc & E & Hp & Hs & Ht & Hg & Hu). exists fc. cbn [build].
  rewrite Hb. split; [done|]. destruct rflush_heap as (fc2 & E2 & Hu2).
  apply (heap_reads_back C_rflush fc2 fc); try done; congruence.
Qed.

Lemma rlerror_built ecode buf : built_ok (B_rlerror_static ecode buf) ->
  exists fc, build (B_rlerror_static ecode buf) = Ret (Some fc) /\ well_built (B_rlerror_static ecode buf) fc /\ reads_back fc.
Proof.
  intros Hb. destruct (rlerror_static_run ecode buf Hb) as (fc & E & Hp & Hu & Hs & Ht & Hg). exists fc. cbn [build].
  rewrite Hb. split; [done|]. destruct (rlerror_heap ecode) as (fc2 & E2 & Hu2).
  apply (heap_reads_back (C_rlerror ecode) fc2 fc); try done; [|congruence]. split; [by repeat constructor|done].
Qed.

Lemma build_right m : built_ok m -> has_memory m = true ->
  exists fc, build m = Ret (Some fc) /\ well_built m fc /\ reads_back fc.
Proof.
  destruct m; intros Hok Hm.
  - by apply call_built.
  - by apply rread_built.
  - by apply rreaddir_built.
  - by apply rflush_built.
  - by apply rlerror_built.
Qed.

(** ** The properties *)

(** C1: wire format.  Every builder of np.c (each [np_create_*] function; a read or
    readdir reply that is allocated, filled and cut to size; the two replies built
    in a buffer of the caller) returns NULL if [malloc] fails, and otherwise a
    message that is sent byte for byte in the layout of protocol.md: the header
    with the exact length, the type and [NOTAG], then the fields in order,
    little-endian and with counted strings; its union members denote the
    arguments.  The conditions are those of [built_ok]: strings of less than 64 KiB
    (the length field of longer ones wraps), walks of at most 16 elements
    (more abort), messages of less than 2 GiB, no more data than was allocated. *)
Theorem np_create_wire_format m : built_ok m ->
  if has_memory m then
    exists fc, build m = Ret (Some fc) /\ fc_size fc = zlength (built_message m) /\ fc_type fc = built_type m /\
      fc_tag fc = NOTAG /\ sent fc = built_message m /\ u_fields (sent fc) (fc_u fc) = map norm_field (built_fields m)
  else build m = Ret None.
Proof.
  intros Hok. destruct (has_memory m) eqn:Hm; [|by apply build_no_memory].
  destruct (build_right m Hok Hm) as (fc & E & Hw & _). by exists fc.
Qed.

(** C2: round trip.  [np_deserialize], run on a receive buffer that starts with the
    bytes sent of a message that any builder of np.c made (under the conditions of
    [built_ok]: strings below 64 KiB, walks of at most 16 elements), whatever
    follows them, accepts them, returns the message length and reconstructs the
    very message: every integer field, and every string and data view. *)
Theorem np_deserialize_create m fc fc0 junk : built_ok m -> build m = Ret (Some fc) -> fc_pkt fc0 = sent fc ++ junk ->
  np_deserialize fc0 = Ret (fc_size fc, set_pkt (fc_pkt fc0) fc).
Proof.
  intros Hok E Hp. destruct (has_memory m) eqn:Hm; [|rewrite build_no_memory in E by done; discriminate E].
  destruct (build_right m Hok Hm) as (fc' & E' & _ & Hr). rewrite E in E'. injection E' as <-. by apply (Hr fc0 junk).
Qed.
End Static.

(** ** Witnesses *)

Lemma np_create_wire_format_witness :
  built_ok (B_rreaddir 100 [1; 2; 3]) /\
  exists fc, @build big_heap (B_rreaddir 100 [1; 2; 3]) = Ret (Some fc) /\ fc_size fc = 14 /\ fc_type fc = Rreaddir /\
    fc_tag fc = NOTAG /\ sent fc = [14; 0; 0; 0; 41; 255; 255; 3; 0; 0; 0; 1; 2; 3] /\
    u_fields (sent fc) (fc_u fc) = [F4 3; Fdata [1; 2; 3]].
Proof.
  assert (Hok : built_ok (B_rreaddir 100 [1; 2; 3])) by (split; [lia|vm_compute; congruence]).
  split; [exact Hok|]. exact (@np_create_wire_format big_heap (B_rreaddir 100 [1; 2; 3]) Hok).
Defined.

Lemma np_deserialize_create_witness :
  exists fc, @build big_heap (B_call walk_call) = Ret (Some fc) /\
    np_deserialize (blank_fcall (sent fc ++ [1; 2; 3])) = Ret (fc_size fc, set_pkt (sent fc ++ [1; 2; 3]) fc).
Proof.
  destruct (@build big_heap (B_call walk_call)) as [[fc|]| |] eqn:E;
    [|vm_compute in E; discriminate E..].
  exists fc. split; [reflexivity|].
  apply (@np_deserialize_create big_heap (B_call walk_call) fc (blank_fcall (sent fc ++ [1; 2; 3])) [1; 2; 3]).
  - exact walk_call_ok.
  - exact E.
  - reflexivity.
Defined.
