(* ===== verification/Npstring.v ===== *)
(** * Counted strings and directory entries (libnpfs/npstring.c, np.c)

    A 9P string is a counted view of a packet and may contain any byte; the
    code compares it with C strings.  Section [Dirent] models the directory
    entries that Rreaddir carries. *)
From S2P Require Import Prelude Cbuf Protocol Builders.

(** The object a C string literal lives in. *)
Definition c_object (s : cstr) : list Z := s ++ [0].

(** A C string has no zero before its end. *)
Definition no_nul (s : list Z) : Prop := Forall (fun c => c <> 0) s.

(** [strncmp] on two objects; the result is the first difference. *)
Fixpoint strncmp (n : nat) (a b : list Z) : res Z :=
  match n with
  | O => Ret 0
  | S n =>
      match a, b with
      | x :: a, y :: b =>
          if x =? y then (if x =? 0 then Ret 0 else strncmp n a b) else Ret (x - y)
      | _, _ => UB
      end
  end.

(** The bytes from a string view to the end of its packet. *)
Definition at_view (pkt : list Z) (s : Npstr) : list Z :=
  match str s with
  | Some a => drop (Z.to_nat a) pkt
  | None => []
  end.

Definition np_strzero : Npstr := {| len := 0; str := None |}.

Definition np_strcmp (pkt : list Z) (s : Npstr) (cs : cstr) : res Z :=
  let! ret := strncmp (Z.to_nat (len s)) (at_view pkt s) (c_object cs) in
  if ret =? 0 then
    let! c := load_byte (c_object cs) (len s) in
    Ret (if c =? 0 then ret else 1)
  else Ret ret.

Definition np_strncmp (pkt : list Z) (s : Npstr) (cs : cstr) (n : Z) : res Z :=
  let n := int32 n in
  if n <=? len s then strncmp (Z.to_nat (u64 n)) (at_view pkt s) (c_object cs)
  else np_strcmp pkt s cs.

Definition np_str9cmp (pkt1 : list Z) (s1 : Npstr) (pkt2 : list Z) (s2 : Npstr) : res Z :=
  if len s1 =? len s2 then strncmp (Z.to_nat (len s1)) (at_view pkt1 s1) (at_view pkt2 s2)
  else Ret 1.

(** The C string a buffer holds: the bytes before the first zero. *)
Fixpoint c_string (m : list Z) : cstr :=
  match m with
  | [] => []
  | c :: m => if c =? 0 then [] else c :: c_string m
  end.

Section Strdup.
Context `{CHeap}.

(** The duplicate as an object; [None] is [NULL]. *)
Definition np_strdup (pkt : list Z) (s : Npstr) : res (option (list Z)) :=
  match malloc (len s + 1) with
  | None => Ret None
  | Some blk =>
      let! bs := npstr_bytes pkt s in
      let! m := store_bytes blk 0 bs in
      let! m := store_bytes m (len s) [0] in
      Ret (Some m)
  end.
End Strdup.

Section Dirent.
Context `{CHeap}.

(** [np_serialize_p9dirent]: the return value and the buffer. *)
Definition put_dirent (qid : Npqid) (offset type : Z) (name : cstr) : M (Npqid * Z * Z * Npstr) :=
  let* nqid := buf_put_qid qid in
  let* offset' := buf_put_int64 offset in
  let* type' := buf_put_int8 type in
  let* nstr := buf_put_str (Some name) in
  ret (nqid, offset', type', nstr).

Definition np_serialize_p9dirent (qid : Npqid) (offset type : Z) (name : cstr)
    (buf : list Z) (buflen : Z) : res (Z * list Z) :=
  let size := int32 (QIDSIZE + 8 + 1 + 2 + strlen name) in
  if buflen <? size then Ret (0, buf)
  else
    let! (_, b) := put_dirent qid offset type name (buf_init buf 0 buflen) in
    if buf_check_overflow b then Ret (0, mem b)
    else Ret (int32 (p b - sp b), mem b).

Record p9dirent := { d_qid : Npqid; d_offset : Z; d_type : Z; d_name : cstr }.

(** [np_deserialize_p9dirent]: the return value and, when it is not 0, what was
    stored through the arguments; [namelen] is the size of [name]. *)
Definition get_dirent : M (Npqid * Z * Z * Npstr) :=
  let* qid := buf_get_qid in
  let* offset := buf_get_int64 in
  let* type := buf_get_int8 in
  let* s9 := buf_get_str in
  ret (qid, offset, type, s9).

Definition np_deserialize_p9dirent (namelen : Z) (buf : list Z) (buflen : Z)
  : res (Z * option p9dirent) :=
  let! ((qid, offset, type, s9), b) := get_dirent (buf_init buf 0 buflen) in
  if buf_check_overflow b || (namelen <=? len s9) then Ret (0, None)
  else
    let! name := npstr_bytes (mem b) s9 in
    Ret (int32 (p b - sp b),
         Some {| d_qid := qid; d_offset := offset; d_type := type; d_name := name |}).
End Dirent.

(** ** Comparisons *)

Lemma strncmp_self s t : no_nul s -> forall u,
  strncmp (length s) (s ++ t) (s ++ u) = Ret 0.
Proof.
  induction 1 as [|c s Hc _ IH]; intros u; cbn; [done|].
  rewrite Z.eqb_refl, (proj2 (Z.eqb_neq c 0)) by done. apply IH.
Qed.

(** On a string without zeros, the result is zero exactly when the C string
    starts with it. *)
Lemma strncmp_prefix s t cs : no_nul s -> no_nul cs ->
  exists r, strncmp (length s) (s ++ t) (c_object cs) = Ret r /\
    (r = 0 <-> s `prefix_of` cs).
Proof.
  unfold c_object. revert cs. induction s as [|c s IH]; intros cs Hs Hcs; cbn.
  - exists 0. split; [done|]. split; [intros _; apply prefix_nil|done].
  - apply Forall_cons_1 in Hs as [Hc Hs]. destruct cs as [|d cs]; cbn.
    + exists (c - 0). rewrite (proj2 (Z.eqb_neq c 0)) by done. split; [done|].
      split; [lia|]. intros [k Hk]. discriminate Hk.
    + apply Forall_cons_1 in Hcs as [Hd Hcs].
      destruct (Z.eqb_spec c d) as [->|Hne].
      * rewrite (proj2 (Z.eqb_neq d 0)) by done.
        destruct (IH cs Hs Hcs) as (r & E & Hr). exists r. split; [done|].
        rewrite Hr. split; [apply prefix_cons|apply prefix_cons_inv_2].
      * exists (c - d). split; [done|]. split; [lia|].
        intros Hp. apply prefix_cons_inv_1 in Hp. done.
Qed.

Lemma at_view_split pkt s bs : npstr_bytes pkt s = Ret bs ->
  length bs = Z.to_nat (len s) /\ exists t, at_view pkt s = bs ++ t.
Proof.
  unfold npstr_bytes, at_view. destruct (str s) as [a|].
  - intros E. apply load_bytes_Ret in E as (? & ? & ? & ->). unfold zlength in *.
    split; [rewrite length_take, length_drop; lia|].
    exists (drop (Z.to_nat (len s)) (drop (Z.to_nat a) pkt)). by rewrite take_drop.
  - destruct (Z.eqb_spec (len s) 0) as [->|]; intros [= <-]. split; [done|]. by exists [].
Qed.

Lemma npstr_len_nonneg pkt s bs : npstr_bytes pkt s = Ret bs -> len s = zlength bs.
Proof.
  unfold npstr_bytes. destruct (str s).
  - intros E. symmetry. by eapply load_bytes_length.
  - destruct (Z.eqb_spec (len s) 0) as [->|]; intros [= <-]. done.
Qed.

Lemma load_byte_c_object cs (n : nat) : (n <= length cs)%nat -> no_nul cs ->
  exists c, load_byte (c_object cs) (Z.of_nat n) = Ret c /\ (c = 0 <-> n = length cs).
Proof.
  intros Hn Hcs. unfold load_byte, c_object. rewrite (proj2 (Z.leb_le _ _)), Nat2Z.id by lia.
  destruct (decide (n = length cs)) as [->|Hne].
  - rewrite lookup_app_r, Nat.sub_diag by lia. exists 0. done.
  - rewrite lookup_app_l by lia.
    destruct (lookup_lt_is_Some_2 cs n) as [c Hc]; [lia|]. rewrite Hc. exists c.
    split; [done|]. split; [|done]. intros ->.
    apply (Forall_lookup_1 _ _ _ _ Hcs) in Hc. done.
Qed.

(** ** Duplicates *)

Lemma c_string_no_nul l : no_nul (c_string l).
Proof. induction l as [|c l IH]; cbn; [constructor|]. destruct (Z.eqb_spec c 0); [constructor|by constructor]. Qed.

Lemma c_string_app bs : no_nul bs -> forall m, c_string (bs ++ 0 :: m) = bs.
Proof.
  induction 1 as [|c bs Hc _ IH]; intros m; cbn; [done|].
  rewrite (proj2 (Z.eqb_neq c 0)), IH by done. done.
Qed.

Lemma np_strdup_run `{CHeap} pkt s bs : npstr_bytes pkt s = Ret bs ->
  malloc (len s + 1) <> None -> np_strdup pkt s = Ret (Some (bs ++ [0])).
Proof.
  intros Hv Hm. unfold np_strdup. pose proof (npstr_len_nonneg _ _ _ Hv) as Hl.
  pose proof (zlength_nonneg bs). rewrite Hv, Hl in *.
  destruct (malloc _) as [blk|] eqn:E; [|done]. apply malloc_length in E; [|lia].
  cbn [res_bind]. unfold zlength in *. rewrite store_bytes_ok by (unfold zlength; lia).
  cbn [res_bind take app Nat.add Z.to_nat].
  rewrite store_bytes_ok by (rewrite ?zlength_app; unfold zlength; cbn; rewrite ?length_drop; lia).
  cbn [res_bind]. change (Z.to_nat 0) with 0%nat. rewrite take_0, app_nil_l.
  rewrite Nat2Z.id, take_app_length, (drop_ge (bs ++ _)); [done|].
  rewrite length_app, length_drop. cbn. lia.
Qed.

(** ** Directory entries *)
Section DirentLemmas.
Context `{CHeap}.

Definition dirent_bytes (qid : Npqid) (offset type : Z) (name : cstr) : list Z :=
  (le_bytes 1 (qtype qid) ++ le_bytes 4 (qversion qid) ++ le_bytes 8 (qpath qid)) ++
  le_bytes 8 offset ++ le_bytes 1 type ++ le_bytes 2 (strlen name) ++ name.

Lemma put_dirent_emits qid offset type name : strlen name < 2 ^ 16 ->
  Emits (put_dirent qid offset type name) (dirent_bytes qid offset type name).
Proof.
  intros Hn. eapply emits_eq; [unfold put_dirent; solve_emits|].
  unfold dirent_bytes. cbn [strlen_opt default]. rewrite ?app_nil_r. done.
Qed.

Lemma put_dirent_codec qid offset type name : strlen name < 2 ^ 16 ->
  Codec (put_dirent qid offset type name) get_dirent.
Proof. intros Hn. unfold put_dirent, get_dirent. solve_codec. Qed.

Lemma put_dirent_denotes qid offset type name : strlen name < 2 ^ 16 ->
  Denotes (put_dirent qid offset type name) (dirent_bytes qid offset type name)
    (fun m v => v.1 = ({| qtype := u8 (qtype qid); qversion := u32 (qversion qid);
                          qpath := u64 (qpath qid) |}, u64 offset, u8 type) /\
                npstr_bytes m v.2 = Ret name).
Proof.
  intros Hn. eapply denotes_weaken.
  - unfold put_dirent. assert (strlen_opt (Some name) < 2 ^ 16) by done. solve_denotes.
  - unfold dirent_bytes. cbn [strlen_opt default]. rewrite ?app_nil_r. done.
  - intros m v (? & -> & ? & -> & ? & -> & s & Hs & ->). done.
Qed.

Lemma zlength_dirent qid offset type name :
  zlength (dirent_bytes qid offset type name) = 24 + strlen name.
Proof. unfold dirent_bytes. autorewrite with zlen. unfold strlen. lia. Qed.

Lemma serialize_fits qid offset type name buf buflen :
  0 <= buflen < 2 ^ 31 -> buflen <= zlength buf -> strlen name < 2 ^ 16 -> 24 + strlen name <= buflen ->
  exists buf', np_serialize_p9dirent qid offset type name buf buflen = Ret (24 + strlen name, buf') /\
    store_bytes buf 0 (dirent_bytes qid offset type name) = Ret buf'.
Proof.
  intros Hb Hl Hn Hf. pose proof (strlen_nonneg name).
  unfold np_serialize_p9dirent, QIDSIZE. rewrite int32_small, (proj2 (Z.ltb_ge _ _)) by lia.
  set (b0 := buf_init buf 0 buflen).
  assert (He : ep b0 = buflen) by (cbn; rewrite int32_small; lia).
  assert (Hw : wf_cbuf b0) by (split; [done|rewrite He; exact Hl]).
  pose proof (zlength_dirent qid offset type name) as Hz.
  destruct (put_dirent_emits qid offset type name Hn b0 Hw) as (v & b1 & E & S & P & Hsp & Q).
  { rewrite Hz, He. change (p b0) with 0. lia. }
  rewrite E. cbn [res_bind]. change (p b0) with 0 in *. rewrite Hz in P. change (sp b0) with 0 in Hsp.
  unfold buf_check_overflow. rewrite P, Q, He, Hsp, (proj2 (Z.ltb_ge _ _)), int32_small by lia.
  exists (mem b1). replace (0 + (24 + strlen name) - 0) with (24 + strlen name) by lia. done.
Qed.

Lemma serialize_short qid offset type name buf buflen :
  buflen < 2 ^ 31 -> strlen name < 2 ^ 16 -> buflen < 24 + strlen name ->
  np_serialize_p9dirent qid offset type name buf buflen = Ret (0, buf).
Proof.
  intros Hb Hn Hf. pose proof (strlen_nonneg name). unfold np_serialize_p9dirent, QIDSIZE.
  rewrite int32_small, (proj2 (Z.ltb_lt _ _)) by lia. done.
Qed.

(** What is read from bytes that start with an entry. *)
Lemma deserialize_at qid offset type name m buflen namelen :
  0 <= buflen < 2 ^ 31 -> buflen <= zlength m -> strlen name < 2 ^ 16 -> 24 + strlen name <= buflen ->
  strlen name < namelen ->
  (forall i : nat, (i < length (dirent_bytes qid offset type name))%nat ->
    m !! i = dirent_bytes qid offset type name !! i) ->
  np_deserialize_p9dirent namelen m buflen = Ret (24 + strlen name, Some {|
    d_qid := {| qtype := u8 (qtype qid); qversion := u32 (qversion qid); qpath := u64 (qpath qid) |};
    d_offset := u64 offset; d_type := u8 type; d_name := name |}).
Proof.
  intros Hb Hl Hn Hf Hnl Hm. pose proof (strlen_nonneg name). set (b0 := buf_init m 0 buflen).
  assert (He : ep b0 = buflen) by (cbn; rewrite int32_small; lia).
  assert (Hw : wf_cbuf b0) by (split; [done|rewrite He; exact Hl]).
  pose proof (zlength_dirent qid offset type name) as Hz.
  destruct (put_dirent_emits qid offset type name Hn b0 Hw) as (v & b1 & E & S & P & Hsp & Q).
  { rewrite Hz, He. change (p b0) with 0. lia. }
  destruct (put_dirent_denotes qid offset type name Hn b0 Hw) as (? & ? & F & _ & _ & _ & HR).
  { rewrite Hz, He. change (p b0) with 0. lia. }
  rewrite E in F. injection F as <- <-. change (p b0) with 0 in *. rewrite Hz in P.
  destruct (codec_read_back _ _ (put_dirent_codec qid offset type name Hn) b0 v b1) as [_ _ _ G]; [done|done|lia|].
  destruct (HR m Hm) as [Hv Hs]. unfold np_deserialize_p9dirent.
  replace (buf_init m 0 buflen) with (view m 0 buflen b0).
  2:{ unfold view, buf_init. rewrite int32_small by lia. done. }
  rewrite G; [|lia|lia|].
  2:{ intros i Hi. change (p b0) with 0 in Hi. assert (Hi' : (i < length (dirent_bytes qid offset type name))%nat).
      { unfold zlength in Hz. lia. }
      rewrite (Hm i Hi'). symmetry. apply (store_bytes_lookup_in _ _ _ _ i S Hi'). }
  cbn [res_bind]. destruct v as [[[q o] t] s9]. cbn [fst snd] in *. injection Hv as -> -> ->.
  pose proof (npstr_len_nonneg _ _ _ Hs) as Hsl. fold (strlen name) in Hsl.
  unfold buf_check_overflow, view. cbn [p ep sp mem].
  rewrite P, Hsl, (proj2 (Z.ltb_ge _ _)), (proj2 (Z.leb_gt _ _)) by lia. cbn [orb].
  rewrite Hs. cbn [res_bind]. rewrite int32_small by lia. do 2 f_equal. lia.
Qed.

(** C29: Directory entries.  An entry that fits is serialized inside the buffer in
    its 24 fixed bytes plus the name, and [np_deserialize_p9dirent] reads the
    same entry back with the same length; an entry that does not fit leaves
    the buffer as it was and returns 0.  For names of less than 64 KiB, read into
    a buffer that is longer than the name. *)
Theorem p9dirent_roundtrip qid offset type name buf buflen namelen :
  0 <= buflen < 2 ^ 31 -> buflen <= zlength buf -> strlen name < 2 ^ 16 ->
  strlen name < namelen ->
  if 24 + strlen name <=? buflen then
    exists buf', np_serialize_p9dirent qid offset type name buf buflen =
        Ret (24 + strlen name, buf') /\ length buf' = length buf /\
      np_deserialize_p9dirent namelen buf' buflen = Ret (24 + strlen name, Some {|
        d_qid := {| qtype := u8 (qtype qid); qversion := u32 (qversion qid);
                    qpath := u64 (qpath qid) |};
        d_offset := u64 offset; d_type := u8 type; d_name := name |})
  else np_serialize_p9dirent qid offset type name buf buflen = Ret (0, buf).
Proof.
  intros Hb Hl Hn Hnl. destruct (Z.leb_spec (24 + strlen name) buflen) as [Hf|Hf]; [|apply serialize_short; lia].
  destruct (serialize_fits qid offset type name buf buflen) as (buf' & E & S); [done..|].
  pose proof (store_bytes_length _ _ _ _ S) as Hlen. exists buf'. split; [done|]. split; [done|].
  apply (deserialize_at qid offset); [done|unfold zlength in *; lia|done..|].
  intros i Hi. apply (store_bytes_lookup_in _ _ _ _ i S Hi).
Qed.
End DirentLemmas.

(** Duplicates.  [np_strdup] of a view inside its packet copies exactly the
    counted bytes and terminates them; the C string it yields is the 9P string
    when that has no zero byte. *)
Theorem np_strdup_spec `{CHeap} pkt s bs :
  npstr_bytes pkt s = Ret bs -> malloc (len s + 1) <> None ->
  exists m, np_strdup pkt s = Ret (Some m) /\ zlength m = len s + 1 /\
    (no_nul bs -> c_string m = bs).
Proof.
  intros Hv Hm. exists (bs ++ [0]). split; [by apply np_strdup_run|].
  rewrite zlength_app, (npstr_len_nonneg _ _ _ Hv). split; [done|].
  intros Hn. by apply c_string_app.
Qed.

Lemma np_strcmp_run pkt s cs bs :
  npstr_bytes pkt s = Ret bs -> no_nul bs -> no_nul cs ->
  exists r, np_strcmp pkt s cs = Ret r /\ (r = 0 <-> bs = cs).
Proof.
  intros Hv Hb Hcs. destruct (at_view_split _ _ _ Hv) as (Hl & t & Ht).
  pose proof (npstr_len_nonneg _ _ _ Hv) as Hz. unfold np_strcmp. rewrite Ht, <- Hl.
  destruct (strncmp_prefix bs t cs Hb Hcs) as (r & -> & Hr). cbn [res_bind].
  destruct (Z.eqb_spec r 0) as [->|Hne].
  - apply proj1 in Hr. destruct (Hr eq_refl) as [k ->]. rewrite Hz. unfold zlength.
    destruct (load_byte_c_object (bs ++ k) (length bs)) as (c & -> & Hc);
      [rewrite length_app; lia|done|]. cbn [res_bind].
    rewrite length_app in Hc. destruct (Z.eqb_spec c 0) as [->|Hc0].
    + exists 0. split; [done|]. destruct k; [by rewrite app_nil_r|].
      cbn in Hc. lia.
    + exists 1. split; [done|]. split; [lia|]. intros E.
      apply (f_equal length) in E. rewrite length_app in E. lia.
  - exists r. split; [done|]. split; [done|]. intros ->. destruct Hne. apply Hr. done.
Qed.

Lemma strncmp_views a t b u : no_nul a -> length a = length b ->
  exists r, strncmp (length a) (a ++ t) (b ++ u) = Ret r /\ (r = 0 <-> a = b).
Proof.
  intros Ha. revert b. induction Ha as [|c a Hc _ IH]; intros [|d b] Hl; try done; cbn.
  - by exists 0.
  - destruct (Z.eqb_spec c d) as [<-|Hne].
    + rewrite (proj2 (Z.eqb_neq c 0)) by done. destruct (IH b) as (r & -> & Hr); [by injection Hl|].
      exists r. split; [done|]. rewrite Hr. split; congruence.
    + exists (c - d). split; [done|]. split; [lia|congruence].
Qed.

Lemma np_str9cmp_run pkt s bs pkt' s' bs' :
  npstr_bytes pkt s = Ret bs -> npstr_bytes pkt' s' = Ret bs' -> no_nul bs ->
  exists r, np_str9cmp pkt s pkt' s' = Ret r /\ (r = 0 <-> bs = bs').
Proof.
  intros Hv Hv' Hb. destruct (at_view_split _ _ _ Hv) as (Hl & t & Ht).
  destruct (at_view_split _ _ _ Hv') as (Hl' & t' & Ht').
  pose proof (npstr_len_nonneg _ _ _ Hv). pose proof (npstr_len_nonneg _ _ _ Hv').
  unfold np_str9cmp. destruct (Z.eqb_spec (len s) (len s')) as [E|Hne].
  - rewrite Ht, Ht', <- Hl. apply strncmp_views; [done|]. congruence.
  - exists 1. split; [done|]. split; [lia|]. intros ->. congruence.
Qed.

(** Comparisons.  For a string view inside its packet that contains no zero
    byte, [np_strcmp] stays inside both strings and returns 0 exactly when the
    string equals the C string, and [np_str9cmp] does so for two views. *)
Theorem np_strcmp_spec pkt s cs bs pkt' s' bs' :
  npstr_bytes pkt s = Ret bs -> npstr_bytes pkt' s' = Ret bs' -> no_nul bs -> no_nul cs ->
  (exists r, np_strcmp pkt s cs = Ret r /\ (r = 0 <-> bs = cs)) /\
  exists r, np_str9cmp pkt s pkt' s' = Ret r /\ (r = 0 <-> bs = bs').
Proof. split; [by apply np_strcmp_run|by apply np_str9cmp_run]. Qed.

(** A string with an embedded zero, such as a peer may send as a version,
    user or attach name, makes [np_strcmp] read past the end of the C string
    it is compared with. *)
Theorem np_strcmp_embedded_nul :
  exists pkt s, npstr_bytes pkt s = Ret [97; 0; 98; 99; 100] /\
    np_strcmp pkt s [97] = UB.
Proof.
  exists [97; 0; 98; 99; 100], {| len := 5; str := Some 0 |}. split; vm_compute; done.
Qed.

Lemma np_strcmp_spec_witness :
  (exists r, np_strcmp [47; 97; 98] {| len := 2; str := Some 1 |} [97; 98; 99] = Ret r /\
    (r = 0 <-> [97; 98] = [97; 98; 99])) /\
  exists r, np_str9cmp [47; 97; 98] {| len := 2; str := Some 1 |}
      [97; 0] {| len := 2; str := Some 0 |} = Ret r /\ (r = 0 <-> [97; 98] = [97; 0]).
Proof.
  apply (np_strcmp_spec [47; 97; 98] {| len := 2; str := Some 1 |} [97; 98; 99] [97; 98]
    [97; 0] {| len := 2; str := Some 0 |} [97; 0]).
  - vm_compute. done.
  - vm_compute. done.
  - repeat constructor; lia.
  - repeat constructor; lia.
Defined.

Lemma np_strdup_spec_witness :
  exists m, @np_strdup big_heap [47; 97; 98] {| len := 2; str := Some 1 |} = Ret (Some m) /\
    zlength m = 2 + 1 /\ (no_nul [97; 98] -> c_string m = [97; 98]).
Proof.
  apply (@np_strdup_spec big_heap [47; 97; 98] {| len := 2; str := Some 1 |} [97; 98]).
  - vm_compute. done.
  - discriminate.
Defined.

Lemma p9dirent_roundtrip_witness :
  exists buf', @np_serialize_p9dirent big_heap {| qtype := 128; qversion := 7; qpath := 99 |} 5 4
      [46; 46] (replicate 64 0) 64 = Ret (26, buf') /\ length buf' = 64%nat /\
    np_deserialize_p9dirent 256 buf' 64 = Ret (26, Some {|
      d_qid := {| qtype := u8 128; qversion := u32 7; qpath := u64 99 |};
      d_offset := u64 5; d_type := u8 4; d_name := [46; 46] |}).
Proof.
  apply (@p9dirent_roundtrip big_heap {| qtype := 128; qversion := 7; qpath := 99 |} 5 4
    [46; 46] (replicate 64 0) 64 256); vm_compute; try split; congruence.
Defined.
