(* ===== verification/Fidpool.v ===== *)
(** * The fid table of a connection (libnpfs/fidpool.c)

    Fids live on the heap and are chained into the buckets of a hash table by
    their [next] and [prev] pointers.  The model keeps the pointers: a fid is
    an object of the heap [fids], a [NULL] or freed pointer is not in it, and
    following one is [UB].  [np_fid_decref] runs under two locks taken one
    after the other; its locked sections are separate definitions, so that
    interleavings can be stated. *)
From S2P Require Import Prelude Cbuf Protocol.
From stdpp Require Import list gmap.
#[local] Open Scope Z_scope.

Definition loc := positive.

Definition FID_HTABLE_SIZE : Z := 64.
Definition FID_FLAGS_ZOMBIE : Z := 1.
Definition FID_FLAGS_ROFS : Z := 2.
Definition SRV_FLAGS_LOOSEFID : Z := 8388608.

(** [struct Npfid]; the mutex and the magic number have no counterpart: an
    object that was freed is not in the heap.  [refcount] is an [int] in C; here it
    is unbounded, as each reference is held by a request or by the table. *)
Record Npfid := {
  fid : Z;
  refcount : Z;
  type : Z;
  user : option loc;
  tpool : option loc;
  aname : option (list Z);
  flags : Z;
  aux : option loc;
  next : option loc;
  prev : option loc;
}.

Definition set_refcount (n : Z) (f : Npfid) : Npfid :=
  {| fid := fid f; refcount := n; type := type f; user := user f; tpool := tpool f;
     aname := aname f; flags := flags f; aux := aux f; next := next f; prev := prev f |}.
Definition set_flags (n : Z) (f : Npfid) : Npfid :=
  {| fid := fid f; refcount := refcount f; type := type f; user := user f; tpool := tpool f;
     aname := aname f; flags := n; aux := aux f; next := next f; prev := prev f |}.
Definition set_next (n : option loc) (f : Npfid) : Npfid :=
  {| fid := fid f; refcount := refcount f; type := type f; user := user f; tpool := tpool f;
     aname := aname f; flags := flags f; aux := aux f; next := n; prev := prev f |}.
Definition set_prev (n : option loc) (f : Npfid) : Npfid :=
  {| fid := fid f; refcount := refcount f; type := type f; user := user f; tpool := tpool f;
     aname := aname f; flags := flags f; aux := aux f; next := next f; prev := n |}.

(** What [_destroy_fid] tells the rest of the server. *)
Inductive fid_event :=
| Ev_auth_clunk (f : Npfid)
| Ev_ctl_fiddestroy (f : Npfid)
| Ev_fiddestroy (f : Npfid)
| Ev_user_decref (u : loc)
| Ev_tpool_decref (t : loc)
| Ev_get_path (l : loc).

(** [struct Npfidpool], with the heap its fids live on and the calls made. *)
Record Npfidpool := {
  fids : gmap loc Npfid;
  htable : list (option loc);
  events : list fid_event;
}.

Definition set_fids (h : gmap loc Npfid) (q : Npfidpool) : Npfidpool :=
  {| fids := h; htable := htable q; events := events q |}.
Definition set_htable (t : list (option loc)) (q : Npfidpool) : Npfidpool :=
  {| fids := fids q; htable := t; events := events q |}.

(** The part of [Npsrv] the table consults. *)
Record srv_conf := {
  srv_loosefid : bool;
  srv_auth_clunk : bool;
  srv_fiddestroy : bool;
  srv_get_path : bool;
}.

Definition load_fid (q : Npfidpool) (l : loc) : res Npfid :=
  match fids q !! l with Some f => Ret f | None => UB end.

(** [f->field = v] *)
Definition upd_fid (l : loc) (g : Npfid -> Npfid) (q : Npfidpool) : res Npfidpool :=
  let! f := load_fid q l in Ret (set_fids (<[l := g f]> (fids q)) q).

(** [o->field = v] through a pointer that was tested. *)
Definition upd_opt (o : option loc) (g : Npfid -> Npfid) (q : Npfidpool) : res Npfidpool :=
  match o with Some l => upd_fid l g q | None => Ret q end.

Definition load_head (q : Npfidpool) (i : nat) : res (option loc) :=
  match htable q !! i with Some o => Ret o | None => UB end.

Definition set_head (i : nat) (o : option loc) (q : Npfidpool) : Npfidpool :=
  set_htable (<[i := o]> (htable q)) q.

Definition emit (e : list fid_event) (q : Npfidpool) : Npfidpool :=
  {| fids := fids q; htable := htable q; events := events q ++ e |}.

(** [_destroy_fid]: the callbacks, the references the fid held, and [free]; the
    result is [f->next]. *)
Definition destroy_events (srv : srv_conf) (f : Npfid) : list fid_event :=
  (if negb (Z.land (type f) Qtauth =? 0) then
     if srv_auth_clunk srv then [Ev_auth_clunk f] else []
   else if negb (Z.land (type f) Qttmp =? 0) then [Ev_ctl_fiddestroy f]
   else if srv_fiddestroy srv then [Ev_fiddestroy f] else []) ++
  match user f with Some u => [Ev_user_decref u] | None => [] end ++
  match tpool f with Some t => [Ev_tpool_decref t] | None => [] end.

Definition destroy_fid (srv : srv_conf) (l : loc) (q : Npfidpool)
  : res (option loc * Npfidpool) :=
  let! f := load_fid q l in
  Ret (next f, set_fids (delete l (fids q)) (emit (destroy_events srv f) q)).

Definition fid_hash (n : Z) : nat := Z.to_nat (n mod FID_HTABLE_SIZE).

(** [_create_fid]: a zeroed object, or [NULL] when [malloc] fails. *)
Definition create_fid (n : Z) (mem_ok : bool) (q : Npfidpool) : option (loc * Npfidpool) :=
  if mem_ok then
    let l := fresh (dom (fids q)) in
    Some (l, set_fids (<[l := {| fid := n; refcount := 0; type := 0; user := None;
      tpool := None; aname := None; flags := 0; aux := None; next := None;
      prev := None |}]> (fids q)) q)
  else None.

Definition np_fidpool_create : Npfidpool :=
  {| fids := ∅; htable := replicate (Z.to_nat FID_HTABLE_SIZE) None; events := [] |}.

(** [while (f != NULL) { f = _destroy_fid (f); unclunked++; }]: as many turns as
    there are objects suffice. *)
Fixpoint destroy_chain (fuel : nat) (srv : srv_conf) (o : option loc) (n : Z)
    (q : Npfidpool) : res (Z * Npfidpool) :=
  match o with
  | None => Ret (n, q)
  | Some l =>
      match fuel with
      | O => UB
      | S fuel =>
          let! (o, q) := destroy_fid srv l q in
          destroy_chain fuel srv o (n + 1) q
      end
  end.

Fixpoint destroy_buckets (srv : srv_conf) (tbl : list (option loc)) (n : Z) (q : Npfidpool)
  : res (Z * Npfidpool) :=
  match tbl with
  | [] => Ret (n, q)
  | o :: tbl =>
      let! (n, q) := destroy_chain (S (size (fids q))) srv o n q in
      destroy_buckets srv tbl n q
  end.

Definition np_fidpool_destroy (srv : srv_conf) (q : Npfidpool) : res (Z * Npfidpool) :=
  destroy_buckets srv (htable q) 0 q.

Fixpoint count_chain (fuel : nat) (o : option loc) (q : Npfidpool) (n : Z) : res Z :=
  match o with
  | None => Ret n
  | Some l =>
      match fuel with
      | O => UB
      | S fuel => let! f := load_fid q l in count_chain fuel (next f) q (n + 1)
      end
  end.

Fixpoint count_buckets (tbl : list (option loc)) (q : Npfidpool) (n : Z) : res Z :=
  match tbl with
  | [] => Ret n
  | o :: tbl =>
      let! n := count_chain (S (size (fids q))) o q n in count_buckets tbl q n
  end.

Definition np_fidpool_count (q : Npfidpool) : res Z := count_buckets (htable q) q 0.

(** [_optimize_fid (head, f)]: move [f], which is not the head, to the front. *)
Definition optimize_fid (i : nat) (l : loc) (q : Npfidpool) : res Npfidpool :=
  let! f := load_fid q l in
  let! q := upd_opt (next f) (set_prev (prev f)) q in
  let! q := match prev f with Some y => upd_fid y (set_next (next f)) q | None => UB end in
  let! q := upd_fid l (set_prev None) q in
  let! head := load_head q i in
  let! q := upd_fid l (set_next head) q in
  let! q := match head with Some y => upd_fid y (set_prev (Some l)) q | None => UB end in
  Ret (set_head i (Some l) q).

Definition is_zombie (f : Npfid) : bool := negb (Z.land (flags f) FID_FLAGS_ZOMBIE =? 0).

(** The loop of [_lookup_fid]. *)
Fixpoint lookup_chain (fuel : nat) (o : option loc) (n : Z) (q : Npfidpool)
  : res (option loc) :=
  match o with
  | None => Ret None
  | Some l =>
      match fuel with
      | O => UB
      | S fuel =>
          let! f := load_fid q l in
          if (fid f =? n) && negb (is_zombie f) then Ret (Some l)
          else lookup_chain fuel (next f) n q
      end
  end.

Definition lookup_fid (i : nat) (n : Z) (q : Npfidpool) : res (option loc * Npfidpool) :=
  let! head := load_head q i in
  let! o := lookup_chain (S (size (fids q))) head n q in
  match o with
  | None => Ret (None, q)
  | Some l =>
      if bool_decide (head = Some l) then Ret (Some l, q)
      else let! q := optimize_fid i l q in Ret (Some l, q)
  end.

Definition unlink_fid (i : nat) (l : loc) (q : Npfidpool) : res Npfidpool :=
  let! f := load_fid q l in
  let! q := match prev f with
            | Some y => upd_fid y (set_next (next f)) q
            | None => Ret (set_head i (next f) q)
            end in
  let! q := upd_opt (next f) (set_prev (prev f)) q in
  upd_fid l (fun f => set_prev None (set_next None f)) q.

Definition link_fid (i : nat) (l : loc) (q : Npfidpool) : res Npfidpool :=
  let! head := load_head q i in
  let! q := upd_fid l (fun f => set_prev None (set_next head f)) q in
  let! q := upd_opt head (set_prev (Some l)) q in
  Ret (set_head i (Some l) q).

Definition np_fid_incref (l : loc) (q : Npfidpool) : res Npfidpool :=
  upd_fid l (fun f => set_refcount (refcount f + 1) f) q.

Definition np_fid_find (n : Z) (q : Npfidpool) : res (option loc * Npfidpool) :=
  let! (o, q) := lookup_fid (fid_hash n) n q in
  match o with
  | Some l => let! q := np_fid_incref l q in Ret (Some l, q)
  | None => Ret (None, q)
  end.

(** The fid in use is named in a message, with its path if the server gives one. *)
Definition path_events (srv : srv_conf) (o : option loc) : list fid_event :=
  match o with Some l => if srv_get_path srv then [Ev_get_path l] else [] | None => [] end.

(** [np_fid_create]: the new fid, or the error that was set. *)
Definition np_fid_create (srv : srv_conf) (n : Z) (mem_ok : bool) (q : Npfidpool)
  : res ((loc + Z) * Npfidpool) :=
  let! (o, q) := lookup_fid (fid_hash n) n q in
  let! (r, q) :=
    match o with
    | Some l =>
        let q := emit (path_events srv o) q in
        if srv_loosefid srv then
          let! q := upd_fid l (fun f => set_flags (Z.lor (flags f) FID_FLAGS_ZOMBIE) f) q in
          Ret (None, q)
        else Ret (Some EEXIST, q)
    | None => Ret (None, q)
    end in
  match r with
  | Some e => Ret (inr e, q)
  | None =>
      match create_fid n mem_ok q with
      | Some (l, q) =>
          let! q := np_fid_incref l q in
          let! q := link_fid (fid_hash n) l q in
          Ret (inl l, q)
      | None => Ret (inr ENOMEM, q)
      end
  end.

(** The first locked section of [np_fid_decref] (under [f->lock]) ... *)
Definition np_fid_decref_drop (l : loc) (q : Npfidpool) : res (Z * Npfidpool) :=
  let! f := load_fid q l in
  let! q := upd_fid l (set_refcount (refcount f - 1)) q in
  Ret (refcount f - 1, q).

(** ... and the rest, when the count reached zero (under the pool lock). *)
Definition np_fid_decref_reap (srv : srv_conf) (l : loc) (q : Npfidpool) : res Npfidpool :=
  let! f := load_fid q l in
  let! q := unlink_fid (fid_hash (fid f)) l q in
  let! (_, q) := destroy_fid srv l q in
  Ret q.

(** [true] when the caller's pointer was set to [NULL]. *)
Definition np_fid_decref (srv : srv_conf) (l : loc) (q : Npfidpool) : res (bool * Npfidpool) :=
  let! (n, q) := np_fid_decref_drop l q in
  if n =? 0 then let! q := np_fid_decref_reap srv l q in Ret (true, q)
  else Ret (false, q).

Definition np_fid_decref_bynum (srv : srv_conf) (n : Z) (q : Npfidpool) : res Npfidpool :=
  let! (o, q) := lookup_fid (fid_hash n) n q in
  match o with
  | None => Ret q
  | Some l =>
      let! f := load_fid q l in
      let! q := upd_fid l (set_refcount (refcount f - 1)) q in
      if refcount f - 1 =? 0 then
        let! q := unlink_fid (fid_hash n) l q in
        let! (_, q) := destroy_fid srv l q in
        Ret q
      else Ret q
  end.

(** ** Representation

    [seg h pv hd l pv' hd']: the objects [l] are chained from [hd] on, the
    first one's [prev] is [pv], the last one is [pv'] and its [next] is [hd']. *)
Fixpoint seg (h : gmap loc Npfid) (pv hd : option loc) (l : list loc) (pv' hd' : option loc)
  : Prop :=
  match l with
  | [] => pv = pv' /\ hd = hd'
  | x :: l => hd = Some x /\ exists f, h !! x = Some f /\ prev f = pv /\
                seg h (Some x) (next f) l pv' hd'
  end.

Definition chain (h : gmap loc Npfid) (hd : option loc) (l : list loc) : Prop :=
  exists last, seg h None hd l last None.

(** The fid number of an object and whether it is still in use. *)
Definition names (h : gmap loc Npfid) (n : Z) (x : loc) : Prop :=
  exists f, h !! x = Some f /\ fid f = n /\ is_zombie f = false.

(** [bs] are the buckets: they hold every live object once, in the bucket of
    its number, with a positive reference count, and no number is in use
    twice. *)
Record pool_inv (q : Npfidpool) (bs : list (list loc)) : Prop := {
  inv_size : length bs = 64%nat;
  inv_chains : Forall2 (chain (fids q)) (htable q) bs;
  inv_nodup : NoDup (concat bs);
  inv_all : forall x, x ∈ concat bs <-> is_Some (fids q !! x);
  inv_hash : forall i b x f, bs !! i = Some b -> x ∈ b -> fids q !! x = Some f ->
    fid_hash (fid f) = i;
  inv_refs : forall x f, fids q !! x = Some f -> 1 <= refcount f;
  inv_unique : forall n x y, names (fids q) n x -> names (fids q) n y -> x = y;
}.

(** All of an object but its links. *)
Definition body (f : Npfid) : Npfid := set_prev None (set_next None f).

(** Two heaps that differ only in the links of the objects [l]. *)
Definition relinked (l : list loc) (h h' : gmap loc Npfid) : Prop :=
  (forall x, body <$> h' !! x = body <$> h !! x) /\ (forall x, x ∉ l -> h' !! x = h !! x).

(** The table seen from outside: its objects, without the links. *)
Definition abs (q : Npfidpool) : gmap loc Npfid := body <$> fids q.

Definition incref (f : Npfid) : Npfid := set_refcount (refcount f + 1) f.
Definition decref (f : Npfid) : Npfid := set_refcount (refcount f - 1) f.

Definition demo_srv : srv_conf :=
  {| srv_loosefid := false; srv_auth_clunk := false; srv_fiddestroy := true; srv_get_path := true |}.

(** A table with the one fid 5. *)
Definition demo_pool : Npfidpool :=
  match np_fid_create demo_srv 5 true np_fidpool_create with
  | Ret (_, q) => q
  | _ => np_fidpool_create
  end.

(** ** Segments *)

Lemma seg_app h pv hd l1 l2 pv' hd' :
  seg h pv hd (l1 ++ l2) pv' hd' <->
  exists m n, seg h pv hd l1 m n /\ seg h m n l2 pv' hd'.
Proof.
  revert pv hd; induction l1 as [|x l1 IH]; intros pv hd; cbn.
  - split; [eauto 10|]. intros (m & n & [-> ->] & ?). done.
  - setoid_rewrite IH. split.
    + intros (-> & f & E & P & m & n & ? & ?). eauto 12.
    + intros (m & n & (-> & f & E & P & S1) & S2). eauto 12.
Qed.

Lemma seg_agree h h' pv hd l pv' hd' : (forall x, x ∈ l -> h' !! x = h !! x) ->
  seg h pv hd l pv' hd' -> seg h' pv hd l pv' hd'.
Proof.
  revert pv hd; induction l as [|x l IH]; intros pv hd Hl; cbn; [done|].
  intros (-> & f & E & P & S). split; [done|]. exists f. rewrite Hl by left.
  split; [done|]. split; [done|]. apply IH; [|done]. intros y Hy. apply Hl. by right.
Qed.

Lemma seg_insert h pv hd l pv' hd' x f : x ∉ l ->
  seg h pv hd l pv' hd' -> seg (<[x := f]> h) pv hd l pv' hd'.
Proof.
  intros Hx. apply seg_agree. intros y Hy. rewrite lookup_insert_ne; [done|]. by intros ->.
Qed.

(** Changing an object of the chain and leaving its links. *)
Lemma seg_update h pv hd l pv' hd' x f g : h !! x = Some f ->
  next g = next f -> prev g = prev f ->
  seg h pv hd l pv' hd' -> seg (<[x := g]> h) pv hd l pv' hd'.
Proof.
  intros Hx Hn Hp. revert pv hd; induction l as [|y l IH]; intros pv hd; cbn; [done|].
  intros (-> & f' & E & P & S). split; [done|]. destruct (decide (x = y)) as [->|Hne].
  - exists g. rewrite lookup_insert_eq. replace f' with f in * by congruence.
    rewrite Hn, Hp. eauto.
  - exists f'. rewrite lookup_insert_ne by done. eauto.
Qed.

Lemma seg_lookup h pv hd l pv' hd' x : seg h pv hd l pv' hd' -> x ∈ l -> is_Some (h !! x).
Proof.
  revert pv hd; induction l as [|y l IH]; intros pv hd; [by intros _ ?%elem_of_nil|].
  intros (-> & f & E & P & S) [->|Hx]%elem_of_cons; eauto.
Qed.

Lemma seg_last h pv hd l m n : seg h pv hd l m n -> l <> [] -> exists w, m = Some w.
Proof.
  intros Hs Hl. destruct l as [|w l _] using rev_ind; [done|].
  apply seg_app in Hs as (? & ? & _ & (_ & ? & _ & _ & <- & _)). eauto.
Qed.

Lemma upd_fid_run l g q f : fids q !! l = Some f ->
  upd_fid l g q = Ret (set_fids (<[l := g f]> (fids q)) q).
Proof. intros E. unfold upd_fid, load_fid. by rewrite E. Qed.

Lemma load_fid_run l q f : fids q !! l = Some f -> load_fid q l = Ret f.
Proof. intros E. unfold load_fid. by rewrite E. Qed.

Lemma relinked_refl l h : relinked l h h.
Proof. done. Qed.

Lemma relinked_trans l h1 h2 h3 : relinked l h1 h2 -> relinked l h2 h3 -> relinked l h1 h3.
Proof.
  intros [B1 O1] [B2 O2]. split; intros x; [by rewrite B2|]. intros Hx. by rewrite O2, O1.
Qed.

Lemma relinked_weaken l l' h h' : (forall x, x ∈ l -> x ∈ l') -> relinked l h h' -> relinked l' h h'.
Proof. intros Hl [B O]. split; [done|]. intros x Hx. apply O. auto. Qed.

Lemma relinked_insert l h x f g : h !! x = Some f -> body g = body f -> x ∈ l ->
  relinked l h (<[x := g]> h).
Proof.
  intros E B Hx. split; intros y.
  - destruct (decide (x = y)) as [->|]; [rewrite lookup_insert_eq, E; cbn; congruence|].
    by rewrite lookup_insert_ne.
  - intros Hy. rewrite lookup_insert_ne; [done|]. by intros ->.
Qed.

Lemma relinked_body l h h' x f : relinked l h h' -> h !! x = Some f ->
  exists f', h' !! x = Some f' /\ body f' = body f.
Proof.
  intros [B _] E. specialize (B x). rewrite E in B. destruct (h' !! x) as [f'|]; [|done].
  exists f'. split; [done|]. cbn in B. congruence.
Qed.

(** The links on the two sides of an object that leaves its chain. *)
Lemma cut_left q i hd l1 pv x nx : htable q !! i = Some hd -> NoDup l1 ->
  seg (fids q) None hd l1 pv (Some x) ->
  exists q' hd', (match pv with
     | Some y => upd_fid y (set_next nx) q
     | None => Ret (set_head i nx q)
     end) = Ret q' /\ events q' = events q /\ htable q' = <[i := hd']> (htable q) /\
    seg (fids q') None hd' l1 pv nx /\ relinked l1 (fids q) (fids q') /\
    (l1 <> [] -> hd' = hd).
Proof.
  intros Hi Hnd Hs. destruct l1 as [|y l1 _] using rev_ind.
  - destruct Hs as [<- ->]. eexists _, nx. repeat (split; [done|]). done.
  - apply seg_app in Hs as (m & n & S1 & (-> & f & E & P & <- & Hn)).
    apply NoDup_app in Hnd as (_ & Hy & _).
    rewrite (upd_fid_run _ _ _ _ E). eexists _, hd. split; [done|]. split; [done|]. cbn.
    split; [by rewrite list_insert_id|]. split; [|split; [|done]].
    + apply seg_app. exists m, (Some y). split; [apply seg_insert; [|done]|].
      { intros Hin. apply (Hy y Hin). left. }
      cbn. split; [done|]. eexists. rewrite lookup_insert_eq. done.
    + eapply relinked_insert; [done|done|]. apply elem_of_app. right. left.
Qed.

Lemma cut_right q x nx l2 last pv : NoDup l2 ->
  seg (fids q) (Some x) nx l2 last None ->
  exists q' last', upd_opt nx (set_prev pv) q = Ret q' /\ events q' = events q /\
    htable q' = htable q /\ seg (fids q') pv nx l2 last' None /\
    relinked l2 (fids q) (fids q').
Proof.
  intros Hnd Hs. destruct l2 as [|z l2].
  - destruct Hs as [<- ->]. exists q, pv. done.
  - destruct Hs as (-> & f & E & P & S). cbn. apply NoDup_cons in Hnd as [Hz _].
    rewrite (upd_fid_run _ _ _ _ E). eexists _, last. split; [done|]. split; [done|].
    split; [done|]. cbn. split; [split; [done|]; eexists; rewrite lookup_insert_eq|].
    + split; [done|]. split; [done|]. cbn. by apply seg_insert.
    + eapply relinked_insert; [done|done|left].
Qed.

(** Putting an object in front of a chain. *)
Lemma push_front q i hd x f l : htable q !! i = Some hd -> NoDup l -> x ∉ l ->
  fids q !! x = Some f -> next f = hd -> prev f = None -> chain (fids q) hd l ->
  exists q', upd_opt hd (set_prev (Some x)) q = Ret q' /\ events q' = events q /\
    htable q' = htable q /\ chain (fids q') (Some x) (x :: l) /\
    relinked l (fids q) (fids q').
Proof.
  intros Hi Hnd Hx Hf Hn Hp [last Hs]. destruct l as [|y l].
  - destruct Hs as [<- ->]. exists q. do 3 (split; [done|]). split; [|done].
    eexists. cbn. split; [done|]. exists f. rewrite Hn. eauto.
  - destruct Hs as (-> & g & E & P & S). apply NoDup_cons in Hnd as [Hy _]. cbn.
    rewrite (upd_fid_run _ _ _ _ E). eexists. do 3 (split; [done|]). cbn.
    split; [|eapply relinked_insert; [done|done|left]].
    exists last. cbn. split; [done|]. exists f.
    rewrite lookup_insert_ne by (intros ->; apply Hx; left).
    split; [done|]. split; [done|]. split; [done|]. eexists. rewrite lookup_insert_eq.
    split; [done|]. split; [done|]. cbn. by apply seg_insert.
Qed.

(** ** Operations on one bucket *)

Lemma seg_chain h pv hd l last : seg h pv hd l last None -> pv = None -> chain h hd l.
Proof. intros Hs ->. by exists last. Qed.

Lemma chain_split h hd l1 x l2 : chain h hd (l1 ++ x :: l2) ->
  exists f pv last, h !! x = Some f /\ prev f = pv /\ seg h None hd l1 pv (Some x) /\
    seg h (Some x) (next f) l2 last None.
Proof.
  intros [last Hs]. apply seg_app in Hs as (m & n & S1 & (-> & f & E & P & S2)). eauto 10.
Qed.

Lemma nodup_split (l1 : list loc) x l2 : NoDup (l1 ++ x :: l2) ->
  NoDup l1 /\ NoDup l2 /\ (x ∉ l1) /\ (x ∉ l2) /\ (forall y, y ∈ l1 -> y ∉ l2).
Proof.
  intros Hnd. apply NoDup_app in Hnd as (H1 & Hd & Hnd). apply NoDup_cons in Hnd as [Hx H2].
  split; [done|]. split; [done|]. split; [intros Hin; apply (Hd x Hin); left|].
  split; [done|]. intros y Hy Hy2. apply (Hd y Hy). by right.
Qed.

Lemma in_split (x : loc) l1 l2 :
  (forall y, y ∈ l1 -> y ∈ l1 ++ x :: l2) /\ (forall y, y ∈ l2 -> y ∈ l1 ++ x :: l2) /\
  x ∈ l1 ++ x :: l2 /\ (forall y, y ∈ l1 ++ l2 -> y ∈ l1 ++ x :: l2).
Proof.
  setoid_rewrite elem_of_app. setoid_rewrite elem_of_cons. naive_solver.
Qed.

(** The relinked heap keeps the segments of the other side. *)
Lemma seg_relinked l h h' pv hd k pv' hd' : relinked l h h' -> (forall y, y ∈ k -> y ∉ l) ->
  seg h pv hd k pv' hd' -> seg h' pv hd k pv' hd'.
Proof. intros [_ O] Hk. apply seg_agree. auto. Qed.

Lemma unlink_run q i hd l1 x l2 : htable q !! i = Some hd ->
  chain (fids q) hd (l1 ++ x :: l2) -> NoDup (l1 ++ x :: l2) ->
  exists q' hd', unlink_fid i x q = Ret q' /\ events q' = events q /\
    htable q' = <[i := hd']> (htable q) /\ chain (fids q') hd' (l1 ++ l2) /\
    relinked (l1 ++ x :: l2) (fids q) (fids q') /\ fids q' !! x = body <$> fids q !! x.
Proof.
  intros Hi Hc Hnd. apply chain_split in Hc as (f & pv & last & E & P & S1 & S2).
  apply nodup_split in Hnd as (N1 & N2 & X1 & X2 & D). unfold unlink_fid.
  rewrite (load_fid_run _ _ _ E). cbn [res_bind]. rewrite P.
  destruct (cut_left q i hd l1 pv x (next f) Hi N1 S1) as (q1 & hd1 & -> & V1 & T1 & S1' & R1 & _).
  cbn [res_bind]. destruct (cut_right q1 x (next f) l2 last pv N2) as
    (q2 & last2 & -> & V2 & T2 & S2' & R2).
  { eapply seg_relinked; [exact R1| |exact S2]. intros y Hy Hy1. by apply (D y). }
  cbn [res_bind].
  assert (E2 : fids q2 !! x = Some f).
  { destruct R1 as [_ O1], R2 as [_ O2]. by rewrite O2, O1. }
  rewrite (upd_fid_run _ _ _ _ E2). exists (set_fids (<[x := set_prev None (set_next None f)]> (fids q2)) q2), hd1. split; [done|]. cbn.
  split; [congruence|]. split; [congruence|].
  split.
  - exists last2. apply seg_app. exists pv, (next f). split; apply seg_insert; try done.
    eapply seg_relinked; [exact R2| |exact S1']. intros y Hy Hy2. by apply (D y).
  - rewrite lookup_insert_eq, E. split; [|done].
    destruct (in_split x l1 l2) as (I1 & I2 & I3 & _).
    eapply relinked_trans; [eapply relinked_weaken; [exact I1|exact R1]|].
    eapply relinked_trans; [eapply relinked_weaken; [exact I2|exact R2]|].
    eapply relinked_insert; [exact E2|done|exact I3].
Qed.

Lemma optimize_run q i hd y l0 x l2 : htable q !! i = Some hd ->
  chain (fids q) hd ((y :: l0) ++ x :: l2) -> NoDup ((y :: l0) ++ x :: l2) ->
  exists q', optimize_fid i x q = Ret q' /\ events q' = events q /\
    htable q' = <[i := Some x]> (htable q) /\
    chain (fids q') (Some x) (x :: (y :: l0) ++ l2) /\
    relinked ((y :: l0) ++ x :: l2) (fids q) (fids q').
Proof.
  set (l1 := y :: l0). intros Hi Hc Hnd.
  apply chain_split in Hc as (f & pv & last & E & P & S1 & S2).
  apply nodup_split in Hnd as (N1 & N2 & X1 & X2 & D). unfold optimize_fid.
  rewrite (load_fid_run _ _ _ E). cbn [res_bind]. rewrite P.
  destruct (cut_right q x (next f) l2 last pv N2 S2) as (q1 & last1 & -> & V1 & T1 & S2' & R1).
  cbn [res_bind].
  assert (Hpv : exists w, pv = Some w).
  { eapply seg_last; [exact S1|done]. }
  destruct Hpv as [w ->].
  destruct (cut_left q1 i hd l1 (Some w) x (next f)) as (q2 & hd2 & Ew & V2 & T2 & S1' & R2 & Hhd);
    [congruence|done| |].
  { eapply seg_relinked; [exact R1| |exact S1]. auto. }
  rewrite Ew. cbn [res_bind]. rewrite Hhd in * by done. clear Hhd.
  assert (Hi2 : htable q2 !! i = Some hd).
  { rewrite T2, T1. apply list_lookup_insert_eq. by eapply lookup_lt_Some. }
  assert (E2 : fids q2 !! x = Some f).
  { destruct R1 as [_ O1], R2 as [_ O2]. by rewrite O2, O1. }
  rewrite (upd_fid_run _ _ _ _ E2). cbn [res_bind]. unfold load_head. cbn [set_fids htable].
  rewrite Hi2. cbn [res_bind].
  erewrite (upd_fid_run x (set_next hd)) by (cbn; apply lookup_insert_eq). cbn [res_bind fids].
  set (q3 := set_fids _ _).
  assert (F3 : fids q3 = <[x := set_next hd (set_prev None f)]> (fids q2)).
  { subst q3. cbn. by rewrite insert_insert_eq. }
  assert (C3 : chain (fids q3) hd (l1 ++ l2)).
  { exists last1. rewrite F3. apply seg_app. exists (Some w), (next f).
    split; apply seg_insert; try done.
    eapply seg_relinked; [exact R2| |exact S2']. intros z Hz Hz1. by apply (D z). }
  assert (Hdw : hd = Some y) by (by destruct S1).
  destruct (push_front q3 i hd x (set_next hd (set_prev None f)) (l1 ++ l2))
    as (q4 & E4 & V4 & T4 & C4 & R4); try done.
  { apply NoDup_app. split; [done|]. split; [done|done]. }
  { intros [|]%elem_of_app; done. }
  { rewrite F3. apply lookup_insert_eq. }
  rewrite Hdw in E4 |- *. cbn [upd_opt] in E4. rewrite E4. cbn [res_bind].
  eexists. split; [done|]. cbn [set_head set_htable fids htable events].
  split; [subst q3; cbn in *; congruence|].
  split; [subst q3; cbn in *; rewrite T4, T2, T1, list_insert_insert_eq; done|].
  split; [done|].
  destruct (in_split x l1 l2) as (I1 & I2 & I3 & I4).
  eapply relinked_trans; [eapply relinked_weaken; [exact I2|exact R1]|].
  eapply relinked_trans; [eapply relinked_weaken; [exact I1|exact R2]|].
  eapply relinked_trans; [|eapply relinked_weaken; [exact I4|exact R4]].
  rewrite F3. eapply relinked_insert; [exact E2|done|exact I3].
Qed.

Lemma link_run q i hd l x f : htable q !! i = Some hd -> chain (fids q) hd l -> NoDup l ->
  x ∉ l -> fids q !! x = Some f ->
  exists q', link_fid i x q = Ret q' /\ events q' = events q /\
    htable q' = <[i := Some x]> (htable q) /\ chain (fids q') (Some x) (x :: l) /\
    relinked (x :: l) (fids q) (fids q').
Proof.
  intros Hi [last Hc] Hnd Hx E. unfold link_fid, load_head. rewrite Hi. cbn [res_bind].
  rewrite (upd_fid_run _ _ _ _ E). cbn [res_bind]. set (q1 := set_fids _ _).
  destruct (push_front q1 i hd x (set_prev None (set_next hd f)) l)
    as (q2 & -> & V2 & T2 & C2 & R2); try done.
  { cbn. apply lookup_insert_eq. }
  { exists last. cbn. by apply seg_insert. }
  cbn [res_bind]. eexists. split; [done|]. cbn. split; [done|]. split; [by rewrite T2|].
  split; [done|]. eapply relinked_trans; [|eapply relinked_weaken; [|exact R2]; by right].
  eapply relinked_insert; [exact E|done|left].
Qed.

Lemma lookup_chain_run q n hd l fuel : chain (fids q) hd l -> (length l < fuel)%nat ->
  exists o, lookup_chain fuel hd n q = Ret o /\
    match o with
    | Some x => x ∈ l /\ names (fids q) n x
    | None => forall x, x ∈ l -> ~ names (fids q) n x
    end.
Proof.
  intros [last Hs]. revert Hs fuel. generalize (@None loc) at 1 as pv. revert hd.
  induction l as [|x l IH]; intros hd pv Hs fuel Hf.
  - destruct Hs as [_ ->]. exists None. split; [by destruct fuel|]. intros x ?%elem_of_nil. done.
  - destruct Hs as (-> & f & E & P & S). destruct fuel as [|fuel]; cbn in Hf; [lia|]. cbn.
    rewrite (load_fid_run _ _ _ E). cbn [res_bind].
    destruct ((fid f =? n) && negb (is_zombie f)) eqn:Hm.
    + apply andb_true_iff in Hm as [Hn Hz%negb_true_iff]. apply Z.eqb_eq in Hn.
      exists (Some x). split; [done|]. split; [left|]. by exists f.
    + destruct (IH _ _ S fuel) as (o & Eo & Ho); [lia|]. exists o. split; [done|].
      destruct o as [y|]; [destruct Ho; split; [by right|done]|].
      intros y [->|Hy]%elem_of_cons; [|by apply Ho]. intros (f' & E' & Hn & Hz).
      replace f' with f in * by congruence. rewrite Hn, Hz, Z.eqb_refl in Hm. done.
Qed.

(** ** The whole table *)

Lemma nodup_concat_disjoint (bs : list (list loc)) i j b c x : NoDup (concat bs) ->
  bs !! i = Some b -> bs !! j = Some c -> i <> j -> x ∈ b -> x ∉ c.
Proof.
  revert i j; induction bs as [|a bs IH]; intros i j Hnd Hi Hj Hij Hx Hc; [done|].
  cbn in Hnd. apply NoDup_app in Hnd as (_ & Hd & Hnd).
  assert (Hcat : forall k d, bs !! k = Some d -> forall y, y ∈ d -> y ∈ concat bs).
  { intros k d Hk y Hy. apply list_elem_of_In, in_concat. exists d.
    split; [|by apply list_elem_of_In]. apply list_elem_of_In. by eapply list_elem_of_lookup_2. }
  destruct i as [|i], j as [|j]; cbn in *; simplify_eq.
  - by apply (Hd x Hx), (Hcat j c).
  - by apply (Hd x Hc), (Hcat i b).
  - apply (IH i j); done || lia.
Qed.

Lemma concat_insert (bs : list (list loc)) i b : bs !! i = Some b ->
  exists rest, concat bs ≡ₚ b ++ rest /\ forall b', concat (<[i := b']> bs) ≡ₚ b' ++ rest.
Proof.
  revert i; induction bs as [|a bs IH]; intros i Hi; [done|]. destruct i as [|i]; cbn in *.
  - simplify_eq. exists (concat bs). done.
  - destruct (IH i Hi) as (rest & E & Hins). exists (a ++ rest). split.
    + rewrite E, !app_assoc, (Permutation_app_comm a b). done.
    + intros b'. rewrite (Hins b'), !app_assoc, (Permutation_app_comm a b'). done.
Qed.

Lemma names_body h h' n x : (body <$> h' !! x = body <$> h !! x) ->
  names h n x -> names h' n x.
Proof.
  intros B (f & E & Hn & Hz). rewrite E in B. destruct (h' !! x) as [f'|] eqn:E'; [|done].
  exists f'. cbn in B. injection B as B1 B2 B3 B4 B5 B6 B7 B8.
  unfold is_zombie. rewrite B1, B7. done.
Qed.

(** Every bucket but the [i]th is as before. *)
Lemma chains_insert h h' tbl bs i b b' hd' : NoDup (concat bs) ->
  Forall2 (chain h) tbl bs -> bs !! i = Some b ->
  (forall x, x ∈ concat bs -> x ∉ b -> h' !! x = h !! x) ->
  chain h' hd' b' -> Forall2 (chain h') (<[i := hd']> tbl) (<[i := b']> bs).
Proof.
  intros Hnd Hc Hi Hout Hb'. apply Forall2_same_length_lookup.
  pose proof (Forall2_length _ _ _ Hc) as Hl. split; [by rewrite !length_insert|].
  intros j o c Ho Hj. pose proof (lookup_lt_Some _ _ _ Hi) as Hlt.
  destruct (decide (i = j)) as [<-|Hne].
  - rewrite list_lookup_insert_eq in Ho by lia. rewrite list_lookup_insert_eq in Hj by lia. by simplify_eq.
  - rewrite list_lookup_insert_ne in Ho by done. rewrite list_lookup_insert_ne in Hj by done.
    destruct (Forall2_lookup_lr _ _ _ _ _ _ Hc Ho Hj) as [last Hs]. exists last.
    eapply seg_agree; [|exact Hs]. intros x Hx. apply Hout.
    + apply list_elem_of_In, in_concat. exists c.
      split; [|by apply list_elem_of_In]. apply list_elem_of_In. by eapply list_elem_of_lookup_2.
    + intros Hxb. by apply (nodup_concat_disjoint bs i j b c x).
Qed.

Lemma inv_bucket q bs n : pool_inv q bs -> exists hd b,
  htable q !! fid_hash n = Some hd /\ bs !! fid_hash n = Some b /\
  chain (fids q) hd b /\ NoDup b.
Proof.
  intros Hq. assert (Hlt : (fid_hash n < 64)%nat).
  { unfold fid_hash, FID_HTABLE_SIZE. pose proof (Z.mod_pos_bound n 64). lia. }
  destruct (lookup_lt_is_Some_2 bs (fid_hash n)) as [b Hb]; [rewrite (inv_size _ _ Hq); lia|].
  destruct (Forall2_lookup_r _ _ _ _ _ (inv_chains _ _ Hq) Hb) as (hd & Hhd & Hc).
  exists hd, b. do 3 (split; [done|]).
  destruct (concat_insert bs _ b Hb) as (rest & E & _).
  pose proof (inv_nodup _ _ Hq) as Hnd. rewrite E in Hnd. by apply NoDup_app in Hnd as (? & _).
Qed.

Lemma inv_mem q bs i b x : pool_inv q bs -> bs !! i = Some b -> x ∈ b -> x ∈ concat bs.
Proof.
  intros Hq Hi Hx. destruct (concat_insert bs i b Hi) as (rest & E & _). rewrite E.
  apply elem_of_app. by left.
Qed.

(** The bucket of a number holds every fid that bears it. *)
Lemma inv_names_bucket q bs n b x : pool_inv q bs -> bs !! fid_hash n = Some b ->
  names (fids q) n x -> x ∈ b.
Proof.
  intros Hq Hb (f & E & Hn & Hz).
  assert (Hx : x ∈ concat bs) by (apply (inv_all _ _ Hq); eauto).
  apply list_elem_of_In, in_concat in Hx as (c & Hc%list_elem_of_In & Hx%list_elem_of_In).
  apply list_elem_of_lookup_1 in Hc as [j Hj].
  pose proof (inv_hash _ _ Hq j c x f Hj Hx E) as Hh. rewrite Hn in Hh. subst j. by simplify_eq.
Qed.

(** A bucket is reordered. *)
Lemma inv_permute q q' bs i hd' b b' : pool_inv q bs -> bs !! i = Some b -> b' ≡ₚ b ->
  htable q' = <[i := hd']> (htable q) -> chain (fids q') hd' b' ->
  relinked b (fids q) (fids q') -> pool_inv q' (<[i := b']> bs).
Proof.
  intros Hq Hi Hp Ht Hc HR. destruct (concat_insert bs i b Hi) as (rest & E & Hins).
  assert (Hcat : concat (<[i := b']> bs) ≡ₚ concat bs) by (rewrite (Hins b'), E, Hp; done).
  assert (Hdom : forall x, is_Some (fids q' !! x) <-> is_Some (fids q !! x)).
  { intros x. pose proof (proj1 HR x) as B. destruct (fids q' !! x), (fids q !! x);
      try discriminate B; split; eauto. }
  split.
  - rewrite length_insert. apply Hq.
  - rewrite Ht. eapply chains_insert; eauto using inv_nodup, inv_chains.
    intros x _ Hx. by apply HR.
  - rewrite Hcat. apply Hq.
  - intros x. rewrite Hcat, Hdom. apply Hq.
  - intros j c x f Hj Hx Hf. pose proof HR as [B _]. specialize (B x). rewrite Hf in B.
    destruct (fids q !! x) as [f0|] eqn:E0; [|done]. cbn in B. injection B as B1 _ _ _ _ _ _ _.
    rewrite B1. destruct (decide (i = j)) as [<-|Hne].
    + rewrite list_lookup_insert_eq in Hj by (by eapply lookup_lt_Some). simplify_eq.
      rewrite Hp in Hx. by apply (inv_hash _ _ Hq i b x f0).
    + rewrite list_lookup_insert_ne in Hj by done. by apply (inv_hash _ _ Hq j c x f0).
  - intros x f Hf. pose proof HR as [B _]. specialize (B x). rewrite Hf in B.
    destruct (fids q !! x) as [f0|] eqn:E0; [|done]. cbn in B. injection B as _ B2 _ _ _ _ _ _.
    rewrite B2. by apply (inv_refs _ _ Hq x f0).
  - intros n x y Hx Hy. apply (inv_unique _ _ Hq n);
      (eapply names_body; [|eassumption]); symmetry; apply HR.
Qed.

(** An object changes, but not its place. *)
Lemma inv_update q bs x f g : pool_inv q bs -> fids q !! x = Some f ->
  next g = next f -> prev g = prev f -> fid g = fid f -> 1 <= refcount g ->
  (is_zombie g = false -> is_zombie f = false) ->
  pool_inv (set_fids (<[x := g]> (fids q)) q) bs.
Proof.
  intros Hq E Hn Hp Hid Href Hz.
  assert (Hl : forall y k, <[x := g]> (fids q) !! y = Some k ->
    (y = x /\ k = g) \/ fids q !! y = Some k).
  { intros y k. destruct (decide (x = y)) as [<-|]; [rewrite lookup_insert_eq|rewrite lookup_insert_ne by done]; [|auto].
    intros [= <-]. auto. }
  assert (Hnm : forall n y, names (<[x := g]> (fids q)) n y -> names (fids q) n y).
  { intros n y (k & Hk & Hkn & Hkz). destruct (Hl y k Hk) as [[-> ->]|Ho].
    - exists f. rewrite <- Hid. auto.
    - exists k. auto. }
  split; cbn [fids set_fids htable].
  - apply Hq.
  - eapply Forall2_impl; [apply Hq|]. intros o b [last Hs]. exists last. by eapply seg_update.
  - apply Hq.
  - intros y. rewrite (inv_all _ _ Hq y), lookup_insert_is_Some. split; [|intros [<-|[_ ?]]; eauto].
    intros Hy. destruct (decide (x = y)); auto.
  - intros i b y k Hi Hy Hk. destruct (Hl y k Hk) as [[-> ->]|Ho].
    + rewrite Hid. by apply (inv_hash _ _ Hq i b x f).
    + by apply (inv_hash _ _ Hq i b y k).
  - intros y k Hk. destruct (Hl y k Hk) as [[-> ->]|Ho]; [done|]. by apply (inv_refs _ _ Hq y k).
  - intros n y z Hy Hz'. apply (inv_unique _ _ Hq n); auto.
Qed.

Lemma inv_length q bs i b : pool_inv q bs -> bs !! i = Some b ->
  (length b <= size (fids q))%nat.
Proof.
  intros Hq Hi. destruct (concat_insert bs i b Hi) as (rest & E & _).
  pose proof (inv_nodup _ _ Hq) as Hnd. rewrite E in Hnd. apply NoDup_app in Hnd as (Hb & _).
  rewrite <- (size_list_to_set (C := gset loc) b Hb), <- (size_dom (D := gset loc)).
  apply subseteq_size. intros x Hx%elem_of_list_to_set. apply elem_of_dom.
  apply (inv_all _ _ Hq). by eapply inv_mem.
Qed.

Lemma relinked_abs l q q' : relinked l (fids q) (fids q') -> abs q' = abs q.
Proof. intros [B _]. apply map_eq. intros x. unfold abs. rewrite !lookup_fmap. apply B. Qed.

Lemma abs_lookup q x f : fids q !! x = Some f -> abs q !! x = Some (body f).
Proof. intros E. unfold abs. by rewrite lookup_fmap, E. Qed.

Lemma abs_lookup_inv q x g : abs q !! x = Some g -> exists f, fids q !! x = Some f /\ g = body f.
Proof.
  unfold abs. rewrite lookup_fmap. intros E. destruct (fids q !! x) as [f|]; [|done].
  exists f. cbn in E. split; congruence.
Qed.

Lemma names_abs q n x : names (abs q) n x <-> names (fids q) n x.
Proof.
  split.
  - intros (g & (f & E & ->)%abs_lookup_inv & Hn & Hz). exists f. done.
  - intros (f & E & Hn & Hz). exists (body f). split; [by apply abs_lookup|done].
Qed.

(** A new object in front of its bucket. *)
Lemma inv_push q q' bs hd' b x f : pool_inv q bs -> fids q !! x = None ->
  bs !! fid_hash (fid f) = Some b -> 1 <= refcount f ->
  (forall y, ~ names (fids q) (fid f) y) ->
  htable q' = <[fid_hash (fid f) := hd']> (htable q) -> chain (fids q') hd' (x :: b) ->
  relinked (x :: b) (<[x := f]> (fids q)) (fids q') ->
  pool_inv q' (<[fid_hash (fid f) := x :: b]> bs).
Proof.
  intros Hq Hx Hi Href Hno Ht Hc HR. destruct (concat_insert bs _ b Hi) as (rest & E & Hins).
  assert (Hxb : x ∉ concat bs) by (rewrite (inv_all _ _ Hq x), Hx; by intros []).
  assert (Hcat : concat (<[fid_hash (fid f) := x :: b]> bs) ≡ₚ x :: concat bs)
    by (rewrite (Hins _), E; done).
  assert (Hl : forall y k, fids q' !! y = Some k ->
    (y = x /\ body k = body f) \/ exists k0, fids q !! y = Some k0 /\ body k = body k0).
  { intros y k Hk. pose proof (proj1 HR y) as B. rewrite Hk in B.
    destruct (decide (x = y)) as [<-|Hne].
    - rewrite lookup_insert_eq in B. left. split; [done|]. cbn in B. congruence.
    - rewrite lookup_insert_ne in B by done. right. destruct (fids q !! y); [|done].
      eexists. split; [done|]. cbn in B. congruence. }
  assert (Hnm : forall n y, names (fids q') n y -> (y = x /\ n = fid f) \/ names (fids q) n y).
  { intros n y (k & Hk & Hn & Hz). destruct (Hl y k Hk) as [[-> B]|(k0 & Hk0 & B)];
      injection B as B1 _ _ _ _ _ B7 _; [left; split; congruence|].
    right. exists k0. unfold is_zombie in *. rewrite <- B1, <- B7. done. }
  split.
  - rewrite length_insert. apply Hq.
  - rewrite Ht. eapply chains_insert; eauto using inv_nodup, inv_chains.
    intros y Hy Hyb. rewrite (proj2 HR) by (intros [->|?]%elem_of_cons; done).
    rewrite lookup_insert_ne; [done|]. by intros ->.
  - rewrite Hcat. apply NoDup_cons. split; [done|apply Hq].
  - intros y. rewrite Hcat, elem_of_cons, (inv_all _ _ Hq y).
    pose proof (proj1 HR y) as B. destruct (decide (x = y)) as [<-|Hne].
    + rewrite lookup_insert_eq in B. destruct (fids q' !! x); [|done]. split; eauto.
    + rewrite lookup_insert_ne in B by done. destruct (fids q !! y), (fids q' !! y);
        try discriminate B; split; intros; destruct_or?; eauto; congruence.
  - intros j c y k Hj Hy Hk. destruct (Hl y k Hk) as [[-> B]|(k0 & Hk0 & B)];
      injection B as B1 _ _ _ _ _ _ _; rewrite B1;
      (destruct (decide (j = fid_hash (fid f))) as [->|Hne];
       [rewrite list_lookup_insert_eq in Hj by (by eapply lookup_lt_Some); simplify_eq
       |rewrite list_lookup_insert_ne in Hj by done]).
    + done.
    + destruct Hxb. eapply inv_mem; eauto.
    + apply (inv_hash _ _ Hq _ b y k0); [done| |done].
      apply elem_of_cons in Hy as [->|?]; [congruence|done].
    + by apply (inv_hash _ _ Hq j c y k0).
  - intros y k Hk. destruct (Hl y k Hk) as [[-> B]|(k0 & Hk0 & B)];
      injection B as _ B2 _ _ _ _ _ _; rewrite B2; [done|by apply (inv_refs _ _ Hq y k0)].
  - intros n y z Hy Hz.
    destruct (Hnm n y Hy) as [[Ey En]|Hy'], (Hnm n z Hz) as [[Ez En']|Hz']; subst.
    + done.
    + by destruct (Hno z).
    + by destruct (Hno y).
    + by apply (inv_unique _ _ Hq n).
Qed.

(** An object leaves its bucket and is freed. *)
Lemma inv_remove q q' bs i hd' l1 x l2 : pool_inv q bs -> bs !! i = Some (l1 ++ x :: l2) ->
  htable q' = <[i := hd']> (htable q) -> chain (fids q') hd' (l1 ++ l2) ->
  relinked (l1 ++ x :: l2) (delete x (fids q)) (delete x (fids q')) ->
  pool_inv (set_fids (delete x (fids q')) q') (<[i := l1 ++ l2]> bs).
Proof.
  intros Hq Hi Ht Hc HR. destruct (concat_insert bs i _ Hi) as (rest & E & Hins).
  pose proof (inv_nodup _ _ Hq) as Hnd.
  assert (Hcat : concat bs ≡ₚ x :: concat (<[i := l1 ++ l2]> bs)).
  { rewrite E, (Hins _). symmetry. rewrite <- !app_assoc. apply Permutation_middle. }
  rewrite Hcat in Hnd. apply NoDup_cons in Hnd as [Hx Hnd].
  assert (Hx12 : x ∉ l1 ++ l2).
  { intros Hin. apply Hx. rewrite (Hins _). apply elem_of_app. by left. }
  assert (Hl : forall y k, delete x (fids q') !! y = Some k ->
    y <> x /\ exists k0, fids q !! y = Some k0 /\ body k = body k0).
  { intros y k Hk. apply lookup_delete_Some in Hk as F. destruct F as [Hne _].
    split; [done|]. pose proof (proj1 HR y) as B. rewrite Hk, lookup_delete_ne in B by done.
    destruct (fids q !! y); [|done]. eexists. split; [done|]. cbn in B. congruence. }
  split; cbn [fids set_fids htable].
  - rewrite length_insert. apply Hq.
  - rewrite Ht. eapply chains_insert; [apply Hq|apply Hq|exact Hi| |].
    + intros y _ Hy. rewrite (proj2 HR) by done. apply lookup_delete_ne.
      intros ->. apply Hy. apply elem_of_app. right. left.
    + destruct Hc as [last Hs]. exists last. eapply seg_agree; [|exact Hs].
      intros y Hy. rewrite lookup_delete_ne; [done|]. by intros ->.
  - done.
  - intros y. pose proof (inv_all _ _ Hq y) as Ha. rewrite Hcat, elem_of_cons in Ha.
    pose proof (proj1 HR y) as B. destruct (decide (x = y)) as [<-|Hne].
    + rewrite lookup_delete_eq. split; [done|by intros []].
    + rewrite !lookup_delete_ne in B by done. rewrite lookup_delete_ne by done.
      assert (Hs : is_Some (fids q' !! y) <-> is_Some (fids q !! y)).
      { destruct (fids q !! y), (fids q' !! y); try discriminate B; split; eauto. }
      rewrite Hs, <- Ha. split; [by right|]. by intros [->|?].
  - intros j c y k Hj Hy Hk. destruct (Hl y k Hk) as (Hne & k0 & Hk0 & B).
    injection B as B1 _ _ _ _ _ _ _. rewrite B1. destruct (decide (i = j)) as [<-|Hij].
    + rewrite list_lookup_insert_eq in Hj by (by eapply lookup_lt_Some). simplify_eq.
      apply (inv_hash _ _ Hq i _ y k0 Hi); [|done]. by apply (in_split x l1 l2).
    + rewrite list_lookup_insert_ne in Hj by done. by apply (inv_hash _ _ Hq j c y k0).
  - intros y k Hk. destruct (Hl y k Hk) as (_ & k0 & Hk0 & B).
    injection B as _ B2 _ _ _ _ _ _. rewrite B2. by apply (inv_refs _ _ Hq y k0).
  - assert (Hnm : forall n y, names (delete x (fids q')) n y -> names (fids q) n y).
    { intros n y (k & Hk & Hn & Hz). destruct (Hl y k Hk) as (_ & k0 & Hk0 & B).
      injection B as B1 _ _ _ _ _ B7 _. exists k0. unfold is_zombie in *.
      rewrite <- B1, <- B7. done. }
    intros n y z Hy Hz. apply (inv_unique _ _ Hq n); auto.
Qed.

(** ** The operations *)

(** A move to the front of the bucket is all that a lookup changes. *)
Lemma lookup_fid_run q bs n : pool_inv q bs -> exists o q' bs',
  lookup_fid (fid_hash n) n q = Ret (o, q') /\ pool_inv q' bs' /\
  abs q' = abs q /\ events q' = events q /\
  match o with
  | Some x => names (fids q') n x
  | None => forall x, ~ names (fids q') n x
  end.
Proof.
  intros Hq. destruct (inv_bucket q bs n Hq) as (hd & b & Hi & Hb & Hc & Hnd).
  unfold lookup_fid, load_head. rewrite Hi. cbn [res_bind].
  destruct (lookup_chain_run q n hd b (S (size (fids q))) Hc) as (o & -> & Ho).
  { pose proof (inv_length _ _ _ _ Hq Hb). lia. }
  cbn [res_bind]. destruct o as [x|].
  2:{ exists None, q, bs. repeat (split; [done|]). intros x Hx.
      apply (Ho x); [|done]. by eapply inv_names_bucket. }
  destruct Ho as [Hx Hn]. case_bool_decide as Hh.
  { exists (Some x), q, bs. done. }
  apply list_elem_of_split in Hx as (l1 & l2 & ->). destruct l1 as [|y l0].
  { destruct Hc as [last (Hx & _)]. congruence. }
  destruct (optimize_run q _ hd y l0 x l2 Hi Hc Hnd) as (q' & -> & V & T & C & R).
  cbn [res_bind]. exists (Some x), q', (<[fid_hash n := x :: (y :: l0) ++ l2]> bs).
  split; [done|]. split.
  { eapply inv_permute; eauto. by rewrite Permutation_middle. }
  split; [by eapply relinked_abs|]. split; [done|].
  apply (names_body (fids q)); [apply R|done].
Qed.

Lemma abs_insert q x f : abs (set_fids (<[x := f]> (fids q)) q) = <[x := body f]> (abs q).
Proof. unfold abs. cbn. by rewrite fmap_insert. Qed.

Lemma incref_run q bs x f : pool_inv q bs -> fids q !! x = Some f ->
  exists q', np_fid_incref x q = Ret q' /\ pool_inv q' bs /\ events q' = events q /\
    abs q' = <[x := incref (body f)]> (abs q).
Proof.
  intros Hq E. unfold np_fid_incref. rewrite (upd_fid_run _ _ _ _ E).
  eexists. split; [done|]. split; [|split; [done|apply abs_insert]].
  pose proof (inv_refs _ _ Hq x f E). eapply inv_update; eauto. cbn. lia.
Qed.

Lemma names_get q n x : names (abs q) n x ->
  exists f, fids q !! x = Some f /\ abs q !! x = Some (body f) /\ fid f = n /\ is_zombie f = false.
Proof.
  intros (f & E & Hn & Hz)%names_abs. exists f. eauto using abs_lookup.
Qed.

Lemma zombie_set f : is_zombie (set_flags (Z.lor (flags f) FID_FLAGS_ZOMBIE) f) = true.
Proof.
  unfold is_zombie, FID_FLAGS_ZOMBIE. cbn [flags set_flags]. apply negb_true_iff, Z.eqb_neq.
  intros E. apply (f_equal (fun z => Z.testbit z 0)) in E.
  rewrite Z.land_spec, Z.lor_spec in E. cbn in E. by rewrite orb_true_r in E.
Qed.

Lemma find_run q bs n : pool_inv q bs -> exists o q' bs',
  np_fid_find n q = Ret (o, q') /\ pool_inv q' bs' /\ events q' = events q /\
  match o with
  | Some x => exists f, abs q !! x = Some f /\ fid f = n /\ is_zombie f = false /\
                abs q' = <[x := incref f]> (abs q)
  | None => (forall x, ~ names (abs q) n x) /\ abs q' = abs q
  end.
Proof.
  intros Hq. destruct (lookup_fid_run q bs n Hq) as (o & q1 & bs1 & E & H1 & A1 & V1 & Ho).
  unfold np_fid_find. rewrite E. cbn [res_bind]. destruct o as [x|].
  - rewrite <- names_abs in Ho. destruct (names_get _ _ _ Ho) as (f & Ef & Ea & Hn & Hz).
    destruct (incref_run q1 bs1 x f H1 Ef) as (q2 & -> & H2 & V2 & A2). cbn [res_bind].
    exists (Some x), q2, bs1. split; [done|]. split; [done|]. split; [congruence|].
    exists (body f). rewrite <- A1. eauto.
  - exists None, q1, bs1. split; [done|]. split; [done|]. split; [done|]. split; [|done].
    intros x. rewrite <- A1, names_abs. apply Ho.
Qed.

(** Lookup.  [np_fid_find] returns the one fid that is in use under the
    number asked for, with one more reference, or [NULL] when there is none;
    it changes nothing else, keeps the table well formed, and never follows a
    dangling pointer. *)
Theorem np_fid_find_spec q bs n : pool_inv q bs -> exists o q' bs',
  np_fid_find n q = Ret (o, q') /\ pool_inv q' bs' /\ events q' = events q /\
  match o with
  | Some x => exists f, abs q !! x = Some f /\ fid f = n /\ is_zombie f = false /\
                abs q' = <[x := incref f]> (abs q)
  | None => (forall x, ~ names (abs q) n x) /\ abs q' = abs q
  end.
Proof. apply find_run. Qed.

Definition new_fid (n : Z) : Npfid :=
  {| fid := n; refcount := 1; type := 0; user := None; tpool := None; aname := None;
     flags := 0; aux := None; next := None; prev := None |}.

(** The part of [np_fid_create] after the check for a fid in use. *)
Lemma create_run q bs n : pool_inv q bs -> (forall x, ~ names (fids q) n x) ->
  exists x q' bs', abs q !! x = None /\
    match create_fid n true q with
    | Some (l, q) => let! q := np_fid_incref l q in let! q := link_fid (fid_hash n) l q in
                     Ret (inl l, q)
    | None => Ret (inr ENOMEM, q)
    end = Ret (@inl loc Z x, q') /\ pool_inv q' bs' /\ events q' = events q /\
    abs q' = <[x := new_fid n]> (abs q).
Proof.
  intros Hq Hno. unfold create_fid. set (x := fresh (dom (fids q))).
  assert (Hx : fids q !! x = None) by (apply (not_elem_of_dom (D := gset loc)), is_fresh).
  destruct (inv_bucket q bs n Hq) as (hd & b & Hi & Hb & Hc & Hnd).
  unfold np_fid_incref. erewrite upd_fid_run by (cbn; apply lookup_insert_eq).
  cbn [res_bind fids set_fids]. rewrite insert_insert_eq.
  match goal with |- context [link_fid _ _ ?qq] => set (q1 := qq) end.
  assert (F1 : fids q1 = <[x := new_fid n]> (fids q)) by done.
  assert (Hxb : x ∉ b).
  { intros Hin. apply (inv_mem _ _ _ _ _ Hq Hb), (inv_all _ _ Hq) in Hin. rewrite Hx in Hin.
    by destruct Hin. }
  destruct (link_run q1 (fid_hash n) hd b x (new_fid n)) as (q2 & -> & V2 & T2 & C2 & R2); try done.
  { destruct Hc as [last Hs]. exists last. rewrite F1. by apply seg_insert. }
  { rewrite F1. apply lookup_insert_eq. }
  cbn [res_bind]. exists x, q2, (<[fid_hash n := x :: b]> bs).
  split; [unfold abs; by rewrite lookup_fmap, Hx|]. split; [done|]. split.
  { rewrite F1 in R2. apply (inv_push q q2 bs (Some x) b x (new_fid n)); try done. }
  split; [done|]. rewrite (relinked_abs _ _ _ R2). unfold abs. rewrite F1, fmap_insert. done.
Qed.

Lemma fid_create_run srv q bs n mem_ok : pool_inv q bs -> exists r q' bs',
  np_fid_create srv n mem_ok q = Ret (r, q') /\ pool_inv q' bs' /\
  (exists o, match o with Some x => names (abs q) n x | None => forall x, ~ names (abs q) n x end /\ events q' = events q ++ path_events srv o) /\
  ((forall x, ~ names (abs q) n x) ->
     if mem_ok then exists x, r = inl x /\ abs q !! x = None /\
                      abs q' = <[x := new_fid n]> (abs q)
     else r = inr ENOMEM /\ abs q' = abs q) /\
  (forall x f, abs q !! x = Some f -> fid f = n -> is_zombie f = false ->
     if srv_loosefid srv then
       let old := <[x := set_flags (Z.lor (flags f) FID_FLAGS_ZOMBIE) f]> (abs q) in
       if mem_ok then exists y, r = inl y /\ abs q !! y = None /\
                        abs q' = <[y := new_fid n]> old
       else r = inr ENOMEM /\ abs q' = old
     else r = inr EEXIST /\ abs q' = abs q).
Proof.
  intros Hq. destruct (lookup_fid_run q bs n Hq) as (o & q1 & bs1 & E & H1 & A1 & V1 & Ho).
  unfold np_fid_create. rewrite E, <- A1, <- V1. cbn [res_bind]. destruct o as [x|].
  - pose proof Ho as (f & Ef & Hn & Hz).
    assert (Hu : forall y g, abs q1 !! y = Some g -> fid g = n -> is_zombie g = false ->
      y = x /\ g = body f).
    { intros y g Hg Hgn Hgz. assert (y = x) as ->.
      { apply (inv_unique _ _ H1 n); [|done]. apply names_abs. by exists g. }
      split; [done|]. apply abs_lookup in Ef. congruence. }
    assert (Hex : ~ forall y, ~ names (abs q1) n y).
    { intros Hno. apply (Hno x), names_abs. done. }
    set (qe := emit (path_events srv (Some x)) q1). assert (He : pool_inv qe bs1) by (by destruct H1).
    assert (Vo : exists o, match o with Some y => names (abs q1) n y | None => forall y, ~ names (abs q1) n y end /\ events qe = events q1 ++ path_events srv o).
    { exists (Some x). split; [by apply names_abs|done]. }
    destruct (srv_loosefid srv).
    2:{ cbn [res_bind]. exists (inr EEXIST), qe, bs1. repeat (split; [done|]). done. }
    rewrite (upd_fid_run _ _ qe _ Ef). cbn [res_bind].
    set (g := set_flags (Z.lor (flags f) FID_FLAGS_ZOMBIE) f).
    set (q2 := set_fids _ qe). assert (Hg : is_zombie g = true) by apply zombie_set.
    assert (H2 : pool_inv q2 bs1).
    { apply (inv_update qe bs1 x f g); try done; [apply (inv_refs _ _ H1 x f Ef)]. }
    assert (A2 : abs q2 = <[x := set_flags (Z.lor (flags f) FID_FLAGS_ZOMBIE) (body f)]> (abs q1))
      by apply (abs_insert qe).
    assert (Hno : forall y, ~ names (fids q2) n y).
    { intros y (k & Hk & Hkn & Hkz). unfold q2 in Hk. cbn in Hk.
      destruct (decide (x = y)) as [<-|Hne]; [rewrite lookup_insert_eq in Hk; congruence|].
      rewrite lookup_insert_ne in Hk by done. apply Hne, (inv_unique _ _ H1 n); [done|].
      by exists k. }
    destruct mem_ok.
    + destruct (create_run q2 bs1 n H2 Hno) as (y & q3 & bs3 & Hy & -> & H3 & V3 & A3).
      exists (inl y), q3, bs3. split; [done|]. split; [done|]. split; [by rewrite V3|].
      split; [done|]. intros z k Hk Hkn Hkz. destruct (Hu z k Hk Hkn Hkz) as [-> ->].
      exists y. split; [done|]. rewrite A3, A2 in *. split; [|done].
      apply lookup_insert_None in Hy. tauto.
    + exists (inr ENOMEM), q2, bs1. split; [done|]. split; [done|]. split; [done|].
      split; [done|]. intros z k Hk Hkn Hkz. destruct (Hu z k Hk Hkn Hkz) as [-> ->]. done.
  - cbn [res_bind]. assert (Hna : forall y, ~ names (abs q1) n y).
    { intros y. rewrite names_abs. apply Ho. }
    assert (Hvac : forall (y : loc) g, abs q1 !! y = Some g -> fid g = n ->
      is_zombie g = false -> False).
    { intros y g Hg Hgn Hgz. apply (Hna y). by exists g. }
    destruct mem_ok.
    + destruct (create_run q1 bs1 n H1 Ho) as (y & q3 & bs3 & Hy & -> & H3 & V3 & A3).
      exists (inl y), q3, bs3. split; [done|]. split; [done|]. split; [exists None; cbn; by rewrite app_nil_r|].
      split; [eauto|]. intros z k Hk Hkn Hkz. by destruct (Hvac z k Hk Hkn Hkz).
    + exists (inr ENOMEM), q1, bs1. split; [done|]. split; [done|]. split; [exists None; cbn; by rewrite app_nil_r|].
      split; [done|]. intros z k Hk Hkn Hkz. by destruct (Hvac z k Hk Hkn Hkz).
Qed.

(** Creation.  On a number not in use, [np_fid_create] adds a zeroed fid
    with one reference.  On a number in use it fails with [EEXIST] and changes
    nothing, or, on a server that tolerates it ([SRV_FLAGS_LOOSEFID]), turns
    the old fid into a zombie that lookups no longer find and adds the new
    one.  When [malloc] fails the error is [ENOMEM] and no fid is added.  Only the fid in
    use is passed to the server's [get_path], whatever its type is. *)
Theorem np_fid_create_spec srv q bs n mem_ok : pool_inv q bs -> exists r q' bs',
  np_fid_create srv n mem_ok q = Ret (r, q') /\ pool_inv q' bs' /\
  (exists o, match o with Some x => names (abs q) n x | None => forall x, ~ names (abs q) n x end /\ events q' = events q ++ path_events srv o) /\
  ((forall x, ~ names (abs q) n x) ->
     if mem_ok then exists x, r = inl x /\ abs q !! x = None /\
                      abs q' = <[x := new_fid n]> (abs q)
     else r = inr ENOMEM /\ abs q' = abs q) /\
  (forall x f, abs q !! x = Some f -> fid f = n -> is_zombie f = false ->
     if srv_loosefid srv then
       let old := <[x := set_flags (Z.lor (flags f) FID_FLAGS_ZOMBIE) f]> (abs q) in
       if mem_ok then exists y, r = inl y /\ abs q !! y = None /\
                        abs q' = <[y := new_fid n]> old
       else r = inr ENOMEM /\ abs q' = old
     else r = inr EEXIST /\ abs q' = abs q).
Proof. apply fid_create_run. Qed.

(** Unlinking and freeing the last reference, from a table that differs from a
    well-formed one in the count of this fid only. *)
Lemma reap_run srv q bs x f g : pool_inv q bs -> fids q !! x = Some f ->
  next g = next f -> prev g = prev f -> fid g = fid f ->
  exists q' bs', np_fid_decref_reap srv x (set_fids (<[x := g]> (fids q)) q) = Ret q' /\
    pool_inv q' bs' /\ abs q' = delete x (abs q) /\
    events q' = events q ++ destroy_events srv (body g).
Proof.
  intros Hq E Hn Hp Hid. set (q1 := set_fids _ q).
  assert (E1 : fids q1 !! x = Some g) by (cbn; apply lookup_insert_eq).
  destruct (inv_bucket q bs (fid f) Hq) as (hd & b & Hi & Hb & [last Hs] & Hnd).
  assert (Hx : x ∈ b).
  { assert (Hx : x ∈ concat bs) by (apply (inv_all _ _ Hq); eauto).
    apply list_elem_of_In, in_concat in Hx as (c & Hc%list_elem_of_In & Hx%list_elem_of_In).
    apply list_elem_of_lookup_1 in Hc as [j Hj].
    pose proof (inv_hash _ _ Hq j c x f Hj Hx E). subst j. by simplify_eq. }
  apply list_elem_of_split in Hx as (l1 & l2 & ->).
  unfold np_fid_decref_reap. rewrite (load_fid_run _ _ _ E1). cbn [res_bind]. rewrite Hid.
  destruct (unlink_run q1 (fid_hash (fid f)) hd l1 x l2) as
    (q2 & hd2 & -> & V2 & T2 & C2 & R2 & E2); [done| |done|].
  { exists last. cbn. by eapply seg_update. }
  rewrite E1 in E2. cbn [res_bind]. unfold destroy_fid. rewrite (load_fid_run _ _ _ E2).
  cbn [res_bind emit]. eexists _, _. split; [reflexivity|]. split; [|split].
  - assert (HR : relinked (l1 ++ x :: l2) (delete x (fids q)) (delete x (fids q2))).
    { split; intros y; destruct (decide (x = y)) as [<-|Hne].
      - by rewrite !lookup_delete_eq.
      - rewrite !lookup_delete_ne by done. rewrite (proj1 R2 y). cbn.
        by rewrite lookup_insert_ne.
      - by rewrite !lookup_delete_eq.
      - intros Hy. rewrite !lookup_delete_ne by done. rewrite (proj2 R2 y Hy). cbn.
        by rewrite lookup_insert_ne. }
    destruct (inv_remove q q2 bs _ hd2 l1 x l2 Hq Hb T2 C2 HR). by split.
  - unfold abs. cbn. rewrite fmap_delete. fold (abs q2). rewrite (relinked_abs _ _ _ R2).
    subst q1. rewrite abs_insert. by rewrite delete_insert_eq.
  - cbn. by rewrite V2.
Qed.

Lemma decref_run srv q bs x f : pool_inv q bs -> abs q !! x = Some f ->
  exists last q' bs', np_fid_decref srv x q = Ret (last, q') /\ pool_inv q' bs' /\
  if refcount f =? 1 then
    last = true /\ abs q' = delete x (abs q) /\
    events q' = events q ++ destroy_events srv (decref f)
  else last = false /\ abs q' = <[x := decref f]> (abs q) /\ events q' = events q.
Proof.
  intros Hq (f0 & E & ->)%abs_lookup_inv. unfold np_fid_decref, np_fid_decref_drop.
  rewrite (load_fid_run _ _ _ E). cbn [res_bind]. rewrite (upd_fid_run _ _ _ _ E).
  cbn [res_bind]. change (refcount (body f0)) with (refcount f0).
  pose proof (inv_refs _ _ Hq x f0 E) as Hr. fold (decref f0).
  destruct (Z.eqb_spec (refcount f0) 1) as [H1|H1].
  - rewrite H1, Z.eqb_refl.
    destruct (reap_run srv q bs x f0 (decref f0) Hq E eq_refl eq_refl eq_refl)
      as (q' & bs' & -> & Hq' & A & V). cbn [res_bind]. eauto 10.
  - rewrite (proj2 (Z.eqb_neq _ _)) by lia. eexists false, _, bs. split; [reflexivity|].
    split; [|split; [done|split; [apply abs_insert|done]]].
    apply (inv_update q bs x f0); try done. cbn. lia.
Qed.

(** C20: release.  [np_fid_decref] on a live fid drops one reference; when it was
    the last one the fid leaves the table, the file system (or the auth or ctl
    layer) is told once, the references it held are released, the object is
    freed and the caller's pointer is cleared. *)
Theorem np_fid_decref_spec srv q bs x f : pool_inv q bs -> abs q !! x = Some f ->
  exists last q' bs', np_fid_decref srv x q = Ret (last, q') /\ pool_inv q' bs' /\
  if refcount f =? 1 then
    last = true /\ abs q' = delete x (abs q) /\
    events q' = events q ++ destroy_events srv (decref f)
  else last = false /\ abs q' = <[x := decref f]> (abs q) /\ events q' = events q.
Proof. apply decref_run. Qed.

Lemma decref_bynum_run srv q bs n : pool_inv q bs ->
  exists q' bs', np_fid_decref_bynum srv n q = Ret q' /\ pool_inv q' bs' /\
  ((forall x, ~ names (abs q) n x) -> abs q' = abs q /\ events q' = events q) /\
  (forall x f, abs q !! x = Some f -> fid f = n -> is_zombie f = false ->
     if refcount f =? 1 then
       abs q' = delete x (abs q) /\ events q' = events q ++ destroy_events srv (decref f)
     else abs q' = <[x := decref f]> (abs q) /\ events q' = events q).
Proof.
  intros Hq. destruct (lookup_fid_run q bs n Hq) as (o & q1 & bs1 & E & H1 & A1 & V1 & Ho).
  unfold np_fid_decref_bynum. rewrite E, <- A1, <- V1. cbn [res_bind]. destruct o as [x|].
  2:{ exists q1, bs1. split; [done|]. split; [done|]. split; [done|].
      intros x f Hx Hn Hz. destruct (Ho x). apply names_abs. by exists f. }
  pose proof Ho as (f & Ef & Hn & Hz). rewrite (load_fid_run _ _ _ Ef). cbn [res_bind].
  rewrite (upd_fid_run _ _ _ _ Ef). cbn [res_bind]. fold (decref f).
  assert (Hex : ~ forall y, ~ names (abs q1) n y).
  { intros Hno. apply (Hno x), names_abs. done. }
  assert (Hu : forall y g, abs q1 !! y = Some g -> fid g = n -> is_zombie g = false ->
    y = x /\ g = body f).
  { intros y g Hg Hgn Hgz. assert (y = x) as ->.
    { apply (inv_unique _ _ H1 n); [|done]. apply names_abs. by exists g. }
    split; [done|]. apply abs_lookup in Ef. congruence. }
  pose proof (inv_refs _ _ H1 x f Ef) as Hr.
  destruct (Z.eqb_spec (refcount f - 1) 0) as [Hr1|Hr1].
  - destruct (reap_run srv q1 bs1 x f (decref f) H1 Ef eq_refl eq_refl eq_refl)
      as (q' & bs' & Er & Hq' & A & V). exists q', bs'. split.
    { unfold np_fid_decref_reap in Er. erewrite load_fid_run in Er by (cbn; apply lookup_insert_eq).
      cbn [res_bind fid decref set_refcount] in Er. rewrite Hn in Er. exact Er. }
    split; [done|]. split; [done|]. intros y g Hg Hgn Hgz.
    destruct (Hu y g Hg Hgn Hgz) as [-> ->]. cbn [refcount body set_prev set_next].
    rewrite (proj2 (Z.eqb_eq _ _)) by lia. done.
  - eexists _, bs1. split; [reflexivity|]. split.
    { apply (inv_update q1 bs1 x f); try done. cbn. lia. }
    split; [done|]. intros y g Hg Hgn Hgz. destruct (Hu y g Hg Hgn Hgz) as [-> ->].
    cbn [refcount body set_prev set_next]. rewrite (proj2 (Z.eqb_neq _ _)) by lia.
    split; [apply abs_insert|done].
Qed.

(** Release by number, the path a clunk takes: the same for the fid in use
    under the number, nothing when there is none. *)
Theorem np_fid_decref_bynum_spec srv q bs n : pool_inv q bs ->
  exists q' bs', np_fid_decref_bynum srv n q = Ret q' /\ pool_inv q' bs' /\
  ((forall x, ~ names (abs q) n x) -> abs q' = abs q /\ events q' = events q) /\
  (forall x f, abs q !! x = Some f -> fid f = n -> is_zombie f = false ->
     if refcount f =? 1 then
       abs q' = delete x (abs q) /\ events q' = events q ++ destroy_events srv (decref f)
     else abs q' = <[x := decref f]> (abs q) /\ events q' = events q).
Proof. apply decref_bynum_run. Qed.

(** ** The table as a whole *)

Lemma seg_nil_chain h pv l last n : seg h pv None l last n -> l = [].
Proof. destruct l; [done|]. intros [[=] _]. Qed.

Lemma count_chain_run q pv hd l last fuel n : seg (fids q) pv hd l last None ->
  (length l < fuel)%nat -> count_chain fuel hd q n = Ret (n + zlength l).
Proof.
  revert pv hd fuel n. induction l as [|x l IH]; intros pv hd fuel n Hs Hf.
  - destruct Hs as [_ ->]. rewrite Z.add_0_r. by destruct fuel.
  - destruct Hs as (-> & f & E & _ & S). destruct fuel as [|fuel]; cbn in Hf; [lia|].
    cbn [count_chain]. rewrite (load_fid_run _ _ _ E). cbn [res_bind].
    rewrite (IH _ _ _ _ S) by lia. f_equal. unfold zlength. cbn. lia.
Qed.

Lemma count_buckets_run q tbl bs n : Forall2 (chain (fids q)) tbl bs ->
  Forall (fun b : list loc => (length b <= size (fids q))%nat) bs ->
  count_buckets tbl q n = Ret (n + zlength (concat bs)).
Proof.
  intros Hc. revert n. induction Hc as [|o b tbl bs [last Hs] _ IH]; intros n Hb;
    cbn [count_buckets concat].
  - f_equal. unfold zlength. cbn. lia.
  - apply Forall_cons_1 in Hb as [Hb1 Hb]. rewrite (count_chain_run _ _ _ _ _ _ _ Hs) by lia.
    cbn [res_bind]. rewrite IH by done. f_equal. unfold zlength. rewrite length_app. lia.
Qed.

Lemma inv_total q bs : pool_inv q bs -> length (concat bs) = size (abs q).
Proof.
  intros Hq. unfold abs. rewrite map_size_fmap, <- (size_dom (D := gset loc)).
  rewrite <- (size_list_to_set (C := gset loc) _ (inv_nodup _ _ Hq)). f_equal.
  apply set_eq. intros x. rewrite elem_of_list_to_set, elem_of_dom. apply Hq.
Qed.

Lemma inv_lengths q bs : pool_inv q bs ->
  Forall (fun b : list loc => (length b <= size (fids q))%nat) bs.
Proof.
  intros Hq. apply Forall_lookup. intros i b Hi. by eapply inv_length.
Qed.

Definition events_of (srv : srv_conf) (h : gmap loc Npfid) (x : loc) : list fid_event :=
  match h !! x with Some f => destroy_events srv f | None => [] end.

Lemma flat_map_agree {A B} (g k : A -> list B) l :
  (forall x, x ∈ l -> g x = k x) -> flat_map g l = flat_map k l.
Proof.
  induction l as [|x l IH]; intros Hl; cbn; [done|]. rewrite (Hl x) by left.
  f_equal. apply IH. intros y Hy. apply Hl. by right.
Qed.

Lemma destroy_chain_run srv q pv hd l last fuel n : seg (fids q) pv hd l last None ->
  NoDup l -> (length l < fuel)%nat -> exists q',
  destroy_chain fuel srv hd n q = Ret (n + zlength l, q') /\ htable q' = htable q /\
  (forall x, fids q' !! x = if decide (x ∈ l) then None else fids q !! x) /\
  events q' = events q ++ flat_map (events_of srv (fids q)) l.
Proof.
  revert q pv hd fuel n. induction l as [|x l IH]; intros q pv hd fuel n Hs Hnd Hf.
  - destruct Hs as [_ ->]. exists q. rewrite Z.add_0_r. cbn. rewrite app_nil_r.
    by destruct fuel.
  - destruct Hs as (-> & f & E & _ & S). destruct fuel as [|fuel]; cbn in Hf; [lia|].
    apply NoDup_cons in Hnd as [Hx Hnd]. cbn [destroy_chain]. unfold destroy_fid.
    rewrite (load_fid_run _ _ _ E). cbn [res_bind].
    set (q1 := set_fids _ _).
    assert (S1 : seg (fids q1) (Some x) (next f) l last None).
    { eapply seg_agree; [|exact S]. intros y Hy. cbn. rewrite lookup_delete_ne; [done|].
      by intros ->. }
    destruct (IH q1 _ _ fuel (n + 1) S1 Hnd) as (q' & -> & T & F & V); [lia|].
    exists q'. split; [f_equal; f_equal; unfold zlength; cbn; lia|]. split; [done|]. split.
    + intros y. rewrite F. cbn. destruct (decide (x = y)) as [<-|Hne].
      * rewrite lookup_delete_eq. rewrite (decide_True (P := x ∈ x :: l)) by left.
        by destruct (decide (x ∈ l)).
      * rewrite lookup_delete_ne by done. destruct (decide (y ∈ l)).
        { by rewrite decide_True by (by right). }
        rewrite decide_False; [done|]. by intros [->|?]%elem_of_cons.
    + rewrite V. cbn. unfold events_of at 2. rewrite E, <- app_assoc. do 2 f_equal.
      apply flat_map_agree. intros y Hy. unfold events_of. cbn.
      rewrite lookup_delete_ne; [done|]. by intros ->.
Qed.

Lemma destroy_buckets_run srv q tbl bs n : Forall2 (chain (fids q)) tbl bs ->
  NoDup (concat bs) -> (forall x, x ∈ concat bs -> is_Some (fids q !! x)) -> exists q',
  destroy_buckets srv tbl n q = Ret (n + zlength (concat bs), q') /\
  (forall x, fids q' !! x = if decide (x ∈ concat bs) then None else fids q !! x) /\
  events q' = events q ++ flat_map (events_of srv (fids q)) (concat bs).
Proof.
  intros Hc. revert q n Hc. revert bs. induction tbl as [|o tbl IH]; intros bs q n Hc Hnd Hin.
  - inversion Hc; subst. exists q. cbn. rewrite Z.add_0_r, app_nil_r. done.
  - inversion Hc as [|? b ? bs' Hb Hc']; subst. destruct Hb as [last Hs]. cbn in Hnd, Hin.
    apply NoDup_app in Hnd as (Nb & Dj & Nr).
    destruct (destroy_chain_run srv q _ _ _ _ (S (size (fids q))) n Hs Nb) as (q1 & E1 & T1 & F1 & V1).
    { rewrite <- (size_dom (D := gset loc)), <- (size_list_to_set (C := gset loc) b Nb).
      apply Nat.lt_succ_r, subseteq_size. intros x Hx%elem_of_list_to_set.
      apply elem_of_dom, Hin, elem_of_app. by left. }
    assert (Hkeep : forall x, x ∈ concat bs' -> fids q1 !! x = fids q !! x).
    { intros x Hx. rewrite F1, decide_False; [done|]. intros Hb. by apply (Dj x). }
    destruct (IH bs' q1 (n + zlength b)) as (q2 & E2 & F2 & V2); [|done| |].
    { apply Forall2_same_length_lookup. pose proof (Forall2_length _ _ _ Hc') as Hl.
      split; [done|]. intros i o' c Ho Hi.
      destruct (Forall2_lookup_lr _ _ _ _ _ _ Hc' Ho Hi) as [l' Hs']. exists l'.
      eapply seg_agree; [|exact Hs']. intros x Hx. apply Hkeep.
      destruct (concat_insert bs' i c Hi) as (rest & -> & _). apply elem_of_app. by left. }
    { intros x Hx. rewrite Hkeep by done. apply Hin, elem_of_app. by right. }
    exists q2. cbn [destroy_buckets]. rewrite E1. cbn [res_bind]. rewrite E2. cbn [concat].
    split; [f_equal; f_equal; rewrite zlength_app; lia|]. split.
    + intros x. rewrite F2, F1. destruct (decide (x ∈ concat bs')).
      { by rewrite decide_True by (apply elem_of_app; by right). }
      destruct (decide (x ∈ b)).
      { by rewrite decide_True by (apply elem_of_app; by left). }
      rewrite decide_False; [done|]. by intros [?|?]%elem_of_app.
    + rewrite V2, V1, flat_map_app, <- app_assoc. do 2 f_equal.
      apply flat_map_agree. intros y Hy. unfold events_of. by rewrite Hkeep.
Qed.

(** The table as a whole.  [np_fidpool_count] counts every fid, zombies
    included; [np_fidpool_destroy] visits each exactly once, frees them all,
    reports how many there were and tells the file system about each. *)
Theorem np_fidpool_destroy_spec srv q bs : pool_inv q bs ->
  np_fidpool_count q = Ret (Z.of_nat (size (abs q))) /\
  exists q', np_fidpool_destroy srv q = Ret (Z.of_nat (size (abs q)), q') /\ abs q' = ∅ /\
    events q' = events q ++ flat_map (events_of srv (fids q)) (concat bs).
Proof.
  intros Hq. rewrite <- (inv_total _ _ Hq). split.
  - apply (count_buckets_run q _ bs 0); [apply Hq|by apply inv_lengths].
  - destruct (destroy_buckets_run srv q (htable q) bs 0) as (q' & E & F & V);
      [apply Hq|apply Hq|intros x; by apply Hq|].
    exists q'. split; [exact E|]. split; [|done]. apply map_eq. intros x. unfold abs.
    rewrite lookup_fmap, F, lookup_empty. destruct (decide (x ∈ concat bs)) as [|Hx]; [done|].
    rewrite (inv_all _ _ Hq x) in Hx. destruct (fids q !! x); [|done]. destruct Hx. eauto.
Qed.

(** The new table is well formed and empty. *)
Lemma fidpool_create_inv :
  pool_inv np_fidpool_create (replicate 64 []) /\ abs np_fidpool_create = ∅.
Proof.
  split; [|done]. assert (Hc : concat (replicate 64 (@nil loc)) = []) by done. split.
  - done.
  - cbn. repeat constructor; by exists None.
  - rewrite Hc. constructor.
  - intros x. rewrite Hc. cbn. split; [by intros ?%elem_of_nil|by intros []].
  - intros i b x f Hi Hx. apply lookup_replicate in Hi as [-> _]. by apply elem_of_nil in Hx.
  - intros x f Hx. done.
  - intros n x y (f & Hx & _). done.
Qed.

(** A race.  [np_fid_decref] decides under the lock of the fid that the last
    reference is gone, but unlinks the fid later, under the lock of the table.
    A lookup of the same number that runs in between is handed the fid, which
    is then freed under it.  ([np_fid_decref_bynum] decides under the lock of
    the table.) *)
Theorem np_fid_decref_race :
  exists x q0 q1 q2 q3,
    np_fid_create demo_srv 5 true np_fidpool_create = Ret (inl x, q0) /\
    np_fid_decref_drop x q0 = Ret (0, q1) /\
    np_fid_find 5 q1 = Ret (Some x, q2) /\
    np_fid_decref_reap demo_srv x q2 = Ret q3 /\
    load_fid q3 x = UB.
Proof.
  eexists _, _, _, _, _. split; [vm_compute; reflexivity|]. split; [vm_compute; reflexivity|].
  split; [vm_compute; reflexivity|]. split; [vm_compute; reflexivity|]. vm_compute. reflexivity.
Qed.

(** ** Witnesses *)

Lemma demo_pool_inv : exists bs, pool_inv demo_pool bs.
Proof.
  destruct fidpool_create_inv as [H0 _].
  destruct (create_run np_fidpool_create _ 5 H0) as (x & q & bs & _ & E & Hq & _).
  { intros x (f & Hx & _). done. }
  exists bs. replace demo_pool with q; [done|]. unfold demo_pool, np_fid_create.
  change (lookup_fid (fid_hash 5) 5 np_fidpool_create) with
    (Ret (@None loc, np_fidpool_create)). cbn [res_bind].
  rewrite E. done.
Qed.

Lemma np_fid_find_spec_witness : exists o q' bs',
  np_fid_find 5 demo_pool = Ret (o, q') /\ pool_inv q' bs' /\ events q' = [] /\ o = Some 1%positive.
Proof.
  destruct demo_pool_inv as [bs Hq].
  destruct (np_fid_find_spec demo_pool bs 5 Hq) as (o & q' & bs' & E & H' & V & _).
  exists o, q', bs'. split; [exact E|]. split; [exact H'|]. split; [exact V|].
  vm_compute in E. congruence.
Defined.

Lemma np_fid_create_spec_witness : exists r q' bs',
  np_fid_create demo_srv 5 true demo_pool = Ret (r, q') /\ pool_inv q' bs' /\ r = inr EEXIST.
Proof.
  destruct demo_pool_inv as [bs Hq].
  destruct (np_fid_create_spec demo_srv demo_pool bs 5 true Hq) as (r & q' & bs' & E & H' & _ & _ & Hin).
  exists r, q', bs'. split; [exact E|]. split; [exact H'|].
  destruct (Hin 1%positive (new_fid 5)) as [Hr _]; [vm_compute; reflexivity..|]. exact Hr.
Defined.

Lemma np_fid_decref_spec_witness : exists last q' bs',
  np_fid_decref demo_srv 1%positive demo_pool = Ret (last, q') /\ pool_inv q' bs' /\
  last = true /\ abs q' = delete 1%positive (abs demo_pool) /\
  events q' = destroy_events demo_srv (decref (new_fid 5)).
Proof.
  destruct demo_pool_inv as [bs Hq].
  apply (np_fid_decref_spec demo_srv demo_pool bs 1%positive (new_fid 5) Hq).
  vm_compute. reflexivity.
Defined.

Lemma np_fid_decref_bynum_spec_witness : exists q' bs',
  np_fid_decref_bynum demo_srv 5 demo_pool = Ret q' /\ pool_inv q' bs' /\
  abs q' = delete 1%positive (abs demo_pool).
Proof.
  destruct demo_pool_inv as [bs Hq].
  destruct (np_fid_decref_bynum_spec demo_srv demo_pool bs 5 Hq) as (q' & bs' & E & H' & _ & Hin).
  exists q', bs'. split; [exact E|]. split; [exact H'|].
  apply (Hin 1%positive (new_fid 5)); vm_compute; reflexivity.
Defined.

Lemma np_fidpool_destroy_spec_witness : np_fidpool_count demo_pool = Ret 1 /\
  exists q', np_fidpool_destroy demo_srv demo_pool = Ret (1, q') /\ abs q' = ∅.
Proof.
  destruct demo_pool_inv as [bs Hq].
  destruct (np_fidpool_destroy_spec demo_srv demo_pool bs Hq) as (C & q' & E & A & _).
  split; [exact C|]. exists q'. split; [exact E|exact A].
Defined.
