(* ===== verification/Transport.v ===== *)
(** * The transports (libnpfs/fdtrans.c, trans.c)

    [np_fdtrans_recv] cuts the byte stream of a socket into messages: a read
    may return part of a message or run into the next one, and the surplus is
    kept in the transport for the next call.  The kernel is a list of the
    results of the coming [read] and [write] calls. *)
From S2P Require Import Prelude Cbuf Protocol Create Deserialize Wire Builders Codec Safety CodecSpec.
From S2P Require Import Replies.


(** What the coming [read] calls find: interrupted, an error, or bytes that have
    arrived; nothing left is the end of the stream. *)
Inductive rd_event :=
| Rd_eintr
| Rd_err (e : Z)
| Rd_data (bs : list Z).

Inductive rd_result :=
| RR_eintr
| RR_err (e : Z)
| RR_n (bs : list Z).

(** [read (fd, buf, n)]: at most [n] bytes of what has arrived. *)
Definition sys_read (n : Z) (evs : list rd_event) : rd_result * list rd_event :=
  match evs with
  | [] => (RR_n [], [])
  | Rd_eintr :: evs => (RR_eintr, evs)
  | Rd_err e :: evs => (RR_err e, evs)
  | Rd_data bs :: evs =>
      if zlength bs <=? n then (RR_n bs, evs)
      else (RR_n (take (Z.to_nat n) bs), Rd_data (drop (Z.to_nat n) bs) :: evs)
  end.

(** [struct Fdtrans]: the buffer of the cached message and how much of it is used. *)
Record Fdtrans := {
  fdt_fc : option (list Z);
  fdt_fc_len : Z;
}.

Definition np_fdtrans_create : Fdtrans := {| fdt_fc := None; fdt_fc_len := 0 |}.

Inductive loop_exit :=
| L_full (pkt : list Z) (len size : Z)
| L_eof
| L_error (e : Z).

Section Recv.
Context `{CHeap}.

(** [while (size == 0 || len < size) ..]; [None] when the fuel runs out. *)
Fixpoint recv_loop (fuel : nat) (msize : Z) (pkt : list Z) (len size : Z)
    (evs : list rd_event) : res (option (loop_exit * list rd_event)) :=
  if (size =? 0) || (len <? size) then
    match fuel with
    | O => Ret None
    | S fuel =>
        let '(r, evs) := sys_read (u32 (msize - len)) evs in
        match r with
        | RR_eintr => recv_loop fuel msize pkt len size evs
        | RR_err e => Ret (Some (L_error e, evs))
        | RR_n [] => Ret (Some (L_eof, evs))
        | RR_n bs =>
            let! pkt := store_bytes pkt len bs in
            let len := int32 (len + zlength bs) in
            if size =? 0 then
              let! size := np_peek_size pkt len in
              if msize <? size then Ret (Some (L_error EPROTO, evs))
              else recv_loop fuel msize pkt len size evs
            else recv_loop fuel msize pkt len size evs
        end
    end
  else Ret (Some (L_full pkt len size, evs)).

Inductive recv_result :=
| Recv_msg (fc : Npfcall)
| Recv_eof
| Recv_error (e : Z).

Definition recv_fcall (pkt : list Z) (size : Z) : Npfcall :=
  {| fc_size := size; fc_type := undef; fc_tag := undef; fc_pkt := pkt; fc_u := U_none |}.

(** The end of [np_fdtrans_recv]: the surplus goes to a fresh cached message. *)
Definition recv_finish (msize : Z) (t : Fdtrans) (pkt : list Z) (len size : Z)
  : res (recv_result * Fdtrans) :=
  if size <? len then
    match np_alloc_fcall msize with
    | None => Ret (Recv_error ENOMEM, {| fdt_fc := None; fdt_fc_len := fdt_fc_len t |})
    | Some fc2 =>
        let n := int32 (len - size) in
        let! bs := load_bytes pkt size n in
        let! pkt2 := store_bytes (fc_pkt fc2) 0 bs in
        Ret (Recv_msg (recv_fcall pkt size), {| fdt_fc := Some pkt2; fdt_fc_len := n |})
    end
  else Ret (Recv_msg (recv_fcall pkt size), t).

Definition np_fdtrans_recv (fuel : nat) (msize : Z) (t : Fdtrans) (evs : list rd_event)
  : res (option (recv_result * Fdtrans * list rd_event)) :=
  let msize := u32 msize in
  let! start :=
    match fdt_fc t with
    | Some pkt =>
        let! size := np_peek_size pkt (fdt_fc_len t) in
        if msize <? size then Ret (inr EPROTO)
        else Ret (inl (pkt, fdt_fc_len t, size))
    | None =>
        match np_alloc_fcall msize with
        | None => Ret (inr ENOMEM)
        | Some fc => Ret (inl (fc_pkt fc, 0, 0))
        end
    end in
  let t := {| fdt_fc := None; fdt_fc_len := fdt_fc_len t |} in
  match start with
  | inr e => Ret (Some (Recv_error e, t, evs))
  | inl (pkt, len, size) =>
      let! o := recv_loop fuel msize pkt len size evs in
      match o with
      | None => Ret None
      | Some (L_full pkt len size, evs) =>
          let! (r, t) := recv_finish msize t pkt len size in
          Ret (Some (r, t, evs))
      | Some (L_eof, evs) => Ret (Some (Recv_eof, t, evs))
      | Some (L_error e, evs) => Ret (Some (Recv_error e, t, evs))
      end
  end.

(** [np_trans_recv]: one parsed message, the end of the stream or an error. *)
Definition np_trans_recv (fuel : nat) (msize : Z) (t : Fdtrans) (evs : list rd_event)
  : res (option (recv_result * Fdtrans * list rd_event)) :=
  let! o := np_fdtrans_recv fuel msize t evs in
  match o with
  | Some (Recv_msg fc, t, evs) =>
      let! (n, fc) := np_deserialize fc in
      if n =? 0 then Ret (Some (Recv_error EPROTO, t, evs))
      else Ret (Some (Recv_msg fc, t, evs))
  | _ => Ret o
  end.
End Recv.

Inductive wr_event :=
| Wr_eintr
| Wr_err (e : Z)
| Wr_n (k : nat).

(** The loop of [np_fdtrans_send] over the results of the coming [write] calls;
    when none is left every byte is accepted.  [out] is what was written; the
    result is the return value. *)
Fixpoint send_loop (evs : list wr_event) (pkt : list Z) (size len : Z) (out : list Z)
  : res (Z * list Z * list wr_event) :=
  if len <? size then
    let! rest := load_bytes pkt len (u32 (size - len)) in
    match evs with
    | [] => Ret (int32 size, out ++ rest, [])
    | Wr_eintr :: evs => send_loop evs pkt size len out
    | Wr_err e :: evs => Ret (-1, out, evs)
    | Wr_n k :: evs =>
        let bs := take k rest in
        send_loop evs pkt size (int32 (len + zlength bs)) (out ++ bs)
    end
  else Ret (len, out, evs).

Definition np_fdtrans_send (fc : Npfcall) (evs : list wr_event)
  : res (Z * list Z * list wr_event) :=
  send_loop evs (fc_pkt fc) (fc_size fc) 0 [].

(** ** Specification: the stream of bytes *)

Fixpoint rd_bytes (evs : list rd_event) : list Z :=
  match evs with
  | [] => []
  | Rd_data bs :: evs => bs ++ rd_bytes evs
  | _ :: evs => rd_bytes evs
  end.

Fixpoint rd_measure (evs : list rd_event) : nat :=
  match evs with
  | [] => 0
  | Rd_data bs :: evs => S (length bs + rd_measure evs)
  | _ :: evs => S (rd_measure evs)
  end.

Definition rd_fail (ev : rd_event) : bool :=
  match ev with Rd_err _ => true | Rd_data [] => true | _ => false end.

(** The bytes not yet delivered: those cached and those to come. *)
Definition pending (t : Fdtrans) : list Z :=
  match fdt_fc t with
  | Some pkt => take (Z.to_nat (fdt_fc_len t)) pkt
  | None => []
  end.

Definition stream (t : Fdtrans) (evs : list rd_event) : list Z := pending t ++ rd_bytes evs.

(** A transport used with message size [msize]: the cached bytes fit. *)
Definition tr_ok (t : Fdtrans) (msize : Z) : Prop :=
  match fdt_fc t with
  | Some pkt => 0 <= fdt_fc_len t <= msize /\ msize <= zlength pkt
  | None => True
  end.

(** ** Lemmas *)

Definition peek (pkt : list Z) (len : Z) : Z := if 4 <=? len then msg_size pkt else 0.

Lemma peek_run pkt len : is_packet (take 4 pkt) -> 4 <= zlength pkt ->
  np_peek_size pkt len = Ret (peek pkt len).
Proof.
  intros Hb Hl. unfold np_peek_size, peek. destruct (4 <=? len); [|done].
  rewrite load_bytes_ok by lia. cbn [res_bind]. rewrite drop_0, get32_le; [done| |done].
  unfold zlength in *. rewrite length_take. lia.
Qed.

Lemma sys_read_data n evs bs evs' : 0 <= n -> sys_read n evs = (RR_n bs, evs') ->
  zlength bs <= n /\ rd_bytes evs = bs ++ rd_bytes evs' /\
  (bs <> [] -> (rd_measure evs' < rd_measure evs)%nat) /\
  (Forall (fun ev => rd_fail ev = false) evs -> 0 < n ->
     Forall (fun ev => rd_fail ev = false) evs' /\ (bs = [] -> evs = [])).
Proof.
  intros Hn. destruct evs as [|[|e|ds] evs]; cbn [sys_read]; intros E; simplify_eq.
  - split; [done|]. split; [done|]. split; [done|]. auto.
  - destruct (Z.leb_spec (zlength ds) n) as [Hd|Hd]; simplify_eq.
    + split; [done|]. split; [done|]. cbn. split; [lia|]. intros Hf _.
      apply Forall_cons_1 in Hf as [Hf1 Hf]. split; [done|]. by intros ->.
    + unfold zlength in *. split; [rewrite length_take; lia|]. cbn.
      split; [by rewrite app_assoc, take_drop|]. split.
      * intros Hb. rewrite length_drop. assert (Z.to_nat n <> 0%nat); [|lia].
        intros E. rewrite E in Hb. done.
      * intros Hf Hpos. apply Forall_cons_1 in Hf as [_ Hf]. split.
        { constructor; [|done]. cbn. destruct (drop _ ds) eqn:Ed; [|done].
          apply (f_equal length) in Ed. rewrite length_drop in Ed. cbn in Ed. lia. }
        intros Eb. apply (f_equal length) in Eb. rewrite length_take in Eb. cbn in Eb. lia.
Qed.

(** The state of the loop: the bytes read and those to come are the stream [S],
    and [size] is what the bytes read say. *)
Record loop_inv (msize : Z) (S pkt : list Z) (len size : Z) (evs : list rd_event) : Prop := {
  li_room : msize <= zlength pkt;
  li_len : 0 <= len <= msize;
  li_bytes : take (Z.to_nat len) pkt ++ rd_bytes evs = S;
  li_size : size = peek pkt len;
  li_max : size <= msize;
}.

(** A first message that is complete, of an acceptable size, and no failures. *)
Definition deliverable (msize : Z) (S : list Z) (evs : list rd_event) : Prop :=
  Forall (fun ev => rd_fail ev = false) evs /\ 4 <= zlength S /\
  0 < msg_size S <= msize /\ msg_size S <= zlength S.

Lemma msg_size_prefix (l k : list Z) : 4 <= zlength l -> msg_size (l ++ k) = msg_size l.
Proof.
  intros Hl. unfold msg_size. rewrite take_app_le; [done|]. unfold zlength in Hl. lia.
Qed.

Lemma msg_size_take pkt n : 4 <= n -> msg_size (take (Z.to_nat n) pkt) = msg_size pkt.
Proof. intros Hn. unfold msg_size. rewrite take_take. f_equal. f_equal. lia. Qed.

(** Once four bytes are there, the size is that of the stream. *)
Lemma bytes_peek (S pkt k : list Z) len : 4 <= len <= zlength pkt ->
  take (Z.to_nat len) pkt ++ k = S -> msg_size pkt = msg_size S /\ len <= zlength S.
Proof.
  intros Hl <-. assert (zlength (take (Z.to_nat len) pkt) = len).
  { unfold zlength in *. rewrite length_take. lia. }
  rewrite msg_size_prefix by lia. rewrite msg_size_take by lia.
  rewrite zlength_app. pose proof (zlength_nonneg k). split; [done|lia].
Qed.

Lemma loop_inv_peek msize S pkt len size evs : 4 <= len ->
  loop_inv msize S pkt len size evs -> size = msg_size S /\ len <= zlength S.
Proof.
  intros Hl [Hr Hn Hb -> _]. unfold peek. rewrite (proj2 (Z.leb_le _ _)) by lia.
  apply (bytes_peek S pkt (rd_bytes evs)); [lia|done].
Qed.

Lemma is_packet_take n S pkt : is_packet S -> (exists k, take n pkt ++ k = S) -> (4 <= n)%nat ->
  is_packet (take 4 pkt).
Proof.
  intros HS [k <-] Hn. apply Forall_app in HS as [HS _].
  replace (take 4 pkt) with (take 4 (take n pkt)).
  - by apply Forall_take.
  - rewrite take_take. f_equal. lia.
Qed.

Lemma peek_any S pkt len evs : is_packet S -> 4 <= zlength pkt -> 0 <= len ->
  take (Z.to_nat len) pkt ++ rd_bytes evs = S -> np_peek_size pkt len = Ret (peek pkt len).
Proof.
  intros HS Hp Hl Hb. destruct (Z.lt_ge_cases len 4).
  - unfold np_peek_size, peek. rewrite (proj2 (Z.leb_gt _ _)) by lia. done.
  - apply peek_run; [|done]. apply (is_packet_take (Z.to_nat len) S); [done|eauto|lia].
Qed.

(** Storing what was read keeps the invariant, but for the size. *)
Lemma store_read msize S pkt len evs bs evs' : msize <= zlength pkt -> 0 <= len ->
  take (Z.to_nat len) pkt ++ rd_bytes evs = S -> rd_bytes evs = bs ++ rd_bytes evs' ->
  zlength bs <= msize - len -> exists pkt',
  store_bytes pkt len bs = Ret pkt' /\ zlength pkt' = zlength pkt /\
  take (Z.to_nat (len + zlength bs)) pkt' ++ rd_bytes evs' = S /\
  (4 <= len -> msg_size pkt' = msg_size pkt).
Proof.
  intros Hr Hl Hb He Hn. pose proof (zlength_nonneg bs). eexists.
  split; [apply store_bytes_ok; lia|]. set (pkt' := _ ++ _).
  assert (E : store_bytes pkt len bs = Ret pkt') by (apply store_bytes_ok; lia).
  pose proof (store_bytes_length _ _ _ _ E) as Hlen. unfold zlength in *.
  split; [by rewrite Hlen|]. split.
  - rewrite <- Hb, He, app_assoc. f_equal. subst pkt'. rewrite app_assoc.
    replace (Z.to_nat (len + Z.of_nat (length bs))) with
      (length (take (Z.to_nat len) pkt ++ bs)) by (rewrite length_app, length_take; lia).
    apply take_app_length.
  - intros H4. unfold msg_size. f_equal. subst pkt'. rewrite take_app_le by (rewrite length_take; lia).
    rewrite take_take. f_equal. lia.
Qed.

Section RecvLemmas.
Context `{CHeap}.

Definition loop_done (msize : Z) (S : list Z) (x : loop_exit) (evs : list rd_event) : Prop :=
  match x with
  | L_full pkt len size => loop_inv msize S pkt len size evs /\ 0 < size <= len /\ 4 <= len
  | _ => True
  end.

Definition is_full (x : loop_exit) : Prop :=
  match x with L_full _ _ _ => True | _ => False end.

Lemma loop_inv_nonneg msize S pkt len size evs : is_packet S ->
  loop_inv msize S pkt len size evs -> 0 <= size.
Proof.
  intros HS [_ Hn Hb -> _]. unfold peek. destruct (Z.leb_spec 4 len); [|lia].
  apply (le_value_range (take 4 pkt)).
  apply (is_packet_take (Z.to_nat len) S); [done|eauto|lia].
Qed.

(** The loop is left as soon as the message is complete. *)
Lemma loop_exit_full fuel msize S pkt len size evs : is_packet S ->
  loop_inv msize S pkt len size evs -> (size =? 0) || (len <? size) = false ->
  recv_loop fuel msize pkt len size evs = Ret (Some (L_full pkt len size, evs)) /\
  loop_done msize S (L_full pkt len size) evs.
Proof.
  intros HS Hi Hc. split; [destruct fuel; cbn [recv_loop]; by rewrite Hc|]. split; [done|].
  pose proof (loop_inv_nonneg _ _ _ _ _ _ HS Hi).
  apply orb_false_iff in Hc as [Hz%Z.eqb_neq Hl%Z.ltb_ge]. destruct Hi as [_ Hn _ E _].
  unfold peek in E. destruct (Z.leb_spec 4 len); lia.
Qed.

(** When the loop must go on there is room in the buffer, unless the size field
    is zero. *)
Lemma loop_room msize S pkt len size evs : 4 <= msize -> is_packet S ->
  loop_inv msize S pkt len size evs -> (size =? 0) || (len <? size) = true ->
  deliverable msize S evs -> len < msize /\ evs <> [].
Proof.
  intros Hm HS Hi Hc (_ & HS4 & Hsz & Hlen).
  pose proof Hi as [Hr Hn Hb E Hmax].
  destruct (Z.lt_ge_cases len 4) as [H4|H4].
  - split; [lia|]. intros ->. cbn in Hb. rewrite app_nil_r in Hb. rewrite <- Hb in HS4.
    unfold zlength in *. rewrite length_take in HS4. lia.
  - destruct (loop_inv_peek _ _ _ _ _ _ H4 Hi) as [-> Hls].
    rewrite (proj2 (Z.eqb_neq _ _)) in Hc by lia. cbn in Hc. apply Z.ltb_lt in Hc.
    split; [lia|]. intros ->. cbn in Hb. rewrite app_nil_r in Hb.
    apply (f_equal (@length Z)) in Hb. unfold zlength in *. rewrite length_take in Hb. lia.
Qed.

Lemma deliverable_next msize S evs evs' : deliverable msize S evs ->
  Forall (fun ev => rd_fail ev = false) evs' -> deliverable msize S evs'.
Proof. intros (_ & H1) H2. by split. Qed.

Lemma recv_loop_run fuel msize S pkt len size evs :
  4 <= msize < 2 ^ 31 -> is_packet S -> loop_inv msize S pkt len size evs ->
  (rd_measure evs < fuel)%nat -> exists x evs',
  recv_loop fuel msize pkt len size evs = Ret (Some (x, evs')) /\
  loop_done msize S x evs' /\ (deliverable msize S evs -> is_full x).
Proof.
  intros Hm HS. revert pkt len size evs.
  induction fuel as [|fuel IH]; intros pkt len size evs Hi Hf; [lia|].
  destruct ((size =? 0) || (len <? size)) eqn:Hc.
  2:{ destruct (loop_exit_full (Datatypes.S fuel) _ _ _ _ _ _ HS Hi Hc) as [E D].
      exists (L_full pkt len size), evs. done. }
  assert (Hm4 : 4 <= msize) by lia. pose proof (loop_room _ _ _ _ _ _ Hm4 HS Hi Hc) as Hgo.
  cbn [recv_loop]. rewrite Hc. pose proof Hi as [Hr Hn Hb Hs Hmax].
  rewrite u32_small by lia. destruct (sys_read (msize - len) evs) as [r evs1] eqn:Er.
  destruct r as [|e|bs].
  - destruct evs as [|[|e|ds] evs]; cbn in Er; try (destruct (_ <=? _)); simplify_eq.
    destruct (IH pkt len (peek pkt len) evs1) as (x & evs' & E & D & G);
      [by split|cbn in Hf; lia|]. exists x, evs'. split; [done|]. split; [done|].
    intros Hd. apply G. eapply deliverable_next; [done|]. by eapply Forall_inv_tail, Hd.
  - exists (L_error e), evs1. split; [done|]. split; [done|].
    intros Hd. destruct evs as [|[|e'|ds] evs]; cbn in Er; try (destruct (_ <=? _)); simplify_eq.
    destruct Hd as [Hd _]. apply Forall_inv in Hd. done.
  - destruct (sys_read_data _ _ _ _ (proj2 (Z.le_0_sub len msize) (proj2 Hn)) Er) as (Hbs & Hrd & Hms & Hnf).
    destruct bs as [|c bs'] eqn:Ebs.
    { exists L_eof, evs1. split; [done|]. split; [done|]. intros Hd.
      destruct (Hgo Hd) as [Hlt Hne]. destruct Hne. apply Hnf; [apply Hd|lia|done]. }
    rewrite <- Ebs in *. assert (Hnn : bs <> []) by congruence. clear Ebs c bs'.
    destruct (store_read msize S pkt len evs bs evs1) as (pkt' & Est & Hl' & Hb' & Hp'); try done; [lia|].
    rewrite Est. cbn [res_bind]. pose proof (zlength_nonneg bs). rewrite int32_small by lia.
    specialize (Hms Hnn). set (len' := len + zlength bs) in *.
    assert (Hpk : np_peek_size pkt' len' = Ret (peek pkt' len')) by (eapply peek_any; eauto; lia).
    assert (Hstep : forall size', size' = peek pkt' len' -> size' <= msize -> exists x evs',
      recv_loop fuel msize pkt' len' size' evs1 = Ret (Some (x, evs')) /\
      loop_done msize S x evs' /\ (deliverable msize S evs -> is_full x)).
    { intros size' -> Hsz'. destruct (IH pkt' len' (peek pkt' len') evs1) as (x & evs' & E & D & G);
        [split; done || lia|lia|]. exists x, evs'. split; [done|]. split; [done|]. intros Hd.
      apply G. eapply deliverable_next; [done|]. apply Hnf; [apply Hd|]. destruct (Hgo Hd). lia. }
    destruct (Z.eqb_spec size 0) as [Hz|Hz].
    + rewrite Hpk. cbn [res_bind]. destruct (Z.ltb_spec msize (peek pkt' len')) as [Hbig|Hbig].
      * exists (L_error EPROTO), evs1. split; [done|]. split; [done|]. intros Hd.
        destruct (Z.lt_ge_cases len' 4); unfold peek in Hbig; zcases; try lia.
        destruct (bytes_peek S pkt' (rd_bytes evs1) len') as [Hq _]; [lia|done|].
        destruct Hd as (_ & _ & ? & _). lia.
      * by apply Hstep.
    + apply Hstep; [|done]. subst size. unfold peek in Hz |- *. zcases; try lia; symmetry; auto.
Qed.

Lemma alloc_fcall_len msize fc : 0 <= msize < 2 ^ 31 -> np_alloc_fcall msize = Some fc ->
  zlength (fc_pkt fc) = msize.
Proof.
  intros Hm E. unfold np_alloc_fcall in E. cbv zeta in E. rewrite int32_small in E by lia.
  unfold sizeof_Npfcall in E. rewrite u64_small in E by lia.
  destruct (malloc _) as [blk|] eqn:Em; [|done]. simplify_eq. cbn [fc_pkt].
  apply malloc_length in Em; [|lia]. unfold zlength in *. rewrite length_drop. lia.
Qed.

(** What a received message guarantees to the parser and about the stream. *)
Definition framed (msize : Z) (S : list Z) (r : recv_result) (t : Fdtrans)
    (evs : list rd_event) : Prop :=
  match r with
  | Recv_msg fc =>
      msize <= zlength (fc_pkt fc) /\ 0 < fc_size fc <= msize /\
      fc_size fc = msg_size (fc_pkt fc) /\ fc_size fc = msg_size S /\
      is_packet (take 4 (fc_pkt fc)) /\
      S = take (Z.to_nat (fc_size fc)) (fc_pkt fc) ++ stream t evs
  | _ => True
  end.

Definition is_msg (r : recv_result) : Prop :=
  match r with Recv_msg _ => True | _ => False end.

Lemma recv_finish_run msize S t pkt len size evs : 4 <= msize < 2 ^ 31 -> is_packet S ->
  fdt_fc t = None ->
  loop_done msize S (L_full pkt len size) evs -> exists r t',
  recv_finish msize t pkt len size = Ret (r, t') /\ tr_ok t' msize /\
  framed msize S r t' evs /\ ((forall n, malloc n <> None) -> is_msg r).
Proof.
  intros Hm HS Ht ([Hr Hn Hb Hs Hmax] & Hsz & H4). unfold recv_finish.
  assert (Hpk : is_packet (take 4 pkt)).
  { apply (is_packet_take (Z.to_nat len) S); [done|eauto|lia]. }
  assert (Hp : size = msg_size pkt).
  { rewrite Hs. unfold peek. by rewrite (proj2 (Z.leb_le _ _)) by lia. }
  assert (HpS : size = msg_size S).
  { rewrite Hp. apply (bytes_peek S pkt (rd_bytes evs) len); [lia|done]. }
  destruct (Z.ltb_spec size len) as [Hlt|Hge].
  2:{ assert (len = size) as -> by lia. eexists _, t. split; [done|].
      split; [unfold tr_ok; by rewrite Ht|]. split; [|done]. cbn.
      split; [done|]. split; [lia|]. do 3 (split; [done|]).
      unfold stream, pending. by rewrite Ht, <- Hb. }
  destruct (np_alloc_fcall msize) as [fc2|] eqn:Ea.
  2:{ eexists _, _. split; [done|]. split; [done|]. split; [done|]. intros Hall.
      unfold np_alloc_fcall in Ea. destruct (malloc _) eqn:Em; [done|]. by destruct (Hall _ Em). }
  apply alloc_fcall_len in Ea; [|lia]. rewrite int32_small by lia.
  rewrite load_bytes_ok by lia. cbn [res_bind]. set (bs := take _ (drop _ pkt)).
  assert (Hbs : length bs = Z.to_nat (len - size)).
  { subst bs. unfold zlength in *. rewrite length_take, length_drop. lia. }
  rewrite store_bytes_ok by (unfold zlength in *; lia). cbn [res_bind].
  change (Z.to_nat 0) with 0%nat. rewrite take_0, app_nil_l.
  eexists _, _. split; [reflexivity|]. cbn. unfold zlength in *.
  split; [split; [lia|]; rewrite length_app, length_drop; lia|]. split; [|done].
  split; [done|]. split; [lia|]. do 3 (split; [done|]). unfold stream, pending. cbn.
  rewrite <- Hbs, take_app_length, <- Hb, app_assoc. f_equal. subst bs.
  replace (Z.to_nat len) with (Z.to_nat size + Z.to_nat (len - size))%nat by lia.
  symmetry. apply take_take_drop.
Qed.

Lemma recv_run fuel msize t evs : 4 <= msize < 2 ^ 31 -> tr_ok t msize ->
  is_packet (stream t evs) -> (rd_measure evs < fuel)%nat -> exists r t' evs',
  np_fdtrans_recv fuel msize t evs = Ret (Some (r, t', evs')) /\ tr_ok t' msize /\
  framed msize (stream t evs) r t' evs' /\
  ((forall n, malloc n <> None) -> deliverable msize (stream t evs) evs -> is_msg r).
Proof.
  intros Hm Ht HS Hf. set (S := stream t evs) in *. unfold np_fdtrans_recv. cbv zeta.
  rewrite u32_small by lia. set (t0 := {| fdt_fc := None; fdt_fc_len := fdt_fc_len t |}).
  assert (Hgo : forall pkt len size, loop_inv msize S pkt len size evs -> exists r t' evs',
    (let! o := recv_loop fuel msize pkt len size evs in
     match o with
     | None => Ret None
     | Some (L_full pkt len size, evs) =>
         let! (r, t) := recv_finish msize t0 pkt len size in Ret (Some (r, t, evs))
     | Some (L_eof, evs) => Ret (Some (Recv_eof, t0, evs))
     | Some (L_error e, evs) => Ret (Some (Recv_error e, t0, evs))
     end) = Ret (Some (r, t', evs')) /\ tr_ok t' msize /\ framed msize S r t' evs' /\
    ((forall n, malloc n <> None) -> deliverable msize S evs -> is_msg r)).
  { intros pkt len size Hi.
    destruct (recv_loop_run fuel msize S pkt len size evs Hm HS Hi Hf) as (x & evs' & E & D & G).
    rewrite E. cbn [res_bind]. destruct x as [pkt' len' size'| |e].
    - destruct (recv_finish_run msize S t0 pkt' len' size' evs' Hm HS eq_refl D)
        as (r & t' & E' & T' & F' & G'). rewrite E'. cbn [res_bind]. eauto 10.
    - exists Recv_eof, t0, evs'. do 3 (split; [done|]). intros _ Hd. by destruct (G Hd).
    - exists (Recv_error e), t0, evs'. do 3 (split; [done|]). intros _ Hd. by destruct (G Hd). }
  unfold S, stream, pending, tr_ok in *. destruct (fdt_fc t) as [pkt|] eqn:Ec.
  - destruct Ht as [Hl Hr]. rewrite (peek_any _ pkt (fdt_fc_len t) evs HS) by (done || lia).
    cbn [res_bind]. destruct (Z.ltb_spec msize (peek pkt (fdt_fc_len t))) as [Hbig|Hok].
    + exists (Recv_error EPROTO), t0, evs. do 3 (split; [done|]). intros _ (_ & _ & ? & _).
      exfalso. unfold peek in Hbig. zcases; try lia.
      destruct (bytes_peek _ pkt (rd_bytes evs) (fdt_fc_len t) ltac:(lia) eq_refl). lia.
    + apply Hgo. split; done || lia.
  - destruct (np_alloc_fcall msize) as [fc|] eqn:Ea; cbn [res_bind].
    + apply Hgo. apply alloc_fcall_len in Ea; [|lia]. split; [lia|lia|done|done|lia].
    + exists (Recv_error ENOMEM), t0, evs. do 3 (split; [done|]). intros Hall _.
      unfold np_alloc_fcall in Ea. destruct (malloc _) eqn:Em; [done|]. by destruct (Hall _ Em).
Qed.

(** C17: framing.  While the negotiated size stays the same, [np_fdtrans_recv]
    reads inside its buffers however the stream is chopped into reads, and
    neither loses, repeats nor reorders a byte: the stream is the message
    returned followed by what is still to be delivered.  The message returned
    is as long as its size field says, at most [msize], in a buffer of at
    least [msize] bytes. *)
Theorem np_fdtrans_recv_framing fuel msize t evs :
  4 <= msize < 2 ^ 31 -> tr_ok t msize -> is_packet (stream t evs) ->
  (rd_measure evs < fuel)%nat -> exists r t' evs',
  np_fdtrans_recv fuel msize t evs = Ret (Some (r, t', evs')) /\ tr_ok t' msize /\
  framed msize (stream t evs) r t' evs'.
Proof.
  intros Hm Ht HS Hf. destruct (recv_run fuel msize t evs Hm Ht HS Hf) as (r & t' & evs' & ? & ? & ? & _).
  eauto 10.
Qed.

(** C18: delivery.  A complete message of acceptable size at the front of the
    stream is returned, whatever the chunks and interruptions, when reads and
    allocations do not fail. *)
Theorem np_fdtrans_recv_delivers fuel msize t evs :
  4 <= msize < 2 ^ 31 -> tr_ok t msize -> is_packet (stream t evs) ->
  (rd_measure evs < fuel)%nat -> (forall n, malloc n <> None) ->
  deliverable msize (stream t evs) evs -> exists fc t' evs',
  np_fdtrans_recv fuel msize t evs = Ret (Some (Recv_msg fc, t', evs')) /\
  take (Z.to_nat (fc_size fc)) (fc_pkt fc) =
  take (Z.to_nat (msg_size (stream t evs))) (stream t evs).
Proof.
  intros Hm Ht HS Hf Hall Hd.
  destruct (recv_run fuel msize t evs Hm Ht HS Hf) as (r & t' & evs' & E & T & F & G).
  specialize (G Hall Hd). destruct r as [fc| |]; try done.
  exists fc, t', evs'. split; [done|]. destruct F as (Hr & Hsz & Hs & Hmm & _ & HS').
  rewrite <- Hmm, HS'. rewrite take_app_le; [by rewrite take_take, Nat.min_id|].
  unfold zlength in *. rewrite length_take. lia.
Qed.

(** From the wire to the server.  Whatever bytes a peer sends, in whatever
    pieces, [np_trans_recv] returns without touching memory outside its
    buffers, and a message it returns is at most [msize] long and has all its
    views inside its own packet. *)
Theorem np_trans_recv_safe fuel msize t evs :
  4 <= msize < 2 ^ 31 -> tr_ok t msize -> is_packet (stream t evs) ->
  (rd_measure evs < fuel)%nat ->
  exists r t' evs', np_trans_recv fuel msize t evs = Ret (Some (r, t', evs')) /\
    tr_ok t' msize /\
    match r with
    | Recv_msg fc => fc_size fc <= msize /\ fc_size fc <= zlength (fc_pkt fc) /\
                     views_in 7 (fc_size fc) (fc_u fc)
    | _ => True
    end.
Proof.
  intros Hm Ht HS Hf. unfold np_trans_recv.
  destruct (recv_run fuel msize t evs Hm Ht HS Hf) as (r & t' & evs' & E & T & F & _).
  rewrite E. cbn [res_bind]. destruct r as [fc| |e]; [|by eauto 10..].
  destruct F as (Hr & Hsz & Hs & _ & Hpk & _).
  destruct (np_deserialize_run fc Hpk) as (n & fc' & -> & Hp & Hs' & Hv); [lia..|].
  cbn [res_bind]. destruct (Z.eqb_spec n 0) as [Hz|Hz]; [by eauto 10|].
  exists (Recv_msg fc'), t', evs'. do 2 (split; [done|]). rewrite Hp, Hs', <- Hs.
  destruct Hv as [|[-> Hv]]; [done|]. rewrite Hs', <- Hs in Hv. split; [lia|]. split; [lia|done].
Qed.
End RecvLemmas.

(** ** Sending *)

Definition wr_fail (ev : wr_event) : bool := match ev with Wr_err _ => true | _ => false end.

Lemma send_loop_run evs pkt size len out : 0 <= len <= size -> size <= zlength pkt ->
  size < 2 ^ 31 -> exists n k evs', send_loop evs pkt size len out =
    Ret (n, out ++ take k (drop (Z.to_nat len) pkt), evs') /\
  (Z.of_nat k <= size - len) /\
  (Forall (fun ev => wr_fail ev = false) evs -> n = size /\ Z.of_nat k = size - len).
Proof.
  revert len out. induction evs as [|ev evs IH]; intros len out Hl Hp Hs; cbn [send_loop].
  - destruct (Z.ltb_spec len size).
    + rewrite u32_small, load_bytes_ok, int32_small by lia. cbn [res_bind].
      exists size, (Z.to_nat (size - len)), []. split; [done|]. split; [lia|]. intros _. lia.
    + exists len, 0%nat, []. rewrite take_0, app_nil_r. split; [done|]. lia.
  - destruct (Z.ltb_spec len size).
    2:{ exists len, 0%nat, (ev :: evs). rewrite take_0, app_nil_r. split; [done|]. lia. }
    rewrite u32_small, load_bytes_ok by lia. cbn [res_bind]. destruct ev as [|e|k].
    + destruct (IH len out Hl Hp Hs) as (n & k & evs' & E & ? & G).
      exists n, k, evs'. split; [done|]. split; [lia|]. intros Hf. apply G. by eapply Forall_inv_tail.
    + exists (-1), 0%nat, evs. rewrite take_0, app_nil_r. split; [done|]. split; [lia|].
      intros Hf. apply Forall_inv in Hf. done.
    + rewrite take_take. set (m := (k `min` Z.to_nat (size - len))%nat).
      assert (Hz : zlength (take m (drop (Z.to_nat len) pkt)) = Z.of_nat m).
      { unfold zlength in *. rewrite length_take, length_drop. lia. }
      rewrite Hz, int32_small by lia.
      destruct (IH (len + Z.of_nat m) (out ++ take m (drop (Z.to_nat len) pkt)))
        as (n & j & evs' & E & ? & G); [lia..|].
      exists n, (m + j)%nat, evs'. split.
      { rewrite E, <- app_assoc. do 4 f_equal. rewrite <- take_take_drop, drop_drop. do 3 f_equal. lia. }
      split; [lia|]. intros Hf. apply Forall_inv_tail, G in Hf. lia.
Qed.

(** Sending.  Unless a write fails, [np_fdtrans_send] writes the bytes of the
    message exactly once and in order, however many the kernel takes at a time,
    and returns their number; when one fails it has written a prefix. *)
Theorem np_fdtrans_send_exact fc evs :
  0 <= fc_size fc < 2 ^ 31 -> fc_size fc <= zlength (fc_pkt fc) -> exists n out evs',
  np_fdtrans_send fc evs = Ret (n, out, evs') /\ out `prefix_of` sent fc /\
  (Forall (fun ev => wr_fail ev = false) evs -> n = fc_size fc /\ out = sent fc).
Proof.
  intros Hs Hp. unfold np_fdtrans_send, sent.
  destruct (send_loop_run evs (fc_pkt fc) (fc_size fc) 0 []) as (n & k & evs' & -> & Hk & G); [lia..|].
  exists n, (take k (fc_pkt fc)), evs'. change (Z.to_nat 0) with 0%nat. rewrite drop_0.
  split; [done|]. split.
  - exists (drop k (take (Z.to_nat (fc_size fc)) (fc_pkt fc))).
    rewrite <- (take_drop k (take (Z.to_nat (fc_size fc)) (fc_pkt fc))) at 1.
    rewrite take_take. do 2 f_equal. lia.
  - intros Hf. destruct (G Hf) as [-> ?]. split; [done|]. f_equal. lia.
Qed.

(** ** End to end *)
Section EndToEnd.
Context `{CHeap}.

Lemma wire_message_size c : call_ok c ->
  zlength (wire_message c) = 7 + zlength (wire_body c) /\
  msg_size (wire_message c) = 7 + zlength (wire_body c).
Proof.
  intros (_ & _ & Hsz). pose proof (zlength_nonneg (wire_body c)). split.
  - unfold wire_message. autorewrite with zlen. lia.
  - unfold msg_size, wire_message. rewrite take_app_le by (rewrite le_bytes_length; lia).
    rewrite take_ge by (rewrite le_bytes_length; lia). rewrite le_value_bytes.
    apply Z.mod_small. lia.
Qed.

(** A tagged message is its wire message but for the two bytes of the tag. *)
Lemma tagged_message c fc tag : call_ok c -> run_create c = Ret (Some fc) ->
  (forall n, malloc n <> None) -> exists fc', np_set_tag fc tag = Ret fc' /\
    fc_tag fc' = u16 tag /\ fc_u fc' = fc_u fc /\ fc_type fc' = wire_type c /\
    fc_size fc' = 7 + zlength (wire_body c) /\
    zlength (fc_pkt fc') = fc_size fc' /\ msg_size (fc_pkt fc') = fc_size fc' /\
    (forall junk, u_fields (fc_pkt fc' ++ junk) (fc_u fc') = map norm_field (wire_fields c)) /\
    forall fc0 junk, fc_pkt fc0 = fc_pkt fc' ++ junk ->
      np_deserialize fc0 = Ret (fc_size fc', set_pkt (fc_pkt fc0) fc').
Proof.
  intros Hc E Hall. destruct (wire_message_size c Hc) as [Hz Hs].
  destruct (run_create_denotes c Hc (Hall _)) as (fcw & Ew & Hfc & HU).
  rewrite E in Ew. injection Ew as <-. destruct (run_create_built c Hc) as (body & Eb & _ & Hcd & _).
  rewrite Eb in E. destruct (np_create_tagged _ _ _ _ tag Hcd E) as
    (fc' & Et & Htag & Hu & Hsz & Hty & Hl & Hd).
  exists fc'. rewrite Hfc in Hsz, Hty, Hl, Et. cbn in Hsz, Hty, Hl.
  split; [by rewrite Hfc|]. do 4 (split; [done|]). unfold zlength in *. split; [lia|].
  unfold np_set_tag in Et. cbn [fc_pkt] in Et. inv_bind Et. injection Et as Et.
  assert (Hp : fc_pkt fc' = a) by (by rewrite <- Et). rewrite Hp in *.
  split; [|split; [|done]].
  - apply store_bytes_Ret in E0 as (_ & _ & ->). rewrite Hsz, <- Hs. unfold msg_size. f_equal.
  - intros junk. rewrite Hu. apply HU. intros i Hi.
    rewrite lookup_app_l by lia.
    rewrite (store_bytes_lookup_out _ _ _ _ _ E0) by (unfold zlength; cbn; lia).
    unfold wire_message. rewrite !app_assoc. rewrite lookup_app_r by (cbn; lia). f_equal. cbn. lia.
Qed.

(** C19: end to end.  A message built for a call, tagged and sent by one side
    through any sequence of partial or interrupted writes is received by the
    other side, through any chunks and interruptions, as a message with the
    same type, tag and fields, and the rest of the stream is untouched. *)
Theorem message_end_to_end c fc fc' tag wevs n out wevs' fuel msize t revs rest :
  call_ok c -> 7 + zlength (wire_body c) <= msize < 2 ^ 31 -> (forall n, malloc n <> None) ->
  run_create c = Ret (Some fc) -> np_set_tag fc tag = Ret fc' ->
  Forall (fun ev => wr_fail ev = false) wevs -> np_fdtrans_send fc' wevs = Ret (n, out, wevs') ->
  tr_ok t msize -> stream t revs = out ++ rest -> is_packet (out ++ rest) ->
  Forall (fun ev => rd_fail ev = false) revs -> (rd_measure revs < fuel)%nat ->
  exists m t' revs', np_trans_recv fuel msize t revs = Ret (Some (Recv_msg (set_pkt m fc'), t', revs')) /\
    fc_type fc' = wire_type c /\ fc_tag fc' = u16 tag /\
    u_fields m (fc_u fc') = map norm_field (wire_fields c) /\ stream t' revs' = rest.
Proof.
  intros Hc Hm Hall E Et Hw Hsend Ht HS Hpk Hr Hf.
  destruct (tagged_message c fc tag Hc E Hall) as
    (fc'' & Et' & Htag & Hu & Hty & Hsz & Hz & Hms & HU & Hd).
  rewrite Et in Et'. injection Et' as <-. pose proof (zlength_nonneg (wire_body c)).
  unfold np_fdtrans_send in Hsend.
  destruct (send_loop_run wevs (fc_pkt fc') (fc_size fc') 0 []) as (? & k & ? & Es & _ & G); [lia..|].
  rewrite Es in Hsend. injection Hsend as <- <- <-. destruct (G Hw) as [_ Hk].
  change (Z.to_nat 0) with 0%nat in *. rewrite drop_0, app_nil_l, take_ge in * by (unfold zlength in *; lia).
  assert (HmsS : msg_size (stream t revs) = fc_size fc') by (rewrite HS, msg_size_prefix; lia).
  destruct (recv_run fuel msize t revs) as (r & t' & revs' & Er & _ & F & Gr);
    [lia|done|by rewrite HS|done|].
  unfold np_trans_recv. rewrite Er. cbn [res_bind].
  assert (Hmsg : is_msg r).
  { apply Gr; [done|]. split; [done|]. rewrite HmsS. pose proof (zlength_nonneg rest).
    rewrite HS, zlength_app. lia. }
  destruct r as [fc1| |]; try done. destruct F as (Hroom & _ & _ & Hs1 & _ & Hcut).
  rewrite HmsS in Hs1. rewrite HS, Hs1 in Hcut.
  assert (Hlen : length (fc_pkt fc') = length (take (Z.to_nat (fc_size fc')) (fc_pkt fc1)))
    by (rewrite length_take; unfold zlength in *; lia).
  destruct (app_inj_1 _ _ _ _ Hlen Hcut) as [Hpkt Hrest].
  assert (Hj : fc_pkt fc1 = fc_pkt fc' ++ drop (Z.to_nat (fc_size fc')) (fc_pkt fc1)).
  { rewrite Hpkt. by rewrite take_drop. }
  rewrite (Hd fc1 _ Hj). cbn [res_bind]. rewrite (proj2 (Z.eqb_neq _ _)) by lia.
  exists (fc_pkt fc1), t', revs'. do 3 (split; [done|]). split; [|done]. rewrite Hj. apply HU.
Qed.
End EndToEnd.

(** ** When the message size shrinks *)

(** What a client sends in one go: a Tversion that asks for messages of 25
    bytes, and 80 bytes of small requests. *)
Definition shrink_burst : list Z :=
  wire_message (C_tversion 25 [57; 80]) ++ concat (replicate 8 (wire_message (C_tclunk 1)) ).

(** The surplus is not bounded by the new size.  The cached message holds up
    to the old [msize] bytes.  After a Tversion lowered the size, the next call
    allocates a buffer of the new size for the surplus and copies all of it:
    two calls, the second with the lower size, write past the end of that
    buffer. *)
Theorem recv_after_shrink_overflows :
  exists fc t evs',
    @np_fdtrans_recv big_heap 2 256 np_fdtrans_create [Rd_data shrink_burst] =
      Ret (Some (Recv_msg fc, t, evs')) /\
    tr_ok t 256 /\ msg_size (fc_pkt fc) = fc_size fc /\
    @np_fdtrans_recv big_heap 2 25 t evs' = UB.
Proof.
  eexists _, _, _. split; [vm_compute; reflexivity|].
  split; [vm_compute; intuition congruence|]. split; vm_compute; reflexivity.
Qed.

(** ** Witnesses *)

Definition chunks : list rd_event :=
  [Rd_data (take 3 (wire_message walk_call)); Rd_eintr;
   Rd_data (drop 3 (wire_message walk_call) ++ [1; 2])].

Lemma chunks_ok : stream np_fdtrans_create chunks = wire_message walk_call ++ [1; 2] /\
  is_packet (wire_message walk_call ++ [1; 2]).
Proof. split; [vm_compute; reflexivity|]. repeat constructor; vm_compute; done. Qed.

Lemma np_fdtrans_recv_framing_witness : exists r t' evs',
  @np_fdtrans_recv big_heap 100 64 np_fdtrans_create chunks = Ret (Some (r, t', evs')) /\
  tr_ok t' 64 /\ @framed 64 (wire_message walk_call ++ [1; 2]) r t' evs'.
Proof.
  apply (@np_fdtrans_recv_framing big_heap 100 64 np_fdtrans_create chunks).
  - lia.
  - exact I.
  - exact (proj2 chunks_ok).
  - vm_compute. lia.
Defined.

Lemma np_fdtrans_recv_delivers_witness : exists fc t' evs',
  @np_fdtrans_recv big_heap 100 64 np_fdtrans_create chunks =
    Ret (Some (Recv_msg fc, t', evs')) /\
  take (Z.to_nat (fc_size fc)) (fc_pkt fc) =
  take 27 (wire_message walk_call ++ [1; 2]).
Proof.
  apply (@np_fdtrans_recv_delivers big_heap 100 64 np_fdtrans_create chunks).
  - lia.
  - exact I.
  - exact (proj2 chunks_ok).
  - vm_compute. lia.
  - discriminate.
  - split; [repeat constructor|]. vm_compute. intuition congruence.
Defined.

Lemma np_trans_recv_safe_witness : exists r t' evs',
  @np_trans_recv big_heap 100 64 np_fdtrans_create chunks = Ret (Some (r, t', evs')) /\
  tr_ok t' 64 /\ match r with
    | Recv_msg fc => fc_size fc <= 64 /\ fc_size fc <= zlength (fc_pkt fc) /\
                     views_in 7 (fc_size fc) (fc_u fc)
    | _ => True
    end.
Proof.
  apply (@np_trans_recv_safe big_heap 100 64 np_fdtrans_create chunks).
  - lia.
  - exact I.
  - exact (proj2 chunks_ok).
  - vm_compute. lia.
Defined.

Lemma np_fdtrans_send_exact_witness : exists n out evs',
  np_fdtrans_send (blank_fcall []) [Wr_n 1] = Ret (n, out, evs') /\
  out `prefix_of` sent (blank_fcall []) /\
  (Forall (fun ev => wr_fail ev = false) [Wr_n 1] -> n = 0 /\ out = sent (blank_fcall [])).
Proof.
  apply (np_fdtrans_send_exact (blank_fcall []) [Wr_n 1]); vm_compute; intuition congruence.
Defined.

Lemma message_end_to_end_witness : exists fc fc' m t' revs',
  @run_create big_heap walk_call = Ret (Some fc) /\ np_set_tag fc 7 = Ret fc' /\
  @np_trans_recv big_heap 100 64 np_fdtrans_create
    [Rd_data (take 3 (fc_pkt fc')); Rd_eintr; Rd_data (drop 3 (fc_pkt fc') ++ [1; 2])] =
    Ret (Some (Recv_msg (set_pkt m fc'), t', revs')) /\
  u_fields m (fc_u fc') = map norm_field (wire_fields walk_call) /\ stream t' revs' = [1; 2].
Proof.
  destruct (@run_create big_heap walk_call) as [[fc|]| |] eqn:E;
    [|vm_compute in E; discriminate E..].
  destruct (np_set_tag fc 7) as [fc'| |] eqn:Et;
    [|vm_compute in E; injection E as <-; vm_compute in Et; discriminate Et..].
  pose proof E as E1. pose proof Et as Et1.
  vm_compute in E. injection E as E. rewrite <- E in Et. vm_compute in Et. injection Et as Et.
  destruct (@message_end_to_end big_heap walk_call fc fc' 7 [Wr_n 2; Wr_eintr] 27
    (fc_pkt fc') [] 100 64 np_fdtrans_create
    [Rd_data (take 3 (fc_pkt fc')); Rd_eintr; Rd_data (drop 3 (fc_pkt fc') ++ [1; 2])] [1; 2])
    as (m & t' & revs' & R & _ & _ & U & St).
  - exact walk_call_ok.
  - vm_compute. intuition congruence.
  - discriminate.
  - exact E1.
  - exact Et1.
  - repeat constructor.
  - rewrite <- Et. vm_compute. reflexivity.
  - exact I.
  - rewrite <- Et. vm_compute. reflexivity.
  - rewrite <- Et. repeat constructor; vm_compute; done.
  - rewrite <- Et. repeat constructor.
  - rewrite <- Et. vm_compute. lia.
  - exists fc, fc', m, t', revs'. do 2 (split; [assumption || reflexivity|]).
    split; [exact R|]. split; [exact U|exact St].
Defined.
