(* ===== verification/Fcall.v ===== *)
(** * Request handlers (libnpfs/fcall.c)

    One definition per handler, in a state monad over what a handler can
    change: the connection (message size, authenticated user, fid table), the
    fid of the request, the thread's error code and the trace of calls into
    the rest of the server.  Those calls (the file system's operations, the
    user database, the ctl file system, the allocator of fids) go through the
    class [SrvEnv]: it says what a call returns and may do to the fid it is
    given, and nothing about the file system itself. *)
From S2P Require Import Prelude Cbuf Protocol Create Npstring Fidpool Replies.
From stdpp Require Import list gmap.
#[local] Open Scope Z_scope.

Definition ENOENT : Z := 2.
Definition EOPNOTSUPP : Z := 95.
Definition SRV_FLAGS_AUTHCONN : Z := 131072.
Definition O_WRONLY : Z := 1.
Definition O_RDWR : Z := 2.

(** The functions handlers call through [Npsrv] and [Npauth], the ctl file
    system and the user database. *)
Inductive srv_op :=
| Op_auth_required | Op_startauth | Op_checkauth | Op_auth_read | Op_auth_write
| Op_remapuser | Op_exportok
| Op_attach | Op_clone | Op_walk | Op_read | Op_write | Op_clunk | Op_remove
| Op_statfs | Op_lopen | Op_lcreate | Op_symlink | Op_mknod | Op_rename | Op_readlink
| Op_getattr | Op_setattr | Op_xattrwalk | Op_xattrcreate | Op_readdir | Op_fsync
| Op_llock | Op_getlock | Op_link | Op_mkdir | Op_renameat | Op_unlinkat
| Op_ctl_attach | Op_ctl_clone | Op_ctl_walk | Op_ctl_read | Op_ctl_write | Op_ctl_clunk
| Op_ctl_lopen | Op_ctl_getattr | Op_ctl_setattr | Op_ctl_readdir
| Op_setfsid | Op_attach2user | Op_afid2user | Op_user_incref | Op_tpool_incref
| Op_tpool_select
| Op_malloc | Op_strdup.

#[global] Instance srv_op_eq_dec : EqDecision srv_op.
Proof. solve_decision. Defined.

Inductive arg :=
| AZ (z : Z)
| AS (s : Npstr)
| AP (a : option Z)
| AU (u : option loc).

(** A call: the function, the fids and the other arguments. *)
Record scall := { sc_op : srv_op; sc_fids : list loc; sc_args : list arg }.

(** Its outcome: the reply or [NULL], an [int] result, a pointer result, a qid,
    bytes produced, the error code set, what was assigned to the first fid's
    [user], and the bits set in its [flags]. *)
Record outcome := {
  o_rc : option Npfcall;
  o_int : Z;
  o_ptr : option loc;
  o_qid : Npqid;
  o_data : list Z;
  o_err : option Z;
  o_user : option (option loc);
  o_flags : option Z;
}.

Class SrvEnv := {
  world : Type;
  env : world -> scall -> outcome * world;
  uid_of : world -> loc -> Z;
}.

(** The server: which functions are set, its flags and the fid table's part. *)
Record Npsrv := {
  has : srv_op -> bool;
  has_auth : bool;
  srv_flags : Z;
  fidconf : srv_conf;
}.

Section Fcall.
Context `{CHeap} `{SrvEnv}.
Variable srv : Npsrv.

Record hstate := {
  h_msize : Z;
  h_authuser : Z;
  h_pool : Npfidpool;
  h_fid : option loc;
  h_err : Z;
  h_world : world;
  h_calls : list (scall * outcome);
}.

Definition HM (A : Type) : Type := hstate -> res (A * hstate).

Definition hret {A} (a : A) : HM A := fun s => Ret (a, s).
Definition hbind {A B} (c : HM A) (f : A -> HM B) : HM B :=
  fun s => let! (a, s) := c s in f a s.

Notation "'do' x <- c ; k" := (hbind c (fun x => k))
  (at level 100, x name, c at level 100, k at level 200, right associativity).

Definition with_pool (q : Npfidpool) (s : hstate) : hstate :=
  {| h_msize := h_msize s; h_authuser := h_authuser s; h_pool := q; h_fid := h_fid s;
     h_err := h_err s; h_world := h_world s; h_calls := h_calls s |}.

Definition hlift {A} (c : Npfidpool -> res (A * Npfidpool)) : HM A :=
  fun s => let! (a, q) := c (h_pool s) in Ret (a, with_pool q s).

Definition np_uerror (e : Z) : HM unit := fun s =>
  Ret (tt, {| h_msize := h_msize s; h_authuser := h_authuser s; h_pool := h_pool s;
              h_fid := h_fid s; h_err := e; h_world := h_world s; h_calls := h_calls s |}).

Definition set_reqfid (o : option loc) : HM unit := fun s =>
  Ret (tt, {| h_msize := h_msize s; h_authuser := h_authuser s; h_pool := h_pool s;
              h_fid := o; h_err := h_err s; h_world := h_world s; h_calls := h_calls s |}).

Definition reqfid : HM (option loc) := fun s => Ret (h_fid s, s).
Definition np_rerror : HM Z := fun s => Ret (h_err s, s).
Definition conn_msize : HM Z := fun s => Ret (h_msize s, s).

Definition set_msize (m : Z) : HM unit := fun s =>
  Ret (tt, {| h_msize := m; h_authuser := h_authuser s; h_pool := h_pool s;
              h_fid := h_fid s; h_err := h_err s; h_world := h_world s; h_calls := h_calls s |}).

Definition np_conn_set_authuser (u : Z) : HM unit := fun s =>
  Ret (tt, {| h_msize := h_msize s; h_authuser := u32 u; h_pool := h_pool s;
              h_fid := h_fid s; h_err := h_err s; h_world := h_world s; h_calls := h_calls s |}).

(** [np_conn_get_authuser]: [None] is the return value -1. *)
Definition np_conn_get_authuser : HM (option Z) := fun s =>
  Ret (if h_authuser s =? NONUNAME then None else Some (h_authuser s), s).

Definition user_uid (u : loc) : HM Z := fun s => Ret (uid_of (h_world s) u, s).

(** [f->..] and [f->.. = ..] on a fid of the table. *)
Definition get_fid (l : loc) : HM Npfid := hlift (fun q => let! f := load_fid q l in Ret (f, q)).
Definition put_fid (l : loc) (g : Npfid -> Npfid) : HM unit :=
  hlift (fun q => let! q := upd_fid l g q in Ret (tt, q)).

Definition set_user (u : option loc) (f : Npfid) : Npfid :=
  {| fid := fid f; refcount := refcount f; type := type f; user := u; tpool := tpool f;
     aname := aname f; flags := flags f; aux := aux f; next := next f; prev := prev f |}.
Definition set_type (t : Z) (f : Npfid) : Npfid :=
  {| fid := fid f; refcount := refcount f; type := t; user := user f; tpool := tpool f;
     aname := aname f; flags := flags f; aux := aux f; next := next f; prev := prev f |}.
Definition set_tpool (t : option loc) (f : Npfid) : Npfid :=
  {| fid := fid f; refcount := refcount f; type := type f; user := user f; tpool := t;
     aname := aname f; flags := flags f; aux := aux f; next := next f; prev := prev f |}.
Definition set_aname (a : option (list Z)) (f : Npfid) : Npfid :=
  {| fid := fid f; refcount := refcount f; type := type f; user := user f; tpool := tpool f;
     aname := a; flags := flags f; aux := aux f; next := next f; prev := prev f |}.

(** A call out of the handler. *)
Definition call (op : srv_op) (fs : list loc) (args : list arg) : HM outcome := fun s =>
  let c := {| sc_op := op; sc_fids := fs; sc_args := args |} in
  let '(o, w) := env (h_world s) c in
  let s := {| h_msize := h_msize s; h_authuser := h_authuser s; h_pool := h_pool s;
              h_fid := h_fid s; h_err := default (h_err s) (o_err o); h_world := w;
              h_calls := h_calls s ++ [(c, o)] |} in
  match fs with
  | f :: _ =>
      let! q := match o_user o with
                | Some u => upd_fid f (set_user u) (h_pool s)
                | None => Ret (h_pool s)
                end in
      let! q := match o_flags o with
                | Some n => upd_fid f (fun g => set_flags (Z.lor (flags g) n) g) q
                | None => Ret q
                end in
      Ret (o, with_pool q s)
  | [] => Ret (o, s)
  end.

Definition np_setfsid (u : option loc) (gid : Z) : HM Z :=
  do o <- call Op_setfsid [] [AU u; AZ gid]; hret (o_int o).

Definition fid_find (n : Z) : HM (option loc) := hlift (np_fid_find n).
Definition fid_incref (l : loc) : HM unit :=
  hlift (fun q => let! q := np_fid_incref l q in Ret (tt, q)).

(** [np_fid_create], which sets the error code when it fails. *)
Definition fid_create (n : Z) : HM (option loc) :=
  do m <- call Op_malloc [] [];
  do r <- hlift (np_fid_create (fidconf srv) n (negb (o_int m =? 0)));
  match r with
  | inl l => hret (Some l)
  | inr e => do _ <- np_uerror e; hret None
  end.

(** [np_fid_decref (&l)]: what the pointer holds afterwards. *)
Definition fid_decref (l : loc) : HM (option loc) :=
  do gone <- hlift (np_fid_decref (fidconf srv) l);
  hret (if gone : bool then None else Some l).

(** [if (l) np_fid_decref (&l);] for a local variable. *)
Definition drop_fid (o : option loc) : HM unit :=
  match o with
  | Some l => do _ <- fid_decref l; hret tt
  | None => hret tt
  end.

Definition fail (e : Z) : HM (option Npfcall) := do _ <- np_uerror e; hret None.

(** The end of most handlers: become the user, check that the operation is
    implemented, call it. *)
Definition fs_call (op : srv_op) (u : option loc) (gid : Z) (nosys : Z)
    (fs : list loc) (args : list arg) : HM (option Npfcall) :=
  do r <- np_setfsid u gid;
  if r <? 0 then hret None
  else if negb (has srv op) then fail nosys
  else do o <- call op fs args; hret (o_rc o).

Definition bit (z mask : Z) : bool := negb (Z.land z mask =? 0).

(** [np_create_*] inside a handler: [NULL] is out of memory. *)
Definition hcreate (c : res (option Npfcall)) : HM (option Npfcall) :=
  fun s => let! o := c in Ret (o, s).

Definition or_enomem (c : res (option Npfcall)) : HM (option Npfcall) :=
  do rc <- hcreate c;
  match rc with
  | Some _ => hret rc
  | None => fail ENOMEM
  end.

(** "9P2000.L" *)
Definition version_L : cstr := [57; 80; 50; 48; 48; 48; 46; 76].

Definition np_version (tc : Npfcall) (x : Nptversion) : HM (option Npfcall) :=
  let msize := int32 (tversion_msize x) in
  if msize <? IOHDRSZ + 1 then fail EIO
  else
    do cm <- conn_msize;
    let msize := if cm <? u32 msize then int32 cm else msize in
    do _ <- (if u32 msize <? cm then set_msize (u32 msize) else hret tt);
    do c <- (fun s => let! r := np_strcmp (fc_pkt tc) (tversion_version x) version_L in Ret (r, s));
    if c =? 0 then or_enomem (np_create_rversion msize (Some version_L))
    else fail EIO.

Definition authrequired (uname : Npstr) (n_uname : Z) (aname : Npstr) : HM bool :=
  if negb (has_auth srv) || negb (has srv Op_startauth) || negb (has srv Op_checkauth)
  then hret false
  else if negb (has srv Op_auth_required) then hret true
  else do o <- call Op_auth_required [] [AS uname; AZ n_uname; AS aname];
       hret (negb (o_int o =? 0)).

Definition np_auth (x : Nptauth) : HM (option Npfcall) :=
  do afid <- reqfid;
  do auth_required <- authrequired (tauth_uname x) (tauth_n_uname x) (tauth_aname x);
  if negb (auth_required : bool) then or_enomem (np_create_rlerror ENOENT)
  else
    match afid with
    | None => fail EIO
    | Some afid =>
        do _ <- fid_incref afid;
        do u <- call Op_attach2user [] [AS (tauth_uname x); AZ (tauth_n_uname x)];
        do _ <- put_fid afid (set_user (o_ptr u));
        match o_ptr u with
        | None => hret None
        | Some _ =>
            do _ <- put_fid afid (set_type Qtauth);
            do o <- call Op_startauth [afid] [];
            if o_int o =? 0 then hret None
            else
              do _ <- (fun s => let! _ := np_assert (bit (qtype (o_qid o)) Qtauth) in Ret (tt, s));
              or_enomem (np_create_rauth (o_qid o))
        end
    end.

Definition ctl_name : cstr := [99; 116; 108].

(** [fid->aname] as a C string. *)
Definition fid_aname (f : Npfid) : HM cstr := fun s =>
  match aname f with Some a => Ret (c_string a, s) | None => UB end.

(** The authentication part of [np_attach]: [true] to go on. *)
Definition attach_auth (x : Nptattach) (fid0 : loc) (afid : option loc)
    (auth_required : bool) : HM bool :=
  if auth_required then
    match afid with
    | Some afid =>
        do u <- call Op_afid2user [afid] [AS (tattach_uname x); AZ (tattach_n_uname x)];
        do _ <- put_fid fid0 (set_user (o_ptr u));
        match o_ptr u with
        | None => hret false
        | Some _ =>
            do o <- call Op_checkauth [fid0; afid] [];
            if o_int o =? 0 then hret false
            else
              do f <- get_fid fid0;
              match user f with
              | Some u => do uid <- user_uid u; do _ <- np_conn_set_authuser uid; hret true
              | None => fun _ => UB
              end
        end
    | None =>
        do u <- call Op_attach2user [] [AS (tattach_uname x); AZ (tattach_n_uname x)];
        do _ <- put_fid fid0 (set_user (o_ptr u));
        match o_ptr u with
        | None => hret false
        | Some u =>
            if negb (bit (srv_flags srv) SRV_FLAGS_AUTHCONN) then
              do _ <- np_uerror EPERM; hret false
            else
              do a <- np_conn_get_authuser;
              match a with
              | None => do _ <- np_uerror EPERM; hret false
              | Some uid =>
                  do fuid <- user_uid u;
                  if negb (uid =? 0) && negb (uid =? fuid) then
                    do _ <- np_uerror EPERM; hret false
                  else hret true
              end
        end
    end
  else
    do f <- get_fid fid0;
    do u <- match user f with
            | Some u => hret (Some u)
            | None =>
                do u <- call Op_attach2user [] [AS (tattach_uname x); AZ (tattach_n_uname x)];
                do _ <- put_fid fid0 (set_user (o_ptr u));
                hret (o_ptr u)
            end;
    match u with
    | None => hret false
    | Some u =>
        do uid <- user_uid u;
        do _ <- (if uid =? 0 then np_conn_set_authuser uid else hret tt);
        hret true
    end.

(** The hooks and the attach itself. *)
Definition attach_finish (x : Nptattach) (fid0 : loc) (afid : option loc)
  : HM (option Npfcall) :=
  do ok <- (if has srv Op_remapuser then
              do o <- call Op_remapuser [fid0] []; hret (0 <=? o_int o)
            else hret true);
  if negb (ok : bool) then hret None
  else
    do ok <- (if has srv Op_exportok then
                do o <- call Op_exportok [fid0] []; hret (negb (o_int o =? 0))
              else hret true);
    if negb (ok : bool) then fail EPERM
    else
      do f <- get_fid fid0;
      do a <- fid_aname f;
      do rc <- (if bool_decide (a = ctl_name) then
                  do o <- call Op_ctl_attach (fid0 :: option_list afid) []; hret (o_rc o)
                else if negb (has srv Op_attach) then fail ENOSYS
                else do o <- call Op_attach (fid0 :: option_list afid) [AS (tattach_aname x)];
                     hret (o_rc o));
      do _ <- (match rc with Some _ => fid_incref fid0 | None => hret tt end);
      hret rc.

Definition np_attach (x : Nptattach) : HM (option Npfcall) :=
  do o <- reqfid;
  do auth_required <- authrequired (tattach_uname x) (tattach_n_uname x) (tattach_aname x);
  match o with
  | None => fail EIO
  | Some fid0 =>
      do r <- (if tattach_afid x =? NOFID then hret (Some None)
               else
                 do a <- fid_find (tattach_afid x);
                 match a with
                 | None => do _ <- np_uerror EPERM; hret None
                 | Some afid => hret (Some (Some afid))
                 end);
      match r with
      | None => hret None
      | Some afid =>
          do good <- (match afid with
                      | None => hret true
                      | Some l => do f <- get_fid l; hret (bit (type f) Qtauth)
                      end);
          do rc <- (if negb (good : bool) then fail EPERM
                    else
                      do ok <- attach_auth x fid0 afid auth_required;
                      if negb (ok : bool) then hret None else attach_finish x fid0 afid);
          do _ <- drop_fid afid;
          hret rc
      end
  end.

(** The loop of [np_walk] over the names that are left: the qids walked. *)
Fixpoint walk_loop (newfid : loc) (names : list Npstr) (acc : list Npqid) : HM (list Npqid) :=
  match names with
  | [] => hret acc
  | n :: names =>
      do f <- get_fid newfid;
      do r <- (if bit (type f) Qttmp then
                 do o <- call Op_ctl_walk [newfid] [AS n];
                 hret (if o_int o =? 0 then None else Some (o_qid o))
               else if negb (has srv Op_walk) then do _ <- np_uerror ENOSYS; hret None
               else
                 do o <- call Op_walk [newfid] [AS n];
                 hret (if o_int o =? 0 then None else Some (o_qid o)));
      match r with
      | None => hret acc
      | Some q =>
          do _ <- put_fid newfid (set_type (u8 (qtype q)));
          let acc := acc ++ [q] in
          if negb (bit (u8 (qtype q)) Qtdir) && (0 <? zlength names) then hret acc
          else walk_loop newfid names acc
      end
  end.

(** What [np_walk] and [np_xattrwalk] copy from a fid to a fid derived from it;
    [false] when [strdup] fails. *)
Definition derive_fid (l newl : loc) : HM bool :=
  do f <- get_fid l;
  do _ <- call Op_user_incref [] [AU (user f)];
  do _ <- put_fid newl (set_user (user f));
  do _ <- call Op_tpool_incref [] [AU (tpool f)];
  do _ <- put_fid newl (set_tpool (tpool f));
  do _ <- put_fid newl (set_type (type f));
  do _ <- put_fid newl (set_flags (flags f));
  do a <- fid_aname f;
  do m <- call Op_strdup [] [];
  if o_int m =? 0 then do _ <- np_uerror ENOMEM; hret false
  else do _ <- put_fid newl (set_aname (Some (c_object a))); hret true.

(** [np_uerror (e)] and a log line with [fid->user->uname], which has no
    meaning for a fid without a user. *)
Definition log_fid_user (l : loc) (e : Z) : HM (option Npfcall) :=
  do _ <- np_uerror e;
  do f <- get_fid l;
  match user f with
  | Some _ => hret None
  | None => fun _ => UB
  end.

(** After the new fid is set up. *)
Definition walk_names (x : Nptwalk) (newfid : loc) : HM (option Npfcall) :=
  do f <- get_fid newfid;
  do r <- (if bit (type f) Qttmp then hret 0 else np_setfsid (user f) (-1));
  if r <? 0 then hret None
  else
    do qs <- walk_loop newfid (twalk_wnames x) [];
    if (zlength qs =? 0) && negb (twalk_nwname x =? 0) then hret None
    else
      do _ <- np_uerror 0;
      hcreate (np_create_rwalk (zlength qs) qs).

Definition np_walk (x : Nptwalk) : HM (option Npfcall) :=
  do o <- reqfid;
  match o with
  | None => fail EIO
  | Some l =>
      if MAXWELEM <? twalk_nwname x then fail EIO
      else if twalk_fid x =? twalk_newfid x then walk_names x l
      else
        do o <- fid_create (twalk_newfid x);
        match o with
        | None =>
            do e <- np_rerror;
            if e =? EEXIST then log_fid_user l EIO else hret None
        | Some newl =>
            do f <- get_fid l;
            do ok <- (if bit (type f) Qttmp then
                        do o <- call Op_ctl_clone [l; newl] []; hret (negb (o_int o =? 0))
                      else if negb (has srv Op_clone) then do _ <- np_uerror ENOSYS; hret false
                      else do o <- call Op_clone [l; newl] []; hret (negb (o_int o =? 0)));
            do rc <- (if negb (ok : bool) then hret None
                      else
                        do ok <- derive_fid l newl;
                        if negb (ok : bool) then hret None else walk_names x newl);
            match rc with
            | Some _ => hret rc
            | None => do _ <- fid_decref newl; hret None
            end
        end
  end.

Definition np_read (x : Nptread) : HM (option Npfcall) :=
  do o <- reqfid;
  match o with
  | None => fail EIO
  | Some l =>
      do cm <- conn_msize;
      if cm <? u64 (tread_count x + IOHDRSZ) then fail EIO
      else
        do f <- get_fid l;
        if bit (type f) Qtauth then
          if has_auth srv then
            do rc <- hcreate (np_alloc_rread (tread_count x));
            match rc with
            | None => hret None
            | Some rc =>
                do o <- call Op_auth_read [l] [AZ (tread_offset x); AZ (tread_count x)];
                if 0 <=? o_int o then
                  fun s => let! rc := fill_data rc (o_data o) in
                           let! rc := np_set_rread_count rc (o_int o) in
                           Ret (Some rc, s)
                else hret None
            end
          else fail ENOSYS
        else if bit (type f) Qttmp then
          do o <- call Op_ctl_read [l] [AZ (tread_offset x); AZ (tread_count x)]; hret (o_rc o)
        else fs_call Op_read (user f) (-1) ENOSYS [l] [AZ (tread_offset x); AZ (tread_count x)]
  end.

Definition np_write (x : Nptwrite) : HM (option Npfcall) :=
  let args := [AZ (twrite_offset x); AZ (twrite_count x); AP (twrite_data x)] in
  do o <- reqfid;
  match o with
  | None => fail EIO
  | Some l =>
      do f <- get_fid l;
      if bit (type f) Qtauth then
        if has_auth srv then
          do o <- call Op_auth_write [l] args;
          if 0 <=? o_int o then or_enomem (np_create_rwrite (o_int o)) else hret None
        else fail ENOSYS
      else if bit (flags f) FID_FLAGS_ROFS then fail EROFS
      else
        do cm <- conn_msize;
        if cm <? u64 (twrite_count x + IOHDRSZ) then fail EIO
        else if bit (type f) Qttmp then
          do o <- call Op_ctl_write [l] args; hret (o_rc o)
        else fs_call Op_write (user f) (-1) ENOSYS [l] args
  end.

(** [np_fid_decref (&req->fid)] *)
Definition drop_reqfid : HM unit :=
  do o <- reqfid;
  match o with
  | Some l => do o <- fid_decref l; set_reqfid o
  | None => hret tt
  end.

Definition np_clunk : HM (option Npfcall) :=
  do o <- reqfid;
  do rc <- match o with
           | None => fail EIO
           | Some l =>
               do f <- get_fid l;
               if bit (type f) Qtauth then
                 if has_auth srv then or_enomem np_create_rclunk else fail ENOSYS
               else if bit (type f) Qttmp then
                 do o <- call Op_ctl_clunk [l] []; hret (o_rc o)
               else if negb (has srv Op_clunk) then fail ENOSYS
               else do o <- call Op_clunk [l] []; hret (o_rc o)
           end;
  do _ <- drop_reqfid;
  hret rc.

Definition np_remove : HM (option Npfcall) :=
  do o <- reqfid;
  do rc <- match o with
           | None => fail EIO
           | Some l =>
               do f <- get_fid l;
               if bit (flags f) FID_FLAGS_ROFS then fail EROFS
               else if bit (type f) Qttmp then fail EPERM
               else fs_call Op_remove (user f) (-1) ENOSYS [l] []
           end;
  do _ <- drop_reqfid;
  hret rc.

(** The common shape of the handlers on one fid: the fid must exist; the
    read-only check where the handler has one; the ctl branch; the file
    system. *)
Definition on_fid (rofs : Npfid -> bool) (ctl : loc -> HM (option Npfcall))
    (fs : loc -> Npfid -> HM (option Npfcall)) : HM (option Npfcall) :=
  do o <- reqfid;
  match o with
  | None => fail EIO
  | Some l =>
      do f <- get_fid l;
      if rofs f then fail EROFS
      else if bit (type f) Qttmp then ctl l
      else fs l f
  end.

Definition ro (f : Npfid) : bool := bit (flags f) FID_FLAGS_ROFS.
Definition no_check (f : Npfid) : bool := false.

Definition np_statfs : HM (option Npfcall) :=
  on_fid no_check (fun _ => fail ENOSYS)
    (fun l f => fs_call Op_statfs (user f) (-1) ENOSYS [l] []).

Definition np_lopen (x : Nptlopen) : HM (option Npfcall) :=
  let flags := int32 (tlopen_flags x) in
  on_fid (fun f => ro f && (bit flags O_WRONLY || bit flags O_RDWR))
    (fun l => do o <- call Op_ctl_lopen [l] [AZ (tlopen_flags x)]; hret (o_rc o))
    (fun l f => fs_call Op_lopen (user f) (-1) ENOSYS [l] [AZ (tlopen_flags x)]).

Definition np_lcreate (x : Nptlcreate) : HM (option Npfcall) :=
  on_fid ro (fun _ => fail EPERM)
    (fun l f =>
       do rc <- fs_call Op_lcreate (user f) (tlcreate_gid x) ENOSYS [l]
         [AS (tlcreate_name x); AZ (tlcreate_flags x); AZ (tlcreate_mode x); AZ (tlcreate_gid x)];
       match rc with
       | None => hret None
       | Some r =>
           match fc_u r with
           | U_rlcreate y =>
               do _ <- put_fid l (set_type (u8 (qtype (rlcreate_qid y)))); hret rc
           | _ => fun _ => UB
           end
       end).

Definition np_symlink (x : Nptsymlink) : HM (option Npfcall) :=
  on_fid ro (fun _ => fail EPERM)
    (fun l f => fs_call Op_symlink (user f) (tsymlink_gid x) ENOSYS [l]
       [AS (tsymlink_name x); AS (tsymlink_symtgt x); AZ (tsymlink_gid x)]).

Definition np_mknod (x : Nptmknod) : HM (option Npfcall) :=
  on_fid ro (fun _ => fail EPERM)
    (fun l f => fs_call Op_mknod (user f) (tmknod_gid x) ENOSYS [l]
       [AS (tmknod_name x); AZ (tmknod_mode x); AZ (tmknod_major x); AZ (tmknod_minor x);
        AZ (tmknod_gid x)]).

Definition np_rename (x : Nptrename) : HM (option Npfcall) :=
  do o <- reqfid;
  match o with
  | None => fail EIO
  | Some l =>
      do d <- fid_find (trename_dfid x);
      do rc <- match d with
               | None => fail EIO
               | Some dfid =>
                   do f <- get_fid l;
                   if ro f then fail EROFS
                   else if bit (type f) Qttmp then fail EPERM
                   else fs_call Op_rename (user f) (-1) ENOSYS [l; dfid] [AS (trename_name x)]
               end;
      do _ <- drop_fid d;
      hret rc
  end.

Definition np_readlink : HM (option Npfcall) :=
  on_fid no_check (fun _ => fail EPERM)
    (fun l f => fs_call Op_readlink (user f) (-1) ENOSYS [l] []).

Definition np_getattr (x : Nptgetattr) : HM (option Npfcall) :=
  on_fid no_check
    (fun l => do o <- call Op_ctl_getattr [l] [AZ (tgetattr_request_mask x)]; hret (o_rc o))
    (fun l f => fs_call Op_getattr (user f) (-1) ENOSYS [l] [AZ (tgetattr_request_mask x)]).

Definition np_setattr (x : Nptsetattr) : HM (option Npfcall) :=
  let args := [AZ (tsetattr_valid x); AZ (tsetattr_mode x); AZ (tsetattr_uid x);
    AZ (tsetattr_gid x); AZ (tsetattr_size x); AZ (tsetattr_atime_sec x);
    AZ (tsetattr_atime_nsec x); AZ (tsetattr_mtime_sec x); AZ (tsetattr_mtime_nsec x)] in
  on_fid ro
    (fun l => do o <- call Op_ctl_setattr [l] args; hret (o_rc o))
    (fun l f => fs_call Op_setattr (user f) (-1) ENOSYS [l] args).

Definition np_xattrwalk (x : Nptxattrwalk) : HM (option Npfcall) :=
  do o <- reqfid;
  match o with
  | None => fail EIO
  | Some l =>
      do o <- fid_create (txattrwalk_attrfid x);
      match o with
      | None =>
          do e <- np_rerror;
          if e =? EEXIST then log_fid_user l EIO else hret None
      | Some attrfid =>
          do ok <- derive_fid l attrfid;
          do rc <- (if negb (ok : bool) then hret None
                    else
                      do f <- get_fid l;
                      if bit (type f) Qttmp then fail EPERM
                      else fs_call Op_xattrwalk (user f) (-1) ENOSYS [l; attrfid]
                             [AS (txattrwalk_name x)]);
          match rc with
          | Some _ => hret rc
          | None => do _ <- fid_decref attrfid; hret None
          end
      end
  end.

Definition np_xattrcreate (x : Nptxattrcreate) : HM (option Npfcall) :=
  on_fid no_check (fun _ => fail EPERM)
    (fun l f => fs_call Op_xattrcreate (user f) (-1) ENOSYS [l]
       [AS (txattrcreate_name x); AZ (txattrcreate_size x); AZ (txattrcreate_flag x)]).

Definition np_readdir (x : Nptreaddir) : HM (option Npfcall) :=
  do o <- reqfid;
  match o with
  | None => fail EIO
  | Some l =>
      do cm <- conn_msize;
      if cm <? u32 (treaddir_count x + DIRHDRSZ) then fail EIO
      else
        do f <- get_fid l;
        if bit (type f) Qttmp then
          do o <- call Op_ctl_readdir [l] [AZ (treaddir_offset x); AZ (treaddir_count x)];
          hret (o_rc o)
        else fs_call Op_readdir (user f) (-1) ENOSYS [l]
               [AZ (treaddir_offset x); AZ (treaddir_count x)]
  end.

Definition np_fsync (x : Nptfsync) : HM (option Npfcall) :=
  on_fid ro (fun _ => fail EPERM)
    (fun l f => fs_call Op_fsync (user f) (-1) ENOSYS [l] [AZ (tfsync_datasync x)]).

Definition np_lock (x : Nptlock) : HM (option Npfcall) :=
  on_fid ro (fun _ => fail EPERM)
    (fun l f => fs_call Op_llock (user f) (-1) ENOSYS [l]
       [AZ (tlock_type x); AZ (tlock_flags x); AZ (tlock_start x); AZ (tlock_length x);
        AZ (tlock_proc_id x); AS (tlock_client_id x)]).

Definition np_getlock (x : Nptgetlock) : HM (option Npfcall) :=
  on_fid ro (fun _ => fail EPERM)
    (fun l f => fs_call Op_getlock (user f) (-1) ENOSYS [l]
       [AZ (tgetlock_type x); AZ (tgetlock_start x); AZ (tgetlock_length x);
        AZ (tgetlock_proc_id x); AS (tgetlock_client_id x)]).

Definition np_link (x : Nptlink) : HM (option Npfcall) :=
  do o <- reqfid;
  match o with
  | None => fail EIO
  | Some dfid =>
      do d <- fid_find (tlink_fid x);
      do rc <- match d with
               | None => fail EIO
               | Some l =>
                   do f <- get_fid l;
                   if ro f then fail EROFS
                   else if bit (type f) Qttmp then fail EPERM
                   else fs_call Op_link (user f) (-1) ENOSYS [dfid; l] [AS (tlink_name x)]
               end;
      do _ <- drop_fid d;
      hret rc
  end.

Definition np_mkdir (x : Nptmkdir) : HM (option Npfcall) :=
  on_fid ro (fun _ => fail EPERM)
    (fun l f => fs_call Op_mkdir (user f) (tmkdir_gid x) ENOSYS [l]
       [AS (tmkdir_name x); AZ (tmkdir_mode x); AZ (tmkdir_gid x)]).

Definition np_renameat (x : Nptrenameat) : HM (option Npfcall) :=
  do o <- reqfid;
  match o with
  | None => fail EIO
  | Some olddirfid =>
      do f <- get_fid olddirfid;
      if ro f then fail EROFS
      else if bit (type f) Qttmp then fail EPERM
      else
        do d <- fid_find (trenameat_newdirfid x);
        do rc <- match d with
                 | None => fail EIO
                 | Some newdirfid =>
                     do g <- get_fid newdirfid;
                     fs_call Op_renameat (user g) (-1) EOPNOTSUPP [olddirfid; newdirfid]
                       [AS (trenameat_oldname x); AS (trenameat_newname x)]
                 end;
        do _ <- drop_fid d;
        hret rc
  end.

Definition np_unlinkat (x : Nptunlinkat) : HM (option Npfcall) :=
  on_fid ro (fun _ => fail EPERM)
    (fun l f => fs_call Op_unlinkat (user f) (-1) EOPNOTSUPP [l]
       [AS (tunlinkat_name x); AZ (tunlinkat_flags x)]).
End Fcall.
