(* ===== verification/Account.v ===== *)
(** * Rules for reasoning about request handlers

    Handlers are programs in the state monad of Fcall.v.  [runs c s Q] says
    that [c] returns from [s], without undefined behaviour and without a failed
    assertion, in a state that satisfies [Q]; there is one rule per primitive.
    The rules speak of the fid table through [sig], which keeps of each fid
    what its accounting depends on.  The class [FsOk] states what handlers rely
    on in the functions they call. *)
From S2P Require Import Prelude Cbuf Protocol Create Builders Npstring Fidpool Replies Fcall.
From stdpp Require Import list gmap.
#[local] Open Scope Z_scope.

(** ** The accounting of a fid table *)

Record entry := { e_num : Z; e_zombie : bool; e_refs : Z; e_aname : bool; e_user : bool }.

Definition entry_of (f : Npfid) : entry :=
  {| e_num := fid f; e_zombie := is_zombie f; e_refs := refcount f;
     e_aname := bool_decide (is_Some (aname f)); e_user := bool_decide (is_Some (user f)) |}.

Definition sig (q : Npfidpool) : gmap loc entry := entry_of <$> fids q.

Definition with_refs (n : Z) (e : entry) : entry :=
  {| e_num := e_num e; e_zombie := e_zombie e; e_refs := n; e_aname := e_aname e;
     e_user := e_user e |}.

Definition zombied (e : entry) : entry :=
  {| e_num := e_num e; e_zombie := true; e_refs := e_refs e; e_aname := e_aname e;
     e_user := e_user e |}.

Definition new_entry (n : Z) : entry :=
  {| e_num := n; e_zombie := false; e_refs := 1; e_aname := false; e_user := false |}.

Definition pool_ok (q : Npfidpool) : Prop := exists bs, pool_inv q bs.

(** No fid of the table answers to the number [n]. *)
Definition unused (n : Z) (t : gmap loc entry) : Prop :=
  forall l e, t !! l = Some e -> e_num e = n -> e_zombie e = true.

Lemma sig_abs q : sig q = entry_of <$> abs q.
Proof.
  unfold sig, abs. rewrite <- map_fmap_compose. apply map_fmap_ext. by intros l f _.
Qed.

Lemma sig_lookup q l e : sig q !! l = Some e -> exists f, fids q !! l = Some f /\ entry_of f = e.
Proof.
  unfold sig. rewrite lookup_fmap. intros (f & -> & E)%fmap_Some. eauto.
Qed.

Lemma sig_fid q l f : fids q !! l = Some f -> sig q !! l = Some (entry_of f).
Proof. intros E. unfold sig. by rewrite lookup_fmap, E. Qed.

Lemma abs_sig q l f : abs q !! l = Some f -> sig q !! l = Some (entry_of f).
Proof. intros E. by rewrite sig_abs, lookup_fmap, E. Qed.

Lemma sig_abs_inv q l e : sig q !! l = Some e -> exists f, abs q !! l = Some f /\ entry_of f = e.
Proof. rewrite sig_abs, lookup_fmap. intros (f & -> & E)%fmap_Some. eauto. Qed.

Lemma names_unused q n : (forall x, ~ names (abs q) n x) <-> unused n (sig q).
Proof.
  split.
  - intros Hn l e (f & E & <-)%sig_abs_inv Hnum. destruct (e_zombie (entry_of f)) eqn:Z; [done|].
    destruct (Hn l). by exists f.
  - intros Hu x (f & E & Hf & Hz). specialize (Hu x _ (abs_sig _ _ _ E) Hf). cbn in Hu. congruence.
Qed.

(** Equations between entries, field by field. *)
Ltac entries :=
  unfold entry_of, new_entry, is_zombie in *;
  repeat match goal with
  | E : {| e_num := _ |} = {| e_num := _ |} |- _ => injection E as ? ? ? ? ?
  end;
  cbn [fid refcount type user tpool aname flags set_user set_tpool set_type set_flags set_aname
       e_num e_zombie e_refs e_aname e_user] in *.

(** ** What handlers rely on in the code they call *)

(** The type of the reply that a function builds. *)
Definition reply_type (op : srv_op) : option Z :=
  match op with
  | Op_attach | Op_ctl_attach => Some Rattach
  | Op_read | Op_ctl_read => Some Rread
  | Op_write | Op_ctl_write => Some Rwrite
  | Op_clunk | Op_ctl_clunk => Some Rclunk
  | Op_remove => Some Rremove
  | Op_statfs => Some Rstatfs
  | Op_lopen | Op_ctl_lopen => Some Rlopen
  | Op_lcreate => Some Rlcreate
  | Op_symlink => Some Rsymlink
  | Op_mknod => Some Rmknod
  | Op_rename => Some Rrename
  | Op_readlink => Some Rreadlink
  | Op_getattr | Op_ctl_getattr => Some Rgetattr
  | Op_setattr | Op_ctl_setattr => Some Rsetattr
  | Op_xattrwalk => Some Rxattrwalk
  | Op_xattrcreate => Some Rxattrcreate
  | Op_readdir | Op_ctl_readdir => Some Rreaddir
  | Op_fsync => Some Rfsync
  | Op_llock => Some Rlock
  | Op_getlock => Some Rgetlock
  | Op_link => Some Rlink
  | Op_mkdir => Some Rmkdir
  | Op_renameat => Some Rrenameat
  | Op_unlinkat => Some Runlinkat
  | _ => None
  end.

(** Whether the outcome of a call is a failure, for the functions that then
    set the error code themselves. *)
Definition failed (op : srv_op) (o : outcome) : bool :=
  match op with
  | Op_setfsid | Op_remapuser | Op_auth_read | Op_auth_write => o_int o <? 0
  | Op_clone | Op_walk | Op_ctl_clone | Op_ctl_walk | Op_startauth | Op_checkauth => o_int o =? 0
  | Op_attach2user | Op_afid2user | Op_tpool_select => bool_decide (o_ptr o = None)
  | _ => bool_decide (is_Some (reply_type op)) && bool_decide (o_rc o = None)
  end.

(** The member of the union that the server reads of a reply of type [t]. *)
Definition u_agrees (t : Z) (u : Npfcall_u) : bool :=
  if t =? Rlcreate then match u with U_rlcreate _ => true | _ => false end
  else if t =? Rread then match u with U_rread _ => true | _ => false end
  else if t =? Rwrite then match u with U_rwrite _ => true | _ => false end
  else true.

(** A message of type [t], long enough for the tag to be stored into it. *)
Definition is_reply (t : Z) (r : Npfcall) : Prop :=
  fc_type r = t /\ 7 <= zlength (fc_pkt r) /\ u_agrees t (fc_u r) = true.

Class FsOk `{SrvEnv} : Prop := {
  (** no function but [np_fid_create] marks a fid as replaced *)
  fs_flags : forall w c n, o_flags (env w c).1 = Some n -> bit n FID_FLAGS_ZOMBIE = false;
  (** only the hook for it assigns the user of a fid, to a user *)
  fs_user : forall w c u, o_user (env w c).1 = Some u -> sc_op c = Op_remapuser /\ is_Some u;
  (** a function that fails sets the error code, one that succeeds leaves it *)
  fs_failed : forall w c, failed (sc_op c) (env w c).1 = true ->
    exists e, o_err (env w c).1 = Some e /\ e <> 0;
  fs_worked : forall w c, failed (sc_op c) (env w c).1 = false -> sc_op c <> Op_exportok ->
    o_err (env w c).1 = None;
  fs_exportok : forall w c, sc_op c = Op_exportok -> o_int (env w c).1 <> 0 ->
    o_err (env w c).1 = None;
  (** file system operations build replies of the type that answers them *)
  fs_reply : forall w c t r, reply_type (sc_op c) = Some t -> o_rc (env w c).1 = Some r ->
    is_reply t r;
  (** an authentication read returns the number of bytes it stored, at most as
      many as it was asked for *)
  fs_auth_read : forall w l off count, 0 <= count -> 0 <= o_int (env w {| sc_op := Op_auth_read; sc_fids := [l];
      sc_args := [AZ off; AZ count] |}).1 ->
    let o := (env w {| sc_op := Op_auth_read; sc_fids := [l]; sc_args := [AZ off; AZ count] |}).1 in
    o_int o = zlength (o_data o) /\ o_int o <= count;
  (** an authentication fid has a qid of its type *)
  fs_startauth : forall w c, sc_op c = Op_startauth -> o_int (env w c).1 <> 0 ->
    bit (qtype (o_qid (env w c).1)) Qtauth = true;
}.

Section Rules.
Context `{CHeap} `{FsOk}.
Variable srv : Npsrv.

(** The state with another error code. *)
Definition with_err (e : Z) (s : hstate) : hstate :=
  {| h_msize := h_msize s; h_authuser := h_authuser s; h_pool := h_pool s; h_fid := h_fid s;
     h_err := e; h_world := h_world s; h_calls := h_calls s |}.

(** The handler called [op], with the outcome [o]. *)
Definition made (s s' : hstate) (op : srv_op) (o : outcome) : Prop :=
  exists cs c, h_calls s' = h_calls s ++ cs /\ (c, o) ∈ cs /\ sc_op c = op.

Definition runs {A} (c : HM A) (s : hstate) (Q : A -> hstate -> Prop) : Prop :=
  exists a s', c s = Ret (a, s') /\ Q a s'.

Lemma runs_ret {A} (a : A) s (Q : A -> hstate -> Prop) : Q a s -> runs (hret a) s Q.
Proof. intros HQ. by exists a, s. Qed.

Lemma runs_bind {A B} (c : HM A) (f : A -> HM B) s Q :
  runs c s (fun a s' => runs (f a) s' Q) -> runs (hbind c f) s Q.
Proof.
  intros (a & s1 & E1 & b & s2 & E2 & HQ). exists b, s2. split; [|done].
  unfold hbind. rewrite E1. exact E2.
Qed.

Lemma runs_mono {A} (c : HM A) s (Q R : A -> hstate -> Prop) :
  runs c s Q -> (forall a s', Q a s' -> R a s') -> runs c s R.
Proof. intros (a & s' & E & HQ) HR. exists a, s'. auto. Qed.

Lemma runs_uerror e s (Q : unit -> hstate -> Prop) : Q tt (with_err e s) -> runs (np_uerror e) s Q.
Proof. intros HQ. by eexists _, _. Qed.

Lemma runs_fail e s (Q : option Npfcall -> hstate -> Prop) :
  Q None (with_err e s) -> runs (fail e) s Q.
Proof. intros HQ. by eexists _, _. Qed.

Lemma runs_reqfid s (Q : option loc -> hstate -> Prop) : Q (h_fid s) s -> runs reqfid s Q.
Proof. intros HQ. by eexists _, _. Qed.

Lemma runs_rerror s (Q : Z -> hstate -> Prop) : Q (h_err s) s -> runs np_rerror s Q.
Proof. intros HQ. by eexists _, _. Qed.

Lemma runs_msize s (Q : Z -> hstate -> Prop) : Q (h_msize s) s -> runs conn_msize s Q.
Proof. intros HQ. by eexists _, _. Qed.

Lemma with_pool_id s : with_pool (h_pool s) s = s.
Proof. by destruct s. Qed.

(** ** The steps that leave the accounting alone *)

Record keeps (s s' : hstate) : Prop := {
  kp_ok : pool_ok (h_pool s) -> pool_ok (h_pool s');
  kp_sig : sig (h_pool s') = sig (h_pool s);
  kp_fid : h_fid s' = h_fid s;
  kp_msize : h_msize s' = h_msize s;
}.

Lemma keeps_refl s : keeps s s.
Proof. by split. Qed.

Lemma keeps_trans s1 s2 s3 : keeps s1 s2 -> keeps s2 s3 -> keeps s1 s3.
Proof. intros [] []. split; [auto|congruence..]. Qed.

Lemma keeps_err e s : keeps s (with_err e s).
Proof. by split. Qed.

Definition live (s : hstate) (l : loc) : Prop := is_Some (sig (h_pool s) !! l).

Lemma keeps_live s s' l : keeps s s' -> live s l -> live s' l.
Proof. unfold live. by intros [_ -> _ _]. Qed.

Lemma keeps_lives s s' ls : keeps s s' -> Forall (live s) ls -> Forall (live s') ls.
Proof. intros Hk. induction 1; constructor; eauto using keeps_live. Qed.

Lemma live_fid s l : live s l -> exists f, fids (h_pool s) !! l = Some f.
Proof. intros [e (f & E & _)%sig_lookup]. eauto. Qed.

Lemma fid_live s l f : fids (h_pool s) !! l = Some f -> live s l.
Proof. intros E. unfold live. rewrite (sig_fid _ _ _ E). eauto. Qed.

Lemma sig_live s l e : sig (h_pool s) !! l = Some e -> live s l.
Proof. intros E. unfold live. rewrite E. eauto. Qed.

(** [f->..] *)
Lemma runs_get l s (Q : Npfid -> hstate -> Prop) : live s l ->
  (forall f, fids (h_pool s) !! l = Some f -> sig (h_pool s) !! l = Some (entry_of f) -> Q f s) ->
  runs (get_fid l) s Q.
Proof.
  intros [f E]%live_fid HQ. exists f, s. split; [|eauto using sig_fid].
  unfold get_fid, hlift, load_fid. rewrite E. cbn. by rewrite with_pool_id.
Qed.

(** [f->.. = ..] for a field that is neither a link nor the number nor the
    count. *)
Definition plain_update (g : Npfid -> Npfid) : Prop := forall f,
  next (g f) = next f /\ prev (g f) = prev f /\ fid (g f) = fid f /\
  refcount (g f) = refcount f /\ is_zombie (g f) = is_zombie f.

(** ... or that may mark the fid as replaced, but not unmark it. *)
Definition plain_at (g : Npfid -> Npfid) (f : Npfid) : Prop :=
  next (g f) = next f /\ prev (g f) = prev f /\ fid (g f) = fid f /\
  refcount (g f) = refcount f /\ (is_zombie (g f) = false -> is_zombie f = false).

Lemma plain_update_at g f : plain_update g -> plain_at g f.
Proof. intros Hg. destruct (Hg f) as (? & ? & ? & ? & ?). repeat split; congruence. Qed.

Lemma upd_plain_at q l g f : fids q !! l = Some f -> plain_at g f ->
  exists q', upd_fid l g q = Ret q' /\ fids q' = <[l := g f]> (fids q) /\
    sig q' = <[l := entry_of (g f)]> (sig q) /\ (pool_ok q -> pool_ok q').
Proof.
  intros E (G1 & G2 & G3 & G4 & G5). rewrite (upd_fid_run _ _ _ _ E).
  eexists. split; [done|]. split; [done|]. split.
  - unfold sig. cbn. by rewrite fmap_insert.
  - intros [bs Hq]. exists bs. pose proof (inv_refs _ _ Hq l f E).
    apply (inv_update q bs l f); try done. lia.
Qed.

Lemma upd_plain q l g : is_Some (sig q !! l) -> plain_update g ->
  exists q' f, upd_fid l g q = Ret q' /\ fids q !! l = Some f /\
    fids q' = <[l := g f]> (fids q) /\
    sig q' = <[l := entry_of (g f)]> (sig q) /\ (pool_ok q -> pool_ok q').
Proof.
  intros [e (f & E & _)%sig_lookup] Hg.
  destruct (upd_plain_at q l g f E (plain_update_at g f Hg)) as (q' & ? & ? & ? & ?).
  eauto 10.
Qed.

Lemma runs_put l g s (Q : unit -> hstate -> Prop) : live s l ->
  (forall f, fids (h_pool s) !! l = Some f -> plain_at g f) ->
  (forall f q, fids (h_pool s) !! l = Some f -> fids q = <[l := g f]> (fids (h_pool s)) ->
     sig q = <[l := entry_of (g f)]> (sig (h_pool s)) ->
     (pool_ok (h_pool s) -> pool_ok q) -> Q tt (with_pool q s)) ->
  runs (put_fid l g) s Q.
Proof.
  intros [f Ef]%live_fid Hg HQ.
  destruct (upd_plain_at _ _ _ _ Ef (Hg f Ef)) as (q & E & E2 & E3 & E4).
  exists tt, (with_pool q s). split; [|eauto].
  unfold put_fid, hlift. rewrite E. done.
Qed.

(** ... when what changes is not part of the accounting either. *)
Lemma runs_put_keeps l g s (Q : unit -> hstate -> Prop) : live s l -> plain_update g ->
  (forall f, aname (g f) = aname f /\ user (g f) = user f) ->
  (forall s', keeps s s' -> h_err s' = h_err s -> Q tt s') -> runs (put_fid l g) s Q.
Proof.
  intros Hl Hg Hu HQ. eapply runs_put; [done|intros; by apply plain_update_at|]. intros f q E1 E2 E3 E4. apply HQ; [|done].
  split; cbn; [done| |done|done]. rewrite E3. apply insert_id.
  rewrite (sig_fid _ _ _ E1). f_equal. unfold entry_of.
  destruct (Hg f) as (_ & _ & -> & -> & ->). destruct (Hu f) as [-> ->]. done.
Qed.

Lemma plain_user u : plain_update (set_user u).
Proof. done. Qed.
Lemma plain_type t : plain_update (set_type t).
Proof. done. Qed.
Lemma plain_tpool t : plain_update (set_tpool t).
Proof. done. Qed.
Lemma plain_aname a : plain_update (set_aname a).
Proof. done. Qed.

(** [is_zombie] looks at one bit. *)
Lemma is_zombie_bit f : is_zombie f = Z.testbit (flags f) 0.
Proof.
  unfold is_zombie, FID_FLAGS_ZOMBIE. change 1 with (Z.ones 1). rewrite Z.land_ones by lia.
  change (2 ^ 1) with 2. rewrite Z.bit0_odd, Zmod_odd. by destruct (Z.odd (flags f)).
Qed.

Lemma bit_zombie n : bit n FID_FLAGS_ZOMBIE = Z.testbit n 0.
Proof. apply (is_zombie_bit (set_flags n (new_fid 0))). Qed.

Lemma plain_or n : bit n FID_FLAGS_ZOMBIE = false ->
  plain_update (fun g => set_flags (Z.lor (flags g) n) g).
Proof.
  intros Hn f. repeat (split; [done|]). rewrite !is_zombie_bit. cbn [flags set_flags].
  rewrite bit_zombie in Hn. by rewrite Z.lor_spec, Hn, orb_false_r.
Qed.

(** A call: it returns and is recorded; the accounting stays, since the only
    assignment to a fid's user is by the hook that runs once there is one. *)
Lemma call_user_keeps o l q :
  (forall u, o_user o = Some u -> is_Some u /\ exists e, sig q !! l = Some e /\ e_user e = true) ->
  exists q', match o_user o with
    | Some u => upd_fid l (set_user u) q | None => Ret q end = Ret q' /\
  sig q' = sig q /\ (pool_ok q -> pool_ok q').
Proof.
  destruct (o_user o) as [u|]; [|by eauto]. intros Hu.
  destruct (Hu u eq_refl) as ([v ->] & e & El & Eu).
  destruct (upd_plain q l _ ltac:(eauto) (plain_user (Some v))) as (q' & f & E & Ef & _ & Es & Ho).
  exists q'. split; [done|]. split; [|done]. rewrite Es. apply insert_id.
  rewrite El. rewrite (sig_fid _ _ _ Ef) in El. injection El as <-.
  unfold entry_of in *. cbn in *. by rewrite Eu.
Qed.

Lemma call_flags_keeps o l q : is_Some (sig q !! l) ->
  (forall n, o_flags o = Some n -> bit n FID_FLAGS_ZOMBIE = false) ->
  exists q', match o_flags o with
    | Some n => upd_fid l (fun g => set_flags (Z.lor (flags g) n) g) q | None => Ret q end = Ret q' /\
  sig q' = sig q /\ (pool_ok q -> pool_ok q').
Proof.
  destruct (o_flags o) as [n|]; [|by eauto]. intros Hl Hn.
  destruct (upd_plain q l _ Hl (plain_or n (Hn n eq_refl))) as (q' & f & E & Ef & _ & Es & Ho).
  exists q'. split; [done|]. split; [|done]. rewrite Es. apply insert_id.
  rewrite (sig_fid _ _ _ Ef). f_equal. unfold entry_of.
  destruct (plain_or n (Hn n eq_refl) f) as (_ & _ & _ & _ & ->). done.
Qed.

Lemma runs_call op fs args s (Q : outcome -> hstate -> Prop) : Forall (live s) fs ->
  (op = Op_remapuser -> exists l ls e, fs = l :: ls /\ sig (h_pool s) !! l = Some e /\ e_user e = true) ->
  (forall o s', keeps s s' ->
     o = (env (h_world s) {| sc_op := op; sc_fids := fs; sc_args := args |}).1 ->
     h_calls s' = h_calls s ++ [({| sc_op := op; sc_fids := fs; sc_args := args |}, o)] ->
     h_err s' = default (h_err s) (o_err o) -> h_authuser s' = h_authuser s -> Q o s') ->
  runs (call op fs args) s Q.
Proof.
  intros Hl Hre HQ. unfold runs, call.
  set (c := {| sc_op := op; sc_fids := fs; sc_args := args |}) in *.
  pose proof (fs_flags (h_world s) c) as Hfl. pose proof (fs_user (h_world s) c) as Hus.
  destruct (env (h_world s) c) as [o w] eqn:Ee. cbn [fst] in *. destruct fs as [|l fs].
  { eexists _, _. split; [reflexivity|]. apply HQ; [by split|done..]. }
  pose proof (Forall_inv Hl) as Hl1. cbn [h_pool].
  destruct (call_user_keeps o l (h_pool s)) as (q1 & -> & S1 & O1).
  { intros u Eu. destruct (Hus u Eu) as [Eop Hu]. split; [done|].
    destruct (Hre Eop) as (l' & ls & e & [= <- <-] & E1 & E2). eauto. }
  cbn [res_bind]. destruct (call_flags_keeps o l q1) as (q2 & -> & S2 & O2).
  { rewrite S1. exact Hl1. } { exact Hfl. }
  cbn [res_bind]. eexists _, _. split; [reflexivity|].
  apply HQ; [|done..]. split; cbn; [auto|congruence|done|done].
Qed.

(** ** The operations of the fid table *)

(** From [s] to [s'] the table becomes one that is accounted for by [t]. *)
Record moves (s : hstate) (t : gmap loc entry) (s' : hstate) : Prop := {
  mv_ok : pool_ok (h_pool s');
  mv_sig : sig (h_pool s') = t;
  mv_fid : h_fid s' = h_fid s;
  mv_msize : h_msize s' = h_msize s;
}.

Lemma keeps_moves s s' : pool_ok (h_pool s) -> keeps s s' -> moves s (sig (h_pool s)) s'.
Proof. intros Ho [] . split; auto. Qed.

Lemma moves_keeps s1 t s2 s3 : moves s1 t s2 -> keeps s2 s3 -> moves s1 t s3.
Proof. intros [] []. split; [auto|congruence..]. Qed.

Lemma moves_trans s1 t s2 u s3 : moves s1 t s2 -> moves s2 u s3 -> moves s1 u s3.
Proof. intros [] []. split; [auto|congruence..]. Qed.

Lemma moves_self s t s' : moves s t s' -> t = sig (h_pool s) -> pool_ok (h_pool s) -> keeps s s'.
Proof. intros [] -> _. by split. Qed.

Lemma sig_refs_pos q l e : pool_ok q -> sig q !! l = Some e -> 1 <= e_refs e.
Proof.
  intros [bs Hq] (f & E & <-)%sig_lookup. exact (inv_refs _ _ Hq l f E).
Qed.

Lemma runs_find n s (Q : option loc -> hstate -> Prop) : pool_ok (h_pool s) ->
  (forall l e s', sig (h_pool s) !! l = Some e -> e_num e = n -> e_zombie e = false ->
     moves s (<[l := with_refs (e_refs e + 1) e]> (sig (h_pool s))) s' -> h_err s' = h_err s ->
     Q (Some l) s') ->
  (forall s', unused n (sig (h_pool s)) -> moves s (sig (h_pool s)) s' -> h_err s' = h_err s ->
     Q None s') ->
  runs (fid_find n) s Q.
Proof.
  intros [bs Hq] Q1 Q2. unfold runs, fid_find, hlift.
  destruct (find_run _ _ n Hq) as (o & q & bs' & -> & Hq' & _ & Ho). cbn [res_bind].
  exists o, (with_pool q s). split; [done|]. destruct o as [l|].
  - destruct Ho as (f & E & Hn & Hz & Ea).
    apply (Q1 l (entry_of f)); [by apply abs_sig|done|done| |done].
    split; cbn; [by exists bs'| |done|done]. by rewrite !sig_abs, Ea, fmap_insert.
  - destruct Ho as [Hn Ea]. apply Q2; [by apply names_unused| |done].
    split; cbn; [by exists bs'| |done|done]. by rewrite !sig_abs, Ea.
Qed.

Lemma runs_incref l e s (Q : unit -> hstate -> Prop) : pool_ok (h_pool s) ->
  sig (h_pool s) !! l = Some e ->
  (forall s', moves s (<[l := with_refs (e_refs e + 1) e]> (sig (h_pool s))) s' ->
     h_err s' = h_err s -> Q tt s') ->
  runs (fid_incref l) s Q.
Proof.
  intros [bs Hq] (f & E & <-)%sig_lookup HQ. unfold runs, fid_incref, hlift.
  destruct (incref_run _ _ _ _ Hq E) as (q & -> & Hq' & _ & Ea). cbn [res_bind].
  eexists _, _. split; [reflexivity|]. apply HQ; [|done].
  split; cbn; [by exists bs| |done|done]. by rewrite !sig_abs, Ea, fmap_insert.
Qed.

Lemma runs_decref l e s (Q : option loc -> hstate -> Prop) : pool_ok (h_pool s) ->
  sig (h_pool s) !! l = Some e ->
  (e_refs e = 1 -> forall s', moves s (delete l (sig (h_pool s))) s' -> h_err s' = h_err s ->
     Q None s') ->
  (e_refs e <> 1 -> forall s',
     moves s (<[l := with_refs (e_refs e - 1) e]> (sig (h_pool s))) s' -> h_err s' = h_err s ->
     Q (Some l) s') ->
  runs (fid_decref srv l) s Q.
Proof.
  intros [bs Hq] (f & E & <-)%sig_abs_inv Q1 Q2. unfold fid_decref.
  apply runs_bind. unfold hlift.
  destruct (decref_run (fidconf srv) _ _ _ _ Hq E) as (b & q & bs' & Er & Hq' & Hb).
  exists b, (with_pool q s). rewrite Er. split; [done|].
  destruct (Z.eqb_spec (refcount f) 1) as [E1|E1]; destruct Hb as (-> & Ea & _); apply runs_ret.
  - apply Q1; [done| |done]. split; cbn; [by exists bs'| |done|done].
    by rewrite !sig_abs, Ea, fmap_delete.
  - apply Q2; [done| |done]. split; cbn; [by exists bs'| |done|done].
    by rewrite !sig_abs, Ea, fmap_insert.
Qed.

(** The table [t] once the number [n] is free for a new fid: with loose fids
    the fid that has it becomes a zombie. *)
Inductive displaced (n : Z) (t : gmap loc entry) : gmap loc entry -> Prop :=
| displaced_free : unused n t -> displaced n t t
| displaced_zombie l e : srv_loosefid (fidconf srv) = true ->
    t !! l = Some e -> e_num e = n -> e_zombie e = false ->
    displaced n t (<[l := zombied e]> t).

Lemma unused_dec q n : unused n (sig q) \/
  exists l f, abs q !! l = Some f /\ fid f = n /\ is_zombie f = false.
Proof.
  destruct (decide (map_Forall (fun l e => e_num e = n -> e_zombie e = true) (sig q))) as [Hu|Hu].
  - left. intros l e Hl. exact (Hu l e Hl).
  - right. apply map_not_Forall in Hu as (l & e & (f & E & <-)%sig_abs_inv & Hn); [|apply _].
    exists l, f. cbn in Hn. split; [done|]. destruct (decide (fid f = n)); [|naive_solver].
    split; [done|]. destruct (is_zombie f); [naive_solver|done].
Qed.

Lemma sig_zombied q l f : entry_of <$> <[l := set_flags (Z.lor (flags f) FID_FLAGS_ZOMBIE) f]> (abs q) =
  <[l := zombied (entry_of f)]> (sig q).
Proof.
  rewrite fmap_insert, sig_abs. f_equal. unfold zombied, entry_of. cbn. f_equal.
  rewrite is_zombie_bit. cbn [flags set_flags]. rewrite Z.lor_spec.
  replace (Z.testbit FID_FLAGS_ZOMBIE 0) with true by done. apply orb_true_r.
Qed.

Lemma create_sig n mem_ok q bs : pool_inv q bs -> exists r q' bs',
  np_fid_create (fidconf srv) n mem_ok q = Ret (r, q') /\ pool_inv q' bs' /\
  ((exists l t, r = inl l /\ sig q !! l = None /\ displaced n (sig q) t /\
      sig q' = <[l := new_entry n]> t) \/
   (r = inr EEXIST /\ sig q' = sig q) \/
   (r = inr ENOMEM /\ displaced n (sig q) (sig q'))).
Proof.
  intros Hq. destruct (fid_create_run (fidconf srv) q bs n mem_ok Hq)
    as (r & q' & bs' & E & Hq' & _ & Hfree & Hused).
  exists r, q', bs'. split; [done|]. split; [done|].
  assert (Hnone : forall l, abs q !! l = None -> sig q !! l = None).
  { intros l El. by rewrite sig_abs, lookup_fmap, El. }
  destruct (unused_dec q n) as [Hu|(x & f & Ef & Hn & Hz)].
  - specialize (Hfree (proj2 (names_unused q n) Hu)). destruct mem_ok.
    + destruct Hfree as (l & -> & El & Ea). left. exists l, (sig q).
      split; [done|]. split; [auto|]. split; [by constructor|].
      by rewrite !sig_abs, Ea, fmap_insert.
    + destruct Hfree as [-> Ea]. right; right. split; [done|].
      rewrite (sig_abs q'), Ea, <- sig_abs. by constructor.
  - specialize (Hused x f Ef Hn Hz). destruct (srv_loosefid (fidconf srv)) eqn:El; cbn zeta in Hused.
    + assert (Hd : displaced n (sig q) (<[x := zombied (entry_of f)]> (sig q))).
      { apply displaced_zombie; [done|by apply abs_sig|done..]. }
      destruct mem_ok.
      * destruct Hused as (y & -> & Ey & Ea). left. eexists y, _. split; [done|]. split; [auto|].
        split; [exact Hd|]. by rewrite (sig_abs q'), Ea, fmap_insert, sig_zombied.
      * destruct Hused as [-> Ea]. right; right. split; [done|].
        by rewrite (sig_abs q'), Ea, sig_zombied.
    + destruct Hused as [-> Ea]. right; left. split; [done|]. by rewrite !sig_abs, Ea.
Qed.

Lemma runs_create n s (Q : option loc -> hstate -> Prop) : pool_ok (h_pool s) ->
  (forall l t s', sig (h_pool s) !! l = None -> displaced n (sig (h_pool s)) t ->
     moves s (<[l := new_entry n]> t) s' -> h_err s' = h_err s -> Q (Some l) s') ->
  (forall t s', displaced n (sig (h_pool s)) t -> moves s t s' -> h_err s' = ENOMEM -> Q None s') ->
  (forall s', moves s (sig (h_pool s)) s' -> h_err s' = EEXIST -> Q None s') ->
  runs (fid_create srv n) s Q.
Proof.
  intros Ho Q1 Q2 Q3. unfold fid_create. apply runs_bind. apply runs_call; [constructor|done|].
  intros o s1 K Eo _ Er _. pose proof (keeps_moves _ _ Ho K) as M1. apply runs_bind. unfold hlift.
  assert (E1 : h_err s1 = h_err s).
  { rewrite Er, Eo. by rewrite fs_worked. }
  destruct (mv_ok _ _ _ M1) as [bs Hq].
  destruct (create_sig n (negb (o_int o =? 0)) _ _ Hq) as (r & q & bs' & E & Hq' & Hr).
  exists r, (with_pool q s1). rewrite E. split; [done|].
  assert (M2 : moves s (sig q) (with_pool q s1)).
  { split; cbn; [by exists bs'|done|apply M1|apply M1]. }
  rewrite (mv_sig _ _ _ M1) in Hr.
  destruct Hr as [(l & t & -> & El & Hd & Es)|[(-> & Es)|(-> & Hd)]].
  - apply runs_ret. apply (Q1 l t); [done|done| |exact E1]. by rewrite <- Es.
  - apply runs_bind, runs_uerror, runs_ret. apply Q3; [|done].
    rewrite <- Es. eapply moves_keeps; [exact M2|apply keeps_err].
  - apply runs_bind, runs_uerror, runs_ret. apply (Q2 (sig q)); [done| |done].
    eapply moves_keeps; [exact M2|apply keeps_err].
Qed.

Lemma sig_unique q n l1 l2 e1 e2 : pool_ok q -> sig q !! l1 = Some e1 -> sig q !! l2 = Some e2 ->
  e_num e1 = n -> e_num e2 = n -> e_zombie e1 = false -> e_zombie e2 = false -> l1 = l2.
Proof.
  intros [bs Hq] (f1 & E1 & <-)%sig_lookup (f2 & E2 & <-)%sig_lookup N1 N2 Z1 Z2.
  apply (inv_unique _ _ Hq n); eexists; eauto.
Qed.

Lemma displaced_unused n q t : pool_ok q -> displaced n (sig q) t -> unused n t.
Proof.
  intros Ho [Hu|l e _ El Hn Hz] l' e' E' Hn'; [by apply (Hu l' e')|].
  destruct (decide (l = l')) as [<-|N].
  - rewrite lookup_insert_eq in E'. by injection E' as <-.
  - rewrite lookup_insert_ne in E' by done. destruct (e_zombie e') eqn:Z'; [done|].
    destruct N. by eapply (sig_unique q n).
Qed.

(** [np_fid_decref_bynum] for a number no fid has. *)
Lemma runs_decref_bynum_unused n s (Q : unit -> hstate -> Prop) : pool_ok (h_pool s) ->
  unused n (sig (h_pool s)) ->
  (forall s', keeps s s' -> h_err s' = h_err s -> Q tt s') ->
  runs (hlift (fun q => let! q := np_fid_decref_bynum (fidconf srv) n q in Ret (tt, q))) s Q.
Proof.
  intros [bs Hq] Hu HQ. unfold runs, hlift.
  destruct (decref_bynum_run (fidconf srv) _ _ n Hq) as (q & bs' & -> & Hq' & Hun & _).
  destruct (Hun (proj2 (names_unused _ _) Hu)) as [Ea _]. cbn [res_bind].
  eexists _, _. split; [reflexivity|]. apply HQ; [|done].
  split; cbn; [intros _; by exists bs'| |done|done]. by rewrite !sig_abs, Ea.
Qed.
End Rules.
