(* ===== verification/Sample.v ===== *)
(** * A concrete file system

    An instance of the interface [SrvEnv] in which every operation succeeds with
    the reply that answers it, and a proof that it keeps the promises of
    [FsOk]: the theorems about handlers are not vacuous. *)
From S2P Require Import Prelude Cbuf Protocol Create Npstring Fidpool Replies Fcall Account.
From stdpp Require Import list gmap.
#[local] Open Scope Z_scope.

Definition sample_qid : Npqid := {| qtype := Qtauth; qversion := 0; qpath := 1 |}.

Definition sample_union (t : Z) : Npfcall_u :=
  if t =? Rlcreate then U_rlcreate {| rlcreate_qid := sample_qid; rlcreate_iounit := 0 |}
  else if t =? Rread then U_rread {| rread_count := 0; rread_data := Some 11 |}
  else if t =? Rwrite then U_rwrite {| rwrite_count := 0 |}
  else U_none.

Definition sample_reply (t : Z) : Npfcall :=
  {| fc_size := 7; fc_type := t; fc_tag := 0; fc_pkt := replicate 7 0; fc_u := sample_union t |}.

Definition sample_outcome (op : srv_op) : outcome := {|
  o_rc := sample_reply <$> reply_type op;
  o_int := match op with Op_auth_read => 0 | _ => 1 end;
  o_ptr := Some 1%positive;
  o_qid := sample_qid;
  o_data := [];
  o_err := None;
  o_user := None;
  o_flags := None;
|}.

Definition sample_env : SrvEnv := {|
  world := unit;
  env _ c := (sample_outcome (sc_op c), tt);
  uid_of _ _ := 0;
|}.

(** The file system with one operation that fails with [e]. *)
Definition failing_outcome (e : Z) : outcome := {|
  o_rc := None; o_int := 0; o_ptr := None; o_qid := sample_qid; o_data := []; o_err := Some e;
  o_user := None; o_flags := None |}.

Definition failing_env (op : srv_op) (e : Z) : SrvEnv := {|
  world := unit;
  env _ c := (if decide (sc_op c = op) then failing_outcome e else sample_outcome (sc_op c), tt);
  uid_of _ _ := 0;
|}.

Definition sample_srv : Npsrv := {|
  has _ := true; has_auth := false; srv_flags := 0; fidconf := demo_srv |}.

Lemma sample_reply_ok t : is_reply t (sample_reply t).
Proof.
  split; [done|]. split; [done|]. unfold u_agrees, sample_reply, sample_union. cbn [fc_u].
  repeat (destruct (_ =? _); [done|]). done.
Qed.

Lemma sample_fs : @FsOk sample_env.
Proof.
  split; cbn; try done.
  - intros _ c. destruct (sc_op c); done.
  - intros _ c t r -> [= <-]. apply sample_reply_ok.
Qed.

(** A connection on which fid 5 was attached, with a user, by a request on it. *)
Definition sample_fid : Npfid := set_aname (Some (c_object [47])) (set_user (Some 1%positive) (new_fid 5)).

Definition sample_pool : Npfidpool := set_fids (<[1%positive := sample_fid]> (fids demo_pool)) demo_pool.

Definition sample_state `{SrvEnv} (w : world) (o : option loc) : hstate := {|
  h_msize := 8216; h_authuser := NONUNAME; h_pool := sample_pool; h_fid := o; h_err := 0;
  h_world := w; h_calls := [] |}.

Lemma sample_pool_ok : pool_ok sample_pool.
Proof.
  destruct demo_pool_inv as [bs Hq]. exists bs.
  assert (E : exists f, fids demo_pool !! 1%positive = Some f /\ next f = None /\ prev f = None /\
    fid f = 5 /\ refcount f = 1) by (eexists; vm_compute; done).
  destruct E as (f & E & En & Ep & Ef & Er).
  apply (inv_update demo_pool bs 1%positive f); try done. intros _.
  assert (Hz : is_zombie f = false); [|done]. revert E. vm_compute. by intros [= <-].
Qed.
