(* ===== verification/Handlers.v ===== *)
(** * What every handler does to the fid table and to the reply

    One lemma per handler of fcall.c: it returns; the reply it built is of the
    type that answers the request and the error code is clear, or there is no
    reply and the error code is set; and what becomes of the fid table. *)
From S2P Require Import Prelude Cbuf Protocol Create Wire Builders Codec CodecSpec Npstring Fidpool.
From S2P Require Import Replies Fcall Account.
From stdpp Require Import list gmap.
#[local] Open Scope Z_scope.

Section Handlers.
Context `{CHeap} `{FsOk}.
Variable srv : Npsrv.

(** The result of a handler for a request that is answered with type [t]. *)
Definition served (t : Z) (rc : option Npfcall) (s' : hstate) : Prop :=
  match rc with
  | Some r => is_reply t r /\ h_err s' = 0
  | None => h_err s' <> 0
  end.

(** A handler that leaves the fid table as it was. *)
Definition neutral (t : Z) (h : HM (option Npfcall)) (s : hstate) : Prop :=
  runs h s (fun rc s' => keeps s s' /\ served t rc s').

(** ** Calls *)

Lemma runs_call_ok op fs args s (Q : outcome -> hstate -> Prop) : Forall (live s) fs ->
  op <> Op_remapuser -> op <> Op_exportok ->
  (forall o s', keeps s s' ->
     o = (env (h_world s) {| sc_op := op; sc_fids := fs; sc_args := args |}).1 ->
     (if failed op o then h_err s' <> 0 else h_err s' = h_err s) -> Q o s') ->
  runs (call op fs args) s Q.
Proof.
  intros Hl N1 N2 HQ. apply runs_call; [done|done|]. intros o s' K Eo _ Er _. apply HQ; [done..|].
  rewrite Er. set (c := {| sc_op := op; sc_fids := fs; sc_args := args |}) in *.
  destruct (failed op o) eqn:F; rewrite Eo in *.
  - destruct (fs_failed (h_world s) c F) as (e & -> & He). exact He.
  - by rewrite (fs_worked (h_world s) c F N2).
Qed.

Lemma neutral_fail t e s : e <> 0 -> neutral t (fail e) s.
Proof. intros He. apply runs_fail. split; [apply keeps_err|exact He]. Qed.

Lemma neutral_call t op fs args s : reply_type op = Some t -> h_err s = 0 -> Forall (live s) fs ->
  neutral t (hbind (call op fs args) (fun o => hret (o_rc o))) s.
Proof.
  intros Ht He Hl. apply runs_bind, runs_call_ok; [done|by intros ->|by intros ->|].
  intros o s' K Eo Er. apply runs_ret. split; [done|].
  assert (Hf : failed op o = bool_decide (o_rc o = None)) by (destruct op; try discriminate Ht; done).
  rewrite Hf in Er. destruct (o_rc o) as [r|] eqn:Erc; cbn in *; [|done].
  split; [|congruence]. rewrite Eo in Erc. exact (fs_reply (h_world s) {| sc_op := op; sc_fids := fs; sc_args := args |} t r Ht Erc).
Qed.

Lemma neutral_fs_call t op u gid nosys fs args s : reply_type op = Some t -> h_err s = 0 ->
  nosys <> 0 -> Forall (live s) fs -> neutral t (fs_call srv op u gid nosys fs args) s.
Proof.
  intros Ht He Hn Hl. unfold neutral, fs_call, np_setfsid.
  apply runs_bind, runs_bind, runs_call_ok; [constructor|done|done|].
  intros o s1 K1 _ Er. apply runs_ret. cbn [failed] in Er.
  destruct (o_int o <? 0); [by apply runs_ret|].
  destruct (negb (has srv op)); [apply runs_fail; split; [|done]|].
  { eapply keeps_trans; [exact K1|apply keeps_err]. }
  eapply runs_mono; [apply (neutral_call t)|]; [done|congruence|by eapply keeps_lives|].
  intros rc s2 [K2 S2]. split; [|done]. by eapply keeps_trans.
Qed.

Lemma neutral_on_fid t rofs ctl fs s : h_err s = 0 -> (forall l, h_fid s = Some l -> live s l) ->
  (forall l, live s l -> neutral t (ctl l) s) ->
  (forall l f, live s l -> neutral t (fs l f) s) ->
  neutral t (on_fid rofs ctl fs) s.
Proof.
  intros He Hl Hc Hf. unfold neutral, on_fid. apply runs_bind, runs_reqfid.
  destruct (h_fid s) as [l|]; [|by apply neutral_fail].
  apply runs_bind, runs_get; [auto|]. intros f _ _.
  destruct (rofs f); [by apply neutral_fail|].
  destruct (bit (type f) Qttmp); [apply Hc|apply Hf]; auto.
Qed.

(** The state of a request when its handler starts. *)
Record ready (s : hstate) : Prop := {
  rd_ok : pool_ok (h_pool s);
  rd_err : h_err s = 0;
  rd_live : forall l, h_fid s = Some l -> live s l;
}.

Ltac on_fid_spec :=
  apply neutral_on_fid;
  [ done | done
  | intros; first [ by apply neutral_fail | apply neutral_call; [done|done|by repeat constructor] ]
  | intros; apply neutral_fs_call; [done|done|done|by repeat constructor] ].

Lemma np_statfs_neutral s : ready s -> neutral Rstatfs (np_statfs srv) s.
Proof. intros []. unfold np_statfs. on_fid_spec. Qed.

Lemma np_lopen_neutral x s : ready s -> neutral Rlopen (np_lopen srv x) s.
Proof. intros []. unfold np_lopen. on_fid_spec. Qed.

Lemma np_symlink_neutral x s : ready s -> neutral Rsymlink (np_symlink srv x) s.
Proof. intros []. unfold np_symlink. on_fid_spec. Qed.

Lemma np_mknod_neutral x s : ready s -> neutral Rmknod (np_mknod srv x) s.
Proof. intros []. unfold np_mknod. on_fid_spec. Qed.

Lemma np_readlink_neutral s : ready s -> neutral Rreadlink (np_readlink srv) s.
Proof. intros []. unfold np_readlink. on_fid_spec. Qed.

Lemma np_getattr_neutral x s : ready s -> neutral Rgetattr (np_getattr srv x) s.
Proof. intros []. unfold np_getattr. on_fid_spec. Qed.

Lemma np_setattr_neutral x s : ready s -> neutral Rsetattr (np_setattr srv x) s.
Proof. intros []. unfold np_setattr. on_fid_spec. Qed.

Lemma np_xattrcreate_neutral x s : ready s -> neutral Rxattrcreate (np_xattrcreate srv x) s.
Proof. intros []. unfold np_xattrcreate. on_fid_spec. Qed.

Lemma np_fsync_neutral x s : ready s -> neutral Rfsync (np_fsync srv x) s.
Proof. intros []. unfold np_fsync. on_fid_spec. Qed.

Lemma np_lock_neutral x s : ready s -> neutral Rlock (np_lock srv x) s.
Proof. intros []. unfold np_lock. on_fid_spec. Qed.

Lemma np_getlock_neutral x s : ready s -> neutral Rgetlock (np_getlock srv x) s.
Proof. intros []. unfold np_getlock. on_fid_spec. Qed.

Lemma np_mkdir_neutral x s : ready s -> neutral Rmkdir (np_mkdir srv x) s.
Proof. intros []. unfold np_mkdir. on_fid_spec. Qed.

Lemma np_unlinkat_neutral x s : ready s -> neutral Runlinkat (np_unlinkat srv x) s.
Proof. intros []. unfold np_unlinkat. on_fid_spec. Qed.

(** ** Replies that handlers build *)

Lemma np_create_oom size id body : malloc (sizeof_Npfcall + u32 (u32 size + 7)) = None ->
  np_create size id body = Ret None.
Proof. intros E. unfold np_create, np_create_common. change (4 + 1 + 2) with 7. by rewrite E. Qed.

Lemma run_create_reply c : call_ok c ->
  run_create c = Ret None /\ malloc (sizeof_Npfcall + (7 + zlength (wire_body c))) = None \/
  exists fc, run_create c = Ret (Some fc) /\ fc_type fc = wire_type c /\ 7 <= zlength (fc_pkt fc).
Proof.
  intros Hc. destruct (malloc (sizeof_Npfcall + (7 + zlength (wire_body c)))) eqn:Em.
  - right. destruct (run_create_denotes c Hc) as (fc & E & Hfc & _); [by rewrite Em|].
    exists fc. split; [exact E|]. rewrite Hfc. cbn [fc_type fc_pkt]. split; [done|].
    unfold wire_message. rewrite !zlength_app. pose proof (zlength_nonneg (wire_body c)).
    change (7 <= 4 + (1 + (2 + zlength (wire_body c)))). lia.
  - left. split; [|done]. destruct (run_create_built c Hc) as (body & -> & _).
    destruct Hc as (_ & _ & Hs). pose proof (zlength_nonneg (wire_body c)).
    apply np_create_oom. by rewrite (u32_small (zlength _)), u32_small, (Z.add_comm _ 7) by lia.
Qed.

Lemma neutral_create c t s : call_ok c -> wire_type c = t -> t <> Rlcreate -> t <> Rread ->
  (t = Rwrite -> forall fc, run_create c = Ret (Some fc) -> exists x, fc_u fc = U_rwrite x) ->
  h_err s = 0 -> neutral t (or_enomem (run_create c)) s.
Proof.
  intros Hc Ht N1 N2 Hw He. unfold neutral, or_enomem. apply runs_bind.
  destruct (run_create_reply c Hc) as [[E _]|(fc & E & Hty & Hl)].
  - exists None, s. unfold hcreate. rewrite E. split; [done|]. by apply neutral_fail.
  - exists (Some fc), s. unfold hcreate. rewrite E. split; [done|]. apply runs_ret.
    split; [apply keeps_refl|]. split; [|done]. split; [congruence|]. split; [done|].
    unfold u_agrees. rewrite !(proj2 (Z.eqb_neq _ _)) by congruence.
    destruct (Z.eqb_spec t Rwrite) as [->|]; [|done]. by destruct (Hw eq_refl fc E) as [x ->].
Qed.

Lemma rwrite_union n fc : np_create_rwrite n = Ret (Some fc) -> exists x, fc_u fc = U_rwrite x.
Proof.
  unfold np_create_rwrite, np_create, bind, ret, np_post_check. intros E.
  inv_bind E. destruct a as [[h b]|]; [|discriminate E].
  inv_bind E. inv_bind E1. destruct a as [u b1], a0 as [v b2].
  injection E1 as <- <-. destruct (buf_check_overflow b2); [discriminate E|].
  injection E as <-. cbn. eauto.
Qed.

Lemma neutral_rwrite n s : h_err s = 0 -> neutral Rwrite (or_enomem (np_create_rwrite n)) s.
Proof.
  intros He. apply (neutral_create (C_rwrite n)); [|done..|by eauto using rwrite_union|done].
  split; [by repeat constructor|]. split; [done|]. done.
Qed.

(** ** The other handlers that leave the fid table alone *)

Lemma np_version_neutral tc x s : ready s ->
  (exists c, np_strcmp (fc_pkt tc) (tversion_version x) version_L = Ret c) ->
  runs (np_version tc x) s (fun rc s' =>
    pool_ok (h_pool s') /\ sig (h_pool s') = sig (h_pool s) /\ h_fid s' = h_fid s /\
    h_msize s' <= h_msize s /\ served Rversion rc s').
Proof.
  intros [Ho He _] [c Ec]. unfold np_version.
  destruct (_ <? _); [apply runs_fail; cbn; auto with lia|]. apply runs_bind, runs_msize.
  set (m := if h_msize s <? _ then int32 (h_msize s) else _).
  apply runs_bind. exists tt, (if u32 m <? h_msize s then
    {| h_msize := u32 m; h_authuser := h_authuser s; h_pool := h_pool s; h_fid := h_fid s;
       h_err := h_err s; h_world := h_world s; h_calls := h_calls s |} else s).
  split; [by destruct (u32 m <? h_msize s)|]. set (s1 := if u32 m <? h_msize s then _ else s).
  assert (E1 : h_pool s1 = h_pool s /\ h_fid s1 = h_fid s /\ h_err s1 = 0 /\ h_msize s1 <= h_msize s).
  { unfold s1. destruct (Z.ltb_spec (u32 m) (h_msize s)); cbn; repeat split; lia || done. }
  clearbody s1. destruct E1 as (E1 & E2 & E3 & E4).
  apply runs_bind. exists c, s1. rewrite Ec. split; [done|].
  destruct (c =? 0); [|apply runs_fail; cbn; by rewrite E1, E2; auto].
  eapply runs_mono; [apply (neutral_create (C_rversion m (Some version_L)) Rversion)|];
    [|done..|].
  { split; [by repeat constructor|]. split; [done|]. done. }
  intros rc s2 [[K1 K2 K3 K4] Hs]. rewrite E1 in K1, K2. rewrite E2 in K3.
  repeat (split; [first [done | by auto | lia]|]). done.
Qed.

Lemma np_readdir_neutral x s : ready s -> neutral Rreaddir (np_readdir srv x) s.
Proof.
  intros [_ He Hl]. unfold neutral, np_readdir. apply runs_bind, runs_reqfid.
  destruct (h_fid s) as [l|]; [|by apply neutral_fail]. specialize (Hl l eq_refl).
  apply runs_bind, runs_msize. destruct (_ <? _); [by apply neutral_fail|].
  apply runs_bind, runs_get; [done|]. intros f _ _.
  destruct (bit (type f) Qttmp).
  - apply neutral_call; [done|done|by repeat constructor].
  - apply neutral_fs_call; [done|done|done|by repeat constructor].
Qed.

Lemma np_write_neutral x s : ready s -> neutral Rwrite (np_write srv x) s.
Proof.
  intros [_ He Hl]. unfold neutral, np_write. apply runs_bind, runs_reqfid.
  destruct (h_fid s) as [l|]; [|by apply neutral_fail]. specialize (Hl l eq_refl).
  apply runs_bind, runs_get; [done|]. intros f _ _.
  destruct (bit (type f) Qtauth).
  - destruct (has_auth srv); [|by apply neutral_fail].
    apply runs_bind, runs_call_ok; [by repeat constructor|done|done|].
    intros o s1 K1 _ Er. cbn [failed] in Er.
    destruct (Z.leb_spec 0 (o_int o)) as [Hi|Hi].
    + rewrite (proj2 (Z.ltb_ge _ _)) in Er by lia.
      eapply runs_mono; [apply neutral_rwrite; congruence|]. intros rc s2 [K2 S2].
      split; [by eapply keeps_trans|done].
    + rewrite (proj2 (Z.ltb_lt _ _)) in Er by lia. apply runs_ret. by split.
  - destruct (bit (flags f) FID_FLAGS_ROFS); [by apply neutral_fail|].
    apply runs_bind, runs_msize. destruct (_ <? _); [by apply neutral_fail|].
    destruct (bit (type f) Qttmp).
    + apply neutral_call; [done|done|by repeat constructor].
    + apply neutral_fs_call; [done|done|done|by repeat constructor].
Qed.

Lemma np_lcreate_neutral x s : ready s -> neutral Rlcreate (np_lcreate srv x) s.
Proof.
  intros []. unfold np_lcreate. apply neutral_on_fid; [done|done|intros; by apply neutral_fail|].
  intros l f Hl. unfold neutral. apply runs_bind.
  eapply runs_mono; [apply (neutral_fs_call Rlcreate); [done|done|done|by repeat constructor]|].
  intros [r|] s1 [K1 S1]; [|by apply runs_ret].
  destruct S1 as [(Ht & Hlen & Hu) He]. cbn in Hu. destruct (fc_u r) eqn:Eu; try discriminate Hu.
  apply runs_bind, runs_put_keeps; [by eapply keeps_live|apply plain_type|done|].
  intros s2 K2 E2. apply runs_ret. split; [by eapply keeps_trans|].
  split; [|congruence]. split; [done|]. split; [done|]. unfold u_agrees. by rewrite Eu.
Qed.

Definition memory : Prop := forall n, malloc n <> None.

Lemma np_read_neutral x s : ready s -> memory -> h_msize s < 2 ^ 31 ->
  0 <= tread_count x < 2 ^ 32 -> neutral Rread (np_read srv x) s.
Proof.
  intros [_ He Hl] Hmem Hms Hc. unfold neutral, np_read. apply runs_bind, runs_reqfid.
  destruct (h_fid s) as [l|]; [|by apply neutral_fail]. specialize (Hl l eq_refl).
  apply runs_bind, runs_msize. unfold u64. rewrite Z.mod_small by (unfold IOHDRSZ; lia).
  destruct (Z.ltb_spec (h_msize s) (tread_count x + IOHDRSZ)) as [Hlt|Hge]; [by apply neutral_fail|].
  apply runs_bind, runs_get; [done|]. intros f _ _.
  destruct (bit (type f) Qtauth).
  - destruct (has_auth srv); [|by apply neutral_fail]. apply runs_bind.
    unfold IOHDRSZ in *.
    destruct (rread_run (tread_count x) [] ltac:(lia) ltac:(change (0 <= tread_count x); lia) (Hmem _)) as (fc & _ & _ & E & _).
    exists (Some fc), s. split; [unfold hcreate; by rewrite E|].
    apply runs_bind, runs_call_ok; [by repeat constructor|done|done|].
    intros o s1 K1 Eo Er. cbn [failed] in Er.
    destruct (Z.leb_spec 0 (o_int o)) as [Hi|Hi].
    2:{ rewrite (proj2 (Z.ltb_lt _ _)) in Er by lia. apply runs_ret. by split. }
    rewrite (proj2 (Z.ltb_ge _ _)) in Er by lia.
    rewrite Eo in Hi. destruct (fs_auth_read _ _ _ _ (proj1 Hc) Hi) as [Hn Hle]. rewrite <- Eo in *.
    destruct (rread_run (tread_count x) (o_data o) ltac:(lia) ltac:(lia) (Hmem _))
      as (fc0 & fc1 & fc' & E0 & E1 & E2 & Ht & Hu & Hs).
    rewrite E0 in E. injection E as <-.
    exists (Some fc'), s1. rewrite E1. cbn [res_bind]. rewrite Hn, E2. split; [done|].
    split; [done|]. split; [|congruence]. split; [done|]. split; [|by rewrite Hu].
    apply (f_equal zlength) in Hs. unfold sent, wire_message in Hs. rewrite !zlength_app in Hs.
    pose proof (zlength_nonneg (wire_body (C_rread (o_data o)))).
    unfold zlength in *. rewrite length_take, !le_bytes_length in Hs. lia.
  - destruct (bit (type f) Qttmp).
    + apply neutral_call; [done|done|by repeat constructor].
    + apply neutral_fs_call; [done|done|done|by repeat constructor].
Qed.

(** ** Handlers on two fids *)

Lemma with_refs_refs n m e : with_refs n (with_refs m e) = with_refs n e.
Proof. done. Qed.

Lemma with_refs_id e : with_refs (e_refs e) e = e.
Proof. by destruct e. Qed.

Lemma moves_live s t s' l : moves s t s' -> is_Some (t !! l) -> live s' l.
Proof. intros [_ E _ _]. unfold live. by rewrite E. Qed.

Lemma ready_keeps s s' : ready s -> keeps s s' -> h_err s' = 0 -> ready s'.
Proof.
  intros [Ho _ Hl] K He. split; [by apply (kp_ok _ _ K)|done|].
  intros l. rewrite (kp_fid _ _ K). intros E. by eapply keeps_live; [|apply Hl].
Qed.

(** Looking a fid up, working on it and dropping it. *)
Lemma neutral_with_fid t n (body : option loc -> HM (option Npfcall)) s : ready s ->
  (forall s1, ready s1 -> h_fid s1 = h_fid s -> neutral t (body None) s1) ->
  (forall l s1, ready s1 -> h_fid s1 = h_fid s -> live s1 l -> neutral t (body (Some l)) s1) ->
  neutral t (hbind (fid_find n) (fun d => hbind (body d) (fun rc =>
    hbind (drop_fid srv d) (fun _ => hret rc)))) s.
Proof.
  intros [Ho He Hl] Hnone Hsome. unfold neutral. apply runs_bind. apply runs_find; [done| |].
  - intros l e s1 El Hn Hz M1 E1.
    assert (R1 : ready s1).
    { split; [apply M1|congruence|]. intros l'. rewrite (mv_fid _ _ _ M1). intros E.
      eapply moves_live; [exact M1|]. apply lookup_insert_is_Some'. right. by apply Hl. }
    assert (L1 : live s1 l).
    { eapply moves_live; [exact M1|]. rewrite lookup_insert_eq. eauto. }
    apply runs_bind. eapply runs_mono; [apply (Hsome l s1 R1 (mv_fid _ _ _ M1) L1)|].
    intros rc s2 [K2 S2]. pose proof (moves_keeps _ _ _ _ M1 K2) as M2.
    apply runs_bind. unfold drop_fid. apply runs_bind.
    pose proof (sig_refs_pos _ _ _ Ho El) as Hpos.
    apply (runs_decref _ l (with_refs (e_refs e + 1) e)); [apply M2| | |].
    + rewrite (mv_sig _ _ _ M2). apply lookup_insert_eq.
    + cbn. lia.
    + intros _ s3 M3 E3. apply runs_ret, runs_ret.
      pose proof (moves_trans _ _ _ _ _ M2 M3) as M4. split.
      * eapply moves_self; [exact M4| |done]. rewrite (mv_sig _ _ _ M2), insert_insert_eq, with_refs_refs.
        cbn. replace (e_refs e + 1 - 1) with (e_refs e) by lia. rewrite with_refs_id.
        by apply insert_id.
      * destruct rc; cbn in *; rewrite E3; [|done]. done.
  - intros s1 Hu M1 E1. pose proof (moves_self _ _ _ M1 eq_refl Ho) as K1. apply runs_bind.
    eapply runs_mono; [apply (Hnone s1)|].
    { eapply ready_keeps; [by split|done|congruence]. } { apply M1. }
    intros rc s2 [K2 S2]. apply runs_bind, runs_ret, runs_ret. split; [by eapply keeps_trans|done].
Qed.

Lemma np_rename_neutral x s : ready s -> neutral Rrename (np_rename srv x) s.
Proof.
  intros R. unfold neutral, np_rename. apply runs_bind, runs_reqfid.
  destruct (h_fid s) as [l|] eqn:El; [|by apply neutral_fail].
  apply neutral_with_fid; [done|intros; by apply neutral_fail|].
  intros d s1 R1 E1 L1. rewrite El in E1. pose proof (rd_live _ R1 _ E1) as Hl.
  apply runs_bind, runs_get; [done|]. intros f _ _.
  destruct (ro f); [by apply neutral_fail|].
  destruct (bit (type f) Qttmp); [by apply neutral_fail|].
  apply neutral_fs_call; [done|apply R1|done|by repeat constructor].
Qed.

Lemma np_link_neutral x s : ready s -> neutral Rlink (np_link srv x) s.
Proof.
  intros R. unfold neutral, np_link. apply runs_bind, runs_reqfid.
  destruct (h_fid s) as [l|] eqn:El; [|by apply neutral_fail].
  apply neutral_with_fid; [done|intros; by apply neutral_fail|].
  intros d s1 R1 E1 L1. rewrite El in E1. pose proof (rd_live _ R1 _ E1) as Hl.
  apply runs_bind, runs_get; [done|]. intros f _ _.
  destruct (ro f); [by apply neutral_fail|].
  destruct (bit (type f) Qttmp); [by apply neutral_fail|].
  apply neutral_fs_call; [done|apply R1|done|by repeat constructor].
Qed.

Lemma np_renameat_neutral x s : ready s -> neutral Rrenameat (np_renameat srv x) s.
Proof.
  intros R. unfold neutral, np_renameat. apply runs_bind, runs_reqfid.
  destruct (h_fid s) as [l|] eqn:El; [|by apply neutral_fail].
  apply runs_bind, runs_get; [by apply R|]. intros f _ _.
  destruct (ro f); [by apply neutral_fail|].
  destruct (bit (type f) Qttmp); [by apply neutral_fail|].
  apply neutral_with_fid; [done|intros; by apply neutral_fail|].
  intros d s1 R1 E1 L1. rewrite El in E1. pose proof (rd_live _ R1 _ E1) as Hl.
  apply runs_bind, runs_get; [done|]. intros g _ _.
  apply neutral_fs_call; [done|apply R1|done|by repeat constructor].
Qed.

(** ** Clunk and remove: the request's reference and the table's are both
    dropped by the time the request ends, the first of them here. *)

Definition drops (t : Z) (l : loc) (e : entry) (h : HM (option Npfcall)) (s : hstate) : Prop :=
  runs h s (fun rc s' => served t rc s' /\ h_msize s' = h_msize s /\
    pool_ok (h_pool s') /\
    (if e_refs e =? 1
     then h_fid s' = None /\ sig (h_pool s') = delete l (sig (h_pool s))
     else h_fid s' = Some l /\
          sig (h_pool s') = <[l := with_refs (e_refs e - 1) e]> (sig (h_pool s)))).

Lemma drops_after t l e h s : ready s -> h_fid s = Some l -> sig (h_pool s) !! l = Some e ->
  neutral t h s ->
  drops t l e (hbind h (fun rc => hbind (drop_reqfid srv) (fun _ => hret rc))) s.
Proof.
  intros [Ho He _] Hf El Hh. unfold drops. apply runs_bind.
  eapply runs_mono; [exact Hh|]. intros rc s1 [K1 S1].
  assert (El1 : sig (h_pool s1) !! l = Some e) by (by rewrite (kp_sig _ _ K1)).
  pose proof (kp_ok _ _ K1 Ho) as Ho1.
  apply runs_bind. unfold drop_reqfid. apply runs_bind, runs_reqfid. rewrite (kp_fid _ _ K1), Hf.
  apply runs_bind. apply (runs_decref _ l e); [done|done| |].
  - intros E1 s2 M2 Er. eexists _, _. split; [reflexivity|]. apply runs_ret. rewrite E1. cbn.
    split; [|split; [|split; [apply M2|split; [done|]]]].
    + destruct rc; cbn in *; by rewrite Er.
    + by rewrite (mv_msize _ _ _ M2), (kp_msize _ _ K1).
    + by rewrite (mv_sig _ _ _ M2), (kp_sig _ _ K1).
  - intros E1 s2 M2 Er. eexists _, _. split; [reflexivity|]. apply runs_ret.
    rewrite (proj2 (Z.eqb_neq _ _) E1). cbn.
    split; [|split; [|split; [apply M2|split; [done|]]]].
    + destruct rc; cbn in *; by rewrite Er.
    + by rewrite (mv_msize _ _ _ M2), (kp_msize _ _ K1).
    + by rewrite (mv_sig _ _ _ M2), (kp_sig _ _ K1).
Qed.

Lemma np_clunk_drops s l e : ready s -> h_fid s = Some l -> sig (h_pool s) !! l = Some e ->
  drops Rclunk l e (np_clunk srv) s.
Proof.
  intros R Hf El. unfold drops, np_clunk. apply runs_bind, runs_reqfid. rewrite Hf.
  apply drops_after; [done|done|done|]. pose proof (sig_live _ _ _ El) as Hl. destruct R as [_ He _].
  apply runs_bind, runs_get; [done|]. intros f _ _.
  destruct (bit (type f) Qtauth).
  - destruct (has_auth srv); [|by apply neutral_fail].
    apply (neutral_create C_rclunk); [|done..].
    split; [by repeat constructor|]. split; [done|]. done.
  - destruct (bit (type f) Qttmp); [apply neutral_call; [done|done|by repeat constructor]|].
    destruct (negb (has srv Op_clunk)); [by apply neutral_fail|].
    apply neutral_call; [done|done|by repeat constructor].
Qed.

Lemma np_remove_drops s l e : ready s -> h_fid s = Some l -> sig (h_pool s) !! l = Some e ->
  drops Rremove l e (np_remove srv) s.
Proof.
  intros R Hf El. unfold drops, np_remove. apply runs_bind, runs_reqfid. rewrite Hf.
  apply drops_after; [done|done|done|]. pose proof (sig_live _ _ _ El) as Hl. destruct R as [_ He _].
  apply runs_bind, runs_get; [done|]. intros f _ _.
  destruct (bit (flags f) FID_FLAGS_ROFS); [by apply neutral_fail|].
  destruct (bit (type f) Qttmp); [by apply neutral_fail|].
  apply neutral_fs_call; [done|done|done|by repeat constructor].
Qed.

Lemma np_clunk_nofid s : h_fid s = None -> np_clunk srv s = Ret (None, with_err EIO s).
Proof.
  intros E. unfold np_clunk, drop_reqfid, hbind, reqfid. cbn. rewrite E. cbn.
  unfold with_err. by rewrite E.
Qed.

Lemma np_remove_nofid s : h_fid s = None -> np_remove srv s = Ret (None, with_err EIO s).
Proof.
  intros E. unfold np_remove, drop_reqfid, hbind, reqfid. cbn. rewrite E. cbn.
  unfold with_err. by rewrite E.
Qed.

(** ** Handlers that make a new fid *)

(** Making a call whose outcome only matters to the error code. *)
Lemma runs_call_quiet op args s (Q : outcome -> hstate -> Prop) :
  (forall o, failed op o = false) -> op <> Op_remapuser -> op <> Op_exportok ->
  (forall o s', keeps s s' -> h_err s' = h_err s -> Q o s') -> runs (call op [] args) s Q.
Proof.
  intros Hf N1 N2 HQ. apply runs_call_ok; [constructor|done|done|]. intros o s' K _ Er.
  rewrite Hf in Er. auto.
Qed.

(** The entry of a fid derived from one with entry [e]. *)
Definition derived (n : Z) (e : entry) : entry :=
  {| e_num := n; e_zombie := e_zombie e; e_refs := 1; e_aname := true; e_user := e_user e |}.

(** [t] with some entry for the fid [l], which has the number [n] and one
    reference. *)
Definition fresh_in (s : hstate) (l : loc) (n : Z) (t : gmap loc entry) (s' : hstate) : Prop :=
  exists e, moves s (<[l := e]> t) s' /\ e_num e = n /\ e_refs e = 1.

Lemma runs_put_at l g s t e s1 (Q : unit -> hstate -> Prop) : moves s (<[l := e]> t) s1 ->
  (forall f, entry_of f = e -> plain_at g f) ->
  (forall f s2, entry_of f = e -> moves s (<[l := entry_of (g f)]> t) s2 ->
     h_err s2 = h_err s1 -> h_authuser s2 = h_authuser s1 -> Q tt s2) ->
  runs (put_fid l g) s1 Q.
Proof.
  intros M Hg HQ.
  assert (Hf : forall f, fids (h_pool s1) !! l = Some f -> entry_of f = e).
  { intros f Ef%sig_fid. rewrite (mv_sig _ _ _ M), lookup_insert_eq in Ef. congruence. }
  apply runs_put; [|auto|].
  { eapply moves_live; [exact M|]. rewrite lookup_insert_eq. eauto. }
  intros f q Ef Eq Es Ho. apply (HQ f); [auto| |done|done].
  destruct M as [M1 M2 M3 M4]. split; cbn; [auto| |done|done]. by rewrite Es, M2, insert_insert_eq.
Qed.

Lemma moves_other s l t e s1 l' : moves s (<[l := e]> t) s1 -> l' <> l ->
  forall el, t !! l' = Some el -> sig (h_pool s1) !! l' = Some el.
Proof. intros M N el E. by rewrite (mv_sig _ _ _ M), lookup_insert_ne. Qed.

Lemma derive_fid_runs s l newl n t el s1 : moves s (<[newl := new_entry n]> t) s1 ->
  l <> newl -> t !! l = Some el -> e_aname el = true ->
  runs (derive_fid l newl) s1 (fun ok s2 =>
    if ok then moves s (<[newl := derived n el]> t) s2 /\ h_err s2 = h_err s1
    else fresh_in s newl n t s2 /\ h_err s2 <> 0).
Proof.
  intros M1 N El Ha. unfold derive_fid.
  apply runs_bind, runs_get. { eapply sig_live, (moves_other _ _ _ _ _ _ M1 N _ El). }
  intros f _ Ef. rewrite (moves_other _ _ _ _ _ _ M1 N _ El) in Ef. injection Ef as ->.
  cbn in Ha. apply bool_decide_eq_true in Ha as [a Ha].
  apply runs_bind, runs_call_quiet; [done..|]. intros _ s2 K2 E2.
  pose proof (moves_keeps _ _ _ _ M1 K2) as M2.
  apply runs_bind. eapply runs_put_at; [exact M2|done|]. intros g1 s3 Eg1 M3 E3 _.
  apply runs_bind, runs_call_quiet; [done..|]. intros _ s4 K4 E4.
  pose proof (moves_keeps _ _ _ _ M3 K4) as M4.
  apply runs_bind. eapply runs_put_at; [exact M4|done|]. intros g2 s5 Eg2 M5 E5 _.
  apply runs_bind. eapply runs_put_at; [exact M5|done|]. intros g3 s6 Eg3 M6 E6 _.
  assert (Z3 : is_zombie g3 = false /\ fid g3 = n /\ refcount g3 = 1 /\
    bool_decide (is_Some (user g3)) = bool_decide (is_Some (user f))).
  { entries. repeat split; congruence. }
  destruct Z3 as (Z3 & F3 & R3 & U3).
  apply runs_bind. eapply runs_put_at; [exact M6| |].
  { intros g Eg. repeat split. intros _. apply (f_equal e_zombie) in Eg. exact (eq_trans Eg Z3). }
  intros g4 s7 Eg4 M7 E7 _.
  assert (Hg4 : e_num (entry_of (set_flags (flags f) g4)) = n /\
    e_refs (entry_of (set_flags (flags f) g4)) = 1 /\
    e_user (entry_of g4) = e_user (entry_of f)).
  { entries. repeat split; congruence. }
  destruct Hg4 as (F4 & R4 & U4).
  apply runs_bind. unfold fid_aname. rewrite Ha. exists (c_string a), s7. split; [done|].
  apply runs_bind, runs_call_quiet; [done..|]. intros m s8 K8 E8.
  pose proof (moves_keeps _ _ _ _ M7 K8) as M8. destruct (o_int m =? 0).
  - apply runs_bind, runs_uerror, runs_ret. split; [|done]. eexists.
    split; [|by split]. eapply moves_keeps; [exact M8|apply keeps_err].
  - apply runs_bind. eapply runs_put_at; [exact M8|done|]. intros g5 s9 Eg5 M9 E9 _.
    apply runs_ret. split; [|congruence].
    replace (derived n (entry_of f)) with (entry_of (set_aname (Some (c_object (c_string a))) g5));
      [done|].
    unfold derived. entries. f_equal; congruence.
Qed.

(** One step of the walk. *)
Lemma walk_one_runs (ctl : bool) l n s : live s l ->
  runs (if ctl then
          hbind (call Op_ctl_walk [l] [AS n]) (fun o =>
          hret (if o_int o =? 0 then None else Some (o_qid o)))
        else if negb (has srv Op_walk) then hbind (np_uerror ENOSYS) (fun _ => hret None)
        else
          hbind (call Op_walk [l] [AS n]) (fun o =>
          hret (if o_int o =? 0 then None else Some (o_qid o)))) s
    (fun r s' => keeps s s' /\ match r with None => h_err s' <> 0 | Some _ => True end).
Proof.
  intros Hl.
  assert (Hc : forall op, op = Op_ctl_walk \/ op = Op_walk ->
    runs (hbind (call op [l] [AS n]) (fun o =>
          hret (if o_int o =? 0 then None else Some (o_qid o)))) s
    (fun r s' => keeps s s' /\ match r with None => h_err s' <> 0 | Some _ => True end)).
  { intros op Hop. apply runs_bind, runs_call_ok; [by repeat constructor|by destruct Hop as [-> | ->]..|].
    intros o s' K _ Er. apply runs_ret. split; [done|].
    assert (Hf : failed op o = (o_int o =? 0)) by (destruct Hop as [-> | ->]; done).
    rewrite Hf in Er. by destruct (o_int o =? 0). }
  destruct ctl; [auto|]. destruct (negb (has srv Op_walk)); [|auto].
  apply runs_bind, runs_uerror, runs_ret. split; [apply keeps_err|done].
Qed.

Lemma walk_loop_runs l names : forall acc s, live s l ->
  runs (walk_loop srv l names acc) s (fun qs s' => keeps s s' /\
    (length qs <= length acc + length names)%nat /\ (length acc <= length qs)%nat /\
    (length qs = 0%nat -> names <> [] -> h_err s' <> 0)).
Proof.
  induction names as [|n names IH]; intros acc s Hl; cbn [walk_loop].
  { apply runs_ret. split; [apply keeps_refl|]. cbn. split; [lia|]. by split. }
  apply runs_bind, runs_get; [done|]. intros f _ _. apply runs_bind.
  eapply runs_mono; [by apply walk_one_runs|]. intros [q|] s1 [K1 E1].
  2:{ apply runs_ret. split; [done|]. cbn. split; [lia|]. by split. }
  apply runs_bind, runs_put_keeps; [by eapply keeps_live|done|done|]. intros s2 K2 E2.
  pose proof (keeps_trans _ _ _ K1 K2) as K.
  destruct (negb _ && _).
  - apply runs_ret. split; [done|]. rewrite length_app. cbn. split; [lia|]. split; lia.
  - eapply runs_mono; [apply IH; by eapply keeps_live|]. intros qs s3 (K3 & Hq & Ha & He).
    split; [by eapply keeps_trans|]. rewrite length_app in *. cbn in *. split; [lia|]. split; lia.
Qed.

Lemma rwalk_create qs : memory -> (length qs <= 16)%nat -> exists fc,
  np_create_rwalk (zlength qs) qs = Ret (Some fc) /\ is_reply Rwalk fc.
Proof.
  intros Hmem Hq.
  assert (Hc : call_ok (C_rwalk qs)).
  { assert (Hfl : forall l, zlength (flat_map field_bytes (map F13 l)) = 13 * zlength l).
    { induction l as [|q l IH]; [done|]. cbn [map flat_map]. rewrite zlength_app, IH.
      cbn [field_bytes]. rewrite !zlength_app, !zlength_le_bytes. unfold zlength. cbn [length]. lia. }
    split; [|split].
    - cbn [wire_fields]. constructor; [done|]. apply Forall_map, Forall_true. done.
    - cbn. unfold zlength, MAXWELEM. lia.
    - unfold wire_body. cbn [wire_fields flat_map]. rewrite zlength_app, Hfl. cbn [field_bytes].
      rewrite zlength_le_bytes. unfold zlength. lia. }
  destruct (run_create_reply (C_rwalk qs) Hc) as [[_ E]|(fc & E & Ht & Hl)].
  - by destruct (Hmem _ E).
  - exists fc. split; [exact E|]. by split.
Qed.

Definition walk_request (x : Nptwalk) : Prop := zlength (twalk_wnames x) = twalk_nwname x.

Lemma walk_names_runs x l s : memory -> walk_request x -> twalk_nwname x <= MAXWELEM ->
  live s l -> h_err s = 0 -> neutral Rwalk (walk_names srv x l) s.
Proof.
  intros Hmem Hx Hn Hl He. unfold neutral, walk_names.
  apply runs_bind, runs_get; [done|]. intros f _ _. apply runs_bind.
  assert (Hs : runs (if bit (type f) Qttmp then hret 0 else np_setfsid (user f) (-1)) s
    (fun r s' => keeps s s' /\ (r < 0 -> h_err s' <> 0))).
  { destruct (bit _ _); [apply runs_ret; split; [apply keeps_refl|lia]|].
    unfold np_setfsid. apply runs_bind, runs_call_ok; [constructor|done|done|].
    intros o s' K _ Er. apply runs_ret. split; [done|]. intros Ho. cbn [failed] in Er.
    by rewrite (proj2 (Z.ltb_lt _ _) Ho) in Er. }
  eapply runs_mono; [exact Hs|]. intros r s1 [K1 E1].
  destruct (Z.ltb_spec r 0) as [Hr|Hr]; [apply runs_ret; split; [done|by apply E1]|].
  apply runs_bind. eapply runs_mono; [apply walk_loop_runs; by eapply keeps_live|].
  intros qs s2 (K2 & Hq & _ & E2). pose proof (keeps_trans _ _ _ K1 K2) as K.
  unfold walk_request, zlength in *. cbn [length] in Hq.
  destruct (Z.eqb_spec (Z.of_nat (length qs)) 0) as [Hz|Hz];
    destruct (Z.eqb_spec (twalk_nwname x) 0) as [Hw|Hw]; cbn [negb andb].
  2:{ apply runs_ret. split; [done|]. apply E2; [lia|]. intros E. rewrite E in Hx. cbn in Hx. lia. }
  all: apply runs_bind, runs_uerror;
    destruct (rwalk_create qs Hmem) as (fc & E & Hfc); [unfold MAXWELEM in *; lia|];
    exists (Some fc); eexists; unfold hcreate; unfold zlength in E; rewrite E;
    (split; [reflexivity|]); (split; [|done]);
    (eapply keeps_trans; [exact K|apply keeps_err]).
Qed.

Lemma displaced_none n t t' l : displaced srv n t t' -> t !! l = None -> t' !! l = None.
Proof.
  intros [|x e _ Hx _ _] Hl; [done|]. rewrite lookup_insert_ne; [done|]. congruence.
Qed.

Lemma displaced_other n t t' l e : displaced srv n t t' -> t !! l = Some e -> e_num e <> n ->
  t' !! l = Some e.
Proof.
  intros [|x ex _ Hx Hn _] Hl Hne; [done|]. rewrite lookup_insert_ne; [done|].
  intros ->. congruence.
Qed.

(** A handler that gives the number [n] to a new fid derived from a fid with
    entry [e], unless it fails. *)
Definition makes (t n : Z) (e : entry) (h : HM (option Npfcall)) (s : hstate) : Prop :=
  runs h s (fun rc s' => served t rc s' /\ exists tab,
    (tab = sig (h_pool s) /\ h_err s' = EIO \/ displaced srv n (sig (h_pool s)) tab) /\
    match rc with
    | Some _ => exists l, sig (h_pool s) !! l = None /\ displaced srv n (sig (h_pool s)) tab /\
                  moves s (<[l := derived n e]> tab) s'
    | None => moves s tab s'
    end).

Lemma log_fid_user_runs l e s el (Q : option Npfcall -> hstate -> Prop) :
  sig (h_pool s) !! l = Some el -> e_user el = true -> Q None (with_err e s) ->
  runs (log_fid_user l e) s Q.
Proof.
  intros El Hu HQ. unfold log_fid_user. apply runs_bind, runs_uerror, runs_bind, runs_get.
  { by eapply sig_live. }
  intros f _ Ef. cbn [with_err h_pool] in Ef. rewrite El in Ef. injection Ef as ->.
  cbn in Hu. apply bool_decide_eq_true in Hu as [u ->]. by apply runs_ret.
Qed.

(** Dropping a new fid that could not be completed. *)
Lemma drop_fresh s l n t s1 : fresh_in s l n t s1 -> t !! l = None -> h_err s1 <> 0 ->
  runs (hbind (fid_decref srv l) (fun _ => hret (None (A := Npfcall)))) s1 (fun rc s' =>
    rc = None /\ moves s t s' /\ h_err s' <> 0).
Proof.
  intros (e & M & Hn & Hr) Ht He. apply runs_bind.
  apply (runs_decref _ l e); [apply M|by rewrite (mv_sig _ _ _ M), lookup_insert_eq| |done].
  intros _ s2 M2 E2. apply runs_ret. split; [done|]. split; [|congruence].
  pose proof (moves_trans _ _ _ _ _ M M2) as M3.
  by rewrite (mv_sig _ _ _ M), delete_insert_id in M3.
Qed.

(** The common frame of [np_walk] and [np_xattrwalk]: create the new fid, set it
    up with [setup], drop it when that gives no reply. *)
Lemma makes_new t n l el (setup : loc -> HM (option Npfcall)) s : ready s ->
  h_fid s = Some l -> sig (h_pool s) !! l = Some el -> e_user el = true -> e_num el <> n ->
  (forall newl tab s1, sig (h_pool s) !! newl = None -> displaced srv n (sig (h_pool s)) tab ->
     tab !! newl = None -> tab !! l = Some el -> l <> newl ->
     moves s (<[newl := new_entry n]> tab) s1 -> h_err s1 = 0 ->
     runs (setup newl) s1 (fun rc s2 => served t rc s2 /\
       match rc with
       | Some _ => moves s (<[newl := derived n el]> tab) s2
       | None => fresh_in s newl n tab s2
       end)) ->
  makes t n el (hbind (fid_create srv n) (fun o =>
    match o with
    | None => hbind np_rerror (fun e => if e =? EEXIST then log_fid_user l EIO else hret None)
    | Some newl => hbind (setup newl) (fun rc =>
        match rc with
        | Some _ => hret rc
        | None => hbind (fid_decref srv newl) (fun _ => hret None)
        end)
    end)) s.
Proof.
  intros [Ho He _] Hf El Hu Hne Hs. unfold makes. apply runs_bind. apply runs_create; [done| | |].
  - intros newl tab s1 Hnew Hd M1 E1.
    pose proof (displaced_none _ _ _ _ Hd Hnew) as Ht.
    pose proof (displaced_other _ _ _ _ _ Hd El Hne) as Hl.
    apply runs_bind. eapply runs_mono; [apply (Hs newl tab s1); try done|].
    { congruence. } { congruence. }
    intros [r|] s2 [S2 M2].
    + apply runs_ret. split; [done|]. exists tab. split; [by right|]. by exists newl.
    + eapply runs_mono; [by apply (drop_fresh s newl n tab s2)|]. intros rc s3 (-> & M3 & E3).
      split; [done|]. exists tab. split; [by right|done].
  - intros tab s1 Hd M1 E1. apply runs_bind, runs_rerror. rewrite E1. cbn.
    apply runs_ret. split; [cbn; by rewrite E1|]. exists tab. split; [by right|done].
  - intros s1 M1 E1. apply runs_bind, runs_rerror. rewrite E1. cbn.
    apply (log_fid_user_runs l EIO s1 el); [by rewrite (mv_sig _ _ _ M1)|done|].
    split; [done|]. eexists. split; [left; by split|]. eapply moves_keeps; [exact M1|apply keeps_err].
Qed.

Lemma makes_mono t n e (h h' : HM (option Npfcall)) s : (forall s, h s = h' s) ->
  makes t n e h s -> makes t n e h' s.
Proof.
  intros E (a & s' & Er & HQ). exists a, s'. by rewrite <- E.
Qed.

Lemma hbind_assoc {A B C} (c : HM A) (f : A -> HM B) (g : B -> HM C) s :
  hbind (hbind c f) g s = hbind c (fun a => hbind (f a) g) s.
Proof. unfold hbind. destruct (c s) as [[a s1]| |]; done. Qed.

Lemma hbind_ext {A B} (c : HM A) (f g : A -> HM B) s : (forall a s, f a s = g a s) ->
  hbind c f s = hbind c g s.
Proof. intros E. unfold hbind. destruct (c s) as [[a s1]| |]; [apply E|done..]. Qed.

Lemma np_xattrwalk_makes x l el s : ready s -> h_fid s = Some l ->
  sig (h_pool s) !! l = Some el -> e_user el = true -> e_aname el = true ->
  e_num el <> txattrwalk_attrfid x ->
  makes Rxattrwalk (txattrwalk_attrfid x) el (np_xattrwalk srv x) s.
Proof.
  intros R Hf El Hu Ha Hne. unfold makes, np_xattrwalk. apply runs_bind, runs_reqfid. rewrite Hf.
  set (setup newl := hbind (derive_fid l newl) (fun ok =>
    if negb ok then hret None
    else hbind (get_fid l) (fun f =>
      if bit (type f) Qttmp then fail EPERM
      else fs_call srv Op_xattrwalk (user f) (-1) ENOSYS [l; newl] [AS (txattrwalk_name x)]))).
  apply (makes_mono _ _ _ (hbind (fid_create srv (txattrwalk_attrfid x)) (fun o =>
    match o with
    | None => hbind np_rerror (fun e => if e =? EEXIST then log_fid_user l EIO else hret None)
    | Some newl => hbind (setup newl) (fun rc =>
        match rc with
        | Some _ => hret rc
        | None => hbind (fid_decref srv newl) (fun _ => hret None)
        end)
    end))).
  { intros s0. apply hbind_ext. intros [newl|] s1; [|done]. unfold setup. by rewrite hbind_assoc. }
  apply makes_new; [done..|]. intros newl tab s1 Hnew Hd Ht Hl N M1 E1. unfold setup.
  apply runs_bind. eapply runs_mono; [by apply (derive_fid_runs s l newl (txattrwalk_attrfid x) tab el s1)|].
  intros [] s2 M2; cbn [negb].
  2:{ apply runs_ret. split; [apply M2|apply M2]. }
  destruct M2 as [M2 E2].
  assert (L2 : live s2 l).
  { eapply moves_live; [exact M2|]. rewrite lookup_insert_ne by done. by rewrite Hl. }
  assert (N2 : live s2 newl).
  { eapply moves_live; [exact M2|]. rewrite lookup_insert_eq. eauto. }
  apply runs_bind, runs_get; [done|]. intros f _ _.
  assert (Hk : neutral Rxattrwalk (if bit (type f) Qttmp then fail EPERM
    else fs_call srv Op_xattrwalk (user f) (-1) ENOSYS [l; newl] [AS (txattrwalk_name x)]) s2).
  { destruct (bit _ _); [by apply neutral_fail|].
    apply neutral_fs_call; [done|congruence|done|by repeat constructor]. }
  eapply runs_mono; [exact Hk|]. intros rc s3 [K3 S3]. split; [done|].
  pose proof (moves_keeps _ _ _ _ M2 K3) as M3. destruct rc; [done|]. by eexists.
Qed.

Lemma clone_runs (ctl : bool) l newl s : live s l -> live s newl -> h_err s = 0 ->
  runs (if ctl then
          hbind (call Op_ctl_clone [l; newl] []) (fun o => hret (negb (o_int o =? 0)))
        else if negb (has srv Op_clone) then hbind (np_uerror ENOSYS) (fun _ => hret false)
        else hbind (call Op_clone [l; newl] []) (fun o => hret (negb (o_int o =? 0)))) s
    (fun (ok : bool) s' => keeps s s' /\ if ok then h_err s' = 0 else h_err s' <> 0).
Proof.
  intros Hl Hn He.
  assert (Hc : forall op, op = Op_ctl_clone \/ op = Op_clone ->
    runs (hbind (call op [l; newl] []) (fun o => hret (negb (o_int o =? 0)))) s
    (fun (ok : bool) s' => keeps s s' /\ if ok then h_err s' = 0 else h_err s' <> 0)).
  { intros op Hop. apply runs_bind, runs_call_ok;
      [by repeat constructor|by destruct Hop as [-> | ->]..|].
    intros o s' K _ Er. apply runs_ret. split; [done|].
    assert (Hf : failed op o = (o_int o =? 0)) by (destruct Hop as [-> | ->]; done).
    rewrite Hf in Er. destruct (o_int o =? 0); cbn; [done|congruence]. }
  destruct ctl; [auto|]. destruct (negb (has srv Op_clone)); [|auto].
  apply runs_bind, runs_uerror, runs_ret. split; [apply keeps_err|done].
Qed.

Lemma np_walk_makes x l el s : ready s -> memory -> walk_request x ->
  h_fid s = Some l -> sig (h_pool s) !! l = Some el -> e_user el = true -> e_aname el = true ->
  e_num el = twalk_fid x -> twalk_fid x <> twalk_newfid x -> twalk_nwname x <= MAXWELEM ->
  makes Rwalk (twalk_newfid x) el (np_walk srv x) s.
Proof.
  intros R Hmem Hx Hf El Hu Ha Hnum Hne Hn. unfold makes, np_walk. apply runs_bind, runs_reqfid.
  rewrite Hf, (proj2 (Z.ltb_ge _ _)), (proj2 (Z.eqb_neq _ _)) by done.
  set (setup newl := hbind (get_fid l) (fun f =>
    hbind (if bit (type f) Qttmp then
             hbind (call Op_ctl_clone [l; newl] []) (fun o => hret (negb (o_int o =? 0)))
           else if negb (has srv Op_clone) then hbind (np_uerror ENOSYS) (fun _ => hret false)
           else hbind (call Op_clone [l; newl] []) (fun o => hret (negb (o_int o =? 0))))
      (fun ok => if negb ok then hret None
        else hbind (derive_fid l newl) (fun ok =>
          if negb ok then hret None else walk_names srv x newl)))).
  apply (makes_mono _ _ _ (hbind (fid_create srv (twalk_newfid x)) (fun o =>
    match o with
    | None => hbind np_rerror (fun e => if e =? EEXIST then log_fid_user l EIO else hret None)
    | Some newl => hbind (setup newl) (fun rc =>
        match rc with
        | Some _ => hret rc
        | None => hbind (fid_decref srv newl) (fun _ => hret None)
        end)
    end))).
  { intros s0. apply hbind_ext. intros [newl|] s1; [|done]. unfold setup. rewrite hbind_assoc.
    apply hbind_ext. intros f s2. by rewrite hbind_assoc. }
  apply makes_new; [done|done|done|done|congruence|].
  intros newl tab s1 Hnew Hd Ht Hl N M1 E1. unfold setup.
  assert (L1 : live s1 l).
  { eapply moves_live; [exact M1|]. rewrite lookup_insert_ne by done. by rewrite Hl. }
  assert (N1 : live s1 newl).
  { eapply moves_live; [exact M1|]. rewrite lookup_insert_eq. eauto. }
  apply runs_bind, runs_get; [done|]. intros f _ _. apply runs_bind.
  eapply runs_mono; [by apply clone_runs|]. intros [] s2 [K2 E2]; cbn [negb];
    pose proof (moves_keeps _ _ _ _ M1 K2) as M2.
  2:{ apply runs_ret. split; [done|]. by eexists. }
  apply runs_bind. eapply runs_mono; [by apply (derive_fid_runs s l newl (twalk_newfid x) tab el s2)|].
  intros [] s3 M3; cbn [negb].
  2:{ apply runs_ret. split; [apply M3|apply M3]. }
  destruct M3 as [M3 E3].
  eapply runs_mono; [apply walk_names_runs; [done|done|done| |congruence]|].
  { eapply moves_live; [exact M3|]. rewrite lookup_insert_eq. eauto. }
  intros rc s4 [K4 S4]. split; [done|]. pose proof (moves_keeps _ _ _ _ M3 K4) as M4.
  destruct rc; [done|]. by eexists.
Qed.

(** A walk in place. *)
Lemma np_walk_self x l s : ready s -> memory -> walk_request x ->
  h_fid s = Some l -> twalk_fid x = twalk_newfid x -> twalk_nwname x <= MAXWELEM ->
  neutral Rwalk (np_walk srv x) s.
Proof.
  intros R Hmem Hx Hf Heq Hn. unfold neutral, np_walk. apply runs_bind, runs_reqfid.
  rewrite Hf, (proj2 (Z.ltb_ge _ _)), (proj2 (Z.eqb_eq _ _)) by done.
  apply walk_names_runs; [done|done|done|by apply R|apply R].
Qed.

Lemma np_walk_neutral_fail x s : ready s -> h_fid s = None \/ MAXWELEM < twalk_nwname x ->
  neutral Rwalk (np_walk srv x) s.
Proof.
  intros R Hbad. unfold neutral, np_walk. apply runs_bind, runs_reqfid.
  destruct (h_fid s); [|by apply neutral_fail]. destruct Hbad as [|Hbad]; [done|].
  rewrite (proj2 (Z.ltb_lt _ _)) by done. by apply neutral_fail.
Qed.

(** ** Attach *)

Definition with_user (u : bool) (e : entry) : entry :=
  {| e_num := e_num e; e_zombie := e_zombie e; e_refs := e_refs e; e_aname := e_aname e;
     e_user := u |}.

Lemma entry_user u f e : entry_of f = e ->
  entry_of (set_user u f) = with_user (bool_decide (is_Some u)) e.
Proof. by intros <-. Qed.

Lemma with_user_user u v e : with_user u (with_user v e) = with_user u e.
Proof. done. Qed.

Lemma moves_self_at s l e : pool_ok (h_pool s) -> sig (h_pool s) !! l = Some e ->
  moves s (<[l := with_user (e_user e) e]> (sig (h_pool s))) s.
Proof.
  intros Ho El. split; [done| |done|done]. symmetry. apply insert_id. rewrite El. by destruct e.
Qed.

(** The fid [l] after steps that only assigned its user. *)
Definition user_set (s : hstate) (l : loc) (e : entry) (ok : bool) (s' : hstate) : Prop :=
  exists u, moves s (<[l := with_user u e]> (sig (h_pool s))) s' /\
    if ok then u = true /\ h_err s' = 0 else h_err s' <> 0.

(** Calling a function that finds a user and assigning it to the fid. *)
Lemma find_user_runs {A} op fs args l e u s s1 (k : outcome -> HM A) (Q : A -> hstate -> Prop) :
  op = Op_attach2user \/ op = Op_afid2user ->
  moves s (<[l := with_user u e]> (sig (h_pool s))) s1 -> Forall (live s1) fs -> h_err s1 = 0 ->
  (forall o s2, moves s (<[l := with_user (bool_decide (is_Some (o_ptr o))) e]> (sig (h_pool s))) s2 ->
     match o_ptr o with Some _ => h_err s2 = 0 | None => h_err s2 <> 0 end ->
     h_authuser s2 = h_authuser s1 -> runs (k o) s2 Q) ->
  runs (hbind (call op fs args) (fun o => hbind (put_fid l (set_user (o_ptr o))) (fun _ => k o))) s1 Q.
Proof.
  intros Hop M Hl He HQ. apply runs_bind, runs_call; [done|by destruct Hop as [-> | ->]|].
  intros o s2 K2 Eo _ Er Ea. pose proof (moves_keeps _ _ _ _ M K2) as M2.
  apply runs_bind. eapply runs_put_at; [exact M2|done|]. intros f s3 Ef M3 E3 A3.
  apply HQ; [by rewrite (entry_user _ _ _ Ef), with_user_user in M3| |congruence].
  rewrite E3, Er. set (c := {| sc_op := op |}) in Eo.
  assert (Hf : failed op o = bool_decide (o_ptr o = None)) by (destruct Hop as [-> | ->]; done).
  destruct (failed op o) eqn:F; rewrite Eo in F.
  - destruct (fs_failed _ c F) as (er & Ee & Hne). rewrite <- Eo in Ee. rewrite Ee.
    by destruct (o_ptr o).
  - pose proof (fs_worked (h_world s1) c F) as Ee. rewrite <- Eo in Ee. rewrite Ee.
    + by destruct (o_ptr o).
    + by destruct Hop as [-> | ->].
Qed.

Lemma get_user_runs l u e s s1 (Q : Npfid -> hstate -> Prop) :
  moves s (<[l := with_user u e]> (sig (h_pool s))) s1 ->
  (forall f, u = bool_decide (is_Some (user f)) -> Q f s1) -> runs (get_fid l) s1 Q.
Proof.
  intros M HQ. apply runs_get.
  { eapply moves_live; [exact M|]. rewrite lookup_insert_eq. eauto. }
  intros f _ Ef. apply HQ. rewrite (mv_sig _ _ _ M), lookup_insert_eq in Ef.
  injection Ef as _ _ _ _ Eu. exact Eu.
Qed.

(** A state change that the accounting does not see. *)
Lemma moves_same s t s1 s2 : moves s t s1 -> h_pool s2 = h_pool s1 -> h_fid s2 = h_fid s1 ->
  h_msize s2 = h_msize s1 -> moves s t s2.
Proof. intros [] E1 E2 E3. split; congruence. Qed.

Lemma set_authuser_runs u s s1 t (Q : unit -> hstate -> Prop) : moves s t s1 ->
  (forall s2, moves s t s2 -> h_err s2 = h_err s1 -> Q tt s2) -> runs (np_conn_set_authuser u) s1 Q.
Proof. intros M HQ. eexists _, _. split; [reflexivity|]. apply HQ; [|done]. by eapply moves_same. Qed.

Lemma attach_afid_runs x l a e s : pool_ok (h_pool s) -> sig (h_pool s) !! l = Some e ->
  live s a -> h_err s = 0 ->
  runs (attach_auth srv x l (Some a) true) s (user_set s l e).
Proof.
  intros Ho El La He. unfold attach_auth. pose proof (moves_self_at s l e Ho El) as M0.
  eapply find_user_runs; [by right|exact M0|by repeat constructor|done|]. intros o s1 M1 E1 _.
  destruct (o_ptr o) as [u|]; [|apply runs_ret; by eexists].
  assert (L1 : live s1 l) by (eapply moves_live; [exact M1|]; rewrite lookup_insert_eq; eauto).
  assert (A1 : live s1 a).
  { eapply moves_live; [exact M1|]. by apply lookup_insert_is_Some'; right. }
  apply runs_bind, runs_call_ok; [by repeat constructor|done|done|]. intros o2 s2 K2 _ E2.
  pose proof (moves_keeps _ _ _ _ M1 K2) as M2. cbn [failed] in E2.
  destruct (o_int o2 =? 0); [apply runs_ret; by eexists|].
  apply runs_bind. eapply get_user_runs; [exact M2|]. intros f Hf.
  symmetry in Hf. apply bool_decide_eq_true in Hf as [v ->]. apply runs_bind. eexists _, s2. split; [reflexivity|].
  apply runs_bind. eapply set_authuser_runs; [exact M2|]. intros s3 M3 E3. apply runs_ret.
  eexists. split; [exact M3|]. split; [done|congruence].
Qed.

Lemma attach_noafid_runs x l e s : pool_ok (h_pool s) -> sig (h_pool s) !! l = Some e ->
  h_err s = 0 -> runs (attach_auth srv x l None true) s (user_set s l e).
Proof.
  intros Ho El He. unfold attach_auth. pose proof (moves_self_at s l e Ho El) as M0.
  eapply find_user_runs; [by left|exact M0|constructor|done|]. intros o s1 M1 E1 _.
  destruct (o_ptr o) as [u|]; [|apply runs_ret; by eexists].
  assert (Hp : runs (hbind (np_uerror EPERM) (fun _ => hret false)) s1 (user_set s l e)).
  { apply runs_bind, runs_uerror, runs_ret. eexists. split; [|done].
    eapply moves_keeps; [exact M1|apply keeps_err]. }
  destruct (negb _); [exact Hp|]. apply runs_bind. eexists _, s1. split; [reflexivity|].
  destruct (h_authuser s1 =? NONUNAME); [exact Hp|]. apply runs_bind. eexists _, s1.
  split; [reflexivity|]. destruct (negb _ && negb _); [exact Hp|].
  apply runs_ret. eexists. split; [exact M1|]. by split.
Qed.

Lemma attach_open_runs x l afid e s : pool_ok (h_pool s) -> sig (h_pool s) !! l = Some e ->
  h_err s = 0 -> runs (attach_auth srv x l afid false) s (user_set s l e).
Proof.
  intros Ho El He. unfold attach_auth. pose proof (moves_self_at s l e Ho El) as M0.
  apply runs_bind. eapply get_user_runs; [exact M0|]. intros f Hf. apply runs_bind.
  assert (Hk : forall u s1, moves s (<[l := with_user true e]> (sig (h_pool s))) s1 -> h_err s1 = 0 ->
    runs (hbind (user_uid u) (fun uid =>
      hbind (if uid =? 0 then np_conn_set_authuser uid else hret tt) (fun _ => hret true)))
      s1 (user_set s l e)).
  { intros u s1 M1 E1. apply runs_bind. eexists _, s1. split; [reflexivity|]. apply runs_bind.
    destruct (_ =? 0).
    - eapply set_authuser_runs; [exact M1|]. intros s2 M2 E2. apply runs_ret.
      eexists. split; [exact M2|]. split; [done|congruence].
    - apply runs_ret, runs_ret. by eexists. }
  destruct (user f) as [u|] eqn:Eu.
  - apply runs_ret, Hk; [|done]. rewrite Hf in M0. exact M0.
  - eapply find_user_runs; [by left|exact M0|constructor|done|]. intros o s1 M1 E1 _.
    apply runs_ret. destruct (o_ptr o) as [u|]; [by apply Hk|]. apply runs_ret. by eexists.
Qed.

Lemma attach_auth_runs x l afid req e s : pool_ok (h_pool s) -> sig (h_pool s) !! l = Some e ->
  Forall (live s) (option_list afid) -> h_err s = 0 ->
  runs (attach_auth srv x l afid req) s (user_set s l e).
Proof.
  intros Ho El Ha He. destruct req; [|by apply attach_open_runs].
  destruct afid as [a|]; [|by apply attach_noafid_runs].
  apply attach_afid_runs; [done|done|exact (Forall_inv Ha)|done].
Qed.

Definition one_if {A} (rc : option A) : Z := match rc with Some _ => 1 | None => 0 end.

(** The fid [l] at the end of an attach: one more reference when it worked. *)
Definition attached (s : hstate) (l : loc) (e : entry) (rc : option Npfcall) (s' : hstate) : Prop :=
  served Rattach rc s' /\ exists u,
    moves s (<[l := with_refs (e_refs e + one_if rc) (with_user u e)]> (sig (h_pool s))) s' /\
    (rc = None \/ u = true).

Lemma attached_fail s l e u s' : moves s (<[l := with_user u e]> (sig (h_pool s))) s' ->
  h_err s' <> 0 -> attached s l e None s'.
Proof.
  intros M He. split; [done|]. exists u. split; [|by left].
  cbn. by rewrite Z.add_0_r.
Qed.

(** The hooks of the server: both may end the attach. *)
Lemma attach_hooks_runs {A} l s s1 e (k : HM A) (no : HM A) (Q : A -> hstate -> Prop) :
  moves s (<[l := with_user true e]> (sig (h_pool s))) s1 -> h_err s1 = 0 ->
  (forall s2, moves s (<[l := with_user true e]> (sig (h_pool s))) s2 -> h_err s2 <> 0 ->
     runs no s2 Q) ->
  (forall s2, moves s (<[l := with_user true e]> (sig (h_pool s))) s2 -> h_err s2 = 0 ->
     runs k s2 Q) ->
  runs (hbind (if has srv Op_remapuser then
                 hbind (call Op_remapuser [l] []) (fun o => hret (0 <=? o_int o))
               else hret true) (fun ok : bool => if negb ok then no else k)) s1 Q.
Proof.
  intros M1 E1 Hno Hk. apply runs_bind.
  destruct (has srv Op_remapuser); [|apply runs_ret; by apply Hk].
  assert (El : sig (h_pool s1) !! l = Some (with_user true e))
    by (by rewrite (mv_sig _ _ _ M1), lookup_insert_eq).
  apply runs_bind, runs_call.
  { repeat constructor. by eapply sig_live. } { intros _. by eexists l, [], _. }
  intros o s2 K2 Eo _ Er _. pose proof (moves_keeps _ _ _ _ M1 K2) as M2. apply runs_ret.
  set (c := {| sc_op := Op_remapuser |}) in Eo.
  destruct (Z.leb_spec 0 (o_int o)) as [Hi|Hi]; cbn [negb].
  - apply Hk; [done|]. rewrite Er, Eo, (fs_worked (h_world s1) c); [done| |done].
    cbn. rewrite <- Eo. by apply Z.ltb_ge.
  - apply Hno; [done|]. destruct (fs_failed (h_world s1) c) as (er & Ee & Hne).
    { cbn. rewrite <- Eo. by apply Z.ltb_lt. }
    by rewrite Er, Eo, Ee.
Qed.

Lemma exportok_runs l s s1 e (Q : bool -> hstate -> Prop) :
  moves s (<[l := with_user true e]> (sig (h_pool s))) s1 -> h_err s1 = 0 ->
  (forall s2, moves s (<[l := with_user true e]> (sig (h_pool s))) s2 -> Q false s2) ->
  (forall s2, moves s (<[l := with_user true e]> (sig (h_pool s))) s2 -> h_err s2 = 0 ->
     Q true s2) ->
  runs (if has srv Op_exportok then
          hbind (call Op_exportok [l] []) (fun o => hret (negb (o_int o =? 0)))
        else hret true) s1 Q.
Proof.
  intros M1 E1 Hno Hk. destruct (has srv Op_exportok); [|apply runs_ret; auto].
  apply runs_bind, runs_call; [|done|].
  { repeat constructor. eapply moves_live; [exact M1|]. rewrite lookup_insert_eq. eauto. }
  intros o s2 K2 Eo _ Er _. pose proof (moves_keeps _ _ _ _ M1 K2) as M2. apply runs_ret.
  destruct (Z.eqb_spec (o_int o) 0) as [Hi|Hi]; cbn [negb]; [auto|]. apply Hk; [done|].
  rewrite Er, Eo, fs_exportok; [done|done|congruence].
Qed.

Lemma attach_finish_runs x l afid e s s1 : e_aname e = true ->
  moves s (<[l := with_user true e]> (sig (h_pool s))) s1 -> h_err s1 = 0 ->
  (forall a, afid = Some a -> live s a) ->
  runs (attach_finish srv x l afid) s1 (attached s l e).
Proof.
  intros Ha M1 E1 La. unfold attach_finish. eapply attach_hooks_runs; [exact M1|done| |].
  { intros s2 M2 E2. apply runs_ret. by eapply attached_fail. }
  clear s1 M1 E1. intros s1 M1 E1. apply runs_bind. eapply exportok_runs; [exact M1|done| |].
  { intros s2 M2. apply runs_fail. eapply attached_fail; [|done].
    eapply moves_keeps; [exact M2|apply keeps_err]. }
  clear s1 M1 E1. intros s1 M1 E1. cbn [negb].
  assert (El : sig (h_pool s1) !! l = Some (with_user true e))
    by (by rewrite (mv_sig _ _ _ M1), lookup_insert_eq).
  pose proof (sig_live _ _ _ El) as L1.
  apply runs_bind, runs_get; [done|]. intros f _ Ef. rewrite El in Ef. injection Ef as _ _ _ Ea _.
  rewrite Ha in Ea. symmetry in Ea. apply bool_decide_eq_true in Ea as [nm Ea].
  apply runs_bind. unfold fid_aname. rewrite Ea. exists (c_string nm), s1. split; [done|].
  assert (Hl : Forall (live s1) (l :: option_list afid)).
  { constructor; [done|]. destruct afid as [a|]; constructor; [|constructor].
    eapply moves_live; [exact M1|]. apply lookup_insert_is_Some'. right. by apply La. }
  apply runs_bind. eapply runs_mono.
  { instantiate (1 := fun rc s2 => keeps s1 s2 /\ served Rattach rc s2).
    destruct (bool_decide _); [by apply neutral_call|].
    destruct (negb _); [by apply neutral_fail|by apply neutral_call]. }
  intros [r|] s2 [K2 S2]; pose proof (moves_keeps _ _ _ _ M1 K2) as M2.
  - apply runs_bind. eapply runs_incref; [apply M2|by rewrite (mv_sig _ _ _ M2), lookup_insert_eq|].
    intros s3 M3 E3. apply runs_ret. split; [destruct S2; split; [done|congruence]|].
    exists true. split; [|by right]. pose proof (moves_trans _ _ _ _ _ M2 M3) as M4.
    by rewrite (mv_sig _ _ _ M2), insert_insert_eq in M4.
  - apply runs_bind, runs_ret, runs_ret. by eapply attached_fail.
Qed.

Lemma authrequired_runs u n a s : runs (authrequired srv u n a) s (fun req s' =>
  keeps s s' /\ h_err s' = h_err s /\ (req = true -> has_auth srv = true)).
Proof.
  unfold authrequired. destruct (has_auth srv); cbn [negb orb];
    [|by apply runs_ret; split; [apply keeps_refl|]].
  destruct (_ || _); [by apply runs_ret; split; [apply keeps_refl|]|].
  destruct (negb _); [by apply runs_ret; split; [apply keeps_refl|]|].
  apply runs_bind, runs_call; [constructor|done|]. intros o s' K Eo _ Er Ea. apply runs_ret.
  split; [done|]. split; [|done]. rewrite Er, Eo. by rewrite fs_worked.
Qed.

(** With the authentication fid in hand, or none. *)
Lemma attach_body_runs x l afid req e s : pool_ok (h_pool s) -> sig (h_pool s) !! l = Some e ->
  e_aname e = true -> (forall a, afid = Some a -> live s a) -> h_err s = 0 ->
  runs (hbind (match afid with
               | None => hret true
               | Some a => hbind (get_fid a) (fun f => hret (bit (type f) Qtauth))
               end) (fun good : bool =>
        if negb good then fail EPERM
        else hbind (attach_auth srv x l afid req) (fun ok : bool =>
          if negb ok then hret None else attach_finish srv x l afid))) s (attached s l e).
Proof.
  intros Ho El Ha La He. pose proof (moves_self_at s l e Ho El) as M0. apply runs_bind.
  eapply runs_mono with (Q := fun _ s' => s' = s).
  { destruct afid as [a|]; [|by apply runs_ret]. apply runs_bind, runs_get; [by apply La|].
    intros f _ _. by apply runs_ret. }
  intros good ? ->. destruct good; cbn [negb].
  2:{ apply runs_fail. eapply attached_fail; [|done]. eapply moves_keeps; [exact M0|apply keeps_err]. }
  apply runs_bind. eapply runs_mono; [apply (attach_auth_runs x l afid req e s)|]; try done.
  { destruct afid; repeat constructor. by apply La. }
  intros [] s1 (u & M1 & E1); cbn [negb].
  - destruct E1 as [-> E1]. by apply attach_finish_runs.
  - apply runs_ret. by eapply attached_fail.
Qed.

Lemma with_refs_user n u e : with_refs n (with_user u e) = with_user u (with_refs n e).
Proof. done. Qed.

(** Dropping the authentication fid gives back the reference it was found with,
    also when it is the fid that is being attached. *)
Lemma drop_afid_runs s a ea l e rc s1 s2 : pool_ok (h_pool s) ->
  sig (h_pool s) !! a = Some ea -> sig (h_pool s) !! l = Some e ->
  moves s (<[a := with_refs (e_refs ea + 1) ea]> (sig (h_pool s))) s1 ->
  attached s1 l (if decide (a = l) then with_refs (e_refs ea + 1) ea else e) rc s2 ->
  runs (hbind (drop_fid srv (Some a)) (fun _ => hret rc)) s2 (attached s l e).
Proof.
  intros Ho Ea El M1 (S2 & u & M2 & Hu). pose proof (sig_refs_pos _ _ _ Ho Ea) as Hpos.
  apply runs_bind. unfold drop_fid. apply runs_bind.
  assert (Hone : 0 <= one_if rc) by (destruct rc; cbn; lia).
  rewrite (mv_sig _ _ _ M1) in M2. pose proof (moves_trans _ _ _ _ _ M1 M2) as M3.
  assert (Hend : forall t s3, t = <[l := with_refs (e_refs e + one_if rc) (with_user u e)]>
      (sig (h_pool s)) -> moves s t s3 -> h_err s3 = h_err s2 ->
    runs (hret tt) s3 (fun _ s' => runs (hret rc) s' (attached s l e))).
  { intros t s3 -> M E3. apply runs_ret, runs_ret. split; [|by exists u].
    destruct rc; cbn in *; by rewrite E3. }
  destruct (decide (a = l)) as [->|N].
  - rewrite El in Ea. injection Ea as <-. rewrite insert_insert_eq in M3. cbn [e_refs with_refs] in M3.
    eapply runs_decref; [apply M3|by rewrite (mv_sig _ _ _ M3), lookup_insert_eq| |]; cbn [e_refs with_refs].
    { lia. }
    intros _ s3 M4 E4. eapply Hend; [|exact (moves_trans _ _ _ _ _ M3 M4)|done].
    rewrite (mv_sig _ _ _ M3), insert_insert_eq. f_equal. unfold with_refs, with_user. cbn. f_equal. lia.
  - eapply runs_decref; [apply M3| | |].
    { by rewrite (mv_sig _ _ _ M3), lookup_insert_ne, lookup_insert_eq. } { cbn. lia. }
    intros _ s3 M4 E4. eapply Hend; [|exact (moves_trans _ _ _ _ _ M3 M4)|done].
    rewrite (mv_sig _ _ _ M3), (insert_insert_ne _ l a), insert_insert_eq by done.
    cbn. replace (e_refs ea + 1 - 1) with (e_refs ea) by lia.
    rewrite with_refs_refs, with_refs_id. apply insert_id. by rewrite lookup_insert_ne.
Qed.

Lemma attached_keeps s0 s l e rc s' : keeps s0 s -> attached s l e rc s' -> attached s0 l e rc s'.
Proof.
  intros K (S & u & M & Hu). split; [done|]. exists u. split; [|done].
  rewrite <- (kp_sig _ _ K). destruct M as [M1 M2 M3 M4], K as [_ _ K3 K4].
  split; [done|done|congruence..].
Qed.

Lemma runs_bind_assoc {A B C} (c : HM A) (f : A -> HM B) (k : B -> HM C) s Q :
  runs (hbind c f) s (fun b s' => runs (k b) s' Q) ->
  runs (hbind c (fun a => hbind (f a) k)) s Q.
Proof.
  intros Hr. apply runs_bind in Hr. destruct Hr as (a & s' & E & HQ). exists a, s'.
  by rewrite <- hbind_assoc.
Qed.

Lemma np_attach_runs x l e s : ready s -> h_fid s = Some l -> sig (h_pool s) !! l = Some e ->
  e_aname e = true -> runs (np_attach srv x) s (attached s l e).
Proof.
  intros [Ho He _] Hf El Ha. unfold np_attach. apply runs_bind, runs_reqfid.
  apply runs_bind. eapply runs_mono; [apply authrequired_runs|]. intros req s1 (K1 & E1 & _).
  rewrite Hf. pose proof (kp_ok _ _ K1 Ho) as Ho1.
  assert (El1 : sig (h_pool s1) !! l = Some e) by (by rewrite (kp_sig _ _ K1)).
  assert (Hk : forall h, runs h s1 (attached s1 l e) -> runs h s1 (attached s l e)).
  { intros h Hr. eapply runs_mono; [exact Hr|]. intros rc s'. by apply attached_keeps. }
  apply Hk. clear Hk. pose proof (moves_self_at s1 l e Ho1 El1) as M0.
  apply runs_bind. destruct (tattach_afid x =? NOFID).
  - apply runs_ret, runs_bind_assoc.
    eapply runs_mono; [apply (attach_body_runs x l None req e s1); [done..|congruence]|].
    intros rc s2 HA. by apply runs_bind, runs_ret, runs_ret.
  - apply runs_bind, runs_find; [done| |].
    + intros a ea s2 Ea _ _ M2 E2. apply runs_ret, runs_bind_assoc.
      assert (El2 : sig (h_pool s2) !! l =
        Some (if decide (a = l) then with_refs (e_refs ea + 1) ea else e)).
      { rewrite (mv_sig _ _ _ M2). destruct (decide (a = l)) as [->|N].
        - apply lookup_insert_eq. - by rewrite lookup_insert_ne. }
      eapply runs_mono; [apply (attach_body_runs x l (Some a) req _ s2 (mv_ok _ _ _ M2) El2)|].
      * destruct (decide (a = l)) as [->|]; [|done]. rewrite El1 in Ea. by injection Ea as <-.
      * intros ? [= <-]. eapply moves_live; [exact M2|]. rewrite lookup_insert_eq. eauto.
      * congruence.
      * intros rc s3 HA. by apply (drop_afid_runs s1 a ea l e rc s2 s3).
    + intros s2 _ M2 E2. apply runs_bind, runs_uerror, runs_ret, runs_ret.
      rewrite (mv_sig _ _ _ M0) in M2. eapply attached_fail; [|done].
      eapply moves_keeps; [exact M2|apply keeps_err].
Qed.

Lemma np_attach_nofid x s : ready s -> h_fid s = None ->
  runs (np_attach srv x) s (fun rc s' => rc = None /\ keeps s s' /\ h_err s' <> 0).
Proof.
  intros [Ho He _] Hf. unfold np_attach. apply runs_bind, runs_reqfid.
  apply runs_bind. eapply runs_mono; [apply authrequired_runs|]. intros req s1 (K1 & E1 & _).
  rewrite Hf. apply runs_fail. split; [done|]. split; [|done]. eapply keeps_trans; [exact K1|apply keeps_err].
Qed.

(** ** Auth *)

(** The reply to a Tauth, also when none is needed. *)
Definition auth_served (rc : option Npfcall) (s' : hstate) : Prop :=
  served Rauth rc s' \/ served Rlerror rc s'.

Lemma np_auth_nofid x s : ready s -> h_fid s = None ->
  runs (np_auth srv x) s (fun rc s' => keeps s s' /\ auth_served rc s').
Proof.
  intros [Ho He _] Hf. unfold np_auth. apply runs_bind, runs_reqfid.
  apply runs_bind. eapply runs_mono; [apply authrequired_runs|]. intros req s1 (K1 & E1 & _).
  destruct req; cbn [negb].
  - rewrite Hf. apply runs_fail. split; [|by left]. eapply keeps_trans; [exact K1|apply keeps_err].
  - eapply runs_mono; [apply (neutral_create (C_rlerror ENOENT) Rlerror)|]; [|done..|congruence|].
    { split; [by repeat constructor|]. split; [done|]. done. }
    intros rc s2 [K2 S2]. split; [by eapply keeps_trans|by right].
Qed.

(** An auth gives its fid a second reference as soon as one is required, also
    when it fails afterwards. *)
Lemma np_auth_runs x l e s : ready s -> h_fid s = Some l -> sig (h_pool s) !! l = Some e ->
  runs (np_auth srv x) s (fun rc s' => auth_served rc s' /\
    (keeps s s' /\ (rc = None \/ served Rlerror rc s') \/
     has_auth srv = true /\
     exists u, moves s (<[l := with_refs (e_refs e + 1) (with_user u e)]> (sig (h_pool s))) s' /\
       (rc = None \/ u = true))).
Proof.
  intros [Ho He _] Hf El. unfold np_auth. apply runs_bind, runs_reqfid.
  apply runs_bind. eapply runs_mono; [apply authrequired_runs|]. intros req s1 (K1 & E1 & Hreq).
  destruct req; cbn [negb].
  2:{ eapply runs_mono; [apply (neutral_create (C_rlerror ENOENT) Rlerror)|]; [|done..|congruence|].
      { split; [by repeat constructor|]. split; [done|]. done. }
      intros rc s2 [K2 S2]. split; [by right|]. left. split; [by eapply keeps_trans|by right]. }
  rewrite Hf. apply runs_bind.
  eapply runs_incref; [by apply (kp_ok _ _ K1)|by rewrite (kp_sig _ _ K1)|].
  rewrite (kp_sig _ _ K1). intros s2 M2 E2.
  set (e2 := with_refs (e_refs e + 1) e) in *.
  assert (M2' : moves s (<[l := with_user (e_user e2) e2]> (sig (h_pool s))) s2).
  { destruct M2 as [? ? ? ?], K1 as [_ _ ? ?]. split; [done| |congruence..]. by destruct e. }
  assert (Hend : forall rc u s3, auth_served rc s3 -> (rc = None \/ u = true) ->
    moves s (<[l := with_user u e2]> (sig (h_pool s))) s3 ->
    auth_served rc s3 /\ (keeps s s3 /\ (rc = None \/ served Rlerror rc s3) \/
     has_auth srv = true /\ exists u, moves s (<[l := with_refs (e_refs e + 1) (with_user u e)]> (sig (h_pool s))) s3 /\
       (rc = None \/ u = true))).
  { intros rc u s3 S3 Hu M3. split; [done|]. right. split; [by apply Hreq|]. by exists u. }
  eapply find_user_runs; [by left|exact M2'|constructor|congruence|]. intros o s3 M3 E3 _.
  destruct (o_ptr o) as [u|]; [|apply runs_ret; eapply Hend; [by left|by left|exact M3]].
  apply runs_bind. eapply runs_put_at; [exact M3|done|]. intros f s4 Ef M4 E4 _.
  assert (Et : entry_of (set_type Qtauth f) = with_user true e2) by exact Ef. rewrite Et in M4.
  apply runs_bind, runs_call_ok; [|done|done|].
  { repeat constructor. eapply moves_live; [exact M4|]. rewrite lookup_insert_eq. eauto. }
  intros o2 s5 K5 Eo2 E5. pose proof (moves_keeps _ _ _ _ M4 K5) as M5. cbn [failed] in E5.
  destruct (Z.eqb_spec (o_int o2) 0) as [Hi|Hi].
  { apply runs_ret. eapply Hend; [by left|by left|exact M5]. }
  apply runs_bind. rewrite Eo2 in Hi. 
  pose proof (fs_startauth (h_world s4) {| sc_op := Op_startauth; sc_fids := [l]; sc_args := [] |} eq_refl Hi) as Hq.
  rewrite <- Eo2 in Hq. rewrite Hq. exists tt, s5. split; [done|].
  eapply runs_mono; [apply (neutral_create (C_rauth (o_qid o2)) Rauth)|]; [|done..|congruence|].
  { split; [by repeat constructor|]. split; [done|]. done. }
  intros rc s6 [K6 S6]. eapply Hend; [by left| |by eapply moves_keeps]. by right.
Qed.
End Handlers.
