(* ===== verification/FcallSpec.v ===== *)
(** * Properties of the request handlers (libnpfs/fcall.c)

    Requests that name no fid, and the read-only check of exports. *)
From S2P Require Import Prelude Cbuf Protocol Create Wire Builders Codec CodecSpec Npstring Fidpool.
From S2P Require Import Replies Fcall Account Sample Handlers.
From stdpp Require Import list gmap.
#[local] Open Scope Z_scope.

Section Spec.
Context `{CHeap} `{SrvEnv}.
Variable srv : Npsrv.

(** The request is on a fid that is in the table. *)
Definition on (s : hstate) (l : loc) (f : Npfid) : Prop :=
  h_fid s = Some l /\ fids (h_pool s) !! l = Some f.

Lemma get_fid_run s l f : fids (h_pool s) !! l = Some f -> get_fid l s = Ret (f, s).
Proof.
  intros E. unfold get_fid, hlift, load_fid. rewrite E. cbn. by destruct s.
Qed.

(** ** Handlers that stop before any call *)

Lemma on_fid_none rofs ctl fs s : h_fid s = None ->
  on_fid rofs ctl fs s = Ret (None, with_err EIO s).
Proof. intros E. unfold on_fid, hbind, reqfid. cbn. by rewrite E. Qed.

Lemma on_fid_ro rofs ctl fs s l f : on s l f -> rofs f = true ->
  on_fid rofs ctl fs s = Ret (None, with_err EROFS s).
Proof.
  intros [E1 E2] Hr. unfold on_fid, hbind, reqfid. cbn. rewrite E1.
  rewrite (get_fid_run _ _ _ E2). cbn. by rewrite Hr.
Qed.

(** A request on a fid the client never had.  Every handler of a request on
    a fid fails with [EIO] and makes no call at all. *)
Theorem handlers_without_fid s : h_fid s = None ->
  Forall (fun h => h s = Ret (None, with_err EIO s))
    [np_statfs srv; np_readlink srv; np_clunk srv; np_remove srv] /\
  (forall x, np_walk srv x s = Ret (None, with_err EIO s)) /\
  (forall x, np_read srv x s = Ret (None, with_err EIO s)) /\
  (forall x, np_write srv x s = Ret (None, with_err EIO s)) /\
  (forall x, np_lopen srv x s = Ret (None, with_err EIO s)) /\
  (forall x, np_lcreate srv x s = Ret (None, with_err EIO s)) /\
  (forall x, np_rename srv x s = Ret (None, with_err EIO s)) /\
  (forall x, np_getattr srv x s = Ret (None, with_err EIO s)) /\
  (forall x, np_setattr srv x s = Ret (None, with_err EIO s)) /\
  (forall x, np_xattrwalk srv x s = Ret (None, with_err EIO s)) /\
  (forall x, np_readdir srv x s = Ret (None, with_err EIO s)) /\
  (forall x, np_link srv x s = Ret (None, with_err EIO s)) /\
  (forall x, np_renameat srv x s = Ret (None, with_err EIO s)) /\
  (forall x, np_unlinkat srv x s = Ret (None, with_err EIO s)).
Proof.
  intros E.
  split.
  { repeat apply Forall_cons_2; [by apply on_fid_none|by apply on_fid_none| | |by apply Forall_nil_2];
      unfold np_clunk, np_remove, drop_reqfid, hbind, reqfid; cbn; rewrite E; cbn;
      unfold with_err; by rewrite E. }
  repeat (apply conj); intros; try (by apply on_fid_none).
  all: unfold np_walk, np_read, np_write, np_rename, np_xattrwalk, np_readdir, np_link,
    np_renameat, hbind, reqfid; cbn; by rewrite E.
Qed.

(** ** Handlers that look a second fid up *)

Lemma hbind_inv {A B} (c : HM A) (k : A -> HM B) s b s2 :
  hbind c k s = Ret (b, s2) -> exists a s1, c s = Ret (a, s1) /\ k a s1 = Ret (b, s2).
Proof. unfold hbind. destruct (c s) as [[a s1]| |]; cbn; try done. intros E. by exists a, s1. Qed.

Lemma hlift_inv {A} (c : Npfidpool -> res (A * Npfidpool)) s a s' : hlift c s = Ret (a, s') ->
  h_calls s' = h_calls s /\ h_authuser s' = h_authuser s /\ h_fid s' = h_fid s /\ h_world s' = h_world s.
Proof. unfold hlift. destruct (c (h_pool s)) as [[b q]| |]; cbn; try done. by intros [= <- <-]. Qed.

(** The table holds the same fids with the same flags. *)
Definition same_flags (q q' : Npfidpool) : Prop := forall l, flags <$> fids q' !! l = flags <$> fids q !! l.

Lemma upd_fid_flags l g q q' : (forall f, flags (g f) = flags f) -> upd_fid l g q = Ret q' -> same_flags q q'.
Proof.
  intros Hg. unfold upd_fid, load_fid. destruct (fids q !! l) as [f|] eqn:E; cbn; [|done]. intros [= <-] l'. cbn.
  destruct (decide (l' = l)) as [->|Hne]; [|by rewrite lookup_insert_ne]. rewrite lookup_insert_eq, E. cbn. by rewrite Hg.
Qed.

Lemma same_flags_refl q : same_flags q q.
Proof. done. Qed.

Lemma same_flags_trans q q1 q2 : same_flags q q1 -> same_flags q1 q2 -> same_flags q q2.
Proof. intros H1 H2 l. by rewrite H2, H1. Qed.

Lemma optimize_flags i l q q' : optimize_fid i l q = Ret q' -> same_flags q q'.
Proof.
  unfold optimize_fid. destruct (load_fid q l) as [f| |]; cbn [res_bind]; try done.
  destruct (upd_opt (next f) _ q) as [q1| |] eqn:E1; cbn [res_bind]; try done.
  assert (Hq1 : same_flags q q1).
  { unfold upd_opt in E1. destruct (next f); [by eapply upd_fid_flags; [|exact E1]|by injection E1 as <-]. }
  destruct (prev f) as [y|]; [|done]. destruct (upd_fid y _ q1) as [q2| |] eqn:E2; cbn [res_bind]; try done.
  apply upd_fid_flags in E2; [|done]. destruct (upd_fid l _ q2) as [q3| |] eqn:E3; cbn [res_bind]; try done.
  apply upd_fid_flags in E3; [|done]. destruct (load_head q3 i) as [head| |]; cbn [res_bind]; try done.
  destruct (upd_fid l _ q3) as [q4| |] eqn:E4; cbn [res_bind]; try done. apply upd_fid_flags in E4; [|done].
  destruct head as [z|]; [|done]. destruct (upd_fid z _ q4) as [q5| |] eqn:E5; cbn [res_bind]; try done.
  apply upd_fid_flags in E5; [|done]. intros [= <-].
  exact (same_flags_trans _ _ _ (same_flags_trans _ _ _ (same_flags_trans _ _ _ (same_flags_trans _ _ _ Hq1 E2) E3) E4) E5).
Qed.

Lemma fid_find_flags n q o q' : np_fid_find n q = Ret (o, q') -> same_flags q q'.
Proof.
  unfold np_fid_find, lookup_fid. destruct (load_head q _) as [head| |]; cbn [res_bind]; try done.
  destruct (lookup_chain _ head n q) as [[l|]| |]; cbn [res_bind]; try done; [|by intros [= <- <-]].
  assert (Hinc : forall q1, same_flags q q1 -> (let! q := np_fid_incref l q1 in Ret (Some l, q)) = Ret (o, q') -> same_flags q q').
  { intros q1 H1. destruct (np_fid_incref l q1) as [q2| |] eqn:E; cbn [res_bind]; try done. intros [= _ <-].
    eapply same_flags_trans; [exact H1|]. by eapply upd_fid_flags; [|exact E]. }
  case_bool_decide; cbn [res_bind]; [by apply Hinc|].
  destruct (optimize_fid _ l q) as [q1| |] eqn:E; cbn [res_bind]; try done. apply Hinc. by eapply optimize_flags.
Qed.

Lemma drop_fid_inv o s u s' : drop_fid srv o s = Ret (u, s') ->
  h_calls s' = h_calls s /\ h_world s' = h_world s /\ h_err s' = h_err s.
Proof.
  unfold drop_fid, fid_decref. destruct o as [l|]; [|by intros [= <- <-]].
  intros (o & s1 & E1 & [= <- <-])%hbind_inv. apply hbind_inv in E1 as (g & s2 & E2 & [= <- <-]).
  unfold hlift in E2. destruct (np_fid_decref _ l _) as [[b q]| |]; cbn in E2; try done. by injection E2 as <- <-.
Qed.

(** A handler that looks up a second fid and then refuses: no call is made. *)
Lemma second_fid_refused n s (body : loc -> HM (option Npfcall)) rc s' :
  (forall d q, np_fid_find n (h_pool s) = Ret (Some d, q) -> body d (with_pool q s) = Ret (None, with_err EROFS (with_pool q s))) ->
  hbind (fid_find n) (fun d => hbind (match d with None => fail EIO | Some dfid => body dfid end)
    (fun rc => hbind (drop_fid srv d) (fun _ => hret rc))) s = Ret (rc, s') ->
  rc = None /\ h_err s' = (if np_fid_find n (h_pool s) is Ret (Some _, _) then EROFS else EIO) /\
  h_calls s' = h_calls s /\ h_world s' = h_world s.
Proof.
  intros Hbody (d & s1 & E1 & (rc1 & s2 & E2 & (u & s3 & E3 & [= <- <-])%hbind_inv)%hbind_inv)%hbind_inv.
  unfold fid_find, hlift in E1. destruct (np_fid_find n (h_pool s)) as [[o q]| |] eqn:Ef; cbn in E1; try done.
  injection E1 as <- <-. apply drop_fid_inv in E3 as (C3 & W3 & Er3). rewrite C3, W3, Er3. destruct o as [dfid|].
  - rewrite (Hbody dfid q eq_refl) in E2. injection E2 as <- <-. done.
  - injection E2 as <- <-. done.
Qed.

Lemma found_flags n q o q' l f : np_fid_find n q = Ret (o, q') -> fids q !! l = Some f ->
  exists f', fids q' !! l = Some f' /\ flags f' = flags f.
Proof.
  intros E Hf. pose proof (fid_find_flags _ _ _ _ E l) as Hfl. rewrite Hf in Hfl. cbn in Hfl.
  destruct (fids q' !! l) as [f'|]; [|done]. injection Hfl as Hfl. by exists f'.
Qed.

(** C21: read-only exports.  On a fid of a read-only export, Tlcreate, Tsymlink,
    Tmknod, Tsetattr, Tfsync, Tlock, Tgetlock, Tmkdir, Tunlinkat, Trenameat (of the
    old directory), a Twrite, and a Tlopen for writing fail with [EROFS] before any
    call and change nothing; a Tremove fails the same and only gives the fid back;
    a Trename of the fid and a Tlink to it fail without any call to the file system
    ([EIO] if the directory of the Trename is unknown).  That is every handler that
    checks the flag: np_xattrcreate does not, np_link does not check the
    directory, and np_rename and np_renameat do not check the new directory. *)
Theorem read_only_fid s l f : on s l f -> bit (flags f) FID_FLAGS_ROFS = true ->
  ((forall x, np_lcreate srv x s = Ret (None, with_err EROFS s)) /\
   (forall x, np_symlink srv x s = Ret (None, with_err EROFS s)) /\
   (forall x, np_mknod srv x s = Ret (None, with_err EROFS s)) /\
   (forall x, np_setattr srv x s = Ret (None, with_err EROFS s)) /\
   (forall x, np_fsync srv x s = Ret (None, with_err EROFS s)) /\
   (forall x, np_lock srv x s = Ret (None, with_err EROFS s)) /\
   (forall x, np_getlock srv x s = Ret (None, with_err EROFS s)) /\
   (forall x, np_mkdir srv x s = Ret (None, with_err EROFS s)) /\
   (forall x, np_unlinkat srv x s = Ret (None, with_err EROFS s)) /\
   (forall x, np_renameat srv x s = Ret (None, with_err EROFS s)) /\
   (forall x, bit (type f) Qtauth = false -> np_write srv x s = Ret (None, with_err EROFS s)) /\
   (forall x, bit (int32 (tlopen_flags x)) O_WRONLY || bit (int32 (tlopen_flags x)) O_RDWR = true ->
      np_lopen srv x s = Ret (None, with_err EROFS s))) /\
  np_remove srv s = hbind (drop_reqfid srv) (fun _ => hret None) (with_err EROFS s) /\
  (forall x rc s', np_rename srv x s = Ret (rc, s') ->
     rc = None /\ h_err s' = (if np_fid_find (trename_dfid x) (h_pool s) is Ret (Some _, _) then EROFS else EIO) /\
     h_calls s' = h_calls s /\ h_world s' = h_world s) /\
  (forall t dfid x q rc s', h_fid t = Some dfid -> fids (h_pool t) !! l = Some f ->
     np_fid_find (tlink_fid x) (h_pool t) = Ret (Some l, q) -> np_link srv x t = Ret (rc, s') ->
     rc = None /\ h_err s' = EROFS /\ h_calls s' = h_calls t /\ h_world s' = h_world t).
Proof.
  intros Hon Hr. assert (Hro : ro f = true) by done.
  assert (Hsame : forall f1, flags f1 = flags f -> ro f1 = true) by (intros f1 Ef; unfold ro; by rewrite Ef).
  split; [|split; [|split]].
  - repeat (apply conj); intros; try (by apply (on_fid_ro _ _ _ _ _ _ Hon Hro)).
    + destruct Hon as [E1 E2]. unfold np_write, hbind, reqfid. cbn [res_bind]. rewrite E1. cbv beta.
      rewrite (get_fid_run _ _ _ E2). cbn. by rewrite H1, Hr.
    + apply (on_fid_ro _ _ _ _ _ _ Hon). by rewrite Hro, H1.
  - destruct Hon as [E1 E2]. unfold np_remove, hbind at 1, reqfid at 1. cbn [res_bind]. rewrite E1. unfold hbind at 1, hbind at 1.
    rewrite (get_fid_run _ _ _ E2). cbn [res_bind]. by rewrite Hr.
  - intros x rc s' E. destruct Hon as [E1 E2]. unfold np_rename, hbind at 1, reqfid in E. cbn [res_bind] in E. rewrite E1 in E.
    refine (second_fid_refused _ s (fun dfid => hbind (get_fid l) (fun f => if ro f then fail EROFS
      else if bit (type f) Qttmp then fail EPERM
      else fs_call srv Op_rename (user f) (-1) ENOSYS [l; dfid] [AS (trename_name x)])) rc s' _ E). intros d q Ef.
    destruct (found_flags _ _ _ _ l f Ef E2) as (f1 & Ef1 & Hfl).
    unfold hbind at 1. rewrite (get_fid_run (with_pool q s) l f1 Ef1). cbn [res_bind]. by rewrite (Hsame f1 Hfl).
  - intros t dfid x q rc s' Ht Ef Efind E. unfold np_link, hbind at 1, reqfid in E. cbn [res_bind] in E. rewrite Ht in E.
    assert (Hs : rc = None /\ h_err s' = (if np_fid_find (tlink_fid x) (h_pool t) is Ret (Some _, _) then EROFS else EIO) /\
      h_calls s' = h_calls t /\ h_world s' = h_world t); [|by rewrite Efind in Hs].
    refine (second_fid_refused _ t (fun l => hbind (get_fid l) (fun f => if ro f then fail EROFS
      else if bit (type f) Qttmp then fail EPERM
      else fs_call srv Op_link (user f) (-1) ENOSYS [dfid; l] [AS (tlink_name x)])) rc s' _ E). intros d q' Eq. rewrite Efind in Eq. injection Eq as <- <-.
    destruct (found_flags _ _ _ _ l f Efind Ef) as (f1 & Ef1 & Hfl).
    unfold hbind at 1. rewrite (get_fid_run (with_pool q t) l f1 Ef1). cbn [res_bind]. by rewrite (Hsame f1 Hfl).
Qed.
End Spec.

Lemma handlers_without_fid_witness :
  h_fid (@sample_state sample_env tt None) = None /\
  @np_clunk big_heap sample_env sample_srv (@sample_state sample_env tt None) =
    Ret (None, with_err EIO (@sample_state sample_env tt None)).
Proof.
  split; [reflexivity|].
  pose proof (@handlers_without_fid big_heap sample_env sample_srv (@sample_state sample_env tt None) eq_refl) as [Hf _].
  exact (Forall_inv (Forall_inv_tail (Forall_inv_tail Hf))).
Defined.

(** A connection whose fid 5 is of a read-only export. *)
Definition ro_fid : Npfid := set_flags FID_FLAGS_ROFS sample_fid.

Definition ro_state `{SrvEnv} (w : world) : hstate :=
  with_pool (set_fids (<[1%positive := ro_fid]> (fids sample_pool)) sample_pool)
    (sample_state w (Some 1%positive)).

Lemma read_only_fid_witness : bit (flags ro_fid) FID_FLAGS_ROFS = true /\
  forall x, @np_mkdir sample_env sample_srv x (@ro_state sample_env tt) =
    Ret (None, with_err EROFS (@ro_state sample_env tt)).
Proof.
  split; [reflexivity|].
  assert (Hon : on (@ro_state sample_env tt) 1%positive ro_fid) by (split; vm_compute; reflexivity).
  destruct (@read_only_fid big_heap sample_env sample_srv (@ro_state sample_env tt) 1%positive ro_fid Hon eq_refl) as [Hall _].
  apply Hall.
Defined.
