(* ===== verification/Srv.v ===== *)
(** * Request processing (libnpfs/srv.c, libnpfs/conn.c)

    What happens to one request between the transport and the reply: the check
    of the message type, the lookup of the fid ([np_preprocess_request]), the
    handler ([np_process_request]), the statistics, the end of the request
    ([np_postprocess_request]) and the responses.  A [switch] over the message
    type is a table of cases; each case reads the member of the union that
    belongs to the type, and reading another one is [UB]. *)
From S2P Require Import Prelude Cbuf Protocol Create Npstring Fidpool Replies Fcall.
From stdpp Require Import list gmap.
#[local] Open Scope Z_scope.

Definition EINTR : Z := 4.

(** ** Statistics *)

Definition NPSTATS_RWCOUNT_BINS : Z := 12.

Record Npstats := {
  st_nreqs : list Z;
  st_rcount : list Z;
  st_wcount : list Z;
  st_rbytes : Z;
  st_wbytes : Z;
}.

Definition _floorlog2 (i : Z) : Z :=
  let '(i, j) := if 2 ^ 16 <=? i then (Z.shiftr i 16, 16) else (i, 0) in
  let '(i, j) := if 2 ^ 8 <=? i then (Z.shiftr i 8, u32 (j + 8)) else (i, j) in
  let '(i, j) := if 2 ^ 4 <=? i then (Z.shiftr i 4, u32 (j + 4)) else (i, j) in
  let '(i, j) := if 2 ^ 2 <=? i then (Z.shiftr i 2, u32 (j + 2)) else (i, j) in
  if 2 ^ 1 <=? i then u32 (j + 1) else j.

Definition _hbin (val : Z) : Z :=
  let i := u32 (val / 1024) in
  let j := if i <? 4 then 0 else u32 (_floorlog2 i - 1) in
  if j <? NPSTATS_RWCOUNT_BINS then j else NPSTATS_RWCOUNT_BINS - 1.

(** [counts[i]++], an access to an array. *)
Definition bump (counts : list Z) (i : Z) : res (list Z) :=
  if 0 <=? i then
    match counts !! Z.to_nat i with
    | Some n => Ret (<[Z.to_nat i := u64 (n + 1)]> counts)
    | None => UB
    end
  else UB.

Definition update_stats (type rbytes wbytes : Z) (st : Npstats) : res Npstats :=
  let! (rc, rb) :=
    if 0 <? rbytes then
      let! c := bump (st_rcount st) (_hbin rbytes) in Ret (c, u64 (st_rbytes st + rbytes))
    else Ret (st_rcount st, st_rbytes st) in
  let! (wc, wb) :=
    if 0 <? wbytes then
      let! c := bump (st_wcount st) (_hbin wbytes) in Ret (c, u64 (st_wbytes st + wbytes))
    else Ret (st_wcount st, st_wbytes st) in
  let! nr := bump (st_nreqs st) type in
  Ret {| st_nreqs := nr; st_rcount := rc; st_wcount := wc;
         st_rbytes := rb; st_wbytes := wb |}.

(** ** The receive path *)

(** The messages the read thread takes from a client. *)
Definition allowed_types : list Z :=
  [Tlerror; Tstatfs; Tlopen; Tlcreate; Tsymlink; Tmknod; Trename; Treadlink; Tgetattr; Tsetattr;
   Txattrwalk; Txattrcreate; Treaddir; Tfsync; Tlock; Tgetlock; Tlink; Tmkdir; Trenameat;
   Tunlinkat; Tversion; Tauth; Tattach; Terror; Tflush; Twalk; Topen; Tcreate; Tread; Twrite;
   Tclunk; Tremove; Tstat; Twstat].

Definition np_check_allowed (fc : Npfcall) : bool := bool_decide (fc_type fc ∈ allowed_types).

(** The case of a [switch] that a value selects. *)
Fixpoint switch {A} (cases : list (Z * A)) (v : Z) : option A :=
  match cases with
  | [] => None
  | (c, a) :: cases => if v =? c then Some a else switch cases v
  end.

(** [case T: req->fid = np_fid_find (conn, tc->u.t.fid)]: the number looked up. *)
Definition find_cases : list (Z * (Npfcall_u -> option Z)) := [
  (Tstatfs, fun u => match u with U_tstatfs x => Some (tstatfs_fid x) | _ => None end);
  (Tlopen, fun u => match u with U_tlopen x => Some (tlopen_fid x) | _ => None end);
  (Tlcreate, fun u => match u with U_tlcreate x => Some (tlcreate_fid x) | _ => None end);
  (Tsymlink, fun u => match u with U_tsymlink x => Some (tsymlink_fid x) | _ => None end);
  (Tmknod, fun u => match u with U_tmknod x => Some (tmknod_fid x) | _ => None end);
  (Trename, fun u => match u with U_trename x => Some (trename_fid x) | _ => None end);
  (Treadlink, fun u => match u with U_treadlink x => Some (treadlink_fid x) | _ => None end);
  (Tgetattr, fun u => match u with U_tgetattr x => Some (tgetattr_fid x) | _ => None end);
  (Tsetattr, fun u => match u with U_tsetattr x => Some (tsetattr_fid x) | _ => None end);
  (Txattrwalk, fun u => match u with U_txattrwalk x => Some (txattrwalk_fid x) | _ => None end);
  (Txattrcreate, fun u => match u with U_txattrcreate x => Some (txattrcreate_fid x) | _ => None end);
  (Treaddir, fun u => match u with U_treaddir x => Some (treaddir_fid x) | _ => None end);
  (Tfsync, fun u => match u with U_tfsync x => Some (tfsync_fid x) | _ => None end);
  (Tlock, fun u => match u with U_tlock x => Some (tlock_fid x) | _ => None end);
  (Tgetlock, fun u => match u with U_tgetlock x => Some (tgetlock_fid x) | _ => None end);
  (Tlink, fun u => match u with U_tlink x => Some (tlink_dfid x) | _ => None end);
  (Tmkdir, fun u => match u with U_tmkdir x => Some (tmkdir_fid x) | _ => None end);
  (Twalk, fun u => match u with U_twalk x => Some (twalk_fid x) | _ => None end);
  (Tread, fun u => match u with U_tread x => Some (tread_fid x) | _ => None end);
  (Twrite, fun u => match u with U_twrite x => Some (twrite_fid x) | _ => None end);
  (Tclunk, fun u => match u with U_tclunk x => Some (tclunk_fid x) | _ => None end);
  (Tremove, fun u => match u with U_tremove x => Some (tremove_fid x) | _ => None end);
  (Trenameat, fun u => match u with U_trenameat x => Some (trenameat_olddirfid x) | _ => None end);
  (Tunlinkat, fun u => match u with U_tunlinkat x => Some (tunlinkat_dirfid x) | _ => None end)].

Section Srv.
Context `{CHeap} `{SrvEnv}.
Variable srv : Npsrv.

Notation "'do' x <- c ; k" := (hbind c (fun x => k))
  (at level 100, x name, c at level 100, k at level 200, right associativity).

Definition stuck {A} : HM A := fun _ => UB.
Definition np_assert_fail {A} : HM A := fun _ => Abort.

(** [case Tauth] and [case Tattach]: a new fid with its [aname]. *)
Definition create_reqfid (tc : Npfcall) (n : Z) (nm : Npstr) : HM unit :=
  do o <- fid_create srv n;
  do _ <- set_reqfid o;
  match o with
  | None => hret tt
  | Some l =>
      do a <- (fun s => let! a := np_strdup (fc_pkt tc) nm in Ret (a, s));
      do _ <- put_fid l (set_aname a);
      match a with
      | None => drop_reqfid srv
      | Some _ => hret tt
      end
  end.

(** [np_tpool_select] as far as the fid is concerned. *)
Definition np_tpool_select : HM unit :=
  do o <- reqfid;
  match o with
  | None => hret tt
  | Some l =>
      do f <- get_fid l;
      match tpool f with
      | Some _ => hret tt
      | None =>
          do o <- call Op_tpool_select [l] [];
          match o_ptr o with
          | Some t => put_fid l (set_tpool (Some t))
          | None => hret tt
          end
      end
  end.

Definition np_preprocess_request (tc : Npfcall) : HM unit :=
  match switch find_cases (fc_type tc) with
  | Some number =>
      match number (fc_u tc) with
      | Some n => do o <- fid_find n; set_reqfid o
      | None => stuck
      end
  | None =>
      if fc_type tc =? Tauth then
        match fc_u tc with
        | U_tauth x => create_reqfid tc (tauth_afid x) (tauth_aname x)
        | _ => stuck
        end
      else if fc_type tc =? Tattach then
        match fc_u tc with
        | U_tattach x =>
            do _ <- create_reqfid tc (tattach_fid x) (tattach_aname x);
            np_tpool_select
        | _ => stuck
        end
      else hret tt
  end.

(** ** The handler of each type *)
Definition handlers (tc : Npfcall) : list (Z * (Npfcall_u -> option (HM (option Npfcall)))) := [
  (Tstatfs, fun u => match u with U_tstatfs _ => Some (np_statfs srv) | _ => None end);
  (Tlopen, fun u => match u with U_tlopen x => Some (np_lopen srv x) | _ => None end);
  (Tlcreate, fun u => match u with U_tlcreate x => Some (np_lcreate srv x) | _ => None end);
  (Tsymlink, fun u => match u with U_tsymlink x => Some (np_symlink srv x) | _ => None end);
  (Tmknod, fun u => match u with U_tmknod x => Some (np_mknod srv x) | _ => None end);
  (Trename, fun u => match u with U_trename x => Some (np_rename srv x) | _ => None end);
  (Treadlink, fun u => match u with U_treadlink _ => Some (np_readlink srv) | _ => None end);
  (Tgetattr, fun u => match u with U_tgetattr x => Some (np_getattr srv x) | _ => None end);
  (Tsetattr, fun u => match u with U_tsetattr x => Some (np_setattr srv x) | _ => None end);
  (Txattrwalk, fun u => match u with U_txattrwalk x => Some (np_xattrwalk srv x) | _ => None end);
  (Txattrcreate, fun u => match u with U_txattrcreate x => Some (np_xattrcreate srv x) | _ => None end);
  (Treaddir, fun u => match u with U_treaddir x => Some (np_readdir srv x) | _ => None end);
  (Tfsync, fun u => match u with U_tfsync x => Some (np_fsync srv x) | _ => None end);
  (Tlock, fun u => match u with U_tlock x => Some (np_lock srv x) | _ => None end);
  (Tgetlock, fun u => match u with U_tgetlock x => Some (np_getlock srv x) | _ => None end);
  (Tlink, fun u => match u with U_tlink x => Some (np_link srv x) | _ => None end);
  (Tmkdir, fun u => match u with U_tmkdir x => Some (np_mkdir srv x) | _ => None end);
  (Trenameat, fun u => match u with U_trenameat x => Some (np_renameat srv x) | _ => None end);
  (Tunlinkat, fun u => match u with U_tunlinkat x => Some (np_unlinkat srv x) | _ => None end);
  (Tversion, fun u => match u with U_tversion x => Some (np_version tc x) | _ => None end);
  (Tauth, fun u => match u with U_tauth x => Some (np_auth srv x) | _ => None end);
  (Tattach, fun u => match u with U_tattach x => Some (np_attach srv x) | _ => None end);
  (Twalk, fun u => match u with U_twalk x => Some (np_walk srv x) | _ => None end);
  (Tread, fun u => match u with U_tread x => Some (np_read srv x) | _ => None end);
  (Twrite, fun u => match u with U_twrite x => Some (np_write srv x) | _ => None end);
  (Tclunk, fun u => match u with U_tclunk _ => Some (np_clunk srv) | _ => None end);
  (Tremove, fun u => match u with U_tremove _ => Some (np_remove srv) | _ => None end)].

(** [rc->u.rread.count] after a read, [rc->u.rwrite.count] after a write. *)
Definition io_bytes (type : Z) (rc : option Npfcall) : res (Z * Z) :=
  match rc with
  | None => Ret (0, 0)
  | Some rc =>
      if type =? Tread then
        match fc_u rc with U_rread x => Ret (rread_count x, 0) | _ => UB end
      else if type =? Twrite then
        match fc_u rc with U_rwrite x => Ret (0, rwrite_count x) | _ => UB end
      else Ret (0, 0)
  end.

(** The reply and the bytes read and written.  [Tflush] and unknown types run
    into [NP_ASSERT (0)]. *)
Definition np_process_request (tc : Npfcall) : HM (option Npfcall * (Z * Z)) :=
  do _ <- np_uerror 0;
  match switch (handlers tc) (fc_type tc) with
  | None => np_assert_fail
  | Some handler =>
      match handler (fc_u tc) with
      | None => stuck
      | Some h =>
          do rc <- h;
          fun s => let! n := io_bytes (fc_type tc) rc in Ret ((rc, n), s)
      end
  end.

(** ** Responses *)

Definition STATIC_RLERROR_SIZE : Z := sizeof_Npfcall + 11.
Definition STATIC_RFLUSH_SIZE : Z := sizeof_Npfcall + 7.

(** A local array: its contents are indeterminate. *)
Definition stack_array (n : Z) : list Z := replicate (Z.to_nat n) undef.

(** What is sent for a request with this tag: nothing once its state is
    [REQ_NOREPLY]. *)
Definition np_req_respond (tag : Z) (noreply : bool) (rc : option Npfcall)
  : res (option Npfcall) :=
  match rc with
  | None => Abort
  | Some rc =>
      if noreply then Ret None
      else let! rc := np_set_tag rc tag in Ret (Some rc)
  end.

Definition np_req_respond_error (tag : Z) (noreply : bool) (ecode : Z) : res (option Npfcall) :=
  let! rc := np_create_rlerror_static ecode (stack_array STATIC_RLERROR_SIZE) STATIC_RLERROR_SIZE in
  np_req_respond tag noreply rc.

Definition np_req_respond_flush (tag : Z) (noreply : bool) : res (option Npfcall) :=
  let! rc := np_create_rflush_static (stack_array STATIC_RFLUSH_SIZE) STATIC_RFLUSH_SIZE in
  np_req_respond tag noreply rc.

(** [np_fid_decref_bynum] of the request's connection. *)
Definition fid_decref_bynum (n : Z) : HM unit :=
  hlift (fun q => let! q := np_fid_decref_bynum (fidconf srv) n q in Ret (tt, q)).

(** The repair of the fid accounting for an interrupted operation. *)
Definition fixup_interrupted (tc : Npfcall) : HM unit :=
  if (fc_type tc =? Tclunk) || (fc_type tc =? Tremove) then set_reqfid None
  else if fc_type tc =? Twalk then
    match fc_u tc with
    | U_twalk x =>
        if negb (twalk_fid x =? twalk_newfid x) then fid_decref_bynum (twalk_newfid x) else hret tt
    | _ => stuck
    end
  else hret tt.

Definition np_postprocess_request (tc : Npfcall) (noreply : bool) (rc : option Npfcall)
  : HM (option Npfcall) :=
  do ecode <- np_rerror;
  do _ <- (if ecode =? EINTR then fixup_interrupted tc else hret tt);
  let noreply := noreply || (ecode =? EINTR) in
  do _ <- drop_reqfid srv;
  do _ <- set_reqfid None;
  fun s =>
    let! r := if ecode =? 0 then np_req_respond (fc_tag tc) noreply rc
              else np_req_respond_error (fc_tag tc) noreply ecode in
    Ret (r, s).

(** One request from [np_req_alloc] to the response, in one worker. *)
Definition serve (tc : Npfcall) (noreply : bool) : HM (option Npfcall * (Z * Z)) :=
  do _ <- set_reqfid None;
  do _ <- np_preprocess_request tc;
  do r <- np_process_request tc;
  do out <- np_postprocess_request tc noreply r.1;
  hret (out, r.2).
End Srv.
