(* ===== verification/SrvSpec.v ===== *)
(** * Properties of request processing (libnpfs/srv.c, libnpfs/conn.c)

    The messages that pass the checks of the receive path are the ones that
    [np_process_request] has a handler for, with the union member it reads; and
    one request, from the lookup of its fid to the response, changes the fid
    table as its type says, whatever the file system does. *)
From S2P Require Import Prelude Cbuf Protocol Create Deserialize Wire Builders Codec Safety CodecSpec.
From S2P Require Import Npstring Fidpool Replies Fcall Account Sample Handlers Srv.
From stdpp Require Import list gmap.
#[local] Open Scope Z_scope.

(** ** Requests *)

(** The union member that the code reads for a message of a type. *)
Inductive typed : Z -> Npfcall_u -> Prop :=
| typed_statfs x : typed Tstatfs (U_tstatfs x)
| typed_lopen x : typed Tlopen (U_tlopen x)
| typed_lcreate x : typed Tlcreate (U_tlcreate x)
| typed_symlink x : typed Tsymlink (U_tsymlink x)
| typed_mknod x : typed Tmknod (U_tmknod x)
| typed_rename x : typed Trename (U_trename x)
| typed_readlink x : typed Treadlink (U_treadlink x)
| typed_getattr x : typed Tgetattr (U_tgetattr x)
| typed_setattr x : typed Tsetattr (U_tsetattr x)
| typed_xattrwalk x : typed Txattrwalk (U_txattrwalk x)
| typed_xattrcreate x : typed Txattrcreate (U_txattrcreate x)
| typed_readdir x : typed Treaddir (U_treaddir x)
| typed_fsync x : typed Tfsync (U_tfsync x)
| typed_lock x : typed Tlock (U_tlock x)
| typed_getlock x : typed Tgetlock (U_tgetlock x)
| typed_link x : typed Tlink (U_tlink x)
| typed_mkdir x : typed Tmkdir (U_tmkdir x)
| typed_renameat x : typed Trenameat (U_trenameat x)
| typed_unlinkat x : typed Tunlinkat (U_tunlinkat x)
| typed_version x : typed Tversion (U_tversion x)
| typed_auth x : typed Tauth (U_tauth x)
| typed_attach x : typed Tattach (U_tattach x)
| typed_flush x : typed Tflush (U_tflush x)
| typed_walk x : zlength (twalk_wnames x) = twalk_nwname x -> typed Twalk (U_twalk x)
| typed_read x : 0 <= tread_count x < 2 ^ 32 -> typed Tread (U_tread x)
| typed_write x : 0 <= twrite_count x < 2 ^ 32 -> typed Twrite (U_twrite x)
| typed_clunk x : typed Tclunk (U_tclunk x)
| typed_remove x : typed Tremove (U_tremove x).

(** The union after a parser, whatever the bytes. *)
Definition Yields {A} (g : M A) (P : A -> Prop) : Prop :=
  forall b a b', g b = Ret (a, b') -> P a.

Lemma yields_bind {A B} (g : M A) (k : A -> M B) (P : A -> Prop) (R : B -> Prop) :
  Yields g P -> (forall a, P a -> Yields (k a) R) -> Yields (bind g k) R.
Proof.
  intros Hg Hk b r b' E. unfold bind in E. inv_bind E. destruct a as [a b1].
  eapply Hk; [|exact E]. by eapply Hg.
Qed.

Lemma yields_ret {A} (a : A) (P : A -> Prop) : P a -> Yields (ret a) P.
Proof. intros HP b r b' E. unfold ret in E. by injection E as <- <-. Qed.

Lemma yields_any {A} (g : M A) : Yields g (fun _ => True).
Proof. done. Qed.

Lemma yields_int32 : Yields buf_get_int32 (fun z => 0 <= z < 2 ^ 32).
Proof.
  unfold buf_get_int32. eapply yields_bind; [apply yields_any|]. intros [] _.
  - eapply yields_bind; [apply yields_any|]. intros bs _. apply yields_ret. apply u32_range.
  - apply yields_ret. lia.
Qed.

Lemma yields_int16 : Yields buf_get_int16 (fun z => 0 <= z < 2 ^ 16).
Proof.
  unfold buf_get_int16. eapply yields_bind; [apply yields_any|]. intros [] _.
  - eapply yields_bind; [apply yields_any|]. intros bs _. apply yields_ret. apply u16_range.
  - apply yields_ret. lia.
Qed.

Lemma yields_times {B} (g : M B) n : Yields (for_times n g) (fun l => length l = n).
Proof.
  induction n as [|n IH]; cbn [for_times]; [by apply yields_ret|].
  eapply yields_bind; [apply yields_any|]. intros y _.
  eapply yields_bind; [exact IH|]. intros ys Hl. apply yields_ret. cbn. by rewrite Hl.
Qed.

Definition some_typed (t : Z) (o : option Npfcall_u) : Prop :=
  match o with Some u => typed t u | None => True end.

(** A parser that ends in the constructor of its type. *)
Ltac yields_fields :=
  repeat (eapply yields_bind; [first [apply yields_int32 | apply yields_any]|intros ? ?]);
  apply yields_ret; by constructor.

Lemma got_yields g t : Yields g (typed t) -> Yields (got g) (some_typed t).
Proof. intros Hg. eapply yields_bind; [exact Hg|]. intros u Hu. by apply yields_ret. Qed.

Lemma twalk_yields : Yields get_twalk (some_typed Twalk).
Proof.
  unfold get_twalk. eapply yields_bind; [apply yields_any|]. intros ? _.
  eapply yields_bind; [apply yields_any|]. intros ? _.
  eapply yields_bind; [apply yields_int16|]. intros n Hn.
  destruct (_ <? _); [by apply yields_ret|].
  eapply yields_bind; [apply yields_times|]. intros l Hl. apply yields_ret. constructor.
  cbn beta in *. cbn [twalk_wnames twalk_nwname]. unfold zlength. lia.
Qed.

(** The branch of a chain of tests on constants. *)
Ltac eval_switch :=
  repeat match goal with
  | |- context [if ?a =? ?b then _ else _] =>
      let r := eval vm_compute in (a =? b) in change (a =? b) with r; cbv iota
  end.

Lemma get_body_typed t : t ∈ allowed_types -> Yields (get_body t) (some_typed t).
Proof.
  intros Ht. unfold allowed_types in Ht.
  repeat (apply elem_of_cons in Ht as [->|Ht]); [..|by apply elem_of_nil in Ht].
  all: unfold get_body; eval_switch.
  all: try by apply yields_ret.
  all: try apply twalk_yields.
  all: apply got_yields; match goal with |- Yields ?g _ => unfold g end; yields_fields.
Qed.

Lemma deserialize_typed fc n fc' : np_deserialize fc = Ret (n, fc') -> n <> 0 ->
  fc_type fc' ∈ allowed_types -> typed (fc_type fc') (fc_u fc').
Proof.
  intros E Hn Ha. unfold np_deserialize in E.
  inv_bind E. destruct a as [size b0]. inv_bind E. destruct a as [type b1].
  inv_bind E. destruct a as [tag b2]. inv_bind E. destruct a as [o b3].
  destruct o as [u|]; [|by injection E as <- _].
  assert (Hf : fc_type fc' = type /\ fc_u fc' = u).
  { destruct (buf_check_overflow b3); by injection E as _ <-. }
  destruct Hf as [Et Eu]. rewrite Et, Eu in *. exact (get_body_typed type Ha _ _ _ E3).
Qed.

Section Received.
Context `{CHeap} `{SrvEnv}.
Variable srv : Npsrv.

(** C4: the receive path.  A message that [np_deserialize] accepts and
    [np_check_allowed] admits is a Tflush with its member, which the reader of the
    connection handles itself, or [np_process_request] has a case for its type and
    runs the handler of that case on the union member that the message holds: a
    client cannot run the server into the assertion of [np_process_request], nor a
    handler, nor the fid lookup of [np_preprocess_request], into reading the member
    of another type. *)
Theorem received_requests_typed fc n fc' :
  np_deserialize fc = Ret (n, fc') -> n <> 0 -> np_check_allowed fc' = true ->
  (fc_type fc' = Tflush /\ exists x, fc_u fc' = U_tflush x) \/
  fc_type fc' <> Tflush /\
  (forall g, switch find_cases (fc_type fc') = Some g -> is_Some (g (fc_u fc'))) /\
  exists g h, (fc_type fc', g) ∈ handlers srv fc' /\ g (fc_u fc') = Some h /\
    forall s, np_process_request srv fc' s =
      hbind (np_uerror 0) (fun _ => hbind h (fun rc s => let! k := io_bytes (fc_type fc') rc in Ret ((rc, k), s))) s.
Proof.
  intros E Hn Ha%bool_decide_eq_true. pose proof (deserialize_typed fc n fc' E Hn Ha) as Ht.
  unfold np_process_request. generalize dependent (fc_u fc'). intros u Ht. remember (fc_type fc') as t eqn:Et. clear Et.
  destruct Ht; [..|left; by eauto|idtac|idtac|idtac|idtac|idtac].
  all: right; (split; [done|]); split;
    [intros g Hg; cbn [switch find_cases] in Hg; revert Hg; eval_switch; try (by intros [= <-]); done|].
  all: eexists _, _; (split; [unfold handlers; repeat (first [by left | right])|]); (split; [reflexivity|]).
  all: intros s; cbn [switch handlers]; eval_switch; reflexivity.
Qed.
End Received.

Section Serve.
Context `{CHeap} `{FsOk}.
Variable srv : Npsrv.

(** ** Responses *)

Lemma set_tag_run fc tag : 7 <= zlength (fc_pkt fc) -> exists fc',
  np_set_tag fc tag = Ret fc' /\ fc_tag fc' = u16 tag /\ fc_type fc' = fc_type fc /\
  fc_u fc' = fc_u fc.
Proof.
  intros Hl. unfold np_set_tag. destruct (store_bytes (fc_pkt fc) 5 _) as [pkt| |] eqn:E.
  - eexists. split; [reflexivity|]. done.
  - rewrite store_bytes_ok in E; [done|lia|]. unfold zlength in *. cbn [length]. lia.
  - rewrite store_bytes_ok in E; [done|lia|]. unfold zlength in *. cbn [length]. lia.
Qed.

(** What the client gets for a request that is answered with type [t], when the
    error code is [e]: nothing if the request was flushed or interrupted, else
    one message with the tag of the request, the answer or an Rlerror. *)
Definition answered (tc : Npfcall) (noreply : bool) (t e : Z) (out : option Npfcall) : Prop :=
  if noreply || (e =? EINTR) then out = None
  else exists r, out = Some r /\ fc_tag r = u16 (fc_tag tc) /\
    if e =? 0 then fc_type r = t
    else fc_type r = Rlerror /\ fc_u r = U_rlerror {| rlerror_ecode := u32 e |}.

Lemma respond_run tc noreply t rc s : served t rc s ->
  exists out, (if h_err s =? 0 then np_req_respond (fc_tag tc) (noreply || (h_err s =? EINTR)) rc
    else np_req_respond_error (fc_tag tc) (noreply || (h_err s =? EINTR)) (h_err s)) = Ret out /\
  answered tc noreply t (h_err s) out.
Proof.
  intros Hs. unfold answered. destruct (Z.eqb_spec (h_err s) 0) as [E|E].
  - destruct rc as [r|]; [|done]. destruct Hs as [(Ht & Hl & _) _]. rewrite E in *. cbn [np_req_respond].
    change (0 =? EINTR) with false. destruct (noreply || false); [by eauto|].
    destruct (set_tag_run r (fc_tag tc) Hl) as (r' & -> & Hr). cbn [res_bind].
    destruct Hr as (? & ? & _). eexists. split; [done|]. eexists. split; [done|]. by rewrite <- Ht.
  - unfold np_req_respond_error.
    destruct (rlerror_static_run (h_err s) (stack_array STATIC_RLERROR_SIZE))
      as (fc & Ec & Hp & Hu & _ & Ht & _).
    { unfold stack_array, zlength. rewrite length_replicate. done. }
    change STATIC_RLERROR_SIZE with (sizeof_Npfcall + 11) in *. rewrite Ec. cbn [res_bind np_req_respond].
    destruct (noreply || _); [by eauto|].
    destruct (set_tag_run fc (fc_tag tc)) as (r' & -> & Hr). { rewrite Hp. done. }
    cbn [res_bind]. eexists. split; [done|]. eexists. split; [done|].
    destruct Hr as (? & -> & ->). done.
Qed.

(** ** The end of a request *)

(** The table [t] once the reference that the request holds is dropped. *)
Definition released (o : option loc) (t t' : gmap loc entry) : Prop :=
  match o with
  | None => t' = t
  | Some l => exists e, t !! l = Some e /\
      t' = if e_refs e =? 1 then delete l t else <[l := with_refs (e_refs e - 1) e]> t
  end.

Lemma drop_reqfid_runs s : pool_ok (h_pool s) -> (forall l, h_fid s = Some l -> live s l) ->
  runs (drop_reqfid srv) s (fun _ s' => pool_ok (h_pool s') /\
    released (h_fid s) (sig (h_pool s)) (sig (h_pool s')) /\
    h_err s' = h_err s /\ h_msize s' = h_msize s).
Proof.
  intros Ho Hl. unfold drop_reqfid. apply runs_bind, runs_reqfid.
  destruct (h_fid s) as [l|]; [|by apply runs_ret].
  destruct (Hl l eq_refl) as [e El]. apply runs_bind.
  apply (runs_decref srv l e); [done|done| |]; intros E1 s1 M1 E2;
    eexists _, _; (split; [reflexivity|]); cbn; (split; [apply M1|]);
    (split; [|split; [done|apply M1]]); exists e; (split; [done|]);
    rewrite (mv_sig _ _ _ M1).
  - by rewrite E1.
  - by rewrite (proj2 (Z.eqb_neq _ _) E1).
Qed.

(** Which fid the request still holds when an interrupted operation was
    repaired. *)
Definition holds (tc : Npfcall) (s : hstate) : option loc :=
  if (h_err s =? EINTR) && ((fc_type tc =? Tclunk) || (fc_type tc =? Tremove)) then None
  else h_fid s.

Definition no_newfid (tc : Npfcall) (s : hstate) : Prop :=
  h_err s = EINTR -> forall x, fc_u tc = U_twalk x -> twalk_fid x <> twalk_newfid x ->
  unused (twalk_newfid x) (sig (h_pool s)).

Lemma fixup_runs tc s : typed (fc_type tc) (fc_u tc) -> pool_ok (h_pool s) -> no_newfid tc s ->
  runs (if h_err s =? EINTR then fixup_interrupted srv tc else hret tt) s (fun _ s' =>
    pool_ok (h_pool s') /\ sig (h_pool s') = sig (h_pool s) /\ h_fid s' = holds tc s /\
    h_err s' = h_err s /\ h_msize s' = h_msize s).
Proof.
  intros Ht Ho Hn. unfold holds. destruct (Z.eqb_spec (h_err s) EINTR) as [E|E]; cbn [andb].
  2:{ by apply runs_ret. }
  unfold fixup_interrupted. destruct (_ || _) eqn:Ec.
  { eexists _, _. by split. }
  destruct (Z.eqb_spec (fc_type tc) Twalk) as [Ew|]; [|by apply runs_ret].
  rewrite Ew in Ht. inversion Ht as [| | | | | | | | | | | | | | | | | | | | | | | x Hx Et Eu| | | |].
  destruct (Z.eqb_spec (twalk_fid x) (twalk_newfid x)) as [Eq|Ne]; cbn [negb]; [by apply runs_ret|].
  apply runs_decref_bynum_unused; [done|by apply Hn|]. intros s' K Er.
  split; [by apply (kp_ok _ _ K)|]. split; [apply K|]. split; [apply K|]. split; [done|apply K].
Qed.

Lemma postprocess_runs tc noreply t rc s : typed (fc_type tc) (fc_u tc) -> pool_ok (h_pool s) ->
  no_newfid tc s -> (forall l, holds tc s = Some l -> live s l) -> served t rc s ->
  runs (np_postprocess_request srv tc noreply rc) s (fun out s' =>
    answered tc noreply t (h_err s) out /\ h_err s' = h_err s /\ h_fid s' = None /\
    h_msize s' = h_msize s /\ pool_ok (h_pool s') /\
    released (holds tc s) (sig (h_pool s)) (sig (h_pool s'))).
Proof.
  intros Ht Ho Hn Hl Hs. unfold np_postprocess_request. apply runs_bind, runs_rerror.
  apply runs_bind. eapply runs_mono; [by apply fixup_runs|]. intros _ s1 (O1 & S1 & F1 & E1 & Z1).
  apply runs_bind. eapply runs_mono; [apply drop_reqfid_runs; [done|]|].
  { intros l. rewrite F1. intros El. unfold live. rewrite S1. by apply Hl. }
  intros _ s2 (O2 & R2 & E2 & Z2). rewrite F1, S1 in R2.
  apply runs_bind. eexists _, _. split; [reflexivity|].
  destruct (respond_run tc noreply t rc s Hs) as (out & Er & Ha).
  eexists out, _. rewrite Er. split; [reflexivity|]. cbn.
  split; [done|]. split; [congruence|]. split; [done|]. split; [congruence|]. by split.
Qed.

(** ** The frame of a request *)

Lemma io_bytes_run tc t rc s : served t rc s -> (fc_type tc = Tread -> t = Rread) ->
  (fc_type tc = Twrite -> t = Rwrite) -> exists n, io_bytes (fc_type tc) rc = Ret n.
Proof.
  intros Hs Hr Hw. unfold io_bytes. destruct rc as [r|]; [|by eauto].
  destruct Hs as [(_ & _ & Hu) _]. destruct (Z.eqb_spec (fc_type tc) Tread) as [E|_].
  { rewrite (Hr E) in Hu. cbn in Hu. destruct (fc_u r); try discriminate Hu. eauto. }
  destruct (Z.eqb_spec (fc_type tc) Twrite) as [E|_]; [|by eauto].
  rewrite (Hw E) in Hu. cbn in Hu. destruct (fc_u r); try discriminate Hu. eauto.
Qed.

(** The state with no fid for the request. *)
Definition no_fid (s : hstate) : hstate :=
  {| h_msize := h_msize s; h_authuser := h_authuser s; h_pool := h_pool s; h_fid := None;
     h_err := h_err s; h_world := h_world s; h_calls := h_calls s |}.

(** The result of a request: the message size at most [m], the answer, and a
    table that satisfies [R]. *)
Definition done_with (tc : Npfcall) (noreply : bool) (ts : list Z) (m : Z)
    (R : Z -> gmap loc entry -> Prop) (r : option Npfcall * (Z * Z)) (s' : hstate) : Prop :=
  h_msize s' <= m /\
  (exists t, t ∈ ts /\ answered tc noreply t (h_err s') r.1) /\ h_fid s' = None /\ pool_ok (h_pool s') /\
  R (h_err s') (sig (h_pool s')).

(** What a handler has to leave behind. *)
Definition handled (tc : Npfcall) (ts : list Z) (m : Z) (R : Z -> gmap loc entry -> Prop)
    (rc : option Npfcall) (s : hstate) : Prop :=
  h_msize s <= m /\
  (exists t, t ∈ ts /\ served t rc s) /\ pool_ok (h_pool s) /\ no_newfid tc s /\
  (forall l, holds tc s = Some l -> live s l) /\
  (forall t', released (holds tc s) (sig (h_pool s)) t' -> R (h_err s) t').

Lemma serve_runs tc noreply ts m R g h (P : hstate -> Prop) s :
  typed (fc_type tc) (fc_u tc) ->
  (fc_type tc = Tread -> ts = [Rread]) -> (fc_type tc = Twrite -> ts = [Rwrite]) ->
  switch (handlers srv tc) (fc_type tc) = Some g -> g (fc_u tc) = Some h ->
  runs (np_preprocess_request srv tc) (no_fid s) (fun _ s1 => P s1) ->
  (forall s1, P s1 -> runs h (with_err 0 s1) (handled tc ts m R)) ->
  runs (serve srv tc noreply) s (done_with tc noreply ts m R).
Proof.
  intros Ht Hr Hw Eg Eh Hpre Hh. unfold serve. apply runs_bind. eexists _, _.
  split; [reflexivity|]. fold (no_fid s). apply runs_bind.
  eapply runs_mono; [exact Hpre|]. intros ? s1 HP. apply runs_bind. unfold np_process_request.
  apply runs_bind, runs_uerror. rewrite Eg, Eh. apply runs_bind.
  eapply runs_mono; [by apply Hh|]. intros rc s2 (Hm & (t & Hts & Hs) & Ho & Hn & Hl & HR).
  destruct (io_bytes_run tc t rc s2 Hs) as [n En].
  { intros E. rewrite (Hr E) in Hts. by apply list_elem_of_singleton in Hts. }
  { intros E. rewrite (Hw E) in Hts. by apply list_elem_of_singleton in Hts. } exists (rc, n), s2. rewrite En.
  split; [done|]. apply runs_bind. eapply runs_mono; [by apply (postprocess_runs tc noreply t)|].
  intros out s3 (Ha & E3 & F3 & Z3 & O3 & R3). apply runs_ret. split; [cbn; lia|].
  split; [exists t; by rewrite E3|].
  split; [done|]. split; [done|]. rewrite E3. by apply HR.
Qed.

(** ** Requests on a fid the client has *)

(** The request holds a reference to the fid with number [n], if there is one. *)
Definition holding (s : hstate) (n : Z) (s1 : hstate) : Prop :=
  h_msize s1 = h_msize s /\ pool_ok (h_pool s1) /\
  match h_fid s1 with
  | Some l => exists e, sig (h_pool s) !! l = Some e /\ e_num e = n /\ e_zombie e = false /\
      sig (h_pool s1) = <[l := with_refs (e_refs e + 1) e]> (sig (h_pool s))
  | None => unused n (sig (h_pool s)) /\ sig (h_pool s1) = sig (h_pool s)
  end.

Lemma preprocess_find tc g n s : switch find_cases (fc_type tc) = Some g -> g (fc_u tc) = Some n ->
  pool_ok (h_pool s) ->
  runs (np_preprocess_request srv tc) (no_fid s) (fun _ s1 => holding s n s1).
Proof.
  intros Eg En Ho. unfold np_preprocess_request. rewrite Eg, En. apply runs_bind.
  apply runs_find; [done| |].
  - intros l e s1 El Hn Hz M1 _. eexists _, _. split; [reflexivity|].
    split; [apply M1|]. split; [apply M1|]. cbn. exists e. repeat (split; [done|]). apply M1.
  - intros s1 Hu M1 _. eexists _, _. split; [reflexivity|].
    split; [apply M1|]. split; [apply M1|]. cbn. split; [done|apply M1].
Qed.

Lemma holding_ready s n s1 : holding s n s1 -> ready (with_err 0 s1).
Proof.
  intros (_ & Ho & Hf). split; [done|done|]. cbn. intros l El. rewrite El in Hf.
  destruct Hf as (e & _ & _ & _ & Es). unfold live. cbn. rewrite Es, lookup_insert_eq. eauto.
Qed.

(** Dropping the reference again. *)
Lemma holding_released s n s1 s2 t' : pool_ok (h_pool s) -> holding s n s1 ->
  h_fid s2 = h_fid s1 -> sig (h_pool s2) = sig (h_pool s1) ->
  released (h_fid s2) (sig (h_pool s2)) t' -> t' = sig (h_pool s).
Proof.
  intros Ho (_ & _ & Hf) Ef Es. rewrite Ef, Es. destruct (h_fid s1) as [l|]; cbn.
  - destruct Hf as (e & El & _ & _ & ->). rewrite lookup_insert_eq. intros (? & [= <-] & ->).
    pose proof (sig_refs_pos _ _ _ Ho El). cbn. rewrite (proj2 (Z.eqb_neq _ _)) by lia.
    rewrite insert_insert_eq, with_refs_refs. replace (e_refs e + 1 - 1) with (e_refs e) by lia.
    rewrite with_refs_id. by apply insert_id.
  - destruct Hf as [_ ->]. done.
Qed.

(** Handlers that leave the table alone. *)
Lemma serve_neutral tc noreply t gf n g h s :
  typed (fc_type tc) (fc_u tc) ->
  (fc_type tc = Tread -> t = Rread) -> (fc_type tc = Twrite -> t = Rwrite) ->
  switch find_cases (fc_type tc) = Some gf -> gf (fc_u tc) = Some n ->
  switch (handlers srv tc) (fc_type tc) = Some g -> g (fc_u tc) = Some h ->
  fc_type tc <> Tclunk -> fc_type tc <> Tremove ->
  (forall x, fc_u tc = U_twalk x -> twalk_fid x = twalk_newfid x) ->
  pool_ok (h_pool s) ->
  (forall s1, ready s1 -> h_msize s1 = h_msize s -> neutral t h s1) ->
  runs (serve srv tc noreply) s (done_with tc noreply [t] (h_msize s) (fun _ t' => t' = sig (h_pool s))).
Proof.
  intros Ht Hr Hw Egf En Eg Eh N1 N2 Nw Ho Hh. eapply serve_runs;
    [done|intros E; by rewrite (Hr E)|intros E; by rewrite (Hw E)|done|done|by eapply preprocess_find|].
  intros s1 HP. eapply runs_mono.
  { apply Hh; [by eapply holding_ready|apply HP]. }
  intros rc s2 [K2 S2]. destruct K2 as [K2o K2s K2f K2m]. cbn in *.
  assert (Hho : holds tc s2 = h_fid s2).
  { unfold holds. rewrite (proj2 (Z.eqb_neq (fc_type tc) Tclunk) N1),
      (proj2 (Z.eqb_neq (fc_type tc) Tremove) N2). by rewrite andb_false_r. }
  split; [rewrite K2m; by destruct HP as [-> _]|].
  split; [exists t; split; [by left|done]|]. split; [apply K2o, HP|]. split; [intros _ x Ex Hne; by destruct Hne; apply Nw|].
  rewrite Hho. split.
  - intros l El. rewrite K2f in El. unfold live. rewrite K2s.
    by apply (rd_live _ (holding_ready _ _ _ HP)).
  - intros t'. by eapply holding_released.
Qed.

(** ** Clunk and remove *)

(** The table after the fid with number [n] was given up, unless the operation
    was interrupted. *)
Definition clunked (n e : Z) (t t' : gmap loc entry) : Prop :=
  if e =? EINTR then t' = t
  else unused n t /\ t' = t \/
    exists l en, t !! l = Some en /\ e_num en = n /\ e_zombie en = false /\
      t' = if e_refs en =? 1 then delete l t else <[l := with_refs (e_refs en - 1) en]> t.

Lemma serve_clunk tc noreply t gf n g h s :
  typed (fc_type tc) (fc_u tc) ->
  switch find_cases (fc_type tc) = Some gf -> gf (fc_u tc) = Some n ->
  switch (handlers srv tc) (fc_type tc) = Some g -> g (fc_u tc) = Some h ->
  fc_type tc = Tclunk \/ fc_type tc = Tremove ->
  (forall x, fc_u tc <> U_twalk x) -> pool_ok (h_pool s) ->
  (forall s1 l e, ready s1 -> h_fid s1 = Some l -> sig (h_pool s1) !! l = Some e -> drops t l e h s1) ->
  (forall s1, h_fid s1 = None -> h s1 = Ret (None, with_err EIO s1)) ->
  runs (serve srv tc noreply) s
    (done_with tc noreply [t] (h_msize s) (fun e t' => clunked n e (sig (h_pool s)) t')).
Proof.
  intros Ht Egf En Eg Eh Hty Nw Ho Hd Hnone.
  eapply serve_runs; [done|by destruct Hty as [-> | ->]..|done|done|by eapply preprocess_find|].
  intros s1 HP. pose proof (holding_ready _ _ _ HP) as Hrd. destruct HP as (Hm1 & Ho1 & Hf).
  destruct (h_fid s1) as [l|] eqn:El.
  - destruct Hf as (e & Ee & Hn & Hz & Es). pose proof (sig_refs_pos _ _ _ Ho Ee) as Hpos.
    eapply runs_mono; [apply (Hd _ l (with_refs (e_refs e + 1) e) Hrd El)|].
    { cbn. by rewrite Es, lookup_insert_eq. }
    intros rc s2 (S2 & Hm2 & O2 & Hs2). cbn in Hs2, Hm2. rewrite (proj2 (Z.eqb_neq _ _)) in Hs2 by lia.
    destruct Hs2 as [F2 Es2]. rewrite Es, insert_insert_eq, with_refs_refs in Es2.
    replace (e_refs e + 1 - 1) with (e_refs e) in Es2 by lia. rewrite with_refs_id in Es2.
    rewrite insert_id in Es2 by done.
    split; [lia|]. split; [exists t; split; [by left|done]|]. split; [done|]. split; [by intros _ x Ex; destruct (Nw x)|].
    unfold clunked, holds.
    rewrite (proj2 (orb_true_iff _ _)) by (rewrite !Z.eqb_eq; done). rewrite andb_true_r.
    destruct (h_err s2 =? EINTR); [split; [done|]; by rewrite Es2|]. rewrite F2. split.
    + intros ? [= <-]. unfold live. rewrite Es2. eauto.
    + intros t' (e' & E' & ->). right. rewrite Es2 in *. rewrite E' in Ee. injection Ee as ->.
      by exists l, e.
  - destruct Hf as [Hu Es]. eexists _, _. split; [by apply Hnone|].
    split; [cbn; lia|]. split; [exists t; split; [by left|done]|]. split; [done|]. split; [by intros _ x Ex; destruct (Nw x)|].
    assert (Hho : holds tc (with_err EIO (with_err 0 s1)) = None).
    { unfold holds. exact El. }
    rewrite Hho. split; [done|]. intros t' ->. unfold clunked. cbn. left. by rewrite Es.
Qed.

(** ** Walk and xattrwalk *)

(** Every fid has what the code takes from it: its [aname], its user. *)
Definition named (t : gmap loc entry) : Prop := forall l e, t !! l = Some e -> e_aname e = true.
Definition owned (t : gmap loc entry) : Prop := forall l e, t !! l = Some e -> e_user e = true.

(** The table after the number [n] was given to a fid derived from the fid with
    number [m], if there was no error. *)
Definition walked (m n e : Z) (t t' : gmap loc entry) : Prop :=
  if e =? 0 then exists l0 e0 l t1, t !! l0 = Some e0 /\ e_num e0 = m /\ e_zombie e0 = false /\
    t !! l = None /\ displaced srv n t t1 /\ t' = <[l := derived n e0]> t1
  else t' = t \/ displaced srv n t t'.

Lemma displaced_undo n t l0 e0 e1 tab : t !! l0 = Some e0 -> e_num e0 <> n -> e_num e1 <> n ->
  displaced srv n (<[l0 := e1]> t) tab -> displaced srv n t (<[l0 := e0]> tab).
Proof.
  intros El N0 N1 [Hu|x ex Hloose Ex Hn Hz].
  - rewrite insert_insert_eq, insert_id by done. constructor. intros l e E Hn.
    apply (Hu l); [|done]. rewrite lookup_insert_ne; [done|]. intros ->. congruence.
  - assert (x <> l0) by (intros ->; rewrite lookup_insert_eq in Ex; congruence).
    rewrite lookup_insert_ne in Ex by done.
    rewrite (insert_insert_ne _ l0 x), insert_insert_eq, (insert_id t l0) by done.
    by constructor.
Qed.

Lemma served_err t rc s : served t rc s -> (h_err s =? 0) = match rc with Some _ => true | None => false end.
Proof.
  destruct rc; cbn; [intros [_ E]|intros E]; [by apply Z.eqb_eq|by apply Z.eqb_neq].
Qed.

Lemma makes_handled tc t m n l e h s s1 : pool_ok (h_pool s) -> pool_ok (h_pool s1) ->
  h_msize s1 = h_msize s ->
  fc_type tc <> Tclunk -> fc_type tc <> Tremove ->
  (forall x, fc_u tc = U_twalk x -> twalk_newfid x = n) -> m <> n ->
  h_fid s1 = Some l -> sig (h_pool s) !! l = Some e -> e_num e = m -> e_zombie e = false ->
  sig (h_pool s1) = <[l := with_refs (e_refs e + 1) e]> (sig (h_pool s)) ->
  makes srv t n (with_refs (e_refs e + 1) e) h (with_err 0 s1) ->
  runs h (with_err 0 s1) (handled tc [t] (h_msize s) (fun er t' => walked m n er (sig (h_pool s)) t')).
Proof.
  intros Ho Ho1 Hm1 N1 N2 Nw Hne El Ee Hm Hz Es Hmk. eapply runs_mono; [exact Hmk|].
  intros rc s2 (S2 & tab & Htab & M). cbn [with_err h_pool] in Htab, M.
  pose proof (sig_refs_pos _ _ _ Ho Ee) as Hpos.
  assert (Hho : holds tc s2 = h_fid s2).
  { unfold holds. rewrite (proj2 (Z.eqb_neq (fc_type tc) Tclunk) N1),
      (proj2 (Z.eqb_neq (fc_type tc) Tremove) N2). by rewrite andb_false_r. }
  set (e1 := with_refs (e_refs e + 1) e) in *.
  assert (Htl : tab !! l = Some e1).
  { destruct Htab as [[-> _]|Hd]; [by rewrite Es, lookup_insert_eq|].
    eapply (displaced_other srv n); [exact Hd|by rewrite Es, lookup_insert_eq|]. cbn. congruence. }
  assert (Hback : with_refs (e_refs e1 - 1) e1 = e).
  { replace (e_refs e1 - 1) with (e_refs e) by (cbn; lia). unfold e1.
    rewrite with_refs_refs. apply with_refs_id. }
  assert (H1n : (e_refs e1 =? 1) = false) by (apply Z.eqb_neq; cbn; lia).
  assert (Hdis : displaced srv n (sig (h_pool s1)) tab ->
    displaced srv n (sig (h_pool s)) (<[l := e]> tab)).
  { rewrite Es. intros Hd. eapply (displaced_undo n _ l e e1); [done|congruence|change (e_num e <> n); congruence|done]. }
  pose proof (served_err _ _ _ S2) as Herr. unfold handled. rewrite Hho.
  split.
  { destruct rc; [destruct M as (? & _ & _ & M)|]; rewrite (mv_msize _ _ _ M); cbn; lia. }
  split; [exists t; split; [by left|done]|].
  destruct rc as [r|].
  - destruct M as (l2 & Hl2 & Hd & M).
    assert (l2 <> l) by (intros ->; rewrite Es, lookup_insert_eq in Hl2; done).
    split; [apply M|]. split. { intros E. rewrite E in Herr. discriminate Herr. }
    rewrite (mv_fid _ _ _ M). cbn [with_err h_fid]. rewrite El. split.
    { intros ? [= <-]. eapply moves_live; [exact M|]. rewrite lookup_insert_ne, Htl; [eauto|done]. }
    intros t' (e' & E' & ->). rewrite (mv_sig _ _ _ M) in *.
    rewrite lookup_insert_ne, Htl in E' by done. injection E' as <-. rewrite H1n, Hback.
    unfold walked. rewrite Herr. exists l, e, l2, (<[l := e]> tab).
    split; [done|]. split; [done|]. split; [done|]. split; [|split; [by apply Hdis|]].
    + by rewrite Es, lookup_insert_ne in Hl2.
    + by rewrite insert_insert_ne.
  - split; [apply M|]. split.
    { intros E x Ex _. rewrite (mv_sig _ _ _ M), (Nw x Ex).
      destruct Htab as [[_ E']|Hd]; [rewrite E in E'; discriminate E'|].
      by apply (displaced_unused srv n (h_pool s1)). }
    rewrite (mv_fid _ _ _ M). cbn [with_err h_fid]. rewrite El. split.
    { intros ? [= <-]. eapply moves_live; [exact M|]. rewrite Htl; eauto. }
    intros t' (e' & E' & ->). rewrite (mv_sig _ _ _ M) in *.
    rewrite Htl in E'. injection E' as <-. rewrite H1n, Hback. unfold walked. rewrite Herr.
    destruct Htab as [[-> _]|Hd]; [left|right; by apply Hdis].
    by rewrite Es, insert_insert_eq, insert_id.
Qed.

Lemma serve_makes tc noreply t gf m n g h s :
  typed (fc_type tc) (fc_u tc) ->
  (fc_type tc = Tread -> t = Rread) -> (fc_type tc = Twrite -> t = Rwrite) ->
  switch find_cases (fc_type tc) = Some gf -> gf (fc_u tc) = Some m ->
  switch (handlers srv tc) (fc_type tc) = Some g -> g (fc_u tc) = Some h ->
  fc_type tc <> Tclunk -> fc_type tc <> Tremove ->
  (forall x, fc_u tc = U_twalk x -> twalk_newfid x = n) -> m <> n ->
  pool_ok (h_pool s) ->
  (forall s1, ready s1 -> h_fid s1 = None -> h s1 = Ret (None, with_err EIO s1)) ->
  (forall s1 l e1, ready s1 -> h_fid s1 = Some l -> sig (h_pool s1) !! l = Some e1 ->
     e_num e1 = m -> (exists l e, sig (h_pool s) !! l = Some e /\ e_aname e1 = e_aname e /\
       e_user e1 = e_user e) -> makes srv t n e1 h s1) ->
  runs (serve srv tc noreply) s
    (done_with tc noreply [t] (h_msize s) (fun er t' => walked m n er (sig (h_pool s)) t')).
Proof.
  intros Ht Hr Hw Egf En Eg Eh N1 N2 Nw Hne Ho Hnone Hmk.
  eapply serve_runs;
    [done|intros E; by rewrite (Hr E)|intros E; by rewrite (Hw E)|done|done|by eapply preprocess_find|].
  intros s1 HP. pose proof (holding_ready _ _ _ HP) as Hrd. destruct HP as (Hm1 & Ho1 & Hf).
  destruct (h_fid s1) as [l|] eqn:El.
  - destruct Hf as (e & Ee & Hn & Hz & Es). eapply makes_handled; try done.
    eapply Hmk; [done|done| |done|by exists l, e]. cbn. by rewrite Es, lookup_insert_eq.
  - destruct Hf as [Hu Es]. eexists _, _. split; [by apply Hnone|].
    split; [cbn; lia|]. split; [exists t; split; [by left|done]|]. split; [done|]. split; [by intros E|].
    assert (Hho : holds tc (with_err EIO (with_err 0 s1)) = None) by (unfold holds; exact El).
    rewrite Hho. split; [done|]. intros t' ->. unfold walked. left. exact Es.
Qed.

(** ** Attach and auth *)

(** A new fid with its [aname], before and after it has a user. *)
Definition fid_entry (n : Z) (u : bool) : entry :=
  {| e_num := n; e_zombie := false; e_refs := 1; e_aname := true; e_user := u |}.

(** The request holds the only reference to a new fid with number [n], or none
    could be made. *)
Definition creating (s : hstate) (n : Z) (s1 : hstate) : Prop :=
  h_msize s1 = h_msize s /\ pool_ok (h_pool s1) /\
  match h_fid s1 with
  | Some l => exists t1, sig (h_pool s) !! l = None /\ displaced srv n (sig (h_pool s)) t1 /\
      sig (h_pool s1) = <[l := fid_entry n false]> t1
  | None => sig (h_pool s1) = sig (h_pool s) \/ displaced srv n (sig (h_pool s)) (sig (h_pool s1))
  end.

Lemma create_reqfid_runs tc n nm bs s : memory -> npstr_bytes (fc_pkt tc) nm = Ret bs ->
  pool_ok (h_pool s) ->
  runs (create_reqfid srv tc n nm) (no_fid s) (fun _ s1 => creating s n s1).
Proof.
  intros Hmem Hnm Ho. unfold create_reqfid. apply runs_bind. apply runs_create; [done| | |].
  - intros l t1 s1 Hl Hd M1 _. apply runs_bind. eexists _, _. split; [reflexivity|].
    apply runs_bind. eexists _, _. rewrite (np_strdup_run _ _ _ Hnm (Hmem _)).
    split; [reflexivity|]. apply runs_bind.
    set (s2 := {| h_fid := Some l |}).
    assert (L2 : live s2 l).
    { unfold live. cbn. rewrite (mv_sig _ _ _ M1), lookup_insert_eq. eauto. }
    eapply runs_put; [done|done|]. intros f q Ef _ Es Hq. apply runs_ret.
    split; [apply M1|]. split; [apply Hq, M1|]. cbn. exists t1. split; [done|]. split; [done|].
    cbn in Es, Ef. rewrite Es, (mv_sig _ _ _ M1), insert_insert_eq. f_equal.
    apply sig_fid in Ef. rewrite (mv_sig _ _ _ M1), lookup_insert_eq in Ef.
    injection Ef as En Ez Er Ea Eu.
    unfold fid_entry, entry_of, set_aname, is_zombie in *. cbn [fid refcount user aname flags] in *.
    by rewrite <- En, <- Ez, <- Er, <- Eu.
  - intros t1 s1 Hd M1 _. apply runs_bind. eexists _, _. split; [reflexivity|]. apply runs_ret.
    split; [apply M1|]. split; [apply M1|]. cbn. right. by rewrite (mv_sig _ _ _ M1).
  - intros s1 M1 _. apply runs_bind. eexists _, _. split; [reflexivity|]. apply runs_ret.
    split; [apply M1|]. split; [apply M1|]. cbn. left. by rewrite (mv_sig _ _ _ M1).
Qed.

Lemma creating_ready s n s1 : creating s n s1 -> ready (with_err 0 s1).
Proof.
  intros (_ & Ho & Hf). split; [done|done|]. cbn. intros l El. rewrite El in Hf.
  destruct Hf as (t1 & _ & _ & Es). unfold live. cbn. rewrite Es, lookup_insert_eq. eauto.
Qed.

Lemma tpool_select_runs s : (forall l, h_fid s = Some l -> live s l) ->
  runs np_tpool_select s (fun _ s' => keeps s s').
Proof.
  intros Hl. unfold np_tpool_select. apply runs_bind, runs_reqfid.
  destruct (h_fid s) as [l|]; [|apply runs_ret, keeps_refl]. specialize (Hl l eq_refl).
  apply runs_bind, runs_get; [done|]. intros f _ _.
  destruct (tpool f); [apply runs_ret, keeps_refl|].
  apply runs_bind, runs_call_ok; [by repeat constructor|done|done|]. intros o s1 K1 _ _.
  destruct (o_ptr o); [|by apply runs_ret].
  apply runs_put_keeps; [by eapply keeps_live|done|done|]. intros s2 K2 _. by eapply keeps_trans.
Qed.

Lemma creating_keeps s n s1 s2 : creating s n s1 -> keeps s1 s2 -> creating s n s2.
Proof.
  intros (Hm & Ho & Hf) [K1 K2 K3 K4]. split; [congruence|]. split; [auto|]. by rewrite K3, K2.
Qed.

(** The table after the number [n] was given to a new fid, if there was no
    error. *)
Definition attached_to (n e : Z) (t t' : gmap loc entry) : Prop :=
  if e =? 0 then exists l t1, t !! l = None /\ displaced srv n t t1 /\
    t' = <[l := fid_entry n true]> t1
  else t' = t \/ displaced srv n t t'.

Lemma serve_attach tc noreply x bs s : typed (fc_type tc) (fc_u tc) -> memory ->
  fc_type tc = Tattach -> fc_u tc = U_tattach x ->
  npstr_bytes (fc_pkt tc) (tattach_aname x) = Ret bs -> pool_ok (h_pool s) ->
  runs (serve srv tc noreply) s (done_with tc noreply [Rattach] (h_msize s) (fun e t' => attached_to (tattach_fid x) e (sig (h_pool s)) t')).
Proof.
  intros Ht Hmem Ety Eu Hnm Ho.
  eapply (serve_runs _ _ _ _ _ _ (np_attach srv x) (creating s (tattach_fid x)));
    [done|by rewrite Ety..|by rewrite Ety|by rewrite Eu| |].
  { unfold np_preprocess_request. rewrite Ety, Eu. cbn [switch find_cases]. eval_switch.
    apply runs_bind. eapply runs_mono; [by apply (create_reqfid_runs _ _ _ bs)|].
    intros ? s1 HP. eapply runs_mono; [apply tpool_select_runs|].
    - intros l. apply (rd_live _ (creating_ready _ _ _ HP)).
    - intros ? s2 K. exact (creating_keeps _ _ _ _ HP K). }
  intros s1 HP. pose proof (creating_ready _ _ _ HP) as Hrd. destruct HP as (Hm1 & Ho1 & Hf).
  assert (Hho : forall s2, holds tc s2 = h_fid s2).
  { intros s2. unfold holds. rewrite Ety. by rewrite andb_false_r. }
  assert (Hnw : forall s2, no_newfid tc s2) by (intros s2 _ y Ey; congruence).
  unfold attached_to. destruct (h_fid s1) as [l|] eqn:El.
  - destruct Hf as (t1 & Hl & Hd & Es). pose proof (displaced_none _ _ _ _ _ Hd Hl) as Hl1.
    eapply runs_mono; [apply (np_attach_runs srv x l (fid_entry (tattach_fid x) false) _ Hrd El); [|done]|].
    { cbn. by rewrite Es, lookup_insert_eq. }
    intros rc s2 (S2 & u & M2 & Hu). cbn [with_err h_pool] in M2. rewrite Es, insert_insert_eq in M2.
    split; [rewrite (mv_msize _ _ _ M2); cbn; lia|]. split; [exists Rattach; split; [by left|done]|]. split; [apply M2|]. split; [done|].
    rewrite Hho, (mv_fid _ _ _ M2). cbn [with_err h_fid]. rewrite El. split.
    { intros ? [= <-]. eapply moves_live; [exact M2|]. rewrite lookup_insert_eq; eauto. }
    intros t' (e' & E' & ->). rewrite (mv_sig _ _ _ M2) in *. rewrite lookup_insert_eq in E'.
    injection E' as <-. rewrite (served_err _ _ _ S2). destruct rc as [r|]; cbn.
    + destruct Hu as [|Hu]; [done|]. rewrite Hu. exists l, t1. rewrite insert_insert_eq. done.
    + rewrite delete_insert_id by done. by right.
  - eapply runs_mono; [apply (np_attach_nofid srv x _ Hrd El)|]. intros rc s2 (-> & K2 & E2).
    split; [rewrite (kp_msize _ _ K2); cbn; lia|]. split; [exists Rattach; split; [by left|done]|]. split; [by apply (kp_ok _ _ K2)|]. split; [done|].
    rewrite Hho, (kp_fid _ _ K2), (kp_sig _ _ K2). cbn [with_err h_fid h_pool]. rewrite El.
    split; [done|]. intros t' ->. by rewrite (proj2 (Z.eqb_neq _ _) E2).
Qed.
(** The table after a Tauth: a new fid when one was required, also when the
    authentication then failed. *)
Definition authed_to (n e : Z) (t t' : gmap loc entry) : Prop :=
  (t' = t \/ displaced srv n t t') \/
  has_auth srv = true /\ exists l t1 u, t !! l = None /\ displaced srv n t t1 /\ t' = <[l := fid_entry n u]> t1 /\
    (e = 0 -> u = true).

Lemma serve_auth tc noreply x bs s : typed (fc_type tc) (fc_u tc) -> memory ->
  fc_type tc = Tauth -> fc_u tc = U_tauth x ->
  npstr_bytes (fc_pkt tc) (tauth_aname x) = Ret bs -> pool_ok (h_pool s) ->
  runs (serve srv tc noreply) s (done_with tc noreply [Rauth; Rlerror] (h_msize s) (fun e t' => authed_to (tauth_afid x) e (sig (h_pool s)) t')).
Proof.
  intros Ht Hmem Ety Eu Hnm Ho.
  eapply (serve_runs _ _ _ _ _ _ (np_auth srv x) (creating s (tauth_afid x)));
    [done|by rewrite Ety..|by rewrite Ety|by rewrite Eu| |].
  { unfold np_preprocess_request. rewrite Ety, Eu. cbn [switch find_cases]. eval_switch.
    by apply (create_reqfid_runs _ _ _ bs). }
  intros s1 HP. pose proof (creating_ready _ _ _ HP) as Hrd. destruct HP as (Hm1 & Ho1 & Hf).
  assert (Hho : forall s2, holds tc s2 = h_fid s2).
  { intros s2. unfold holds. rewrite Ety. by rewrite andb_false_r. }
  assert (Hnw : forall s2, no_newfid tc s2) by (intros s2 _ y Ey; congruence).
  assert (Hsv : forall rc s2, auth_served rc s2 -> exists t, t ∈ [Rauth; Rlerror] /\ served t rc s2).
  { intros rc s2 [Hs|Hs]; eexists; (split; [|exact Hs]); set_solver. }
  unfold authed_to. destruct (h_fid s1) as [l|] eqn:El.
  - destruct Hf as (t1 & Hl & Hd & Es). pose proof (displaced_none _ _ _ _ _ Hd Hl) as Hl1.
    eapply runs_mono; [apply (np_auth_runs srv x l (fid_entry (tauth_afid x) false) _ Hrd El)|].
    { cbn. by rewrite Es, lookup_insert_eq. }
    intros rc s2 [S2 [[K2 _]|(Hauth & u & M2 & Hu)]].
    + split; [rewrite (kp_msize _ _ K2); cbn; lia|]. split; [by apply Hsv|]. destruct K2 as [K2o K2s K2f _]. cbn [with_err h_fid h_pool] in *.
      split; [by apply K2o|]. split; [done|]. unfold live. rewrite Hho, K2f, El, K2s, Es. split.
      { intros ? [= <-]. rewrite lookup_insert_eq. eauto. }
      intros t' (e' & E' & ->). rewrite lookup_insert_eq in E'. injection E' as <-. cbn.
      rewrite delete_insert_id by done. left. by right.
    + split; [rewrite (mv_msize _ _ _ M2); cbn; lia|]. split; [by apply Hsv|].
      cbn [with_err h_pool] in M2. rewrite Es, insert_insert_eq in M2.
      split; [apply M2|]. split; [done|].
      rewrite Hho, (mv_fid _ _ _ M2). cbn [with_err h_fid]. rewrite El. split.
      { intros ? [= <-]. eapply moves_live; [exact M2|]. rewrite lookup_insert_eq; eauto. }
      intros t' (e' & E' & ->). rewrite (mv_sig _ _ _ M2) in *. rewrite lookup_insert_eq in E'.
      injection E' as <-. cbn. right. split; [done|]. exists l, t1, u. rewrite insert_insert_eq.
      split; [done|]. split; [done|]. split; [done|]. intros E0.
      destruct Hu as [->|]; [|done]. by destruct S2.
  - eapply runs_mono; [apply (np_auth_nofid srv x _ Hrd El)|]. intros rc s2 [K2 S2].
    split; [rewrite (kp_msize _ _ K2); cbn; lia|]. split; [by apply Hsv|]. split; [by apply (kp_ok _ _ K2)|]. split; [done|].
    rewrite Hho, (kp_fid _ _ K2), (kp_sig _ _ K2). cbn [with_err h_fid h_pool]. rewrite El.
    split; [done|]. intros t' ->. by left.
Qed.

(** ** Version *)

Lemma serve_version tc noreply x s : typed (fc_type tc) (fc_u tc) ->
  fc_type tc = Tversion -> fc_u tc = U_tversion x ->
  (exists c, np_strcmp (fc_pkt tc) (tversion_version x) version_L = Ret c) -> pool_ok (h_pool s) ->
  runs (serve srv tc noreply) s (done_with tc noreply [Rversion] (h_msize s) (fun _ t' => t' = sig (h_pool s))).
Proof.
  intros Ht Ety Eu Hc Ho.
  eapply (serve_runs _ _ _ _ _ _ (np_version tc x) (fun s1 => s1 = no_fid s));
    [done|by rewrite Ety..|by rewrite Ety|by rewrite Eu| |].
  { unfold np_preprocess_request. rewrite Ety. cbn [switch find_cases]. eval_switch.
    by apply runs_ret. }
  intros s1 ->. eapply runs_mono; [by apply np_version_neutral|].
  intros rc s2 (O2 & E2 & F2 & Z2 & S2). split; [exact Z2|].
  split; [exists Rversion; split; [by left|done]|]. split; [done|].
  split; [intros _ y Ey; congruence|].
  assert (Hho : holds tc s2 = None).
  { unfold holds. rewrite Ety, F2. by rewrite andb_false_r. }
  rewrite Hho. split; [done|]. by intros t' ->.
Qed.
(** ** Every request *)

(** The views of the strings that the request processing itself reads. *)
Definition strings_ok (tc : Npfcall) : Prop :=
  match fc_u tc with
  | U_tversion x => exists c, np_strcmp (fc_pkt tc) (tversion_version x) version_L = Ret c
  | U_tattach x => exists bs, npstr_bytes (fc_pkt tc) (tattach_aname x) = Ret bs
  | U_tauth x => exists bs, npstr_bytes (fc_pkt tc) (tauth_aname x) = Ret bs
  | _ => True
  end.

(** What a request does to the fid table, given the error code it ended with. *)
Definition effect (tc : Npfcall) (e : Z) (t t' : gmap loc entry) : Prop :=
  match fc_u tc with
  | U_tattach x => attached_to (tattach_fid x) e t t'
  | U_tauth x => authed_to (tauth_afid x) e t t'
  | U_twalk x =>
      if twalk_fid x =? twalk_newfid x then t' = t
      else walked (twalk_fid x) (twalk_newfid x) e t t'
  | U_txattrwalk x =>
      if txattrwalk_fid x =? txattrwalk_attrfid x then t' = t
      else walked (txattrwalk_fid x) (txattrwalk_attrfid x) e t t'
  | U_tclunk x => clunked (tclunk_fid x) e t t'
  | U_tremove x => clunked (tremove_fid x) e t t'
  | _ => t' = t
  end.

Definition reply_types (tc : Npfcall) : list Z :=
  if fc_type tc =? Tauth then [Rauth; Rlerror] else [fc_type tc + 1].

(** What the server guarantees of a connection between requests. *)
Record served_well (s : hstate) : Prop := {
  sw_ok : pool_ok (h_pool s);
  sw_named : named (sig (h_pool s));
  sw_owned : owned (sig (h_pool s));
  sw_msize : h_msize s < 2 ^ 31;
}.

Lemma xattrwalk_self x s : ready s -> srv_loosefid (fidconf srv) = false ->
  (forall l, h_fid s = Some l -> exists e, sig (h_pool s) !! l = Some e /\
     e_num e = txattrwalk_attrfid x /\ e_zombie e = false /\ e_user e = true) ->
  neutral Rxattrwalk (np_xattrwalk srv x) s.
Proof.
  intros [Ho He _] Hloose Hl. unfold neutral, np_xattrwalk. apply runs_bind, runs_reqfid.
  destruct (h_fid s) as [l|]; [|by apply neutral_fail].
  destruct (Hl l eq_refl) as (e & El & Hn & Hz & Hu).
  assert (Hno : forall t, ~ displaced srv (txattrwalk_attrfid x) (sig (h_pool s)) t).
  { intros t [Hun|]; [|congruence]. specialize (Hun l e El Hn). congruence. }
  apply runs_bind, runs_create; [done| | |].
  - intros l' t s1 _ Hd. by destruct (Hno t).
  - intros t s1 Hd. by destruct (Hno t).
  - intros s1 M1 E1. apply runs_bind, runs_rerror. rewrite E1. cbn.
    apply (log_fid_user_runs l EIO s1 e); [by rewrite (mv_sig _ _ _ M1)|done|].
    split; [|done]. eapply keeps_trans; [by apply (moves_self _ _ _ M1)|apply keeps_err].
Qed.

Lemma makes_eio t n e h s : pool_ok (h_pool s) -> h s = Ret (None, with_err EIO s) ->
  makes srv t n e h s.
Proof.
  intros Ho E. exists None, (with_err EIO s). split; [done|]. split; [done|].
  exists (sig (h_pool s)). split; [by left|]. by apply keeps_moves; [|apply keeps_err].
Qed.

Lemma serve_walk tc noreply x s : fc_type tc = Twalk -> fc_u tc = U_twalk x ->
  typed (fc_type tc) (fc_u tc) -> memory -> served_well s ->
  runs (serve srv tc noreply) s
    (done_with tc noreply [Rwalk] (h_msize s) (fun e t' => effect tc e (sig (h_pool s)) t')).
Proof.
  intros Ety Eu Ht Hmem [Ho Hnm How _]. unfold effect. rewrite Eu.
  assert (Hx : walk_request x).
  { rewrite Ety, Eu in Ht. by inversion Ht. }
  destruct (Z.eqb_spec (twalk_fid x) (twalk_newfid x)) as [Eq|Ne].
  - eapply (serve_neutral tc noreply Rwalk); try (by rewrite Ety); try (by rewrite Eu); try done.
    { intros y Ey. rewrite Eu in Ey. by injection Ey as <-. }
    intros s1 R1 _. destruct (h_fid s1) as [l|] eqn:El.
    + destruct (Z.lt_ge_cases MAXWELEM (twalk_nwname x)).
      * apply np_walk_neutral_fail; [done|by right].
      * by apply (np_walk_self srv x l).
    + apply np_walk_neutral_fail; [done|by left].
  - eapply (serve_makes tc noreply Rwalk); try (by rewrite Ety); try (by rewrite Eu); try done.
    { intros y Ey. rewrite Eu in Ey. by injection Ey as <-. }
    { intros s1 R1 F1. unfold np_walk, hbind, reqfid. cbn. by rewrite F1. }
    intros s1 l e1 R1 F1 E1 N1 (l' & e & E & A & U).
    destruct (Z.lt_ge_cases MAXWELEM (twalk_nwname x)) as [Hlt|Hge].
    + apply makes_eio; [apply R1|]. unfold np_walk, hbind, reqfid. cbn. rewrite F1.
      by rewrite (proj2 (Z.ltb_lt _ _) Hlt).
    + apply (np_walk_makes srv x l); try done.
      * rewrite U. by eapply How. * rewrite A. by eapply Hnm.
Qed.

Lemma serve_xattrwalk tc noreply x s : fc_type tc = Txattrwalk -> fc_u tc = U_txattrwalk x ->
  typed (fc_type tc) (fc_u tc) -> served_well s ->
  (txattrwalk_fid x = txattrwalk_attrfid x -> srv_loosefid (fidconf srv) = false) ->
  runs (serve srv tc noreply) s
    (done_with tc noreply [Rxattrwalk] (h_msize s) (fun e t' => effect tc e (sig (h_pool s)) t')).
Proof.
  intros Ety Eu Ht [Ho Hnm How _] Hself. unfold effect. rewrite Eu.
  destruct (Z.eqb_spec (txattrwalk_fid x) (txattrwalk_attrfid x)) as [Eq|Ne].
  - eapply (serve_runs _ _ _ _ _ _ (np_xattrwalk srv x) (holding s (txattrwalk_fid x)));
      [done|by rewrite Ety..|by rewrite Ety|by rewrite Eu| |].
    { by eapply preprocess_find; [rewrite Ety|rewrite Eu|]. }
    intros s1 HP. eapply runs_mono.
    { apply xattrwalk_self; [by eapply holding_ready|by apply Hself|].
      destruct HP as (_ & _ & Hf). cbn. intros l El. rewrite El in Hf.
      destruct Hf as (e & Ee & Hn & Hz & ->). rewrite lookup_insert_eq. eexists.
      split; [done|]. cbn. split; [congruence|]. split; [done|by eapply How]. }
    intros rc s2 [K2 S2]. destruct K2 as [K2o K2s K2f K2m]. cbn in *.
    split; [rewrite K2m; by destruct HP as [-> _]|].
    assert (Hho : holds tc s2 = h_fid s2) by (unfold holds; by rewrite Ety, andb_false_r).
    split; [exists Rxattrwalk; split; [by left|done]|]. split; [apply K2o, HP|].
    split; [by intros _ y Ey; rewrite Eu in Ey|]. rewrite Hho. split.
    + intros l El. rewrite K2f in El. unfold live. rewrite K2s.
      by apply (rd_live _ (holding_ready _ _ _ HP)).
    + intros t'. by eapply holding_released.
  - eapply (serve_makes tc noreply Rxattrwalk); try (by rewrite Ety); try (by rewrite Eu); try done.
    { intros s1 R1 F1. unfold np_xattrwalk, hbind, reqfid. cbn. by rewrite F1. }
    intros s1 l e1 R1 F1 E1 N1 (l' & e & E & A & U).
    apply (np_xattrwalk_makes srv x l); try done; [| |congruence].
    + rewrite U. by eapply How.
    + rewrite A. by eapply Hnm.
Qed.

(** A handler that leaves the table alone, found by its type. *)
Lemma serve_plain tc noreply g n gh h s : typed (fc_type tc) (fc_u tc) ->
  switch find_cases (fc_type tc) = Some g -> g (fc_u tc) = Some n ->
  switch (handlers srv tc) (fc_type tc) = Some gh -> gh (fc_u tc) = Some h ->
  fc_type tc <> Tclunk -> fc_type tc <> Tremove -> fc_type tc <> Tauth ->
  (forall x, fc_u tc <> U_twalk x) -> pool_ok (h_pool s) ->
  (forall t', t' = sig (h_pool s) -> forall e, effect tc e (sig (h_pool s)) t') ->
  (forall s1, ready s1 -> h_msize s1 = h_msize s -> neutral (fc_type tc + 1) h s1) ->
  runs (serve srv tc noreply) s
    (done_with tc noreply (reply_types tc) (h_msize s) (fun e t' => effect tc e (sig (h_pool s)) t')).
Proof.
  intros Ht Eg En Egh Eh N1 N2 N3 Nw Ho He Hh. unfold reply_types.
  rewrite (proj2 (Z.eqb_neq (fc_type tc) Tauth) N3).
  eapply runs_mono; [eapply (serve_neutral tc noreply (fc_type tc + 1)); try done|].
  { by intros ->. } { by intros ->. } { intros x Ex. by destruct (Nw x). }
  intros r s' (Hm & Ha & Hf & Hp & Es). split; [done|]. split; [done|]. split; [done|]. split; [done|]. by apply He.
Qed.

Ltac plain_request Hn :=
  eapply serve_plain;
  [ by constructor | reflexivity | reflexivity | reflexivity | reflexivity | done | done | done
  | done | done | by intros t' -> e | intros s1 R1 Hm; by apply Hn ].

Lemma serve_request_runs tc noreply s :
  typed (fc_type tc) (fc_u tc) -> fc_type tc <> Tflush -> strings_ok tc -> memory ->
  (forall x, fc_u tc = U_txattrwalk x -> txattrwalk_fid x = txattrwalk_attrfid x ->
     srv_loosefid (fidconf srv) = false) ->
  served_well s ->
  runs (serve srv tc noreply) s
    (done_with tc noreply (reply_types tc) (h_msize s) (fun e t' => effect tc e (sig (h_pool s)) t')).
Proof.
  intros Ht Nf Hs Hmem Hx Hw. pose proof Hw as [Ho Hnm How Hms].
  destruct tc as [sz ty tag pkt u]. cbn [fc_type fc_u] in *. destruct Ht.
  - plain_request np_statfs_neutral.
  - plain_request np_lopen_neutral.
  - plain_request np_lcreate_neutral.
  - plain_request np_symlink_neutral.
  - plain_request np_mknod_neutral.
  - plain_request np_rename_neutral.
  - plain_request np_readlink_neutral.
  - plain_request np_getattr_neutral.
  - plain_request np_setattr_neutral.
  - eapply serve_xattrwalk; [done|done|by constructor|done|by apply Hx].
  - plain_request np_xattrcreate_neutral.
  - plain_request np_readdir_neutral.
  - plain_request np_fsync_neutral.
  - plain_request np_lock_neutral.
  - plain_request np_getlock_neutral.
  - plain_request np_link_neutral.
  - plain_request np_mkdir_neutral.
  - plain_request np_renameat_neutral.
  - plain_request np_unlinkat_neutral.
  - eapply serve_version; [by constructor|done|done|done|done].
  - destruct Hs as [bs Hs]. eapply serve_auth; [by constructor|done|done|done|done|done].
  - destruct Hs as [bs Hs]. eapply serve_attach; [by constructor|done|done|done|done|done].
  - done.
  - eapply serve_walk; [done|done|by constructor|done|done].
  - eapply serve_plain; [by constructor|reflexivity..|done|done|done|done|done|by intros t' -> e|].
    intros s1 R1 Hm. apply np_read_neutral; [done|done|congruence|done].
  - plain_request np_write_neutral.
  - eapply serve_clunk; [by constructor|reflexivity..|by left|done|done| |].
    + intros s1 l e R1. by apply np_clunk_drops.
    + apply np_clunk_nofid.
  - eapply serve_clunk; [by constructor|reflexivity..|by right|done|done| |].
    + intros s1 l e R1. by apply np_remove_drops.
    + apply np_remove_nofid.
Qed.

End Serve.

(** A Tclunk of fid 5 with tag 1. *)
Definition clunk_packet : list Z := [11; 0; 0; 0; 120; 1; 0; 5; 0; 0; 0].

Definition clunk_request : Npfcall := {|
  fc_size := 11; fc_type := Tclunk; fc_tag := 1; fc_pkt := clunk_packet;
  fc_u := U_tclunk {| tclunk_fid := 5 |} |}.

Lemma received_requests_typed_witness :
  np_deserialize (blank_fcall clunk_packet) = Ret (11, clunk_request) /\
  exists g h, (Tclunk, g) ∈ @handlers big_heap sample_env sample_srv clunk_request /\ g (fc_u clunk_request) = Some h /\
    forall s, @np_process_request big_heap sample_env sample_srv clunk_request s =
      hbind (np_uerror 0) (fun _ => hbind h (fun rc s => let! k := io_bytes Tclunk rc in Ret ((rc, k), s))) s.
Proof.
  assert (E : np_deserialize (blank_fcall clunk_packet) = Ret (11, clunk_request))
    by (vm_compute; reflexivity).
  split; [exact E|].
  destruct (@received_requests_typed big_heap sample_env sample_srv (blank_fcall clunk_packet) 11 clunk_request E)
    as [[Hf _]|(_ & _ & Hh)]; [lia|vm_compute; reflexivity|discriminate Hf|exact Hh].
Defined.
