(* ===== verification/Session.v ===== *)
(** * The requests of a connection (libnpfs/conn.c, libnpfs/srv.c)

    The read loop of a connection and the processing of its requests, one after
    the other: whatever bytes a client sends and whatever the file system does
    within its contract, the server serves each request to the end, answers it
    with its tag and keeps the fid table in order. *)
From S2P Require Import Prelude Cbuf Protocol Create Deserialize Wire Builders Codec Safety CodecSpec.
From S2P Require Import Npstring Fidpool Replies Fcall Account Sample Handlers Srv SrvSpec.
From stdpp Require Import list gmap.
#[local] Open Scope Z_scope.

(** ** Receiving *)

(** One message in the buffer of [np_trans_recv]: parsed, or the connection is
    dropped. *)
Definition receive (pkt : list Z) : res (option Npfcall) :=
  let! (n, fc) := np_deserialize (blank_fcall pkt) in
  Ret (if n =? 0 then None else if np_check_allowed fc then Some fc else None).

(** A buffer that holds the message its size field announces. *)
Record delivered (pkt : list Z) : Prop := {
  dl_bytes : is_packet (take 4 pkt);
  dl_header : 4 <= zlength pkt;
  dl_whole : msg_size pkt <= zlength pkt;
  dl_small : msg_size pkt < 2 ^ 31;
}.

Lemma str_in_bytes pkt lo hi s : 0 <= lo -> hi <= zlength pkt -> str_in lo hi s ->
  exists bs, npstr_bytes pkt s = Ret bs.
Proof.
  intros Hlo Hhi (a & Ea & ? & ? & ?). unfold npstr_bytes. rewrite Ea.
  rewrite load_bytes_ok by lia. eauto.
Qed.

Lemma receive_runs pkt : delivered pkt -> exists o, receive pkt = Ret o /\
  forall tc, o = Some tc -> typed (fc_type tc) (fc_u tc) /\
    forall s, s ∈ u_strs (fc_u tc) -> exists bs, npstr_bytes (fc_pkt tc) s = Ret bs.
Proof.
  intros [Hb Hh Hw Hs]. unfold receive.
  destruct (np_deserialize_run (blank_fcall pkt) Hb Hh Hw Hs) as (n & fc & E & Hp & Hz & HV).
  rewrite E. cbn [res_bind]. eexists. split; [done|]. intros tc Htc.
  destruct (Z.eqb_spec n 0) as [|Hn]; [done|]. destruct (np_check_allowed fc) eqn:Ha; [|done].
  injection Htc as <-. apply bool_decide_eq_true in Ha. split; [by eapply deserialize_typed|].
  intros s Hin. destruct HV as [|[-> [HV _]]]; [done|].
  rewrite Forall_forall in HV. specialize (HV s Hin).
  rewrite Hp. eapply str_in_bytes; [| |exact HV]; [lia|]. rewrite Hz. exact Hw.
Qed.

(** Two conditions on requests that the code does not check: the version string
    of a Tversion holds no zero byte, and with loose fids the new fid of a
    Txattrwalk is not the fid it starts from. *)
Definition plain_version (tc : Npfcall) : Prop :=
  forall x bs, fc_u tc = U_tversion x -> npstr_bytes (fc_pkt tc) (tversion_version x) = Ret bs ->
    no_nul bs.

Definition xattr_apart (srv : Npsrv) (tc : Npfcall) : Prop :=
  forall x, fc_u tc = U_txattrwalk x -> txattrwalk_fid x = txattrwalk_attrfid x ->
    srv_loosefid (fidconf srv) = false.

Definition good_packet (srv : Npsrv) (pkt : list Z) : Prop :=
  delivered pkt /\ forall tc, receive pkt = Ret (Some tc) -> plain_version tc /\ xattr_apart srv tc.

Lemma receive_strings tc : (forall s, s ∈ u_strs (fc_u tc) ->
    exists bs, npstr_bytes (fc_pkt tc) s = Ret bs) -> plain_version tc -> strings_ok tc.
Proof.
  intros Hs Hv. unfold strings_ok. destruct (fc_u tc) eqn:Eu; try done.
  - match goal with |- context [tversion_version ?x] =>
      destruct (Hs (tversion_version x)) as [bs Hbs]; [by apply list_elem_of_singleton|];
      destruct (np_strcmp_run (fc_pkt tc) (tversion_version x) version_L bs Hbs) as (r & E & _)
    end; [by eapply Hv|by repeat constructor|by exists r].
  - apply Hs. cbn. set_solver.
  - apply Hs. cbn. set_solver.
Qed.

Section Session.
Context `{CHeap} `{FsOk}.
Variable srv : Npsrv.

(** ** One request *)

Lemma serve_request_strings tc noreply s : typed (fc_type tc) (fc_u tc) -> fc_type tc <> Tflush ->
  strings_ok tc -> xattr_apart srv tc -> memory -> served_well s ->
  exists out n s' t, serve srv tc noreply s = Ret ((out, n), s') /\
    t ∈ reply_types tc /\ answered tc noreply t (h_err s') out /\
    h_fid s' = None /\ pool_ok (h_pool s') /\ h_msize s' <= h_msize s /\
    effect srv tc (h_err s') (sig (h_pool s)) (sig (h_pool s')).
Proof.
  intros Ht Nf Hs Hx Hmem Hw.
  destruct (serve_request_runs srv tc noreply s Ht Nf Hs Hmem Hx Hw)
    as ([out n] & s' & E & Hm & (t & Hin & Ha) & Hf & Hp & He).
  exists out, n, s', t. done.
Qed.


(** ** Sessions *)

Lemma displaced_named n t t' : displaced srv n t t' -> named t -> named t'.
Proof.
  intros [|l e _ El _ _] Ht; [done|]. intros l' e'. destruct (decide (l = l')) as [<-|].
  - rewrite lookup_insert_eq. intros [= <-]. exact (Ht l e El).
  - rewrite lookup_insert_ne by done. apply Ht.
Qed.

Lemma displaced_owned n t t' : displaced srv n t t' -> owned t -> owned t'.
Proof.
  intros [|l e _ El _ _] Ht; [done|]. intros l' e'. destruct (decide (l = l')) as [<-|].
  - rewrite lookup_insert_eq. intros [= <-]. exact (Ht l e El).
  - rewrite lookup_insert_ne by done. apply Ht.
Qed.

Lemma named_insert t l e : named t -> e_aname e = true -> named (<[l := e]> t).
Proof. intros Ht He l' e' [[_ <-]|[_ E]]%lookup_insert_Some; [done|by eapply Ht]. Qed.

Lemma owned_insert t l e : owned t -> e_user e = true -> owned (<[l := e]> t).
Proof. intros Ht He l' e' [[_ <-]|[_ E]]%lookup_insert_Some; [done|by eapply Ht]. Qed.

Lemma named_delete t l : named t -> named (delete l t).
Proof. intros Ht l' e' [_ E]%lookup_delete_Some. by eapply Ht. Qed.

Lemma owned_delete t l : owned t -> owned (delete l t).
Proof. intros Ht l' e' [_ E]%lookup_delete_Some. by eapply Ht. Qed.

(** What the entries of the table have once [t'] replaces [t]. *)
Definition sound (t : gmap loc entry) : Prop := named t /\ owned t.

Lemma displaced_sound n t t' : displaced srv n t t' -> sound t -> sound t'.
Proof.
  intros Hd [? ?]. split; [by eapply displaced_named|by eapply displaced_owned].
Qed.

Lemma sound_insert t l e : sound t -> e_aname e = true -> e_user e = true ->
  sound (<[l := e]> t).
Proof. intros [? ?] ? ?. split; [by apply named_insert|by apply owned_insert]. Qed.

Lemma sound_delete t l : sound t -> sound (delete l t).
Proof. intros [? ?]. split; [by apply named_delete|by apply owned_delete]. Qed.

Lemma clunked_keeps n e t t' : clunked n e t t' -> sound t -> sound t'.
Proof.
  unfold clunked. intros Hc Hn. destruct (e =? EINTR); [by subst|].
  destruct Hc as [[_ ->]|(l & en & El & _ & _ & ->)]; [done|].
  destruct (e_refs en =? 1); [by apply sound_delete|].
  apply sound_insert; [done|by apply (proj1 Hn _ _ El)|by apply (proj2 Hn _ _ El)].
Qed.

Lemma walked_keeps m n e t t' : walked srv m n e t t' -> sound t -> sound t'.
Proof.
  unfold walked. intros Hw Hn. destruct (e =? 0).
  - destruct Hw as (l0 & e0 & l & t1 & El & _ & _ & _ & Hd & ->).
    apply sound_insert; [by eapply displaced_sound|done|by apply (proj2 Hn _ _ El)].
  - destruct Hw as [->|Hd]; [done|by eapply displaced_sound].
Qed.

Lemma effect_keeps tc e t t' : effect srv tc e t t' -> has_auth srv = false ->
  sound t -> sound t'.
Proof.
  unfold effect. intros He Ha Hn.
  destruct (fc_u tc); try (subst t'; done); try (by eapply clunked_keeps).
  - destruct (_ =? _); [by subst|by eapply walked_keeps].
  - destruct He as [[->|Hd]|[? _]]; [done|by eapply displaced_sound|congruence].
  - unfold attached_to in He. destruct (e =? 0).
    + destruct He as (l & t1 & _ & Hd & ->).
      apply sound_insert; [by eapply displaced_sound|done|done].
    + destruct He as [->|Hd]; [done|by eapply displaced_sound].
  - destruct (_ =? _); [by subst|by eapply walked_keeps].
Qed.

(** The read loop, with every request served before the next message is taken:
    what is sent for each request, until the connection is dropped.  A flush
    finds nothing to flush then, and is answered at once. *)
Fixpoint session (pkts : list (list Z)) : HM (list (option Npfcall)) :=
  match pkts with
  | [] => hret []
  | pkt :: pkts => fun s =>
      let! o := receive pkt in
      match o with
      | None => Ret ([], s)
      | Some tc =>
          let! (out, s) :=
            if fc_type tc =? Tflush then
              let! out := np_req_respond_flush (fc_tag tc) false in Ret (out, s)
            else let! (r, s) := serve srv tc false s in Ret (r.1, s) in
          let! (outs, s) := session pkts s in
          Ret (out :: outs, s)
      end
  end.

(** The requests that are taken from a sequence of messages. *)
Fixpoint requests (pkts : list (list Z)) : list Npfcall :=
  match pkts with
  | [] => []
  | pkt :: pkts =>
      match receive pkt with
      | Ret (Some tc) => tc :: requests pkts
      | _ => []
      end
  end.

(** The answer to a request, when nothing suppresses it. *)
Definition replied (tc : Npfcall) (out : option Npfcall) : Prop :=
  exists e t, answered tc false t e out /\
    (fc_type tc = Tflush /\ e = 0 /\ t = Rflush \/ fc_type tc <> Tflush /\ t ∈ reply_types tc).

Lemma respond_flush_run tag : exists r, np_req_respond_flush tag false = Ret (Some r) /\
  fc_type r = Rflush /\ fc_tag r = u16 tag.
Proof.
  unfold np_req_respond_flush.
  destruct (rflush_static_run (stack_array STATIC_RFLUSH_SIZE)) as (fc & Ec & Hp & _ & Ht & _).
  { unfold stack_array, zlength. rewrite length_replicate. done. }
  change STATIC_RFLUSH_SIZE with (sizeof_Npfcall + 7) in *. rewrite Ec. cbn [res_bind np_req_respond].
  destruct (set_tag_run fc tag) as (r & -> & Hr). { by rewrite Hp. }
  cbn [res_bind]. exists r. destruct Hr as (? & -> & _). done.
Qed.

End Session.

(** ** Examples *)

Lemma clunk_received : receive clunk_packet = Ret (Some clunk_request).
Proof. reflexivity. Qed.

Lemma clunk_good : good_packet sample_srv clunk_packet.
Proof.
  split.
  - split; [by repeat constructor|vm_compute; congruence..].
  - intros tc. rewrite clunk_received. intros [= <-]. by split.
Qed.

Lemma sample_served_well : @served_well sample_env (@sample_state sample_env tt None).
Proof.
  split; [exact sample_pool_ok| | |done].
  - apply (map_Forall_to_list (fun _ e => e_aname e = true)). vm_compute. by repeat constructor.
  - apply (map_Forall_to_list (fun _ e => e_user e = true)). vm_compute. by repeat constructor.
Qed.



(** A Tauth of fid 7 for user "x" and export "/", and a Twalk from fid 7 to fid 5. *)
Definition auth_packet : list Z :=
  [21; 0; 0; 0; 102; 1; 0; 7; 0; 0; 0; 1; 0; 120; 1; 0; 47; 255; 255; 255; 255].
Definition walk_packet : list Z := [17; 0; 0; 0; 110; 2; 0; 7; 0; 0; 0; 5; 0; 0; 0; 0; 0].

(** The user of a failed Tauth.  On a server with authentication, a Tauth
    for a user that does not exist is refused, but its fid stays in the table
    without a user; a Twalk from that fid to the number of a fid in use then
    reaches a log line that reads the name of the user, and the server
    dereferences a null pointer. *)
Theorem failed_auth_then_walk :
  let srv := {| has := has sample_srv; has_auth := true; srv_flags := 0; fidconf := demo_srv |} in
  let env := failing_env Op_attach2user ENOENT in
  (exists r s', @session big_heap env srv [auth_packet] (@sample_state env tt None)
     = Ret ([Some r], s') /\ fc_type r = Rlerror) /\
  @session big_heap env srv [auth_packet; walk_packet] (@sample_state env tt None) = UB.
Proof.
  split.
  - eexists _, _. split; [vm_compute; reflexivity|reflexivity].
  - vm_compute. reflexivity.
Qed.
