(* ===== verification/Queue.v ===== *)
(** * Requests, queues and worker threads (libnpfs/srv.c, conn.c, fcall.c)

    The life of a request between the read thread of its connection and the
    worker that answers it: reference counts, the doubly linked queues of a
    thread pool, flushes, the end of a connection.  The state is the heap of
    requests with their links; [exec] runs what one thread does between two
    lock operations.  Using a freed request or connection is [UB], a failed
    [NP_ASSERT] is [Abort].  What a handler does with the fid table is the
    subject of Srv.v; here processing a request only gives up its fid. *)
From S2P Require Import Prelude Protocol.
From stdpp Require Import list gmap.
#[local] Open Scope Z_scope.

(** Addresses of requests, connections and fids. *)
Definition rid := positive.
Definition cid := positive.

Inductive Reqstate := REQ_NORMAL | REQ_NOREPLY.

#[export] Instance Reqstate_eq_dec : EqDecision Reqstate.
Proof. solve_decision. Defined.

Record Npreq := {
  r_refcount : Z;
  r_conn : cid;
  r_tag : Z;
  r_state : Reqstate;
  r_flushreq : option rid;
  r_type : Z;     (* tcall->type *)
  r_oldtag : Z;   (* tcall->u.tflush.oldtag *)
  r_fid : option positive;
  r_next : option rid;
  r_prev : option rid;
  r_wthread : option nat;
}.

Record Nptpool := {
  reqs_first : option rid;
  reqs_last : option rid;
  workreqs : option rid;
}.

(** Where the read thread of a connection is: waiting for a message, with a new
    request, with a flush to answer, or in [np_conn_cleanup]. *)
Inductive reader := Reading | Got (r : rid) | Flushed (r : rid) | Closing.

Record Npconn := {
  c_refcount : Z;
  c_reader : reader;
}.

(** Where a worker is: waiting, processing a request, after its response, after
    taking it off the work list, after its flush was answered. *)
Inductive wpc := Idle | Busy (r : rid) | Done (r : rid) | Off (r : rid) | Last (r : rid).

Record Npwthread := {
  w_tpool : nat;
  w_pc : wpc;
}.

Inductive event :=
| Ev_reply (r : rid)          (* the response of a request was sent *)
| Ev_rflush (r : rid)         (* the Rflush of a Tflush was sent *)
| Ev_kill (w : nat)           (* SIGUSR2 to a worker *)
| Ev_fid_decref (l : positive).

Record qstate := {
  reqs : gmap rid Npreq;
  tpools : list Nptpool;
  qconns : gmap cid Npconn;
  workers : list Npwthread;
  fresh_rid : rid;
  out : list event;
}.

(** ** Setters *)

Definition set_r_refcount n q := {| r_refcount := n; r_conn := r_conn q; r_tag := r_tag q;
  r_state := r_state q; r_flushreq := r_flushreq q; r_type := r_type q; r_oldtag := r_oldtag q;
  r_fid := r_fid q; r_next := r_next q; r_prev := r_prev q; r_wthread := r_wthread q |}.
Definition set_r_state n q := {| r_refcount := r_refcount q; r_conn := r_conn q; r_tag := r_tag q;
  r_state := n; r_flushreq := r_flushreq q; r_type := r_type q; r_oldtag := r_oldtag q;
  r_fid := r_fid q; r_next := r_next q; r_prev := r_prev q; r_wthread := r_wthread q |}.
Definition set_r_flushreq n q := {| r_refcount := r_refcount q; r_conn := r_conn q;
  r_tag := r_tag q; r_state := r_state q; r_flushreq := n; r_type := r_type q;
  r_oldtag := r_oldtag q; r_fid := r_fid q; r_next := r_next q; r_prev := r_prev q;
  r_wthread := r_wthread q |}.
Definition set_r_fid n q := {| r_refcount := r_refcount q; r_conn := r_conn q; r_tag := r_tag q;
  r_state := r_state q; r_flushreq := r_flushreq q; r_type := r_type q; r_oldtag := r_oldtag q;
  r_fid := n; r_next := r_next q; r_prev := r_prev q; r_wthread := r_wthread q |}.
Definition set_r_next n q := {| r_refcount := r_refcount q; r_conn := r_conn q; r_tag := r_tag q;
  r_state := r_state q; r_flushreq := r_flushreq q; r_type := r_type q; r_oldtag := r_oldtag q;
  r_fid := r_fid q; r_next := n; r_prev := r_prev q; r_wthread := r_wthread q |}.
Definition set_r_prev n q := {| r_refcount := r_refcount q; r_conn := r_conn q; r_tag := r_tag q;
  r_state := r_state q; r_flushreq := r_flushreq q; r_type := r_type q; r_oldtag := r_oldtag q;
  r_fid := r_fid q; r_next := r_next q; r_prev := n; r_wthread := r_wthread q |}.
Definition set_r_wthread n q := {| r_refcount := r_refcount q; r_conn := r_conn q;
  r_tag := r_tag q; r_state := r_state q; r_flushreq := r_flushreq q; r_type := r_type q;
  r_oldtag := r_oldtag q; r_fid := r_fid q; r_next := r_next q; r_prev := r_prev q;
  r_wthread := n |}.

Definition set_reqs m st := {| reqs := m; tpools := tpools st; qconns := qconns st;
  workers := workers st; fresh_rid := fresh_rid st; out := out st |}.
Definition set_tpools l st := {| reqs := reqs st; tpools := l; qconns := qconns st;
  workers := workers st; fresh_rid := fresh_rid st; out := out st |}.
Definition set_qconns m st := {| reqs := reqs st; tpools := tpools st; qconns := m;
  workers := workers st; fresh_rid := fresh_rid st; out := out st |}.
Definition set_workers l st := {| reqs := reqs st; tpools := tpools st; qconns := qconns st;
  workers := l; fresh_rid := fresh_rid st; out := out st |}.
Definition emits e st := {| reqs := reqs st; tpools := tpools st; qconns := qconns st;
  workers := workers st; fresh_rid := fresh_rid st; out := e :: out st |}.

(** ** Memory *)

Definition load_req (r : rid) (st : qstate) : res Npreq :=
  match reqs st !! r with Some q => Ret q | None => UB end.

Definition upd_req (r : rid) (f : Npreq -> Npreq) (st : qstate) : res qstate :=
  let! q := load_req r st in Ret (set_reqs (<[r := f q]> (reqs st)) st).

(** [if (p) p->field = ...]. *)
Definition upd_req_opt (o : option rid) (f : Npreq -> Npreq) (st : qstate) : res qstate :=
  match o with Some r => upd_req r f st | None => Ret st end.

Definition load_tpool (i : nat) (st : qstate) : res Nptpool :=
  match tpools st !! i with Some t => Ret t | None => UB end.

Definition put_tpool (i : nat) (t : Nptpool) (st : qstate) : qstate :=
  set_tpools (<[i := t]> (tpools st)) st.

Definition load_conn (c : cid) (st : qstate) : res Npconn :=
  match qconns st !! c with Some k => Ret k | None => UB end.

Definition put_conn (c : cid) (k : Npconn) (st : qstate) : qstate :=
  set_qconns (<[c := k]> (qconns st)) st.

Definition set_reader (c : cid) (pc : reader) (st : qstate) : res qstate :=
  let! k := load_conn c st in
  Ret (put_conn c {| c_refcount := c_refcount k; c_reader := pc |} st).

Definition set_worker (w : nat) (i : nat) (pc : wpc) (st : qstate) : qstate :=
  set_workers (<[w := {| w_tpool := i; w_pc := pc |}]> (workers st)) st.

(** ** Connections *)

Definition np_conn_incref (c : cid) (st : qstate) : res qstate :=
  let! k := load_conn c st in
  Ret (put_conn c {| c_refcount := c_refcount k + 1; c_reader := c_reader k |} st).

Definition np_conn_decref (c : cid) (st : qstate) : res qstate :=
  let! k := load_conn c st in
  let! _ := np_assert (0 <? c_refcount k) in
  Ret (put_conn c {| c_refcount := c_refcount k - 1; c_reader := c_reader k |} st).

(** ** Requests *)

Definition np_req_alloc (c : cid) (type tag oldtag : Z) (fid : option positive) (st : qstate)
  : res (rid * qstate) :=
  let r := fresh_rid st in
  let! st := np_conn_incref c st in
  Ret (r, {| reqs := <[r := {| r_refcount := 1; r_conn := c; r_tag := tag; r_state := REQ_NORMAL;
                r_flushreq := None; r_type := type; r_oldtag := oldtag; r_fid := fid;
                r_next := None; r_prev := None; r_wthread := None |}]> (reqs st);
             tpools := tpools st; qconns := qconns st; workers := workers st;
             fresh_rid := Pos.succ r; out := out st |}).

(** [n] bounds the chain of flushes that [np_req_unref] follows. *)
Fixpoint np_req_unref (n : nat) (r : rid) (st : qstate) : res qstate :=
  match n with
  | O => UB
  | S n =>
      let! q := load_req r st in
      let! _ := np_assert (0 <? r_refcount q) in
      let refcount := r_refcount q - 1 in
      let! st := upd_req r (set_r_refcount refcount) st in
      if negb (refcount =? 0) then Ret st
      else
        let st := match r_fid q with Some l => emits (Ev_fid_decref l) st | None => st end in
        let! st := match r_flushreq q with Some f => np_req_unref n f st | None => Ret st end in
        let! st := np_conn_decref (r_conn q) st in
        Ret (set_reqs (delete r (reqs st)) st)
  end.

Definition unref_depth : nat := 2.

(** [np_req_respond]: what is sent depends on the request; the connection must
    still exist. *)
Definition np_req_send (e : event) (r : rid) (st : qstate) : res qstate :=
  let! q := load_req r st in
  match r_state q with
  | REQ_NORMAL => let! _ := load_conn (r_conn q) st in Ret (emits e st)
  | REQ_NOREPLY => Ret st
  end.

(** ** The queues of a thread pool *)

Definition np_srv_add_req (i : nat) (r : rid) (st : qstate) : res qstate :=
  let! t := load_tpool i st in
  let! st := upd_req r (set_r_prev (reqs_last t)) st in
  let! st := upd_req_opt (reqs_last t) (set_r_next (Some r)) st in
  Ret (put_tpool i {| reqs_first := match reqs_first t with Some f => Some f | None => Some r end;
                      reqs_last := Some r; workreqs := workreqs t |} st).

Definition np_srv_remove_req (i : nat) (r : rid) (st : qstate) : res qstate :=
  let! t := load_tpool i st in
  let! q := load_req r st in
  let! st := upd_req_opt (r_prev q) (set_r_next (r_next q)) st in
  let! st := upd_req_opt (r_next q) (set_r_prev (r_prev q)) st in
  Ret (put_tpool i
    {| reqs_first := if decide (reqs_first t = Some r) then r_next q else reqs_first t;
       reqs_last := if decide (reqs_last t = Some r) then r_prev q else reqs_last t;
       workreqs := workreqs t |} st).

Definition np_srv_add_workreq (i : nat) (r : rid) (st : qstate) : res qstate :=
  let! t := load_tpool i st in
  let! st := upd_req_opt (workreqs t) (set_r_prev (Some r)) st in
  let! st := upd_req r (set_r_next (workreqs t)) st in
  let st := put_tpool i {| reqs_first := reqs_first t; reqs_last := reqs_last t;
                           workreqs := Some r |} st in
  upd_req r (set_r_prev None) st.

Definition np_srv_remove_workreq (i : nat) (r : rid) (st : qstate) : res qstate :=
  let! t := load_tpool i st in
  let! q := load_req r st in
  let! st := match r_prev q with
             | Some y => upd_req y (set_r_next (r_next q)) st
             | None => Ret (put_tpool i {| reqs_first := reqs_first t; reqs_last := reqs_last t;
                                           workreqs := r_next q |} st)
             end in
  upd_req_opt (r_next q) (set_r_prev (r_prev q)) st.

Section Server.
(** [SRV_FLAGS_FLUSHSIG]. *)
Variable flushsig : bool.

(** [pthread_kill (creq->wthread->thread, SIGUSR2)]. *)
Definition kill_worker (q : Npreq) (st : qstate) : res qstate :=
  if flushsig then
    match r_wthread q with Some w => Ret (emits (Ev_kill w) st) | None => UB end
  else Ret st.

(** ** Flush *)

(** The first request of a list with the tag of a connection. *)
Fixpoint find_req (fuel : nat) (c : cid) (tag : Z) (o : option rid) (st : qstate)
  : res (option rid) :=
  match o, fuel with
  | None, _ => Ret None
  | Some _, O => UB
  | Some r, S fuel =>
      let! q := load_req r st in
      if decide (r_conn q = c /\ r_tag q = tag) then Ret (Some r)
      else find_req fuel c tag (r_next q) st
  end.

(** The loop of [np_flush] over the pools: [true] if the Rflush can be sent. *)
Fixpoint flush_pools (f : rid) (c : cid) (oldtag : Z) (ps : list nat) (st : qstate)
  : res (bool * qstate) :=
  match ps with
  | [] => Ret (true, st)
  | i :: ps =>
      let! t := load_tpool i st in
      let! o := find_req (size (reqs st)) c oldtag (reqs_first t) st in
      match o with
      | Some creq =>
          let! st := np_srv_remove_req i creq st in
          let! st := np_req_unref unref_depth creq st in
          Ret (true, st)
      | None =>
          let! o := find_req (size (reqs st)) c oldtag (workreqs t) st in
          match o with
          | Some creq =>
              let! q := load_req creq st in
              let! st := match r_flushreq q with
                         | Some f0 => np_req_unref unref_depth f0 st
                         | None => Ret st
                         end in
              let! st := upd_req creq (set_r_flushreq (Some f)) st in
              let! st := kill_worker q st in
              Ret (false, st)
          | None => flush_pools f c oldtag ps st
          end
      end
  end.

Definition np_flush (f : rid) (st : qstate) : res (bool * qstate) :=
  let! q := load_req f st in
  flush_pools f (r_conn q) (r_oldtag q) (seq 0 (length (tpools st))) st.

(** ** The end of a connection *)

Fixpoint drop_reqs (fuel : nat) (i : nat) (c : cid) (o : option rid) (st : qstate) : res qstate :=
  match o, fuel with
  | None, _ => Ret st
  | Some _, O => UB
  | Some r, S fuel =>
      let! q := load_req r st in
      let nextreq := r_next q in
      let! st := if decide (r_conn q = c) then
                   let! st := np_srv_remove_req i r st in np_req_unref unref_depth r st
                 else Ret st in
      drop_reqs fuel i c nextreq st
  end.

Fixpoint silence_reqs (fuel : nat) (c : cid) (o : option rid) (st : qstate) : res qstate :=
  match o, fuel with
  | None, _ => Ret st
  | Some _, O => UB
  | Some r, S fuel =>
      let! q := load_req r st in
      let! st := if decide (r_conn q = c) then
                   let! st := upd_req r (set_r_state REQ_NOREPLY) st in kill_worker q st
                 else Ret st in
      silence_reqs fuel c (r_next q) st
  end.

Fixpoint flush_conn_pools (c : cid) (ps : list nat) (st : qstate) : res qstate :=
  match ps with
  | [] => Ret st
  | i :: ps =>
      let! t := load_tpool i st in
      let! st := drop_reqs (size (reqs st)) i c (reqs_first t) st in
      let! t := load_tpool i st in
      let! st := silence_reqs (size (reqs st)) c (workreqs t) st in
      flush_conn_pools c ps st
  end.

Definition np_conn_flush (c : cid) (st : qstate) : res qstate :=
  flush_conn_pools c (seq 0 (length (tpools st))) st.

(** ** The threads *)

(** Who does what next.  The environment chooses the messages, the pool of the
    fid a request is on, and whether an operation was interrupted. *)
Inductive label :=
| L_connect (c : cid)
| L_recv (c : cid) (type tag oldtag : Z) (fid : option positive)
| L_dispatch (c : cid) (i : nat)
| L_rflush (c : cid)
| L_close (c : cid)
| L_destroy (c : cid)
| L_take (w : nat)
| L_process (w : nat) (interrupted : bool)
| L_unwork (w : nat)
| L_flushreply (w : nat)
| L_release (w : nat).

(** [np_postprocess_request] after the handler.  The request gives up its fid
    here; what that does to the fid table is in Srv.v. *)
Definition np_postprocess (r : rid) (interrupted : bool) (st : qstate) : res qstate :=
  let! st := if interrupted then upd_req r (set_r_state REQ_NOREPLY) st else Ret st in
  let! st := upd_req r (set_r_fid None) st in
  np_req_send (Ev_reply r) r st.

Definition np_postprocess_flush (r : rid) (st : qstate) : res qstate :=
  let! q := load_req r st in
  match r_flushreq q with
  | None => Ret st
  | Some f =>
      let! st := np_req_send (Ev_rflush f) f st in
      let! st := np_req_unref unref_depth f st in
      upd_req r (set_r_flushreq None) st
  end.

(** One iteration of [np_conn_read_proc], in three parts, and its cleanup. *)
Definition exec_reader (c : cid) (l : label) (st : qstate) : res (option qstate) :=
  match qconns st !! c with
  | None =>
      match l with
      | L_connect _ => Ret (Some (put_conn c {| c_refcount := 0; c_reader := Reading |} st))
      | _ => Ret None
      end
  | Some k =>
      match l, c_reader k with
      | L_recv _ type tag oldtag fid, Reading =>
          let! (r, st) := np_req_alloc c type tag oldtag fid st in
          let! st := set_reader c (Got r) st in
          Ret (Some st)
      | L_dispatch _ i, Got r =>
          let! q := load_req r st in
          if r_type q =? Tflush then
            let! (now, st) := np_flush r st in
            let! st := set_reader c (if now : bool then Flushed r else Reading) st in
            Ret (Some st)
          else if (i <? length (tpools st))%nat then
            let! st := np_srv_add_req i r st in
            let! st := set_reader c Reading st in
            Ret (Some st)
          else Ret None
      | L_rflush _, Flushed r =>
          let! st := np_req_send (Ev_rflush r) r st in
          let! st := np_req_unref unref_depth r st in
          let! st := set_reader c Reading st in
          Ret (Some st)
      | L_close _, Reading =>
          let! st := np_conn_flush c st in
          let! st := set_reader c Closing st in
          Ret (Some st)
      | L_destroy _, Closing =>
          if c_refcount k =? 0 then Ret (Some (set_qconns (delete c (qconns st)) st))
          else Ret None
      | _, _ => Ret None
      end
  end.

(** One iteration of [np_wthread_proc], in five parts. *)
Definition exec_worker (w : nat) (l : label) (st : qstate) : res (option qstate) :=
  match workers st !! w with
  | None => Ret None
  | Some t =>
      let i := w_tpool t in
      match l, w_pc t with
      | L_take _, Idle =>
          let! tp := load_tpool i st in
          match reqs_first tp with
          | None => Ret None
          | Some r =>
              let! st := np_srv_remove_req i r st in
              let! st := np_srv_add_workreq i r st in
              let! st := upd_req r (set_r_wthread (Some w)) st in
              Ret (Some (set_worker w i (Busy r) st))
          end
      | L_process _ interrupted, Busy r =>
          let! st := np_postprocess r interrupted st in
          Ret (Some (set_worker w i (Done r) st))
      | L_unwork _, Done r =>
          let! st := np_srv_remove_workreq i r st in
          Ret (Some (set_worker w i (Off r) st))
      | L_flushreply _, Off r =>
          let! st := np_postprocess_flush r st in
          Ret (Some (set_worker w i (Last r) st))
      | L_release _, Last r =>
          let! st := np_req_unref unref_depth r st in
          Ret (Some (set_worker w i Idle st))
      | _, _ => Ret None
      end
  end.

(** [None]: the thread cannot do this now. *)
Definition exec (l : label) (st : qstate) : res (option qstate) :=
  match l with
  | L_connect c | L_recv c _ _ _ _ | L_dispatch c _ | L_rflush c | L_close c | L_destroy c =>
      exec_reader c l st
  | L_take w | L_process w _ | L_unwork w | L_flushreply w | L_release w => exec_worker w l st
  end.
End Server.

(** A server before its first connection: every pool has its workers. *)
Definition np_srv_start (pools : nat) (wpools : list nat) : qstate := {|
  reqs := ∅;
  tpools := replicate pools {| reqs_first := None; reqs_last := None; workreqs := None |};
  qconns := ∅;
  workers := (fun i => {| w_tpool := i; w_pc := Idle |}) <$> wpools;
  fresh_rid := 1%positive;
  out := [] |}.
