(* ===== verification/QueueSpec.v ===== *)
(** * What the queues and threads of the server do (libnpfs/srv.c, conn.c)

    The same threads as in Queue.v over plain lists: no links, no reference
    counts, no memory to free.  A request is somewhere, [a_place], as long as it
    exists.  QueueSim.v shows that the code does what this machine does. *)
From S2P Require Import Prelude Protocol Queue.
From stdpp Require Import list gmap.
#[local] Open Scope Z_scope.

Inductive place :=
| AtReader (c : cid)
| InQueue (i : nat)
| InWork (i w : nat)
| AtWorker (w : nat)
| FlushOf (r : rid).

Record areq := {
  a_conn : cid;
  a_tag : Z;
  a_state : Reqstate;
  a_flush : option rid;
  a_type : Z;
  a_oldtag : Z;
  a_fid : option positive;
  a_place : place;
}.

Record astate := {
  areqs : gmap rid areq;
  queues : list (list rid);
  works : list (list rid);
  aconns : gmap cid reader;
  aworkers : list Npwthread;
  afresh : rid;
  aout : list event;
}.

Definition set_a_state n x := {| a_conn := a_conn x; a_tag := a_tag x; a_state := n;
  a_flush := a_flush x; a_type := a_type x; a_oldtag := a_oldtag x; a_fid := a_fid x;
  a_place := a_place x |}.
Definition set_a_flush n x := {| a_conn := a_conn x; a_tag := a_tag x; a_state := a_state x;
  a_flush := n; a_type := a_type x; a_oldtag := a_oldtag x; a_fid := a_fid x;
  a_place := a_place x |}.
Definition set_a_fid n x := {| a_conn := a_conn x; a_tag := a_tag x; a_state := a_state x;
  a_flush := a_flush x; a_type := a_type x; a_oldtag := a_oldtag x; a_fid := n;
  a_place := a_place x |}.
Definition set_a_place n x := {| a_conn := a_conn x; a_tag := a_tag x; a_state := a_state x;
  a_flush := a_flush x; a_type := a_type x; a_oldtag := a_oldtag x; a_fid := a_fid x;
  a_place := n |}.

Definition set_areqs m a := {| areqs := m; queues := queues a; works := works a;
  aconns := aconns a; aworkers := aworkers a; afresh := afresh a; aout := aout a |}.
Definition set_queues l a := {| areqs := areqs a; queues := l; works := works a;
  aconns := aconns a; aworkers := aworkers a; afresh := afresh a; aout := aout a |}.
Definition set_works l a := {| areqs := areqs a; queues := queues a; works := l;
  aconns := aconns a; aworkers := aworkers a; afresh := afresh a; aout := aout a |}.
Definition a_emit es a := {| areqs := areqs a; queues := queues a; works := works a;
  aconns := aconns a; aworkers := aworkers a; afresh := afresh a; aout := es ++ aout a |}.
Definition a_reader c pc a := {| areqs := areqs a; queues := queues a; works := works a;
  aconns := <[c := pc]> (aconns a); aworkers := aworkers a; afresh := afresh a; aout := aout a |}.
Definition a_worker w i pc a := {| areqs := areqs a; queues := queues a; works := works a;
  aconns := aconns a; aworkers := <[w := {| w_tpool := i; w_pc := pc |}]> (aworkers a);
  afresh := afresh a; aout := aout a |}.

Definition a_upd (r : rid) (f : areq -> areq) (a : astate) : astate :=
  set_areqs (alter f r (areqs a)) a.

(** The references to a connection. *)
Definition refs (m : gmap rid areq) (c : cid) : nat := size (filter (fun p => a_conn p.2 = c) m).

(** ** Operations *)

(** The end of a request: its fid is given up. *)
Definition a_free (r : rid) (a : astate) : astate :=
  match areqs a !! r with
  | None => a
  | Some x =>
      a_emit (match a_fid x with Some l => [Ev_fid_decref l] | None => [] end)
        (set_areqs (delete r (areqs a)) a)
  end.

Definition a_send (e : event) (r : rid) (a : astate) : astate :=
  match areqs a !! r with
  | Some x => if decide (a_state x = REQ_NORMAL) then a_emit [e] a else a
  | None => a
  end.

Definition without (r : rid) (l : list rid) : list rid := filter (fun y => y <> r) l.

(** A queued request is dropped. *)
Definition a_drop (i : nat) (r : rid) (a : astate) : astate :=
  a_free r (set_queues (alter (without r) i (queues a)) a).

Definition a_matches (m : gmap rid areq) (c : cid) (tag : Z) (r : rid) : bool :=
  match m !! r with
  | Some x => bool_decide (a_conn x = c /\ a_tag x = tag)
  | None => false
  end.

Definition a_find (m : gmap rid areq) (c : cid) (tag : Z) (l : list rid) : option rid :=
  head (filter (fun r => a_matches m c tag r) l).

Section Spec.
Variable flushsig : bool.

Definition a_kill (r : rid) (a : astate) : astate :=
  if flushsig then
    match areqs a !! r with
    | Some x => match a_place x with InWork _ w => a_emit [Ev_kill w] a | _ => a end
    | None => a
    end
  else a.

(** The flush [f] of a request that is worked on: it replaces an earlier one. *)
Definition a_attach (f r : rid) (a : astate) : astate :=
  let a := match areqs a !! r with
           | Some x => match a_flush x with Some f0 => a_free f0 a | None => a end
           | None => a
           end in
  a_kill r (a_upd f (set_a_place (FlushOf r)) (a_upd r (set_a_flush (Some f)) a)).

Fixpoint a_flush_pools (f : rid) (c : cid) (oldtag : Z) (ps : list nat) (a : astate)
  : bool * astate :=
  match ps with
  | [] => (true, a)
  | i :: ps =>
      match a_find (areqs a) c oldtag (default [] (queues a !! i)) with
      | Some r => (true, a_drop i r a)
      | None =>
          match a_find (areqs a) c oldtag (default [] (works a !! i)) with
          | Some r => (false, a_attach f r a)
          | None => a_flush_pools f c oldtag ps a
          end
      end
  end.

Definition of_conn (m : gmap rid areq) (c : cid) (r : rid) : bool :=
  match m !! r with Some x => bool_decide (a_conn x = c) | None => false end.

Definition a_drop_of (i : nat) (c : cid) (a : astate) (r : rid) : astate :=
  if of_conn (areqs a) c r then a_drop i r a else a.

Definition a_silence_of (c : cid) (a : astate) (r : rid) : astate :=
  if of_conn (areqs a) c r then a_kill r (a_upd r (set_a_state REQ_NOREPLY) a) else a.

Definition a_flush_conn_pool (c : cid) (a : astate) (i : nat) : astate :=
  let a := foldl (a_drop_of i c) a (default [] (queues a !! i)) in
  foldl (a_silence_of c) a (default [] (works a !! i)).

Definition a_conn_flush (c : cid) (a : astate) : astate :=
  foldl (a_flush_conn_pool c) a (seq 0 (length (queues a))).

(** ** Steps *)

Definition a_recv (c : cid) (type tag oldtag : Z) (fid : option positive) (a : astate) : astate :=
  a_reader c (Got (afresh a))
    {| areqs := <[afresh a := {| a_conn := c; a_tag := tag; a_state := REQ_NORMAL;
                   a_flush := None; a_type := type; a_oldtag := oldtag; a_fid := fid;
                   a_place := AtReader c |}]> (areqs a);
       queues := queues a; works := works a; aconns := aconns a; aworkers := aworkers a;
       afresh := Pos.succ (afresh a); aout := aout a |}.

Definition astep_reader (c : cid) (l : label) (a : astate) : option astate :=
  match aconns a !! c with
  | None => match l with L_connect _ => Some (a_reader c Reading a) | _ => None end
  | Some pc =>
      match l, pc with
      | L_recv _ type tag oldtag fid, Reading => Some (a_recv c type tag oldtag fid a)
      | L_dispatch _ i, Got r =>
          match areqs a !! r with
          | None => None
          | Some x =>
              if a_type x =? Tflush then
                let '(now, a) := a_flush_pools r (a_conn x) (a_oldtag x)
                                   (seq 0 (length (queues a))) a in
                Some (a_reader c (if now : bool then Flushed r else Reading) a)
              else if (i <? length (queues a))%nat then
                Some (a_reader c Reading (a_upd r (set_a_place (InQueue i))
                  (set_queues (alter (fun l => l ++ [r]) i (queues a)) a)))
              else None
          end
      | L_rflush _, Flushed r => Some (a_reader c Reading (a_free r (a_send (Ev_rflush r) r a)))
      | L_close _, Reading => Some (a_reader c Closing (a_conn_flush c a))
      | L_destroy _, Closing =>
          if decide (refs (areqs a) c = 0%nat) then
            Some {| areqs := areqs a; queues := queues a; works := works a;
                    aconns := delete c (aconns a); aworkers := aworkers a;
                    afresh := afresh a; aout := aout a |}
          else None
      | _, _ => None
      end
  end.

Definition a_take (w i : nat) (r : rid) (l : list rid) (a : astate) : astate :=
  a_worker w i (Busy r) (a_upd r (set_a_place (InWork i w))
    (set_works (alter (cons r) i (works a)) (set_queues (<[i := l]> (queues a)) a))).

Definition a_process (w i : nat) (r : rid) (interrupted : bool) (a : astate) : astate :=
  let a := if interrupted then a_upd r (set_a_state REQ_NOREPLY) a else a in
  a_worker w i (Done r) (a_send (Ev_reply r) r (a_upd r (set_a_fid None) a)).

Definition a_flushreply (r : rid) (a : astate) : astate :=
  match areqs a !! r with
  | Some x =>
      match a_flush x with
      | Some f => a_upd r (set_a_flush None) (a_free f (a_send (Ev_rflush f) f a))
      | None => a
      end
  | None => a
  end.

Definition astep_worker (w : nat) (l : label) (a : astate) : option astate :=
  match aworkers a !! w with
  | None => None
  | Some t =>
      let i := w_tpool t in
      match l, w_pc t with
      | L_take _, Idle =>
          match queues a !! i with
          | Some (r :: l) => Some (a_take w i r l a)
          | _ => None
          end
      | L_process _ interrupted, Busy r => Some (a_process w i r interrupted a)
      | L_unwork _, Done r =>
          Some (a_worker w i (Off r) (a_upd r (set_a_place (AtWorker w))
            (set_works (alter (without r) i (works a)) a)))
      | L_flushreply _, Off r => Some (a_worker w i (Last r) (a_flushreply r a))
      | L_release _, Last r => Some (a_worker w i Idle (a_free r a))
      | _, _ => None
      end
  end.

Definition astep (l : label) (a : astate) : option astate :=
  match l with
  | L_connect c | L_recv c _ _ _ _ | L_dispatch c _ | L_rflush c | L_close c | L_destroy c =>
      astep_reader c l a
  | L_take w | L_process w _ | L_unwork w | L_flushreply w | L_release w => astep_worker w l a
  end.
End Spec.

Definition astart (pools : nat) (wpools : list nat) : astate := {|
  areqs := ∅; queues := replicate pools []; works := replicate pools []; aconns := ∅;
  aworkers := (fun i => {| w_tpool := i; w_pc := Idle |}) <$> wpools;
  afresh := 1%positive; aout := [] |}.
