(* ===== verification/QueueInv.v ===== *)
(** * Who holds which request (libnpfs/srv.c, conn.c)

    The invariant of the threads: a request that exists is in exactly one
    place, and what a thread, a queue or a flushed request refers to exists and
    is there. *)
From S2P Require Import Prelude Protocol Queue QueueSpec.
From stdpp Require Import list gmap.
#[local] Open Scope Z_scope.

(** Place, flush and connection of a request. *)
Definition pl (a : astate) (r : rid) : option place := a_place <$> areqs a !! r.
Definition fl (a : astate) (r : rid) : option rid := areqs a !! r ≫= a_flush.
Definition cn (a : astate) (r : rid) : option cid := a_conn <$> areqs a !! r.

(** The place of the request that a thread holds. *)
Definition pc_holds (pc : wpc) (i w : nat) : option (rid * place) :=
  match pc with
  | Idle => None
  | Busy r | Done r => Some (r, InWork i w)
  | Off r | Last r => Some (r, AtWorker w)
  end.

Definition reader_holds (pc : reader) : option rid :=
  match pc with Got r | Flushed r => Some r | _ => None end.

(** The invariant; the request [x], if any, is between two places. *)
Record wfx (x : option rid) (a : astate) : Prop := {
  wf_len : length (works a) = length (queues a);
  wf_reader c pc r : aconns a !! c = Some pc -> reader_holds pc = Some r ->
    Some r <> x /\ pl a r = Some (AtReader c) /\ cn a r = Some c;
  wf_atreader c r : pl a r = Some (AtReader c) -> Some r <> x ->
    exists pc, aconns a !! c = Some pc /\ reader_holds pc = Some r;
  wf_nodup i l : queues a !! i = Some l -> NoDup l;
  wf_queue i l r : queues a !! i = Some l -> r ∈ l -> Some r <> x /\ pl a r = Some (InQueue i);
  wf_inqueue i r : pl a r = Some (InQueue i) -> Some r <> x ->
    exists l, queues a !! i = Some l /\ r ∈ l;
  wf_wnodup i l : works a !! i = Some l -> NoDup l;
  wf_work i l r : works a !! i = Some l -> r ∈ l ->
    Some r <> x /\ exists w, pl a r = Some (InWork i w);
  wf_inwork i w r : pl a r = Some (InWork i w) -> Some r <> x ->
    exists l, works a !! i = Some l /\ r ∈ l;
  wf_tpool w t : aworkers a !! w = Some t -> (w_tpool t < length (queues a))%nat;
  wf_worker w t r p : aworkers a !! w = Some t -> pc_holds (w_pc t) (w_tpool t) w = Some (r, p) ->
    Some r <> x /\ pl a r = Some p;
  wf_held w r p : pl a r = Some p -> Some r <> x -> (p = AtWorker w \/ exists i, p = InWork i w) ->
    exists t, aworkers a !! w = Some t /\ pc_holds (w_pc t) (w_tpool t) w = Some (r, p);
  wf_flush r f : fl a r = Some f -> Some f <> x /\ pl a f = Some (FlushOf r);
  wf_flushof r f : pl a f = Some (FlushOf r) -> Some f <> x -> fl a r = Some f;
  wf_flushed r f : fl a r = Some f -> Some r <> x -> exists w t, aworkers a !! w = Some t /\
    (w_pc t = Busy r \/ w_pc t = Done r \/ w_pc t = Off r);
  wf_conn r c : cn a r = Some c -> is_Some (aconns a !! c);
  wf_fresh r : is_Some (pl a r) -> (r < afresh a)%positive;
}.

Definition wf : astate -> Prop := wfx None.

(** ** Requests after an update *)

Lemma pl_upd_ne a r f r' : r' <> r -> pl (a_upd r f a) r' = pl a r'.
Proof. intros. unfold pl. cbn. by rewrite lookup_alter_ne. Qed.

Lemma pl_upd_eq a r f : pl (a_upd r f a) r = (fun x => a_place (f x)) <$> areqs a !! r.
Proof. unfold pl. cbn. rewrite lookup_alter_eq. by destruct (areqs a !! r). Qed.

(** An update that leaves place, flush and connection alone. *)
Definition plain (f : areq -> areq) : Prop :=
  forall x, a_place (f x) = a_place x /\ a_flush (f x) = a_flush x /\ a_conn (f x) = a_conn x.

Lemma pl_plain a r f r' : plain f -> pl (a_upd r f a) r' = pl a r'.
Proof.
  intros Hf. unfold pl, a_upd. cbn. rewrite lookup_alter. case_decide; [|done]. subst.
  destruct (areqs a !! r') as [x|]; [|done]. cbn. by destruct (Hf x) as (-> & _).
Qed.

Lemma fl_plain a r f r' : plain f -> fl (a_upd r f a) r' = fl a r'.
Proof.
  intros Hf. unfold fl, a_upd. cbn. rewrite lookup_alter. case_decide; [|done]. subst.
  destruct (areqs a !! r') as [x|]; [|done]. cbn. by destruct (Hf x) as (_ & -> & _).
Qed.

Lemma cn_plain a r f r' : plain f -> cn (a_upd r f a) r' = cn a r'.
Proof.
  intros Hf. unfold cn, a_upd. cbn. rewrite lookup_alter. case_decide; [|done]. subst.
  destruct (areqs a !! r') as [x|]; [|done]. cbn. by destruct (Hf x) as (_ & _ & ->).
Qed.

(** [wf] is about these functions and the fields other than the requests. *)
Lemma wf_ext a b : (forall r, pl b r = pl a r) -> (forall r, fl b r = fl a r) ->
  (forall r, cn b r = cn a r) -> queues b = queues a -> works b = works a ->
  aconns b = aconns a -> aworkers b = aworkers a -> afresh b = afresh a -> forall x, wfx x a -> wfx x b.
Proof.
  intros Hp Hf Hc Eq Ew Ec Ek En x [].
  split; intros *; rewrite ?Hp, ?Hf, ?Hc, ?Eq, ?Ew, ?Ec, ?Ek, ?En; eauto.
Qed.

Lemma wf_plain a r f : plain f -> forall x, wfx x a -> wfx x (a_upd r f a).
Proof.
  intros Hf. apply wf_ext; try done; intros; [by apply pl_plain|by apply fl_plain|by apply cn_plain].
Qed.

Lemma wf_emit a es : forall x, wfx x a -> wfx x (a_emit es a).
Proof. by apply wf_ext. Qed.

Lemma wf_send a e r x : wfx x a -> wfx x (a_send e r a).
Proof.
  intros Hw. unfold a_send. destruct (areqs a !! r); [|done].
  case_decide; [by apply wf_emit|done].
Qed.

Lemma wf_kill sig a r x : wfx x a -> wfx x (a_kill sig r a).
Proof.
  intros Hw. unfold a_kill. destruct sig; [|done]. destruct (areqs a !! r) as [y|]; [|done].
  destruct (a_place y); try done. by apply wf_emit.
Qed.

Lemma plain_state s : plain (set_a_state s).
Proof. done. Qed.

Lemma plain_fid l : plain (set_a_fid l).
Proof. done. Qed.

Lemma pl_place a r p r' : is_Some (pl a r) ->
  pl (a_upd r (set_a_place p) a) r' = if decide (r' = r) then Some p else pl a r'.
Proof.
  intros [p0 Hr]. case_decide; [|by apply pl_upd_ne]. subst. rewrite pl_upd_eq. unfold pl in Hr.
  by destruct (areqs a !! r).
Qed.

Lemma fl_place a r p r' : fl (a_upd r (set_a_place p) a) r' = fl a r'.
Proof.
  unfold fl, a_upd. cbn. rewrite lookup_alter. case_decide; [|done]. subst.
  by destruct (areqs a !! r').
Qed.

Lemma cn_place a r p r' : cn (a_upd r (set_a_place p) a) r' = cn a r'.
Proof.
  unfold cn, a_upd. cbn. rewrite lookup_alter. case_decide; [|done]. subst.
  by destruct (areqs a !! r').
Qed.

Lemma pl_flush a r o r' : pl (a_upd r (set_a_flush o) a) r' = pl a r'.
Proof.
  unfold pl, a_upd. cbn. rewrite lookup_alter. case_decide; [|done]. subst.
  by destruct (areqs a !! r').
Qed.

Lemma cn_flush a r o r' : cn (a_upd r (set_a_flush o) a) r' = cn a r'.
Proof.
  unfold cn, a_upd. cbn. rewrite lookup_alter. case_decide; [|done]. subst.
  by destruct (areqs a !! r').
Qed.

Lemma fl_flush a r o r' : is_Some (pl a r) ->
  fl (a_upd r (set_a_flush o) a) r' = if decide (r' = r) then o else fl a r'.
Proof.
  intros [p0 Hr]. unfold fl, a_upd. cbn. rewrite lookup_alter. unfold pl in Hr.
  repeat case_decide; subst; try congruence. by destruct (areqs a !! _).
Qed.

Lemma areqs_free a r : areqs (a_free r a) = delete r (areqs a).
Proof.
  unfold a_free. destruct (areqs a !! r) eqn:E; [done|]. by rewrite delete_id.
Qed.

Lemma pl_free a r r' : pl (a_free r a) r' = if decide (r' = r) then None else pl a r'.
Proof.
  unfold pl. rewrite areqs_free, lookup_delete. repeat case_decide; by subst || congruence.
Qed.

Lemma fl_free a r r' : fl (a_free r a) r' = if decide (r' = r) then None else fl a r'.
Proof.
  unfold fl. rewrite areqs_free, lookup_delete. repeat case_decide; by subst || congruence.
Qed.

Lemma cn_free a r r' : cn (a_free r a) r' = if decide (r' = r) then None else cn a r'.
Proof.
  unfold cn. rewrite areqs_free, lookup_delete. repeat case_decide; by subst || congruence.
Qed.

Lemma free_queues a r : queues (a_free r a) = queues a.
Proof. unfold a_free. by destruct (areqs a !! r). Qed.
Lemma free_works a r : works (a_free r a) = works a.
Proof. unfold a_free. by destruct (areqs a !! r). Qed.
Lemma free_conns a r : aconns (a_free r a) = aconns a.
Proof. unfold a_free. by destruct (areqs a !! r). Qed.
Lemma free_workers a r : aworkers (a_free r a) = aworkers a.
Proof. unfold a_free. by destruct (areqs a !! r). Qed.
Lemma free_fresh a r : afresh (a_free r a) = afresh a.
Proof. unfold a_free. by destruct (areqs a !! r). Qed.

Create Rewrite HintDb places.
#[export] Hint Rewrite fl_place cn_place pl_flush cn_flush pl_free fl_free cn_free
  free_queues free_works free_conns free_workers free_fresh : places.

(** ** Readers *)

Lemma pl_reader c pc a r : pl (a_reader c pc a) r = pl a r. Proof. done. Qed.
Lemma fl_reader c pc a r : fl (a_reader c pc a) r = fl a r. Proof. done. Qed.
Lemma cn_reader c pc a r : cn (a_reader c pc a) r = cn a r. Proof. done. Qed.
Lemma pl_worker w i pc a r : pl (a_worker w i pc a) r = pl a r. Proof. done. Qed.
Lemma fl_worker w i pc a r : fl (a_worker w i pc a) r = fl a r. Proof. done. Qed.
Lemma cn_worker w i pc a r : cn (a_worker w i pc a) r = cn a r. Proof. done. Qed.

Lemma pl_queues l a r : pl (set_queues l a) r = pl a r. Proof. done. Qed.
Lemma fl_queues l a r : fl (set_queues l a) r = fl a r. Proof. done. Qed.
Lemma cn_queues l a r : cn (set_queues l a) r = cn a r. Proof. done. Qed.
Lemma pl_works l a r : pl (set_works l a) r = pl a r. Proof. done. Qed.
Lemma fl_works l a r : fl (set_works l a) r = fl a r. Proof. done. Qed.
Lemma cn_works l a r : cn (set_works l a) r = cn a r. Proof. done. Qed.

#[export] Hint Rewrite pl_reader fl_reader cn_reader pl_worker fl_worker cn_worker
  pl_queues fl_queues cn_queues pl_works fl_works cn_works : places.

(** The fields of a [wfx] after an operation; those about other things than the
    request that moves follow from the invariant [Hw] before. *)
Ltac wf_fields :=
  split; intros *;
  cbn [a_reader a_worker a_upd set_areqs set_queues set_works aconns queues works aworkers afresh];
  autorewrite with places.

Ltac apart :=
  first [done | congruence
        | intros [= ->]; repeat match goal with t : Npwthread |- _ => destruct t end;
          cbn in *; repeat match goal with pc : wpc |- _ => destruct pc end;
          cbn in *; simplify_eq; congruence
        | naive_solver].

Ltac wf_keep Hw :=
  let E := fresh "E" in let Hr := fresh "Hr" in
  solve [ exact (wf_len _ _ Hw) | exact (wf_nodup _ _ Hw _ _) | exact (wf_wnodup _ _ Hw _ _)
  | exact (wf_tpool _ _ Hw _ _) | exact (wf_conn _ _ Hw _ _) | exact (wf_fresh _ _ Hw _)
  | intros E Hr; destruct (wf_reader _ _ Hw _ _ _ E Hr) as (? & ? & ?); split; [apart|done]
  | intros E Hr; destruct (wf_queue _ _ Hw _ _ _ E Hr); split; [apart|done]
  | intros E Hr; destruct (wf_work _ _ Hw _ _ _ E Hr) as (? & ? & ?); split; [apart|by eauto]
  | intros E Hr; destruct (wf_worker _ _ Hw _ _ _ _ E Hr); split; [apart|done]
  | intros E; destruct (wf_flush _ _ Hw _ _ E); split; [apart|done]
  | intros E Hr; apply (wf_atreader _ _ Hw _ _ E); apart
  | intros E Hr; apply (wf_inqueue _ _ Hw _ _ E); apart
  | intros E Hr; apply (wf_inwork _ _ Hw _ _ _ E); apart
  | let Ho := fresh in intros E Hr Ho; apply (wf_held _ _ Hw _ _ _ E); [|exact Ho];
    destruct Ho as [->|[? ->]]; apart
  | intros E Hr; apply (wf_flushof _ _ Hw _ _ E); apart
  | intros E Hr; apply (wf_flushed _ _ Hw _ _ E); apart ].

Lemma wf_reader_move a c pc pc' x : aconns a !! c = Some pc ->
  reader_holds pc' = reader_holds pc -> wfx x a -> wfx x (a_reader c pc' a).
Proof.
  intros Ec Hh Hw. wf_fields; try wf_keep Hw.
  - rewrite lookup_insert. case_decide; [|wf_keep Hw]. intros [= <-] Hr. subst.
    apply (wf_reader _ _ Hw _ pc); [done|congruence].
  - intros Hp Hx. destruct (wf_atreader _ _ Hw _ _ Hp Hx) as (pc0 & E0 & H0). rewrite lookup_insert.
    case_decide; [|by eauto]. subst. exists pc'. split; [done|]. congruence.
  - intros Hc. rewrite lookup_insert. case_decide; [done|by apply (wf_conn _ _ Hw r)].
Qed.

Lemma wf_connect a c : aconns a !! c = None -> wf a -> wf (a_reader c Reading a).
Proof.
  intros Ec Hw. wf_fields; try wf_keep Hw.
  - rewrite lookup_insert. case_decide; [by intros [= <-]|wf_keep Hw].
  - intros Hp Hx. destruct (wf_atreader _ _ Hw _ _ Hp Hx) as (pc0 & E0 & H0). rewrite lookup_insert.
    case_decide; [|by eauto]. congruence.
  - intros Hc. rewrite lookup_insert. case_decide; [done|by apply (wf_conn _ _ Hw r)].
Qed.

(** ** Taking a request out of its place *)

Lemma detach_reader a c pc r pc' : aconns a !! c = Some pc -> reader_holds pc = Some r ->
  reader_holds pc' = None -> wf a -> wfx (Some r) (a_reader c pc' a).
Proof.
  intros Ec Hh Hn Hw. destruct (wf_reader _ _ Hw _ _ _ Ec Hh) as (_ & Hp & Hc).
  wf_fields; try wf_keep Hw.
  - rewrite lookup_insert. case_decide; [intros [= <-]; congruence|]. wf_keep Hw.
  - intros Hp' Hx. destruct (wf_atreader _ _ Hw _ _ Hp') as (pc0 & E0 & H0); [done|].
    rewrite lookup_insert. case_decide; [|by eauto]. congruence.
  - intros E. rewrite lookup_insert. case_decide; [done|by apply (wf_conn _ _ Hw r0)].
Qed.

Lemma elem_of_without r l y : y ∈ without r l <-> y <> r /\ y ∈ l.
Proof. unfold without. by rewrite list_elem_of_filter. Qed.

Lemma NoDup_without r l : NoDup l -> NoDup (without r l).
Proof. apply NoDup_filter. Qed.

Lemma without_notin r l : r ∉ l -> without r l = l.
Proof.
  unfold without. induction l as [|y l IH]; intros Hr; [done|].
  apply not_elem_of_cons in Hr as [? ?]. rewrite filter_cons_True, IH by done. done.
Qed.

Lemma without_head r l : r ∉ l -> without r (r :: l) = l.
Proof.
  intros Hr. unfold without. rewrite filter_cons_False by (intros ?; done). by apply without_notin.
Qed.

Lemma detach_queue a i r : pl a r = Some (InQueue i) -> wf a ->
  wfx (Some r) (set_queues (alter (without r) i (queues a)) a).
Proof.
  intros Hp Hw. wf_fields; rewrite ?length_alter; try wf_keep Hw.
  - rewrite list_lookup_alter. case_decide; [|wf_keep Hw]. subst.
    intros (l' & E & ->)%fmap_Some. apply NoDup_without. by eapply wf_nodup.
  - rewrite list_lookup_alter. case_decide; subst; [|wf_keep Hw].
    intros (l' & E & ->)%fmap_Some [Hne Hin]%elem_of_without. split; [congruence|by eapply wf_queue].
  - intros Hp' Hx. destruct (wf_inqueue _ _ Hw _ _ Hp') as (l & E & Hin); [done|].
    rewrite list_lookup_alter. case_decide; [|by eauto]. subst. rewrite E. cbn.
    eexists. split; [done|]. apply elem_of_without. split; [congruence|done].
Qed.

(** A worker forgets its request. *)
Lemma detach_work a i w r : pl a r = Some (InWork i w) -> wf a ->
  wfx (Some r) (a_worker w i Idle (set_works (alter (without r) i (works a)) a)).
Proof.
  intros Hp Hw. destruct (wf_held _ _ Hw w _ _ Hp) as (t & Et & Ht); [done|by eauto|].
  assert (w_tpool t = i) as Hti by (destruct t as [? []]; by simplify_eq/=).
  wf_fields; rewrite ?length_alter; try wf_keep Hw.
  - rewrite list_lookup_alter. case_decide; [|wf_keep Hw]. subst.
    intros (l' & E & ->)%fmap_Some. apply NoDup_without. by eapply wf_wnodup.
  - rewrite list_lookup_alter. case_decide; subst; [|wf_keep Hw].
    intros (l' & E & ->)%fmap_Some [Hne Hin]%elem_of_without. split; [congruence|by eapply wf_work].
  - intros Hp' Hx. destruct (wf_inwork _ _ Hw _ _ _ Hp') as (l & E & Hin); [done|].
    rewrite list_lookup_alter. case_decide; [|by eauto]. subst. rewrite E. cbn.
    eexists. split; [done|]. apply elem_of_without. split; [congruence|done].
  - intros [(-> & <- & _)|[_ E]]%list_lookup_insert_Some; [cbn|by eapply wf_tpool].
    subst i. by eapply wf_tpool.
  - intros [(-> & <- & _)|[Hww E]]%list_lookup_insert_Some; [done|]. revert E. wf_keep Hw.
  - intros Hp' Hx Hor. destruct (wf_held _ _ Hw w0 _ _ Hp') as (t' & E' & Ht'); [done|done|].
    rewrite list_lookup_insert. case_decide; [|by eauto].
    destruct_and!; subst. rewrite Et in E'. injection E' as <-. congruence.
  - intros E Hx. destruct (wf_flushed _ _ Hw _ _ E) as (w' & t' & E' & Hor); [done|].
    exists w', t'. rewrite list_lookup_insert. case_decide; [|by eauto].
    destruct_and!; subst. rewrite Et in E'. injection E' as <-.
    destruct t as [? []]; naive_solver.
Qed.

Lemma detach_worker a i w r pc : aworkers a !! w = Some {| w_tpool := i; w_pc := pc |} ->
  pc_holds pc i w = Some (r, AtWorker w) -> wf a -> wfx (Some r) (a_worker w i Idle a).
Proof.
  intros Et Ht Hw. destruct (wf_worker _ _ Hw _ _ _ _ Et Ht) as [_ Hp].
  wf_fields; try wf_keep Hw.
  - intros [(-> & <- & _)|[_ E]]%list_lookup_insert_Some; [cbn|by eapply wf_tpool].
    apply (wf_tpool _ _ Hw _ _ Et).
  - intros [(-> & <- & _)|[Hww E]]%list_lookup_insert_Some; [done|]. revert E. wf_keep Hw.
  - intros Hp' Hx Hor. destruct (wf_held _ _ Hw w0 _ _ Hp') as (t' & E' & Ht'); [done|done|].
    rewrite list_lookup_insert. case_decide; [|by eauto].
    destruct_and!; subst. rewrite Et in E'. injection E' as <-. cbn in Ht'. congruence.
  - intros E Hx. destruct (wf_flushed _ _ Hw _ _ E) as (w' & t' & E' & Hor); [done|].
    exists w', t'. rewrite list_lookup_insert. case_decide; [|by eauto].
    destruct_and!; subst. rewrite Et in E'. injection E' as <-. cbn in Hor.
    destruct pc; naive_solver.
Qed.

Lemma fl_is_some a r f : fl a r = Some f -> is_Some (pl a r).
Proof. unfold fl, pl. destruct (areqs a !! r); [by eauto|done]. Qed.

Lemma detach_flush a r f : fl a r = Some f -> wf a ->
  wfx (Some f) (a_upd r (set_a_flush None) a).
Proof.
  intros Hf Hw. destruct (wf_flush _ _ Hw _ _ Hf) as [_ Hp]. pose proof (fl_is_some _ _ _ Hf) as Hs.
  wf_fields; try wf_keep Hw.
  - rewrite (fl_flush a r _ _ Hs). case_decide; [done|]. intros E.
    destruct (wf_flush _ _ Hw _ _ E). split; [|done]. congruence.
  - intros Hp' Hx. rewrite (fl_flush a r _ _ Hs).
    pose proof (wf_flushof _ _ Hw _ _ Hp'). case_decide; [|by auto]. subst. naive_solver.
  - rewrite (fl_flush a r _ _ Hs). case_decide; [done|]. wf_keep Hw.
Qed.

(** ** A request between two places *)

Lemma limbo_place a r p : is_Some (pl a r) -> wfx (Some r) a ->
  wfx (Some r) (a_upd r (set_a_place p) a).
Proof.
  intros Hs Hw.
  assert (Hne : forall r' : rid, Some r' <> Some r -> r' <> r) by congruence.
  wf_fields; rewrite ?(pl_place a r p _ Hs); try wf_keep Hw; case_decide; subst; try wf_keep Hw; try done.
  intros _. by apply (wf_fresh _ _ Hw).
Qed.

Lemma limbo_free a r : fl a r = None -> wfx (Some r) a -> wf (a_free r a).
Proof.
  intros Hf Hw. unfold wf.
  wf_fields; try wf_keep Hw; try (case_decide; subst; [try done|try wf_keep Hw]).
  - intros E Hr. by destruct (wf_reader _ _ Hw _ _ _ E Hr).
  - intros E Hr. by destruct (wf_queue _ _ Hw _ _ _ E Hr).
  - intros E Hr. by destruct (wf_work _ _ Hw _ _ _ E Hr).
  - intros E Hr. by destruct (wf_worker _ _ Hw _ _ _ _ E Hr).
  - intros E. destruct (wf_flush _ _ Hw _ _ E). split; [done|]. case_decide; [congruence|done].
  - intros E _. assert (fl a r0 = Some f) by (apply (wf_flushof _ _ Hw); [done|congruence]).
    case_decide; [congruence|done].
Qed.

Lemma limbo_new a c type tag oldtag fid : is_Some (aconns a !! c) -> wf a ->
  let r := afresh a in
  let x := {| a_conn := c; a_tag := tag; a_state := REQ_NORMAL; a_flush := None; a_type := type;
              a_oldtag := oldtag; a_fid := fid; a_place := AtReader c |} in
  let b := {| areqs := <[r := x]> (areqs a); queues := queues a; works := works a;
              aconns := aconns a; aworkers := aworkers a; afresh := Pos.succ r; aout := aout a |} in
  wfx (Some r) b /\ pl b r = Some (AtReader c) /\ cn b r = Some c /\ fl b r = None.
Proof.
  intros Hc Hw r x b.
  assert (Hr : pl a r = None).
  { destruct (pl a r) eqn:E; [|done]. pose proof (wf_fresh _ _ Hw r ltac:(by rewrite E)). lia. }
  assert (Hpl : forall r', pl b r' = if decide (r' = r) then Some (AtReader c) else pl a r').
  { intros r'. unfold pl. cbn. rewrite lookup_insert. repeat case_decide; by subst || congruence. }
  assert (Hcn : forall r', cn b r' = if decide (r' = r) then Some c else cn a r').
  { intros r'. unfold cn. cbn. rewrite lookup_insert. repeat case_decide; by subst || congruence. }
  assert (Hfl : forall r', fl b r' = if decide (r' = r) then None else fl a r').
  { intros r'. unfold fl. cbn. rewrite lookup_insert. repeat case_decide; by subst || congruence. }
  split; [|rewrite Hpl, Hcn, Hfl; by rewrite !decide_True].
  split; intros *; rewrite ?Hpl, ?Hcn, ?Hfl; cbn [b aconns queues works aworkers afresh];
    try wf_keep Hw; repeat case_decide; subst; try done; try wf_keep Hw.
  - intros E K. destruct (wf_reader _ _ Hw _ _ _ E K) as (? & ? & ?). congruence.
  - intros E K. destruct (wf_queue _ _ Hw _ _ _ E K). congruence.
  - intros E K. destruct (wf_work _ _ Hw _ _ _ E K) as (? & ? & ?). congruence.
  - intros E K. destruct (wf_worker _ _ Hw _ _ _ _ E K). congruence.
  - intros E. destruct (wf_flush _ _ Hw _ _ E). congruence.
  - intros E _. pose proof (fl_is_some a r f (wf_flushof _ _ Hw _ _ E ltac:(done))) as [? ?].
    congruence.
  - by intros [= <-].
  - intros _. lia.
  - intros K. pose proof (wf_fresh _ _ Hw _ K). lia.
Qed.

(** ** Putting a request into a place *)

Lemma attach_reader a c pc0 pc r : aconns a !! c = Some pc0 -> reader_holds pc0 = None ->
  reader_holds pc = Some r -> pl a r = Some (AtReader c) -> cn a r = Some c -> fl a r = None ->
  wfx (Some r) a -> wf (a_reader c pc a).
Proof.
  intros Ec Hn Hh Hp Hc Hf Hw. unfold wf. wf_fields; try wf_keep Hw.
  - rewrite lookup_insert. case_decide; [|wf_keep Hw]. intros [= <-] Hr. subst. naive_solver.
  - intros Hp' _. rewrite lookup_insert. destruct (decide (r0 = r)) as [->|Hne].
    + rewrite Hp in Hp'. injection Hp' as <-. rewrite decide_True by done. eauto.
    + destruct (wf_atreader _ _ Hw _ _ Hp') as (pc1 & E1 & H1); [congruence|].
      case_decide; [|by eauto]. subst. congruence.
  - intros E. rewrite lookup_insert. case_decide; [done|by apply (wf_conn _ _ Hw r0)].
Qed.

Lemma attach_queue a i r : (i < length (queues a))%nat -> pl a r = Some (InQueue i) ->
  fl a r = None -> wfx (Some r) a -> wf (set_queues (alter (fun l => l ++ [r]) i (queues a)) a).
Proof.
  intros Hi Hp Hf Hw. unfold wf. wf_fields; rewrite ?length_alter; try wf_keep Hw.
  - rewrite list_lookup_alter. case_decide; [|wf_keep Hw]. subst.
    intros (l' & E & ->)%fmap_Some. apply NoDup_app. split; [by eapply wf_nodup|].
    split; [|apply NoDup_singleton]. intros y Hy ->%list_elem_of_singleton.
    by destruct (wf_queue _ _ Hw _ _ _ E Hy).
  - rewrite list_lookup_alter. case_decide; [|wf_keep Hw]. subst.
    intros (l' & E & ->)%fmap_Some [Hin| ->%list_elem_of_singleton]%elem_of_app; [|done].
    by destruct (wf_queue _ _ Hw _ _ _ E Hin).
  - intros Hp' _. rewrite list_lookup_alter. destruct (decide (r0 = r)) as [->|Hne].
    + rewrite Hp in Hp'. injection Hp' as <-. rewrite decide_True by done.
      destruct (lookup_lt_is_Some_2 _ _ Hi) as [l ->]. eexists. split; [done|]. set_solver.
    + destruct (wf_inqueue _ _ Hw _ _ Hp') as (l & E & Hin); [congruence|].
      case_decide; [|by eauto]. subst. rewrite E. eexists. split; [done|]. set_solver.
Qed.

Lemma attach_work a i w r : (i < length (queues a))%nat -> pl a r = Some (InWork i w) ->
  aworkers a !! w = Some {| w_tpool := i; w_pc := Idle |} -> fl a r = None -> wfx (Some r) a ->
  wf (a_worker w i (Busy r) (set_works (alter (cons r) i (works a)) a)).
Proof.
  intros Hi Hp Et Hf Hw. unfold wf. wf_fields; rewrite ?length_alter; try wf_keep Hw.
  - rewrite list_lookup_alter. case_decide; [|wf_keep Hw]. subst.
    intros (l' & E & ->)%fmap_Some. apply NoDup_cons. split; [|by eapply wf_wnodup].
    intros Hy. by destruct (wf_work _ _ Hw _ _ _ E Hy).
  - rewrite list_lookup_alter. case_decide; [|wf_keep Hw]. subst.
    intros (l' & E & ->)%fmap_Some [->|Hin]%elem_of_cons; [by eauto|].
    by destruct (wf_work _ _ Hw _ _ _ E Hin).
  - intros Hp' _. rewrite list_lookup_alter. destruct (decide (r0 = r)) as [->|Hne].
    + rewrite Hp in Hp'. injection Hp' as <- <-. rewrite decide_True by done.
      rewrite <- (wf_len _ _ Hw) in Hi.
      destruct (lookup_lt_is_Some_2 _ _ Hi) as [l ->]. eexists. split; [done|]. set_solver.
    + destruct (wf_inwork _ _ Hw _ _ _ Hp') as (l & E & Hin); [congruence|].
      case_decide; [|by eauto]. subst. rewrite E. eexists. split; [done|]. set_solver.
  - intros [(-> & <- & _)|[_ E]]%list_lookup_insert_Some; [done|by eapply wf_tpool].
  - intros [(-> & <- & _)|[_ E]]%list_lookup_insert_Some; [|revert E; wf_keep Hw].
    by intros [= <- <-].
  - intros Hp' _ Hor. rewrite list_lookup_insert. destruct (decide (r0 = r)) as [->|Hne].
    + rewrite Hp in Hp'. injection Hp' as <-. destruct Hor as [|[j [= <- <-]]]; [done|].
      rewrite decide_True by (split; [done|by eapply lookup_lt_Some]). eauto.
    + destruct (wf_held _ _ Hw w0 _ _ Hp') as (t & E & Ht); [congruence|done|].
      case_decide; [|by eauto]. destruct_and!; subst. rewrite Et in E. by injection E as <-.
  - intros E _. destruct (wf_flushed _ _ Hw _ _ E) as (w' & t' & E' & Hor); [congruence|].
    exists w', t'. rewrite list_lookup_insert. case_decide; [|by eauto].
    destruct_and!; subst. rewrite Et in E'. injection E' as <-. naive_solver.
Qed.

Lemma attach_worker a i w r : pl a r = Some (AtWorker w) ->
  aworkers a !! w = Some {| w_tpool := i; w_pc := Idle |} -> wfx (Some r) a ->
  wf (a_worker w i (Off r) a).
Proof.
  intros Hp Et Hw. unfold wf. wf_fields; try wf_keep Hw.
  - intros [(-> & <- & _)|[_ E]]%list_lookup_insert_Some; [by apply (wf_tpool _ _ Hw _ _ Et)|by eapply wf_tpool].
  - intros [(-> & <- & _)|[_ E]]%list_lookup_insert_Some; [|revert E; wf_keep Hw].
    by intros [= <- <-].
  - intros Hp' _ Hor. rewrite list_lookup_insert. destruct (decide (r0 = r)) as [->|Hne].
    + rewrite Hp in Hp'. injection Hp' as <-. destruct Hor as [[= <-]|[j [=]]].
      rewrite decide_True by (split; [done|by eapply lookup_lt_Some]). eauto.
    + destruct (wf_held _ _ Hw w0 _ _ Hp') as (t & E & Ht); [congruence|done|].
      case_decide; [|by eauto]. destruct_and!; subst. rewrite Et in E. by injection E as <-.
  - intros E _. destruct (decide (r0 = r)) as [->|Hne].
    { exists w. eexists. rewrite list_lookup_insert_eq by (by eapply lookup_lt_Some). eauto. }
    destruct (wf_flushed _ _ Hw _ _ E) as (w' & t' & E' & Hor); [congruence|].
    exists w', t'. rewrite list_lookup_insert. case_decide; [|by eauto].
    destruct_and!; subst. rewrite Et in E'. injection E' as <-. naive_solver.
Qed.

(** A worker has the request and has not answered a flush of it yet. *)
Definition in_hand (a : astate) (r : rid) : Prop :=
  exists w t, aworkers a !! w = Some t /\ (w_pc t = Busy r \/ w_pc t = Done r \/ w_pc t = Off r).

Lemma attach_flush a r f : is_Some (pl a r) -> r <> f -> pl a f = Some (FlushOf r) ->
  fl a r = None -> fl a f = None -> in_hand a r -> wfx (Some f) a ->
  wf (a_upd r (set_a_flush (Some f)) a).
Proof.
  intros Hs Hrf Hp Hr Hf Hh Hw. unfold wf. wf_fields; try wf_keep Hw;
    rewrite (fl_flush a r _ _ Hs).
  - case_decide; [by intros [= <-]; subst|]. wf_keep Hw.
  - intros Hp' _. destruct (decide (f0 = f)) as [->|Hne].
    + rewrite Hp in Hp'. injection Hp' as <-. by rewrite decide_True.
    + pose proof (wf_flushof _ _ Hw _ _ Hp') as E. case_decide; [|by apply E; congruence].
      subst. rewrite E in Hr; [done|congruence].
  - case_decide; [by subst|]. wf_keep Hw.
Qed.

Lemma worker_move a i w pc pc' : aworkers a !! w = Some {| w_tpool := i; w_pc := pc |} ->
  pc_holds pc' i w = pc_holds pc i w ->
  (forall r, pc' = Last r -> fl a r = None) -> wf a -> wf (a_worker w i pc' a).
Proof.
  intros Et Hh Hl Hw. unfold wf. wf_fields; try wf_keep Hw.
  - intros [(-> & <- & _)|[_ E]]%list_lookup_insert_Some; [by apply (wf_tpool _ _ Hw _ _ Et)|by eapply wf_tpool].
  - intros [(-> & <- & _)|[_ E]]%list_lookup_insert_Some; [|by eapply wf_worker].
    cbn. rewrite Hh. intros K. apply (wf_worker _ _ Hw _ _ _ _ Et K).
  - intros Hp' _ Hor. destruct (wf_held _ _ Hw w0 _ _ Hp') as (t & E & Ht); [done|done|].
    rewrite list_lookup_insert. case_decide; [|by eauto]. destruct_and!; subst.
    rewrite Et in E. injection E as <-. eexists. split; [done|]. cbn in *. congruence.
  - intros E _. destruct (wf_flushed _ _ Hw _ _ E) as (w' & t' & E' & Hor); [done|].
    destruct (decide (w = w')) as [<-|Hne].
    + exists w. eexists. rewrite list_lookup_insert_eq by (by eapply lookup_lt_Some).
      split; [done|]. rewrite Et in E'. injection E' as <-. cbn in *.
      destruct pc' as [|y|y|y|y]; destruct Hor as [->|[->| ->]]; cbn in Hh; simplify_eq; eauto.
      by rewrite (Hl _ eq_refl) in E.
    + exists w', t'. by rewrite list_lookup_insert_ne.
Qed.

Lemma wf_destroy a c : (forall r, cn a r <> Some c) -> wf a ->
  aconns a !! c = Some Closing ->
  wf {| areqs := areqs a; queues := queues a; works := works a; aconns := delete c (aconns a);
        aworkers := aworkers a; afresh := afresh a; aout := aout a |}.
Proof.
  intros Hn Hw Ec. split; intros *; cbn [aconns queues works aworkers afresh];
    try wf_keep Hw.
  - intros [_ E]%lookup_delete_Some. by apply (wf_reader _ _ Hw).
  - intros Hp _. destruct (wf_atreader _ _ Hw _ _ Hp) as (pc & E & Hr); [done|].
    exists pc. split; [|done]. apply lookup_delete_Some. split; [|done]. intros ->.
    rewrite Ec in E. by injection E as <-.
  - intros E. destruct (wf_conn _ _ Hw _ _ E) as [pc K]. exists pc.
    apply lookup_delete_Some. split; [|done]. intros ->. by destruct (Hn r).
Qed.

(** ** Whole operations *)

Lemma in_hand_place a r : in_hand a r -> wf a ->
  exists w, pl a r = Some (AtWorker w) \/ exists i, pl a r = Some (InWork i w).
Proof.
  intros (w & t & Et & Ht) Hw. exists w.
  destruct Ht as [Ht|[Ht|Ht]];
    [right; exists (w_tpool t)|right; exists (w_tpool t)|left];
    apply (wf_worker _ _ Hw w t); rewrite ?Ht; done.
Qed.

(** Only a request in the hands of a worker has a flush. *)
Definition flushless (p : place) : bool :=
  match p with InWork _ _ | AtWorker _ => false | _ => true end.

Lemma fl_none a r p : pl a r = Some p -> flushless p = true -> wf a -> fl a r = None.
Proof.
  intros Hp Hn Hw. destruct (fl a r) eqn:E; [|done].
  destruct (in_hand_place a r) as [w Hq]; [by eapply (wf_flushed _ _ Hw)|done|].
  destruct Hq as [Hq|[i Hq]]; rewrite Hp in Hq; injection Hq as ->; done.
Qed.

Lemma wf_drop a i r : pl a r = Some (InQueue i) -> wf a -> wf (a_drop i r a).
Proof.
  intros Hp Hw. apply limbo_free; [|by apply detach_queue]. by apply (fl_none a r _ Hp).
Qed.

Lemma wf_free_flush a r f : fl a r = Some f -> wf a ->
  wf (a_free f (a_upd r (set_a_flush None) a)).
Proof.
  intros Hf Hw. destruct (wf_flush _ _ Hw _ _ Hf) as [_ Hp]. apply limbo_free; [|by apply detach_flush].
  rewrite fl_flush by (by eapply fl_is_some). case_decide; [done|]. by apply (fl_none a f _ Hp).
Qed.

Lemma wf_free_reader a c pc r pc' : aconns a !! c = Some pc -> reader_holds pc = Some r ->
  reader_holds pc' = None -> wf a -> wf (a_free r (a_reader c pc' a)).
Proof.
  intros Ec Hh Hn Hw. apply limbo_free; [|by eapply detach_reader].
  destruct (wf_reader _ _ Hw _ _ _ Ec Hh) as (_ & Hp & _). by apply (fl_none a r _ Hp).
Qed.

Lemma wf_recv a c type tag oldtag fid : aconns a !! c = Some Reading -> wf a ->
  wf (a_recv c type tag oldtag fid a).
Proof.
  intros Ec Hw. destruct (limbo_new a c type tag oldtag fid) as (Hx & Hp & Hc & Hf); [done|done|].
  unfold a_recv. by eapply (attach_reader _ _ Reading (Got (afresh a))).
Qed.

Lemma wf_enqueue a c r i : aconns a !! c = Some (Got r) -> (i < length (queues a))%nat -> wf a ->
  wf (a_reader c Reading (a_upd r (set_a_place (InQueue i))
    (set_queues (alter (fun l => l ++ [r]) i (queues a)) a))).
Proof.
  intros Ec Hi Hw. destruct (wf_reader _ _ Hw _ _ _ Ec eq_refl) as (_ & Hp & _).
  assert (Hs : is_Some (pl a r)) by (by rewrite Hp).
  apply (attach_queue (a_upd r (set_a_place (InQueue i)) (a_reader c Reading a)) i r); [done| | |].
  - rewrite pl_place by done. by rewrite decide_True.
  - autorewrite with places. by apply (fl_none a r _ Hp).
  - apply limbo_place; [done|]. by eapply detach_reader.
Qed.

Lemma wf_take a w i r l : queues a !! i = Some (r :: l) ->
  aworkers a !! w = Some {| w_tpool := i; w_pc := Idle |} -> wf a -> wf (a_take w i r l a).
Proof.
  intros Eq Et Hw. destruct (wf_queue _ _ Hw i _ r Eq) as (_ & Hp); [set_solver|].
  assert (Hs : is_Some (pl a r)) by (by rewrite Hp).
  assert (El : <[i := l]> (queues a) = alter (without r) i (queues a)).
  { pose proof (wf_nodup _ _ Hw _ _ Eq) as [Hr Hn]%NoDup_cons.
    apply list_eq. intros j. rewrite list_lookup_insert, list_lookup_alter.
    destruct (decide (i = j)) as [<-|]; [|by rewrite decide_False by naive_solver].
    rewrite decide_True by (split; [done|by eapply lookup_lt_Some]). rewrite Eq.
    change (Some l = Some (without r (r :: l))). f_equal. by rewrite without_head. }
  unfold a_take. rewrite El.
  apply (attach_work (a_upd r (set_a_place (InWork i w)) (set_queues (alter (without r) i (queues a)) a)) i w r);
    [| | |autorewrite with places|].
  - cbn. rewrite length_alter. by eapply lookup_lt_Some.
  - rewrite pl_place by done. by rewrite decide_True.
  - done.
  - by apply (fl_none a r _ Hp).
  - apply limbo_place; [done|]. by apply detach_queue.
Qed.

Lemma wf_unwork a w i r : aworkers a !! w = Some {| w_tpool := i; w_pc := Done r |} -> wf a ->
  wf (a_worker w i (Off r) (a_upd r (set_a_place (AtWorker w))
    (set_works (alter (without r) i (works a)) a))).
Proof.
  intros Et Hw. destruct (wf_worker _ _ Hw _ _ r _ Et eq_refl) as [_ Hp]. cbn in Hp.
  assert (Hs : is_Some (pl a r)) by (by rewrite Hp).
  set (b := a_upd r (set_a_place (AtWorker w)) (a_worker w i Idle (set_works (alter (without r) i (works a)) a))).
  assert (Hb : wf (a_worker w i (Off r) b)).
  { apply attach_worker.
    - unfold b. rewrite pl_place by done. by rewrite decide_True.
    - cbn. rewrite list_lookup_insert_eq; [done|by eapply lookup_lt_Some].
    - apply limbo_place; [done|]. by apply detach_work. }
  revert Hb. apply wf_ext; try done. cbn. by rewrite list_insert_insert_eq.
Qed.

Lemma wf_flushreply a w i r : aworkers a !! w = Some {| w_tpool := i; w_pc := Off r |} -> wf a ->
  wf (a_worker w i (Last r) (a_flushreply r a)).
Proof.
  intros Et Hw. destruct (wf_worker _ _ Hw _ _ r _ Et eq_refl) as [_ Hp].
  unfold a_flushreply. destruct (areqs a !! r) as [x|] eqn:Ex; [|by unfold pl in Hp; rewrite Ex in Hp].
  assert (Hf : fl a r = a_flush x) by (unfold fl; by rewrite Ex).
  destruct (a_flush x) as [f|]; [|by apply (worker_move _ i w (Off r)); [|..|intros ? [= <-]|]].
  set (b := a_send (Ev_rflush f) f a).
  assert (Hb : wf b) by (by apply wf_send).
  assert (Eb : areqs b = areqs a /\ aworkers b = aworkers a).
  { unfold b, a_send. destruct (areqs a !! f); [|done]. by case_decide. }
  assert (Hfb : fl b r = Some f) by (unfold fl; by rewrite (proj1 Eb)).
  assert (Hne : r <> f).
  { intros ->. destruct (wf_flush _ _ Hw _ _ Hf) as [_ K]. by rewrite Hp in K. }
  assert (Hc : wf (a_upd r (set_a_flush None) (a_free f b))).
  { pose proof (wf_free_flush b r f Hfb Hb) as Hc. revert Hc.
    assert (Hs : is_Some (pl b r)) by (by eapply fl_is_some).
    assert (Hs' : is_Some (pl (a_free f b) r)) by (by rewrite pl_free, decide_False).
    apply wf_ext; cbn; rewrite ?free_queues, ?free_works, ?free_conns, ?free_workers, ?free_fresh;
      try done; intros r'.
    - by rewrite pl_flush, !pl_free, pl_flush.
    - rewrite (fl_flush (a_free f b) r None r' Hs'), !fl_free, (fl_flush b r None r' Hs).
      repeat case_decide; congruence.
    - by rewrite cn_flush, !cn_free, cn_flush. }
  apply (worker_move _ i w (Off r)); [|done| |exact Hc].
  - cbn. rewrite free_workers, (proj2 Eb). done.
  - intros ? [= <-]. rewrite fl_flush; [by rewrite decide_True|].
    autorewrite with places. rewrite decide_False by done. by eapply fl_is_some.
Qed.

Lemma fl_last a w i r : aworkers a !! w = Some {| w_tpool := i; w_pc := Last r |} -> wf a ->
  fl a r = None.
Proof.
  intros Et Hw. destruct (wf_worker _ _ Hw _ _ r _ Et eq_refl) as [_ Hp].
  destruct (fl a r) eqn:E; [|done]. destruct (wf_flushed _ _ Hw _ _ E) as (w' & t & Et' & Ht); [done|].
  destruct Ht as [Ht|[Ht|Ht]].
  1,2: destruct (wf_worker _ _ Hw _ _ r (InWork (w_tpool t) w') Et') as [_ K]; [by rewrite Ht|congruence].
  destruct (wf_worker _ _ Hw _ _ r (AtWorker w') Et') as [_ K]; [by rewrite Ht|].
  rewrite Hp in K. injection K as <-. rewrite Et in Et'. injection Et' as <-. done.
Qed.

Lemma wf_release a w i r : aworkers a !! w = Some {| w_tpool := i; w_pc := Last r |} ->
  wf a -> wf (a_worker w i Idle (a_free r a)).
Proof.
  intros Et Hw. pose proof (fl_last a w i r Et Hw) as Hf.
  assert (Hb : wf (a_free r (a_worker w i Idle a))) by (apply limbo_free; [done|by eapply detach_worker]).
  revert Hb. unfold a_free. cbn. by destruct (areqs a !! r).
Qed.

Lemma work_in_hand a r i w : pl a r = Some (InWork i w) -> wf a -> in_hand a r.
Proof.
  intros Hp Hw. destruct (wf_held _ _ Hw w _ _ Hp) as ([j pc] & Et & Ht); [done|by eauto|].
  exists w. eexists. split; [done|]. destruct pc; cbn in *; simplify_eq; auto.
Qed.

(** The request [r] without its flush. *)
Definition unflushed (r : rid) (a : astate) : astate :=
  match fl a r with Some f => a_free f (a_upd r (set_a_flush None) a) | None => a end.

Lemma wf_unflushed r a : wf a -> wf (unflushed r a).
Proof. intros Hw. unfold unflushed. destruct (fl a r) eqn:E; [by apply wf_free_flush|done]. Qed.

Lemma unflushed_place r a r' : wf a -> (forall y, pl a r' <> Some (FlushOf y)) ->
  pl (unflushed r a) r' = pl a r'.
Proof.
  intros Hw Hne. unfold unflushed. destruct (fl a r) as [f|] eqn:E; [|done].
  rewrite pl_free, pl_flush. case_decide; [|done]. subst.
  destruct (wf_flush _ _ Hw _ _ E) as [_ K]. by destruct (Hne r).
Qed.

Lemma unflushed_none r a : is_Some (pl a r) -> fl (unflushed r a) r = None.
Proof.
  intros Hs. unfold unflushed. destruct (fl a r) as [f|] eqn:E; [|done].
  rewrite fl_free. case_decide; [done|]. by rewrite fl_flush, decide_True.
Qed.

Lemma unflushed_other r a :
  queues (unflushed r a) = queues a /\ works (unflushed r a) = works a /\
  aconns (unflushed r a) = aconns a /\ aworkers (unflushed r a) = aworkers a /\
  afresh (unflushed r a) = afresh a.
Proof.
  unfold unflushed. destruct (fl a r); [|done].
  by rewrite free_queues, free_works, free_conns, free_workers, free_fresh.
Qed.

(** [a_attach] up to events. *)
Lemma attach_unflushed f r a : areqs a !! r <> None ->
  areqs (a_upd f (set_a_place (FlushOf r)) (a_upd r (set_a_flush (Some f))
    (match areqs a !! r with
     | Some x => match a_flush x with Some f0 => a_free f0 a | None => a end
     | None => a end))) =
  areqs (a_upd f (set_a_place (FlushOf r)) (a_upd r (set_a_flush (Some f)) (unflushed r a))).
Proof.
  intros Hr. unfold unflushed, fl. destruct (areqs a !! r) as [x|] eqn:Ex; [|done]. cbn.
  destruct (a_flush x) as [f0|]; [|done]. cbn. f_equal. rewrite !areqs_free. cbn.
  apply map_eq. intros y. rewrite !lookup_alter, !lookup_delete, !lookup_alter.
  repeat case_decide; subst; try done. rewrite Ex. done.
Qed.

Lemma wf_attach sig a c f r i w : aconns a !! c = Some (Got f) -> pl a r = Some (InWork i w) ->
  wf a -> wf (a_reader c Reading (a_attach sig f r a)).
Proof.
  intros Ec Hp Hw. destruct (wf_reader _ _ Hw _ _ _ Ec eq_refl) as (_ & Hpf & _).
  assert (Hne : r <> f) by congruence.
  destruct (unflushed_other r a) as (Eq & Ew & Ea & Ek & En).
  pose proof (wf_unflushed r a Hw) as Hu.
  assert (Hpu : pl (unflushed r a) r = Some (InWork i w)) by (rewrite unflushed_place; congruence).
  assert (Hfu : pl (unflushed r a) f = Some (AtReader c)) by (rewrite unflushed_place; congruence).
  set (b := a_upd f (set_a_place (FlushOf r)) (a_reader c Reading (unflushed r a))).
  assert (Hb : wf (a_upd r (set_a_flush (Some f)) b)).
  { assert (Hb : wfx (Some f) b).
    { apply limbo_place; [by rewrite pl_reader, Hfu|]. eapply detach_reader; [by rewrite Ea| | |]; done. }
    apply attach_flush; unfold b; try done.
    - rewrite pl_place by (by rewrite pl_reader, Hfu). rewrite decide_False by done.
      by rewrite pl_reader, Hpu.
    - rewrite pl_place by (by rewrite pl_reader, Hfu). by rewrite decide_True.
    - autorewrite with places. apply unflushed_none. by rewrite Hp.
    - autorewrite with places. by apply (fl_none _ f _ Hfu).
    - destruct (work_in_hand _ _ _ _ Hpu Hu) as (w' & t & ? & ?). by exists w', t. }
  unfold a_attach. assert (Hsome : areqs a !! r <> None).
  { unfold pl in Hp. by destruct (areqs a !! r). }
  pose proof (attach_unflushed f r a Hsome) as E.
  set (d := match areqs a !! r with Some _ => _ | None => _ end) in *.
  assert (Hd : queues d = queues a /\ works d = works a /\ aconns d = aconns a /\
    aworkers d = aworkers a /\ afresh d = afresh a).
  { unfold d. destruct (areqs a !! r) as [x|]; [|done]. destruct (a_flush x); [|done].
    by rewrite free_queues, free_works, free_conns, free_workers, free_fresh. }
  assert (Hm : areqs (a_upd f (set_a_place (FlushOf r)) (a_upd r (set_a_flush (Some f)) d))
    = areqs (a_upd r (set_a_flush (Some f)) b)).
  { rewrite E. cbn. apply map_eq. intros y. rewrite !lookup_alter.
    repeat case_decide; subst; congruence. }
  destruct Hd as (D1 & D2 & D3 & D4 & D5).
  assert (Hk : wf (a_reader c Reading (a_upd f (set_a_place (FlushOf r)) (a_upd r (set_a_flush (Some f)) d)))).
  { revert Hb. apply wf_ext; unfold pl, fl, cn; cbn -[a_upd]; rewrite ?Hm; cbn;
      rewrite ?D1, ?D2, ?D3, ?D4, ?D5, ?Eq, ?Ew, ?Ea, ?Ek, ?En; done. }
  revert Hk. unfold a_kill. destruct sig; [|done].
  destruct (areqs (a_upd f _ _) !! r) as [x|]; [|done]. destruct (a_place x); try done.
  by apply wf_ext.
Qed.

(** ** Flushes *)

Lemma a_find_Some m c tag l r : a_find m c tag l = Some r -> r ∈ l /\ a_matches m c tag r = true.
Proof.
  unfold a_find. intros E. assert (Hin : r ∈ filter (fun r => a_matches m c tag r) l).
  { destruct (filter _ l); [done|]. injection E as ->. set_solver. }
  apply list_elem_of_filter in Hin as [Hm Hin]. split; [done|]. by apply Is_true_eq_true.
Qed.

Lemma default_lookup {A} (ls : list (list A)) i r : r ∈ default [] (ls !! i) ->
  exists l, ls !! i = Some l /\ r ∈ l.
Proof. destruct (ls !! i); cbn; [by eauto|]. by intros ?%elem_of_nil. Qed.

Lemma drop_conns i r a : aconns (a_drop i r a) = aconns a.
Proof. unfold a_drop. by rewrite free_conns. Qed.

Lemma wf_flush_pools sig f c c' tag ps a now b : wf a -> aconns a !! c = Some (Got f) ->
  a_flush_pools sig f c' tag ps a = (now, b) ->
  wf (a_reader c (if now then Flushed f else Reading) b).
Proof.
  intros Hw Ec. induction ps as [|i ps IH]; cbn.
  - intros [= <- <-]. by apply (wf_reader_move _ _ (Got f)).
  - destruct (a_find _ _ _ (default [] (queues a !! i))) as [r|] eqn:E1.
    { intros [= <- <-]. apply a_find_Some in E1 as [(l & El & Hr)%default_lookup _].
      apply (wf_reader_move _ _ (Got f)); [by rewrite drop_conns|done|].
      apply wf_drop; [by apply (wf_queue _ _ Hw _ _ _ El Hr)|done]. }
    destruct (a_find _ _ _ (default [] (works a !! i))) as [r|] eqn:E2; [|by apply IH].
    intros [= <- <-]. apply a_find_Some in E2 as [(l & El & Hr)%default_lookup _].
    destruct (wf_work _ _ Hw _ _ _ El Hr) as (_ & w & Hp). by eapply wf_attach.
Qed.

Lemma pl_drop i r a r' : pl (a_drop i r a) r' = if decide (r' = r) then None else pl a r'.
Proof. unfold a_drop. by rewrite pl_free. Qed.

Lemma wf_drop_all c i l : forall a, NoDup l -> Forall (fun r => pl a r = Some (InQueue i)) l -> wf a ->
  wf (foldl (a_drop_of i c) a l).
Proof.
  induction l as [|r l IH]; intros a Hn Hl Hw; cbn; [done|].
  apply NoDup_cons in Hn as [Hr Hn]. apply Forall_cons in Hl as [Hp Hl].
  unfold a_drop_of at 2. destruct (of_conn (areqs a) c r); [|by apply IH].
  apply IH; [done| |by apply wf_drop].
  rewrite Forall_forall in Hl |- *. intros y Hy. rewrite pl_drop, decide_False; [by apply Hl|].
  by intros ->.
Qed.

Lemma wf_silence sig c a r : wf a -> wf (a_silence_of sig c a r).
Proof.
  intros Hw. unfold a_silence_of. destruct (of_conn _ _ _); [|done].
  by apply wf_kill, wf_plain.
Qed.

Lemma wf_silence_all sig c l : forall a, wf a -> wf (foldl (a_silence_of sig c) a l).
Proof. induction l as [|r l IH]; intros a Hw; cbn; [done|]. by apply IH, wf_silence. Qed.

Lemma wf_flush_conn_pool sig c a i : wf a -> wf (a_flush_conn_pool sig c a i).
Proof.
  intros Hw. unfold a_flush_conn_pool. apply wf_silence_all.
  destruct (queues a !! i) as [l|] eqn:El; cbn; [|done].
  apply wf_drop_all; [by eapply wf_nodup| |done].
  rewrite Forall_forall. intros r Hr. by apply (wf_queue _ _ Hw _ _ _ El).
Qed.

Lemma wf_conn_flush sig c a : wf a -> wf (a_conn_flush sig c a).
Proof.
  unfold a_conn_flush. generalize (seq 0 (length (queues a))). intros ps. revert a.
  induction ps as [|i ps IH]; intros a Hw; cbn; [done|]. by apply IH, wf_flush_conn_pool.
Qed.

Lemma kill_conns sig r a : aconns (a_kill sig r a) = aconns a.
Proof.
  unfold a_kill. destruct sig; [|done]. destruct (areqs a !! r) as [x|]; [|done].
  by destruct (a_place x).
Qed.

Lemma conn_flush_conns sig c a : aconns (a_conn_flush sig c a) = aconns a.
Proof.
  unfold a_conn_flush. generalize (seq 0 (length (queues a))). intros ps. revert a.
  induction ps as [|i ps IH]; intros a; cbn; [done|]. rewrite IH. unfold a_flush_conn_pool.
  generalize (default [] (queues a !! i)). intros l.
  set (b := foldl _ a l). transitivity (aconns b).
  - generalize (default [] (works b !! i)). intros l'. clearbody b. revert b.
    induction l' as [|r l' IH']; intros b; cbn; [done|]. rewrite IH'. unfold a_silence_of.
    destruct (of_conn _ _ _); [|done]. by rewrite kill_conns.
  - subst b. revert a. induction l as [|r l IH']; intros a; cbn; [done|]. rewrite IH'.
    unfold a_drop_of. destruct (of_conn _ _ _); [|done]. apply drop_conns.
Qed.

(** ** Every step *)

Lemma refs_zero a c : refs (areqs a) c = 0%nat -> forall r, cn a r <> Some c.
Proof.
  unfold refs, cn. intros E r. destruct (areqs a !! r) as [x|] eqn:Ex; [|done].
  intros [= Hc]. apply map_size_empty_inv in E.
  pose proof (map_lookup_filter_Some_2 (fun p => a_conn p.2 = c) (areqs a) r x Ex Hc) as K.
  rewrite E in K. done.
Qed.

Lemma wf_process a w i r b : aworkers a !! w = Some {| w_tpool := i; w_pc := Busy r |} -> wf a ->
  wf (a_process w i r b a).
Proof.
  intros Et Hw. unfold a_process. set (d := if b then _ else _).
  assert (Hd : wf d /\ aworkers d = aworkers a).
  { unfold d. destruct b; [|done]. split; [by apply wf_plain|done]. }
  destruct Hd as [Hd Ed]. set (e := a_send _ _ _).
  assert (Ee : aworkers e = aworkers a).
  { unfold e, a_send. destruct (areqs _ !! r); [|done]. by case_decide. }
  apply (worker_move e i w (Busy r)); [by rewrite Ee|done|done|]. by apply wf_send, wf_plain.
Qed.

Lemma send_conns e r a : aconns (a_send e r a) = aconns a.
Proof. unfold a_send. destruct (areqs a !! r); [|done]. by case_decide. Qed.

Lemma wf_rflush a c r : aconns a !! c = Some (Flushed r) -> wf a ->
  wf (a_reader c Reading (a_free r (a_send (Ev_rflush r) r a))).
Proof.
  intros Ec Hw. set (b := a_send _ _ a).
  assert (Hb : wf (a_free r (a_reader c Reading b))).
  { eapply wf_free_reader; [unfold b; by rewrite send_conns|done|done|by apply wf_send]. }
  revert Hb. unfold a_free. cbn. by destruct (areqs b !! r).
Qed.

Lemma wf_astep sig l a b : astep sig l a = Some b -> wf a -> wf b.
Proof.
  intros E Hw. destruct l; cbn in E.
  all: unfold astep_reader, astep_worker in E; repeat case_match; simplify_eq.
  all: repeat match goal with t : Npwthread |- _ => destruct t; cbn in * |- end; simplify_eq.
  all: try by eauto using wf_connect, wf_recv, wf_take, wf_process, wf_unwork, wf_flushreply,
    wf_release, wf_rflush.
  - by eapply (wf_flush_pools _ _ _ _ _ _ _ true).
  - by eapply (wf_flush_pools _ _ _ _ _ _ _ false).
  - apply wf_enqueue; [done|by apply Nat.ltb_lt|done].
  - apply (wf_reader_move _ _ Reading); [by rewrite conn_flush_conns|done|by apply wf_conn_flush].
  - apply wf_destroy; [by apply refs_zero|done|done].
Qed.

Lemma wf_start pools wpools : Forall (fun i => (i < pools)%nat) wpools -> wf (astart pools wpools).
Proof.
  intros Hp. split; cbn; intros *; unfold pl, fl, cn; cbn; rewrite ?lookup_empty; try done.
  - intros [-> _]%lookup_replicate. constructor.
  - intros [-> _]%lookup_replicate. by intros ?%elem_of_nil.
  - intros [-> _]%lookup_replicate. constructor.
  - intros [-> _]%lookup_replicate. by intros ?%elem_of_nil.
  - rewrite list_lookup_fmap. intros (i & E & ->)%fmap_Some. rewrite length_replicate.
    exact (Forall_lookup_1 _ _ _ _ Hp E).
  - rewrite list_lookup_fmap. by intros (i & E & ->)%fmap_Some.
  - by intros [? ?].
Qed.
