(* ===== verification/QueueSim.v ===== *)
(** * The queues and threads implement their specification (libnpfs/srv.c, conn.c)

    A simulation between the code over the heap of requests (Queue.v) and the
    machine over lists (QueueSpec.v): every step of a thread runs to its end
    without touching freed memory or failing an assertion, and does what the
    abstract step does. *)
From S2P Require Import Prelude Protocol Queue QueueSpec QueueInv.
From stdpp Require Import list gmap.
#[local] Open Scope Z_scope.

(** ** Doubly linked lists *)

Definition links (m : gmap rid Npreq) (r : rid) : option (option rid * option rid) :=
  (fun q => (r_prev q, r_next q)) <$> m !! r.

(** The requests [l] are linked to each other in this order, after [p]. *)
Fixpoint dll (m : gmap rid Npreq) (p : option rid) (l : list rid) : Prop :=
  match l with
  | [] => True
  | r :: l => links m r = Some (p, head l) /\ dll m (Some r) l
  end.

(** A request without its links. *)
Definition core (q : Npreq) : Npreq := set_r_prev None (set_r_next None q).

Definition upd_o (o : option rid) (f : Npreq -> Npreq) (m : gmap rid Npreq) : gmap rid Npreq :=
  match o with Some y => alter f y m | None => m end.

(** The map after [np_srv_remove_req] or [np_srv_remove_workreq]. *)
Definition unlink (pv nx : option rid) (m : gmap rid Npreq) : gmap rid Npreq :=
  upd_o nx (set_r_prev pv) (upd_o pv (set_r_next nx) m).

Lemma links_next y n m z : links (alter (set_r_next n) y m) z =
  if decide (y = z) then (fun pn => (pn.1, n)) <$> links m z else links m z.
Proof.
  unfold links. rewrite lookup_alter. case_decide; [|done]. subst. by destruct (m !! z).
Qed.

Lemma links_prev y n m z : links (alter (set_r_prev n) y m) z =
  if decide (y = z) then (fun pn => (n, pn.2)) <$> links m z else links m z.
Proof.
  unfold links. rewrite lookup_alter. case_decide; [|done]. subst. by destruct (m !! z).
Qed.

Lemma links_upd_next o n m z : links (upd_o o (set_r_next n) m) z =
  if decide (o = Some z) then (fun pn => (pn.1, n)) <$> links m z else links m z.
Proof.
  destruct o as [y|]; cbn; [|done]. rewrite links_next. repeat case_decide; congruence.
Qed.

Lemma links_upd_prev o n m z : links (upd_o o (set_r_prev n) m) z =
  if decide (o = Some z) then (fun pn => (n, pn.2)) <$> links m z else links m z.
Proof.
  destruct o as [y|]; cbn; [|done]. rewrite links_prev. repeat case_decide; congruence.
Qed.

Lemma core_upd o f m : (forall q, core (f q) = core q) -> core <$> upd_o o f m = core <$> m.
Proof.
  intros Hf. destruct o as [y|]; [|done]. apply map_eq. intros z. rewrite !lookup_fmap. cbn.
  rewrite lookup_alter. case_decide; [|done]. subst. destruct (m !! z); cbn; [|done]. by rewrite Hf.
Qed.

Lemma core_one r f (m : gmap rid Npreq) : (forall q, core (f q) = core q) -> core <$> alter f r m = core <$> m.
Proof. apply (core_upd (Some r)). Qed.

Lemma core_unlink pv nx m : core <$> unlink pv nx m = core <$> m.
Proof. unfold unlink. by rewrite !core_upd. Qed.

Lemma dll_frame m m' l : forall p, (forall r, r ∈ l -> links m' r = links m r) ->
  dll m p l -> dll m' p l.
Proof.
  induction l as [|r l IH]; intros p Hl; cbn; [done|]. intros [Hr Hd].
  split; [rewrite Hl; [done|set_solver]|]. apply IH; [|done]. intros y Hy. apply Hl. set_solver.
Qed.

Lemma dll_lookup m l r : forall p, dll m p l -> r ∈ l -> is_Some (m !! r).
Proof.
  induction l as [|y l IH]; intros p; [by intros _ ?%elem_of_nil|].
  intros [Hy Hd] [->|Hr]%elem_of_cons; [|by eapply IH].
  unfold links in Hy. by destruct (m !! y).
Qed.

(** The request before a place in the list. *)
Definition before (p : option rid) (l : list rid) : option rid :=
  match last l with Some y => Some y | None => p end.

Lemma before_cons p x l : before p (x :: l) = before (Some x) l.
Proof. unfold before. rewrite last_cons. by destruct (last l). Qed.

Lemma dll_at m r l1 l2 : forall p, dll m p (l1 ++ r :: l2) -> links m r = Some (before p l1, head l2).
Proof.
  induction l1 as [|x l1 IH]; intros p; cbn; [by intros []|]. intros [_ Hd].
  rewrite before_cons. by apply IH.
Qed.

Lemma before_elem p l y : before p l = Some y -> p = Some y \/ y ∈ l.
Proof.
  unfold before. destruct (last l) as [z|] eqn:E; [|by left]. intros [= ->].
  right. by apply last_Some_elem_of.
Qed.

Lemma head_elem (l : list rid) y : head l = Some y -> y ∈ l.
Proof. destruct l; [done|]. intros [= ->]. set_solver. Qed.

Lemma unlink_links pv nx m r l1 l2 p z : NoDup (l1 ++ r :: l2) ->
  pv = before p l1 -> nx = head l2 -> p <> Some z -> z ∉ l1 ++ l2 ->
  links (unlink pv nx m) z = links m z.
Proof.
  intros Hn -> -> Hp Hz. unfold unlink. rewrite links_upd_prev, decide_False.
  - rewrite links_upd_next, decide_False; [done|]. intros [?|?]%before_elem; set_solver.
  - intros ?%head_elem. set_solver.
Qed.

Lemma dll_unlink m r l1 l2 : forall p, NoDup (l1 ++ r :: l2) ->
  (forall y, p = Some y -> y ∉ l1 ++ r :: l2) -> dll m p (l1 ++ r :: l2) ->
  dll (unlink (before p l1) (head l2) m) p (l1 ++ l2).
Proof.
  induction l1 as [|x l1 IH]; intros p Hn Hp; cbn [app].
  - intros [_ Hd]. apply NoDup_cons in Hn as [Hr Hn]. destruct l2 as [|z l2]; [done|].
    destruct Hd as [Hz Hd]. apply NoDup_cons in Hn as [Hz' Hn]. cbn [head before last].
    split.
    + unfold unlink. rewrite links_upd_prev, decide_True, links_upd_next by done.
      rewrite decide_False; [by rewrite Hz|]. intros ->. specialize (Hp z eq_refl). set_solver.
    + eapply dll_frame; [|exact Hd]. intros y Hy. unfold unlink.
      rewrite links_upd_prev, decide_False by (intros [= ->]; done).
      rewrite links_upd_next, decide_False; [done|]. intros ->.
      specialize (Hp y eq_refl). set_solver.
  - intros [Hx Hd]. cbn in Hn. apply NoDup_cons in Hn as [Hx' Hn]. rewrite before_cons. split.
    + unfold unlink. rewrite links_upd_prev, decide_False
        by (intros ?%head_elem; set_solver).
      rewrite links_upd_next. destruct l1 as [|x1 l1]; cbn [app head before last].
      * rewrite decide_True by done. by rewrite Hx.
      * rewrite decide_False; [done|].
        change (before (Some x) (x1 :: l1) <> Some x). rewrite before_cons.
        intros [[= ->]|?]%before_elem; set_solver.
    + apply IH; [done| |done]. intros y [= ->]. done.
Qed.

Lemma dll_snoc m r l : forall p, NoDup l -> r ∉ l -> (forall y, p = Some y -> (y ∉ l) /\ y <> r) ->
  dll m p l -> (r_next <$> m !! r) = Some None ->
  dll (upd_o (last l) (set_r_next (Some r)) (alter (set_r_prev (before p l)) r m)) p (l ++ [r]).
Proof.
  intros p Hn Hr Hp Hd Hx.
  assert (Hlr : links m r = Some (default None (r_prev <$> m !! r), None)).
  { unfold links. destruct (m !! r); cbn in *; congruence. }
  revert p Hn Hp Hd. induction l as [|x l IH]; intros p Hn Hp; cbn [app].
  - intros _. cbn. split; [|done]. rewrite links_prev, decide_True, Hlr by done. done.
  - intros [Hl Hd]. apply NoDup_cons in Hn as [Hxl Hn].
    apply not_elem_of_cons in Hr as [Hrx Hr]. split.
    + rewrite links_upd_next, links_prev, (decide_False (P := r = x)) by done.
      destruct l as [|y l]; cbn [last app head].
      * rewrite decide_True by done. by rewrite Hl.
      * rewrite decide_False; [done|]. intros E%last_Some_elem_of. done.
    + rewrite before_cons. destruct l as [|y l].
      * cbn. split; [|done].
        rewrite links_next, links_prev, (decide_True (P := r = r)), decide_False, Hlr by done. done.
      * rewrite last_cons_cons. apply IH; try done. intros z [= <-]. done.
Qed.

Lemma dll_cons m r l : NoDup l -> r ∉ l -> dll m None l -> is_Some (m !! r) ->
  dll (alter (set_r_prev None) r (alter (set_r_next (head l)) r (upd_o (head l) (set_r_prev (Some r)) m)))
    None (r :: l).
Proof.
  intros Hn Hr Hd [q Hq]. split.
  - rewrite links_prev, links_next, decide_True, decide_True by done. rewrite links_upd_prev.
    unfold links. rewrite Hq. by case_decide.
  - destruct l as [|y l]; [done|]. apply not_elem_of_cons in Hr as [Hry Hr].
    apply NoDup_cons in Hn as [Hy Hn]. destruct Hd as [Hl Hd]. split.
    + rewrite links_prev, links_next, !(decide_False (P := r = y)) by done.
      rewrite links_upd_prev, decide_True by done. by rewrite Hl.
    + eapply dll_frame; [|exact Hd]. intros z Hz.
      rewrite links_prev, links_next, !(decide_False (P := r = z)) by (intros ->; done).
      rewrite links_upd_prev, decide_False; [done|]. cbn. intros [= ->]. done.
Qed.

(** ** The relation *)

(** The request that the code keeps for an abstract one, without its links. *)
Definition acore (x : areq) : Npreq := {|
  r_refcount := 1; r_conn := a_conn x; r_tag := a_tag x; r_state := a_state x;
  r_flushreq := a_flush x; r_type := a_type x; r_oldtag := a_oldtag x; r_fid := a_fid x;
  r_next := None; r_prev := None;
  r_wthread := match a_place x with InWork _ w | AtWorker w => Some w | _ => None end |}.

Record sim (st : qstate) (a : astate) : Prop := {
  sim_reqs : core <$> reqs st = acore <$> areqs a;
  sim_len : length (tpools st) = length (queues a);
  sim_queue i t l : tpools st !! i = Some t -> queues a !! i = Some l ->
    reqs_first t = head l /\ reqs_last t = last l /\ dll (reqs st) None l;
  sim_work i t l : tpools st !! i = Some t -> works a !! i = Some l ->
    workreqs t = head l /\ dll (reqs st) None l;
  sim_new r c q : pl a r = Some (AtReader c) -> reqs st !! r = Some q -> r_next q = None;
  sim_conns c : qconns st !! c =
    (fun pc => {| c_refcount := Z.of_nat (refs (areqs a) c); c_reader := pc |}) <$> aconns a !! c;
  sim_workers : workers st = aworkers a;
  sim_fresh : fresh_rid st = afresh a;
  sim_out : out st = aout a;
}.

(** The request is in no list. *)
Definition unlisted (a : astate) (r : rid) : Prop :=
  forall i l, queues a !! i = Some l \/ works a !! i = Some l -> r ∉ l.

Lemma sim_lookup st a r x : sim st a -> areqs a !! r = Some x ->
  exists q, reqs st !! r = Some q /\ core q = acore x.
Proof.
  intros Hs Ex. pose proof (f_equal (fun m => m !! r) (sim_reqs _ _ Hs)) as E.
  cbn in E. rewrite !lookup_fmap, Ex in E. apply fmap_Some in E as (q & Eq & Hq). eauto.
Qed.

(** What the code reads of a request. *)
Lemma core_eq q x : core q = acore x ->
  r_refcount q = 1 /\ r_conn q = a_conn x /\ r_tag q = a_tag x /\ r_state q = a_state x /\
  r_flushreq q = a_flush x /\ r_type q = a_type x /\ r_oldtag q = a_oldtag x /\ r_fid q = a_fid x /\
  r_wthread q = match a_place x with InWork _ w | AtWorker w => Some w | _ => None end.
Proof. destruct q, x. unfold core, acore, set_r_prev, set_r_next. cbn. intros [=]. done. Qed.

(** ** Updates of one request *)

Lemma sim_cn st a r : sim st a -> cn a r = r_conn <$> reqs st !! r.
Proof.
  intros Hs. unfold cn. destruct (areqs a !! r) as [x|] eqn:Ex.
  - destruct (sim_lookup _ _ _ _ Hs Ex) as (q & Eq & Hq). rewrite Eq. cbn.
    by destruct (core_eq _ _ Hq) as (_ & -> & _).
  - pose proof (f_equal (fun m => m !! r) (sim_reqs _ _ Hs)) as K. cbn in K.
    rewrite !lookup_fmap, Ex in K. by destruct (reqs st !! r).
Qed.

Lemma core_alter f g (m : gmap rid Npreq) (n : gmap rid areq) r :
  core <$> m = acore <$> n ->
  (forall q x, m !! r = Some q -> n !! r = Some x -> core q = acore x -> core (f q) = acore (g x)) ->
  core <$> alter f r m = acore <$> alter g r n.
Proof.
  intros E Hf. apply map_eq. intros z. pose proof (f_equal (fun m => m !! z) E) as Ez.
  cbn in Ez. rewrite !lookup_fmap in *. rewrite !lookup_alter. case_decide; [|done]. subst.
  destruct (m !! z) as [q|] eqn:E1, (n !! z) as [x|] eqn:E2; try done.
  change (Some (core q) = Some (acore x)) in Ez. change (Some (core (f q)) = Some (acore (g x))).
  f_equal. apply Hf; [done..|congruence].
Qed.

Lemma links_alter f r m : (forall q, r_next (f q) = r_next q /\ r_prev (f q) = r_prev q) ->
  forall z, links (alter f r m) z = links m z.
Proof.
  intros Hf z. unfold links. rewrite lookup_alter. case_decide; [|done]. subst.
  destruct (m !! z) as [q|]; [|done]. cbn. by destruct (Hf q) as [-> ->].
Qed.

Lemma refs_alter g r m c : (forall x, a_conn (g x) = a_conn x) -> refs (alter g r m) c = refs m c.
Proof.
  intros Hg. unfold refs. rewrite <- (map_size_fmap a_conn (filter _ (alter g r m))).
  rewrite <- (map_size_fmap a_conn (filter _ m)). f_equal. apply map_eq. intros z.
  rewrite !lookup_fmap, !map_lookup_filter, lookup_alter. case_decide; [|done]. subst.
  destruct (m !! z) as [x|]; cbn; [|done]. rewrite Hg. case_guard; cbn; [|done]. by rewrite Hg.
Qed.

Lemma upd_req_run r f st q : reqs st !! r = Some q ->
  upd_req r f st = Ret (set_reqs (alter f r (reqs st)) st).
Proof.
  intros E. unfold upd_req, load_req. rewrite E. cbn. do 2 f_equal.
  apply map_eq. intros z. rewrite lookup_insert, lookup_alter. case_decide; [|done]. subst.
  by rewrite E.
Qed.

(** An update that leaves the links alone. *)
Lemma sim_upd st a r f g x : sim st a -> areqs a !! r = Some x ->
  (forall q, r_next (f q) = r_next q /\ r_prev (f q) = r_prev q) ->
  (forall x, a_conn (g x) = a_conn x) ->
  (forall q, core q = acore x -> core (f q) = acore (g x)) ->
  (forall c, a_place (g x) = AtReader c -> a_place x = AtReader c) ->
  exists st', upd_req r f st = Ret st' /\ sim st' (a_upd r g a).
Proof.
  intros Hs Ex Hl Hg Hc Hp. destruct (sim_lookup _ _ _ _ Hs Ex) as (q & Eq & Hq).
  rewrite (upd_req_run _ _ _ _ Eq). eexists. split; [done|].
  pose proof (links_alter f r (reqs st) Hl) as Hd.
  split; cbn [set_reqs a_upd set_areqs reqs areqs tpools queues works qconns aconns workers aworkers
    fresh_rid afresh out aout]; try apply Hs.
  - apply core_alter; [apply Hs|]. intros q' x' E E' K. rewrite Ex in E'. injection E' as <-. by apply Hc.
  - intros i t l Et El. destruct (sim_queue _ _ Hs _ _ _ Et El) as (? & ? & ?).
    split; [done|]. split; [done|]. by eapply dll_frame; [intros ? _; apply Hd|].
  - intros i t l Et El. destruct (sim_work _ _ Hs _ _ _ Et El) as (? & ?).
    split; [done|]. by eapply dll_frame; [intros ? _; apply Hd|].
  - intros y c q'. unfold pl. cbn. rewrite !lookup_alter. case_decide; [|by apply (sim_new _ _ Hs)].
    subst. rewrite Eq, Ex. cbn. intros [= Hy] [= <-]. rewrite (proj1 (Hl q)).
    apply (sim_new _ _ Hs y c q); [|done]. unfold pl. rewrite Ex. cbn. f_equal. by apply Hp.
  - intros c. rewrite refs_alter by done. apply Hs.
Qed.

(** An abstract update that the code has no field for. *)
Lemma sim_upd_abs st a r g x : sim st a -> areqs a !! r = Some x ->
  (forall x, a_conn (g x) = a_conn x) -> acore (g x) = acore x ->
  (forall c, a_place (g x) = AtReader c -> a_place x = AtReader c) ->
  sim st (a_upd r g a).
Proof.
  intros Hs Ex Hg Hc Hp.
  destruct (sim_upd st a r id g x Hs Ex) as (st' & E & Hs'); [done|done|intros q Hq; by rewrite Hc|done|].
  destruct (sim_lookup _ _ _ _ Hs Ex) as (q & Eq & Hq). rewrite (upd_req_run _ _ _ _ Eq) in E.
  injection E as <-. rewrite alter_id in Hs' by done. by destruct st.
Qed.

(** ** Updates of the lists of a pool *)

Definition set_pool (i : nat) (ql wl : list rid) (a : astate) : astate :=
  set_works (<[i := wl]> (works a)) (set_queues (<[i := ql]> (queues a)) a).

Lemma sim_relink st a i t' m' ql wl : sim st a -> core <$> m' = core <$> reqs st ->
  (forall j l z, j <> i -> queues a !! j = Some l \/ works a !! j = Some l -> z ∈ l ->
     links m' z = links (reqs st) z) ->
  (forall z c q, pl a z = Some (AtReader c) -> m' !! z = Some q -> r_next q = None) ->
  reqs_first t' = head ql -> reqs_last t' = last ql -> dll m' None ql ->
  workreqs t' = head wl -> dll m' None wl ->
  sim (put_tpool i t' (set_reqs m' st)) (set_pool i ql wl a).
Proof.
  intros Hs Hm Hl Hn H1 H2 H3 H4 H5. split; cbn -[lookup fmap]; try apply Hs.
  - rewrite Hm. apply Hs.
  - rewrite !length_insert. apply Hs.
  - intros j t l [(<- & <- & _)|[Hj Et]]%list_lookup_insert_Some
      [(E & <- & _)|[Hj' El]]%list_lookup_insert_Some; try done.
    destruct (sim_queue _ _ Hs _ _ _ Et El) as (? & ? & Hd). split; [done|]. split; [done|].
    eapply dll_frame; [|exact Hd]. intros z Hz. by eapply (Hl j); [|left|].
  - intros j t l [(<- & <- & _)|[Hj Et]]%list_lookup_insert_Some
      [(E & <- & _)|[Hj' El]]%list_lookup_insert_Some; try done.
    destruct (sim_work _ _ Hs _ _ _ Et El) as (? & Hd). split; [done|].
    eapply dll_frame; [|exact Hd]. intros z Hz. by eapply (Hl j); [|right|].
  - intros z c q. apply Hn.
Qed.

Lemma upd_opt_run o f st : (forall y, o = Some y -> is_Some (reqs st !! y)) ->
  upd_req_opt o f st = Ret (set_reqs (upd_o o f (reqs st)) st).
Proof.
  destruct o as [y|]; cbn; [|by destruct st]. intros Hy. destruct (Hy y eq_refl) as [q Eq].
  by eapply upd_req_run.
Qed.

Lemma lookup_upd_o o f m y : is_Some (upd_o o f m !! y) <-> is_Some (m !! y).
Proof.
  destruct o as [z|]; cbn; [|done]. rewrite lookup_alter. case_decide; [|done]. subst.
  by rewrite fmap_is_Some.
Qed.

Lemma without_app r l1 l2 : NoDup (l1 ++ r :: l2) -> without r (l1 ++ r :: l2) = l1 ++ l2.
Proof.
  intros Hn. apply NoDup_app in Hn as (Hn1 & Hd & [Hr Hn2]%NoDup_cons).
  unfold without. rewrite filter_app, filter_cons_False by (intros ?; done).
  f_equal; [|by apply without_notin]. apply without_notin. intros K. apply (Hd r K). set_solver.
Qed.

Lemma alter_insert {A} (f : A -> A) i (l : list A) x : l !! i = Some x -> alter f i l = <[i := f x]> l.
Proof.
  intros E. apply list_eq. intros j. rewrite list_lookup_alter, list_lookup_insert.
  destruct (decide (i = j)) as [<-|]; [|by rewrite decide_False by naive_solver].
  rewrite decide_True by (split; [done|by eapply lookup_lt_Some]). by rewrite E.
Qed.

Lemma links_next_eq m m' z q' : links m' z = links m z -> m' !! z = Some q' ->
  exists q, m !! z = Some q /\ r_next q' = r_next q.
Proof. unfold links. intros E E'. rewrite E' in E. destruct (m !! z) as [q|]; [|done]. naive_solver. Qed.

Lemma sim_new_frame st a m' z c q' : sim st a -> pl a z = Some (AtReader c) ->
  links m' z = links (reqs st) z -> m' !! z = Some q' -> r_next q' = None.
Proof.
  intros Hs Hz Hl E. destruct (links_next_eq _ _ _ _ Hl E) as (q & Eq & ->).
  by apply (sim_new _ _ Hs z c).
Qed.

(** Two lists of the invariant have no request in common. *)
Lemma lists_apart x a i j l l' z : wfx x a -> queues a !! i = Some l ->
  queues a !! j = Some l' /\ j <> i \/ works a !! j = Some l' -> z ∈ l' -> z ∉ l.
Proof.
  intros Hw El [[El' Hj]|El'] Hz Hz'.
  - destruct (wf_queue _ _ Hw _ _ _ El Hz') as [_ K]. destruct (wf_queue _ _ Hw _ _ _ El' Hz). congruence.
  - destruct (wf_queue _ _ Hw _ _ _ El Hz') as [_ K].
    destruct (wf_work _ _ Hw _ _ _ El' Hz) as (_ & w & ?). congruence.
Qed.

Lemma works_apart x a i j l l' z : wfx x a -> works a !! i = Some l ->
  works a !! j = Some l' /\ j <> i \/ queues a !! j = Some l' -> z ∈ l' -> z ∉ l.
Proof.
  intros Hw El [[El' Hj]|El'] Hz Hz'; destruct (wf_work _ _ Hw _ _ _ El Hz') as (_ & w & K).
  - destruct (wf_work _ _ Hw _ _ _ El' Hz) as (_ & w' & ?). congruence.
  - destruct (wf_queue _ _ Hw _ _ _ El' Hz). congruence.
Qed.

Lemma reader_unlisted x a z c : wfx x a -> pl a z = Some (AtReader c) -> unlisted a z.
Proof.
  intros Hw Hz i l [El|El] Hin.
  - destruct (wf_queue _ _ Hw _ _ _ El Hin). congruence.
  - destruct (wf_work _ _ Hw _ _ _ El Hin) as (_ & w & ?). congruence.
Qed.

(** A pool and its lists. *)
Lemma sim_pools st a i : sim st a -> length (works a) = length (queues a) ->
  (i < length (queues a))%nat -> exists t ql wl, tpools st !! i = Some t /\
    queues a !! i = Some ql /\ works a !! i = Some wl.
Proof.
  intros Hs Hl Hi. destruct (lookup_lt_is_Some_2 (queues a) i) as [ql E1]; [done|].
  destruct (lookup_lt_is_Some_2 (works a) i) as [wl E2]; [lia|].
  destruct (lookup_lt_is_Some_2 (tpools st) i) as [t E3]; [rewrite (sim_len _ _ Hs); lia|]. eauto 10.
Qed.

Lemma links_lookup m r pn : links m r = Some pn -> exists q, m !! r = Some q /\
  r_prev q = pn.1 /\ r_next q = pn.2.
Proof. unfold links. destruct (m !! r); cbn; [|done]. intros [= <-]. eauto. Qed.

(** [np_srv_remove_req] takes a request out of its queue. *)
Lemma sim_remove_req st a i r : sim st a -> wf a -> pl a r = Some (InQueue i) ->
  exists st', np_srv_remove_req i r st = Ret st' /\
    sim st' (set_queues (alter (without r) i (queues a)) a).
Proof.
  intros Hs Hw Hp. destruct (wf_inqueue _ _ Hw _ _ Hp) as (l & El & Hr); [done|].
  destruct (sim_pools st a i Hs (wf_len _ _ Hw)) as (t & ql & wl & Et & Eq & Ew);
    [by eapply lookup_lt_Some|]. rewrite El in Eq. injection Eq as <-.
  destruct (sim_queue _ _ Hs _ _ _ Et El) as (Hf & Hlast & Hd).
  destruct (sim_work _ _ Hs _ _ _ Et Ew) as (Hwf & Hwd).
  pose proof (wf_nodup _ _ Hw _ _ El) as Hn.
  apply list_elem_of_split in Hr as (l1 & l2 & ->).
  destruct (links_lookup _ _ _ (dll_at _ _ _ _ _ Hd)) as (q & Eq & Hqp & Hqn). cbn in Hqp, Hqn.
  assert (Hin : forall y, before None l1 = Some y \/ head l2 = Some y -> is_Some (reqs st !! y)).
  { intros y Hy. eapply dll_lookup; [exact Hd|].
    destruct Hy as [[|]%before_elem|?%head_elem]; [done|set_solver..]. }
  unfold np_srv_remove_req, load_tpool, load_req. rewrite Et, Eq. cbn [res_bind]. rewrite Hqp, Hqn.
  rewrite upd_opt_run by (intros y Hy; apply Hin; by left). cbn [res_bind].
  rewrite upd_opt_run by (intros y Hy; cbn; rewrite lookup_upd_o; apply Hin; by right).
  cbn [res_bind set_reqs reqs]. fold (unlink (before None l1) (head l2) (reqs st)).
  eexists. split; [done|].
  rewrite (alter_insert _ _ _ _ El), (without_app _ _ _ Hn).
  assert (Hfr : forall z, z ∉ l1 ++ r :: l2 ->
    links (unlink (before None l1) (head l2) (reqs st)) z = links (reqs st) z).
  { intros z Hz. eapply (unlink_links _ _ _ r l1 l2 None); [done..|set_solver]. }
  replace (set_queues _ a) with (set_pool i (l1 ++ l2) wl a)
    by (unfold set_pool; rewrite (list_insert_id (works a)) by done; by destruct a).
  apply (sim_relink st a i _ (unlink (before None l1) (head l2) (reqs st))); try done.
  - apply core_unlink.
  - intros j l' z Hj Hl' Hz. apply Hfr. eapply lists_apart; [done|exact El| |done]. naive_solver.
  - intros z c q' Hz. apply (sim_new_frame st a _ z c); [done|done|].
    apply Hfr, (reader_unlisted _ _ _ _ Hw Hz i). by left.
  - cbn [reqs_first]. rewrite Hf. destruct l1 as [|x l1]; cbn; [by rewrite decide_True|].
    apply NoDup_app in Hn as (_ & Hn & _). rewrite decide_False; [done|].
    intros [= ->]. apply (Hn r); set_solver.
  - cbn [reqs_last]. rewrite Hlast. destruct l2 as [|z l2].
    + rewrite last_snoc, decide_True by done. unfold before. rewrite app_nil_r. by destruct (last l1).
    + rewrite !last_app_cons, last_cons_cons, decide_False; [done|]. intros E%last_Some_elem_of.
      apply NoDup_app in Hn as (_ & _ & [Hn _]%NoDup_cons). done.
  - by apply (dll_unlink _ r).
  - eapply dll_frame; [|exact Hwd]. intros z Hz. apply Hfr.
    eapply lists_apart; [done|exact El|by right|done].
Qed.

Lemma set_pool_queue i ql wl a : works a !! i = Some wl ->
  set_pool i ql wl a = set_queues (<[i := ql]> (queues a)) a.
Proof. intros E. unfold set_pool. rewrite list_insert_id by done. by destruct a. Qed.

Lemma set_pool_work i ql wl a : queues a !! i = Some ql ->
  set_pool i ql wl a = set_works (<[i := wl]> (works a)) a.
Proof. intros E. unfold set_pool. rewrite (list_insert_id (queues a)) by done. by destruct a. Qed.

(** [np_srv_add_req] appends the request to the queue. *)
Lemma sim_add_req st a i r c : sim st a -> wf a -> (i < length (queues a))%nat ->
  pl a r = Some (AtReader c) ->
  exists st', np_srv_add_req i r st = Ret st' /\
    sim st' (set_queues (alter (fun l => l ++ [r]) i (queues a)) a).
Proof.
  intros Hs Hw Hi Hp. destruct (sim_pools st a i Hs (wf_len _ _ Hw) Hi) as (t & l & wl & Et & El & Ew).
  destruct (sim_queue _ _ Hs _ _ _ Et El) as (Hf & Hlast & Hd).
  destruct (sim_work _ _ Hs _ _ _ Et Ew) as (Hwf & Hwd).
  pose proof (wf_nodup _ _ Hw _ _ El) as Hn. pose proof (reader_unlisted _ _ _ _ Hw Hp) as Hu.
  assert (Hr : r ∉ l) by (apply (Hu i); by left).
  assert (Hex : exists x, areqs a !! r = Some x).
  { unfold pl in Hp. destruct (areqs a !! r); by eauto. }
  destruct Hex as [x Ex]. destruct (sim_lookup _ _ _ _ Hs Ex) as (q & Eq & _).
  unfold np_srv_add_req, load_tpool. rewrite Et. cbn [res_bind].
  rewrite (upd_req_run _ _ _ _ Eq). cbn [res_bind].
  rewrite upd_opt_run; cycle 1.
  { intros y Hy. cbn. rewrite lookup_alter. rewrite Hlast in Hy. apply last_Some_elem_of in Hy.
    rewrite decide_False by (intros ->; done). by apply (dll_lookup _ l y None Hd). }
  cbn [res_bind set_reqs reqs]. eexists. split; [done|].
  set (m' := upd_o _ _ _). rewrite (alter_insert _ _ _ _ El), <- (set_pool_queue _ _ wl) by done.
  assert (Hm : m' = upd_o (last l) (set_r_next (Some r)) (alter (set_r_prev (before None l)) r (reqs st))).
  { unfold m'. rewrite Hlast. unfold before. by destruct (last l). }
  assert (Hfr : forall z, z ∉ l -> z <> r -> links m' z = links (reqs st) z).
  { intros z Hz Hzr. rewrite Hm, links_upd_next, decide_False by (intros ?%last_Some_elem_of; done).
    by rewrite links_prev, decide_False by done. }
  apply (sim_relink st a i _ m'); try done.
  - rewrite Hm. by rewrite core_upd, core_one by done.
  - intros j l' z Hj Hl' Hz. apply Hfr.
    + eapply lists_apart; [done|exact El| |done]. destruct Hl'; [by left|by right].
    + intros ->. by apply (Hu j l').
  - intros z c' q' Hz. destruct (decide (z = r)) as [->|Hne].
    + rewrite Hm. assert (Hlr : last l <> Some r) by (intros ?%last_Some_elem_of; done).
      destruct (last l) as [y|]; cbn; [rewrite lookup_alter_ne by congruence|];
        rewrite lookup_alter_eq, Eq; intros [= <-]; by apply (sim_new _ _ Hs r c' q).
    + apply (sim_new_frame st a _ z c'); [done|done|]. apply Hfr; [|done].
      apply (reader_unlisted _ _ _ _ Hw Hz i). by left.
  - cbn [reqs_first]. rewrite Hf. by destruct l.
  - cbn [reqs_last]. by rewrite last_snoc.
  - rewrite Hm. apply dll_snoc; try done. rewrite Eq. cbn. f_equal. by apply (sim_new _ _ Hs r c).
  - eapply dll_frame; [|exact Hwd]. intros z Hz. apply Hfr.
    + eapply lists_apart; [done|exact El|by right|done].
    + intros ->. by apply (Hu i wl); [right|].
Qed.

(** [np_srv_add_workreq] puts the request in front of the work list. *)
Lemma sim_add_workreq st a i r : sim st a -> wfx (Some r) a -> (i < length (queues a))%nat ->
  is_Some (reqs st !! r) -> (forall c, pl a r <> Some (AtReader c)) ->
  exists st', np_srv_add_workreq i r st = Ret st' /\
    sim st' (set_works (alter (cons r) i (works a)) a).
Proof.
  intros Hs Hw Hi [q Eq] Hp.
  destruct (sim_pools st a i Hs (wf_len _ _ Hw) Hi) as (t & ql & l & Et & Eql & El).
  destruct (sim_queue _ _ Hs _ _ _ Et Eql) as (Hf & Hlast & Hqd).
  destruct (sim_work _ _ Hs _ _ _ Et El) as (Hwf & Hd).
  pose proof (wf_wnodup _ _ Hw _ _ El) as Hn.
  assert (Hu : unlisted a r).
  { intros j k [Ek|Ek] Hk; [by destruct (wf_queue _ _ Hw _ _ _ Ek Hk)|].
    by destruct (wf_work _ _ Hw _ _ _ Ek Hk). }
  assert (Hr : r ∉ l) by (apply (Hu i); by right).
  unfold np_srv_add_workreq, load_tpool. rewrite Et. cbn [res_bind]. rewrite Hwf.
  rewrite upd_opt_run by (intros y Hy; eapply dll_lookup; [exact Hd|by apply head_elem]).
  cbn [res_bind]. set (m1 := upd_o _ _ _).
  assert (E1 : is_Some (m1 !! r)) by (apply lookup_upd_o; by rewrite Eq).
  destruct E1 as [q1 E1]. rewrite (upd_req_run r _ _ q1) by done. cbn [res_bind set_reqs reqs].
  rewrite (upd_req_run r _ _ (set_r_next (head l) q1)); cycle 1.
  { cbn. by rewrite lookup_alter_eq, E1. }
  eexists. split; [done|]. cbn [put_tpool set_tpools set_reqs reqs].
  set (m' := alter _ r (alter _ r m1)).
  rewrite (alter_insert _ _ _ _ El), <- (set_pool_work _ ql) by done.
  assert (Hfr : forall z, z ∉ l -> z <> r -> links m' z = links (reqs st) z).
  { intros z Hz Hzr. unfold m', m1. rewrite links_prev, links_next, !decide_False by done.
    rewrite links_upd_prev, decide_False; [done|]. by intros ?%head_elem. }
  apply (sim_relink st a i {| reqs_first := reqs_first t; reqs_last := reqs_last t; workreqs := Some r |} m');
    try done.
  - unfold m', m1.
    by rewrite !core_one, core_upd by done.
  - intros j l' z Hj Hl' Hz. apply Hfr.
    + eapply works_apart; [done|exact El| |done]. destruct Hl'; [by right|by left].
    + intros ->. by apply (Hu j l').
  - intros z c' q' Hz. apply (sim_new_frame st a _ z c'); [done|done|]. apply Hfr.
    + apply (reader_unlisted _ _ _ _ Hw Hz i). by right.
    + intros ->. by apply (Hp c').
  - eapply dll_frame; [|exact Hqd]. intros z Hz. apply Hfr.
    + eapply works_apart; [done|exact El|by right|done].
    + intros ->. by apply (Hu i ql); [left|].
  - by apply dll_cons.
Qed.

(** [np_srv_remove_workreq] takes a request out of the work list. *)
Lemma sim_remove_workreq st a i w r : sim st a -> wf a -> pl a r = Some (InWork i w) ->
  exists st', np_srv_remove_workreq i r st = Ret st' /\
    sim st' (set_works (alter (without r) i (works a)) a).
Proof.
  intros Hs Hw Hp. destruct (wf_inwork _ _ Hw _ _ _ Hp) as (l & El & Hr); [done|].
  destruct (sim_pools st a i Hs (wf_len _ _ Hw)) as (t & ql & wl & Et & Eql & Ew).
  { rewrite <- (wf_len _ _ Hw). by eapply lookup_lt_Some. }
  rewrite El in Ew. injection Ew as <-.
  destruct (sim_queue _ _ Hs _ _ _ Et Eql) as (Hf & Hlast & Hqd).
  destruct (sim_work _ _ Hs _ _ _ Et El) as (Hwf & Hd).
  pose proof (wf_wnodup _ _ Hw _ _ El) as Hn.
  apply list_elem_of_split in Hr as (l1 & l2 & ->).
  destruct (links_lookup _ _ _ (dll_at _ _ _ _ _ Hd)) as (q & Eq & Hqp & Hqn). cbn in Hqp, Hqn.
  assert (Hin : forall y, before None l1 = Some y \/ head l2 = Some y -> is_Some (reqs st !! y)).
  { intros y Hy. eapply dll_lookup; [exact Hd|].
    destruct Hy as [[|]%before_elem|?%head_elem]; [done|set_solver..]. }
  set (m' := unlink (before None l1) (head l2) (reqs st)).
  assert (Hfr : forall z, z ∉ l1 ++ r :: l2 -> links m' z = links (reqs st) z).
  { intros z Hz. eapply (unlink_links _ _ _ r l1 l2 None); [done..|set_solver]. }
  assert (Hrun : exists t', np_srv_remove_workreq i r st = Ret (put_tpool i t' (set_reqs m' st)) /\
    reqs_first t' = reqs_first t /\ reqs_last t' = reqs_last t /\ workreqs t' = head (l1 ++ l2)).
  { unfold np_srv_remove_workreq, load_tpool, load_req. rewrite Et, Eq. cbn [res_bind].
    rewrite Hqp, Hqn. destruct l1 as [|y l1].
    - cbn [before last res_bind]. eexists. rewrite upd_opt_run; [split; [done|done]|].
      intros y Hy. apply Hin. by right.
    - exists t. destruct (Hin (default r (before None (y :: l1)))) as [qy Ey].
      { left. rewrite before_cons. unfold before. by destruct (last l1). }
      assert (Eb : before None (y :: l1) = Some (default r (before None (y :: l1)))).
      { rewrite before_cons. unfold before. by destruct (last l1). }
      rewrite Eb at 1. rewrite (upd_req_run _ _ _ _ Ey). cbn [res_bind].
      rewrite upd_opt_run.
      + split; [|done]. f_equal. unfold put_tpool, set_tpools, set_reqs, m', unlink. cbn.
        rewrite list_insert_id by done. by rewrite Eb.
      + intros z Hz. cbn. apply (lookup_upd_o (Some _)). apply Hin. by right. }
  destruct Hrun as (t' & -> & T1 & T2 & T3). eexists. split; [done|].
  rewrite (alter_insert _ _ _ _ El), (without_app _ _ _ Hn), <- (set_pool_work _ ql) by done.
  apply sim_relink; try done.
  - apply core_unlink.
  - intros j l' z Hj Hl' Hz. apply Hfr. eapply works_apart; [done|exact El| |done].
    destruct Hl'; [by right|by left].
  - intros z c q' Hz. apply (sim_new_frame st a _ z c); [done|done|].
    apply Hfr, (reader_unlisted _ _ _ _ Hw Hz i). by right.
  - congruence.
  - congruence.
  - eapply dll_frame; [|exact Hqd]. intros z Hz. apply Hfr.
    eapply works_apart; [done|exact El|by right|done].
  - by apply (dll_unlink _ r).
Qed.

(** ** Reference counts *)

Lemma refs_delete m r x c : m !! r = Some x ->
  refs m c = (if decide (a_conn x = c) then S (refs (delete r m) c) else refs (delete r m) c).
Proof.
  intros E. unfold refs. rewrite map_filter_delete. case_decide.
  - rewrite map_size_delete_Some; [|exists x; by apply map_lookup_filter_Some_2].
    assert (size (filter (fun p : rid * areq => a_conn p.2 = c) m) <> 0%nat); [|lia].
    intros K%map_size_empty_inv.
    pose proof (map_lookup_filter_Some_2 (fun p : rid * areq => a_conn p.2 = c) m r x E H) as K'.
    by rewrite K in K'.
  - rewrite delete_id; [done|]. apply map_lookup_filter_None. right. intros y Ey Hy. cbn in Hy. congruence.
Qed.

Lemma refs_insert m r x c : m !! r = None ->
  refs (<[r := x]> m) c = (if decide (a_conn x = c) then S (refs m c) else refs m c).
Proof.
  intros E. rewrite (refs_delete (<[r := x]> m) r x) by (by rewrite lookup_insert_eq).
  by rewrite delete_insert_id.
Qed.

(** [np_req_unref] of the only reference frees the request. *)
Lemma sim_unref st a r x : sim st a -> areqs a !! r = Some x -> a_flush x = None -> unlisted a r ->
  is_Some (aconns a !! a_conn x) ->
  exists st', np_req_unref unref_depth r st = Ret st' /\ sim st' (a_free r a).
Proof.
  intros Hs Ex Hf Hu [pc Ec]. destruct (sim_lookup _ _ _ _ Hs Ex) as (q & Eq & Hq).
  destruct (core_eq _ _ Hq) as (Q1 & Q2 & _ & _ & Q5 & _ & _ & Q8 & _).
  pose proof (sim_conns _ _ Hs (a_conn x)) as Hc. rewrite Ec in Hc. cbn in Hc.
  pose proof (refs_delete _ _ _ (a_conn x) Ex) as Hrefs. rewrite decide_True in Hrefs by done.
  unfold unref_depth. cbn [np_req_unref]. unfold load_req at 1. rewrite Eq. cbn [res_bind].
  rewrite Q1. change (0 <? 1) with true. cbn [np_assert res_bind].
  rewrite (upd_req_run _ _ _ _ Eq). cbn [res_bind]. change (negb (1 - 1 =? 0)) with false. cbv iota.
  rewrite Q5, Hf, Q2, Q8. cbn [res_bind].
  set (st1 := match a_fid x with Some _ => _ | None => _ end).
  assert (E1 : qconns st1 = qconns st /\ tpools st1 = tpools st /\ workers st1 = workers st /\
    fresh_rid st1 = fresh_rid st /\ reqs st1 = alter (set_r_refcount (1 - 1)) r (reqs st) /\
    out st1 = match a_fid x with Some l => [Ev_fid_decref l] | None => [] end ++ out st).
  { unfold st1. by destruct (a_fid x). }
  destruct E1 as (F1 & F2 & F3 & F4 & F5 & F6).
  unfold np_conn_decref, load_conn. rewrite F1, Hc. cbn [res_bind c_refcount c_reader].
  rewrite Hrefs. rewrite (proj2 (Z.ltb_lt 0 _)) by lia. cbn [np_assert res_bind].
  eexists. split; [done|]. unfold a_free. rewrite Ex.
  assert (Hdel : delete r (alter (set_r_refcount (1 - 1)) r (reqs st)) = delete r (reqs st)).
  { apply map_eq. intros z. rewrite !lookup_delete, lookup_alter. by repeat case_decide. }
  assert (Hlk : forall z, z <> r -> links (delete r (reqs st)) z = links (reqs st) z).
  { intros z Hz. unfold links. by rewrite lookup_delete_ne. }
  split; cbn -[lookup fmap delete]; rewrite ?F1, ?F2, ?F3, ?F4, ?F5, ?F6, ?Hdel; try apply Hs.
  - rewrite !fmap_delete. f_equal. apply Hs.
  - intros i t l Et El. destruct (sim_queue _ _ Hs _ _ _ Et El) as (? & ? & Hd).
    split; [done|]. split; [done|]. eapply dll_frame; [|exact Hd]. intros z Hz. apply Hlk.
    intros ->. exact (Hu i l (or_introl El) Hz).
  - intros i t l Et El. destruct (sim_work _ _ Hs _ _ _ Et El) as (? & Hd).
    split; [done|]. eapply dll_frame; [|exact Hd]. intros z Hz. apply Hlk.
    intros ->. exact (Hu i l (or_intror El) Hz).
  - intros z c q'. unfold pl. cbn. rewrite !lookup_delete. case_decide; [done|]. apply (sim_new _ _ Hs).
  - intros c. rewrite lookup_insert. case_decide as Hcc.
    + subst. rewrite Ec. cbn. do 2 f_equal. lia.
    + rewrite (sim_conns _ _ Hs c), (refs_delete _ _ _ c Ex). by rewrite decide_False.
  - by rewrite (sim_out _ _ Hs).
Qed.

(** ** Messages and signals *)

Lemma sim_emit st a e : sim st a -> sim (emits e st) (a_emit [e] a).
Proof. intros Hs. split; cbn; try apply Hs. by rewrite (sim_out _ _ Hs). Qed.

Lemma sim_send st a e r x : sim st a -> areqs a !! r = Some x -> is_Some (aconns a !! a_conn x) ->
  exists st', np_req_send e r st = Ret st' /\ sim st' (a_send e r a).
Proof.
  intros Hs Ex [pc Ec]. destruct (sim_lookup _ _ _ _ Hs Ex) as (q & Eq & Hq).
  destruct (core_eq _ _ Hq) as (_ & Q2 & _ & Q4 & _).
  unfold np_req_send, a_send, load_req. rewrite Eq, Ex. cbn [res_bind]. rewrite Q4.
  destruct (a_state x); [|by eauto]. rewrite decide_True by done.
  unfold load_conn. rewrite Q2, (sim_conns _ _ Hs), Ec. cbn [fmap option_fmap option_map res_bind].
  eexists. split; [done|]. by apply sim_emit.
Qed.

Lemma sim_kill sig st a r x i w q : sim st a -> areqs a !! r = Some x -> a_place x = InWork i w ->
  r_wthread q = Some w -> exists st', kill_worker sig q st = Ret st' /\ sim st' (a_kill sig r a).
Proof.
  intros Hs Ex Hp Hq. unfold kill_worker, a_kill. destruct sig; [|by eauto].
  rewrite Hq, Ex, Hp. eexists. split; [done|]. by apply sim_emit.
Qed.

(** ** Searching a list *)

Lemma sim_matches a c tag r q x : areqs a !! r = Some x -> core q = acore x ->
  a_matches (areqs a) c tag r = bool_decide (r_conn q = c /\ r_tag q = tag).
Proof.
  intros Ex Hq. destruct (core_eq _ _ Hq) as (_ & Q2 & Q3 & _). unfold a_matches.
  by rewrite Ex, Q2, Q3.
Qed.

Lemma sim_find st a c tag l : sim st a -> forall fuel p, dll (reqs st) p l -> (length l <= fuel)%nat ->
  find_req fuel c tag (head l) st = Ret (a_find (areqs a) c tag l).
Proof.
  intros Hs. induction l as [|r l IH]; intros fuel p Hd Hl; [by destruct fuel|].
  destruct fuel as [|fuel]; [cbn in Hl; lia|]. destruct Hd as [Hr Hd].
  destruct (links_lookup _ _ _ Hr) as (q & Eq & _ & Hn). cbn in Hn.
  assert (Hx : exists x, areqs a !! r = Some x /\ core q = acore x).
  { pose proof (f_equal (fun m => m !! r) (sim_reqs _ _ Hs)) as K. cbn in K.
    rewrite !lookup_fmap, Eq in K. symmetry in K. apply fmap_Some in K as (x & ? & ?). eauto. }
  destruct Hx as (x & Ex & Hq). cbn [head find_req]. unfold load_req. rewrite Eq. cbn [res_bind].
  unfold a_find. rewrite filter_cons. pose proof (sim_matches a c tag r q x Ex Hq) as Hm.
  destruct (decide (r_conn q = c /\ r_tag q = tag)) as [Hy|Hy].
  - rewrite decide_True; [done|]. rewrite Hm. by apply bool_decide_pack.
  - rewrite decide_False; [|rewrite Hm; by intros ?%bool_decide_unpack].
    rewrite Hn. apply (IH fuel (Some r)); [done|cbn in Hl; lia].
Qed.

Lemma list_fuel st a l : sim st a -> NoDup l -> (forall r, r ∈ l -> is_Some (pl a r)) ->
  (length l <= size (reqs st))%nat.
Proof.
  intros Hs Hn Hl. rewrite <- (size_list_to_set (C := gset rid) l Hn), <- (size_dom (D := gset rid)).
  apply subseteq_size. intros r Hr%elem_of_list_to_set. apply elem_of_dom.
  destruct (Hl r Hr) as [p Hp]. unfold pl in Hp. apply fmap_Some in Hp as (x & Ex & _).
  destruct (sim_lookup _ _ _ _ Hs Ex) as (q & ? & _). eauto.
Qed.

(** ** Flush *)

Lemma pl_lookup a r p : pl a r = Some p -> exists x, areqs a !! r = Some x /\ a_place x = p.
Proof. unfold pl. intros (x & Ex & ->)%fmap_Some. eauto. Qed.

Lemma conn_exists y a r x : wfx y a -> areqs a !! r = Some x -> is_Some (aconns a !! a_conn x).
Proof. intros Hw Ex. apply (wf_conn _ _ Hw r). unfold cn. by rewrite Ex. Qed.

Lemma fl_lookup a r x : areqs a !! r = Some x -> fl a r = a_flush x.
Proof. intros Ex. unfold fl. by rewrite Ex. Qed.

Lemma limbo_unlisted a r : wfx (Some r) a -> unlisted a r.
Proof.
  intros Hw i l [El|El] Hr; [by destruct (wf_queue _ _ Hw _ _ _ El Hr)|].
  by destruct (wf_work _ _ Hw _ _ _ El Hr).
Qed.

(** A queued request is dropped. *)
Lemma sim_drop st a i r : sim st a -> wf a -> pl a r = Some (InQueue i) ->
  exists st1 st', np_srv_remove_req i r st = Ret st1 /\ np_req_unref unref_depth r st1 = Ret st' /\
    sim st' (a_drop i r a).
Proof.
  intros Hs Hw Hp. destruct (sim_remove_req _ _ _ _ Hs Hw Hp) as (st1 & E1 & Hs1).
  destruct (pl_lookup _ _ _ Hp) as (x & Ex & Hx).
  destruct (sim_unref st1 _ r x Hs1) as (st' & E2 & Hs2); [done| | | |by eauto 10].
  - rewrite <- (fl_lookup _ _ _ Ex). by apply (fl_none a r _ Hp).
  - by apply limbo_unlisted, detach_queue.
  - by apply (conn_exists _ _ _ _ Hw Ex).
Qed.

Lemma place_unlisted a r p : wf a -> pl a r = Some p -> flushless p = true ->
  (forall i, p <> InQueue i) -> unlisted a r.
Proof.
  intros Hw Hp Hf Hq i l [El|El] Hr.
  - destruct (wf_queue _ _ Hw _ _ _ El Hr) as [_ K]. rewrite Hp in K. injection K as ->. by destruct (Hq i).
  - destruct (wf_work _ _ Hw _ _ _ El Hr) as (_ & w & K). rewrite Hp in K. injection K as ->. done.
Qed.

(** A flush of a request that is worked on. *)
Lemma sim_attach sig st a c f r i w q : sim st a -> wf a -> pl a f = Some (AtReader c) ->
  pl a r = Some (InWork i w) -> reqs st !! r = Some q ->
  exists st1 st2 st',
    match r_flushreq q with Some f0 => np_req_unref unref_depth f0 st | None => Ret st end = Ret st1 /\
    upd_req r (set_r_flushreq (Some f)) st1 = Ret st2 /\ kill_worker sig q st2 = Ret st' /\
    sim st' (a_attach sig f r a).
Proof.
  intros Hs Hw Hpf Hp Eq. destruct (pl_lookup _ _ _ Hp) as (x & Ex & Hx).
  destruct (pl_lookup _ _ _ Hpf) as (y & Ey & Hy).
  destruct (sim_lookup _ _ _ _ Hs Ex) as (q' & Eq' & Hq). rewrite Eq in Eq'. injection Eq' as <-.
  destruct (core_eq _ _ Hq) as (_ & _ & _ & _ & Q5 & _ & _ & _ & Q9). rewrite Hx in Q9.
  assert (Hne : f <> r) by congruence. unfold a_attach. rewrite Ex, Q5.
  set (a1 := match a_flush x with Some f0 => a_free f0 a | None => a end).
  assert (H1 : exists st1, match a_flush x with
     | Some f0 => np_req_unref unref_depth f0 st | None => Ret st end = Ret st1 /\ sim st1 a1 /\
     areqs a1 !! r = Some x /\ areqs a1 !! f = Some y).
  { unfold a1. destruct (a_flush x) as [f0|] eqn:Ef; [|by eauto].
    destruct (wf_flush _ _ Hw r f0) as [_ Hf0]; [by rewrite (fl_lookup _ _ _ Ex)|].
    destruct (pl_lookup _ _ _ Hf0) as (z & Ez & Hz).
    destruct (sim_unref st a f0 z Hs Ez) as (st1 & E1 & Hs1).
    - rewrite <- (fl_lookup _ _ _ Ez). by apply (fl_none a f0 _ Hf0).
    - by apply (place_unlisted _ _ _ Hw Hf0).
    - by apply (conn_exists _ _ _ _ Hw Ez).
    - exists st1. split; [done|]. split; [done|]. rewrite areqs_free.
      rewrite !lookup_delete_ne by congruence. done. }
  destruct H1 as (st1 & E1 & Hs1 & Er & Efy). exists st1.
  destruct (sim_upd st1 a1 r (set_r_flushreq (Some f)) (set_a_flush (Some f)) x Hs1 Er)
    as (st2 & E2 & Hs2); [done|done| |done|].
  { intros q2 Hq2. change (set_r_flushreq (Some f) (core q2) = acore (set_a_flush (Some f) x)).
    by rewrite Hq2. }
  exists st2. assert (Hs3 : sim st2 (a_upd f (set_a_place (FlushOf r)) (a_upd r (set_a_flush (Some f)) a1))).
  { apply (sim_upd_abs _ _ _ _ y); [done| |done| |done].
    - cbn. by rewrite lookup_alter_ne by done.
    - unfold acore. cbn. by rewrite Hy. }
  destruct (sim_kill sig st2 _ r (set_a_flush (Some f) x) i w q Hs3) as (st' & E3 & Hs4);
    [| |done|by eauto 10].
  - cbn. rewrite lookup_alter_ne by done. by rewrite lookup_alter_eq, Er.
  - done.
Qed.

Lemma sim_flush_pools sig f c c' tag ps : forall st a, sim st a -> wf a ->
  pl a f = Some (AtReader c) -> Forall (fun i => (i < length (queues a))%nat) ps ->
  exists st' now a', flush_pools sig f c' tag ps st = Ret (now, st') /\
    a_flush_pools sig f c' tag ps a = (now, a') /\ sim st' a'.
Proof.
  induction ps as [|i ps IH]; intros st a Hs Hw Hp Hps;
    cbn [flush_pools a_flush_pools]; [by eauto 10|].
  apply Forall_cons in Hps as [Hi Hps].
  destruct (sim_pools st a i Hs (wf_len _ _ Hw) Hi) as (t & ql & wl & Et & Eq & Ew).
  destruct (sim_queue _ _ Hs _ _ _ Et Eq) as (Hf & _ & Hd).
  destruct (sim_work _ _ Hs _ _ _ Et Ew) as (Hwf & Hwd).
  unfold load_tpool. rewrite Et, Eq, Ew. cbn [res_bind default from_option id]. rewrite Hf, Hwf.
  rewrite (sim_find _ _ _ _ _ Hs _ _ Hd); cycle 1.
  { apply (list_fuel _ a _ Hs); [by eapply wf_nodup|]. intros r Hr.
    destruct (wf_queue _ _ Hw _ _ _ Eq Hr) as [_ ->]. done. }
  cbn [res_bind]. destruct (a_find _ _ _ ql) as [r|] eqn:E1.
  { apply a_find_Some in E1 as [Hr _]. destruct (wf_queue _ _ Hw _ _ _ Eq Hr) as [_ Hpr].
    destruct (sim_drop _ _ _ _ Hs Hw Hpr) as (st1 & st' & K1 & K2 & Hs').
    rewrite K1. cbn [res_bind]. rewrite K2. cbn [res_bind]. eauto 10. }
  rewrite (sim_find _ _ _ _ _ Hs _ _ Hwd); cycle 1.
  { apply (list_fuel _ a _ Hs); [by eapply wf_wnodup|]. intros r Hr.
    destruct (wf_work _ _ Hw _ _ _ Ew Hr) as (_ & w & ->). done. }
  cbn [res_bind]. destruct (a_find _ _ _ wl) as [r|] eqn:E2; [|by apply IH].
  apply a_find_Some in E2 as [Hr _]. destruct (wf_work _ _ Hw _ _ _ Ew Hr) as (_ & w & Hpr).
  destruct (pl_lookup _ _ _ Hpr) as (x & Ex & _). destruct (sim_lookup _ _ _ _ Hs Ex) as (q & Eqr & _).
  destruct (sim_attach sig _ _ _ _ _ _ _ _ Hs Hw Hp Hpr Eqr) as (st1 & st2 & st' & K1 & K2 & K3 & Hs').
  unfold load_req. rewrite Eqr. cbn [res_bind]. rewrite K1. cbn [res_bind]. rewrite K2.
  cbn [res_bind]. rewrite K3. cbn [res_bind]. eauto 10.
Qed.

(** ** The end of a connection *)

Lemma sim_of_conn a c r q x : areqs a !! r = Some x -> core q = acore x ->
  of_conn (areqs a) c r = bool_decide (r_conn q = c).
Proof.
  intros Ex Hq. destruct (core_eq _ _ Hq) as (_ & Q2 & _). unfold of_conn. by rewrite Ex, Q2.
Qed.

Lemma drop_queues i r a l : queues a !! i = Some l ->
  queues (a_drop i r a) !! i = Some (without r l).
Proof.
  intros E. unfold a_drop. rewrite free_queues. cbn. by rewrite list_lookup_alter_eq, E.
Qed.

Lemma sim_drop_reqs i c rest : forall kept fuel st a, sim st a -> wf a ->
  queues a !! i = Some (kept ++ rest) -> (length rest <= fuel)%nat ->
  exists st', drop_reqs fuel i c (head rest) st = Ret st' /\
    sim st' (foldl (a_drop_of i c) a rest).
Proof.
  induction rest as [|r rest IH]; intros kept fuel st a Hs Hw El Hl; [destruct fuel; by eauto|].
  destruct fuel as [|fuel]; [cbn in Hl; lia|]. cbn [length] in Hl.
  destruct (wf_queue _ _ Hw _ _ r El) as [_ Hp]; [set_solver|].
  destruct (sim_pools st a i Hs (wf_len _ _ Hw)) as (t & ql & wl & Et & Eq & Ew);
    [by eapply lookup_lt_Some|]. rewrite El in Eq. injection Eq as <-.
  destruct (sim_queue _ _ Hs _ _ _ Et El) as (_ & _ & Hd).
  destruct (links_lookup _ _ _ (dll_at _ _ _ _ _ Hd)) as (q & Eq & _ & Hqn). cbn in Hqn.
  destruct (pl_lookup _ _ _ Hp) as (x & Ex & _).
  destruct (sim_lookup _ _ _ _ Hs Ex) as (q' & Eq' & Hq). rewrite Eq in Eq'. injection Eq' as <-.
  cbn [head drop_reqs foldl]. unfold load_req. rewrite Eq. cbn [res_bind]. rewrite Hqn.
  unfold a_drop_of at 2. rewrite (sim_of_conn _ _ _ _ _ Ex Hq).
  destruct (decide (r_conn q = c)) as [Hc|Hc].
  - rewrite bool_decide_true by done.
    destruct (sim_drop _ _ _ _ Hs Hw Hp) as (st1 & st' & E1 & E2 & Hs').
    rewrite E1. cbn [res_bind]. rewrite E2. cbn [res_bind].
    apply (IH kept); [done|by apply wf_drop| |lia].
    rewrite (drop_queues _ _ _ _ El). f_equal. apply without_app. by eapply wf_nodup.
  - rewrite bool_decide_false by done. cbn [res_bind].
    apply (IH (kept ++ [r])); [done|done| |lia]. by rewrite <- app_assoc.
Qed.

Lemma pl_silence sig c a y r : pl (a_silence_of sig c a y) r = pl a r.
Proof.
  unfold a_silence_of. destruct (of_conn _ _ _); [|done].
  transitivity (pl (a_upd y (set_a_state REQ_NOREPLY) a) r); [|by apply pl_plain].
  unfold a_kill. destruct sig; [|done]. destruct (areqs _ !! y) as [x|]; [|done].
  by destruct (a_place x).
Qed.

Lemma sim_silence_reqs sig c i rest : forall p fuel st a, sim st a -> wf a ->
  dll (reqs st) p rest -> Forall (fun r => exists w, pl a r = Some (InWork i w)) rest ->
  (length rest <= fuel)%nat ->
  exists st', silence_reqs sig fuel c (head rest) st = Ret st' /\
    sim st' (foldl (a_silence_of sig c) a rest) /\ tpools st' = tpools st.
Proof.
  induction rest as [|r rest IH]; intros p fuel st a Hs Hw Hd Hr Hl; [destruct fuel; by eauto|].
  destruct fuel as [|fuel]; [cbn in Hl; lia|]. cbn [length] in Hl.
  apply Forall_cons in Hr as [[w Hp] Hr]. destruct Hd as [Hlr Hd].
  destruct (links_lookup _ _ _ Hlr) as (q & Eq & _ & Hqn). cbn in Hqn.
  destruct (pl_lookup _ _ _ Hp) as (x & Ex & Hx).
  destruct (sim_lookup _ _ _ _ Hs Ex) as (q' & Eq' & Hq). rewrite Eq in Eq'. injection Eq' as <-.
  destruct (core_eq _ _ Hq) as (_ & _ & _ & _ & _ & _ & _ & _ & Q9). rewrite Hx in Q9.
  cbn [head silence_reqs foldl]. unfold load_req at 1. rewrite Eq. cbn [res_bind]. rewrite Hqn.
  unfold a_silence_of at 2. rewrite (sim_of_conn _ _ _ _ _ Ex Hq).
  destruct (decide (r_conn q = c)) as [Hc|Hc].
  - rewrite bool_decide_true by done.
    rewrite (upd_req_run _ _ _ _ Eq). cbn [res_bind]. set (st1 := set_reqs _ st).
    destruct (sim_upd st a r (set_r_state REQ_NOREPLY) (set_a_state REQ_NOREPLY) x Hs Ex)
      as (st1' & E1 & Hs1); [done|done| |done|].
    { intros q2 Hq2. change (set_r_state REQ_NOREPLY (core q2) = acore (set_a_state REQ_NOREPLY x)).
      by rewrite Hq2. }
    rewrite (upd_req_run _ _ _ _ Eq) in E1. injection E1 as <-. fold st1 in Hs1.
    destruct (sim_kill sig st1 _ r (set_a_state REQ_NOREPLY x) i w q Hs1) as (st2 & E2 & Hs2);
      [cbn; by rewrite lookup_alter_eq, Ex|done|done|]. rewrite E2. cbn [res_bind].
    assert (R2 : reqs st2 = reqs st1 /\ tpools st2 = tpools st).
    { unfold kill_worker in E2. destruct sig; [|by injection E2 as <-].
      destruct (r_wthread q); [by injection E2 as <-|done]. }
    destruct R2 as [R2 T2]. rewrite <- T2. apply (IH (Some r)); [done| | | |lia].
    + by apply wf_kill, wf_plain.
    + rewrite R2. eapply dll_frame; [|exact Hd]. intros z _. by apply links_alter.
    + eapply Forall_impl; [exact Hr|]. intros z [w' Hz]. exists w'. rewrite <- Hz.
      pose proof (pl_silence sig c a r z) as K. unfold a_silence_of in K.
      rewrite (sim_of_conn _ _ _ _ _ Ex Hq), bool_decide_true in K by done. exact K.
  - rewrite bool_decide_false by done. cbn [res_bind]. by apply (IH (Some r)); [..|lia].
Qed.

Lemma drop_all_len i c l : forall a, length (queues (foldl (a_drop_of i c) a l)) = length (queues a).
Proof.
  induction l as [|r l IH]; intros a; cbn; [done|]. rewrite IH. unfold a_drop_of.
  destruct (of_conn _ _ _); [|done]. unfold a_drop. rewrite free_queues. cbn. apply length_alter.
Qed.

Lemma silence_all_queues sig c l : forall a, queues (foldl (a_silence_of sig c) a l) = queues a.
Proof.
  induction l as [|r l IH]; intros a; cbn; [done|]. rewrite IH. unfold a_silence_of.
  destruct (of_conn _ _ _); [|done]. unfold a_kill. destruct sig; [|done].
  destruct (areqs _ !! r) as [x|]; [|done]. by destruct (a_place x).
Qed.

Lemma sim_flush_conn_pools sig c ps : forall st a, sim st a -> wf a ->
  Forall (fun i => (i < length (queues a))%nat) ps ->
  exists st', flush_conn_pools sig c ps st = Ret st' /\
    sim st' (foldl (a_flush_conn_pool sig c) a ps).
Proof.
  induction ps as [|i ps IH]; intros st a Hs Hw Hps; cbn [flush_conn_pools foldl]; [by eauto|].
  apply Forall_cons in Hps as [Hi Hps].
  destruct (sim_pools st a i Hs (wf_len _ _ Hw) Hi) as (t & ql & wl & Et & Eq & Ew).
  destruct (sim_queue _ _ Hs _ _ _ Et Eq) as (Hf & _ & Hd).
  unfold load_tpool at 1. rewrite Et. cbn [res_bind]. rewrite Hf.
  destruct (sim_drop_reqs i c ql [] (size (reqs st)) st a Hs Hw Eq) as (st1 & E1 & Hs1).
  { apply (list_fuel _ a _ Hs); [by eapply wf_nodup|]. intros r Hr.
    destruct (wf_queue _ _ Hw _ _ _ Eq Hr) as [_ ->]. done. }
  rewrite E1. cbn [res_bind]. set (a1 := foldl (a_drop_of i c) a ql) in *.
  assert (Hw1 : wf a1).
  { apply wf_drop_all; [by eapply wf_nodup| |done]. apply Forall_forall. intros r Hr.
    by apply (wf_queue _ _ Hw _ _ _ Eq). }
  assert (Hi1 : (i < length (queues a1))%nat) by (unfold a1; by rewrite drop_all_len).
  destruct (sim_pools st1 a1 i Hs1 (wf_len _ _ Hw1) Hi1) as (t1 & ql1 & wl1 & Et1 & Eq1 & Ew1).
  destruct (sim_work _ _ Hs1 _ _ _ Et1 Ew1) as (Hwf & Hwd).
  unfold load_tpool. rewrite Et1. cbn [res_bind]. rewrite Hwf.
  destruct (sim_silence_reqs sig c i wl1 None (size (reqs st1)) st1 a1 Hs1 Hw1 Hwd)
    as (st2 & E2 & Hs2 & _).
  { apply Forall_forall. intros r Hr. by apply (wf_work _ _ Hw1 _ _ _ Ew1). }
  { apply (list_fuel _ a1 _ Hs1); [by eapply wf_wnodup|]. intros r Hr.
    destruct (wf_work _ _ Hw1 _ _ _ Ew1 Hr) as (_ & w & ->). done. }
  rewrite E2. cbn [res_bind].
  assert (Ea : a_flush_conn_pool sig c a i = foldl (a_silence_of sig c) a1 wl1).
  { unfold a_flush_conn_pool. rewrite Eq. cbn. fold a1. by rewrite Ew1. }
  rewrite Ea. apply IH; [done|by apply wf_silence_all|].
  rewrite silence_all_queues. unfold a1. by rewrite drop_all_len.
Qed.

(** ** Threads *)

Lemma sim_reader st a c pc pc' : sim st a -> aconns a !! c = Some pc ->
  exists st', set_reader c pc' st = Ret st' /\ sim st' (a_reader c pc' a).
Proof.
  intros Hs Ec. unfold set_reader, load_conn. rewrite (sim_conns _ _ Hs c), Ec. cbn.
  eexists. split; [done|]. split; cbn -[lookup]; try apply Hs.
  intros c'. rewrite !lookup_insert. case_decide; [by subst|apply Hs].
Qed.

Lemma sim_worker st a w i pc : sim st a -> sim (set_worker w i pc st) (a_worker w i pc a).
Proof. intros Hs. split; cbn; try apply Hs. by rewrite (sim_workers _ _ Hs). Qed.

Lemma sim_alloc st a c pc type tag oldtag fid : sim st a -> wf a -> aconns a !! c = Some pc ->
  exists st', np_req_alloc c type tag oldtag fid st = Ret (afresh a, st') /\
    sim st' {| areqs := <[afresh a := {| a_conn := c; a_tag := tag; a_state := REQ_NORMAL;
                   a_flush := None; a_type := type; a_oldtag := oldtag; a_fid := fid;
                   a_place := AtReader c |}]> (areqs a);
       queues := queues a; works := works a; aconns := aconns a; aworkers := aworkers a;
       afresh := Pos.succ (afresh a); aout := aout a |}.
Proof.
  intros Hs Hw Ec. assert (Hr : pl a (afresh a) = None).
  { destruct (pl a (afresh a)) eqn:E; [|done].
    pose proof (wf_fresh _ _ Hw (afresh a) ltac:(by rewrite E)). lia. }
  assert (Hx : areqs a !! afresh a = None) by (unfold pl in Hr; by destruct (areqs a !! _)).
  unfold np_req_alloc, np_conn_incref, load_conn. rewrite (sim_conns _ _ Hs c), Ec. cbn [fmap option_fmap option_map res_bind].
  rewrite (sim_fresh _ _ Hs). eexists. split; [done|].
  assert (Hfr : forall z, is_Some (pl a z) -> z <> afresh a) by (intros z [p Hz] ->; congruence).
  cbn [put_conn set_qconns reqs tpools qconns workers out].
  set (m' := <[afresh a := _]> (reqs st)).
  assert (Hlk : forall z, z <> afresh a -> links m' z = links (reqs st) z).
  { intros z Hz. unfold links, m'. by rewrite lookup_insert_ne. }
  split; cbn -[lookup fmap insert]; try apply Hs.
  - unfold m'. rewrite !fmap_insert. f_equal. apply Hs.
  - intros i t l Et El. destruct (sim_queue _ _ Hs _ _ _ Et El) as (? & ? & Hd).
    split; [done|]. split; [done|]. eapply dll_frame; [|exact Hd]. intros z Hz.
    apply Hlk, Hfr. destruct (wf_queue _ _ Hw _ _ _ El Hz) as [_ ->]. done.
  - intros i t l Et El. destruct (sim_work _ _ Hs _ _ _ Et El) as (? & Hd).
    split; [done|]. eapply dll_frame; [|exact Hd]. intros z Hz.
    apply Hlk, Hfr. destruct (wf_work _ _ Hw _ _ _ El Hz) as (_ & w & ->). done.
  - intros z c' q. unfold pl, m'. cbn -[lookup insert]. rewrite !lookup_insert.
    case_decide; [by intros _ [= <-]|]. apply (sim_new _ _ Hs).
  - intros c'. rewrite lookup_insert, refs_insert by done. cbn. case_decide; subst.
    + rewrite Ec. cbn. do 2 f_equal. lia.
    + by rewrite (sim_conns _ _ Hs).
  - done.
Qed.

(** The two machines agree on a step. *)
Definition agree (o : option qstate) (o' : option astate) : Prop :=
  match o, o' with
  | Some st, Some a => sim st a
  | None, None => True
  | _, _ => False
  end.

Lemma attach_conns sig f r a : aconns (a_attach sig f r a) = aconns a.
Proof.
  unfold a_attach. rewrite kill_conns. cbn. destruct (areqs a !! r) as [x|]; [|done].
  destruct (a_flush x); [apply free_conns|done].
Qed.

Lemma flush_pools_conns sig f c tag ps now b : forall a,
  a_flush_pools sig f c tag ps a = (now, b) -> aconns b = aconns a.
Proof.
  induction ps as [|i ps IH]; intros a; cbn; [by intros [= _ <-]|].
  destruct (a_find _ _ _ (default [] (queues a !! i))); [intros [= _ <-]; apply drop_conns|].
  destruct (a_find _ _ _ (default [] (works a !! i))); [intros [= _ <-]; apply attach_conns|].
  apply IH.
Qed.

Lemma sim_step_reader sig c l st a : sim st a -> wf a ->
  exists o, exec_reader sig c l st = Ret o /\ agree o (astep_reader sig c l a).
Proof.
  intros Hs Hw. unfold exec_reader, astep_reader. rewrite (sim_conns _ _ Hs c).
  destruct (aconns a !! c) as [pc|] eqn:Ec; cbn [fmap option_fmap option_map c_reader c_refcount].
  2: { destruct l; try (by eexists). eexists. split; [done|]. split; cbn -[lookup]; try apply Hs.
       intros c'. rewrite !lookup_insert. case_decide; [|apply Hs]. subst. cbn. do 2 f_equal.
       destruct (refs (areqs a) c') eqn:Er; [done|]. unfold refs in Er.
       destruct (map_choose (filter (fun p : rid * areq => a_conn p.2 = c') (areqs a))) as (r & x & K).
       { intros K. rewrite K in Er. done. }
       apply map_lookup_filter_Some in K as [Ex Hx]. cbn in Hx. subst.
       destruct (conn_exists _ _ _ _ Hw Ex) as [? ?]. congruence. }
  destruct l, pc as [|r|r|]; try (by eexists).
  - destruct (sim_alloc st a c Reading type tag oldtag fid Hs Hw Ec) as (st1 & E1 & Hs1).
    rewrite E1. cbn [res_bind].
    destruct (sim_reader st1 _ c Reading (Got (afresh a)) Hs1 Ec) as (st2 & E2 & Hs2).
    rewrite E2. cbn [res_bind]. by eexists.
  - destruct (wf_reader _ _ Hw _ _ _ Ec eq_refl) as (_ & Hp & _).
    destruct (pl_lookup _ _ _ Hp) as (x & Ex & Hx).
    destruct (sim_lookup _ _ _ _ Hs Ex) as (q & Eq & Hq).
    destruct (core_eq _ _ Hq) as (_ & Q2 & _ & _ & _ & Q6 & Q7 & _).
    unfold load_req. rewrite Ex, Eq. cbn [res_bind]. rewrite Q6.
    destruct (a_type x =? Tflush).
    + unfold np_flush, load_req. rewrite Eq. cbn [res_bind]. rewrite Q2, Q7, (sim_len _ _ Hs).
      destruct (sim_flush_pools sig r c (a_conn x) (a_oldtag x) (seq 0 (length (queues a))) st a Hs Hw Hp)
        as (st1 & now & a1 & E1 & E1' & Hs1).
      { apply Forall_forall. intros k Hk%elem_of_seq. lia. }
      rewrite E1, E1'. cbn [res_bind].
      destruct (sim_reader st1 a1 c (Got r) (if now then Flushed r else Reading) Hs1) as (st2 & E2 & Hs2).
      { by rewrite (flush_pools_conns _ _ _ _ _ _ _ _ E1'). }
      rewrite E2. cbn [res_bind]. by eexists.
    + rewrite (sim_len _ _ Hs). destruct (Nat.ltb_spec i (length (queues a))) as [Hi|Hi]; [|by eexists].
      destruct (sim_add_req st a i r c Hs Hw Hi Hp) as (st1 & E1 & Hs1).
      rewrite E1. cbn [res_bind].
      assert (Hs2 : sim st1 (a_upd r (set_a_place (InQueue i)) (set_queues (alter (fun l => l ++ [r]) i (queues a)) a))).
      { apply (sim_upd_abs _ _ _ _ x); [done|done|done| |done]. unfold acore. cbn. by rewrite Hx. }
      destruct (sim_reader st1 _ c (Got r) Reading Hs2 Ec) as (st2 & E2 & Hs3).
      rewrite E2. cbn [res_bind]. by eexists.
  - destruct (wf_reader _ _ Hw _ _ _ Ec eq_refl) as (_ & Hp & _).
    destruct (pl_lookup _ _ _ Hp) as (x & Ex & Hx). pose proof (conn_exists _ _ _ _ Hw Ex) as Hc.
    destruct (sim_send st a (Ev_rflush r) r x Hs Ex Hc) as (st1 & E1 & Hs1).
    rewrite E1. cbn [res_bind].
    assert (Hsame : areqs (a_send (Ev_rflush r) r a) = areqs a /\
      queues (a_send (Ev_rflush r) r a) = queues a /\ works (a_send (Ev_rflush r) r a) = works a /\
      aconns (a_send (Ev_rflush r) r a) = aconns a).
    { unfold a_send. rewrite Ex. by case_decide. }
    destruct Hsame as (F1 & F2 & F3 & F4).
    destruct (sim_unref st1 _ r x Hs1) as (st2 & E2 & Hs2).
    { by rewrite F1. } { rewrite <- (fl_lookup _ _ _ Ex). by apply (fl_none a r _ Hp). }
    { intros i l. rewrite F2, F3. by apply (reader_unlisted _ _ _ _ Hw Hp). }
    { by rewrite F4. }
    rewrite E2. cbn [res_bind].
    destruct (sim_reader st2 _ c (Flushed r) Reading Hs2) as (st3 & E3 & Hs3).
    { by rewrite free_conns, F4. }
    rewrite E3. cbn [res_bind]. by eexists.
  - unfold np_conn_flush. rewrite (sim_len _ _ Hs).
    destruct (sim_flush_conn_pools sig c (seq 0 (length (queues a))) st a Hs Hw) as (st1 & E1 & Hs1).
    { apply Forall_forall. intros k Hk%elem_of_seq. lia. }
    rewrite E1. cbn [res_bind].
    destruct (sim_reader st1 _ c Reading Closing Hs1) as (st2 & E2 & Hs2).
    { by rewrite <- Ec, <- (conn_flush_conns sig c a). }
    rewrite E2. cbn [res_bind]. by eexists.
  - destruct (decide (refs (areqs a) c = 0%nat)) as [->|Hne].
    + eexists. split; [done|]. split; cbn -[lookup delete]; try apply Hs.
      intros c'. rewrite !lookup_delete. case_decide; [done|apply Hs].
    + rewrite (proj2 (Z.eqb_neq _ 0)) by lia. by eexists.
Qed.

Lemma sim_process st a w i r b : sim st a -> wf a ->
  aworkers a !! w = Some {| w_tpool := i; w_pc := Busy r |} ->
  exists st', np_postprocess r b st = Ret st' /\ sim (set_worker w i (Done r) st') (a_process w i r b a).
Proof.
  intros Hs Hw Et. destruct (wf_worker _ _ Hw _ _ r _ Et eq_refl) as [_ Hp]. cbn in Hp.
  destruct (pl_lookup _ _ _ Hp) as (x & Ex & Hx). unfold np_postprocess, a_process.
  set (a1 := if b then _ else a).
  assert (H1 : exists st1 x1, (if b then upd_req r (set_r_state REQ_NOREPLY) st else Ret st) = Ret st1 /\
    sim st1 a1 /\ areqs a1 !! r = Some x1 /\ aconns a1 = aconns a /\ a_conn x1 = a_conn x).
  { unfold a1. destruct b; [|by eauto 10].
    destruct (sim_upd st a r (set_r_state REQ_NOREPLY) (set_a_state REQ_NOREPLY) x Hs Ex)
      as (st1 & E1 & Hs1); [done|done| |done|].
    - intros q2 Hq2. change (set_r_state REQ_NOREPLY (core q2) = acore (set_a_state REQ_NOREPLY x)).
      by rewrite Hq2.
    - exists st1, (set_a_state REQ_NOREPLY x). cbn. by rewrite lookup_alter_eq, Ex. }
  destruct H1 as (st1 & x1 & -> & Hs1 & Ex1 & Ec1 & Hc1). cbn [res_bind].
  destruct (sim_upd st1 a1 r (set_r_fid None) (set_a_fid None) x1 Hs1 Ex1) as (st2 & E2 & Hs2);
    [done|done| |done|].
  { intros q2 Hq2. change (set_r_fid None (core q2) = acore (set_a_fid None x1)). by rewrite Hq2. }
  rewrite E2. cbn [res_bind].
  destruct (sim_send st2 _ (Ev_reply r) r (set_a_fid None x1) Hs2) as (st3 & E3 & Hs3).
  { cbn. by rewrite lookup_alter_eq, Ex1. }
  { cbn. rewrite Ec1, Hc1. by apply (conn_exists _ _ _ _ Hw Ex). }
  rewrite E3. eexists. split; [done|]. by apply sim_worker.
Qed.

Lemma sim_flushreply st a w i r : sim st a -> wf a ->
  aworkers a !! w = Some {| w_tpool := i; w_pc := Off r |} ->
  exists st', np_postprocess_flush r st = Ret st' /\ sim st' (a_flushreply r a).
Proof.
  intros Hs Hw Et. destruct (wf_worker _ _ Hw _ _ r _ Et eq_refl) as [_ Hp].
  destruct (pl_lookup _ _ _ Hp) as (x & Ex & Hx). destruct (sim_lookup _ _ _ _ Hs Ex) as (q & Eq & Hq).
  destruct (core_eq _ _ Hq) as (_ & _ & _ & _ & Q5 & _).
  unfold np_postprocess_flush, a_flushreply, load_req. rewrite Eq, Ex. cbn [res_bind]. rewrite Q5.
  destruct (a_flush x) as [f|] eqn:Ef; [|by eauto].
  destruct (wf_flush _ _ Hw r f) as [_ Hpf]; [by rewrite (fl_lookup _ _ _ Ex)|].
  destruct (pl_lookup _ _ _ Hpf) as (y & Ey & Hy). pose proof (conn_exists _ _ _ _ Hw Ey) as Hc.
  destruct (sim_send st a (Ev_rflush f) f y Hs Ey Hc) as (st1 & E1 & Hs1).
  rewrite E1. cbn [res_bind]. set (b := a_send (Ev_rflush f) f a) in *.
  assert (Hsame : areqs b = areqs a /\ queues b = queues a /\ works b = works a /\ aconns b = aconns a).
  { unfold b, a_send. rewrite Ey. by case_decide. }
  destruct Hsame as (F1 & F2 & F3 & F4).
  destruct (sim_unref st1 b f y Hs1) as (st2 & E2 & Hs2).
  { by rewrite F1. } { rewrite <- (fl_lookup _ _ _ Ey). by apply (fl_none a f _ Hpf). }
  { intros j l. rewrite F2, F3. by apply (place_unlisted _ _ _ Hw Hpf). }
  { by rewrite F4. }
  rewrite E2. cbn [res_bind].
  apply (sim_upd _ _ _ _ _ x); [done| |done|done| |done].
  - rewrite areqs_free, F1. rewrite lookup_delete_ne; [done|]. intros ->. congruence.
  - intros q2 Hq2. change (set_r_flushreq None (core q2) = acore (set_a_flush None x)). by rewrite Hq2.
Qed.

Lemma sim_step_worker w l st a : sim st a -> wf a ->
  exists o, exec_worker w l st = Ret o /\ agree o (astep_worker w l a).
Proof.
  intros Hs Hw. unfold exec_worker, astep_worker. rewrite (sim_workers _ _ Hs).
  destruct (aworkers a !! w) as [[i pc]|] eqn:Et; [|by eexists]. cbn [w_tpool w_pc].
  destruct l, pc as [|r|r|r|r]; try (by eexists).
  - pose proof (wf_tpool _ _ Hw _ _ Et) as Hi. cbn in Hi.
    destruct (sim_pools st a i Hs (wf_len _ _ Hw) Hi) as (t & ql & wl & Etp & Eq & Ew).
    destruct (sim_queue _ _ Hs _ _ _ Etp Eq) as (Hf & _ & _).
    unfold load_tpool. rewrite Etp, Eq. cbn [res_bind]. rewrite Hf.
    destruct ql as [|r ql]; cbn [head]; [by eexists|].
    destruct (wf_queue _ _ Hw _ _ r Eq) as [_ Hp]; [set_solver|].
    destruct (pl_lookup _ _ _ Hp) as (x & Ex & Hx).
    destruct (sim_remove_req _ _ _ _ Hs Hw Hp) as (st1 & E1 & Hs1). rewrite E1. cbn [res_bind].
    assert (Eq1 : alter (without r) i (queues a) = <[i := ql]> (queues a)).
    { rewrite (alter_insert _ _ _ _ Eq). f_equal. apply without_head.
      by pose proof (wf_nodup _ _ Hw _ _ Eq) as [? _]%NoDup_cons. }
    rewrite Eq1 in Hs1. set (a1 := set_queues _ a) in *.
    assert (Hw1 : wfx (Some r) a1) by (unfold a1; rewrite <- Eq1; by apply detach_queue).
    destruct (sim_lookup st1 a1 r x Hs1 Ex) as (q1 & Eq1r & _).
    destruct (sim_add_workreq st1 a1 i r Hs1 Hw1) as (st2 & E2 & Hs2).
    { unfold a1. cbn. by rewrite length_insert. } { by rewrite Eq1r. }
    { intros c. unfold a1. rewrite pl_queues, Hp. done. }
    rewrite E2. cbn [res_bind].
    destruct (sim_upd st2 _ r (set_r_wthread (Some w)) (set_a_place (InWork i w)) x Hs2 Ex)
      as (st3 & E3 & Hs3); [done|done| |done|].
    { intros q2 Hq2. change (set_r_wthread (Some w) (core q2) = acore (set_a_place (InWork i w) x)).
      by rewrite Hq2. }
    rewrite E3. cbn [res_bind]. eexists. split; [done|]. by apply sim_worker.
  - destruct (sim_process st a w i r interrupted Hs Hw Et) as (st1 & E1 & Hs1).
    rewrite E1. cbn [res_bind]. by eexists.
  - destruct (wf_worker _ _ Hw _ _ r _ Et eq_refl) as [_ Hp]. cbn in Hp.
    destruct (pl_lookup _ _ _ Hp) as (x & Ex & Hx).
    destruct (sim_remove_workreq st a i w r Hs Hw Hp) as (st1 & E1 & Hs1).
    rewrite E1. cbn [res_bind]. eexists. split; [done|]. apply sim_worker.
    apply (sim_upd_abs _ _ _ _ x); [done|done|done| |done]. unfold acore. cbn. by rewrite Hx.
  - destruct (sim_flushreply st a w i r Hs Hw Et) as (st1 & E1 & Hs1).
    rewrite E1. cbn [res_bind]. eexists. split; [done|]. by apply sim_worker.
  - destruct (wf_worker _ _ Hw _ _ r _ Et eq_refl) as [_ Hp].
    destruct (pl_lookup _ _ _ Hp) as (x & Ex & Hx).
    destruct (sim_unref st a r x Hs Ex) as (st1 & E1 & Hs1).
    { rewrite <- (fl_lookup _ _ _ Ex). by eapply fl_last. }
    { intros j l [El|El] Hr.
      - destruct (wf_queue _ _ Hw _ _ _ El Hr) as [_ K]. rewrite Hp in K. done.
      - destruct (wf_work _ _ Hw _ _ _ El Hr) as (_ & w' & K). rewrite Hp in K. done. }
    { by apply (conn_exists _ _ _ _ Hw Ex). }
    rewrite E1. cbn [res_bind]. eexists. split; [done|]. by apply sim_worker.
Qed.

Lemma sim_step sig l st a : sim st a -> wf a ->
  exists o, exec sig l st = Ret o /\ agree o (astep sig l a).
Proof. destruct l; cbn; intros; by (apply sim_step_reader || apply sim_step_worker). Qed.

Lemma sim_start pools wpools : sim (np_srv_start pools wpools) (astart pools wpools).
Proof.
  split; cbn -[lookup]; try done.
  - by rewrite !length_replicate.
  - intros i t l [-> _]%lookup_replicate [-> _]%lookup_replicate. done.
  - intros i t l [-> _]%lookup_replicate [-> _]%lookup_replicate. done.
Qed.
