(* ===== verification/QueueProps.v ===== *)
(** * Properties of queues, flushes and threads (libnpfs/srv.c, conn.c, fcall.c)

    What holds for every interleaving of the read threads and the workers:
    memory safety and refinement, the order in which requests are started,
    the order of Rflush and the reply it cancels, and that the server finishes
    every request it received. *)
From S2P Require Import Prelude Protocol Queue QueueSpec QueueInv QueueSim.
From Stdlib Require Import Sorted.
From stdpp Require Import list gmap.
#[local] Open Scope Z_scope.

(** ** Runs *)

(** The labels of the steps so far, the oldest first. *)
Inductive run (sig : bool) (st0 : qstate) : list label -> qstate -> Prop :=
| run_start : run sig st0 [] st0
| run_step ls st l st' : run sig st0 ls st -> exec sig l st = Ret (Some st') ->
    run sig st0 (ls ++ [l]) st'.

Inductive arun (sig : bool) (a0 : astate) : list label -> astate -> Prop :=
| arun_start : arun sig a0 [] a0
| arun_step ls a l a' : arun sig a0 ls a -> astep sig l a = Some a' ->
    arun sig a0 (ls ++ [l]) a'.

(** Every worker belongs to a pool. *)
Definition pools_ok (pools : nat) (wpools : list nat) : Prop :=
  Forall (fun i => (i < pools)%nat) wpools.

Lemma run_arun sig pools wpools ls st : pools_ok pools wpools ->
  run sig (np_srv_start pools wpools) ls st ->
  exists a, arun sig (astart pools wpools) ls a /\ sim st a /\ wf a.
Proof.
  intros Hp. induction 1 as [|ls st l st' _ (a & Ha & Hs & Hw) E].
  - exists (astart pools wpools). split; [constructor|]. split; [apply sim_start|by apply wf_start].
  - destruct (sim_step sig l st a Hs Hw) as (o & E' & Ho). rewrite E in E'. injection E' as <-.
    cbn in Ho. destruct (astep sig l a) as [a'|] eqn:Ea; [|done].
    exists a'. split; [by econstructor|]. split; [done|by eapply wf_astep].
Qed.

(** C22: The threads.  In every state that the read threads and workers can
    reach, whatever the interleaving, every step runs to its end: no freed
    request or connection is used, no reference count assertion fails; and
    the messages sent are those of the abstract machine over plain lists,
    which can do a step exactly when the code can. *)
Theorem queues_refine sig pools wpools ls st : pools_ok pools wpools ->
  run sig (np_srv_start pools wpools) ls st ->
  exists a, arun sig (astart pools wpools) ls a /\ out st = aout a /\
    forall l, exists o, exec sig l st = Ret o /\ (is_Some o <-> is_Some (astep sig l a)).
Proof.
  intros Hp Hr. destruct (run_arun _ _ _ _ _ Hp Hr) as (a & Ha & Hs & Hw).
  exists a. split; [done|]. split; [apply Hs|]. intros l.
  destruct (sim_step sig l st a Hs Hw) as (o & E & Ho). exists o. split; [done|].
  destruct o, (astep sig l a); try done; split; by intros [? ?].
Qed.

Lemma arun_wf sig pools wpools ls a : pools_ok pools wpools ->
  arun sig (astart pools wpools) ls a -> wf a.
Proof. intros Hp. induction 1; [by apply wf_start|by eapply wf_astep]. Qed.

(** ** Steps that make no request wait *)

(** The request is not answered yet and no flush has cancelled it. *)
Definition waiting (a : astate) (r : rid) : Prop :=
  (exists i, pl a r = Some (InQueue i)) \/
  (exists w t, aworkers a !! w = Some t /\ w_pc t = Busy r) \/
  (exists c, aconns a !! c = Some (Got r)).

Lemma waiting_place a r : wf a -> waiting a r -> exists p, pl a r = Some p /\
  match p with InQueue _ | InWork _ _ | AtReader _ => True | _ => False end.
Proof.
  intros Hw [[i Hp]|[(w & t & Et & Hpc)|[c Ec]]].
  - exists (InQueue i). done.
  - exists (InWork (w_tpool t) w). split; [|done]. apply (wf_worker _ _ Hw w t); [done|]. by rewrite Hpc.
  - exists (AtReader c). split; [|done]. by apply (wf_reader _ _ Hw _ _ r Ec).
Qed.

(** What identifies a request to its client. *)
Definition key (x : areq) : cid * Z * Z * Z := (a_conn x, a_type x, a_tag x, a_oldtag x).
Definition ky (a : astate) (r : rid) : option (cid * Z * Z * Z) := key <$> areqs a !! r.

Definition quiet (e : event) : Prop :=
  match e with Ev_kill _ | Ev_fid_decref _ => True | _ => False end.

(** [b] comes from [a] by dropping requests, attaching flushes and suppressing
    replies. *)
Record shrinks (a b : astate) : Prop := {
  sh_pl r p : pl b r = Some p -> pl a r = Some p \/ exists y, p = FlushOf y;
  sh_ky r k : ky b r = Some k -> ky a r = Some k;
  sh_workers : aworkers b = aworkers a;
  sh_conns : aconns b = aconns a;
  sh_fresh : afresh b = afresh a;
  sh_queues i l : queues b !! i = Some l -> exists l', queues a !! i = Some l' /\ l `sublist_of` l';
  sh_len : length (queues b) = length (queues a);
  sh_works : works b = works a;
  sh_out : exists es, aout b = es ++ aout a /\ Forall quiet es;
}.

Lemma shrinks_refl a : shrinks a a.
Proof. split; eauto. by exists []. Qed.

Lemma shrinks_trans a b d : shrinks a b -> shrinks b d -> shrinks a d.
Proof.
  intros [A1 A2 A3 A4 A5 A6 A6' A7 (es & A8 & A9)] [B1 B2 B3 B4 B5 B6 B6' B7 (fs & B8 & B9)].
  split; try congruence; [| | |].
  - intros r p Hp. destruct (B1 _ _ Hp) as [Hp'|?]; [by apply A1|by right].
  - auto.
  - intros i l El. destruct (B6 _ _ El) as (l1 & E1 & S1). destruct (A6 _ _ E1) as (l2 & E2 & S2).
    exists l2. split; [done|]. by etrans.
  - exists (fs ++ es). rewrite B8, A8, app_assoc. split; [done|by apply Forall_app].
Qed.

Lemma shrinks_free r a : shrinks a (a_free r a).
Proof.
  split; rewrite ?free_workers, ?free_conns, ?free_fresh, ?free_works; try done.
  - intros r' p. rewrite pl_free. case_decide; [done|by left].
  - intros r' k. unfold ky. rewrite areqs_free. rewrite lookup_delete. by case_decide.
  - intros i l. rewrite free_queues. by eauto.
  - by rewrite free_queues.
  - unfold a_free. destruct (areqs a !! r) as [x|]; [|by exists []]. cbn. eexists. split; [done|].
    destruct (a_fid x); by repeat constructor.
Qed.

Lemma shrinks_drop i r a : shrinks a (a_drop i r a).
Proof.
  unfold a_drop. eapply shrinks_trans; [|apply shrinks_free]. split; try done.
  - by left.
  - cbn. intros j l. rewrite list_lookup_alter. case_decide; [|by eauto]. subst.
    intros (l' & E & ->)%fmap_Some. exists l'. split; [done|]. apply sublist_filter.
  - cbn. apply length_alter.
  - by exists [].
Qed.

Lemma shrinks_kill sig r a : shrinks a (a_kill sig r a).
Proof.
  unfold a_kill. destruct sig; [|apply shrinks_refl].
  destruct (areqs a !! r) as [x|]; [|apply shrinks_refl].
  destruct (a_place x); try apply shrinks_refl.
  split; try done; [by left|by eauto|]. eexists. split; [done|]. by repeat constructor.
Qed.

Lemma shrinks_upd r f a : (forall x, key (f x) = key x) ->
  (forall x, a_place (f x) = a_place x \/ exists y, a_place (f x) = FlushOf y) -> shrinks a (a_upd r f a).
Proof.
  intros Hk Hp. split; try done; [| |by eauto|by exists []].
  - intros r' p. unfold pl. cbn. rewrite lookup_alter. case_decide; [|by left]. subst.
    destruct (areqs a !! r') as [x|]; [|done]. cbn. intros [= <-].
    destruct (Hp x) as [->|[y ->]]; [by left|by eauto].
  - intros r' k. unfold ky. cbn. rewrite lookup_alter. case_decide; [|done]. subst.
    destruct (areqs a !! r') as [x|]; [|done]. cbn. by rewrite Hk.
Qed.

Lemma shrinks_attach sig f r a : shrinks a (a_attach sig f r a).
Proof.
  unfold a_attach. eapply shrinks_trans; [|apply shrinks_kill].
  eapply shrinks_trans; [|apply shrinks_upd; by eauto].
  eapply shrinks_trans; [|apply shrinks_upd; by eauto].
  destruct (areqs a !! r) as [x|]; [|apply shrinks_refl].
  destruct (a_flush x); [apply shrinks_free|apply shrinks_refl].
Qed.

Lemma shrinks_flush_pools sig f c tag ps now b : forall a,
  a_flush_pools sig f c tag ps a = (now, b) -> shrinks a b.
Proof.
  induction ps as [|i ps IH]; intros a; cbn; [intros [= _ <-]; apply shrinks_refl|].
  destruct (a_find _ _ _ (default [] (queues a !! i))); [intros [= _ <-]; apply shrinks_drop|].
  destruct (a_find _ _ _ (default [] (works a !! i))); [intros [= _ <-]; apply shrinks_attach|].
  apply IH.
Qed.

Lemma shrinks_foldl {A} (f : astate -> A -> astate) l : (forall a x, shrinks a (f a x)) ->
  forall a, shrinks a (foldl f a l).
Proof.
  intros Hf. induction l as [|x l IH]; intros a; cbn; [apply shrinks_refl|].
  eapply shrinks_trans; [apply Hf|apply IH].
Qed.

Lemma shrinks_conn_flush sig c a : shrinks a (a_conn_flush sig c a).
Proof.
  apply shrinks_foldl. intros a' i. unfold a_flush_conn_pool.
  eapply shrinks_trans; [apply (shrinks_foldl (a_drop_of i c))|apply (shrinks_foldl (a_silence_of sig c))];
    intros a'' r.
  - unfold a_drop_of. destruct (of_conn _ _ _); [apply shrinks_drop|apply shrinks_refl].
  - unfold a_silence_of. destruct (of_conn _ _ _); [|apply shrinks_refl].
    eapply shrinks_trans; [|apply shrinks_kill]. by apply shrinks_upd; [|left].
Qed.

(** ** What a step does to the requests *)

(** The cases of [astep]. *)
Ltac astep_cases E :=
  unfold astep, astep_reader, astep_worker in E; repeat case_match; simplify_eq;
  repeat match goal with t : Npwthread |- _ => destruct t; cbn in * |- end; simplify_eq.

Lemma ky_upd a r f r' : (forall x, key (f x) = key x) -> ky (a_upd r f a) r' = ky a r'.
Proof.
  intros Hf. unfold ky. cbn. rewrite lookup_alter. case_decide; [|done]. subst.
  destruct (areqs a !! r'); cbn; [|done]. by rewrite Hf.
Qed.

Lemma ky_free a r r' k : ky (a_free r a) r' = Some k -> ky a r' = Some k.
Proof. apply (sh_ky _ _ (shrinks_free r a)). Qed.

Lemma ky_send e a r r' : ky (a_send e r a) r' = ky a r'.
Proof. unfold a_send. destruct (areqs a !! r); [|done]. by case_decide. Qed.

Lemma ky_flushreply a r r' k : ky (a_flushreply r a) r' = Some k -> ky a r' = Some k.
Proof.
  unfold a_flushreply. destruct (areqs a !! r) as [x|]; [|done]. destruct (a_flush x) as [f|]; [|done].
  rewrite ky_upd by done. intros K%ky_free. by rewrite ky_send in K.
Qed.

(** The request that a label brings, with its key. *)
Definition recv_of (l : label) : option (cid * Z * Z * Z) :=
  match l with L_recv c type tag oldtag _ => Some (c, type, tag, oldtag) | _ => None end.

Lemma ky_step sig l a b r k : astep sig l a = Some b -> ky b r = Some k ->
  ky a r = Some k \/ r = afresh a /\ recv_of l = Some k.
Proof.
  intros E. destruct l; astep_cases E; intros K; try (by left); cbn [recv_of].
  - unfold ky in K. cbn in K. rewrite lookup_insert in K. case_decide; [|by left].
    subst. right. split; [done|]. exact K.
  - left. by eapply sh_ky; [eapply shrinks_flush_pools|].
  - left. by eapply sh_ky; [eapply shrinks_flush_pools|].
  - left. unfold ky in K |- *. cbn in K. rewrite lookup_alter in K.
    case_decide; [|done]. subst. by destruct (areqs a !! _).
  - left. apply ky_free in K. by rewrite ky_send in K.
  - left. by apply (sh_ky _ _ (shrinks_conn_flush sig c a)).
  - left. unfold ky in K |- *. cbn in K. rewrite lookup_alter in K.
    case_decide; [|done]. subst. by destruct (areqs a !! _).
  - left. unfold a_process in K. change (ky (a_send (Ev_reply r0) r0 (a_upd r0 (set_a_fid None)
      (if interrupted then a_upd r0 (set_a_state REQ_NOREPLY) a else a))) r = Some k) in K.
    rewrite ky_send, ky_upd in K by done. destruct interrupted; [|done]. by rewrite ky_upd in K.
  - left. unfold ky in K |- *. cbn in K. rewrite lookup_alter in K.
    case_decide; [|done]. subst. by destruct (areqs a !! _).
  - left. exact (ky_flushreply a _ r k K).
  - left. exact (ky_free a _ r k K).
Qed.

Lemma send_fresh e r a : afresh (a_send e r a) = afresh a.
Proof. unfold a_send. destruct (areqs a !! r); [|done]. by case_decide. Qed.

Lemma fresh_step sig l a b : astep sig l a = Some b ->
  afresh b = if decide (is_Some (recv_of l)) then Pos.succ (afresh a) else afresh a.
Proof.
  intros E. destruct l; astep_cases E; cbn [recv_of]; try (rewrite decide_False by (by intros [? ?])); try done.
  - cbn. by eapply sh_fresh, shrinks_flush_pools.
  - cbn. by eapply sh_fresh, shrinks_flush_pools.
  - cbn. by rewrite free_fresh, send_fresh.
  - cbn. by apply sh_fresh, shrinks_conn_flush.
  - unfold a_process. cbn. rewrite send_fresh. by destruct interrupted.
  - cbn. unfold a_flushreply. destruct (areqs a !! _) as [x|]; [|done]. destruct (a_flush x); [|done].
    cbn. by rewrite free_fresh, send_fresh.
  - cbn. by rewrite free_fresh.
Qed.

Lemma waiting_shrinks a b r : shrinks a b -> waiting b r -> waiting a r.
Proof.
  intros [Hp _ Hk Hc _ _ _ _ _] [[i K]|[K|K]].
  - left. destruct (Hp _ _ K) as [?|[y [=]]]. by eauto.
  - right; left. by rewrite <- Hk.
  - do 2 right. by rewrite <- Hc.
Qed.

Lemma waiting_reader c pc a r : waiting (a_reader c pc a) r -> pc <> Got r -> waiting a r.
Proof.
  intros [K|[K|[c' K]]] Hn; [by left|by right; left|]. do 2 right. cbn in K.
  rewrite lookup_insert in K. case_decide; [congruence|by eauto].
Qed.

Lemma waiting_worker w i pc a r : waiting (a_worker w i pc a) r -> pc <> Busy r -> waiting a r.
Proof.
  intros [K|[(w' & t & K & Ht)|K]] Hn; [by left| |by do 2 right]. right; left. cbn in K.
  apply list_lookup_insert_Some in K as [(-> & <- & _)|[_ K]]; [by cbn in Ht|by eauto].
Qed.

Lemma waiting_send e r' a r : waiting (a_send e r' a) r -> waiting a r.
Proof. unfold a_send. destruct (areqs a !! r'); [|done]. by case_decide. Qed.

Lemma waiting_upd r' f a r : (forall x, a_place (f x) = a_place x) ->
  waiting (a_upd r' f a) r -> waiting a r.
Proof.
  intros Hf [[i K]|[K|K]]; [|by right; left|by do 2 right]. left. exists i. unfold pl in *. cbn in K.
  rewrite lookup_alter in K. case_decide; [|done]. subst.
  destruct (areqs a !! r); cbn in *; [|done]. by rewrite Hf in K.
Qed.

Lemma waiting_free r' a r : waiting (a_free r' a) r -> waiting a r.
Proof. apply waiting_shrinks, shrinks_free. Qed.

Lemma waiting_flushreply r' a r : waiting (a_flushreply r' a) r -> waiting a r.
Proof.
  unfold a_flushreply. destruct (areqs a !! r') as [x|]; [|done].
  destruct (a_flush x); [|done]. intros K. apply waiting_upd in K; [|done].
  by apply waiting_free, waiting_send in K.
Qed.

(** Only a new request starts to wait. *)
Lemma waiting_step sig l a b r : astep sig l a = Some b -> wf a -> waiting b r ->
  r <> afresh a -> waiting a r.
Proof.
  intros E Hw K Hr. destruct l; astep_cases E; try done.
  - by apply waiting_reader in K.
  - unfold a_recv in K. apply waiting_reader in K; [|congruence].
    destruct K as [[i K]|[K|K]]; [|by right; left|by do 2 right].
    left. exists i. unfold pl in *. cbn in K. by rewrite lookup_insert_ne in K by done.
  - apply waiting_reader in K; [|done]. by eapply waiting_shrinks; [eapply shrinks_flush_pools|].
  - apply waiting_reader in K; [|done]. by eapply waiting_shrinks; [eapply shrinks_flush_pools|].
  - match goal with H : aconns a !! c = Some (Got ?y) |- _ => destruct (decide (r = y)) as [->|Hne] end;
      [do 2 right; by eauto|].
    apply waiting_reader in K; [|done]. destruct K as [[j K]|[K|K]]; [|by right; left|by do 2 right].
    left. exists j. unfold pl in *. cbn in K. by rewrite lookup_alter_ne in K by done.
  - apply waiting_reader in K; [|done]. by apply waiting_free, waiting_send in K.
  - apply waiting_reader in K; [|done]. by apply (waiting_shrinks a) in K; [|apply shrinks_conn_flush].
  - destruct K as [K|[K|[c' K]]]; [by left|by right; left|]. do 2 right. exists c'.
    cbn in K. by apply lookup_delete_Some in K as [_ K].
  - match goal with H : queues a !! _ = Some (?y :: _) |- _ => destruct (decide (r = y)) as [->|Hne];
      [left; eexists; eapply (wf_queue _ _ Hw _ _ _ H); set_solver|] end.
    unfold a_take in K. apply waiting_worker in K; [|congruence].
    destruct K as [[j K]|[K|K]]; [|by right; left|by do 2 right].
    left. exists j. unfold pl in *. cbn in K. by rewrite lookup_alter_ne in K by done.
  - unfold a_process in K. apply waiting_worker in K; [|done]. apply waiting_send in K.
    apply waiting_upd in K; [|done]. destruct interrupted; [by apply waiting_upd in K|done].
  - apply waiting_worker in K; [|done]. destruct K as [[j K]|[K|K]]; [|by right; left|by do 2 right].
    left. exists j. unfold pl in *. cbn in K. rewrite lookup_alter in K.
    case_decide; [|done]. subst. by destruct (areqs a !! r).
  - apply waiting_worker in K; [|done]. by apply waiting_flushreply in K.
  - apply waiting_worker in K; [|done]. by apply waiting_free in K.
Qed.

(** ** Order *)

(** Requests of a connection are queued and worked on in the order in which they
    were received; the work list has the latest first. *)
Record ordered (a : astate) : Prop := {
  o_queue i l : queues a !! i = Some l ->
    StronglySorted (fun r1 r2 => cn a r1 = cn a r2 -> (r1 < r2)%positive) l;
  o_work i l : works a !! i = Some l ->
    StronglySorted (fun r1 r2 => cn a r1 = cn a r2 -> (r2 < r1)%positive) l;
  o_cross i l w r1 r2 : queues a !! i = Some l -> works a !! i = Some w ->
    r1 ∈ w -> r2 ∈ l -> cn a r1 = cn a r2 -> (r1 < r2)%positive;
  o_got c r i l r' : aconns a !! c = Some (Got r) -> queues a !! i = Some l \/ works a !! i = Some l ->
    r' ∈ l -> cn a r' = Some c -> (r' < r)%positive;
}.

Lemma sorted_sublist (R : rid -> rid -> Prop) l l' : l `sublist_of` l' ->
  StronglySorted R l' -> StronglySorted R l.
Proof.
  induction 1 as [|x l l' Hl IH|x l l' Hl IH]; intros Hs; [done| |].
  - apply StronglySorted_inv in Hs as [Hs Hx]. constructor; [by apply IH|].
    rewrite Forall_forall in Hx |- *. intros y Hy. apply Hx. by eapply elem_of_sublist.
  - apply StronglySorted_inv in Hs as [Hs _]. by apply IH.
Qed.

Lemma sorted_ext (R S : rid -> rid -> Prop) l :
  (forall x y, x ∈ l -> y ∈ l -> R x y -> S x y) -> StronglySorted R l -> StronglySorted S l.
Proof.
  intros HR Hs. induction Hs as [|x l Hs IH Hx]; constructor.
  - apply IH. intros y z Hy Hz. apply HR; set_solver.
  - rewrite Forall_forall in Hx |- *. intros y Hy. apply HR; [set_solver..|by apply Hx].
Qed.

Lemma sorted_snoc (R : rid -> rid -> Prop) l r : StronglySorted R l -> (forall y, y ∈ l -> R y r) ->
  StronglySorted R (l ++ [r]).
Proof.
  induction 1 as [|x l Hs IH Hx]; intros Hr; cbn; [by repeat constructor|]. constructor.
  - apply IH. intros y Hy. apply Hr. set_solver.
  - apply Forall_app. split; [done|]. constructor; [|done]. apply Hr. set_solver.
Qed.

Definition lists_sub (ls ls' : list (list rid)) : Prop :=
  forall i l, ls' !! i = Some l -> exists l', ls !! i = Some l' /\ l `sublist_of` l'.

(** Lists that only lose requests stay in order. *)
Lemma ordered_sub a b : lists_sub (queues a) (queues b) -> lists_sub (works a) (works b) ->
  (forall i l r, queues b !! i = Some l \/ works b !! i = Some l -> r ∈ l -> cn b r = cn a r) ->
  (forall c r, aconns b !! c = Some (Got r) -> aconns a !! c = Some (Got r)) ->
  ordered a -> ordered b.
Proof.
  intros Hq Hw Hc Hg Ho.
  split.
  - intros i l El. destruct (Hq _ _ El) as (l' & El' & Hs).
    apply (sorted_ext (fun r1 r2 => cn a r1 = cn a r2 -> (r1 < r2)%positive)).
    + intros x y Hx Hy. by rewrite (Hc i l x), (Hc i l y) by auto.
    + eapply sorted_sublist; [exact Hs|]. by eapply o_queue.
  - intros i l El. destruct (Hw _ _ El) as (l' & El' & Hs).
    apply (sorted_ext (fun r1 r2 => cn a r1 = cn a r2 -> (r2 < r1)%positive)).
    + intros x y Hx Hy. by rewrite (Hc i l x), (Hc i l y) by auto.
    + eapply sorted_sublist; [exact Hs|]. by eapply o_work.
  - intros i l w r1 r2 El Ew H1 H2. rewrite (Hc i w r1), (Hc i l r2) by auto.
    destruct (Hq _ _ El) as (l' & El' & Hs). destruct (Hw _ _ Ew) as (w' & Ew' & Hs').
    apply (o_cross _ Ho _ _ _ _ _ El' Ew'); [by eapply elem_of_sublist|by eapply elem_of_sublist].
  - intros c r i l r' Ec [El|El] Hr Hcn; rewrite (Hc i l r') in Hcn by auto.
    + destruct (Hq _ _ El) as (l' & El' & Hs).
      apply (o_got _ Ho c r i l'); [by apply Hg|by left|by eapply elem_of_sublist|done].
    + destruct (Hw _ _ El) as (l' & El' & Hs).
      apply (o_got _ Ho c r i l'); [by apply Hg|by right|by eapply elem_of_sublist|done].
Qed.

Lemma cn_ky a r : cn a r = (fun k => k.1.1.1) <$> ky a r.
Proof. unfold cn, ky. by destruct (areqs a !! r). Qed.

Lemma listed_place a i l r : wf a -> queues a !! i = Some l \/ works a !! i = Some l -> r ∈ l ->
  is_Some (pl a r).
Proof.
  intros Hw [El|El] Hr; [by destruct (wf_queue _ _ Hw _ _ _ El Hr) as [_ ->]|].
  by destruct (wf_work _ _ Hw _ _ _ El Hr) as (_ & w & ->).
Qed.

Lemma place_ky a r : is_Some (pl a r) -> is_Some (ky a r).
Proof. unfold pl, ky. rewrite !fmap_is_Some. done. Qed.

(** A request that is in a list after the step and is not new is the same as
    before. *)
Lemma cn_step sig l a b r : astep sig l a = Some b -> is_Some (pl b r) ->
  r <> afresh a -> cn b r = cn a r.
Proof.
  intros E [k Hk]%place_ky Hr. rewrite !cn_ky, Hk.
  destruct (ky_step _ _ _ _ _ _ E Hk) as [->|[? _]]; done.
Qed.

Lemma lists_sub_refl ls : lists_sub ls ls.
Proof. intros i l El. eauto. Qed.

Lemma lists_sub_without ls i r : lists_sub ls (alter (without r) i ls).
Proof.
  intros j l. rewrite list_lookup_alter. case_decide; [|by eauto]. subst.
  intros (l' & E & ->)%fmap_Some. exists l'. split; [done|]. apply sublist_filter.
Qed.

Lemma send_queues e r a : queues (a_send e r a) = queues a /\ works (a_send e r a) = works a /\
  aworkers (a_send e r a) = aworkers a.
Proof. unfold a_send. destruct (areqs a !! r); [|done]. by case_decide. Qed.

Lemma flushreply_lists r a : queues (a_flushreply r a) = queues a /\ works (a_flushreply r a) = works a /\
  aconns (a_flushreply r a) = aconns a /\ aworkers (a_flushreply r a) = aworkers a.
Proof.
  unfold a_flushreply. destruct (areqs a !! r) as [x|]; [|done]. destruct (a_flush x) as [f|]; [|done].
  cbn. rewrite free_queues, free_works, free_conns, free_workers, send_conns.
  destruct (send_queues (Ev_rflush f) f a) as (-> & -> & ->). done.
Qed.

(** The labels after which the lists have lost requests at most. *)
Lemma lists_step sig l a b : astep sig l a = Some b ->
  match l with L_recv _ _ _ _ _ | L_take _ => False | L_dispatch c _ =>
    forall r x, aconns a !! c = Some (Got r) -> areqs a !! r = Some x -> a_type x = Tflush | _ => True end ->
  lists_sub (queues a) (queues b) /\ lists_sub (works a) (works b) /\
  (forall c r, aconns b !! c = Some (Got r) -> aconns a !! c = Some (Got r)).
Proof.
  intros E Hl. assert (Hins : forall (c : cid) (pc : reader) (m : gmap cid reader) (c' : cid) (r : rid), pc <> Got r ->
    <[c := pc]> m !! c' = Some (Got r) -> m !! c' = Some (Got r)).
  { intros c pc m c' r Hpc. rewrite lookup_insert. case_decide; [congruence|done]. }
  destruct l; astep_cases E; try done; cbn.
  - split; [apply lists_sub_refl|]. split; [apply lists_sub_refl|]. intros c' r. by apply Hins.
  - match goal with K : a_flush_pools _ _ _ _ _ _ = _ |- _ => pose proof (shrinks_flush_pools _ _ _ _ _ _ _ _ K) as [] end.
    split; [done|]. rewrite sh_works0. split; [apply lists_sub_refl|].
    intros c' r K. apply Hins in K; [|done]. congruence.
  - match goal with K : a_flush_pools _ _ _ _ _ _ = _ |- _ => pose proof (shrinks_flush_pools _ _ _ _ _ _ _ _ K) as [] end.
    split; [done|]. rewrite sh_works0. split; [apply lists_sub_refl|].
    intros c' r K. apply Hins in K; [|done]. congruence.
  - exfalso. match goal with K : (_ =? Tflush) = false |- _ => apply Z.eqb_neq in K; apply K end. by eapply Hl.
  - rewrite free_queues, free_works, free_conns, send_conns.
    match goal with |- context [a_send ?e ?r a] => destruct (send_queues e r a) as (-> & -> & _) end.
    split; [apply lists_sub_refl|]. split; [apply lists_sub_refl|]. intros c' r'. by apply Hins.
  - destruct (shrinks_conn_flush sig c a). split; [done|]. rewrite sh_works0.
    split; [apply lists_sub_refl|]. intros c' r K. apply Hins in K; [|done]. congruence.
  - split; [apply lists_sub_refl|]. split; [apply lists_sub_refl|].
    intros c' r K. by apply lookup_delete_Some in K as [_ K].
  - match goal with |- context [a_send ?e ?r ?b] =>
      destruct (send_queues e r b) as (-> & -> & _); rewrite (send_conns e r b) end.
    destruct interrupted; (split; [apply lists_sub_refl|]); (split; [apply lists_sub_refl|done]).
  - split; [apply lists_sub_refl|]. split; [apply lists_sub_without|done].
  - match goal with |- context [a_flushreply ?r a] => destruct (flushreply_lists r a) as (-> & -> & -> & _) end.
    split; [apply lists_sub_refl|]. split; [apply lists_sub_refl|done].
  - rewrite free_queues, free_works, free_conns.
    split; [apply lists_sub_refl|]. split; [apply lists_sub_refl|done].
Qed.

Lemma lists_before a i l r : wf a -> queues a !! i = Some l \/ works a !! i = Some l -> r ∈ l ->
  (r < afresh a)%positive.
Proof. intros Hw El Hr. by eapply (wf_fresh _ _ Hw), listed_place. Qed.

Lemma ordered_recv sig a c type tag oldtag fid : wf a ->
  astep sig (L_recv c type tag oldtag fid) a = Some (a_recv c type tag oldtag fid a) ->
  ordered a -> ordered (a_recv c type tag oldtag fid a).
Proof.
  intros Hw E Ho. pose proof (wf_astep _ _ _ _ E Hw) as Hb.
  set (b := a_recv c type tag oldtag fid a) in *.
  assert (Hc : forall i l r, queues b !! i = Some l \/ works b !! i = Some l -> r ∈ l -> cn b r = cn a r).
  { intros i l r El Hr. pose proof (lists_before a i l r Hw El Hr). apply (cn_step _ _ _ _ _ E); [|lia].
    by eapply listed_place. }
  split.
  - intros i l El. eapply sorted_ext; [|by eapply (o_queue _ Ho i)].
    intros x y Hx Hy. cbn. by rewrite (Hc i l x), (Hc i l y) by auto.
  - intros i l El. eapply sorted_ext; [|by eapply (o_work _ Ho i)].
    intros x y Hx Hy. cbn. by rewrite (Hc i l x), (Hc i l y) by auto.
  - intros i l w r1 r2 El Ew H1 H2. rewrite (Hc i w r1), (Hc i l r2) by auto. by eapply (o_cross _ Ho).
  - intros c' r i l r' Ec El Hr Hcn. rewrite (Hc i l r' El Hr) in Hcn. unfold b in Ec. cbn in Ec.
    rewrite lookup_insert in Ec. case_decide; [simplify_eq; by eapply lists_before|].
    by apply (o_got _ Ho c' r i l).
Qed.

Lemma elem_snoc (l : list rid) r y : y ∈ l ++ [r] -> y ∈ l \/ y = r.
Proof. intros [?|?%list_elem_of_singleton]%elem_of_app; auto. Qed.

Lemma alter_snoc (ls : list (list rid)) i j r l : alter (fun l => l ++ [r]) i ls !! j = Some l ->
  ls !! j = Some l \/ i = j /\ exists l0, ls !! j = Some l0 /\ l = l0 ++ [r].
Proof.
  rewrite list_lookup_alter. case_decide; [|by left]. intros (l0 & E & ->)%fmap_Some. right. subst. by eauto.
Qed.

Lemma ordered_enqueue a c r i : aconns a !! c = Some (Got r) -> wf a -> ordered a ->
  ordered (a_reader c Reading (a_upd r (set_a_place (InQueue i))
    (set_queues (alter (fun l => l ++ [r]) i (queues a)) a))).
Proof.
  intros Ec Hw Ho. destruct (wf_reader _ _ Hw _ _ _ Ec eq_refl) as (_ & _ & Hcn).
  set (b := a_reader _ _ _).
  assert (Hc : forall y, cn b y = cn a y) by (intros y; unfold b; by rewrite cn_reader, cn_place).
  split.
  - intros j l El. apply (sorted_ext (fun r1 r2 => cn a r1 = cn a r2 -> (r1 < r2)%positive));
      [intros x y _ _; by rewrite !Hc|].
    apply alter_snoc in El as [El|(-> & l0 & El & ->)]; [by apply (o_queue _ Ho j)|].
    apply sorted_snoc; [by apply (o_queue _ Ho j)|]. intros y Hy Hcy.
    apply (o_got _ Ho c r j l0 y Ec); [by left|done|congruence].
  - intros j l El. eapply sorted_ext; [|by apply (o_work _ Ho j)]. intros x y _ _. by rewrite !Hc.
  - intros j l w r1 r2 El Ew H1 H2. rewrite !Hc. intros Hcc.
    apply alter_snoc in El as [El|(-> & l0 & El & ->)]; [by eapply (o_cross _ Ho)|].
    apply elem_snoc in H2 as [H2| ->]; [by eapply (o_cross _ Ho)|].
    apply (o_got _ Ho c r j w r1 Ec); [by right|done|congruence].
  - intros c' r0 j l r' Ec' El Hr'. rewrite Hc. intros Hcn'. unfold b in Ec'. cbn in Ec'.
    rewrite lookup_insert in Ec'. case_decide; [done|].
    destruct El as [El|El]; [|by apply (o_got _ Ho c' r0 j l); [|right|..]].
    apply alter_snoc in El as [El|(-> & l0 & El & ->)]; [by apply (o_got _ Ho c' r0 j l); [|left|..]|].
    apply elem_snoc in Hr' as [Hr'| ->]; [by apply (o_got _ Ho c' r0 j l0); [|left|..]|congruence].
Qed.

Lemma ordered_take a w i r l : queues a !! i = Some (r :: l) -> ordered a -> ordered (a_take w i r l a).
Proof.
  intros Eq Ho. set (b := a_take w i r l a).
  assert (Hc : forall y, cn b y = cn a y) by (intros y; unfold b, a_take; by rewrite cn_worker, cn_place).
  assert (Hq : forall j m, queues b !! j = Some m -> exists m', queues a !! j = Some m' /\
    m `sublist_of` m' /\ (i = j -> m = l)).
  { intros j m. cbn. intros [(<- & <- & _)|[Hne Em]]%list_lookup_insert_Some; [|by exists m].
    exists (r :: l). split; [done|]. split; [by apply sublist_cons|done]. }
  assert (Hwk : forall j m, works b !! j = Some m -> works a !! j = Some m \/
    i = j /\ exists m', works a !! j = Some m' /\ m = r :: m').
  { intros j m. cbn. rewrite list_lookup_alter. case_decide; [|by left].
    intros (m' & Em & ->)%fmap_Some. subst j; right; by eauto. }
  pose proof (StronglySorted_inv (o_queue _ Ho _ _ Eq)) as [_ Hr]. rewrite Forall_forall in Hr.
  split.
  - intros j m (m' & Em & Hm & _)%Hq. eapply (sorted_ext (fun r1 r2 => cn a r1 = cn a r2 -> (r1 < r2)%positive));
      [intros x y _ _; by rewrite !Hc|]. eapply sorted_sublist; [exact Hm|by apply (o_queue _ Ho j)].
  - intros j m Em. eapply (sorted_ext (fun r1 r2 => cn a r1 = cn a r2 -> (r2 < r1)%positive));
      [intros x y _ _; by rewrite !Hc|].
    apply Hwk in Em as [Em|(-> & m' & Em & ->)]; [by apply (o_work _ Ho j)|].
    constructor; [by apply (o_work _ Ho j)|]. apply Forall_forall. intros y Hy Hcc.
    apply (o_cross _ Ho _ _ _ _ _ Eq Em Hy); [set_solver|done].
  - intros j m wl r1 r2 (m' & Em & Hm & Hij)%Hq Ew H1 H2. rewrite !Hc. intros Hcc.
    apply Hwk in Ew as [Ew|(-> & wl' & Ew & ->)];
      [by apply (o_cross _ Ho _ _ _ _ _ Em Ew H1); [eapply elem_of_sublist|]|].
    apply elem_of_cons in H1 as [->|H1]; [|by apply (o_cross _ Ho _ _ _ _ _ Em Ew H1); [eapply elem_of_sublist|]].
    apply Hr; [|done]. rewrite (Hij eq_refl) in H2. done.
  - intros c r0 j m r' Ec Em Hr'. rewrite Hc. intros Hcn. destruct Em as [Em|Em].
    + apply Hq in Em as (m' & Em & Hm & _).
      apply (o_got _ Ho c r0 j m'); [done|by left|by eapply elem_of_sublist|done].
    + apply Hwk in Em as [Em|(-> & m' & Em & ->)]; [by apply (o_got _ Ho c r0 j m); [|right|..]|].
      apply elem_of_cons in Hr' as [->|Hr']; [|by apply (o_got _ Ho c r0 j m'); [|right|..]].
      apply (o_got _ Ho c r0 j (r :: l)); [done|by left|set_solver|done].
Qed.

Lemma ordered_step sig l a b : astep sig l a = Some b -> wf a -> ordered a -> ordered b.
Proof.
  intros E Hw Ho.
  assert (Hsub : match l with L_recv _ _ _ _ _ | L_take _ => False | L_dispatch c _ =>
    forall r x, aconns a !! c = Some (Got r) -> areqs a !! r = Some x -> a_type x = Tflush | _ => True end ->
    ordered b).
  { intros Hl. destruct (lists_step _ _ _ _ E Hl) as (Hq & Hwk & Hg).
    apply (ordered_sub a b Hq Hwk); [|done|done]. intros i m r Em Hr.
    assert (Ha : exists m', (queues a !! i = Some m' \/ works a !! i = Some m') /\ r ∈ m').
    { destruct Em as [Em|Em]; [destruct (Hq _ _ Em) as (m' & Em' & Hm)|destruct (Hwk _ _ Em) as (m' & Em' & Hm)];
        exists m'; (split; [auto|by eapply elem_of_sublist]). }
    destruct Ha as (m' & Em' & Hr'). pose proof (lists_before a i m' r Hw Em' Hr').
    apply (cn_step _ _ _ _ _ E); [|lia]. eapply listed_place; [by eapply wf_astep|done..]. }
  destruct l; try (by apply Hsub).
  - pose proof E as E'. astep_cases E. by eapply ordered_recv.
  - pose proof E as E'. astep_cases E; try (by apply Hsub; intros; simplify_eq; apply Z.eqb_eq).
    by apply ordered_enqueue.
  - astep_cases E. by apply ordered_take.
Qed.

Lemma ordered_start pools wpools : ordered (astart pools wpools).
Proof.
  split; cbn.
  - intros i l [-> _]%lookup_replicate. constructor.
  - intros i l [-> _]%lookup_replicate. constructor.
  - intros i l w r1 r2 _ [-> _]%lookup_replicate H. by apply elem_of_nil in H.
  - intros c r i l r' H. by rewrite lookup_empty in H.
Qed.

Lemma arun_ordered sig pools wpools ls a : pools_ok pools wpools ->
  arun sig (astart pools wpools) ls a -> ordered a.
Proof.
  intros Hp. induction 1; [apply ordered_start|]. eapply ordered_step; [done|by eapply arun_wf|done].
Qed.

(** The requests that wait in a pool, the next one first. *)
Fixpoint chain (fuel : nat) (st : qstate) (o : option rid) : list rid :=
  match fuel, o with
  | S fuel, Some r => r :: match reqs st !! r with Some q => chain fuel st (r_next q) | None => [] end
  | _, _ => []
  end.

Definition queue_of (st : qstate) (i : nat) : list rid :=
  match tpools st !! i with Some t => chain (size (reqs st)) st (reqs_first t) | None => [] end.

Lemma chain_dll st l : forall fuel p, dll (reqs st) p l -> (length l <= fuel)%nat -> chain fuel st (head l) = l.
Proof.
  induction l as [|r l IH]; intros fuel p Hd Hl; [by destruct fuel|].
  destruct fuel as [|fuel]; [cbn in Hl; lia|]. destruct Hd as [Hr Hd].
  destruct (links_lookup _ _ _ Hr) as (q & Eq & _ & Hn). cbn [head chain]. rewrite Eq, Hn.
  f_equal. apply (IH fuel (Some r)); [done|cbn in Hl; lia].
Qed.

Lemma queue_of_sim st a i : sim st a -> wf a -> queue_of st i = default [] (queues a !! i).
Proof.
  intros Hs Hw. unfold queue_of. destruct (tpools st !! i) as [t|] eqn:Et.
  - destruct (lookup_lt_is_Some_2 (queues a) i) as [l El];
      [rewrite <- (sim_len _ _ Hs); by eapply lookup_lt_Some|].
    destruct (sim_queue _ _ Hs i t l Et El) as (-> & _ & Hd). rewrite El. eapply chain_dll; [done|].
    eapply list_fuel; [done|by eapply wf_nodup|]. intros r Hr. eapply listed_place; [done|by left|done].
  - apply lookup_ge_None_1 in Et. rewrite (sim_len _ _ Hs) in Et. by rewrite lookup_ge_None_2.
Qed.

(** First come, first served.  A worker that looks for work takes the head
    of the queue of its pool, the rest stays as it was, and every request of
    the same connection that is left in the queue was received later. *)
Theorem requests_in_order sig pools wpools ls st st' w : pools_ok pools wpools ->
  run sig (np_srv_start pools wpools) ls st -> exec sig (L_take w) st = Ret (Some st') ->
  exists i r, workers st' !! w = Some {| w_tpool := i; w_pc := Busy r |} /\
    queue_of st i = r :: queue_of st' i /\
    forall (r' : rid) q q', r' ∈ queue_of st' i -> reqs st !! r = Some q -> reqs st !! r' = Some q' ->
      r_conn q' = r_conn q -> (r < r')%positive.
Proof.
  intros Hp Hr E. destruct (run_arun _ _ _ _ _ Hp Hr) as (a & Ha & Hs & Hw).
  pose proof (arun_ordered _ _ _ _ _ Hp Ha) as Ho.
  destruct (sim_step sig (L_take w) st a Hs Hw) as (o & E' & Hag). rewrite E in E'. injection E' as <-.
  cbn [agree] in Hag. destruct (astep sig (L_take w) a) as [b|] eqn:Ea; [|done].
  pose proof (wf_astep _ _ _ _ Ea Hw) as Hwb. cbn in Hag.
  astep_cases Ea.
  match goal with K : queues a !! ?j = Some (?y :: _) |- _ => exists j, y; rename K into Kq end.
  rewrite (queue_of_sim st a), (queue_of_sim st' _ _ Hag Hwb), Kq by done.
  rewrite (sim_workers _ _ Hag). cbn [queues a_take a_worker a_upd set_areqs set_works set_queues].
  rewrite list_lookup_insert_eq by (by eapply lookup_lt_Some). cbn.
  split; [by rewrite list_lookup_insert_eq by (by eapply lookup_lt_Some)|]. split; [done|].
  intros r' q q' Hr' Eq Eq' Hcc. pose proof (StronglySorted_inv (o_queue _ Ho _ _ Kq)) as [_ K].
  rewrite Forall_forall in K. apply K; [done|].
  rewrite (sim_cn st a r' Hs), Eq', (sim_cn st a _ Hs), Eq. cbn. by rewrite Hcc.
Qed.
