(* ===== verification/QueueFlush.v ===== *)
(** * Flush and the reply it cancels (libnpfs/fcall.c, srv.c)

    The promise of a Tflush: once its Rflush is sent, the request that it named
    is not answered any more, so that the client may use the tag again.  It
    holds on a server with one thread pool if the client keeps to the rule for
    tags; with two pools it does not. *)
From S2P Require Import Prelude Protocol Queue QueueSpec QueueInv QueueSim QueueProps.
From Stdlib Require Import Sorted.
From stdpp Require Import list gmap.
#[local] Open Scope Z_scope.

(** ** What the client sent and received *)

(** The requests received so far; request [r] is the [r]-th. *)
Definition history (ls : list label) : list (cid * Z * Z * Z) := omap recv_of ls.

Definition request (ls : list label) (r : rid) : option (cid * Z * Z * Z) :=
  history ls !! pred (Pos.to_nat r).

(** [f] came after [r] and has its tag as [oldtag]. *)
Definition cancels (ls : list label) (f r : rid) : Prop :=
  (r < f)%positive /\ exists c ftag tag type oldtag,
    request ls f = Some (c, Tflush, ftag, tag) /\ request ls r = Some (c, type, tag, oldtag).

(** The client has seen the end of request [r]. *)
Definition answered (ls : list label) (es : list event) (r : rid) : Prop :=
  Ev_reply r ∈ es \/ Ev_rflush r ∈ es \/ exists f, Ev_rflush f ∈ es /\ cancels ls f r.

(** The rule for tags: a new request uses a tag of which every earlier request
    is answered. *)
Definition tag_rule (ls : list label) (es : list event) (l : label) : Prop :=
  match l with
  | L_recv c _ tag _ _ => forall r type oldtag, request ls r = Some (c, type, tag, oldtag) -> answered ls es r
  | _ => True
  end.

(** Runs with clients that keep to the rule. *)
Inductive polite (sig : bool) (st0 : qstate) : list label -> qstate -> Prop :=
| polite_start : polite sig st0 [] st0
| polite_step ls st l st' : polite sig st0 ls st -> tag_rule ls (out st) l ->
    exec sig l st = Ret (Some st') -> polite sig st0 (ls ++ [l]) st'.

Lemma request_old ls l r k : request ls r = Some k -> request (ls ++ [l]) r = Some k.
Proof. intros E. unfold request, history. rewrite omap_app. by apply lookup_app_l_Some. Qed.

Lemma request_new ls l r k : request (ls ++ [l]) r = Some k ->
  request ls r = Some k \/ recv_of l = Some k /\ pred (Pos.to_nat r) = length (history ls).
Proof.
  unfold request, history. rewrite omap_app. intros [?|[Hl E]]%lookup_app_Some; [by left|]. right.
  cbn in E. destruct (recv_of l); [|done]. apply list_lookup_singleton_Some in E as [E ->].
  split; [done|]. lia.
Qed.

Lemma history_len ls l : length (history (ls ++ [l])) =
  (length (history ls) + if decide (is_Some (recv_of l)) then 1 else 0)%nat.
Proof.
  unfold history. rewrite omap_app, length_app. f_equal. cbn. destruct (recv_of l).
  - by rewrite decide_True by eauto.
  - by rewrite decide_False by (by intros [? ?]).
Qed.

Lemma cancels_old ls l f r : cancels ls f r -> cancels (ls ++ [l]) f r.
Proof.
  intros (Hlt & c & ftag & tag & type & oldtag & Ef & Er). split; [done|].
  exists c, ftag, tag, type, oldtag. split; by apply request_old.
Qed.

(** ** The flush in a single pool *)

Lemma a_find_None m c tag l y : a_find m c tag l = None -> y ∈ l -> a_matches m c tag y = true -> False.
Proof.
  unfold a_find. intros E Hy Hm. assert (Hin : y ∈ filter (fun r => a_matches m c tag r) l).
  { apply list_elem_of_filter. split; [by rewrite Hm|done]. }
  destruct (filter _ l); [by apply elem_of_nil in Hin|done].
Qed.

Lemma a_find_first (R : rid -> rid -> Prop) m c tag l r y : StronglySorted R l ->
  a_find m c tag l = Some r -> y ∈ l -> a_matches m c tag y = true -> y = r \/ R r y.
Proof.
  unfold a_find. induction 1 as [|x l Hs IH Hx]; [done|]. rewrite filter_cons.
  destruct (decide (a_matches m c tag x)) as [Hm|Hm]; cbn.
  - intros [= ->] [->|Hy]%elem_of_cons _; [by left|]. rewrite Forall_forall in Hx. auto.
  - intros E [->|Hy]%elem_of_cons Hmy; [by rewrite Hmy in Hm|auto].
Qed.

Lemma matches_cn m c tag r : a_matches m c tag r = true -> exists x, m !! r = Some x /\ a_conn x = c /\ a_tag x = tag.
Proof.
  unfold a_matches. destruct (m !! r) as [x|]; [|done]. intros ?%bool_decide_eq_true. eauto.
Qed.

Definition the_queue (a : astate) : list rid := default [] (queues a !! 0%nat).
Definition the_works (a : astate) : list rid := default [] (works a !! 0%nat).

Lemma waiting_where a c f tag r : wf a -> length (queues a) = 1%nat -> aconns a !! c = Some (Got f) ->
  a_matches (areqs a) c tag r = true -> r <> f -> waiting a r -> r ∈ the_queue a \/ r ∈ the_works a.
Proof.
  intros Hw Hl Ec Hm Hne [[i Hp]|[(w & t & Et & Hpc)|[c' Ec']]].
  - destruct (wf_inqueue _ _ Hw _ _ Hp) as (l & El & Hr); [done|]. pose proof (lookup_lt_Some _ _ _ El).
    assert (i = 0%nat) as -> by lia. left. unfold the_queue. by rewrite El.
  - destruct (wf_worker _ _ Hw w t r (InWork (w_tpool t) w)) as (_ & Hp); [done|by rewrite Hpc|].
    destruct (wf_inwork _ _ Hw _ _ _ Hp) as (l & El & Hr); [done|].
    pose proof (lookup_lt_Some _ _ _ El). rewrite (wf_len _ _ Hw), Hl in H.
    assert (w_tpool t = 0%nat) as E0 by lia. right. unfold the_works. by rewrite <- E0, El.
  - destruct (wf_reader _ _ Hw _ _ _ Ec' eq_refl) as (_ & _ & Hcn).
    destruct (matches_cn _ _ _ _ Hm) as (x & Ex & Hx & _). unfold cn in Hcn. rewrite Ex in Hcn. cbn in Hcn.
    congruence.
Qed.

(** Of the requests of a connection with the same tag only the latest waits. *)
Definition one_waits (a : astate) (c : cid) (tag : Z) : Prop :=
  forall r1 r2, (r1 < r2)%positive -> a_matches (areqs a) c tag r1 = true ->
    a_matches (areqs a) c tag r2 = true -> ~ waiting a r1.

Lemma matches_same a c tag r1 r2 : a_matches (areqs a) c tag r1 = true ->
  a_matches (areqs a) c tag r2 = true -> cn a r1 = cn a r2.
Proof.
  intros (x & Ex & Hx & _)%matches_cn (y & Ey & Hy & _)%matches_cn.
  unfold cn. rewrite Ex, Ey. cbn. congruence.
Qed.

Lemma queue_waits a r : wf a -> r ∈ the_queue a -> waiting a r.
Proof.
  intros Hw (l & El & Hr)%default_lookup. left. exists 0%nat. by eapply wf_queue.
Qed.

Lemma fl_free_some a r y f : fl (a_free r a) y = Some f -> fl a y = Some f.
Proof. rewrite fl_free. by case_decide. Qed.

Lemma fl_kill sig r a y : fl (a_kill sig r a) y = fl a y.
Proof.
  unfold a_kill. destruct sig; [|done]. destruct (areqs a !! r) as [x|]; [|done]. by destruct (a_place x).
Qed.

Lemma fl_attach sig f r a y g : fl (a_attach sig f r a) y = Some g ->
  fl a y = Some g \/ y = r /\ g = f.
Proof.
  unfold a_attach. rewrite fl_kill, fl_place. set (a' := match areqs a !! r with Some x => _ | None => a end).
  assert (Ha : forall z g, fl a' z = Some g -> fl a z = Some g).
  { intros z g'. unfold a'. destruct (areqs a !! r) as [x|]; [|done].
    destruct (a_flush x); [apply fl_free_some|done]. }
  intros E. unfold fl in E. cbn in E. rewrite lookup_alter in E. case_decide; [|by left; apply Ha].
  subst. destruct (areqs a' !! y); [|done]. cbn in E. injection E as <-. by right.
Qed.

Lemma drop_not_waiting i r a : wf a -> pl a r = Some (InQueue i) -> ~ waiting (a_drop i r a) r.
Proof.
  intros Hw Hp [[j Hq]|Hk]; [rewrite pl_drop, decide_True in Hq; done|].
  destruct Hk as [(w & t & Et & Hpc)|[c Ec]].
  - rewrite (sh_workers _ _ (shrinks_drop i r a)) in Et.
    destruct (wf_worker _ _ Hw w t r (InWork (w_tpool t) w)) as [_ Hp']; [done|by rewrite Hpc|]. congruence.
  - rewrite drop_conns in Ec. destruct (wf_reader _ _ Hw _ _ _ Ec eq_refl) as (_ & Hp' & _). congruence.
Qed.

(** With one pool, [np_flush] finds the only request that can be waiting. *)
Lemma flush_one sig f c tag a now b : wf a -> ordered a -> length (queues a) = 1%nat ->
  aconns a !! c = Some (Got f) -> one_waits a c tag ->
  a_flush_pools sig f c tag [0%nat] a = (now, b) ->
  forall r', a_matches (areqs a) c tag r' = true -> r' <> f -> waiting b r' ->
    now = false /\ forall r, fl b r = Some f -> fl a r <> Some f -> r' = r.
Proof.
  intros Hw Ho Hl Ec Hone E r' Hm Hne Hwait.
  assert (Ha : waiting a r') by (eapply waiting_shrinks; [by eapply shrinks_flush_pools|done]).
  pose proof (waiting_where a c f tag r' Hw Hl Ec Hm Hne Ha) as Hin. cbn in E.
  fold (the_queue a) (the_works a) in E.
  destruct (lookup_lt_is_Some_2 (queues a) 0%nat) as [ql Eq]; [lia|].
  destruct (lookup_lt_is_Some_2 (works a) 0%nat) as [wl Ew]; [rewrite (wf_len _ _ Hw); lia|].
  assert (Tq : the_queue a = ql) by (unfold the_queue; by rewrite Eq).
  assert (Tw : the_works a = wl) by (unfold the_works; by rewrite Ew).
  destruct (a_find (areqs a) c tag (the_queue a)) as [r|] eqn:Fq.
  - destruct (a_find_Some _ _ _ _ _ Fq) as [Hr Hmr]. pose proof (queue_waits a r Hw Hr) as Hwr.
    injection E as <- <-. exfalso. destruct (decide (r' = r)) as [->|Hd]; [|].
    { eapply (drop_not_waiting 0%nat r a); [done| |done]. apply (wf_queue _ _ Hw _ _ _ Eq). by rewrite <- Tq. }
    pose proof (matches_same a c tag r' r Hm Hmr) as Hcc. destruct Hin as [Hin|Hin].
    + rewrite Tq in *. destruct (a_find_first _ _ _ _ _ _ r' (o_queue _ Ho _ _ Eq) Fq Hin Hm) as [?|Hlt]; [done|].
      by apply (Hone r r'); [apply Hlt| | |].
    + rewrite Tq, Tw in *. by apply (Hone r' r); [eapply (o_cross _ Ho)| | |].
  - destruct Hin as [Hin|Hin]; [by exfalso; eapply a_find_None|].
    destruct (a_find (areqs a) c tag (the_works a)) as [r|] eqn:Fw; [|by exfalso; eapply a_find_None].
    injection E as <- <-. split; [done|]. intros y Hy Hny.
    destruct (fl_attach _ _ _ _ _ _ Hy) as [?|[-> _]]; [done|].
    destruct (a_find_Some _ _ _ _ _ Fw) as [Hr Hmr]. rewrite Tw in *.
    pose proof (matches_same a c tag r r' Hmr Hm) as Hcc.
    destruct (a_find_first _ _ _ _ _ _ r' (o_work _ Ho _ _ Ew) Fw Hin Hm) as [?|Hlt]; [done|].
    exfalso. by apply (Hone r' r); [apply Hlt| | |].
Qed.

(** ** What a step does to flushes and messages *)

Lemma fl_send e r a y : fl (a_send e r a) y = fl a y.
Proof. unfold a_send. destruct (areqs a !! r); [|done]. by case_decide. Qed.

Lemma fl_flush_pools sig f c tag ps now b y g : forall a, a_flush_pools sig f c tag ps a = (now, b) ->
  fl b y = Some g -> fl a y = Some g \/ g = f.
Proof.
  induction ps as [|i ps IH]; intros a; cbn; [intros [= _ <-]; by left|].
  destruct (a_find _ _ _ (default [] (queues a !! i))); [intros [= _ <-] E|].
  - left. by apply fl_free_some in E.
  - destruct (a_find _ _ _ (default [] (works a !! i))); [|apply IH].
    intros [= _ <-] [?|[_ ?]]%fl_attach; auto.
Qed.

Lemma fl_foldl {A} (F : astate -> A -> astate) l y g :
  (forall a x, fl (F a x) y = Some g -> fl a y = Some g) ->
  forall a, fl (foldl F a l) y = Some g -> fl a y = Some g.
Proof. intros HF. induction l as [|x l IH]; intros a; cbn; [done|]. intros E. by apply (HF a x), IH. Qed.

Lemma fl_conn_flush sig c a y g : fl (a_conn_flush sig c a) y = Some g -> fl a y = Some g.
Proof.
  apply fl_foldl. intros a' i K. apply (fl_foldl (a_silence_of sig c)) in K.
  - apply (fl_foldl (a_drop_of i c)) in K; [done|]. intros a'' r. unfold a_drop_of.
    destruct (of_conn _ _ _); [|done]. by intros ?%fl_free_some.
  - intros a'' r. unfold a_silence_of. destruct (of_conn _ _ _); [|done].
    rewrite fl_kill, fl_plain by apply plain_state. done.
Qed.

Lemma fl_flushreply a r y g : fl (a_flushreply r a) y = Some g -> fl a y = Some g.
Proof.
  unfold a_flushreply. destruct (areqs a !! r) as [x|] eqn:Ex; [|done].
  destruct (a_flush x) as [f|]; [|done]. intros E.
  assert (K : fl (a_free f (a_send (Ev_rflush f) f a)) y = Some g).
  { unfold fl in E |- *. cbn in E. rewrite lookup_alter in E. case_decide; [|done].
    subst. destruct (areqs (a_free f _) !! y); done. }
  apply fl_free_some in K. by rewrite fl_send in K.
Qed.

(** The flush [f] is just being handled. *)
Definition flushing (l : label) (a : astate) (f : rid) : Prop :=
  exists c i, l = L_dispatch c i /\ aconns a !! c = Some (Got f).

Lemma fl_step sig l a b y g : astep sig l a = Some b -> wf a -> fl b y = Some g ->
  fl a y = Some g \/ flushing l a g.
Proof.
  intros E Hw K. destruct l; astep_cases E; try (by left).
  - left. unfold fl in K. cbn in K. rewrite lookup_insert in K. by case_decide.
  - match goal with H : a_flush_pools _ _ _ _ _ _ = _ |- _ => destruct (fl_flush_pools _ _ _ _ _ _ _ _ _ _ H K) as [?| ->] end;
      [by left|right; by eexists _, _].
  - match goal with H : a_flush_pools _ _ _ _ _ _ = _ |- _ => destruct (fl_flush_pools _ _ _ _ _ _ _ _ _ _ H K) as [?| ->] end;
      [by left|right; by eexists _, _].
  - left. rewrite fl_reader, fl_place in K. done.
  - left. apply fl_free_some in K. by rewrite fl_send in K.
  - left. by apply fl_conn_flush in K.
  - left. unfold a_take in K. rewrite fl_worker, fl_place in K. done.
  - left. unfold a_process in K. rewrite fl_worker, fl_send, fl_plain in K by apply plain_fid.
    destruct interrupted; [|done]. by rewrite fl_plain in K by apply plain_state.
  - left. rewrite fl_worker, fl_place in K. done.
  - left. by apply fl_flushreply in K.
  - left. by apply fl_free_some in K.
Qed.

Lemma flushed_step sig l a b c f : astep sig l a = Some b -> aconns b !! c = Some (Flushed f) ->
  aconns a !! c = Some (Flushed f) \/ exists i, l = L_dispatch c i /\ aconns a !! c = Some (Got f).
Proof.
  intros E K.
  assert (Hins : forall (pc : reader) (m : gmap cid reader) (c' : cid), pc <> Flushed f ->
    <[c' := pc]> m !! c = Some (Flushed f) -> m !! c = Some (Flushed f)).
  { intros pc m c' Hpc. rewrite lookup_insert. case_decide; [congruence|done]. }
  destruct l; astep_cases E; cbn in K;
    repeat match goal with H : a_flush_pools _ _ _ _ _ _ = _ |- _ =>
      rewrite (sh_conns _ _ (shrinks_flush_pools _ _ _ _ _ _ _ _ H)) in K; clear H end;
    rewrite ?free_conns, ?send_conns, ?conn_flush_conns in K;
    try (by left; exact K); try (by left; apply Hins in K).
  - rewrite lookup_insert in K. case_decide; [|by left]. simplify_eq. right. by eauto.
  - left. by apply lookup_delete_Some in K as [_ K].
  - left. unfold a_process in K. cbn in K. rewrite ?send_conns in K. by destruct interrupted.
  - left. by rewrite (proj1 (proj2 (proj2 (flushreply_lists _ a)))) in K.
Qed.

(** The messages of a step: a reply by a worker that has the request, an Rflush
    by the read thread or by a worker that took a flushed request off. *)
Definition message_of (l : label) (a : astate) (e : event) : Prop :=
  match e with
  | Ev_reply r => exists w b t, l = L_process w b /\ aworkers a !! w = Some t /\ w_pc t = Busy r
  | Ev_rflush f => (exists c, l = L_rflush c /\ aconns a !! c = Some (Flushed f)) \/
      exists w t r, l = L_flushreply w /\ aworkers a !! w = Some t /\ w_pc t = Off r /\ fl a r = Some f
  | _ => True
  end.

Lemma quiet_message l a e : quiet e -> message_of l a e.
Proof. by destruct e. Qed.

(** [b] has sent what the step with label [l] in [a] sends. *)
Definition sends (l : label) (a b : astate) : Prop :=
  exists es, aout b = es ++ aout a /\ Forall (message_of l a) es.

Lemma sends_same l a b : aout b = aout a -> sends l a b.
Proof. intros E. by exists []. Qed.

Lemma sends_shrinks l a b d : sends l a b -> shrinks b d -> sends l a d.
Proof.
  intros (es & Eb & He) Hs. destruct (sh_out _ _ Hs) as (fs & Ed & Hf). exists (fs ++ es).
  rewrite Ed, Eb, app_assoc. split; [done|]. apply Forall_app. split; [|done].
  eapply Forall_impl; [exact Hf|]. intros e. apply quiet_message.
Qed.

Lemma sends_send l a e r b : aout b = aout a -> message_of l a e -> sends l a (a_send e r b).
Proof.
  intros E He. unfold a_send. destruct (areqs b !! r); [|by apply sends_same]. case_decide; [|by apply sends_same].
  exists [e]. cbn. rewrite E. split; [done|]. by repeat constructor.
Qed.

Lemma out_step sig l a b : astep sig l a = Some b -> sends l a b.
Proof.
  intros E. destruct l; astep_cases E; try (by apply sends_same);
    try match goal with |- sends ?l a (a_worker _ _ _ ?b) => change (sends l a b)
      | |- sends ?l a (a_reader _ _ ?b) => change (sends l a b) end.
  - by eapply (sends_shrinks _ a a); [apply sends_same|eapply shrinks_flush_pools].
  - by eapply (sends_shrinks _ a a); [apply sends_same|eapply shrinks_flush_pools].
  - eapply (sends_shrinks _ a); [|apply shrinks_free]. apply sends_send; [done|]. left. by eauto.
  - eapply (sends_shrinks _ a a); [by apply sends_same|apply shrinks_conn_flush].
  - unfold a_process. apply sends_send; [by destruct interrupted|]. by eexists w, interrupted, _.
  - unfold a_flushreply.
    destruct (areqs a !! r) as [x|] eqn:Ex; [|by apply sends_same].
    destruct (a_flush x) as [f|] eqn:Ef; [|by apply sends_same].
    match goal with |- sends ?l a (a_upd _ _ ?b) => change (sends l a b) end.
    eapply (sends_shrinks _ a); [|apply shrinks_free]. apply sends_send; [done|]. right. eexists w, _, r.
    split; [done|]. split; [done|]. split; [done|]. unfold fl. by rewrite Ex.
  - eapply (sends_shrinks _ a a); [by apply sends_same|apply shrinks_free].
Qed.

Lemma out_elem sig l a b e : astep sig l a = Some b -> e ∈ aout b -> e ∈ aout a \/ message_of l a e.
Proof.
  intros E. destruct (out_step _ _ _ _ E) as (es & -> & He). intros [H|H]%elem_of_app; [right|by left].
  rewrite Forall_forall in He. auto.
Qed.

(** ** The invariant *)

(** Requests are numbered in the order of their reception. *)
Record knows (ls : list label) (a : astate) : Prop := {
  kn_len : length (history ls) = pred (Pos.to_nat (afresh a));
  kn_ky r k : ky a r = Some k -> request ls r = Some k;
}.

Record tracks (ls : list label) (a : astate) : Prop := {
  tr_knows :> knows ls a;
  tr_pool : length (queues a) = 1%nat;
  tr_out r : Ev_reply r ∈ aout a \/ Ev_rflush r ∈ aout a -> (r < afresh a)%positive;
  tr_latest r1 r2 c type1 type2 tag old1 old2 : (r1 < r2)%positive ->
    request ls r1 = Some (c, type1, tag, old1) -> request ls r2 = Some (c, type2, tag, old2) -> ~ waiting a r1;
  tr_answered r : answered ls (aout a) r -> ~ waiting a r;
  tr_pending r f r' : fl a r = Some f -> cancels ls f r' -> waiting a r' -> r' = r;
  tr_ready c f r' : aconns a !! c = Some (Flushed f) -> cancels ls f r' -> ~ waiting a r';
}.

Lemma request_fresh ls a r k : knows ls a -> request ls r = Some k -> (r < afresh a)%positive.
Proof. intros Ht E%lookup_lt_Some. rewrite (kn_len _ _ Ht) in E. lia. Qed.

Lemma request_step ls a l r k : knows ls a -> request (ls ++ [l]) r = Some k ->
  request ls r = Some k \/ recv_of l = Some k /\ r = afresh a.
Proof.
  intros Ht [?|[Hk Hl]]%request_new; [by left|]. right. split; [done|].
  rewrite (kn_len _ _ Ht) in Hl. lia.
Qed.

Lemma knows_step sig ls l a b : knows ls a -> astep sig l a = Some b -> knows (ls ++ [l]) b.
Proof.
  intros Ht E. split.
  - rewrite history_len, (kn_len _ _ Ht), (fresh_step _ _ _ _ E). case_decide; lia.
  - intros r k K. destruct (ky_step _ _ _ _ _ _ E K) as [K'|[-> K']]; [by apply request_old, (kn_ky _ _ Ht)|].
    unfold request, history. rewrite omap_app. fold (history ls).
    rewrite lookup_app_r; rewrite (kn_len _ _ Ht); [|done]. cbn. rewrite K'. by rewrite Nat.sub_diag.
Qed.

Lemma knows_start pools wpools : knows [] (astart pools wpools).
Proof. done. Qed.

(** A flush that was received cancels what it cancelled when it was received. *)
Lemma cancels_step ls a l f r : knows ls a -> (f < afresh a)%positive -> cancels (ls ++ [l]) f r -> cancels ls f r.
Proof.
  intros Ht Hf (Hlt & c & ftag & tag & type & oldtag & Ef & Er). split; [done|].
  exists c, ftag, tag, type, oldtag.
  destruct (request_step _ _ _ _ _ Ht Ef) as [?|[_ ->]]; [|lia].
  destruct (request_step _ _ _ _ _ Ht Er) as [?|[_ ->]]; [done|lia].
Qed.

Lemma len_step sig l a b : astep sig l a = Some b -> length (queues b) = length (queues a).
Proof.
  intros E. destruct l; astep_cases E; try done; cbn;
    rewrite ?free_queues, ?(proj1 (send_queues _ _ _)), ?(proj1 (flushreply_lists _ _)),
      ?length_alter, ?length_insert; try done.
  - by eapply sh_len, shrinks_flush_pools.
  - by eapply sh_len, shrinks_flush_pools.
  - apply sh_len, shrinks_conn_flush.
  - by destruct interrupted.
Qed.

Lemma fl_known a r f : wf a -> fl a r = Some f -> (f < afresh a)%positive.
Proof. intros Hw E. apply (wf_fresh _ _ Hw). by destruct (wf_flush _ _ Hw _ _ E) as [_ ->]. Qed.

Lemma reader_known a c pc r : wf a -> aconns a !! c = Some pc -> reader_holds pc = Some r ->
  (r < afresh a)%positive.
Proof. intros Hw Ec Hr. apply (wf_fresh _ _ Hw). by destruct (wf_reader _ _ Hw _ _ _ Ec Hr) as (_ & -> & _). Qed.

Lemma worker_known a w t r p : wf a -> aworkers a !! w = Some t ->
  pc_holds (w_pc t) (w_tpool t) w = Some (r, p) -> (r < afresh a)%positive.
Proof. intros Hw Et Hr. apply (wf_fresh _ _ Hw). by destruct (wf_worker _ _ Hw _ _ _ _ Et Hr) as (_ & ->). Qed.

(** What a message is about is known and does not wait after the step. *)
Lemma message_known l a r : wf a -> message_of l a (Ev_reply r) \/ message_of l a (Ev_rflush r) ->
  (r < afresh a)%positive.
Proof.
  intros Hw [(w & b & t & _ & Et & Hpc)|[(c & _ & Ec)|(w & t & r0 & _ & _ & _ & Ef)]].
  - eapply worker_known; [done..|]. by rewrite Hpc.
  - by eapply reader_known.
  - by eapply fl_known.
Qed.

Lemma off_not_waiting a w t r : wf a -> aworkers a !! w = Some t -> w_pc t = Off r -> ~ waiting a r.
Proof.
  intros Hw Et Hpc (p & Hp & Hm)%(waiting_place _ _ Hw).
  destruct (wf_worker _ _ Hw w t r (AtWorker w)) as [_ Hp']; [done|by rewrite Hpc|].
  rewrite Hp in Hp'. by injection Hp' as ->.
Qed.

(** After its response a request does not wait. *)
Lemma done_not_waiting a w t r : wf a -> aworkers a !! w = Some t -> w_pc t = Done r -> ~ waiting a r.
Proof.
  intros Hw Et Hpc.
  destruct (wf_worker _ _ Hw w t r (InWork (w_tpool t) w)) as [_ Hp]; [done|by rewrite Hpc|].
  intros [[i Hp']|[(w' & t' & Et' & Hpc')|[c Ec]]].
  - congruence.
  - destruct (wf_worker _ _ Hw w' t' r (InWork (w_tpool t') w')) as [_ Hp']; [done|by rewrite Hpc'|]. congruence.
  - destruct (wf_reader _ _ Hw _ _ _ Ec eq_refl) as (_ & Hp' & _). congruence.
Qed.

Lemma flushed_not_waiting a c r : wf a -> aconns a !! c = Some (Flushed r) -> ~ waiting a r.
Proof.
  intros Hw Ec. destruct (wf_reader _ _ Hw _ _ _ Ec eq_refl) as (_ & Hp & _).
  intros [[i Hp']|[(w & t & Et & Hpc)|[c' Ec']]].
  - congruence.
  - destruct (wf_worker _ _ Hw w t r (InWork (w_tpool t) w)) as [_ Hp']; [done|by rewrite Hpc|]. congruence.
  - destruct (wf_reader _ _ Hw _ _ _ Ec' eq_refl) as (_ & Hp' & _). congruence.
Qed.

Lemma flush_not_waiting a r f : wf a -> fl a r = Some f -> ~ waiting a f.
Proof.
  intros Hw Ef (p & Hp & Hm)%(waiting_place _ _ Hw). destruct (wf_flush _ _ Hw _ _ Ef) as [_ Hp'].
  rewrite Hp in Hp'. by injection Hp' as ->.
Qed.

Lemma process_done sig w i a b t r : astep sig (L_process w i) a = Some b ->
  aworkers a !! w = Some t -> w_pc t = Busy r ->
  exists t', aworkers b !! w = Some t' /\ w_pc t' = Done r.
Proof.
  intros E Et Hpc. astep_cases E.
  match goal with K : _ = Some {| w_tpool := ?j; w_pc := _ |} |- _ => exists {| w_tpool := j; w_pc := Done r |} end.
  split; [|done]. unfold a_process. cbn.
  match goal with |- context [a_send ?e ?y ?c] => rewrite (proj2 (proj2 (send_queues e y c))) end.
  destruct i; apply list_lookup_insert_eq; by eapply lookup_lt_Some.
Qed.

(** The messages of a step end the wait of what they answer. *)
Lemma message_ends sig ls l a b r : tracks ls a -> wf a -> wf b -> astep sig l a = Some b ->
  answered (ls ++ [l]) (aout b) r -> waiting b r -> r <> afresh a -> False.
Proof.
  intros Ht Hw Hwb E Hans Hwait Hne. pose proof (waiting_step _ _ _ _ _ E Hw Hwait Hne) as Ha.
  destruct Hans as [He|[He|(f & He & Hc)]]; destruct (out_elem _ _ _ _ _ E He) as [Hold|Hm].
  - apply (tr_answered _ _ Ht r); [by left|done].
  - destruct Hm as (w & i & t & -> & Et & Hpc). destruct (process_done _ _ _ _ _ _ _ E Et Hpc) as (t' & Et' & Hd).
    exact (done_not_waiting _ _ _ _ Hwb Et' Hd Hwait).
  - apply (tr_answered _ _ Ht r); [by right; left|done].
  - destruct Hm as [(c & _ & Ec)|(w & t & r0 & _ & _ & _ & Ef)].
    + exact (flushed_not_waiting _ _ _ Hw Ec Ha).
    + exact (flush_not_waiting _ _ _ Hw Ef Ha).
  - apply (tr_answered _ _ Ht r); [|done]. do 2 right. exists f. split; [done|].
    eapply cancels_step; [apply Ht| |done]. apply (tr_out _ _ Ht). by right.
  - apply (cancels_step ls a) in Hc; [|apply Ht|apply (message_known l a f Hw); by right].
    destruct Hm as [(c & _ & Ec)|(w & t & r0 & _ & Et & Hpc & Ef)].
    + exact (tr_ready _ _ Ht c f r Ec Hc Ha).
    + pose proof (tr_pending _ _ Ht _ _ _ Ef Hc Ha) as ->. exact (off_not_waiting _ _ _ _ Hw Et Hpc Ha).
Qed.

Lemma matches_ky a c tag r : a_matches (areqs a) c tag r = true ->
  exists type oldtag, ky a r = Some (c, type, tag, oldtag).
Proof. intros (x & Ex & <- & <-)%matches_cn. unfold ky. rewrite Ex. cbn. by eexists _, _. Qed.

Lemma tracks_one ls a c tag : tracks ls a -> one_waits a c tag.
Proof.
  intros Ht r1 r2 Hlt (type1 & old1 & K1)%matches_ky (type2 & old2 & K2)%matches_ky.
  eapply (tr_latest _ _ Ht); [done|by apply (kn_ky _ _ Ht)|by apply (kn_ky _ _ Ht)].
Qed.

(** A flush that is being handled, and a request that it cancels and that waits
    after the step. *)
Lemma flush_step sig ls l a b c i f r' : tracks ls a -> wf a -> ordered a -> l = L_dispatch c i ->
  aconns a !! c = Some (Got f) -> astep sig l a = Some b -> cancels (ls ++ [l]) f r' -> waiting b r' ->
  aconns b !! c <> Some (Flushed f) /\ forall r, fl b r = Some f -> r' = r.
Proof.
  intros Ht Hw Ho -> Ec E Hc Hwait. pose proof (reader_known _ _ _ _ Hw Ec eq_refl) as Hf.
  apply (cancels_step ls a) in Hc; [|apply Ht|done]. destruct Hc as (Hlt & c0 & ftag & tag & type & oldtag & Ef & Er).
  pose proof (waiting_step _ _ _ _ _ E Hw Hwait ltac:(lia)) as Ha.
  destruct (waiting_place _ _ Hw Ha) as (p & (x' & Ex' & _)%pl_lookup & _).
  destruct (wf_reader _ _ Hw _ _ _ Ec eq_refl) as (_ & Hpf & _).
  pose proof Hpf as (x & Ex & _)%pl_lookup.
  assert (Kf : ky a f = Some (key x)) by (unfold ky; by rewrite Ex).
  assert (Kr : ky a r' = Some (key x')) by (unfold ky; by rewrite Ex').
  rewrite (kn_ky _ _ Ht _ _ Kf) in Ef. rewrite (kn_ky _ _ Ht _ _ Kr) in Er.
  unfold key in Ef, Er. injection Ef as <- Hty _ <-. injection Er as Hcc _ Htag _.
  assert (Hm : a_matches (areqs a) (a_conn x) (a_oldtag x) r' = true).
  { unfold a_matches. rewrite Ex'. by apply bool_decide_eq_true. }
  destruct (wf_reader _ _ Hw _ _ _ Ec eq_refl) as (_ & _ & Hcn). unfold cn in Hcn. rewrite Ex in Hcn.
  injection Hcn as Hcn.
  unfold astep, astep_reader in E. rewrite Ec, Ex, Hty, Z.eqb_refl, (tr_pool _ _ Ht) in E. cbn [seq] in E.
  destruct (a_flush_pools _ _ _ _ _ _) as [now a'] eqn:Ep in E. injection E as <-.
  apply waiting_reader in Hwait; [|by destruct now]. rewrite Hcn in *.
  destruct (flush_one sig f c (a_oldtag x) a now a' Hw Ho (tr_pool _ _ Ht) Ec (tracks_one _ _ _ _ Ht) Ep
    r' Hm ltac:(lia) Hwait) as [-> Hfl].
  split; [cbn; by rewrite lookup_insert_eq|]. intros r Er. apply Hfl; [done|].
  intros Ef. destruct (wf_flush _ _ Hw _ _ Ef) as [_ Hp']. congruence.
Qed.

Lemma answered_old ls l es r : answered ls es r -> answered (ls ++ [l]) es r.
Proof. intros [?|[?|(f & ? & ?)]]; [by left|by right; left|]. do 2 right. exists f. split; [done|by apply cancels_old]. Qed.

Lemma cancels_known ls a f r : knows ls a -> cancels ls f r -> (r < afresh a)%positive.
Proof. intros Ht (_ & c & ftag & tag & type & oldtag & _ & Er). by eapply request_fresh. Qed.

Lemma tracks_step sig ls l a b : tracks ls a -> wf a -> ordered a -> tag_rule ls (aout a) l ->
  astep sig l a = Some b -> tracks (ls ++ [l]) b.
Proof.
  intros Ht Hw Ho Hrule E. pose proof (wf_astep _ _ _ _ E Hw) as Hwb.
  pose proof (fresh_step _ _ _ _ E) as Hfresh.
  assert (Hle : (afresh a <= afresh b)%positive) by (rewrite Hfresh; case_decide; lia).
  split.
  - by eapply knows_step; [apply Ht|].
  - by rewrite (len_step _ _ _ _ E), (tr_pool _ _ Ht).
  - intros r Hr. assert (r < afresh a)%positive; [|lia].
    assert (Hk : (Ev_reply r ∈ aout a \/ Ev_rflush r ∈ aout a) \/
      (message_of l a (Ev_reply r) \/ message_of l a (Ev_rflush r))).
    { destruct Hr as [Hr|Hr]; destruct (out_elem _ _ _ _ _ E Hr); auto. }
    destruct Hk as [Hk|Hk]; [by apply (tr_out _ _ Ht)|by eapply message_known].
  - intros r1 r2 c type1 type2 tag old1 old2 Hlt E1 E2 Hwait.
    destruct (request_step _ _ _ _ _ Ht E1) as [E1'|[E1' ->]].
    + pose proof (request_fresh _ _ _ _ Ht E1'). assert (Ha : waiting a r1) by (eapply waiting_step; [done..|lia]).
      destruct (request_step _ _ _ _ _ Ht E2) as [E2'|[E2' ->]]; [by eapply (tr_latest _ _ Ht r1 r2)|].
      destruct l; try done. cbn in E2'. injection E2' as -> -> -> ->.
      apply (tr_answered _ _ Ht r1); [|done]. by eapply Hrule.
    + destruct (request_step _ _ _ _ _ Ht E2) as [E2'|[_ ->]]; [pose proof (request_fresh _ _ _ _ Ht E2'); lia|lia].
  - intros r Hans Hwait. destruct (decide (r = afresh a)) as [->|]; [|by eapply message_ends].
    destruct (waiting_place _ _ Hwb Hwait) as (p & Hp & _). pose proof (wf_fresh _ _ Hwb (afresh a) ltac:(by rewrite Hp)).
    destruct l; try (rewrite Hfresh, decide_False in H by (by intros [? ?]); lia).
    assert (Hout : aout b = aout a) by (astep_cases E; done). rewrite Hout in Hans.
    destruct Hans as [K|[K|(f & K & Hc)]].
    + pose proof (tr_out _ _ Ht (afresh a) (or_introl K)). lia.
    + pose proof (tr_out _ _ Ht (afresh a) (or_intror K)). lia.
    + pose proof (tr_out _ _ Ht f (or_intror K)). destruct Hc as [? _]. lia.
  - intros r f r' Ef Hc Hwait. destruct (fl_step _ _ _ _ _ _ E Hw Ef) as [Ef'|(c & i & Hl & Ec)].
    + apply (cancels_step ls a) in Hc; [|apply Ht|by eapply fl_known]. pose proof (cancels_known _ _ _ _ Ht Hc).
      apply (tr_pending _ _ Ht r f); [done..|]. eapply waiting_step; [done..|lia].
    + by eapply (proj2 (flush_step _ _ _ _ _ _ _ _ _ Ht Hw Ho Hl Ec E Hc Hwait)).
  - intros c f r' Ef Hc Hwait. destruct (flushed_step _ _ _ _ _ _ E Ef) as [Ef'|(i & Hl & Ec)].
    + apply (cancels_step ls a) in Hc; [|apply Ht|by eapply reader_known]. pose proof (cancels_known _ _ _ _ Ht Hc).
      apply (tr_ready _ _ Ht c f r'); [done..|]. eapply waiting_step; [done..|lia].
    + by apply (proj1 (flush_step _ _ _ _ _ _ _ _ _ Ht Hw Ho Hl Ec E Hc Hwait)).
Qed.

Lemma not_waiting_start pools wpools r : ~ waiting (astart pools wpools) r.
Proof.
  intros [[i K]|[(w & t & K & Hpc)|[c K]]]; cbn in K; [done| |by rewrite lookup_empty in K].
  rewrite list_lookup_fmap in K. destruct (wpools !! w); [|done]. injection K as <-. done.
Qed.

Lemma tracks_start wpools : tracks [] (astart 1 wpools).
Proof.
  split; try done; try (intros; by apply not_waiting_start).
  by intros r [K%elem_of_nil|K%elem_of_nil].
Qed.

Lemma message_once l a r f : message_of l a (Ev_reply r) -> message_of l a (Ev_rflush f) -> False.
Proof. intros (w & i & t & -> & _) [(c & ? & _)|(w' & t' & r' & ? & _)]; done. Qed.

(** No reply follows the Rflush that cancels it. *)
Definition kept (ls : list label) (es : list event) : Prop :=
  forall f r new old, es = new ++ Ev_rflush f :: old -> cancels ls f r -> Ev_reply r ∉ new.

Lemma kept_step sig ls l a b : tracks ls a -> wf a -> astep sig l a = Some b ->
  kept ls (aout a) -> kept (ls ++ [l]) (aout b).
Proof.
  intros Ht Hw E Hk f r new old Eb Hc Hr. destruct (out_step _ _ _ _ E) as (es & Ees & He).
  rewrite Forall_forall in He. rewrite Eb in Ees.
  assert (Hf : (f < afresh a)%positive).
  { assert (K : Ev_rflush f ∈ aout b) by (rewrite Eb; set_solver).
    destruct (out_elem _ _ _ _ _ E K); [apply (tr_out _ _ Ht)|apply (message_known l a _ Hw)]; by right. }
  apply (cancels_step ls a) in Hc; [|apply Ht|done].
  apply app_eq_inv in Ees as [(k & -> & Ea)|(k & -> & Ea)].
  - apply elem_of_app in Hr as [Hr|Hr]; [|by eapply Hk].
    destruct (He _ Hr) as (w & i & t & _ & Et & Hpc). apply (tr_answered _ _ Ht r); [|by right; left; eauto].
    do 2 right. exists f. split; [rewrite Ea; set_solver|done].
  - destruct k as [|e k]; [rewrite app_nil_r in He|].
    + destruct (He _ Hr) as (w & i & t & _ & Et & Hpc). cbn in Ea. apply (tr_answered _ _ Ht r); [|by right; left; eauto].
      do 2 right. exists f. split; [rewrite <- Ea; set_solver|done].
    + injection Ea as <- _. eapply (message_once l a r f); apply He; set_solver.
Qed.

Lemma polite_inv sig wpools ls st : pools_ok 1 wpools -> polite sig (np_srv_start 1 wpools) ls st ->
  exists a, sim st a /\ wf a /\ ordered a /\ tracks ls a /\ kept ls (aout a).
Proof.
  intros Hp. induction 1 as [|ls st l st' _ (a & Hs & Hw & Ho & Ht & Hk) Hrule E].
  - exists (astart 1 wpools). split; [apply sim_start|]. split; [by apply wf_start|].
    split; [apply ordered_start|]. split; [apply tracks_start|]. intros f r [|] old K; done.
  - destruct (sim_step sig l st a Hs Hw) as (o & E' & Hag). rewrite E in E'. injection E' as <-.
    cbn in Hag. destruct (astep sig l a) as [b|] eqn:Ea; [|done]. rewrite (sim_out _ _ Hs) in Hrule.
    exists b. split; [done|]. split; [by eapply wf_astep|]. split; [by eapply ordered_step|].
    split; [by eapply tracks_step|by eapply kept_step].
Qed.

(** C25: Flush.  On a server with one thread pool whose clients reuse a tag only
    when every earlier request with it is answered, no reply to a request is
    sent after the Rflush of a Tflush that named its tag, in any
    interleaving: the client may reuse the tag when the Rflush arrives. *)
Theorem no_reply_after_rflush sig wpools ls st new f old r : pools_ok 1 wpools ->
  polite sig (np_srv_start 1 wpools) ls st -> out st = new ++ Ev_rflush f :: old ->
  cancels ls f r -> Ev_reply r ∉ new.
Proof.
  intros Hp Hr E. destruct (polite_inv _ _ _ _ Hp Hr) as (a & Hs & _ & _ & _ & Hk).
  rewrite (sim_out _ _ Hs) in E. by apply Hk with old.
Qed.

(** ** Running a server *)

#[export] Instance event_eq_dec : EqDecision event.
Proof. solve_decision. Defined.

Definition cancelsb (ls : list label) (f r : rid) : bool :=
  bool_decide (r < f)%positive &&
  match request ls f, request ls r with
  | Some (c, type, _, old), Some (c', _, tag, _) => bool_decide (c = c' /\ type = Tflush /\ old = tag)
  | _, _ => false
  end.

Definition answeredb (ls : list label) (es : list event) (r : rid) : bool :=
  bool_decide (Ev_reply r ∈ es) || bool_decide (Ev_rflush r ∈ es) ||
  existsb (fun e => match e with Ev_rflush f => cancelsb ls f r | _ => false end) es.

Definition tag_ruleb (ls : list label) (es : list event) (l : label) : bool :=
  match l with
  | L_recv c _ tag _ _ =>
      forallb (fun i => let r := Pos.of_succ_nat i in
        match request ls r with
        | Some (c', _, tag', _) => negb (bool_decide (c' = c /\ tag' = tag)) || answeredb ls es r
        | None => true
        end) (seq 0 (length (history ls)))
  | _ => true
  end.

Lemma cancelsb_sound ls f r : cancelsb ls f r = true -> cancels ls f r.
Proof.
  intros [?%bool_decide_eq_true K]%andb_true_iff. split; [done|].
  destruct (request ls f) as [[[[c type] ftag] old]|] eqn:Ef; [|done].
  destruct (request ls r) as [[[[c' type'] tag] old']|] eqn:Er; [|done].
  apply bool_decide_eq_true in K as (<- & -> & ->). by repeat eexists.
Qed.

Lemma answeredb_sound ls es r : answeredb ls es r = true -> answered ls es r.
Proof.
  intros [[?%bool_decide_eq_true|?%bool_decide_eq_true]%orb_true_iff|K]%orb_true_iff; [by left|by right; left|].
  apply existsb_exists in K as (e & He & Hc). destruct e as [|f| |]; try done. do 2 right. exists f.
  split; [by apply list_elem_of_In|by apply cancelsb_sound].
Qed.

Lemma tag_ruleb_sound ls es l : tag_ruleb ls es l = true -> tag_rule ls es l.
Proof.
  destruct l; try done. cbn. intros K r type' oldtag' Er. rewrite forallb_forall in K.
  specialize (K (pred (Pos.to_nat r))). cbn in K.
  replace (Pos.of_succ_nat (pred (Pos.to_nat r))) with r in K by lia. rewrite Er in K.
  apply answeredb_sound. apply lookup_lt_Some in Er. ospecialize (K _); [apply in_seq; lia|].
  apply orb_true_iff in K as [K%negb_true_iff|K]; [|done]. apply bool_decide_eq_false in K. by destruct K.
Qed.

(** The steps [ls] after the steps [past], if the threads can do them. *)
Fixpoint play (sig : bool) (past ls : list label) (st : qstate) : option qstate :=
  match ls with
  | [] => Some st
  | l :: ls =>
      if tag_ruleb past (out st) l then
        match exec sig l st with Ret (Some st') => play sig (past ++ [l]) ls st' | _ => None end
      else None
  end.

Lemma play_polite sig st0 ls : forall past st st', polite sig st0 past st ->
  play sig past ls st = Some st' -> polite sig st0 (past ++ ls) st'.
Proof.
  induction ls as [|l ls IH]; intros past st st' Hp; cbn; [intros [= <-]; by rewrite app_nil_r|].
  destruct (tag_ruleb past (out st) l) eqn:Et; [|done].
  destruct (exec sig l st) as [[st1|]| |] eqn:E; try done. intros K.
  change (l :: ls) with ([l] ++ ls). rewrite app_assoc. apply (IH _ st1); [|done].
  econstructor; [done|by apply tag_ruleb_sound|done].
Qed.

Lemma polite_run sig st0 ls st : polite sig st0 ls st -> run sig st0 ls st.
Proof. induction 1; [constructor|by econstructor]. Qed.

(** The steps of a server with one pool and two workers: a read is answered late,
    after its flush was received, and its tag is used again. *)
Definition flush_late : list label :=
  let c := 1%positive in
  [L_connect c; L_recv c Tread 5 0 (Some 7%positive); L_dispatch c 0; L_take 0;
   L_recv c Tflush 6 5 None; L_dispatch c 0; L_process 0 false; L_unwork 0; L_flushreply 0;
   L_recv c Twrite 5 0 None; L_dispatch c 0; L_take 1; L_process 1 false; L_release 0].

Definition flush_late_state : qstate :=
  match play true [] flush_late (np_srv_start 1 [0; 0]%nat) with
  | Some st => st
  | None => np_srv_start 1 [0; 0]%nat
  end.

Lemma queues_refine_witness : exists a, arun true (astart 1 [0; 0]%nat) flush_late a /\
  out flush_late_state = aout a /\
  forall l, exists o, exec true l flush_late_state = Ret o /\ (is_Some o <-> is_Some (astep true l a)).
Proof.
  apply (queues_refine true 1 [0; 0]%nat flush_late flush_late_state).
  - repeat constructor.
  - apply polite_run, (play_polite _ _ flush_late [] (np_srv_start 1 [0; 0]%nat)); [constructor|].
    vm_compute. reflexivity.
Defined.

Lemma no_reply_after_rflush_witness :
  out flush_late_state = [Ev_reply 3%positive; Ev_rflush 2%positive; Ev_reply 1%positive; Ev_kill 0] /\ cancels flush_late 2%positive 1%positive /\
  Ev_reply 1%positive ∉ [Ev_reply 3%positive].
Proof.
  assert (E : out flush_late_state = [Ev_reply 3%positive] ++ Ev_rflush 2%positive ::
    [Ev_reply 1%positive; Ev_kill 0]) by (vm_compute; reflexivity).
  assert (Hc : cancels flush_late 2%positive 1%positive) by (apply cancelsb_sound; vm_compute; reflexivity).
  split; [exact E|]. split; [exact Hc|].
  apply (no_reply_after_rflush true [0; 0]%nat flush_late flush_late_state _ 2%positive _ 1%positive) with (3 := E);
    [repeat constructor| |exact Hc].
  apply (play_polite _ _ flush_late [] (np_srv_start 1 [0; 0]%nat)); [constructor|].
  vm_compute. reflexivity.
Defined.

(** The same with two pools: request 1 is answered but its worker has not yet
    taken it off the work list of pool 0; request 2 reuses its tag in pool 1. *)
Definition flush_stale : list label :=
  let c := 1%positive in
  [L_connect c; L_recv c Tread 5 0 None; L_dispatch c 0; L_take 0; L_process 0 false;
   L_recv c Twrite 5 0 None; L_dispatch c 1; L_take 1;
   L_recv c Tflush 6 5 None; L_dispatch c 0; L_unwork 0; L_flushreply 0; L_process 1 false].

Definition flush_stale_state : qstate :=
  match play false [] flush_stale (np_srv_start 2 [0; 1]%nat) with
  | Some st => st
  | None => np_srv_start 2 [0; 1]%nat
  end.

(** With two thread pools the promise fails.  [np_flush] attaches the flush
    to the first request with the tag that it finds, also to one that was
    answered and is only waiting to be taken off the work list of its pool; the
    Rflush is then sent while the request that the client meant is still worked
    on, and its reply follows. *)
Theorem reply_after_rflush : exists ls st new f old r,
  polite false (np_srv_start 2 [0; 1]%nat) ls st /\ out st = new ++ Ev_rflush f :: old /\
  cancels ls f r /\ Ev_reply r ∈ new.
Proof.
  exists flush_stale, flush_stale_state, [Ev_reply 2%positive], 3%positive, [Ev_reply 1%positive], 2%positive.
  split; [|split; [vm_compute; reflexivity|]].
  - apply (play_polite _ _ flush_stale [] (np_srv_start 2 [0; 1]%nat)); [constructor|]. vm_compute. reflexivity.
  - split; [apply cancelsb_sound; vm_compute; reflexivity|set_solver].
Qed.
