(* ===== verification/QueueServe.v ===== *)
(** * Every request is answered (libnpfs/srv.c, conn.c)

    The server's own steps end, and when none is left every request that was
    received has its answer: a reply, an Rflush, or the Rflush of a flush that
    cancelled or replaced it. *)
From S2P Require Import Prelude Protocol Queue QueueSpec QueueInv QueueSim QueueProps QueueFlush.
From stdpp Require Import list gmap.
#[local] Open Scope Z_scope.

(** The steps that the server does without the clients. *)
Definition internal (l : label) : bool :=
  match l with
  | L_connect _ | L_recv _ _ _ _ _ | L_close _ | L_destroy _ => false
  | _ => true
  end.

(** ** What is left to do *)

(** The steps that a request still needs, by where it is. *)
Definition reader_load (pc : reader) : nat :=
  match pc with Got _ => 7 | Flushed _ => 1 | _ => 0 end%nat.
Definition worker_load (t : Npwthread) : nat :=
  match w_pc t with Idle => 0 | Busy _ => 5 | Done _ => 4 | Off _ => 3 | Last _ => 2 end%nat.

Definition readers_load (m : gmap cid reader) : nat :=
  map_fold (fun _ pc n => reader_load pc + n)%nat 0%nat m.

Definition aload (a : astate) : nat :=
  (readers_load (aconns a) + 6 * sum_list_with length (queues a) + sum_list_with worker_load (aworkers a))%nat.

Lemma readers_load_delete m c pc : m !! c = Some pc ->
  readers_load m = (reader_load pc + readers_load (delete c m))%nat.
Proof. intros E. unfold readers_load. rewrite (map_fold_delete_L _ _ c pc m); [done|intros; lia|done]. Qed.

Lemma readers_load_insert m c pc pc' : m !! c = Some pc ->
  (readers_load (<[c := pc']> m) + reader_load pc = readers_load m + reader_load pc')%nat.
Proof.
  intros E. rewrite (readers_load_delete m c pc E), (readers_load_delete (<[c := pc']> m) c pc').
  - rewrite delete_insert_eq. lia.
  - by rewrite lookup_insert_eq.
Qed.

Lemma sum_insert {A} (f : A -> nat) i (l : list A) x y : l !! i = Some x ->
  (sum_list_with f (<[i := y]> l) + f x = sum_list_with f l + f y)%nat.
Proof.
  revert i. induction l as [|z l IH]; intros [|i]; [done..|cbn; intros [= ->]; lia|].
  intros E. specialize (IH i E). change (<[S i := y]> (z :: l)) with (z :: <[i := y]> l).
  cbn [sum_list_with]. lia.
Qed.

Lemma sum_alter {A} (f : A -> nat) g i (l : list A) x : l !! i = Some x ->
  (sum_list_with f (alter g i l) + f x = sum_list_with f l + f (g x))%nat.
Proof. intros E. rewrite (QueueSim.alter_insert g i l x E). by apply sum_insert. Qed.

Lemma sum_sub (ls ls' : list (list rid)) : length ls' = length ls -> lists_sub ls ls' ->
  (sum_list_with length ls' <= sum_list_with length ls)%nat.
Proof.
  revert ls'. induction ls as [|l ls IH]; intros [|l' ls']; cbn; try done. intros [= Hl] Hs.
  destruct (Hs 0%nat l' eq_refl) as (? & [= <-] & Hsub). apply sublist_length in Hsub.
  specialize (IH ls' Hl (fun i => Hs (S i))). lia.
Qed.

Lemma shrinks_queues a b : shrinks a b ->
  (sum_list_with length (queues b) <= sum_list_with length (queues a))%nat.
Proof. intros Hs. apply sum_sub; [apply Hs|]. intros i l. apply (sh_queues _ _ Hs). Qed.

(** Every step of the server gets something done. *)
Lemma load_step sig l a b : astep sig l a = Some b -> internal l = true -> (aload b < aload a)%nat.
Proof.
  intros E Hl. unfold aload. destruct l; try done; clear Hl; astep_cases E; unfold a_take, a_process;
    repeat match goal with
    | K : aconns a !! ?c = Some _ |- context [a_reader ?c ?pc' _] =>
        pose proof (readers_load_insert (aconns a) c _ pc' K); clear K
    | K : aworkers a !! ?w = Some {| w_tpool := ?j; w_pc := _ |} |- context [a_worker ?w ?j ?pc' _] =>
        pose proof (sum_insert worker_load w (aworkers a) _ {| w_tpool := j; w_pc := pc' |} K); clear K
    end; cbn [reader_load worker_load w_pc] in *; cbn.
  - match goal with K : a_flush_pools _ _ _ _ _ _ = _ |- _ => pose proof (shrinks_flush_pools _ _ _ _ _ _ _ _ K) as Hs end.
    rewrite (sh_conns _ _ Hs), (sh_workers _ _ Hs). pose proof (shrinks_queues _ _ Hs). lia.
  - match goal with K : a_flush_pools _ _ _ _ _ _ = _ |- _ => pose proof (shrinks_flush_pools _ _ _ _ _ _ _ _ K) as Hs end.
    rewrite (sh_conns _ _ Hs), (sh_workers _ _ Hs). pose proof (shrinks_queues _ _ Hs). lia.
  - match goal with K : (_ <? _)%nat = true |- _ => apply Nat.ltb_lt in K;
      destruct (lookup_lt_is_Some_2 _ _ K) as [ql Eq] end.
    match goal with |- context [alter ?g i (queues a)] => pose proof (sum_alter length g i (queues a) ql Eq) as K' end.
    cbn in K'. rewrite length_app in K'. cbn in K'. lia.
  - rewrite free_conns, free_queues, free_workers, send_conns.
    match goal with |- context [a_send ?e ?y a] => destruct (send_queues e y a) as (-> & _ & ->) end. lia.
  - match goal with K : queues a !! ?j = Some (_ :: ?m) |- _ => pose proof (sum_insert length j (queues a) _ m K) as K' end.
    cbn in K'. lia.
  - match goal with |- context [a_send ?e ?y ?d] => rewrite (send_conns e y d); destruct (send_queues e y d) as (-> & _ & ->) end.
    destruct interrupted; cbn in *; lia.
  - lia.
  - match goal with |- context [a_flushreply ?y a] => destruct (flushreply_lists y a) as (-> & _ & -> & ->) end. lia.
  - rewrite free_conns, free_queues, free_workers. lia.
Qed.

(** ** When nothing is left to do *)

Lemma tpools_step sig l a b : astep sig l a = Some b -> w_tpool <$> aworkers b = w_tpool <$> aworkers a.
Proof.
  assert (Hins : forall w i pc (ts : list Npwthread) t, ts !! w = Some t -> w_tpool t = i ->
    w_tpool <$> <[w := {| w_tpool := i; w_pc := pc |}]> ts = w_tpool <$> ts).
  { intros w i pc ts t Et <-. rewrite list_fmap_insert. apply list_insert_id. by rewrite list_lookup_fmap, Et. }
  intros E. destruct l; astep_cases E; try done; cbn.
  - by erewrite sh_workers by (by eapply shrinks_flush_pools).
  - by erewrite sh_workers by (by eapply shrinks_flush_pools).
  - rewrite free_workers. by rewrite (proj2 (proj2 (send_queues _ _ a))).
  - by rewrite (sh_workers _ _ (shrinks_conn_flush sig c a)).
  - by eapply Hins.
  - match goal with |- context [a_send ?e ?y ?d] => destruct (send_queues e y d) as (_ & _ & ->) end.
    destruct interrupted; by eapply Hins.
  - by eapply Hins.
  - rewrite (proj2 (proj2 (proj2 (flushreply_lists _ a)))). by eapply Hins.
  - rewrite free_workers. by eapply Hins.
Qed.

Definition stuck (sig : bool) (a : astate) : Prop := forall l, internal l = true -> astep sig l a = None.

Lemma stuck_readers sig a c pc : wf a -> (0 < length (queues a))%nat -> stuck sig a ->
  aconns a !! c = Some pc -> reader_holds pc = None.
Proof.
  intros Hw Hq Hs Ec. destruct pc as [|r|r|]; try done; exfalso.
  - specialize (Hs (L_dispatch c 0) eq_refl). cbn in Hs. unfold astep_reader in Hs. rewrite Ec in Hs.
    destruct (wf_reader _ _ Hw _ _ _ Ec eq_refl) as (_ & (x & Ex & _)%pl_lookup & _). rewrite Ex in Hs.
    destruct (a_type x =? Tflush); [by destruct (a_flush_pools _ _ _ _ _ _)|].
    destruct (queues a); [cbn in Hq; lia|done].
  - specialize (Hs (L_rflush c) eq_refl). cbn in Hs. unfold astep_reader in Hs. by rewrite Ec in Hs.
Qed.

Lemma stuck_workers sig a w t : stuck sig a -> aworkers a !! w = Some t -> w_pc t = Idle.
Proof.
  intros Hs Et. destruct (w_pc t) as [|r|r|r|r] eqn:Hpc; [done|exfalso..].
  - specialize (Hs (L_process w false) eq_refl). cbn in Hs. unfold astep_worker in Hs. by rewrite Et, Hpc in Hs.
  - specialize (Hs (L_unwork w) eq_refl). cbn in Hs. unfold astep_worker in Hs. by rewrite Et, Hpc in Hs.
  - specialize (Hs (L_flushreply w) eq_refl). cbn in Hs. unfold astep_worker in Hs. by rewrite Et, Hpc in Hs.
  - specialize (Hs (L_release w) eq_refl). cbn in Hs. unfold astep_worker in Hs. by rewrite Et, Hpc in Hs.
Qed.

(** Every pool has a worker. *)
Definition staffed (pools : nat) (ts : list nat) : Prop := forall i, (i < pools)%nat -> i ∈ ts.

Lemma stuck_queues sig a i l : staffed (length (queues a)) (w_tpool <$> aworkers a) -> stuck sig a ->
  queues a !! i = Some l -> l = [].
Proof.
  intros Hst Hs El. destruct l as [|r l]; [done|exfalso].
  specialize (Hst i (lookup_lt_Some _ _ _ El)). apply list_elem_of_fmap in Hst as (t & -> & Ht).
  apply list_elem_of_lookup in Ht as [w Et]. pose proof (stuck_workers sig a w t Hs Et) as Hpc.
  specialize (Hs (L_take w) eq_refl). cbn in Hs. unfold astep_worker in Hs. by rewrite Et, Hpc, El in Hs.
Qed.

Lemma stuck_empty sig a : wf a -> (0 < length (queues a))%nat ->
  staffed (length (queues a)) (w_tpool <$> aworkers a) -> stuck sig a -> areqs a = ∅.
Proof.
  intros Hw Hq Hst Hs. apply map_empty. intros r. destruct (areqs a !! r) as [x|] eqn:Ex; [exfalso|done].
  assert (Hp : pl a r = Some (a_place x)) by (unfold pl; by rewrite Ex).
  assert (Hidle : forall w t, aworkers a !! w = Some t -> w_pc t = Idle) by (intros; by eapply stuck_workers).
  destruct (a_place x) as [c|i|i w|w|y] eqn:Hx.
  - destruct (wf_atreader _ _ Hw _ _ Hp) as (pc & Ec & Hr); [done|]. by rewrite (stuck_readers sig a c pc) in Hr.
  - destruct (wf_inqueue _ _ Hw _ _ Hp) as (l & El & Hr); [done|].
    rewrite (stuck_queues sig a i l Hst Hs El) in Hr. by apply elem_of_nil in Hr.
  - destruct (wf_held _ _ Hw w _ _ Hp) as (t & Et & Ht); [done|by eauto|]. by rewrite (Hidle w t Et) in Ht.
  - destruct (wf_held _ _ Hw w _ _ Hp) as (t & Et & Ht); [done|by left|]. by rewrite (Hidle w t Et) in Ht.
  - destruct (wf_flushed _ _ Hw y r) as (w & t & Et & K); [by apply (wf_flushof _ _ Hw)|done|].
    rewrite (Hidle w t Et) in K. by destruct K as [?|[?|?]].
Qed.

(** ** What becomes of a request *)

(** The flush [f] came after the flush [r] of the same request. *)
Definition supersedes (ls : list label) (f r : rid) : Prop :=
  (r < f)%positive /\ exists c ftag rtag tag,
    request ls f = Some (c, Tflush, ftag, tag) /\ request ls r = Some (c, Tflush, rtag, tag).

(** The client was told, or asked not to be. *)
Definition settled (ls : list label) (es : list event) (r : rid) : Prop :=
  Ev_reply r ∈ es \/ Ev_rflush r ∈ es \/ exists f, cancels ls f r \/ supersedes ls f r.

(** The server will still send something for the request. *)
Definition pending (a : astate) (r : rid) : Prop :=
  (exists i, pl a r = Some (InQueue i)) \/
  (exists w t, aworkers a !! w = Some t /\ w_pc t = Busy r) \/
  (exists c pc, aconns a !! c = Some pc /\ reader_holds pc = Some r) \/
  exists y, fl a y = Some r.

(** No connection is closed and no operation is interrupted. *)
Definition steady (l : label) : bool :=
  match l with L_close _ | L_process _ true => false | _ => true end.

Definition sta (a : astate) (r : rid) : option Reqstate := a_state <$> areqs a !! r.

Lemma sta_upd a r f r' : (forall x, a_state (f x) = a_state x) -> sta (a_upd r f a) r' = sta a r'.
Proof.
  intros Hf. unfold sta. cbn. rewrite lookup_alter. case_decide; [|done]. subst.
  destruct (areqs a !! r'); cbn; [|done]. by rewrite Hf.
Qed.

Lemma sta_free a r r' s : sta (a_free r a) r' = Some s -> sta a r' = Some s.
Proof. unfold sta. rewrite areqs_free, lookup_delete. by case_decide. Qed.

Lemma sta_send e r a r' : sta (a_send e r a) r' = sta a r'.
Proof. unfold a_send. destruct (areqs a !! r); [|done]. by case_decide. Qed.

Lemma sta_kill sig r a r' : sta (a_kill sig r a) r' = sta a r'.
Proof.
  unfold a_kill. destruct sig; [|done]. destruct (areqs a !! r) as [x|]; [|done]. by destruct (a_place x).
Qed.

Lemma sta_flush_pools sig f c tag ps now b r s : forall a, a_flush_pools sig f c tag ps a = (now, b) ->
  sta b r = Some s -> sta a r = Some s.
Proof.
  induction ps as [|i ps IH]; intros a; cbn; [by intros [= _ <-]|].
  destruct (a_find _ _ _ (default [] (queues a !! i))); [intros [= _ <-]; unfold a_drop; by intros ?%sta_free|].
  destruct (a_find _ _ _ (default [] (works a !! i))) as [y|]; [|apply IH]. intros [= _ <-].
  unfold a_attach. rewrite sta_kill, sta_upd, sta_upd by done.
  destruct (areqs a !! y) as [x|]; [|done]. destruct (a_flush x); [apply sta_free|done].
Qed.

Lemma sta_place p r' a b r s : areqs b = alter (set_a_place p) r' (areqs a) -> sta b r = Some s ->
  sta a r = Some s.
Proof. intros E K. rewrite <- (sta_upd a r' (set_a_place p) r) by done. unfold sta in *. by rewrite E in K. Qed.

Lemma sta_step sig l a b r s : astep sig l a = Some b -> steady l = true -> sta b r = Some s ->
  sta a r = Some s \/ s = REQ_NORMAL.
Proof.
  intros E Hl K. destruct l; try done; astep_cases E; try (by left).
  - unfold sta in K. cbn in K. rewrite lookup_insert in K. case_decide; [right|by left]. cbn in K. congruence.
  - left. by eapply sta_flush_pools.
  - left. by eapply sta_flush_pools.
  - left. by eapply sta_place; [|exact K].
  - left. apply sta_free in K. by rewrite sta_send in K.
  - left. by eapply sta_place; [|exact K].
  - left. destruct interrupted; [done|]. unfold a_process in K.
    change (sta (a_send (Ev_reply r0) r0 (a_upd r0 (set_a_fid None) a)) r = Some s) in K.
    by rewrite sta_send, sta_upd in K.
  - left. by eapply sta_place; [|exact K].
  - left. cbn in K. change (sta (a_flushreply r0 a) r = Some s) in K. unfold a_flushreply in K.
    destruct (areqs a !! r0) as [x|]; [|done]. destruct (a_flush x); [|done].
    rewrite sta_upd in K by done. apply sta_free in K. by rewrite sta_send in K.
  - left. by apply (sta_free a r0).
Qed.

(** A flush that waits for a request names it. *)
Definition names_it (a : astate) (r f : rid) : Prop := exists c type tag old ftag,
  ky a r = Some (c, type, tag, old) /\ ky a f = Some (c, Tflush, ftag, tag).

Record calm (a : astate) : Prop := {
  ca_state r s : sta a r = Some s -> s = REQ_NORMAL;
  ca_flush r f : fl a r = Some f -> names_it a r f;
  ca_latest c f r : aconns a !! c = Some (Got f) -> cn a r = Some c -> (r <= f)%positive;
}.

(** What [np_flush] did. *)
Lemma flush_pools_cases sig f c tag ps now b : forall a, a_flush_pools sig f c tag ps a = (now, b) ->
  now = true /\ b = a \/
  (exists i r, now = true /\ b = a_drop i r a /\ r ∈ default [] (queues a !! i) /\ a_matches (areqs a) c tag r = true) \/
  (exists i r, now = false /\ b = a_attach sig f r a /\ r ∈ default [] (works a !! i) /\ a_matches (areqs a) c tag r = true).
Proof.
  induction ps as [|i ps IH]; intros a; cbn; [intros [= <- <-]; by left|].
  destruct (a_find _ _ _ (default [] (queues a !! i))) as [r|] eqn:Fq.
  - intros [= <- <-]. right. left. exists i, r. split; [done|]. split; [done|]. by apply a_find_Some.
  - destruct (a_find _ _ _ (default [] (works a !! i))) as [r|] eqn:Fw; [|apply IH].
    intros [= <- <-]. do 2 right. exists i, r. split; [done|]. split; [done|]. by apply a_find_Some.
Qed.

Lemma ky_back sig l a b r : astep sig l a = Some b -> is_Some (pl a r) -> is_Some (pl b r) -> wf a ->
  ky b r = ky a r.
Proof.
  intros E Ha [k Hk]%place_ky Hw. destruct (ky_step _ _ _ _ _ _ E Hk) as [K|[-> _]]; [congruence|].
  pose proof (wf_fresh _ _ Hw _ Ha). lia.
Qed.

Lemma names_it_step sig l a b r f : astep sig l a = Some b -> wf a -> wf b -> fl a r = Some f -> fl b r = Some f ->
  names_it a r f -> names_it b r f.
Proof.
  intros E Hw Hwb Ea Eb. unfold names_it.
  rewrite (ky_back _ _ _ _ r E), (ky_back _ _ _ _ f E); try done.
  - by destruct (wf_flush _ _ Hw _ _ Ea) as [_ ->].
  - by destruct (wf_flush _ _ Hwb _ _ Eb) as [_ ->].
  - by eapply fl_is_some.
  - by eapply fl_is_some.
Qed.

Lemma names_new sig a b c i f r : astep sig (L_dispatch c i) a = Some b -> wf a -> wf b ->
  aconns a !! c = Some (Got f) -> fl b r = Some f -> names_it b r f.
Proof.
  intros E Hw Hwb Ec Eb. destruct (wf_reader _ _ Hw _ _ _ Ec eq_refl) as (_ & Hpf & _).
  assert (Hna : forall y, fl a y <> Some f).
  { intros y Ey. destruct (wf_flush _ _ Hw _ _ Ey) as [_ Hp]. congruence. }
  assert (Kf : ky b f = ky a f).
  { eapply ky_back; [done|by rewrite Hpf| |done]. by destruct (wf_flush _ _ Hwb _ _ Eb) as [_ ->]. }
  pose proof Hpf as (x & Ex & _)%pl_lookup. pose proof E as E'.
  unfold astep, astep_reader in E. rewrite Ec, Ex in E. destruct (a_type x =? Tflush) eqn:Ht.
  2: { case_match; [|done]. injection E as <-. rewrite fl_reader, fl_place in Eb. by destruct (Hna r). }
  destruct (a_flush_pools _ _ _ _ _ _) as [now a'] eqn:Ep in E. injection E as <-. rewrite fl_reader in Eb.
  destruct (flush_pools_cases _ _ _ _ _ _ _ _ Ep) as [(_ & ->)|[(j & y & _ & -> & _)|(j & y & _ & -> & Hy & Hm)]].
  - by destruct (Hna r).
  - apply fl_free_some in Eb. by destruct (Hna r).
  - destruct (fl_attach _ _ _ _ _ _ Eb) as [K|[-> _]]; [by destruct (Hna r)|].
    destruct (matches_ky _ _ _ _ Hm) as (type & old & Ky).
    exists (a_conn x), type, (a_oldtag x), old, (a_tag x). rewrite Kf. split.
    + rewrite (ky_back _ _ _ _ y E'); [done| |by eapply fl_is_some|done].
      destruct (default_lookup _ _ _ Hy) as (l & El & Hl). eapply listed_place; [done|by right|done].
    + unfold ky. rewrite Ex. cbn. unfold key. apply Z.eqb_eq in Ht. by rewrite Ht.
Qed.

Lemma got_step sig l a b c f : astep sig l a = Some b -> aconns b !! c = Some (Got f) ->
  aconns a !! c = Some (Got f) \/ f = afresh a.
Proof.
  intros E K.
  assert (Hins : forall (pc : reader) (m : gmap cid reader) (c' : cid), pc <> Got f ->
    <[c' := pc]> m !! c = Some (Got f) -> m !! c = Some (Got f)).
  { intros pc m c' Hpc. rewrite lookup_insert. case_decide; [congruence|done]. }
  destruct l; astep_cases E; cbn in K;
    repeat match goal with H : a_flush_pools _ _ _ _ _ _ = _ |- _ =>
      rewrite (sh_conns _ _ (shrinks_flush_pools _ _ _ _ _ _ _ _ H)) in K; clear H end;
    rewrite ?free_conns, ?send_conns, ?conn_flush_conns in K;
    try (by left; exact K); try (by left; apply Hins in K).
  - rewrite lookup_insert in K. case_decide; [|by left]. right. congruence.
  - left. by apply lookup_delete_Some in K as [_ K].
  - left. by destruct interrupted.
  - left. by rewrite (proj1 (proj2 (proj2 (flushreply_lists _ a)))) in K.
Qed.

Lemma latest_step sig l a b c f r : astep sig l a = Some b -> wf a -> wf b -> calm a ->
  aconns b !! c = Some (Got f) -> cn b r = Some c -> (r <= f)%positive.
Proof.
  intros E Hw Hwb Hc Ef Hr. assert (Hp : is_Some (pl b r)).
  { unfold cn, pl in *. apply fmap_Some in Hr as (x & -> & _). done. }
  pose proof (wf_fresh _ _ Hwb _ Hp) as Hlt. pose proof (fresh_step _ _ _ _ E) as Hf.
  destruct (got_step _ _ _ _ _ _ E Ef) as [Ef'| ->]; [|rewrite Hf in Hlt; case_decide; lia].
  destruct (decide (r = afresh a)) as [->|Hne].
  - destruct l; try (rewrite Hf, decide_False in Hlt by (by intros [? ?]); lia). astep_cases E.
    unfold cn in Hr. cbn in Hr, Ef. rewrite lookup_insert_eq in Hr. cbn in Hr. injection Hr as ->.
    rewrite lookup_insert_eq in Ef. injection Ef as <-. lia.
  - apply (ca_latest _ Hc c); [done|]. by rewrite <- (cn_step _ _ _ _ _ E Hp Hne).
Qed.

Lemma calm_step sig l a b : astep sig l a = Some b -> steady l = true -> wf a -> calm a -> calm b.
Proof.
  intros E Hl Hw Hc. pose proof (wf_astep _ _ _ _ E Hw) as Hwb. split.
  - intros r s K. destruct (sta_step _ _ _ _ _ _ E Hl K); [by eapply ca_state|done].
  - intros r f Eb. destruct (fl_step _ _ _ _ _ _ E Hw Eb) as [Ea|(c & i & -> & Ec)];
      [|by eapply names_new]. by eapply names_it_step; [..|apply (ca_flush _ Hc)].
  - intros c f r. by eapply latest_step.
Qed.

Lemma calm_start pools wpools : calm (astart pools wpools).
Proof. done. Qed.

Lemma pending_frame a b r :
  (forall i, pl a r = Some (InQueue i) -> pl b r = Some (InQueue i)) ->
  (forall w t, aworkers a !! w = Some t -> w_pc t = Busy r -> aworkers b !! w = Some t) ->
  (forall c pc, aconns a !! c = Some pc -> reader_holds pc = Some r -> aconns b !! c = Some pc) ->
  (forall y, fl a y = Some r -> fl b y = Some r) -> pending a r -> pending b r.
Proof.
  intros H1 H2 H3 H4 [[i K]|[(w & t & K & Ht)|[(c & pc & K & Hpc)|[y K]]]].
  - left. eauto.
  - right; left. eauto.
  - right; right; left. eauto.
  - do 3 right. eauto.
Qed.

(** The worker [w] has moved on. *)
Lemma worker_frame a w i pc pc' r : aworkers a !! w = Some {| w_tpool := i; w_pc := pc |} -> pc <> Busy r ->
  forall w' t, aworkers a !! w' = Some t -> w_pc t = Busy r ->
    <[w := {| w_tpool := i; w_pc := pc' |}]> (aworkers a) !! w' = Some t.
Proof.
  intros Et Hne w' t Et' Ht. rewrite list_lookup_insert_ne; [done|]. intros ->. rewrite Et in Et'.
  injection Et' as <-. done.
Qed.

(** The read thread of [c] has moved on. *)
Lemma reader_frame (a : astate) c pc pc' r : aconns a !! c = pc -> (forall q, pc = Some q -> reader_holds q <> Some r) ->
  forall c' q, aconns a !! c' = Some q -> reader_holds q = Some r ->
    <[c := pc']> (aconns a) !! c' = Some q.
Proof.
  intros Ec Hne c' q Ec' Hq. rewrite lookup_insert_ne; [done|]. intros ->. by apply (Hne q); [congruence|].
Qed.

Lemma pending_place a r : wf a -> pending a r -> is_Some (pl a r).
Proof.
  intros Hw [[i ->]|[(w & t & K & Ht)|[(c & pc & K & Hpc)|[y K]]]]; [done|..].
  - destruct (wf_worker _ _ Hw w t r (InWork (w_tpool t) w)) as [_ ->]; [done|by rewrite Ht|done].
  - by destruct (wf_reader _ _ Hw _ _ _ K Hpc) as (_ & -> & _).
  - by destruct (wf_flush _ _ Hw _ _ K) as [_ ->].
Qed.

(** Freeing a request that has no flush leaves the others pending. *)
Lemma pending_free a z r : fl a z = None -> r <> z -> pending a r -> pending (a_free z a) r.
Proof.
  intros Hz Hne. apply pending_frame.
  - intros i. by rewrite pl_free, decide_False.
  - intros w t. by rewrite free_workers.
  - intros c pc. by rewrite free_conns.
  - intros y Ey. rewrite fl_free, decide_False; [done|]. congruence.
Qed.

Lemma pending_send e z a r : pending a r -> pending (a_send e z a) r.
Proof. unfold a_send. destruct (areqs a !! z); [|done]. by case_decide. Qed.

Lemma pending_plain z f a r : plain f -> pending a r -> pending (a_upd z f a) r.
Proof.
  intros Hf. apply pending_frame; [|done|done|].
  - intros i. by rewrite pl_plain.
  - intros y. by rewrite fl_plain.
Qed.

Lemma sent_normal e z a x : areqs a !! z = Some x -> a_state x = REQ_NORMAL -> e ∈ aout (a_send e z a).
Proof. intros Ex Hx. unfold a_send. rewrite Ex, decide_True by done. cbn. set_solver. Qed.

Lemma normal_send e z a : calm a -> is_Some (pl a z) -> e ∈ aout (a_send e z a).
Proof.
  intros Hc [p (x & Ex & _)%pl_lookup]. eapply sent_normal; [done|]. apply (ca_state _ Hc z).
  unfold sta. by rewrite Ex.
Qed.

Lemma out_free e z a : e ∈ aout a -> e ∈ aout (a_free z a).
Proof. unfold a_free. destruct (areqs a !! z); [|done]. cbn. intros. apply elem_of_app. by right. Qed.

Lemma pending_kill sig z a r : pending a r -> pending (a_kill sig z a) r.
Proof.
  unfold a_kill. destruct sig; [|done]. destruct (areqs a !! z) as [x|]; [|done]. by destruct (a_place x).
Qed.

Lemma pending_attach sig a c f y r : wf a -> aconns a !! c = Some (Got f) -> is_Some (pl a y) -> r <> f ->
  fl a y <> Some r -> pending a r -> pending (a_attach sig f y a) r.
Proof.
  intros Hw Ec [p Hp] Hf Hy Hr. unfold a_attach. apply pending_kill.
  pose proof Hp as (x & Ex & _)%pl_lookup. pose proof (fl_lookup a y x Ex) as Hx. rewrite Ex.
  set (a' := match a_flush x with Some f0 => a_free f0 a | None => a end).
  assert (Ha : pending a' r).
  { unfold a'. destruct (a_flush x) as [f0|] eqn:E0; [|done].
    apply pending_free; [|congruence|done]. destruct (wf_flush _ _ Hw y f0) as [_ Hp0]; [done|].
    by eapply (fl_none a f0). }
  assert (Hya : fl a' y <> Some r).
  { unfold a'. destruct (a_flush x) as [f0|]; [|done]. by intros ?%fl_free_some. }
  revert Ha. apply pending_frame; [|done|done|].
  - intros i. by rewrite pl_upd_ne, pl_flush.
  - intros z. rewrite fl_place. intros Ez. unfold fl in *. cbn. rewrite lookup_alter_ne; [done|]. congruence.
Qed.

Lemma fl_attached sig a c f y : wf a -> aconns a !! c = Some (Got f) -> is_Some (pl a y) ->
  (forall z, pl a y <> Some (FlushOf z)) -> fl (a_attach sig f y a) y = Some f.
Proof.
  intros Hw Ec [p Hp] Hz. unfold a_attach. rewrite fl_kill, fl_place.
  pose proof Hp as (x & Ex & _)%pl_lookup. rewrite Ex. pose proof (fl_lookup a y x Ex) as Hx.
  rewrite fl_flush; [by rewrite decide_True|]. destruct (a_flush x) as [f0|] eqn:E0; [|by rewrite Hp].
  rewrite pl_free, decide_False, Hp; [done|]. intros ->.
  destruct (wf_flush _ _ Hw _ _ Hx) as [_ K]. by apply (Hz f0).
Qed.

(** A flush settles what it drops or replaces. *)
Lemma dispatch_flush sig ls a b c f r now a' x :
  knows ls a -> wf a -> ordered a -> calm a -> aconns a !! c = Some (Got f) -> areqs a !! f = Some x ->
  a_type x = Tflush -> a_flush_pools sig f (a_conn x) (a_oldtag x) (seq 0 (length (queues a))) a = (now, a') ->
  b = a_reader c (if now : bool then Flushed f else Reading) a' -> pending a r ->
  pending b r \/ exists g, cancels ls g r \/ supersedes ls g r.
Proof.
  intros Hk Hw Ho Hc Ec Ex Hty Ep -> Hr.
  destruct (wf_reader _ _ Hw _ _ _ Ec eq_refl) as (_ & Hpf & Hcn).
  assert (Hxc : a_conn x = c) by (unfold cn in Hcn; rewrite Ex in Hcn; by injection Hcn).
  assert (Rf : request ls f = Some (c, Tflush, a_tag x, a_oldtag x)).
  { apply (kn_ky _ _ Hk). unfold ky. rewrite Ex. cbn. unfold key. by rewrite Hxc, Hty. }
  assert (Hcs : aconns a' = aconns a) by (by eapply sh_conns, shrinks_flush_pools).
  assert (Hread : forall pc', r <> f -> pending a' r -> pending (a_reader c pc' a') r).
  { intros pc' Hne. apply pending_frame; [done|done| |done]. apply (reader_frame a' c (Some (Got f))).
    - by rewrite Hcs.
    - intros q [= <-]. cbn. congruence. }
  destruct (flush_pools_cases _ _ _ _ _ _ _ _ Ep) as [(-> & ->)|[(j & y & -> & -> & Hy & Hm)|(j & y & -> & -> & Hy & Hm)]].
  - left. destruct (decide (r = f)) as [->|Hne]; [|by apply Hread].
    right; right; left. exists c, (Flushed f). split; [cbn; by rewrite lookup_insert_eq|done].
  - destruct (default_lookup _ _ _ Hy) as (l & El & Hl).
    destruct (decide (r = f)) as [->|Hne];
      [left; right; right; left; exists c, (Flushed f); split; [cbn; by rewrite lookup_insert_eq|done]|].
    destruct (decide (r = y)) as [->|Hny].
    + right. exists f. left. destruct (matches_ky _ _ _ _ Hm) as (type & old & Ky). split.
      * apply (o_got _ Ho c f j l); [done|by left|done|]. rewrite cn_ky, Ky. cbn. by rewrite Hxc.
      * exists c, (a_tag x), (a_oldtag x), type, old. split; [done|]. rewrite Hxc in Ky. by apply (kn_ky _ _ Hk).
    + left. apply Hread; [done|]. unfold a_drop. apply pending_free; [|done|done].
      change (fl a y = None). eapply fl_none; [by eapply (wf_queue _ _ Hw)|done|done].
  - destruct (default_lookup _ _ _ Hy) as (l & El & Hl). destruct (wf_work _ _ Hw _ _ _ El Hl) as (_ & w & Hpy).
    destruct (decide (r = f)) as [->|Hne].
    + left. do 3 right. exists y. rewrite fl_reader. pose proof (fl_attached sig a c f y Hw Ec) as K.
      rewrite Hpy in K. by apply K.
    + destruct (decide (fl a y = Some r)) as [Ey|Ey].
      * right. exists f. right. destruct (ca_flush _ Hc _ _ Ey) as (c1 & type & tag & old & ftag & K1 & K2).
        destruct (matches_ky _ _ _ _ Hm) as (type' & old' & K3). rewrite K1 in K3. injection K3 as -> -> -> ->.
        split; [|exists c, (a_tag x), ftag, (a_oldtag x); split; [done|]; rewrite Hxc in K2; by apply (kn_ky _ _ Hk)].
        assert (Hrf : (r <= f)%positive) by (apply (ca_latest _ Hc c); [done|]; rewrite cn_ky, K2; cbn; by rewrite Hxc).
        lia.
      * left. apply Hread; [done|]. by eapply pending_attach; [..|done].
Qed.

Lemma supersedes_old ls l f r : supersedes ls f r -> supersedes (ls ++ [l]) f r.
Proof.
  intros (Hlt & c & ftag & rtag & tag & Ef & Er). split; [done|].
  exists c, ftag, rtag, tag. split; by apply request_old.
Qed.

Lemma settled_old ls l es es' r : (forall e, e ∈ es -> e ∈ es') -> settled ls es r -> settled (ls ++ [l]) es' r.
Proof.
  intros Hes [?|[?|(f & [?|?])]]; [left; auto|right; left; auto|..]; do 2 right; exists f.
  - left. by apply cancels_old.
  - right. by apply supersedes_old.
Qed.

Lemma out_mono sig l a b e : astep sig l a = Some b -> e ∈ aout a -> e ∈ aout b.
Proof. intros E He. destruct (out_step _ _ _ _ E) as (es & -> & _). apply elem_of_app. by right. Qed.

(** The read thread of [c], which held [z], goes on after [z] is freed. *)
Lemma pending_rflush a c z r : wf a -> aconns a !! c = Some (Flushed z) -> r <> z -> pending a r ->
  pending (a_reader c Reading (a_free z (a_send (Ev_rflush z) z a))) r.
Proof.
  intros Hw Ec Hne Hr. destruct (wf_reader _ _ Hw _ _ _ Ec eq_refl) as (_ & Hp & _).
  assert (K : pending (a_free z (a_send (Ev_rflush z) z a)) r).
  { apply pending_free; [|done|by apply pending_send]. rewrite fl_send. by eapply fl_none. }
  revert K. apply pending_frame; [done|done| |done]. apply (reader_frame _ c (Some (Flushed z))).
  - by rewrite free_conns, send_conns.
  - intros q [= <-]. cbn. congruence.
Qed.

Lemma flushreply_other a w i z f r : wf a -> aworkers a !! w = Some {| w_tpool := i; w_pc := Off z |} ->
  fl a z = Some f -> r <> f -> pending a r -> pending (a_flushreply z a) r.
Proof.
  intros Hw Et Ef Hne Hr. unfold a_flushreply. pose proof Ef as Ef'. unfold fl in Ef.
  destruct (areqs a !! z) as [x|] eqn:Ex; [|done]. cbn in Ef. rewrite Ef.
  assert (K : pending (a_free f (a_send (Ev_rflush f) f a)) r).
  { apply pending_free; [|done|by apply pending_send]. rewrite fl_send.
    destruct (wf_flush _ _ Hw _ _ Ef') as [_ Hp]. by eapply fl_none. }
  assert (Hz : fl (a_free f (a_send (Ev_rflush f) f a)) z <> Some r).
  { intros Ez%fl_free_some. rewrite fl_send in Ez. congruence. }
  revert K. apply pending_frame; [|done|done|].
  - intros j. by rewrite pl_flush.
  - intros y Ey. unfold fl in *. cbn. rewrite lookup_alter_ne; [done|]. congruence.
Qed.

Lemma pending_worker a b w i pc pc' r : aworkers a !! w = Some {| w_tpool := i; w_pc := pc |} -> pc <> Busy r ->
  aworkers b = aworkers a -> pending b r -> pending (a_worker w i pc' b) r.
Proof.
  intros Et Hne Eb. apply pending_frame; [done| |done|done]. apply (worker_frame b w i pc); [|done].
  by rewrite Eb.
Qed.

(** A request that moves on was somewhere else. *)
Lemma pending_moved a z p r : r <> z -> pending a r -> pending (a_upd z (set_a_place p) a) r.
Proof.
  intros Hne. apply pending_frame; [|done|done|].
  - intros i. by rewrite pl_upd_ne.
  - intros y. by rewrite fl_place.
Qed.

Lemma pending_unwork a z p r i : pl a z = Some (InWork i p) -> pending a r ->
  pending (a_upd z (set_a_place (AtWorker p)) a) r.
Proof.
  intros Hz. apply pending_frame; [|done|done|].
  - intros j Hj. rewrite pl_upd_ne; [done|]. congruence.
  - intros y. by rewrite fl_place.
Qed.

Lemma pending_process a w i z r : wf a -> calm a -> aworkers a !! w = Some {| w_tpool := i; w_pc := Busy z |} ->
  pending a r -> pending (a_process w i z false a) r \/ Ev_reply r ∈ aout (a_process w i z false a).
Proof.
  intros Hw Hc Et Hr. unfold a_process. set (b := a_upd z (set_a_fid None) a).
  assert (Hb : pending b r) by (by apply pending_plain; [apply plain_fid|]).
  destruct (decide (r = z)) as [->|Hne].
  - right. destruct (wf_worker _ _ Hw w _ z (InWork i w) Et eq_refl) as [_ (x & Ex & _)%pl_lookup].
    eapply (sent_normal _ z b (set_a_fid None x)); [unfold b; cbn; by rewrite lookup_alter_eq, Ex|].
    apply (ca_state _ Hc z). unfold sta. by rewrite Ex.
  - left. eapply (pending_worker a); [done|congruence| |by apply pending_send].
    by destruct (send_queues (Ev_reply z) z b) as (_ & _ & ->).
Qed.

Lemma pending_flushreply a w i z r : wf a -> calm a -> aworkers a !! w = Some {| w_tpool := i; w_pc := Off z |} ->
  pending a r -> pending (a_worker w i (Last z) (a_flushreply z a)) r \/ Ev_rflush r ∈ aout (a_flushreply z a).
Proof.
  intros Hw Hc Et Hr. destruct (fl a z) as [f|] eqn:Ef.
  - destruct (decide (r = f)) as [->|Hne].
    + right. unfold a_flushreply. unfold fl in Ef. destruct (areqs a !! z) as [x|] eqn:Ex; [|done]. cbn in Ef.
      rewrite Ef. cbn. apply out_free, normal_send; [done|].
      destruct (wf_flush _ _ Hw z f) as [_ ->]; [unfold fl; by rewrite Ex|done].
    + left. eapply (pending_worker a); [done|done| |by eapply flushreply_other].
      apply (proj2 (proj2 (proj2 (flushreply_lists z a)))).
  - left. assert (Hs : a_flushreply z a = a).
    { unfold a_flushreply. unfold fl in Ef. destruct (areqs a !! z) as [x|]; [|done]. cbn in Ef. by rewrite Ef. }
    rewrite Hs. by eapply (pending_worker a).
Qed.

Lemma pending_recv a c type tag oldtag fid r : wf a -> aconns a !! c = Some Reading -> pending a r ->
  pending (a_recv c type tag oldtag fid a) r.
Proof.
  intros Hw Ec Hr. pose proof (wf_fresh _ _ Hw _ (pending_place _ _ Hw Hr)) as Hlt. revert Hr.
  apply pending_frame; [|done| |].
  - intros i. unfold pl. cbn. by rewrite lookup_insert_ne by lia.
  - apply (reader_frame a c (Some Reading)); [done|]. by intros q [= <-].
  - intros y Ey. unfold fl. cbn. rewrite lookup_insert_ne; [done|]. intros <-.
    pose proof (wf_fresh _ _ Hw _ (fl_is_some _ _ _ Ey)). lia.
Qed.

Lemma pending_enqueue a c z i r : wf a -> aconns a !! c = Some (Got z) -> pending a r ->
  pending (a_reader c Reading (a_upd z (set_a_place (InQueue i))
    (set_queues (alter (fun l => l ++ [z]) i (queues a)) a))) r.
Proof.
  intros Hw Ec Hr. destruct (wf_reader _ _ Hw _ _ _ Ec eq_refl) as (_ & Hp & _).
  destruct (decide (r = z)) as [->|Hne].
  - left. exists i. rewrite pl_reader, pl_place; [by rewrite decide_True|]. by rewrite pl_queues, Hp.
  - revert Hr. apply pending_frame; [|done| |].
    + intros j Hj. rewrite pl_reader, pl_upd_ne by done. done.
    + apply (reader_frame a c (Some (Got z))); [done|]. intros q [= <-]. cbn. congruence.
    + intros y Ey. rewrite fl_reader, fl_place. done.
Qed.

Lemma pending_take a w i z l r : wf a -> queues a !! i = Some (z :: l) ->
  aworkers a !! w = Some {| w_tpool := i; w_pc := Idle |} -> pending a r -> pending (a_take w i z l a) r.
Proof.
  intros Hw Eq Et Hr. unfold a_take. destruct (decide (r = z)) as [->|Hne].
  - right; left. exists w, {| w_tpool := i; w_pc := Busy z |}. cbn.
    rewrite list_lookup_insert_eq by (by eapply lookup_lt_Some). done.
  - eapply (pending_worker a); [done|done|done|]. by apply (pending_moved (set_works _ (set_queues _ a))).
Qed.

Lemma last_not_pending a w i z : wf a -> aworkers a !! w = Some {| w_tpool := i; w_pc := Last z |} -> ~ pending a z.
Proof.
  intros Hw Et0. destruct (wf_worker _ _ Hw w _ z (AtWorker w) Et0 eq_refl) as [_ Hp].
  intros [[j Hj]|[(w' & t & Et & Ht)|[(c & pc & Ec & Hpc)|[y Ey]]]].
  - congruence.
  - destruct (wf_worker _ _ Hw w' t z (InWork (w_tpool t) w')) as [_ K]; [done|by rewrite Ht|congruence].
  - destruct (wf_reader _ _ Hw _ _ _ Ec Hpc) as (_ & K & _). congruence.
  - destruct (wf_flush _ _ Hw _ _ Ey) as [_ K]. congruence.
Qed.

(** What the server owes stays owed until it is settled. *)
Lemma pending_step sig ls l a b r : knows ls a -> wf a -> ordered a -> calm a -> steady l = true ->
  astep sig l a = Some b -> pending a r -> pending b r \/ settled ls (aout b) r.
Proof.
  intros Hk Hw Ho Hc Hl E Hr. destruct l; try done; astep_cases E.
  - left. revert Hr. apply pending_frame; [done|done| |done]. by apply (reader_frame a c None).
  - left. by apply pending_recv.
  - edestruct (dispatch_flush sig ls a) as [K|K]; [exact Hk|exact Hw|exact Ho|exact Hc|eassumption|eassumption|
      by apply Z.eqb_eq|eassumption|reflexivity|exact Hr|by left|right; by do 2 right].
  - edestruct (dispatch_flush sig ls a) as [K|K]; [exact Hk|exact Hw|exact Ho|exact Hc|eassumption|eassumption|
      by apply Z.eqb_eq|eassumption|reflexivity|exact Hr|by left|right; by do 2 right].
  - left. by apply pending_enqueue.
  - match goal with K : aconns a !! c = Some (Flushed ?z) |- _ => destruct (decide (r = z)) as [->|Hne] end;
      [|left; by apply pending_rflush].
    right. right; left. apply out_free, normal_send; [done|by apply pending_place].
  - left. revert Hr. apply pending_frame; [done|done| |done]. intros c' q Ec' Hq. cbn.
    rewrite lookup_delete_ne; [done|]. intros ->. by simplify_eq.
  - left. by apply pending_take.
  - destruct interrupted; [done|]. match goal with K : aworkers a !! w = Some _ |- _ =>
      destruct (pending_process _ _ _ _ _ Hw Hc K Hr) as [?|?] end; [by left|right; by left].
  - left. match goal with K : aworkers a !! w = Some _ |- _ =>
      destruct (wf_worker _ _ Hw w _ _ _ K eq_refl) as [_ Hp]; eapply (pending_worker a); [exact K|done|done|] end.
    by eapply (pending_unwork (set_works _ a)).
  - match goal with K : aworkers a !! w = Some _ |- _ =>
      destruct (pending_flushreply _ _ _ _ _ Hw Hc K Hr) as [?|?] end; [by left|right; by right; left].
  - left. match goal with K : aworkers a !! w = Some {| w_tpool := _; w_pc := Last ?z |} |- _ =>
      destruct (wf_worker _ _ Hw w _ _ _ K eq_refl) as [_ Hp]; pose proof (fl_last _ _ _ _ K Hw) as Hf;
      eapply (pending_worker a); [exact K|done|apply free_workers|]; apply (pending_free a z); [done| |done] end.
    intros ->. match goal with K : aworkers a !! w = Some _ |- _ => by apply (last_not_pending _ _ _ _ Hw K) end.
Qed.

Definition accounted (ls : list label) (a : astate) : Prop :=
  forall r k, request ls r = Some k -> pending a r \/ settled ls (aout a) r.

Lemma accounted_step sig ls l a b : knows ls a -> wf a -> ordered a -> calm a -> steady l = true ->
  astep sig l a = Some b -> accounted ls a -> accounted (ls ++ [l]) b.
Proof.
  intros Hk Hw Ho Hc Hl E Ha r k Hr. destruct (request_step _ _ _ _ _ Hk Hr) as [Hr'|[Hn ->]].
  - destruct (Ha r k Hr') as [Hp|Hs].
    + destruct (pending_step _ _ _ _ _ _ Hk Hw Ho Hc Hl E Hp) as [?|?]; [by left|right]. by eapply settled_old.
    + right. eapply settled_old; [|done]. intros e. by eapply out_mono.
  - left. destruct l; try done. astep_cases E. right; right; left. exists c, (Got (afresh a)).
    split; [cbn; by rewrite lookup_insert_eq|done].
Qed.

Lemma arun_account sig pools wpools ls a : pools_ok pools wpools -> Forall (fun l => steady l = true) ls ->
  arun sig (astart pools wpools) ls a -> calm a /\ knows ls a /\ accounted ls a.
Proof.
  intros Hp Hls Hr. induction Hr as [|ls a l b Hr IH E].
  - split; [apply calm_start|]. split; [apply knows_start|]. intros r k K. by unfold request in K.
  - apply Forall_app in Hls as [Hls Hl]. apply Forall_cons in Hl as [Hl _].
    destruct (IH Hls) as (Hc & Hk & Ha). pose proof (arun_wf _ _ _ _ _ Hp Hr). pose proof (arun_ordered _ _ _ _ _ Hp Hr).
    split; [by eapply calm_step|]. split; [by eapply knows_step|by eapply accounted_step].
Qed.

(** ** The theorems *)

Definition load (st : qstate) : nat :=
  (readers_load (c_reader <$> qconns st) +
   6 * sum_list_with (fun i => length (queue_of st i)) (seq 0 (length (tpools st))) +
   sum_list_with worker_load (workers st))%nat.

Lemma sum_ext {A} (f g : A -> nat) l : (forall x, x ∈ l -> f x = g x) -> sum_list_with f l = sum_list_with g l.
Proof.
  induction l as [|x l IH]; intros Hf; [done|]. cbn. rewrite Hf, IH; [done| |set_solver].
  intros y Hy. apply Hf. set_solver.
Qed.

Lemma sum_lookup (ls : list (list rid)) n :
  sum_list_with (fun i => length (default [] ((replicate n [] ++ ls) !! i))) (seq n (length ls)) =
  sum_list_with length ls.
Proof.
  revert n. induction ls as [|l ls IH]; intros n; cbn; [done|].
  rewrite lookup_app_r by (by rewrite length_replicate). rewrite length_replicate, Nat.sub_diag. cbn. f_equal.
  rewrite <- (IH (S n)). apply sum_ext. intros i [Hi _]%elem_of_seq.
  rewrite !lookup_app_r by (rewrite length_replicate; lia). rewrite !length_replicate.
  replace (i - n)%nat with (S (i - S n)) by lia. done.
Qed.

Lemma load_sim st a : sim st a -> wf a -> load st = aload a.
Proof.
  intros Hs Hw. unfold load, aload. rewrite (sim_workers _ _ Hs), (sim_len _ _ Hs). f_equal. f_equal; [f_equal|].
  - apply map_eq. intros c. rewrite lookup_fmap, (sim_conns _ _ Hs). by destruct (aconns a !! c).
  - f_equal. rewrite <- (sum_lookup (queues a) 0). apply sum_ext. intros i _.
    by rewrite (queue_of_sim st a i Hs Hw).
Qed.

(** C24: The server's own steps end.  From any state that it can reach, each
    step of a read thread or worker that needs no client uses up some of
    [load], which is at most seven for a request; so after a number of steps
    that is known beforehand it waits for its clients. *)
Theorem server_comes_to_rest sig pools wpools ls st ls' st' : pools_ok pools wpools ->
  run sig (np_srv_start pools wpools) ls st -> run sig st ls' st' ->
  Forall (fun l => internal l = true) ls' -> (length ls' + load st' <= load st)%nat.
Proof.
  intros Hp Hr Hr'. destruct (run_arun _ _ _ _ _ Hp Hr) as (a & _ & Hs & Hw).
  enough (K : Forall (fun l => internal l = true) ls' -> exists b, sim st' b /\ wf b /\
    (length ls' + aload b <= aload a)%nat).
  { intros Hl. destruct (K Hl) as (b & Hsb & Hwb & Hle). by rewrite (load_sim st a), (load_sim st' b). }
  induction Hr' as [|ls' st1 l st' _ IH E]; [by exists a|]. intros [Hl [Hi _]%Forall_cons]%Forall_app.
  destruct (IH Hl) as (b & Hsb & Hwb & Hle). destruct (sim_step sig l st1 b Hsb Hwb) as (o & E' & Hag).
  rewrite E in E'. injection E' as <-. cbn in Hag. destruct (astep sig l b) as [d|] eqn:Eb; [|done].
  exists d. split; [done|]. split; [by eapply wf_astep|]. pose proof (load_step _ _ _ _ Eb Hi).
  rewrite length_app. cbn. lia.
Qed.

Lemma arun_shape sig pools wpools ls a : arun sig (astart pools wpools) ls a ->
  length (queues a) = pools /\ w_tpool <$> aworkers a = wpools.
Proof.
  induction 1 as [|ls a l b _ [IH1 IH2] E].
  - split; [apply length_replicate|]. cbn. rewrite <- list_fmap_compose. apply list_fmap_id.
  - by rewrite (len_step _ _ _ _ E), (tpools_step _ _ _ _ E).
Qed.

(** C23: No request is lost.  Take a server with a worker in every pool, no
    closed connection and no interrupted operation.  When no thread has
    anything left to do, no request is held in memory, and every request
    received was replied to, or is a Tflush with its Rflush, or a later Tflush
    cancelled or replaced it. *)
Theorem requests_answered sig pools wpools ls st : pools_ok pools wpools -> (0 < pools)%nat ->
  staffed pools wpools -> run sig (np_srv_start pools wpools) ls st ->
  Forall (fun l => steady l = true) ls -> (forall l, internal l = true -> exec sig l st = Ret None) ->
  reqs st = ∅ /\ forall r k, request ls r = Some k -> settled ls (out st) r.
Proof.
  intros Hp Hpos Hst Hr Hls Hq. destruct (run_arun _ _ _ _ _ Hp Hr) as (a & Ha & Hs & Hw).
  destruct (arun_shape _ _ _ _ _ Ha) as [Hlen Hts].
  assert (Hstuck : stuck sig a).
  { intros l Hl. destruct (sim_step sig l st a Hs Hw) as (o & E & Hag). rewrite (Hq l Hl) in E.
    injection E as <-. cbn in Hag. by destruct (astep sig l a). }
  assert (He : areqs a = ∅) by (eapply stuck_empty; rewrite ?Hlen, ?Hts; done).
  destruct (arun_account _ _ _ _ _ Hp Hls Ha) as (_ & _ & Hacc). split.
  - pose proof (sim_reqs _ _ Hs) as K. rewrite He, fmap_empty in K. by apply fmap_empty_inv in K.
  - intros r k Ek. rewrite (sim_out _ _ Hs). destruct (Hacc r k Ek) as [Hpend|?]; [|done].
    destruct (pending_place _ _ Hw Hpend) as [p Hpl]. unfold pl in Hpl. by rewrite He, lookup_empty in Hpl.
Qed.

(** ** At rest *)

Definition idle_reader (k : Npconn) : bool := match c_reader k with Reading | Closing => true | _ => false end.
Definition idle_worker (st : qstate) (t : Npwthread) : bool :=
  match w_pc t, tpools st !! w_tpool t with
  | Idle, Some p => match reqs_first p with None => true | Some _ => false end
  | _, _ => false
  end.
Definition at_rest (st : qstate) : bool :=
  bool_decide (map_Forall (fun _ k => idle_reader k = true) (qconns st)) &&
  forallb (idle_worker st) (workers st).

Lemma at_rest_stuck sig st : at_rest st = true -> forall l, internal l = true -> exec sig l st = Ret None.
Proof.
  intros [Hc%bool_decide_eq_true Hw]%andb_true_iff l Hl. rewrite forallb_forall in Hw.
  assert (Hr : forall c l, internal l = true -> exec_reader sig c l st = Ret None).
  { intros c l' Hl'. unfold exec_reader. destruct (qconns st !! c) as [k|] eqn:Ek; [|by destruct l'].
    specialize (Hc c k Ek). cbn in Hc. unfold idle_reader in Hc. by destruct l', (c_reader k). }
  assert (Hk : forall w l, exec_worker w l st = Ret None).
  { intros w l'. unfold exec_worker. destruct (workers st !! w) as [t|] eqn:Et; [|done].
    specialize (Hw t ltac:(by eapply list_elem_of_In, list_elem_of_lookup_2)). unfold idle_worker in Hw.
    destruct (w_pc t); [|done..]. destruct l'; try done. unfold load_tpool.
    destruct (tpools st !! w_tpool t) as [p|]; [|done]. cbn. by destruct (reqs_first p). }
  destruct l; try done; cbn; auto.
Qed.

(** A read and a write in two pools, the read flushed while it is worked on. *)
Definition day : list label :=
  let c := 1%positive in
  [L_connect c; L_recv c Tread 5 0 None; L_dispatch c 0; L_take 0; L_recv c Twrite 6 0 None; L_dispatch c 1;
   L_recv c Tread 7 0 None; L_dispatch c 1; L_recv c Tflush 8 5 None; L_dispatch c 0].
Definition evening : list label :=
  [L_process 0 false; L_unwork 0; L_flushreply 0; L_take 1; L_release 0; L_process 1 false; L_unwork 1;
   L_flushreply 1; L_release 1; L_take 1; L_process 1 false; L_unwork 1; L_flushreply 1; L_release 1].

Definition played (ls : list label) : qstate :=
  match play false [] ls (np_srv_start 2 [0; 1]%nat) with
  | Some st => st
  | None => np_srv_start 2 [0; 1]%nat
  end.

Lemma requests_in_order_witness : exists i r, workers (played (day ++ [L_take 1])) !! 1%nat =
    Some {| w_tpool := i; w_pc := Busy r |} /\
  queue_of (played day) i = r :: queue_of (played (day ++ [L_take 1])) i /\
  forall (r' : rid) q q', r' ∈ queue_of (played (day ++ [L_take 1])) i -> reqs (played day) !! r = Some q ->
    reqs (played day) !! r' = Some q' -> r_conn q' = r_conn q -> (r < r')%positive.
Proof.
  apply (requests_in_order false 2 [0; 1]%nat day).
  - repeat constructor.
  - apply polite_run, (play_polite _ _ day [] (np_srv_start 2 [0; 1]%nat)); [constructor|].
    vm_compute. reflexivity.
  - vm_compute. reflexivity.
Defined.

Lemma server_comes_to_rest_witness :
  (length evening + load (played (day ++ evening)) <= load (played day))%nat.
Proof.
  apply (server_comes_to_rest false 2 [0; 1]%nat day (played day) evening (played (day ++ evening))).
  - repeat constructor.
  - apply polite_run, (play_polite _ _ day [] (np_srv_start 2 [0; 1]%nat)); [constructor|].
    vm_compute. reflexivity.
  - apply polite_run, (play_polite _ _ evening [] (played day)); [constructor|]. vm_compute. reflexivity.
  - repeat constructor.
Defined.

Lemma requests_answered_witness : reqs (played (day ++ evening)) = ∅ /\
  forall r k, request (day ++ evening) r = Some k -> settled (day ++ evening) (out (played (day ++ evening))) r.
Proof.
  apply (requests_answered false 2 [0; 1]%nat (day ++ evening) (played (day ++ evening))).
  - repeat constructor.
  - repeat constructor.
  - intros [|[|i]] Hi; [set_solver..|]. exfalso. lia.
  - apply polite_run, (play_polite _ _ (day ++ evening) [] (np_srv_start 2 [0; 1]%nat)); [constructor|].
    vm_compute. reflexivity.
  - repeat constructor.
  - apply at_rest_stuck. vm_compute. reflexivity.
Defined.
