(* ===== verification/Hash.v ===== *)
(** * Hash tables (liblsd/hash.c)

    A table of [size] slots, each a singly linked list of nodes.  A node belongs
    to one slot only, so the chain of a slot is the list of the keys and data of
    its nodes; [free] counts the nodes on [hash_free_list].  The key, comparison
    and deletion functions are parameters, as in C; [strcmp] and
    [hash_key_string] are the ones diod uses.  A table, key and function that is NULL
    ([EINVAL] in C) does not occur: the arguments are there.  The [int] of the
    entries is unbounded: it counts nodes, of which 2^31 would have to exist. *)
From S2P Require Import Prelude Cbuf.
From stdpp Require Import list gmap.
#[local] Open Scope Z_scope.

Definition HASH_ALLOC : nat := 1024.
Definition HASH_DEF_SIZE : Z := 1213.

(** [hash_node_alloc]: the new length of the free list, if there is a node.
    [mem]: whether a chunk can be allocated. *)
Definition hash_node_alloc (mem : bool) (free : nat) : option nat :=
  let free := match free with
              | O => if mem then HASH_ALLOC else O
              | _ => free
              end in
  match free with
  | S n => Some n
  | O => None
  end.

Definition hash_node_free (free : nat) : nat := S free.

Section Hash.
Context {K A : Type} (key_f : K -> Z) (cmp_f : K -> K -> Z).

Record hash := { count : Z; hsize : Z; table : list (list (K * A)) }.

Definition hash_create (size : Z) : hash :=
  let size := if size <=? 0 then HASH_DEF_SIZE else size in
  {| count := 0; hsize := size; table := replicate (Z.to_nat size) [] |}.

(** The data in the order in which [del_f] is called, and the nodes freed. *)
Fixpoint destroy_slots (t : list (list (K * A))) (free : nat) : list A * nat :=
  match t with
  | [] => ([], free)
  | chain :: t =>
      let free := fold_left (fun n _ => hash_node_free n) chain free in
      let '(ds, free) := destroy_slots t free in
      (chain.*2 ++ ds, free)
  end.

Definition hash_destroy (h : hash) (free : nat) : list A * nat := destroy_slots (table h) free.

Definition hash_is_empty (h : hash) : bool := count h =? 0.
Definition hash_count (h : hash) : Z := count h.

Definition slot_of (h : hash) (key : K) : nat := Z.to_nat (u32 (key_f key) mod u32 (hsize h)).

Definition slot (h : hash) (key : K) : res (list (K * A)) :=
  match table h !! slot_of h key with Some c => Ret c | None => UB end.

Fixpoint find_node (c : list (K * A)) (key : K) : option A :=
  match c with
  | [] => None
  | (hkey, data) :: c => if cmp_f hkey key =? 0 then Some data else find_node c key
  end.

Definition hash_find (h : hash) (key : K) : res (option A) :=
  let! c := slot h key in
  Ret (find_node c key).

Definition set_slot (h : hash) (key : K) (c : list (K * A)) (n : Z) : hash :=
  {| count := n; hsize := hsize h; table := <[slot_of h key := c]> (table h) |}.

(** The data, or [NULL] with an error. *)
Definition hash_insert (mem : bool) (h : hash) (key : K) (data : A) (free : nat)
  : res (option A * Z * hash * nat) :=
  let! c := slot h key in
  match find_node c key with
  | Some _ => Ret (None, EEXIST, h, free)
  | None =>
      match hash_node_alloc mem free with
      | None => Ret (None, ENOMEM, h, free)
      | Some free => Ret (Some data, 0, set_slot h key ((key, data) :: c) (count h + 1), free)
      end
  end.

(** The first node with the key, and the chain without it. *)
Fixpoint take_node (c : list (K * A)) (key : K) : option (A * list (K * A)) :=
  match c with
  | [] => None
  | (hkey, data) :: c =>
      if cmp_f hkey key =? 0 then Some (data, c)
      else match take_node c key with
           | Some (d, c') => Some (d, (hkey, data) :: c')
           | None => None
           end
  end.

Definition hash_remove (h : hash) (key : K) (free : nat) : res (option A * hash * nat) :=
  let! c := slot h key in
  Ret (match take_node c key with
       | None => (None, h, free)
       | Some (data, c) => (Some data, set_slot h key c (count h - 1), hash_node_free free)
       end).

(** [arg_f data key arg]: its result, and [arg] afterwards. *)
Section Each.
Context {X : Type} (arg_f : A -> K -> X -> Z * X).

(** The chain that stays, the data given to [del_f] and the argument. *)
Fixpoint delete_chain (c : list (K * A)) (x : X) : list (K * A) * list A * X :=
  match c with
  | [] => ([], [], x)
  | (hkey, data) :: c =>
      let '(r, x) := arg_f data hkey x in
      let '(c, ds, x) := delete_chain c x in
      if 0 <? r then (c, data :: ds, x) else ((hkey, data) :: c, ds, x)
  end.

Fixpoint delete_slots (t : list (list (K * A))) (x : X) : list (list (K * A)) * list A * X :=
  match t with
  | [] => ([], [], x)
  | c :: t =>
      let '(c, ds, x) := delete_chain c x in
      let '(t, ds', x) := delete_slots t x in
      (c :: t, ds ++ ds', x)
  end.

Definition hash_delete_if (h : hash) (x : X) (free : nat) : hash * Z * list A * X * nat :=
  let '(t, ds, x) := delete_slots (table h) x in
  let n := zlength ds in
  ({| count := count h - n; hsize := hsize h; table := t |}, n, ds, x, (free + length ds)%nat).

Fixpoint each_node (l : list (K * A)) (x : X) : Z * X :=
  match l with
  | [] => (0, x)
  | (hkey, data) :: l =>
      let '(r, x) := arg_f data hkey x in
      let '(n, x) := each_node l x in
      ((if 0 <? r then 1 else 0) + n, x)
  end.

Definition hash_for_each (h : hash) (x : X) : Z * X := each_node (concat (table h)) x.
End Each.
End Hash.
Arguments hash : clear implicits.

Fixpoint hash_key_string_from (hval : Z) (str : cstr) : Z :=
  match str with
  | [] => hval
  | c :: str => hash_key_string_from (u32 (hval + (31 * hval + c))) str
  end.

(** [hash_key_string] of the bytes before the terminator. *)
Definition hash_key_string (str : cstr) : Z := hash_key_string_from 0 str.

(** [strcmp] of two C strings. *)
Fixpoint strcmp (s t : cstr) : Z :=
  match s, t with
  | [], [] => 0
  | [], d :: _ => - d
  | c :: _, [] => c
  | c :: s, d :: t => if c =? d then strcmp s t else c - d
  end.

(** ** The table as a finite map *)
Section HashSpec.
Context {K A : Type} `{Countable K} (key_f : K -> Z) (cmp_f : K -> K -> Z).
(** The keys that are used; [cmp_f] tells them apart. *)
Context (good : K -> Prop) (cmp_ok : forall a b, good a -> good b -> (cmp_f a b = 0 <-> a = b)).

Implicit Types (h : hash K A) (k : K) (c : list (K * A)).

Definition nodes h : list (K * A) := concat (table h).
Definition to_map h : gmap K A := list_to_map (nodes h).

Record hash_ok h : Prop := {
  ok_size : 0 < hsize h < 2 ^ 31;
  ok_slots : zlength (table h) = hsize h;
  ok_place : forall i c k d, table h !! i = Some c -> (k, d) ∈ c -> good k /\ slot_of key_f h k = i;
  ok_keys : NoDup (nodes h).*1;
  ok_count : count h = zlength (nodes h);
}.

Lemma slot_bound h k : 0 < hsize h < 2 ^ 31 -> (slot_of key_f h k < Z.to_nat (hsize h))%nat.
Proof.
  intros Hs. unfold slot_of. rewrite (u32_small (hsize h)) by lia.
  pose proof (Z.mod_pos_bound (u32 (key_f k)) (hsize h)). lia.
Qed.

Lemma slot_split h k : hash_ok h -> exists t1 c t2, table h = t1 ++ c :: t2 /\ length t1 = slot_of key_f h k /\
  slot key_f h k = Ret c.
Proof.
  intros Hok. pose proof (slot_bound h k (ok_size h Hok)) as Hb. pose proof (ok_slots h Hok) as Hl.
  unfold zlength in Hl. destruct (lookup_lt_is_Some_2 (table h) (slot_of key_f h k)) as [c Hc]; [lia|].
  exists (take (slot_of key_f h k) (table h)), c, (drop (S (slot_of key_f h k)) (table h)).
  split; [by rewrite take_drop_middle|]. split; [rewrite length_take; lia|]. unfold slot. by rewrite Hc.
Qed.

Lemma find_node_Some c k d : good k -> NoDup c.*1 -> (forall k' d', (k', d') ∈ c -> good k') ->
  find_node cmp_f c k = Some d <-> (k, d) ∈ c.
Proof using cmp_ok.
  intros Hk. induction c as [|[k' d'] c IH]; intros Hnd Hg; cbn; [split; [done|by intros ?%elem_of_nil]|].
  apply NoDup_cons in Hnd as [Hnin Hnd].
  destruct (Z.eqb_spec (cmp_f k' k) 0) as [E|E].
  - apply cmp_ok in E as ->; [|apply (Hg k' d'), elem_of_cons; by left|done]. split.
    + intros [= ->]. apply elem_of_cons. by left.
    + intros [[= ->]|Hin]%elem_of_cons; [done|]. destruct Hnin. apply list_elem_of_fmap. by exists (k, d).
  - rewrite IH; [|done|intros; eapply Hg, elem_of_cons; by right]. split; [intros; apply elem_of_cons; by right|].
    intros [[= <- <-]|Hin]%elem_of_cons; [|done]. destruct E. by apply cmp_ok.
Qed.

Lemma chain_keys h t1 c t2 : table h = t1 ++ c :: t2 -> hash_ok h ->
  NoDup c.*1 /\ forall k d, (k, d) ∈ c -> good k /\ slot_of key_f h k = length t1.
Proof.
  intros E Hok. split.
  - pose proof (ok_keys h Hok) as Hnd. unfold nodes in Hnd. rewrite E, concat_app, fmap_app in Hnd. cbn in Hnd.
    rewrite fmap_app in Hnd. apply NoDup_app in Hnd as (_ & _ & Hnd). by apply NoDup_app in Hnd as (? & _ & _).
  - intros k d Hin. apply (ok_place h Hok _ c _ d); [|done]. rewrite E. by apply list_lookup_middle.
Qed.

Lemma find_node_lookup h k t1 c t2 : good k -> hash_ok h -> table h = t1 ++ c :: t2 ->
  length t1 = slot_of key_f h k -> find_node cmp_f c k = to_map h !! k.
Proof using cmp_ok.
  intros Hk Hok E Hl. destruct (chain_keys h t1 c t2 E Hok) as [Hnd Hg]. apply option_eq. intros d.
  rewrite find_node_Some; [|done|done|intros; eapply Hg; done].
  unfold to_map. rewrite <- elem_of_list_to_map by apply (ok_keys h Hok). unfold nodes. split.
  - intros Hin. rewrite E, concat_app, elem_of_app. right. apply elem_of_app. by left.
  - intros (c' & Hin & Hc')%list_elem_of_In%in_concat. apply list_elem_of_In in Hin, Hc'.
    apply list_elem_of_lookup in Hin as [i Hi]. destruct (ok_place h Hok i c' k d Hi Hc') as [_ Hs].
    rewrite <- Hl in Hs. subst i. rewrite E, list_lookup_middle in Hi by done. by injection Hi as <-.
Qed.

Lemma hash_find_spec h k : good k -> hash_ok h -> hash_find key_f cmp_f h k = Ret (to_map h !! k).
Proof using cmp_ok.
  intros Hk Hok. destruct (slot_split h k Hok) as (t1 & c & t2 & E & Hl & Hs). unfold hash_find. rewrite Hs.
  cbn [res_bind]. f_equal. by apply (find_node_lookup h k t1 c t2).
Qed.

(** Another chain in the slot of [k], that differs in nodes of that slot only. *)
Lemma set_slot_ok h k t1 c t2 c' n : hash_ok h -> table h = t1 ++ c :: t2 -> length t1 = slot_of key_f h k ->
  (forall k' d', (k', d') ∈ c' -> (k', d') ∈ c \/ good k' /\ slot_of key_f h k' = slot_of key_f h k) ->
  NoDup (concat (t1 ++ c' :: t2)).*1 -> n = zlength (concat (t1 ++ c' :: t2)) ->
  hash_ok (set_slot key_f h k c' n) /\ nodes (set_slot key_f h k c' n) = concat (t1 ++ c' :: t2).
Proof.
  intros Hok E Hl Hin Hnd Hn.
  assert (Et : table (set_slot key_f h k c' n) = t1 ++ c' :: t2).
  { cbn. rewrite E, <- Hl, insert_app_r_alt, Nat.sub_diag by lia. done. }
  split; [|unfold nodes; by rewrite Et]. split.
  - apply (ok_size h Hok).
  - rewrite Et. pose proof (ok_slots h Hok) as Hs. rewrite E in Hs. unfold zlength in *. rewrite length_app in *. cbn in *. lia.
  - intros i c0 k0 d0 Hi Hc0. change (slot_of key_f (set_slot key_f h k c' n) k0) with (slot_of key_f h k0).
    rewrite Et in Hi. destruct (decide (i = length t1)) as [->|Hne].
    + rewrite list_lookup_middle in Hi by done. injection Hi as <-.
      destruct (Hin k0 d0 Hc0) as [Hc|[Hg Hs]]; [|by rewrite Hs, Hl].
      apply (chain_keys h t1 c t2 E Hok) in Hc. done.
    + apply (ok_place h Hok i c0 k0 d0); [|done]. rewrite E.
      destruct (decide (i < length t1)%nat) as [Hlt|Hge].
      * rewrite lookup_app_l in Hi |- * by done. done.
      * rewrite lookup_app_r in Hi |- * by lia. destruct (i - length t1)%nat eqn:Ei; [lia|]. done.
  - unfold nodes. by rewrite Et.
  - unfold nodes. by rewrite Et.
Qed.
Lemma hash_create_ok (size : Z) : size < 2 ^ 31 -> hash_ok (hash_create (K := K) (A := A) size) /\
  to_map (hash_create size) = ∅.
Proof.
  intros Hs. assert (E : forall n, concat (replicate n ([] : list (K * A))) = []) by (induction n; done).
  assert (Hp : 0 < (if size <=? 0 then HASH_DEF_SIZE else size) < 2 ^ 31).
  { unfold HASH_DEF_SIZE. destruct (Z.leb_spec size 0); lia. }
  split; [|unfold to_map, nodes; cbn; by rewrite E]. split; unfold nodes; cbn [table hsize count hash_create].
  - done.
  - unfold zlength. rewrite length_replicate. lia.
  - intros i c k d [-> _]%lookup_replicate Hin. by apply elem_of_nil in Hin.
  - rewrite E. constructor.
  - by rewrite E.
Qed.

Lemma nodes_permutation (t1 t2 : list (list (K * A))) c : concat (t1 ++ c :: t2) ≡ₚ c ++ concat (t1 ++ t2).
Proof. rewrite !concat_app. cbn. apply Permutation_app_swap_app. Qed.

Lemma find_node_None c k : find_node cmp_f c k = None -> good k -> (forall k' d', (k', d') ∈ c -> good k') ->
  k ∉ c.*1.
Proof using cmp_ok.
  intros E Hk Hg ([k' d] & -> & Hin)%list_elem_of_fmap. revert E. cbn [fst] in *.
  induction c as [|[k1 d1] c IH]; [by apply elem_of_nil in Hin|]. cbn.
  destruct (Z.eqb_spec (cmp_f k1 k') 0) as [E|E]; [done|]. intros En.
  apply elem_of_cons in Hin as [[= <- <-]|Hin]; [by destruct E; apply cmp_ok|].
  apply IH; [|done|done]. intros k2 d2 Hin2. apply (Hg k2 d2), elem_of_cons. by right.
Qed.

Lemma hash_insert_spec mem h k d free : good k -> hash_ok h ->
  match to_map h !! k with
  | Some _ => hash_insert key_f cmp_f mem h k d free = Ret (None, EEXIST, h, free)
  | None =>
      match hash_node_alloc mem free with
      | None => hash_insert key_f cmp_f mem h k d free = Ret (None, ENOMEM, h, free)
      | Some free' => exists h', hash_insert key_f cmp_f mem h k d free = Ret (Some d, 0, h', free') /\ hash_ok h' /\
          to_map h' = <[k := d]> (to_map h)
      end
  end.
Proof using cmp_ok.
  intros Hk Hok. destruct (slot_split h k Hok) as (t1 & c & t2 & E & Hl & Hs). unfold hash_insert. rewrite Hs.
  cbn [res_bind]. rewrite (find_node_lookup h k t1 c t2) by done. destruct (to_map h !! k) eqn:Ek; [done|].
  destruct (hash_node_alloc mem free) as [free'|]; [|done]. eexists. split; [done|].
  assert (Hp : concat (t1 ++ ((k, d) :: c) :: t2) ≡ₚ (k, d) :: nodes h).
  { unfold nodes. rewrite E, !nodes_permutation. done. }
  assert (Hnd : NoDup (concat (t1 ++ ((k, d) :: c) :: t2)).*1).
  { rewrite Hp. cbn. apply NoDup_cons. split; [by apply not_elem_of_list_to_map|apply (ok_keys h Hok)]. }
  destruct (set_slot_ok h k t1 c t2 ((k, d) :: c) (count h + 1) Hok E Hl) as [Hok' En].
  - intros k' d' [[= -> ->]|Hin]%elem_of_cons; [by right|by left].
  - done.
  - rewrite (ok_count h Hok). unfold zlength. rewrite Hp. cbn. lia.
  - split; [done|]. unfold to_map. rewrite En. rewrite (list_to_map_proper _ _ Hnd Hp). done.
Qed.

Lemma take_node_spec c k : good k -> (forall k' d', (k', d') ∈ c -> good k') ->
  match take_node cmp_f c k with
  | None => find_node cmp_f c k = None
  | Some (d, c') => find_node cmp_f c k = Some d /\ c ≡ₚ (k, d) :: c'
  end.
Proof using cmp_ok.
  intros Hk. induction c as [|[k1 d1] c IH]; intros Hg; cbn; [done|].
  destruct (Z.eqb_spec (cmp_f k1 k) 0) as [Ek|Ek].
  - apply cmp_ok in Ek as ->; [done|apply (Hg k1 d1), elem_of_cons; by left|done].
  - specialize (IH (fun k2 d2 Hin => Hg k2 d2 (proj2 (elem_of_cons c (k2, d2) _) (or_intror Hin)))).
    destruct (take_node cmp_f c k) as [[d c']|]; [|done]. destruct IH as [IH Hp]. split; [done|].
    rewrite Hp. constructor.
Qed.

Lemma hash_remove_spec h k free : good k -> hash_ok h ->
  exists h', hash_remove key_f cmp_f h k free =
    Ret (to_map h !! k, h', if to_map h !! k is Some _ then hash_node_free free else free) /\ hash_ok h' /\
    to_map h' = delete k (to_map h).
Proof using cmp_ok.
  intros Hk Hok. destruct (slot_split h k Hok) as (t1 & c & t2 & E & Hl & Hs). unfold hash_remove. rewrite Hs.
  cbn [res_bind]. destruct (chain_keys h t1 c t2 E Hok) as [_ Hg].
  pose proof (take_node_spec c k Hk (fun k' d' Hin => proj1 (Hg k' d' Hin))) as Ht.
  rewrite <- (find_node_lookup h k t1 c t2) by done.
  destruct (take_node cmp_f c k) as [[d c']|]; [destruct Ht as [-> Hp]|rewrite Ht].
  - eexists. split; [done|].
    assert (Hq : nodes h ≡ₚ (k, d) :: concat (t1 ++ c' :: t2)).
    { unfold nodes. rewrite E, !nodes_permutation, Hp. done. }
    assert (Hnd : NoDup (k :: (concat (t1 ++ c' :: t2)).*1)).
    { pose proof (ok_keys h Hok) as Hnd. by rewrite Hq in Hnd. }
    apply NoDup_cons in Hnd as [Hnin Hnd].
    destruct (set_slot_ok h k t1 c t2 c' (count h - 1) Hok E Hl) as [Hok' En].
    + intros k' d' Hin. left. rewrite Hp. apply elem_of_cons. by right.
    + done.
    + rewrite (ok_count h Hok). unfold zlength. rewrite Hq. cbn. lia.
    + split; [done|]. unfold to_map. rewrite En. rewrite (list_to_map_proper _ _ (ok_keys h Hok) Hq). cbn.
      rewrite delete_insert_id; [done|]. by apply not_elem_of_list_to_map.
  - exists h. split; [done|]. split; [done|]. rewrite delete_id; [done|].
    rewrite <- (find_node_lookup h k t1 c t2) by done. done.
Qed.

Lemma hash_count_spec h : hash_ok h -> hash_count h = Z.of_nat (size (to_map h)).
Proof.
  intros Hok. unfold hash_count. rewrite (ok_count h Hok). unfold zlength, to_map, nodes.
  rewrite map_size_list_to_map by apply (ok_keys h Hok). done.
Qed.

(** ** Sequences of operations *)

Inductive hash_op :=
| Do_find (k : K)
| Do_insert (mem : bool) (k : K) (d : A)
| Do_remove (k : K)
| Do_count.

Inductive hash_result :=
| Got (o : option A)
| Inserted (o : option A) (e : Z)
| Counted (n : Z).

Definition op_good (op : hash_op) : Prop :=
  match op with
  | Do_find k | Do_insert _ k _ | Do_remove k => good k
  | Do_count => True
  end.

Definition run_op (op : hash_op) (h : hash K A) (free : nat) : res (hash_result * hash K A * nat) :=
  match op with
  | Do_find k => let! o := hash_find key_f cmp_f h k in Ret (Got o, h, free)
  | Do_insert mem k d =>
      let! (o, e, h, free) := hash_insert key_f cmp_f mem h k d free in Ret (Inserted o e, h, free)
  | Do_remove k => let! (o, h, free) := hash_remove key_f cmp_f h k free in Ret (Got o, h, free)
  | Do_count => Ret (Counted (hash_count h), h, free)
  end.

Fixpoint run_ops (ops : list hash_op) (h : hash K A) (free : nat) : res (list hash_result * hash K A * nat) :=
  match ops with
  | [] => Ret ([], h, free)
  | op :: ops =>
      let! (r, h, free) := run_op op h free in
      let! (rs, h, free) := run_ops ops h free in
      Ret (r :: rs, h, free)
  end.

(** The same on a finite map. *)
Definition map_op (op : hash_op) (m : gmap K A) (free : nat) : hash_result * gmap K A * nat :=
  match op with
  | Do_find k => (Got (m !! k), m, free)
  | Do_insert mem k d =>
      match m !! k, hash_node_alloc mem free with
      | Some _, _ => (Inserted None EEXIST, m, free)
      | None, None => (Inserted None ENOMEM, m, free)
      | None, Some free => (Inserted (Some d) 0, <[k := d]> m, free)
      end
  | Do_remove k => (Got (m !! k), delete k m, if m !! k is Some _ then hash_node_free free else free)
  | Do_count => (Counted (Z.of_nat (size m)), m, free)
  end.

Fixpoint map_ops (ops : list hash_op) (m : gmap K A) (free : nat) : list hash_result * gmap K A * nat :=
  match ops with
  | [] => ([], m, free)
  | op :: ops =>
      let '(r, m, free) := map_op op m free in
      let '(rs, m, free) := map_ops ops m free in
      (r :: rs, m, free)
  end.

Lemma run_op_spec op h free : op_good op -> hash_ok h -> exists r h' free',
  run_op op h free = Ret (r, h', free') /\ hash_ok h' /\ map_op op (to_map h) free = (r, to_map h', free').
Proof using cmp_ok.
  intros Hg Hok. destruct op as [k|mem k d|k|]; cbn [run_op map_op op_good] in *.
  - rewrite hash_find_spec by done. by eexists _, _, _.
  - pose proof (hash_insert_spec mem h k d free Hg Hok) as Hi.
    destruct (to_map h !! k); [rewrite Hi; by eexists _, _, _|].
    destruct (hash_node_alloc mem free); [|rewrite Hi; by eexists _, _, _].
    destruct Hi as (h' & -> & Hok' & Em). eexists _, _, _. split; [done|]. split; [done|]. by rewrite Em.
  - destruct (hash_remove_spec h k free Hg Hok) as (h' & -> & Hok' & Em).
    eexists _, _, _. split; [done|]. split; [done|]. by rewrite Em.
  - eexists _, _, _. split; [done|]. split; [done|]. by rewrite hash_count_spec.
Qed.

(** C16: A hash table is a finite map.  Any sequence of lookups, insertions,
    removals and counts on a well-formed table returns, without leaving the array
    of slots, what the same sequence returns on the map of its contents, errors
    included, and leaves a well-formed table with the contents of that map. *)
Theorem hash_refines_map ops h free : Forall op_good ops -> hash_ok h ->
  exists rs h' free', run_ops ops h free = Ret (rs, h', free') /\ hash_ok h' /\
    map_ops ops (to_map h) free = (rs, to_map h', free').
Proof using cmp_ok.
  revert h free. induction ops as [|op ops IH]; intros h free Hg Hok; [by eexists _, _, _|].
  apply Forall_cons_1 in Hg as [Hop Hg]. destruct (run_op_spec op h free Hop Hok) as (r & h1 & f1 & E1 & Hok1 & M1).
  destruct (IH h1 f1 Hg Hok1) as (rs & h2 & f2 & E2 & Hok2 & M2). exists (r :: rs), h2, f2. cbn.
  rewrite E1. cbn [res_bind]. rewrite E2. cbn [res_bind]. split; [done|]. split; [done|]. by rewrite M1, M2.
Qed.

(** ** Iteration *)

Lemma destroy_slots_spec (t : list (list (K * A))) free :
  destroy_slots t free = ((concat t).*2, (free + length (concat t))%nat).
Proof.
  assert (Ef : forall (c : list (K * A)) n, fold_left (fun n _ => hash_node_free n) c n = (n + length c)%nat).
  { induction c as [|x c IH]; intros n; cbn; [lia|]. rewrite IH. unfold hash_node_free. lia. }
  revert free. induction t as [|c t IH]; intros free; cbn; [f_equal; lia|].
  rewrite Ef, IH, fmap_app, length_app. f_equal. lia.
Qed.

(** [hash_destroy] deletes each item once and puts every node on the free list. *)
Lemma hash_destroy_spec h free : hash_ok h ->
  exists ds, hash_destroy h free = (ds, (free + size (to_map h))%nat) /\ ds ≡ₚ (map_to_list (to_map h)).*2.
Proof.
  intros Hok. unfold hash_destroy. rewrite destroy_slots_spec. exists (nodes h).*2. split.
  - f_equal. unfold to_map. by rewrite map_size_list_to_map by apply (ok_keys h Hok).
  - unfold to_map. by rewrite map_to_list_to_map by apply (ok_keys h Hok).
Qed.

Section EachSpec.
Context {X : Type} (arg_f : A -> K -> X -> Z * X).

(** The argument after the calls for the nodes, in their order. *)
Definition fold_nodes (l : list (K * A)) (x : X) : X := fold_left (fun x n => (arg_f n.2 n.1 x).2) l x.

(** [hash_for_each] calls the function once for each item. *)
Lemma hash_for_each_visits h x : hash_ok h -> exists l, l ≡ₚ map_to_list (to_map h) /\
  (hash_for_each arg_f h x).2 = fold_nodes l x.
Proof.
  intros Hok. exists (nodes h). split.
  - unfold to_map. symmetry. by rewrite map_to_list_to_map by apply (ok_keys h Hok).
  - unfold hash_for_each. fold (nodes h). generalize (nodes h). intros l. revert x.
    induction l as [|[k d] l IH]; intros x; cbn; [done|]. specialize (IH (arg_f d k x).2).
    destruct (arg_f d k x) as [r x1]. cbn in *. destruct (each_node arg_f l x1) as [n x2]. done.
Qed.
End EachSpec.
End HashSpec.

(** ** Strings as keys *)

Lemma strcmp_eq s t : Forall (fun c => 0 < c) s -> Forall (fun c => 0 < c) t -> strcmp s t = 0 <-> s = t.
Proof.
  intros Hs. revert t. induction Hs as [|c s Hc Hs IH]; intros t Ht; destruct Ht as [|d t Hd Ht]; cbn; [done| | |].
  - split; [lia|done].
  - split; [lia|done].
  - destruct (Z.eqb_spec c d) as [->|Hne].
    + rewrite IH by done. split; [by intros ->|by intros [= ->]].
    + split; [lia|]. by intros [= -> _].
Qed.

Lemma hash_key_string_range s : 0 <= hash_key_string s < 2 ^ 32.
Proof.
  assert (G : forall v, 0 <= v < 2 ^ 32 -> 0 <= hash_key_string_from v s < 2 ^ 32); [|by apply G].
  induction s as [|c s IH]; intros v Hv; cbn; [done|]. apply IH, u32_range.
Qed.

(** Two keys in the same slot of a table of one slot. *)
Lemma hash_refines_map_witness :
  let ops := [Do_insert true [97] 1; Do_insert true [98] 2; Do_insert true [97] 3; Do_find [98];
              Do_remove [97]; Do_find [97]; Do_count] in
  exists rs h' free', run_ops hash_key_string strcmp ops (hash_create 1) 0 = Ret (rs, h', free') /\
    map_ops ops ∅ 0 = (rs, to_map h', free') /\
    rs = [Inserted (Some 1) 0; Inserted (Some 2) 0; Inserted None EEXIST; Got (Some 2); Got (Some 1); Got None;
          Counted 1].
Proof.
  cbv zeta. destruct (hash_create_ok (A := Z) hash_key_string (Forall (fun c => 0 < c)) 1) as [Hok Em]; [done|].
  destruct (hash_refines_map hash_key_string strcmp (Forall (fun c => 0 < c)) strcmp_eq
    [Do_insert true [97] 1; Do_insert true [98] 2; Do_insert true [97] 3; Do_find [98];
     Do_remove [97]; Do_find [97]; Do_count] (hash_create 1) 0) as (rs & h' & f' & E & _ & M); [|exact Hok|].
  - repeat constructor.
  - exists rs, h', f'. split; [exact E|]. rewrite Em in M. split; [exact M|].
    vm_compute in E. by injection E as <-.
Defined.
