(* ===== verification/Conf.v ===== *)
(** * The configuration (libdiod/diod_conf.c)

    The attributes of the server, set from the command line or from the
    configuration file, and the list of exports.  The Lua interpreter is a
    parameter: the values of the globals after the file was run.  A function
    that calls [msg_exit] ends the process: [Exit].  Running out of memory also
    ends the process and is left out. *)
From S2P Require Import Prelude Cbuf Npstring.
From Stdlib Require Import String Ascii.
From stdpp Require Import list.
#[local] Open Scope Z_scope.

(** The bytes of a string constant. *)
Definition lit (s : string) : cstr := (fun c => Z.of_N (N_of_ascii c)) <$> list_ascii_of_string s.
Arguments lit s%_string_scope.

(** ** Outcomes *)

Inductive exit_reason :=
| Unknown_option (item : cstr)
| No_exports
| Not_absolute (path : cstr)
| Dotdot (path : cstr)
| Bad_type (key : cstr)
| No_path
| Load_error.

Inductive conf_out (A : Type) := Run (a : A) | Exit (e : exit_reason) | Undef.
Arguments Run {A} a.
Arguments Exit {A} e.
Arguments Undef {A}.

Definition conf_bind {A B} (c : conf_out A) (f : A -> conf_out B) : conf_out B :=
  match c with Run a => f a | Exit e => Exit e | Undef => Undef end.
Notation "'let?' x ':=' c 'in' k" := (conf_bind c (fun x => k))
  (at level 10, x pattern, c at level 100, k at level 200) : diod_scope.

(** ** C strings *)

Fixpoint drop_while (p : Z -> bool) (s : cstr) : cstr :=
  match s with c :: t => if p c then drop_while p t else s | [] => [] end.
Fixpoint take_while (p : Z -> bool) (s : cstr) : cstr :=
  match s with c :: t => if p c then c :: take_while p t else [] | [] => [] end.

(** [strtok_r (s, delim, &save)] for one delimiter: the token and what [save]
    points to. *)
Definition strtok_r (d : Z) (s : cstr) : option (cstr * cstr) :=
  match drop_while (Z.eqb d) s with
  | [] => None
  | s => Some (take_while (fun c => negb (d =? c)) s, tail (drop_while (fun c => negb (d =? c)) s))
  end.

(** [strchr (s, c)]: the bytes before it and after it. *)
Fixpoint strchr (c : Z) (s : cstr) : option (cstr * cstr) :=
  match s with
  | [] => None
  | b :: t => if b =? c then Some ([], t) else
      match strchr c t with Some (x, y) => Some (b :: x, y) | None => None end
  end.

Fixpoint starts_with (p s : cstr) : bool :=
  match p, s with
  | [], _ => true
  | a :: p, b :: s => (a =? b) && starts_with p s
  | _, [] => false
  end.

(** [strstr (s, p) != NULL] *)
Fixpoint strstr (s p : cstr) : bool :=
  starts_with p s || match s with [] => false | _ :: t => strstr t p end.

Definition comma : Z := 44.
Definition slash : Z := 47.
Definition space : Z := 32.
Definition newline : Z := 10.

(** ** Exports *)

Definition XFLAGS_RO : Z := 1.
Definition XFLAGS_SUPPRESS : Z := 2.
Definition XFLAGS_SHAREFD : Z := 4.
Definition XFLAGS_PRIVPORT : Z := 8.
Definition XFLAGS_NOAUTH : Z := 16.

Record Export := {
  x_path : cstr;
  x_opts : option cstr;
  x_oflags : Z;
  x_users : option cstr;
  x_hosts : option cstr;
}.

Definition create_export (path : cstr) : Export :=
  {| x_path := path; x_opts := None; x_oflags := 0; x_users := None; x_hosts := None |}.

(** The flag of an export option. *)
Definition expopt (item : cstr) : option Z :=
  if bool_decide (item = lit "ro") then Some XFLAGS_RO
  else if bool_decide (item = lit "suppress") then Some XFLAGS_SUPPRESS
  else if bool_decide (item = lit "sharefd") then Some XFLAGS_SHAREFD
  else if bool_decide (item = lit "privport") then Some XFLAGS_PRIVPORT
  else if bool_decide (item = lit "noauth") then Some XFLAGS_NOAUTH
  else None.

(** The loop of [_parse_expopt]. *)
Fixpoint expopt_loop (fuel : nat) (flags : Z) (save : cstr) : conf_out Z :=
  match strtok_r comma save, fuel with
  | None, _ => Run flags
  | Some _, O => Undef
  | Some (item, save), S fuel =>
      match expopt item with
      | Some f => expopt_loop fuel (Z.lor flags f) save
      | None => Exit (Unknown_option item)
      end
  end.

Definition parse_expopt (s : cstr) : conf_out Z := expopt_loop (length s) 0 s.

(** [if (x->opts) _parse_expopt (x->opts, &x->oflags)] *)
Definition with_opts (opts : option cstr) (x : Export) : conf_out Export :=
  match opts with
  | None => Run x
  | Some s =>
      let? flags := parse_expopt s in
      Run {| x_path := x_path x; x_opts := Some s; x_oflags := flags; x_users := x_users x; x_hosts := x_hosts x |}
  end.

(** ** The configuration *)

Definition RO_DEBUGLEVEL : Z := 0x1.
Definition RO_NWTHREADS : Z := 0x2.
Definition RO_AUTH_REQUIRED : Z := 0x8.
Definition RO_RUNASUID : Z := 0x10.
Definition RO_USERDB : Z := 0x20.
Definition RO_LISTEN : Z := 0x40.
Definition RO_EXPORTS : Z := 0x100.
Definition RO_CONFIGPATH : Z := 0x400.
Definition RO_LOGDEST : Z := 0x800.
Definition RO_EXPORTALL : Z := 0x1000.
Definition RO_EXPORTOPTS : Z := 0x2000.
Definition RO_ALLSQUASH : Z := 0x4000.
Definition RO_SQUASHUSER : Z := 0x8000.
Definition RO_STATFS_PASSTHRU : Z := 0x10000.
Definition RO_HOSTNAME_LOOKUP : Z := 0x40000.

Record Conf := {
  debuglevel : Z;
  nwthreads : Z;
  auth_required : Z;
  hostname_lookup : Z;
  statfs_passthru : Z;
  userdb : Z;
  allsquash : Z;
  squashuser : cstr;
  runasuid : Z;
  listen : list cstr;
  exportall : Z;
  exportopts : option cstr;
  exports : list Export;
  configpath : option cstr;
  logdest : cstr;
  ro_mask : Z;
}.

(** ** Setters *)

Definition set_debuglevel v (c : Conf) : Conf := {|
  debuglevel := v; nwthreads := nwthreads c; auth_required := auth_required c; hostname_lookup :=
  hostname_lookup c; statfs_passthru := statfs_passthru c; userdb := userdb c; allsquash :=
  allsquash c; squashuser := squashuser c; runasuid := runasuid c; listen := listen c; exportall
  := exportall c; exportopts := exportopts c; exports := exports c; configpath := configpath c;
  logdest := logdest c; ro_mask := ro_mask c |}.
Definition set_nwthreads v (c : Conf) : Conf := {|
  debuglevel := debuglevel c; nwthreads := v; auth_required := auth_required c; hostname_lookup :=
  hostname_lookup c; statfs_passthru := statfs_passthru c; userdb := userdb c; allsquash :=
  allsquash c; squashuser := squashuser c; runasuid := runasuid c; listen := listen c; exportall
  := exportall c; exportopts := exportopts c; exports := exports c; configpath := configpath c;
  logdest := logdest c; ro_mask := ro_mask c |}.
Definition set_auth_required v (c : Conf) : Conf := {|
  debuglevel := debuglevel c; nwthreads := nwthreads c; auth_required := v; hostname_lookup :=
  hostname_lookup c; statfs_passthru := statfs_passthru c; userdb := userdb c; allsquash :=
  allsquash c; squashuser := squashuser c; runasuid := runasuid c; listen := listen c; exportall
  := exportall c; exportopts := exportopts c; exports := exports c; configpath := configpath c;
  logdest := logdest c; ro_mask := ro_mask c |}.
Definition set_hostname_lookup v (c : Conf) : Conf := {|
  debuglevel := debuglevel c; nwthreads := nwthreads c; auth_required := auth_required c;
  hostname_lookup := v; statfs_passthru := statfs_passthru c; userdb := userdb c; allsquash :=
  allsquash c; squashuser := squashuser c; runasuid := runasuid c; listen := listen c; exportall
  := exportall c; exportopts := exportopts c; exports := exports c; configpath := configpath c;
  logdest := logdest c; ro_mask := ro_mask c |}.
Definition set_statfs_passthru v (c : Conf) : Conf := {|
  debuglevel := debuglevel c; nwthreads := nwthreads c; auth_required := auth_required c;
  hostname_lookup := hostname_lookup c; statfs_passthru := v; userdb := userdb c; allsquash :=
  allsquash c; squashuser := squashuser c; runasuid := runasuid c; listen := listen c; exportall
  := exportall c; exportopts := exportopts c; exports := exports c; configpath := configpath c;
  logdest := logdest c; ro_mask := ro_mask c |}.
Definition set_userdb v (c : Conf) : Conf := {|
  debuglevel := debuglevel c; nwthreads := nwthreads c; auth_required := auth_required c;
  hostname_lookup := hostname_lookup c; statfs_passthru := statfs_passthru c; userdb := v;
  allsquash := allsquash c; squashuser := squashuser c; runasuid := runasuid c; listen := listen
  c; exportall := exportall c; exportopts := exportopts c; exports := exports c; configpath :=
  configpath c; logdest := logdest c; ro_mask := ro_mask c |}.
Definition set_allsquash v (c : Conf) : Conf := {|
  debuglevel := debuglevel c; nwthreads := nwthreads c; auth_required := auth_required c;
  hostname_lookup := hostname_lookup c; statfs_passthru := statfs_passthru c; userdb := userdb c;
  allsquash := v; squashuser := squashuser c; runasuid := runasuid c; listen := listen c;
  exportall := exportall c; exportopts := exportopts c; exports := exports c; configpath :=
  configpath c; logdest := logdest c; ro_mask := ro_mask c |}.
Definition set_squashuser v (c : Conf) : Conf := {|
  debuglevel := debuglevel c; nwthreads := nwthreads c; auth_required := auth_required c;
  hostname_lookup := hostname_lookup c; statfs_passthru := statfs_passthru c; userdb := userdb c;
  allsquash := allsquash c; squashuser := v; runasuid := runasuid c; listen := listen c; exportall
  := exportall c; exportopts := exportopts c; exports := exports c; configpath := configpath c;
  logdest := logdest c; ro_mask := ro_mask c |}.
Definition set_runasuid v (c : Conf) : Conf := {|
  debuglevel := debuglevel c; nwthreads := nwthreads c; auth_required := auth_required c;
  hostname_lookup := hostname_lookup c; statfs_passthru := statfs_passthru c; userdb := userdb c;
  allsquash := allsquash c; squashuser := squashuser c; runasuid := v; listen := listen c;
  exportall := exportall c; exportopts := exportopts c; exports := exports c; configpath :=
  configpath c; logdest := logdest c; ro_mask := ro_mask c |}.
Definition set_listen v (c : Conf) : Conf := {|
  debuglevel := debuglevel c; nwthreads := nwthreads c; auth_required := auth_required c;
  hostname_lookup := hostname_lookup c; statfs_passthru := statfs_passthru c; userdb := userdb c;
  allsquash := allsquash c; squashuser := squashuser c; runasuid := runasuid c; listen := v;
  exportall := exportall c; exportopts := exportopts c; exports := exports c; configpath :=
  configpath c; logdest := logdest c; ro_mask := ro_mask c |}.
Definition set_exportall v (c : Conf) : Conf := {|
  debuglevel := debuglevel c; nwthreads := nwthreads c; auth_required := auth_required c;
  hostname_lookup := hostname_lookup c; statfs_passthru := statfs_passthru c; userdb := userdb c;
  allsquash := allsquash c; squashuser := squashuser c; runasuid := runasuid c; listen := listen
  c; exportall := v; exportopts := exportopts c; exports := exports c; configpath := configpath c;
  logdest := logdest c; ro_mask := ro_mask c |}.
Definition set_exportopts v (c : Conf) : Conf := {|
  debuglevel := debuglevel c; nwthreads := nwthreads c; auth_required := auth_required c;
  hostname_lookup := hostname_lookup c; statfs_passthru := statfs_passthru c; userdb := userdb c;
  allsquash := allsquash c; squashuser := squashuser c; runasuid := runasuid c; listen := listen
  c; exportall := exportall c; exportopts := v; exports := exports c; configpath := configpath c;
  logdest := logdest c; ro_mask := ro_mask c |}.
Definition set_exports v (c : Conf) : Conf := {|
  debuglevel := debuglevel c; nwthreads := nwthreads c; auth_required := auth_required c;
  hostname_lookup := hostname_lookup c; statfs_passthru := statfs_passthru c; userdb := userdb c;
  allsquash := allsquash c; squashuser := squashuser c; runasuid := runasuid c; listen := listen
  c; exportall := exportall c; exportopts := exportopts c; exports := v; configpath := configpath
  c; logdest := logdest c; ro_mask := ro_mask c |}.
Definition set_configpath v (c : Conf) : Conf := {|
  debuglevel := debuglevel c; nwthreads := nwthreads c; auth_required := auth_required c;
  hostname_lookup := hostname_lookup c; statfs_passthru := statfs_passthru c; userdb := userdb c;
  allsquash := allsquash c; squashuser := squashuser c; runasuid := runasuid c; listen := listen
  c; exportall := exportall c; exportopts := exportopts c; exports := exports c; configpath := v;
  logdest := logdest c; ro_mask := ro_mask c |}.
Definition set_logdest v (c : Conf) : Conf := {|
  debuglevel := debuglevel c; nwthreads := nwthreads c; auth_required := auth_required c;
  hostname_lookup := hostname_lookup c; statfs_passthru := statfs_passthru c; userdb := userdb c;
  allsquash := allsquash c; squashuser := squashuser c; runasuid := runasuid c; listen := listen
  c; exportall := exportall c; exportopts := exportopts c; exports := exports c; configpath :=
  configpath c; logdest := v; ro_mask := ro_mask c |}.
Definition set_ro_mask v (c : Conf) : Conf := {|
  debuglevel := debuglevel c; nwthreads := nwthreads c; auth_required := auth_required c;
  hostname_lookup := hostname_lookup c; statfs_passthru := statfs_passthru c; userdb := userdb c;
  allsquash := allsquash c; squashuser := squashuser c; runasuid := runasuid c; listen := listen
  c; exportall := exportall c; exportopts := exportopts c; exports := exports c; configpath :=
  configpath c; logdest := logdest c; ro_mask := v |}.

(** [config.ro_mask |= m] *)
Definition keep (m : Z) (c : Conf) : Conf := set_ro_mask (Z.lor (ro_mask c) m) c.

(** [config.ro_mask & m] *)
Definition kept (m : Z) (c : Conf) : bool := negb (Z.land (ro_mask c) m =? 0).

Definition DFLT_NWTHREADS : Z := 16.
Definition DFLT_SQUASHUSER : cstr := lit "nobody".
Definition DFLT_LISTEN : cstr := lit "0.0.0.0:564".
Definition DFLT_LOGDEST : cstr := lit "stderr".

(** [dflt_configpath]: the path that the build was given, if it has one. *)
Definition diod_conf_init (dflt_configpath : option cstr) : Conf := {|
  debuglevel := 0; nwthreads := DFLT_NWTHREADS; auth_required := 1; hostname_lookup := 1;
  statfs_passthru := 0; userdb := 1; allsquash := 0; squashuser := DFLT_SQUASHUSER; runasuid := 0;
  listen := [DFLT_LISTEN]; exportall := 0; exportopts := None; exports := [];
  configpath := dflt_configpath; logdest := DFLT_LOGDEST; ro_mask := 0 |}.

Definition diod_conf_set_logdest s c := keep RO_LOGDEST (set_logdest s c).
Definition diod_conf_set_debuglevel i c := keep RO_DEBUGLEVEL (set_debuglevel (Z.land i 0xffff) c).
Definition diod_conf_set_nwthreads i c := keep RO_NWTHREADS (set_nwthreads i c).
Definition diod_conf_set_auth_required i c := keep RO_AUTH_REQUIRED (set_auth_required i c).
Definition diod_conf_set_hostname_lookup i c := keep RO_HOSTNAME_LOOKUP (set_hostname_lookup i c).
Definition diod_conf_set_statfs_passthru i c := keep RO_STATFS_PASSTHRU (set_statfs_passthru i c).
Definition diod_conf_set_userdb i c := keep RO_USERDB (set_userdb i c).
Definition diod_conf_set_allsquash i c := keep RO_ALLSQUASH (set_allsquash i c).
Definition diod_conf_set_squashuser s c := keep RO_SQUASHUSER (set_squashuser s c).
Definition diod_conf_set_runasuid i c := keep RO_RUNASUID (set_runasuid i c).
Definition diod_conf_clr_listen c := keep RO_LISTEN (set_listen [] c).
Definition diod_conf_add_listen s c := keep RO_LISTEN (set_listen (listen c ++ [s]) c).
Definition diod_conf_clr_exports c := keep RO_EXPORTS (set_exports [] c).
Definition diod_conf_set_exportall i c := keep RO_EXPORTALL (set_exportall i c).
Definition diod_conf_set_exportopts s c := keep RO_EXPORTOPTS (set_exportopts (Some s) c).
Definition diod_conf_opt_runasuid c := kept RO_RUNASUID c.

Definition diod_conf_add_exports (path : cstr) (c : Conf) : conf_out Conf :=
  let? x := with_opts (exportopts c) (create_export path) in
  Run (keep RO_EXPORTS (set_exports (exports c ++ [x]) c)).

Fixpoint validate_exports (xs : list Export) : conf_out unit :=
  match xs with
  | [] => Run tt
  | x :: xs =>
      if negb (bool_decide (head (x_path x) = Some slash)) && negb (bool_decide (x_path x = lit "ctl"))
      then Exit (Not_absolute (x_path x))
      else if strstr (x_path x) (lit "/..") then Exit (Dotdot (x_path x))
      else validate_exports xs
  end.

Definition diod_conf_validate_exports (c : Conf) : conf_out unit :=
  if (exportall c =? 0) && (zlength (exports c) =? 0) then Exit No_exports
  else validate_exports (exports c).

(** ** Exporting what is mounted *)

(** [fgets (buf, 1024, f)] at [s]: the line read and the rest of the file. *)
Fixpoint fgets (room : nat) (s : list Z) : list Z * list Z :=
  match room, s with
  | S room, b :: t => if b =? newline then ([b], t) else let '(l, r) := fgets room t in (b :: l, r)
  | _, _ => ([], s)
  end.

(** [if (buf[strlen (buf) - 1] == '\n') buf[strlen (buf) - 1] = '\0'] *)
Definition chop_newline (buf : cstr) : option cstr :=
  match last buf with
  | None => None
  | Some b => Some (if b =? newline then removelast buf else buf)
  end.

Fixpoint mounts_loop (fuel : nat) (opts : option cstr) (f : list Z) : conf_out (list Export) :=
  match fgets 1023 f, fuel with
  | ([], _), _ => Run []
  | _, O => Undef
  | (line, f), S fuel =>
      match chop_newline (c_string line) with
      | None => Undef
      | Some buf =>
          match strchr space buf with
          | None => mounts_loop fuel opts f
          | Some (_, path) =>
              match strchr space path with
              | None => mounts_loop fuel opts f
              | Some (path, _) =>
                  let? x := with_opts opts (create_export path) in
                  let? xs := mounts_loop fuel opts f in
                  Run (x :: xs)
              end
          end
      end
  end.

(** [mounts]: what /proc/mounts holds, or [None] if it cannot be opened. *)
Definition diod_conf_get_mounts (mounts : option (list Z)) (c : Conf) : conf_out (option (list Export)) :=
  if exportall c =? 0 then Run None
  else match mounts with
       | None => Run None
       | Some f => let? xs := mounts_loop (length f) (exportopts c) f in Run (Some xs)
       end.

(** ** The configuration file *)

(** A Lua value.  A number also has a string form, and a string may be the form
    of a number; [n] is the number cut to an integer. *)
Inductive lua :=
| L_nil
| L_number (n : Z) (s : cstr)
| L_string (s : cstr) (n : option Z)
| L_table (elems : list lua) (fields : list (cstr * lua))
| L_other.

Definition lua_tonumber (v : lua) : option Z :=
  match v with L_number n _ => Some n | L_string _ n => n | _ => None end.
Definition lua_tostring (v : lua) : option cstr :=
  match v with L_number _ s | L_string s _ => Some s | _ => None end.
Definition lua_getfield (fields : list (cstr * lua)) (key : cstr) : lua :=
  match filter (fun p => p.1 = key) fields with p :: _ => p.2 | [] => L_nil end.

Section File.
(** The globals after the file was run. *)
Variable L : cstr -> lua.

Definition lua_getglobal_int (key : cstr) (v : Z) : conf_out Z :=
  match L key with
  | L_nil => Run v
  | x => match lua_tonumber x with
         | None => Exit (Bad_type key)
         | Some n => if (- 2 ^ 31 <=? n) && (n <? 2 ^ 31) then Run n else Undef
         end
  end.

Definition lua_getglobal_string {A} (key : cstr) (some : cstr -> A) (v : A) : conf_out A :=
  match L key with
  | L_nil => Run v
  | x => match lua_tostring x with None => Exit (Bad_type key) | Some s => Run (some s) end
  end.

Fixpoint strings_of (key : cstr) (xs : list lua) : conf_out (list cstr) :=
  match xs with
  | [] | L_nil :: _ => Run []
  | x :: xs =>
      match lua_tostring x with
      | None => Exit (Bad_type key)
      | Some s => let? l := strings_of key xs in Run (s :: l)
      end
  end.

Definition lua_getglobal_list_of_strings (key : cstr) (v : list cstr) : conf_out (list cstr) :=
  match L key with
  | L_nil => Run v
  | L_table xs _ => strings_of key xs
  | _ => Exit (Bad_type key)
  end.

Definition lua_get_expattr (fields : list (cstr * lua)) (key : cstr) : conf_out (option cstr) :=
  match lua_getfield fields key with
  | L_nil => Run None
  | x => match lua_tostring x with None => Exit (Bad_type key) | Some s => Run (Some s) end
  end.

(** An element of the table [exports]. *)
Definition export_of (opts : option cstr) (v : lua) : conf_out Export :=
  match lua_tostring v with
  | Some s => Run (create_export s)
  | None =>
      match v with
      | L_table _ fields =>
          let? p := lua_get_expattr fields (lit "path") in
          match p with
          | None => Exit No_path
          | Some p =>
              let? o := lua_get_expattr fields (lit "opts") in
              let? x := with_opts (match o with Some o => Some o | None => opts end) (create_export p) in
              let? users := lua_get_expattr fields (lit "users") in
              let? hosts := lua_get_expattr fields (lit "hosts") in
              Run {| x_path := x_path x; x_opts := x_opts x; x_oflags := x_oflags x;
                     x_users := users; x_hosts := hosts |}
          end
      | _ => Exit (Bad_type (lit "exports"))
      end
  end.

Fixpoint exports_of (opts : option cstr) (xs : list lua) : conf_out (list Export) :=
  match xs with
  | [] | L_nil :: _ => Run []
  | x :: xs => let? e := export_of opts x in let? l := exports_of opts xs in Run (e :: l)
  end.

Definition lua_getglobal_exports (opts : option cstr) (v : list Export) : conf_out (list Export) :=
  match L (lit "exports") with
  | L_nil => Run v
  | L_table xs _ => exports_of opts xs
  | _ => Exit (Bad_type (lit "exports"))
  end.

(** [if (!(config.ro_mask & m)) ...] *)
Definition unless (m : Z) (f : Conf -> conf_out Conf) (c : Conf) : conf_out Conf :=
  if kept m c then Run c else f c.

Definition conf_int (m : Z) (key : cstr) (dflt : Z) (set : Z -> Conf -> Conf) : Conf -> conf_out Conf :=
  unless m (fun c => let? v := lua_getglobal_int key dflt in Run (set v c)).

Definition read_globals (c : Conf) : conf_out Conf :=
  let? c := conf_int RO_NWTHREADS (lit "nwthreads") DFLT_NWTHREADS set_nwthreads c in
  let? c := conf_int RO_AUTH_REQUIRED (lit "auth_required") 1 set_auth_required c in
  let? c := conf_int RO_HOSTNAME_LOOKUP (lit "hostname_lookup") 1 set_hostname_lookup c in
  let? c := conf_int RO_STATFS_PASSTHRU (lit "statfs_passthru") 0 set_statfs_passthru c in
  let? c := conf_int RO_USERDB (lit "userdb") 1 set_userdb c in
  let? c := conf_int RO_ALLSQUASH (lit "allsquash") 0 set_allsquash c in
  let? c := unless RO_SQUASHUSER (fun c =>
    let? s := lua_getglobal_string (lit "squashuser") id DFLT_SQUASHUSER in Run (set_squashuser s c)) c in
  let? c := unless RO_LISTEN (fun c =>
    let? l := lua_getglobal_list_of_strings (lit "listen") [DFLT_LISTEN] in Run (set_listen l c)) c in
  let? c := unless RO_LOGDEST (fun c =>
    let? s := lua_getglobal_string (lit "logdest") id DFLT_LOGDEST in Run (set_logdest s c)) c in
  let? c := conf_int RO_EXPORTALL (lit "exportall") 0 set_exportall c in
  let? c := unless RO_EXPORTOPTS (fun c =>
    let? s := lua_getglobal_string (lit "exportopts") Some None in Run (set_exportopts s c)) c in
  unless RO_EXPORTS (fun c =>
    let? xs := lua_getglobal_exports (exportopts c) [] in Run (set_exports xs c)) c.
End File.

(** [lua_load]: the globals after a file was loaded and run, if it can be;
    [access path R_OK == 0] is [readable path]. *)
Definition diod_conf_init_config_file (lua_load : cstr -> option (cstr -> lua)) (readable : cstr -> bool)
  (path : option cstr) (c : Conf) : conf_out Conf :=
  let '(path, c) :=
    match path with
    | Some p => (Some p, keep RO_CONFIGPATH (set_configpath (Some p) c))
    | None => (match configpath c with Some p => if readable p then Some p else None | None => None end, c)
    end in
  match path with
  | None => Run c
  | Some p => match lua_load p with None => Exit Load_error | Some L => read_globals L c end
  end.
