(* ===== verification/Ctl.v ===== *)
(** * The control file system (libnpfs/ctl.c)

    A tree of synthetic files that a client sees when it attaches to [ctl].  The
    sibling list [child]/[next] of a directory is a Coq list, the newest file
    first.  What a file says comes from its [getf], a parameter; [mem] tells
    whether the allocation of an operation succeeds, [now] is the time. *)
From S2P Require Import Prelude Cbuf Protocol Npstring Fcall Conf.
From Stdlib Require Import String.
From stdpp Require Import list gmap.
#[local] Open Scope Z_scope.

Definition NP_CTL_FLAGS_DELAY100MS : Z := 1.
Definition NP_CTL_FLAGS_ZEROSRC : Z := 2.
Definition NP_CTL_FLAGS_SINK : Z := 4.
Definition S_IFDIR : Z := 0x4000.
Definition S_IFREG : Z := 0x8000.
Definition r_all : Z := 0x124.
Definition w_all : Z := 0x92.
Definition x_all : Z := 0x49.
Definition DT_DIR : Z := 4.
Definition DT_REG : Z := 8.
Definition EACCES : Z := 13.

Definition has_bit (v m : Z) : bool := negb (Z.land v m =? 0).

Definition file_id := positive.

Section Ctl.
(** The functions that give the text of a file. *)
Context {getter : Type}.
Context `{CHeap}.

Record Npfile := {
  f_name : cstr;
  f_qid : Npqid;
  f_getf : option getter;
  f_flags : Z;
  f_uid : Z;
  f_gid : Z;
  f_mode : Z;
  f_atime : Z * Z;
  f_mtime : Z * Z;
  f_ctime : Z * Z;
  f_child : list file_id;
}.

(** The private part of a fid. *)
Record Fid := { fd_file : file_id; fd_data : option cstr }.

(** [inum] is the counter of [_next_inum], [fresh_file] the next address. *)
Record ctl := {
  files : gmap file_id Npfile;
  ctlroot : option file_id;
  inum : Z;
  fresh_file : file_id;
}.

Definition set_files m s := {| files := m; ctlroot := ctlroot s; inum := inum s; fresh_file := fresh_file s |}.
Definition set_ctlroot r s := {| files := files s; ctlroot := r; inum := inum s; fresh_file := fresh_file s |}.
Definition set_f_atime t f := {| f_name := f_name f; f_qid := f_qid f; f_getf := f_getf f; f_flags := f_flags f;
  f_uid := f_uid f; f_gid := f_gid f; f_mode := f_mode f; f_atime := t; f_mtime := f_mtime f;
  f_ctime := f_ctime f; f_child := f_child f |}.

(** ** The tree *)

(** [_alloc_file] and the fields that its callers set. *)
Definition alloc_file (name : cstr) (type : Z) (getf : option getter) (flags : Z) (now : Z * Z) (s : ctl)
  : file_id * ctl :=
  let id := fresh_file s in
  let mode := if has_bit type Qtdir then Z.lor S_IFDIR (Z.lor r_all x_all) else Z.lor S_IFREG r_all in
  (id, {| files := <[id := {| f_name := name;
             f_qid := {| qtype := u8 (Z.lor type Qttmp); qversion := 0; qpath := inum s |};
             f_getf := getf; f_flags := flags; f_uid := 0; f_gid := 0;
             f_mode := if has_bit flags NP_CTL_FLAGS_SINK then Z.lor mode w_all else mode;
             f_atime := now; f_mtime := now; f_ctime := now; f_child := [] |}]> (files s);
          ctlroot := ctlroot s; inum := inum s + 1; fresh_file := Pos.succ id |}).

(** [file->next = parent->child; parent->child = file] and the time. *)
Definition add_child (parent id : file_id) (now : Z * Z) (s : ctl) : ctl :=
  set_files (alter (fun f => {| f_name := f_name f; f_qid := f_qid f; f_getf := f_getf f; f_flags := f_flags f;
    f_uid := f_uid f; f_gid := f_gid f; f_mode := f_mode f; f_atime := f_atime f; f_mtime := now;
    f_ctime := f_ctime f; f_child := id :: f_child f |}) parent (files s)) s.

(** The new file, or [None] with an error. *)
Definition add_node (parent : file_id) (name : cstr) (type : Z) (getf : option getter) (flags : Z) (mem : bool)
  (now : Z * Z) (s : ctl) : res (option file_id * Z * ctl) :=
  match files s !! parent with
  | None => UB
  | Some p =>
      if negb (has_bit (qtype (f_qid p)) Qtdir) then Ret (None, EINVAL, s)
      else if negb mem then Ret (None, ENOMEM, s)
      else let '(id, s) := alloc_file name type getf flags now s in
           Ret (Some id, 0, add_child parent id now s)
  end.

Definition np_ctl_addfile parent name (getf : option getter) flags := add_node parent name Qtfile getf flags.
Definition np_ctl_adddir parent name := add_node parent name Qtdir None 0.

(** [np_ctl_delfile]; [fuel] bounds the depth. *)
Fixpoint np_ctl_delfile (fuel : nat) (id : file_id) (m : gmap file_id Npfile) : res (gmap file_id Npfile) :=
  match fuel, m !! id with
  | S fuel, Some f =>
      let! m := (fix dels (l : list file_id) (m : gmap file_id Npfile) : res (gmap file_id Npfile) :=
                   match l with
                   | [] => Ret m
                   | c :: l => let! m := np_ctl_delfile fuel c m in dels l m
                   end) (f_child f) m in
      Ret (delete id m)
  | _, _ => UB
  end.

Definition np_ctl_finalize (s : ctl) : res ctl :=
  match ctlroot s with
  | None => Ret s
  | Some r => let! m := np_ctl_delfile (S (size (files s))) r (files s) in
              Ret (set_ctlroot None (set_files m s))
  end.

(** The files of the server itself. *)
Record standard := { get_version : getter; get_date : getter; get_proc : getter }.

Definition standard_files (g : standard) : list (cstr * option getter * Z) :=
  [(lit "version", Some (get_version g), 0);
   (lit "date", Some (get_date g), 0);
   (lit "zero", None, NP_CTL_FLAGS_ZEROSRC);
   (lit "zero100", None, Z.lor NP_CTL_FLAGS_ZEROSRC NP_CTL_FLAGS_DELAY100MS);
   (lit "null", None, NP_CTL_FLAGS_SINK);
   (lit "null100", None, Z.lor NP_CTL_FLAGS_SINK NP_CTL_FLAGS_DELAY100MS);
   (lit "meminfo", Some (get_proc g), 0);
   (lit "net.rpc.nfs", Some (get_proc g), 0)].

(** [mems]: which of the allocations succeed. *)
Fixpoint add_files (root : file_id) (fs : list (cstr * option getter * Z)) (mems : list bool) (now : Z * Z) (s : ctl)
  : res (bool * ctl) :=
  match fs with
  | [] => Ret (true, s)
  | (name, g, flags) :: fs =>
      let! (o, _, s) := np_ctl_addfile root name g flags (default true (head mems)) now s in
      match o with
      | None => Ret (false, s)
      | Some _ => add_files root fs (tail mems) now s
      end
  end.

Definition np_ctl_initialize (g : standard) (mem : bool) (mems : list bool) (now : Z * Z) (s : ctl)
  : res (bool * ctl) :=
  if negb mem then let! s := np_ctl_finalize s in Ret (false, s)
  else
    let '(root, s) := alloc_file (lit "root") Qtdir None 0 now s in
    let s := set_ctlroot (Some root) s in
    let! (ok, s) := add_files root (standard_files g) mems now s in
    if ok : bool then Ret (true, s) else let! s := np_ctl_finalize s in Ret (false, s).

(** ** Server callbacks

    The reply as the arguments of the [np_create_] function that builds it, or
    [None], and the error. *)

Inductive ctl_reply :=
| C_rattach (q : Npqid)
| C_rclunk
| C_rlopen (q : Npqid) (iounit : Z)
| C_rread (data : list Z)
| C_rreaddir (data : list Z)
| C_rgetattr (valid : Z) (q : Npqid) (mode uid gid nlink : Z) (atime mtime ctime : Z * Z)
| C_rsetattr
| C_rwrite (count : Z).

Definition reply (mem : bool) (r : ctl_reply) : option ctl_reply * Z :=
  if mem then (Some r, 0) else (None, ENOMEM).

Definition load_file (id : file_id) (s : ctl) : res Npfile :=
  match files s !! id with Some f => Ret f | None => UB end.

(** The type of the fid and its private part come with the reply. *)
Definition np_ctl_attach (mem : bool) (aname : cstr) (s : ctl) : res (option (ctl_reply * Z * Fid) * Z) :=
  let! _ := np_assert (bool_decide (aname = lit "ctl")) in
  match ctlroot s with
  | None => Ret (None, 0)
  | Some root =>
      let! f := load_file root s in
      Ret (if mem then Some (C_rattach (f_qid f), qtype (f_qid f), {| fd_file := root; fd_data := None |}) else None,
           if mem then 0 else ENOMEM)
  end.

Definition np_ctl_clone (mem : bool) (f : Fid) (s : ctl) : res (option Fid * Z) :=
  let! _ := load_file (fd_file f) s in
  Ret (if mem then Some {| fd_file := fd_file f; fd_data := None |} else None, if mem then 0 else ENOMEM).

(** The first child with the name. *)
Fixpoint find_child (pkt : list Z) (wname : Npstr) (l : list file_id) (s : ctl) : res (option file_id) :=
  match l with
  | [] => Ret None
  | id :: l =>
      let! f := load_file id s in
      let! c := np_strcmp pkt wname (f_name f) in
      if c =? 0 then Ret (Some id) else find_child pkt wname l s
  end.

Definition np_ctl_walk (pkt : list Z) (wname : Npstr) (f : Fid) (s : ctl) : res (option (Npqid * Fid) * Z) :=
  let! d := load_file (fd_file f) s in
  let! o := find_child pkt wname (f_child d) s in
  match o with
  | None => Ret (None, ENOENT)
  | Some id =>
      let! ff := load_file id s in
      Ret (Some (f_qid ff, {| fd_file := id; fd_data := fd_data f |}), 0)
  end.

Definition np_ctl_clunk (mem : bool) : option ctl_reply * Z := reply mem C_rclunk.

Definition O_RDONLY : Z := 0.

(** [type] is the type of the fid. *)
Definition np_ctl_lopen (mem : bool) (type mode : Z) (f : Fid) (s : ctl) : res (option ctl_reply * Z) :=
  let! ff := load_file (fd_file f) s in
  if (has_bit mode O_WRONLY || has_bit mode O_RDWR) && negb (has_bit (f_flags ff) NP_CTL_FLAGS_SINK)
  then Ret (None, EACCES)
  else if (has_bit mode O_RDONLY || has_bit mode O_RDWR) && bool_decide (f_getf ff = None) &&
          negb (has_bit type Qtdir) && negb (has_bit (f_flags ff) NP_CTL_FLAGS_ZEROSRC)
  then Ret (None, EACCES)
  else
    let! _ := np_assert (bool_decide (fd_data f = None)) in
    Ret (reply mem (C_rlopen (f_qid ff) 0)).

(** [getf now name]: the text of a file, or [None], and the error it sets. *)
Definition np_ctl_read (getf : getter -> cstr -> option cstr * Z) (mem : bool) (now : Z * Z) (offset count : Z)
  (f : Fid) (s : ctl) : res (option ctl_reply * Z * Fid * ctl) :=
  let! ff := load_file (fd_file f) s in
  if has_bit (f_flags ff) NP_CTL_FLAGS_ZEROSRC then
    Ret (reply mem (C_rread (replicate (Z.to_nat count) 0)), f, s)
  else
    let '(data, err) :=
      match fd_data f, f_getf ff with
      | None, Some g => getf g (f_name ff)
      | d, _ => (d, 0)
      end in
    let f := {| fd_file := fd_file f; fd_data := data |} in
    match data with
    | None =>
        if negb (err =? 0) then Ret (None, err, f, s)
        else let r := reply mem (C_rread []) in
             Ret (r, f, if mem then set_files (<[fd_file f := set_f_atime now ff]> (files s)) s else s)
    | Some text =>
        let len := strlen text in
        let offset := if len <? offset then len else offset in
        let count := if len - offset <? count then len - offset else count in
        let r := reply mem (C_rread (take (Z.to_nat count) (drop (Z.to_nat offset) text))) in
        Ret (r, f, if mem then set_files (<[fd_file f := set_f_atime now ff]> (files s)) s else s)
    end.

(** The loop of [np_ctl_readdir] from the [off]-th child on: the bytes of the
    entries, of which [n] are there already. *)
Fixpoint readdir_loop (offset count off n : Z) (l : list file_id) (s : ctl) : res (list Z) :=
  match l with
  | [] => Ret []
  | id :: l =>
      let! ff := load_file id s in
      if offset <=? off then
        let room := int32 (u32 (count - n)) in
        let! (i, buf) := np_serialize_p9dirent (f_qid ff) (off + 1)
                           (if has_bit (qtype (f_qid ff)) Qtdir then DT_DIR else DT_REG) (f_name ff)
                           (replicate (Z.to_nat (count - n)) 0) room in
        if i =? 0 then Ret []
        else let! rest := readdir_loop offset count (off + 1) (n + i) l s in
             Ret (take (Z.to_nat i) buf ++ rest)
      else readdir_loop offset count (off + 1) n l s
  end.

Definition np_ctl_readdir (mem : bool) (now : Z * Z) (offset count : Z) (f : Fid) (s : ctl)
  : res (option ctl_reply * Z * ctl) :=
  let! ff := load_file (fd_file f) s in
  if negb mem then Ret (None, ENOMEM, s)
  else
    let! data := readdir_loop offset count 0 0 (f_child ff) s in
    Ret (Some (C_rreaddir data), 0, set_files (<[fd_file f := set_f_atime now ff]> (files s)) s).

Definition np_ctl_getattr (mem : bool) (request_mask : Z) (f : Fid) (s : ctl) : res (option ctl_reply * Z) :=
  let! ff := load_file (fd_file f) s in
  let nsec t := (fst t, u64 (snd t * 1000)) in
  Ret (reply mem (C_rgetattr request_mask (f_qid ff) (f_mode ff) (f_uid ff) (f_gid ff) 1
    (nsec (f_atime ff)) (nsec (f_mtime ff)) (nsec (f_ctime ff)))).

Definition np_ctl_setattr (mem : bool) : option ctl_reply * Z := reply mem C_rsetattr.

Definition np_ctl_write (mem : bool) (count : Z) (f : Fid) (s : ctl) : res (option ctl_reply * Z) :=
  let! ff := load_file (fd_file f) s in
  if negb (has_bit (f_flags ff) NP_CTL_FLAGS_SINK) then Ret (None, ENOSYS)
  else Ret (reply mem (C_rwrite count)).
End Ctl.
