(* ===== verification/CtlSpec.v ===== *)
(** * Properties of the control file system (libnpfs/ctl.c) *)
From S2P Require Import Prelude Cbuf Protocol Npstring Fcall Conf Ctl.
From Stdlib Require Import String.
From stdpp Require Import list gmap.
#[local] Open Scope Z_scope.

(** ** Reading a file *)

Section Read.
Context {getter : Type} `{CHeap}.
Implicit Types s : ctl (getter := getter).

(** The reads of a client that goes on after the bytes it has until it gets none.
    At its [i]-th read it asks for [count i] bytes, the time is [now i], and the
    functions of the files say [getf i]. *)
Fixpoint read_text (getf : nat -> getter -> cstr -> option cstr * Z) (now : nat -> Z * Z) (count : nat -> Z)
  (fuel i : nat) (offset : Z) (f : Fid) (s : ctl) : res (option (list Z)) :=
  match fuel with
  | O => Ret None
  | S fuel =>
      let! (r, f, s) := np_ctl_read (getf i) true (now i) offset (count i) f s in
      match r with
      | (Some (C_rread []), _) => Ret (Some [])
      | (Some (C_rread data), _) =>
          let! rest := read_text getf now count fuel (S i) (offset + zlength data) f s in
          Ret (match rest with Some rest => Some (data ++ rest) | None => None end)
      | _ => Ret None
      end
  end.

Lemma read_text_S getf now count fuel i offset f s : read_text getf now count (S fuel) i offset f s =
  let! (r, f, s) := np_ctl_read (getf i) true (now i) offset (count i) f s in
  match r with
  | (Some (C_rread []), _) => Ret (Some [])
  | (Some (C_rread data), _) =>
      let! rest := read_text getf now count fuel (S i) (offset + zlength data) f s in
      Ret (match rest with Some rest => Some (data ++ rest) | None => None end)
  | _ => Ret None
  end.
Proof. done. Qed.

(** A fid on a text file that was read before: the text is the one of the first
    read. *)
Lemma ctl_read_text getf now offset count f s ff text : 0 <= offset -> 0 <= count ->
  files s !! fd_file f = Some ff -> has_bit (f_flags ff) NP_CTL_FLAGS_ZEROSRC = false ->
  fd_data f = Some text \/ (fd_data f = None /\ exists g, f_getf ff = Some g /\ (getf g (f_name ff)).1 = Some text) ->
  exists s', np_ctl_read getf true now offset count f s =
    Ret (Some (C_rread (take (Z.to_nat count) (drop (Z.to_nat offset) text))), 0,
         {| fd_file := fd_file f; fd_data := Some text |}, s') /\
    exists t, files s' = <[fd_file f := set_f_atime t ff]> (files s).
Proof.
  intros Ho Hc Ef Hz Hd. unfold np_ctl_read, load_file. rewrite Ef. cbn [res_bind]. rewrite Hz.
  assert (E : exists err, match fd_data f, f_getf ff with None, Some g => getf g (f_name ff) | d, _ => (d, 0) end =
    (Some text, err)).
  { destruct Hd as [->|(-> & g & -> & Hg)]; [by eexists|]. destruct (getf g (f_name ff)) as [o e].
    cbn in Hg. subst o. by eexists. }
  destruct E as [err ->]. exists (set_files (<[fd_file f := set_f_atime now ff]> (files s)) s). split; [|by exists now]. cbn [reply]. do 5 f_equal. unfold strlen, zlength.
  destruct (Z.ltb_spec (Z.of_nat (length text)) offset) as [Hlt|Hge].
  - rewrite (drop_ge text (Z.to_nat offset)) by lia. rewrite Z.sub_diag, Nat2Z.id, drop_all.
    by destruct (0 <? count); rewrite !take_nil.
  - destruct (Z.ltb_spec (Z.of_nat (length text) - offset) count) as [Hl|Hl]; [|done].
    rewrite !take_ge by (rewrite length_drop; lia). done.
Qed.

(** C28: a control file is read as one text.  A client that reads a text file in
    order, in pieces of any sizes, until a read is empty gets exactly the text that
    the file's function gave at the first read, whatever the function would say
    at the later ones (another text, none, an error), in at most one read per byte
    and one more. *)
Theorem ctl_read_whole getf now count f s ff g text :
  (forall i, 0 < count i) -> files s !! fd_file f = Some ff -> fd_data f = None -> f_getf ff = Some g ->
  has_bit (f_flags ff) NP_CTL_FLAGS_ZEROSRC = false -> (getf 0%nat g (f_name ff)).1 = Some text ->
  read_text getf now count (S (length text)) 0 0 f s = Ret (Some text).
Proof.
  intros Hc Ef Hd Hg Hz Ht.
  assert (K : forall fuel i offset f s ff, (length text - offset <= fuel)%nat -> (offset <= length text)%nat ->
    files s !! fd_file f = Some ff -> has_bit (f_flags ff) NP_CTL_FLAGS_ZEROSRC = false ->
    fd_data f = Some text \/ (fd_data f = None /\ exists g, f_getf ff = Some g /\ (getf i g (f_name ff)).1 = Some text) ->
    read_text getf now count (S fuel) i (Z.of_nat offset) f s = Ret (Some (drop offset text))).
  { clear dependent ff. clear f s Hd. intros fuel. induction fuel as [|fuel IH]; intros i offset f s ff Hf Hle Ef Hz Hd;
      pose proof (Hc i) as Hci;
      rewrite read_text_S; destruct (ctl_read_text (getf i) (now i) (Z.of_nat offset) (count i) f s ff text) as (s' & -> & t & Es');
      try done; try lia; cbn [res_bind]; rewrite Nat2Z.id.
    - assert (offset = length text) as -> by lia. by rewrite drop_all, take_nil.
    - destruct (take (Z.to_nat (count i)) (drop offset text)) as [|b l] eqn:E.
      + assert (Hn : drop offset text = []).
        { destruct (drop offset text); [done|]. destruct (Z.to_nat (count i)) eqn:Ec; [lia|done]. }
        by rewrite Hn.
      + rewrite <- E. assert (Hl : zlength (take (Z.to_nat (count i)) (drop offset text)) =
          Z.of_nat (Nat.min (Z.to_nat (count i)) (length text - offset))).
        { unfold zlength. by rewrite length_take, length_drop. }
        rewrite Hl. set (k := Nat.min (Z.to_nat (count i)) (length text - offset)).
        assert (Hk : (0 < k)%nat).
        { apply (f_equal length) in E. rewrite length_take, length_drop in E. cbn in E. unfold k. lia. }
        rewrite <- Nat2Z.inj_add.
        rewrite (IH (S i) (offset + k)%nat _ s' (set_f_atime t ff)); [| | |by rewrite Es', lookup_insert_eq|done|by left].
        * cbn [res_bind]. do 2 f_equal.
          assert (Ek : take (Z.to_nat (count i)) (drop offset text) = take k (drop offset text)).
          { unfold k. destruct (Nat.min_spec (Z.to_nat (count i)) (length text - offset)) as [[_ ->]|[Hm ->]]; [done|].
            rewrite !take_ge; [done| |]; rewrite length_drop; lia. }
          rewrite Ek, <- drop_drop. apply take_drop.
        * lia.
        * unfold k. lia. }
  change 0 with (Z.of_nat 0). rewrite (K (length text) 0%nat 0%nat f s ff); [done|lia|lia|done|done|]. right. split; [done|]. eauto.
Qed.
End Read.

(** ** Listing a directory *)

Section List.
Context {getter : Type} `{CHeap}.
Implicit Types s : ctl (getter := getter).

Definition d_type_of (ff : Npfile (getter := getter)) : Z :=
  if has_bit (qtype (f_qid ff)) Qtdir then DT_DIR else DT_REG.

(** The files of a directory are there and their entries fit into a reply. *)
Definition listable (count : Z) s (id : file_id) : Prop :=
  exists ff, files s !! id = Some ff /\ strlen (f_name ff) < 2 ^ 16 /\ 24 + strlen (f_name ff) <= count.

(** The entries of the files [l], of which the first is the [off]-th. *)
Fixpoint dirents s (off : Z) (l : list file_id) : list (list Z * p9dirent) :=
  match l with
  | [] => []
  | id :: l =>
      match files s !! id with
      | None => []
      | Some ff =>
          (dirent_bytes (f_qid ff) (off + 1) (d_type_of ff) (f_name ff),
           {| d_qid := {| qtype := u8 (qtype (f_qid ff)); qversion := u32 (qversion (f_qid ff));
                          qpath := u64 (qpath (f_qid ff)) |};
              d_offset := u64 (off + 1); d_type := u8 (d_type_of ff); d_name := f_name ff |})
          :: dirents s (off + 1) l
      end
  end.

Lemma store_take m bs m' : store_bytes m 0 bs = Ret m' -> take (length bs) m' = bs.
Proof.
  intros S. pose proof (store_bytes_length _ _ _ _ S) as Hl. apply list_eq. intros i.
  destruct (decide (i < length bs)%nat) as [Hi|Hi].
  - rewrite lookup_take_lt by done. exact (store_bytes_lookup_in _ _ _ _ i S Hi).
  - rewrite lookup_take_ge, lookup_ge_None_2 by lia. done.
Qed.

Lemma readdir_loop_fills offset count l s : count < 2 ^ 31 -> Forall (listable count s) l ->
  forall off n, offset <= off -> 0 <= n <= count ->
  exists k, (k <= length l)%nat /\
    readdir_loop offset count off n l s = Ret (concat (take k (dirents s off l).*1)) /\
    (n = 0 -> l <> [] -> (1 <= k)%nat) /\ zlength (concat (take k (dirents s off l).*1)) <= count - n.
Proof.
  intros Hc. induction 1 as [|id l (ff & Ef & Hn & Hf) Hl IH]; intros off n Ho Hb.
  { exists 0%nat. do 3 (split; [done|]). rewrite take_0. unfold zlength. cbn [length concat]. lia. }
  cbn [readdir_loop dirents]. unfold load_file. rewrite Ef. cbn [res_bind]. rewrite (proj2 (Z.leb_le _ _)) by lia.
  rewrite u32_small, int32_small by lia. fold (d_type_of ff). pose proof (strlen_nonneg (f_name ff)).
  destruct (Z.le_gt_cases (24 + strlen (f_name ff)) (count - n)) as [Hfit|Hno].
  - destruct (serialize_fits (f_qid ff) (off + 1) (d_type_of ff) (f_name ff) (replicate (Z.to_nat (count - n)) 0)
      (count - n)) as (buf & -> & Hst); [lia|unfold zlength; rewrite length_replicate; lia|done|done|].
    cbn [res_bind]. rewrite (proj2 (Z.eqb_neq _ _)) by lia.
    destruct (IH (off + 1) (n + (24 + strlen (f_name ff)))) as (k & Hk & -> & _ & Hsz); [lia..|].
    pose proof (zlength_dirent (f_qid ff) (off + 1) (d_type_of ff) (f_name ff)) as Hz.
    exists (S k). split; [cbn; lia|]. cbn [res_bind fmap list_fmap take concat fst].
    split; [|split; [lia|rewrite zlength_app, Hz; lia]]. do 2 f_equal.
    unfold zlength in Hz. rewrite <- Hz, Nat2Z.id. by eapply store_take.
  - rewrite serialize_short by lia. cbn [res_bind]. exists 0%nat. split; [lia|]. split; [done|]. split; [lia|]. rewrite take_0. unfold zlength. cbn [length concat]. lia.
Qed.

Lemma readdir_loop_skips offset count l s : Forall (listable count s) l ->
  forall off n, 0 <= off -> (Z.to_nat offset <= Z.to_nat off + length l)%nat -> off <= offset ->
  readdir_loop offset count off n l s =
  readdir_loop offset count offset n (drop (Z.to_nat (offset - off)) l) s.
Proof.
  induction 1 as [|id l (ff & Ef & Hn & Hf) Hl IH]; intros off n H0 Ho Hle; [by rewrite drop_nil|].
  destruct (decide (off = offset)) as [->|Hne]; [by rewrite Z.sub_diag|].
  cbn [readdir_loop]. unfold load_file. rewrite Ef. cbn [res_bind]. rewrite (proj2 (Z.leb_gt _ _)) by lia.
  cbn [length] in Ho. rewrite IH by lia.
  replace (Z.to_nat (offset - off)) with (S (Z.to_nat (offset - (off + 1)))) by lia. done.
Qed.

(** What a client reads from the bytes of a reply. *)
Fixpoint entries (namelen : Z) (fuel : nat) (buf : list Z) : res (list p9dirent) :=
  match fuel with
  | O => Ret []
  | S fuel =>
      let! (n, o) := np_deserialize_p9dirent namelen buf (zlength buf) in
      match o with
      | None => Ret []
      | Some e => let! es := entries namelen fuel (drop (Z.to_nat n) buf) in Ret (e :: es)
      end
  end.

Lemma entries_nil namelen fuel : entries namelen fuel [] = Ret [].
Proof. by destruct fuel. Qed.

Lemma entries_dirents namelen count s l : count < namelen -> Forall (listable count s) l -> forall off k fuel,
  zlength (concat (take k (dirents s off l).*1)) < 2 ^ 31 ->
  (length (concat (take k (dirents s off l).*1)) <= fuel)%nat ->
  entries namelen fuel (concat (take k (dirents s off l).*1)) = Ret (take k (dirents s off l).*2).
Proof.
  intros Hnl. induction 1 as [|id l (ff & Ef & Hn & Hf) Hl IH]; intros off k fuel Hz Hfu.
  { destruct k; apply entries_nil. }
  destruct k as [|k]; [apply entries_nil|]. cbn [dirents] in *. rewrite Ef in *. cbn [fmap list_fmap take concat fst snd] in *.
  set (bs := dirent_bytes (f_qid ff) (off + 1) (d_type_of ff) (f_name ff)) in *.
  set (rest := concat (take k (dirents s (off + 1) l).*1)) in *.
  pose proof (zlength_dirent (f_qid ff) (off + 1) (d_type_of ff) (f_name ff)) as Hb. fold bs in Hb.
  pose proof (strlen_nonneg (f_name ff)). rewrite zlength_app in Hz. rewrite length_app in Hfu.
  unfold zlength in Hz, Hb. destruct fuel as [|fuel]; [lia|]. cbn [entries].
  rewrite (deserialize_at (f_qid ff) (off + 1) (d_type_of ff) (f_name ff));
    [|unfold zlength; rewrite ?length_app; lia..|].
  2:{ intros i Hi. by apply lookup_app_l. }
  cbn [res_bind]. rewrite <- Hb, Nat2Z.id, drop_app_length. unfold rest. rewrite IH; [done|fold rest; unfold zlength; lia|].
  fold rest. lia.
Qed.

(** The requests of a client that lists a directory: it goes on after the last
    entry that it has until a reply is empty. *)
Fixpoint list_dir (now : Z * Z) (namelen : Z) (fuel : nat) (offset count : Z) (f : Fid) s
  : res (option (list p9dirent)) :=
  match fuel with
  | O => Ret None
  | S fuel =>
      let! (r, _, s) := np_ctl_readdir true now offset count f s in
      match r with
      | Some (C_rreaddir data) =>
          let! es := entries namelen (length data) data in
          match last es with
          | None => Ret (Some [])
          | Some e =>
              let! rest := list_dir now namelen fuel (d_offset e) count f s in
              Ret (match rest with Some rest => Some (es ++ rest) | None => None end)
          end
      | _ => Ret None
      end
  end.

Lemma list_dir_S now namelen fuel offset count f s : list_dir now namelen (S fuel) offset count f s =
  let! (r, _, s) := np_ctl_readdir true now offset count f s in
  match r with
  | Some (C_rreaddir data) =>
      let! es := entries namelen (length data) data in
      match last es with
      | None => Ret (Some [])
      | Some e =>
          let! rest := list_dir now namelen fuel (d_offset e) count f s in
          Ret (match rest with Some rest => Some (es ++ rest) | None => None end)
      end
  | _ => Ret None
  end.
Proof. done. Qed.

Lemma dirents_atime s id ff t off l : files s !! id = Some ff ->
  dirents (set_files (<[id := set_f_atime t ff]> (files s)) s) off l = dirents s off l.
Proof.
  intros Ef. revert off. induction l as [|c l IH]; intros off; [done|]. cbn [dirents files set_files].
  rewrite lookup_insert. case_decide as Hc; [subst c; rewrite Ef|]; cbn [f_qid f_name set_f_atime].
  - unfold d_type_of. cbn [f_qid set_f_atime]. f_equal. apply IH.
  - destruct (files s !! c); [|done]. f_equal. apply IH.
Qed.

Lemma listable_atime count s id ff t c : files s !! id = Some ff -> listable count s c ->
  listable count (set_files (<[id := set_f_atime t ff]> (files s)) s) c.
Proof.
  intros Ef (fc & Ec & H1 & H2). unfold listable. cbn [files set_files]. rewrite lookup_insert. case_decide as Hc.
  - subst c. rewrite Ef in Ec. injection Ec as <-. by exists (set_f_atime t ff).
  - by exists fc.
Qed.

Lemma dirents_drop s l count k off : Forall (listable count s) l ->
  dirents s (off + Z.of_nat k) (drop k l) = drop k (dirents s off l).
Proof.
  intros Hl. revert off k. induction Hl as [|id l (ff & Ef & _) Hl IH]; intros off k; [by destruct k|].
  destruct k as [|k]; [by rewrite Z.add_0_r|]. cbn [drop dirents]. rewrite Ef. cbn [drop].
  rewrite <- IH. f_equal. lia.
Qed.

Lemma dirents_length s l count off : Forall (listable count s) l -> length (dirents s off l) = length l.
Proof.
  intros Hl. revert off. induction Hl as [|id l (ff & Ef & _) Hl IH]; intros off; [done|]. cbn [dirents].
  rewrite Ef. cbn. by rewrite IH.
Qed.

Lemma dirents_offset s l count off k e : Forall (listable count s) l -> (dirents s off l).*2 !! k = Some e ->
  d_offset e = u64 (off + Z.of_nat k + 1).
Proof.
  intros Hl. revert off k. induction Hl as [|id l (ff & Ef & _) Hl IH]; intros off k; [by destruct k|].
  cbn [dirents]. rewrite Ef. destruct k as [|k]; cbn; [intros [= <-]; cbn; f_equal; lia|].
  intros E. rewrite (IH _ _ E). f_equal. lia.
Qed.

(** One reply: the next entries, at least one of them if there is one left. *)
Lemma readdir_reply now namelen count f s ff k : 0 <= count < 2 ^ 31 -> count < namelen ->
  files s !! fd_file f = Some ff -> Forall (listable count s) (f_child ff) -> (k <= length (f_child ff))%nat ->
  exists n data, np_ctl_readdir true now (Z.of_nat k) count f s = Ret (Some (C_rreaddir data), 0,
      set_files (<[fd_file f := set_f_atime now ff]> (files s)) s) /\
    (k + n <= length (f_child ff))%nat /\ ((k < length (f_child ff))%nat -> (1 <= n)%nat) /\
    entries namelen (length data) data = Ret (take n (drop k (dirents s 0 (f_child ff)).*2)).
Proof.
  intros Hc Hn Ef Hl Hk. assert (Hd : Forall (listable count s) (drop k (f_child ff))) by (by apply Forall_drop).
  destruct (readdir_loop_fills (Z.of_nat k) count (drop k (f_child ff)) s (proj2 Hc) Hd (Z.of_nat k) 0)
    as (n & Hle & E & Hpos & Hsz); [lia..|].
  exists n, (concat (take n (dirents s (Z.of_nat k) (drop k (f_child ff))).*1)). split.
  { unfold np_ctl_readdir, load_file. rewrite Ef. cbn [res_bind negb].
    rewrite (readdir_loop_skips (Z.of_nat k) count _ s Hl 0 0) by lia.
    replace (Z.to_nat (Z.of_nat k - 0)) with k by lia. by rewrite E. }
  rewrite length_drop in Hle. split; [lia|]. split.
  { intros Hlt. apply Hpos; [done|]. intros Hnil. apply (f_equal length) in Hnil. rewrite length_drop in Hnil.
    cbn in Hnil. lia. }
  rewrite (entries_dirents namelen count s (drop k (f_child ff))); [|lia|done|lia|lia].
  rewrite <- (Z.add_0_l (Z.of_nat k)), (dirents_drop s (f_child ff) count) by done. by rewrite fmap_drop.
Qed.

Lemma last_take_drop {A} (l : list A) k n : (0 < n)%nat -> (k + n <= length l)%nat ->
  exists x, last (take n (drop k l)) = Some x /\ l !! (k + n - 1)%nat = Some x.
Proof.
  intros Hn Hl. destruct (lookup_lt_is_Some_2 l (k + n - 1)%nat) as [x Ex]; [lia|]. exists x. split; [|done].
  rewrite last_lookup, length_take, length_drop, lookup_take_lt, lookup_drop by lia. rewrite <- Ex. f_equal. lia.
Qed.

(** Listing a control directory.  A client with room for the longest entry
    gets every file of the directory exactly once and in order, however many
    requests it needs. *)
Theorem ctl_list_whole now namelen count f s ff : 0 <= count < 2 ^ 31 -> count < namelen ->
  files s !! fd_file f = Some ff -> Forall (listable count s) (f_child ff) ->
  Z.of_nat (length (f_child ff)) < 2 ^ 64 ->
  list_dir now namelen (S (length (f_child ff))) 0 count f s = Ret (Some (dirents s 0 (f_child ff)).*2).
Proof.
  intros Hc Hn Ef Hl Hmax.
  assert (K : forall fuel k s ff, files s !! fd_file f = Some ff -> Forall (listable count s) (f_child ff) ->
    Z.of_nat (length (f_child ff)) < 2 ^ 64 -> (k <= length (f_child ff) <= k + fuel)%nat ->
    list_dir now namelen (S fuel) (Z.of_nat k) count f s = Ret (Some (drop k (dirents s 0 (f_child ff)).*2))).
  { clear dependent ff. clear s. intros fuel. induction fuel as [|fuel IH]; intros k s ff Ef Hl Hmax Hk;
      rewrite list_dir_S; destruct (readdir_reply now namelen count f s ff k) as (n & data & -> & Hle & Hpos & E);
      try done; try lia; cbn [res_bind]; rewrite E; cbn [res_bind];
      assert (Hlen : length (dirents s 0 (f_child ff)).*2 = length (f_child ff))
        by (rewrite length_fmap; by eapply dirents_length).
    - assert (n = 0%nat) as -> by lia. rewrite drop_ge by (rewrite Hlen; lia). done.
    - destruct (decide (k = length (f_child ff))) as [->|Hne].
      { assert (n = 0%nat) as -> by lia. rewrite drop_ge by (rewrite Hlen; lia). done. }
      destruct (last_take_drop (dirents s 0 (f_child ff)).*2 k n) as (e & -> & Ee); [lia..|].
      rewrite (dirents_offset s (f_child ff) count 0 _ e Hl Ee), u64_small by lia.
      replace (0 + Z.of_nat (k + n - 1) + 1) with (Z.of_nat (k + n)) by lia.
      rewrite (IH (k + n)%nat _ (set_f_atime now ff)); cbn [files set_files f_child set_f_atime].
      + cbn [res_bind]. rewrite dirents_atime by done. rewrite <- drop_drop. by rewrite take_drop.
      + by rewrite lookup_insert_eq.
      + eapply Forall_impl; [exact Hl|]. intros c. by apply listable_atime.
      + done.
      + lia. }
  change 0 with (Z.of_nat 0) at 1. rewrite (K (length (f_child ff)) 0%nat s ff); [done|done|done|done|lia].
Qed.
End List.

(** ** Opening a file that was read *)

(** A read before the open.  A client may read a control file that it has
    not opened; when it opens the fid afterwards, or opens it a second time
    after a read, the assertion that no text is there fails and the server
    aborts. *)
Theorem ctl_open_after_read {getter : Type} getf now offset count mem type f (s : ctl (getter := getter)) ff g text :
  0 <= offset -> 0 <= count ->
  files s !! fd_file f = Some ff -> fd_data f = None -> f_getf ff = Some g ->
  has_bit (f_flags ff) NP_CTL_FLAGS_ZEROSRC = false -> (getf g (f_name ff)).1 = Some text ->
  exists data f' s', np_ctl_read getf true now offset count f s = Ret (Some (C_rread data), 0, f', s') /\
    np_ctl_lopen mem type O_RDONLY f' s' = Abort.
Proof.
  intros Ho Hc Ef Hd Hg Hz Ht.
  destruct (ctl_read_text getf now offset count f s ff text) as (s' & E & t & Es'); [done..|by eauto|].
  do 3 eexists. split; [exact E|]. unfold np_ctl_lopen, load_file. cbn [fd_file fd_data].
  rewrite Es', lookup_insert_eq. done.
Qed.

(** The tree of a server; its text files hold their names. *)
Definition demo_getf (g : unit) (name : cstr) : option cstr * Z := (Some name, 0).
Definition demo_ctl : ctl (getter := unit) :=
  match np_ctl_initialize {| get_version := tt; get_date := tt; get_proc := tt |} true [] (0, 0)
          {| files := ∅; ctlroot := None; inum := 1; fresh_file := 1%positive |} with
  | Ret (_, s) => s
  | _ => {| files := ∅; ctlroot := None; inum := 1; fresh_file := 1%positive |}
  end.
Definition demo_fid (id : file_id) : Fid := {| fd_file := id; fd_data := None |}.

(** Files that say their name at first and then something else. *)
Definition changing_getf (i : nat) (g : unit) (name : cstr) : option cstr * Z :=
  if decide (i = 0%nat) then (Some name, 0) else (Some (lit "other"), 0).

Lemma ctl_read_whole_witness :
  read_text changing_getf (fun _ => (0, 0)) (fun _ => 3) 8 0 0 (demo_fid 2%positive) demo_ctl = Ret (Some (lit "version")).
Proof.
  eapply (ctl_read_whole changing_getf (fun _ => (0, 0)) (fun _ => 3) (demo_fid 2%positive) demo_ctl _ tt (lit "version"));
    [lia|vm_compute; reflexivity|reflexivity|vm_compute; reflexivity..].
Defined.

Lemma ctl_open_after_read_witness : exists data f' s',
  np_ctl_read demo_getf true (0, 0) 0 3 (demo_fid 2%positive) demo_ctl = Ret (Some (C_rread data), 0, f', s') /\
  np_ctl_lopen true 0 O_RDONLY f' s' = Abort.
Proof.
  eapply (ctl_open_after_read demo_getf (0, 0) 0 3 true 0 (demo_fid 2%positive) demo_ctl _ tt (lit "version"));
    [lia|lia|vm_compute; reflexivity|reflexivity|vm_compute; reflexivity..].
Defined.

#[local] Existing Instance big_heap.

Lemma ctl_list_whole_witness :
  match list_dir (0, 0) 100 9 0 60 (demo_fid 1%positive) demo_ctl with
  | Ret (Some es) => (fun e => d_name e) <$> es
  | _ => []
  end = [lit "net.rpc.nfs"; lit "meminfo"; lit "null100"; lit "null"; lit "zero100"; lit "zero"; lit "date"; lit "version"].
Proof.
  destruct (files demo_ctl !! 1%positive) as [ff|] eqn:Ef; [|vm_compute in Ef; discriminate].
  assert (K : list_dir (0, 0) 100 (S (length (f_child ff))) 0 60 (demo_fid 1%positive) demo_ctl =
    Ret (Some (dirents demo_ctl 0 (f_child ff)).*2)).
  { apply (ctl_list_whole (0, 0) 100 60 (demo_fid 1%positive) demo_ctl ff); [lia|lia|exact Ef| |].
    - vm_compute in Ef. injection Ef as <-. cbn [f_child].
      repeat (apply Forall_cons_2; [eexists; split; [vm_compute; reflexivity|vm_compute; split; [reflexivity|discriminate]]|]).
      apply Forall_nil_2.
    - vm_compute in Ef. injection Ef as <-. vm_compute. reflexivity. }
  vm_compute in Ef. injection Ef as <-. cbn [f_child length] in K. rewrite K. vm_compute. reflexivity.
Defined.
