(* ===== verification/Exports.v ===== *)
(** * Access to exports (libdiod/diod_exp.c, diod_ops.c)

    Which anames a client may attach to, with which flags, and when it has to
    authenticate.  The host lists of liblsd are a parameter. *)
From S2P Require Import Prelude Cbuf Npstring Protocol Fidpool Conf.
From Stdlib Require Import String.
From stdpp Require Import list.
#[local] Open Scope Z_scope.

Definition CONN_FLAGS_PRIVPORT : Z := 1.
Definition DIOD_FID_FLAGS_ROFS : Z := 1.

(** What is used of a connection. *)
Record client := { client_id : cstr; client_flags : Z }.

(** [s1[i] == s2[i]] for the first [n] bytes: [strncmp (s1, s2, n) == 0]. *)
Fixpoint same_prefix (n : nat) (s1 s2 : cstr) : bool :=
  match n, s1, s2 with
  | O, _, _ => true
  | S n, a :: s1, b :: s2 => (a =? b) && same_prefix n s1 s2
  | S _, [], [] => true
  | _, _, _ => false
  end.

(** [while (xlen > 0 && x->path[xlen - 1] == '/') xlen--] *)
Fixpoint trim_len (path : cstr) (xlen : nat) : nat :=
  match xlen with
  | O => O
  | S n => if bool_decide (path !! n = Some slash) then trim_len path n else xlen
  end.

Definition match_export_path (x : Export) (path : cstr) : bool :=
  let plen := length path in
  if bool_decide (x_path x = lit "/") && negb (bool_decide (path = lit "ctl")) then true
  else
    let xlen := trim_len (x_path x) (length (x_path x)) in
    if (plen =? xlen)%nat && same_prefix plen (x_path x) path then true
    else (xlen <? plen)%nat && bool_decide (path !! xlen = Some slash).

Definition match_export_users (x : Export) : bool :=
  match x_users x with None => true | Some _ => false end.

Section Match.
(** liblsd: a host list, and whether a host is on it. *)
Variable hostlist : Type.
Variable hostlist_create : cstr -> option hostlist.
Variable hostlist_find : hostlist -> cstr -> Z.
(** Whether there is memory for a list iterator. *)
Variable iterator : bool.

(** The result and the error, as [np_rerror] gives it. *)
Definition match_export_hosts (x : Export) (conn : client) (err : Z) : bool * Z :=
  if negb (Z.land (x_oflags x) XFLAGS_PRIVPORT =? 0) && (Z.land (client_flags conn) CONN_FLAGS_PRIVPORT =? 0)
  then (false, EPERM)
  else match x_hosts x with
       | None => (true, err)
       | Some h =>
           match hostlist_create h with
           | None => (false, ENOMEM)
           | Some hl => (negb (hostlist_find hl (client_id conn) =? -1), err)
           end
       end.

(** The flags of the first export that has the path. *)
Fixpoint first_export (path : cstr) (xs : list Export) : option Z :=
  match xs with
  | [] => None
  | x :: xs => if match_export_path x path then Some (x_oflags x) else first_export path xs
  end.

(** [exports]: what [diod_conf_get_mounts] returned. *)
Definition match_mounts (path : cstr) (mounts : option (list Export)) (err : Z) : option Z * Z :=
  match mounts with
  | None => (None, ENOMEM)
  | Some xs =>
      if negb iterator then (None, ENOMEM)
      else match first_export path xs with
           | Some xf => (Some xf, err)
           | None => (None, EPERM)
           end
  end.

(** How the loop of [diod_match_exports] ends. *)
Inductive loop_end := At_end | Goto_done | Found (xf : Z).

Fixpoint exports_loop (path : cstr) (conn : client) (xs : list Export) (err : Z) : loop_end * Z :=
  match xs with
  | [] => (At_end, err)
  | x :: xs =>
      if negb (match_export_path x path) then exports_loop path conn xs err
      else if negb (Z.land (x_oflags x) XFLAGS_SUPPRESS =? 0) then (Goto_done, err)
      else
        let '(ok, err) := match_export_hosts x conn err in
        if negb ok then (Goto_done, err)
        else if negb (match_export_users x) then (Goto_done, err)
        else (Found (x_oflags x), err)
  end.

(** [Some xf]: allowed, with these flags. *)
Definition diod_match_exports (c : Conf) (mounts : option (list Export)) (path : cstr) (conn : client) (err : Z)
  : option Z * Z :=
  if strstr path (lit "/..") then (None, EPERM)
  else if negb iterator then (None, ENOMEM)
  else
    match exports_loop path conn (exports c) err with
    | (Goto_done, err) => (None, err)
    | (Found xf, err) => (Some xf, err)
    | (At_end, err) =>
        let '(r, err) := if negb (exportall c =? 0) then match_mounts path mounts err else (None, err) in
        match r with
        | Some xf => (Some xf, err)
        | None => (None, if err =? 0 then EPERM else err)
        end
    end.

(** [path]: [np_strdup (aname)], or [None] without memory. *)
Definition diod_fetch_xflags (c : Conf) (path : option cstr) : option Z :=
  match path with
  | None => None
  | Some p => if strstr p (lit "/..") then None
              else if negb iterator then None else first_export p (exports c)
  end.

(** The result, the flags that [fid->flags] gains, and the error. *)
Definition diod_exportok (c : Conf) (mounts : option (list Export)) (aname : option cstr) (conn : client) (err : Z)
  : bool * Z * Z :=
  match aname with
  | None => (false, 0, err)
  | Some a =>
      if strlen a =? 0 then (false, 0, err)
      else if negb (bool_decide (head a = Some slash)) && negb (bool_decide (a = lit "ctl")) then (false, 0, err)
      else
        match diod_match_exports c mounts a conn err with
        | (None, err) => (false, 0, err)
        | (Some xf, err) =>
            (true, if negb (Z.land xf DIOD_FID_FLAGS_ROFS =? 0) then FID_FLAGS_ROFS else 0, err)
        end
  end.

Definition diod_auth_required (c : Conf) (path : option cstr) : bool :=
  if auth_required c =? 0 then false
  else match diod_fetch_xflags c path with
       | Some xf => Z.land xf XFLAGS_NOAUTH =? 0
       | None => true
       end.

(** ** The text of ctl/exports *)

(** [aspf (sp, lp, "%s %s %s %s\n", ...)]; [None] is the string before the first
    line. *)
Definition export_line (x : Export) (s : option cstr) : option cstr :=
  let field o := match o with Some f => f | None => lit "-" end in
  Some (default [] s ++ x_path x ++ [space] ++ field (x_opts x) ++ [space] ++ field (x_users x) ++ [space] ++
        field (x_hosts x) ++ [newline]).

(** The loops of [diod_get_exports] and [_get_mounts]: [seen] has the paths that
    were listed or suppressed. *)
Fixpoint list_exports (suppress : bool) (xs : list Export) (s : option cstr) (seen : list cstr)
  : option cstr * list cstr :=
  match xs with
  | [] => (s, seen)
  | x :: xs =>
      if bool_decide (x_path x ∈ seen) then list_exports suppress xs s seen
      else
        let s := if suppress && negb (Z.land (x_oflags x) XFLAGS_SUPPRESS =? 0) then s else export_line x s in
        list_exports suppress xs s (seen ++ [x_path x])
  end.

Definition get_mounts (mounts : option (list Export)) (s : option cstr) (seen : list cstr) (err : Z)
  : option cstr * Z :=
  match mounts with
  | None => (None, ENOMEM)
  | Some xs => if negb iterator then (None, ENOMEM) else ((list_exports false xs s seen).1, err)
  end.

Definition diod_get_exports (c : Conf) (mounts : option (list Export)) (err : Z) : option cstr * Z :=
  if negb iterator then (None, ENOMEM)
  else
    let '(s, seen) := list_exports true (exports c) None [] in
    if negb (exportall c =? 0) then get_mounts mounts s seen err else (s, err).
End Match.

(** ** What a client may attach to *)

(** The path of an export without trailing slashes. *)
Definition trimmed (p : cstr) : cstr := take (trim_len p (length p)) p.

(** The export is the path or a directory above it. *)
Definition above (p path : cstr) : Prop :=
  path = trimmed p \/ exists rest, path = trimmed p ++ slash :: rest.

Lemma trim_len_le p n : (trim_len p n <= n)%nat.
Proof. induction n as [|n IH]; cbn; [done|]. case_bool_decide; lia. Qed.

Lemma trimmed_length p : length (trimmed p) = trim_len p (length p).
Proof. unfold trimmed. rewrite length_take. pose proof (trim_len_le p (length p)). lia. Qed.

Lemma same_prefix_take n s1 s2 : length s2 = n -> (n <= length s1)%nat ->
  same_prefix n s1 s2 = true <-> s2 = take n s1.
Proof.
  revert s1 s2. induction n as [|n IH]; intros s1 s2 H2 H1.
  - destruct s2; [done|discriminate].
  - destruct s2 as [|b s2]; [done|]. destruct s1 as [|a s1]; [cbn in H1; lia|]. cbn in *.
    rewrite andb_true_iff, Z.eqb_eq, (IH s1 s2) by lia. split; [by intros [-> ->]|by intros [= -> ->]].
Qed.

Lemma lookup_split (p : cstr) n c : p !! n = Some c -> exists a b, p = a ++ c :: b /\ length a = n.
Proof.
  intros E. exists (take n p), (drop (S n) p). split; [by rewrite take_drop_middle|].
  rewrite length_take. apply lookup_lt_Some in E. lia.
Qed.

Lemma lookup_at (a b : cstr) c n : length a = n -> (a ++ c :: b : cstr) !! n = Some c.
Proof. intros <-. unfold cstr. rewrite lookup_app_r by lia. by rewrite Nat.sub_diag. Qed.

(** The paths of an export.  An export other than the root matches the
    path that it names, every path below it, and also every other path with a
    slash at the position where the path of the export ends. *)
Theorem match_export_path_spec x path :
  match_export_path x path = true <->
  (x_path x = lit "/" /\ path <> lit "ctl") \/ above (x_path x) path \/
  exists pre rest, path = pre ++ slash :: rest /\ length pre = length (trimmed (x_path x)) /\
    pre <> trimmed (x_path x).
Proof.
  unfold match_export_path. set (n := trim_len (x_path x) (length (x_path x))).
  assert (Hn : length (trimmed (x_path x)) = n) by apply trimmed_length.
  assert (Hle : (n <= length (x_path x))%nat) by apply trim_len_le.
  destruct (bool_decide (x_path x = lit "/") && negb (bool_decide (path = lit "ctl"))) eqn:Er.
  { apply andb_true_iff in Er as [H1%bool_decide_eq_true H2%negb_true_iff%bool_decide_eq_false]. naive_solver. }
  assert (Hr : ~ (x_path x = lit "/" /\ path <> lit "ctl")).
  { intros [H1 H2]. rewrite (bool_decide_eq_true_2 _ H1), (bool_decide_eq_false_2 _ H2) in Er. done. }
  destruct ((length path =? n)%nat && same_prefix (length path) (x_path x) path) eqn:Ee.
  { apply andb_true_iff in Ee as [H1%Nat.eqb_eq H2]. split; [intros _|done]. right. left. left.
    apply same_prefix_take in H2; [|done|lia]. unfold trimmed. fold n. by rewrite H1 in H2. }
  assert (Hne : path <> trimmed (x_path x)).
  { intros E. assert (H1 : length path = n) by (by rewrite E, Hn). rewrite H1, Nat.eqb_refl in Ee. cbn in Ee.
    assert (K : same_prefix n (x_path x) path = true) by (apply same_prefix_take; [done|lia|done]). congruence. }
  rewrite andb_true_iff, Nat.ltb_lt, bool_decide_eq_true. split.
  - intros [_ (a & b & E & Ha)%lookup_split]. right. destruct (decide (a = trimmed (x_path x))) as [->|Hd].
    + left. right. eauto.
    + right. exists a, b. split; [done|]. split; [lia|done].
  - intros [?|[[?|[rest ->]]|(pre & rest & -> & Hp & _)]]; [done..| |].
    + rewrite length_app, Hn, length_cons. split; [lia|by apply lookup_at].
    + rewrite length_app, Hp, Hn, length_cons. split; [lia|by apply lookup_at; rewrite Hp].
Qed.

(** [x] is the first of [xs] that has the path. *)
Definition first_match (path : cstr) (xs : list Export) (x : Export) : Prop :=
  exists before after, xs = before ++ x :: after /\ match_export_path x path = true /\
    Forall (fun y => match_export_path y path = false) before.

Lemma first_match_cons path y xs x : first_match path (y :: xs) x <->
  if match_export_path y path then x = y else first_match path xs x.
Proof.
  unfold first_match. destruct (match_export_path y path) eqn:Ey; split.
  - intros ([|z before] & after & [= -> ->] & Hx & Hb); [done|]. apply Forall_cons in Hb as [Hz _]. congruence.
  - intros ->. exists [], xs. done.
  - intros ([|z before] & after & [= -> ->] & Hx & Hb); [congruence|]. apply Forall_cons in Hb as [Hz Hb]. eauto.
  - intros (before & after & -> & Hx & Hb). exists (y :: before), after. split; [done|]. split; [done|]. by constructor.
Qed.

Lemma first_export_spec path xs xf : first_export path xs = Some xf <->
  exists x, first_match path xs x /\ x_oflags x = xf.
Proof.
  induction xs as [|y xs IH]; cbn.
  - split; [done|]. by intros (x & ([|] & ? & ? & _) & _).
  - setoid_rewrite first_match_cons. destruct (match_export_path y path); [|done].
    split; [intros [= <-]; eauto|]. by intros (x & -> & ->).
Qed.

Section Decision.
Context (hostlist : Type) (hostlist_create : cstr -> option hostlist) (hostlist_find : hostlist -> cstr -> Z).
Context (iterator : bool).

(** The export admits the client. *)
Definition admits (x : Export) (conn : client) : Prop :=
  Z.land (x_oflags x) XFLAGS_SUPPRESS = 0 /\
  (Z.land (x_oflags x) XFLAGS_PRIVPORT <> 0 -> Z.land (client_flags conn) CONN_FLAGS_PRIVPORT <> 0) /\
  match x_hosts x with
  | None => True
  | Some h => exists hl, hostlist_create h = Some hl /\ hostlist_find hl (client_id conn) <> -1
  end /\ x_users x = None.

Lemma hosts_spec x conn err : (match_export_hosts hostlist hostlist_create hostlist_find x conn err).1 = true <->
  (Z.land (x_oflags x) XFLAGS_PRIVPORT <> 0 -> Z.land (client_flags conn) CONN_FLAGS_PRIVPORT <> 0) /\
  match x_hosts x with
  | None => True
  | Some h => exists hl, hostlist_create h = Some hl /\ hostlist_find hl (client_id conn) <> -1
  end.
Proof.
  unfold match_export_hosts.
  destruct (Z.eqb_spec (Z.land (x_oflags x) XFLAGS_PRIVPORT) 0) as [Hp|Hp],
    (Z.eqb_spec (Z.land (client_flags conn) CONN_FLAGS_PRIVPORT) 0) as [Hc|Hc]; cbn -[Z.land];
    try (split; [done|intros [K _]; by destruct (K Hp)]);
    (destruct (x_hosts x) as [h|]; cbn -[Z.land]; [destruct (hostlist_create h) as [hl|]; cbn -[Z.land]|];
      [rewrite negb_true_iff, Z.eqb_neq|..]; naive_solver).
Qed.

Lemma exports_loop_spec path conn xs : forall err,
  match (exports_loop hostlist hostlist_create hostlist_find path conn xs err).1 with
  | At_end => Forall (fun y => match_export_path y path = false) xs
  | Goto_done => exists x, first_match path xs x /\ ~ admits x conn
  | Found xf => exists x, first_match path xs x /\ admits x conn /\ x_oflags x = xf
  end.
Proof.
  induction xs as [|x xs IH]; intros err; cbn -[Z.land]; [done|].
  destruct (match_export_path x path) eqn:Em; cbn -[Z.land].
  - assert (Hf : first_match path (x :: xs) x) by (apply first_match_cons; by rewrite Em).
    destruct (Z.eqb_spec (Z.land (x_oflags x) XFLAGS_SUPPRESS) 0) as [Hs|Hs]; cbn -[Z.land];
      [|exists x; split; [done|by intros [? _]]].
    pose proof (hosts_spec x conn err) as Hh.
    destruct (match_export_hosts _ _ _ x conn err) as [[] err']; cbn -[Z.land] in *.
    + unfold match_export_users. destruct (x_users x) eqn:Eu; cbn -[Z.land].
      * exists x. split; [done|]. intros (_ & _ & _ & K). congruence.
      * exists x. split; [done|]. split; [|done]. unfold admits. rewrite Eu. split; [done|].
        destruct (proj1 Hh eq_refl). done.
    + exists x. split; [done|]. intros (_ & H1 & H2 & _). by pose proof (proj2 Hh (conj H1 H2)).
  - specialize (IH err). destruct (exports_loop _ _ _ path conn xs err) as [[| |xf] err']; cbn in *.
    + by constructor.
    + destruct IH as (y & Hf & Hy). exists y. split; [|done]. apply first_match_cons. by rewrite Em.
    + destruct IH as (y & Hf & Hy). exists y. split; [|done]. apply first_match_cons. by rewrite Em.
Qed.

Lemma first_match_det path xs x y : first_match path xs x -> first_match path xs y -> x = y.
Proof.
  induction xs as [|z xs IH]; [by intros ([|] & ? & ? & _)|]. rewrite !first_match_cons.
  destruct (match_export_path z path); [by intros -> ->|done].
Qed.

Lemma first_match_none path xs x : Forall (fun y => match_export_path y path = false) xs -> ~ first_match path xs x.
Proof.
  intros Hx (before & after & -> & Hm & _). apply Forall_app in Hx as [_ [Hx _]%Forall_cons]. congruence.
Qed.

Lemma match_exports_iff c mounts path conn err xf :
  (diod_match_exports hostlist hostlist_create hostlist_find iterator c mounts path conn err).1 = Some xf <->
  strstr path (lit "/..") = false /\ iterator = true /\
  ((exists x, first_match path (exports c) x /\ admits x conn /\ x_oflags x = xf) \/
   (Forall (fun y => match_export_path y path = false) (exports c) /\ exportall c <> 0 /\
    exists xs x, mounts = Some xs /\ first_match path xs x /\ x_oflags x = xf)).
Proof.
  unfold diod_match_exports. destruct (strstr path (lit "/..")); [naive_solver|]. destruct iterator; [|naive_solver].
  cbn [negb]. pose proof (exports_loop_spec path conn (exports c) err) as Hl.
  destruct (exports_loop _ _ _ path conn (exports c) err) as [[| |xf'] err']; cbn in Hl.
  - assert (Hno : forall x, ~ first_match path (exports c) x) by (intros; by apply first_match_none).
    destruct (Z.eqb_spec (exportall c) 0) as [Ha|Ha]; cbn; [naive_solver|].
    destruct mounts as [xs|]; cbn; [|naive_solver].
    pose proof (first_export_spec path xs) as Hx. destruct (first_export path xs) as [xf'|]; cbn.
    + split; [intros [= <-]; destruct (proj1 (Hx xf') eq_refl) as (x & ? & ?); naive_solver|].
      intros (_ & _ & [(x & K & _)|(_ & _ & xs' & x & [= <-] & K & Kf)]); [by destruct (Hno x)|].
      apply Hx. eauto.
    + split; [done|]. intros (_ & _ & [(x & K & _)|(_ & _ & xs' & x & [= <-] & K & Kf)]); [by destruct (Hno x)|].
      apply Hx. eauto.
  - destruct Hl as (x & Hf & Hx). cbn. split; [done|].
    intros (_ & _ & [(y & Hy & Hay & _)|(Hno & _)]); [|by destruct (first_match_none _ _ x Hno)].
    by rewrite (first_match_det _ _ _ _ Hf Hy) in Hx.
  - destruct Hl as (x & Hf & Hx & <-). cbn. split; [intros [= <-]; naive_solver|].
    intros (_ & _ & [(y & Hy & Hay & <-)|(Hno & _)]); [|by destruct (first_match_none _ _ x Hno)].
    by rewrite (first_match_det _ _ _ _ Hf Hy).
Qed.

(** C26: Who may attach where.  A path is allowed exactly if it does not hold
    [/..], and the first export that matches it admits the client, or no
    export matches it, everything mounted is exported and a mounted file system
    matches it; the flags are those of that export or mount. *)
Theorem diod_match_exports_spec c mounts path conn err xf :
  (diod_match_exports hostlist hostlist_create hostlist_find iterator c mounts path conn err).1 = Some xf <->
  strstr path (lit "/..") = false /\ iterator = true /\
  ((exists x, first_match path (exports c) x /\ admits x conn /\ x_oflags x = xf) \/
   (Forall (fun y => match_export_path y path = false) (exports c) /\ exportall c <> 0 /\
    exists xs x, mounts = Some xs /\ first_match path xs x /\ x_oflags x = xf)).
Proof. apply match_exports_iff. Qed.
End Decision.

(** ** Slashes *)

(** The path with slashes in front of it; it names the same file. *)
Definition padded (n : nat) (path : cstr) : cstr := replicate n slash ++ path.

Lemma starts_with_pad n path : head path = Some slash ->
  starts_with (lit "/..") (slash :: padded n path) = false.
Proof. intros Hp. destruct n as [|n]; [|done]. destruct path as [|b path]; [done|]. by injection Hp as ->. Qed.

Lemma strstr_padded n path : head path = Some slash -> strstr (padded n path) (lit "/..") = strstr path (lit "/..").
Proof.
  intros Hp. induction n as [|n IH]; [done|].
  change (padded (S n) path) with (slash :: padded n path).
  change (strstr (slash :: padded n path) (lit "/..")) with
    (starts_with (lit "/..") (slash :: padded n path) || strstr (padded n path) (lit "/..")).
  by rewrite starts_with_pad, IH.
Qed.

Lemma match_padded x path : head path = Some slash -> x_path x <> lit "/" ->
  match_export_path x (padded (length (trimmed (x_path x))) path) = true.
Proof.
  intros Hp Hx. apply match_export_path_spec. right. destruct path as [|b rest]; [done|]. injection Hp as ->.
  set (pre := replicate (length (trimmed (x_path x))) slash).
  destruct (decide (pre = trimmed (x_path x))) as [E|E].
  - left. right. exists rest. unfold padded. fold pre. by rewrite E.
  - right. exists pre, rest. split; [done|]. split; [apply length_replicate|done].
Qed.

(** C27: Every path is exported.  Where the first export is not the root and
    admits the client, the client may attach to any absolute path without
    [/..]: it writes one slash for each byte of the path of the export in
    front of it, which does not change the file that it names.  With the option
    [noauth] on that export it need not authenticate either. *)
Theorem any_path_exported hostlist hostlist_create hostlist_find c mounts conn x xs path :
  exports c = x :: xs -> x_path x <> lit "/" ->
  admits hostlist hostlist_create hostlist_find x conn ->
  head path = Some slash -> strstr path (lit "/..") = false ->
  let spelled := padded (length (trimmed (x_path x))) path in
  (diod_match_exports hostlist hostlist_create hostlist_find true c mounts spelled conn 0).1 = Some (x_oflags x) /\
  (Z.land (x_oflags x) XFLAGS_NOAUTH <> 0 -> diod_auth_required true c (Some spelled) = false).
Proof.
  intros Ex Hx Ha Hp Hd spelled.
  assert (Hm : match_export_path x spelled = true) by (by apply match_padded).
  assert (Hs : strstr spelled (lit "/..") = false) by (by unfold spelled; rewrite strstr_padded).
  split.
  - apply match_exports_iff. split; [done|]. split; [done|]. left. exists x. rewrite Ex. split; [|done].
    exists [], xs. done.
  - intros Hn. unfold diod_auth_required. case_match; [done|]. unfold diod_fetch_xflags. rewrite Hs, Ex. cbn -[Z.land].
    rewrite Hm. by apply Z.eqb_neq.
Qed.

(** The example of diod.conf(5), less the other exports: the control files, read
    only and without authentication. *)
Definition ctl_export : Export := {| x_path := lit "ctl"; x_opts := Some (lit "ro,noauth"); x_oflags := 17;
  x_users := None; x_hosts := None |}.
Definition ctl_conf : Conf := set_exports [ctl_export] (diod_conf_init None).
Definition no_hosts (h : unit) (s : cstr) : Z := -1.

Lemma any_path_exported_witness :
  (diod_match_exports unit (fun _ => None) no_hosts true ctl_conf None (lit "////etc/shadow")
    {| client_id := lit "mallory"; client_flags := 0 |} 0).1 = Some 17 /\
  (Z.land 17 XFLAGS_NOAUTH <> 0 -> diod_auth_required true ctl_conf (Some (lit "////etc/shadow")) = false).
Proof.
  apply (any_path_exported unit (fun _ => None) no_hosts ctl_conf None _ ctl_export [] (lit "/etc/shadow")).
  - reflexivity.
  - discriminate.
  - split; [reflexivity|]. split; [intros K; exfalso; apply K; reflexivity|]. split; [exact I|reflexivity].
  - reflexivity.
  - reflexivity.
Defined.

(** The listing of an ordinary configuration. *)
Example diod_get_exports_run :
  diod_get_exports true (set_exports [ctl_export; create_export (lit "/a"); create_export (lit "/a")]
    (diod_conf_init None)) None 0 = (Some (lit "ctl ro,noauth - -" ++ [newline] ++ lit "/a - - -" ++ [newline]), 0).
Proof. vm_compute. reflexivity. Qed.
