(* ===== verification/ConfSpec.v ===== *)
(** * Properties of the configuration (libdiod/diod_conf.c)

    The parser of export options, and how the command line and the
    configuration file combine. *)
From S2P Require Import Prelude Cbuf Npstring Fidpool Conf Exports.
From Stdlib Require Import String.
From stdpp Require Import list.
#[local] Open Scope Z_scope.

(** ** Export options *)

(** The pieces between the delimiters. *)
Fixpoint split_on (d : Z) (s : cstr) : list cstr :=
  match s with
  | [] => [[]]
  | c :: s => if d =? c then [] :: split_on d s
              else match split_on d s with t :: ts => (c :: t) :: ts | [] => [[c]] end
  end.

Fixpoint pieces (ts : list cstr) : list cstr :=
  match ts with [] => [] | [] :: ts => pieces ts | t :: ts => t :: pieces ts end.

Definition items (d : Z) (s : cstr) : list cstr := pieces (split_on d s).

(** The flags of a list of options. *)
Fixpoint options_flags (flags : Z) (os : list cstr) : conf_out Z :=
  match os with
  | [] => Run flags
  | o :: os => match expopt o with Some f => options_flags (Z.lor flags f) os | None => Exit (Unknown_option o) end
  end.

Lemma split_on_cons d s : exists t ts, split_on d s = t :: ts.
Proof.
  destruct s as [|c s]; cbn; [by eauto|]. destruct (d =? c); [by eauto|]. destruct (split_on d s); by eauto.
Qed.

Lemma items_drop d s : items d s = items d (drop_while (Z.eqb d) s).
Proof.
  induction s as [|c s IH]; [done|]. cbn [drop_while]. destruct (Z.eqb_spec d c) as [->|Hd]; [|done].
  unfold items in *. cbn. by rewrite Z.eqb_refl.
Qed.

Lemma split_token d s : s <> [] -> head s <> Some d ->
  exists ts, split_on d s = take_while (fun c => negb (d =? c)) s :: ts /\
    pieces ts = items d (tail (drop_while (fun c => negb (d =? c)) s)).
Proof.
  induction s as [|c s IH]; [done|]. intros _ Hc. cbn. destruct (Z.eqb_spec d c) as [->|Hd]; [by destruct Hc|].
  cbn. destruct s as [|b s]; [cbn; exists []; done|]. destruct (decide (b = d)) as [->|Hb].
  - cbn. rewrite Z.eqb_refl. cbn. eexists. split; [done|]. done.
  - destruct IH as (ts & E & Ht); [done|cbn; congruence|]. rewrite E. eexists. split; [done|done].
Qed.

Lemma drop_while_head d s : head (drop_while (Z.eqb d) s) <> Some d.
Proof.
  induction s as [|c s IH]; [done|]. cbn. destruct (Z.eqb_spec d c) as [->|Hd]; [done|]. cbn. congruence.
Qed.

Lemma strtok_items d s : match strtok_r d s with
  | None => items d s = []
  | Some (t, save) => items d s = t :: items d save /\ (length save < length s)%nat
  end.
Proof.
  unfold strtok_r. rewrite items_drop. pose proof (drop_while_head d s) as Hh.
  assert (Hl : (length (drop_while (Z.eqb d) s) <= length s)%nat).
  { clear Hh. induction s as [|c s IH]; cbn; [done|]. destruct (d =? c); cbn; lia. }
  destruct (drop_while (Z.eqb d) s) as [|c u] eqn:E; [done|].
  assert (Hc : (d =? c) = false) by (apply Z.eqb_neq; cbn in Hh; congruence).
  destruct (split_token d (c :: u)) as (ts & Es & Ht); [done|done|].
  cbn [take_while drop_while] in *. rewrite Hc in *. cbn [negb] in *. split.
  - unfold items at 1. rewrite Es. cbn [pieces]. by rewrite Ht.
  - assert (K : forall v, (length (tail (drop_while (fun b => negb (d =? b)%Z) v)) <= length v)%nat).
    { induction v as [|b v IH]; cbn; [done|]. destruct (d =? b); cbn; lia. }
    specialize (K u). cbn in Hl. lia.
Qed.

Lemma expopt_loop_spec fuel : forall flags s, (length s <= fuel)%nat ->
  expopt_loop fuel flags s = options_flags flags (items comma s).
Proof.
  induction fuel as [|fuel IH]; intros flags s Hl.
  - destruct s; [done|cbn in Hl; lia].
  - cbn [expopt_loop]. pose proof (strtok_items comma s) as Hs. destruct (strtok_r comma s) as [[t save]|].
    + destruct Hs as [-> Hs]. cbn. destruct (expopt t); [|done]. apply IH. lia.
    + by rewrite Hs.
Qed.

(** Export options.  [_parse_expopt] reads any string to its end and gives
    the union of the flags of the options between the commas; empty pieces
    are skipped, and the first piece that is no option ends the program. *)
Theorem parse_expopt_spec s : parse_expopt s = options_flags 0 (items comma s).
Proof. by apply expopt_loop_spec. Qed.

(** ** The configuration file *)

Lemma bind_Run {A B} (c : conf_out A) (k : A -> conf_out B) b :
  (let? x := c in k x) = Run b -> exists a, c = Run a /\ k a = Run b.
Proof. destruct c; cbn; [eauto|done..]. Qed.

(** An attribute is left alone or read. *)
Definition pick {A} (b : bool) (old : A) (new : conf_out A) : conf_out A := if b then Run old else new.

Lemma pick_again {A} b (old : A) new v new' : pick b old new = Run v -> pick b v new' = pick b old new'.
Proof. unfold pick. destruct b; [by intros [= ->]|done]. Qed.

Lemma unless_pick {A} m (attr : Conf -> A) (set : A -> Conf -> Conf) (get : Conf -> conf_out A) c :
  set (attr c) c = c -> unless m (fun c => let? v := get c in Run (set v c)) c =
  let? v := pick (kept m c) (attr c) (get c) in Run (set v c).
Proof. intros Hs. unfold unless, pick. destruct (kept m c); cbn; [by rewrite Hs|done]. Qed.

Lemma conf_int_pick L m key dflt (attr : Conf -> Z) set c : set (attr c) c = c ->
  conf_int L m key dflt set c =
  let? v := pick (kept m c) (attr c) (lua_getglobal_int L key dflt) in Run (set v c).
Proof. apply (unless_pick m attr set (fun _ => lua_getglobal_int L key dflt)). Qed.

(** Reading a file, attribute by attribute. *)
Definition read_all (L : cstr -> lua) (c : Conf) : conf_out Conf :=
  let? v1 := pick (kept RO_NWTHREADS c) (nwthreads c) (lua_getglobal_int L (lit "nwthreads") DFLT_NWTHREADS) in
  let? v2 := pick (kept RO_AUTH_REQUIRED c) (auth_required c) (lua_getglobal_int L (lit "auth_required") 1) in
  let? v3 := pick (kept RO_HOSTNAME_LOOKUP c) (hostname_lookup c) (lua_getglobal_int L (lit "hostname_lookup") 1) in
  let? v4 := pick (kept RO_STATFS_PASSTHRU c) (statfs_passthru c) (lua_getglobal_int L (lit "statfs_passthru") 0) in
  let? v5 := pick (kept RO_USERDB c) (userdb c) (lua_getglobal_int L (lit "userdb") 1) in
  let? v6 := pick (kept RO_ALLSQUASH c) (allsquash c) (lua_getglobal_int L (lit "allsquash") 0) in
  let? v7 := pick (kept RO_SQUASHUSER c) (squashuser c)
    (lua_getglobal_string L (lit "squashuser") id DFLT_SQUASHUSER) in
  let? v8 := pick (kept RO_LISTEN c) (listen c)
    (lua_getglobal_list_of_strings L (lit "listen") [DFLT_LISTEN]) in
  let? v9 := pick (kept RO_LOGDEST c) (logdest c) (lua_getglobal_string L (lit "logdest") id DFLT_LOGDEST) in
  let? v10 := pick (kept RO_EXPORTALL c) (exportall c) (lua_getglobal_int L (lit "exportall") 0) in
  let? v11 := pick (kept RO_EXPORTOPTS c) (exportopts c) (lua_getglobal_string L (lit "exportopts") Some None) in
  let? v12 := pick (kept RO_EXPORTS c) (exports c) (lua_getglobal_exports L v11 []) in
  Run {| debuglevel := debuglevel c; nwthreads := v1; auth_required := v2; hostname_lookup := v3;
    statfs_passthru := v4; userdb := v5; allsquash := v6; squashuser := v7; runasuid := runasuid c;
    listen := v8; exportall := v10; exportopts := v11; exports := v12; configpath := configpath c;
    logdest := v9; ro_mask := ro_mask c |}.

Lemma conf_bind_assoc {A B D} (c : conf_out A) (f : A -> conf_out B) (g : B -> conf_out D) :
  (let? y := (let? x := c in f x) in g y) = (let? x := c in let? y := f x in g y).
Proof. by destruct c. Qed.

Lemma conf_bind_ext {A B} (c : conf_out A) (f g : A -> conf_out B) :
  (forall x, f x = g x) -> (let? x := c in f x) = (let? x := c in g x).
Proof. intros H. destruct c; cbn; [apply H|done..]. Qed.

(** Storing what is there. *)
Lemma set_nwthreads_id c : set_nwthreads (nwthreads c) c = c. Proof. by destruct c. Qed.
Lemma set_auth_required_id c : set_auth_required (auth_required c) c = c. Proof. by destruct c. Qed.
Lemma set_hostname_lookup_id c : set_hostname_lookup (hostname_lookup c) c = c. Proof. by destruct c. Qed.
Lemma set_statfs_passthru_id c : set_statfs_passthru (statfs_passthru c) c = c. Proof. by destruct c. Qed.
Lemma set_userdb_id c : set_userdb (userdb c) c = c. Proof. by destruct c. Qed.
Lemma set_allsquash_id c : set_allsquash (allsquash c) c = c. Proof. by destruct c. Qed.
Lemma set_squashuser_id c : set_squashuser (squashuser c) c = c. Proof. by destruct c. Qed.
Lemma set_listen_id c : set_listen (listen c) c = c. Proof. by destruct c. Qed.
Lemma set_logdest_id c : set_logdest (logdest c) c = c. Proof. by destruct c. Qed.
Lemma set_exportall_id c : set_exportall (exportall c) c = c. Proof. by destruct c. Qed.
Lemma set_exportopts_id c : set_exportopts (exportopts c) c = c. Proof. by destruct c. Qed.
Lemma set_exports_id c : set_exports (exports c) c = c. Proof. by destruct c. Qed.

Lemma read_globals_all L c : read_globals L c = read_all L c.
Proof.
  unfold read_globals, read_all.
  rewrite (conf_int_pick L _ _ _ nwthreads) by apply set_nwthreads_id. rewrite conf_bind_assoc. apply conf_bind_ext. intros v1. cbn [conf_bind].
  rewrite (conf_int_pick L _ _ _ auth_required) by apply set_auth_required_id. rewrite conf_bind_assoc. apply conf_bind_ext. intros v2. cbn [conf_bind].
  rewrite (conf_int_pick L _ _ _ hostname_lookup) by apply set_hostname_lookup_id. rewrite conf_bind_assoc. apply conf_bind_ext. intros v3. cbn [conf_bind].
  rewrite (conf_int_pick L _ _ _ statfs_passthru) by apply set_statfs_passthru_id. rewrite conf_bind_assoc. apply conf_bind_ext. intros v4. cbn [conf_bind].
  rewrite (conf_int_pick L _ _ _ userdb) by apply set_userdb_id. rewrite conf_bind_assoc. apply conf_bind_ext. intros v5. cbn [conf_bind].
  rewrite (conf_int_pick L _ _ _ allsquash) by apply set_allsquash_id. rewrite conf_bind_assoc. apply conf_bind_ext. intros v6. cbn [conf_bind].
  rewrite (unless_pick _ squashuser set_squashuser (fun _ => lua_getglobal_string L _ _ _)) by apply set_squashuser_id.
  rewrite conf_bind_assoc. apply conf_bind_ext. intros v7. cbn [conf_bind].
  rewrite (unless_pick _ listen set_listen (fun _ => lua_getglobal_list_of_strings L _ _)) by apply set_listen_id.
  rewrite conf_bind_assoc. apply conf_bind_ext. intros v8. cbn [conf_bind].
  rewrite (unless_pick _ logdest set_logdest (fun _ => lua_getglobal_string L _ _ _)) by apply set_logdest_id.
  rewrite conf_bind_assoc. apply conf_bind_ext. intros v9. cbn [conf_bind].
  rewrite (conf_int_pick L _ _ _ exportall) by apply set_exportall_id. rewrite conf_bind_assoc. apply conf_bind_ext. intros v10. cbn [conf_bind].
  rewrite (unless_pick _ exportopts set_exportopts (fun _ => lua_getglobal_string L _ _ _)) by apply set_exportopts_id.
  rewrite conf_bind_assoc. apply conf_bind_ext. intros v11. cbn [conf_bind].
  rewrite (unless_pick _ exports set_exports (fun c => lua_getglobal_exports L (exportopts c) [])) by apply set_exports_id.
  done.
Qed.

(** The attributes that were set on the command line are the same. *)
Definition respects (c c1 : Conf) : Prop :=
  ro_mask c1 = ro_mask c /\ debuglevel c1 = debuglevel c /\ runasuid c1 = runasuid c /\ configpath c1 = configpath c /\
  (kept RO_NWTHREADS c = true -> nwthreads c1 = nwthreads c) /\
  (kept RO_AUTH_REQUIRED c = true -> auth_required c1 = auth_required c) /\
  (kept RO_HOSTNAME_LOOKUP c = true -> hostname_lookup c1 = hostname_lookup c) /\
  (kept RO_STATFS_PASSTHRU c = true -> statfs_passthru c1 = statfs_passthru c) /\
  (kept RO_USERDB c = true -> userdb c1 = userdb c) /\
  (kept RO_ALLSQUASH c = true -> allsquash c1 = allsquash c) /\
  (kept RO_SQUASHUSER c = true -> squashuser c1 = squashuser c) /\
  (kept RO_LISTEN c = true -> listen c1 = listen c) /\
  (kept RO_LOGDEST c = true -> logdest c1 = logdest c) /\
  (kept RO_EXPORTALL c = true -> exportall c1 = exportall c) /\
  (kept RO_EXPORTOPTS c = true -> exportopts c1 = exportopts c) /\
  (kept RO_EXPORTS c = true -> exports c1 = exports c).

Lemma pick_kept {A} b (old : A) new v : pick b old new = Run v -> b = true -> v = old.
Proof. unfold pick. intros E ->. by injection E. Qed.

(** One attribute after the other of a file that was read. *)
Ltac read_out E :=
  repeat (let v := fresh "v" in let Ev := fresh "Ev" in apply bind_Run in E as (v & Ev & E)).

Lemma read_respects L c c1 : read_globals L c = Run c1 -> respects c c1.
Proof.
  rewrite read_globals_all. unfold read_all. intros E. read_out E. injection E as <-. unfold respects. cbn.
  do 4 (split; [done|]). repeat split; eapply pick_kept; eassumption.
Qed.

Lemma reread L1 L2 c c1 : read_globals L1 c = Run c1 -> read_globals L2 c1 = read_globals L2 c.
Proof.
  rewrite !read_globals_all. unfold read_all at 1. intros E. read_out E. injection E as <-. unfold read_all.
  cbn [debuglevel nwthreads auth_required hostname_lookup statfs_passthru userdb allsquash squashuser runasuid
    listen exportall exportopts exports configpath logdest ro_mask].
  unfold kept in *. cbn [ro_mask].
  repeat match goal with K : pick _ _ _ = Run ?v |- context [pick _ ?v ?n] => rewrite (pick_again _ _ _ _ n K); clear K end.
  do 11 (apply conf_bind_ext; intros ?).
  match goal with K : pick _ _ _ = Run ?v |- context [pick _ ?v ?n] => rewrite (pick_again _ _ _ _ n K) end. done.
Qed.

(** The configuration file.  Reading it leaves every attribute that the
    command line has set as it is, and reading it again, changed or not, gives
    the same as reading only the last version: nothing of the older one
    remains, and an attribute that is not in the file has its default. *)
Theorem config_file_reread load1 load2 readable1 readable2 c c1 p :
  diod_conf_init_config_file load1 readable1 None c = Run c1 ->
  configpath c = Some p -> readable2 p = true ->
  respects c c1 /\
  diod_conf_init_config_file load2 readable2 None c1 = diod_conf_init_config_file load2 readable2 None c.
Proof.
  unfold diod_conf_init_config_file. intros E Ep Hp. rewrite Ep in *.
  assert (K : c1 = c \/ exists L, read_globals L c = Run c1).
  { destruct (readable1 p); [|injection E; auto]. destruct (load1 p) as [L|]; [|done]. eauto. }
  destruct K as [->|[L K]]; [split; [by repeat split|by rewrite Ep]|].
  pose proof (read_respects _ _ _ K) as Hr. split; [done|]. destruct Hr as (_ & _ & _ & -> & _).
  rewrite Ep, Hp. destruct (load2 p) as [L2|]; [|done]. by eapply reread.
Qed.

(** ** Default options *)

(** A file that makes every export read-only, with one export. *)
Definition ro_file (v : lua) (key : cstr) : lua :=
  if bool_decide (key = lit "exportopts") then L_string (lit "ro") None
  else if bool_decide (key = lit "exports") then L_table [v] []
  else L_nil.

Lemma config_file_reread_witness :
  let c := diod_conf_set_nwthreads 4 (diod_conf_init (Some (lit "diod.conf"))) in
  let load1 := fun _ => Some (ro_file (L_string (lit "/a") None)) in
  let load2 := fun _ => Some (fun _ => L_nil) in
  exists c1, diod_conf_init_config_file load1 (fun _ => true) None c = Run c1 /\
    respects c c1 /\
    diod_conf_init_config_file load2 (fun _ => true) None c1 = diod_conf_init_config_file load2 (fun _ => true) None c.
Proof.
  cbn zeta. eexists. split; [vm_compute; reflexivity|].
  apply (config_file_reread (fun _ => Some (ro_file (L_string (lit "/a") None)))
    (fun _ => Some (fun _ => L_nil)) (fun _ => true) (fun _ => true)
    (diod_conf_set_nwthreads 4 (diod_conf_init (Some (lit "diod.conf")))) _ (lit "diod.conf")).
  - vm_compute. reflexivity.
  - reflexivity.
  - reflexivity.
Defined.

(** Default export options are not always applied.  With [exportopts] set to
    [ro] in the file, an export that the file lists as a string gets no flags
    and is attached for writing; listed as a table, or given on the command
    line, it is read-only. *)
Theorem exportopts_ignored : exists c1 c2 c3,
  diod_conf_init_config_file (fun _ => Some (ro_file (L_string (lit "/a") None))) (fun _ => true)
    (Some (lit "diod.conf")) (diod_conf_init None) = Run c1 /\
  diod_conf_init_config_file (fun _ => Some (ro_file (L_table [] [(lit "path", L_string (lit "/a") None)])))
    (fun _ => true) (Some (lit "diod.conf")) (diod_conf_init None) = Run c2 /\
  diod_conf_add_exports (lit "/a") (diod_conf_set_exportopts (lit "ro") (diod_conf_init None)) = Run c3 /\
  forall conn, let allowed c := (diod_exportok unit (fun _ => None) no_hosts true c None (Some (lit "/a")) conn 0).1 in
    allowed c1 = (true, 0) /\ allowed c2 = (true, FID_FLAGS_ROFS) /\ allowed c3 = (true, FID_FLAGS_ROFS).
Proof.
  do 3 eexists. split; [vm_compute; reflexivity|]. split; [vm_compute; reflexivity|].
  split; [vm_compute; reflexivity|]. intros conn. cbv zeta. by repeat split.
Qed.
