(* ===== verification/Ioctx.v ===== *)
(** * Paths and open files (libdiod/diod_ioctx.c)

    What diod keeps about the files its fids refer to: a pool of paths, shared
    by all fids with the same path, and for every path the doubly linked list of
    its open files, which fids may share.  Paths and open files live on a heap
    with their reference counts and links; using one that was freed is [UB].
    The kernel is the class [Os]: what a system call returns, and the memory
    allocator.  Every function runs under the locks that the code takes, so
    that one function is one step. *)
From S2P Require Import Prelude Cbuf Protocol Npstring Wire Fcall Hash.
From stdpp Require Import list gmap.
#[local] Open Scope Z_scope.

Abbreviation path_id := positive (only parsing).
Abbreviation ioctx_id := positive (only parsing).
Abbreviation fid_id := positive (only parsing).
Abbreviation user_id := positive (only parsing).

(** ** The system *)

Record stat := {
  st_dev : Z; st_ino : Z; st_mode : Z; st_nlink : Z; st_uid : Z; st_gid : Z; st_rdev : Z;
  st_size : Z; st_blksize : Z; st_blocks : Z; st_atim : Z * Z; st_mtim : Z * Z; st_ctim : Z * Z;
}.

Record dirent := { de_ino : Z; de_off : Z; de_type : Z; de_name : cstr }.

Record statvfs := {
  vf_bsize : Z; vf_blocks : Z; vf_bfree : Z; vf_bavail : Z; vf_files : Z; vf_ffree : Z; vf_fsid : Z;
  vf_namemax : Z; vf_type : Z;
}.

(** A [DIR] is named by the descriptor it was made from. *)
Inductive syscall :=
| S_malloc (n : Z)
| S_reply (c : np_call)
| S_open (path : cstr) (flags mode : Z)
| S_fstat (fd : Z)
| S_fdopendir (fd : Z)
| S_close (fd : Z)
| S_closedir (fd : Z)
| S_pread (fd count offset : Z)
| S_pwrite (fd : Z) (data : list Z) (offset : Z)
| S_fchmod (fd mode : Z)
| S_fchown (fd uid gid : Z)
| S_ftruncate (fd size : Z)
| S_futimens (fd : Z) (atime mtime : Z * Z)
| S_rewinddir (fd : Z)
| S_seekdir (fd offset : Z)
| S_readdir (fd : Z)
| S_fsync (fd : Z)
| S_fdatasync (fd : Z)
| S_flock (fd operation : Z)
| S_stat (path : cstr)
| S_lstat (path : cstr)
| S_opendir (path : cstr)
| S_statvfs (path : cstr)
| S_statfs (path : cstr)
| S_symlink (target path : cstr)
| S_mknod (path : cstr) (mode major minor : Z)
| S_mkdir (path : cstr) (mode : Z)
| S_rename (from to : cstr)
| S_readlink (path : cstr) (n : Z)
| S_chmod (path : cstr) (mode : Z)
| S_lchown (path : cstr) (uid gid : Z)
| S_truncate (path : cstr) (size : Z)
| S_utimensat (path : cstr) (atime mtime : Z * Z)
| S_link (from to : cstr)
| S_unlink (path : cstr)
| S_rmdir (path : cstr)
| S_remove (path : cstr)
| S_lgetxattr (path : cstr) (name : cstr) (n : Z)
| S_llistxattr (path : cstr) (n : Z)
| S_lsetxattr (path : cstr) (name : option cstr) (data : list Z) (flags : Z)
| S_lremovexattr (path : cstr) (name : option cstr).

(** The return value, [errno] when it is negative, and what is stored through
    pointers.  [malloc] returns 0 or not, and the contents of the block. *)
Record sysres := {
  r_ret : Z; r_errno : Z; r_stat : stat; r_bytes : list Z; r_ent : option dirent; r_vfs : statvfs;
}.

Class Os := {
  os : Type;
  sys : os -> syscall -> sysres * os;
  uid_of_user : user_id -> Z;
}.

(** ** The state *)

Record ioctx := {
  io_refcount : Z;
  io_fd : Z;
  io_dir : bool;
  io_lock_type : Z;
  io_qid : Npqid;
  io_iounit : Z;
  io_open_flags : Z;
  io_user : user_id;
  io_next : option ioctx_id;
  io_prev : option ioctx_id;
}.

Record path := {
  pa_refcount : Z;
  pa_s : list Z;
  pa_len : Z;
  pa_ioctx : option ioctx_id;
}.

(** [struct xattr_struct] of diod_xattr.c *)
Record xattr := {
  xa_name : option (list Z);
  xa_buf : option (list Z);
  xa_len : Z;
  xa_flags : Z;
  xa_setflags : Z;
}.

(** [Fid] of diod_fid.h *)
Record Fid := {
  fd_path : path_id;
  fd_ioctx : option ioctx_id;
  fd_xattr : option xattr;
  fd_flags : Z;
}.

Inductive event :=
| E_sys (c : syscall) (r : sysres)
| E_user_incref (u : user_id)
| E_user_decref (u : user_id).

Section State.
Context `{Os}.

(** [d_fids] holds [fid->aux] of the fids that have one; [d_err] is the error of
    [np_uerror], [d_fresh] the next address. *)
Record dstate := {
  d_paths : gmap path_id path;
  d_ioctxs : gmap ioctx_id ioctx;
  d_hash : hash cstr path_id;
  d_free : nat;
  d_fids : gmap fid_id Fid;
  d_err : Z;
  d_errno : Z;
  d_os : os;
  d_trace : list event;
  d_fresh : positive;
}.

Definition set_paths m s := {| d_paths := m; d_ioctxs := d_ioctxs s; d_hash := d_hash s; d_free := d_free s;
  d_fids := d_fids s; d_err := d_err s; d_errno := d_errno s; d_os := d_os s; d_trace := d_trace s;
  d_fresh := d_fresh s |}.
Definition set_ioctxs m s := {| d_paths := d_paths s; d_ioctxs := m; d_hash := d_hash s; d_free := d_free s;
  d_fids := d_fids s; d_err := d_err s; d_errno := d_errno s; d_os := d_os s; d_trace := d_trace s;
  d_fresh := d_fresh s |}.
Definition set_hash h n s := {| d_paths := d_paths s; d_ioctxs := d_ioctxs s; d_hash := h; d_free := n;
  d_fids := d_fids s; d_err := d_err s; d_errno := d_errno s; d_os := d_os s; d_trace := d_trace s;
  d_fresh := d_fresh s |}.
Definition set_dfids m s := {| d_paths := d_paths s; d_ioctxs := d_ioctxs s; d_hash := d_hash s; d_free := d_free s;
  d_fids := m; d_err := d_err s; d_errno := d_errno s; d_os := d_os s; d_trace := d_trace s;
  d_fresh := d_fresh s |}.
Definition set_err e s := {| d_paths := d_paths s; d_ioctxs := d_ioctxs s; d_hash := d_hash s; d_free := d_free s;
  d_fids := d_fids s; d_err := e; d_errno := d_errno s; d_os := d_os s; d_trace := d_trace s;
  d_fresh := d_fresh s |}.
Definition set_errno e s := {| d_paths := d_paths s; d_ioctxs := d_ioctxs s; d_hash := d_hash s; d_free := d_free s;
  d_fids := d_fids s; d_err := d_err s; d_errno := e; d_os := d_os s; d_trace := d_trace s;
  d_fresh := d_fresh s |}.
Definition set_next_id x s := {| d_paths := d_paths s; d_ioctxs := d_ioctxs s; d_hash := d_hash s; d_free := d_free s;
  d_fids := d_fids s; d_err := d_err s; d_errno := d_errno s; d_os := d_os s; d_trace := d_trace s;
  d_fresh := x |}.
Definition add_event o e s := {| d_paths := d_paths s; d_ioctxs := d_ioctxs s; d_hash := d_hash s; d_free := d_free s;
  d_fids := d_fids s; d_err := d_err s; d_errno := d_errno s; d_os := o; d_trace := d_trace s ++ [e];
  d_fresh := d_fresh s |}.

Definition DM (A : Type) : Type := dstate -> res (A * dstate).

Definition dret {A} (a : A) : DM A := fun s => Ret (a, s).
Definition dbind {A B} (c : DM A) (f : A -> DM B) : DM B := fun s => let! (a, s) := c s in f a s.
Definition lift {A} (c : res A) : DM A := fun s => let! a := c in Ret (a, s).
Definition modify (f : dstate -> dstate) : DM unit := fun s => Ret (tt, f s).
Definition get {A} (f : dstate -> A) : DM A := fun s => Ret (f s, s).

Definition failed (c : syscall) (r : sysres) : option Z :=
  match c with
  | S_malloc _ | S_reply _ => if r_ret r =? 0 then Some ENOMEM else None
  | _ => if r_ret r <? 0 then Some (r_errno r) else None
  end.

(** A system call; a failed one sets [errno]. *)
Definition call (c : syscall) : DM sysres := fun s =>
  let '(r, o) := sys (d_os s) c in
  let s := add_event o (E_sys c r) s in
  Ret (r, match failed c r with Some e => set_errno e s | None => s end).
End State.

Notation "'do' x <- c ; k" := (dbind c (fun x => k))
  (at level 100, x pattern, c at level 100, k at level 200, right associativity) : diod_scope.

Section Ioctx.
Context `{Os}.

(** [np_uerror] and [np_rerror] of the thread, and [np_uerror (errno)]. *)
Definition uerror (e : Z) : DM unit := modify (set_err e).
Definition rerror : DM Z := get d_err.
Definition uerror_errno : DM unit := do e <- get d_errno; uerror e.

Definition malloced (n : Z) : DM bool := do r <- call (S_malloc n); dret (negb (r_ret r =? 0)).

Definition load_path (p : path_id) : DM path :=
  do m <- get d_paths; lift (match m !! p with Some x => Ret x | None => UB end).
Definition load_ioctx (i : ioctx_id) : DM ioctx :=
  do m <- get d_ioctxs; lift (match m !! i with Some x => Ret x | None => UB end).
(** [fid->aux], dereferenced *)
Definition load_aux (f : fid_id) : DM Fid :=
  do m <- get d_fids; lift (match m !! f with Some x => Ret x | None => UB end).

Definition store_path (p : path_id) (x : path) : DM unit := modify (fun s => set_paths (<[p := x]> (d_paths s)) s).
Definition store_ioctx (i : ioctx_id) (x : ioctx) : DM unit := modify (fun s => set_ioctxs (<[i := x]> (d_ioctxs s)) s).
Definition store_aux (f : fid_id) (x : Fid) : DM unit := modify (fun s => set_dfids (<[f := x]> (d_fids s)) s).
Definition free_path (p : path_id) : DM unit := modify (fun s => set_paths (delete p (d_paths s)) s).
Definition free_ioctx (i : ioctx_id) : DM unit := modify (fun s => set_ioctxs (delete i (d_ioctxs s)) s).
Definition free_aux (f : fid_id) : DM unit := modify (fun s => set_dfids (delete f (d_fids s)) s).
Definition new_id : DM positive := do x <- get d_fresh; do _ <- modify (set_next_id (Pos.succ x)); dret x.

Definition set_io_refcount n x := {| io_refcount := n; io_fd := io_fd x; io_dir := io_dir x;
  io_lock_type := io_lock_type x; io_qid := io_qid x; io_iounit := io_iounit x; io_open_flags := io_open_flags x;
  io_user := io_user x; io_next := io_next x; io_prev := io_prev x |}.
Definition set_io_lock_type t x := {| io_refcount := io_refcount x; io_fd := io_fd x; io_dir := io_dir x;
  io_lock_type := t; io_qid := io_qid x; io_iounit := io_iounit x; io_open_flags := io_open_flags x;
  io_user := io_user x; io_next := io_next x; io_prev := io_prev x |}.
Definition set_io_next o x := {| io_refcount := io_refcount x; io_fd := io_fd x; io_dir := io_dir x;
  io_lock_type := io_lock_type x; io_qid := io_qid x; io_iounit := io_iounit x; io_open_flags := io_open_flags x;
  io_user := io_user x; io_next := o; io_prev := io_prev x |}.
Definition set_io_prev o x := {| io_refcount := io_refcount x; io_fd := io_fd x; io_dir := io_dir x;
  io_lock_type := io_lock_type x; io_qid := io_qid x; io_iounit := io_iounit x; io_open_flags := io_open_flags x;
  io_user := io_user x; io_next := io_next x; io_prev := o |}.
Definition set_pa_refcount n x := {| pa_refcount := n; pa_s := pa_s x; pa_len := pa_len x; pa_ioctx := pa_ioctx x |}.
Definition set_pa_ioctx o x := {| pa_refcount := pa_refcount x; pa_s := pa_s x; pa_len := pa_len x; pa_ioctx := o |}.
Definition set_fd_path p x := {| fd_path := p; fd_ioctx := fd_ioctx x; fd_xattr := fd_xattr x; fd_flags := fd_flags x |}.
Definition set_fd_ioctx o x := {| fd_path := fd_path x; fd_ioctx := o; fd_xattr := fd_xattr x; fd_flags := fd_flags x |}.
Definition set_fd_xattr o x := {| fd_path := fd_path x; fd_ioctx := fd_ioctx x; fd_xattr := o; fd_flags := fd_flags x |}.
Definition set_fd_flags n x := {| fd_path := fd_path x; fd_ioctx := fd_ioctx x; fd_xattr := fd_xattr x; fd_flags := n |}.

Definition upd_ioctx (i : ioctx_id) (g : ioctx -> ioctx) : DM unit := do x <- load_ioctx i; store_ioctx i (g x).
Definition upd_path (p : path_id) (g : path -> path) : DM unit := do x <- load_path p; store_path p (g x).
Definition upd_aux (f : fid_id) (g : Fid -> Fid) : DM unit := do x <- load_aux f; store_aux f (g x).

(** ** Open files *)

(** [head] is [&path->ioctx]. *)
Definition unlink_ioctx (p : path_id) (i : ioctx_id) : DM unit :=
  do x <- load_ioctx i;
  do _ <- match io_prev x with
          | Some j => upd_ioctx j (set_io_next (io_next x))
          | None => upd_path p (set_pa_ioctx (io_next x))
          end;
  do x <- load_ioctx i;
  do _ <- match io_next x with
          | Some j => upd_ioctx j (set_io_prev (io_prev x))
          | None => dret tt
          end;
  upd_ioctx i (fun x => set_io_prev None (set_io_next None x)).

Definition link_ioctx (p : path_id) (i : ioctx_id) : DM unit :=
  do x <- load_path p;
  do _ <- upd_ioctx i (fun y => set_io_prev None (set_io_next (pa_ioctx x) y));
  do _ <- match pa_ioctx x with
          | Some j => upd_ioctx j (set_io_prev (Some i))
          | None => dret tt
          end;
  upd_path p (set_pa_ioctx (Some i)).

(** The number of fids on the list, and of open files. *)
Fixpoint count_ioctx (fuel : nat) (o : option ioctx_id) : DM (Z * Z) :=
  match o, fuel with
  | None, _ => dret (0, 0)
  | Some i, O => lift UB
  | Some i, S fuel =>
      do x <- load_ioctx i;
      do (shared, unique) <- count_ioctx fuel (io_next x);
      dret (shared + io_refcount x, unique + 1)
  end.

Definition ioctx_incref (i : ioctx_id) : DM ioctx_id :=
  do _ <- upd_ioctx i (fun x => set_io_refcount (io_refcount x + 1) x); dret i.

Definition ioctx_decref (i : ioctx_id) : DM Z :=
  do x <- load_ioctx i;
  let n := io_refcount x - 1 in
  do _ <- store_ioctx i (set_io_refcount n x);
  dret n.

Definition user_event (e : event) : DM unit := modify (fun s => add_event (d_os s) e s).

(** [_ioctx_close_destroy] up to the [free]. *)
Definition ioctx_close_fd (x : ioctx) (seterrno : bool) : DM Z :=
  do rc <- (if io_dir x then do r <- call (S_closedir (io_fd x)); dret (r_ret r)
            else if negb (io_fd x =? -1) then do r <- call (S_close (io_fd x)); dret (r_ret r)
            else dret 0);
  do _ <- (if (rc <? 0) && seterrno then uerror_errno else dret tt);
  do _ <- user_event (E_user_decref (io_user x));
  dret rc.

Definition ioctx_close_destroy (i : ioctx_id) (seterrno : bool) : DM Z :=
  do x <- load_ioctx i;
  do rc <- ioctx_close_fd x seterrno;
  do _ <- free_ioctx i;
  dret rc.

Definition LOCK_SH : Z := 1.
Definition LOCK_EX : Z := 2.
Definition LOCK_NB : Z := 4.
Definition LOCK_UN : Z := 8.

Definition S_IFMT : Z := 0xf000.
Definition S_ISDIR (mode : Z) : bool := Z.land mode S_IFMT =? 0x4000.
Definition S_ISLNK (mode : Z) : bool := Z.land mode S_IFMT =? 0xa000.

Definition diod_ustat2qid (st : stat) : Npqid :=
  {| qtype := if S_ISDIR (st_mode st) then Qtdir else if S_ISLNK (st_mode st) then Qtsymlink else Qtfile;
     qversion := 0; qpath := st_ino st |}.

(** [path_s]: the C string in the buffer of a path. *)
Definition path_s (p : path_id) : DM cstr := do x <- load_path p; dret (c_string (pa_s x)).

(** The object is on the heap when the function succeeds. *)
Definition ioctx_create_open (user : user_id) (p : path_id) (flags mode : Z) : DM (option ioctx_id) :=
  do ok <- malloced 120;
  if negb ok then do _ <- uerror ENOMEM; dret None
  else
    do _ <- user_event (E_user_incref user);
    do s <- path_s p;
    do r <- call (S_open s flags mode);
    let x := {| io_refcount := 1; io_fd := r_ret r; io_dir := false; io_lock_type := LOCK_UN;
                io_qid := {| qtype := 0; qversion := 0; qpath := 0 |}; io_iounit := 0; io_open_flags := flags;
                io_user := user; io_next := None; io_prev := None |} in
    let error := do _ <- uerror_errno; do _ <- ioctx_close_fd x false; dret None in
    if r_ret r <? 0 then error
    else
      do st <- call (S_fstat (r_ret r));
      if r_ret st <? 0 then error
      else
        let sb := r_stat st in
        do dir <- (if S_ISDIR (st_mode sb) then do d <- call (S_fdopendir (r_ret r)); dret (Some (negb (r_ret d <? 0)))
                   else dret None);
        if bool_decide (dir = Some false) then error
        else
          do i <- new_id;
          do _ <- store_ioctx i {| io_refcount := 1; io_fd := r_ret r; io_dir := bool_decide (dir = Some true);
                    io_lock_type := LOCK_UN; io_qid := diod_ustat2qid sb; io_iounit := 0; io_open_flags := flags;
                    io_user := user; io_next := None; io_prev := None |};
          dret (Some i).

(** The fid of the request is closed; the result of [close]. *)
Definition ioctx_close (f : fid_id) (seterrno : bool) : DM Z :=
  do x <- load_aux f;
  match fd_ioctx x with
  | None => lift Abort
  | Some i =>
      do n <- ioctx_decref i;
      do _ <- (if n =? 0 then unlink_ioctx (fd_path x) i else dret tt);
      do rc <- (if n =? 0 then ioctx_close_destroy i seterrno else dret 0);
      do _ <- upd_aux f (set_fd_ioctx None);
      dret rc
  end.

Definition DIOD_FID_FLAGS_MOUNTPT : Z := 2.
Definition DIOD_FID_FLAGS_SHAREFD : Z := 4.
Definition DIOD_FID_FLAGS_XATTR : Z := 8.

(** The loop of [ioctx_open] over the open files of the path. *)
Fixpoint find_ioctx (fuel : nat) (o : option ioctx_id) (flags uid : Z) : DM (option ioctx_id) :=
  match o, fuel with
  | None, _ => dret None
  | Some i, O => lift UB
  | Some i, S fuel =>
      do x <- load_ioctx i;
      if negb (qtype (io_qid x) =? Qtfile) || negb (io_open_flags x =? flags)
         || negb (uid_of_user (io_user x) =? uid)
      then find_ioctx fuel (io_next x) flags uid
      else do _ <- ioctx_incref i; dret (Some i)
  end.

(** 0 or -1; [user] is [fid->user]. *)
Definition ioctx_open (f : fid_id) (user : user_id) (flags mode : Z) : DM Z :=
  do x <- load_aux f;
  match fd_ioctx x with
  | Some _ => lift Abort
  | None =>
      do p <- load_path (fd_path x);
      do n <- get (fun s => size (d_ioctxs s));
      do ip <- (if bit (fd_flags x) DIOD_FID_FLAGS_SHAREFD && (Z.land flags 3 =? 0)
                then find_ioctx (S n) (pa_ioctx p) flags (uid_of_user user) else dret None);
      do ip <- match ip with
               | Some i => dret (Some i)
               | None =>
                   do o <- ioctx_create_open user (fd_path x) flags mode;
                   do _ <- match o with Some i => link_ioctx (fd_path x) i | None => dret tt end;
                   dret o
               end;
      match ip with
      | None => dret (-1)
      | Some i => do _ <- upd_aux f (set_fd_ioctx (Some i)); dret 0
      end
  end.

Definition ioctx_pread (i : ioctx_id) (count offset : Z) : DM sysres :=
  do x <- load_ioctx i; call (S_pread (io_fd x) count offset).
Definition ioctx_pwrite (i : ioctx_id) (data : list Z) (offset : Z) : DM Z :=
  do x <- load_ioctx i; do r <- call (S_pwrite (io_fd x) data offset); dret (r_ret r).
Definition ioctx_stat (i : ioctx_id) : DM sysres := do x <- load_ioctx i; call (S_fstat (io_fd x)).
Definition ioctx_chmod (i : ioctx_id) (mode : Z) : DM Z :=
  do x <- load_ioctx i; do r <- call (S_fchmod (io_fd x) mode); dret (r_ret r).
Definition ioctx_chown (i : ioctx_id) (uid gid : Z) : DM Z :=
  do x <- load_ioctx i; do r <- call (S_fchown (io_fd x) uid gid); dret (r_ret r).
Definition ioctx_truncate (i : ioctx_id) (size : Z) : DM Z :=
  do x <- load_ioctx i; do r <- call (S_ftruncate (io_fd x) (int64 size)); dret (r_ret r).
Definition ioctx_utimensat (i : ioctx_id) (atime mtime : Z * Z) : DM Z :=
  do x <- load_ioctx i; do r <- call (S_futimens (io_fd x) atime mtime); dret (r_ret r).
Definition ioctx_rewinddir (i : ioctx_id) : DM unit :=
  do x <- load_ioctx i; if io_dir x then do _ <- call (S_rewinddir (io_fd x)); dret tt else dret tt.
Definition ioctx_seekdir (i : ioctx_id) (offset : Z) : DM unit :=
  do x <- load_ioctx i; if io_dir x then do _ <- call (S_seekdir (io_fd x) offset); dret tt else dret tt.

(** The entry, or [NULL] with [errno]. *)
Definition ioctx_readdir (i : ioctx_id) : DM (option dirent) :=
  do x <- load_ioctx i;
  if negb (io_dir x) then do _ <- modify (set_errno EINVAL); dret None
  else do r <- call (S_readdir (io_fd x)); dret (r_ent r).

Definition ioctx_fsync (i : ioctx_id) (datasync : Z) : DM Z :=
  do x <- load_ioctx i;
  do r <- call (if negb (datasync =? 0) then S_fdatasync (io_fd x) else S_fsync (io_fd x)); dret (r_ret r).

Definition ioctx_flock (i : ioctx_id) (operation : Z) : DM Z :=
  do x <- load_ioctx i;
  do r <- call (S_flock (io_fd x) operation);
  if r_ret r <? 0 then dret (-1)
  else
    do _ <- upd_ioctx i (if bit operation LOCK_UN then set_io_lock_type LOCK_UN
                         else if bit operation LOCK_SH then set_io_lock_type LOCK_SH
                         else if bit operation LOCK_EX then set_io_lock_type LOCK_EX else fun x => x);
    dret 0.

(** [LOCK_UN] if a lock of the type could be had, [LOCK_EX] if not. *)
Definition ioctx_testlock (i : ioctx_id) (type : Z) : DM Z :=
  do x <- load_ioctx i;
  if ((type =? LOCK_SH) || (type =? LOCK_EX)) && (io_lock_type x =? LOCK_UN) then
    do r <- call (S_flock (io_fd x) (Z.lor type LOCK_NB));
    if r_ret r =? 0 then do _ <- call (S_flock (io_fd x) LOCK_UN); dret LOCK_UN
    else dret LOCK_EX
  else dret LOCK_UN.

(** ** Paths *)

Definition path_incref (p : path_id) : DM path_id :=
  do _ <- upd_path p (fun x => set_pa_refcount (pa_refcount x + 1) x); dret p.

Definition pool_find (key : cstr) : DM (option path_id) :=
  do _ <- modify (set_errno 0);
  do h <- get d_hash;
  lift (hash_find hash_key_string strcmp h key).

Definition pool_insert (key : cstr) (p : path_id) : DM bool :=
  do free <- get d_free;
  do mem <- match free with O => malloced 24576 | _ => dret true end;
  do h <- get d_hash;
  do (o, e, h, free) <- lift (hash_insert hash_key_string strcmp mem h key p free);
  do _ <- modify (set_hash h free);
  match o with
  | Some _ => dret true
  | None => do _ <- modify (set_errno e); dret false
  end.

Definition pool_remove (key : cstr) : DM unit :=
  do _ <- modify (set_errno 0);
  do h <- get d_hash;
  do free <- get d_free;
  do (_, h, free) <- lift (hash_remove hash_key_string strcmp h key free);
  modify (set_hash h free).

Definition path_decref (p : path_id) : DM unit :=
  do x <- load_path p;
  let n := pa_refcount x - 1 in
  do _ <- store_path p (set_pa_refcount n x);
  if n =? 0 then
    do _ <- pool_remove (c_string (pa_s x));
    free_path p
  else dret tt.

(** [s] is the buffer, [len] the length that goes with it. *)
Definition path_alloc (s : list Z) (len : Z) : DM (option path_id) :=
  do o <- pool_find (c_string s);
  match o with
  | Some p => do _ <- path_incref p; dret (Some p)
  | None =>
      do e <- get d_errno;
      do _ <- lift (np_assert (e =? 0));
      do ok <- malloced 64;
      if negb ok then dret None
      else
        do p <- new_id;
        do _ <- store_path p {| pa_refcount := 1; pa_s := s; pa_len := len; pa_ioctx := None |};
        do ok <- pool_insert (c_string s) p;
        if ok then dret (Some p)
        else
          do e <- get d_errno;
          do _ <- lift (np_assert (e =? ENOMEM));
          do _ <- free_path p;
          dret None
  end.

(** [ns] is the bytes of a counted string. *)
Definition path_create (ns : list Z) : DM (option path_id) :=
  do ok <- malloced (zlength ns + 1);
  if negb ok then dret None else path_alloc (ns ++ [0]) (zlength ns).

Definition path_append (opath : path_id) (ns : list Z) : DM (option path_id) :=
  do x <- load_path opath;
  let len := int32 (pa_len x + 1 + zlength ns) in
  do ok <- malloced (u64 (len + 1));
  if negb ok then dret None
  else
    do a <- lift (load_bytes (pa_s x) 0 (pa_len x));
    let s := a ++ [47] ++ ns ++ [0] in
    do _ <- lift (if zlength s =? len + 1 then Ret tt else UB);
    path_alloc s len.

(** The pool of a new server. *)
Definition ppool_init : hash cstr path_id := hash_create 1000.

(** diod before the first request. *)
Definition diod_start (o : os) : dstate :=
  {| d_paths := ∅; d_ioctxs := ∅; d_hash := ppool_init; d_free := 0; d_fids := ∅; d_err := 0; d_errno := 0;
     d_os := o; d_trace := []; d_fresh := 1 |}.
End Ioctx.
