(* ===== verification/DiodFid.v ===== *)
(** * Fids and extended attributes (libdiod/diod_fid.c, diod_xattr.c)

    The part of a fid that belongs to diod: its path, its open file and the
    extended attribute that is read or written through it.  The value of an
    attribute is collected in a buffer and stored when the fid is closed. *)
From S2P Require Import Prelude Cbuf Protocol Npstring Wire Fcall Hash Ioctx.
From stdpp Require Import list gmap.
#[local] Open Scope Z_scope.

Section Xattr.
Context `{Os}.

Definition XATTR_FLAGS_GET : Z := 1.
Definition XATTR_FLAGS_SET : Z := 2.

(** The buffer has the contents that [malloc] gives it.  [None]: out of memory. *)
Definition xattr_alloc (name : list Z) (size flags setflags : Z) : DM (option xattr) :=
  let nomem := do _ <- uerror ENOMEM; dret None in
  do ok <- malloced 40;
  if negb ok then nomem
  else
    do ok <- (if 0 <? zlength name then malloced (zlength name + 1) else dret true);
    if negb ok then nomem
    else
      let nm := if 0 <? zlength name then Some (name ++ [0]) else None in
      if 0 <? size then
        do r <- call (S_malloc size);
        if r_ret r =? 0 then nomem
        else dret (Some {| xa_name := nm; xa_buf := Some (r_bytes r); xa_len := int64 size; xa_flags := flags;
                           xa_setflags := setflags |})
      else dret (Some {| xa_name := nm; xa_buf := None; xa_len := 0; xa_flags := flags; xa_setflags := setflags |}).

(** [bufsize] and [count] are [size_t], [offset] is [off_t]. *)
Definition bounds_check (bufsize count offset : Z) : bool :=
  negb ((offset <? 0) || (bufsize <? offset) || (bufsize - offset <? count)).

(** [memcpy] from or to a buffer; no bytes may be copied with no buffer. *)
Definition load_buf (b : option (list Z)) (offset count : Z) : res (list Z) :=
  match b with
  | Some b => load_bytes b offset count
  | None => if count =? 0 then Ret [] else UB
  end.

Definition store_buf (b : option (list Z)) (offset : Z) (data : list Z) : res (option (list Z)) :=
  match b with
  | Some b => let! b := store_bytes b offset data in Ret (Some b)
  | None => if zlength data =? 0 then Ret None else UB
  end.

Definition set_xa_buf b x := {| xa_name := xa_name x; xa_buf := b; xa_len := xa_len x; xa_flags := xa_flags x;
  xa_setflags := xa_setflags x |}.
Definition set_xa_len n x := {| xa_name := xa_name x; xa_buf := xa_buf x; xa_len := n; xa_flags := xa_flags x;
  xa_setflags := xa_setflags x |}.

(** The count, or -1 with [errno]; the attribute of the fid. *)
Definition xattr_pwrite (f : fid_id) (data : list Z) (offset : Z) : DM Z :=
  do a <- load_aux f;
  do x <- lift (match fd_xattr a with Some x => Ret x | None => UB end);
  if negb (bit (xa_flags x) XATTR_FLAGS_SET) || negb (bounds_check (u64 (xa_len x)) (zlength data) (int64 offset))
  then do _ <- modify (set_errno EINVAL); dret (-1)
  else
    do b <- lift (store_buf (xa_buf x) (int64 offset) data);
    do _ <- upd_aux f (set_fd_xattr (Some (set_xa_buf b x)));
    dret (int32 (zlength data)).

Definition xattr_pread (f : fid_id) (count offset : Z) : DM (Z * list Z) :=
  do a <- load_aux f;
  do x <- lift (match fd_xattr a with Some x => Ret x | None => UB end);
  if negb (bit (xa_flags x) XATTR_FLAGS_GET) || negb (bounds_check (u64 (xa_len x)) count (int64 offset))
  then do _ <- modify (set_errno EINVAL); dret (-1, [])
  else
    do data <- lift (load_buf (xa_buf x) (int64 offset) count);
    dret (int32 count, data).

(** [lgetxattr] or [llistxattr]. *)
Definition get_xattr (x : xattr) (path : cstr) (n : Z) : DM sysres :=
  call (match xa_name x with
        | Some nm => S_lgetxattr path (c_string nm) n
        | None => S_llistxattr path n
        end).

(** The attribute with its value, or [None] for -1. *)
Definition lgetxattr (x : xattr) (path : cstr) : DM (option xattr) :=
  do r <- get_xattr x path 0;
  if r_ret r <? 0 then do _ <- uerror_errno; dret None
  else
    do _ <- lift (np_assert (bool_decide (xa_buf x = None)));
    do b <- call (S_malloc (r_ret r));
    if r_ret b =? 0 then do _ <- uerror ENOMEM; dret None
    else
      do v <- get_xattr x path (r_ret r);
      if r_ret v <? 0 then do _ <- uerror_errno; dret None
      else
        (** the call stores its result in the buffer *)
        do buf <- lift (store_bytes (r_bytes b) 0 (r_bytes v));
        dret (Some (set_xa_len (r_ret v) (set_xa_buf (Some buf) x))).

(** The size of the value, or [None] for -1. *)
Definition xattr_open (f : fid_id) (name : list Z) : DM (option Z) :=
  do a <- load_aux f;
  do _ <- lift (np_assert (bool_decide (fd_xattr a = None)));
  do x <- xattr_alloc name 0 XATTR_FLAGS_GET 0;
  do s <- path_s (fd_path a);
  (** [_lgetxattr] reads the attribute also when there is none *)
  do x <- lift (match x with Some x => Ret x | None => UB end);
  do x <- lgetxattr x s;
  do _ <- upd_aux f (set_fd_xattr x);
  match x with
  | None => dret None
  | Some x => dret (Some (u64 (xa_len x)))
  end.

(** 0 or -1 *)
Definition xattr_create (f : fid_id) (name : list Z) (size setflags : Z) : DM Z :=
  do a <- load_aux f;
  do _ <- lift (np_assert (bool_decide (fd_xattr a = None)));
  do x <- xattr_alloc name size XATTR_FLAGS_SET setflags;
  do _ <- upd_aux f (set_fd_xattr x);
  dret (match x with Some _ => 0 | None => -1 end).

Definition xattr_close (f : fid_id) : DM Z :=
  do a <- load_aux f;
  match fd_xattr a with
  | None => dret 0
  | Some x =>
      do rc <-
        (if bit (xa_flags x) XATTR_FLAGS_SET then
           do s <- path_s (fd_path a);
           let nm := c_string <$> xa_name x in
           if 0 <? xa_len x then
             do data <- lift (load_buf (xa_buf x) 0 (xa_len x));
             do r <- call (S_lsetxattr s nm data (xa_setflags x));
             if r_ret r <? 0 then do _ <- uerror_errno; dret (-1) else dret 0
           else if xa_len x =? 0 then
             do r <- call (S_lremovexattr s nm);
             if r_ret r <? 0 then do _ <- uerror_errno; dret (-1) else dret 0
           else dret 0
         else dret 0);
      do _ <- upd_aux f (set_fd_xattr None);
      dret rc
  end.
End Xattr.

Section Fid.
Context `{Os}.

Definition has_aux (f : fid_id) : DM bool := do m <- get d_fids; dret (bool_decide (is_Some (m !! f))).

(** [fid->aux], or [NULL] when memory runs out. *)
Definition diod_fidalloc (f : fid_id) (ns : list Z) : DM bool :=
  do ok <- malloced 32;
  do b <- has_aux f;
  do _ <- lift (np_assert (negb b));
  if negb ok then dret false
  else
    do p <- path_create ns;
    match p with
    | None => dret false
    | Some p =>
        do _ <- store_aux f {| fd_path := p; fd_ioctx := None; fd_xattr := None; fd_flags := 0 |};
        dret true
    end.

Definition diod_fidclone (newfid fid : fid_id) : DM bool :=
  do ok <- malloced 32;
  do b <- has_aux newfid;
  do _ <- lift (np_assert (negb b));
  if negb ok then dret false
  else
    do f <- load_aux fid;
    do p <- path_incref (fd_path f);
    do _ <- store_aux newfid {| fd_path := p; fd_ioctx := None; fd_xattr := None; fd_flags := fd_flags f |};
    dret true.

Definition diod_fiddestroy (f : fid_id) : DM unit :=
  do m <- get d_fids;
  match m !! f with
  | None => dret tt
  | Some x =>
      do _ <- (match fd_ioctx x with Some _ => do _ <- ioctx_close f false; dret tt | None => dret tt end);
      do _ <- (match fd_xattr x with Some _ => do _ <- xattr_close f; dret tt | None => dret tt end);
      do x <- load_aux f;
      do _ <- path_decref (fd_path x);
      free_aux f
  end.
End Fid.
