(* ===== verification/Ops.v ===== *)
(** * File system operations (libdiod/diod_ops.c)

    One definition per operation that diod gives the server.  An operation
    returns the reply it builds, as the arguments of the [np_create_] function,
    or [None] after it set an error.  A name is the bytes of a counted string of
    the request; [errn], which logs an error, reads the paths it prints. *)
From S2P Require Import Prelude Cbuf Protocol Npstring Wire Fcall Hash Conf Exports Ioctx DiodFid.
From stdpp Require Import list gmap.
#[local] Open Scope Z_scope.

Inductive reply :=
| R (c : np_call)
| R_rreaddir (data : list Z).

Definition V9FS_MAGIC : Z := 0x01021997.
Definition EBADF : Z := 9.
Definition EISDIR : Z := 21.
Definition EWOULDBLOCK : Z := 11.
Definition ENODATA : Z := 61.
Definition PATH_MAX : Z := 4096.

(** Flags of Tlopen (protocol.h) *)
Definition Ocreate : Z := 0x40.
Definition Oexcl : Z := 0x80.
Definition Onoctty : Z := 0x100.
Definition Otrunc : Z := 0x200.
Definition Oappend : Z := 0x400.
Definition Ononblock : Z := 0x800.
Definition Odsync : Z := 0x1000.
Definition Ofasync : Z := 0x2000.
Definition Odirect : Z := 0x4000.
Definition Olargefile : Z := 0x8000.
Definition Odirectory : Z := 0x10000.
Definition Onofollow : Z := 0x20000.
Definition Onoatime : Z := 0x40000.
Definition Ocloexec : Z := 0x80000.
Definition Osync : Z := 0x100000.

Definition Uremovedir : Z := 0x200.
Definition Lblock : Z := 1.
Definition Lsuccess : Z := 0.
Definition Lblocked : Z := 1.
Definition Lerror : Z := 2.
Definition Lrdlck : Z := 0.
Definition Lwrlck : Z := 1.
Definition Lunlck : Z := 2.

Definition Samode : Z := 0x1.
Definition Sauid : Z := 0x2.
Definition Sagid : Z := 0x4.
Definition Sasize : Z := 0x8.
Definition Saatime : Z := 0x10.
Definition Samtime : Z := 0x20.
Definition Sactime : Z := 0x40.
Definition Saatimeset : Z := 0x80.
Definition Samtimeset : Z := 0x100.
Definition UTIME_NOW : Z := 0x3fffffff.
Definition UTIME_OMIT : Z := 0x3ffffffe.

(** Flags of [open] on Linux (x86-64). *)
Definition O_ACCMODE : Z := 3.
Definition O_CREAT : Z := 0x40.
Definition O_EXCL : Z := 0x80.
Definition O_NOCTTY : Z := 0x100.
Definition O_TRUNC : Z := 0x200.
Definition O_APPEND : Z := 0x400.
Definition O_NONBLOCK : Z := 0x800.
Definition O_DSYNC : Z := 0x1000.
Definition FASYNC : Z := 0x2000.
Definition O_DIRECT : Z := 0x4000.
Definition O_LARGEFILE : Z := 0.
Definition O_DIRECTORY : Z := 0x10000.
Definition O_NOFOLLOW : Z := 0x20000.
Definition O_NOATIME : Z := 0x40000.
Definition O_CLOEXEC : Z := 0x80000.
Definition O_SYNC : Z := 0x101000.

Definition dotl_oflag_map : list (Z * Z) :=
  [(O_CREAT, Ocreate); (O_EXCL, Oexcl); (O_NOCTTY, Onoctty); (O_TRUNC, Otrunc); (O_APPEND, Oappend);
   (O_NONBLOCK, Ononblock); (O_DSYNC, Odsync); (FASYNC, Ofasync); (O_DIRECT, Odirect); (O_LARGEFILE, Olargefile);
   (O_DIRECTORY, Odirectory); (O_NOFOLLOW, Onofollow); (O_NOATIME, Onoatime); (O_CLOEXEC, Ocloexec);
   (O_SYNC, Osync)].

Definition remap_oflags (flags : Z) : Z :=
  foldl (fun rflags '(open_flag, dotl_flag) => if bit flags dotl_flag then Z.lor rflags open_flag else rflags)
    (Z.land flags O_ACCMODE) dotl_oflag_map.

Definition DT_UNKNOWN : Z := 0.
Definition DT_DIR : Z := 4.
Definition DT_LNK : Z := 10.

Definition dirent2qid (d : dirent) : res Npqid :=
  let! _ := np_assert (negb (de_type d =? DT_UNKNOWN)) in
  Ret {| qtype := if de_type d =? DT_DIR then Qtdir else if de_type d =? DT_LNK then Qtsymlink else Qtfile;
         qversion := 0; qpath := de_ino d |}.

Section Ops.
Context `{CHeap} `{Os}.
(** The configuration, and whether an iterator over the exports can be had. *)
Context (conf : Conf) (iterator : bool).

Definition mk (c : np_call) : DM bool := do r <- call (S_reply c); dret (negb (r_ret r =? 0)).
Definition errn (p : path_id) : DM unit := do _ <- load_path p; dret tt.

(** The ends of an operation: [error_quiet], [error], [np_uerror (errno)] before
    either, and a failed allocation. *)
Definition quiet : DM (option reply) := dret None.
Definition error (p : path_id) : DM (option reply) := do _ <- errn p; quiet.
Definition fail_quiet : DM (option reply) := do _ <- uerror_errno; quiet.
Definition fail_with (e : Z) (p : path_id) : DM (option reply) := do _ <- uerror e; error p.

(** The end of most operations: build the reply. *)
Definition answer (c : np_call) (p : path_id) : DM (option reply) :=
  do ok <- mk c;
  if ok then dret (Some (R c)) else fail_with ENOMEM p.

(** [uname2user] is [np_uname2user]; the user of the fid, or [None] for -1. *)
Definition diod_remapuser (uname2user : cstr -> option user_id) (user : option user_id)
  : DM (option (option user_id)) :=
  if negb (allsquash conf =? 0) then
    match uname2user (squashuser conf) with
    | None => dret None
    | Some u =>
        do _ <- match user with Some old => user_event (E_user_decref old) | None => dret tt end;
        dret (Some (Some u))
    end
  else dret (Some user).

Definition diod_attach (f : fid_id) (user : user_id) (aname : list Z) : DM (option reply) :=
  let error := do _ <- diod_fiddestroy f; dret None in
  do ok <- diod_fidalloc f aname;
  if negb ok then do _ <- uerror ENOMEM; error
  else if Conf.diod_conf_opt_runasuid conf && negb (uid_of_user user =? runasuid conf) then
    do _ <- uerror EPERM; error
  else
    do a <- load_aux f;
    do _ <- match diod_fetch_xflags iterator conf (Some (c_string aname)) with
            | Some xflags =>
                if bit xflags XFLAGS_SHAREFD
                then upd_aux f (fun x => set_fd_flags (Z.lor (fd_flags x) DIOD_FID_FLAGS_SHAREFD) x) else dret tt
            | None => dret tt
            end;
    do s <- path_s (fd_path a);
    do r <- call (S_stat s);
    if r_ret r <? 0 then do _ <- uerror_errno; error
    else
      let qid := diod_ustat2qid (r_stat r) in
      do ok <- mk (C_rattach qid);
      if ok then dret (Some (R (C_rattach qid))) else do _ <- uerror ENOMEM; error.

Definition diod_clone (f newfid : fid_id) : DM bool :=
  do a <- load_aux f;
  do ok <- diod_fidclone newfid f;
  if ok then dret true
  else do _ <- uerror ENOMEM; do _ <- errn (fd_path a); dret false.

(** The last component of a path. *)
Fixpoint basename_from (name : cstr) (s : cstr) : cstr :=
  match s with
  | [] => name
  | c :: s => basename_from (if c =? 47 then s else name) s
  end.
Definition basename (path : cstr) : cstr := basename_from path path.

(** The loop over the parent directory; [fuel] bounds the entries. *)
Fixpoint statmnt_loop (fuel : nat) (fd : Z) (name : cstr) : DM (option dirent) :=
  match fuel with
  | O => lift UB
  | S fuel =>
      do _ <- modify (set_errno 0);
      do r <- call (S_readdir fd);
      match r_ent r with
      | None => do e <- get d_errno; do _ <- uerror (if e =? 0 then ENOENT else e); dret None
      | Some d => if strcmp name (de_name d) =? 0 then dret (Some d) else statmnt_loop fuel fd name
      end
  end.

(** [opendir] returns a descriptor.  The fixed up [stat], or [None] for -1. *)
Definition statmnt (fuel : nat) (path : cstr) : DM (option stat) :=
  let fail := do _ <- uerror_errno; dret None in
  do r <- call (S_stat path);
  if r_ret r <? 0 then fail
  else
    do ok <- malloced (strlen path + 4);
    if negb ok then do _ <- uerror ENOMEM; dret None
    else
      let ppath := path ++ [47; 46; 46] in
      do rp <- call (S_stat ppath);
      if r_ret rp <? 0 then fail
      else
        do d <- call (S_opendir ppath);
        if r_ret d <? 0 then fail
        else
          do o <- statmnt_loop fuel (r_ret d) (basename path);
          do _ <- call (S_closedir (r_ret d));
          match o with
          | None => dret None
          | Some dp =>
              let sb := r_stat r in
              dret (Some {| st_dev := st_dev (r_stat rp); st_ino := de_ino dp; st_mode := st_mode sb;
                st_nlink := st_nlink sb; st_uid := st_uid sb; st_gid := st_gid sb; st_rdev := st_rdev sb;
                st_size := st_size sb; st_blksize := st_blksize sb; st_blocks := st_blocks sb;
                st_atim := st_atim sb; st_mtim := st_mtim sb; st_ctim := st_ctim sb |})
          end.

(** The qid, or [None] for 0. *)
Definition diod_walk (fuel : nat) (f : fid_id) (wname : list Z) : DM (option Npqid) :=
  do a <- load_aux f;
  if bit (fd_flags a) DIOD_FID_FLAGS_MOUNTPT then do _ <- uerror ENOENT; dret None
  else
    do o <- path_append (fd_path a) wname;
    match o with
    | None => do _ <- uerror ENOMEM; do _ <- errn (fd_path a); dret None
    | Some npath =>
        let error_quiet := do _ <- path_decref npath; dret None in
        let error := do _ <- errn (fd_path a); error_quiet in
        do ns <- path_s npath;
        do r <- call (S_lstat ns);
        if r_ret r <? 0 then do _ <- uerror_errno; error_quiet
        else
          do s <- path_s (fd_path a);
          do r2 <- call (S_stat s);
          if r_ret r2 <? 0 then do _ <- uerror_errno; error
          else
            let done (sb : stat) :=
              do _ <- path_decref (fd_path a);
              do _ <- upd_aux f (set_fd_path npath);
              dret (Some (diod_ustat2qid sb)) in
            if negb (st_dev (r_stat r) =? st_dev (r_stat r2)) then
              do o <- statmnt fuel ns;
              match o with
              | None => error
              | Some sb =>
                  do _ <- upd_aux f (fun x => set_fd_flags (Z.lor (fd_flags x) DIOD_FID_FLAGS_MOUNTPT) x);
                  done sb
              end
            else done (r_stat r)
    end.

(** [f->ioctx] for an operation on an open file. *)
Definition if_open (a : Fid) (k : ioctx_id -> DM (option reply)) : DM (option reply) :=
  match fd_ioctx a with
  | None => fail_with EBADF (fd_path a)
  | Some i => k i
  end.

Definition is_xattr (a : Fid) : bool := bit (fd_flags a) DIOD_FID_FLAGS_XATTR.

Definition diod_read (f : fid_id) (offset count : Z) : DM (option reply) :=
  do a <- load_aux f;
  if bool_decide (fd_ioctx a = None) && negb (is_xattr a) then fail_with EBADF (fd_path a)
  else
    do ok <- malloced (count + 11);
    if negb ok then fail_with ENOMEM (fd_path a)
    else
      do (n, data) <-
        (if is_xattr a then xattr_pread f count offset
         else match fd_ioctx a with
              | Some i => do r <- ioctx_pread i count (int64 offset); dret (int32 (r_ret r), r_bytes r)
              | None => lift UB
              end);
      if n <? 0 then fail_quiet
      else dret (Some (R (C_rread (take (Z.to_nat n) data)))).

Definition diod_write (f : fid_id) (offset : Z) (data : list Z) : DM (option reply) :=
  do a <- load_aux f;
  if bool_decide (fd_ioctx a = None) && negb (is_xattr a) then fail_with EBADF (fd_path a)
  else
    do n <- (if is_xattr a then xattr_pwrite f data offset
             else match fd_ioctx a with
                  | Some i => do n <- ioctx_pwrite i data (int64 offset); dret (int32 n)
                  | None => lift UB
                  end);
    if n <? 0 then fail_quiet else answer (C_rwrite n) (fd_path a).

Definition diod_clunk (f : fid_id) : DM (option reply) :=
  do a <- load_aux f;
  do rc <- (if is_xattr a then xattr_close f
            else match fd_ioctx a with
                 | Some _ => ioctx_close f true
                 | None => dret 0
                 end);
  if rc <? 0 then quiet else answer C_rclunk (fd_path a).

Definition diod_remove (f : fid_id) : DM (option reply) :=
  do a <- load_aux f;
  do s <- path_s (fd_path a);
  do r <- call (S_remove s);
  if r_ret r <? 0 then fail_quiet else answer C_rremove (fd_path a).

Definition diod_statfs (f : fid_id) : DM (option reply) :=
  do a <- load_aux f;
  let fail := do _ <- uerror_errno; error (fd_path a) in
  do s <- path_s (fd_path a);
  do r <- call (S_statvfs s);
  if r_ret r <? 0 then fail
  else
    do type <- (if negb (statfs_passthru conf =? 0)
                then do r2 <- call (S_statfs s); dret (if r_ret r2 <? 0 then None else Some (u32 (vf_type (r_vfs r2))))
                else dret (Some V9FS_MAGIC));
    match type with
    | None => fail
    | Some type =>
        let v := r_vfs r in
        answer (C_rstatfs type (vf_bsize v) (vf_blocks v) (vf_bfree v) (vf_bavail v) (vf_files v) (vf_ffree v)
                  (vf_fsid v) (vf_namemax v)) (fd_path a)
    end.

(** The reply of an open; the fid is closed again if there is none. *)
Definition opened (f : fid_id) (c : Npqid -> Z -> np_call) : DM (option np_call) :=
  do a <- load_aux f;
  match fd_ioctx a with
  | None => lift UB
  | Some i =>
      do x <- load_ioctx i;
      do ok <- mk (c (io_qid x) (io_iounit x));
      if ok then dret (Some (c (io_qid x) (io_iounit x)))
      else do _ <- ioctx_close f false; dret None
  end.

(** [diod_lopen] from the call of [ioctx_open] on. *)
Definition lopen_open (f : fid_id) (user : user_id) (flags : Z) : DM (option reply) :=
  do a <- load_aux f;
  do rc <- ioctx_open f user flags 0;
  if rc <? 0 then
    do e <- rerror;
    if e =? ENOMEM then error (fd_path a) else quiet
  else
    do o <- opened f C_rlopen;
    match o with
    | Some c => dret (Some (R c))
    | None => fail_with ENOMEM (fd_path a)
    end.

Definition clear_creat (flags : Z) : Z := if bit flags O_CREAT then Z.land flags (Z.lnot O_CREAT) else flags.

Definition diod_lopen (f : fid_id) (user : user_id) (flags : Z) : DM (option reply) :=
  do a <- load_aux f;
  let flags := remap_oflags (int32 flags) in
  if bit flags O_DIRECT then do _ <- uerror EINVAL; quiet
  else
    let flags := clear_creat flags in
    if negb (bool_decide (fd_ioctx a = None)) then fail_with EINVAL (fd_path a)
    else lopen_open f user flags.

Definition diod_lcreate (f : fid_id) (user : user_id) (name : list Z) (flags mode : Z) : DM (option reply) :=
  do a <- load_aux f;
  let flags := remap_oflags (int32 flags) in
  if bit flags O_DIRECT then do _ <- uerror EINVAL; quiet
  else
    let flags := if negb (bit flags O_CREAT) then Z.lor flags O_CREAT else flags in
    if negb (bool_decide (fd_ioctx a = None)) then fail_with EINVAL (fd_path a)
    else
      let opath := fd_path a in
      do o <- path_append opath name;
      match o with
      | None => fail_with ENOMEM opath
      | Some npath =>
          do _ <- upd_aux f (set_fd_path npath);
          let error_quiet := do _ <- path_decref npath; do _ <- upd_aux f (set_fd_path opath); quiet in
          let error := do _ <- errn opath; error_quiet in
          do rc <- ioctx_open f user flags mode;
          if rc <? 0 then do e <- rerror; if e =? ENOMEM then error else error_quiet
          else
            do o <- opened f C_rlcreate;
            match o with
            | Some c => do _ <- path_decref opath; dret (Some (R c))
            | None =>
                do s <- path_s npath;
                do _ <- call (S_unlink s);
                do _ <- uerror ENOMEM;
                error
            end
      end.

(** Operations that make a file with a name in the directory of the fid: [make]
    is the system call on the new path, [undo] the one that takes it back. *)
Definition create_at (f : fid_id) (name : list Z) (make : cstr -> syscall) (undo : cstr -> syscall)
  (c : Npqid -> np_call) : DM (option reply) :=
  do a <- load_aux f;
  do o <- path_append (fd_path a) name;
  match o with
  | None => fail_with ENOMEM (fd_path a)
  | Some npath =>
      do ns <- path_s npath;
      let error_quiet := do _ <- path_decref npath; quiet in
      do r <- call (make ns);
      if r_ret r <? 0 then do _ <- uerror_errno; error_quiet
      else
        do st <- call (S_lstat ns);
        if r_ret st <? 0 then do _ <- uerror_errno; error_quiet
        else
          let qid := diod_ustat2qid (r_stat st) in
          do ok <- mk (c qid);
          if ok then do _ <- path_decref npath; dret (Some (R (c qid)))
          else
            do _ <- call (undo ns);
            do _ <- uerror ENOMEM;
            do _ <- errn (fd_path a);
            error_quiet
  end.

(** The copy of the target is allocated between the path and the system call. *)
Definition diod_symlink (f : fid_id) (name symtgt : list Z) : DM (option reply) :=
  do a <- load_aux f;
  do o <- path_append (fd_path a) name;
  match o with
  | None => fail_with ENOMEM (fd_path a)
  | Some npath =>
      do ns <- path_s npath;
      let error_quiet := do _ <- path_decref npath; quiet in
      do ok <- malloced (zlength symtgt + 1);
      if negb ok then do _ <- uerror ENOMEM; do _ <- errn (fd_path a); error_quiet
      else
        do r <- call (S_symlink (c_string symtgt) ns);
        if r_ret r <? 0 then do _ <- uerror_errno; error_quiet
        else
          do st <- call (S_lstat ns);
          if r_ret st <? 0 then do _ <- uerror_errno; error_quiet
          else
            let qid := diod_ustat2qid (r_stat st) in
            do ok <- mk (C_rsymlink qid);
            if ok then do _ <- path_decref npath; dret (Some (R (C_rsymlink qid)))
            else
              do _ <- call (S_unlink ns);
              do _ <- uerror ENOMEM;
              do _ <- errn (fd_path a);
              error_quiet
  end.

Definition diod_mknod (f : fid_id) (name : list Z) (mode major minor : Z) : DM (option reply) :=
  create_at f name (fun s => S_mknod s mode major minor) S_unlink C_rmknod.

Definition diod_mkdir (f : fid_id) (name : list Z) (mode : Z) : DM (option reply) :=
  create_at f name (fun s => S_mkdir s mode) S_rmdir C_rmkdir.

Definition diod_rename (f d : fid_id) (name : list Z) : DM (option reply) :=
  do a <- load_aux f;
  do da <- load_aux d;
  do o <- path_append (fd_path da) name;
  match o with
  | None => do _ <- errn (fd_path a); fail_with ENOMEM (fd_path da)
  | Some npath =>
      do s <- path_s (fd_path a);
      do ns <- path_s npath;
      do r <- call (S_rename s ns);
      if r_ret r <? 0 then do _ <- uerror_errno; do _ <- path_decref npath; quiet
      else
        do ok <- mk C_rrename;
        if ok then
          do _ <- path_decref (fd_path a);
          do _ <- upd_aux f (set_fd_path npath);
          dret (Some (R C_rrename))
        else
          do _ <- uerror ENOMEM;
          do _ <- errn (fd_path a);
          do _ <- errn (fd_path da);
          do _ <- call (S_rename ns s);
          do _ <- path_decref npath;
          quiet
  end.

Definition diod_readlink (f : fid_id) : DM (option reply) :=
  do a <- load_aux f;
  do s <- path_s (fd_path a);
  do r <- call (S_readlink s PATH_MAX);
  if r_ret r <? 0 then fail_quiet
  else answer (C_rreadlink (c_string (take (Z.to_nat (r_ret r)) (r_bytes r)))) (fd_path a).

(** [_lstat], [_chmod], [_lchown], [_truncate], [_utimensat]: on the open file if
    there is one, on the path otherwise. *)
Definition lstat_fid (a : Fid) : DM sysres :=
  match fd_ioctx a with
  | Some i => ioctx_stat i
  | None => do s <- path_s (fd_path a); call (S_lstat s)
  end.

Definition chmod_fid (a : Fid) (mode : Z) : DM Z :=
  match fd_ioctx a with
  | Some i => ioctx_chmod i mode
  | None => do s <- path_s (fd_path a); do r <- call (S_chmod s mode); dret (r_ret r)
  end.

Definition lchown_fid (a : Fid) (uid gid : Z) : DM Z :=
  match fd_ioctx a with
  | Some i => ioctx_chown i uid gid
  | None => do s <- path_s (fd_path a); do r <- call (S_lchown s uid gid); dret (r_ret r)
  end.

Definition truncate_fid (a : Fid) (size : Z) : DM Z :=
  match fd_ioctx a with
  | Some i => ioctx_truncate i size
  | None => do s <- path_s (fd_path a); do r <- call (S_truncate s (int64 size)); dret (r_ret r)
  end.

Definition utimensat_fid (a : Fid) (atime mtime : Z * Z) : DM Z :=
  match fd_ioctx a with
  | Some i => ioctx_utimensat i atime mtime
  | None => do s <- path_s (fd_path a); do r <- call (S_utimensat s atime mtime); dret (r_ret r)
  end.

Definition diod_getattr (fuel : nat) (f : fid_id) (request_mask : Z) : DM (option reply) :=
  do a <- load_aux f;
  do o <- (if bit (fd_flags a) DIOD_FID_FLAGS_MOUNTPT then do s <- path_s (fd_path a); statmnt fuel s
           else do r <- lstat_fid a; dret (if r_ret r <? 0 then None else Some (r_stat r)));
  match o with
  | None => fail_quiet
  | Some sb =>
      answer (C_rgetattr request_mask (diod_ustat2qid sb) (st_mode sb) (st_uid sb) (st_gid sb) (st_nlink sb)
                (st_rdev sb) (st_size sb) (st_blksize sb) (st_blocks sb) (fst (st_atim sb)) (snd (st_atim sb))
                (fst (st_mtim sb)) (snd (st_mtim sb)) (fst (st_ctim sb)) (snd (st_ctim sb)) 0 0 0 0) (fd_path a)
  end.

(** A time of [utimensat]: unchanged, now, or the given one. *)
Definition set_time (valid set setto : Z) (t : Z * Z) : Z * Z :=
  if negb (bit valid set) then (0, UTIME_OMIT)
  else if negb (bit valid setto) then (0, UTIME_NOW)
  else t.

(** [when b c]: the result of [c] if [b], 0 otherwise. *)
Definition when (b : bool) (c : DM Z) : DM Z := if b then c else dret 0.

Definition diod_setattr (f : fid_id) (valid mode uid gid size : Z) (atime mtime : Z * Z) : DM (option reply) :=
  do a <- load_aux f;
  do rc <- when (bit valid Samode) (chmod_fid a mode);
  if rc <? 0 then fail_quiet
  else
    let chown := bit valid Sauid || bit valid Sagid in
    do rc <- when chown (lchown_fid a (if bit valid Sauid then uid else u32 (-1)) (if bit valid Sagid then gid else u32 (-1)));
    if rc <? 0 then fail_quiet
    else
      do rc <- when (bit valid Sasize) (truncate_fid a size);
      if rc <? 0 then fail_quiet
      else
        let utime := bit valid Saatime || bit valid Samtime in
        do rc <- when utime (utimensat_fid a (set_time valid Saatime Saatimeset atime)
                                            (set_time valid Samtime Samtimeset mtime));
        if rc <? 0 then fail_quiet
        else
          let ctime_updated := bit valid Samode || chown || bit valid Sasize || utime in
          do rc <- when (bit valid Sactime && negb ctime_updated) (lchown_fid a (u32 (-1)) (u32 (-1)));
          if rc <? 0 then fail_quiet else answer C_rsetattr (fd_path a).

(** The bytes of an entry that were stored, with what follows them in the buffer
    of [buflen] bytes; none if there is no room or an error. *)
Definition copy_dirent_linux (a : Fid) (d : dirent) (buflen : Z) : DM (list Z) :=
  do o <- (if de_type d =? DT_UNKNOWN then
             do s <- path_s (fd_path a);
             do r <- call (S_lstat (take (Z.to_nat PATH_MAX) (s ++ [47] ++ de_name d)));
             if r_ret r <? 0 then do _ <- uerror_errno; dret None else dret (Some (diod_ustat2qid (r_stat r)))
           else do q <- lift (dirent2qid d); dret (Some q));
  match o with
  | None => dret []
  | Some qid =>
      do (n, buf) <- lift (np_serialize_p9dirent qid (u64 (de_off d)) (u8 (de_type d)) (de_name d)
                             (replicate (Z.to_nat buflen) 0) (int32 buflen));
      dret (take (Z.to_nat n) buf)
  end.

Definition dot : cstr := [46].
Definition dotdot : cstr := [46; 46].

(** [fuel] bounds the number of entries read. *)
Fixpoint read_dir_loop (fuel : nat) (a : Fid) (i : ioctx_id) (count : Z) (data : list Z) : DM (list Z) :=
  match fuel with
  | O => lift UB
  | S fuel =>
      do _ <- modify (set_errno 0);
      do o <- ioctx_readdir i;
      match o with
      | None => do e <- get d_errno; do _ <- (if e =? 0 then dret tt else uerror e); dret data
      | Some d =>
          let again data := if zlength data <? count then read_dir_loop fuel a i count data else dret data in
          if bit (fd_flags a) DIOD_FID_FLAGS_MOUNTPT && negb (strcmp (de_name d) dot =? 0)
             && negb (strcmp (de_name d) dotdot =? 0) then again data
          else
            do bs <- copy_dirent_linux a d (count - zlength data);
            if zlength bs =? 0 then dret data else again (data ++ bs)
      end
  end.

Definition read_dir_linux (fuel : nat) (a : Fid) (i : ioctx_id) (offset count : Z) : DM (list Z) :=
  do _ <- (if offset =? 0 then ioctx_rewinddir i else ioctx_seekdir i (int64 offset));
  read_dir_loop fuel a i count [].

Definition diod_readdir (fuel : nat) (f : fid_id) (offset count : Z) : DM (option reply) :=
  do a <- load_aux f;
  if_open a (fun i =>
    do ok <- malloced (count + 11);
    if negb ok then fail_with ENOMEM (fd_path a)
    else
      do data <- read_dir_linux fuel a i offset count;
      do e <- rerror;
      dret (if negb (e =? 0) then None else Some (R_rreaddir data))).

Definition diod_fsync (f : fid_id) (datasync : Z) : DM (option reply) :=
  do a <- load_aux f;
  if_open a (fun i =>
    do rc <- ioctx_fsync i datasync;
    if rc <? 0 then fail_quiet else answer C_rfsync (fd_path a)).

(** [None]: an unknown type of lock. *)
Definition lock_status (i : ioctx_id) (type : Z) : DM (option Z) :=
  let try op :=
    do rc <- ioctx_flock i op;
    if rc =? 0 then dret (Some Lsuccess)
    else do e <- get d_errno; dret (Some (if e =? EWOULDBLOCK then Lblocked else Lerror)) in
  if type =? Lunlck then
    do rc <- ioctx_flock i LOCK_UN; dret (Some (if rc =? 0 then Lsuccess else Lerror))
  else if type =? Lrdlck then try (Z.lor LOCK_SH LOCK_NB)
  else if type =? Lwrlck then try (Z.lor LOCK_EX LOCK_NB)
  else dret None.

Definition diod_lock (f : fid_id) (type flags : Z) : DM (option reply) :=
  do a <- load_aux f;
  if bit flags (Z.lnot Lblock) then fail_with EINVAL (fd_path a)
  else
    if_open a (fun i =>
      do o <- lock_status i type;
      match o with
      | None => fail_with EINVAL (fd_path a)
      | Some status => answer (C_rlock status) (fd_path a)
      end).

Definition diod_getlock (f : fid_id) (type start length proc_id : Z) (client_id : list Z) : DM (option reply) :=
  do a <- load_aux f;
  if_open a (fun i =>
    do ok <- malloced (zlength client_id + 1);
    if negb ok then fail_with ENOMEM (fd_path a)
    else if negb (type =? Lrdlck) && negb (type =? Lwrlck) then fail_with EINVAL (fd_path a)
    else
      do ftype <- ioctx_testlock i (if type =? Lrdlck then LOCK_SH else LOCK_EX);
      answer (C_rgetlock (if ftype =? LOCK_EX then Lwrlck else Lunlck) start length proc_id (c_string client_id))
        (fd_path a)).

Definition diod_link (d f : fid_id) (name : list Z) : DM (option reply) :=
  do a <- load_aux f;
  do da <- load_aux d;
  do o <- path_append (fd_path da) name;
  match o with
  | None => do _ <- errn (fd_path a); fail_with ENOMEM (fd_path da)
  | Some npath =>
      do s <- path_s (fd_path a);
      do ns <- path_s npath;
      do r <- call (S_link s ns);
      if r_ret r <? 0 then do _ <- uerror_errno; do _ <- path_decref npath; quiet
      else
        do ok <- mk C_rlink;
        if ok then do _ <- path_decref npath; dret (Some (R C_rlink))
        else
          do _ <- call (S_unlink ns);
          do _ <- uerror ENOMEM;
          do _ <- errn (fd_path a);
          do _ <- errn (fd_path da);
          do _ <- path_decref npath;
          quiet
  end.

Definition diod_xattrwalk (f attrfid : fid_id) (name : list Z) : DM (option reply) :=
  do a <- load_aux f;
  let error_quiet := do _ <- diod_fiddestroy attrfid; quiet in
  let error := do _ <- errn (fd_path a); error_quiet in
  do ok <- diod_fidclone attrfid f;
  if negb ok then do _ <- uerror ENOMEM; error
  else
    do o <- xattr_open attrfid name;
    match o with
    | None => do e <- rerror; if e =? ENODATA then error_quiet else error
    | Some size =>
        do _ <- upd_aux attrfid (fun x => set_fd_flags (Z.lor (fd_flags x) DIOD_FID_FLAGS_XATTR) x);
        do ok <- mk (C_rxattrwalk size);
        if ok then dret (Some (R (C_rxattrwalk size)))
        else do _ <- diod_fiddestroy attrfid; do _ <- uerror ENOMEM; error
    end.

Definition diod_xattrcreate (f : fid_id) (name : list Z) (attr_size flags : Z) : DM (option reply) :=
  do a <- load_aux f;
  do rc <- xattr_create f name attr_size flags;
  if rc <? 0 then error (fd_path a)
  else
    do _ <- upd_aux f (fun x => set_fd_flags (Z.lor (fd_flags x) DIOD_FID_FLAGS_XATTR) x);
    answer C_rxattrcreate (fd_path a).

(** [errn] of a path that may be [NULL]. *)
Definition errn_opt (o : option path_id) : DM unit :=
  match o with
  | Some p => errn p
  | None => lift UB
  end.

Definition decref_opt (o : option path_id) : DM unit :=
  match o with
  | Some p => path_decref p
  | None => dret tt
  end.

Definition diod_renameat (od : fid_id) (oldname : list Z) (nd : fid_id) (newname : list Z) : DM (option reply) :=
  do oa <- load_aux od;
  do na <- load_aux nd;
  do opath <- path_append (fd_path oa) oldname;
  let error_quiet npath := do _ <- decref_opt npath; do _ <- decref_opt opath; quiet in
  let error npath := do _ <- errn_opt opath; do _ <- errn_opt npath; error_quiet npath in
  match opath with
  | None => do _ <- uerror ENOMEM; error None
  | Some op =>
      do npath <- path_append (fd_path na) newname;
      match npath with
      | None => do _ <- uerror ENOMEM; error None
      | Some np =>
          do os <- path_s op;
          do ns <- path_s np;
          do r <- call (S_rename os ns);
          if r_ret r <? 0 then do _ <- uerror_errno; error_quiet npath
          else
            do ok <- mk C_rrenameat;
            if ok then do _ <- path_decref np; do _ <- path_decref op; dret (Some (R C_rrenameat))
            else do _ <- uerror ENOMEM; error npath
      end
  end.

Definition diod_unlinkat (d : fid_id) (name : list Z) (flags : Z) : DM (option reply) :=
  do a <- load_aux d;
  do rpath <- path_append (fd_path a) name;
  let error_quiet := do _ <- decref_opt rpath; quiet in
  let error := do _ <- errn_opt rpath; error_quiet in
  match rpath with
  | None => do _ <- uerror ENOMEM; error
  | Some rp =>
      do s <- path_s rp;
      do st <- call (S_lstat s);
      if r_ret st <? 0 then do _ <- uerror_errno; error
      else if S_ISDIR (st_mode (r_stat st)) && negb (bit flags Uremovedir) then
        do _ <- uerror EISDIR; error_quiet
      else
        do r <- call (if S_ISDIR (st_mode (r_stat st)) then S_rmdir s else S_unlink s);
        if r_ret r <? 0 then do _ <- uerror_errno; error_quiet
        else
          do ok <- mk C_runlinkat;
          if ok then do _ <- path_decref rp; dret (Some (R C_runlinkat))
          else do _ <- uerror ENOMEM; error
  end.

Definition diod_get_path (f : fid_id) : DM (option cstr) :=
  do m <- get d_fids;
  match m !! f with
  | Some a => do s <- path_s (fd_path a); dret (Some s)
  | None => dret None
  end.
End Ops.
