(* ===== verification/IoctxInv.v ===== *)
(** * The invariant of paths and open files (libdiod/diod_ioctx.c, diod_fid.c)

    What holds between the operations of diod: the pool finds every path by its
    string, the open files of a path are linked, reference counts count the fids,
    and every file descriptor and user reference that was taken is given back
    once.  One lemma per function of diod_ioctx.c and diod_fid.c. *)
From S2P Require Import Prelude Cbuf Protocol Npstring Wire Fcall Hash Ioctx DiodFid.
From stdpp Require Import list gmap.
#[local] Open Scope Z_scope.

(** ** Counting in a map *)
Section Count.
Context `{Countable K} {A : Type}.
Implicit Types (m : gmap K A) (P : A -> bool).

Definition count_if (P : A -> bool) (m : gmap K A) : Z := map_fold (fun _ a n => Z.b2z (P a) + n) 0 m.

Lemma count_if_empty P : count_if P (∅ : gmap K A) = 0.
Proof. apply map_fold_empty. Qed.

Lemma count_if_insert P m k a : m !! k = None -> count_if P (<[k := a]> m) = Z.b2z (P a) + count_if P m.
Proof.
  intros Hk. unfold count_if. rewrite map_fold_insert_L; [done| |done]. intros; lia.
Qed.

Lemma count_if_delete P m k a : m !! k = Some a -> count_if P (delete k m) = count_if P m - Z.b2z (P a).
Proof.
  intros Hk. rewrite <- (insert_delete_id m k a) at 2 by done.
  rewrite count_if_insert by apply lookup_delete_eq. lia.
Qed.

Lemma count_if_update P m k a b : m !! k = Some a ->
  count_if P (<[k := b]> m) = count_if P m - Z.b2z (P a) + Z.b2z (P b).
Proof.
  intros Hk. rewrite <- insert_delete_eq, count_if_insert by apply lookup_delete_eq.
  rewrite (count_if_delete P m k a Hk). lia.
Qed.

Lemma count_if_nonneg P m : 0 <= count_if P m.
Proof.
  induction m as [|k a m Hk IH] using map_ind; [by rewrite count_if_empty|].
  rewrite count_if_insert by done. destruct (P a); cbn; lia.
Qed.

Lemma count_if_pos P m k a : m !! k = Some a -> P a = true -> 0 < count_if P m.
Proof.
  intros Hk HP. pose proof (count_if_nonneg P (delete k m)) as Hn.
  rewrite (count_if_delete P m k a Hk), HP in Hn. cbn in Hn. lia.
Qed.

Lemma count_if_zero P m : count_if P m = 0 -> forall k a, m !! k = Some a -> P a = false.
Proof.
  intros H0 k a Hk. destruct (P a) eqn:E; [|done]. pose proof (count_if_pos P m k a Hk E). lia.
Qed.

Lemma count_if_ext P Q m : (forall k a, m !! k = Some a -> P a = Q a) -> count_if P m = count_if Q m.
Proof.
  induction m as [|k a m Hk IH] using map_ind; intros Hext; [by rewrite !count_if_empty|].
  rewrite !count_if_insert, (Hext k a) by (done || apply lookup_insert_eq). f_equal. apply IH.
  intros k' a' Hk'. apply (Hext k' a'). rewrite lookup_insert_ne; [done|]. intros ->. congruence.
Qed.

Lemma count_if_exists P m : 0 < count_if P m -> exists k a, m !! k = Some a /\ P a = true.
Proof.
  induction m as [|k a m Hk IH] using map_ind; [rewrite count_if_empty; lia|].
  rewrite count_if_insert by done. destruct (P a) eqn:E.
  - intros _. exists k, a. by rewrite lookup_insert_eq.
  - cbn. intros Hp. destruct (IH Hp) as (k' & a' & Hk' & Ha'). exists k', a'. split; [|done].
    rewrite lookup_insert_ne; [done|]. intros ->. congruence.
Qed.
End Count.

(** ** Doubly linked lists of open files *)
Section Dll.
Implicit Types (m : gmap ioctx_id ioctx) (l : list ioctx_id).

(** The nodes [l] are linked, from a node after [prv] to one before [nxt]. *)
Fixpoint dseg m (prv : option ioctx_id) l (nxt : option ioctx_id) : Prop :=
  match l with
  | [] => True
  | i :: l => exists x, m !! i = Some x /\ io_prev x = prv /\
      io_next x = match l with [] => nxt | j :: _ => Some j end /\ dseg m (Some i) l nxt
  end.

Definition head_or l (o : option ioctx_id) := match l with [] => o | j :: _ => Some j end.
Definition last_or l (o : option ioctx_id) := match last l with Some j => Some j | None => o end.

Lemma dseg_app m prv l1 l2 nxt :
  dseg m prv (l1 ++ l2) nxt <-> dseg m prv l1 (head_or l2 nxt) /\ dseg m (last_or l1 prv) l2 nxt.
Proof.
  revert prv. induction l1 as [|i l1 IH]; intros prv; cbn [app dseg]; [unfold last_or; cbn; tauto|].
  assert (E : last_or (i :: l1) prv = last_or l1 (Some i)).
  { unfold last_or. rewrite last_cons. by destruct (last l1). }
  rewrite E. split.
  - intros (x & Hx & Hp & Hn & Hs). apply IH in Hs as [Hs1 Hs2]. split; [|done]. exists x.
    split; [done|]. split; [done|]. split; [|done]. rewrite Hn. by destruct l1.
  - intros [(x & Hx & Hp & Hn & Hs1) Hs2]. exists x. split; [done|]. split; [done|].
    split; [rewrite Hn; by destruct l1|]. by apply IH.
Qed.

(** Only the links of the nodes matter. *)
Lemma dseg_ext m m' prv l nxt :
  (forall i x, i ∈ l -> m !! i = Some x ->
    exists x', m' !! i = Some x' /\ io_prev x' = io_prev x /\ io_next x' = io_next x) ->
  dseg m prv l nxt -> dseg m' prv l nxt.
Proof.
  revert prv. induction l as [|i l IH]; intros prv Hext; cbn; [done|]. intros (x & Hx & Hp & Hn & Hs).
  destruct (Hext i x) as (x' & Hx' & Hp' & Hn'); [by constructor|done|]. exists x'.
  split; [done|]. split; [by rewrite Hp'|]. split; [by rewrite Hn'|]. apply IH; [|done].
  intros j y Hj. apply Hext. by constructor.
Qed.

Lemma dseg_frame m prv l nxt i x : i ∉ l -> dseg m prv l nxt -> dseg (<[i := x]> m) prv l nxt.
Proof.
  intros Hi. apply dseg_ext. intros j y Hj Hy. exists y. split; [|done].
  rewrite lookup_insert_ne; [done|]. by intros ->.
Qed.

Lemma dseg_delete m prv l nxt i : i ∉ l -> dseg m prv l nxt -> dseg (delete i m) prv l nxt.
Proof.
  intros Hi. apply dseg_ext. intros j y Hj Hy. exists y. split; [|done].
  rewrite lookup_delete_ne; [done|]. by intros ->.
Qed.

Lemma dseg_lookup m prv l nxt i : dseg m prv l nxt -> i ∈ l -> is_Some (m !! i).
Proof.
  revert prv. induction l as [|j l IH]; intros prv; cbn; [by intros _ ?%elem_of_nil|].
  intros (x & Hx & _ & _ & Hs) [->|Hi]%elem_of_cons; [done|]. by eapply IH.
Qed.

(** The first node gets another predecessor, the last one another successor. *)
Lemma dseg_set_prev m prv prv' k l nxt x : k ∉ l -> m !! k = Some x -> dseg m prv (k :: l) nxt ->
  dseg (<[k := set_io_prev prv' x]> m) prv' (k :: l) nxt.
Proof.
  intros Hk Hx (y & Hy & _ & Hn & Hs). rewrite Hx in Hy. injection Hy as <-. cbn [dseg].
  exists (set_io_prev prv' x). rewrite lookup_insert_eq. split; [done|]. split; [done|]. split; [done|].
  by apply dseg_frame.
Qed.

Lemma dseg_set_next m prv l j nxt nxt' x : j ∉ l -> m !! j = Some x -> dseg m prv (l ++ [j]) nxt ->
  dseg (<[j := set_io_next nxt' x]> m) prv (l ++ [j]) nxt'.
Proof.
  intros Hj Hx Hs. apply dseg_app in Hs as [Hs1 (y & Hy & Hp & _)]. rewrite Hx in Hy. injection Hy as <-.
  apply dseg_app. split; [by apply dseg_frame|]. exists (set_io_next nxt' x). by rewrite lookup_insert_eq.
Qed.
End Dll.

(** ** The invariant *)

(** The bytes of strings are not negative. *)
Definition bytes_ok (l : list Z) : Prop := Forall (fun c => 0 <= c) l.
Definition good_key (s : cstr) : Prop := Forall (fun c => 0 < c) s.

Lemma c_string_good l : bytes_ok l -> good_key (c_string l).
Proof.
  induction 1 as [|c l Hc _ IH]; cbn; [constructor|]. destruct (Z.eqb_spec c 0); [constructor|].
  constructor; [lia|done].
Qed.

(** How often an element occurs. *)
Fixpoint occ `{EqDecision A} (x : A) (l : list A) : Z :=
  match l with
  | [] => 0
  | y :: l => Z.b2z (bool_decide (y = x)) + occ x l
  end.

Lemma occ_nonneg `{EqDecision A} (x : A) l : 0 <= occ x l.
Proof. induction l as [|y l IH]; cbn; [done|]. destruct (bool_decide _); cbn; lia. Qed.

(** What is taken and given back: file descriptors and references to users. *)
Inductive key := K_fd (fd : Z) | K_user (u : user_id).

#[global] Instance key_eq_dec : EqDecision key.
Proof. solve_decision. Defined.

Section Inv.
Context `{Os}.

Definition delta (k : key) (e : event) : Z :=
  match k, e with
  | K_fd fd, E_sys (S_open _ _ _) r => Z.b2z ((r_ret r =? fd) && (0 <=? r_ret r))
  | K_fd fd, E_sys (S_opendir _) r => Z.b2z ((r_ret r =? fd) && (0 <=? r_ret r))
  | K_fd fd, E_sys (S_close n) _ => - Z.b2z (n =? fd)
  | K_fd fd, E_sys (S_closedir n) _ => - Z.b2z (n =? fd)
  | K_user u, E_user_incref v => Z.b2z (bool_decide (v = u))
  | K_user u, E_user_decref v => - Z.b2z (bool_decide (v = u))
  | _, _ => 0
  end.

Definition balance (k : key) (tr : list event) : Z := foldl (fun n e => n + delta k e) 0 tr.

Lemma balance_snoc k tr e : balance k (tr ++ [e]) = balance k tr + delta k e.
Proof. unfold balance. by rewrite foldl_snoc. Qed.

Definition weight (k : key) (x : ioctx) : bool :=
  match k with
  | K_fd fd => io_fd x =? fd
  | K_user u => bool_decide (io_user x = u)
  end.

Definition on_path (p : path_id) (a : Fid) : bool := bool_decide (fd_path a = p).
Definition on_ioctx (i : ioctx_id) (a : Fid) : bool := bool_decide (fd_ioctx a = Some i).

Implicit Types (L : path_id -> list ioctx_id) (held : list path_id) (pend : list key) (F G : gmap fid_id Fid).

(** [L p] are the open files of the path [p], [held] the references to paths and
    [pend] the descriptors and users that a running function has, [F] the fids as
    they will be when it is done. *)
Record inv L held pend F (s : dstate) : Prop := {
  inv_list : forall p x, d_paths s !! p = Some x -> pa_ioctx x = head (L p) /\ dseg (d_ioctxs s) None (L p) None;
  inv_nil : forall p, d_paths s !! p = None -> L p = [];
  inv_once : forall p q i, i ∈ L p -> i ∈ L q -> p = q;
  inv_nodup : forall p, NoDup (L p);
  inv_ioctx : forall i x, d_ioctxs s !! i = Some x ->
    (exists p, i ∈ L p) /\ io_refcount x = count_if (on_ioctx i) F /\ 0 < io_refcount x /\ 0 <= io_fd x;
  inv_path : forall p x, d_paths s !! p = Some x ->
    pa_refcount x = count_if (on_path p) F + occ p held /\ 0 < pa_refcount x;
  inv_fid : forall f a, F !! f = Some a -> is_Some (d_paths s !! fd_path a) /\
    forall i, fd_ioctx a = Some i -> i ∈ L (fd_path a);
  inv_held : Forall (fun p => is_Some (d_paths s !! p)) held;
  inv_hash : hash_ok hash_key_string good_key (d_hash s);
  inv_find : forall k p, to_map (d_hash s) !! k = Some p <->
    exists x, d_paths s !! p = Some x /\ c_string (pa_s x) = k;
  inv_str : forall p x, d_paths s !! p = Some x -> zlength (pa_s x) = pa_len x + 1 /\ bytes_ok (pa_s x) /\ 0 <= pa_len x;
  inv_fresh : (forall p, is_Some (d_paths s !! p) -> (p < d_fresh s)%positive) /\
    (forall i, is_Some (d_ioctxs s !! i) -> (i < d_fresh s)%positive);
  inv_balance : forall k, balance k (d_trace s) = count_if (weight k) (d_ioctxs s) + occ k pend;
}.

(** The parts of the state that the invariant speaks of are the same. *)
Definition quietly (s s' : dstate) : Prop :=
  d_paths s' = d_paths s /\ d_ioctxs s' = d_ioctxs s /\ d_hash s' = d_hash s /\ d_fids s' = d_fids s /\
  d_fresh s' = d_fresh s /\ forall k, balance k (d_trace s') = balance k (d_trace s).

Lemma inv_quietly L held pend F s s' : inv L held pend F s -> quietly s s' -> inv L held pend F s'.
Proof.
  intros [] (Ep & Ei & Eh & _ & Ef & Et). split; rewrite ?Ep, ?Ei, ?Eh, ?Ef; try done.
  intros k. by rewrite Et.
Qed.

Lemma inv_fids L held pend F s G : inv L held pend F s -> inv L held pend F (set_dfids G s).
Proof. intros []. by split. Qed.

(** The fids of [F] and the fids of the state. *)
Definition at_ L held pend F G (s : dstate) : Prop := inv L held pend F s /\ d_fids s = G.

Lemma at_quietly L held pend F G s s' : at_ L held pend F G s -> quietly s s' -> at_ L held pend F G s'.
Proof. intros [Hi Hg] Hq. split; [by eapply inv_quietly|]. destruct Hq as (_ & _ & _ & -> & _). done. Qed.

(** ** Rules for programs *)

Definition druns {A} (c : DM A) (s : dstate) (Q : A -> dstate -> Prop) : Prop :=
  exists a s', c s = Ret (a, s') /\ Q a s'.

Lemma druns_ret {A} (a : A) s (Q : A -> dstate -> Prop) : Q a s -> druns (dret a) s Q.
Proof. intros HQ. by exists a, s. Qed.

Lemma druns_bind {A B} (c : DM A) (f : A -> DM B) s Q :
  druns c s (fun a s' => druns (f a) s' Q) -> druns (dbind c f) s Q.
Proof.
  intros (a & s1 & E1 & b & s2 & E2 & HQ). exists b, s2. split; [|done]. unfold dbind. rewrite E1. exact E2.
Qed.

Lemma druns_mono {A} (c : DM A) s (Q R : A -> dstate -> Prop) :
  druns c s Q -> (forall a s', Q a s' -> R a s') -> druns c s R.
Proof. intros (a & s' & E & HQ) HR. exists a, s'. auto. Qed.

Lemma druns_get {A} (f : dstate -> A) s (Q : A -> dstate -> Prop) : Q (f s) s -> druns (get f) s Q.
Proof. intros HQ. by exists (f s), s. Qed.

Lemma druns_modify f s (Q : unit -> dstate -> Prop) : Q tt (f s) -> druns (modify f) s Q.
Proof. intros HQ. by exists tt, (f s). Qed.

Lemma druns_lift {A} (c : res A) a s (Q : A -> dstate -> Prop) : c = Ret a -> Q a s -> druns (lift c) s Q.
Proof. intros -> HQ. by exists a, s. Qed.

(** *** Quiet steps *)

Definition quiet_call (c : syscall) : bool :=
  match c with
  | S_open _ _ _ | S_opendir _ | S_close _ | S_closedir _ => false
  | _ => true
  end.

Lemma call_after c s : exists r s', call c s = Ret (r, s') /\ r = (sys (d_os s) c).1 /\
  (d_paths s' = d_paths s /\ d_ioctxs s' = d_ioctxs s /\ d_hash s' = d_hash s /\ d_fids s' = d_fids s /\
   d_fresh s' = d_fresh s) /\ d_trace s' = d_trace s ++ [E_sys c r] /\ d_err s' = d_err s /\
  d_errno s' = (match failed c r with Some e => e | None => d_errno s end) /\ d_os s' = (sys (d_os s) c).2.
Proof.
  unfold call. destruct (sys (d_os s) c) as [r o] eqn:E. eexists _, _. split; [done|].
  by destruct (failed c r).
Qed.

Lemma druns_call c s (Q : sysres -> dstate -> Prop) : quiet_call c = true ->
  (forall s' (r := (sys (d_os s) c).1), quietly s s' -> d_err s' = d_err s ->
    d_errno s' = match failed c r with Some e => e | None => d_errno s end -> d_os s' = (sys (d_os s) c).2 -> Q r s') ->
  druns (call c) s Q.
Proof.
  intros Hc HQ. destruct (call_after c s) as (r & s' & E & -> & (Hp & Hi & Hh & Hf & Hx) & Ht & He & Hn & Ho).
  eexists _, s'. split; [done|]. apply HQ; [|done|done|done]. repeat (split; [done|]). intros k. rewrite Ht, balance_snoc.
  enough (delta k (E_sys c (sys (d_os s) c).1) = 0) by lia. by destruct k, c.
Qed.

Lemma quietly_refl s : quietly s s.
Proof. done. Qed.

Lemma quietly_trans s1 s2 s3 : quietly s1 s2 -> quietly s2 s3 -> quietly s1 s3.
Proof.
  intros (E1 & E2 & E3 & E4 & E5 & E6) (F1 & F2 & F3 & F4 & F5 & F6).
  repeat (split; [congruence|]). intros k. by rewrite F6.
Qed.

Lemma druns_uerror e s (Q : unit -> dstate -> Prop) :
  (forall s', quietly s s' -> d_err s' = e -> d_errno s' = d_errno s -> Q tt s') -> druns (uerror e) s Q.
Proof. intros HQ. apply druns_modify. by apply HQ. Qed.

Lemma druns_uerror_errno s (Q : unit -> dstate -> Prop) :
  (forall s', quietly s s' -> d_err s' = d_errno s -> d_errno s' = d_errno s -> Q tt s') -> druns uerror_errno s Q.
Proof. intros HQ. apply druns_bind, druns_get, druns_modify. by apply HQ. Qed.

Lemma druns_errno e s (Q : unit -> dstate -> Prop) :
  (forall s', quietly s s' -> d_err s' = d_err s -> d_errno s' = e -> Q tt s') -> druns (modify (set_errno e)) s Q.
Proof. intros HQ. apply druns_modify. by apply HQ. Qed.

(** An allocation of less than 4 GB fails at some time. *)
Definition no_memory : Prop := exists o n, n < 2 ^ 32 /\ r_ret (sys o (S_malloc n)).1 = 0.

Lemma druns_malloced n s (Q : bool -> dstate -> Prop) :
  (forall b s', quietly s s' -> d_err s' = d_err s -> (b = false -> d_errno s' = ENOMEM) ->
     (b = false -> n < 2 ^ 32 -> no_memory) -> Q b s') ->
  druns (malloced n) s Q.
Proof.
  intros HQ. apply druns_bind, druns_call; [done|]. intros s' r Hq He Hn _. apply druns_ret, HQ; [done..| |].
  - cbn in Hn. by destruct (r_ret r =? 0).
  - intros E Hn32. exists (d_os s), n. fold r. destruct (Z.eqb_spec (r_ret r) 0); done.
Qed.

(** *** Loads *)

Lemma druns_load_path p x s (Q : path -> dstate -> Prop) : d_paths s !! p = Some x -> Q x s ->
  druns (load_path p) s Q.
Proof. intros Hp HQ. apply druns_bind, druns_get. eapply druns_lift; [by rewrite Hp|done]. Qed.

Lemma druns_load_ioctx i x s (Q : ioctx -> dstate -> Prop) : d_ioctxs s !! i = Some x -> Q x s ->
  druns (load_ioctx i) s Q.
Proof. intros Hp HQ. apply druns_bind, druns_get. eapply druns_lift; [by rewrite Hp|done]. Qed.

Lemma druns_load_aux f a s (Q : Fid -> dstate -> Prop) : d_fids s !! f = Some a -> Q a s ->
  druns (load_aux f) s Q.
Proof. intros Hp HQ. apply druns_bind, druns_get. eapply druns_lift; [by rewrite Hp|done]. Qed.

Lemma druns_path_s p x s (Q : cstr -> dstate -> Prop) : d_paths s !! p = Some x -> Q (c_string (pa_s x)) s ->
  druns (path_s p) s Q.
Proof. intros Hp HQ. apply druns_bind. eapply druns_load_path; [done|]. by apply druns_ret. Qed.
End Inv.

(** ** Paths *)
Section Paths.
Context `{Os}.
Implicit Types (L : path_id -> list ioctx_id) (held : list path_id) (pend : list key) (F G : gmap fid_id Fid).

Lemma strcmp_good a b : good_key a -> good_key b -> strcmp a b = 0 <-> a = b.
Proof. apply strcmp_eq. Qed.

(** A path with another reference count. *)
Lemma inv_set_refcount L held held' pend F s p x n : inv L held pend F s -> d_paths s !! p = Some x ->
  n = count_if (on_path p) F + occ p held' -> 0 < n ->
  (forall q, q <> p -> occ q held' = occ q held) -> Forall (fun q => q = p \/ q ∈ held) held' ->
  inv L held' pend F (set_paths (<[p := set_pa_refcount n x]> (d_paths s)) s).
Proof.
  intros Hinv Hp Hn Hpos Hocc Hheld. assert (Hsome : forall q, is_Some (<[p := set_pa_refcount n x]> (d_paths s) !! q) <->
    is_Some (d_paths s !! q)).
  { intros q. destruct (decide (q = p)) as [->|Hne]; [rewrite lookup_insert_eq, Hp; done|by rewrite lookup_insert_ne]. }
  destruct Hinv. split; cbn; try done.
  - intros q y. destruct (decide (q = p)) as [->|Hne]; [|rewrite lookup_insert_ne by done; apply inv_list0].
    rewrite lookup_insert_eq. intros [= <-]. cbn. by apply inv_list0.
  - intros q Hq. apply inv_nil0. destruct (decide (q = p)) as [->|Hne].
    + by rewrite lookup_insert_eq in Hq.
    + by rewrite lookup_insert_ne in Hq.
  - intros q y. destruct (decide (q = p)) as [->|Hne]; [rewrite lookup_insert_eq; intros [= <-]; exact (conj Hn Hpos)|].
    rewrite lookup_insert_ne, Hocc by done. apply inv_path0.
  - intros f a Hf. rewrite Hsome. by apply (inv_fid0 f).
  - eapply Forall_impl; [exact Hheld|]. intros q Hq. rewrite Hsome. destruct Hq as [->|Hq]; [done|].
    by apply (proj1 (Forall_forall _ _) inv_held0).
  - intros k q. rewrite inv_find0. destruct (decide (q = p)) as [->|Hne].
    + rewrite lookup_insert_eq, Hp. split; intros (y & [= <-] & Hy); by eexists.
    + by rewrite lookup_insert_ne.
  - intros q y. destruct (decide (q = p)) as [->|Hne]; [|rewrite lookup_insert_ne by done; apply inv_str0].
    rewrite lookup_insert_eq. intros [= <-]. cbn. by apply (inv_str0 p).
  - split; [|apply (proj2 inv_fresh0)]. intros q Hq. apply Hsome in Hq. by apply (proj1 inv_fresh0).
Qed.

Lemma path_incref_rule L held pend F G s p x (Q : path_id -> dstate -> Prop) :
  at_ L held pend F G s -> d_paths s !! p = Some x ->
  (forall s', at_ L (p :: held) pend F G s' -> d_err s' = d_err s -> d_ioctxs s' = d_ioctxs s ->
    (forall q y, d_paths s !! q = Some y -> exists y', d_paths s' !! q = Some y' /\ pa_s y' = pa_s y /\ pa_len y' = pa_len y) ->
    Q p s') ->
  druns (path_incref p) s Q.
Proof.
  intros [Hinv Hg] Hp HQ. apply druns_bind, druns_bind. eapply druns_load_path; [exact Hp|].
  apply druns_modify, druns_ret, HQ; [|done|done|].
  - split; [|done]. destruct (inv_path _ _ _ _ _ Hinv p x Hp) as [Hr Hpos].
    apply (inv_set_refcount L held (p :: held)); try done.
    + cbn. rewrite bool_decide_true by done. cbn. lia.
    + lia.
    + intros q Hne. cbn. rewrite bool_decide_false by done. done.
    + constructor; [by left|]. apply Forall_forall. by right.
  - cbn. intros q y Hq. destruct (decide (q = p)) as [->|Hne].
    + rewrite lookup_insert_eq. rewrite Hp in Hq. injection Hq as <-. by eexists.
    + rewrite lookup_insert_ne by done. by exists y.
Qed.

(** What the pool finds. *)
Lemma pool_find_rule L held pend F G s k (Q : option path_id -> dstate -> Prop) :
  at_ L held pend F G s -> good_key k ->
  (forall o s', at_ L held pend F G s' -> quietly s s' -> d_err s' = d_err s -> d_errno s' = 0 ->
    match o with
    | Some p => exists x, d_paths s !! p = Some x /\ c_string (pa_s x) = k
    | None => forall p x, d_paths s !! p = Some x -> c_string (pa_s x) <> k
    end -> Q o s') ->
  druns (pool_find k) s Q.
Proof.
  intros [Hinv Hg] Hk HQ. apply druns_bind, druns_errno. intros s1 Hq He Hn. apply druns_bind, druns_get.
  pose proof Hq as (Ep & _ & Eh & _). rewrite Eh. eapply druns_lift.
  { apply (hash_find_spec hash_key_string strcmp good_key strcmp_good); [done|apply (inv_hash _ _ _ _ _ Hinv)]. }
  apply HQ; [by apply (at_quietly _ _ _ _ _ s)|done..|].
  destruct (to_map (d_hash s) !! k) as [p|] eqn:Ek; [by apply (inv_find _ _ _ _ _ Hinv)|].
  intros p x Hp Hs. assert (Hf : to_map (d_hash s) !! k = Some p) by (apply (inv_find _ _ _ _ _ Hinv); by exists x).
  congruence.
Qed.

(** The strings of paths that exist do not change. *)
Definition grows (s s' : dstate) : Prop := forall q y, d_paths s !! q = Some y ->
  exists y', d_paths s' !! q = Some y' /\ pa_s y' = pa_s y /\ pa_len y' = pa_len y.

Lemma grows_refl s s' : d_paths s' = d_paths s -> grows s s'.
Proof. intros E q y Hq. exists y. by rewrite E. Qed.

Lemma grows_trans s1 s2 s3 : grows s1 s2 -> grows s2 s3 -> grows s1 s3.
Proof.
  intros H1 H2 q y Hq. destruct (H1 q y Hq) as (y1 & Hy1 & E1 & E1'). destruct (H2 q y1 Hy1) as (y2 & Hy2 & E2 & E2').
  exists y2. split; [done|]. by rewrite E2, E2'.
Qed.

Lemma grows_quietly s s' : quietly s s' -> grows s s'.
Proof. intros (E & _). by apply grows_refl. Qed.

Lemma inv_next_id L held pend F s : inv L held pend F s -> inv L held pend F (set_next_id (Pos.succ (d_fresh s)) s).
Proof.
  intros []. split; cbn; try done. destruct inv_fresh0 as [H1 H2].
  split; [intros p Hp; specialize (H1 p Hp)|intros i Hi; specialize (H2 i Hi)]; lia.
Qed.

(** A new path that the pool finds. *)
Lemma inv_add_path L held pend F s p s0 len h n : inv L held pend F s -> d_paths s !! p = None ->
  (p < d_fresh s)%positive -> zlength s0 = len + 1 -> bytes_ok s0 -> 0 <= len ->
  (forall q y, d_paths s !! q = Some y -> c_string (pa_s y) <> c_string s0) ->
  hash_ok hash_key_string good_key h -> to_map h = <[c_string s0 := p]> (to_map (d_hash s)) ->
  let x := {| pa_refcount := 1; pa_s := s0; pa_len := len; pa_ioctx := None |} in
  inv L (p :: held) pend F (set_hash h n (set_paths (<[p := x]> (d_paths s)) s)).
Proof.
  intros Hinv Hp Hfr Hlen Hb Hl Hnew Hok Hm x. pose proof (inv_nil _ _ _ _ _ Hinv p Hp) as HL.
  assert (Hsome : forall q, is_Some (d_paths s !! q) -> is_Some (<[p := x]> (d_paths s) !! q)).
  { intros q Hq. apply lookup_insert_is_Some. destruct (decide (p = q)); [by left|by right]. }
  assert (Hcount : count_if (on_path p) F = 0).
  { rewrite (count_if_ext _ (fun _ => false)).
    - clear. induction F as [|k a m Hk IH] using map_ind; [apply count_if_empty|]. by rewrite count_if_insert, IH.
    - intros f a Hf. apply bool_decide_false. intros <-. destruct (inv_fid _ _ _ _ _ Hinv f a Hf) as [[y Hy] _].
      congruence. }
  assert (Hocc : occ p held = 0).
  { pose proof (inv_held _ _ _ _ _ Hinv) as Hh. clear -Hh Hp. induction Hh as [|q held [y Hy] _ IH]; cbn; [done|].
    rewrite bool_decide_false, IH by congruence. done. }
  destruct Hinv. split; cbn [d_paths d_ioctxs d_hash d_fids d_fresh d_trace set_hash set_paths]; try done.
  - intros q y. destruct (decide (q = p)) as [->|Hne]; [|rewrite lookup_insert_ne by done; apply inv_list0].
    rewrite lookup_insert_eq, HL. by intros [= <-].
  - intros q Hq. destruct (decide (q = p)) as [->|Hne]; [done|]. apply inv_nil0. by rewrite lookup_insert_ne in Hq.
  - intros q y. destruct (decide (q = p)) as [->|Hne].
    + rewrite lookup_insert_eq. intros [= <-]. cbn. rewrite bool_decide_true, Hcount, Hocc by done. done.
    + rewrite lookup_insert_ne by done. cbn. rewrite bool_decide_false by done. apply inv_path0.
  - intros f a Hf. destruct (inv_fid0 f a Hf). split; [by apply Hsome|done].
  - constructor; [by rewrite lookup_insert_eq|]. eapply Forall_impl; [exact inv_held0|]. done.
  - intros k q. rewrite Hm. destruct (decide (q = p)) as [->|Hne].
    + rewrite lookup_insert_eq. split.
      * intros Hk. exists x. split; [done|]. destruct (decide (k = c_string s0)) as [->|Hk']; [done|].
        rewrite lookup_insert_ne in Hk by done. apply inv_find0 in Hk as (y & Hy & _). congruence.
      * intros (y & [= <-] & <-). apply lookup_insert_eq.
    + rewrite (lookup_insert_ne (d_paths s)) by done. destruct (decide (k = c_string s0)) as [->|Hk].
      * rewrite lookup_insert_eq. split; [congruence|]. intros (y & Hy & E). by destruct (Hnew q y).
      * rewrite lookup_insert_ne by done. apply inv_find0.
  - intros q y. destruct (decide (q = p)) as [->|Hne]; [|rewrite lookup_insert_ne by done; apply inv_str0].
    rewrite lookup_insert_eq. by intros [= <-].
  - split; [|apply (proj2 inv_fresh0)]. intros q. destruct (decide (q = p)) as [->|Hne]; [done|].
    rewrite lookup_insert_ne by done. apply (proj1 inv_fresh0).
Qed.

(** What [path_create] and [path_append] do: [None], or one more reference to the
    path of the string. *)
Definition path_post L held pend F G (s : dstate) (key : cstr) (o : option path_id) (s' : dstate) : Prop :=
  d_err s' = d_err s /\ d_ioctxs s' = d_ioctxs s /\ grows s s' /\
  match o with
  | None => at_ L held pend F G s' /\ no_memory
  | Some p => at_ L (p :: held) pend F G s' /\ exists x, d_paths s' !! p = Some x /\ c_string (pa_s x) = key
  end.

Lemma path_post_quietly L held pend F G s s1 key o s' : quietly s s1 -> d_err s1 = d_err s ->
  path_post L held pend F G s1 key o s' -> path_post L held pend F G s key o s'.
Proof.
  intros Hq He (H1 & H2 & H3 & H4). split; [congruence|]. destruct Hq as (Ep & Ei & _). split; [congruence|].
  split; [|done]. eapply grows_trans; [|exact H3]. by apply grows_refl.
Qed.

Lemma pool_insert_rule L held pend F s p s0 len G (x := {| pa_refcount := 1; pa_s := s0; pa_len := len; pa_ioctx := None |})
  (Q : bool -> dstate -> Prop) :
  at_ L held pend F G s -> d_paths s !! p = None -> (p < d_fresh s)%positive ->
  zlength s0 = len + 1 -> bytes_ok s0 -> 0 <= len ->
  (forall q y, d_paths s !! q = Some y -> c_string (pa_s y) <> c_string s0) ->
  (forall s', at_ L (p :: held) pend F G s' -> d_err s' = d_err s -> d_ioctxs s' = d_ioctxs s ->
     d_paths s' = <[p := x]> (d_paths s) -> Q true s') ->
  (forall s', at_ L held pend F G (set_paths (d_paths s) s') -> d_err s' = d_err s -> d_ioctxs s' = d_ioctxs s ->
     d_paths s' = <[p := x]> (d_paths s) -> d_errno s' = ENOMEM -> no_memory -> Q false s') ->
  druns (pool_insert (c_string s0) p) (set_paths (<[p := x]> (d_paths s)) s) Q.
Proof.
  intros [Hinv Hg] Hp Hfr Hlen Hb Hl Hnew Ht Hf. apply druns_bind, druns_get, druns_bind.
  set (s1 := set_paths (<[p := x]> (d_paths s)) s). change (d_free s1) with (d_free s).
  assert (Hmem : druns (match d_free s with O => malloced 24576 | _ => dret true end) s1
    (fun b s2 => quietly s1 s2 /\ d_err s2 = d_err s /\ (b = false -> no_memory))).
  { destruct (d_free s); [|by apply druns_ret]. apply druns_malloced. intros b s2 Hq He _ Hm. split; [done|]. split; [done|]. by intros ->; apply Hm. }
  eapply druns_mono; [exact Hmem|]. intros mem s2 (Hq & He & Hno). cbn beta. apply druns_bind, druns_get.
  pose proof Hq as (Ep & Ei & Eh & Ef & Ex & Et). rewrite Eh. change (d_hash s1) with (d_hash s).
  pose proof (hash_insert_spec hash_key_string strcmp good_key strcmp_good mem (d_hash s) (c_string s0) p (d_free s)
    (c_string_good s0 Hb) (inv_hash _ _ _ _ _ Hinv)) as Hi.
  destruct (to_map (d_hash s) !! c_string s0) as [q|] eqn:Ek.
  { apply (inv_find _ _ _ _ _ Hinv) in Ek as (y & Hy & E). by destruct (Hnew q y). }
  apply druns_bind. destruct (hash_node_alloc mem (d_free s)) as [n|] eqn:En.
  - destruct Hi as (h' & Hi & Hok & Hm). eapply druns_lift; [exact Hi|]. apply druns_bind, druns_modify.
    apply druns_ret, Ht; [|exact He|exact Ei|exact Ep].
    split; [|cbn; rewrite Ef; exact Hg].
    pose proof (inv_add_path L held pend F s p s0 len h' n Hinv Hp Hfr Hlen Hb Hl Hnew Hok Hm) as Hinv'. cbv zeta in Hinv'.
    eapply inv_quietly; [exact Hinv'|]. repeat split; cbn; try done.
  - eapply druns_lift; [exact Hi|]. apply druns_bind, druns_modify, druns_bind, druns_modify, druns_ret, Hf;
      [|exact He|exact Ei|exact Ep|done|apply Hno; unfold hash_node_alloc in En; by destruct (d_free s), mem].
    split; [|cbn; rewrite Ef; exact Hg]. eapply inv_quietly; [exact Hinv|]. repeat split; cbn; try done.
Qed.

Lemma path_alloc_rule L held pend F G s s0 len : at_ L held pend F G s ->
  zlength s0 = len + 1 -> bytes_ok s0 -> 0 <= len ->
  druns (path_alloc s0 len) s (path_post L held pend F G s (c_string s0)).
Proof.
  intros Hat Hlen Hb Hl. apply druns_bind. apply (pool_find_rule L held pend F G); [done|by apply c_string_good|].
  intros o s1 Hat1 Hq He Hn Ho. pose proof Hq as (Ep & Ei & _ & _ & Ex & _).
  destruct o as [p|].
  - destruct Ho as (x & Hx & Es). rewrite <- Ep in Hx. apply druns_bind.
    apply (path_incref_rule L held pend F G s1 p x); [done|done|]. intros s2 Hat2 He2 Ei2 Hgr. apply druns_ret.
    split; [congruence|]. split; [congruence|]. split; [eapply grows_trans; [apply grows_refl, Ep|exact Hgr]|].
    split; [done|]. destruct (Hgr p x Hx) as (x' & Hx' & E' & _). exists x'. split; [done|]. by rewrite E'.
  - apply druns_bind, druns_get, druns_bind. rewrite Hn. eapply druns_lift; [done|]. apply druns_bind, druns_malloced.
    intros b s2 Hq2 He2 _ Hno2. pose proof Hq2 as (Ep2 & Ei2 & _ & _ & Ex2 & _).
    pose proof (at_quietly _ _ _ _ _ _ _ Hat1 Hq2) as Hat2. destruct b; cbn [negb].
    + apply druns_bind, druns_bind, druns_get, druns_bind, druns_modify, druns_ret, druns_bind, druns_modify, druns_bind.
      set (p := d_fresh s2). set (s3 := set_next_id (Pos.succ p) s2).
      assert (Hat3 : at_ L held pend F G s3) by (destruct Hat2; split; [by apply inv_next_id|done]).
      assert (Hp : d_paths s3 !! p = None).
      { destruct (d_paths s3 !! p) as [y|] eqn:Hy; [|done]. destruct (inv_fresh _ _ _ _ _ (proj1 Hat2)) as [Hf _].
        specialize (Hf p (mk_is_Some _ _ Hy)). unfold p in Hf. lia. }
      assert (E3 : d_paths s3 = d_paths s) by (cbn; congruence).
      assert (I3 : d_ioctxs s3 = d_ioctxs s) by (cbn; congruence).
      assert (N3 : d_err s3 = d_err s) by (cbn; congruence).
      apply (pool_insert_rule L held pend F s3 p s0 len G); try done; [cbn; lia| | |].
      * intros q y. rewrite E3. apply Ho.
      * intros s4 Hat4 He4 Ei4 Ep4. apply druns_ret. split; [congruence|]. split; [congruence|]. split.
        -- intros q y Hq'. exists y. rewrite Ep4, lookup_insert_ne; [by rewrite E3|]. intros <-. congruence.
        -- split; [done|]. eexists. rewrite Ep4, lookup_insert_eq. done.
      * intros s4 Hat4 He4 Ei4 Ep4 Hn4 Hno4. apply druns_bind, druns_get, druns_bind. rewrite Hn4.
        eapply druns_lift; [done|]. apply druns_bind, druns_modify, druns_ret.
        assert (Ed : delete p (d_paths s4) = d_paths s3) by (rewrite Ep4; by apply delete_insert_id).
        split; [cbn; congruence|]. split; [cbn; congruence|]. split; [apply grows_refl; cbn; congruence|].
        cbn beta iota. rewrite Ed. exact (conj Hat4 Hno4).
    + apply druns_ret. split; [congruence|]. split; [congruence|]. split; [apply grows_refl; congruence|]. split; [done|by apply Hno2].
Qed.

Lemma path_create_rule L held pend F G s ns : at_ L held pend F G s -> bytes_ok ns -> zlength ns < 2 ^ 31 ->
  druns (path_create ns) s (path_post L held pend F G s (c_string ns)).
Proof.
  intros Hat Hb Hz. apply druns_bind, druns_malloced. intros b s1 Hq He _ Hno.
  pose proof (at_quietly _ _ _ _ _ _ _ Hat Hq) as Hat1. destruct b; cbn [negb].
  - assert (E : c_string (ns ++ [0]) = c_string ns).
    { clear. induction ns as [|c ns IH]; cbn; [done|]. by rewrite IH. }
    rewrite <- E. eapply druns_mono; [apply (path_alloc_rule L held pend F G); [done| | |]|].
    + rewrite zlength_app. done.
    + apply Forall_app. split; [done|]. by repeat constructor.
    + apply zlength_nonneg.
    + intros o s2. by apply path_post_quietly.
  - apply druns_ret. split; [done|]. pose proof Hq as (Ep & Ei & _). split; [done|]. split; [by apply grows_refl|].
    split; [done|]. apply Hno; [done|]. lia.
Qed.

(** The string of the new path; names that do not fit an [int] are refused by
    [malloc]. *)
Lemma path_append_rule L held pend F G s p x ns : at_ L held pend F G s -> d_paths s !! p = Some x -> bytes_ok ns ->
  pa_len x + 1 + zlength ns < 2 ^ 31 - 1 ->
  druns (path_append p ns) s
    (path_post L held pend F G s (c_string (take (Z.to_nat (pa_len x)) (pa_s x) ++ [47] ++ ns))).
Proof.
  intros Hat Hp Hb Hfit. apply druns_bind. eapply druns_load_path; [exact Hp|]. cbv zeta.
  destruct (inv_str _ _ _ _ _ (proj1 Hat) p x Hp) as (Hl & Hbx & Hl0). pose proof (zlength_nonneg ns).
  rewrite (int32_small (pa_len x + 1 + zlength ns)) by lia.
  apply druns_bind, druns_malloced. intros b s1 Hq He _ Hno. pose proof (at_quietly _ _ _ _ _ _ _ Hat Hq) as Hat1.
  destruct b; cbn [negb].
  - apply druns_bind. eapply druns_lift; [apply load_bytes_ok; lia|]. change (Z.to_nat 0) with 0%nat. rewrite drop_0.
    set (s0 := take _ _ ++ [47] ++ ns ++ [0]).
    assert (Hz : zlength s0 = pa_len x + 1 + zlength ns + 1).
    { unfold s0, zlength in *. rewrite !length_app, length_take. cbn. lia. }
    apply druns_bind. eapply druns_lift; [by rewrite Hz, Z.eqb_refl|].
    assert (E : c_string s0 = c_string (take (Z.to_nat (pa_len x)) (pa_s x) ++ [47] ++ ns)).
    { assert (G0 : forall l, c_string (l ++ [0]) = c_string l) by (induction l as [|c l IH]; cbn; [done|by rewrite IH]).
      rewrite <- (G0 (_ ++ [47] ++ ns)). unfold s0. by rewrite <- !app_assoc. }
    rewrite <- E. eapply druns_mono; [apply (path_alloc_rule L held pend F G); [done| | |]|].
    + lia.
    + unfold s0. apply Forall_app. split; [apply Forall_take; exact Hbx|]. constructor; [done|].
      apply Forall_app. split; [done|]. by repeat constructor.
    + lia.
    + intros o s2. by apply path_post_quietly.
  - apply druns_ret. split; [done|]. pose proof Hq as (Ep & Ei & _). split; [done|]. split; [by apply grows_refl|].
    split; [done|]. apply Hno; [done|]. rewrite u64_small; lia.
Qed.

Lemma occ_pos `{EqDecision A} (x : A) l : 0 < occ x l <-> x ∈ l.
Proof.
  induction l as [|y l IH]; cbn; [split; [lia|by intros ?%elem_of_nil]|]. rewrite elem_of_cons, <- IH.
  pose proof (occ_nonneg x l). destruct (decide (y = x)) as [->|Hne].
  - rewrite bool_decide_true by done. cbn. split; [by left|lia].
  - rewrite bool_decide_false by done. cbn. split; [by right|]. intros [->|]; done.
Qed.

(** A path without references has no open files. *)
Lemma inv_unused L held pend F s p : inv L held pend F s -> count_if (on_path p) F = 0 -> L p = [].
Proof.
  intros Hinv Hz. destruct (d_paths s !! p) as [x|] eqn:Hp; [|by apply (inv_nil _ _ _ _ _ Hinv)].
  destruct (L p) as [|i l] eqn:EL; [done|]. exfalso.
  destruct (inv_list _ _ _ _ _ Hinv p x Hp) as [_ Hd]. rewrite EL in Hd. destruct Hd as (y & Hy & _).
  destruct (inv_ioctx _ _ _ _ _ Hinv i y Hy) as (_ & Hr & Hpos & _). rewrite Hr in Hpos.
  apply count_if_exists in Hpos as (f & a & Hf & Ha). apply bool_decide_eq_true in Ha.
  destruct (inv_fid _ _ _ _ _ Hinv f a Hf) as [_ Hi]. specialize (Hi i Ha).
  assert (E : fd_path a = p) by (apply (inv_once _ _ _ _ _ Hinv _ _ i); [done|rewrite EL; constructor]).
  pose proof (count_if_zero _ _ Hz f a Hf) as Hc. unfold on_path in Hc. by rewrite bool_decide_true in Hc.
Qed.

Lemma inv_del_path L held pend F s p x h n : inv L (p :: held) pend F s -> d_paths s !! p = Some x ->
  count_if (on_path p) F + occ p held = 0 -> hash_ok hash_key_string good_key h ->
  to_map h = delete (c_string (pa_s x)) (to_map (d_hash s)) ->
  inv L held pend F (set_hash h n (set_paths (delete p (d_paths s)) s)).
Proof.
  intros Hinv Hp Hz Hok Hm. pose proof (occ_nonneg p held) as Ho. pose proof (count_if_nonneg (on_path p) F) as Hc.
  assert (HL : L p = []) by (eapply inv_unused; [done|lia]).
  assert (Hnh : p ∉ held) by (rewrite <- occ_pos; lia).
  destruct Hinv. split; cbn [d_paths d_ioctxs d_hash d_fids d_fresh d_trace set_hash set_paths]; try done.
  - intros q y [Hne Hq]%lookup_delete_Some. by apply inv_list0.
  - intros q Hq. destruct (decide (q = p)) as [->|Hne]; [done|]. apply inv_nil0. by rewrite lookup_delete_ne in Hq.
  - intros q y [Hne Hq]%lookup_delete_Some. destruct (inv_path0 q y Hq) as [Hr Hpos]. cbn in Hr.
    by rewrite bool_decide_false in Hr.
  - intros f a Hf. destruct (inv_fid0 f a Hf) as [Hs Hi]. split; [|done]. rewrite lookup_delete_ne; [done|].
    intros Hpa. pose proof (count_if_zero (on_path p) F ltac:(lia) f a Hf) as E. unfold on_path in E.
    by rewrite bool_decide_true in E.
  - apply Forall_cons_1 in inv_held0 as [_ Hh]. apply Forall_forall. intros q Hq. rewrite lookup_delete_ne.
    + by apply (proj1 (Forall_forall _ _) Hh).
    + by intros ->.
  - intros k q. rewrite Hm. rewrite lookup_delete_Some, inv_find0. split.
    + intros (Hk & y & Hy & E). exists y. split; [|done]. rewrite lookup_delete_ne; [done|]. intros ->.
      rewrite Hp in Hy. injection Hy as <-. done.
    + intros (y & [Hne Hy]%lookup_delete_Some & E). split; [|by exists y]. intros Hk. apply Hne.
      assert (to_map (d_hash s) !! k = Some p) as H1 by (apply inv_find0; exists x; by rewrite Hk).
      assert (to_map (d_hash s) !! k = Some q) as H2 by (apply inv_find0; by exists y). congruence.
  - intros q y [Hne Hq]%lookup_delete_Some. by apply (inv_str0 q).
  - split; [|apply (proj2 inv_fresh0)]. intros q [y [Hne Hq]%lookup_delete_Some]. apply (proj1 inv_fresh0). by exists y.
Qed.

(** The strings of the paths that are left did not change. *)
Definition shrinks (s s' : dstate) : Prop := forall q y', d_paths s' !! q = Some y' ->
  exists y, d_paths s !! q = Some y /\ pa_s y = pa_s y' /\ pa_len y = pa_len y'.

Lemma path_decref_rule L held pend F G s p (Q : unit -> dstate -> Prop) : at_ L (p :: held) pend F G s ->
  (forall s', at_ L held pend F G s' -> d_err s' = d_err s -> d_ioctxs s' = d_ioctxs s -> shrinks s s' -> Q tt s') ->
  druns (path_decref p) s Q.
Proof.
  intros [Hinv Hg] HQ.
  pose proof (inv_held _ _ _ _ _ Hinv) as Hh. apply Forall_cons_1 in Hh as [[x Hp] _].
  destruct (inv_path _ _ _ _ _ Hinv p x Hp) as [Hr Hpos]. cbn [occ] in Hr. rewrite bool_decide_true in Hr by done.
  cbn in Hr. apply druns_bind. eapply druns_load_path; [exact Hp|]. cbv zeta. apply druns_bind, druns_modify.
  destruct (Z.eqb_spec (pa_refcount x - 1) 0) as [Ez|Enz].
  - apply druns_bind, druns_bind, druns_modify, druns_bind, druns_get, druns_bind, druns_get, druns_bind.
    destruct (hash_remove_spec hash_key_string strcmp good_key strcmp_good (d_hash s) (c_string (pa_s x)) (d_free s))
      as (h' & Eh & Hok & Hm).
    { apply c_string_good. by apply (inv_str _ _ _ _ _ Hinv p x). }
    { apply (inv_hash _ _ _ _ _ Hinv). }
    eapply druns_lift; [exact Eh|]. cbv beta iota. apply druns_modify, druns_modify, HQ; [|done|done|].
    + split; [|exact Hg].
      pose proof (inv_del_path L held pend F s p x h' 0 Hinv Hp ltac:(lia) Hok Hm) as Hi.
      eapply inv_quietly; [exact Hi|]. repeat split; cbn; try done. by rewrite delete_insert_eq.
    + intros q y. cbn. rewrite delete_insert_eq. intros [Hne Hq]%lookup_delete_Some. by exists y.
  - apply druns_ret, HQ; [|done|done|].
    + split; [|exact Hg]. apply (inv_set_refcount L (p :: held) held); try done.
      * lia.
      * lia.
      * intros q Hne. cbn. by rewrite bool_decide_false.
      * apply Forall_forall. intros q Hq. right. by constructor.
    + intros q y. cbn. destruct (decide (q = p)) as [->|Hne].
      * rewrite lookup_insert_eq. intros [= <-]. by exists x.
      * rewrite lookup_insert_ne by done. intros Hq. by exists y.
Qed.
End Paths.
