(* ===== verification/IoctxOpen.v ===== *)
(** * Opening and closing files (libdiod/diod_ioctx.c)

    The functions that take and give back file descriptors keep the invariant of
    IoctxInv.v: the lists of open files stay linked and a file is closed with its
    last fid. *)
From S2P Require Import Prelude Cbuf Protocol Npstring Wire Fcall Hash Ioctx DiodFid IoctxInv.
From stdpp Require Import list gmap.
#[local] Open Scope Z_scope.

(** What the code relies on in the system: a call that fails says why. *)
Class OsOk `{Os} := {
  sys_errno : forall o c, r_ret (sys o c).1 < 0 -> 0 < r_errno (sys o c).1;
  sys_ret : forall o c, -1 <= r_ret (sys o c).1;
  (** [malloc] gives as many bytes as it was asked for, less than 2^63 *)
  sys_malloc : forall o n, 0 <= n -> r_ret (sys o (S_malloc n)).1 <> 0 ->
    zlength (r_bytes (sys o (S_malloc n)).1) = n /\ n < 2 ^ 63;
  (** no more bytes are read or written than asked for *)
  sys_pread : forall o fd n off, 0 <= n -> r_ret (sys o (S_pread fd n off)).1 <= n;
  sys_pwrite : forall o fd data off, r_ret (sys o (S_pwrite fd data off)).1 <= zlength data;
  (** attributes are stored in the buffer; with none, the size is returned *)
  sys_getxattr : forall o p nm n, 0 <= n -> let r := (sys o (S_lgetxattr p nm n)).1 in
    0 <= r_ret r -> (0 < n -> r_ret r <= n) /\ zlength (r_bytes r) <= n /\ r_ret r < 2 ^ 63;
  sys_listxattr : forall o p n, 0 <= n -> let r := (sys o (S_llistxattr p n)).1 in
    0 <= r_ret r -> (0 < n -> r_ret r <= n) /\ zlength (r_bytes r) <= n /\ r_ret r < 2 ^ 63;
  (** a directory ends; file names are short *)
  dir_left : os -> Z -> nat;
  dir_max : nat;
  dir_bound : forall o fd, (dir_left o fd <= dir_max)%nat;
  dir_read : forall o fd d, r_ent (sys o (S_readdir fd)).1 = Some d ->
    (dir_left (sys o (S_readdir fd)).2 fd < dir_left o fd)%nat /\ strlen (de_name d) < 2 ^ 16;
  dir_lstat : forall o fd p, (dir_left (sys o (S_lstat p)).2 fd <= dir_left o fd)%nat;
}.

Lemma failed_errno `{OsOk} o c e : failed c (sys o c).1 = Some e -> 0 < e.
Proof.
  pose proof (sys_errno o c) as He.
  assert (E : failed c (sys o c).1 = Some e -> (r_ret (sys o c).1 < 0 /\ e = r_errno (sys o c).1) \/ e = ENOMEM).
  { unfold failed. generalize (sys o c).1. intros r.
    destruct c; try (destruct (Z.ltb_spec (r_ret r) 0); [intros [= <-]; by left|done]);
      (destruct (r_ret r =? 0); [intros [= <-]; by right|done]). }
  intros Hf. destruct (E Hf) as [[Hr ->]| ->]; [by apply He|done].
Qed.

(** An open file without its links. *)
Definition bare (x : ioctx) : ioctx := set_io_next None (set_io_prev None x).

Lemma count_if_fmap {A B} (P : B -> bool) (g : A -> B) (m : gmap positive A) :
  count_if P (g <$> m) = count_if (fun a => P (g a)) m.
Proof.
  induction m as [|k a m Hk IH] using map_ind; [by rewrite fmap_empty, !count_if_empty|].
  rewrite fmap_insert, !count_if_insert, IH; [done|done|]. by rewrite lookup_fmap, Hk.
Qed.

Lemma weight_bare k (m m' : gmap positive ioctx) : bare <$> m' = bare <$> m -> count_if (weight k) m' = count_if (weight k) m.
Proof.
  intros E. assert (G : forall m : gmap positive ioctx, count_if (weight k) m = count_if (weight k) (bare <$> m)).
  { intros m0. rewrite count_if_fmap. apply count_if_ext. intros _ x _. by destruct k. }
  by rewrite G, E, <- G.
Qed.

Lemma lookup_bare (m m' : gmap positive ioctx) i x : bare <$> m' = bare <$> m -> m' !! i = Some x ->
  exists y, m !! i = Some y /\ bare x = bare y.
Proof.
  intros E Hx. assert (Hl : (bare <$> m) !! i = Some (bare x)) by (by rewrite <- E, lookup_fmap, Hx).
  rewrite lookup_fmap in Hl. destruct (m !! i) as [y|]; [|done]. exists y. split; [done|].
  symmetry. by apply (inj Some).
Qed.

Lemma bare_insert (m : gmap positive ioctx) i x y : m !! i = Some x -> bare y = bare x ->
  bare <$> <[i := y]> m = bare <$> m.
Proof.
  intros Hx E. rewrite fmap_insert, E. apply insert_id. by rewrite lookup_fmap, Hx.
Qed.

Section Links.
Context `{Os}.

Lemma druns_upd_ioctx i x g s (Q : unit -> dstate -> Prop) : d_ioctxs s !! i = Some x ->
  Q tt (set_ioctxs (<[i := g x]> (d_ioctxs s)) s) -> druns (upd_ioctx i g) s Q.
Proof. intros Hx HQ. apply druns_bind. eapply druns_load_ioctx; [exact Hx|]. by apply druns_modify. Qed.

Lemma druns_upd_path p x g s (Q : unit -> dstate -> Prop) : d_paths s !! p = Some x ->
  Q tt (set_paths (<[p := g x]> (d_paths s)) s) -> druns (upd_path p g) s Q.
Proof. intros Hx HQ. apply druns_bind. eapply druns_load_path; [exact Hx|]. by apply druns_modify. Qed.

Lemma druns_upd_aux f a g s (Q : unit -> dstate -> Prop) : d_fids s !! f = Some a ->
  Q tt (set_dfids (<[f := g a]> (d_fids s)) s) -> druns (upd_aux f g) s Q.
Proof. intros Hx HQ. apply druns_bind. eapply druns_load_aux; [exact Hx|]. by apply druns_modify. Qed.

(** The state after links of the list of [p] changed: from [l] to [l']. *)
Definition relink (p : path_id) (x : path) (l l' : list ioctx_id) (s s' : dstate) : Prop :=
  exists m, s' = set_ioctxs m (set_paths (<[p := set_pa_ioctx (head l') x]> (d_paths s)) s) /\
    bare <$> m = bare <$> d_ioctxs s /\ dseg m None l' None /\ forall j, j ∉ l -> j ∉ l' -> m !! j = d_ioctxs s !! j.

Lemma set_ioctxs_twice m m' s : set_ioctxs m (set_ioctxs m' s) = set_ioctxs m s.
Proof. done. Qed.

Lemma link_rule p x l i y s (Q : unit -> dstate -> Prop) : d_paths s !! p = Some x -> pa_ioctx x = head l ->
  dseg (d_ioctxs s) None l None -> NoDup l -> d_ioctxs s !! i = Some y -> i ∉ l ->
  (forall s', relink p x l (i :: l) s s' -> Q tt s') -> druns (link_ioctx p i) s Q.
Proof.
  intros Hp Hh Hd Hnd Hi Hni HQ. apply druns_bind. eapply druns_load_path; [exact Hp|].
  apply druns_bind. eapply druns_upd_ioctx; [exact Hi|]. apply druns_bind.
  set (y' := set_io_prev None (set_io_next (pa_ioctx x) y)). set (m1 := <[i := y']> (d_ioctxs s)).
  assert (Hb1 : bare <$> m1 = bare <$> d_ioctxs s) by (by apply (bare_insert _ i y)).
  assert (Hd1 : dseg m1 None l None) by (by apply dseg_frame).
  rewrite Hh. destruct l as [|j l]; cbn [head].
  - apply druns_ret. eapply druns_upd_path; [exact Hp|]. apply HQ. exists m1. split; [done|]. split; [done|].
    split; [|intros k Hk Hk'; apply lookup_insert_ne; set_solver].
    exists y'. split; [apply lookup_insert_eq|]. split; [done|]. split; [exact Hh|done].
  - apply NoDup_cons in Hnd as [Hj Hnd]. apply not_elem_of_cons in Hni as [Hij Hni].
    destruct (dseg_lookup _ _ _ _ j Hd1) as [z Hz]; [by constructor|].
    eapply druns_upd_ioctx; [exact Hz|]. eapply druns_upd_path; [exact Hp|]. apply HQ.
    exists (<[j := set_io_prev (Some i) z]> m1). split; [done|]. split; [|split].
    + rewrite <- Hb1. by apply (bare_insert _ j z).
    + pose proof (dseg_set_prev m1 None (Some i) j l None z Hj Hz Hd1) as Hd2.
      exists y'. split; [rewrite lookup_insert_ne by congruence; apply lookup_insert_eq|]. split; [done|].
      split; [exact Hh|exact Hd2].
    + intros k Hk Hk'. apply not_elem_of_cons in Hk' as [Hki Hkj]. apply not_elem_of_cons in Hkj as [Hkj _].
      unfold m1. by rewrite !lookup_insert_ne by congruence.
Qed.

(** The second half of [unlink_ioctx]. *)
Lemma unlink_next l1 i l2 y m prv s (Q : unit -> dstate -> Prop) :
  NoDup (l1 ++ i :: l2) -> d_ioctxs s = m -> m !! i = Some y -> io_next y = head l2 -> io_prev y = prv ->
  prv = last l1 -> dseg m None l1 (head l2) -> dseg m (Some i) l2 None ->
  (forall m', bare <$> m' = bare <$> m -> dseg m' None (l1 ++ l2) None ->
     (forall j, j ∉ l1 ++ i :: l2 -> m' !! j = m !! j) -> Q tt (set_ioctxs m' s)) ->
  druns (do x <- load_ioctx i;
         do _ <- match io_next x with
                 | Some j => upd_ioctx j (set_io_prev (io_prev x))
                 | None => dret tt
                 end;
         upd_ioctx i (fun x => set_io_prev None (set_io_next None x))) s Q.
Proof.
  intros Hnd Em Hy Hnx Hpv Hl D1 D2 HQ. apply NoDup_app in Hnd as (Hnd1 & Hdis & Hnd2).
  apply NoDup_cons in Hnd2 as [Hi2 Hnd2]. assert (Hi1 : i ∉ l1) by (intros Hin; apply (Hdis i Hin); constructor).
  apply druns_bind. eapply druns_load_ioctx; [by rewrite Em|]. rewrite Hnx. destruct l2 as [|k l2]; cbn [head].
  - apply druns_bind, druns_ret. eapply druns_upd_ioctx; [by rewrite Em|]. rewrite Em. apply HQ.
    + by apply (bare_insert _ i y).
    + rewrite app_nil_r. by apply dseg_frame.
    + intros j Hj. apply lookup_insert_ne. set_solver.
  - apply NoDup_cons in Hnd2 as [Hk2 _]. apply not_elem_of_cons in Hi2 as [Hik Hi2].
    assert (Hk1 : k ∉ l1) by (intros Hin; apply (Hdis k Hin); set_solver).
    destruct (dseg_lookup _ _ _ _ k D2) as [z Hz]; [constructor|]. apply druns_bind.
    eapply druns_upd_ioctx; [by rewrite Em|]. rewrite Em, Hpv.
    eapply druns_upd_ioctx. { cbn. rewrite lookup_insert_ne by congruence. exact Hy. }
    cbn [d_ioctxs set_ioctxs]. rewrite set_ioctxs_twice. apply HQ.
    + rewrite (bare_insert _ i y); [by apply (bare_insert _ k z)| |done]. by rewrite lookup_insert_ne by congruence.
    + apply dseg_frame; [set_solver|]. apply dseg_app. split; [by apply dseg_frame|].
      unfold last_or. rewrite <- Hl. replace (match prv with Some j => Some j | None => None end) with prv by (by destruct prv).
      by apply (dseg_set_prev m (Some i) prv k l2 None z).
    + intros j Hj. rewrite !lookup_insert_ne; [done|set_solver|set_solver].
Qed.

Lemma set_paths_same s : set_paths (d_paths s) s = s.
Proof. by destruct s. Qed.

Lemma unlink_rule p x l1 i l2 s (Q : unit -> dstate -> Prop) : d_paths s !! p = Some x ->
  pa_ioctx x = head (l1 ++ i :: l2) -> dseg (d_ioctxs s) None (l1 ++ i :: l2) None -> NoDup (l1 ++ i :: l2) ->
  (forall s', relink p x (l1 ++ i :: l2) (l1 ++ l2) s s' -> Q tt s') -> druns (unlink_ioctx p i) s Q.
Proof.
  intros Hp Hh Hd Hnd HQ. pose proof Hnd as Hnd'. apply NoDup_app in Hnd' as (Hnd1 & Hdis & Hnd2).
  apply dseg_app in Hd as [D1 D2]. destruct D2 as (y & Hy & Hpv & Hnx & D2).
  change (match l2 with [] => None | j :: _ => Some j end) with (head l2) in Hnx. cbn [head_or] in D1.
  assert (Hi2 : i ∉ l2) by (by apply NoDup_cons in Hnd2 as [? _]).
  apply druns_bind. eapply druns_load_ioctx; [exact Hy|]. rewrite Hpv. apply druns_bind.
  destruct l1 as [|j l1 _] using rev_ind.
  - cbn [last_or last]. eapply druns_upd_path; [exact Hp|]. rewrite Hnx.
    eapply (unlink_next [] i l2 y (d_ioctxs s)); try done. intros m' Hb Hd' Hj. apply HQ.
    exists m'. split; [done|]. split; [done|]. split; [done|]. intros k Hk _. by apply Hj.
  - assert (El : last_or (l1 ++ [j]) None = Some j) by (unfold last_or; by rewrite last_snoc).
    rewrite El in Hpv |- *. apply NoDup_app in Hnd1 as (_ & Hj1 & _).
    assert (Hjl : j ∉ l1) by (intros Hin; apply (Hj1 j Hin); constructor).
    assert (Hji : j <> i) by (intros ->; apply (Hdis i); set_solver).
    assert (Hj2 : j ∉ l2) by (intros Hin; apply (Hdis j); set_solver).
    destruct (dseg_lookup _ _ _ _ j D1) as [z Hz]; [set_solver|].
    eapply druns_upd_ioctx; [exact Hz|]. rewrite Hnx.
    eapply (unlink_next (l1 ++ [j]) i l2 y (<[j := set_io_next (head l2) z]> (d_ioctxs s))); try done.
    + by rewrite lookup_insert_ne.
    + by rewrite last_snoc.
    + by apply (dseg_set_next _ None l1 j (Some i)).
    + by apply dseg_frame.
    + intros m' Hb Hd' Hj. apply HQ. exists m'. split; [|split; [|split; [done|]]].
      * rewrite set_ioctxs_twice. replace (set_pa_ioctx (head ((l1 ++ [j]) ++ l2)) x) with x.
        -- by rewrite insert_id, set_paths_same by done.
        -- destruct x as [n b le h]. cbn in Hh. unfold set_pa_ioctx. cbn. f_equal. rewrite Hh. by destruct l1.
      * rewrite Hb. by apply (bare_insert _ j z).
      * intros k Hk _. rewrite (Hj k Hk). apply lookup_insert_ne. set_solver.
Qed.
End Links.

Section Heap.
Context `{Os}.
Implicit Types (L : path_id -> list ioctx_id) (held : list path_id) (pend : list key) (F G : gmap fid_id Fid).

Definition upd_list L (p : path_id) (l : list ioctx_id) : path_id -> list ioctx_id :=
  fun q => if decide (q = p) then l else L q.

(** Fid [f] gets another open file. *)
Lemma on_path_upd F f a o p : F !! f = Some a ->
  count_if (on_path p) (<[f := set_fd_ioctx o a]> F) = count_if (on_path p) F.
Proof. intros Hf. rewrite (count_if_update _ F f a) by done. unfold on_path. cbn. lia. Qed.

Lemma on_ioctx_upd F f a o i : F !! f = Some a ->
  count_if (on_ioctx i) (<[f := set_fd_ioctx o a]> F) =
  count_if (on_ioctx i) F - Z.b2z (on_ioctx i a) + Z.b2z (bool_decide (o = Some i)).
Proof. intros Hf. by rewrite (count_if_update _ F f a) by done. Qed.

(** The list of [p] becomes [l'], the heap [m], and the fid [f], which is on [p],
    has the open file [o]. *)
Lemma inv_step L held pend F s s' f a o p x l' : inv L held pend F s -> F !! f = Some a -> fd_path a = p ->
  d_paths s !! p = Some x ->
  d_paths s' = <[p := set_pa_ioctx (head l') x]> (d_paths s) -> d_hash s' = d_hash s -> d_fresh s' = d_fresh s ->
  dseg (d_ioctxs s') None l' None -> NoDup l' ->
  (forall i, i ∈ l' -> i ∈ L p \/ d_ioctxs s !! i = None) ->
  (forall q i, q <> p -> i ∈ L q -> d_ioctxs s' !! i = d_ioctxs s !! i) ->
  (forall i y, d_ioctxs s' !! i = Some y -> (i < d_fresh s)%positive /\
     io_refcount y = count_if (on_ioctx i) (<[f := set_fd_ioctx o a]> F) /\ 0 < io_refcount y /\ 0 <= io_fd y /\
     (i ∈ l' \/ exists q, q <> p /\ i ∈ L q)) ->
  (forall i, o = Some i -> i ∈ l') ->
  (forall f' a' i, f' <> f -> F !! f' = Some a' -> fd_path a' = p -> fd_ioctx a' = Some i -> i ∈ l') ->
  (forall k, balance k (d_trace s') = count_if (weight k) (d_ioctxs s') + occ k pend) ->
  inv (upd_list L p l') held pend (<[f := set_fd_ioctx o a]> F) s'.
Proof.
  intros Hinv Hf Hpa Hp Ep Eh Ex Hd Hnd Hl' Hoth Hio Ho Hfid Htot.
  assert (Hin : forall q i, q <> p -> i ∈ L q -> is_Some (d_ioctxs s !! i)).
  { intros q i Hq Hi. destruct (d_paths s !! q) as [z|] eqn:Hz.
    - destruct (inv_list _ _ _ _ _ Hinv q z Hz) as [_ Hd']. by apply (dseg_lookup _ _ _ _ i Hd').
    - rewrite (inv_nil _ _ _ _ _ Hinv q Hz) in Hi. by apply elem_of_nil in Hi. }
  assert (Hdis : forall q i, q <> p -> i ∈ L q -> i ∉ l').
  { intros q i Hq Hi Hi'. destruct (Hin q i Hq Hi) as [z Hz]. destruct (Hl' i Hi') as [Hip|Hno]; [|congruence].
    apply Hq. by apply (inv_once _ _ _ _ _ Hinv q p i). }
  unfold upd_list. destruct Hinv as [Vlist Vnil Vonce Vnodup Vioctx Vpath Vfid Vheld Vhash Vfind Vstr Vfresh Vbal]. split; rewrite ?Ep, ?Eh, ?Ex; try done.
  - intros q y. destruct (decide (q = p)) as [->|Hne].
    + rewrite lookup_insert_eq. by intros [= <-].
    + rewrite lookup_insert_ne by done. intros Hq. destruct (Vlist q y Hq) as [Hh Hd']. split; [done|].
      eapply dseg_ext; [|exact Hd']. intros i z Hi Hz. exists z. rewrite (Hoth q i) by done. done.
  - intros q Hq. destruct (decide (q = p)) as [->|Hne]; [by rewrite lookup_insert_eq in Hq|].
    rewrite lookup_insert_ne in Hq by done. by apply Vnil.
  - intros q r i Hi Hj. destruct (decide (q = p)) as [->|Hq], (decide (r = p)) as [->|Hr]; [done| | |].
    + by destruct (Hdis r i Hr Hj).
    + by destruct (Hdis q i Hq Hi).
    + by apply (Vonce q r i).
  - intros q. destruct (decide (q = p)); [done|apply Vnodup].
  - intros i y Hy. destruct (Hio i y Hy) as (_ & Hr & Hpos & Hfd & Hmem). split; [|done].
    destruct Hmem as [Hm|(q & Hq & Hm)]; [exists p; by rewrite decide_True|exists q; by rewrite decide_False].
  - intros q y. destruct (decide (q = p)) as [->|Hne].
    + rewrite lookup_insert_eq. intros [= <-]. cbn. rewrite on_path_upd by done. by apply Vpath.
    + rewrite lookup_insert_ne, on_path_upd by done. by apply Vpath.
  - intros f' a'. destruct (decide (f' = f)) as [->|Hne].
    + rewrite lookup_insert_eq. intros [= <-]. cbn. rewrite Hpa. split; [by rewrite lookup_insert_eq|].
      rewrite decide_True by done. exact Ho.
    + rewrite lookup_insert_ne by done. intros Hf'. destruct (Vfid f' a' Hf') as [Hs Hi]. split.
      * apply lookup_insert_is_Some. destruct (decide (p = fd_path a')); [by left|by right].
      * intros i Hi'. destruct (decide (fd_path a' = p)) as [E|E]; [by apply (Hfid f' a' i)|by apply Hi].
  - eapply Forall_impl; [exact Vheld|]. intros q Hq. apply lookup_insert_is_Some.
    destruct (decide (p = q)); [by left|by right].
  - intros k q. rewrite Vfind. destruct (decide (q = p)) as [->|Hne].
    + rewrite lookup_insert_eq, Hp. split; intros (y & [= <-] & Hy); by eexists.
    + by rewrite lookup_insert_ne.
  - intros q y. destruct (decide (q = p)) as [->|Hne]; [|rewrite lookup_insert_ne by done; apply Vstr].
    rewrite lookup_insert_eq. intros [= <-]. cbn. by apply (Vstr p).
  - split.
    + intros q. destruct (decide (q = p)) as [->|Hne]; [intros _; apply (proj1 Vfresh); by rewrite Hp|].
      rewrite lookup_insert_ne by done. apply (proj1 Vfresh).
    + intros i [y Hy]. by destruct (Hio i y Hy).
Qed.

(** The parts of the state but the trace and the errors are the same. *)
Definition same_core (s s' : dstate) : Prop :=
  d_paths s' = d_paths s /\ d_ioctxs s' = d_ioctxs s /\ d_hash s' = d_hash s /\ d_fids s' = d_fids s /\
  d_fresh s' = d_fresh s.

Lemma call_rule c s (Q : sysres -> dstate -> Prop) :
  (forall s' (r := (sys (d_os s) c).1), same_core s s' -> d_err s' = d_err s ->
    d_errno s' = match failed c r with Some e => e | None => d_errno s end ->
    (forall k, balance k (d_trace s') = balance k (d_trace s) + delta k (E_sys c r)) -> Q r s') ->
  druns (call c) s Q.
Proof.
  intros HQ. destruct (call_after c s) as (r & s' & E & -> & Hc & Ht & He & Hn & _).
  eexists _, s'. split; [done|]. apply HQ; [done|done|done|]. intros k. by rewrite Ht, balance_snoc.
Qed.
End Heap.

Section Close.
Context `{OsOk}.
Implicit Types (L : path_id -> list ioctx_id) (held : list path_id) (pend : list key) (F G : gmap fid_id Fid).

(** [close] gives back the descriptor and the user. *)
Lemma ioctx_close_fd_rule x seterrno s (Q : Z -> dstate -> Prop) : 0 <= io_fd x ->
  (forall rc s', same_core s s' -> (forall k, balance k (d_trace s') = balance k (d_trace s) - Z.b2z (weight k x)) ->
     (if (rc <? 0) && seterrno then 0 < d_err s' else d_err s' = d_err s) -> Q rc s') ->
  druns (ioctx_close_fd x seterrno) s Q.
Proof.
  intros Hfd HQ. apply druns_bind.
  assert (Hc : druns (if io_dir x then do r <- call (S_closedir (io_fd x)); dret (r_ret r)
    else if negb (io_fd x =? -1) then do r <- call (S_close (io_fd x)); dret (r_ret r) else dret 0) s
    (fun rc s' => same_core s s' /\ d_err s' = d_err s /\ (rc < 0 -> 0 < d_errno s') /\
       forall k, balance k (d_trace s') = balance k (d_trace s) -
         match k with K_fd fd => Z.b2z (io_fd x =? fd) | K_user _ => 0 end)).
  { assert (E : (io_fd x =? -1) = false) by lia. rewrite E. cbn [negb].
    destruct (io_dir x); apply druns_bind, call_rule; intros s' r Hs He Hn Hb; apply druns_ret;
      (split; [done|]; split; [done|]; split; [|intros k; rewrite Hb; by destruct k; cbn; lia]);
      intros Hr; rewrite Hn; unfold failed; rewrite (proj2 (Z.ltb_lt _ _) Hr); by apply sys_errno. }
  eapply druns_mono; [exact Hc|]. intros rc s1 (Hs & He & Hrc & Hb). apply druns_bind.
  assert (Hu : druns (if (rc <? 0) && seterrno then uerror_errno else dret tt) s1 (fun _ s2 => quietly s1 s2 /\
    if (rc <? 0) && seterrno then 0 < d_err s2 else d_err s2 = d_err s)).
  { destruct ((rc <? 0) && seterrno) eqn:E; [|by apply druns_ret]. apply druns_uerror_errno. intros s2 Hq He2 _.
    split; [done|]. rewrite He2. apply Hrc. apply andb_true_iff in E as [E _]. lia. }
  eapply druns_mono; [exact Hu|]. intros _ s2 [(Ep & Ei & Eh & Ef & Ex & Et) He2]. apply druns_bind, druns_modify, druns_ret.
  destruct Hs as (Fp & Fi & Fh & Ff & Fx). apply HQ.
  - repeat split; cbn; congruence.
  - intros k. cbn [d_trace add_event]. rewrite balance_snoc, Et, Hb. destruct k; cbn; lia.
  - exact He2.
Qed.

(** Fid [f] gives up the open file [i]: what is left of it. *)
Section Close_fid.
Context L held pend F (s : dstate) f a i y x (Hinv : inv L held pend F s) (Hf : F !! f = Some a)
  (Hi : fd_ioctx a = Some i) (Hp : d_paths s !! fd_path a = Some x) (Hy : d_ioctxs s !! i = Some y).

Let F' := <[f := set_fd_ioctx None a]> F.
Let y0 := set_io_refcount (io_refcount y - 1) y.
Let m0 := <[i := y0]> (d_ioctxs s).

Lemma close_count : count_if (on_ioctx i) F' = io_refcount y - 1.
Proof.
  destruct (inv_ioctx _ _ _ _ _ Hinv i y Hy) as (_ & Hr & _). unfold F'. rewrite on_ioctx_upd by done.
  unfold on_ioctx at 2. rewrite Hi, !bool_decide_true, bool_decide_false by done. cbn. lia.
Qed.

Lemma close_count_ne j z : j <> i -> d_ioctxs s !! j = Some z -> count_if (on_ioctx j) F' = io_refcount z.
Proof.
  intros Hne Hz. destruct (inv_ioctx _ _ _ _ _ Hinv j z Hz) as (_ & -> & _). unfold F'. rewrite on_ioctx_upd by done.
  unfold on_ioctx at 2. rewrite Hi, !bool_decide_false by congruence. cbn. lia.
Qed.

Lemma close_dseg l : dseg (d_ioctxs s) None l None -> dseg m0 None l None.
Proof.
  apply dseg_ext. intros j z Hj Hz. unfold m0. destruct (decide (j = i)) as [->|Hne].
  - rewrite lookup_insert_eq. eexists. split; [done|]. rewrite Hy in Hz. by injection Hz as <-.
  - rewrite lookup_insert_ne by done. by exists z.
Qed.

Lemma close_weight k : count_if (weight k) m0 = count_if (weight k) (d_ioctxs s).
Proof.
  unfold m0. rewrite (count_if_update (weight k) _ i y) by done.
  replace (weight k y0) with (weight k y) by (by destruct k). lia.
Qed.

(** An open file of the path or of another one. *)
Lemma listed j z : d_ioctxs s !! j = Some z -> j ∈ L (fd_path a) \/ exists q, q <> fd_path a /\ j ∈ L q.
Proof.
  intros Hz. destruct (inv_ioctx _ _ _ _ _ Hinv j z Hz) as ((q & Hq) & _).
  destruct (decide (q = fd_path a)) as [->|Hqp]; [by left|right; by exists q].
Qed.

(** It was the last fid: the file is unlinked and freed. *)
Lemma inv_close_last l1 l2 m y' s' : io_refcount y = 1 -> L (fd_path a) = l1 ++ i :: l2 -> bare <$> m = bare <$> m0 ->
  dseg m None (l1 ++ l2) None -> (forall j, j ∉ l1 ++ i :: l2 -> j ∉ l1 ++ l2 -> m !! j = m0 !! j) -> m !! i = Some y' ->
  d_paths s' = <[fd_path a := set_pa_ioctx (head (l1 ++ l2)) x]> (d_paths s) -> d_ioctxs s' = delete i m ->
  d_hash s' = d_hash s -> d_fresh s' = d_fresh s ->
  (forall k, balance k (d_trace s') = balance k (d_trace s) - Z.b2z (weight k y')) ->
  inv (upd_list L (fd_path a) (l1 ++ l2)) held pend F' s'.
Proof.
  intros Hone El Bm Hd Hoth Hy' Ep Ei Eh Ex Hbal. pose proof (inv_nodup _ _ _ _ _ Hinv (fd_path a)) as Hnd. rewrite El in Hnd.
  apply NoDup_app in Hnd as (Hnd1 & Hdis & Hnd2). apply NoDup_cons in Hnd2 as [Hi2 Hnd2].
  assert (Hil : i ∉ l1 ++ l2).
  { rewrite elem_of_app. intros [Hin|Hin]; [|done]. apply (Hdis i Hin). constructor. }
  assert (Hoff : forall q j, q <> fd_path a -> j ∈ L q -> j ∉ l1 ++ i :: l2).
  { intros q j Hq Hj Hin. apply Hq, (inv_once _ _ _ _ _ Hinv q (fd_path a) j); [done|]. by rewrite El. }
  apply (inv_step L held pend F s s' f a None (fd_path a) x (l1 ++ l2)); try done; rewrite ?Ei.
  - by apply dseg_delete.
  - apply NoDup_app. split; [done|]. split; [|done]. intros j Hj Hj2. apply (Hdis j Hj). by constructor.
  - intros j Hj. left. rewrite El. set_solver.
  - intros q j Hq Hj. pose proof (Hoff q j Hq Hj). assert (j <> i) by set_solver.
    rewrite lookup_delete_ne, Hoth by (done || set_solver). unfold m0. by rewrite lookup_insert_ne.
  - intros j z [Hne Hz]%lookup_delete_Some. destruct (lookup_bare _ _ _ _ Bm Hz) as (z0 & Hz0 & Bz).
    unfold m0 in Hz0. rewrite lookup_insert_ne in Hz0 by done.
    assert (Erc : io_refcount z = io_refcount z0) by (by apply (f_equal io_refcount) in Bz).
    assert (Efd : io_fd z = io_fd z0) by (by apply (f_equal io_fd) in Bz). rewrite Erc, Efd.
    destruct (inv_ioctx _ _ _ _ _ Hinv j z0 Hz0) as (_ & _ & Hpos & Hfd).
    split; [apply (inv_fresh _ _ _ _ _ Hinv); by rewrite Hz0|]. split; [symmetry; by apply close_count_ne|].
    split; [done|]. split; [done|]. destruct (listed j z0 Hz0) as [Hq|Hq]; [left|by right]. rewrite El in Hq. set_solver.
  - intros f' a' j Hne Hf' Hpa Hio. destruct (inv_fid _ _ _ _ _ Hinv f' a' Hf') as [_ Hj]. specialize (Hj j Hio).
    rewrite Hpa, El in Hj. assert (j <> i); [|set_solver]. intros ->.
    assert (Hz : count_if (on_ioctx i) F' = 0) by (rewrite close_count; lia).
    apply (count_if_zero _ _) with (k := f') (a := a') in Hz; [|by apply lookup_insert_Some; right].
    unfold on_ioctx in Hz. by rewrite bool_decide_true in Hz.
  - intros k. rewrite Hbal, (inv_balance _ _ _ _ _ Hinv k), (count_if_delete (weight k) m i y' Hy'), (weight_bare k m0 m Bm).
    rewrite close_weight. lia.
Qed.

(** Other fids have the file: it stays. *)
Lemma inv_close_shared s' : 1 < io_refcount y -> d_paths s' = d_paths s -> d_ioctxs s' = m0 -> d_hash s' = d_hash s ->
  d_fresh s' = d_fresh s -> d_trace s' = d_trace s -> inv (upd_list L (fd_path a) (L (fd_path a))) held pend F' s'.
Proof.
  intros Hmore Ep Ei Eh Ex Et. destruct (inv_list _ _ _ _ _ Hinv _ x Hp) as [Hh Hd].
  pose proof (inv_nodup _ _ _ _ _ Hinv (fd_path a)) as Hnd. destruct (inv_fid _ _ _ _ _ Hinv f a Hf) as [_ HiL].
  specialize (HiL i Hi).
  apply (inv_step L held pend F s s' f a None (fd_path a) x (L (fd_path a))); try done; rewrite ?Ei.
  - rewrite Ep, insert_id; [done|]. rewrite Hp. f_equal. destruct x; unfold set_pa_ioctx; cbn in *. by rewrite Hh.
  - by apply close_dseg.
  - intros j Hj. by left.
  - intros q j Hq Hj. unfold m0. apply lookup_insert_ne. intros <-.
    apply Hq. by apply (inv_once _ _ _ _ _ Hinv q (fd_path a) i).
  - intros j z. unfold m0. destruct (decide (j = i)) as [->|Hne].
    + rewrite lookup_insert_eq. intros [= <-]. destruct (inv_ioctx _ _ _ _ _ Hinv i y Hy) as (_ & _ & _ & Hfd).
      split; [apply (inv_fresh _ _ _ _ _ Hinv); by rewrite Hy|]. split; [symmetry; apply close_count|]. cbn.
      split; [lia|]. split; [done|]. by left.
    + rewrite lookup_insert_ne by done. intros Hz. destruct (inv_ioctx _ _ _ _ _ Hinv j z Hz) as (_ & _ & Hpos & Hfd).
      split; [apply (inv_fresh _ _ _ _ _ Hinv); by rewrite Hz|]. split; [symmetry; by apply close_count_ne|].
      split; [done|]. split; [done|]. by apply (listed j z).
  - intros f' a' j Hne Hf' Hpa Hio. destruct (inv_fid _ _ _ _ _ Hinv f' a' Hf') as [_ Hj]. rewrite <- Hpa. by apply Hj.
  - intros k. by rewrite Et, (inv_balance _ _ _ _ _ Hinv k), close_weight.
Qed.
End Close_fid.

(** A fid gives up its open file. *)
Lemma ioctx_close_rule L held pend F s f a i seterrno (Q : Z -> dstate -> Prop) :
  at_ L held pend F F s -> F !! f = Some a -> fd_ioctx a = Some i ->
  (forall L' rc s' (F' := <[f := set_fd_ioctx None a]> F), at_ L' held pend F' F' s' -> grows s s' ->
     (if (rc <? 0) && seterrno then 0 < d_err s' else d_err s' = d_err s) -> Q rc s') ->
  druns (ioctx_close f seterrno) s Q.
Proof.
  intros [Hinv Hg] Hf Hi HQ. apply druns_bind. eapply druns_load_aux; [by rewrite Hg|]. rewrite Hi.
  destruct (inv_fid _ _ _ _ _ Hinv f a Hf) as [[x Hp] HiL]. specialize (HiL i Hi).
  destruct (inv_list _ _ _ _ _ Hinv _ x Hp) as [Hh Hd]. pose proof (inv_nodup _ _ _ _ _ Hinv (fd_path a)) as Hnd.
  destruct (dseg_lookup _ _ _ _ i Hd HiL) as [y Hy].
  destruct (inv_ioctx _ _ _ _ _ Hinv i y Hy) as (_ & Hr & Hpos & Hfd).
  apply druns_bind, druns_bind. eapply druns_load_ioctx; [exact Hy|]. cbv zeta.
  apply druns_bind, druns_modify, druns_ret, druns_bind. set (y0 := set_io_refcount (io_refcount y - 1) y).
  destruct (Z.eqb_spec (io_refcount y - 1) 0) as [Ez|Enz].
  - apply list_elem_of_split in HiL as (l1 & l2 & El). rewrite El in Hh, Hd, Hnd.
    apply (unlink_rule (fd_path a) x l1 i l2); [done|done|by apply close_dseg|done|].
    intros s1 (m & -> & Hb & Hd' & Hoth). apply druns_bind.
    destruct (lookup_bare m (<[i := y0]> (d_ioctxs s)) i y0) as (y' & Hy' & By); [by symmetry|apply lookup_insert_eq|].
    apply druns_bind. eapply druns_load_ioctx; [exact Hy'|]. apply druns_bind.
    assert (Efd : io_fd y' = io_fd y) by (by apply (f_equal io_fd) in By).
    apply ioctx_close_fd_rule; [by rewrite Efd|]. intros rc s2 (Ep & Ei & Eh & Ef & Ex) Hbal He.
    apply druns_bind, druns_modify, druns_ret, druns_bind.
    eapply druns_upd_aux; [cbn; rewrite Ef; cbn; by rewrite Hg|]. apply druns_ret.
    apply (HQ (upd_list L (fd_path a) (l1 ++ l2))); [| |exact He].
    + split; [|cbn; rewrite Ef; cbn; by rewrite Hg].
      apply (inv_close_last L held pend F s f a i y x Hinv Hf Hi Hp Hy l1 l2 m y'); try done; [lia|]. cbn. by rewrite Ei.
    + intros q z Hz. cbn. rewrite Ep. cbn. destruct (decide (q = fd_path a)) as [->|Hne].
      * rewrite lookup_insert_eq. rewrite Hp in Hz. injection Hz as <-. by eexists.
      * rewrite lookup_insert_ne by done. by exists z.
  - apply druns_ret, druns_bind, druns_ret, druns_bind. eapply druns_upd_aux; [cbn; by rewrite Hg|]. apply druns_ret.
    apply (HQ (upd_list L (fd_path a) (L (fd_path a)))); [| |done].
    + split; [|cbn; by rewrite Hg].
      apply (inv_close_shared L held pend F s f a i y x Hinv Hf Hi Hp Hy); try done. lia.
    + intros q z Hz. by exists z.
Qed.
End Close.

Section Open.
Context `{OsOk}.
Implicit Types (L : path_id -> list ioctx_id) (held : list path_id) (pend : list key) (F G : gmap fid_id Fid).

(** The new open file, or nothing taken and an error. *)
Definition created (s : dstate) (flags : Z) (user : user_id) (o : option ioctx_id) (s' : dstate) : Prop :=
  match o with
  | None => quietly s s' /\ 0 < d_err s'
  | Some i => exists y, i = d_fresh s /\ d_paths s' = d_paths s /\ d_ioctxs s' = <[i := y]> (d_ioctxs s) /\
      d_hash s' = d_hash s /\ d_fids s' = d_fids s /\ d_fresh s' = Pos.succ i /\ d_err s' = d_err s /\
      (forall k, balance k (d_trace s') = balance k (d_trace s) + Z.b2z (weight k y)) /\
      io_refcount y = 1 /\ 0 <= io_fd y /\ io_open_flags y = flags /\ io_user y = user
  end.

(** The end of a failed open: the descriptor and the user are given back. *)
Lemma create_error_rule x s0 s s1 (Q : option ioctx_id -> dstate -> Prop) :
  same_core s0 s -> 0 < d_errno s -> -1 <= io_fd x -> io_dir x = false ->
  (forall k, balance k (d_trace s) = balance k (d_trace s0) +
     (if io_fd x <? 0 then match k with K_user u => Z.b2z (bool_decide (io_user x = u)) | _ => 0 end
      else Z.b2z (weight k x))) -> s1 = s ->
  (forall s', quietly s0 s' -> 0 < d_err s' -> Q None s') ->
  druns (do _ <- uerror_errno; do _ <- ioctx_close_fd x false; dret None) s1 Q.
Proof.
  intros (Ep & Ei & Eh & Ef & Ex) Hn Hfd Hdir Hb -> HQ. apply druns_bind, druns_uerror_errno.
  intros s1 (Fp & Fi & Fh & Ff & Fx & Ft) He _. apply druns_bind. destruct (Z.ltb_spec (io_fd x) 0) as [Hneg|Hpos].
  - assert (E : io_fd x = -1) by lia. unfold ioctx_close_fd. rewrite Hdir, E. cbn [Z.eqb negb Pos.eqb].
    apply druns_bind, druns_ret, druns_bind. change (0 <? 0) with false. cbn [andb]. apply druns_ret, druns_bind, druns_modify, druns_ret, druns_ret.
    apply HQ; [|cbn; lia]. repeat split; cbn [d_paths d_ioctxs d_hash d_fids d_fresh d_trace add_event]; try congruence.
    intros k. rewrite balance_snoc, Ft, Hb. destruct k; cbn; lia.
  - apply ioctx_close_fd_rule; [done|]. intros rc s2 (Gp & Gi & Gh & Gf & Gx) Hb2 He2. apply druns_ret, HQ.
    + repeat split; try congruence. intros k. rewrite Hb2, Ft, Hb. lia.
    + rewrite andb_false_r in He2. lia.
Qed.

Lemma errno_failed c s s1 : d_errno s1 = match failed c (sys (d_os s) c).1 with Some e => e | None => d_errno s end ->
  r_ret (sys (d_os s) c).1 < 0 -> (forall n, c <> S_malloc n) -> (forall x, c <> S_reply x) -> 0 < d_errno s1.
Proof.
  intros E Hr Hm Hp. rewrite E. pose proof (sys_errno (d_os s) c Hr). unfold failed. rewrite (proj2 (Z.ltb_lt _ _) Hr).
  destruct c; try done; [by destruct (Hm n)|by destruct (Hp c)].
Qed.

Lemma ioctx_create_open_rule user p x flags mode s : d_paths s !! p = Some x ->
  druns (ioctx_create_open user p flags mode) s (created s flags user).
Proof.
  intros Hp. apply druns_bind, druns_malloced. intros b s1 (Ep & Ei & Eh & Ef & Ex & Et) He _ _. destruct b; cbn [negb].
  2:{ apply druns_bind, druns_uerror. intros s2 (Fp & Fi & Fh & Ff & Fx & Ft) He2 _. apply druns_ret. split; [|by rewrite He2].
      repeat split; congruence. }
  apply druns_bind, druns_modify, druns_bind. eapply druns_path_s; [cbn; by rewrite Ep|].
  apply druns_bind, call_rule. intros s2 r (Fp & Fi & Fh & Ff & Fx) He2 Hn2 Hb2. cbn [d_paths d_ioctxs d_hash d_fids d_fresh d_trace add_event d_os d_err] in *.
  assert (Hret : -1 <= r_ret r) by apply sys_ret.
  assert (Hbal : forall k, balance k (d_trace s2) = balance k (d_trace s) +
    (if r_ret r <? 0 then match k with K_user u => Z.b2z (bool_decide (user = u)) | _ => 0 end
     else match k with K_fd fd => Z.b2z (r_ret r =? fd) | K_user u => Z.b2z (bool_decide (user = u)) end)).
  { intros k. rewrite Hb2, balance_snoc, Et. destruct k; cbn; destruct (Z.ltb_spec (r_ret r) 0); try lia.
    - rewrite (proj2 (Z.leb_gt _ _)), andb_false_r by lia. cbn. lia.
    - rewrite (proj2 (Z.leb_le _ _)), andb_true_r by lia. lia. }
  cbv zeta. match goal with |- context [ioctx_close_fd ?x false] => set (x1 := x) end.
  assert (Hc2 : same_core s s2) by (repeat split; congruence).
  destruct (Z.ltb_spec (r_ret r) 0) as [Hneg|Hpos].
  { apply (create_error_rule x1 s s2); [done| |done|done| |done|by intros s'].
    - by apply (errno_failed _ _ _ Hn2).
    - intros k. rewrite Hbal. unfold x1. cbn. by rewrite (proj2 (Z.ltb_lt _ _) Hneg). }
  assert (Hq2 : forall s', quietly s2 s' -> same_core s s' /\ forall k, balance k (d_trace s') =
    balance k (d_trace s) + match k with K_fd fd => Z.b2z (r_ret r =? fd) | K_user u => Z.b2z (bool_decide (user = u)) end).
  { intros s' (Gp & Gi & Gh & Gf & Gx & Gt). destruct Hc2 as (? & ? & ? & ? & ?). split; [repeat split; congruence|].
    intros k. rewrite Gt, Hbal. done. }
  assert (Herr : forall s', quietly s2 s' -> 0 < d_errno s' ->
    druns (do _ <- uerror_errno; do _ <- ioctx_close_fd x1 false; dret None) s' (created s flags user)).
  { intros s' Hq Hn'. destruct (Hq2 s' Hq) as [Hcs Hbs]. apply (create_error_rule x1 s s'); [done|done|done|done| |done|by intros s''].
    intros k. rewrite Hbs. unfold x1. cbn. rewrite (proj2 (Z.ltb_ge _ _) Hpos). by destruct k. }
  apply druns_bind, druns_call; [done|]. intros s3 st Hq3 He3 Hn3 _.
  destruct (Z.ltb_spec (r_ret st) 0) as [Hst|Hst].
  { apply Herr; [done|]. by apply (errno_failed _ _ _ Hn3). }
  apply druns_bind.
  assert (Hdir : druns (if S_ISDIR (st_mode (r_stat st)) then do d <- call (S_fdopendir (r_ret r));
      dret (Some (negb (r_ret d <? 0))) else dret None) s3
    (fun dir s4 => quietly s2 s4 /\ d_err s4 = d_err s2 /\ (dir = Some false -> 0 < d_errno s4))).
  { destruct (S_ISDIR _); [|by apply druns_ret]. apply druns_bind, druns_call; [done|]. intros s4 d Hq4 He4 Hn4 _.
    apply druns_ret. split; [by eapply quietly_trans|]. split; [congruence|]. intros [= Hd].
    apply (errno_failed _ _ _ Hn4); [|done|done]. fold d. lia. }
  eapply druns_mono; [exact Hdir|]. intros dir s4 (Hq4 & He4 & Hn4). cbn beta.
  case_bool_decide as Ed; [by apply Herr; [|apply Hn4]|].
  apply druns_bind, druns_bind, druns_get, druns_bind, druns_modify, druns_ret, druns_bind, druns_modify, druns_ret.
  destruct (Hq2 s4 Hq4) as [(Gp & Gi & Gh & Gf & Gx) Hb4].
  eexists. cbn [d_paths d_ioctxs d_hash d_fids d_fresh d_trace d_err set_ioctxs set_next_id].
  rewrite Gp, Gi, Gh, Gf, Gx. do 6 (split; [done|]). split; [congruence|]. split; [|done].
  intros k. rewrite Hb4. by destruct k.
Qed.

(** An open file that may be shared: of the same user, opened with the same flags,
    and a regular file. *)
Definition shareable (flags uid : Z) (y : ioctx) : Prop :=
  qtype (io_qid y) = Qtfile /\ io_open_flags y = flags /\ uid_of_user (io_user y) = uid.

Lemma find_ioctx_rule fuel flags uid l prv s (Q : option ioctx_id -> dstate -> Prop) :
  dseg (d_ioctxs s) prv l None -> (length l < fuel)%nat ->
  ((forall i y, i ∈ l -> d_ioctxs s !! i = Some y -> ~ shareable flags uid y) -> Q None s) ->
  (forall i y, i ∈ l -> d_ioctxs s !! i = Some y -> shareable flags uid y ->
     Q (Some i) (set_ioctxs (<[i := set_io_refcount (io_refcount y + 1) y]> (d_ioctxs s)) s)) ->
  druns (find_ioctx fuel (head l) flags uid) s Q.
Proof.
  revert fuel prv. induction l as [|i l IH]; intros fuel prv Hd Hf Hn Hs; cbn [head].
  - destruct fuel; cbn; apply druns_ret, Hn; by intros i y ?%elem_of_nil.
  - destruct fuel as [|fuel]; [cbn in Hf; lia|]. destruct Hd as (y & Hy & _ & Hnx & Hd). cbn [find_ioctx].
    apply druns_bind. eapply druns_load_ioctx; [exact Hy|].
    destruct (negb _ || negb _ || negb _) eqn:E.
    + change (match l with [] => None | j :: _ => Some j end) with (head l) in Hnx. rewrite Hnx.
      apply (IH fuel (Some i)); [done|cbn in Hf; lia| |].
      * intros Hno. apply Hn. intros j z [->|Hj]%elem_of_cons Hz; [|by apply (Hno j)]. rewrite Hy in Hz. injection Hz as <-.
        intros (Hq & Hfl & Hu). rewrite Hq, Hfl, Hu, !Z.eqb_refl in E. done.
      * intros j z Hj. apply Hs. by constructor.
    + apply orb_false_iff in E as [[Eq Ef]%orb_false_iff Eu]. rewrite negb_false_iff, Z.eqb_eq in Eq, Ef, Eu.
      apply druns_bind, druns_bind. eapply druns_upd_ioctx; [exact Hy|]. apply druns_ret, druns_ret, Hs; [constructor|done|done].
Qed.

Lemma list_in_heap (m : gmap positive ioctx) prv l nxt : dseg m prv l nxt -> NoDup l -> (length l <= size m)%nat.
Proof.
  intros Hd Hnd. rewrite <- (size_list_to_set (C := gset positive) l Hnd), <- size_dom. apply subseteq_size.
  intros i Hi%elem_of_list_to_set. apply elem_of_dom. by eapply dseg_lookup.
Qed.

(** Sharing: the fid joins the open file [i]. *)
Lemma inv_share L held pend F s f a i y : inv L held pend F s -> F !! f = Some a -> fd_ioctx a = None ->
  i ∈ L (fd_path a) -> d_ioctxs s !! i = Some y ->
  inv L held pend (<[f := set_fd_ioctx (Some i) a]> F)
    (set_ioctxs (<[i := set_io_refcount (io_refcount y + 1) y]> (d_ioctxs s)) s).
Proof.
  intros Hinv Hf Hno Hi Hy. set (y' := set_io_refcount _ y).
  assert (Hc : forall j, count_if (on_ioctx j) (<[f := set_fd_ioctx (Some i) a]> F) =
    count_if (on_ioctx j) F + Z.b2z (bool_decide (i = j))).
  { intros j. rewrite on_ioctx_upd by done. unfold on_ioctx at 2. rewrite Hno, bool_decide_false by done. cbn.
    replace (bool_decide (Some i = Some j)) with (bool_decide (i = j)); [lia|]. apply bool_decide_ext. split; congruence. }
  destruct Hinv as [Vlist Vnil Vonce Vnodup Vioctx Vpath Vfid Vheld Vhash Vfind Vstr Vfresh Vbal].
  split; cbn [d_paths d_ioctxs d_hash d_fids d_fresh d_trace set_ioctxs]; try done.
  - intros p x Hp. destruct (Vlist p x Hp) as [Hh Hd]. split; [done|]. eapply dseg_ext; [|exact Hd]. intros j z Hj Hz.
    destruct (decide (j = i)) as [->|Hne]; [rewrite lookup_insert_eq|rewrite lookup_insert_ne by done; by exists z].
    rewrite Hy in Hz. injection Hz as <-. by exists y'.
  - intros j z. rewrite Hc. destruct (decide (j = i)) as [->|Hne].
    + rewrite lookup_insert_eq. intros [= <-]. destruct (Vioctx i y Hy) as (Hp & Hr & Hpos & Hfd). split; [done|].
      rewrite bool_decide_true by done. cbn. split; [lia|]. split; [lia|done].
    + rewrite lookup_insert_ne by done. rewrite bool_decide_false by done. cbn. rewrite Z.add_0_r. apply Vioctx.
  - intros p x Hp. rewrite on_path_upd by done. by apply Vpath.
  - intros f' a'. destruct (decide (f' = f)) as [->|Hne]; [|rewrite lookup_insert_ne by done; apply Vfid].
    rewrite lookup_insert_eq. intros [= <-]. cbn. split; [by apply (Vfid f)|]. by intros j [= <-].
  - split; [apply (proj1 Vfresh)|]. intros j. destruct (decide (j = i)) as [->|Hne].
    + intros _. apply (proj2 Vfresh). by rewrite Hy.
    + rewrite lookup_insert_ne by done. apply (proj2 Vfresh).
  - intros k. rewrite Vbal, (count_if_update (weight k) _ i y) by done.
    replace (weight k y') with (weight k y) by (by destruct k). lia.
Qed.

(** A new open file is linked to the path of the fid. *)
Lemma inv_link L held pend F s s1 s2 f a i y x : inv L held pend F s -> F !! f = Some a -> fd_ioctx a = None ->
  d_paths s !! fd_path a = Some x -> d_ioctxs s !! i = None -> i = d_fresh s -> io_refcount y = 1 -> 0 <= io_fd y ->
  d_paths s1 = d_paths s -> d_ioctxs s1 = <[i := y]> (d_ioctxs s) -> d_hash s1 = d_hash s -> d_fresh s1 = Pos.succ i ->
  (forall k, balance k (d_trace s1) = balance k (d_trace s) + Z.b2z (weight k y)) ->
  relink (fd_path a) x (L (fd_path a)) (i :: L (fd_path a)) s1 s2 ->
  inv (upd_list L (fd_path a) (i :: L (fd_path a))) held pend (<[f := set_fd_ioctx (Some i) a]> F) s2.
Proof.
  intros Hinv Hf Hno Hp Hi Efr Hrc Hfd Ep Ei Eh Ex Hb (m & -> & Bm & Hd & Hoth).
  assert (HiL : forall q, i ∉ L q).
  { intros q Hin. destruct (d_paths s !! q) as [z|] eqn:Hz.
    - destruct (inv_list _ _ _ _ _ Hinv q z Hz) as [_ Hdq]. destruct (dseg_lookup _ _ _ _ i Hdq Hin). congruence.
    - rewrite (inv_nil _ _ _ _ _ Hinv q Hz) in Hin. by apply elem_of_nil in Hin. }
  assert (Hc : forall j, count_if (on_ioctx j) (<[f := set_fd_ioctx (Some i) a]> F) =
    count_if (on_ioctx j) F + Z.b2z (bool_decide (i = j))).
  { intros j. rewrite on_ioctx_upd by done. unfold on_ioctx at 2. rewrite Hno, bool_decide_false by done. cbn.
    replace (bool_decide (Some i = Some j)) with (bool_decide (i = j)); [lia|]. apply bool_decide_ext. split; congruence. }
  assert (Hzero : count_if (on_ioctx i) F = 0).
  { pose proof (count_if_nonneg (on_ioctx i) F). destruct (Z.eq_dec (count_if (on_ioctx i) F) 0); [done|].
    destruct (count_if_exists (on_ioctx i) F) as (f' & a' & Hf' & Ha'); [lia|]. apply bool_decide_eq_true in Ha'.
    destruct (inv_fid _ _ _ _ _ Hinv f' a' Hf') as [_ Hin]. by destruct (HiL (fd_path a') (Hin i Ha')). }
  apply (inv_step L held pend F (set_next_id (Pos.succ (d_fresh s)) s) _ f a (Some i) (fd_path a) x); try done;
    cbn [d_paths d_ioctxs d_hash d_fids d_fresh d_trace set_ioctxs set_paths set_next_id].
  - by apply inv_next_id.
  - by rewrite Ep.
  - by rewrite Ex, Efr.
  - apply NoDup_cons. split; [apply HiL|apply (inv_nodup _ _ _ _ _ Hinv)].
  - intros j [->|Hj]%elem_of_cons; [by right|by left].
  - intros q j Hq Hj. rewrite Hoth, Ei, lookup_insert_ne; [done| | |].
    + intros <-. by apply (HiL q).
    + intros Hin. apply Hq. by apply (inv_once _ _ _ _ _ Hinv q (fd_path a) j).
    + intros [->|Hin]%elem_of_cons; [by apply (HiL q)|]. apply Hq. by apply (inv_once _ _ _ _ _ Hinv q (fd_path a) j).
  - intros j z Hz. destruct (lookup_bare _ _ _ _ Bm Hz) as (z0 & Hz0 & Bz). rewrite Ei in Hz0.
    assert (Erc : io_refcount z = io_refcount z0) by (by apply (f_equal io_refcount) in Bz).
    assert (Efd : io_fd z = io_fd z0) by (by apply (f_equal io_fd) in Bz). rewrite Erc, Efd, Hc.
    destruct (decide (j = i)) as [->|Hne].
    + rewrite lookup_insert_eq in Hz0. injection Hz0 as <-. rewrite Hzero, bool_decide_true, Hrc by done.
      split; [lia|]. split; [done|]. split; [done|]. split; [done|]. left. constructor.
    + rewrite lookup_insert_ne in Hz0 by done. rewrite bool_decide_false by done. cbn. rewrite Z.add_0_r.
      destruct (inv_ioctx _ _ _ _ _ Hinv j z0 Hz0) as ((q & Hq) & Hr & Hpos & Hfd0).
      split; [pose proof (proj2 (inv_fresh _ _ _ _ _ Hinv) j (mk_is_Some _ _ Hz0)); lia|].
      split; [done|]. split; [done|]. split; [done|].
      destruct (decide (q = fd_path a)) as [->|Hqp]; [left; by constructor|right; by exists q].
  - intros j [= <-]. constructor.
  - intros f' a' j Hne Hf' Hpa Hio. constructor. rewrite <- Hpa. by apply (inv_fid _ _ _ _ _ Hinv f' a').
  - intros k. rewrite Hb, (inv_balance _ _ _ _ _ Hinv k), (weight_bare k _ _ Bm), Ei, count_if_insert by done. lia.
Qed.

(** The open file that a fid gets: opened by it, or a regular file that was opened
    for reading by the same user with the same flags. *)
Definition opened_for (s : dstate) (a : Fid) (user : user_id) (flags : Z) (i : ioctx_id) (y : ioctx) : Prop :=
  io_open_flags y = flags /\ uid_of_user (io_user y) = uid_of_user user /\
  (d_ioctxs s !! i = None /\ io_refcount y = 1 /\ io_user y = user \/
   bit (fd_flags a) DIOD_FID_FLAGS_SHAREFD = true /\ Z.land flags 3 = 0 /\ qtype (io_qid y) = Qtfile /\
   is_Some (d_ioctxs s !! i) /\ 1 < io_refcount y).

(** [ioctx_open] keeps the invariant; when it fails it sets an error. *)
Lemma ioctx_open_rule L held pend F s f a user flags mode (Q : Z -> dstate -> Prop) :
  at_ L held pend F F s -> F !! f = Some a -> fd_ioctx a = None ->
  (forall s', at_ L held pend F F s' -> 0 < d_err s' -> grows s s' -> Q (-1) s') ->
  (forall L' i y s' (F' := <[f := set_fd_ioctx (Some i) a]> F), at_ L' held pend F' F' s' -> d_err s' = d_err s ->
     grows s s' -> d_ioctxs s' !! i = Some y -> opened_for s a user flags i y -> Q 0 s') ->
  druns (ioctx_open f user flags mode) s Q.
Proof.
  intros [Hinv Hg] Hf Hno Hbad Hgood. apply druns_bind. eapply druns_load_aux; [by rewrite Hg|]. rewrite Hno.
  destruct (inv_fid _ _ _ _ _ Hinv f a Hf) as [[x Hp] _].
  destruct (inv_list _ _ _ _ _ Hinv _ x Hp) as [Hh Hd]. pose proof (inv_nodup _ _ _ _ _ Hinv (fd_path a)) as Hnd.
  apply druns_bind. eapply druns_load_path; [exact Hp|]. apply druns_bind, druns_get.
  match goal with |- druns (dbind _ ?k) _ _ => set (rest := k) end. apply druns_bind.
  assert (Hshare : forall i y, i ∈ L (fd_path a) -> d_ioctxs s !! i = Some y -> shareable flags (uid_of_user user) y ->
    bit (fd_flags a) DIOD_FID_FLAGS_SHAREFD = true -> Z.land flags 3 = 0 ->
    druns (rest (Some i)) (set_ioctxs (<[i := set_io_refcount (io_refcount y + 1) y]> (d_ioctxs s)) s) Q).
  { intros i y Hi Hy (Sq & Sf & Su) Hsh Hro. apply druns_bind, druns_ret, druns_bind.
    eapply druns_upd_aux; [cbn; by rewrite Hg|]. apply druns_ret.
    destruct (inv_ioctx _ _ _ _ _ Hinv i y Hy) as (_ & _ & Hpos & _).
    apply (Hgood L i (set_io_refcount (io_refcount y + 1) y)); [|done|by apply grows_refl|cbn; apply lookup_insert_eq|].
    - split; [|cbn; by rewrite Hg]. apply inv_fids. by apply (inv_share L held pend F s f a i y).
    - split; [done|]. split; [done|]. right. rewrite Hy. cbn. split; [done|]. split; [done|]. split; [done|].
      split; [done|]. lia. }
  assert (Hnew : druns (rest None) s Q).
  { apply druns_bind, druns_bind. eapply druns_mono; [by apply (ioctx_create_open_rule user (fd_path a) x)|].
    intros [i|] s1; cbn [created].
    - intros (y & Efr & Ep & Ei & Eh & Ef & Ex & He & Hb & Hrc & Hfd & Hfl & Hus). apply druns_bind.
      assert (Hi : d_ioctxs s !! i = None).
      { destruct (d_ioctxs s !! i) eqn:E; [|done].
        pose proof (proj2 (inv_fresh _ _ _ _ _ Hinv) i (mk_is_Some _ _ E)). lia. }
      assert (HiL : i ∉ L (fd_path a)) by (intros Hin; destruct (dseg_lookup _ _ _ _ i Hd Hin); congruence).
      apply (link_rule (fd_path a) x (L (fd_path a)) i y); [by rewrite Ep|done| |done|rewrite Ei; apply lookup_insert_eq|done|].
      { rewrite Ei. by apply dseg_frame. }
      intros s2 Hre. apply druns_ret. apply druns_bind. pose proof Hre as (m & -> & Bm & _).
      destruct (lookup_bare m (d_ioctxs s1) i y) as (y' & Hy' & By); [done|rewrite Ei; apply lookup_insert_eq|].
      eapply druns_upd_aux; [cbn; by rewrite Ef, Hg|]. apply druns_ret.
      eapply (Hgood _ i y'); [|cbn; exact He| |cbn; exact Hy'|].
      + split; [|cbn; by rewrite Ef, Hg]. apply inv_fids.
        by apply (inv_link L held pend F s s1 _ f a i y x).
      + intros q z Hz. cbn. rewrite Ep. destruct (decide (q = fd_path a)) as [->|Hne].
        * rewrite lookup_insert_eq. rewrite Hp in Hz. injection Hz as <-. by eexists.
        * rewrite lookup_insert_ne by done. by exists z.
      + assert (Efl : io_open_flags y' = io_open_flags y) by (by apply (f_equal io_open_flags) in By).
        assert (Eus : io_user y' = io_user y) by (by apply (f_equal io_user) in By).
        assert (Erc : io_refcount y' = io_refcount y) by (by apply (f_equal io_refcount) in By).
        split; [congruence|]. split; [congruence|]. left. split; [done|]. split; congruence.
    - intros [Hq He]. apply druns_bind, druns_ret, druns_ret, druns_ret. apply Hbad; [|done|by apply grows_quietly].
      by apply (at_quietly _ _ _ _ _ s). }
  destruct (bit _ _ && _) eqn:Esh; [|by apply druns_ret]. rewrite Hh. apply andb_true_iff in Esh as [Esh Ero].
  apply (find_ioctx_rule _ _ _ (L (fd_path a)) None); [done| |by intros _|].
  - pose proof (list_in_heap _ _ _ _ Hd Hnd). lia.
  - intros i y Hi Hy Hs. apply Hshare; [done|done|done|done|lia].
Qed.
End Open.
