(* ===== verification/OpsInv.v ===== *)
(** * The operations keep the invariant (libdiod/diod_ops.c, diod_fid.c, diod_xattr.c)

    Rules for the steps that operations are made of, over the assertion [at_] of
    IoctxInv.v, and one lemma per operation: it returns, keeps the invariant, and
    either builds a reply or sets an error. *)
From S2P Require Import Prelude Cbuf Protocol Npstring Wire Fcall Hash Conf Exports Ioctx DiodFid Ops IoctxInv IoctxOpen.
From stdpp Require Import list gmap.
#[local] Open Scope Z_scope.

Section Steps.
Context `{OsOk}.
Implicit Types (L : path_id -> list ioctx_id) (held : list path_id) (pend : list key) (F G : gmap fid_id Fid).

Definition is_alloc (c : syscall) : bool := match c with S_malloc _ | S_reply _ => true | _ => false end.

Lemma at_call c L held pend F G s (Q : sysres -> dstate -> Prop) : quiet_call c = true -> at_ L held pend F G s ->
  (forall r s', r = (sys (d_os s) c).1 -> at_ L held pend F G s' -> d_err s' = d_err s ->
     (is_alloc c = false -> r_ret r < 0 -> 0 < d_errno s') -> (0 <= r_ret r -> is_alloc c = false -> d_errno s' = d_errno s) ->
     d_os s' = (sys (d_os s) c).2 -> Q r s') ->
  druns (call c) s Q.
Proof.
  intros Hc Hat HQ. apply druns_call; [done|]. intros s' r Hq He Hn Ho. apply HQ; [done|by eapply at_quietly|done| | |done].
  - intros Ha Hr. apply (errno_failed _ _ _ Hn); [done| |]; by destruct c.
  - intros Hr Ha. rewrite Hn. unfold failed. rewrite (proj2 (Z.ltb_ge _ _) Hr). by destruct c.
Qed.

Lemma at_malloced n L held pend F G s (Q : bool -> dstate -> Prop) : at_ L held pend F G s ->
  (forall b s', at_ L held pend F G s' -> d_err s' = d_err s -> (b = false -> n < 2 ^ 32 -> no_memory) -> Q b s') ->
  druns (malloced n) s Q.
Proof. intros Hat HQ. apply druns_malloced. intros b s' Hq He _ Hn. apply HQ; [by eapply at_quietly|done|done]. Qed.

Lemma at_uerror e L held pend F G s (Q : unit -> dstate -> Prop) : at_ L held pend F G s ->
  (forall s', at_ L held pend F G s' -> d_err s' = e -> Q tt s') -> druns (uerror e) s Q.
Proof. intros Hat HQ. apply druns_uerror. intros s' Hq He _. apply HQ; [by eapply at_quietly|done]. Qed.

Lemma at_uerror_errno L held pend F G s (Q : unit -> dstate -> Prop) : at_ L held pend F G s ->
  (forall s', at_ L held pend F G s' -> d_err s' = d_errno s -> Q tt s') -> druns uerror_errno s Q.
Proof. intros Hat HQ. apply druns_uerror_errno. intros s' Hq He _. apply HQ; [by eapply at_quietly|done]. Qed.

Lemma at_mk c L held pend F G s (Q : bool -> dstate -> Prop) : at_ L held pend F G s ->
  (forall b s', at_ L held pend F G s' -> d_err s' = d_err s -> Q b s') -> druns (mk c) s Q.
Proof.
  intros Hat HQ. apply druns_bind. apply (at_call _ L held pend F G); [done|done|].
  intros r s' _ Hat' He _ _ _. by apply druns_ret, HQ.
Qed.

(** A path that a fid or the running function refers to. *)
Definition live F held (p : path_id) : Prop := p ∈ held \/ exists f a, F !! f = Some a /\ fd_path a = p.

Lemma live_path L held pend F G s p : at_ L held pend F G s -> live F held p -> exists x, d_paths s !! p = Some x.
Proof.
  intros [Hi _] [Hh|(f & a & Hf & <-)].
  - by apply (proj1 (Forall_forall _ _) (inv_held _ _ _ _ _ Hi)).
  - by apply (inv_fid _ _ _ _ _ Hi f a).
Qed.

Lemma path_of_fid F held f a : F !! f = Some a -> live F held (fd_path a).
Proof. intros Hf. right. by exists f, a. Qed.

Lemma live_held F held p : p ∈ held -> live F held p.
Proof. by left. Qed.

Lemma at_path_s p L held pend F G s (Q : cstr -> dstate -> Prop) : at_ L held pend F G s -> live F held p ->
  (forall x, d_paths s !! p = Some x -> Q (c_string (pa_s x)) s) -> druns (path_s p) s Q.
Proof. intros Hat Hl HQ. destruct (live_path _ _ _ _ _ _ _ Hat Hl) as [x Hx]. eapply druns_path_s; [done|by apply HQ]. Qed.

Lemma at_errn p L held pend F G s (Q : unit -> dstate -> Prop) : at_ L held pend F G s -> live F held p -> Q tt s ->
  druns (errn p) s Q.
Proof.
  intros Hat Hl HQ. destruct (live_path _ _ _ _ _ _ _ Hat Hl) as [x Hx]. apply druns_bind.
  eapply druns_load_path; [done|]. by apply druns_ret.
Qed.

Lemma at_load_aux f a L held pend F G s (Q : Fid -> dstate -> Prop) : at_ L held pend F G s -> G !! f = Some a ->
  Q a s -> druns (load_aux f) s Q.
Proof. intros [_ Hg] Hf HQ. eapply druns_load_aux; [by rewrite Hg|done]. Qed.

(** The open file of a fid. *)
Lemma at_load_ioctx f a i L held pend F G s (Q : ioctx -> dstate -> Prop) : at_ L held pend F G s -> F !! f = Some a ->
  fd_ioctx a = Some i -> (forall y, d_ioctxs s !! i = Some y -> Q y s) -> druns (load_ioctx i) s Q.
Proof.
  intros [Hi _] Hf Hio HQ. destruct (inv_fid _ _ _ _ _ Hi f a Hf) as [[x Hx] HL]. specialize (HL i Hio).
  destruct (inv_list _ _ _ _ _ Hi _ x Hx) as [_ Hd]. destruct (dseg_lookup _ _ _ _ i Hd HL) as [y Hy].
  eapply druns_load_ioctx; [done|by apply HQ].
Qed.

(** ** Changes of fids *)

(** Flags and attributes of a fid are its own. *)
Lemma inv_upd_fid L held pend F s f a a' : inv L held pend F s -> F !! f = Some a ->
  fd_path a' = fd_path a -> fd_ioctx a' = fd_ioctx a -> inv L held pend (<[f := a']> F) s.
Proof.
  intros Hinv Hf Ep Ei.
  assert (Hc : forall P, P a' = P a -> count_if P (<[f := a']> F) = count_if P F).
  { intros P HP. rewrite (count_if_update P F f a) by done. rewrite HP. lia. }
  destruct Hinv as [Vlist Vnil Vonce Vnodup Vioctx Vpath Vfid Vheld Vhash Vfind Vstr Vfresh Vbal]. split; try done.
  - intros i x Hx. rewrite Hc by (unfold on_ioctx; by rewrite Ei). by apply Vioctx.
  - intros p x Hx. rewrite Hc by (unfold on_path; by rewrite Ep). by apply Vpath.
  - intros f' b. destruct (decide (f' = f)) as [->|Hne]; [|rewrite lookup_insert_ne by done; apply Vfid].
    rewrite lookup_insert_eq. intros [= <-]. rewrite Ep, Ei. by apply (Vfid f).
Qed.

Lemma at_upd_aux f a g L held pend F s (Q : unit -> dstate -> Prop) : at_ L held pend F F s -> F !! f = Some a ->
  fd_path (g a) = fd_path a -> fd_ioctx (g a) = fd_ioctx a ->
  (forall s' (F' := <[f := g a]> F), at_ L held pend F' F' s' -> d_err s' = d_err s -> d_errno s' = d_errno s ->
    Q tt s') -> druns (upd_aux f g) s Q.
Proof.
  intros [Hi Hg] Hf Ep Eio HQ. eapply druns_upd_aux; [by rewrite Hg|]. apply HQ; [|done|done].
  split; [|cbn; by rewrite Hg]. apply inv_fids. by apply (inv_upd_fid L held pend F s f a).
Qed.

(** A closed fid takes over a reference to a path, and gives up its own. *)
Lemma inv_swap L held pend F s f a q : inv L (q :: held) pend F s -> F !! f = Some a -> fd_ioctx a = None ->
  inv L (fd_path a :: held) pend (<[f := set_fd_path q a]> F) s.
Proof.
  intros Hinv Hf Hio. pose proof (inv_held _ _ _ _ _ Hinv) as Hh. apply Forall_cons_1 in Hh as [Hq Hh].
  destruct Hinv as [Vlist Vnil Vonce Vnodup Vioctx Vpath Vfid Vheld Vhash Vfind Vstr Vfresh Vbal]. split; try done.
  - intros i x Hx. rewrite (count_if_update _ F f a) by done. unfold on_ioctx at 2 3. cbn.
    destruct (Vioctx i x Hx) as (? & ? & ? & ?). split; [done|]. split; [lia|done].
  - intros p x Hx. rewrite (count_if_update _ F f a) by done. destruct (Vpath p x Hx) as [Hr Hpos]. split; [|done].
    cbn in *. unfold on_path at 2 3. cbn.
    destruct (bool_decide (q = p)), (bool_decide (fd_path a = p)); cbn in *; lia.
  - intros f' b. destruct (decide (f' = f)) as [->|Hne]; [|rewrite lookup_insert_ne by done; apply Vfid].
    rewrite lookup_insert_eq. intros [= <-]. cbn. rewrite Hio. done.
  - constructor; [by apply (Vfid f a)|done].
Qed.

(** A new fid takes over a reference. *)
Lemma inv_new_fid L held pend F s f a : inv L (fd_path a :: held) pend F s -> F !! f = None -> fd_ioctx a = None ->
  inv L held pend (<[f := a]> F) s.
Proof.
  intros Hinv Hf Hio. pose proof (inv_held _ _ _ _ _ Hinv) as Hh. apply Forall_cons_1 in Hh as [Hq Hh].
  destruct Hinv as [Vlist Vnil Vonce Vnodup Vioctx Vpath Vfid Vheld Vhash Vfind Vstr Vfresh Vbal]. split; try done.
  - intros i x Hx. rewrite count_if_insert by done. unfold on_ioctx at 1. rewrite Hio, bool_decide_false by done.
    apply (Vioctx i x Hx).
  - intros p x Hx. rewrite count_if_insert by done. destruct (Vpath p x Hx) as [Hr Hpos]. cbn in Hr. unfold on_path at 1.
    split; [lia|done].
  - intros f' b. destruct (decide (f' = f)) as [->|Hne]; [|rewrite lookup_insert_ne by done; apply Vfid].
    rewrite lookup_insert_eq. intros [= <-]. by rewrite Hio.
Qed.

(** A closed fid that is deleted leaves its reference behind. *)
Lemma inv_drop_fid L held pend F s f a : inv L held pend F s -> F !! f = Some a -> fd_ioctx a = None ->
  inv L (fd_path a :: held) pend (delete f F) s.
Proof.
  intros Hinv Hf Hio. destruct (inv_fid _ _ _ _ _ Hinv f a Hf) as [Hq _].
  destruct Hinv as [Vlist Vnil Vonce Vnodup Vioctx Vpath Vfid Vheld Vhash Vfind Vstr Vfresh Vbal]. split; try done.
  - intros i x Hx. rewrite (count_if_delete _ F f a) by done. unfold on_ioctx at 2. rewrite Hio, bool_decide_false by done.
    destruct (Vioctx i x Hx) as (? & ? & ? & ?). split; [done|]. cbn. split; [lia|done].
  - intros p x Hx. rewrite (count_if_delete _ F f a) by done. destruct (Vpath p x Hx) as [Hr Hpos]. cbn. unfold on_path at 2.
    split; [lia|done].
  - intros f' b [Hne Hf']%lookup_delete_Some. by apply (Vfid f' b).
  - by constructor.
Qed.

(** *** The ends of operations *)

(** The invariant between operations, and the contract of their result. *)
Definition finish {A} F (won : A -> bool) (o : A) (s : dstate) : Prop :=
  (exists L, at_ L [] [] F F s) /\ if won o then d_err s = 0 else 0 < d_err s.

Definition replied (o : option reply) : bool := match o with Some _ => true | None => false end.

Lemma quiet_end L F s : at_ L [] [] F F s -> 0 < d_err s -> druns quiet s (finish F replied).
Proof. intros Hat He. apply druns_ret. split; [by exists L|done]. Qed.

Lemma error_end p L F s : at_ L [] [] F F s -> 0 < d_err s -> live F [] p -> druns (error p) s (finish F replied).
Proof. intros Hat He Hl. apply druns_bind, (at_errn p L [] [] F F); [done|done|]. by apply (quiet_end L). Qed.

Lemma fail_quiet_end L F s : at_ L [] [] F F s -> 0 < d_errno s -> druns fail_quiet s (finish F replied).
Proof.
  intros Hat He. apply druns_bind, (at_uerror_errno L [] [] F F); [done|]. intros s' Hat' He'.
  apply (quiet_end L); [done|by rewrite He'].
Qed.

Lemma fail_with_end e p L F s : at_ L [] [] F F s -> 0 < e -> live F [] p -> druns (fail_with e p) s (finish F replied).
Proof.
  intros Hat He Hl. apply druns_bind, (at_uerror e L [] [] F F); [done|]. intros s' Hat' He'.
  apply (error_end p L); [done|by rewrite He'|done].
Qed.

Lemma answer_end c p L F s : at_ L [] [] F F s -> d_err s = 0 -> live F [] p -> druns (answer c p) s (finish F replied).
Proof.
  intros Hat He Hl. apply druns_bind, (at_mk c L [] [] F F); [done|]. intros b s' Hat' He'. destruct b.
  - apply druns_ret. split; [by exists L|cbn; congruence].
  - by apply (fail_with_end ENOMEM p L).
Qed.
End Steps.

(** ** Functions on fids *)
Section Fids.
Context `{OsOk}.
Implicit Types (L : path_id -> list ioctx_id) (held : list path_id) (pend : list key) (F G : gmap fid_id Fid).

(** A name fits behind the path. *)
Definition room (s : dstate) (p : path_id) (ns : list Z) : Prop :=
  forall x, d_paths s !! p = Some x -> pa_len x + 1 + zlength ns < 2 ^ 31 - 1.

Lemma at_path_append p ns L held pend F G s (Q : option path_id -> dstate -> Prop) :
  at_ L held pend F G s -> live F held p -> bytes_ok ns -> room s p ns ->
  (forall s', at_ L held pend F G s' -> d_err s' = d_err s -> no_memory -> Q None s') ->
  (forall q s', at_ L (q :: held) pend F G s' -> d_err s' = d_err s -> grows s s' -> Q (Some q) s') ->
  druns (path_append p ns) s Q.
Proof.
  intros Hat Hl Hb Hr Hn Hs. destruct (live_path _ _ _ _ _ _ _ Hat Hl) as [x Hx].
  eapply druns_mono; [apply (path_append_rule L held pend F G s p x); [done..|by apply Hr]|].
  intros [q|] s' (He & _ & Hg & Ho1 & Ho2); auto.
Qed.

Lemma at_path_decref p L held pend F G s (Q : unit -> dstate -> Prop) : at_ L (p :: held) pend F G s ->
  (forall s', at_ L held pend F G s' -> d_err s' = d_err s -> d_errno s' = d_errno s \/ True -> Q tt s') ->
  druns (path_decref p) s Q.
Proof. intros Hat HQ. eapply path_decref_rule; [done|]. intros s' Hat' He _ _. apply HQ; [done|done|by right]. Qed.

(** *** Extended attributes *)

Definition xattr_wf (x : xattr) : Prop := 0 <= xa_len x < 2 ^ 63 /\
  match xa_buf x with Some b => xa_len x <= zlength b | None => xa_len x = 0 end.

Definition fid_wf (a : Fid) : Prop := forall x, fd_xattr a = Some x -> xattr_wf x.
Definition fids_wf F : Prop := forall f a, F !! f = Some a -> fid_wf a.

Lemma fids_wf_upd F f a : fids_wf F -> fid_wf a -> fids_wf (<[f := a]> F).
Proof.
  intros Hw Ha f' b. destruct (decide (f' = f)) as [->|Hne]; [rewrite lookup_insert_eq; by intros [= <-]|].
  rewrite lookup_insert_ne by done. apply Hw.
Qed.

Lemma fids_wf_del F f : fids_wf F -> fids_wf (delete f F).
Proof. intros Hw f' b [_ Hf]%lookup_delete_Some. by apply (Hw f'). Qed.

Lemma at_xattr_alloc name size flags setflags L held pend F G s (Q : option xattr -> dstate -> Prop) :
  at_ L held pend F G s -> 0 <= size ->
  (forall s', at_ L held pend F G s' -> 0 < d_err s' -> (zlength name < 2 ^ 16 -> size = 0 -> no_memory) -> Q None s') ->
  (forall x s', at_ L held pend F G s' -> d_err s' = d_err s -> xattr_wf x -> (size = 0 -> xa_buf x = None) -> Q (Some x) s') ->
  druns (xattr_alloc name size flags setflags) s Q.
Proof.
  intros Hat Hsz Hn Hs. cbv zeta.
  assert (Hnomem : forall s', at_ L held pend F G s' -> (zlength name < 2 ^ 16 -> size = 0 -> no_memory) -> druns (do _ <- uerror ENOMEM; dret None) s' Q).
  { intros s' Hat' Hm. apply druns_bind, (at_uerror _ L held pend F G); [done|]. intros s2 Hat2 He2.
    apply druns_ret, Hn; [done|by rewrite He2|done]. }
  apply druns_bind, (at_malloced _ L held pend F G); [done|]. intros b s1 Hat1 He1 Hm1.
  destruct b; cbn [negb]; [|apply Hnomem; [done|]; intros; by apply Hm1].
  apply druns_bind.
  assert (Hnm : druns (if 0 <? zlength name then malloced (zlength name + 1) else dret true) s1
    (fun b s2 => at_ L held pend F G s2 /\ d_err s2 = d_err s /\ (b = false -> zlength name < 2 ^ 16 -> no_memory))).
  { destruct (0 <? zlength name); [|by apply druns_ret]. apply (at_malloced _ L held pend F G); [done|].
    intros b s2 Hat2 He2 Hm2. split; [done|]. split; [congruence|]. intros Hb Hz. apply Hm2; [done|]. lia. }
  eapply druns_mono; [exact Hnm|]. intros b s2 (Hat2 & He2 & Hm2). destruct b; cbn [negb]; [|apply Hnomem; [done|]; intros; by apply Hm2].
  destruct (Z.ltb_spec 0 size) as [Hp|Hz].
  - apply druns_bind, (at_call _ L held pend F G); [done|done|]. intros r s3 Er Hat3 He3 _ _ _.
    destruct (Z.eqb_spec (r_ret r) 0) as [E0|E0]; [apply Hnomem; [done|]; lia|].
    apply druns_ret, Hs; [done|congruence| |lia].
    destruct (sys_malloc (d_os s2) size Hsz) as [Hl Hlt]; [by rewrite <- Er|]. rewrite <- Er in Hl.
    split; cbn; unfold int64; rewrite Z.mod_small by lia; lia.
  - apply druns_ret, Hs; [done|congruence|done|done].
Qed.

Lemma at_xattr_create f a name size setflags L held pend F s (Q : Z -> dstate -> Prop) :
  at_ L held pend F F s -> F !! f = Some a -> fd_xattr a = None -> 0 <= size ->
  (forall s', at_ L held pend F F s' -> 0 < d_err s' -> Q (-1) s') ->
  (forall x s' (F' := <[f := set_fd_xattr (Some x) a]> F), at_ L held pend F' F' s' -> d_err s' = d_err s -> xattr_wf x ->
     Q 0 s') ->
  druns (xattr_create f name size setflags) s Q.
Proof.
  intros Hat Hf Hx Hsz Hn Hs. apply druns_bind, (at_load_aux f a L held pend F F); [done|done|].
  apply druns_bind. eapply druns_lift; [by rewrite Hx|]. apply druns_bind, (at_xattr_alloc _ _ _ _ L held pend F F); [done|done| |].
  - intros s1 Hat1 He1 _. apply druns_bind, (at_upd_aux f a _ L held pend F); [done|done|done|done|].
    intros s2 F' Hat2 He2 _. apply druns_ret, Hn; [|lia]. unfold F' in Hat2. rewrite insert_id in Hat2; [done|].
    rewrite Hf. f_equal. destruct a. cbn in *. by rewrite Hx.
  - intros x s1 Hat1 He1 Hw _. apply druns_bind, (at_upd_aux f a _ L held pend F); [done|done|done|done|].
    intros s2 F' Hat2 He2 _. apply druns_ret, (Hs x); [done|congruence|done].
Qed.

Lemma at_xattr_close f a L held pend F s (Q : Z -> dstate -> Prop) : at_ L held pend F F s -> F !! f = Some a ->
  fid_wf a ->
  (forall rc s' (F' := <[f := set_fd_xattr None a]> F), at_ L held pend F' F' s' ->
     (if rc <? 0 then 0 < d_err s' else d_err s' = d_err s) -> Q rc s') ->
  druns (xattr_close f) s Q.
Proof.
  intros Hat Hf Hw HQ. apply druns_bind, (at_load_aux f a L held pend F F); [done|done|].
  destruct (fd_xattr a) as [x|] eqn:Hx.
  2:{ apply druns_ret, HQ; [|done]. rewrite insert_id; [done|]. rewrite Hf. f_equal. destruct a. cbn in *. by rewrite Hx. }
  destruct (Hw x Hx) as [[Hl0 Hl] Hb]. apply druns_bind.
  assert (Hend : forall rc s', at_ L held pend F F s' -> (if rc <? 0 then 0 < d_err s' else d_err s' = d_err s) ->
    druns (do _ <- upd_aux f (set_fd_xattr None); dret rc) s' Q).
  { intros rc s' Hat' He'. apply druns_bind, (at_upd_aux f a _ L held pend F); [done|done|done|done|].
    intros s2 F' Hat2 He2 _. apply druns_ret, HQ; [done|by rewrite He2]. }
  assert (Hcall : forall c s', quiet_call c = true -> is_alloc c = false -> at_ L held pend F F s' -> d_err s' = d_err s ->
    druns (do r <- call c; if r_ret r <? 0 then do _ <- uerror_errno; dret (-1) else dret 0) s'
      (fun rc s2 => at_ L held pend F F s2 /\ if rc <? 0 then 0 < d_err s2 else d_err s2 = d_err s)).
  { intros c s' Hc Ha Hat' He'. apply druns_bind, (at_call _ L held pend F F); [done|done|]. intros r s2 _ Hat2 He2 Hn2 _ _.
    destruct (Z.ltb_spec (r_ret r) 0) as [Hr|Hr].
    - apply druns_bind, (at_uerror_errno L held pend F F); [done|]. intros s3 Hat3 He3. apply druns_ret.
      split; [done|]. cbn. rewrite He3. by apply Hn2.
    - apply druns_ret. split; [done|]. cbn. congruence. }
  eapply (druns_mono _ _ (fun rc s2 => at_ L held pend F F s2 /\ if rc <? 0 then 0 < d_err s2 else d_err s2 = d_err s)).
  2:{ intros rc s' [Hat' He']. by apply Hend. }
  destruct (bit _ _); [|by apply druns_ret]. apply druns_bind, (at_path_s _ L held pend F F); [done|by eapply path_of_fid|].
  intros y _. cbv zeta. destruct (Z.ltb_spec 0 (xa_len x)) as [Hp|Hz].
  - destruct (xa_buf x) as [buf|] eqn:Eb; [|lia]. apply druns_bind. eapply druns_lift; [unfold load_buf; apply load_bytes_ok; lia|].
    by apply Hcall.
  - destruct (Z.eqb_spec (xa_len x) 0); [by apply Hcall|by apply druns_ret].
Qed.

(** *** Fids *)

Lemma at_has_aux f L held pend F G s (Q : bool -> dstate -> Prop) : at_ L held pend F G s ->
  Q (bool_decide (is_Some (G !! f))) s -> druns (has_aux f) s Q.
Proof. intros [_ <-] HQ. apply druns_bind, druns_get. by apply druns_ret. Qed.

Lemma at_fidalloc f ns L F s (Q : bool -> dstate -> Prop) : at_ L [] [] F F s -> F !! f = None -> bytes_ok ns ->
  zlength ns < 2 ^ 31 ->
  (forall s', at_ L [] [] F F s' -> d_err s' = d_err s -> Q false s') ->
  (forall a s' (F' := <[f := a]> F), at_ L [] [] F' F' s' -> d_err s' = d_err s -> fd_ioctx a = None ->
     fd_xattr a = None -> Q true s') ->
  druns (diod_fidalloc f ns) s Q.
Proof.
  intros Hat Hf Hb Hz Hn Hs. apply druns_bind, (at_malloced _ L [] [] F F); [done|]. intros b s1 Hat1 He1 _.
  apply druns_bind, (at_has_aux f L [] [] F F); [done|]. rewrite Hf. apply druns_bind.
  eapply druns_lift; [by rewrite bool_decide_false by (by intros [? ?])|].
  destruct b; cbn [negb]; [|by apply druns_ret, Hn]. apply druns_bind.
  eapply druns_mono; [by apply (path_create_rule L [] [] F F)|]. intros [p|] s2 (He2 & _ & _ & Ho).
  - destruct Ho as [[Hi Hg] _]. apply druns_bind, druns_modify, druns_ret.
    set (a := {| fd_path := p |}). apply (Hs a); [|cbn; congruence|done|done]. split; [|cbn; by rewrite Hg].
    apply inv_fids. by apply (inv_new_fid L [] [] F s2 f a).
  - destruct Ho as [Ho _]. apply druns_ret, Hn; [done|congruence].
Qed.

Lemma at_fidclone nf f a L F s (Q : bool -> dstate -> Prop) : at_ L [] [] F F s -> F !! f = Some a -> F !! nf = None ->
  (forall s', at_ L [] [] F F s' -> d_err s' = d_err s -> Q false s') ->
  (forall s' (b := {| fd_path := fd_path a; fd_ioctx := None; fd_xattr := None; fd_flags := fd_flags a |})
     (F' := <[nf := b]> F), at_ L [] [] F' F' s' -> d_err s' = d_err s -> Q true s') ->
  druns (diod_fidclone nf f) s Q.
Proof.
  intros Hat Hf Hnf Hn Hs. apply druns_bind, (at_malloced _ L [] [] F F); [done|]. intros b s1 Hat1 He1 _.
  apply druns_bind, (at_has_aux nf L [] [] F F); [done|]. rewrite Hnf. apply druns_bind.
  eapply druns_lift; [by rewrite bool_decide_false by (by intros [? ?])|].
  destruct b; cbn [negb]; [|by apply druns_ret, Hn]. apply druns_bind, (at_load_aux f a L [] [] F F); [done|done|].
  destruct (live_path L [] [] F F s1 (fd_path a) Hat1) as [x Hx]; [by eapply path_of_fid|].
  apply druns_bind, (path_incref_rule L [] [] F F s1 (fd_path a) x); [done|done|].
  intros s2 [Hi Hg] He2 _ _. apply druns_bind, druns_modify, druns_ret, Hs; [|cbn; congruence].
  split; [|cbn; by rewrite Hg]. apply inv_fids. by apply (inv_new_fid L [] [] F s2 nf).
Qed.

Lemma at_fiddestroy f L F s (Q : unit -> dstate -> Prop) : at_ L [] [] F F s -> fids_wf F ->
  (forall L' s', at_ L' [] [] (delete f F) (delete f F) s' -> (0 < d_err s -> 0 < d_err s') ->
     (forall a, F !! f = Some a -> fd_xattr a = None -> d_err s' = d_err s) -> Q tt s') ->
  druns (diod_fiddestroy f) s Q.
Proof.
  intros Hat Hw HQ. apply druns_bind, druns_get. rewrite (proj2 Hat). destruct (F !! f) as [a|] eqn:Hf.
  2:{ apply druns_ret, (HQ L); [by rewrite delete_id|done|done]. }
  (** the fid without its open file *)
  assert (Hrest : forall L1 a1 (F1 := <[f := a1]> F) s1, at_ L1 [] [] F1 F1 s1 -> fd_ioctx a1 = None ->
    d_err s1 = d_err s -> fd_xattr a1 = fd_xattr a ->
    druns (do _ <- (match fd_xattr a with Some _ => do _ <- xattr_close f; dret tt | None => dret tt end);
           do x <- load_aux f; do _ <- path_decref (fd_path x); free_aux f) s1 Q).
  { intros L1 a1 F1 s1 Hat1 Hio He1 Hxa. apply druns_bind.
    assert (Hl1 : F1 !! f = Some a1) by apply lookup_insert_eq.
    assert (Hx : druns (match fd_xattr a with Some _ => do _ <- xattr_close f; dret tt | None => dret tt end) s1
      (fun _ s2 => exists a2 (F2 := <[f := a2]> F), at_ L1 [] [] F2 F2 s2 /\ fd_ioctx a2 = None /\
         (0 < d_err s -> 0 < d_err s2) /\ (fd_xattr a = None -> d_err s2 = d_err s))).
    { destruct (fd_xattr a) as [x|] eqn:Ex.
      - apply druns_bind, (at_xattr_close f a1 L1 [] [] F1); [done|done| |].
        { intros x' Hx'. apply (Hw f a Hf). congruence. }
        intros rc s2 F2 Hat2 He2. apply druns_ret. exists (set_fd_xattr None a1). unfold F2, F1 in Hat2.
        rewrite insert_insert_eq in Hat2. split; [done|]. split; [done|]. split; [|done].
        destruct (rc <? 0); lia.
      - apply druns_ret. exists a1. split; [done|]. split; [done|]. split; [lia|done]. }
    eapply druns_mono; [exact Hx|]. intros _ s2 (a2 & Hat2 & Hio2 & He2 & He2').
    apply druns_bind. apply (at_load_aux f a2 L1 [] [] (<[f := a2]> F) (<[f := a2]> F)); [done|apply lookup_insert_eq|].
    destruct Hat2 as [Hi2 Hg2]. apply (inv_drop_fid L1 [] [] _ s2 f a2) in Hi2; [|apply lookup_insert_eq|done].
    rewrite delete_insert_eq in Hi2.
    apply druns_bind, (at_path_decref (fd_path a2) L1 [] [] (delete f F) (<[f := a2]> F)); [done|].
    intros s3 [Hi3 Hg3] He3 _. apply druns_modify, (HQ L1); [|cbn; rewrite He3; done|].
    - split; [by apply inv_fids|]. cbn. by rewrite Hg3, delete_insert_eq.
    - intros b [= <-] Hb. cbn. rewrite He3. by apply He2'. }
  destruct (fd_ioctx a) as [i|] eqn:Hio.
  - apply druns_bind, druns_bind, (ioctx_close_rule L [] [] F s f a i); [done|done|done|].
    intros L1 rc s1 F1 Hat1 _ He1. apply druns_ret. rewrite andb_false_r in He1.
    by apply (Hrest L1 (set_fd_ioctx None a)).
  - apply druns_bind, druns_ret. apply (Hrest L a); [|done|done|done]. by rewrite insert_id.
Qed.
End Fids.

(** ** Operations *)

Create HintDb dlive.
#[export] Hint Resolve path_of_fid : dlive.
#[export] Hint Extern 1 (live _ (?p :: _) ?p) => left; constructor : dlive.
#[export] Hint Extern 2 (live _ (_ :: ?p :: _) ?p) => left; do 2 constructor : dlive.

(** One step of an operation: run the first function of a sequence, or end. *)
Ltac dlive := solve [eauto with dlive].
Ltac dstep :=
  match goal with
  | |- druns (dbind (call _) _) _ _ =>
      apply druns_bind; eapply at_call; [reflexivity|eassumption|]; intros ? ? _ ? ? ? _ _
  | |- druns (dbind (path_s _) _) _ _ => apply druns_bind; eapply at_path_s; [eassumption|dlive|]; intros ? _
  | |- druns (dbind (errn _) _) _ _ => apply druns_bind; eapply at_errn; [eassumption|dlive|]
  | |- druns (dbind (load_aux _) _) _ _ => apply druns_bind; eapply at_load_aux; [eassumption|eassumption|]
  | |- druns (dbind (malloced _) _) _ _ => apply druns_bind; eapply at_malloced; [eassumption|]; intros [] ? ? ? ?
  | |- druns (dbind (mk _) _) _ _ => apply druns_bind; eapply at_mk; [eassumption|]; intros [] ? ? ?
  | |- druns (dbind (uerror _) _) _ _ => apply druns_bind; eapply at_uerror; [eassumption|]; intros ? ? ?
  | |- druns (dbind uerror_errno _) _ _ => apply druns_bind; eapply at_uerror_errno; [eassumption|]; intros ? ? ?
  | |- druns (dbind (path_decref _) _) _ _ => apply druns_bind; eapply at_path_decref; [eassumption|]; intros ? ? ? _
  | |- druns (dbind (dret _) _) _ _ => apply druns_bind, druns_ret
  | |- druns (dbind (dbind _ _) _) _ _ => apply druns_bind
  | |- druns (dbind (if ?b then _ else _) _) _ _ => destruct b eqn:?
  | |- druns (if r_ret ?x <? 0 then _ else _) _ _ => destruct (Z.ltb_spec (r_ret x) 0)
  | |- druns (if ?x <? 0 then _ else _) _ _ => destruct (Z.ltb_spec x 0)
  | |- druns (if ?b then _ else _) _ _ => destruct b eqn:?
  | |- druns (match (if r_ret ?x <? 0 then _ else _) with Some _ => _ | None => _ end) _ _ =>
      destruct (Z.ltb_spec (r_ret x) 0)
  | |- druns fail_quiet _ _ => eapply fail_quiet_end; [eassumption|]
  | |- druns (fail_with _ _) _ _ => eapply fail_with_end; [eassumption|done|dlive]
  | |- druns (error _) _ _ => eapply error_end; [eassumption| |dlive]
  | |- druns quiet _ _ => eapply quiet_end; [eassumption|]
  | |- druns (answer _ _) _ _ => eapply answer_end; [eassumption|congruence|dlive]
  | |- druns (dret _) _ _ => apply druns_ret
  end; cbn beta iota zeta; cbn [negb andb orb].
(** An error was set, or none. *)
Ltac derr :=
  repeat match goal with
  | E : d_err ?s = _ |- 0 < d_err ?s => rewrite E
  end; solve [done | auto | congruence | lia].
Ltac dgo := cbv zeta; repeat dstep; try (solve [auto | congruence | lia | derr]).

Section Ops.
Context `{CHeap} `{OsOk}.
Context (conf : Conf) (iterator : bool).
Implicit Types (L : path_id -> list ioctx_id) (F : gmap fid_id Fid).

Lemma remove_rule f a L F s : at_ L [] [] F F s -> F !! f = Some a -> d_err s = 0 ->
  druns (diod_remove f) s (finish F replied).
Proof. intros Hat Hf He. unfold diod_remove. dgo. Qed.

Lemma statfs_rule f a L F s : at_ L [] [] F F s -> F !! f = Some a -> d_err s = 0 ->
  druns (diod_statfs conf f) s (finish F replied).
Proof. intros Hat Hf He. unfold diod_statfs. dgo. Qed.

Lemma readlink_rule f a L F s : at_ L [] [] F F s -> F !! f = Some a -> d_err s = 0 ->
  druns (diod_readlink f) s (finish F replied).
Proof. intros Hat Hf He. unfold diod_readlink. dgo. Qed.

(** Operations on the open file or on the path. *)
Lemma fid_call_rule (c : cstr -> syscall) (d : ioctx -> syscall) f a L F s (Q : sysres -> dstate -> Prop) :
  at_ L [] [] F F s -> F !! f = Some a -> (forall p, quiet_call (c p) = true /\ is_alloc (c p) = false) ->
  (forall y, quiet_call (d y) = true /\ is_alloc (d y) = false) ->
  (forall r s', at_ L [] [] F F s' -> d_err s' = d_err s -> (r_ret r < 0 -> 0 < d_errno s') -> Q r s') ->
  druns (match fd_ioctx a with
         | Some i => do x <- load_ioctx i; call (d x)
         | None => do p <- path_s (fd_path a); call (c p)
         end) s Q.
Proof.
  intros Hat Hf Hc Hd HQ. destruct (fd_ioctx a) as [i|] eqn:Hio.
  - apply druns_bind, (at_load_ioctx f a i L [] [] F F); [done..|]. intros y _.
    apply (at_call _ L [] [] F F); [by apply Hd|done|]. intros r s' _ Hat' He Hn _ _. apply HQ; [done|done|]. apply Hn, Hd.
  - apply druns_bind, (at_path_s _ L [] [] F F); [done|dlive|]. intros y _.
    apply (at_call _ L [] [] F F); [by apply Hc|done|]. intros r s' _ Hat' He Hn _ _. apply HQ; [done|done|]. apply Hn, Hc.
Qed.

(** The same for functions that return the result only. *)
Lemma fid_ret_rule (c : cstr -> syscall) (d : ioctx -> syscall) f a L F s (Q : Z -> dstate -> Prop) :
  at_ L [] [] F F s -> F !! f = Some a -> (forall p, quiet_call (c p) = true /\ is_alloc (c p) = false) ->
  (forall y, quiet_call (d y) = true /\ is_alloc (d y) = false) ->
  (forall r s', at_ L [] [] F F s' -> d_err s' = d_err s -> (r < 0 -> 0 < d_errno s') -> Q r s') ->
  druns (match fd_ioctx a with
         | Some i => do x <- load_ioctx i; do r <- call (d x); dret (r_ret r)
         | None => do p <- path_s (fd_path a); do r <- call (c p); dret (r_ret r)
         end) s Q.
Proof.
  intros Hat Hf Hc Hd HQ. pose proof (fid_call_rule c d f a L F s (fun r s' => Q (r_ret r) s') Hat Hf Hc Hd) as Hr.
  specialize (Hr ltac:(intros r s' Hat' He Hn; by apply HQ)). destruct (fd_ioctx a) as [i|].
  - destruct Hr as (r & s' & E & Hq). exists (r_ret r), s'. split; [|done]. unfold dbind in *.
    destruct (load_ioctx i s) as [[y s1]| |]; cbn [res_bind] in *; [|done|done]. by rewrite E.
  - destruct Hr as (r & s' & E & Hq). exists (r_ret r), s'. split; [|done]. unfold dbind in *.
    destruct (path_s (fd_path a) s) as [[y s1]| |]; cbn [res_bind] in *; [|done|done]. by rewrite E.
Qed.

Definition mountpt (a : Fid) : bool := bit (fd_flags a) DIOD_FID_FLAGS_MOUNTPT.

Lemma getattr_rule fuel f a mask L F s : at_ L [] [] F F s -> F !! f = Some a -> d_err s = 0 -> mountpt a = false ->
  druns (diod_getattr fuel f mask) s (finish F replied).
Proof.
  intros Hat Hf He Hm. unfold diod_getattr. dstep. unfold mountpt in Hm. rewrite Hm. apply druns_bind, druns_bind.
  apply (fid_call_rule S_lstat (fun x => S_fstat (io_fd x)) f a L F); [done..|]. intros r s1 Hat1 He1 Hn1. dgo.
Qed.

Lemma when_rule b c L F s (Q : Z -> dstate -> Prop) : at_ L [] [] F F s ->
  (forall s', at_ L [] [] F F s' -> d_err s' = d_err s -> Q 0 s') -> (b = true -> druns c s Q) -> druns (when b c) s Q.
Proof. intros Hat Hz Hc. destruct b; cbn; [by apply Hc|]. by apply druns_ret, Hz. Qed.

Lemma setattr_rule f a valid mode uid gid size atime mtime L F s : at_ L [] [] F F s -> F !! f = Some a -> d_err s = 0 ->
  druns (diod_setattr f valid mode uid gid size atime mtime) s (finish F replied).
Proof.
  intros Hat Hf He. unfold diod_setattr. dstep. cbv zeta.
  assert (Hw : forall b (c : cstr -> syscall) (d : ioctx -> syscall) (k : DM (option reply)) s1, at_ L [] [] F F s1 -> d_err s1 = 0 ->
    (forall p, quiet_call (c p) = true /\ is_alloc (c p) = false) -> (forall y, quiet_call (d y) = true /\ is_alloc (d y) = false) ->
    (forall s2, at_ L [] [] F F s2 -> d_err s2 = 0 -> druns k s2 (finish F replied)) ->
    druns (do rc <- when b (match fd_ioctx a with
         | Some i => do x <- load_ioctx i; do r <- call (d x); dret (r_ret r)
         | None => do p <- path_s (fd_path a); do r <- call (c p); dret (r_ret r)
         end); if rc <? 0 then fail_quiet else k) s1 (finish F replied)).
  { intros b c d k s1 Hat1 He1 Hc Hd Hk. apply druns_bind, (when_rule b _ L F); [done| |].
    - intros s2 Hat2 He2. apply Hk; [done|congruence].
    - intros _. apply (fid_ret_rule c d f a L F); [done..|]. intros rc s2 Hat2 He2 Hn2.
      destruct (Z.ltb_spec rc 0); [apply (fail_quiet_end L); auto|]. apply Hk; [done|congruence]. }
  apply (Hw _ (fun s => S_chmod s mode) (fun x => S_fchmod (io_fd x) mode)); [done..|]. intros s1 Hat1 He1.
  match goal with |- druns (dbind (when _ (lchown_fid a ?u ?g)) _) _ _ =>
    apply (Hw _ (fun s => S_lchown s u g) (fun x => S_fchown (io_fd x) u g)) end; [done..|]. intros s2 Hat2 He2.
  apply (Hw _ (fun s => S_truncate s (int64 size)) (fun x => S_ftruncate (io_fd x) (int64 size))); [done..|]. intros s3 Hat3 He3.
  match goal with |- druns (dbind (when _ (utimensat_fid a ?u ?g)) _) _ _ =>
    apply (Hw _ (fun s => S_utimensat s u g) (fun x => S_futimens (io_fd x) u g)) end; [done..|]. intros s4 Hat4 He4.
  apply (Hw _ (fun s => S_lchown s (u32 (-1)) (u32 (-1))) (fun x => S_fchown (io_fd x) (u32 (-1)) (u32 (-1)))); [done..|].
  intros s5 Hat5 He5. dgo.
Qed.

(** *** Operations on open files *)

Lemma if_open_rule f a k L F s : at_ L [] [] F F s -> F !! f = Some a ->
  (forall i, fd_ioctx a = Some i -> druns (k i) s (finish F replied)) -> druns (if_open a k) s (finish F replied).
Proof. intros Hat Hf Hk. unfold if_open. destruct (fd_ioctx a) as [i|]; [by apply Hk|]. dgo. Qed.

Lemma fsync_rule f a datasync L F s : at_ L [] [] F F s -> F !! f = Some a -> d_err s = 0 ->
  druns (diod_fsync f datasync) s (finish F replied).
Proof.
  intros Hat Hf He. unfold diod_fsync. dstep. apply (if_open_rule f a _ L); [done|done|]. intros i Hio.
  apply druns_bind, druns_bind, (at_load_ioctx f a i L [] [] F F); [done..|]. intros y _.
  apply druns_bind, (at_call _ L [] [] F F); [by destruct (negb _)|done|]. intros r s1 _ Hat1 He1 Hn1 _ _. dstep. dstep.
  - dstep. apply Hn1; [by destruct (negb _)|done].
  - dgo.
Qed.

Lemma inv_set_lock L held pend F s i y t : inv L held pend F s -> d_ioctxs s !! i = Some y ->
  inv L held pend F (set_ioctxs (<[i := set_io_lock_type t y]> (d_ioctxs s)) s).
Proof.
  intros Hinv Hy. destruct Hinv as [Vlist Vnil Vonce Vnodup Vioctx Vpath Vfid Vheld Vhash Vfind Vstr Vfresh Vbal].
  split; cbn [d_paths d_ioctxs d_hash d_fids d_fresh d_trace set_ioctxs]; try done.
  - intros p x Hp. destruct (Vlist p x Hp) as [Hh Hd]. split; [done|]. eapply dseg_ext; [|exact Hd]. intros j z Hj Hz.
    destruct (decide (j = i)) as [->|Hne]; [rewrite lookup_insert_eq|rewrite lookup_insert_ne by done; by exists z].
    rewrite Hy in Hz. injection Hz as <-. by eexists.
  - intros j z. destruct (decide (j = i)) as [->|Hne]; [|rewrite lookup_insert_ne by done; apply Vioctx].
    rewrite lookup_insert_eq. intros [= <-]. by apply (Vioctx i y).
  - split; [apply (proj1 Vfresh)|]. intros j. destruct (decide (j = i)) as [->|Hne].
    + intros _. apply (proj2 Vfresh). by rewrite Hy.
    + rewrite lookup_insert_ne by done. apply (proj2 Vfresh).
  - intros k. rewrite Vbal, (count_if_update (weight k) _ i y) by done.
    replace (weight k (set_io_lock_type t y)) with (weight k y) by (by destruct k). lia.
Qed.

Lemma flock_rule f a i op L F s (Q : Z -> dstate -> Prop) : at_ L [] [] F F s -> F !! f = Some a -> fd_ioctx a = Some i ->
  (forall rc s', at_ L [] [] F F s' -> d_err s' = d_err s -> Q rc s') -> druns (ioctx_flock i op) s Q.
Proof.
  intros Hat Hf Hio HQ. apply druns_bind, (at_load_ioctx f a i L [] [] F F); [done..|]. intros y _.
  apply druns_bind, (at_call _ L [] [] F F); [done..|]. intros r s1 _ Hat1 He1 _ _ _. dstep; [by apply druns_ret, HQ|].
  apply druns_bind, druns_bind, (at_load_ioctx f a i L [] [] F F); [done..|]. intros z Hz.
  apply druns_modify, druns_ret, HQ; [|done]. destruct Hat1 as [Hi Hg]. split; [|done].
  assert (Hsame : set_ioctxs (<[i := z]> (d_ioctxs s1)) s1 = s1) by (rewrite insert_id by done; by destruct s1).
  repeat (destruct (bit op _); [by apply inv_set_lock|]). by rewrite Hsame.
Qed.

Lemma lock_rule f a type flags L F s : at_ L [] [] F F s -> F !! f = Some a -> d_err s = 0 ->
  druns (diod_lock f type flags) s (finish F replied).
Proof.
  intros Hat Hf He. unfold diod_lock. dstep. destruct (bit flags _); [dgo|].
  apply (if_open_rule f a _ L); [done|done|]. intros i Hio. apply druns_bind.
  eapply (druns_mono _ _ (fun o s' => at_ L [] [] F F s' /\ d_err s' = d_err s)).
  2:{ intros [st|] s' [Hat' He']; dgo. }
  unfold lock_status. cbv zeta.
  repeat (destruct (type =? _); [apply druns_bind, (flock_rule f a i _ L F); [done..|]; intros rc s1 Hat1 He1;
    first [by apply druns_ret | destruct (rc =? 0); [by apply druns_ret|apply druns_bind, druns_get; by apply druns_ret]]|]).
  by apply druns_ret.
Qed.

Lemma getlock_rule f a type start length proc_id cid L F s : at_ L [] [] F F s -> F !! f = Some a -> d_err s = 0 ->
  druns (diod_getlock f type start length proc_id cid) s (finish F replied).
Proof.
  intros Hat Hf He. unfold diod_getlock. dstep. apply (if_open_rule f a _ L); [done|done|]. intros i Hio. dstep; [|dgo].
  destruct (negb _ && _); [dgo|]. apply druns_bind, druns_bind, (at_load_ioctx f a i L [] [] F F); [done..|]. intros y _.
  destruct (_ && _); dgo.
Qed.

Lemma xattr_bounds len count offset : bounds_check (u64 len) count (int64 offset) = true -> 0 <= len < 2 ^ 63 ->
  0 <= count -> 0 <= int64 offset /\ int64 offset + count <= len.
Proof.
  unfold bounds_check. intros E Hl Hc. rewrite u64_small in E by lia. lia.
Qed.

Lemma read_rule f a offset count L F s : at_ L [] [] F F s -> F !! f = Some a -> d_err s = 0 -> fid_wf a ->
  (is_xattr a = true -> fd_xattr a <> None) -> 0 <= count < 2 ^ 31 ->
  druns (diod_read f offset count) s (finish F replied).
Proof.
  intros Hat Hf He Hw Hx Hc. unfold diod_read. dstep. destruct (bool_decide _ && negb _) eqn:Eb; [dgo|]. dstep; [|dgo].
  apply druns_bind. eapply (druns_mono _ _ (fun nd s' => at_ L [] [] F F s' /\ d_err s' = d_err s /\ (nd.1 < 0 -> 0 < d_errno s'))).
  2:{ intros [n data] s2 (Hat' & He' & Hn'). cbn in Hn'. dstep; [dgo|]. apply druns_ret. split; [by exists L|cbn; congruence]. }
  destruct (is_xattr a) eqn:Ex.
  - destruct (fd_xattr a) as [x|] eqn:Hxa; [|by destruct Hx]. destruct (Hw x Hxa) as [Hl Hb].
    apply druns_bind, (at_load_aux f a L [] [] F F); [done..|]. apply druns_bind. eapply druns_lift; [by rewrite Hxa|].
    destruct (negb (bit _ _) || negb _) eqn:Ec.
    + apply druns_bind, druns_errno. intros s1 Hq1 He1 Hn1. apply druns_ret. split; [by eapply at_quietly|].
      split; [congruence|]. intros _. by rewrite Hn1.
    + apply orb_false_iff in Ec as [_ Ec]. apply negb_false_iff in Ec.
      destruct (xattr_bounds _ _ _ Ec Hl (proj1 Hc)) as [Ho Hoc]. apply druns_bind.
      assert (Hlb : exists d, load_buf (xa_buf x) (int64 offset) count = Ret d).
      { destruct (xa_buf x) as [buf|]; cbn; [eexists; apply load_bytes_ok; lia|].
        assert (count = 0) as -> by lia. by eexists. }
      destruct Hlb as [d Hd]. eapply druns_lift; [exact Hd|]. apply druns_ret. split; [done|]. split; [done|]. cbn.
      rewrite int32_small by lia. lia.
  - destruct (fd_ioctx a) as [i|] eqn:Hio; [|done].
    apply druns_bind, druns_bind, (at_load_ioctx f a i L [] [] F F); [done..|]. intros y _.
    apply (at_call _ L [] [] F F); [done..|]. intros r s2 Er Hat2 He2 Hn2 _ _. apply druns_ret. split; [done|]. split; [congruence|].
    cbn. intros Hr. apply Hn2; [done|]. pose proof (sys_pread (d_os s') (io_fd y) count (int64 offset) (proj1 Hc)) as Hp.
    pose proof (sys_ret (d_os s') (S_pread (io_fd y) count (int64 offset))) as Hp'. rewrite <- Er in Hp, Hp'.
    rewrite int32_small in Hr by lia. done.
Qed.

Lemma write_rule f a offset data L F s : at_ L [] [] F F s -> F !! f = Some a -> d_err s = 0 -> fids_wf F ->
  (is_xattr a = true -> fd_xattr a <> None) -> zlength data < 2 ^ 31 ->
  druns (diod_write f offset data) s (fun o s' => exists F', fids_wf F' /\ finish F' replied o s').
Proof.
  intros Hat Hf He Hw Hx Hc. pose proof (zlength_nonneg data) as Hz. unfold diod_write. dstep.
  assert (Hend : forall (c : DM (option reply)) s1, druns c s1 (finish F replied) ->
    druns c s1 (fun o s' => exists F', fids_wf F' /\ finish F' replied o s')).
  { intros c s1 Hr. eapply druns_mono; [exact Hr|]. intros o s2 Ho. by exists F. }
  destruct (bool_decide _ && negb _) eqn:Eb; [apply Hend; dgo|]. apply druns_bind. destruct (is_xattr a) eqn:Ex.
  - destruct (fd_xattr a) as [x|] eqn:Hxa; [|by destruct Hx]. destruct (Hw f a Hf x Hxa) as [Hl Hb].
    apply druns_bind, (at_load_aux f a L [] [] F F); [done..|]. apply druns_bind. eapply druns_lift; [by rewrite Hxa|].
    destruct (negb (bit _ _) || negb _) eqn:Ec.
    + apply druns_bind, druns_errno. intros s1 Hq1 He1 Hn1. pose proof (at_quietly _ _ _ _ _ _ _ Hat Hq1) as Hat1.
      apply druns_ret, Hend. dstep; [|lia]. dstep. by rewrite Hn1.
    + apply orb_false_iff in Ec as [_ Ec]. apply negb_false_iff in Ec.
      destruct (xattr_bounds _ _ _ Ec Hl Hz) as [Ho Hoc]. apply druns_bind.
      assert (Hsb : exists b, store_buf (xa_buf x) (int64 offset) data = Ret b /\ xattr_wf (set_xa_buf b x)).
      { destruct (xa_buf x) as [buf|] eqn:Ebuf; cbn.
        - rewrite store_bytes_ok by lia. eexists. split; [done|]. split; [done|]. cbn. unfold zlength in *.
          rewrite !length_app, length_take, length_drop. lia.
        - rewrite (proj2 (Z.eqb_eq (zlength data) 0)) by lia. by eexists. }
      destruct Hsb as (b & Hsb & Hwb). eapply druns_lift; [exact Hsb|].
      apply druns_bind, (at_upd_aux f a _ L [] [] F); [done|done|done|done|]. intros s1 F' Hat1 He1 _. apply druns_ret.
      rewrite int32_small, (proj2 (Z.ltb_ge _ _)) by lia.
      assert (Hf' : F' !! f = Some (set_fd_xattr (Some (set_xa_buf b x)) a)) by apply lookup_insert_eq.
      eapply druns_mono; [apply (answer_end _ _ L F'); [done|congruence|exact (path_of_fid F' [] f _ Hf')]|].
      intros o s2 Hfin. exists F'. split; [|done]. apply fids_wf_upd; [done|]. by intros y [= <-].
  - destruct (fd_ioctx a) as [i|] eqn:Hio; [|done].
    apply druns_bind, druns_bind, (at_load_ioctx f a i L [] [] F F); [done..|]. intros y _.
    apply druns_bind, (at_call _ L [] [] F F); [done..|]. intros r s2 Er Hat2 He2 Hn2 _ _. apply druns_ret, druns_ret, Hend.
    pose proof (sys_pwrite (d_os s) (io_fd y) data (int64 offset)) as Hp.
    pose proof (sys_ret (d_os s) (S_pwrite (io_fd y) data (int64 offset))) as Hp'. rewrite <- Er in Hp, Hp'.
    rewrite int32_small by lia. dgo.
Qed.

(** *** Operations on names *)

Lemma create_at_rule f a name make undo c L F s : at_ L [] [] F F s -> F !! f = Some a -> d_err s = 0 ->
  bytes_ok name -> room s (fd_path a) name ->
  (forall p, quiet_call (make p) = true /\ is_alloc (make p) = false) -> (forall p, quiet_call (undo p) = true) ->
  druns (create_at f name make undo c) s (finish F replied).
Proof.
  intros Hat Hf He Hb Hr Hm Hu. unfold create_at. dstep.
  apply druns_bind, (at_path_append _ _ L [] [] F F); [done|dlive|done|done| |]; [intros; dgo|]. intros q s1 Hat1 He1 _.
  cbv zeta. dstep. apply druns_bind, (at_call _ L [q] [] F F); [by apply Hm|done|]. intros r s2 _ Hat2 He2 Hn2 _ _.
  specialize (Hn2 (proj2 (Hm _))). dstep; [dgo|]. dstep. dstep; [dgo|]. dstep; [dgo; split; [by exists L|cbn; congruence]|].
  apply druns_bind, (at_call _ L [q] [] F F); [by apply Hu|done|]. intros r1 s5 _ Hat5 He5 _ _ _. dgo.
Qed.

Lemma mknod_rule f a name mode major minor L F s : at_ L [] [] F F s -> F !! f = Some a -> d_err s = 0 ->
  bytes_ok name -> room s (fd_path a) name -> druns (diod_mknod f name mode major minor) s (finish F replied).
Proof. intros. by eapply create_at_rule. Qed.

Lemma mkdir_rule f a name mode L F s : at_ L [] [] F F s -> F !! f = Some a -> d_err s = 0 ->
  bytes_ok name -> room s (fd_path a) name -> druns (diod_mkdir f name mode) s (finish F replied).
Proof. intros. by eapply create_at_rule. Qed.

Lemma symlink_rule f a name tgt L F s : at_ L [] [] F F s -> F !! f = Some a -> d_err s = 0 ->
  bytes_ok name -> room s (fd_path a) name -> druns (diod_symlink f name tgt) s (finish F replied).
Proof.
  intros Hat Hf He Hb Hr. unfold diod_symlink. dstep.
  apply druns_bind, (at_path_append _ _ L [] [] F F); [done|dlive|done|done| |]; [intros; dgo|]. intros q s1 Hat1 He1 _.
  dgo; split; first [by exists L|cbn; congruence].
Qed.

Lemma link_op_rule d da f a name L F s : at_ L [] [] F F s -> F !! f = Some a -> F !! d = Some da -> d_err s = 0 ->
  bytes_ok name -> room s (fd_path da) name -> druns (diod_link d f name) s (finish F replied).
Proof.
  intros Hat Hf Hd He Hb Hr. unfold diod_link. dstep. dstep.
  apply druns_bind, (at_path_append _ _ L [] [] F F); [done|dlive|done|done| |]; [intros; dgo|]. intros q s1 Hat1 He1 _.
  dgo; split; first [by exists L|cbn; congruence].
Qed.

(** Two operations report that there is no memory for a path with that path:
    they are safe if there is always memory. *)
Lemma unlinkat_rule f a name flags L F s : at_ L [] [] F F s -> F !! f = Some a -> d_err s = 0 ->
  bytes_ok name -> room s (fd_path a) name -> ~ no_memory -> druns (diod_unlinkat f name flags) s (finish F replied).
Proof.
  intros Hat Hf He Hb Hr Hmem. unfold diod_unlinkat. dstep.
  apply druns_bind, (at_path_append _ _ L [] [] F F); [done|dlive|done|done|done|]. intros q s1 Hat1 He1 _.
  cbn [decref_opt errn_opt]. dstep. dstep. dstep; [dgo|]. destruct (S_ISDIR _ && _); [dgo|].
  apply druns_bind, (at_call _ L [q] [] F F); [by destruct (S_ISDIR _)|done|]. intros r2 s3 _ Hat3 He3 Hn3 _ _.
  specialize (Hn3 ltac:(by destruct (S_ISDIR _))). dgo; split; first [by exists L|cbn; congruence].
Qed.

Lemma renameat_rule o oa oldname n na newname L F s : at_ L [] [] F F s -> F !! o = Some oa -> F !! n = Some na ->
  d_err s = 0 -> bytes_ok oldname -> bytes_ok newname -> room s (fd_path oa) oldname -> room s (fd_path na) newname ->
  ~ no_memory -> druns (diod_renameat o oldname n newname) s (finish F replied).
Proof.
  intros Hat Ho Hn He Hb1 Hb2 Hr1 Hr2 Hmem. unfold diod_renameat. dstep. dstep.
  apply druns_bind, (at_path_append _ _ L [] [] F F); [done|dlive|done|done|done|]. intros q s1 Hat1 He1 Hg1.
  cbv zeta. cbn [decref_opt errn_opt].
  assert (Hr3 : room s1 (fd_path na) newname).
  { intros x Hx. destruct (live_path L [] [] F F s (fd_path na) Hat) as [y Hy]; [dlive|].
    destruct (Hg1 _ y Hy) as (y' & Hy' & _ & El). assert (x = y') as -> by congruence. rewrite El. by apply Hr2. }
  apply druns_bind, (at_path_append _ _ L [q] [] F F); [done|dlive|done|done|done|]. intros q2 s2 Hat2 He2 _.
  cbn [decref_opt errn_opt]. dgo; split; first [by exists L|cbn; congruence].
Qed.

(** *** Operations that change the fid *)

(** The end of an operation that may change fids. *)
Definition ends {A} (won : A -> bool) (o : A) (s : dstate) : Prop := exists F, fids_wf F /\ finish F won o s.

Lemma finish_ends {A} (won : A -> bool) F (c : DM A) s : fids_wf F -> druns c s (finish F won) -> druns c s (ends won).
Proof. intros Hw Hr. eapply druns_mono; [exact Hr|]. intros o s' Ho. by exists F. Qed.

(** A closed fid moves to a path that the function holds. *)
Lemma at_move f a q L F s (Q : unit -> dstate -> Prop) : at_ L [q] [] F F s -> F !! f = Some a -> fd_ioctx a = None ->
  (forall s' (F' := <[f := set_fd_path q a]> F), at_ L [] [] F' F' s' -> d_err s' = d_err s -> Q tt s') ->
  druns (do _ <- path_decref (fd_path a); upd_aux f (set_fd_path q)) s Q.
Proof.
  intros [Hi Hg] Hf Hio HQ. apply druns_bind, (at_path_decref _ L [] [] (<[f := set_fd_path q a]> F) F).
  { split; [|done]. by apply inv_swap. }
  intros s1 [Hi1 Hg1] He1 _. eapply druns_upd_aux; [by rewrite Hg1|]. apply HQ; [|done].
  split; [by apply inv_fids|cbn; by rewrite Hg1].
Qed.

Lemma druns_bind_assoc {A B C} (c : DM A) (g : A -> DM B) (k : B -> DM C) s Q :
  druns (do y <- (do x <- c; g x); k y) s Q -> druns (do x <- c; do y <- g x; k y) s Q.
Proof.
  intros (a & s' & E & HQ). exists a, s'. split; [|done]. unfold dbind in *.
  by destruct (c s) as [[b s1]| |]; cbn [res_bind] in *.
Qed.

Lemma rename_rule f a d da name L F s : at_ L [] [] F F s -> fids_wf F -> F !! f = Some a -> F !! d = Some da ->
  d_err s = 0 -> fd_ioctx a = None -> bytes_ok name -> room s (fd_path da) name ->
  druns (diod_rename f d name) s (ends replied).
Proof.
  intros Hat Hw Hf Hd He Hio Hb Hr. unfold diod_rename. dstep. dstep.
  apply druns_bind, (at_path_append _ _ L [] [] F F); [done|dlive|done|done| |].
  { intros. apply (finish_ends _ F); [done|]. dgo. }
  intros q s1 Hat1 He1 _. dstep. dstep. dstep. dstep; [apply (finish_ends _ F); [done|]; dgo|].
  dstep; [|apply (finish_ends _ F); [done|]; dgo].
  apply druns_bind_assoc, druns_bind, (at_move f a q L F); [done..|]. intros s4 F' Hat4 He4. apply druns_ret.
  exists F'. split; [|split; [by exists L|cbn; congruence]]. apply fids_wf_upd; [done|]. apply (Hw f a Hf).
Qed.

(** [_statmnt] leaves everything as it is. *)
Lemma inv_pend L held pend pend' F s s' : inv L held pend F s -> same_core s s' ->
  (forall k, balance k (d_trace s') = balance k (d_trace s) + (occ k pend' - occ k pend)) -> inv L held pend' F s'.
Proof.
  intros [] (Ep & Ei & Eh & _ & Ex) Hb. split; rewrite ?Ep, ?Ei, ?Eh, ?Ex; try done.
  intros k. rewrite Hb. pose proof (inv_balance k). lia.
Qed.

Lemma statmnt_loop_rule fuel fd name L held pend F G s : at_ L held pend F G s -> (dir_left (d_os s) fd < fuel)%nat ->
  druns (statmnt_loop fuel fd name) s (fun o s' => at_ L held pend F G s' /\
    match o with Some _ => d_err s' = d_err s | None => 0 < d_err s' end).
Proof.
  revert s. induction fuel as [|fuel IH]; intros s Hat Hf; [lia|]. cbn [statmnt_loop].
  apply druns_bind, druns_modify, druns_bind. set (s1 := set_errno 0 s).
  assert (Hat1 : at_ L held pend F G s1) by (by eapply at_quietly).
  apply (at_call _ L held pend F G); [done|done|]. intros r s2 Er Hat2 He2 Hn2 Hz2 Ho2.
  destruct (r_ent r) as [d|] eqn:Ed.
  - destruct (dir_read (d_os s1) fd d) as [Hlt _]; [by rewrite <- Er|]. destruct (strcmp _ _ =? 0).
    + by apply druns_ret.
    + eapply druns_mono; [apply (IH s2); [done|]|].
      * rewrite Ho2. change (d_os s1) with (d_os s) in *. lia.
      * intros o s3 [Hat3 Ho]. split; [done|]. destruct o; [|done]. rewrite Ho, He2. done.
  - apply druns_bind, druns_get, druns_bind, (at_uerror _ L held pend F G); [done|]. intros s3 Hat3 He3. apply druns_ret.
    split; [done|]. rewrite He3. destruct (Z.ltb_spec (r_ret r) 0) as [Hr|Hr].
    + specialize (Hn2 eq_refl Hr). rewrite (proj2 (Z.eqb_neq _ _)) by lia. done.
    + rewrite (Hz2 Hr eq_refl). done.
Qed.

Lemma statmnt_rule fuel p L held pend F G s : at_ L held pend F G s -> (dir_max < fuel)%nat ->
  druns (statmnt fuel p) s (fun o s' => at_ L held pend F G s' /\
    match o with Some _ => d_err s' = d_err s | None => 0 < d_err s' end).
Proof.
  intros Hat Hf. cbv zeta.
  assert (Hfail : forall s1, at_ L held pend F G s1 -> 0 < d_errno s1 ->
    druns (do _ <- uerror_errno; dret None) s1 (fun (o : option stat) s' => at_ L held pend F G s' /\
      match o with Some _ => d_err s' = d_err s | None => 0 < d_err s' end)).
  { intros s1 Hat1 Hn1. apply druns_bind, (at_uerror_errno L held pend F G); [done|]. intros s2 Hat2 He2.
    apply druns_ret. split; [done|]. by rewrite He2. }
  unfold statmnt. dstep. dstep; [by apply Hfail; auto|]. dstep; [|dgo; split; [done|by derr]]. dstep.
  dstep; [by apply Hfail; auto|].
  apply druns_bind, call_rule. intros s4 rd Hc4 He4 Hn4 Hb4.
  match goal with A : at_ L held pend F G ?s3, B : same_core ?s3 s4 |- _ => rename A into Hat3 end.
  destruct (Z.ltb_spec (r_ret rd) 0) as [Hrd|Hrd].
  { apply Hfail; [|by apply (errno_failed _ _ _ Hn4)]. destruct Hat3 as [Hi3 Hg3]. split.
    - eapply inv_pend; [exact Hi3|exact Hc4|]. intros k. rewrite Hb4. destruct k; cbn; [|lia].
      fold rd. rewrite (proj2 (Z.leb_gt 0 _)), andb_false_r by done. cbn. lia.
    - destruct Hc4 as (_ & _ & _ & -> & _). done. }
  assert (Hat4 : at_ L held (K_fd (r_ret rd) :: pend) F G s4).
  { destruct Hat3 as [Hi3 Hg3]. split; [|destruct Hc4 as (_ & _ & _ & -> & _); done].
    eapply inv_pend; [exact Hi3|exact Hc4|]. intros k. rewrite Hb4. destruct k as [fd|u]; cbn; [|rewrite bool_decide_false by done; cbn; lia].
    fold rd. rewrite (proj2 (Z.leb_le 0 _)), andb_true_r by done.
    replace (bool_decide (K_fd (r_ret rd) = K_fd fd)) with (r_ret rd =? fd); [lia|].
    destruct (Z.eqb_spec (r_ret rd) fd); [rewrite bool_decide_true; congruence|rewrite bool_decide_false; congruence]. }
  apply druns_bind. eapply druns_mono; [apply (statmnt_loop_rule fuel _ _ L held (K_fd (r_ret rd) :: pend) F G); [done|]|].
  { pose proof (dir_bound (d_os s4) (r_ret rd)). lia. }
  intros o s5 [Hat5 Ho]. apply druns_bind, call_rule. intros s6 rc Hc6 He6 _ Hb6.
  assert (Hat6 : at_ L held pend F G s6).
  { destruct Hat5 as [Hi5 Hg5]. split; [|destruct Hc6 as (_ & _ & _ & -> & _); done].
    eapply inv_pend; [exact Hi5|exact Hc6|]. intros k. rewrite Hb6. destruct k as [fd|u]; cbn; [|rewrite bool_decide_false by done; cbn; lia].
    replace (bool_decide (K_fd (r_ret rd) = K_fd fd)) with (r_ret rd =? fd); [lia|].
    destruct (Z.eqb_spec (r_ret rd) fd); [rewrite bool_decide_true; congruence|rewrite bool_decide_false; congruence]. }
  destruct o as [d|]; apply druns_ret; (split; [done|]); [congruence|lia].
Qed.
End Ops.
