(* ===== verification/OpsRules.v ===== *)
(** * Operations that change fids keep the invariant (libdiod/diod_ops.c)

    The rules of the operations that walk, open, create, close and destroy fids,
    that read and write extended attributes, and that read directories. *)
From S2P Require Import Prelude Cbuf Protocol Npstring Wire Fcall Hash Conf Exports Ioctx DiodFid Ops IoctxInv IoctxOpen OpsInv.
From stdpp Require Import list gmap.
#[local] Open Scope Z_scope.

Section Rules.
Context `{CHeap} `{OsOk}.
Context (conf : Conf) (iterator : bool).
Implicit Types (L : path_id -> list ioctx_id) (F : gmap fid_id Fid).

Definition is_some {A} (o : option A) : bool := match o with Some _ => true | None => false end.

Lemma ends_intro {A} (won : A -> bool) F L o s : fids_wf F -> at_ L [] [] F F s ->
  (if won o then d_err s = 0 else 0 < d_err s) -> ends won o s.
Proof. intros Hw Hat He. exists F. split; [done|]. split; [by exists L|done]. Qed.

(** *** Walk *)

Lemma walk_rule fuel f a name L F s : at_ L [] [] F F s -> fids_wf F -> F !! f = Some a -> d_err s = 0 ->
  fd_ioctx a = None -> bytes_ok name -> room s (fd_path a) name -> (dir_max < fuel)%nat ->
  druns (diod_walk fuel f name) s (ends is_some).
Proof.
  intros Hat Hw Hf He Hio Hb Hr Hfu. unfold diod_walk. dstep.
  assert (Hend : forall s', at_ L [] [] F F s' -> 0 < d_err s' -> druns (dret None) s' (ends (A := option Npqid) is_some)).
  { intros s' Hat' He'. apply druns_ret. by apply (ends_intro _ F L). }
  dstep; [dstep; apply Hend; [done|derr]|].
  apply druns_bind, (at_path_append _ _ L [] [] F F); [done|dlive|done|done| |].
  { intros s1 Hat1 He1 _. do 2 dstep. apply Hend; [done|derr]. }
  intros q s1 Hat1 He1 _. cbv zeta. do 2 dstep. dstep; [do 2 dstep; apply Hend; [done|derr]|]. do 2 dstep.
  dstep; [do 3 dstep; apply Hend; [done|derr]|].
  assert (Hdone : forall a' sb s2 (F1 := <[f := a']> F), at_ L [q] [] F1 F1 s2 -> d_err s2 = 0 -> fd_ioctx a' = None ->
    fid_wf a' -> fd_path a' = fd_path a ->
    druns (do _ <- path_decref (fd_path a); do _ <- upd_aux f (set_fd_path q); dret (Some (diod_ustat2qid sb))) s2
      (ends is_some)).
  { intros a' sb s2 F1 Hat2 He2 Hio' Hwa Hp. apply druns_bind_assoc, druns_bind. rewrite <- Hp.
    apply (at_move f a' q L F1); [done|apply lookup_insert_eq|done|]. intros s3 F' Hat3 He3. apply druns_ret.
    apply (ends_intro _ F' L); [|done|cbn; congruence]. apply fids_wf_upd; [by apply fids_wf_upd|done]. }
  dstep.
  - apply druns_bind. eapply druns_mono; [by eapply (statmnt_rule fuel)|]. intros [sb|] s2 [Hat2 He2].
    + apply druns_bind, (at_upd_aux f a _ L [q] [] F); [done..|]. intros s3 F' Hat3 He3 _.
      apply (Hdone (set_fd_flags (Z.lor (fd_flags a) DIOD_FID_FLAGS_MOUNTPT) a)); [done|congruence|done| |done].
      apply (Hw f a Hf).
    + do 2 dstep. apply Hend; [done|derr].
  - apply (Hdone a); [by rewrite insert_id|congruence|done|by apply (Hw f)|done].
Qed.

(** *** Close and destroy *)

Lemma fid_wf_ioctx a o : fid_wf a -> fid_wf (set_fd_ioctx o a).
Proof. done. Qed.

Lemma fid_wf_xattr a x : (forall y, x = Some y -> xattr_wf y) -> fid_wf (set_fd_xattr x a).
Proof. intros Hx y Hy. by apply Hx. Qed.

Lemma answer_ends c p L F s : at_ L [] [] F F s -> fids_wf F -> d_err s = 0 -> live F [] p ->
  druns (answer c p) s (ends replied).
Proof. intros. apply (finish_ends _ F); [done|]. by eapply answer_end. Qed.

Lemma clunk_rule f a L F s : at_ L [] [] F F s -> fids_wf F -> F !! f = Some a -> d_err s = 0 ->
  druns (diod_clunk f) s (ends replied).
Proof.
  intros Hat Hw Hf He. unfold diod_clunk. dstep. apply druns_bind.
  assert (Hend : forall rc L' a' (F' := <[f := a']> F) s', at_ L' [] [] F' F' s' -> fid_wf a' -> fd_path a' = fd_path a ->
    (if rc <? 0 then 0 < d_err s' else d_err s' = d_err s) ->
    druns (if rc <? 0 then quiet else answer C_rclunk (fd_path a)) s' (ends replied)).
  { intros rc L' a' F' s' Hat' Hwa Hp He'. assert (Hw' : fids_wf F') by (by apply fids_wf_upd).
    destruct (rc <? 0).
    - apply (finish_ends _ F'); [done|]. by apply (quiet_end L').
    - apply (answer_ends _ _ L' F'); [done|done|congruence|]. rewrite <- Hp. apply (path_of_fid F' [] f a'), lookup_insert_eq. }
  destruct (is_xattr a).
  - apply (at_xattr_close f a L [] [] F); [done|done|by apply (Hw f)|]. intros rc s' F' Hat' He'.
    apply (Hend rc L (set_fd_xattr None a)); [done|by apply fid_wf_xattr|done|done].
  - destruct (fd_ioctx a) as [i|] eqn:Hio.
    + apply (ioctx_close_rule L [] [] F s f a i); [done|done|done|]. intros L' rc s' F' Hat' _ He'.
      rewrite andb_true_r in He'. apply (Hend rc L' (set_fd_ioctx None a)); [done|apply (Hw f a Hf)|done|done].
    + apply druns_ret, (Hend 0 L a); [by rewrite insert_id|by apply (Hw f)|done|done].
Qed.

Lemma destroy_rule f L F s : at_ L [] [] F F s -> fids_wf F ->
  druns (diod_fiddestroy f) s (fun _ s' => exists L', at_ L' [] [] (delete f F) (delete f F) s' /\ fids_wf (delete f F)).
Proof.
  intros Hat Hw. apply (at_fiddestroy f L F); [done|done|]. intros L' s' Hat' _ _. exists L'. split; [done|by apply fids_wf_del].
Qed.

Lemma clone_rule f nf a L F s : at_ L [] [] F F s -> fids_wf F -> F !! f = Some a -> F !! nf = None -> d_err s = 0 ->
  druns (diod_clone f nf) s (ends (fun b => b)).
Proof.
  intros Hat Hw Hf Hnf He. unfold diod_clone. dstep. apply druns_bind, (at_fidclone nf f a L F); [done..| |].
  - intros s1 Hat1 He1. do 2 dstep. apply druns_ret, (ends_intro _ F L); [done|done|derr].
  - intros s1 b F' Hat1 He1. apply druns_ret, (ends_intro _ F' L); [|done|congruence]. by apply fids_wf_upd.
Qed.

Lemma attach_rule f user aname L F s : at_ L [] [] F F s -> fids_wf F -> F !! f = None -> bytes_ok aname -> zlength aname < 2 ^ 31 ->
  d_err s = 0 ->
  druns (diod_attach conf iterator f user aname) s (ends replied).
Proof.
  intros Hat Hw Hf Hb Hz He. unfold diod_attach. cbv zeta.
  assert (Herr : forall (F1 : gmap fid_id Fid) s1, at_ L [] [] F1 F1 s1 -> fids_wf F1 -> 0 < d_err s1 ->
    druns (do _ <- diod_fiddestroy f; dret (@None reply)) s1 (ends replied)).
  { intros F1 s1 Hat1 Hw1 He1. apply druns_bind, (at_fiddestroy f L F1); [done..|]. intros L' s2 Hat2 He2 _.
    apply druns_ret, (ends_intro _ (delete f F1) L'); [by apply fids_wf_del|done|by apply He2]. }
  apply druns_bind, (at_fidalloc f aname L F); [done..| |].
  { intros s1 Hat1 He1. cbn [negb]. dstep. apply (Herr F); [done|done|derr]. }
  intros a s1 F1 Hat1 He1 Hio Hxa. cbn [negb].
  assert (Hw1 : fids_wf F1) by (apply fids_wf_upd; [done|]; intros x Hx; congruence).
  dstep; [dstep; apply (Herr F1); [done|done|derr]|].
  apply druns_bind, (at_load_aux f a L [] [] F1 F1); [done|apply lookup_insert_eq|]. apply druns_bind.
  assert (Hrest : forall a' (F2 := <[f := a']> F) s2, at_ L [] [] F2 F2 s2 -> fid_wf a' -> fd_path a' = fd_path a -> d_err s2 = 0 ->
    druns (do s <- path_s (fd_path a); do r <- call (S_stat s);
      if r_ret r <? 0 then do _ <- uerror_errno; do _ <- diod_fiddestroy f; dret None
      else do ok <- mk (C_rattach (diod_ustat2qid (r_stat r)));
        if ok then dret (Some (R (C_rattach (diod_ustat2qid (r_stat r)))))
        else do _ <- uerror ENOMEM; do _ <- diod_fiddestroy f; dret None) s2 (ends replied)).
  { intros a' F2 s2 Hat2 Hwa Hp He2. assert (Hw2 : fids_wf F2) by (by apply fids_wf_upd).
    apply druns_bind, (at_path_s _ L [] [] F2 F2); [done|rewrite <- Hp; apply (path_of_fid F2 [] f a'), lookup_insert_eq|].
    intros x _. dstep. dstep; [dstep; apply (Herr F2); [done|done|derr]|]. dstep.
    - apply druns_ret, (ends_intro _ F2 L); [done|done|cbn; congruence].
    - dstep. apply (Herr F2); [done|done|derr]. }
  assert (Hnone : fid_wf a) by (intros x Hx; congruence).
  destruct (diod_fetch_xflags _ _ _) as [xf|]; [destruct (bit xf _)|].
  2-3: apply druns_ret; apply (Hrest a); [done|done|done|congruence].
  apply (at_upd_aux f a _ L [] [] F1); [done|apply lookup_insert_eq|done|done|]. intros s2 F2 Hat2 He2 _.
  apply (Hrest (set_fd_flags (Z.lor (fd_flags a) DIOD_FID_FLAGS_SHAREFD) a)); [|done|done|congruence].
  unfold F2, F1 in Hat2. by rewrite insert_insert_eq in Hat2.
Qed.

(** *** Open and create *)

(** The reply of an open: the fid is closed again when there is no memory. *)
Lemma opened_rule f a i c L held F s (Q : option np_call -> dstate -> Prop) : at_ L held [] F F s -> F !! f = Some a ->
  fd_ioctx a = Some i ->
  (forall x s', at_ L held [] F F s' -> d_err s' = d_err s -> Q (Some x) s') ->
  (forall L' s' (F' := <[f := set_fd_ioctx None a]> F), at_ L' held [] F' F' s' -> d_err s' = d_err s -> Q None s') ->
  druns (opened f c) s Q.
Proof.
  intros Hat Hf Hio Hs Hn. unfold opened. dstep. rewrite Hio.
  apply druns_bind, (at_load_ioctx f a i L held [] F F); [done..|]. intros x _. dstep; [by apply druns_ret, Hs|].
  apply druns_bind, (ioctx_close_rule L held [] F _ f a i); [done..|]. intros L' rc s2 F' Hat2 _ He2.
  rewrite andb_false_r in He2. apply druns_ret, (Hn L'); [done|congruence].
Qed.

Lemma lopen_open_rule f a user flags L F s : at_ L [] [] F F s -> fids_wf F -> F !! f = Some a -> d_err s = 0 ->
  fd_ioctx a = None -> druns (lopen_open f user flags) s (ends replied).
Proof.
  intros Hat Hw Hf He Hio. unfold lopen_open. dstep.
  apply druns_bind, (ioctx_open_rule L [] [] F s f a); [done..| |].
  - intros s1 Hat1 He1 _. cbn [Z.ltb Z.compare]. apply druns_bind, druns_get, (finish_ends _ F); [done|].
    destruct (_ =? _); dgo.
  - intros L1 i y s1 F1 Hat1 He1 _ _ _. cbn [Z.ltb Z.compare].
    apply druns_bind, (opened_rule f (set_fd_ioctx (Some i) a) i _ L1 [] F1); [done|apply lookup_insert_eq|done| |].
    + intros x s2 Hat2 He2. apply druns_ret, (ends_intro _ F1 L1); [|done|cbn; congruence].
      apply fids_wf_upd; [done|]. apply fid_wf_ioctx, (Hw f a Hf).
    + intros L2 s2 F2 Hat2 He2. apply (finish_ends _ F2).
      * apply fids_wf_upd; [apply fids_wf_upd; [done|]|]; apply (Hw f a Hf).
      * apply (fail_with_end ENOMEM (fd_path a) L2); [done|done|].
        apply (path_of_fid F2 [] f (set_fd_ioctx None (set_fd_ioctx (Some i) a))), lookup_insert_eq.
Qed.

Lemma lopen_rule f a user flags L F s : at_ L [] [] F F s -> fids_wf F -> F !! f = Some a -> d_err s = 0 ->
  druns (diod_lopen f user flags) s (ends replied).
Proof.
  intros Hat Hw Hf He. unfold diod_lopen. dstep. dstep; [apply (finish_ends _ F); [done|]; dgo|].
  destruct (bool_decide _) eqn:Eb; cbn [negb]; [|apply (finish_ends _ F); [done|]; dgo].
  apply bool_decide_eq_true in Eb. by apply (lopen_open_rule f a _ _ L F).
Qed.

(** The fid of a create gets its old path back. *)
Lemma at_move_back f a q o L F s (Q : unit -> dstate -> Prop) (F1 := <[f := set_fd_path q a]> F) :
  at_ L [o] [] F1 F1 s -> F !! f = Some a -> fd_ioctx a = None -> o = fd_path a ->
  (forall s', at_ L [] [] F F s' -> d_err s' = d_err s -> Q tt s') ->
  druns (do _ <- path_decref q; upd_aux f (set_fd_path o)) s Q.
Proof.
  intros [Hi Hg] Hf Hio -> HQ.
  assert (EF : <[f := set_fd_path (fd_path a) (set_fd_path q a)]> F1 = F).
  { unfold F1. rewrite insert_insert_eq. apply insert_id. rewrite Hf. f_equal. by destruct a. }
  apply (inv_swap L [] [] F1 s f (set_fd_path q a)) in Hi; [|apply lookup_insert_eq|done]. rewrite EF in Hi.
  apply druns_bind, (at_path_decref q L [] [] F F1); [by split|]. intros s1 [Hi1 Hg1] He1 _.
  eapply druns_upd_aux; [rewrite Hg1; apply lookup_insert_eq|]. apply HQ; [|done].
  split; [by apply inv_fids|cbn; by rewrite Hg1].
Qed.

Lemma lcreate_rule f a user name flags mode L F s : at_ L [] [] F F s -> fids_wf F -> F !! f = Some a -> d_err s = 0 ->
  bytes_ok name -> room s (fd_path a) name -> druns (diod_lcreate f user name flags mode) s (ends replied).
Proof.
  intros Hat Hw Hf He Hb Hr. unfold diod_lcreate. dstep. dstep; [apply (finish_ends _ F); [done|]; dgo|].
  destruct (bool_decide _) eqn:Eb; cbn [negb]; [|apply (finish_ends _ F); [done|]; dgo]. apply bool_decide_eq_true in Eb.
  apply druns_bind, (at_path_append _ _ L [] [] F F); [done|dlive|done|done| |].
  { intros. apply (finish_ends _ F); [done|]. dgo. }
  intros q s1 [Hi1 Hg1] He1 _. cbv zeta. set (a1 := set_fd_path q a). set (F1 := <[f := a1]> F).
  assert (Hw1 : fids_wf F1) by (apply fids_wf_upd; [done|]; apply (Hw f a Hf)).
  apply druns_bind. eapply druns_upd_aux; [by rewrite Hg1|].
  assert (Hat1 : at_ L [fd_path a] [] F1 F1 (set_dfids F1 s1)).
  { split; [|done]. apply inv_fids. by apply inv_swap. }
  replace (<[f := set_fd_path q a]> (d_fids s1)) with F1 by (by rewrite Hg1).
  assert (Hback : forall L' s', at_ L' [fd_path a] [] F1 F1 s' -> 0 < d_err s' ->
    druns (do _ <- path_decref q; do _ <- upd_aux f (set_fd_path (fd_path a)); quiet) s' (ends replied)).
  { intros L' s' Hat' He'. apply druns_bind_assoc, druns_bind, (at_move_back f a q _ L' F); [done..|].
    intros s2 Hat2 He2. apply (finish_ends _ F); [done|]. apply (quiet_end L'); [done|lia]. }
  apply druns_bind, (ioctx_open_rule L [fd_path a] [] F1 _ f a1); [done|apply lookup_insert_eq|done| |].
  - intros s2 Hat2 He2 _. cbn [Z.ltb Z.compare]. apply druns_bind, druns_get. destruct (_ =? _); [dstep|]; by apply (Hback L).
  - intros L1 i y s2 F2 Hat2 He2 _ _ _. cbn [Z.ltb Z.compare].
    apply druns_bind, (opened_rule f (set_fd_ioctx (Some i) a1) i _ L1 [fd_path a] F2); [done|apply lookup_insert_eq|done| |].
    + intros x s3 Hat3 He3. dstep. apply druns_ret, (ends_intro _ F2 L1); [|done|cbn in *; congruence].
      by apply fids_wf_upd; [|apply (Hw f a Hf)].
    + intros L2 s3 F3 Hat3 He3.
      assert (E3 : F3 = F1). { unfold F3, F2, F1. rewrite !insert_insert_eq. f_equal. unfold a1. destruct a. cbn in *. by rewrite Eb. }
      rewrite E3 in Hat3.
      apply druns_bind, (at_path_s q L2 [fd_path a] [] F1 F1); [done|apply (path_of_fid F1 _ f a1), lookup_insert_eq|].
      intros x _. do 3 dstep. apply (Hback L2); [done|derr].
Qed.

(** *** Extended attributes *)

Lemma xattrcreate_rule f a name size flags L F s : at_ L [] [] F F s -> fids_wf F -> F !! f = Some a -> d_err s = 0 ->
  fd_xattr a = None -> 0 <= size -> druns (diod_xattrcreate f name size flags) s (ends replied).
Proof.
  intros Hat Hw Hf He Hx Hsz. unfold diod_xattrcreate. dstep.
  apply druns_bind, (at_xattr_create f a _ _ _ L [] [] F); [done..| |].
  - intros s1 Hat1 He1. cbn [Z.ltb Z.compare]. apply (finish_ends _ F); [done|]. dgo.
  - intros x s1 F1 Hat1 He1 Hwx. cbn [Z.ltb Z.compare]. set (a1 := set_fd_xattr (Some x) a) in F1.
    apply druns_bind, (at_upd_aux f a1 _ L [] [] F1); [done|apply lookup_insert_eq|done|done|].
    intros s2 F2 Hat2 He2 _. match type of F2 with gmap _ _ => set (a2 := set_fd_flags _ a1) in F2 end.
    assert (Hwa : fid_wf a1) by (by apply fid_wf_xattr; intros y [= <-]).
    apply (answer_ends _ _ L F2); [done|by repeat apply fids_wf_upd|congruence|].
    apply (path_of_fid F2 [] f a2), lookup_insert_eq.
Qed.

(** The system call that reads an attribute, or the list of their names. *)
Definition xattr_call (nm : option (list Z)) (p : cstr) (n : Z) : syscall :=
  match nm with
  | Some nm => S_lgetxattr p (c_string nm) n
  | None => S_llistxattr p n
  end.

(** An empty attribute does not grow while memory is allocated for it. *)
Definition attrs_stable : Prop := forall nm p o, let r := sys o (xattr_call nm p 0) in
  r_ret r.1 = 0 -> r_ret (sys (sys r.2 (S_malloc 0)).2 (xattr_call nm p 0)).1 <= 0.

Lemma at_get_xattr x p n L held pend F G s (Q : sysres -> dstate -> Prop) : 0 <= n -> at_ L held pend F G s ->
  (forall r s', r = (sys (d_os s) (xattr_call (xa_name x) p n)).1 -> at_ L held pend F G s' -> d_err s' = d_err s ->
     (r_ret r < 0 -> 0 < d_errno s') -> d_os s' = (sys (d_os s) (xattr_call (xa_name x) p n)).2 ->
     (0 <= r_ret r -> (0 < n -> r_ret r <= n) /\ zlength (r_bytes r) <= n /\ r_ret r < 2 ^ 63) -> Q r s') ->
  druns (get_xattr x p n) s Q.
Proof.
  intros Hn Hat HQ. change (get_xattr x p n) with (call (xattr_call (xa_name x) p n)).
  apply (at_call _ L held pend F G); [by destruct (xa_name x)|done|]. intros r s' Er Hat' He Hne _ Ho.
  apply HQ; [done|done|done|apply Hne; by destruct (xa_name x)|done|]. rewrite Er.
  destruct (xa_name x) as [nm|]; cbn [xattr_call]; [by apply sys_getxattr|by apply sys_listxattr].
Qed.

Lemma at_lgetxattr x p L held pend F G s (Q : option xattr -> dstate -> Prop) : at_ L held pend F G s -> attrs_stable ->
  xa_buf x = None ->
  (forall s', at_ L held pend F G s' -> 0 < d_err s' -> Q None s') ->
  (forall y s', at_ L held pend F G s' -> d_err s' = d_err s -> xattr_wf y -> Q (Some y) s') ->
  druns (lgetxattr x p) s Q.
Proof.
  intros Hat Hst Hx Hn Hs. unfold lgetxattr.
  assert (Hfail : forall s', at_ L held pend F G s' -> 0 < d_errno s' -> druns (do _ <- uerror_errno; dret None) s' Q).
  { intros s' Hat' He'. dstep. apply druns_ret, Hn; [done|derr]. }
  apply druns_bind, (at_get_xattr x p 0 L held pend F G); [done|done|]. intros r s1 Er Hat1 He1 Hn1 Ho1 Hr1.
  dstep; [by apply Hfail; auto|]. destruct (Hr1 ltac:(done)) as (_ & _ & Hr63).
  apply druns_bind. eapply druns_lift; [by rewrite Hx|].
  apply druns_bind, (at_call _ L held pend F G); [done|done|]. intros b s2 Eb Hat2 He2 _ _ Ho2.
  destruct (Z.eqb_spec (r_ret b) 0) as [E0|E0]; [dstep; apply druns_ret, Hn; [done|derr]|].
  destruct (sys_malloc (d_os s1) (r_ret r)) as [Hlb _]; [lia|by rewrite <- Eb|]. rewrite <- Eb in Hlb.
  apply druns_bind, (at_get_xattr x p (r_ret r) L held pend F G); [lia|done|]. intros v s3 Ev Hat3 He3 Hn3 _ Hr3.
  dstep; [by apply Hfail; auto|]. destruct (Hr3 ltac:(done)) as (Hle & Hlv & Hv63).
  assert (Hv : r_ret v <= r_ret r).
  { destruct (Z.eq_dec (r_ret r) 0) as [Er0|Er0]; [|apply Hle; lia]. rewrite Er0.
    pose proof (Hst (xa_name x) p (d_os s)) as Hst'. cbv zeta in Hst'. rewrite <- Er, <- Ho1 in Hst'.
    specialize (Hst' Er0). rewrite Er0 in Ho2, Ev. rewrite <- Ho2, <- Ev in Hst'. lia. }
  apply druns_bind. eapply druns_lift; [apply store_bytes_ok; [lia|rewrite Z.add_0_l; lia]|].
  apply druns_ret, Hs; [done|congruence|]. pose proof (zlength_nonneg (r_bytes v)). split; cbn; [lia|].
  unfold zlength in *. rewrite !length_app, length_drop. cbn. lia.
Qed.

Lemma xattrwalk_rule f nf a name L F s : at_ L [] [] F F s -> fids_wf F -> F !! f = Some a -> F !! nf = None -> d_err s = 0 ->
  zlength name < 2 ^ 16 -> ~ no_memory -> attrs_stable -> druns (diod_xattrwalk f nf name) s (ends replied).
Proof.
  intros Hat Hw Hf Hnf He Hnm Hmem Hst. unfold diod_xattrwalk. dstep. cbv zeta.
  assert (Herrq : forall (F1 : gmap fid_id Fid) s1, at_ L [] [] F1 F1 s1 -> fids_wf F1 -> 0 < d_err s1 ->
    druns (do _ <- diod_fiddestroy nf; quiet) s1 (ends replied)).
  { intros F1 s1 Hat1 Hw1 He1. apply druns_bind, (at_fiddestroy nf L F1); [done..|]. intros L' s2 Hat2 He2 _.
    apply (finish_ends _ (delete nf F1)); [by apply fids_wf_del|]. apply (quiet_end L'); auto. }
  assert (Hne : nf <> f) by (intros ->; congruence).
  apply druns_bind, (at_fidclone nf f a L F); [done..| |].
  { intros s1 Hat1 He1. cbn [negb]. do 2 dstep. apply (Herrq F); [done|done|derr]. }
  intros s1 b F1 Hat1 He1. cbn [negb]. assert (Hw1 : fids_wf F1) by (by apply fids_wf_upd).
  assert (Herr : forall (F2 : gmap fid_id Fid) s2, at_ L [] [] F2 F2 s2 -> fids_wf F2 -> F2 !! f = Some a -> 0 < d_err s2 ->
    druns (do _ <- errn (fd_path a); do _ <- diod_fiddestroy nf; quiet) s2 (ends replied)).
  { intros F2 s2 Hat2 Hw2 Hf2 He2. dstep. by apply (Herrq F2). }
  assert (Hl : forall c, <[nf := c]> F !! f = Some a) by (intros c; by rewrite lookup_insert_ne).
  apply druns_bind, druns_bind, (at_load_aux nf b L [] [] F1 F1); [done|apply lookup_insert_eq|].
  apply druns_bind. eapply druns_lift; [done|]. apply druns_bind, (at_xattr_alloc _ _ _ _ L [] [] F1 F1); [done|done|intros s2 _ _ Hbad; by destruct Hmem; apply Hbad|].
  intros x s2 Hat2 He2 _ Hx. specialize (Hx eq_refl).
  apply druns_bind, (at_path_s (fd_path b) L [] [] F1 F1); [done|apply (path_of_fid F1 [] nf b), lookup_insert_eq|]. intros y _.
  apply druns_bind. eapply druns_lift; [done|]. apply druns_bind, (at_lgetxattr x _ L [] [] F1 F1); [done|done|done| |].
  - intros s3 Hat3 He3. apply druns_bind, (at_upd_aux nf b _ L [] [] F1); [done|apply lookup_insert_eq|done|done|].
    intros s4 F2 Hat4 He4 _. apply druns_ret. unfold F2, F1 in Hat4. rewrite insert_insert_eq in Hat4.
    apply druns_bind, druns_get. rewrite <- He4 in He3.
    destruct (_ =? _); [apply (Herrq _ _ Hat4)|apply (Herr _ _ Hat4)]; try done; by apply fids_wf_upd.
  - intros z s3 Hat3 He3 Hwz. apply druns_bind, (at_upd_aux nf b _ L [] [] F1); [done|apply lookup_insert_eq|done|done|].
    intros s4 F2 Hat4 He4 _. apply druns_ret. unfold F2, F1 in Hat4. rewrite insert_insert_eq in Hat4. clear F2.
    set (b1 := set_fd_xattr (Some z) b) in *.
    apply druns_bind, (at_upd_aux nf b1 _ L [] [] (<[nf := b1]> F)); [done|apply lookup_insert_eq|done|done|].
    intros s5 F2 Hat5 He5 _. unfold F2 in Hat5. rewrite insert_insert_eq in Hat5. clear F2.
    match type of Hat5 with at_ _ _ _ (<[nf := ?c]> _) _ _ => set (b2 := c) in * end.
    assert (Hw2 : fids_wf (<[nf := b2]> F)) by (apply fids_wf_upd; [done|]; by intros w [= <-]).
    dstep; [apply druns_ret, (ends_intro _ (<[nf := b2]> F) L); [done|done|cbn; congruence]|].
    apply druns_bind, (at_fiddestroy nf L (<[nf := b2]> F)); [done..|]. intros L' s7 Hat7 _ _.
    rewrite delete_insert_id in Hat7 by done. do 2 dstep.
    apply druns_bind, (at_fiddestroy nf L' F); [done..|]. intros L2 s9 Hat9 He9 _.
    rewrite delete_id in Hat9 by done. apply (finish_ends _ F); [done|]. apply (quiet_end L2); [done|apply He9; derr].
Qed.

(** *** Directories *)

Lemma errno_nonneg c s s1 : d_errno s1 = match failed c (sys (d_os s) c).1 with Some e => e | None => d_errno s end ->
  0 <= d_errno s -> 0 <= d_errno s1.
Proof. intros E Hn. destruct (failed c _) as [e|] eqn:Ef; [pose proof (failed_errno _ _ _ Ef)|]; lia. Qed.

Lemma dirent_fits qid offset type name n buf : 0 <= n < 2 ^ 31 -> n <= zlength buf -> strlen name < 2 ^ 16 ->
  exists k buf', np_serialize_p9dirent qid offset type name buf n = Ret (k, buf') /\ 0 <= k <= n /\ zlength buf' = zlength buf.
Proof.
  intros Hn Hb Hnm. pose proof (strlen_nonneg name). destruct (Z.le_gt_cases (24 + strlen name) n) as [Hle|Hgt].
  - destruct (serialize_fits qid offset type name buf n) as (buf' & -> & Hst); [done..|]. eexists _, _. split; [done|].
    split; [lia|]. apply store_bytes_length in Hst. unfold zlength. by rewrite Hst.
  - rewrite serialize_short by lia. eexists _, _. split; [done|]. lia.
Qed.

(** An entry is copied whole or not at all; nothing but errors changes. *)
Lemma copy_dirent_rule a d n x s (Q : list Z -> dstate -> Prop) : d_paths s !! fd_path a = Some x -> 0 <= n < 2 ^ 31 ->
  strlen (de_name d) < 2 ^ 16 ->
  (forall bs s', quietly s s' -> zlength bs <= n -> (zlength bs = 0 -> 0 <= d_err s -> 0 <= d_err s') ->
     (zlength bs <> 0 -> d_err s' = d_err s) ->
     (forall fd, (dir_left (d_os s') fd <= dir_left (d_os s) fd)%nat) -> Q bs s') ->
  druns (copy_dirent_linux a d n) s Q.
Proof.
  intros Hx Hn Hnm HQ. apply druns_bind.
  assert (Hcopy : forall qid s1, quietly s s1 -> d_err s1 = d_err s ->
    (forall fd, (dir_left (d_os s1) fd <= dir_left (d_os s) fd)%nat) ->
    druns (do (k, buf) <- lift (np_serialize_p9dirent qid (u64 (de_off d)) (u8 (de_type d)) (de_name d)
      (replicate (Z.to_nat n) 0) (int32 n)); dret (take (Z.to_nat k) buf)) s1 Q).
  { intros qid s1 Hq He Hd.
    destruct (dirent_fits qid (u64 (de_off d)) (u8 (de_type d)) (de_name d) n (replicate (Z.to_nat n) 0))
      as (k & buf & Hs & Hk & Hlb); [done| |done|]; [unfold zlength; rewrite length_replicate; lia|].
    apply druns_bind. eapply druns_lift; [rewrite int32_small by lia; exact Hs|]. apply druns_ret, HQ; [done| |by rewrite He|done|done].
    unfold zlength in *. rewrite length_take. lia. }
  destruct (Z.eqb_spec (de_type d) DT_UNKNOWN) as [E|E].
  - apply druns_bind. eapply druns_path_s; [done|]. apply druns_bind, druns_call; [done|]. intros s1 r Hq1 He1 Hn1 Ho1.
    assert (Hd1 : forall fd, (dir_left (d_os s1) fd <= dir_left (d_os s) fd)%nat) by (intros fd; rewrite Ho1; apply dir_lstat).
    destruct (Z.ltb_spec (r_ret r) 0) as [Hr|Hr].
    + apply druns_bind, druns_bind, druns_get, druns_modify, druns_ret, druns_ret.
      pose proof (errno_failed _ _ _ Hn1 Hr ltac:(done) ltac:(done)).
      apply HQ; [by eapply quietly_trans|by apply Hn|intros _ _; cbn; lia|by intros []|done].
    + by apply druns_ret, Hcopy.
  - apply druns_bind. unfold dirent2qid. rewrite (proj2 (Z.eqb_neq _ _) E). eapply druns_lift; [done|].
    by apply druns_ret, Hcopy.
Qed.

(** The open file of a fid is what it was. *)
Lemma quietly_ioctx s s' i y : quietly s s' -> d_ioctxs s !! i = Some y -> d_ioctxs s' !! i = Some y.
Proof. intros (_ & -> & _). done. Qed.

Lemma read_dir_loop_rule fuel f a i y count data L F s : at_ L [] [] F F s -> F !! f = Some a -> d_ioctxs s !! i = Some y ->
  (dir_left (d_os s) (io_fd y) < fuel)%nat -> zlength data <= count < 2 ^ 31 -> d_err s = 0 ->
  druns (read_dir_loop fuel a i count data) s (fun d s' => at_ L [] [] F F s' /\ 0 <= d_err s' /\ zlength d <= count).
Proof.
  revert data s. induction fuel as [|fuel IH]; intros data s Hat Hf Hy Hfu Hc He; [lia|]. cbn [read_dir_loop].
  apply druns_bind, druns_modify. set (s1 := set_errno 0 s). assert (Hat1 : at_ L [] [] F F s1) by (by eapply at_quietly).
  assert (Hstop : forall s', at_ L [] [] F F s' -> 0 <= d_errno s' -> d_err s' = 0 ->
    druns (do e <- get d_errno; do _ <- (if e =? 0 then dret tt else uerror e); dret data) s'
      (fun d s' => at_ L [] [] F F s' /\ 0 <= d_err s' /\ zlength d <= count)).
  { intros s' Hat' Hn' He'. apply druns_bind, druns_get, druns_bind. destruct (_ =? _); [apply druns_ret, druns_ret|].
    - split; [done|]. lia.
    - apply (at_uerror _ L [] [] F F); [done|]. intros s2 Hat2 He2. apply druns_ret. split; [done|]. lia. }
  assert (Hagain : forall data' s', at_ L [] [] F F s' -> quietly s1 s' -> (dir_left (d_os s') (io_fd y) < fuel)%nat ->
    zlength data' <= count -> d_err s' = 0 ->
    druns (if zlength data' <? count then read_dir_loop fuel a i count data' else dret data') s'
      (fun d s' => at_ L [] [] F F s' /\ 0 <= d_err s' /\ zlength d <= count)).
  { intros data' s' Hat' Hq' Hl' Hz' He'. destruct (_ <? count); [|apply druns_ret; split; [done|]; lia].
    apply (IH data' s'); [done|done|by eapply quietly_ioctx|done|lia|done]. }
  apply druns_bind, druns_bind. eapply druns_load_ioctx; [exact Hy|]. destruct (io_dir y); cbn [negb].
  2:{ apply druns_bind, druns_modify, druns_ret. apply Hstop; [by eapply at_quietly|done|done]. }
  apply druns_bind, druns_call; [done|]. intros s2 r Hq2 He2 Hn2 Ho2. apply druns_ret.
  pose proof (at_quietly _ _ _ _ _ _ _ Hat1 Hq2) as Hat2. destruct (r_ent r) as [d|] eqn:Ed.
  2:{ apply Hstop; [done|by apply (errno_nonneg _ _ _ Hn2)|by rewrite He2]. }
  destruct (dir_read (d_os s1) (io_fd y) d Ed) as [Hlt Hnm]. rewrite <- Ho2 in Hlt. change (d_os s1) with (d_os s) in Hlt.
  assert (He2' : d_err s2 = 0) by (by rewrite He2).
  destruct (_ && _ && _); [apply Hagain; [done|done|lia|lia|done]|].
  destruct (live_path L [] [] F F s2 (fd_path a) Hat2) as [x Hx]; [dlive|].
  apply druns_bind, (copy_dirent_rule a d _ x); [done| |done|]. { pose proof (zlength_nonneg data). lia. }
  intros bs s3 Hq3 Hz3 He3 He3' Hd3. specialize (Hd3 (io_fd y)). pose proof (at_quietly _ _ _ _ _ _ _ Hat2 Hq3) as Hat3.
  destruct (Z.eqb_spec (zlength bs) 0) as [E0|E0].
  - apply druns_ret. split; [done|]. split; [apply He3; lia|lia].
  - apply Hagain; [done|by eapply quietly_trans|lia|rewrite zlength_app; lia|rewrite He3' by done; done].
Qed.

Lemma readdir_rule fuel f a offset count L F s : at_ L [] [] F F s -> F !! f = Some a -> d_err s = 0 ->
  (dir_max < fuel)%nat -> 0 <= count < 2 ^ 31 ->
  druns (diod_readdir fuel f offset count) s (fun o s' => finish F replied o s' /\
    forall d, o = Some (R_rreaddir d) -> zlength d <= count).
Proof.
  intros Hat Hf He Hfu Hc. unfold diod_readdir. dstep. unfold if_open.
  assert (Hfail : forall e s1, at_ L [] [] F F s1 -> 0 < e -> druns (fail_with e (fd_path a)) s1
    (fun o s' => finish F replied o s' /\ forall d, o = Some (R_rreaddir d) -> zlength d <= count)).
  { intros e s1 Hat1 He1. unfold fail_with, error. do 2 dstep. apply druns_ret. split; [|done]. split; [by exists L|]. cbn. derr. }
  destruct (fd_ioctx a) as [i|] eqn:Hio; [|by apply Hfail]. dstep; [|by apply Hfail].
  match goal with A : at_ _ _ _ _ _ ?t |- druns _ ?t _ => rename t into s1, A into Hat1 end.
  unfold read_dir_linux. apply druns_bind, druns_bind.
  assert (Hpos : druns (if offset =? 0 then ioctx_rewinddir i else ioctx_seekdir i (int64 offset)) s1
    (fun _ s2 => at_ L [] [] F F s2 /\ d_err s2 = 0)).
  { destruct (offset =? 0); (apply druns_bind, (at_load_ioctx f a i L [] [] F F); [done..|]; intros y _);
      (destruct (io_dir y); [dstep; apply druns_ret; split; [done|congruence]|apply druns_ret; split; [done|congruence]]). }
  eapply druns_mono; [exact Hpos|]. intros _ s2 [Hat2 He2].
  destruct (inv_fid _ _ _ _ _ (proj1 Hat2) f a Hf) as [[x Hx] HL]. specialize (HL i Hio).
  destruct (inv_list _ _ _ _ _ (proj1 Hat2) _ x Hx) as [_ Hd]. destruct (dseg_lookup _ _ _ _ i Hd HL) as [y Hy].
  eapply druns_mono; [apply (read_dir_loop_rule fuel f a i y count [] L F s2); [done|done|done| |by destruct Hc; split|done]|].
  { pose proof (dir_bound (d_os s2) (io_fd y)). lia. }
  intros d s3 (Hat3 & He3 & Hz3). apply druns_bind, druns_get, druns_ret.
  destruct (Z.eqb_spec (d_err s3) 0) as [E|E]; cbn [negb].
  - split; [split; [by exists L|done]|]. by intros d' [= <-].
  - split; [split; [by exists L|cbn; lia]|done].
Qed.
End Rules.
