(* ===== verification/OpsSpec.v ===== *)
(** * Correctness of the file system operations (libdiod/diod_ops.c)

    The operations that the server calls, as one type, and what diod promises the
    server about every sequence of them: an operation that is called as the
    preconditions say returns, never uses memory that is not there, keeps the
    invariant, and builds a reply or sets an error, not both; when all fids are
    gone, so is everything that was allocated or opened for them. *)
From S2P Require Import Prelude Cbuf Protocol Npstring Wire Fcall Hash Conf Exports Ioctx DiodFid Ops IoctxInv IoctxOpen OpsInv OpsRules.
From stdpp Require Import list gmap.
#[local] Open Scope Z_scope.

Inductive op :=
| O_attach (f : fid_id) (user : user_id) (aname : list Z)
| O_clone (f newfid : fid_id)
| O_walk (f : fid_id) (wname : list Z)
| O_read (f : fid_id) (offset count : Z)
| O_write (f : fid_id) (offset : Z) (data : list Z)
| O_clunk (f : fid_id)
| O_destroy (f : fid_id)
| O_remove (f : fid_id)
| O_statfs (f : fid_id)
| O_lopen (f : fid_id) (user : user_id) (flags : Z)
| O_lcreate (f : fid_id) (user : user_id) (name : list Z) (flags mode : Z)
| O_symlink (f : fid_id) (name symtgt : list Z)
| O_mknod (f : fid_id) (name : list Z) (mode major minor : Z)
| O_rename (f d : fid_id) (name : list Z)
| O_readlink (f : fid_id)
| O_getattr (f : fid_id) (request_mask : Z)
| O_setattr (f : fid_id) (valid mode uid gid size : Z) (atime mtime : Z * Z)
| O_readdir (f : fid_id) (offset count : Z)
| O_fsync (f : fid_id) (datasync : Z)
| O_lock (f : fid_id) (type flags : Z)
| O_getlock (f : fid_id) (type start length proc_id : Z) (client_id : list Z)
| O_link (d f : fid_id) (name : list Z)
| O_mkdir (f : fid_id) (name : list Z) (mode : Z)
| O_xattrwalk (f attrfid : fid_id) (name : list Z)
| O_xattrcreate (f : fid_id) (name : list Z) (attr_size flags : Z)
| O_renameat (od : fid_id) (oldname : list Z) (nd : fid_id) (newname : list Z)
| O_unlinkat (d : fid_id) (name : list Z) (flags : Z).

Section Spec.
Context `{CHeap} `{OsOk}.
Context (conf : Conf) (iterator : bool) (fuel : nat).

Definition won {A} (c : DM (option A)) : DM bool := do o <- c; dret (is_some o).

(** An operation, from the [np_uerror (0)] of the server on: did it succeed? *)
Definition run (o : op) : DM bool :=
  do _ <- uerror 0;
  match o with
  | O_attach f user aname => won (diod_attach conf iterator f user aname)
  | O_clone f newfid => diod_clone f newfid
  | O_walk f wname => won (diod_walk fuel f wname)
  | O_read f offset count => won (diod_read f offset count)
  | O_write f offset data => won (diod_write f offset data)
  | O_clunk f => won (diod_clunk f)
  | O_destroy f => do _ <- diod_fiddestroy f; dret true
  | O_remove f => won (diod_remove f)
  | O_statfs f => won (diod_statfs conf f)
  | O_lopen f user flags => won (diod_lopen f user flags)
  | O_lcreate f user name flags mode => won (diod_lcreate f user name flags mode)
  | O_symlink f name symtgt => won (diod_symlink f name symtgt)
  | O_mknod f name mode major minor => won (diod_mknod f name mode major minor)
  | O_rename f d name => won (diod_rename f d name)
  | O_readlink f => won (diod_readlink f)
  | O_getattr f request_mask => won (diod_getattr fuel f request_mask)
  | O_setattr f valid mode uid gid size atime mtime => won (diod_setattr f valid mode uid gid size atime mtime)
  | O_readdir f offset count => won (diod_readdir fuel f offset count)
  | O_fsync f datasync => won (diod_fsync f datasync)
  | O_lock f type flags => won (diod_lock f type flags)
  | O_getlock f type start length proc_id client_id => won (diod_getlock f type start length proc_id client_id)
  | O_link d f name => won (diod_link d f name)
  | O_mkdir f name mode => won (diod_mkdir f name mode)
  | O_xattrwalk f attrfid name => won (diod_xattrwalk f attrfid name)
  | O_xattrcreate f name attr_size flags => won (diod_xattrcreate f name attr_size flags)
  | O_renameat od oldname nd newname => won (diod_renameat od oldname nd newname)
  | O_unlinkat d name flags => won (diod_unlinkat d name flags)
  end.

(** *** Preconditions *)

Definition known (s : dstate) (f : fid_id) (P : Fid -> Prop) : Prop := exists a, d_fids s !! f = Some a /\ P a.
Definition unknown (s : dstate) (f : fid_id) : Prop := d_fids s !! f = None.
Definition any (a : Fid) : Prop := True.
Definition closed (a : Fid) : Prop := fd_ioctx a = None.
(** A fid that is said to have an attribute has one. *)
Definition xattr_there (a : Fid) : Prop := is_xattr a = true -> fd_xattr a <> None.
(** A name that can be appended to the path of the fid. *)
Definition names (s : dstate) (ns : list Z) (a : Fid) : Prop := bytes_ok ns /\ room s (fd_path a) ns.

Definition pre (s : dstate) (o : op) : Prop :=
  match o with
  | O_attach f _ aname => unknown s f /\ bytes_ok aname /\ zlength aname < 2 ^ 31
  | O_clone f nf => known s f any /\ unknown s nf
  | O_walk f ns => known s f (fun a => closed a /\ names s ns a)
  | O_read f _ count => known s f xattr_there /\ 0 <= count < 2 ^ 31
  | O_write f _ data => known s f xattr_there /\ zlength data < 2 ^ 31
  | O_destroy _ => True
  | O_clunk f | O_remove f | O_statfs f | O_lopen f _ _ | O_readlink f | O_setattr f _ _ _ _ _ _ _
  | O_fsync f _ | O_lock f _ _ | O_getlock f _ _ _ _ _ => known s f any
  | O_getattr f _ => known s f (fun a => mountpt a = false)
  | O_lcreate f _ ns _ _ | O_symlink f ns _ | O_mknod f ns _ _ _ | O_mkdir f ns _ => known s f (names s ns)
  | O_rename f d ns => known s f closed /\ known s d (names s ns)
  | O_readdir f _ count => known s f any /\ 0 <= count < 2 ^ 31
  | O_link d f ns => known s f any /\ known s d (names s ns)
  | O_xattrwalk f nf ns => known s f any /\ unknown s nf /\ zlength ns < 2 ^ 16 /\ ~ no_memory /\ attrs_stable
  | O_xattrcreate f _ size _ => known s f (fun a => fd_xattr a = None) /\ 0 <= size
  | O_renameat od os nd ns => known s od (names s os) /\ known s nd (names s ns) /\ ~ no_memory
  | O_unlinkat d ns _ => known s d (names s ns) /\ ~ no_memory
  end.

(** *** The invariant between operations *)

Definition dinv (s : dstate) : Prop := exists L, at_ L [] [] (d_fids s) (d_fids s) s /\ fids_wf (d_fids s).

Lemma ends_dinv {A} (w : A -> bool) (o : A) s : ends w o s -> dinv s /\ if w o then d_err s = 0 else 0 < d_err s.
Proof. intros (F & Hw & (L & Hat) & He). split; [|done]. exists L. by rewrite (proj2 Hat). Qed.

Definition keeps (b : bool) (s : dstate) : Prop := dinv s /\ if b then d_err s = 0 else 0 < d_err s.

Lemma won_ends {A} (c : DM (option A)) s : druns c s (ends is_some) -> druns (won c) s keeps.
Proof. intros Hc. apply druns_bind. eapply druns_mono; [exact Hc|]. intros o s' Ho. by apply druns_ret, (ends_dinv is_some o). Qed.

Lemma won_finish {A} F (c : DM (option A)) s : fids_wf F -> druns c s (finish F is_some) -> druns (won c) s keeps.
Proof. intros Hw Hc. by apply won_ends, (finish_ends _ F). Qed.

(** An operation but [fiddestroy] keeps the invariant and ends as the server expects. *)
Definition destroys (o : op) : bool := match o with O_destroy _ => true | _ => false end.

Lemma run_keeps s o : (dir_max < fuel)%nat -> dinv s -> pre s o -> destroys o = false -> druns (run o) s keeps.
Proof.
  intros Hfu (L & Hat & Hw) Hpre Hd. apply druns_bind, druns_modify. set (s0 := set_err 0 s).
  assert (Hat0 : at_ L [] [] (d_fids s) (d_fids s) s0) by (by eapply at_quietly).
  assert (He : d_err s0 = 0) by done.
  assert (Hroom : forall p ns, room s p ns -> room s0 p ns) by done.
  unfold pre, known, unknown, closed, names in Hpre. destruct o; cbn beta iota in Hpre |- *;
    repeat match goal with A : _ /\ _ |- _ => destruct A | A : exists _, _ |- _ => destruct A end;
    first [apply (won_finish (d_fids s)); [done|];
           first [by eapply remove_rule | by eapply statfs_rule | by eapply readlink_rule | by eapply getattr_rule
                 | by eapply setattr_rule | by eapply fsync_rule | by eapply lock_rule | by eapply getlock_rule
                 | by eapply symlink_rule | by eapply mknod_rule | by eapply mkdir_rule | by eapply link_op_rule
                 | by eapply unlinkat_rule | by eapply renameat_rule]
          | idtac].
  - by eapply won_ends, attach_rule.
  - eapply druns_mono; [by eapply clone_rule|]. intros b s' Hb. by apply (ends_dinv (fun b => b)).
  - by eapply won_ends, walk_rule.
  - eapply won_finish; [done|]. eapply read_rule; try done. by eapply Hw.
  - by eapply won_ends, write_rule.
  - by eapply won_ends, clunk_rule.
  - done.
  - by eapply won_ends, lopen_rule.
  - by eapply won_ends, lcreate_rule.
  - by eapply won_ends, rename_rule.
  - eapply won_finish; [done|]. eapply druns_mono; [by eapply readdir_rule|]. by intros o s' [Ho _].
  - by eapply won_ends, xattrwalk_rule.
  - by eapply won_ends, xattrcreate_rule.
Qed.

Lemma run_destroy s f : dinv s -> druns (run (O_destroy f)) s (fun b s' => dinv s' /\ d_fids s' = delete f (d_fids s)).
Proof.
  intros (L & Hat & Hw). apply druns_bind, druns_modify, druns_bind.
  eapply druns_mono; [apply (destroy_rule f L (d_fids s)); [by eapply at_quietly|done]|].
  intros _ s' (L' & Hat' & Hw'). apply druns_ret. rewrite (proj2 Hat'). split; [|done]. exists L'. by rewrite (proj2 Hat').
Qed.

(** *** Reachable states *)

Lemma dinv_start o : dinv (diod_start o).
Proof.
  destruct (hash_create_ok (K := cstr) (A := path_id) hash_key_string good_key 1000) as [Hok Hmap]; [done|].
  exists (fun _ => []). split; [|by intros f a]. split; [|done]. split; cbn [diod_start d_paths d_ioctxs d_hash d_trace d_fids]; try done.
  - by intros p q i ?%elem_of_nil.
  - intros p. constructor.
  - intros k p. unfold ppool_init. rewrite Hmap, lookup_empty. split; [done|]. by intros (x & Hx & _).
  - by split; intros p [x Hx].
Qed.

(** The states of diod between operations that were called as they may be. *)
Inductive reach (o0 : os) : dstate -> Prop :=
| reach_start : reach o0 (diod_start o0)
| reach_op s o b s' : reach o0 s -> pre s o -> run o s = Ret (b, s') -> reach o0 s'.

Lemma reach_dinv o0 s : (dir_max < fuel)%nat -> reach o0 s -> dinv s.
Proof.
  intros Hfu. induction 1 as [|s o b s' _ IH Hpre Hrun]; [apply dinv_start|].
  destruct (destroys o) eqn:Ed.
  - destruct o; try done. destruct (run_destroy s f IH) as (b2 & s2 & E & Hk & _). congruence.
  - destruct (run_keeps s o Hfu IH Hpre Ed) as (b2 & s2 & E & Hk & _). congruence.
Qed.

(** *** What the invariant gives *)

Lemma no_fids_no_paths s : dinv s -> d_fids s = ∅ -> d_paths s = ∅ /\ d_ioctxs s = ∅.
Proof.
  intros (L & [Hinv _] & _) Hf. rewrite Hf in Hinv.
  assert (Hp : d_paths s = ∅).
  { apply map_empty. intros p. destruct (d_paths s !! p) as [x|] eqn:Hx; [|done].
    destruct (inv_path _ _ _ _ _ Hinv p x Hx) as [Hr Hpos]. rewrite count_if_empty in Hr. cbn in Hr. lia. }
  split; [done|]. apply map_empty. intros i. destruct (d_ioctxs s !! i) as [y|] eqn:Hy; [|done].
  destruct (inv_ioctx _ _ _ _ _ Hinv i y Hy) as ((p & Hi) & _). rewrite (inv_nil _ _ _ _ _ Hinv p) in Hi.
  - by apply elem_of_nil in Hi.
  - by rewrite Hp.
Qed.

Lemma no_fids_no_keys s : dinv s -> d_fids s = ∅ -> to_map (d_hash s) = ∅.
Proof.
  intros Hd Hf. destruct (no_fids_no_paths s Hd Hf) as [Hp _]. destruct Hd as (L & [Hinv _] & _).
  apply map_empty. intros k. destruct (to_map (d_hash s) !! k) as [p|] eqn:Hk; [|done].
  apply (inv_find _ _ _ _ _ Hinv) in Hk as (x & Hx & _). by rewrite Hp in Hx.
Qed.

(** C7: Every operation of the file system, in every state that diod can reach and
    with arguments that meet its precondition, returns: it does not use a path, an
    open file or a buffer that is not there, fails no assertion, and leads to a
    reachable state; it succeeds without an error or fails with one. *)
Theorem operations_safe o0 s o : (dir_max < fuel)%nat -> reach o0 s -> pre s o ->
  exists b s', run o s = Ret (b, s') /\ reach o0 s' /\
    (destroys o = false -> if b then d_err s' = 0 else 0 < d_err s').
Proof.
  intros Hfu Hr Hpre. pose proof (reach_dinv _ _ Hfu Hr) as Hd. destruct (destroys o) eqn:Ed.
  - destruct o; try done. destruct (run_destroy s f Hd) as (b & s' & E & _). exists b, s'. split; [done|].
    split; [by apply (reach_op o0 s (O_destroy f) b)|done].
  - destruct (run_keeps s o Hfu Hd Hpre Ed) as (b & s' & E & _ & He). exists b, s'. split; [done|].
    split; [by apply (reach_op o0 s o b)|done].
Qed.

(** C8: In every state that is reached by operations that each meet their
    precondition (the server does not check it: a walk or a rename of an open fid
    does not meet it, see [preconditions_needed]) the reference counts are exact and the fids of an
    open file agree: a path is referred to by as many fids as its count says, an open
    file too, and the fids of an open file have the same path, on whose list it is. *)
Theorem references_exact o0 s : (dir_max < fuel)%nat -> reach o0 s ->
  (forall p x, d_paths s !! p = Some x -> pa_refcount x = count_if (on_path p) (d_fids s)) /\
  (forall i y, d_ioctxs s !! i = Some y -> io_refcount y = count_if (on_ioctx i) (d_fids s)) /\
  (forall f a, d_fids s !! f = Some a -> is_Some (d_paths s !! fd_path a) /\
     forall i, fd_ioctx a = Some i -> is_Some (d_ioctxs s !! i)) /\
  (forall f g a b i, d_fids s !! f = Some a -> d_fids s !! g = Some b -> fd_ioctx a = Some i -> fd_ioctx b = Some i ->
     fd_path a = fd_path b).
Proof.
  intros Hfu Hr. destruct (reach_dinv _ _ Hfu Hr) as (L & [Hinv _] & _). split; [|split; [|split]].
  - intros p x Hx. destruct (inv_path _ _ _ _ _ Hinv p x Hx) as [Hc _]. cbn in Hc. lia.
  - intros i y Hy. by destruct (inv_ioctx _ _ _ _ _ Hinv i y Hy) as (_ & ? & _).
  - intros f a Hf. destruct (inv_fid _ _ _ _ _ Hinv f a Hf) as [[x Hx] Hi]. split; [done|]. intros i Hio.
    destruct (inv_list _ _ _ _ _ Hinv _ x Hx) as [_ Hd]. by apply (dseg_lookup _ _ _ _ i Hd), Hi.
  - intros f g a b i Hf Hg Ha Hb. apply (inv_once _ _ _ _ _ Hinv _ _ i); [by apply (inv_fid _ _ _ _ _ Hinv f a)|by apply (inv_fid _ _ _ _ _ Hinv g b)].
Qed.

(** C9: After operations that each met their precondition (which the server does not
    check, see [preconditions_needed]), when the last fid is gone, so is all that was taken for fids: no path and
    no open file is left, the pool is empty, every file descriptor that was opened
    was closed once and every reference to a user was given back. *)
Theorem all_given_back o0 s : (dir_max < fuel)%nat -> reach o0 s -> d_fids s = ∅ ->
  d_paths s = ∅ /\ d_ioctxs s = ∅ /\ hash_is_empty (d_hash s) = true /\ forall k, balance k (d_trace s) = 0.
Proof.
  intros Hfu Hr Hf. pose proof (reach_dinv _ _ Hfu Hr) as Hd. destruct (no_fids_no_paths s Hd Hf) as [Hp Hi].
  pose proof (no_fids_no_keys s Hd Hf) as Hk. destruct Hd as (L & [Hinv _] & _). split; [done|]. split; [done|]. split.
  - pose proof (hash_count_spec hash_key_string good_key (d_hash s) (inv_hash _ _ _ _ _ Hinv)) as Hc.
    rewrite Hk, map_size_empty in Hc. by apply Z.eqb_eq.
  - intros k. rewrite (inv_balance _ _ _ _ _ Hinv k), Hi, count_if_empty. done.
Qed.

(** C10: An open file is shared with a fid only if it is a regular file that was
    opened for reading, by the same user, with the same flags and on an export
    that allows sharing; otherwise the fid has an open file of its own. *)
Theorem open_shares o0 s f a user flags mode : (dir_max < fuel)%nat -> reach o0 s -> d_fids s !! f = Some a ->
  closed a -> exists rc s', ioctx_open f user flags mode s = Ret (rc, s') /\
    if rc <? 0 then 0 < d_err s' /\ d_fids s' = d_fids s
    else exists i y, d_fids s' = <[f := set_fd_ioctx (Some i) a]> (d_fids s) /\ d_ioctxs s' !! i = Some y /\
      opened_for s a user flags i y.
Proof.
  intros Hfu Hr Hf Hc. destruct (reach_dinv _ _ Hfu Hr) as (L & Hat & _).
  apply (ioctx_open_rule L [] [] (d_fids s) s f a); [done|done|done| |].
  - intros s' Hat' He _. by rewrite (proj2 Hat').
  - intros L' i y s' F' Hat' _ _ Hy Ho. exists i, y. by rewrite (proj2 Hat').
Qed.
End Spec.
