(* ===== verification/OpsSample.v ===== *)
(** * Runs of the file system operations (libdiod/diod_ops.c)

    A small system on which operations run: every call succeeds, memory holds old
    data, and the directory that is read has one entry.  Runs that meet the
    preconditions of OpsSpec.v, and runs that show what happens when operations
    are called without them. *)
From S2P Require Import Prelude Cbuf Protocol Npstring Wire Fcall Hash Conf Exports Ioctx DiodFid Ops IoctxInv IoctxOpen OpsInv OpsRules OpsSpec.
From S2P Require Import Sample.
From stdpp Require Import list gmap.
#[local] Open Scope Z_scope.

(** The next descriptor, and whether the entry was read. *)
Record small_os := { next_fd : nat; was_read : bool }.

Definition old_stat (dev mode : Z) : stat :=
  {| st_dev := dev; st_ino := 5; st_mode := mode; st_nlink := 1; st_uid := 0; st_gid := 0; st_rdev := 0; st_size := 3;
     st_blksize := 4096; st_blocks := 8; st_atim := (0, 0); st_mtim := (0, 0); st_ctim := (0, 0) |}.

Definition old_vfs : statvfs :=
  {| vf_bsize := 4096; vf_blocks := 1; vf_bfree := 1; vf_bavail := 1; vf_files := 1; vf_ffree := 1; vf_fsid := 1;
     vf_namemax := 255; vf_type := 0 |}.

Definition result (ret : Z) (bs : list Z) (e : option dirent) (dev : Z) : sysres :=
  {| r_ret := ret; r_errno := 34; r_stat := old_stat dev 0x8000; r_bytes := bs; r_ent := e; r_vfs := old_vfs |}.

(** Paths that end in m are on another device. *)
Definition device (p : cstr) : Z := if bool_decide (last p = Some 109) then 2 else 1.

Definition attr_value (n : Z) : sysres :=
  if n =? 0 then result 3 [] None 1 else if n <? 3 then result (-1) [] None 1 else result 3 [1; 2; 3] None 1.

Definition small_sys (o : small_os) (c : syscall) : sysres * small_os :=
  match c with
  | S_malloc n => (if n <? 2 ^ 63 then result 1 (replicate (Z.to_nat n) 170) None 1 else result 0 [] None 1, o)
  | S_reply _ => (result 1 [] None 1, o)
  | S_open _ _ _ | S_opendir _ => (result (Z.of_nat (next_fd o)) [] None 1, {| next_fd := S (next_fd o); was_read := was_read o |})
  | S_stat p | S_lstat p => (result 0 [] None (device p), o)
  | S_readdir _ =>
      if was_read o then (result 0 [] None 1, o)
      else (result 0 [] (Some {| de_ino := 9; de_off := 1; de_type := 4; de_name := [109] |}) 1,
            {| next_fd := next_fd o; was_read := true |})
  | S_lgetxattr _ _ n | S_llistxattr _ n => (attr_value n, o)
  | _ => (result 0 [] None 1, o)
  end.

Lemma attr_ok n : 0 <= n -> 0 <= r_ret (attr_value n) ->
  (0 < n -> r_ret (attr_value n) <= n) /\ zlength (r_bytes (attr_value n)) <= n /\ r_ret (attr_value n) < 2 ^ 63.
Proof.
  intros Hn. unfold attr_value. destruct (Z.eqb_spec n 0) as [->|]; [done|]. destruct (Z.ltb_spec n 3); cbn; [lia|].
  intros _. change (zlength [1; 2; 3]) with 3. lia.
Qed.

#[global] Instance small_system : Os := { sys := small_sys; uid_of_user := Zpos }.

#[global, refine] Instance small_ok : OsOk := {| dir_left := fun o fd => if was_read o then 0%nat else 1%nat; dir_max := 1 |}.
Proof.
  - intros o c. unfold sys, small_system, small_sys, attr_value. by destruct c; repeat case_match.
  - intros o c. unfold sys, small_system, small_sys, attr_value. destruct c; repeat case_match; cbn; lia.
  - intros o n Hn. cbn. destruct (Z.ltb_spec n (2 ^ 63)); cbn; [|done]. unfold zlength. rewrite length_replicate. lia.
  - intros o fd n off Hn. done.
  - intros o fd data off. apply zlength_nonneg.
  - intros o p nm n Hn r. revert r. apply attr_ok, Hn.
  - intros o p n Hn r. revert r. apply attr_ok, Hn.
  - intros o fd. destruct (was_read o); lia.
  - intros o fd d. cbn. destruct (was_read o) eqn:E; [done|]. cbn. intros [= <-]. split; [cbn; lia|done].
  - intros o fd p. cbn. lia.
Defined.

Section Runs.
Context `{CHeap} `{Os} (conf : Conf) (iterator : bool) (fuel : nat).

Fixpoint run_all (ops : list op) : DM (list bool) :=
  match ops with
  | [] => dret []
  | o :: ops => do b <- run conf iterator fuel o; do bs <- run_all ops; dret (b :: bs)
  end.
End Runs.

Definition small_start : @os small_system := {| next_fd := 3; was_read := false |}.

Definition small_run (ops : list op) : res (list bool * dstate) :=
  @run_all big_heap small_system (diod_conf_init None) true 2 ops (diod_start small_start).

(** What a run did, for the runs below. *)
Definition path_of (r : res (list bool * dstate)) (f : fid_id) : option cstr :=
  match r with
  | Ret (_, s) => a ← d_fids s !! f; x ← d_paths s !! fd_path a; Some (c_string (pa_s x))
  | _ => None
  end.
Definition last_error (r : res (list bool * dstate)) : option (option bool * Z) :=
  match r with Ret (bs, s) => Some (last bs, d_err s) | _ => None end.
Definition stores (r : res (list bool * dstate)) : list (list Z) :=
  match r with
  | Ret (_, s) => omap (fun e => match e with E_sys (S_lsetxattr _ _ data _) _ => Some data | _ => None end) (d_trace s)
  | _ => []
  end.

Definition root : list Z := [47; 101].

(** The preconditions of the operations are needed, and the server does not
    check them: walking or renaming a fid that is open leaves its file on the list
    of the old path, and the next open of that path uses freed memory; a clone of a
    fid with an attribute has none, and reading it dereferences NULL; a second
    Txattrcreate fails an assertion; clunking an attribute that was not written
    stores what the memory held before; getting the attributes of a mount point
    whose entry is gone gives neither a reply nor an error; and a name with a NUL
    makes another fid that walks to a/c stay at a. *)
Theorem preconditions_needed :
  small_run [O_attach 1 7 root; O_attach 2 7 root; O_lopen 1 7 0; O_walk 1 [120]; O_clunk 1; O_destroy 1; O_lopen 2 7 0] = UB /\
  small_run [O_attach 1 7 root; O_attach 2 7 root; O_lopen 1 7 0; O_rename 1 2 [120]; O_clunk 1; O_destroy 1; O_lopen 2 7 0] = UB /\
  small_run [O_attach 1 7 root; O_xattrwalk 1 2 [97]; O_clone 2 3; O_read 3 0 1] = UB /\
  small_run [O_attach 1 7 root; O_xattrcreate 1 [97] 4 0; O_xattrcreate 1 [97] 4 0] = Abort /\
  stores (small_run [O_attach 1 7 root; O_xattrcreate 1 [97] 4 0; O_clunk 1]) = [[170; 170; 170; 170]] /\
  last_error (small_run [O_attach 1 7 root; O_walk 1 [109]; O_getattr 1 0]) = Some (Some false, 0) /\
  path_of (small_run [O_attach 1 7 root; O_clone 1 2; O_walk 1 [97; 0; 98]; O_walk 2 [97]; O_walk 2 [99]]) 2 = Some [47; 101; 47; 97].
Proof. repeat split; vm_compute; reflexivity. Qed.

(** *** Runs that meet the preconditions *)

Definition after (ops : list op) : dstate :=
  match small_run ops with Ret (_, s) => s | _ => diod_start small_start end.

Abbreviation small_reach := (@reach big_heap small_system (diod_conf_init None) true 2
  small_start).

Lemma small_memory : ~ @no_memory small_system.
Proof. intros (o & n & Hn & E). cbn in E. rewrite (proj2 (Z.ltb_lt n (2 ^ 63))) in E by lia. done. Qed.

Lemma small_attrs : @attrs_stable small_system.
Proof. by intros [nm|] p o E. Qed.

Lemma run_all_snoc `{CHeap} `{Os} conf iterator fuel ops o s : run_all conf iterator fuel (ops ++ [o]) s =
  let! (bs, s1) := run_all conf iterator fuel ops s in
  let! (b, s2) := run conf iterator fuel o s1 in Ret (bs ++ [b], s2).
Proof.
  revert s. induction ops as [|o' ops IH]; intros s; cbn [app run_all]; unfold dbind, dret; cbn [res_bind].
  - by destruct (run conf iterator fuel o s) as [[b s2]| |].
  - destruct (run conf iterator fuel o' s) as [[b s1]| |]; cbn [res_bind]; [|done..]. rewrite IH.
    destruct (run_all conf iterator fuel ops s1) as [[bs s2]| |]; cbn [res_bind]; [|done..].
    by destruct (run conf iterator fuel o s2) as [[b2 s3]| |].
Qed.

Definition returns (r : res (list bool * dstate)) : bool := match r with Ret _ => true | _ => false end.

Lemma reach_snoc ops o : returns (small_run (ops ++ [o])) = true -> small_reach (after ops) -> pre (after ops) o ->
  small_reach (after (ops ++ [o])).
Proof.
  unfold after, small_run. rewrite run_all_snoc.
  destruct (run_all _ _ _ ops _) as [[bs s1]| |]; cbn [res_bind]; [|done..].
  destruct (run _ _ _ o s1) as [[b s2]| |] eqn:E; cbn [res_bind]; [|done..].
  intros _ Hr Hp. by apply (reach_op _ _ _ _ s1 o b s2).
Qed.

Lemma reach_attach : small_reach (after [O_attach 1 7 root]).
Proof.
  apply (reach_snoc [] (O_attach 1 7 root)); [vm_compute; reflexivity|apply reach_start|].
  split; [done|]. split; [|done]. repeat constructor; lia.
Qed.

Lemma reach_open : small_reach (after [O_attach 1 7 root; O_lopen 1 7 0]).
Proof.
  apply (reach_snoc [O_attach 1 7 root] (O_lopen 1 7 0)); [vm_compute; reflexivity|apply reach_attach|].
  eexists. split; [vm_compute; reflexivity|done].
Qed.

Lemma reach_clunk : small_reach (after [O_attach 1 7 root; O_lopen 1 7 0; O_clunk 1; O_destroy 1]).
Proof.
  apply (reach_snoc [O_attach 1 7 root; O_lopen 1 7 0; O_clunk 1] (O_destroy 1)); [vm_compute; reflexivity| |done].
  apply (reach_snoc [O_attach 1 7 root; O_lopen 1 7 0] (O_clunk 1)); [vm_compute; reflexivity|apply reach_open|].
  eexists. split; [vm_compute; reflexivity|done].
Qed.

Lemma operations_safe_witness : exists b s',
  @run big_heap small_system (diod_conf_init None) true 2 (O_xattrwalk 1 2 [97]) (after [O_attach 1 7 root; O_lopen 1 7 0]) =
    Ret (b, s') /\ small_reach s' /\ (destroys (O_xattrwalk 1 2 [97]) = false -> if b then d_err s' = 0 else 0 < d_err s').
Proof.
  apply (@operations_safe big_heap small_system small_ok (diod_conf_init None) true 2 small_start); [cbn; lia|apply reach_open|].
  split; [eexists; split; [vm_compute; reflexivity|done]|]. split; [vm_compute; reflexivity|].
  split; [done|]. split; [apply small_memory|apply small_attrs].
Defined.

Lemma references_exact_witness : let s := after [O_attach 1 7 root; O_lopen 1 7 0] in
  (forall p x, d_paths s !! p = Some x -> pa_refcount x = count_if (on_path p) (d_fids s)) /\
  (forall i y, d_ioctxs s !! i = Some y -> io_refcount y = count_if (on_ioctx i) (d_fids s)) /\
  (forall f a, d_fids s !! f = Some a -> is_Some (d_paths s !! fd_path a) /\
     forall i, fd_ioctx a = Some i -> is_Some (d_ioctxs s !! i)) /\
  (forall f g a b i, d_fids s !! f = Some a -> d_fids s !! g = Some b -> fd_ioctx a = Some i -> fd_ioctx b = Some i ->
     fd_path a = fd_path b).
Proof.
  apply (@references_exact big_heap small_system small_ok (diod_conf_init None) true 2 small_start); [cbn; lia|apply reach_open].
Defined.

Lemma all_given_back_witness : let s := after [O_attach 1 7 root; O_lopen 1 7 0; O_clunk 1; O_destroy 1] in
  d_paths s = ∅ /\ d_ioctxs s = ∅ /\ hash_is_empty (d_hash s) = true /\ forall k, balance k (d_trace s) = 0.
Proof.
  apply (@all_given_back big_heap small_system small_ok (diod_conf_init None) true 2 small_start);
    [cbn; lia|apply reach_clunk|vm_compute; reflexivity].
Defined.

Lemma open_shares_witness : let s := after [O_attach 1 7 root] in
  exists a rc s', d_fids s !! 1%positive = Some a /\ ioctx_open 1 7 0 0 s = Ret (rc, s') /\
    if rc <? 0 then 0 < d_err s' /\ d_fids s' = d_fids s
    else exists i y, d_fids s' = <[1%positive := set_fd_ioctx (Some i) a]> (d_fids s) /\ d_ioctxs s' !! i = Some y /\
      opened_for s a 7 0 i y.
Proof.
  intros s. assert (Ha : d_fids s !! 1%positive = Some {| fd_path := 1; fd_ioctx := None; fd_xattr := None; fd_flags := 0 |})
    by (vm_compute; reflexivity).
  eexists. destruct (@open_shares big_heap small_system small_ok (diod_conf_init None) true 2 small_start s 1 _ 7 0 0
    ltac:(cbn; lia) reach_attach Ha eq_refl) as (rc & s' & E & Hs). exists rc, s'. split; [exact Ha|]. split; [exact E|exact Hs].
Defined.
