(* ===== verification/Format.v ===== *)
(** * Formatted text (libnpfs/npstring.c, srv.c)

    Text that is appended to a buffer with [aspf], which makes the buffer larger, or
    with [spf], which cuts the text off, and the line of numbers in which the server
    publishes the statistics of a thread pool and a monitor reads them back.
    [vsnprintf] and [sscanf] are modelled for the conversions that are used. *)
From S2P Require Import Prelude Cbuf Protocol Npstring Srv.
From stdpp Require Import list.
#[local] Open Scope Z_scope.

(** ** Buffers *)

(** [vsnprintf] at an offset of an object: at most [size] bytes with the zero. *)
Definition vsnprintf (m : list Z) (a size : Z) (text : cstr) : res (Z * list Z) :=
  if size <=? 0 then Ret (zlength text, m)
  else let! m := store_bytes m a (take (Z.to_nat (size - 1)) text ++ [0]) in Ret (zlength text, m).

(** [strlen] of an object: there is a zero in it. *)
Fixpoint obj_strlen (m : list Z) : res Z :=
  match m with
  | [] => UB
  | c :: m => if c =? 0 then Ret 0 else let! n := obj_strlen m in Ret (n + 1)
  end.

Definition CHUNKSIZE : Z := 80.

(** What [aspf] leaves: the buffer and its size, or a failure.  After a failure
    [*sp] may point to memory that a [realloc] before it gave back. *)
Inductive aspf_result :=
| Aspf_ok (m : list Z) (len : Z)
| Aspf_failed (dangling : bool).

Section Aspf.
(** The bytes of new memory, and whether the allocation number [k] succeeds. *)
Variable undef : Z.
Variable alloc : nat -> bool.

(** The loop of [vaspf]; [moved]: the caller's buffer was reallocated. *)
Fixpoint aspf_loop (fuel k : nat) (m : list Z) (slen len : Z) (text : cstr) (moved had : bool) : res (option aspf_result) :=
  match fuel with
  | O => Ret None
  | S fuel =>
      let! (n, m) := vsnprintf m slen (len - slen) text in
      if n <? len - slen then Ret (Some (Aspf_ok m len))
      else
        let len := len + CHUNKSIZE in
        if alloc k then aspf_loop fuel (S k) (m ++ replicate (Z.to_nat CHUNKSIZE) undef) slen len text had had
        else Ret (Some (Aspf_failed moved))
  end.

(** [sp] is [*sp] with [*lp]; the text is what the format makes of the arguments. *)
Definition aspf (fuel : nat) (sp : option (list Z * Z)) (text : cstr) : res (option aspf_result) :=
  match sp with
  | Some (m, len) => let! slen := obj_strlen m in aspf_loop fuel 0 m slen len text false true
  | None =>
      if alloc 0 then aspf_loop fuel 1 (replicate (Z.to_nat CHUNKSIZE) undef) 0 CHUNKSIZE text false false
      else Ret (Some (Aspf_failed false))
  end.
End Aspf.

(** [spf]: the text is cut off with three dots. *)
Definition spf (m : list Z) (len : Z) (text : cstr) : res (list Z) :=
  let! n := obj_strlen m in
  let rest := len - n in
  let! _ := np_assert (0 <? rest) in
  let! (k, m) := vsnprintf m n rest text in
  if rest <=? k then store_bytes m (n + rest - 4) [46; 46; 46; 0] else Ret m.

(** ** Numbers *)

(** The decimal digits of a number below 10 ^ fuel, before [acc]. *)
Fixpoint digits (fuel : nat) (n : Z) (acc : cstr) : cstr :=
  match fuel with
  | O => acc
  | S fuel => if n <? 10 then 48 + n :: acc else digits fuel (n / 10) (48 + n mod 10 :: acc)
  end.

(** [%d], [%"PRIu64"] *)
Definition dec (z : Z) : cstr := if z <? 0 then 45 :: digits 20 (- z) [] else digits 20 z [].

Definition is_space (c : Z) : bool := (c =? 32) || ((9 <=? c) && (c <=? 13)).
Definition is_digit (c : Z) : bool := (48 <=? c) && (c <=? 57).

Fixpoint skip_space (s : cstr) : cstr :=
  match s with
  | c :: s' => if is_space c then skip_space s' else s
  | [] => []
  end.

(** A word, and what is behind it. *)
Fixpoint word (s : cstr) : cstr * cstr :=
  match s with
  | c :: s' => if is_space c then ([], s) else let '(w, r) := word s' in (c :: w, r)
  | [] => ([], [])
  end.

Fixpoint number (acc : Z) (s : cstr) : Z * cstr :=
  match s with
  | c :: s' => if is_digit c then number (10 * acc + (c - 48)) s' else (acc, s)
  | [] => (acc, [])
  end.

(** A conversion of [sscanf]: the value and the rest of the input. *)
Definition scan_number (s : cstr) : option (Z * cstr) :=
  let s := skip_space s in
  let '(sign, s) := match s with
                    | c :: s' => if c =? 45 then (-1, s') else if c =? 43 then (1, s') else (1, s)
                    | [] => (1, s)
                    end in
  match s with
  | c :: _ => if is_digit c then let '(n, r) := number 0 s in Some (sign * n, r) else None
  | [] => None
  end.

(** [strtol] and [strtoull] stop at the limits of their types. *)
Definition clamp (lo hi z : Z) : Z := Z.max lo (Z.min hi z).
Definition as_int (z : Z) : Z := int32 (clamp (- 2 ^ 63) (2 ^ 63 - 1) z).
Definition as_u64 (z : Z) : Z := u64 (clamp (- (2 ^ 64 - 1)) (2 ^ 64 - 1) z).

(** The numbers that [sscanf] converts before it fails, at most [k]. *)
Fixpoint scan_numbers (k : nat) (s : cstr) : list Z :=
  match k with
  | O => []
  | S k => match scan_number s with Some (n, r) => n :: scan_numbers k r | None => [] end
  end.

(** ** The line of a thread pool *)

(** The request types in the order of the line. *)
Definition stat_types : list Z :=
  [Tstatfs; Tlopen; Tlcreate; Tsymlink; Tmknod; Trename; Treadlink; Tgetattr; Tsetattr; Txattrwalk; Txattrcreate; Treaddir;
   Tfsync; Tlock; Tgetlock; Tlink; Tmkdir; Tversion; Tauth; Tattach; Tflush; Twalk; Tread; Twrite; Tclunk; Tremove].

Definition stat_bins : nat := 12.

(** The numbers of the line. *)
Definition stat_values (numreqs numfids : Z) (st : Npstats) : res (list Z) :=
  let! reqs := foldr (fun t k => let! r := k in
                                 match st_nreqs st !! Z.to_nat t with Some n => Ret (n :: r) | None => UB end)
                 (Ret []) stat_types in
  let! _ := if (stat_bins <=? length (st_rcount st))%nat && (stat_bins <=? length (st_wcount st))%nat then Ret tt else UB in
  Ret ([numreqs; numfids; st_rbytes st; st_wbytes st] ++ reqs ++ take stat_bins (st_rcount st) ++ take stat_bins (st_wcount st)).

(** The text of [np_encode_tpools_str]. *)
Definition tpools_text (name : cstr) (numreqs numfids : Z) (st : Npstats) : res cstr :=
  let! vs := stat_values numreqs numfids st in
  Ret (name ++ [32] ++ concat (map (fun v => dec v ++ [32]) vs) ++ [10]).

Definition np_encode_tpools_str (undef : Z) (alloc : nat -> bool) (fuel : nat) (sp : option (list Z * Z)) (name : cstr)
    (numreqs numfids : Z) (st : Npstats) : res (option aspf_result) :=
  let! text := tpools_text name numreqs numfids st in aspf undef alloc fuel sp text.

(** What a monitor gets from a line: the name, the numbers of requests and of fids,
    and the counters.  After a failure [stats->name] is freed, which was stored only
    if the name was read. *)
Inductive decoded :=
| Decoded (name : cstr) (numreqs numfids : Z) (st : Npstats)
| Decode_failed (name_read : bool).

Fixpoint store_all (ts vs a : list Z) : list Z :=
  match ts, vs with
  | t :: ts, v :: vs => store_all ts vs (<[Z.to_nat t := v]> a)
  | _, _ => a
  end.

Definition np_decode_tpools_str (s : cstr) (st : Npstats) : decoded :=
  let '(name, r) := word (skip_space s) in
  match name with
  | [] => Decode_failed false
  | _ =>
      match scan_numbers 54 r with
      | nr :: nf :: rb :: wb :: vs =>
          if (length vs =? 50)%nat then
            let vs := map as_u64 vs in
            Decoded name (as_int nr) (as_int nf)
              {| st_nreqs := store_all stat_types vs (st_nreqs st); st_rcount := take stat_bins (drop 26 vs);
                 st_wcount := take stat_bins (drop 38 vs); st_rbytes := as_u64 rb; st_wbytes := as_u64 wb |}
          else Decode_failed true
      | _ => Decode_failed true
      end
  end.
