(* ===== verification/FormatSpec.v ===== *)
(** * Text is appended whole, and statistics are read as they were written

    Theorems on [aspf], [spf] and the line of a thread pool (libnpfs/npstring.c). *)
From S2P Require Import Prelude Cbuf Protocol Npstring Srv Format.
From stdpp Require Import list.
#[local] Open Scope Z_scope.

(** ** Buffers *)

(** The object holds the string: it ends in the object. *)
Definition holds_string (m : list Z) (s : cstr) : Prop := no_nul s /\ exists t, m = s ++ 0 :: t.

Lemma holds_string_c m s : holds_string m s -> c_string m = s.
Proof.
  intros [Hs [t ->]]. induction Hs as [|c s Hc Hs IH]; [done|]. cbn. rewrite (proj2 (Z.eqb_neq _ _) Hc). by rewrite IH.
Qed.

Lemma holds_string_strlen m s : holds_string m s -> obj_strlen m = Ret (zlength s).
Proof.
  intros [Hs [t ->]]. induction Hs as [|c s Hc Hs IH]; [done|]. cbn. rewrite (proj2 (Z.eqb_neq _ _) Hc), IH. cbn.
  f_equal. unfold zlength. cbn. lia.
Qed.

Lemma store_text_at m a bs : 0 <= a -> a + zlength bs <= zlength m ->
  store_bytes m a bs = Ret (take (Z.to_nat a) m ++ bs ++ drop (Z.to_nat a + length bs) m).
Proof. intros Ha Hl. unfold store_bytes. rewrite !(proj2 (Z.leb_le _ _)) by lia. done. Qed.

Lemma vsnprintf_at m a size text : 0 <= a -> 0 < size -> a + size <= zlength m ->
  exists t, vsnprintf m a size text =
    Ret (zlength text, take (Z.to_nat a) m ++ take (Z.to_nat (size - 1)) text ++ 0 :: t) /\
    (length (take (Z.to_nat a) m ++ take (Z.to_nat (size - 1)) text ++ 0%Z :: t) = length m)%nat.
Proof.
  intros Ha Hs Hl. set (bs := take (Z.to_nat (size - 1)) text).
  assert (Hb : zlength (bs ++ [0]) <= size).
  { unfold bs. rewrite zlength_app. unfold zlength. rewrite length_take. cbn. lia. }
  exists (drop (Z.to_nat a + length (bs ++ [0])) m). unfold vsnprintf. rewrite (proj2 (Z.leb_gt _ _)) by lia.
  fold bs. rewrite store_text_at by lia. cbn. rewrite <- app_assoc. split; [done|].
  unfold zlength in *. rewrite !length_app in *. cbn in *. rewrite length_take, length_drop. lia.
Qed.

(** Text behind a string that the object starts with. *)
Lemma vsnprintf_behind m old text : take (length old) m = old -> zlength old < zlength m ->
  exists m1, vsnprintf m (zlength old) (zlength m - zlength old) text = Ret (zlength text, m1) /\ zlength m1 = zlength m /\
    exists t, m1 = old ++ take (Z.to_nat (zlength m - zlength old - 1)) text ++ 0 :: t.
Proof.
  intros Hpre Hlt. pose proof (zlength_nonneg old).
  destruct (vsnprintf_at m (zlength old) (zlength m - zlength old) text) as (t & Ev & Hlen); [lia..|].
  replace (Z.to_nat (zlength old)) with (length old) in * by (unfold zlength; lia). rewrite Hpre in *.
  eexists. split; [exact Ev|]. split; [unfold zlength at 1; by rewrite Hlen|]. by exists t.
Qed.

(** ** [aspf] *)

Section Append.
Context (undef : Z) (alloc : nat -> bool) (Halloc : forall k, alloc k = true).

Lemma aspf_loop_appends fuel k m old text moved had : no_nul old -> no_nul text -> take (length old) m = old ->
  zlength old < zlength m -> zlength text < zlength m - zlength old + CHUNKSIZE * Z.of_nat fuel ->
  exists m', aspf_loop undef alloc (S fuel) k m (zlength old) (zlength m) text moved had = Ret (Some (Aspf_ok m' (zlength m'))) /\
    holds_string m' (old ++ text).
Proof.
  intros Hold Htext. revert k m moved. induction fuel as [|fuel IH]; intros k m moved Hpre Hlt Hfuel.
  all: destruct (vsnprintf_behind m old text Hpre Hlt) as (m1 & Ev & Hm1 & t & Ht).
  all: cbn [aspf_loop]; rewrite Ev; cbn [res_bind].
  all: destruct (Z.ltb_spec (zlength text) (zlength m - zlength old)) as [Hfit|Hno];
    [exists m1; rewrite Hm1; split; [done|]; rewrite take_ge in Ht by (unfold zlength in *; lia);
     split; [by apply Forall_app|exists t; by rewrite <- app_assoc]|].
  { cbn in Hfuel. unfold CHUNKSIZE in Hfuel. lia. }
  rewrite Halloc. set (m2 := m1 ++ _).
  assert (Hm2 : zlength m2 = zlength m + CHUNKSIZE) by (unfold m2; rewrite zlength_app, Hm1; done).
  rewrite <- Hm2. apply IH; [|unfold CHUNKSIZE in *; lia..].
  unfold m2. by rewrite Ht, <- app_assoc, take_app_length.
Qed.

(** [aspf] appends all of the text to the string, which stays inside the buffer and
    ends with a zero, and reports the size that the buffer has; one round for every
    80 bytes is enough. *)
Theorem aspf_appended sp old text fuel : no_nul old -> no_nul text ->
  match sp with Some (m, len) => holds_string m old /\ len = zlength m | None => old = [] end ->
  zlength text < CHUNKSIZE * Z.of_nat fuel ->
  exists m, aspf undef alloc (S fuel) sp text = Ret (Some (Aspf_ok m (zlength m))) /\ holds_string m (old ++ text).
Proof.
  intros Hold Htext Hsp Hfuel.
  destruct sp as [[m len]|].
  - destruct Hsp as [Hh ->]. pose proof Hh as [_ [t Hm]]. unfold aspf. rewrite (holds_string_strlen m old Hh). cbn [res_bind].
    destruct (aspf_loop_appends fuel 0 m old text false true Hold Htext) as (m' & E & Hm'); [by rewrite Hm, take_app_length| | |].
    + rewrite Hm, zlength_app. unfold zlength. cbn. lia.
    + rewrite Hm, zlength_app. unfold zlength in *. cbn. lia.
    + exists m'. done.
  - subst old. unfold aspf. rewrite Halloc.
    destruct (aspf_loop_appends fuel 1 (replicate (Z.to_nat CHUNKSIZE) undef) [] text false false Hold Htext) as (m' & E & Hm');
      [done|done| |by exists m'].
    change (zlength (replicate (Z.to_nat CHUNKSIZE) undef)) with CHUNKSIZE. change (zlength []) with 0. unfold CHUNKSIZE in *. lia.
Qed.

End Append.

(** ** [spf] *)

(** What a buffer of [len] bytes shows of a text. *)
Definition shown (len : Z) (s : cstr) : cstr :=
  if zlength s <? len then s else take (Z.to_nat (len - 4)) s ++ [46; 46; 46].

(** [spf] never writes outside the buffer and leaves a string in it: the text
    behind what was there, or as much as fits with three dots at the end. *)
Theorem spf_shows m old text : holds_string m old -> no_nul text -> 4 <= zlength m ->
  exists m', spf m (zlength m) text = Ret m' /\ zlength m' = zlength m /\ holds_string m' (shown (zlength m) (old ++ text)).
Proof.
  intros Hh Htext Hlen. pose proof Hh as [Hold [t Hm]]. unfold spf. rewrite (holds_string_strlen m old Hh). cbn [res_bind].
  assert (Hlt : zlength old < zlength m) by (rewrite Hm, zlength_app; unfold zlength; cbn; lia).
  unfold np_assert. rewrite (proj2 (Z.ltb_lt _ _)) by lia. cbn [res_bind].
  destruct (vsnprintf_behind m old text) as (m1 & Ev & Hm1 & t1 & Ht1); [by rewrite Hm, take_app_length|done|].
  rewrite Ev. cbn [res_bind]. unfold shown. rewrite zlength_app.
  destruct (Z.leb_spec (zlength m - zlength old) (zlength text)) as [Hcut|Hfit].
  - rewrite (proj2 (Z.ltb_ge _ _)) by lia. replace (zlength old + (zlength m - zlength old) - 4) with (zlength m - 4) by lia.
    rewrite store_text_at; [|lia|change (zlength [46; 46; 46; 0]) with 4; lia].
    eexists. split; [reflexivity|]. split.
    { unfold zlength in *. rewrite !length_app, length_take, length_drop. cbn. lia. }
    split; [apply Forall_app; split; [apply Forall_take, Forall_app; done|by repeat constructor]|].
    assert (Hpre : take (Z.to_nat (zlength m - 4)) m1 = take (Z.to_nat (zlength m - 4)) (old ++ text)).
    { rewrite Ht1, app_assoc, take_app_le.
      - unfold zlength in *. rewrite !take_app. f_equal. rewrite take_take. f_equal. lia.
      - unfold zlength in *. rewrite length_app, length_take. lia. }
    exists []. rewrite Hpre, drop_ge by (unfold zlength in *; cbn; lia). rewrite app_nil_r, <- app_assoc. done.
  - rewrite (proj2 (Z.ltb_lt _ _)) by lia. exists m1. split; [done|]. split; [done|].
    rewrite take_ge in Ht1 by (unfold zlength in *; lia).
    split; [by apply Forall_app|]. exists t1. by rewrite <- app_assoc.
Qed.

(** ** Numbers *)

Definition digit (c : Z) : Prop := 48 <= c <= 57.
Definition value (ds : list Z) : Z := foldl (fun a c => 10 * a + (c - 48)) 0 ds.

Lemma is_digit_spec c : is_digit c = true <-> digit c.
Proof. unfold is_digit, digit. rewrite andb_true_iff, !Z.leb_le. done. Qed.

Lemma digit_not_space c : digit c -> is_space c = false.
Proof. unfold digit, is_space. intros Hc. zcases; cbn; lia. Qed.

(** The digits of a number. *)
Lemma digits_value fuel n acc : (0 < fuel)%nat -> 0 <= n < 10 ^ Z.of_nat fuel ->
  exists ds, digits fuel n acc = ds ++ acc /\ ds <> [] /\ Forall digit ds /\ value ds = n.
Proof.
  revert n acc. induction fuel as [|fuel IH]; [lia|]. intros n acc _ Hn. cbn [digits].
  destruct (Z.ltb_spec n 10) as [Hlt|Hge].
  - exists [48 + n]. split; [done|]. split; [done|]. split; [repeat constructor; unfold digit; lia|]. unfold value. cbn. lia.
  - rewrite Nat2Z.inj_succ, Z.pow_succ_r in Hn by lia. pose proof (Z.mod_pos_bound n 10). pose proof (Z.div_mod n 10).
    destruct fuel as [|fuel]; [cbn in Hn; lia|].
    destruct (IH (n / 10) (48 + n mod 10 :: acc)) as (ds & E & Hne & Hd & Hv); [lia|split; [apply Z.div_pos; lia|apply Z.div_lt_upper_bound; lia]|].
    exists (ds ++ [48 + n mod 10]). rewrite E, <- app_assoc. split; [done|]. split; [by destruct ds|].
    split; [apply Forall_app; split; [done|repeat constructor; unfold digit; lia]|].
    unfold value in *. rewrite foldl_app. cbn. lia.
Qed.

Lemma number_digits ds acc r : Forall digit ds -> match r with c :: _ => is_digit c = false | [] => True end ->
  number acc (ds ++ r) = (foldl (fun a c => 10 * a + (c - 48)) acc ds, r).
Proof.
  intros Hd Hr. revert acc. induction Hd as [|c ds Hc Hd IH]; intros acc; cbn.
  - destruct r as [|c r]; [done|]. cbn. by rewrite Hr.
  - rewrite (proj2 (is_digit_spec c) Hc). apply IH.
Qed.

(** What is printed is scanned, also when spaces come first. *)
Lemma scan_dec z r : - 10 ^ 20 < z < 10 ^ 20 -> scan_number (dec z ++ 32 :: r) = Some (z, 32 :: r).
Proof.
  intros Hz. assert (Hend : match 32 :: r with c :: _ => is_digit c = false | [] => True end) by done. unfold dec.
  destruct (Z.ltb_spec z 0) as [Hneg|Hpos].
  - destruct (digits_value 20 (- z) []) as (ds & E & Hne & Hd & Hv); [lia|change (Z.of_nat 20) with 20; lia|]. rewrite E, app_nil_r.
    destruct ds as [|c ds]; [done|]. inversion Hd as [|? ? Hc Hd']; subst. unfold scan_number. cbn [app skip_space].
    change (is_space 45) with false. cbv iota beta. change (45 =? 45) with true. cbv iota beta.
    cbn [app]. rewrite (proj2 (is_digit_spec c) Hc).
    change (c :: ds ++ 32 :: r) with ((c :: ds) ++ 32 :: r). rewrite number_digits by done. fold (value (c :: ds)). rewrite Hv.
    do 2 f_equal. lia.
  - destruct (digits_value 20 z []) as (ds & E & Hne & Hd & Hv); [lia|change (Z.of_nat 20) with 20; lia|]. rewrite E, app_nil_r.
    destruct ds as [|c ds]; [done|]. inversion Hd as [|? ? Hc Hd']; subst. unfold scan_number. cbn [app skip_space].
    rewrite (digit_not_space c Hc). cbv iota beta. unfold digit in Hc.
    rewrite !(proj2 (Z.eqb_neq _ _)) by lia. rewrite (proj2 (is_digit_spec c) Hc).
    change (c :: ds ++ 32 :: r) with ((c :: ds) ++ 32 :: r). rewrite number_digits by done. fold (value (c :: ds)).
    do 2 f_equal. unfold value. lia.
Qed.

Lemma scan_number_space r : scan_number (32 :: r) = scan_number r.
Proof. done. Qed.

Lemma scan_numbers_dec vs r : Forall (fun z => - 10 ^ 20 < z < 10 ^ 20) vs ->
  scan_numbers (length vs) (32 :: concat (map (fun v => dec v ++ [32]) vs) ++ r) = vs.
Proof.
  induction 1 as [|v vs Hv Hvs IH]; [done|]. cbn [length scan_numbers map concat]. rewrite scan_number_space, <- !app_assoc.
  cbn [app]. rewrite scan_dec by done. by rewrite IH.
Qed.

Lemma as_u64_id z : 0 <= z < 2 ^ 64 -> as_u64 z = z.
Proof. intros Hz. unfold as_u64, clamp. rewrite Z.min_r, Z.max_r, u64_small by lia. done. Qed.

Lemma as_int_id z : - 2 ^ 31 <= z < 2 ^ 31 -> as_int z = z.
Proof. intros Hz. unfold as_int, clamp. rewrite Z.min_r, Z.max_r, int32_small by lia. done. Qed.

(** ** The line of a thread pool *)

Definition good_word (s : cstr) : Prop := s <> [] /\ Forall (fun c => is_space c = false) s.

Lemma word_good s r : Forall (fun c => is_space c = false) s -> word (s ++ 32 :: r) = (s, 32 :: r).
Proof. induction 1 as [|c s Hc Hs IH]; [done|]. cbn. by rewrite Hc, IH. Qed.

Definition counter (z : Z) : Prop := 0 <= z < 2 ^ 64.

(** Statistics as the server keeps them: arrays of their sizes, of counters. *)
Definition stats_wf (st : Npstats) : Prop :=
  length (st_nreqs st) = 128%nat /\ length (st_rcount st) = 12%nat /\ length (st_wcount st) = 12%nat /\
  Forall counter (st_nreqs st) /\ Forall counter (st_rcount st) /\ Forall counter (st_wcount st) /\
  counter (st_rbytes st) /\ counter (st_wbytes st).

(** The counters of the request types of the line. *)
Lemma stat_reqs st ts : length (st_nreqs st) = 128%nat -> Forall (fun t => (Z.to_nat t < 128)%nat) ts ->
  foldr (fun t k => let! r := k in match st_nreqs st !! Z.to_nat t with Some n => Ret (n :: r) | None => UB end) (Ret []) ts
  = Ret (map (fun t => nth (Z.to_nat t) (st_nreqs st) 0) ts).
Proof.
  intros Hl. induction 1 as [|t ts Ht Hts IH]; [done|]. cbn [foldr map]. rewrite IH. cbn [res_bind].
  destruct (st_nreqs st !! Z.to_nat t) as [n|] eqn:E; [|apply lookup_ge_None in E; lia]. by rewrite (nth_lookup_Some _ _ 0 _ E).
Qed.
Lemma store_all_other ts vs a n : ~ In n (map Z.to_nat ts) -> store_all ts vs a !! n = a !! n.
Proof.
  revert vs a. induction ts as [|t ts IH]; intros [|v vs] a Hn; try done. cbn in *. rewrite IH by tauto.
  apply list_lookup_insert_ne. tauto.
Qed.

Lemma store_all_at f ts rest a : NoDup (map Z.to_nat ts) -> Forall (fun t => (Z.to_nat t < length a)%nat) ts ->
  forall t, In t ts -> store_all ts (map f ts ++ rest) a !! Z.to_nat t = Some (f t).
Proof.
  revert a. induction ts as [|t ts IH]; intros a Hnd Hlen u Hu; [done|].
  apply NoDup_cons in Hnd as [Hni Hnd]. rewrite list_elem_of_In in Hni. inversion Hlen as [|? ? Ht Hts]; subst.
  cbn. destruct Hu as [<-|Hu].
  - rewrite store_all_other by done. rewrite list_lookup_insert_eq by done. done.
  - apply IH; [done| |done]. rewrite length_insert. done.
Qed.

Lemma stat_types_small : Forall (fun t => (Z.to_nat t < 128)%nat) stat_types.
Proof. apply Forall_forall. intros t Ht. cbn in Ht. rewrite list_elem_of_In in Ht. cbn in Ht. repeat destruct Ht as [<-|Ht]; [vm_compute; lia..|done]. Qed.

Lemma stat_types_distinct : NoDup (map Z.to_nat stat_types).
Proof. apply NoDup_ListNoDup. vm_compute. repeat (constructor; [cbn; intuition discriminate|]). constructor. Qed.

Lemma map_as_u64 vs : Forall counter vs -> map as_u64 vs = vs.
Proof. induction 1 as [|v vs Hv Hvs IH]; [done|]. cbn. by rewrite as_u64_id, IH. Qed.

Lemma counter_small z : counter z -> - 10 ^ 20 < z < 10 ^ 20.
Proof. unfold counter. lia. Qed.

Lemma nth_counter st t : stats_wf st -> counter (nth t (st_nreqs st) 0).
Proof.
  intros (Hl & _ & _ & Hc & _). destruct (st_nreqs st !! t) as [n|] eqn:E.
  - rewrite (nth_lookup_Some _ _ 0 _ E). by eapply Forall_lookup_1.
  - apply lookup_ge_None in E. rewrite nth_overflow by done. unfold counter. lia.
Qed.

(** The counters of the line, behind the two numbers of requests and fids. *)
Definition line_counters (st : Npstats) : list Z :=
  map (fun t => nth (Z.to_nat t) (st_nreqs st) 0) stat_types ++ st_rcount st ++ st_wcount st.

Lemma line_counters_wf st : stats_wf st -> Forall counter (line_counters st) /\ length (line_counters st) = 50%nat.
Proof.
  intros Hst. pose proof Hst as (_ & Hr & Hw & _ & Hcr & Hcw & _). unfold line_counters. split.
  - rewrite !Forall_app. split; [|done]. apply Forall_map, Forall_forall. intros t _. by apply nth_counter.
  - rewrite !length_app, length_map, Hr, Hw. done.
Qed.

Lemma stat_values_wf nr nf st : stats_wf st ->
  stat_values nr nf st = Ret (nr :: nf :: st_rbytes st :: st_wbytes st :: line_counters st).
Proof.
  intros (Hl & Hr & Hw & _). unfold stat_values. rewrite stat_reqs by (exact Hl || exact stat_types_small). cbn [res_bind].
  rewrite Hr, Hw. cbn [res_bind]. unfold line_counters, stat_bins. by rewrite !take_ge by lia.
Qed.

Definition int_range (z : Z) : Prop := - 2 ^ 31 <= z < 2 ^ 31.

Lemma tpools_decode nr nf st st0 name : stats_wf st -> int_range nr -> int_range nf -> good_word name ->
  length (st_nreqs st0) = 128%nat -> exists text st',
  tpools_text name nr nf st = Ret text /\ np_decode_tpools_str text st0 = Decoded name nr nf st' /\
  st_rbytes st' = st_rbytes st /\ st_wbytes st' = st_wbytes st /\ st_rcount st' = st_rcount st /\ st_wcount st' = st_wcount st /\
  (forall t, In t stat_types -> st_nreqs st' !! Z.to_nat t = st_nreqs st !! Z.to_nat t).
Proof.
  intros Hst Hnr Hnf [Hne Hw] Hl0. destruct (line_counters_wf st Hst) as [Hc Hlen].
  pose proof Hst as (Hl & Hlr & Hlw & _ & _ & _ & Hrb & Hwb).
  unfold tpools_text. rewrite stat_values_wf by done. cbn [res_bind].
  set (vs := nr :: nf :: _). eexists _, _. split; [reflexivity|].
  assert (Hvs : scan_numbers 54 (32 :: concat (map (fun v => dec v ++ [32]) vs) ++ [10]) = vs).
  { replace 54%nat with (length vs) by (unfold vs; cbn [length]; rewrite Hlen; done). apply scan_numbers_dec. unfold vs. unfold int_range in *.
    rewrite !Forall_cons. split; [lia|]. split; [lia|]. split; [by apply counter_small|]. split; [by apply counter_small|].
    eapply Forall_impl; [exact Hc|exact counter_small]. }
  unfold np_decode_tpools_str.
  assert (Hskip : skip_space (name ++ [32] ++ concat (map (fun v => dec v ++ [32]) vs) ++ [10]) =
    name ++ 32 :: concat (map (fun v => dec v ++ [32]) vs) ++ [10]).
  { destruct name as [|c name]; [done|]. inversion Hw as [|? ? Hc0 _]; subst. cbn. by rewrite Hc0. }
  rewrite Hskip, word_good, Hvs by done. destruct name as [|c0 name]; [done|]. unfold vs. cbv iota beta. rewrite Hlen. cbn [Nat.eqb].
  rewrite !as_int_id, map_as_u64, !as_u64_id by done. split; [reflexivity|]. cbn [st_rbytes st_wbytes st_rcount st_wcount st_nreqs].
  split; [done|]. split; [done|]. unfold line_counters.
  set (l := map _ stat_types). assert (Hll : length l = 26%nat) by reflexivity.
  rewrite <- Hll at 1. rewrite drop_app_length. rewrite take_app_le, take_ge by (unfold stat_bins; lia). split; [done|].
  replace 38%nat with (length (l ++ st_rcount st)) by (rewrite length_app; lia).
  rewrite app_assoc, drop_app_length, take_ge by (unfold stat_bins; lia). split; [done|].
  intros t Ht. unfold l. rewrite <- app_assoc, store_all_at by (exact stat_types_distinct || (rewrite Hl0; exact stat_types_small) || done).
  assert (Hlt : (Z.to_nat t < 128)%nat) by (pose proof stat_types_small as Hs; rewrite Forall_forall in Hs; apply Hs; by apply list_elem_of_In).
  destruct (lookup_lt_is_Some_2 (st_nreqs st) (Z.to_nat t)) as [n En]; [lia|]. by rewrite En, (nth_lookup_Some _ _ 0 _ En).
Qed.

Lemma digits_bound fuel n acc : (length (digits fuel n acc) <= fuel + length acc)%nat.
Proof.
  revert n acc. induction fuel as [|fuel IH]; intros n acc; cbn; [lia|].
  destruct (n <? 10); cbn; [lia|]. specialize (IH (n / 10) (48 + n mod 10 :: acc)). cbn in IH. lia.
Qed.

Lemma dec_bound z : (length (dec z) <= 21)%nat.
Proof. unfold dec. destruct (z <? 0); cbn [length]; [pose proof (digits_bound 20 (- z) [])|pose proof (digits_bound 20 z [])]; cbn in *; lia. Qed.

Lemma digits_no_nul fuel n acc : 0 <= n -> no_nul acc -> no_nul (digits fuel n acc).
Proof.
  revert n acc. induction fuel as [|fuel IH]; intros n acc Hn Hacc; cbn; [done|].
  destruct (n <? 10); [constructor; [lia|done]|]. pose proof (Z.mod_pos_bound n 10).
  apply IH; [apply Z.div_pos; lia|constructor; [lia|done]].
Qed.

Lemma dec_no_nul z : no_nul (dec z).
Proof. unfold dec. destruct (Z.ltb_spec z 0); [constructor; [done|]|]; apply digits_no_nul; (lia || constructor). Qed.

Lemma decs_text vs : no_nul (concat (map (fun v => dec v ++ [32]) vs)) /\
  (length (concat (map (fun v => dec v ++ [32%Z]) vs)) <= 22 * length vs)%nat.
Proof.
  induction vs as [|v vs [IH1 IH2]]; [split; [constructor|done]|]. cbn [map concat]. split.
  - apply Forall_app. split; [|done]. apply Forall_app. split; [apply dec_no_nul|by repeat constructor].
  - rewrite !length_app. pose proof (dec_bound v). cbn in *. lia.
Qed.

Lemma Ret_inj {A} (x y : A) : Ret x = Ret y -> x = y.
Proof. congruence. Qed.

Lemma tpools_text_size nr nf st name text : stats_wf st -> no_nul name -> tpools_text name nr nf st = Ret text ->
  no_nul text /\ zlength text <= zlength name + 1190.
Proof.
  intros Hst Hn. unfold tpools_text. rewrite stat_values_wf by done. cbn [res_bind].
  destruct (line_counters_wf st Hst) as [_ Hlen]. set (vs := nr :: _).
  assert (Hvs : length vs = 54%nat) by (unfold vs; cbn [length]; rewrite Hlen; done). destruct (decs_text vs) as [Hd Hb].
  clearbody vs. intros E. assert (text = _) as -> by (symmetry; exact (Ret_inj _ _ E)). split.
  - unfold no_nul in *. rewrite !Forall_app. by repeat split; repeat constructor.
  - rewrite !zlength_app. unfold zlength. rewrite Hvs in Hb. cbn [length]. lia.
Qed.

(** The line that the server appends for a thread pool is the line that a
    monitor decodes: it gets the name, the numbers of requests and fids, the bytes,
    the bins of the sizes, and the counter of every request type of the line, for
    all counters of 64 bits and any lines before it. *)
Theorem tpools_roundtrip undef alloc sp old name nr nf st st0 fuel : (forall k, alloc k = true) ->
  stats_wf st -> int_range nr -> int_range nf -> good_word name -> no_nul name -> no_nul old ->
  match sp with Some (m, len) => holds_string m old /\ len = zlength m | None => old = [] end ->
  length (st_nreqs st0) = 128%nat -> zlength name + 1190 < CHUNKSIZE * Z.of_nat fuel ->
  exists m line st', np_encode_tpools_str undef alloc (S fuel) sp name nr nf st = Ret (Some (Aspf_ok m (zlength m))) /\
    c_string m = old ++ line /\ np_decode_tpools_str line st0 = Decoded name nr nf st' /\
    st_rbytes st' = st_rbytes st /\ st_wbytes st' = st_wbytes st /\ st_rcount st' = st_rcount st /\ st_wcount st' = st_wcount st /\
    (forall t, In t stat_types -> st_nreqs st' !! Z.to_nat t = st_nreqs st !! Z.to_nat t).
Proof.
  intros Halloc Hst Hnr Hnf Hw Hn Hold Hsp Hl0 Hfuel.
  destruct (tpools_decode nr nf st st0 name) as (line & st' & El & Hd); [done..|].
  destruct (tpools_text_size nr nf st name line) as [Hz Hb]; [done..|].
  destruct (aspf_appended undef alloc Halloc sp old line fuel) as (m & Em & Hm); [done..|lia|].
  exists m, line, st'. unfold np_encode_tpools_str. rewrite El. cbn [res_bind]. split; [done|]. split; [by apply holds_string_c|done].
Qed.

Definition busy_stats : Npstats :=
  {| st_nreqs := replicate 128 3; st_rcount := replicate 12 (2 ^ 64 - 1); st_wcount := replicate 12 0;
     st_rbytes := 2 ^ 40; st_wbytes := 0 |}.

Definition zero_stats : Npstats :=
  {| st_nreqs := replicate 128 0; st_rcount := replicate 12 0; st_wcount := replicate 12 0; st_rbytes := 0; st_wbytes := 0 |}.

Lemma busy_stats_wf : stats_wf busy_stats.
Proof. repeat split; try done; unfold counter; try (apply Forall_replicate); cbn [busy_stats st_rbytes st_wbytes]; lia. Qed.

Lemma tpools_roundtrip_witness : exists m line st',
  np_encode_tpools_str 90 (fun _ => true) 16 (Some ([65; 10; 0; 90], 4)) [116; 109; 112] (-1) 5 busy_stats = Ret (Some (Aspf_ok m (zlength m))) /\
  c_string m = [65; 10] ++ line /\ np_decode_tpools_str line zero_stats = Decoded [116; 109; 112] (-1) 5 st' /\
  st_rbytes st' = 2 ^ 40.
Proof.
  destruct (tpools_roundtrip 90 (fun _ => true) (Some ([65; 10; 0; 90], 4)) [65; 10] [116; 109; 112] (-1) 5 busy_stats zero_stats 15)
    as (m & line & st' & H1 & H2 & H3 & H4 & _).
  - done.
  - exact busy_stats_wf.
  - unfold int_range. lia.
  - unfold int_range. lia.
  - split; [done|by repeat constructor].
  - by repeat constructor.
  - by repeat constructor.
  - split; [|done]. split; [by repeat constructor|by exists [90]].
  - done.
  - unfold CHUNKSIZE, zlength. cbn [length]. lia.
  - exists m, line, st'. exact (conj H1 (conj H2 (conj H3 H4))).
Defined.

(** ** What goes wrong *)

Definition no_number (c : Z) : Prop := is_space c = false /\ is_digit c = false /\ c <> 43 /\ c <> 45.

(** A buffer whose second [realloc] fails, whatever text was to be appended. *)
Lemma aspf_dangles undef alloc fuel m old text : alloc 0%nat = true -> alloc 1%nat = false -> holds_string m old ->
  zlength m - zlength old + CHUNKSIZE <= zlength text ->
  aspf undef alloc (S (S fuel)) (Some (m, zlength m)) text = Ret (Some (Aspf_failed true)).
Proof.
  intros H0 H1 Hh Htext. pose proof Hh as [Hold [t Hm]]. unfold aspf. rewrite (holds_string_strlen m old Hh). cbn [res_bind].
  assert (Hlt : zlength old < zlength m) by (rewrite Hm, zlength_app; unfold zlength; cbn; lia).
  destruct (vsnprintf_behind m old text) as (m1 & E1 & Hm1 & t1 & Ht1); [by rewrite Hm, take_app_length|done|].
  cbn [aspf_loop]. rewrite E1. cbn [res_bind]. unfold CHUNKSIZE in *. rewrite (proj2 (Z.ltb_ge _ _)) by lia. rewrite H0.
  set (m2 := m1 ++ _). assert (Hm2 : zlength m2 = zlength m + 80) by (unfold m2; rewrite zlength_app, Hm1; done).
  rewrite <- Hm2. destruct (vsnprintf_behind m2 old text) as (m3 & E3 & _).
  { unfold m2. by rewrite Ht1, <- app_assoc, take_app_length. }
  { lia. }
  rewrite E3. cbn [res_bind]. rewrite (proj2 (Z.ltb_ge _ _)) by lia. by rewrite H1.
Qed.

(** A thread pool whose name has a second word is published in a line that no
    monitor decodes; and when memory runs out between two reallocations, the
    caller's pointer is left to memory that is freed. *)
Theorem tpools_failures :
  (forall a c b nr nf st st0 text, good_word a -> no_number c ->
     tpools_text (a ++ 32 :: c :: b) nr nf st = Ret text -> np_decode_tpools_str text st0 = Decode_failed true) /\
  (forall undef alloc fuel m old name nr nf st text, alloc 0%nat = true -> alloc 1%nat = false -> holds_string m old ->
     tpools_text name nr nf st = Ret text -> zlength m - zlength old + CHUNKSIZE <= zlength text ->
     np_encode_tpools_str undef alloc (S (S fuel)) (Some (m, zlength m)) name nr nf st = Ret (Some (Aspf_failed true))).
Proof.
  split.
  - intros a c b nr nf st st0 text [Hne Ha] (Hs & Hd & H43 & H45). unfold tpools_text.
    destruct (stat_values nr nf st) as [vs| |]; [|done..]. cbn [res_bind]. intros E. apply Ret_inj in E as <-.
    set (rest := concat _ ++ [10]). unfold np_decode_tpools_str.
    rewrite <- app_assoc. cbn [app]. destruct a as [|a0 a]; [done|]. inversion Ha as [|? ? Ha0 _]; subst.
    cbn [app skip_space]. rewrite Ha0. change (a0 :: a ++ ?r) with ((a0 :: a) ++ r). rewrite word_good by done.
    cbn [scan_numbers]. rewrite scan_number_space. unfold scan_number. cbn [skip_space]. rewrite Hs. cbn.
    rewrite !(proj2 (Z.eqb_neq _ _)) by done. by rewrite Hd.
  - intros undef alloc fuel m old name nr nf st text H0 H1 Hh Et Hl. unfold np_encode_tpools_str. rewrite Et. cbn [res_bind].
    by apply aspf_dangles with (old := old).
Qed.
