(* ===== verification/Fmt.v ===== *)
(** * Messages as text (libnpfs/fmt.c)

    The text of a message in a trace: [np_snprintfcall] calls [spf] for every piece.
    The calls of a message are a list, one element for every call of [spf], which is
    the list of what its format and its arguments stand for. *)
From S2P Require Import Prelude Cbuf Protocol Npstring Wire Fcall Conf Ops Format.
From stdpp Require Import strings list.
#[local] Open Scope Z_scope.

(** ** Conversions *)

Inductive frag :=
| Lit (s : string)
| Raw (s : cstr)
(** [%u], [%d], [%x], [%o], of at most 64 bits *)
| Pu (z : Z)
| Pd (z : Z)
| Px (z : Z)
| Po (z : Z)
(** hexadecimal with zeros, and decimal with spaces behind it, to a width *)
| Pz (width : nat) (z : Z)
| Pj (width : nat) (z : Z)
(** [%.*s] of a string of the message, and a time *)
| Ps (s : Npstr)
| Pt (sec : Z).

Arguments Lit s%_string_scope.

Abbreviation calls := (list (list frag)) (only parsing).

(** The digits of a number below [b] to the power of the fuel. *)
Fixpoint radix (b : Z) (fuel : nat) (n : Z) (acc : cstr) : cstr :=
  match fuel with
  | O => acc
  | S fuel =>
      let c d := if d <? 10 then 48 + d else 87 + d in
      if n <? b then c n :: acc else radix b fuel (n / b) (c (n mod b) :: acc)
  end.

Section Text.
(** [ctime], which fails for a year that an [int] does not hold. *)
Variable ctime : Z -> option cstr.

Definition _chomp (s : cstr) : res cstr :=
  match last s with
  | None => UB
  | Some c => Ret (if c =? 10 then take (length s - 1) s else s)
  end.

Definition np_timestr (sec : Z) : res cstr :=
  if 0 <? sec then match ctime (int64 sec) with Some s => _chomp s | None => UB end
  else Ret [48].

Definition frag_text (pkt : list Z) (f : frag) : res cstr :=
  match f with
  | Lit s => Ret (lit s)
  | Raw s => Ret s
  | Pu z => Ret (dec (u64 z))
  | Pd z => Ret (dec (int32 z))
  | Px z => Ret (radix 16 16 (u64 z) [])
  | Po z => Ret (radix 8 22 (u64 z) [])
  | Pz w z => let d := radix 16 16 (u64 z) [] in Ret (replicate (w - length d) 48 ++ d)
  | Pj w z => let d := dec (u64 z) in Ret (d ++ replicate (w - length d) 32)
  | Ps s => let! bs := npstr_bytes pkt s in Ret (c_string bs)
  | Pt sec => np_timestr sec
  end.

Fixpoint call_text (pkt : list Z) (fs : list frag) : res cstr :=
  match fs with
  | [] => Ret []
  | f :: fs => let! t := frag_text pkt f in let! r := call_text pkt fs in Ret (t ++ r)
  end.

Fixpoint run_calls (pkt m : list Z) (len : Z) (cs : calls) : res (list Z) :=
  match cs with
  | [] => Ret m
  | c :: cs => let! t := call_text pkt c in let! m := spf m len t in run_calls pkt m len cs
  end.

(** ** Parts of messages *)

Definition Qtlink : Z := 0x01.
Definition Qtexcl : Z := 0x20.
Definition Qtappend : Z := 0x40.

Definition qid_letters (t : Z) : cstr :=
  (if bit t Qtdir then lit "d" else if bit t Qtauth then lit "A" else if bit t Qtsymlink then lit "L"
   else if bit t Qtlink then lit "l" else lit "f") ++
  (if bit t Qtappend then lit "a" else []) ++ (if bit t Qtexcl then lit "x" else []) ++ (if bit t Qttmp then lit "t" else []).

(** [np_printqid] *)
Definition qid_call (q : Npqid) : list frag :=
  [Lit "("; Pz 16 (qpath q); Lit " "; Px (qversion q); Lit " '"; Raw (qid_letters (qtype q)); Lit "')"].

(** [np_printlocktype], [np_printlockstatus] *)
Definition locktype_call (t : Z) : list frag :=
  if t =? Lrdlck then [Lit "Lrdlck"] else if t =? Lwrlck then [Lit "Lwrlck"] else if t =? Lunlck then [Lit "Lunlck"] else [Pu t].

Definition Lgrace : Z := 3.

Definition lockstatus_call (t : Z) : list frag :=
  if t =? Lsuccess then [Lit "Lsuccess"] else if t =? Lblocked then [Lit "Lblocked"] else if t =? Lerror then [Lit "Lerror"]
  else if t =? Lgrace then [Lit "Lgrace"] else [Pu t].

Definition newline : list frag := [Raw [10]].

(** [np_sndump] from byte [i] on *)
Fixpoint sndump (i : nat) (datalen : nat) (data : list Z) : calls :=
  match data with
  | [] => []
  | b :: data =>
      [[Pz 2 b]] ++ (if (i mod 4 =? 3)%nat then [[Lit " "]] else []) ++
      (if (i mod 32 =? 31)%nat && (i + 1 <? datalen)%nat then [newline] else []) ++ sndump (S i) datalen data
  end.

(** [np_printdata] of [count] bytes at a place in the packet *)
Definition data_calls (pkt : list Z) (data : option Z) (count : Z) : res calls :=
  let buflen := int32 count in
  let n := if buflen <? 64 then buflen else 64 in
  if 0 <? buflen then
    match data with
    | None => UB
    | Some a => let! bs := load_bytes pkt a n in Ret (newline :: sndump 0 (Z.to_nat n) bs)
    end
  else Ret [].

(** [np_printdentry] *)
Definition dentry_calls (d : p9dirent) : calls :=
  [newline; qid_call (d_qid d); [Lit " "; Pu (d_type d); Lit " "; Pj 21 (d_offset d); Lit " "; Raw (c_string (d_name d))]].

(** [np_printdents]; every entry takes a byte at least. *)
Fixpoint dents_calls (fuel : nat) (buf : list Z) (buflen : Z) : res calls :=
  match fuel with
  | O => UB
  | S fuel =>
      let! (r, o) := np_deserialize_p9dirent (PATH_MAX + 1) buf buflen in
      if 0 <? r then
        match o with
        | None => UB
        | Some d => let! cs := dents_calls fuel (drop (Z.to_nat r) buf) (buflen - r) in Ret (dentry_calls d ++ cs)
        end
      else Ret []
  end.

Definition Gamode : Z := 0x1.
Definition Ganlink : Z := 0x2.
Definition Gauid : Z := 0x4.
Definition Gagid : Z := 0x8.
Definition Gardev : Z := 0x10.
Definition Gaatime : Z := 0x20.
Definition Gamtime : Z := 0x40.
Definition Gactime : Z := 0x80.
Definition Gaino : Z := 0x100.
Definition Gasize : Z := 0x200.
Definition Gablocks : Z := 0x400.
Definition Gabtime : Z := 0x800.
Definition Gagen : Z := 0x1000.
Definition Gadataversion : Z := 0x2000.

(** ** Messages *)

Definition fmt_rlerror (fc : Npfcall) (x : Nprlerror) : calls :=
  [[Lit "Rlerror tag "; Pu (fc_tag fc)];
   [Lit " ecode "; Pu (rlerror_ecode x)]].

Definition fmt_tstatfs (fc : Npfcall) (x : Nptstatfs) : calls :=
  [[Lit "Tstatfs tag "; Pu (fc_tag fc)];
   [Lit " fid "; Pu (tstatfs_fid x)]].

Definition fmt_rstatfs (fc : Npfcall) (x : Nprstatfs) : calls :=
  [[Lit "Rstatfs tag "; Pu (fc_tag fc)];
   [Lit " type "; Pu (rstatfs_type x)];
   [Lit " bsize "; Pu (rstatfs_bsize x)];
   [Lit " blocks "; Pu (rstatfs_blocks x)];
   [Lit " bfree "; Pu (rstatfs_bfree x)];
   [Lit " bavail "; Pu (rstatfs_bavail x)];
   [Lit " files "; Pu (rstatfs_files x)];
   [Lit " ffree "; Pu (rstatfs_ffree x)];
   [Lit " fsid "; Pu (rstatfs_fsid x)];
   [Lit " namelen "; Pu (rstatfs_namelen x)]].

Definition fmt_tlopen (fc : Npfcall) (x : Nptlopen) : calls :=
  [[Lit "Tlopen tag "; Pu (fc_tag fc)];
   [Lit " fid "; Pu (tlopen_fid x)];
   [Lit " flags 0"; Po (tlopen_flags x)]].

Definition fmt_rlopen (fc : Npfcall) (x : Nprlopen) : calls :=
  [[Lit "Rlopen tag "; Pu (fc_tag fc); Lit " qid "];
   qid_call (rlopen_qid x);
   [Lit " iounit "; Pu (rlopen_iounit x)]].

Definition fmt_tlcreate (fc : Npfcall) (x : Nptlcreate) : calls :=
  [[Lit "Tlcreate tag "; Pu (fc_tag fc)];
   [Lit " fid "; Pu (tlcreate_fid x)];
   [Lit " name '"; Ps (tlcreate_name x); Lit "'"];
   [Lit " flags 0x"; Px (tlcreate_flags x)];
   [Lit " mode 0"; Po (tlcreate_mode x)];
   [Lit " gid "; Pu (tlcreate_gid x)]].

Definition fmt_rlcreate (fc : Npfcall) (x : Nprlcreate) : calls :=
  [[Lit "Rlcreate tag "; Pu (fc_tag fc); Lit " qid "];
   qid_call (rlcreate_qid x);
   [Lit " iounit "; Pu (rlcreate_iounit x)]].

Definition fmt_tsymlink (fc : Npfcall) (x : Nptsymlink) : calls :=
  [[Lit "Tsymlink tag "; Pu (fc_tag fc)];
   [Lit " fid "; Pu (tsymlink_fid x)];
   [Lit " name '"; Ps (tsymlink_name x); Lit "'"];
   [Lit " symtgt '"; Ps (tsymlink_symtgt x); Lit "'"];
   [Lit " gid "; Pu (tsymlink_gid x)]].

Definition fmt_rsymlink (fc : Npfcall) (x : Nprsymlink) : calls :=
  [[Lit "Rsymlink tag "; Pd (fc_tag fc); Lit " qid "];
   qid_call (rsymlink_qid x)].

Definition fmt_tmknod (fc : Npfcall) (x : Nptmknod) : calls :=
  [[Lit "Tmknod tag "; Pu (fc_tag fc)];
   [Lit " fid "; Pu (tmknod_fid x)];
   [Lit " name '"; Ps (tmknod_name x); Lit "'"];
   [Lit " mode 0"; Po (tmknod_mode x)];
   [Lit " major "; Pu (tmknod_major x)];
   [Lit " minor "; Pu (tmknod_minor x)];
   [Lit " gid "; Pu (tmknod_gid x)]].

Definition fmt_rmknod (fc : Npfcall) (x : Nprmknod) : calls :=
  [[Lit "Rmknod tag "; Pd (fc_tag fc); Lit " qid "];
   qid_call (rmknod_qid x)].

Definition fmt_trename (fc : Npfcall) (x : Nptrename) : calls :=
  [[Lit "Trename tag "; Pu (fc_tag fc)];
   [Lit " fid "; Pu (trename_fid x)];
   [Lit " dfid "; Pu (trename_dfid x)];
   [Lit " name '"; Ps (trename_name x); Lit "'"]].

Definition fmt_rrename (fc : Npfcall) : calls := [[Lit "Rrename tag "; Pu (fc_tag fc)]].

Definition fmt_treadlink (fc : Npfcall) (x : Nptreadlink) : calls :=
  [[Lit "Treadlink tag "; Pu (fc_tag fc)];
   [Lit " fid "; Pu (treadlink_fid x)]].

Definition fmt_rreadlink (fc : Npfcall) (x : Nprreadlink) : calls :=
  [[Lit "Rreadlink tag "; Pu (fc_tag fc)];
   [Lit " target '"; Ps (rreadlink_target x); Lit "'"]].

Definition fmt_tgetattr (fc : Npfcall) (x : Nptgetattr) : calls :=
  [[Lit "Tgetattr tag "; Pu (fc_tag fc)];
   [Lit " fid "; Pu (tgetattr_fid x)];
   [Lit " request_mask 0x"; Px (tgetattr_request_mask x)]].

Definition fmt_rgetattr (fc : Npfcall) (x : Nprgetattr) : calls :=
  [[Lit "Rgetattr tag "; Pu (fc_tag fc)];
   [Lit " valid 0x"; Px (rgetattr_valid x)];
   [Lit " qid "];
   (if bit (rgetattr_valid x) Gaino then qid_call (rgetattr_qid x) else [Lit "X"]);
   (if bit (rgetattr_valid x) Gamode then [Lit " mode 0"; Po (rgetattr_mode x)] else [Lit " mode X"]);
   (if bit (rgetattr_valid x) Gauid then [Lit " uid "; Pu (rgetattr_uid x)] else [Lit " uid X"]);
   (if bit (rgetattr_valid x) Gagid then [Lit " gid "; Pu (rgetattr_gid x)] else [Lit " gid X"]);
   (if bit (rgetattr_valid x) Ganlink then [Lit " nlink "; Pu (rgetattr_nlink x)] else [Lit " nlink X"]);
   (if bit (rgetattr_valid x) Gardev then [Lit " rdev "; Pu (rgetattr_rdev x)] else [Lit " rdev X"]);
   (if bit (rgetattr_valid x) Gasize then [Lit " size "; Pu (rgetattr_size x)] else [Lit " size X"]);
   [Lit " blksize "; Pu (rgetattr_blksize x)];
   (if bit (rgetattr_valid x) Gablocks then [Lit " blocks "; Pu (rgetattr_blocks x)] else [Lit " blocks X"]);
   (if bit (rgetattr_valid x) Gaatime then [Lit " atime "; Pt (rgetattr_atime_sec x)] else [Lit " atime X"]);
   (if bit (rgetattr_valid x) Gamtime then [Lit " mtime "; Pt (rgetattr_mtime_sec x)] else [Lit " mtime X"]);
   (if bit (rgetattr_valid x) Gactime then [Lit " ctime "; Pt (rgetattr_ctime_sec x)] else [Lit " ctime X"]);
   (if bit (rgetattr_valid x) Gabtime then [Lit " btime "; Pt (rgetattr_btime_sec x)] else [Lit " btime X"]);
   (if bit (rgetattr_valid x) Gagen then [Lit " gen "; Pu (rgetattr_gen x)] else [Lit " gen X"]);
   (if bit (rgetattr_valid x) Gadataversion then [Lit " data_version "; Pu (rgetattr_data_version x)] else [Lit " data_version X"])].

Definition fmt_tsetattr (fc : Npfcall) (x : Nptsetattr) : calls :=
  [[Lit "Tsetattr tag "; Pu (fc_tag fc)];
   [Lit " fid "; Pu (tsetattr_fid x)];
   [Lit " valid 0x"; Px (tsetattr_valid x)];
   (if bit (tsetattr_valid x) Samode then [Lit " mode 0"; Po (tsetattr_mode x)] else [Lit " mode X"]);
   (if bit (tsetattr_valid x) Sauid then [Lit " uid "; Pu (tsetattr_uid x)] else [Lit " uid X"]);
   (if bit (tsetattr_valid x) Sagid then [Lit " gid "; Pu (tsetattr_gid x)] else [Lit " gid X"]);
   (if bit (tsetattr_valid x) Sasize then [Lit " size "; Pu (tsetattr_size x)] else [Lit " size X"]);
   (if bit (tsetattr_valid x) Saatime then (if bit (tsetattr_valid x) Saatimeset then [Lit " atime "; Pt (tsetattr_atime_sec x)] else [Lit " atime X"]) else [Lit " atime X"]);
   (if bit (tsetattr_valid x) Samtime then (if bit (tsetattr_valid x) Samtimeset then [Lit " mtime "; Pt (tsetattr_mtime_sec x)] else [Lit " mtime now"]) else [Lit " mtime X"])].

Definition fmt_rsetattr (fc : Npfcall) : calls := [[Lit "Rsetattr tag "; Pu (fc_tag fc)]].

Definition fmt_txattrwalk (fc : Npfcall) (x : Nptxattrwalk) : calls :=
  [[Lit "Txattrwalk tag "; Pu (fc_tag fc)];
   [Lit " fid "; Pu (txattrwalk_fid x)];
   [Lit " attrfid "; Pu (txattrwalk_attrfid x)];
   [Lit " name '"; Ps (txattrwalk_name x); Lit "'"]].

Definition fmt_rxattrwalk (fc : Npfcall) (x : Nprxattrwalk) : calls :=
  [[Lit "Rxattrwalk tag "; Pu (fc_tag fc)];
   [Lit " size "; Pu (rxattrwalk_size x)]].

Definition fmt_txattrcreate (fc : Npfcall) (x : Nptxattrcreate) : calls :=
  [[Lit "Txattrcreate tag "; Pu (fc_tag fc)];
   [Lit " fid "; Pu (txattrcreate_fid x)];
   [Lit " name '"; Ps (txattrcreate_name x); Lit "'"];
   [Lit " size "; Pu (txattrcreate_size x)];
   [Lit " flag "; Pu (txattrcreate_flag x)]].

Definition fmt_rxattrcreate (fc : Npfcall) : calls := [[Lit "Rxattrcreate tag "; Pu (fc_tag fc)]].

Definition fmt_treaddir (fc : Npfcall) (x : Nptreaddir) : calls :=
  [[Lit "Treaddir tag "; Pu (fc_tag fc)];
   [Lit " fid "; Pu (treaddir_fid x)];
   [Lit " offset "; Pu (treaddir_offset x)];
   [Lit " count "; Pu (treaddir_count x)]].

Definition fmt_tfsync (fc : Npfcall) (x : Nptfsync) : calls :=
  [[Lit "Tfsync tag "; Pu (fc_tag fc)];
   [Lit " fid "; Pu (tfsync_fid x)]].

Definition fmt_rfsync (fc : Npfcall) : calls := [[Lit "Rfsync tag "; Pu (fc_tag fc)]].

Definition fmt_tlock (fc : Npfcall) (x : Nptlock) : calls :=
  [[Lit "Tlock tag "; Pu (fc_tag fc)];
   [Lit " fid "; Pu (tlock_fid x)];
   [Lit " type "];
   locktype_call (tlock_type x);
   [Lit " flags "; Pu (tlock_flags x)];
   [Lit " start "; Pu (tlock_start x)];
   [Lit " length "; Pu (tlock_length x)];
   [Lit " proc_id "; Pu (tlock_proc_id x)];
   [Lit " client_id '"; Ps (tlock_client_id x); Lit "'"]].

Definition fmt_rlock (fc : Npfcall) (x : Nprlock) : calls :=
  [[Lit "Rlock tag "; Pu (fc_tag fc)];
   [Lit " status "];
   lockstatus_call (rlock_status x)].

Definition fmt_tgetlock (fc : Npfcall) (x : Nptgetlock) : calls :=
  [[Lit "Tgetlock tag "; Pu (fc_tag fc)];
   [Lit " fid "; Pu (tgetlock_fid x)];
   [Lit " type "];
   locktype_call (tgetlock_type x);
   [Lit " start "; Pu (tgetlock_start x)];
   [Lit " length "; Pu (tgetlock_length x)];
   [Lit " proc_id "; Pu (tgetlock_proc_id x)];
   [Lit " client_id '"; Ps (tgetlock_client_id x); Lit "'"]].

Definition fmt_rgetlock (fc : Npfcall) (x : Nprgetlock) : calls :=
  [[Lit "Rgetlock tag "; Pu (fc_tag fc)];
   [Lit " type "];
   locktype_call (rgetlock_type x);
   [Lit " start "; Pu (rgetlock_start x)];
   [Lit " length "; Pu (rgetlock_length x)];
   [Lit " proc_id "; Pu (rgetlock_proc_id x)];
   [Lit " client_id '"; Ps (rgetlock_client_id x); Lit "'"]].

Definition fmt_tlink (fc : Npfcall) (x : Nptlink) : calls :=
  [[Lit "Tlink tag "; Pu (fc_tag fc)];
   [Lit " dfid "; Pu (tlink_dfid x)];
   [Lit " fid "; Pu (tlink_fid x)];
   [Lit " name '"; Ps (tlink_name x); Lit "'"]].

Definition fmt_rlink (fc : Npfcall) : calls := [[Lit "Rlink tag "; Pu (fc_tag fc)]].

Definition fmt_tmkdir (fc : Npfcall) (x : Nptmkdir) : calls :=
  [[Lit "Tmkdir tag "; Pu (fc_tag fc)];
   [Lit " fid "; Pu (tmkdir_fid x)];
   [Lit " name '"; Ps (tmkdir_name x); Lit "'"];
   [Lit " mode 0"; Po (tmkdir_mode x)];
   [Lit " gid "; Pu (tmkdir_gid x)]].

Definition fmt_rmkdir (fc : Npfcall) (x : Nprmkdir) : calls :=
  [[Lit "Rmkdir tag "; Pu (fc_tag fc); Lit " qid "];
   qid_call (rmkdir_qid x)].

Definition fmt_trenameat (fc : Npfcall) (x : Nptrenameat) : calls :=
  [[Lit "Trenameat tag "; Pu (fc_tag fc)];
   [Lit " olddirfid "; Pu (trenameat_olddirfid x)];
   [Lit " oldname '"; Ps (trenameat_oldname x); Lit "'"];
   [Lit " newdirfid "; Pu (trenameat_newdirfid x)];
   [Lit " newname '"; Ps (trenameat_newname x); Lit "'"]].

Definition fmt_rrenameat (fc : Npfcall) : calls := [[Lit "Rrenameat tag "; Pu (fc_tag fc)]].

Definition fmt_tunlinkat (fc : Npfcall) (x : Nptunlinkat) : calls :=
  [[Lit "Tunlinkat tag "; Pu (fc_tag fc)];
   [Lit " dirfid "; Pu (tunlinkat_dirfid x)];
   [Lit " name '"; Ps (tunlinkat_name x); Lit "'"];
   [Lit " flags "; Pu (tunlinkat_flags x)]].

Definition fmt_runlinkat (fc : Npfcall) : calls := [[Lit "Runlinkat tag "; Pu (fc_tag fc)]].

Definition fmt_tversion (fc : Npfcall) (x : Nptversion) : calls :=
  [[Lit "Tversion tag "; Pu (fc_tag fc)];
   [Lit " msize "; Pu (tversion_msize x)];
   [Lit " version '"; Ps (tversion_version x); Lit "'"]].

Definition fmt_rversion (fc : Npfcall) (x : Nprversion) : calls :=
  [[Lit "Rversion tag "; Pu (fc_tag fc); Lit " msize "; Pu (rversion_msize x)];
   [Lit " version '"; Ps (rversion_version x); Lit "'"]].

Definition fmt_tauth (fc : Npfcall) (x : Nptauth) : calls :=
  [[Lit "Tauth tag "; Pu (fc_tag fc); Lit " afid "; Pd (tauth_afid x)];
   [Lit " uname '"; Ps (tauth_uname x); Lit "'"];
   [Lit " aname '"; Ps (tauth_aname x); Lit "'"];
   (if tauth_n_uname x =? NONUNAME then [Lit " n_uname NONUNAME"] else [Lit " n_uname "; Pu (tauth_n_uname x)])].

Definition fmt_rauth (fc : Npfcall) (x : Nprauth) : calls :=
  [[Lit "Rauth tag "; Pu (fc_tag fc); Lit " qid "];
   qid_call (rauth_qid x)].

Definition fmt_tattach (fc : Npfcall) (x : Nptattach) : calls :=
  [[Lit "Tattach tag "; Pu (fc_tag fc)];
   [Lit " fid "; Pd (tattach_fid x); Lit " afid "; Pd (tattach_afid x)];
   [Lit " uname '"; Ps (tattach_uname x); Lit "'"];
   [Lit " aname '"; Ps (tattach_aname x); Lit "'"];
   (if tattach_n_uname x =? NONUNAME then [Lit " n_uname NONUNAME"] else [Lit " n_uname "; Pu (tattach_n_uname x)])].

Definition fmt_rattach (fc : Npfcall) (x : Nprattach) : calls :=
  [[Lit "Rattach tag "; Pu (fc_tag fc); Lit " qid "];
   qid_call (rattach_qid x)].

Definition fmt_tflush (fc : Npfcall) (x : Nptflush) : calls :=
  [[Lit "Tflush tag "; Pu (fc_tag fc); Lit " oldtag "; Pu (tflush_oldtag x)]].

Definition fmt_rflush (fc : Npfcall) : calls := [[Lit "Rflush tag "; Pu (fc_tag fc)]].

Definition fmt_tread (fc : Npfcall) (x : Nptread) : calls :=
  [[Lit "Tread tag "; Pu (fc_tag fc); Lit " fid "; Pd (tread_fid x); Lit " offset "; Pu (tread_offset x); Lit " count "; Pu (tread_count x)]].

Definition fmt_rwrite (fc : Npfcall) (x : Nprwrite) : calls :=
  [[Lit "Rwrite tag "; Pu (fc_tag fc); Lit " count "; Pu (rwrite_count x)]].

Definition fmt_tclunk (fc : Npfcall) (x : Nptclunk) : calls :=
  [[Lit "Tclunk tag "; Pu (fc_tag fc); Lit " fid "; Pd (tclunk_fid x)]].

Definition fmt_rclunk (fc : Npfcall) : calls := [[Lit "Rclunk tag "; Pu (fc_tag fc)]].

Definition fmt_tremove (fc : Npfcall) (x : Nptremove) : calls :=
  [[Lit "Tremove tag "; Pu (fc_tag fc); Lit " fid "; Pd (tremove_fid x)]].

Definition fmt_rremove (fc : Npfcall) : calls := [[Lit "Rremove tag "; Pu (fc_tag fc)]].

Definition fmt_twalk (fc : Npfcall) (x : Nptwalk) : calls :=
  [[Lit "Twalk tag "; Pu (fc_tag fc); Lit " fid "; Pd (twalk_fid x); Lit " newfid "; Pd (twalk_newfid x); Lit " nwname "; Pd (twalk_nwname x)]] ++
  map (fun s => [Lit " '"; Ps s; Lit "'"]) (twalk_wnames x).

Definition fmt_rwalk (fc : Npfcall) (x : Nprwalk) : calls :=
  [[Lit "Rwalk tag "; Pu (fc_tag fc); Lit " nwqid "; Pd (rwalk_nwqid x); Lit " "]] ++ map qid_call (rwalk_wqids x).

Definition fmt_rreaddir (fc : Npfcall) (x : Nprreaddir) : res calls :=
  let! cs := match rreaddir_data x with
             | Some a => dents_calls (S (length (fc_pkt fc))) (drop (Z.to_nat a) (fc_pkt fc)) (int32 (rreaddir_count x))
             | None => UB
             end in
  Ret ([[Lit "Rreaddir tag "; Pu (fc_tag fc)]; [Lit " count "; Pu (rreaddir_count x)]] ++ cs).

Definition fmt_rread (fc : Npfcall) (x : Nprread) : res calls :=
  let! cs := data_calls (fc_pkt fc) (rread_data x) (rread_count x) in
  Ret ([[Lit "Rread tag "; Pu (fc_tag fc); Lit " count "; Pu (rread_count x)]] ++ cs).

Definition fmt_twrite (fc : Npfcall) (x : Nptwrite) : res calls :=
  let! cs := data_calls (fc_pkt fc) (twrite_data x) (twrite_count x) in
  Ret ([[Lit "Twrite tag "; Pu (fc_tag fc)]; [Lit " fid "; Pd (twrite_fid x)]; [Lit " offset "; Pu (twrite_offset x)];
        [Lit " count "; Pu (twrite_count x)]] ++ cs).

(** The messages that are not used. *)
Definition fmt_unused (fc : Npfcall) : calls :=
  let t := fc_type fc in
  if t =? Tlerror then [[Lit "Tlerror tag "; Pu (fc_tag fc)]]
  else if t =? Rerror then [[Lit "Rerror: deprecated protocol op"]]
  else if t =? Topen then [[Lit "Topen: deprecated protocol op"]]
  else if t =? Ropen then [[Lit "Ropen: deprecated protocol op"]]
  else if t =? Tcreate then [[Lit "Tcreate: deprecated protocol op"]]
  else if t =? Rcreate then [[Lit "Rcreate: deprecated protocol op"]]
  else if t =? Tstat then [[Lit "Tstat: deprecated protocol op"]]
  else if t =? Rstat then [[Lit "Rstat: deprecated protocol op"]]
  else [[Lit "unknown protocol op ("; Pd t; Lit ")"]].

(** The member of the union that a type has is the one that is read. *)
Definition fcall_calls (fc : Npfcall) : res calls :=
  let t := fc_type fc in
  if t =? Rlerror then match fc_u fc with U_rlerror x => Ret (fmt_rlerror fc x) | _ => UB end else
  if t =? Tstatfs then match fc_u fc with U_tstatfs x => Ret (fmt_tstatfs fc x) | _ => UB end else
  if t =? Rstatfs then match fc_u fc with U_rstatfs x => Ret (fmt_rstatfs fc x) | _ => UB end else
  if t =? Tlopen then match fc_u fc with U_tlopen x => Ret (fmt_tlopen fc x) | _ => UB end else
  if t =? Rlopen then match fc_u fc with U_rlopen x => Ret (fmt_rlopen fc x) | _ => UB end else
  if t =? Tlcreate then match fc_u fc with U_tlcreate x => Ret (fmt_tlcreate fc x) | _ => UB end else
  if t =? Rlcreate then match fc_u fc with U_rlcreate x => Ret (fmt_rlcreate fc x) | _ => UB end else
  if t =? Tsymlink then match fc_u fc with U_tsymlink x => Ret (fmt_tsymlink fc x) | _ => UB end else
  if t =? Rsymlink then match fc_u fc with U_rsymlink x => Ret (fmt_rsymlink fc x) | _ => UB end else
  if t =? Tmknod then match fc_u fc with U_tmknod x => Ret (fmt_tmknod fc x) | _ => UB end else
  if t =? Rmknod then match fc_u fc with U_rmknod x => Ret (fmt_rmknod fc x) | _ => UB end else
  if t =? Trename then match fc_u fc with U_trename x => Ret (fmt_trename fc x) | _ => UB end else
  if t =? Rrename then Ret (fmt_rrename fc) else
  if t =? Treadlink then match fc_u fc with U_treadlink x => Ret (fmt_treadlink fc x) | _ => UB end else
  if t =? Rreadlink then match fc_u fc with U_rreadlink x => Ret (fmt_rreadlink fc x) | _ => UB end else
  if t =? Tgetattr then match fc_u fc with U_tgetattr x => Ret (fmt_tgetattr fc x) | _ => UB end else
  if t =? Rgetattr then match fc_u fc with U_rgetattr x => Ret (fmt_rgetattr fc x) | _ => UB end else
  if t =? Tsetattr then match fc_u fc with U_tsetattr x => Ret (fmt_tsetattr fc x) | _ => UB end else
  if t =? Rsetattr then Ret (fmt_rsetattr fc) else
  if t =? Txattrwalk then match fc_u fc with U_txattrwalk x => Ret (fmt_txattrwalk fc x) | _ => UB end else
  if t =? Rxattrwalk then match fc_u fc with U_rxattrwalk x => Ret (fmt_rxattrwalk fc x) | _ => UB end else
  if t =? Txattrcreate then match fc_u fc with U_txattrcreate x => Ret (fmt_txattrcreate fc x) | _ => UB end else
  if t =? Rxattrcreate then Ret (fmt_rxattrcreate fc) else
  if t =? Treaddir then match fc_u fc with U_treaddir x => Ret (fmt_treaddir fc x) | _ => UB end else
  if t =? Tfsync then match fc_u fc with U_tfsync x => Ret (fmt_tfsync fc x) | _ => UB end else
  if t =? Rfsync then Ret (fmt_rfsync fc) else
  if t =? Tlock then match fc_u fc with U_tlock x => Ret (fmt_tlock fc x) | _ => UB end else
  if t =? Rlock then match fc_u fc with U_rlock x => Ret (fmt_rlock fc x) | _ => UB end else
  if t =? Tgetlock then match fc_u fc with U_tgetlock x => Ret (fmt_tgetlock fc x) | _ => UB end else
  if t =? Rgetlock then match fc_u fc with U_rgetlock x => Ret (fmt_rgetlock fc x) | _ => UB end else
  if t =? Tlink then match fc_u fc with U_tlink x => Ret (fmt_tlink fc x) | _ => UB end else
  if t =? Rlink then Ret (fmt_rlink fc) else
  if t =? Tmkdir then match fc_u fc with U_tmkdir x => Ret (fmt_tmkdir fc x) | _ => UB end else
  if t =? Rmkdir then match fc_u fc with U_rmkdir x => Ret (fmt_rmkdir fc x) | _ => UB end else
  if t =? Trenameat then match fc_u fc with U_trenameat x => Ret (fmt_trenameat fc x) | _ => UB end else
  if t =? Rrenameat then Ret (fmt_rrenameat fc) else
  if t =? Tunlinkat then match fc_u fc with U_tunlinkat x => Ret (fmt_tunlinkat fc x) | _ => UB end else
  if t =? Runlinkat then Ret (fmt_runlinkat fc) else
  if t =? Tversion then match fc_u fc with U_tversion x => Ret (fmt_tversion fc x) | _ => UB end else
  if t =? Rversion then match fc_u fc with U_rversion x => Ret (fmt_rversion fc x) | _ => UB end else
  if t =? Tauth then match fc_u fc with U_tauth x => Ret (fmt_tauth fc x) | _ => UB end else
  if t =? Rauth then match fc_u fc with U_rauth x => Ret (fmt_rauth fc x) | _ => UB end else
  if t =? Tattach then match fc_u fc with U_tattach x => Ret (fmt_tattach fc x) | _ => UB end else
  if t =? Rattach then match fc_u fc with U_rattach x => Ret (fmt_rattach fc x) | _ => UB end else
  if t =? Tflush then match fc_u fc with U_tflush x => Ret (fmt_tflush fc x) | _ => UB end else
  if t =? Rflush then Ret (fmt_rflush fc) else
  if t =? Tread then match fc_u fc with U_tread x => Ret (fmt_tread fc x) | _ => UB end else
  if t =? Rwrite then match fc_u fc with U_rwrite x => Ret (fmt_rwrite fc x) | _ => UB end else
  if t =? Tclunk then match fc_u fc with U_tclunk x => Ret (fmt_tclunk fc x) | _ => UB end else
  if t =? Rclunk then Ret (fmt_rclunk fc) else
  if t =? Tremove then match fc_u fc with U_tremove x => Ret (fmt_tremove fc x) | _ => UB end else
  if t =? Rremove then Ret (fmt_rremove fc) else
  if t =? Twalk then match fc_u fc with U_twalk x => Ret (fmt_twalk fc x) | _ => UB end else
  if t =? Rwalk then match fc_u fc with U_rwalk x => Ret (fmt_rwalk fc x) | _ => UB end else
  if t =? Rreaddir then match fc_u fc with U_rreaddir x => fmt_rreaddir fc x | _ => UB end else
  if t =? Rread then match fc_u fc with U_rread x => fmt_rread fc x | _ => UB end else
  if t =? Twrite then match fc_u fc with U_twrite x => fmt_twrite fc x | _ => UB end else
  Ret (fmt_unused fc).

Definition np_snprintfcall (m : list Z) (len : Z) (fc : option Npfcall) : res (list Z) :=
  let! m := store_bytes m 0 [0] in
  match fc with
  | None => spf m len (lit "NULL")
  | Some fc => let! cs := fcall_calls fc in run_calls (fc_pkt fc) m len cs
  end.
End Text.
