(* ===== verification/FmtSpec.v ===== *)
(** * Traces fit into their buffer (libnpfs/fmt.c)

    The text of a message is the text of its parts, cut off where the buffer ends;
    a message that was received can be printed. *)
From S2P Require Import Prelude Cbuf Protocol Create Deserialize Builders Codec Safety CodecSpec Npstring Wire.
From S2P Require Import Fcall Srv SrvSpec Session Conf Ops Format FormatSpec Fmt.
From stdpp Require Import strings list.
#[local] Open Scope Z_scope.

(** ** Cutting off *)

(** Cutting a text off and appending more is appending and cutting off. *)
Lemma shown_app n a b : 4 <= n -> shown n (shown n a ++ b) = shown n (a ++ b).
Proof.
  intros Hn. unfold shown at 2. destruct (Z.ltb_spec (zlength a) n) as [Hlt|Hge]; [done|].
  set (pre := take (Z.to_nat (n - 4)) a). assert (Hpre : length pre = Z.to_nat (n - 4)) by (unfold pre, zlength in *; rewrite length_take; lia).
  pose proof (zlength_nonneg b). unfold shown. rewrite !zlength_app. rewrite (proj2 (Z.ltb_ge (zlength a + zlength b) n)) by lia.
  assert (Hz : zlength pre = n - 4) by (unfold zlength; lia). rewrite Hz. change (zlength [46; 46; 46]) with 3.
  assert (Ht : take (Z.to_nat (n - 4)) (a ++ b) = pre) by (rewrite take_app_le; [done|unfold zlength in *; lia]). rewrite Ht.
  destruct (Z.ltb_spec (n - 4 + 3 + zlength b) n) as [Hb|Hb].
  - destruct b as [|c b]; [by rewrite app_nil_r|]. unfold zlength in *. cbn in *. lia.
  - rewrite <- app_assoc, take_app_le, take_ge by lia. done.
Qed.

Lemma shown_short n a : zlength a < n -> shown n a = a.
Proof. intros Hl. unfold shown. by rewrite (proj2 (Z.ltb_lt _ _) Hl). Qed.

Lemma run_calls_shows ctime pkt cs ts : Forall2 (fun c t => call_text ctime pkt c = Ret t /\ no_nul t) cs ts ->
  forall m old, 4 <= zlength m -> holds_string m (shown (zlength m) old) ->
  exists m', run_calls ctime pkt m (zlength m) cs = Ret m' /\ zlength m' = zlength m /\ holds_string m' (shown (zlength m) (old ++ concat ts)).
Proof.
  induction 1 as [|c t cs ts [Ec Ht] Hrest IH]; intros m old Hm Hh.
  - exists m. cbn. rewrite app_nil_r. done.
  - cbn [run_calls]. rewrite Ec. cbn [res_bind]. destruct (spf_shows m _ t Hh Ht Hm) as (m1 & E1 & Hl1 & Hh1).
    rewrite E1. cbn [res_bind]. rewrite shown_app in Hh1 by done. rewrite <- Hl1 in *.
    destruct (IH m1 (old ++ t)) as (m2 & E2 & Hl2 & Hh2); [done|done|]. exists m2. cbn. rewrite app_assoc. done.
Qed.

Lemma run_calls_stuck ctime pkt cs ts c : Forall2 (fun c t => call_text ctime pkt c = Ret t /\ no_nul t) cs ts -> call_text ctime pkt c = UB ->
  forall m old, 4 <= zlength m -> holds_string m (shown (zlength m) old) -> run_calls ctime pkt m (zlength m) (cs ++ [c]) = UB.
Proof.
  intros Hts Hc. induction Hts as [|d t cs ts [Ed Ht] Hrest IH]; intros m old Hm Hh; cbn [app run_calls]; [by rewrite Hc|].
  rewrite Ed. cbn [res_bind]. destruct (spf_shows m _ t Hh Ht Hm) as (m1 & E1 & Hl1 & Hh1).
  rewrite E1. cbn [res_bind]. rewrite shown_app in Hh1 by done. rewrite <- Hl1 in *. by apply (IH m1 (old ++ t)).
Qed.

(** ** Pieces without zeros *)

Lemma radix_no_nul b fuel n acc : 0 < b -> 0 <= n -> no_nul acc -> no_nul (radix b fuel n acc).
Proof.
  intros Hb. revert n acc. induction fuel as [|fuel IH]; intros n acc Hn Hacc; cbn [radix]; [done|].
  assert (Hc : forall d, 0 <= d -> (if d <? 10 then 48 + d else 87 + d) <> 0) by (intros d Hd; destruct (d <? 10); lia).
  destruct (n <? b); [constructor; [by apply Hc|done]|]. pose proof (Z.mod_pos_bound n b). pose proof (Z.div_pos n b).
  apply IH; [lia|]. constructor; [apply Hc; lia|done].
Qed.

(** The constants have no zeros. *)
Definition clean (f : frag) : bool :=
  match f with
  | Lit s => forallb (fun c => negb (c =? 0)) (lit s)
  | Raw s => forallb (fun c => negb (c =? 0)) s
  | _ => true
  end.

Lemma forallb_no_nul s : forallb (fun c => negb (c =? 0)) s = true -> no_nul s.
Proof. rewrite forallb_forall. intros Hs. apply Forall_forall. intros c Hc. apply list_elem_of_In, Hs in Hc. by apply negb_true_iff, Z.eqb_neq in Hc. Qed.

Lemma no_nul_forallb s : no_nul s -> forallb (fun c => negb (c =? 0)) s = true.
Proof. intros Hs. apply forallb_forall. intros c Hc. unfold no_nul in Hs. rewrite Forall_forall in Hs. apply negb_true_iff, Z.eqb_neq, Hs. by apply list_elem_of_In. Qed.

Lemma c_string_clean m : no_nul (c_string m).
Proof. induction m as [|c m IH]; cbn; [constructor|]. destruct (Z.eqb_spec c 0); [constructor|by constructor]. Qed.

(** They print without the message. *)
Definition simple (f : frag) : bool := clean f && match f with Ps _ | Pt _ => false | _ => true end.

Section Clean.
(** What [ctime] gives is a C string. *)
Context (ctime : Z -> option cstr) (ctime_string : forall t s, ctime t = Some s -> no_nul s).

Lemma frag_no_nul pkt f t : clean f = true -> frag_text ctime pkt f = Ret t -> no_nul t.
Proof.
  destruct f as [s|s|z|z|z|z|w z|w z|s|sec]; cbn [clean frag_text]; intros Hc E.
  - apply Ret_inj in E as <-. by apply forallb_no_nul.
  - apply Ret_inj in E as <-. by apply forallb_no_nul.
  - apply Ret_inj in E as <-. apply dec_no_nul.
  - apply Ret_inj in E as <-. apply dec_no_nul.
  - apply Ret_inj in E as <-. apply radix_no_nul; [lia|apply u64_range|constructor].
  - apply Ret_inj in E as <-. apply radix_no_nul; [lia|apply u64_range|constructor].
  - apply Ret_inj in E as <-. apply Forall_app. split; [by apply Forall_replicate|]. apply radix_no_nul; [lia|apply u64_range|constructor].
  - apply Ret_inj in E as <-. apply Forall_app. split; [apply dec_no_nul|by apply Forall_replicate].
  - destruct (npstr_bytes pkt s) as [bs| |]; [|discriminate..]. cbn in E. apply Ret_inj in E as <-. apply c_string_clean.
  - unfold np_timestr in E. destruct (0 <? sec); [|apply Ret_inj in E as <-; by repeat constructor].
    destruct (ctime (int64 sec)) as [s|] eqn:Es; [|discriminate]. apply ctime_string in Es. unfold _chomp in E.
    destruct (last s); [|discriminate]. apply Ret_inj in E as <-. destruct (_ =? _); [by apply Forall_take|done].
Qed.

Lemma call_no_nul pkt c t : forallb clean c = true -> call_text ctime pkt c = Ret t -> no_nul t.
Proof.
  revert t. induction c as [|f c IH]; intros t Hc E; cbn in Hc, E; [apply Ret_inj in E as <-; constructor|].
  apply andb_true_iff in Hc as [Hf Hc]. destruct (frag_text ctime pkt f) as [tf| |] eqn:Ef; [|discriminate..]. cbn in E.
  destruct (call_text ctime pkt c) as [tc| |]; [|discriminate..]. cbn in E. apply Ret_inj in E as <-.
  apply Forall_app. split; [by eapply frag_no_nul|]. by apply IH.
Qed.
End Clean.

Lemma qid_letters_clean t : no_nul (qid_letters t).
Proof. unfold qid_letters, no_nul. rewrite !Forall_app. repeat split; repeat case_match; by repeat constructor. Qed.

Lemma qid_call_clean q : forallb simple (qid_call q) = true.
Proof. unfold qid_call, simple. cbn [forallb clean]. by rewrite (no_nul_forallb _ (qid_letters_clean _)). Qed.

Lemma locktype_clean t : forallb simple (locktype_call t) = true.
Proof. unfold locktype_call. by repeat case_match. Qed.

Lemma lockstatus_clean t : forallb simple (lockstatus_call t) = true.
Proof. unfold lockstatus_call. by repeat case_match. Qed.

Lemma sndump_clean i n data : Forall (fun c => forallb simple c = true) (sndump i n data).
Proof.
  revert i. induction data as [|b data IH]; intros i; cbn [sndump]; [constructor|]. rewrite !Forall_app.
  split; [by repeat constructor|]. split; [case_match; by repeat constructor|]. split; [case_match; by repeat constructor|]. apply IH.
Qed.

Lemma data_clean pkt d n cs : data_calls pkt d n = Ret cs -> Forall (fun c => forallb simple c = true) cs.
Proof.
  unfold data_calls. destruct (0 <? int32 n); [|intros E; apply Ret_inj in E as <-; constructor]. destruct d as [a|]; [|discriminate].
  destruct (load_bytes pkt a _) as [bs| |]; [|discriminate..]. cbn. intros E. apply Ret_inj in E as <-. constructor; [done|apply sndump_clean].
Qed.

Lemma dents_clean fuel buf n cs : dents_calls fuel buf n = Ret cs -> Forall (fun c => forallb simple c = true) cs.
Proof.
  revert buf n cs. induction fuel as [|fuel IH]; intros buf n cs; cbn [dents_calls]; [discriminate|].
  destruct (np_deserialize_p9dirent _ _ _) as [[r o]| |]; [|discriminate..]. cbn [res_bind].
  destruct (0 <? r); [|intros E; apply Ret_inj in E as <-; constructor]. destruct o as [d|]; [|discriminate].
  destruct (dents_calls fuel _ _) as [cs1| |] eqn:E1; [|discriminate..]. cbn [res_bind]. intros E. apply Ret_inj in E as <-.
  apply Forall_app. split; [|by eapply IH]. constructor; [done|]. constructor; [apply qid_call_clean|]. constructor; [|constructor].
  unfold simple. cbn [forallb clean]. by rewrite (no_nul_forallb _ (c_string_clean _)).
Qed.

(** ** The calls of a message *)

(** The times of a message. *)
Definition u_times (u : Npfcall_u) : list Z :=
  match u with
  | U_rgetattr x => [rgetattr_atime_sec x; rgetattr_mtime_sec x; rgetattr_ctime_sec x; rgetattr_btime_sec x]
  | U_tsetattr x => [tsetattr_atime_sec x; tsetattr_mtime_sec x]
  | _ => []
  end.

(** A piece prints a constant, a number, or a string or a time of the message. *)
Definition fine (u : Npfcall_u) (f : frag) : Prop :=
  match f with
  | Ps s => s ∈ u_strs u
  | Pt sec => sec ∈ u_times u
  | _ => clean f = true
  end.

Definition fine_calls (u : Npfcall_u) (r : res calls) : Prop := forall cs, r = Ret cs -> Forall (Forall (fine u)) cs.

Lemma fine_ret u cs : Forall (Forall (fine u)) cs -> fine_calls u (Ret cs).
Proof. by intros Hc ? [= <-]. Qed.

Lemma fine_ub u : fine_calls u UB.
Proof. by intros ? [=]. Qed.

Lemma fine_if u (b : bool) r1 r2 : fine_calls u r1 -> fine_calls u r2 -> fine_calls u (if b then r1 else r2).
Proof. by destruct b. Qed.

Lemma simple_fine u c : forallb simple c = true -> Forall (fine u) c.
Proof.
  intros Hc. rewrite forallb_forall in Hc. apply Forall_forall. intros f Hf. apply list_elem_of_In, Hc in Hf.
  unfold simple in Hf. apply andb_true_iff in Hf as [H1 H2]. by destruct f.
Qed.

Lemma simples_fine u cs : Forall (fun c => forallb simple c = true) cs -> Forall (Forall (fine u)) cs.
Proof. intros Hc. eapply Forall_impl; [exact Hc|]. intros c. apply simple_fine. Qed.

Lemma fine_data u pkt d n k : Forall (Forall (fine u)) k -> fine_calls u (let! cs := data_calls pkt d n in Ret (k ++ cs)).
Proof.
  intros Hk. destruct (data_calls pkt d n) as [cs| |] eqn:E; cbn [res_bind]; [|by intros ? [=]..]. apply fine_ret, Forall_app.
  split; [done|]. by eapply simples_fine, data_clean.
Qed.

Lemma fine_rreaddir fc x : fine_calls (U_rreaddir x) (fmt_rreaddir fc x).
Proof.
  unfold fmt_rreaddir. destruct (rreaddir_data x) as [a|]; [|by intros ? [=]].
  destruct (dents_calls _ _ _) as [cs| |] eqn:E; cbn [res_bind]; [|by intros ? [=]..]. apply fine_ret, Forall_app.
  split; [by repeat constructor|]. by eapply simples_fine, dents_clean.
Qed.

Ltac fine_frag :=
  match goal with
  | |- fine _ (Ps _) => cbn [fine u_strs app]; repeat first [apply list_elem_of_here | apply list_elem_of_further]
  | |- fine _ (Pt _) => cbn [fine u_times]; repeat first [apply list_elem_of_here | apply list_elem_of_further]
  | |- _ => exact eq_refl
  end.

Ltac fine_piece :=
  match goal with
  | |- Forall _ (qid_call _) => apply simple_fine, qid_call_clean
  | |- Forall _ (locktype_call _) => apply simple_fine, locktype_clean
  | |- Forall _ (lockstatus_call _) => apply simple_fine, lockstatus_clean
  | |- Forall _ (if ?b then _ else _) => destruct b; fine_piece
  | |- _ => repeat (apply List.Forall_cons; [fine_frag|]); apply List.Forall_nil
  end.

Ltac fine_member :=
  apply fine_ret;
  match goal with
  | |- Forall _ (?f _ _) => unfold f
  | |- Forall _ (?f _) => unfold f
  end;
  repeat (apply List.Forall_cons; [fine_piece|]); apply List.Forall_nil.

Ltac fine_branch :=
  match goal with
  | |- fine_calls _ (match fc_u ?fc with _ => _ end) => destruct (fc_u fc); try apply fine_ub
  | _ => idtac
  end.

Lemma fine_names u x fc : Forall (fun s => s ∈ u_strs u) (twalk_wnames x) -> fine_calls u (Ret (fmt_twalk fc x)).
Proof.
  intros Hs. apply fine_ret, Forall_app. split; [by repeat constructor|]. apply Forall_map. eapply Forall_impl; [exact Hs|].
  intros s Hin. by repeat constructor.
Qed.

Lemma fine_qids u x fc : fine_calls u (Ret (fmt_rwalk fc x)).
Proof.
  apply fine_ret, Forall_app. split; [by repeat constructor|]. apply Forall_map, Forall_forall. intros q _. apply simple_fine, qid_call_clean.
Qed.

Lemma fine_unused u fc : fine_calls u (Ret (fmt_unused fc)).
Proof. apply fine_ret. unfold fmt_unused. repeat match goal with |- Forall _ (if ?b then _ else _) => destruct b; [by repeat constructor|] end. by repeat constructor. Qed.

Lemma fcall_calls_fine fc : fine_calls (fc_u fc) (fcall_calls fc).
Proof.
  unfold fcall_calls. repeat (apply fine_if; [fine_branch|]); [..|apply fine_unused].
  all: try fine_member.
  - apply fine_names, Forall_forall. done.
  - apply fine_qids.
  - apply fine_rreaddir.
  - apply fine_data. by repeat constructor.
  - apply fine_data. by repeat constructor.
Qed.

(** ** What is printed *)

Fixpoint calls_text (ctime : Z -> option cstr) (pkt : list Z) (cs : calls) : res cstr :=
  match cs with
  | [] => Ret []
  | c :: cs => let! t := call_text ctime pkt c in let! r := calls_text ctime pkt cs in Ret (t ++ r)
  end.

(** The whole text of a message. *)
Definition fcall_text (ctime : Z -> option cstr) (fc : Npfcall) : res cstr :=
  let! cs := fcall_calls fc in calls_text ctime (fc_pkt fc) cs.

Section Printed.
Context (ctime : Z -> option cstr) (ctime_string : forall t s, ctime t = Some s -> no_nul s).

Definition strs_ok (fc : Npfcall) : Prop := forall s, s ∈ u_strs (fc_u fc) -> exists bs, npstr_bytes (fc_pkt fc) s = Ret bs.

(** The times have a year that [ctime] can show. *)
Definition times_ok (fc : Npfcall) : Prop :=
  forall sec, sec ∈ u_times (fc_u fc) -> 0 < sec -> exists s, ctime (int64 sec) = Some s /\ s <> [].

Lemma frag_runs fc f : strs_ok fc -> times_ok fc -> fine (fc_u fc) f ->
  exists t, frag_text ctime (fc_pkt fc) f = Ret t /\ no_nul t.
Proof.
  intros Hs Ht Hf. assert (Hc : clean f = true) by (by destruct f).
  assert (He : exists t, frag_text ctime (fc_pkt fc) f = Ret t).
  { destruct f as [s|s|z|z|z|z|w z|w z|s|sec]; cbn [frag_text]; try (by eexists).
    - destruct (Hs s Hf) as [bs ->]. by eexists.
    - unfold np_timestr. destruct (Z.ltb_spec 0 sec) as [Hp|]; [|by eexists]. destruct (Ht sec Hf Hp) as (s & -> & Hne).
      unfold _chomp. destruct (last s) eqn:El; [by eexists|]. by apply last_None in El. }
  destruct He as [t E]. exists t. split; [done|]. by apply (frag_no_nul ctime ctime_string (fc_pkt fc) f).
Qed.

Lemma call_runs fc c : strs_ok fc -> times_ok fc -> Forall (fine (fc_u fc)) c ->
  exists t, call_text ctime (fc_pkt fc) c = Ret t /\ no_nul t.
Proof.
  intros Hs Ht. induction 1 as [|f c Hf Hc (t & Et & Htz)]; [exists []; split; [done|constructor]|]. destruct (frag_runs fc f Hs Ht Hf) as (tf & Ef & Hfz).
  exists (tf ++ t). cbn [call_text]. rewrite Ef. cbn [res_bind]. rewrite Et. split; [done|]. by apply Forall_app.
Qed.

Lemma calls_run fc cs : strs_ok fc -> times_ok fc -> Forall (Forall (fine (fc_u fc))) cs ->
  exists ts, Forall2 (fun c t => call_text ctime (fc_pkt fc) c = Ret t /\ no_nul t) cs ts /\ calls_text ctime (fc_pkt fc) cs = Ret (concat ts).
Proof.
  intros Hs Ht. induction 1 as [|c cs Hc Hcs (ts & Hts & Ets)]; [exists []; by split|]. destruct (call_runs fc c Hs Ht Hc) as (t & Et & Htz).
  exists (t :: ts). split; [by constructor|]. cbn [calls_text concat]. rewrite Et. cbn [res_bind]. by rewrite Ets.
Qed.

Lemma printed_runs m fc cs : fcall_calls fc = Ret cs -> strs_ok fc -> times_ok fc -> 4 <= zlength m ->
  exists m' text, fcall_text ctime fc = Ret text /\ np_snprintfcall ctime m (zlength m) (Some fc) = Ret m' /\ zlength m' = zlength m /\
    c_string m' = shown (zlength m) text.
Proof.
  intros Ec Hs Ht Hm. destruct (calls_run fc cs Hs Ht (fcall_calls_fine fc cs Ec)) as (ts & Hts & Ets).
  unfold np_snprintfcall, fcall_text. rewrite Ec. cbn [res_bind]. rewrite store_text_at by (change (zlength [0]) with 1; lia).
  cbn [res_bind take app Z.to_nat]. set (m0 := 0 :: _).
  assert (Hl : zlength m0 = zlength m) by (unfold m0, zlength in *; cbn; rewrite length_drop; lia).
  assert (Hh : holds_string m0 (shown (zlength m0) [])).
  { rewrite shown_short by (rewrite Hl; change (zlength []) with 0; lia). split; [constructor|]. by eexists. }
  rewrite <- Hl in *. destruct (run_calls_shows ctime (fc_pkt fc) cs ts Hts m0 [] Hm Hh) as (m' & E & Hl' & Hh').
  exists m', (concat ts). split; [done|]. split; [done|]. split; [done|]. by apply holds_string_c.
Qed.
End Printed.

(** ** Messages that were received *)

Lemma data_calls_run pkt lo d n : 0 <= n < 2 ^ 32 -> 0 <= lo -> data_in lo (zlength pkt) (Some (n, d)) -> exists cs, data_calls pkt d n = Ret cs.
Proof.
  intros Hn Hlo Hd. unfold data_calls. destruct (Z.ltb_spec 0 (int32 n)) as [Hp|]; [|by eexists].
  assert (Hs : 0 <= n < 2 ^ 31) by (destruct (Z_lt_dec n (2 ^ 31)); [lia|rewrite int32_wrap in Hp by lia; lia]).
  destruct (Hd Hs) as (a & -> & Ha & Hb). rewrite int32_small in * by lia.
  assert (El : exists bs, load_bytes pkt a (if n <? 64 then n else 64) = Ret bs).
  { eexists. apply load_bytes_ok; destruct (Z.ltb_spec n 64); lia. }
  destruct El as [bs ->]. by eexists.
Qed.

Lemma typed_calls fc : typed (fc_type fc) (fc_u fc) -> views_in 7 (zlength (fc_pkt fc)) (fc_u fc) -> exists cs, fcall_calls fc = Ret cs.
Proof.
  intros Ht [_ Hd]. unfold fcall_calls. destruct Ht; eval_switch.
  all: try (by eexists).
  match goal with |- context [fmt_twrite _ ?x] =>
    destruct (data_calls_run (fc_pkt fc) 7 (twrite_data x) (twrite_count x)) as [cs Ec]; [done|lia|done|] end.
  unfold fmt_twrite. rewrite Ec. by eexists.
Qed.

(** A request is received with views inside its packet. *)
Lemma receive_views pkt tc : delivered pkt -> receive pkt = Ret (Some tc) ->
  typed (fc_type tc) (fc_u tc) /\ fc_pkt tc = pkt /\ views_in 7 (zlength pkt) (fc_u tc).
Proof.
  intros Hdel E. destruct (receive_runs pkt Hdel) as (o & Eo & Ho). rewrite E in Eo. injection Eo as <-. destruct (Ho tc eq_refl) as [Ht _].
  split; [done|]. destruct Hdel as [Hb Hh Hw Hs]. unfold receive in E.
  destruct (np_deserialize_run (blank_fcall pkt) Hb Hh Hw Hs) as (n & fc & Ed & Hp & Hz & HV). rewrite Ed in E. cbn [res_bind] in E.
  destruct (Z.eqb_spec n 0) as [|Hn]; [discriminate|]. destruct (np_check_allowed fc); [|discriminate]. injection E as <-. split; [done|].
  destruct HV as [|[-> [HV HD]]]; [done|]. cbn [blank_fcall fc_pkt] in *. rewrite Hz in HV, HD. split.
  - eapply Forall_impl; [exact HV|]. intros s (a & Ea & ? & ? & ?). exists a. split; [done|]. lia.
  - unfold data_in in *. destruct (u_data (fc_u fc)) as [[c d]|]; [|done]. intros Hc. destruct (HD Hc) as (a & Ea & ? & ?). exists a. split; [done|]. lia.
Qed.

Section Received.
Context (ctime : Z -> option cstr) (ctime_string : forall t s, ctime t = Some s -> no_nul s).

(** C40: whatever a client sends, a request that the server accepts can be traced: its
    text is printed without a read outside the packet or a write outside the
    buffer, whole if it fits and else cut off with three dots, provided that
    ctime can show the times in it. *)
Theorem received_printed pkt tc m : delivered pkt -> receive pkt = Ret (Some tc) -> times_ok ctime tc -> 4 <= zlength m ->
  exists m' text, fcall_text ctime tc = Ret text /\ np_snprintfcall ctime m (zlength m) (Some tc) = Ret m' /\ zlength m' = zlength m /\
    c_string m' = shown (zlength m) text.
Proof.
  intros Hdel E Ht Hm. destruct (receive_views pkt tc Hdel E) as (Hty & Hp & HV). rewrite <- Hp in HV.
  destruct (typed_calls tc Hty HV) as [cs Ec]. apply (printed_runs ctime ctime_string m tc cs); [done| |done|done].
  destruct (receive_runs pkt Hdel) as (o & Eo & Ho). rewrite E in Eo. injection Eo as <-. by destruct (Ho tc eq_refl).
Qed.
End Received.

(** A Tsetattr of a modification time. *)
Definition setattr_packet (sec : Z) : list Z :=
  le_bytes 4 67 ++ le_bytes 1 Tsetattr ++ le_bytes 2 1 ++ le_bytes 4 5 ++ le_bytes 4 (Samtime + Samtimeset) ++ le_bytes 4 0 ++ le_bytes 4 0 ++
  le_bytes 4 0 ++ le_bytes 8 0 ++ le_bytes 8 0 ++ le_bytes 8 0 ++ le_bytes 8 sec ++ le_bytes 8 0.

Definition setattr_fcall (sec : Z) : Npfcall :=
  match receive (setattr_packet sec) with Ret (Some tc) => tc | _ => blank_fcall [] end.

(** The last second that a signed 64-bit time holds. *)
Definition last_second : Z := 2 ^ 63 - 1.

(** A client can send a Tsetattr with a time whose year no int holds; the server
    accepts it, and a server that traces its messages passes the NULL of ctime on to
    strlen. *)
Theorem traced_time_crashes ctime m : ctime last_second = None -> 4 <= zlength m ->
  delivered (setattr_packet last_second) /\ receive (setattr_packet last_second) = Ret (Some (setattr_fcall last_second)) /\
  np_snprintfcall ctime m (zlength m) (Some (setattr_fcall last_second)) = UB.
Proof.
  intros Hn Hm. split; [split; vm_compute; try done; repeat constructor; done|]. split; [vm_compute; reflexivity|].
  unfold np_snprintfcall. rewrite store_text_at by (change (zlength [0]) with 1; lia). cbn [res_bind take app Z.to_nat].
  set (m0 := 0 :: _). assert (Hl : zlength m0 = zlength m) by (unfold m0, zlength in *; cbn; rewrite length_drop; lia).
  set (tc := setattr_fcall last_second).
  assert (Ec : exists cs, fcall_calls tc = Ret (cs ++ [[Lit " mtime "; Pt last_second]]) /\
    exists ts, Forall2 (fun c t => call_text ctime (fc_pkt tc) c = Ret t /\ no_nul t) cs ts).
  { exists [[Lit "Tsetattr tag "; Pu 1]; [Lit " fid "; Pu 5]; [Lit " valid 0x"; Px 288]; [Lit " mode X"]; [Lit " uid X"]; [Lit " gid X"];
      [Lit " size X"]; [Lit " atime X"]].
    split; [vm_compute; reflexivity|]. eexists.
    repeat (apply List.Forall2_cons; [split; [vm_compute; reflexivity|by repeat constructor]|]). apply List.Forall2_nil. }
  destruct Ec as (cs & Ec & ts & Hts). rewrite Ec. cbn [res_bind]. rewrite <- Hl in *.
  apply (run_calls_stuck ctime (fc_pkt tc) cs ts _ Hts) with (old := []); [|done|].
  - cbn. unfold np_timestr. change (0 <? last_second) with true. change (int64 last_second) with last_second. by rewrite Hn.
  - rewrite shown_short by (change (zlength []) with 0; lia). split; [constructor|]. by eexists.
Qed.

(** A time in every year, and none in the last ones. *)
Definition some_ctime (t : Z) : option cstr := if t <? 2 ^ 55 then Some (lit "now" ++ [10]) else None.

Lemma some_ctime_string t s : some_ctime t = Some s -> no_nul s.
Proof. unfold some_ctime. destruct (t <? 2 ^ 55); [|done]. intros [= <-]. by repeat constructor. Qed.

Lemma received_printed_witness : exists m' text, fcall_text some_ctime (setattr_fcall 77) = Ret text /\
  np_snprintfcall some_ctime (replicate 64 0) (zlength (replicate 64 0)) (Some (setattr_fcall 77)) = Ret m' /\
  zlength m' = zlength (replicate 64 0) /\ c_string m' = shown (zlength (replicate 64 0)) text.
Proof.
  apply (received_printed some_ctime some_ctime_string (setattr_packet 77)).
  - split; vm_compute; try done; repeat constructor; done.
  - vm_compute. reflexivity.
  - intros sec Hs Hp. vm_compute in Hs. exists (lit "now" ++ [10]). split; [|done].
    apply list_elem_of_In in Hs. destruct Hs as [<-|[<-|[]]]; [done|reflexivity].
  - vm_compute. discriminate.
Defined.

(** In a buffer of 64 bytes the time of the request is cut off. *)
Example setattr_traced : exists m', np_snprintfcall some_ctime (replicate 64 0) 64 (Some (setattr_fcall 77)) = Ret m' /\
  c_string m' = lit "Tsetattr tag 1 fid 5 valid 0x120 mode X uid X gid X size X a...".
Proof. eexists. split; [vm_compute; reflexivity|]. vm_compute. reflexivity. Qed.

Lemma traced_time_crashes_witness :
  np_snprintfcall some_ctime (replicate 64 0) (zlength (replicate 64 0)) (Some (setattr_fcall last_second)) = UB.
Proof. apply (traced_time_crashes some_ctime (replicate 64 0)); [reflexivity|vm_compute; discriminate]. Defined.
