(* ===== verification/Users.v ===== *)
(** * Users (libnpfs/user.c)

    The users that fids belong to, and the cache in which they are kept for a
    minute.  A user is an object on a heap with a reference count; the cache is the
    list that runs through the objects, and holds one reference to each.  Using an
    object that was freed is [UB], and so is following a list that does not end.
    The C library, the user database and the clock are the class [UserDb].  Log
    messages are left out, and so are the mutexes: the functions here are the
    sections in which they are held, or sequences of such sections. *)
From S2P Require Import Prelude Cbuf Protocol Npstring Wire Fcall Format.
From stdpp Require Import list gmap.
#[local] Open Scope Z_scope.

Declare Scope users_scope.
Delimit Scope users_scope with users.

Definition SRV_FLAGS_NOUSERDB : Z := 262144.

Record passwd := { pw_name : cstr; pw_uid : Z; pw_gid : Z }.

Class UserDb := {
  db : Type;
  (** is there memory? *)
  db_malloc : db -> bool * db;
  (** the allocations of the next [aspf] *)
  db_reallocs : db -> (nat -> bool) * db;
  db_time : db -> Z * db;
  (** [sysconf(_SC_NGROUPS_MAX)] *)
  db_ngroups_max : db -> Z;
  (** the error code, and the entry if there is one *)
  db_getpwuid_r : Z -> db -> (Z * option passwd) * db;
  db_getpwnam_r : cstr -> db -> (Z * option passwd) * db;
  (** of a name and a group, into an array of some size; [None] is -1 *)
  db_getgrouplist : cstr -> Z -> Z -> db -> option (list Z) * db;
  (** [np_ctl_addfile] of the file of the cache *)
  db_addfile : db -> bool * db;
}.

(** [u_sg] has [u_nsg] elements. *)
Record Npuser := {
  u_refcount : Z;
  u_uname : option cstr;
  u_uid : Z;
  u_gid : Z;
  u_nsg : Z;
  u_sg : option (list Z);
  u_next : option positive;
  u_t : Z;
}.

Definition set_u_refcount v u := {| u_refcount := v; u_uname := u_uname u; u_uid := u_uid u; u_gid := u_gid u;
  u_nsg := u_nsg u; u_sg := u_sg u; u_next := u_next u; u_t := u_t u |}.
Definition set_u_uname v u := {| u_refcount := u_refcount u; u_uname := v; u_uid := u_uid u; u_gid := u_gid u;
  u_nsg := u_nsg u; u_sg := u_sg u; u_next := u_next u; u_t := u_t u |}.
Definition set_u_ids uid gid u := {| u_refcount := u_refcount u; u_uname := u_uname u; u_uid := uid; u_gid := gid;
  u_nsg := u_nsg u; u_sg := u_sg u; u_next := u_next u; u_t := u_t u |}.
Definition set_u_sg n v u := {| u_refcount := u_refcount u; u_uname := u_uname u; u_uid := u_uid u; u_gid := u_gid u;
  u_nsg := n; u_sg := v; u_next := u_next u; u_t := u_t u |}.
Definition set_u_next v u := {| u_refcount := u_refcount u; u_uname := u_uname u; u_uid := u_uid u; u_gid := u_gid u;
  u_nsg := u_nsg u; u_sg := u_sg u; u_next := v; u_t := u_t u |}.
Definition set_u_t v u := {| u_refcount := u_refcount u; u_uname := u_uname u; u_uid := u_uid u; u_gid := u_gid u;
  u_nsg := u_nsg u; u_sg := u_sg u; u_next := u_next u; u_t := v |}.

(** [srv->usercache]: [NULL], the cache, or memory that was freed. *)
Inductive Npusercache :=
| Cache_null
| Cache (users : option positive) (ttl : Z)
| Cache_freed.

Section State.
Context `{UserDb}.

Record ustate := {
  us_cache : Npusercache;
  us_heap : gmap positive Npuser;
  us_fresh : positive;
  us_err : Z;
  us_db : db;
}.

Definition set_cache v s := {| us_cache := v; us_heap := us_heap s; us_fresh := us_fresh s; us_err := us_err s; us_db := us_db s |}.
Definition set_heap v s := {| us_cache := us_cache s; us_heap := v; us_fresh := us_fresh s; us_err := us_err s; us_db := us_db s |}.
Definition set_fresh v s := {| us_cache := us_cache s; us_heap := us_heap s; us_fresh := v; us_err := us_err s; us_db := us_db s |}.
Definition set_uerr v s := {| us_cache := us_cache s; us_heap := us_heap s; us_fresh := us_fresh s; us_err := v; us_db := us_db s |}.
Definition set_db v s := {| us_cache := us_cache s; us_heap := us_heap s; us_fresh := us_fresh s; us_err := us_err s; us_db := v |}.

Definition UM (A : Type) : Type := ustate -> res (A * ustate).

Definition uret {A} (a : A) : UM A := fun s => Ret (a, s).
Definition ubind {A B} (c : UM A) (f : A -> UM B) : UM B := fun s => let! (a, s) := c s in f a s.
Definition ulift {A} (c : res A) : UM A := fun s => let! a := c in Ret (a, s).
Definition umodify (f : ustate -> ustate) : UM unit := fun s => Ret (tt, f s).
Definition uget {A} (f : ustate -> A) : UM A := fun s => Ret (f s, s).

(** A question to the library. *)
Definition ask {A} (q : db -> A * db) : UM A := fun s => let '(a, w) := q (us_db s) in Ret (a, set_db w s).
End State.

Notation "'do' x <- c ; k" := (ubind c (fun x => k))
  (at level 100, x pattern, c at level 100, k at level 200, right associativity) : users_scope.
#[local] Open Scope users_scope.

Section Users.
Context `{UserDb}.

Definition uuerror (e : Z) : UM unit := umodify (set_uerr e).

Definition load_user (l : positive) : UM Npuser :=
  do m <- uget us_heap; ulift (match m !! l with Some u => Ret u | None => UB end).
Definition upd_user (l : positive) (f : Npuser -> Npuser) : UM unit :=
  do u <- load_user l; umodify (fun s => set_heap (<[l := f u]> (us_heap s)) s).
Definition del_user (l : positive) : UM unit :=
  do _ <- load_user l; umodify (fun s => set_heap (delete l (us_heap s)) s).

(** [uc->users] and [uc->ttl] *)
Definition cache : UM (option positive * Z) :=
  do c <- uget us_cache; ulift (match c with Cache us ttl => Ret (us, ttl) | _ => UB end).
Definition put_users (us : option positive) : UM unit :=
  do (_, ttl) <- cache; umodify (set_cache (Cache us ttl)).

(** No list is longer than the number of objects that there ever were. *)
Definition list_fuel : UM nat := uget (fun s => Pos.to_nat (us_fresh s)).

(** The memory of a new object: what its fields hold is not known, but no function
    reads a field before it is set. *)
Definition new_user : UM positive :=
  do l <- uget us_fresh;
  do _ <- umodify (set_fresh (Pos.succ l));
  do _ <- umodify (fun s => set_heap (<[l := {| u_refcount := 0; u_uname := None; u_uid := 0; u_gid := 0; u_nsg := 0;
            u_sg := None; u_next := None; u_t := 0 |}]> (us_heap s)) s);
  uret l.

(** ** References *)

(** With its name and its groups. *)
Definition _free_user (l : positive) : UM unit := del_user l.

Definition np_user_incref (o : option positive) : UM unit :=
  match o with
  | None => uret tt
  | Some l => upd_user l (fun u => set_u_refcount (u_refcount u + 1) u)
  end.

Definition np_user_decref (o : option positive) : UM unit :=
  match o with
  | None => uret tt
  | Some l =>
      do u <- load_user l;
      let n := u_refcount u - 1 in
      do _ <- upd_user l (set_u_refcount n);
      if 0 <? n then uret tt else _free_user l
  end.

(** ** The cache *)

Definition _usercache_add (l : positive) : UM unit :=
  do (us, _) <- cache;
  do _ <- upd_user l (set_u_next us);
  do _ <- put_users (Some l);
  np_user_incref (Some l).

Definition _usercache_del (prev : option positive) (l : positive) : UM (option positive) :=
  do u <- load_user l;
  let tmp := u_next u in
  do _ <- match prev with Some p => upd_user p (set_u_next tmp) | None => put_users tmp end;
  do _ <- np_user_decref (Some l);
  uret tmp.

Fixpoint expire_loop (fuel : nat) (now : Z) (prev o : option positive) : UM unit :=
  match fuel, o with
  | _, None => uret tt
  | O, Some _ => ulift UB
  | S fuel, Some l =>
      do u <- load_user l;
      do (_, ttl) <- cache;
      if ttl <=? now - u_t u then do o <- _usercache_del prev l; expire_loop fuel now prev o
      else expire_loop fuel now (Some l) (u_next u)
  end.

Definition _usercache_expire : UM unit :=
  do now <- ask db_time;
  do (us, _) <- cache;
  do n <- list_fuel;
  expire_loop n now None us.

(** Looked up by a name, or by a number if there is none. *)
Definition matches (uname : option cstr) (uid : Z) (u : Npuser) : res bool :=
  match uname with
  | None => Ret (uid =? u_uid u)
  | Some n => match u_uname u with Some m => Ret (bool_decide (n = m)) | None => UB end
  end.

Fixpoint lookup_loop (fuel : nat) (uname : option cstr) (uid : Z) (o : option positive) : UM (option positive) :=
  match fuel, o with
  | _, None => uret None
  | O, Some _ => ulift UB
  | S fuel, Some l =>
      do u <- load_user l;
      do b <- ulift (matches uname uid u);
      if b then uret (Some l) else lookup_loop fuel uname uid (u_next u)
  end.

Definition _usercache_lookup (uname : option cstr) (uid : Z) : UM (option positive) :=
  do _ <- _usercache_expire;
  do (us, _) <- cache;
  do n <- list_fuel;
  lookup_loop n uname uid us.

(** All entries are deleted, from the first one on. *)
Fixpoint del_loop (fuel : nat) (o : option positive) : UM unit :=
  match fuel, o with
  | _, None => uret tt
  | O, Some _ => ulift UB
  | S fuel, Some l => do o <- _usercache_del None l; del_loop fuel o
  end.

Definition np_usercache_flush : UM unit :=
  do (us, _) <- cache;
  do n <- list_fuel;
  del_loop n us.

Definition np_usercache_create : UM bool :=
  do c <- uget us_cache;
  do _ <- ulift (np_assert (match c with Cache_null => true | _ => false end));
  do ok <- ask db_malloc;
  if negb ok then do _ <- uuerror ENOMEM; uret false
  else
    do _ <- umodify (set_cache (Cache None 60));
    do ok <- ask db_addfile;
    if negb ok then do _ <- umodify (set_cache Cache_freed); uret false
    else uret true.

Definition np_usercache_destroy : UM unit :=
  do c <- uget us_cache;
  do _ <- ulift (np_assert (match c with Cache_null => false | _ => true end));
  do (us, _) <- cache;
  do n <- list_fuel;
  do _ <- del_loop n us;
  umodify (set_cache Cache_null).

(** The line of a user in the ctl file of the cache: the seconds that are left. *)
Definition user_line (ttl now : Z) (u : Npuser) : res cstr :=
  match u_uname u with
  | None => UB
  | Some n =>
      let left := int32 (ttl - (now - u_t u)) in
      Ret (n ++ [40] ++ dec (int32 (u_uid u)) ++ [44] ++ dec (int32 (u_gid u)) ++ [43] ++ dec (u_nsg u) ++ [41; 32] ++
           dec (if u_uid u =? 0 then 0 else left) ++ [10])
  end.

Fixpoint text_loop (fuel : nat) (now : Z) (sp : option (list Z * Z)) (o : option positive) : UM (option (list Z)) :=
  match fuel, o with
  | _, None => uret (option_map fst sp)
  | O, Some _ => ulift UB
  | S fuel, Some l =>
      do u <- load_user l;
      do (_, ttl) <- cache;
      do text <- ulift (user_line ttl now u);
      do mem <- ask db_reallocs;
      do r <- ulift (aspf 0 mem (S (length text)) sp text);
      match r with
      | None => ulift UB
      | Some (Aspf_ok m len) => text_loop fuel now (Some (m, len)) (u_next u)
      | Some (Aspf_failed dangling) =>
          do _ <- uuerror ENOMEM;
          if dangling then ulift UB else uret None
      end
  end.

Definition _get_usercache : UM (option (list Z)) :=
  do now <- ask db_time;
  do _ <- _usercache_expire;
  do (us, _) <- cache;
  do n <- list_fuel;
  text_loop n now None us.

(** ** New users *)

(** All the groups of a user, in an array that is as long as there are groups, if
    there is memory for it. *)
Definition _getgrouplist (l : positive) : UM bool :=
  do max <- uget (fun s => db_ngroups_max (us_db s));
  let max := if max <? 65536 then 65536 else max in
  do _ <- upd_user l (set_u_sg max None);
  do ok <- ask db_malloc;
  if negb ok then do _ <- uuerror ENOMEM; uret false
  else
    do u <- load_user l;
    do name <- ulift (match u_uname u with Some n => Ret n | None => UB end);
    do r <- ask (db_getgrouplist name (u_gid u) max);
    match r with
    | None =>
        do e <- uget us_err;
        do _ <- (if e =? 0 then uuerror EPERM else uret tt);
        uret false
    | Some gids =>
        do _ <- ask db_malloc;
        do _ <- upd_user l (set_u_sg (zlength gids) (Some gids));
        uret true
    end.

(** The last fields of a new user. *)
Definition start_user (l : positive) : UM (option positive) :=
  do t <- ask db_time;
  do _ <- upd_user l (fun u => set_u_next None (set_u_t t (set_u_refcount 0 u)));
  uret (Some l).

Definition _alloc_user (pwd : passwd) : UM (option positive) :=
  do ok <- ask db_malloc;
  if negb ok then do _ <- uuerror ENOMEM; uret None
  else
    do l <- new_user;
    do _ <- upd_user l (set_u_sg 0 None);
    do ok <- ask db_malloc;
    if negb ok then do _ <- uuerror ENOMEM; do _ <- _free_user l; uret None
    else
      do _ <- upd_user l (set_u_uname (Some (c_string (pw_name pwd))));
      do _ <- upd_user l (set_u_ids (pw_uid pwd) (pw_gid pwd));
      do ok <- (if negb (pw_uid pwd =? 0) then _getgrouplist l else uret true);
      if negb ok then do _ <- _free_user l; uret None
      else start_user l.

Definition root_name : cstr := [114; 111; 111; 116].

Definition _alloc_nouserdb (uid : Z) (name : option cstr) : UM (option positive) :=
  match (match name with Some n => if bool_decide (n = root_name) then Some 0 else None | None => Some uid end) with
  | None => do _ <- uuerror EPERM; uret None
  | Some uid =>
      let ustr := if negb (uid =? 0) then dec (int32 uid) else root_name in
      do ok <- ask db_malloc;
      if negb ok then do _ <- uuerror ENOMEM; uret None
      else
        do l <- new_user;
        do ok <- ask db_malloc;
        if negb ok then do _ <- uuerror ENOMEM; do _ <- _free_user l; uret None
        else
          do _ <- upd_user l (set_u_uname (Some ustr));
          do _ <- upd_user l (set_u_ids uid uid);
          do _ <- upd_user l (set_u_sg 1 None);
          do ok <- ask db_malloc;
          if negb ok then do _ <- uuerror ENOMEM; do _ <- _free_user l; uret None
          else
            do _ <- upd_user l (set_u_sg 1 (Some [uid]));
            start_user l
  end.

(** An answer of the user database. *)
Definition looked_up (r : Z * option passwd) : UM (option positive) :=
  let '(err, pwd) := r in
  if negb (err =? 0) then do _ <- uuerror err; uret None
  else match pwd with
       | None => do _ <- uuerror EPERM; uret None
       | Some pwd => _alloc_user pwd
       end.

Context (srv_flags : Z).

Definition nouserdb : bool := bit srv_flags SRV_FLAGS_NOUSERDB.

Definition _real_lookup_byuid (uid : Z) : UM (option positive) :=
  if nouserdb then _alloc_nouserdb uid None
  else
    do ok <- ask db_malloc;
    if negb ok then do _ <- uuerror ENOMEM; uret None
    else do r <- ask (db_getpwuid_r uid); looked_up r.

Definition _real_lookup_byname (uname : cstr) : UM (option positive) :=
  if nouserdb then _alloc_nouserdb NONUNAME (Some uname)
  else
    do ok <- ask db_malloc;
    if negb ok then do _ <- uuerror ENOMEM; uret None
    else do r <- ask (db_getpwnam_r uname); looked_up r.

(** ** Lookups *)

(** The section in which the lock of the cache is held. *)
Definition find_user (uname : option cstr) (uid : Z) (real : UM (option positive)) : UM (option positive) :=
  do u <- _usercache_lookup uname uid;
  match u with
  | Some l => uret (Some l)
  | None =>
      do u <- real;
      match u with
      | Some l => do _ <- _usercache_add l; uret (Some l)
      | None => uret None
      end
  end.

Definition np_uname2user (uname : cstr) : UM (option positive) :=
  do u <- find_user (Some uname) NONUNAME (_real_lookup_byname uname);
  do _ <- np_user_incref u;
  uret u.

Definition np_uid2user (uid : Z) : UM (option positive) :=
  do u <- find_user None uid (_real_lookup_byuid uid);
  do _ <- np_user_incref u;
  uret u.

(** The name is in a packet and may have zeros; the copy of it ends at the first. *)
Definition np_attach2user (pkt : list Z) (uname : Npstr) (n_uname : Z) : UM (option positive) :=
  if negb (n_uname =? NONUNAME) then np_uid2user n_uname
  else if len uname =? 0 then do _ <- uuerror EIO; uret None
  else
    do ok <- ask db_malloc;
    if negb ok then do _ <- uuerror ENOMEM; uret None
    else
      do bs <- ulift (npstr_bytes pkt uname);
      np_uname2user (c_string (bs ++ [0])).

(** [user] is [afid->user]. *)
Definition np_afid2user (user : option positive) (pkt : list Z) (uname : Npstr) (n_uname : Z) : UM (option positive) :=
  do l <- ulift (match user with Some l => Ret l | None => UB end);
  do u <- load_user l;
  do same <- (if negb (n_uname =? NONUNAME) then uret (n_uname =? u_uid u)
              else
                do name <- ulift (match u_uname u with Some n => Ret n | None => UB end);
                do r <- ulift (np_strcmp pkt uname name);
                uret (r =? 0));
  if negb same then do _ <- uuerror EPERM; uret None
  else do _ <- np_user_incref user; uret user.
End Users.
