(* ===== verification/UsersSpec.v ===== *)
(** * Users are counted, cached and freed (libnpfs/user.c)

    The invariant of the cache and of the reference counts, what every function
    does to it, and what a lookup finds. *)
From S2P Require Import Prelude Cbuf Protocol Npstring Wire Fcall Format FormatSpec Users.
From stdpp Require Import list gmap.
#[local] Open Scope Z_scope.
#[local] Open Scope users_scope.

(** ** Runs *)

Section Runs.
Context `{UserDb}.

Definition uruns {A} (c : UM A) (s : ustate) (Q : A -> ustate -> Prop) : Prop := exists a s', c s = Ret (a, s') /\ Q a s'.

Lemma uruns_ret {A} (a : A) s Q : Q a s -> uruns (uret a) s Q.
Proof. intros HQ. by exists a, s. Qed.

Lemma uruns_bind {A B} (c : UM A) (f : A -> UM B) s Q : uruns c s (fun a s' => uruns (f a) s' Q) -> uruns (ubind c f) s Q.
Proof. intros (a & s1 & E1 & b & s2 & E2 & HQ). exists b, s2. split; [|done]. unfold ubind. rewrite E1. exact E2. Qed.

Lemma uruns_mono {A} (c : UM A) s (Q R : A -> ustate -> Prop) : uruns c s Q -> (forall a s', Q a s' -> R a s') -> uruns c s R.
Proof. intros (a & s' & E & HQ) HR. exists a, s'. auto. Qed.

Lemma uruns_get {A} (f : ustate -> A) s (Q : A -> ustate -> Prop) : Q (f s) s -> uruns (uget f) s Q.
Proof. intros HQ. by exists (f s), s. Qed.

Lemma uruns_modify f s (Q : unit -> ustate -> Prop) : Q tt (f s) -> uruns (umodify f) s Q.
Proof. intros HQ. by exists tt, (f s). Qed.

Lemma uruns_lift {A} (c : res A) a s (Q : A -> ustate -> Prop) : c = Ret a -> Q a s -> uruns (ulift c) s Q.
Proof. intros -> HQ. by exists a, s. Qed.

Lemma uruns_ask {A} (q : db -> A * db) s (Q : A -> ustate -> Prop) :
  (forall a w, q (us_db s) = (a, w) -> Q a (set_db w s)) -> uruns (ask q) s Q.
Proof. intros HQ. unfold ask. destruct (q (us_db s)) as [a w] eqn:E. exists a, (set_db w s). rewrite E. auto. Qed.

Lemma uruns_load l u s (Q : Npuser -> ustate -> Prop) : us_heap s !! l = Some u -> Q u s -> uruns (load_user l) s Q.
Proof. intros El HQ. apply uruns_bind, uruns_get. by apply uruns_lift with (a := u); [rewrite El|]. Qed.

Lemma uruns_upd l u f s (Q : unit -> ustate -> Prop) : us_heap s !! l = Some u ->
  Q tt (set_heap (<[l := f u]> (us_heap s)) s) -> uruns (upd_user l f) s Q.
Proof. intros El HQ. apply uruns_bind, (uruns_load l u); [done|]. by apply uruns_modify. Qed.

Lemma uruns_del l u s (Q : unit -> ustate -> Prop) : us_heap s !! l = Some u ->
  Q tt (set_heap (delete l (us_heap s)) s) -> uruns (del_user l) s Q.
Proof. intros El HQ. apply uruns_bind, (uruns_load l u); [done|]. by apply uruns_modify. Qed.

Lemma uruns_cache us ttl s (Q : option positive * Z -> ustate -> Prop) : us_cache s = Cache us ttl ->
  Q (us, ttl) s -> uruns cache s Q.
Proof. intros Ec HQ. apply uruns_bind, uruns_get. by apply uruns_lift with (a := (us, ttl)); [rewrite Ec|]. Qed.

Lemma uruns_put us0 us ttl s (Q : unit -> ustate -> Prop) : us_cache s = Cache us0 ttl ->
  Q tt (set_cache (Cache us ttl) s) -> uruns (put_users us) s Q.
Proof. intros Ec HQ. apply uruns_bind, (uruns_cache us0 ttl); [done|]. by apply uruns_modify. Qed.
End Runs.

(** ** Lists through the heap *)

Definition next_of (h : gmap positive Npuser) (l : positive) : option (option positive) := u_next <$> h !! l.

(** The list from [o] to [o'] is [ls]. *)
Fixpoint lseg (h : gmap positive Npuser) (o : option positive) (ls : list positive) (o' : option positive) : Prop :=
  match ls with
  | [] => o = o'
  | l :: ls => o = Some l /\ exists n, next_of h l = Some n /\ lseg h n ls o'
  end.

Lemma lseg_app h o ls1 ls2 o' : lseg h o (ls1 ++ ls2) o' <-> exists m, lseg h o ls1 m /\ lseg h m ls2 o'.
Proof.
  revert o. induction ls1 as [|l ls1 IH]; intros o; cbn.
  - split; [by exists o|by intros (m & -> & ?)].
  - split.
    + intros (-> & n & En & Hl). apply IH in Hl as (m & H1 & H2). exists m. split; [|done]. split; [done|]. by exists n.
    + intros (m & (-> & n & En & H1) & H2). split; [done|]. exists n. split; [done|]. apply IH. by exists m.
Qed.

(** What the list does not go through can change. *)
Lemma lseg_frame h h' o ls o' : (forall l, l ∈ ls -> next_of h' l = next_of h l) -> lseg h o ls o' -> lseg h' o ls o'.
Proof.
  revert o. induction ls as [|l ls IH]; intros o Hf; cbn; [done|]. intros (-> & n & En & Hl). split; [done|].
  exists n. split; [rewrite Hf by left; done|]. apply IH; [|done]. intros l' Hl'. apply Hf. by right.
Qed.

Lemma lseg_live h o ls o' l : lseg h o ls o' -> l ∈ ls -> is_Some (h !! l).
Proof.
  revert o. induction ls as [|l' ls IH]; intros o; [by rewrite elem_of_nil|]. intros (-> & n & En & Hl).
  rewrite elem_of_cons. intros [->|Hin]; [|by eapply IH].
  unfold next_of in En. destruct (h !! l'); [done|discriminate].
Qed.

Lemma lseg_unique h o ls ls' : lseg h o ls None -> lseg h o ls' None -> ls' = ls.
Proof.
  revert o ls'. induction ls as [|l ls IH]; intros o ls' H1 H2; cbn in H1; destruct ls' as [|l' ls']; cbn in H2.
  - done.
  - destruct H2 as [-> _]. done.
  - destruct H1 as [-> _]. done.
  - destruct H1 as (-> & n & En & H1), H2 as ([= <-] & n' & En' & H2). rewrite En in En'. injection En' as <-. by rewrite (IH n ls').
Qed.

Lemma next_of_insert_ne h l l' u : l <> l' -> next_of (<[l := u]> h) l' = next_of h l'.
Proof. intros Hne. unfold next_of. by rewrite lookup_insert_ne. Qed.

Lemma next_of_delete_ne h l l' : l <> l' -> next_of (delete l h) l' = next_of h l'.
Proof. intros Hne. unfold next_of. by rewrite lookup_delete_ne. Qed.

Lemma next_of_insert h l u : next_of (<[l := u]> h) l = Some (u_next u).
Proof. unfold next_of. by rewrite lookup_insert_eq. Qed.

(** ** The invariant *)

(** What a user is, as opposed to where it is kept. *)
Definition ident (u : Npuser) := (u_uname u, u_uid u, u_gid u, u_nsg u, u_sg u, u_t u).

(** The identity that an answer of the user database gives: the groups are read for
    all but root. *)
Definition from_passwd `{UserDb} (pwd : passwd) (u : Npuser) : Prop :=
  u_uname u = Some (c_string (pw_name pwd)) /\ u_uid u = pw_uid pwd /\ u_gid u = pw_gid pwd /\
  if u_uid u =? 0 then u_sg u = None
  else exists max w w' gids, db_getgrouplist (c_string (pw_name pwd)) (pw_gid pwd) max w = (Some gids, w') /\ u_sg u = Some gids.

(** The identity that is made up when there is no user database. *)
Definition from_uid (uid : Z) (u : Npuser) : Prop :=
  u_uname u = Some (if uid =? 0 then root_name else dec (int32 uid)) /\ u_uid u = uid /\ u_gid u = uid /\ u_sg u = Some [uid].

Section Authentic.
Context `{UserDb}.

Lemma from_passwd_ext pwd u v : ident u = ident v -> from_passwd pwd u -> from_passwd pwd v.
Proof. unfold ident, from_passwd. destruct u, v. cbn. intros [= -> -> -> -> -> ->]. done. Qed.

Lemma from_uid_ext uid u v : ident u = ident v -> from_uid uid u -> from_uid uid v.
Proof. unfold ident, from_uid. destruct u, v. cbn. intros [= -> -> -> -> -> ->]. done. Qed.

(** The user database gave the entry. *)
Definition answered (pwd : passwd) : Prop := exists w w',
  (exists uid, db_getpwuid_r uid w = ((0, Some pwd), w')) \/ (exists name, db_getpwnam_r name w = ((0, Some pwd), w')).

(** The identity is one of the user database, or one that is made up without it. *)
Definition authentic (u : Npuser) : Prop :=
  (exists pwd, answered pwd /\ from_passwd pwd u) \/ (exists uid, from_uid uid u).

Definition wf_user (u : Npuser) : Prop :=
  (exists n, u_uname u = Some n /\ no_nul n) /\ u_nsg u = match u_sg u with Some g => zlength g | None => 0 end /\ authentic u.

Lemma wf_ident u u' : ident u = ident u' -> wf_user u -> wf_user u'.
Proof.
  intros E (Hn & Hs & Ha). split; [|split].
  - unfold ident in E. by replace (u_uname u') with (u_uname u) by congruence.
  - unfold ident in E. replace (u_nsg u') with (u_nsg u) by congruence. by replace (u_sg u') with (u_sg u) by congruence.
  - destruct Ha as [(pwd & Hp & Hu)|(uid & Hu)]; [left; exists pwd; split; [done|]; by apply (from_passwd_ext pwd u)|].
    right. exists uid. by apply (from_uid_ext uid u).
Qed.
End Authentic.

Definition cnt (ls : list positive) (l : positive) : Z := if decide (l ∈ ls) then 1 else 0.

Definition held_by (d : Z) (l : positive) (held : positive -> Z) (x : positive) : Z := if decide (x = l) then held x + d else held x.

Definition held_opt (d : Z) (o : option positive) (held : positive -> Z) : positive -> Z :=
  match o with Some l => held_by d l held | None => held end.

Section Invariant.
Context `{UserDb}.

(** The users of the cache are [ls]; callers hold [held] references to a user.  A
    user is in memory if and only if the cache or a caller has a reference. *)
Record uinv (ttl : Z) (ls : list positive) (held : positive -> Z) (s : ustate) : Prop := {
  i_cache : exists us, us_cache s = Cache us ttl /\ lseg (us_heap s) us ls None;
  i_nodup : NoDup ls;
  i_user : forall l u, us_heap s !! l = Some u ->
    wf_user u /\ (l < us_fresh s)%positive /\ u_refcount u = cnt ls l + held l /\ 0 < u_refcount u;
  i_held : forall l, 0 <= held l /\ (0 < held l -> is_Some (us_heap s !! l));
}.

(** No user becomes another one: what is in memory at a place that was used before
    is the user that was there. *)
Definition kept (s s' : ustate) : Prop := (us_fresh s <= us_fresh s')%positive /\
  forall l u', us_heap s' !! l = Some u' -> (l < us_fresh s)%positive -> exists u, us_heap s !! l = Some u /\ ident u' = ident u.

Lemma kept_refl s : kept s s.
Proof. split; [lia|]. intros l u' El _. by exists u'. Qed.

Lemma kept_trans s1 s2 s3 : kept s1 s2 -> kept s2 s3 -> kept s1 s3.
Proof.
  intros [F1 K1] [F2 K2]. split; [lia|]. intros l u3 E3 Hl. destruct (K2 l u3 E3) as (u2 & E2 & I2); [lia|].
  destruct (K1 l u2 E2) as (u1 & E1 & I1); [lia|]. exists u1. split; [done|]. by rewrite I2.
Qed.

Lemma kept_upd s s' l u u' : us_heap s !! l = Some u -> ident u' = ident u -> us_heap s' = <[l := u']> (us_heap s) ->
  us_fresh s' = us_fresh s -> kept s s'.
Proof.
  intros El Hi Eh Ef. split; [rewrite Ef; lia|]. intros x y Ex _. rewrite Eh in Ex. destruct (decide (x = l)) as [->|Hne].
  - rewrite lookup_insert_eq in Ex. injection Ex as <-. by exists u.
  - rewrite lookup_insert_ne in Ex by done. by exists y.
Qed.

Lemma kept_del s s' l : us_heap s' = delete l (us_heap s) -> us_fresh s' = us_fresh s -> kept s s'.
Proof. intros Eh Ef. split; [rewrite Ef; lia|]. intros x y Ex _. rewrite Eh in Ex. apply lookup_delete_Some in Ex as [_ Ex]. by exists y. Qed.

Lemma kept_same s s' : us_heap s' = us_heap s -> us_fresh s' = us_fresh s -> kept s s'.
Proof. intros Eh Ef. split; [rewrite Ef; lia|]. intros x y Ex _. rewrite Eh in Ex. by exists y. Qed.

Lemma uinv_same ttl ls held s s' : uinv ttl ls held s -> us_heap s' = us_heap s -> us_cache s' = us_cache s ->
  us_fresh s' = us_fresh s -> uinv ttl ls held s'.
Proof. intros [Hc Hn Hu Hh] E1 E2 E3. split; rewrite ?E1, ?E2, ?E3; done. Qed.

(** A list of different places is shorter than the number of places. *)
Lemma short_list (ls : list positive) n : NoDup ls -> (forall l, l ∈ ls -> (l < n)%positive) -> (length ls < Pos.to_nat n)%nat.
Proof.
  intros Hn Hl. assert (Hle : (length (map Pos.to_nat ls) <= length (seq 1 (Pos.to_nat n - 1)))%nat).
  { apply NoDup_incl_length.
    - apply NoDup_ListNoDup. apply (NoDup_fmap_2 Pos.to_nat ls). done.
    - intros x Hx. apply in_map_iff in Hx as (l & <- & Hin). apply list_elem_of_In, Hl in Hin. apply in_seq. lia. }
  rewrite length_map, length_seq in Hle. lia.
Qed.

Lemma uinv_short ttl ls held s : uinv ttl ls held s -> (length ls < Pos.to_nat (us_fresh s))%nat.
Proof.
  intros [(us & _ & Hs) Hn Hu _]. apply short_list; [done|]. intros l Hl. destruct (lseg_live _ _ _ _ l Hs Hl) as [u Eu].
  by destruct (Hu l u Eu) as (_ & ? & _).
Qed.

(** A user changes only in its count. *)
Lemma uinv_recount ttl ls ls' held held' s l u n : uinv ttl ls held s -> us_heap s !! l = Some u ->
  (exists us, us_cache s = Cache us ttl /\ lseg (<[l := set_u_refcount n u]> (us_heap s)) us ls' None) -> NoDup ls' ->
  (forall x, x <> l -> cnt ls' x = cnt ls x /\ held' x = held x) -> n = cnt ls' l + held' l -> 0 < n -> 0 <= held' l ->
  uinv ttl ls' held' (set_heap (<[l := set_u_refcount n u]> (us_heap s)) s).
Proof.
  intros [Hc Hnd Hu Hh] El Hs Hn' Hx En Hpos Hhl. split; cbn; [done|done| |].
  - intros x y Ex. destruct (decide (x = l)) as [->|Hne].
    + rewrite lookup_insert_eq in Ex. injection Ex as <-. destruct (Hu l u El) as (W & F & _). cbn.
      split; [by apply (wf_ident u)|]. done.
    + rewrite lookup_insert_ne in Ex by done. destruct (Hx x Hne) as [-> ->]. by apply Hu.
  - intros x. destruct (decide (x = l)) as [->|Hne]; [rewrite lookup_insert_eq; done|].
    rewrite lookup_insert_ne by done. destruct (Hx x Hne) as [_ ->]. apply Hh.
Qed.
End Invariant.

(** ** References *)

Lemma held_by_at d l held : held_by d l held l = held l + d.
Proof. unfold held_by. by rewrite decide_True. Qed.

Lemma held_by_ne d l held x : x <> l -> held_by d l held x = held x.
Proof. intros Hne. unfold held_by. by rewrite decide_False. Qed.

Lemma set_refcount_frame h us ls o l u n : h !! l = Some u -> lseg h us ls o -> lseg (<[l := set_u_refcount n u]> h) us ls o.
Proof.
  intros El. apply lseg_frame. intros x _. destruct (decide (x = l)) as [->|Hne]; [|by rewrite next_of_insert_ne].
  rewrite next_of_insert. unfold next_of. by rewrite El.
Qed.

Ltac keep_upd := eapply kept_upd; [eassumption| |reflexivity|reflexivity]; reflexivity.

Section Refs.
Context `{UserDb}.

Lemma uinv_ext ttl ls held held' s : uinv ttl ls held s -> (forall l, held' l = held l) -> uinv ttl ls held' s.
Proof. intros [Hc Hn Hu Hh] E. split; [done|done| |]; intros l; rewrite E; [apply Hu|apply Hh]. Qed.

Lemma incref_runs ttl ls held s l : uinv ttl ls held s -> is_Some (us_heap s !! l) ->
  uruns (np_user_incref (Some l)) s (fun _ s' => uinv ttl ls (held_by 1 l held) s' /\ kept s s').
Proof.
  intros Hi [u El]. apply (uruns_upd l u); [done|]. split; [|keep_upd].
  pose proof Hi as [(us & Ec & Hs) Hn Hu Hh]. destruct (Hu l u El) as (_ & _ & Er & Hp). destruct (Hh l) as [H0 _].
  eapply uinv_recount; [exact Hi|done| |done| | |lia|].
  - exists us. split; [done|]. by apply set_refcount_frame.
  - intros x Hne. by rewrite held_by_ne.
  - rewrite held_by_at. lia.
  - rewrite held_by_at. lia.
Qed.

Lemma decref_runs ttl ls held s l : uinv ttl ls held s -> 0 < held l ->
  uruns (np_user_decref (Some l)) s (fun _ s' => uinv ttl ls (held_by (-1) l held) s' /\ kept s s').
Proof.
  intros Hi Hl. pose proof Hi as [(us & Ec & Hs) Hn Hu Hh]. destruct (Hh l) as [_ Hlive]. destruct (Hlive Hl) as [u El].
  destruct (Hu l u El) as (_ & _ & Er & Hp).
  apply uruns_bind, (uruns_load l u); [done|]. apply uruns_bind, (uruns_upd l u); [done|].
  destruct (Z.ltb_spec 0 (u_refcount u - 1)) as [Hpos|Hzero].
  - apply uruns_ret. split; [|keep_upd].
    eapply uinv_recount; [exact Hi|done| |done| |rewrite held_by_at; lia|lia|rewrite held_by_at; lia].
    + exists us. split; [done|]. by apply set_refcount_frame.
    + intros x Hne. by rewrite held_by_ne.
  - apply (uruns_del l (set_u_refcount (u_refcount u - 1) u)); [by cbn; rewrite lookup_insert_eq|]. cbn.
    rewrite delete_insert_eq. split; [|by eapply kept_del].
    assert (Hni : l ∉ ls). { intros Hin. unfold cnt in Er. rewrite decide_True in Er by done. lia. }
    unfold cnt in Er. rewrite decide_False in Er by done. split; cbn; [|done| |].
    + exists us. split; [done|]. eapply lseg_frame; [|exact Hs]. intros x Hx. apply next_of_delete_ne. by intros ->.
    + intros x y Ex. apply lookup_delete_Some in Ex as [Hne Ex]. rewrite held_by_ne by done. by apply Hu.
    + intros x. destruct (decide (x = l)) as [->|Hne]; [rewrite held_by_at; split; intros; lia|].
      rewrite held_by_ne, lookup_delete_ne by done. apply Hh.
Qed.

(** ** The cache *)

(** An entry is taken out of the list; the reference of the cache is left over. *)
Lemma unlink_runs ttl pre l post held s u : uinv ttl (pre ++ l :: post) held s -> us_heap s !! l = Some u ->
  uruns (match last pre with Some p => upd_user p (set_u_next (u_next u)) | None => put_users (u_next u) end) s
    (fun _ s' => uinv ttl (pre ++ post) (held_by 1 l held) s' /\ kept s s').
Proof.
  intros Hi El. pose proof Hi as [(us & Ec & Hs) Hn Hu Hh].
  assert (Hnd : NoDup (pre ++ post) /\ l ∉ pre ++ post).
  { rewrite <- Permutation_middle in Hn. apply NoDup_cons in Hn. tauto. }
  destruct Hnd as [Hnd Hni].
  assert (Hcnt : forall x, x <> l -> cnt (pre ++ l :: post) x = cnt (pre ++ post) x).
  { intros x Hne. unfold cnt. apply decide_ext. rewrite !elem_of_app, elem_of_cons. tauto. }
  assert (Hcl : cnt (pre ++ l :: post) l = 1) by (unfold cnt; rewrite decide_True; [done|apply elem_of_app; right; left]).
  assert (Hcl' : cnt (pre ++ post) l = 0) by (unfold cnt; by rewrite decide_False).
  apply lseg_app in Hs as (m & Hpre & -> & n & En & Hpost).
  assert (Hnu : n = u_next u) by (unfold next_of in En; rewrite El in En; by injection En). subst n.
  assert (Hcount : forall x y, us_heap s !! x = Some y -> u_refcount y = cnt (pre ++ post) x + held_by 1 l held x).
  { intros x y Ex. destruct (Hu x y Ex) as (_ & _ & Er & _). destruct (decide (x = l)) as [->|Hne].
    - rewrite held_by_at. lia.
    - rewrite held_by_ne by done. rewrite <- Hcnt; done. }
  assert (Hheld : forall x, 0 <= held_by 1 l held x /\ (0 < held_by 1 l held x -> is_Some (us_heap s !! x))).
  { intros x. destruct (Hh x). destruct (decide (x = l)) as [->|Hne]; [rewrite held_by_at; rewrite El; split; [lia|done]|].
    by rewrite held_by_ne. }
  destruct pre as [|p0 pre0 _] using rev_ind.
  - cbn in *. subst us. apply (uruns_put (Some l) (u_next u) ttl); [done|]. split; [|by apply kept_same].
    split; cbn; [by exists (u_next u)|done| |done]. intros x y Ex. split; [|split; [|split]]; try apply (Hu x y Ex). by apply Hcount.
  - rewrite last_snoc. apply lseg_app in Hpre as (m & Hpre0 & -> & n & En0 & ->).
    assert (Hp : exists v, us_heap s !! p0 = Some v).
    { unfold next_of in En0. destruct (us_heap s !! p0) as [v|]; [by exists v|discriminate]. }
    destruct Hp as [v Ev].
    assert (Hp0 : p0 ∉ pre0 /\ p0 ∉ post).
    { rewrite <- app_assoc in Hnd. apply NoDup_app in Hnd as (_ & Hd & Hnd). cbn in Hnd. apply NoDup_cons in Hnd as [? _].
      split; [|done]. intros Hin. apply (Hd p0 Hin). left. }
    apply (uruns_upd p0 v); [done|]. split; [|keep_upd]. split; cbn; [|done| |].
    + exists us. split; [done|]. rewrite <- app_assoc. apply lseg_app. exists (Some p0). split.
      { eapply lseg_frame; [|exact Hpre0]. intros x Hx. apply next_of_insert_ne. intros <-. tauto. }
      split; [done|]. exists (u_next u). rewrite next_of_insert. split; [done|].
      eapply lseg_frame; [|exact Hpost]. intros x Hx. apply next_of_insert_ne. intros <-. tauto.
    + intros x y Ex. destruct (decide (x = p0)) as [->|Hne].
      * rewrite lookup_insert_eq in Ex. injection Ex as <-. destruct (Hu p0 v Ev) as (W & F & _ & P).
        split; [by apply (wf_ident v)|]. split; [done|]. split; [|done]. exact (Hcount p0 v Ev).
      * rewrite lookup_insert_ne in Ex by done. split; [|split; [|split]]; try apply (Hu x y Ex). by apply Hcount.
    + intros x. destruct (decide (x = p0)) as [->|Hne]; [|rewrite lookup_insert_ne by done; apply Hheld].
      rewrite lookup_insert_eq. split; [apply Hheld|done].
Qed.

Lemma del_runs ttl pre l post held s : uinv ttl (pre ++ l :: post) held s ->
  uruns (_usercache_del (last pre) l) s (fun o s' => uinv ttl (pre ++ post) held s' /\ kept s s' /\ o = head post).
Proof.
  intros Hi. pose proof Hi as [(us & Ec & Hs) Hn Hu Hh].
  destruct (lseg_live _ _ _ _ l Hs) as [u El]; [apply elem_of_app; right; left|].
  assert (Hnext : u_next u = head post).
  { apply lseg_app in Hs as (m & _ & -> & n & En & Hpost). unfold next_of in En. rewrite El in En. injection En as ->.
    destruct post as [|x post]; [done|]. by destruct Hpost as [-> _]. }
  apply uruns_bind, (uruns_load l u); [done|]. apply uruns_bind. eapply uruns_mono; [exact (unlink_runs _ _ _ _ _ _ _ Hi El)|].
  intros [] s1 [Hi1 K1]. apply uruns_bind. destruct (Hh l) as [Hh0 _].
  eapply uruns_mono; [apply (decref_runs _ _ _ _ l Hi1); rewrite held_by_at; lia|].
  intros [] s2 [Hi2 K2]. apply uruns_ret. split; [|split; [exact (kept_trans _ _ _ K1 K2)|done]].
  eapply uinv_ext; [exact Hi2|]. intros x. unfold held_by. destruct (decide (x = l)); lia.
Qed.
End Refs.

(** ** Lookups in the cache *)

Definition ident_of (h : gmap positive Npuser) (l : positive) := ident <$> h !! l.

Definition young (now ttl : Z) (h : gmap positive Npuser) (l : positive) : bool :=
  match h !! l with Some u => now - u_t u <? ttl | None => false end.

Section Cache.
Context `{UserDb}.

Lemma kept_ident s s' l : kept s s' -> is_Some (us_heap s' !! l) -> (l < us_fresh s)%positive ->
  ident_of (us_heap s') l = ident_of (us_heap s) l.
Proof. intros [_ K] [u' E'] Hl. destruct (K l u' E' Hl) as (u & E & I). unfold ident_of. rewrite E, E'. cbn. by rewrite I. Qed.

Lemma young_ident now ttl h h' l : ident_of h' l = ident_of h l -> young now ttl h' l = young now ttl h l.
Proof.
  unfold ident_of, young. destruct (h !! l) as [u|], (h' !! l) as [u'|]; cbn; intros E; try done. assert (Et : u_t u' = u_t u) by (unfold ident in E; congruence). by rewrite Et.
Qed.

Lemma uinv_in ttl ls held s l : uinv ttl ls held s -> l ∈ ls -> is_Some (us_heap s !! l) /\ (l < us_fresh s)%positive.
Proof.
  intros [(us & _ & Hs) _ Hu _] Hl. pose proof (lseg_live _ _ _ _ l Hs Hl) as Hlive. split; [done|].
  destruct Hlive as [u Eu]. apply (Hu l u Eu).
Qed.

Lemma uinv_next ttl pre l post held s u : uinv ttl (pre ++ l :: post) held s -> us_heap s !! l = Some u -> u_next u = head post.
Proof.
  intros [(us & _ & Hs) _ _ _] El. apply lseg_app in Hs as (m & _ & -> & n & En & Hpost). unfold next_of in En. rewrite El in En.
  injection En as ->. destruct post as [|x post]; [done|]. by destruct Hpost as [-> _].
Qed.

Lemma uinv_head ttl ls held s : uinv ttl ls held s -> us_cache s = Cache (head ls) ttl.
Proof. intros [(us & Ec & Hs) _ _ _]. rewrite Ec. destruct ls as [|l ls]; [by rewrite Hs|]. by destruct Hs as [-> _]. Qed.

Lemma expire_loop_runs fuel now ttl h mid : forall pre held s, (length mid <= fuel)%nat -> uinv ttl (pre ++ mid) held s ->
  (forall l, l ∈ mid -> ident_of (us_heap s) l = ident_of h l) ->
  uruns (expire_loop fuel now (last pre) (head mid)) s
    (fun _ s' => uinv ttl (pre ++ filter (fun l => young now ttl h l = true) mid) held s' /\ kept s s').
Proof.
  revert fuel. induction mid as [|l mid IH]; intros fuel pre held s Hf Hi Ht.
  { destruct fuel; apply uruns_ret; (split; [done|apply kept_refl]). }
  destruct fuel as [|fuel]; [cbn in Hf; lia|]. cbn [expire_loop head].
  destruct (uinv_in _ _ _ _ l Hi) as [[u El] Hl]; [apply elem_of_app; right; left|].
  pose proof (uinv_next _ _ _ _ _ _ _ Hi El) as Hnext.
  assert (Hy : young now ttl h l = (now - u_t u <? ttl)).
  { rewrite <- (young_ident now ttl h (us_heap s) l) by (apply Ht; left). unfold young. by rewrite El. }
  apply uruns_bind, (uruns_load l u); [done|]. apply uruns_bind. eapply uruns_cache; [by apply (uinv_head _ _ _ _ Hi)|].
  rewrite filter_cons, Hy. destruct (Z.leb_spec ttl (now - u_t u)) as [Hold|Hyoung].
  - rewrite (proj2 (Z.ltb_ge _ _)) by lia. rewrite decide_False by done.
    apply uruns_bind. eapply uruns_mono; [by apply del_runs|]. intros o s1 (Hi1 & K1 & ->). cbn in Hf.
    eapply uruns_mono; [apply IH; [lia|exact Hi1|]|].
    + intros x Hx. rewrite <- (Ht x) by (by right). destruct (uinv_in _ _ _ _ x Hi) as [_ Hlx]; [apply elem_of_app; right; by right|].
      apply kept_ident; [done| |done]. apply (uinv_in _ _ _ _ x Hi1). apply elem_of_app. by right.
    + intros [] s2 [Hi2 K2]. split; [done|]. exact (kept_trans _ _ _ K1 K2).
  - rewrite (proj2 (Z.ltb_lt _ _)) by lia. rewrite decide_True by done. cbn in Hf. rewrite Hnext, <- (last_snoc l pre).
    eapply uruns_mono; [apply IH; [lia|by rewrite <- app_assoc|intros x Hx; apply Ht; by right]|].
    intros [] s1 [Hi1 K1]. rewrite <- app_assoc in Hi1. done.
Qed.

(** The entries that are too old are gone; [now] is what the clock said. *)
Lemma expire_runs ttl ls held s : uinv ttl ls held s ->
  uruns _usercache_expire s (fun _ s' =>
    uinv ttl (filter (fun l => young (fst (db_time (us_db s))) ttl (us_heap s) l = true) ls) held s' /\ kept s s').
Proof.
  intros Hi. unfold _usercache_expire. apply uruns_bind, uruns_ask. intros now w Et. rewrite Et. cbn [fst].
  assert (Hi1 : uinv ttl ls held (set_db w s)) by (by eapply uinv_same).
  apply uruns_bind. eapply uruns_cache; [by apply (uinv_head _ _ _ _ Hi)|]. apply uruns_bind, uruns_get.
  change None with (last (@nil positive)). eapply uruns_mono.
  - apply (expire_loop_runs _ now ttl (us_heap s) ls [] held); [|done|done]. apply Nat.lt_le_incl, (uinv_short _ _ _ _ Hi1).
  - intros [] s' [Hi' K]. done.
Qed.

Lemma lookup_loop_runs fuel uname uid ttl ls : forall pre held s, (length ls <= fuel)%nat -> uinv ttl (pre ++ ls) held s ->
  uruns (lookup_loop fuel uname uid (head ls)) s (fun o s' => s' = s /\
    match o with
    | Some l => l ∈ ls /\ exists u, us_heap s !! l = Some u /\ matches uname uid u = Ret true
    | None => forall l u, l ∈ ls -> us_heap s !! l = Some u -> matches uname uid u = Ret false
    end).
Proof.
  revert fuel. induction ls as [|l ls IH]; intros fuel pre held s Hf Hi.
  { destruct fuel; apply uruns_ret; (split; [done|]); intros l u Hl; by apply elem_of_nil in Hl. }
  destruct fuel as [|fuel]; [cbn in Hf; lia|]. cbn [lookup_loop head].
  destruct (uinv_in _ _ _ _ l Hi) as [[u El] _]; [apply elem_of_app; right; left|].
  apply uruns_bind, (uruns_load l u); [done|].
  assert (Hb : exists b, matches uname uid u = Ret b).
  { unfold matches. destruct uname as [n|]; [|by eexists]. destruct (i_user _ _ _ _ Hi l u El) as ([(m & Em & _) _] & _). rewrite Em. by eexists. }
  destruct Hb as [b Eb]. apply uruns_bind. eapply uruns_lift; [exact Eb|]. destruct b.
  - apply uruns_ret. split; [done|]. split; [left|]. by exists u.
  - rewrite (uinv_next _ _ _ _ _ _ _ Hi El). cbn in Hf.
    eapply uruns_mono; [apply (IH fuel (pre ++ [l]) held s); [lia|by rewrite <- app_assoc]|].
    intros o s' [-> Ho]. split; [done|]. destruct o as [l'|].
    + destruct Ho as [Hin Hu]. split; [by right|done].
    + intros x v Hx Ex. apply elem_of_cons in Hx as [->|Hx]; [|by eapply Ho]. rewrite El in Ex. by injection Ex as <-.
Qed.
End Cache.

(** ** New users *)

Section New.
Context `{UserDb}.

(** A new user [l] is being made. *)
Record building (s : ustate) (l : positive) (u : Npuser) (s1 : ustate) : Prop := {
  b_place : l = us_fresh s;
  b_heap : us_heap s1 = <[l := u]> (us_heap s);
  b_cache : us_cache s1 = us_cache s;
  b_fresh : us_fresh s1 = Pos.succ (us_fresh s);
}.

(** Was a user made? *)
Definition made (s : ustate) (P : Npuser -> Prop) (o : option positive) (s' : ustate) : Prop :=
  us_cache s' = us_cache s /\ (us_fresh s <= us_fresh s')%positive /\
  match o with
  | None => us_heap s' = us_heap s /\ us_err s' <> 0
  | Some l => exists u, us_heap s' = <[l := u]> (us_heap s) /\ l = us_fresh s /\ (l < us_fresh s')%positive /\
      wf_user u /\ u_refcount u = 0 /\ (exists w, u_t u = fst (db_time w)) /\ P u
  end.

Definition bounded (s : ustate) : Prop := forall l, is_Some (us_heap s !! l) -> (l < us_fresh s)%positive.

Lemma bounded_fresh s : bounded s -> us_heap s !! us_fresh s = None.
Proof. intros Hb. destruct (us_heap s !! us_fresh s) as [u|] eqn:E; [|done]. pose proof (Hb (us_fresh s)) as Hx. rewrite E in Hx. specialize (Hx (ex_intro _ u eq_refl)). lia. Qed.

Lemma building_upd s l u s1 f (Q : unit -> ustate -> Prop) : building s l u s1 ->
  (forall s2, building s l (f u) s2 -> Q tt s2) -> uruns (upd_user l f) s1 Q.
Proof.
  intros [Hp Eh Ec Ef] HQ. apply (uruns_upd l u); [by rewrite Eh, lookup_insert_eq|]. apply HQ. split; cbn; try done.
  by rewrite Eh, insert_insert_eq.
Qed.

Lemma building_ask {A} s l u s1 (q : db -> A * db) (Q : A -> ustate -> Prop) : building s l u s1 ->
  (forall a s2 w w', q w = (a, w') -> building s l u s2 -> Q a s2) -> uruns (ask q) s1 Q.
Proof. intros [Hp Eh Ec Ef] HQ. apply uruns_ask. intros a w E. eapply HQ; [exact E|]. by split. Qed.

Lemma building_err s l u s1 e (Q : unit -> ustate -> Prop) : building s l u s1 ->
  (forall s2, building s l u s2 -> us_err s2 = e -> Q tt s2) -> uruns (uuerror e) s1 Q.
Proof. intros [Hp Eh Ec Ef] HQ. by apply uruns_modify, HQ. Qed.

Lemma building_free s l u s1 P : bounded s -> building s l u s1 -> us_err s1 <> 0 ->
  uruns (do _ <- _free_user l; uret None) s1 (made s P).
Proof.
  intros Hb [Hp Eh Ec Ef] He. apply uruns_bind, (uruns_del l u); [by rewrite Eh, lookup_insert_eq|]. apply uruns_ret.
  split; [done|]. cbn. split; [rewrite Ef; lia|]. rewrite Eh, delete_insert_id; [done|]. rewrite Hp. by apply bounded_fresh.
Qed.

Lemma building_new s (Q : positive -> ustate -> Prop) :
  (forall u s1, building s (us_fresh s) u s1 -> u_uname u = None -> u_sg u = None -> Q (us_fresh s) s1) -> uruns new_user s Q.
Proof.
  intros HQ. unfold new_user. apply uruns_bind, uruns_get, uruns_bind, uruns_modify, uruns_bind, uruns_modify, uruns_ret.
  eapply HQ; [by split|done|done].
Qed.

Lemma start_runs s l u s1 (P : Npuser -> Prop) : building s l u s1 -> wf_user u ->
  (forall t, P (set_u_next None (set_u_t t (set_u_refcount 0 u)))) -> uruns (start_user l) s1 (made s P).
Proof.
  intros Hb Hw HP. unfold start_user. apply uruns_bind. eapply building_ask; [exact Hb|]. intros t s2 w w' Et Hb2.
  apply uruns_bind. eapply building_upd; [exact Hb2|]. intros s3 [Hp Eh Ec Ef]. apply uruns_ret. split; [done|].
  split; [rewrite Ef; lia|]. eexists. split; [exact Eh|]. split; [done|]. split; [rewrite Ef, Hp; lia|].
  split; [done|]. split; [done|]. split; [exists w; cbn; by rewrite Et|]. apply HP.
Qed.

Lemma made_none s s' P : us_heap s' = us_heap s -> us_cache s' = us_cache s -> us_fresh s' = us_fresh s -> us_err s' <> 0 -> made s P None s'.
Proof. intros E1 E2 E3 He. split; [done|]. split; [rewrite E3; lia|done]. Qed.

Lemma grouplist_runs s l u s1 name (Q : bool -> ustate -> Prop) : building s l u s1 -> u_uname u = Some name ->
  (forall s2 v, building s l v s2 -> us_err s2 <> 0 -> Q false s2) ->
  (forall s2 max w w' gids, db_getgrouplist name (u_gid u) max w = (Some gids, w') ->
     building s l (set_u_sg (zlength gids) (Some gids) (set_u_sg max None u)) s2 -> Q true s2) ->
  uruns (_getgrouplist l) s1 Q.
Proof.
  intros Hb Hn Hno Hyes. unfold _getgrouplist. apply uruns_bind, uruns_get. set (max := if _ <? _ then _ else _).
  apply uruns_bind. eapply building_upd; [exact Hb|]. intros s2 Hb2.
  apply uruns_bind. eapply building_ask; [exact Hb2|]. intros ok s3 _ _ _ Hb3. destruct ok; cbn [negb].
  - apply uruns_bind. eapply uruns_load; [rewrite (b_heap _ _ _ _ Hb3); apply lookup_insert_eq|].
    apply uruns_bind. eapply uruns_lift; [cbn; by rewrite Hn|].
    apply uruns_bind. eapply building_ask; [exact Hb3|]. intros r s4 w w' Er Hb4. destruct r as [gids|].
    + apply uruns_bind. eapply building_ask; [exact Hb4|]. intros ok s5 _ _ _ Hb5.
      apply uruns_bind. eapply building_upd; [exact Hb5|]. intros s6 Hb6. apply uruns_ret. eapply Hyes; [exact Er|exact Hb6].
    + apply uruns_bind, uruns_get, uruns_bind. destruct (Z.eqb_spec (us_err s4) 0) as [_|Hne].
      * eapply building_err; [exact Hb4|]. intros s5 Hb5 He. apply uruns_ret. eapply Hno; [exact Hb5|by rewrite He].
      * apply uruns_ret, uruns_ret. eapply Hno; [exact Hb4|done].
  - apply uruns_bind. eapply building_err; [exact Hb3|]. intros s4 Hb4 He. apply uruns_ret. eapply Hno; [exact Hb4|by rewrite He].
Qed.
End New.

Section Lookup.
Context `{UserDb}.

(** Before anything was made, a question leaves the objects as they are. *)
Lemma ask_made {A} s (q : db -> A * db) (k : A -> UM (option positive)) P :
  (forall a w w', q w = (a, w') -> forall s1, us_heap s1 = us_heap s -> us_cache s1 = us_cache s -> us_fresh s1 = us_fresh s ->
     uruns (k a) s1 (made s P)) -> uruns (ubind (ask q) k) s (made s P).
Proof. intros HQ. apply uruns_bind, uruns_ask. intros a w E. by eapply HQ. Qed.

Lemma fail_made s s1 e P : e <> 0 -> us_heap s1 = us_heap s -> us_cache s1 = us_cache s -> us_fresh s1 = us_fresh s ->
  uruns (do _ <- uuerror e; uret None) s1 (made s P).
Proof. intros He E1 E2 E3. apply uruns_bind, uruns_modify, uruns_ret. by apply made_none. Qed.

(** [made] looks at the objects before, which questions do not change. *)
Lemma made_since s0 s P o s' : us_heap s0 = us_heap s -> us_cache s0 = us_cache s -> us_fresh s0 = us_fresh s ->
  made s0 P o s' -> made s P o s'.
Proof. unfold made. intros -> -> ->. done. Qed.

Lemma alloc_user_runs s pwd : bounded s -> answered pwd -> uruns (_alloc_user pwd) s (made s (from_passwd pwd)).
Proof.
  intros Hb Hpwd. unfold _alloc_user. apply ask_made. intros ok _ _ _ s1 E1 E2 E3. destruct ok; cbn [negb]; [|by apply fail_made].
  assert (Hb1 : bounded s1) by (intros l; rewrite E1, E3; apply Hb).
  apply uruns_bind, building_new. intros u0 s2 B2 _ _.
  eapply uruns_mono; [|intros o s'; by apply (made_since s1)].
  apply uruns_bind. eapply building_upd; [exact B2|]. intros s3 B3.
  apply uruns_bind. eapply building_ask; [exact B3|]. intros ok s4 _ _ _ B4. destruct ok; cbn [negb].
  - apply uruns_bind. eapply building_upd; [exact B4|]. intros s5 B5. apply uruns_bind. eapply building_upd; [exact B5|].
    intros s6 B6. destruct (Z.eqb_spec (pw_uid pwd) 0) as [E0|E0]; cbn [negb].
    + apply uruns_bind, uruns_ret. cbn [negb].
      assert (Hfrom : from_passwd pwd (set_u_ids (pw_uid pwd) (pw_gid pwd) (set_u_uname (Some (c_string (pw_name pwd))) (set_u_sg 0 None u0)))).
      { split; [done|]. split; [done|]. split; [done|]. cbn. by rewrite E0. }
      eapply start_runs; [exact B6| |intros t; exact Hfrom].
      split; [by eexists; split; [|apply c_string_no_nul]|]. split; [done|]. left. by exists pwd.
    + apply uruns_bind. eapply grouplist_runs; [exact B6|reflexivity| |].
      * intros s7 v B7 He. cbn [negb]. eapply building_free; [exact Hb1|exact B7|exact He].
      * intros s7 max w w' gids Eg B7. cbn [negb]. set (u1 := set_u_sg _ _ _) in B7.
        assert (Hfrom : from_passwd pwd u1).
        { split; [done|]. split; [done|]. split; [done|]. cbn. rewrite (proj2 (Z.eqb_neq _ _)) by done. by exists max, w, w', gids. }
        eapply start_runs; [exact B7| |intros t; exact Hfrom].
        split; [by eexists; split; [|apply c_string_no_nul]|]. split; [done|]. left. by exists pwd.
  - apply uruns_bind. eapply building_err; [exact B4|]. intros s5 B5 He. eapply building_free; [exact Hb1|exact B5|by rewrite He].
Qed.

Lemma alloc_nouserdb_runs s uid name : bounded s -> uruns (_alloc_nouserdb uid name) s
  (made s (fun u => match name with Some n => n = root_name /\ from_uid 0 u | None => from_uid uid u end)).
Proof.
  intros Hb. unfold _alloc_nouserdb.
  destruct (match name with Some n => _ | None => _ end) as [id|] eqn:Eid; [|by apply fail_made].
  set (P := fun u : Npuser => _). assert (HP : forall u, from_uid id u -> P u).
  { intros u Hu. unfold P. destruct name as [n|]; [|by injection Eid as ->]. case_bool_decide; [|done]. by injection Eid as <-. }
  apply ask_made. intros ok _ _ _ s1 E1 E2 E3. destruct ok; cbn [negb]; [|by apply fail_made].
  assert (Hb1 : bounded s1) by (intros l; rewrite E1, E3; apply Hb).
  apply uruns_bind, building_new. intros u0 s2 B2 _ _.
  eapply uruns_mono; [|intros o s'; by apply (made_since s1)].
  apply uruns_bind. eapply building_ask; [exact B2|]. intros ok s4 _ _ _ B4. destruct ok; cbn [negb].
  - apply uruns_bind. eapply building_upd; [exact B4|]. intros s5 B5. apply uruns_bind. eapply building_upd; [exact B5|].
    intros s6 B6. apply uruns_bind. eapply building_upd; [exact B6|]. intros s7 B7.
    apply uruns_bind. eapply building_ask; [exact B7|]. intros ok s8 _ _ _ B8. destruct ok; cbn [negb].
    + apply uruns_bind. eapply building_upd; [exact B8|]. intros s9 B9. set (u1 := set_u_sg _ _ _) in B9.
      assert (Hfrom : from_uid id u1) by (split; [|done]; cbn; by destruct (id =? 0)).
      eapply start_runs; [exact B9| |intros t; by apply HP]. split; [|split; [done|right; by exists id]].
      eexists. split; [done|]. destruct (id =? 0); [by repeat constructor|apply dec_no_nul].
    + apply uruns_bind. eapply building_err; [exact B8|]. intros s9 B9 He. eapply building_free; [exact Hb1|exact B9|by rewrite He].
  - apply uruns_bind. eapply building_err; [exact B4|]. intros s5 B5 He. eapply building_free; [exact Hb1|exact B5|by rewrite He].
Qed.

Lemma looked_up_runs s s1 r : bounded s -> (forall pwd, r = (0, Some pwd) -> answered pwd) -> us_heap s1 = us_heap s -> us_cache s1 = us_cache s -> us_fresh s1 = us_fresh s ->
  uruns (looked_up r) s1 (made s (fun u => exists pwd, r = (0, Some pwd) /\ from_passwd pwd u)).
Proof.
  intros Hb Hr E1 E2 E3. unfold looked_up. destruct r as [err o]. destruct (Z.eqb_spec err 0) as [->|]; cbn [negb]; [|by apply fail_made].
  destruct o as [pwd|]; [|by apply fail_made]. eapply uruns_mono; [apply alloc_user_runs; [intros l; rewrite E1, E3; apply Hb|by apply Hr]|].
  intros o s' Hm. apply (made_since s1 s) in Hm; [|done..]. destruct Hm as (H1 & H2 & H3). split; [done|]. split; [done|].
  destruct o as [l|]; [|done]. destruct H3 as (u & ? & ? & ? & ? & ? & ? & Hu). exists u. repeat (split; [done|]). by exists pwd.
Qed.

Context (srv_flags : Z).

(** Who a number, or a name, stands for, by the answer of the user database. *)
Definition is_uid (uid : Z) (u : Npuser) : Prop :=
  if nouserdb srv_flags then from_uid uid u
  else exists w w' pwd, db_getpwuid_r uid w = ((0, Some pwd), w') /\ from_passwd pwd u.

Definition is_name (name : cstr) (u : Npuser) : Prop :=
  if nouserdb srv_flags then name = root_name /\ from_uid 0 u
  else exists w w' pwd, db_getpwnam_r name w = ((0, Some pwd), w') /\ from_passwd pwd u.

Lemma made_weaken s (P R : Npuser -> Prop) o s' : (forall u, P u -> R u) -> made s P o s' -> made s R o s'.
Proof.
  intros HPR (H1 & H2 & H3). split; [done|]. split; [done|]. destruct o as [l|]; [|done].
  destruct H3 as (u & ? & ? & ? & ? & ? & ? & Hu). exists u. repeat (split; [done|]). auto.
Qed.

Lemma byuid_runs s uid : bounded s -> uruns (_real_lookup_byuid srv_flags uid) s (made s (is_uid uid)).
Proof.
  intros Hb. unfold _real_lookup_byuid, is_uid. destruct (nouserdb srv_flags); [by apply (alloc_nouserdb_runs s uid None)|].
  apply ask_made. intros ok _ _ _ s1 E1 E2 E3. destruct ok; cbn [negb]; [|by apply fail_made].
  apply uruns_bind, uruns_ask. intros r w Er. eapply uruns_mono; [apply (looked_up_runs s); try done; intros pwd ->; exists (us_db s1), w; eauto|].
  intros o s'. apply made_weaken. intros u (pwd & -> & Hu). by exists (us_db s1), w, pwd.
Qed.

Lemma byname_runs s name : bounded s -> uruns (_real_lookup_byname srv_flags name) s (made s (is_name name)).
Proof.
  intros Hb. unfold _real_lookup_byname, is_name. destruct (nouserdb srv_flags); [by apply (alloc_nouserdb_runs s _ (Some name))|].
  apply ask_made. intros ok _ _ _ s1 E1 E2 E3. destruct ok; cbn [negb]; [|by apply fail_made].
  apply uruns_bind, uruns_ask. intros r w Er. eapply uruns_mono; [apply (looked_up_runs s); try done; intros pwd ->; exists (us_db s1), w; eauto|].
  intros o s'. apply made_weaken. intros u (pwd & -> & Hu). by exists (us_db s1), w, pwd.
Qed.
End Lookup.

Section Find.
Context `{UserDb}.

Lemma uinv_bounded ttl ls held s : uinv ttl ls held s -> bounded s.
Proof. intros Hi l [u El]. apply (i_user _ _ _ _ Hi l u El). Qed.

(** A user that was just made becomes the first of the cache. *)
Lemma add_runs ttl ls held s l P s1 : uinv ttl ls held s -> made s P (Some l) s1 ->
  (forall u v, ident u = ident v -> P u -> P v) ->
  uruns (_usercache_add l) s1 (fun _ s' => uinv ttl (l :: ls) held s' /\ kept s s' /\ us_heap s !! l = None /\
    exists u, us_heap s' !! l = Some u /\ P u /\ exists w, u_t u = fst (db_time w)).
Proof.
  intros Hi (Ec & Hf & u & Eh & Hl & Hlt & Hw & Hr & Ht & HP) Hext.
  pose proof (bounded_fresh s (uinv_bounded _ _ _ _ Hi)) as Hfree. rewrite <- Hl in Hfree.
  pose proof (uinv_head _ _ _ _ Hi) as Eus. rewrite Eus in Ec.
  apply uruns_bind. eapply uruns_cache; [exact Ec|]. cbv beta iota.
  apply uruns_bind, (uruns_upd l u); [by rewrite Eh, lookup_insert_eq|].
  apply uruns_bind. eapply uruns_put; [exact Ec|]. cbn [us_heap set_cache set_heap]. rewrite Eh, insert_insert_eq.
  set (v := set_u_next _ u). apply (uruns_upd l v); [cbn; by rewrite lookup_insert_eq|].
  cbn [us_heap set_cache set_heap]. rewrite insert_insert_eq. set (v1 := set_u_refcount _ v).
  assert (Hv : ident v1 = ident u) by reflexivity.
  pose proof Hi as [(us & Ec0 & Hs) Hn Hu Hh]. rewrite Eus in Ec0. injection Ec0 as <-.
  assert (Hni : l ∉ ls). { intros Hin. destruct (uinv_in _ _ _ _ l Hi Hin) as [[x Ex] _]. congruence. }
  assert (Hhl : held l = 0). { destruct (Hh l) as [H0 H1]. destruct (Z.eq_dec (held l) 0) as [|Hne]; [done|]. destruct H1 as [x Ex]; [lia|congruence]. }
  split; [|split; [|split; [done|]]].
  - split; cbn.
    + exists (Some l). split; [done|]. split; [done|]. exists (head ls). rewrite next_of_insert. split; [done|].
      eapply lseg_frame; [|exact Hs]. intros x Hx. apply next_of_insert_ne. by intros <-.
    + by apply NoDup_cons.
    + intros x y Ex. destruct (decide (x = l)) as [->|Hne].
      * rewrite lookup_insert_eq in Ex. injection Ex as <-. split; [by apply (wf_ident u)|]. split; [done|].
        unfold cnt. rewrite decide_True by left. rewrite Hhl. cbn. lia.
      * rewrite lookup_insert_ne in Ex by done. destruct (Hu x y Ex) as (? & ? & Ec1 & ?). split; [done|]. split; [lia|].
        split; [|done]. rewrite Ec1. f_equal. unfold cnt. apply decide_ext. rewrite elem_of_cons. tauto.
    + intros x. destruct (decide (x = l)) as [->|Hne]; [rewrite lookup_insert_eq, Hhl; done|].
      rewrite lookup_insert_ne by done. apply Hh.
  - split; [cbn; lia|]. cbn. intros x y Ex Hx. rewrite lookup_insert_ne in Ex by (intros ->; lia). by exists y.
  - exists v1. cbn. rewrite lookup_insert_eq. split; [done|]. split; [|done]. by apply (Hext u).
Qed.

(** The user [u] at [l], found in the cache as it was in [s], or made for the lookup. *)
Definition found (s : ustate) (ttl : Z) (ls : list positive) (uname : option cstr) (uid : Z) (P : Npuser -> Prop)
    (l : positive) (u : Npuser) : Prop :=
  (l ∈ ls /\ ident_of (us_heap s) l = Some (ident u) /\ fst (db_time (us_db s)) - u_t u < ttl /\ matches uname uid u = Ret true) \/
  (us_heap s !! l = None /\ P u /\ exists w, u_t u = fst (db_time w)).

Lemma kept_err s s' e : kept s s' -> kept s (set_uerr e s').
Proof. done. Qed.

Lemma uinv_made_none ttl ls held s P s' : uinv ttl ls held s -> made s P None s' -> uinv ttl ls held s' /\ kept s s'.
Proof.
  intros [Hc Hn Hu Hh] (Ec & Hf & Eh & _). split.
  - split; rewrite ?Ec, ?Eh; try done. intros l u El. destruct (Hu l u El) as (? & ? & ? & ?). split; [done|]. split; [lia|]. done.
  - split; [done|]. intros l u El _. rewrite Eh in El. by exists u.
Qed.

Lemma find_user_uruns ttl ls held s uname uid real (P : Npuser -> Prop) : uinv ttl ls held s ->
  (forall u v, ident u = ident v -> P u -> P v) -> (forall s, bounded s -> uruns real s (made s P)) ->
  uruns (find_user uname uid real) s (fun o s' => kept s s' /\ exists ls', uinv ttl ls' held s' /\
    match o with Some l => l ∈ ls' /\ exists u, us_heap s' !! l = Some u /\ found s ttl ls uname uid P l u | None => us_err s' <> 0 end).
Proof.
  intros Hi Hext Hreal. set (ls1 := filter (fun l => young (fst (db_time (us_db s))) ttl (us_heap s) l = true) ls).
  apply uruns_bind, uruns_bind. eapply uruns_mono; [by apply expire_runs|]. intros [] s1 [Hi1 K1]. fold ls1 in Hi1.
  apply uruns_bind. eapply uruns_cache; [by apply (uinv_head _ _ _ _ Hi1)|]. apply uruns_bind, uruns_get.
  eapply uruns_mono; [apply (lookup_loop_runs _ uname uid ttl ls1 [] held); [|done]|].
  { apply Nat.lt_le_incl, (uinv_short _ _ _ _ Hi1). }
  intros o s2 [-> Ho]. destruct o as [l|].
  - destruct Ho as (Hin & u & El & Hm). apply uruns_ret. split; [done|]. exists ls1. split; [done|]. split; [done|].
    exists u. split; [done|]. left. apply list_elem_of_filter in Hin as [Hy Hin]. split; [done|].
    destruct (uinv_in _ _ _ _ l Hi Hin) as [Hlive Hl].
    assert (Hid : ident_of (us_heap s1) l = ident_of (us_heap s) l) by (apply kept_ident; [done|by eexists|done]).
    split; [rewrite <- Hid; unfold ident_of; by rewrite El|]. split; [|done].
    rewrite <- (young_ident _ _ _ _ _ Hid) in Hy. unfold young in Hy. rewrite El in Hy. by apply Z.ltb_lt.
  - apply uruns_bind. eapply uruns_mono; [apply Hreal, (uinv_bounded _ _ _ _ Hi1)|]. intros o s2 Hm. destruct o as [l|].
    + apply uruns_bind. eapply uruns_mono; [by apply (add_runs ttl ls1 held s1 l P)|].
      intros [] s3 (Hi3 & K3 & Hfree & u & Eu & HP & Ht). apply uruns_ret. split; [exact (kept_trans _ _ _ K1 K3)|].
      exists (l :: ls1). split; [done|]. split; [left|]. exists u. split; [done|]. right. split; [|done].
      destruct (us_heap s !! l) as [x|] eqn:Ex; [|done]. exfalso.
      destruct Hm as (_ & _ & v & _ & Hl & _). destruct K1 as [Hf1 _]. pose proof (uinv_bounded _ _ _ _ Hi l) as Hb.
      rewrite Ex in Hb. specialize (Hb (ex_intro _ x eq_refl)). lia.
    + apply uruns_ret. destruct (uinv_made_none _ _ _ _ _ _ Hi1 Hm) as [Hi2 K2]. split; [exact (kept_trans _ _ _ K1 K2)|].
      exists ls1. split; [done|]. apply Hm.
Qed.
End Find.
