(* ===== verification/UsersCalls.v ===== *)
(** * Sequences of calls on users (libnpfs/user.c)

    The server as the caller of user.c: it holds references, and makes calls in any
    order.  No sequence of calls uses memory that was freed, and none leaks. *)
From S2P Require Import Prelude Cbuf Protocol Npstring Wire Fcall Format FormatSpec Users UsersSpec.
From stdpp Require Import list gmap.
#[local] Open Scope Z_scope.
#[local] Open Scope users_scope.

Section Runs.
Context `{UserDb} (srv_flags : Z).

Lemma is_uid_ext uid u v : ident u = ident v -> is_uid srv_flags uid u -> is_uid srv_flags uid v.
Proof.
  intros E. unfold is_uid. destruct (nouserdb srv_flags); [by apply from_uid_ext|]. intros (w & w' & pwd & Ew & Hu).
  exists w, w', pwd. split; [done|]. by apply (from_passwd_ext pwd u).
Qed.

Lemma is_name_ext n u v : ident u = ident v -> is_name srv_flags n u -> is_name srv_flags n v.
Proof.
  intros E. unfold is_name. destruct (nouserdb srv_flags).
  - intros [-> Hu]. split; [done|]. by apply (from_uid_ext 0 u).
  - intros (w & w' & pwd & Ew & Hu). exists w, w', pwd. split; [done|]. by apply (from_passwd_ext pwd u).
Qed.

(** What a lookup gives: a reference, of which the caller has one more. *)
Definition looked (s : ustate) (ttl : Z) (ls : list positive) (held : positive -> Z) (uname : option cstr) (uid : Z)
    (P : Npuser -> Prop) (o : option positive) (s' : ustate) : Prop :=
  kept s s' /\ exists ls', uinv ttl ls' (held_opt 1 o held) s' /\
    match o with Some l => exists u, us_heap s' !! l = Some u /\ found s ttl ls uname uid P l u | None => us_err s' <> 0 end.

Lemma referenced_runs ttl ls held s uname uid real (P : Npuser -> Prop) : uinv ttl ls held s ->
  (forall u v, ident u = ident v -> P u -> P v) -> (forall s, bounded s -> uruns real s (made s P)) ->
  uruns (do u <- find_user uname uid real; do _ <- np_user_incref u; uret u) s (looked s ttl ls held uname uid P).
Proof.
  intros Hi Hext Hreal. apply uruns_bind. eapply uruns_mono; [by apply find_user_uruns|].
  intros o s1 (K1 & ls1 & Hi1 & Ho). apply uruns_bind. destruct o as [l|].
  - destruct Ho as (Hin & u & El & Hf). eapply uruns_mono; [apply (incref_runs _ _ _ _ l Hi1); by eexists|].
    intros [] s2 [Hi2 K2]. apply uruns_ret. split; [exact (kept_trans _ _ _ K1 K2)|]. exists ls1. split; [done|].
    destruct (uinv_in _ _ _ _ l Hi1 Hin) as [_ Hl]. destruct (uinv_in _ _ _ _ l Hi2 Hin) as [[v Ev] _].
    exists v. split; [done|]. destruct K2 as [_ K2]. destruct (K2 l v Ev Hl) as (u1 & Eu1 & Hid). rewrite El in Eu1. injection Eu1 as <-.
    assert (Ht : u_t v = u_t u) by (unfold ident in Hid; congruence).
    destruct Hf as [(H1 & H2 & H3 & H4)|(H1 & H2 & H3)]; [left|right].
    + split; [done|]. split; [by rewrite Hid|]. split; [by rewrite Ht|].
      unfold matches in *. unfold ident in Hid. destruct uname; [replace (u_uname v) with (u_uname u) by congruence; done|].
      by replace (u_uid v) with (u_uid u) by congruence.
    + split; [done|]. split; [by apply (Hext u)|]. by rewrite Ht.
  - apply uruns_ret, uruns_ret. split; [done|]. by exists ls1.
Qed.

Lemma uid2user_runs ttl ls held s uid : uinv ttl ls held s ->
  uruns (np_uid2user srv_flags uid) s (looked s ttl ls held None uid (is_uid srv_flags uid)).
Proof. intros Hi. apply referenced_runs; [done|apply is_uid_ext|]. intros s0 Hb. by apply byuid_runs. Qed.

Lemma uname2user_runs ttl ls held s n : uinv ttl ls held s ->
  uruns (np_uname2user srv_flags n) s (looked s ttl ls held (Some n) NONUNAME (is_name srv_flags n)).
Proof. intros Hi. apply referenced_runs; [done|apply is_name_ext|]. intros s0 Hb. by apply byname_runs. Qed.

(** What every call does: nothing undefined, and the references are counted. *)
Definition counted (ttl : Z) (held : positive -> Z) (s : ustate) (o : option positive) (s' : ustate) : Prop :=
  kept s s' /\ exists ls', uinv ttl ls' (held_opt 1 o held) s'.

Lemma looked_counted s ttl ls held uname uid P o s' : looked s ttl ls held uname uid P o s' -> counted ttl held s o s'.
Proof. intros (K & ls' & Hi & _). split; [done|]. by exists ls'. Qed.

Lemma counted_err ttl ls held s e : uinv ttl ls held s -> uruns (do _ <- uuerror e; uret None) s (counted ttl held s).
Proof.
  intros Hi. apply uruns_bind, uruns_modify, uruns_ret. split; [by apply kept_same|]. exists ls. by eapply uinv_same.
Qed.

Lemma attach2user_runs ttl ls held s pkt uname n bs : uinv ttl ls held s -> npstr_bytes pkt uname = Ret bs ->
  uruns (np_attach2user srv_flags pkt uname n) s (counted ttl held s).
Proof.
  intros Hi Hbs. unfold np_attach2user. destruct (n =? NONUNAME); cbn [negb].
  - destruct (len uname =? 0); [by eapply counted_err|]. apply uruns_bind, uruns_ask. intros ok w _.
    assert (Hi1 : uinv ttl ls held (set_db w s)) by (by eapply uinv_same).
    destruct ok; cbn [negb]; [|by eapply (counted_err _ _ _ (set_db w s))].
    apply uruns_bind. eapply uruns_lift; [exact Hbs|]. eapply uruns_mono; [by apply uname2user_runs|].
    intros o s'. apply looked_counted.
  - eapply uruns_mono; [by apply uid2user_runs|]. intros o s'. apply looked_counted.
Qed.

Lemma afid2user_runs ttl ls held s l pkt uname n bs : uinv ttl ls held s -> 0 < held l -> npstr_bytes pkt uname = Ret bs -> no_nul bs ->
  uruns (np_afid2user (Some l) pkt uname n) s (fun o s' => counted ttl held s o s' /\
    match o with
    | Some l' => l' = l /\ exists u, us_heap s !! l = Some u /\ if n =? NONUNAME then u_uname u = Some bs else u_uid u = n
    | None => True
    end).
Proof.
  intros Hi Hl Hbs Hz. destruct (i_held _ _ _ _ Hi l) as [_ Hlive]. destruct (Hlive Hl) as [u El].
  destruct (i_user _ _ _ _ Hi l u El) as ([(m & Em & Hm) _] & _).
  apply uruns_bind. eapply uruns_lift; [reflexivity|]. apply uruns_bind, (uruns_load l u); [done|].
  assert (Hsame : uruns (if negb (n =? NONUNAME) then uret (n =? u_uid u)
              else do name <- ulift (match u_uname u with Some n => Ret n | None => UB end);
                   do r <- ulift (np_strcmp pkt uname name); uret (r =? 0)) s
    (fun b s' => s' = s /\ (b = true -> if n =? NONUNAME then u_uname u = Some bs else u_uid u = n))).
  { destruct (Z.eqb_spec n NONUNAME) as [->|Hne]; cbn [negb].
    - apply uruns_bind. eapply uruns_lift; [by rewrite Em|]. destruct (np_strcmp_run pkt uname m bs Hbs Hz Hm) as (r & Er & Hr).
      apply uruns_bind. eapply uruns_lift; [exact Er|]. apply uruns_ret. split; [done|]. intros E. apply Z.eqb_eq, Hr in E as ->. done.
    - apply uruns_ret. split; [done|]. intros E. by apply Z.eqb_eq in E. }
  apply uruns_bind. eapply uruns_mono; [exact Hsame|]. intros b s' [-> Hb]. destruct b; cbn [negb].
  - apply uruns_bind. eapply uruns_mono; [apply (incref_runs _ _ _ _ l Hi); by eexists|]. intros [] s1 [Hi1 K1]. apply uruns_ret.
    split; [split; [done|by exists ls]|]. split; [done|]. exists u. split; [done|]. by apply Hb.
  - apply uruns_bind, uruns_modify, uruns_ret. split; [|done]. split; [by apply kept_same|]. exists ls. by eapply uinv_same.
Qed.
End Runs.

(** ** Flushing *)

Section Flush.
Context `{UserDb}.

Lemma del_loop_runs fuel ttl ls : forall held s, (length ls <= fuel)%nat -> uinv ttl ls held s ->
  uruns (del_loop fuel (head ls)) s (fun _ s' => uinv ttl [] held s' /\ kept s s').
Proof.
  revert fuel. induction ls as [|l ls IH]; intros fuel held s Hf Hi.
  { destruct fuel; apply uruns_ret; (split; [done|apply kept_refl]). }
  destruct fuel as [|fuel]; [cbn in Hf; lia|]. cbn [del_loop head]. apply uruns_bind.
  eapply uruns_mono; [apply (del_runs ttl [] l ls held s Hi)|]. intros o s1 (Hi1 & K1 & ->). cbn in Hf.
  eapply uruns_mono; [apply IH; [lia|exact Hi1]|]. intros [] s2 [Hi2 K2]. split; [done|]. exact (kept_trans _ _ _ K1 K2).
Qed.

Lemma flush_runs ttl ls held s : uinv ttl ls held s ->
  uruns np_usercache_flush s (fun _ s' => uinv ttl [] held s' /\ kept s s').
Proof.
  intros Hi. apply uruns_bind. eapply uruns_cache; [by apply (uinv_head _ _ _ _ Hi)|]. apply uruns_bind, uruns_get.
  apply del_loop_runs; [|done]. apply Nat.lt_le_incl, (uinv_short _ _ _ _ Hi).
Qed.

(** When nobody holds a reference, nothing is left in memory. *)
Lemma uinv_empty ttl held s : uinv ttl [] held s -> (forall l, held l = 0) -> us_heap s = ∅.
Proof.
  intros Hi H0. apply map_empty. intros l. destruct (us_heap s !! l) as [u|] eqn:El; [|done]. exfalso.
  destruct (i_user _ _ _ _ Hi l u El) as (_ & _ & Er & Hp). rewrite H0 in Er. unfold cnt in Er. rewrite decide_False in Er; [lia|].
  apply not_elem_of_nil.
Qed.

Lemma destroy_runs ttl ls held s : uinv ttl ls held s ->
  uruns np_usercache_destroy s (fun _ s' => us_cache s' = Cache_null /\ ((forall l, held l = 0) -> us_heap s' = ∅)).
Proof.
  intros Hi. pose proof (uinv_head _ _ _ _ Hi) as Ec. apply uruns_bind, uruns_get, uruns_bind. rewrite Ec.
  eapply uruns_lift; [reflexivity|]. apply uruns_bind. eapply uruns_cache; [exact Ec|]. apply uruns_bind, uruns_get, uruns_bind.
  eapply uruns_mono; [apply (del_loop_runs _ ttl ls held); [|done]|].
  { apply Nat.lt_le_incl, (uinv_short _ _ _ _ Hi). }
  intros [] s1 [Hi1 _]. apply uruns_modify. split; [done|]. intros H0. cbn. by apply (uinv_empty ttl held).
Qed.
End Flush.

(** ** Sequences of calls *)

(** The calls; a reference that the server holds is named by its place in the list of
    those that it holds.  A packet holds the names of Tattach. *)
Inductive ucall :=
| U_uid (uid : Z)
| U_name (name : cstr)
| U_attach (name : cstr) (n_uname : Z)
| U_afid (i : nat) (name : cstr) (n_uname : Z)
| U_incref (i : nat)
| U_decref (i : nat)
| U_flush.

(** A name as a packet has it. *)
Definition in_packet (name : cstr) : Npstr := {| len := zlength name; str := Some 0 |}.

Section Calls.
Context `{UserDb} (srv_flags : Z).

(** The references that the server holds, before and after a call. *)
Definition keep_ref (refs : list positive) (c : UM (option positive)) : UM (list positive) :=
  do o <- c; uret (match o with Some l => l :: refs | None => refs end).

Definition ustep (refs : list positive) (c : ucall) : UM (list positive) :=
  match c with
  | U_uid uid => keep_ref refs (np_uid2user srv_flags uid)
  | U_name name => keep_ref refs (np_uname2user srv_flags name)
  | U_attach name n => keep_ref refs (np_attach2user srv_flags name (in_packet name) n)
  | U_afid i name n =>
      match refs !! i with Some l => keep_ref refs (np_afid2user (Some l) name (in_packet name) n) | None => uret refs end
  | U_incref i =>
      match refs !! i with Some l => do _ <- np_user_incref (Some l); uret (l :: refs) | None => uret refs end
  | U_decref i =>
      match refs !! i with Some l => do _ <- np_user_decref (Some l); uret (delete i refs) | None => uret refs end
  | U_flush => do _ <- np_usercache_flush; uret refs
  end.

Fixpoint play (refs : list positive) (cs : list ucall) : UM (list positive) :=
  match cs with
  | [] => uret refs
  | c :: cs => do refs <- ustep refs c; play refs cs
  end.
End Calls.

(** How many of the references are to a user. *)
Definition refs_to (refs : list positive) (l : positive) : Z := Z.of_nat (length (filter (fun x => x = l) refs)).

Lemma refs_to_cons x refs l : refs_to (x :: refs) l = held_by 1 x (refs_to refs) l.
Proof. unfold refs_to, held_by. rewrite filter_cons. destruct (decide (x = l)) as [->|Hne]; [rewrite decide_True by done; cbn; lia|]. by rewrite decide_False. Qed.

Lemma refs_to_delete refs i x l : refs !! i = Some x -> refs_to (delete i refs) l = held_by (-1) x (refs_to refs) l.
Proof.
  intros Ei. pose proof (delete_Permutation refs i x Ei) as Hp. apply (filter_Permutation (fun y => y = l)) in Hp.
  apply Permutation_length in Hp. assert (Hc : refs_to refs l = refs_to (x :: delete i refs) l) by (unfold refs_to; by rewrite Hp).
  rewrite refs_to_cons in Hc. unfold held_by in *. destruct (decide (l = x)); lia.
Qed.

Lemma refs_to_in refs i l : refs !! i = Some l -> 0 < refs_to refs l.
Proof. intros Ei. pose proof (refs_to_delete refs i l l Ei) as Hd. rewrite held_by_at in Hd. unfold refs_to in *. lia. Qed.

Lemma refs_to_out refs l : l ∉ refs -> refs_to refs l = 0.
Proof.
  intros Hni. unfold refs_to. destruct (filter (fun x => x = l) refs) as [|x xs] eqn:E; [done|].
  assert (Hx : x ∈ filter (fun x => x = l) refs) by (rewrite E; left). by apply list_elem_of_filter in Hx as [-> ?].
Qed.

Lemma in_packet_bytes name : npstr_bytes name (in_packet name) = Ret name.
Proof.
  unfold npstr_bytes, in_packet. cbn [str len]. unfold load_bytes. pose proof (zlength_nonneg name).
  rewrite !(proj2 (Z.leb_le _ _)) by lia. cbn. f_equal. apply take_ge. unfold zlength. lia.
Qed.

(** The names that are compared with the user of an afid have no zeros; see
    [np_strcmp_embedded_nul]. *)
Definition ucall_ok (c : ucall) : Prop := match c with U_afid _ name _ => no_nul name | _ => True end.

Section Safety.
Context `{UserDb} (srv_flags : Z).

(** The references of the server are those that it holds. *)
Definition balanced (refs : list positive) (s : ustate) : Prop := exists ls, uinv 60 ls (refs_to refs) s.

Lemma keep_ref_runs refs s (c : UM (option positive)) : uruns c s (counted 60 (refs_to refs) s) ->
  uruns (keep_ref refs c) s (fun refs' s' => balanced refs' s' /\ kept s s').
Proof.
  intros Hc. apply uruns_bind. eapply uruns_mono; [exact Hc|]. intros o s1 (K & ls & Hi). apply uruns_ret. split; [|done].
  exists ls. destruct o as [l|]; [|done]. eapply uinv_ext; [exact Hi|]. intros x. apply refs_to_cons.
Qed.

Lemma ustep_runs refs s c : balanced refs s -> ucall_ok c ->
  uruns (ustep srv_flags refs c) s (fun refs' s' => balanced refs' s' /\ kept s s').
Proof.
  intros [ls Hi] Hok. destruct c as [uid|name|name n|i name n|i|i|]; cbn [ustep].
  - apply keep_ref_runs. eapply uruns_mono; [by apply uid2user_runs|]. intros o s'. apply looked_counted.
  - apply keep_ref_runs. eapply uruns_mono; [by apply uname2user_runs|]. intros o s'. apply looked_counted.
  - apply keep_ref_runs. eapply attach2user_runs; [done|apply in_packet_bytes].
  - destruct (refs !! i) as [l|] eqn:Ei; [|apply uruns_ret; split; [by exists ls|apply kept_refl]].
    apply keep_ref_runs. eapply uruns_mono; [eapply afid2user_runs; [done|by eapply refs_to_in|apply in_packet_bytes|done]|]. by intros o s' [Hc _].
  - destruct (refs !! i) as [l|] eqn:Ei; [|apply uruns_ret; split; [by exists ls|apply kept_refl]].
    apply uruns_bind. eapply uruns_mono; [apply (incref_runs _ _ _ _ l Hi), (i_held _ _ _ _ Hi), (refs_to_in _ _ _ Ei)|].
    intros [] s1 [Hi1 K1]. apply uruns_ret. split; [|done]. exists ls. eapply uinv_ext; [exact Hi1|]. intros x. apply refs_to_cons.
  - destruct (refs !! i) as [l|] eqn:Ei; [|apply uruns_ret; split; [by exists ls|apply kept_refl]].
    apply uruns_bind. eapply uruns_mono; [apply (decref_runs _ _ _ _ l Hi), (refs_to_in _ _ _ Ei)|].
    intros [] s1 [Hi1 K1]. apply uruns_ret. split; [|done]. exists ls. eapply uinv_ext; [exact Hi1|]. intros x. by apply refs_to_delete.
  - apply uruns_bind. eapply uruns_mono; [by eapply flush_runs|]. intros [] s1 [Hi1 K1]. apply uruns_ret. split; [|done]. by exists [].
Qed.

Lemma play_runs cs : forall refs s, balanced refs s -> Forall ucall_ok cs ->
  uruns (play srv_flags refs cs) s (fun refs' s' => balanced refs' s' /\ kept s s').
Proof.
  induction cs as [|c cs IH]; intros refs s Hb Hok; [apply uruns_ret; split; [done|apply kept_refl]|].
  inversion Hok as [|? ? Hc Hcs]; subst. apply uruns_bind. eapply uruns_mono; [by apply ustep_runs|]. intros refs1 s1 [Hb1 K1].
  eapply uruns_mono; [by apply IH|]. intros refs2 s2 [Hb2 K2]. split; [done|]. exact (kept_trans _ _ _ K1 K2).
Qed.

(** Giving back all the references. *)
Fixpoint drop_all (refs : list positive) : UM unit :=
  match refs with
  | [] => uret tt
  | l :: refs => do _ <- np_user_decref (Some l); drop_all refs
  end.

Lemma drop_all_runs refs : forall s, balanced refs s -> uruns (drop_all refs) s (fun _ s' => balanced [] s').
Proof.
  induction refs as [|l refs IH]; intros s [ls Hi]; [apply uruns_ret; by exists ls|].
  apply uruns_bind. eapply uruns_mono; [apply (decref_runs _ _ _ _ l Hi), (refs_to_in _ 0%nat); done|]. intros [] s1 [Hi1 _].
  apply IH. exists ls. eapply uinv_ext; [exact Hi1|]. intros x. pose proof (refs_to_delete (l :: refs) 0 l x eq_refl) as Hd. exact Hd.
Qed.

Lemma created_balanced s s1 : us_heap s = ∅ -> np_usercache_create s = Ret (true, s1) -> balanced [] s1.
Proof.
  intros He. unfold np_usercache_create, ubind, uget, ulift, ask, umodify, uuerror, uret. cbn [res_bind].
  destruct (us_cache s); cbn [np_assert res_bind]; try discriminate.
  destruct (db_malloc (us_db s)) as [[|] w]; cbn; [|discriminate]. destruct (db_addfile w) as [[|] w1]; cbn; [|discriminate].
  intros [= <-]. exists []. split; cbn; [by exists None|constructor| |].
  - intros l u. rewrite He, lookup_empty. discriminate.
  - intros l. unfold refs_to. cbn. split; [lia|]. intros Hx. exfalso. lia.
Qed.

(** A state in which the server holds the references [refs]. *)
Definition reached (refs : list positive) (s : ustate) : Prop := exists s0 s1 cs,
  us_heap s0 = ∅ /\ np_usercache_create s0 = Ret (true, s1) /\ Forall ucall_ok cs /\ play srv_flags [] cs s1 = Ret (refs, s).

Lemma reached_balanced refs s : reached refs s -> balanced refs s.
Proof.
  intros (s0 & s1 & cs & He & Hc & Hok & Hp). destruct (play_runs cs [] s1) as (refs' & s' & Hp' & Hb & _); [by eapply created_balanced|done|].
  rewrite Hp in Hp'. injection Hp' as <- <-. done.
Qed.

(** Is the user in the cache? *)
Definition in_cache (s : ustate) (l : positive) : Prop :=
  exists ls us ttl, us_cache s = Cache us ttl /\ lseg (us_heap s) us ls None /\ l ∈ ls.

(** C30: whatever lookups, references, releases and flushes the server makes, in any
    order, with memory running out or not: no call uses a user that was freed or
    follows a list for ever; a user is in memory exactly as long as the cache or the
    server has a reference to it, its count is the number of them, and when the
    server has given back its references and destroys the cache, no user is left. *)
Theorem users_accounted s s1 cs : us_heap s = ∅ -> np_usercache_create s = Ret (true, s1) -> Forall ucall_ok cs ->
  exists refs s2, play srv_flags [] cs s1 = Ret (refs, s2) /\
    (forall l u, us_heap s2 !! l = Some u -> exists c, u_refcount u = c + refs_to refs l /\ 0 < u_refcount u /\
       (c = 0 /\ ~ in_cache s2 l \/ c = 1 /\ in_cache s2 l)) /\
    (forall l, l ∈ refs \/ in_cache s2 l -> is_Some (us_heap s2 !! l)) /\
    exists s3, (do _ <- drop_all refs; np_usercache_destroy) s2 = Ret (tt, s3) /\ us_heap s3 = ∅ /\ us_cache s3 = Cache_null.
Proof.
  intros He Hc Hok. destruct (play_runs cs [] s1) as (refs & s2 & Hp & Hb & _); [by eapply created_balanced|done|].
  exists refs, s2. split; [done|]. pose proof Hb as [ls Hi]. pose proof (uinv_head _ _ _ _ Hi) as Ec.
  assert (Hcache : forall l, in_cache s2 l <-> l ∈ ls).
  { intros l. split; [|intros Hin; exists ls; destruct (i_cache _ _ _ _ Hi) as (us & Ec' & Hs); by exists us, 60].
    intros (ls' & us & ttl & Ec' & Hs' & Hin). destruct (i_cache _ _ _ _ Hi) as (us1 & Ec1 & Hs1).
    rewrite Ec1 in Ec'. injection Ec' as <- <-. by rewrite <- (lseg_unique _ _ _ _ Hs1 Hs'). }
  split; [|split].
  - intros l u El. destruct (i_user _ _ _ _ Hi l u El) as (_ & _ & Er & Hpos). exists (cnt ls l). split; [done|]. split; [done|].
    rewrite Hcache. unfold cnt. destruct (decide (l ∈ ls)); [by right|by left].
  - intros l [Hin|Hin]; [|by apply Hcache, (uinv_in _ _ _ _ l Hi) in Hin as [? _]].
    apply list_elem_of_lookup in Hin as [i Ei]. apply (i_held _ _ _ _ Hi), (refs_to_in _ _ _ Ei).
  - assert (Hend : uruns (do _ <- drop_all refs; np_usercache_destroy) s2 (fun _ s' => us_heap s' = ∅ /\ us_cache s' = Cache_null)).
    { apply uruns_bind. eapply uruns_mono; [by apply drop_all_runs|]. intros [] s3 [ls3 Hi3].
      eapply uruns_mono; [by apply (destroy_runs _ _ _ _ Hi3)|]. intros [] s4 [H1 H2]. split; [by apply H2|done]. }
    destruct Hend as ([] & s3 & E3 & H3). by exists s3.
Qed.
End Safety.

(** ** What a lookup finds *)

Section Identity.
Context `{UserDb} (srv_flags : Z).
(** The entry of a number has the number. *)
Context (getpwuid_r_uid : forall uid w pwd w', db_getpwuid_r uid w = ((0, Some pwd), w') -> pw_uid pwd = uid).

Lemma is_uid_uid uid u : is_uid srv_flags uid u -> u_uid u = uid.
Proof.
  unfold is_uid. destruct (nouserdb srv_flags); [by intros (_ & ? & _)|]. intros (w & w' & pwd & Ew & _ & -> & _). by eapply getpwuid_r_uid.
Qed.

(** C31: after any calls, a lookup of a number gives an error, or a user of that
    number, with an identity that came from the user database: one that was in the
    cache and is less than a minute old, or one that was read for this lookup.  No
    user that stays in memory becomes another one. *)
Theorem uid2user_identity refs s uid : reached srv_flags refs s ->
  exists o s', np_uid2user srv_flags uid s = Ret (o, s') /\
    (forall l v u, us_heap s !! l = Some v -> us_heap s' !! l = Some u -> ident u = ident v) /\
    match o with
    | None => us_err s' <> 0
    | Some l => exists u, us_heap s' !! l = Some u /\ u_uid u = uid /\ authentic u /\
        (in_cache s l /\ fst (db_time (us_db s)) - u_t u < 60 \/ us_heap s !! l = None /\ is_uid srv_flags uid u)
    end.
Proof.
  intros Hr. destruct (reached_balanced _ _ _ Hr) as [ls Hi].
  destruct (uid2user_runs srv_flags 60 ls (refs_to refs) s uid Hi) as (o & s' & E & (_ & K) & ls' & Hi' & Ho).
  exists o, s'. split; [done|]. split.
  - intros l v u Ev Eu. destruct (i_user _ _ _ _ Hi l v Ev) as (_ & Hl & _). destruct (K l u Eu Hl) as (v' & Ev' & Hid). congruence.
  - destruct o as [l|]; [|done]. destruct Ho as (u & Eu & Hf). exists u. split; [done|].
    destruct (i_user _ _ _ _ Hi' l u Eu) as ((_ & _ & Ha) & _). destruct Hf as [(Hin & _ & Ht & Hm)|(Hn & Hu & _)].
    + split; [injection Hm as Hm; symmetry; by apply Z.eqb_eq|]. split; [done|]. left. split; [|done].
      destruct (i_cache _ _ _ _ Hi) as (us & Ec & Hs). by exists ls, us, 60.
    + split; [by apply is_uid_uid|]. split; [done|]. by right.
Qed.

(** The user of an authenticated fid is given only to a Tattach that names it, by
    its number or by its name; any other one is refused with EPERM. *)
Theorem afid2user_same refs s i l name n : reached srv_flags refs s -> refs !! i = Some l -> no_nul name ->
  exists o s' u, np_afid2user (Some l) name (in_packet name) n s = Ret (o, s') /\ us_heap s !! l = Some u /\
    (o = Some l /\ (if n =? NONUNAME then u_uname u = Some name else u_uid u = n) \/
     o = None /\ us_err s' = EPERM /\ (if n =? NONUNAME then u_uname u <> Some name else u_uid u <> n)).
Proof.
  intros Hr Ei Hz. destruct (reached_balanced _ _ _ Hr) as [ls Hi]. pose proof (refs_to_in _ _ _ Ei) as Hl.
  destruct (i_held _ _ _ _ Hi l) as [_ Hlive]. destruct (Hlive Hl) as [u El].
  destruct (i_user _ _ _ _ Hi l u El) as ([(m & Em & Hm) _] & _). pose proof (in_packet_bytes name) as Hbs.
  unfold np_afid2user, np_user_incref, upd_user, load_user, uuerror, umodify, uget, ulift, ubind, uret. cbn [res_bind].
  rewrite El. cbn [res_bind]. destruct (Z.eqb_spec n NONUNAME) as [->|Hne]; cbn [negb].
  - rewrite Em. cbn [res_bind]. destruct (np_strcmp_run name (in_packet name) m name Hbs Hz Hm) as (r & -> & Hrr). cbn [res_bind].
    destruct (Z.eqb_spec r 0) as [E|E]; cbn [negb].
    + apply Hrr in E as <-. rewrite El. cbn [res_bind]. eexists _, _, u. split; [reflexivity|]. split; [done|]. by left.
    + eexists _, _, u. split; [reflexivity|]. split; [done|]. right. split; [done|]. split; [done|].
      intros E2. apply E, Hrr. congruence.
  - destruct (Z.eqb_spec n (u_uid u)) as [->|E]; cbn [negb].
    + cbn [negb res_bind]. rewrite El. cbn [res_bind]. eexists _, _, u. split; [reflexivity|]. split; [done|]. by left.
    + cbn [negb res_bind]. eexists _, _, u. split; [reflexivity|]. split; [done|]. right. split; [done|]. split; [done|]. congruence.
Qed.
End Identity.

(** ** What goes wrong *)

Section Wrong.
Context `{UserDb}.

(** A user that only the cache holds is gone after a flush. *)
Lemma flush_gone ttl ls held s l : uinv ttl ls held s -> held l = 0 ->
  exists s', np_usercache_flush s = Ret (tt, s') /\ us_heap s' !! l = None.
Proof.
  intros Hi H0. destruct (flush_runs ttl ls held s Hi) as ([] & s' & E & Hi' & _). exists s'. split; [done|].
  destruct (us_heap s' !! l) as [u|] eqn:El; [|done]. destruct (i_user _ _ _ _ Hi' l u El) as (_ & _ & Er & Hp).
  unfold cnt in Er. rewrite decide_False in Er by apply not_elem_of_nil. lia.
Qed.

(** A lookup takes its reference after it has given up the lock of the cache: when
    another thread flushes the cache in between, the reference is taken on a user
    that is freed, for any user that the server did not hold before. *)
Theorem lookup_race srv_flags refs s uid l s1 : reached srv_flags refs s ->
  find_user None uid (_real_lookup_byuid srv_flags uid) s = Ret (Some l, s1) -> l ∉ refs ->
  (do _ <- np_usercache_flush; np_user_incref (Some l)) s1 = UB.
Proof.
  intros Hr E Hni. destruct (reached_balanced _ _ _ Hr) as [ls Hi].
  destruct (find_user_uruns 60 ls (refs_to refs) s None uid (_real_lookup_byuid srv_flags uid) (is_uid srv_flags uid) Hi (is_uid_ext srv_flags uid)) as (o & s' & E' & _ & ls' & Hi' & _).
  { intros s0 Hb. by apply byuid_runs. }
  rewrite E in E'. injection E' as <- <-. destruct (flush_gone _ _ _ _ l Hi') as (s2 & E2 & Hn); [by apply refs_to_out|].
  unfold ubind at 1. rewrite E2. cbn [res_bind]. unfold np_user_incref, upd_user, load_user, ubind, uget, ulift. cbn [res_bind].
  by rewrite Hn.
Qed.
End Wrong.

(** ** The ctl file of the cache *)

Section Text.
Context `{UserDb} (reallocs_succeed : forall w k, fst (db_reallocs w) k = true).

Lemma user_line_wf ttl now u : wf_user u -> exists t, user_line ttl now u = Ret t /\ no_nul t /\ (0 < length t)%nat.
Proof.
  intros ((n & En & Hn) & _). unfold user_line. rewrite En. eexists. split; [reflexivity|]. split.
  - unfold no_nul in *. rewrite !Forall_app. repeat split; try apply dec_no_nul; by repeat constructor.
  - rewrite length_app. cbn. lia.
Qed.

Definition line_of (s : ustate) (ttl now : Z) (l : positive) (t : cstr) : Prop :=
  exists u, us_heap s !! l = Some u /\ user_line ttl now u = Ret t.

Lemma text_loop_runs fuel now ttl ls : forall pre held s sp old, (length ls <= fuel)%nat -> uinv ttl (pre ++ ls) held s -> no_nul old ->
  match sp with Some (m, len) => holds_string m old /\ len = zlength m | None => old = [] end ->
  uruns (text_loop fuel now sp (head ls)) s (fun o s' => us_heap s' = us_heap s /\ us_cache s' = us_cache s /\ us_fresh s' = us_fresh s /\
    exists ts, Forall2 (line_of s ttl now) ls ts /\
    match o with Some m => c_string m = old ++ concat ts | None => ls = [] /\ sp = None end).
Proof.
  revert fuel. induction ls as [|l ls IH]; intros fuel pre held s sp old Hf Hi Hold Hsp.
  { assert (Hd : text_loop fuel now sp (head []) = uret (option_map fst sp)) by (by destruct fuel). rewrite Hd. apply uruns_ret.
    split; [done|]. split; [done|]. split; [done|]. exists []. split; [done|]. destruct sp as [[m len]|]; [|done].
    cbn. rewrite app_nil_r. destruct Hsp as [Hh _]; exact (holds_string_c _ _ Hh). }
  destruct fuel as [|fuel]; [cbn in Hf; lia|]. cbn [text_loop head].
  destruct (uinv_in _ _ _ _ l Hi) as [[u El] _]; [apply elem_of_app; right; left|].
  destruct (i_user _ _ _ _ Hi l u El) as (Hw & _). destruct (user_line_wf ttl now u Hw) as (t & Et & Htz & Htl).
  apply uruns_bind, (uruns_load l u); [done|]. apply uruns_bind. eapply uruns_cache; [by apply (uinv_head _ _ _ _ Hi)|]. cbv iota beta.
  apply uruns_bind. eapply uruns_lift; [exact Et|]. apply uruns_bind, uruns_ask. intros mem w Em.
  destruct (aspf_appended 0 mem) with (sp := sp) (old := old) (text := t) (fuel := length t) as (m & Ea & Hm); [|done|done|done| |].
  { intros k. pose proof (reallocs_succeed (us_db s) k) as Hk. by rewrite Em in Hk. }
  { unfold zlength, CHUNKSIZE. lia. }
  apply uruns_bind. eapply uruns_lift; [exact Ea|]. cbv iota beta. rewrite (uinv_next _ _ _ _ _ _ _ Hi El). cbn in Hf.
  eapply uruns_mono; [apply (IH fuel (pre ++ [l]) held (set_db w s) (Some (m, zlength m)) (old ++ t)); [lia| |by apply Forall_app|done]|].
  { rewrite <- app_assoc. by eapply uinv_same. }
  intros o s' (H1 & H2 & H3 & ts & Hts & Ho). split; [done|]. split; [done|]. split; [done|]. exists (t :: ts).
  split; [constructor; [by exists u|done]|]. destruct o as [m'|]; [|by destruct Ho]. cbn. by rewrite Ho, app_assoc.
Qed.

(** The ctl file of the cache has one line for every user that is in the cache and
    not too old, in the order of the cache, with the number of seconds that are
    left; there is no text only when the cache is empty. *)
Theorem usercache_text srv_flags refs s : reached srv_flags refs s ->
  exists o s', _get_usercache s = Ret (o, s') /\ balanced refs s' /\ kept s s' /\
    exists ls ts, us_cache s' = Cache (head ls) 60 /\ lseg (us_heap s') (head ls) ls None /\
      Forall2 (line_of s' 60 (fst (db_time (us_db s)))) ls ts /\
      match o with Some m => c_string m = concat ts | None => ls = [] end.
Proof.
  intros Hr. destruct (reached_balanced _ _ _ Hr) as [ls0 Hi]. unfold _get_usercache.
  cut (uruns (do now <- ask db_time; do _ <- _usercache_expire; do (us, _) <- cache; do n <- list_fuel; text_loop n now None us) s
    (fun o s' => balanced refs s' /\ kept s s' /\ exists ls ts, us_cache s' = Cache (head ls) 60 /\ lseg (us_heap s') (head ls) ls None /\
      Forall2 (line_of s' 60 (fst (db_time (us_db s)))) ls ts /\ match o with Some m => c_string m = concat ts | None => ls = [] end)).
  { intros (o & s' & E & Hx). by exists o, s'. }
  apply uruns_bind, uruns_ask. intros now w Et. rewrite Et. cbn [fst].
  assert (Hi0 : uinv 60 ls0 (refs_to refs) (set_db w s)) by (by eapply uinv_same).
  apply uruns_bind. eapply uruns_mono; [apply (expire_runs _ _ _ _ Hi0)|]. intros [] s1 [Hi1 K1]. set (ls := filter _ _) in Hi1.
  apply uruns_bind. eapply uruns_cache; [by apply (uinv_head _ _ _ _ Hi1)|]. cbv iota beta. apply uruns_bind, uruns_get.
  eapply uruns_mono; [apply (text_loop_runs _ now 60 ls [] (refs_to refs) s1 None []); [|done|constructor|done]|].
  { apply Nat.lt_le_incl, (uinv_short _ _ _ _ Hi1). }
  intros o s' (H1 & H2 & H3 & ts & Hts & Ho). assert (Hi' : uinv 60 ls (refs_to refs) s') by (by eapply uinv_same).
  split; [by exists ls|]. split; [apply (kept_trans _ _ _ K1), kept_same; done|]. exists ls, ts.
  pose proof (uinv_head _ _ _ _ Hi') as Ec. split; [done|]. split; [|split].
  - destruct (i_cache _ _ _ _ Hi') as (us & Ec' & Hs). rewrite Ec in Ec'. by injection Ec' as <-.
  - eapply Forall2_impl; [exact Hts|]. intros l t (u & Eu & El). exists u. by rewrite H1.
  - destruct o as [m|]; [done|]. by destruct Ho.
Qed.
End Text.

(** ** A user database *)

Module UserSample.

Definition alice : passwd := {| pw_name := [97; 108; 105; 99; 101]; pw_uid := 1000; pw_gid := 100 |}.
Definition root : passwd := {| pw_name := root_name; pw_uid := 0; pw_gid := 0 |}.

(** The clock, and whether the ctl file can be made. *)
#[local] Instance sample_users : UserDb := {|
  db := Z * bool;
  db_malloc := fun w => (true, w);
  db_reallocs := fun w => (fun _ => true, w);
  db_time := fun w => (fst w, (fst w + 20, snd w));
  db_ngroups_max := fun _ => 65536;
  db_getpwuid_r := fun uid w => ((0, if uid =? 1000 then Some alice else if uid =? 0 then Some root else None), w);
  db_getpwnam_r := fun n w => ((0, if bool_decide (n = pw_name alice) then Some alice else if bool_decide (n = root_name) then Some root else None), w);
  db_getgrouplist := fun _ gid _ w => (Some [gid; 27], w);
  db_addfile := fun w => (snd w, w);
|}.

Definition started (file : bool) : ustate :=
  {| us_cache := Cache_null; us_heap := ∅; us_fresh := 1; us_err := 0; us_db := (100, file) |}.

Definition created : ustate :=
  {| us_cache := Cache None 60; us_heap := ∅; us_fresh := 1; us_err := 0; us_db := (100, true) |}.

Definition some_calls : list ucall :=
  [U_uid 1000; U_flush; U_attach (pw_name alice) NONUNAME; U_incref 0; U_decref 2; U_uid 7; U_afid 0 (pw_name alice) NONUNAME].

Lemma some_calls_ok : Forall ucall_ok some_calls.
Proof. by repeat constructor. Qed.

Lemma created_ok : np_usercache_create (started true) = Ret (true, created).
Proof. reflexivity. Qed.

Lemma users_accounted_witness : exists refs s2, play 0 [] some_calls created = Ret (refs, s2) /\
  exists s3, (do _ <- drop_all refs; np_usercache_destroy) s2 = Ret (tt, s3) /\ us_heap s3 = ∅.
Proof.
  destruct (users_accounted 0 (started true) created some_calls eq_refl created_ok some_calls_ok) as (refs & s2 & E & _ & _ & s3 & E3 & Hh & _).
  exists refs, s2. split; [exact E|]. exists s3. exact (conj E3 Hh).
Defined.

Lemma sample_getpwuid uid w pwd w' : db_getpwuid_r uid w = ((0, Some pwd), w') -> pw_uid pwd = uid.
Proof.
  cbn. intros E. injection E as E _. destruct (Z.eqb_spec uid 1000) as [->|]; [by injection E as <-|].
  destruct (Z.eqb_spec uid 0) as [->|]; [by injection E as <-|discriminate].
Qed.

(** After one lookup of alice, who is still held. *)
Definition looked_state : ustate :=
  match play 0 [] [U_uid 1000] created with Ret (_, s) => s | _ => created end.

Lemma looked_reached : reached 0 [1%positive] looked_state.
Proof. exists (started true), created, [U_uid 1000]. split; [done|]. split; [done|]. split; [by repeat constructor|]. vm_compute. reflexivity. Qed.

Lemma uid2user_identity_witness : exists o s', np_uid2user 0 1000 looked_state = Ret (o, s') /\
  match o with Some l => exists u, us_heap s' !! l = Some u /\ u_uid u = 1000 | None => us_err s' <> 0 end.
Proof.
  destruct (uid2user_identity 0 sample_getpwuid [1%positive] looked_state 1000 looked_reached) as (o & s' & E & _ & Ho).
  exists o, s'. split; [exact E|]. destruct o as [l|]; [|exact Ho]. destruct Ho as (u & Eu & Hu & _). exists u. exact (conj Eu Hu).
Defined.

Lemma afid2user_same_witness : exists o s' u, np_afid2user (Some 1%positive) (pw_name root) (in_packet (pw_name root)) 1000 looked_state = Ret (o, s') /\
  us_heap looked_state !! 1%positive = Some u /\
  (o = Some 1%positive /\ u_uid u = 1000 \/ o = None /\ us_err s' = EPERM /\ u_uid u <> 1000).
Proof.
  apply (afid2user_same 0 [1%positive] looked_state 0 1%positive (pw_name root) 1000 looked_reached); [reflexivity|].
  repeat constructor; discriminate.
Defined.

Lemma lookup_race_witness : exists s1, find_user None 1000 (_real_lookup_byuid 0 1000) created = Ret (Some 1%positive, s1) /\
  (do _ <- np_usercache_flush; np_user_incref (Some 1%positive)) s1 = UB.
Proof.
  eexists. split; [vm_compute; reflexivity|]. apply (lookup_race 0 [] created 1000 1%positive).
  - exists (started true), created, []. split; [done|]. split; [done|]. split; [constructor|reflexivity].
  - vm_compute. reflexivity.
  - apply not_elem_of_nil.
Defined.

Lemma sample_reallocs w k : fst (db_reallocs w) k = true.
Proof. done. Qed.

Lemma usercache_text_witness : exists o s', _get_usercache looked_state = Ret (o, s') /\ balanced [1%positive] s'.
Proof.
  destruct (usercache_text sample_reallocs 0 [1%positive] looked_state looked_reached) as (o & s' & E & Hb & _).
  exists o, s'. exact (conj E Hb).
Defined.

(** The text for alice: her name, her numbers, two groups, and what is left of the minute. *)
Example looked_text : exists m s', _get_usercache looked_state = Ret (Some m, s') /\
  c_string m = [97; 108; 105; 99; 101; 40; 49; 48; 48; 48; 44; 49; 48; 48; 43; 50; 41; 32; 52; 48; 10].
Proof. eexists _, _. split; [vm_compute; reflexivity|vm_compute; reflexivity]. Qed.

(** Without a user database only the name root is accepted, but a name such as 1000
    is accepted too as long as the user with that number is in the cache, so what a
    name means depends on who was looked up before; and when the ctl file of the
    cache cannot be made, the server is left with a freed cache, which its
    destruction uses. *)
Theorem user_failures :
  (exists s, play SRV_FLAGS_NOUSERDB [] [U_name (dec 1000)] created = Ret ([], s) /\ us_err s = EPERM) /\
  (exists s u, play SRV_FLAGS_NOUSERDB [] [U_uid 1000; U_name (dec 1000)] created = Ret ([1; 1]%positive, s) /\
     us_heap s !! 1%positive = Some u /\ u_uid u = 1000) /\
  (exists s, np_usercache_create (started false) = Ret (false, s) /\ np_usercache_destroy s = UB).
Proof.
  split; [|split].
  - eexists. split; [vm_compute; reflexivity|reflexivity].
  - eexists _, _. split; [vm_compute; reflexivity|]. split; [vm_compute; reflexivity|reflexivity].
  - eexists. split; [vm_compute; reflexivity|reflexivity].
Qed.
End UserSample.
