(* ===== verification/Fsid.v ===== *)
(** * The identity of a worker thread (libnpfs/user-linux.c)

    Before a worker thread calls the file system it takes the identity of the user of
    the request: [np_setfsid] changes the ids that the kernel uses for access to
    files, the supplementary groups and three capabilities, and keeps in the thread
    what it set.  The kernel is the class [Kernel], with what is documented of it in
    [KernelLaws]; an [int] result of a call is the id as 32 bits. *)
From S2P Require Import Prelude Cbuf Protocol Npstring Wire Fcall Format Users.
From stdpp Require Import list gmap.
#[local] Open Scope Z_scope.

Declare Scope fsid_scope.
Delimit Scope fsid_scope with fsid.

Definition SRV_FLAGS_SETFSID : Z := 65536.
Definition SRV_FLAGS_DAC_BYPASS : Z := 2097152.
Definition SRV_FLAGS_SETGROUPS : Z := 4194304.

Definition CAP_CHOWN : Z := 0.
Definition CAP_DAC_OVERRIDE : Z := 1.
Definition CAP_FOWNER : Z := 3.
Definition CAP_SETGID : Z := 6.
Definition CAP_SETUID : Z := 7.

(** The effective capabilities of a thread. *)
Abbreviation cap_t := (gset Z) (only parsing).

Class Kernel := {
  kern : Type;
  (** the id before *)
  setfsgid : Z -> kern -> Z * kern;
  setfsuid : Z -> kern -> Z * kern;
  (** did it succeed? *)
  sys_setgroups : list Z -> kern -> bool * kern;
  prctl_dumpable : kern -> bool * kern;
  cap_get_proc : kern -> option cap_t * kern;
  cap_set_proc : cap_t -> kern -> bool * kern;
  cap_free : kern -> bool * kern;
  cap_get_flag : cap_t -> Z -> option bool;
  cap_set_flag : cap_t -> Z -> bool -> option cap_t;
  errno : kern -> Z;
}.

(** What [np_wthread_create] and [np_setfsid] keep in the thread; [f_err] is the error
    of [np_uerror]. *)
Record fstate `{Kernel} := {
  wt_fsuid : Z;
  wt_fsgid : Z;
  wt_privcap : bool;
  f_err : Z;
  f_kern : kern;
}.

Section State.
Context `{Kernel}.

Definition set_fsuid v s := {| wt_fsuid := v; wt_fsgid := wt_fsgid s; wt_privcap := wt_privcap s; f_err := f_err s; f_kern := f_kern s |}.
Definition set_fsgid v s := {| wt_fsuid := wt_fsuid s; wt_fsgid := v; wt_privcap := wt_privcap s; f_err := f_err s; f_kern := f_kern s |}.
Definition set_privcap v s := {| wt_fsuid := wt_fsuid s; wt_fsgid := wt_fsgid s; wt_privcap := v; f_err := f_err s; f_kern := f_kern s |}.
Definition set_ferr v s := {| wt_fsuid := wt_fsuid s; wt_fsgid := wt_fsgid s; wt_privcap := wt_privcap s; f_err := v; f_kern := f_kern s |}.
Definition set_kern v s := {| wt_fsuid := wt_fsuid s; wt_fsgid := wt_fsgid s; wt_privcap := wt_privcap s; f_err := f_err s; f_kern := v |}.

Definition FM (A : Type) : Type := fstate -> res (A * fstate).
Definition fret {A} (a : A) : FM A := fun s => Ret (a, s).
Definition fbind {A B} (c : FM A) (f : A -> FM B) : FM B := fun s => let! (a, s) := c s in f a s.
Definition flift {A} (c : res A) : FM A := fun s => let! a := c in Ret (a, s).
Definition fmodify (f : fstate -> fstate) : FM unit := fun s => Ret (tt, f s).
Definition fget {A} (f : fstate -> A) : FM A := fun s => Ret (f s, s).
Definition sys {A} (c : kern -> A * kern) : FM A := fun s => let '(a, k) := c (f_kern s) in Ret (a, set_kern k s).
End State.

Notation "'do' x <- c ; k" := (fbind c (fun x => k))
  (at level 100, x pattern, c at level 100, k at level 200, right associativity) : fsid_scope.
#[local] Open Scope fsid_scope.

Section Fsid.
Context `{Kernel}.

Definition fuerror (e : Z) : FM unit := fmodify (set_ferr e).
(** [np_uerror (errno)], and -1 *)
Definition fail_errno : FM bool := do k <- fget f_kern; do _ <- fuerror (errno k); fret false.

(** ** Capabilities *)

Definition dac_caps : list Z := [CAP_DAC_OVERRIDE; CAP_CHOWN; CAP_FOWNER].

(** The flags of the copy; [None] after an error. *)
Fixpoint chg_flags (val : bool) (cf : list Z) (cap : cap_t) (need_set : bool) : option (cap_t * bool) :=
  match cf with
  | [] => Some (cap, need_set)
  | c :: cf =>
      match cap_get_flag cap c with
      | None => None
      | Some cur =>
          if Bool.eqb cur val then chg_flags val cf cap need_set
          else match cap_set_flag cap c val with
               | None => None
               | Some cap => chg_flags val cf cap true
               end
      end
  end.

Definition chg_proc (val : bool) (cap : cap_t) : FM bool :=
  match chg_flags val dac_caps cap false with
  | None => fail_errno
  | Some (cap, need_set) =>
      if need_set then do ok <- sys (cap_set_proc cap); if ok then fret true else fail_errno
      else fret true
  end.

Definition _chg_privcap (val : bool) : FM bool :=
  do o <- sys cap_get_proc;
  match o with
  | None => fail_errno
  | Some cap =>
      do ret <- chg_proc val cap;
      do ok <- sys cap_free;
      do _ <- (if ok then fret tt else do k <- fget f_kern; fuerror (errno k));
      fret ret
  end.

(** ** Ids *)

(** Is the group among the first [n] of the array? *)
Fixpoint in_sg (n : nat) (sg : list Z) (gid : Z) : res bool :=
  match n with
  | O => Ret false
  | S n => match sg with [] => UB | g :: sg => if g =? gid then Ret true else in_sg n sg gid end
  end.

Definition sg_of (u : Npuser) : list Z := match u_sg u with Some g => g | None => [] end.

Context (srv_flags : Z) (authuid : Z).

(** [gid_override != -1], of a [u32] *)
Definition overrides (gid_override : Z) : bool := negb (gid_override =? NONUNAME).

Definition check_override (u : Npuser) (gid_override : Z) : FM bool :=
  if overrides gid_override && negb (u_uid u =? 0) && negb (authuid =? 0) && negb (bit srv_flags SRV_FLAGS_NOUSERDB) then
    do b <- flift (in_sg (Z.to_nat (u_nsg u)) (sg_of u) gid_override);
    if b then fret true else do _ <- fuerror EPERM; fret false
  else fret true.

(** The result is whether to go on, and [dumpclrd]. *)
Definition set_gid (gid : Z) : FM (bool * bool) :=
  do fsgid <- fget wt_fsgid;
  if negb (fsgid =? gid) then
    do n <- sys (setfsgid gid);
    if (int32 n =? -1) || negb (u32 (int32 n) =? fsgid) then
      do ok <- fail_errno;
      do _ <- fmodify (set_fsgid NONUNAME);
      fret (ok, true)
    else do _ <- fmodify (set_fsgid gid); fret (true, true)
  else fret (true, false).

Definition set_groups (u : Npuser) : FM bool :=
  if bit srv_flags SRV_FLAGS_SETGROUPS then
    do _ <- flift (if (Z.to_nat (u_nsg u) <=? length (sg_of u))%nat then Ret tt else UB);
    do ok <- sys (sys_setgroups (take (Z.to_nat (u_nsg u)) (sg_of u)));
    if ok then fret true
    else
      do ok <- fail_errno;
      do _ <- fmodify (set_fsuid NONUNAME);
      fret ok
  else fret true.

Definition set_uid (u : Npuser) : FM (bool * bool) :=
  do fsuid <- fget wt_fsuid;
  if negb (fsuid =? u_uid u) then
    do n <- sys (setfsuid (u_uid u));
    if int32 n =? -1 then
      do ok <- fail_errno;
      do _ <- fmodify (set_fsuid NONUNAME);
      fret (ok, true)
    else if negb (u32 (int32 n) =? fsuid) then
      do _ <- fuerror EPERM;
      do _ <- fmodify (set_fsuid NONUNAME);
      fret (false, true)
    else
      do _ <- (if u_uid u =? 0 then fmodify (set_privcap true)
               else if fsuid =? 0 then fmodify (set_privcap false)
               else fret tt);
      do ok <- set_groups u;
      if ok then do _ <- fmodify (set_fsuid (u_uid u)); fret (true, true)
      else fret (false, true)
  else fret (true, false).

Definition set_ids (u : Npuser) (gid_override : Z) : FM (bool * bool) :=
  if bit srv_flags SRV_FLAGS_SETFSID then
    do ok <- check_override u gid_override;
    if negb ok then fret (false, false)
    else
      do (ok, d1) <- set_gid (if overrides gid_override then gid_override else u_gid u);
      if negb ok then fret (false, d1)
      else
        do (ok, d2) <- set_uid u;
        fret (ok, d1 || d2)
  else fret (true, false).

Definition set_caps : FM (bool * bool) :=
  do fsuid <- fget wt_fsuid;
  if bit srv_flags SRV_FLAGS_DAC_BYPASS && negb (fsuid =? 0) then
    do privcap <- fget wt_privcap;
    if negb privcap && (authuid =? 0) then
      do ok <- _chg_privcap true;
      if ok then do _ <- fmodify (set_privcap true); fret (true, true) else fret (false, false)
    else if privcap && negb (authuid =? 0) then
      do ok <- _chg_privcap false;
      if ok then do _ <- fmodify (set_privcap false); fret (true, true) else fret (false, false)
    else fret (true, false)
  else fret (true, false).

(** [authuid] is [NONUNAME] when the connection has no authenticated user. *)
Definition np_setfsid (u : Npuser) (gid_override : Z) : FM bool :=
  do (ok, d1) <- set_ids u gid_override;
  do (ok, d2) <- (if ok then set_caps else fret (false, false));
  do _ <- (if d1 || d2 then sys prctl_dumpable else fret true);
  fret ok.
End Fsid.

(** [np_wthread_create]: the thread starts with the ids of the process. *)
Definition np_wthread_start `{Kernel} (euid egid : Z) (k : kern) : fstate :=
  {| wt_fsuid := euid; wt_fsgid := egid; wt_privcap := euid =? 0; f_err := 0; f_kern := k |}.
