(* ===== verification/FsidSpec.v ===== *)
(** * A worker thread has the identity of the user that it serves (user-linux.c)

    What is documented of the kernel, and what [np_setfsid] makes of it. *)
From S2P Require Import Prelude Cbuf Protocol Npstring Wire Fcall Format Users Fsid.
From stdpp Require Import list gmap.
#[local] Open Scope Z_scope.
#[local] Open Scope fsid_scope.

(** ** The kernel *)

(** The credentials of a thread. *)
Record creds := {
  c_fsuid : Z;
  c_fsgid : Z;
  c_groups : list Z;
  c_caps : gset Z;
  c_permitted : gset Z;
}.

Definition with_fsuid v c := {| c_fsuid := v; c_fsgid := c_fsgid c; c_groups := c_groups c; c_caps := c_caps c; c_permitted := c_permitted c |}.
Definition with_fsgid v c := {| c_fsuid := c_fsuid c; c_fsgid := v; c_groups := c_groups c; c_caps := c_caps c; c_permitted := c_permitted c |}.
Definition with_groups v c := {| c_fsuid := c_fsuid c; c_fsgid := c_fsgid c; c_groups := v; c_caps := c_caps c; c_permitted := c_permitted c |}.
Definition with_caps v c := {| c_fsuid := c_fsuid c; c_fsgid := c_fsgid c; c_groups := c_groups c; c_caps := v; c_permitted := c_permitted c |}.

(** The capabilities that go with the file system uid 0 (capabilities(7)): CHOWN,
    DAC_OVERRIDE, DAC_READ_SEARCH, FOWNER, FSETID, LINUX_IMMUTABLE, MKNOD and
    MAC_OVERRIDE. *)
Definition fs_caps : gset Z := {[0; 1; 2; 3; 4; 9; 27; 32]}.

Definition caps_after (old new : Z) (c : creds) : gset Z :=
  if (old =? 0) && negb (new =? 0) then c_caps c ∖ fs_caps
  else if negb (old =? 0) && (new =? 0) then c_caps c ∪ (c_permitted c ∩ fs_caps)
  else c_caps c.

Definition id_ok (i : Z) : Prop := 0 <= i < 2 ^ 32 - 1.

(** What the manual pages say. *)
Class KernelLaws `{Kernel} := {
  creds_of : kern -> creds;
  setfsgid_law g k r k' : id_ok g -> CAP_SETGID ∈ c_caps (creds_of k) -> setfsgid g k = (r, k') ->
    r = c_fsgid (creds_of k) /\ creds_of k' = with_fsgid g (creds_of k);
  setfsuid_law u k r k' : id_ok u -> CAP_SETUID ∈ c_caps (creds_of k) -> setfsuid u k = (r, k') ->
    r = c_fsuid (creds_of k) /\
    creds_of k' = with_fsuid u (with_caps (caps_after (c_fsuid (creds_of k)) u (creds_of k)) (creds_of k));
  setgroups_law gs k ok k' : sys_setgroups gs k = (ok, k') ->
    creds_of k' = if ok then with_groups gs (creds_of k) else creds_of k;
  prctl_law k ok k' : prctl_dumpable k = (ok, k') -> creds_of k' = creds_of k;
  cap_get_proc_law k o k' : cap_get_proc k = (o, k') -> creds_of k' = creds_of k /\ (forall c, o = Some c -> c = c_caps (creds_of k));
  cap_set_proc_law c k ok k' : cap_set_proc c k = (ok, k') -> creds_of k' = if ok then with_caps c (creds_of k) else creds_of k;
  cap_free_law k ok k' : cap_free k = (ok, k') -> creds_of k' = creds_of k;
  cap_get_flag_law c x b : cap_get_flag c x = Some b -> b = bool_decide (x ∈ c);
  cap_set_flag_law c x b c' : cap_set_flag c x b = Some c' -> c' = if b then c ∪ {[x]} else c ∖ {[x]};
}.

(** ** Runs *)

Section Runs.
Context `{Kernel}.

Definition fruns {A} (c : FM A) (s : fstate) (Q : A -> fstate -> Prop) : Prop := exists a s', c s = Ret (a, s') /\ Q a s'.

Lemma fruns_ret {A} (a : A) s Q : Q a s -> fruns (fret a) s Q.
Proof. intros HQ. by exists a, s. Qed.

Lemma fruns_bind {A B} (c : FM A) (f : A -> FM B) s Q : fruns c s (fun a s' => fruns (f a) s' Q) -> fruns (fbind c f) s Q.
Proof. intros (a & s1 & E1 & b & s2 & E2 & HQ). exists b, s2. split; [|done]. unfold fbind. rewrite E1. exact E2. Qed.

Lemma fruns_mono {A} (c : FM A) s (Q R : A -> fstate -> Prop) : fruns c s Q -> (forall a s', Q a s' -> R a s') -> fruns c s R.
Proof. intros (a & s' & E & HQ) HR. exists a, s'. auto. Qed.

Lemma fruns_get {A} (f : fstate -> A) s (Q : A -> fstate -> Prop) : Q (f s) s -> fruns (fget f) s Q.
Proof. intros HQ. by exists (f s), s. Qed.

Lemma fruns_modify f s (Q : unit -> fstate -> Prop) : Q tt (f s) -> fruns (fmodify f) s Q.
Proof. intros HQ. by exists tt, (f s). Qed.

Lemma fruns_lift {A} (c : res A) a s (Q : A -> fstate -> Prop) : c = Ret a -> Q a s -> fruns (flift c) s Q.
Proof. intros -> HQ. by exists a, s. Qed.

Lemma fruns_sys {A} (c : kern -> A * kern) s (Q : A -> fstate -> Prop) :
  (forall a k, c (f_kern s) = (a, k) -> Q a (set_kern k s)) -> fruns (sys c) s Q.
Proof. intros HQ. unfold sys. destruct (c (f_kern s)) as [a k] eqn:E. exists a, (set_kern k s). rewrite E. auto. Qed.

Lemma fruns_errno s (Q : bool -> fstate -> Prop) : (forall e, Q false (set_ferr e s)) -> fruns fail_errno s Q.
Proof. intros HQ. apply fruns_bind, fruns_get, fruns_bind, fruns_modify, fruns_ret. apply HQ. Qed.
End Runs.

Lemma id_int n : id_ok n -> (int32 n =? -1) = false /\ u32 (int32 n) = n.
Proof.
  intros Hn. unfold id_ok in Hn. split; [|by rewrite u32_int32, u32_small by lia]. apply Z.eqb_neq.
  destruct (Z_lt_dec n (2 ^ 31)); [rewrite int32_small by lia|rewrite int32_wrap by lia]; lia.
Qed.

(** The wrapped id of any result is [NONUNAME] exactly when the result is -1. *)
Lemma id_wrapped n : (int32 n =? -1) || negb (u32 (int32 n) =? NONUNAME) = true.
Proof.
  destruct (Z.eqb_spec (int32 n) (-1)) as [|Hne]; [done|]. cbn. apply negb_true_iff, Z.eqb_neq. intros E.
  pose proof (int32_range n). apply Hne. change NONUNAME with (2 ^ 32 - 1) in E. unfold u32 in E.
  destruct (Z_lt_dec (int32 n) 0).
  - rewrite <- (Z.mod_add (int32 n) 1) in E by lia. rewrite Z.mod_small in E by lia. lia.
  - rewrite Z.mod_small in E by lia. lia.
Qed.

(** ** The invariant of a worker thread *)

Definition dead `{Kernel} (s : fstate) : Prop := wt_fsuid s = NONUNAME \/ wt_fsgid s = NONUNAME.

Section Alive.
Context `{KernelLaws} (srv_flags : Z).

Definition privileged (c : creds) : Prop :=
  CAP_SETUID ∈ c_caps c /\ CAP_SETGID ∈ c_caps c /\ (forall x, x ∈ dac_caps -> x ∈ c_permitted c).

(** The capabilities are as [wt->privcap] says. *)
Definition caps_are (b : bool) (c : creds) : Prop := forall x, x ∈ dac_caps -> (x ∈ c_caps c <-> b = true).

(** The thread knows its identity in the kernel. *)
Record alive (s : fstate) : Prop := {
  a_uid : wt_fsuid s = c_fsuid (creds_of (f_kern s)) /\ id_ok (wt_fsuid s);
  a_gid : wt_fsgid s = c_fsgid (creds_of (f_kern s)) /\ id_ok (wt_fsgid s);
  a_caps : caps_are (wt_privcap s) (creds_of (f_kern s));
  a_root : wt_fsuid s = 0 -> wt_privcap s = true;
  a_plain : bit srv_flags SRV_FLAGS_DAC_BYPASS = false -> wt_privcap s = true -> wt_fsuid s = 0;
  a_priv : privileged (creds_of (f_kern s));
}.

Lemma alive_same s s' : alive s -> creds_of (f_kern s') = creds_of (f_kern s) -> wt_fsuid s' = wt_fsuid s ->
  wt_fsgid s' = wt_fsgid s -> wt_privcap s' = wt_privcap s -> alive s'.
Proof. intros [H1 H2 H3 H4 H5 H6] E1 E2 E3 E4. split; rewrite ?E1, ?E2, ?E3, ?E4; done. Qed.

Lemma nonuname_not_ok : ~ id_ok NONUNAME.
Proof. unfold id_ok. change NONUNAME with (2 ^ 32 - 1). lia. Qed.

(** The dac capabilities are among those that go with uid 0; SETUID and SETGID are not. *)
Lemma dac_fs x : x ∈ dac_caps -> x ∈ fs_caps.
Proof. unfold dac_caps, fs_caps, CAP_DAC_OVERRIDE, CAP_CHOWN, CAP_FOWNER. rewrite !elem_of_cons, elem_of_nil. set_solver. Qed.

Lemma set_not_fs : CAP_SETUID ∉ fs_caps /\ CAP_SETGID ∉ fs_caps.
Proof. unfold fs_caps, CAP_SETUID, CAP_SETGID. split; intros Hx; repeat (apply elem_of_union in Hx as [Hx|Hx]); apply elem_of_singleton in Hx; lia. Qed.

Lemma caps_after_priv old new c : privileged c -> privileged (with_fsuid new (with_caps (caps_after old new c) c)).
Proof.
  intros (Hu & Hg & Hp). destruct set_not_fs as [Nu Ng]. split; [|split]; cbn; [| |done].
  all: unfold caps_after; destruct (_ && _); [by apply elem_of_difference|]; destruct (_ && _); [|done]; apply elem_of_union; by left.
Qed.

(** A change of the uid changes the capabilities as the thread records it. *)
Lemma caps_after_are old new b c : privileged c -> caps_are b c -> old <> new ->
  caps_are (if new =? 0 then true else if old =? 0 then false else b) (with_fsuid new (with_caps (caps_after old new c) c)).
Proof.
  intros (_ & _ & Hp) Hc Hne x Hx. cbn. unfold caps_after. pose proof (dac_fs x Hx) as Hf. specialize (Hc x Hx). specialize (Hp x Hx).
  destruct (Z.eqb_spec new 0) as [->|Hn], (Z.eqb_spec old 0) as [->|Ho]; cbn; try done.
  - rewrite elem_of_union, elem_of_intersection. tauto.
  - rewrite elem_of_difference. split; [tauto|discriminate].
Qed.

Lemma set_gid_runs s g : alive s -> id_ok g -> fruns (set_gid g) s (fun r s' => fst r = true /\ alive s' /\ wt_fsgid s' = g /\
  wt_fsuid s' = wt_fsuid s /\ c_groups (creds_of (f_kern s')) = c_groups (creds_of (f_kern s)) /\ f_err s' = f_err s).
Proof.
  intros Ha Hg. unfold set_gid. apply fruns_bind, fruns_get. destruct (Z.eqb_spec (wt_fsgid s) g) as [E|E]; cbn [negb].
  { apply fruns_ret. done. }
  pose proof Ha as [H1 [Eg Hok] H3 H4 H5 H6]. apply fruns_bind, fruns_sys. intros n k En.
  destruct (setfsgid_law g (f_kern s) n k Hg) as [Er Ek]; [apply H6|done|]. rewrite <- Eg in Er. subst n.
  destruct (id_int _ Hok) as [-> ->]. rewrite Z.eqb_refl. cbn [negb orb].
  apply fruns_bind, fruns_modify, fruns_ret. cbn. split; [done|]. split; [|by rewrite Ek].
  split; cbn; rewrite ?Ek; try done.
Qed.

Lemma set_groups_runs s u : (Z.to_nat (u_nsg u) <= length (sg_of u))%nat ->
  fruns (set_groups srv_flags u) s (fun ok s' => wt_fsgid s' = wt_fsgid s /\ wt_privcap s' = wt_privcap s /\
    if ok then f_err s' = f_err s /\ wt_fsuid s' = wt_fsuid s /\
      creds_of (f_kern s') = if bit srv_flags SRV_FLAGS_SETGROUPS then with_groups (take (Z.to_nat (u_nsg u)) (sg_of u)) (creds_of (f_kern s)) else creds_of (f_kern s)
    else wt_fsuid s' = NONUNAME).
Proof.
  intros Hl. unfold set_groups. destruct (bit srv_flags SRV_FLAGS_SETGROUPS); [|by apply fruns_ret].
  apply fruns_bind. eapply fruns_lift; [by rewrite (proj2 (Nat.leb_le _ _) Hl)|]. apply fruns_bind, fruns_sys. intros ok k Ek.
  apply setgroups_law in Ek. destruct ok; [by apply fruns_ret|].
  apply fruns_bind, fruns_errno. intros e. apply fruns_bind, fruns_modify, fruns_ret. done.
Qed.

(** The groups that a successful change of the uid leaves. *)
Definition groups_after (s : fstate) (u : Npuser) : list Z :=
  if bit srv_flags SRV_FLAGS_SETGROUPS && negb (wt_fsuid s =? u_uid u) then take (Z.to_nat (u_nsg u)) (sg_of u)
  else c_groups (creds_of (f_kern s)).

Lemma set_uid_runs s u : alive s -> id_ok (u_uid u) -> (Z.to_nat (u_nsg u) <= length (sg_of u))%nat ->
  fruns (set_uid srv_flags u) s (fun r s' =>
    if fst r then alive s' /\ wt_fsuid s' = u_uid u /\ wt_fsgid s' = wt_fsgid s /\ f_err s' = f_err s /\
      c_groups (creds_of (f_kern s')) = groups_after s u
    else dead s').
Proof.
  intros Ha Hu Hl. unfold set_uid, groups_after. apply fruns_bind, fruns_get.
  destruct (Z.eqb_spec (wt_fsuid s) (u_uid u)) as [E|E]; cbn [negb].
  { apply fruns_ret. cbn. by rewrite andb_false_r. }
  pose proof Ha as [[Eu Hok] H2 H3 H4 H5 H6]. apply fruns_bind, fruns_sys. intros n k En.
  destruct (setfsuid_law (u_uid u) (f_kern s) n k Hu) as [Er Ek]; [apply H6|done|]. rewrite <- Eu in Er, Ek. subst n.
  destruct (id_int _ Hok) as [-> ->]. rewrite Z.eqb_refl. cbn [negb].
  set (b := if u_uid u =? 0 then true else if wt_fsuid s =? 0 then false else wt_privcap s).
  apply fruns_bind. set (s1 := set_privcap b (set_kern k s)).
  assert (Hpc : fruns (if u_uid u =? 0 then fmodify (set_privcap true) else if wt_fsuid s =? 0 then fmodify (set_privcap false) else fret tt)
    (set_kern k s) (fun _ s' => s' = s1)).
  { unfold s1, b. destruct (u_uid u =? 0); [by apply fruns_modify|]. destruct (wt_fsuid s =? 0); [by apply fruns_modify|].
    apply fruns_ret. by destruct s. }
  eapply fruns_mono; [exact Hpc|]. intros [] s' ->. apply fruns_bind. eapply fruns_mono; [by apply set_groups_runs|].
  intros ok s2 (Hgid & Hpriv & Hok2). destruct ok; [|apply fruns_ret; cbn; by left].
  destruct Hok2 as (Herr & Hfs & Hc). apply fruns_bind, fruns_modify, fruns_ret. cbn.
  assert (Hcr : c_fsuid (creds_of (f_kern s2)) = u_uid u /\ c_fsgid (creds_of (f_kern s2)) = c_fsgid (creds_of (f_kern s)) /\
    c_caps (creds_of (f_kern s2)) = caps_after (wt_fsuid s) (u_uid u) (creds_of (f_kern s)) /\
    c_permitted (creds_of (f_kern s2)) = c_permitted (creds_of (f_kern s))).
  { rewrite Hc. unfold s1. cbn. rewrite Ek. by destruct (bit srv_flags SRV_FLAGS_SETGROUPS). }
  destruct Hcr as (C1 & C2 & C3 & C4). split; [|split; [done|split; [done|split; [done|]]]].
  - destruct (caps_after_priv (wt_fsuid s) (u_uid u) (creds_of (f_kern s)) H6) as (P1 & P2 & P3). cbn in P1, P2, P3.
    split; cbn; rewrite ?Hgid, ?Hpriv; unfold s1; cbn.
    + by rewrite C1.
    + by rewrite C2.
    + intros x Hx. rewrite C3. apply (caps_after_are (wt_fsuid s) (u_uid u) (wt_privcap s) (creds_of (f_kern s)) H6 H3 E x Hx).
    + intros E0. unfold b. by rewrite E0.
    + intros Hd Hb. unfold b in Hb. destruct (Z.eqb_spec (u_uid u) 0) as [|Hn]; [done|].
      destruct (Z.eqb_spec (wt_fsuid s) 0) as [|Hn0]; [done|]. by apply H5 in Hb.
    + split; [by rewrite C3|]. split; [by rewrite C3|]. by rewrite C4.
  - rewrite Hc. unfold s1. cbn. destruct (bit srv_flags SRV_FLAGS_SETGROUPS); cbn; [done|by rewrite Ek].
Qed.
End Alive.

(** ** Capabilities *)

Section Caps.
Context `{KernelLaws} (srv_flags : Z).

Lemma chg_flags_spec val cf : forall cap need cap' need', chg_flags val cf cap need = Some (cap', need') ->
  (forall x, x ∈ cf -> (x ∈ cap' <-> val = true)) /\ (forall x, x ∉ cf -> (x ∈ cap' <-> x ∈ cap)) /\
  (need' = false -> need = false /\ cap' = cap).
Proof.
  induction cf as [|c cf IH]; intros cap need cap' need' E; cbn in E.
  { injection E as <- <-. split; [intros x Hx; by apply elem_of_nil in Hx|done]. }
  destruct (cap_get_flag cap c) as [cur|] eqn:Eg; [|discriminate]. apply cap_get_flag_law in Eg.
  assert (Hgo : forall cap1 need1, chg_flags val cf cap1 need1 = Some (cap', need') -> (c ∈ cap1 <-> val = true) ->
    (forall x, x <> c -> (x ∈ cap1 <-> x ∈ cap)) ->
    (forall x, x ∈ c :: cf -> (x ∈ cap' <-> val = true)) /\ (forall x, x ∉ c :: cf -> (x ∈ cap' <-> x ∈ cap)) /\
    (need' = false -> need1 = false /\ cap' = cap1)).
  { intros cap1 need1 E1 Hc Hx. destruct (IH _ _ _ _ E1) as (I1 & I2 & I3). split; [|split; [|done]].
    - intros x Hin. destruct (decide (x ∈ cf)) as [Hi|Hi]; [by apply I1|]. apply elem_of_cons in Hin as [->|]; [|done].
      by rewrite I2.
    - intros x Hni. rewrite elem_of_cons in Hni. rewrite I2 by tauto. apply Hx. tauto. }
  destruct (Bool.eqb cur val) eqn:Eb.
  - apply eqb_prop in Eb. apply Hgo; [done| |done]. rewrite <- Eb, Eg. split; [by apply bool_decide_eq_true_2|by apply bool_decide_eq_true_1].
  - destruct (cap_set_flag cap c val) as [cap1|] eqn:Es; [|discriminate]. apply cap_set_flag_law in Es.
    destruct (Hgo cap1 true E) as (G1 & G2 & G3).
    + rewrite Es. destruct val; set_solver.
    + intros x Hne. rewrite Es. destruct val; set_solver.
    + split; [done|]. split; [done|]. intros Hf. by destruct (G3 Hf).
Qed.

Lemma chg_privcap_runs s b : alive srv_flags s -> fruns (_chg_privcap b) s (fun ok s' =>
  wt_fsuid s' = wt_fsuid s /\ wt_fsgid s' = wt_fsgid s /\ wt_privcap s' = wt_privcap s /\
  exists caps, creds_of (f_kern s') = with_caps caps (creds_of (f_kern s)) /\
    if ok then (forall x, x ∈ dac_caps -> (x ∈ caps <-> b = true)) /\ (forall x, x ∉ dac_caps -> (x ∈ caps <-> x ∈ c_caps (creds_of (f_kern s))))
    else caps = c_caps (creds_of (f_kern s))).
Proof.
  intros Ha. assert (Hid : forall c, c = with_caps (c_caps c) c) by (by intros []).
  unfold _chg_privcap. apply fruns_bind, fruns_sys. intros o k Ek. apply cap_get_proc_law in Ek as [Ek Ho].
  destruct o as [cap|]; [|apply fruns_errno; intros e; cbn; repeat (split; [done|]); eexists; rewrite Ek; split; [apply Hid|done]].
  specialize (Ho cap eq_refl). apply fruns_bind.
  assert (Hproc : fruns (chg_proc b cap) (set_kern k s) (fun ok s' =>
    wt_fsuid s' = wt_fsuid s /\ wt_fsgid s' = wt_fsgid s /\ wt_privcap s' = wt_privcap s /\
    exists caps, creds_of (f_kern s') = with_caps caps (creds_of (f_kern s)) /\
      if ok then (forall x, x ∈ dac_caps -> (x ∈ caps <-> b = true)) /\ (forall x, x ∉ dac_caps -> (x ∈ caps <-> x ∈ c_caps (creds_of (f_kern s))))
      else caps = c_caps (creds_of (f_kern s)))).
  { unfold chg_proc. destruct (chg_flags b dac_caps cap false) as [[cap' need]|] eqn:Ec.
    - destruct (chg_flags_spec _ _ _ _ _ _ Ec) as (F1 & F2 & F3). rewrite Ho in F2. destruct need.
      + apply fruns_bind, fruns_sys. intros ok k2 Ek2. cbn in Ek2. apply cap_set_proc_law in Ek2. destruct ok.
        * apply fruns_ret. cbn. repeat (split; [done|]). exists cap'. rewrite Ek2, Ek. done.
        * apply fruns_errno. intros e. cbn. repeat (split; [done|]). eexists. rewrite Ek2, Ek. split; [apply Hid|done].
      + apply fruns_ret. cbn. repeat (split; [done|]). exists cap'. rewrite Ek. destruct (F3 eq_refl) as [_ Ecap].
        split; [|done]. rewrite Ecap, Ho. apply Hid.
    - apply fruns_errno. intros e. cbn. repeat (split; [done|]). eexists. rewrite Ek. split; [apply Hid|done]. }
  eapply fruns_mono; [exact Hproc|]. intros ret s1 (W1 & W2 & W3 & caps & Ec & Hc).
  apply fruns_bind, fruns_sys. intros ok k3 Ek3. apply cap_free_law in Ek3. apply fruns_bind.
  assert (Hfin : forall s2, f_kern s2 = k3 -> wt_fsuid s2 = wt_fsuid s1 -> wt_fsgid s2 = wt_fsgid s1 -> wt_privcap s2 = wt_privcap s1 ->
    wt_fsuid s2 = wt_fsuid s /\ wt_fsgid s2 = wt_fsgid s /\ wt_privcap s2 = wt_privcap s /\
    exists caps, creds_of (f_kern s2) = with_caps caps (creds_of (f_kern s)) /\
    if ret then (forall x, x ∈ dac_caps -> (x ∈ caps <-> b = true)) /\ (forall x, x ∉ dac_caps -> (x ∈ caps <-> x ∈ c_caps (creds_of (f_kern s))))
    else caps = c_caps (creds_of (f_kern s))).
  { intros s2 E0 E1 E2 E3. rewrite E1, E2, E3, E0, Ek3. repeat (split; [done|]). by exists caps. }
  destruct ok; [apply fruns_ret|apply fruns_bind, fruns_get, fruns_modify]; apply fruns_ret; by apply Hfin.
Qed.

Lemma dac_not_set : CAP_SETUID ∉ dac_caps /\ CAP_SETGID ∉ dac_caps.
Proof. unfold dac_caps, CAP_SETUID, CAP_SETGID, CAP_DAC_OVERRIDE, CAP_CHOWN, CAP_FOWNER. rewrite !elem_of_cons, !elem_of_nil. lia. Qed.

(** After a change of the capabilities the thread is alive with the new ones. *)
Lemma chg_alive s s' b caps : alive srv_flags s -> wt_fsuid s' = wt_fsuid s -> wt_fsgid s' = wt_fsgid s ->
  creds_of (f_kern s') = with_caps caps (creds_of (f_kern s)) ->
  (forall x, x ∈ dac_caps -> (x ∈ caps <-> b = true)) -> (forall x, x ∉ dac_caps -> (x ∈ caps <-> x ∈ c_caps (creds_of (f_kern s)))) ->
  wt_fsuid s <> 0 -> bit srv_flags SRV_FLAGS_DAC_BYPASS = true -> alive srv_flags (set_privcap b s').
Proof.
  intros [H1 H2 H3 H4 H5 (P1 & P2 & P3)] E1 E2 Ec Hd Hn Hne Hby. destruct dac_not_set as [N1 N2].
  split; cbn; rewrite ?E1, ?E2, ?Ec; cbn; try done.
  - congruence.
  - split; [by apply Hn|]. split; [by apply Hn|done].
Qed.

Context (authuid : Z).

(** The capabilities that the thread should have. *)
Definition bypass (uid : Z) : bool := (uid =? 0) || bit srv_flags SRV_FLAGS_DAC_BYPASS && (authuid =? 0).

Lemma set_caps_runs s : alive srv_flags s -> fruns (set_caps srv_flags authuid) s (fun r s' =>
  alive srv_flags s' /\ wt_fsuid s' = wt_fsuid s /\ wt_fsgid s' = wt_fsgid s /\
  c_groups (creds_of (f_kern s')) = c_groups (creds_of (f_kern s)) /\ (fst r = true -> wt_privcap s' = bypass (wt_fsuid s))).
Proof.
  intros Ha. unfold set_caps, bypass. apply fruns_bind, fruns_get.
  destruct (bit srv_flags SRV_FLAGS_DAC_BYPASS) eqn:Eb; cbn [andb].
  2:{ apply fruns_ret. split; [done|]. repeat (split; [done|]). intros _. rewrite orb_false_r.
      destruct (Z.eqb_spec (wt_fsuid s) 0) as [E|E]; [by apply (a_root _ _ Ha)|].
      destruct (wt_privcap s) eqn:Ep; [|done]. exfalso. by apply E, (a_plain _ _ Ha). }
  destruct (Z.eqb_spec (wt_fsuid s) 0) as [E|E]; cbn [negb orb].
  { apply fruns_ret. split; [done|]. repeat (split; [done|]). intros _. by apply (a_root _ _ Ha). }
  apply fruns_bind, fruns_get.
  assert (Hchg : forall b, fruns (do ok <- _chg_privcap b; if ok then do _ <- fmodify (set_privcap b); fret (true, true) else fret (false, false)) s
    (fun r s' => alive srv_flags s' /\ wt_fsuid s' = wt_fsuid s /\ wt_fsgid s' = wt_fsgid s /\
      c_groups (creds_of (f_kern s')) = c_groups (creds_of (f_kern s)) /\ (fst r = true -> wt_privcap s' = b))).
  { intros b. apply fruns_bind. eapply fruns_mono; [by apply chg_privcap_runs|]. intros ok s1 (W1 & W2 & W3 & caps & Ec & Hc). destruct ok.
    - destruct Hc as [Hd Hn]. apply fruns_bind, fruns_modify, fruns_ret. split; [by apply (chg_alive s s1 b caps)|].
      cbn. rewrite Ec. done.
    - apply fruns_ret. split; [|rewrite Ec; done]. eapply alive_same; [exact Ha| |done..]. rewrite Ec, Hc. by destruct (creds_of (f_kern s)). }
  destruct (wt_privcap s) eqn:Ep, (authuid =? 0); cbn [negb andb]; [| |apply Hchg|].
  - by apply fruns_ret.
  - apply Hchg.
  - by apply fruns_ret.
Qed.
End Caps.

(** ** [np_setfsid] *)

Definition groups_ok (u : Npuser) : Prop := (Z.to_nat (u_nsg u) <= length (sg_of u))%nat.

Lemma in_sg_spec n sg gid : (n <= length sg)%nat -> exists b, in_sg n sg gid = Ret b /\ (b = true -> gid ∈ take n sg).
Proof.
  revert sg. induction n as [|n IH]; intros sg Hl; [by exists false|]. destruct sg as [|g sg]; cbn in Hl; [lia|]. cbn.
  destruct (Z.eqb_spec g gid) as [->|]; [exists true; split; [done|]; intros _; left|].
  destruct (IH sg) as (b & E & Hb); [lia|]. exists b. split; [done|]. intros Ht. right. by apply Hb.
Qed.

Section Identity.
Context `{KernelLaws} (srv_flags authuid : Z).

(** A request to create with a group of its own is allowed for root, on a trusted
    connection, without a user database, or for a group of the user. *)
Definition override_allowed (u : Npuser) (gid : Z) : Prop :=
  gid = NONUNAME \/ u_uid u = 0 \/ authuid = 0 \/ bit srv_flags SRV_FLAGS_NOUSERDB = true \/ gid ∈ take (Z.to_nat (u_nsg u)) (sg_of u).

Lemma check_override_runs u gid s : groups_ok u ->
  fruns (check_override srv_flags authuid u gid) s (fun ok s' =>
    if ok then s' = s /\ override_allowed u gid else s' = set_ferr EPERM s).
Proof.
  intros Hg. unfold check_override, overrides, override_allowed. destruct (Z.eqb_spec gid NONUNAME) as [|]; cbn [negb andb]; [apply fruns_ret; tauto|].
  destruct (Z.eqb_spec (u_uid u) 0) as [|]; cbn [negb andb]; [apply fruns_ret; tauto|].
  destruct (Z.eqb_spec authuid 0) as [|]; cbn [negb andb]; [apply fruns_ret; tauto|].
  destruct (bit srv_flags SRV_FLAGS_NOUSERDB); cbn [negb]; [apply fruns_ret; tauto|].
  destruct (in_sg_spec (Z.to_nat (u_nsg u)) (sg_of u) gid Hg) as (b & E & Hb). apply fruns_bind. eapply fruns_lift; [exact E|].
  destruct b; [apply fruns_ret; split; [done|]; tauto|]. by apply fruns_bind, fruns_modify, fruns_ret.
Qed.

(** The identity in which a request of the user is served. *)
Definition gid_of (u : Npuser) (gid : Z) : Z := if overrides gid then gid else u_gid u.

Definition serves (u : Npuser) (gid : Z) (c : creds) : Prop :=
  c_fsuid c = u_uid u /\ c_fsgid c = gid_of u gid /\ caps_are (bypass srv_flags authuid (u_uid u)) c /\ override_allowed u gid.

Definition user_ok (u : Npuser) : Prop := id_ok (u_uid u) /\ id_ok (u_gid u) /\ groups_ok u.

Lemma gid_of_ok u gid : user_ok u -> 0 <= gid < 2 ^ 32 -> id_ok (gid_of u gid).
Proof.
  intros (_ & Hg & _) Hr. unfold gid_of, overrides. destruct (Z.eqb_spec gid NONUNAME) as [|Hne]; cbn [negb]; [done|].
  unfold id_ok. change NONUNAME with (2 ^ 32 - 1) in Hne. lia.
Qed.

Lemma np_setfsid_runs s u gid : bit srv_flags SRV_FLAGS_SETFSID = true -> alive srv_flags s -> user_ok u -> 0 <= gid < 2 ^ 32 ->
  fruns (np_setfsid srv_flags authuid u gid) s (fun ok s' =>
    if ok then alive srv_flags s' /\ serves u gid (creds_of (f_kern s')) /\
      c_groups (creds_of (f_kern s')) = groups_after srv_flags s u
    else alive srv_flags s' \/ dead s').
Proof.
  intros Hflag Ha Hu Hgid. pose proof (gid_of_ok u gid Hu Hgid) as Hg. destruct Hu as (Huid & _ & Hgr).
  unfold np_setfsid. apply fruns_bind.
  assert (Hids : fruns (set_ids srv_flags authuid u gid) s (fun r s' =>
    if fst r then alive srv_flags s' /\ wt_fsuid s' = u_uid u /\ wt_fsgid s' = gid_of u gid /\ override_allowed u gid /\
      c_groups (creds_of (f_kern s')) = groups_after srv_flags s u
    else alive srv_flags s' \/ dead s')).
  { unfold set_ids. rewrite Hflag. apply fruns_bind. eapply fruns_mono; [by apply check_override_runs|]. intros ok s1 Hok.
    destruct ok; cbn [negb]; [|apply fruns_ret; left; subst s1; by eapply alive_same]. destruct Hok as [-> Hall].
    apply fruns_bind. eapply fruns_mono; [apply set_gid_runs; [exact Ha|exact Hg]|]. intros [ok d1] s1 (Ho & Ha1 & Eg & Eu & Egr & _).
    cbn in Ho. subst ok. cbn [negb]. apply fruns_bind. eapply fruns_mono; [by apply (set_uid_runs srv_flags s1 u)|].
    intros [ok d2] s2 Hs2. apply fruns_ret. cbn in *. destruct ok; [|by right]. destruct Hs2 as (Ha2 & Eu2 & Eg2 & _ & Egr2).
    split; [done|]. split; [done|]. split; [by rewrite Eg2|]. split; [done|].
    rewrite Egr2. unfold groups_after. by rewrite Eu, Egr. }
  eapply fruns_mono; [exact Hids|]. intros [ok d1] s1 Hs1. cbn in Hs1. destruct ok.
  - destruct Hs1 as (Ha1 & Eu & Eg & Hall & Egr). apply fruns_bind. eapply fruns_mono; [by apply set_caps_runs|].
    intros [ok d2] s2 (Ha2 & Eu2 & Eg2 & Egr2 & Hp). cbn in Hp. apply fruns_bind.
    assert (Hfin : forall s3, creds_of (f_kern s3) = creds_of (f_kern s2) -> wt_fsuid s3 = wt_fsuid s2 -> wt_fsgid s3 = wt_fsgid s2 ->
      wt_privcap s3 = wt_privcap s2 -> if ok then alive srv_flags s3 /\ serves u gid (creds_of (f_kern s3)) /\
        c_groups (creds_of (f_kern s3)) = groups_after srv_flags s u else alive srv_flags s3 \/ dead s3).
    { intros s3 E1 E2 E3 E4. assert (Ha3 : alive srv_flags s3) by (by apply (alive_same srv_flags s2)). destruct ok; [|by left].
      split; [done|]. specialize (Hp eq_refl). rewrite E1. split; [|by rewrite Egr2].
      destruct (a_uid _ _ Ha2) as [Q1 _]. destruct (a_gid _ _ Ha2) as [Q2 _]. pose proof (a_caps _ _ Ha2) as Hc. rewrite Hp, Eu in Hc.
      split; [by rewrite <- Q1, Eu2|]. split; [by rewrite <- Q2, Eg2|]. done. }
    destruct (d1 || d2); [|apply fruns_ret, fruns_ret; by apply Hfin].
    apply fruns_sys. intros ok3 k3 Ek3. apply prctl_law in Ek3. apply fruns_ret. by apply Hfin.
  - apply fruns_bind, fruns_ret, fruns_bind. rewrite orb_false_r. destruct d1; [|by apply fruns_ret, fruns_ret].
    apply fruns_sys. intros ok3 k3 Ek3. apply prctl_law in Ek3. apply fruns_ret. destruct Hs1 as [Hs1|Hs1]; [left|by right].
    by eapply alive_same.
Qed.
End Identity.

(** ** Sequences of requests on a thread *)

Record freq := { q_user : Npuser; q_gid : Z; q_auth : Z }.

(** The requests, whether they are served, and the kernel then. *)
Fixpoint serve_all `{Kernel} (srv_flags : Z) (rs : list freq) : FM (list (freq * bool * kern)) :=
  match rs with
  | [] => fret []
  | q :: rs =>
      do ok <- np_setfsid srv_flags (q_auth q) (q_user q) (q_gid q);
      do k <- fget f_kern;
      do tr <- serve_all srv_flags rs;
      fret ((q, ok, k) :: tr)
  end.

Definition freq_ok (q : freq) : Prop := user_ok (q_user q) /\ 0 <= q_gid q < 2 ^ 32.

Section Dead.
Context `{Kernel} (srv_flags : Z).

(** A thread that has lost track of its identity refuses every request, whatever the
    kernel does. *)
Lemma dead_refuses authuid s u gid : bit srv_flags SRV_FLAGS_SETFSID = true -> dead s -> user_ok u -> 0 <= gid < 2 ^ 32 ->
  fruns (np_setfsid srv_flags authuid u gid) s (fun ok s' => ok = false /\ dead s').
Proof.
  intros Hflag Hd Hu Hgid. pose proof (gid_of_ok u gid Hu Hgid) as Hg. destruct Hu as (Huid & _ & Hgr).
  unfold np_setfsid. apply fruns_bind.
  assert (Hids : fruns (set_ids srv_flags authuid u gid) s (fun r s' => fst r = false /\ dead s')).
  { unfold set_ids. rewrite Hflag. apply fruns_bind. eapply fruns_mono; [by apply (check_override_runs srv_flags authuid)|]. intros ok s1 Hok.
    destruct ok; cbn [negb]; [|apply fruns_ret; by subst s1]. destruct Hok as [-> _]. apply fruns_bind.
    assert (Hsg : fruns (set_gid (gid_of u gid)) s (fun r s' => if fst r then wt_fsuid s' = NONUNAME else dead s')).
    { unfold set_gid. apply fruns_bind, fruns_get. destruct (Z.eqb_spec (wt_fsgid s) (gid_of u gid)) as [E|E]; cbn [negb].
      - apply fruns_ret. cbn. destruct Hd as [|Hd]; [done|]. rewrite Hd in E. rewrite <- E in Hg. by apply nonuname_not_ok in Hg.
      - apply fruns_bind, fruns_sys. intros n k _. destruct (_ || _) eqn:Eb.
        + apply fruns_bind, fruns_errno. intros e. apply fruns_bind, fruns_modify, fruns_ret. cbn. by right.
        + apply fruns_bind, fruns_modify, fruns_ret. cbn. destruct Hd as [|Hd]; [done|]. rewrite Hd, id_wrapped in Eb. discriminate. }
    eapply fruns_mono; [exact Hsg|]. intros [ok d1] s1 Hs1. cbn in Hs1. destruct ok; cbn [negb]; [|by apply fruns_ret].
    apply fruns_bind. assert (Hsu : fruns (set_uid srv_flags u) s1 (fun r s' => fst r = false /\ dead s')).
    { unfold set_uid. apply fruns_bind, fruns_get. destruct (Z.eqb_spec (wt_fsuid s1) (u_uid u)) as [E|E]; cbn [negb].
      - exfalso. rewrite Hs1 in E. rewrite <- E in Huid. by apply nonuname_not_ok in Huid.
      - apply fruns_bind, fruns_sys. intros n k _. pose proof (id_wrapped n) as Hw. rewrite Hs1. destruct (int32 n =? -1); cbn in Hw.
        + apply fruns_bind, fruns_errno. intros e. apply fruns_bind, fruns_modify, fruns_ret. split; [done|by left].
        + rewrite Hw. apply fruns_bind, fruns_modify, fruns_bind, fruns_modify, fruns_ret. split; [done|by left]. }
    eapply fruns_mono; [exact Hsu|]. intros [ok d2] s2 [Ho Hd2]. apply fruns_ret. done. }
  eapply fruns_mono; [exact Hids|]. intros [ok d1] s1 [Ho Hd1]. cbn in Ho. subst ok.
  apply fruns_bind, fruns_ret, fruns_bind. destruct (d1 || false); [|by apply fruns_ret, fruns_ret].
  apply fruns_sys. intros ok3 k3 _. by apply fruns_ret.
Qed.

Lemma serve_dead rs : forall s, bit srv_flags SRV_FLAGS_SETFSID = true -> dead s -> Forall freq_ok rs ->
  fruns (serve_all srv_flags rs) s (fun tr s' => dead s' /\ tr.*1.*1 = rs /\ Forall (fun t => t.1.2 = false) tr).
Proof.
  induction rs as [|q rs IH]; intros s Hf Hd Hok; [by apply fruns_ret|]. inversion Hok as [|? ? [Hu Hg] Hrs]; subst. cbn [serve_all].
  apply fruns_bind. destruct q as [u gid auth]. cbn in *.
  eapply fruns_mono; [by apply dead_refuses|]. intros ok s1 [-> Hd1]. apply fruns_bind, fruns_get, fruns_bind.
  eapply fruns_mono; [by apply IH|]. intros tr s2 (Hd2 & Htr & Hall). apply fruns_ret. split; [done|]. split; [cbn; by rewrite Htr|by constructor].
Qed.
End Dead.

Section Served.
Context `{KernelLaws} (srv_flags : Z).

Definition served_right (t : freq * bool * kern) : Prop :=
  let '(q, ok, k) := t in ok = true -> serves srv_flags (q_auth q) (q_user q) (q_gid q) (creds_of k).

Lemma worker_serve_runs rs : forall s, bit srv_flags SRV_FLAGS_SETFSID = true -> alive srv_flags s -> Forall freq_ok rs ->
  fruns (serve_all srv_flags rs) s (fun tr s' => tr.*1.*1 = rs /\ Forall served_right tr /\ (alive srv_flags s' \/ dead s')).
Proof.
  induction rs as [|q rs IH]; intros s Hf Ha Hok; [apply fruns_ret; by repeat split; [|left]|].
  inversion Hok as [|? ? [Hu Hg] Hrs]; subst. cbn [serve_all]. apply fruns_bind.
  eapply fruns_mono; [by apply np_setfsid_runs|]. intros ok s1 Hs1. apply fruns_bind, fruns_get, fruns_bind.
  assert (Hhead : served_right (q, ok, f_kern s1)) by (destruct ok; [intros _; apply Hs1|discriminate]).
  assert (Hst : alive srv_flags s1 \/ dead s1) by (destruct ok; [left; apply Hs1|done]).
  destruct Hst as [Ha1|Hd1].
  - eapply fruns_mono; [by apply IH|]. intros tr s2 (Htr & Hall & Hst). apply fruns_ret. split; [cbn; by rewrite Htr|]. split; [by constructor|done].
  - eapply fruns_mono; [by apply serve_dead|]. intros tr s2 (Hd2 & Htr & Hall). apply fruns_ret. split; [cbn; by rewrite Htr|].
    split; [|by right]. constructor; [done|]. eapply Forall_impl; [exact Hall|]. intros [[q' ok'] k'] E. cbn in E. subst ok'. discriminate.
Qed.

(** The process has the ids that it starts its threads with, and may change them. *)
Definition started_by (euid egid : Z) (k : kern) : Prop :=
  c_fsuid (creds_of k) = euid /\ c_fsgid (creds_of k) = egid /\ id_ok euid /\ id_ok egid /\
  privileged (creds_of k) /\ caps_are (euid =? 0) (creds_of k).

Lemma start_alive euid egid k : started_by euid egid k -> alive srv_flags (np_wthread_start euid egid k).
Proof.
  intros (E1 & E2 & H1 & H2 & Hp & Hc). split; cbn; try done.
  - intros ->. done.
  - intros _ E. by apply Z.eqb_eq.
Qed.

(** C32: whatever requests a worker thread serves, of whichever users, groups and
    connections, and whichever calls of the kernel fail: a request is served only
    when the thread has the file system ids of its user, or a group that the user
    may create files with, and the capabilities that bypass permissions exactly when
    the user is root, or the connection was authenticated as root and the server
    was told to bypass them. *)
Theorem served_as_user euid egid k rs : bit srv_flags SRV_FLAGS_SETFSID = true -> started_by euid egid k -> Forall freq_ok rs ->
  exists tr s', serve_all srv_flags rs (np_wthread_start euid egid k) = Ret (tr, s') /\ tr.*1.*1 = rs /\ Forall served_right tr.
Proof.
  intros Hf Hk Hok. destruct (worker_serve_runs rs _ Hf (start_alive _ _ _ Hk) Hok) as (tr & s' & E & Htr & Hall & _). by exists tr, s'.
Qed.
End Served.

(** When a change of identity fails half way, the thread does not know its identity
    any more, and from then on it refuses all requests, whatever the kernel does. *)
Theorem lost_identity_refuses `{Kernel} srv_flags s rs : bit srv_flags SRV_FLAGS_SETFSID = true -> dead s -> Forall freq_ok rs ->
  exists tr s', serve_all srv_flags rs s = Ret (tr, s') /\ tr.*1.*1 = rs /\ Forall (fun t => t.1.2 = false) tr /\ dead s'.
Proof. intros Hf Hd Hok. destruct (serve_dead srv_flags rs s Hf Hd Hok) as (tr & s' & E & Hd' & Htr & Hall). by exists tr, s'. Qed.
