(* ===== verification/FsidUsers.v ===== *)
(** * From the user database to the kernel (user.c, user-linux.c)

    The two halves together: the user that a lookup gives is the identity in which
    the thread then works.  A kernel and a user database as examples. *)
From S2P Require Import Prelude Cbuf Protocol Npstring Wire Fcall Format Users UsersSpec UsersCalls Fsid FsidSpec.
From stdpp Require Import list gmap.
#[local] Open Scope Z_scope.

Section Together.
Context `{UserDb} `{KernelLaws} (srv_flags authuid : Z).
Context (getpwuid_r_uid : forall uid w pwd w', db_getpwuid_r uid w = ((0, Some pwd), w') -> pw_uid pwd = uid).

Lemma wf_groups u : wf_user u -> groups_ok u /\ take (Z.to_nat (u_nsg u)) (sg_of u) = sg_of u.
Proof.
  intros (_ & Hn & _). unfold groups_ok, sg_of. rewrite Hn. destruct (u_sg u) as [g|]; cbn; [|done].
  unfold zlength. rewrite Nat2Z.id. split; [lia|]. by apply take_ge.
Qed.

(** C33: after any use of the users, a lookup of a number followed by a successful
    change of identity leaves the thread with that number as its file system uid,
    with a group of an identity that the user database gave, and, when the thread
    served another user before, with exactly the groups of that identity. *)
Theorem database_to_kernel refs s uid l s' u f gid f' : reached srv_flags refs s -> np_uid2user srv_flags uid s = Ret (Some l, s') ->
  us_heap s' !! l = Some u -> bit srv_flags SRV_FLAGS_SETFSID = true -> alive srv_flags f -> id_ok uid -> id_ok (u_gid u) ->
  0 <= gid < 2 ^ 32 -> np_setfsid srv_flags authuid u gid f = Ret (true, f') ->
  let c := creds_of (f_kern f') in
  c_fsuid c = uid /\ c_fsgid c = gid_of u gid /\ authentic u /\ caps_are (bypass srv_flags authuid uid) c /\
  (bit srv_flags SRV_FLAGS_SETGROUPS = true -> wt_fsuid f <> uid -> c_groups c = sg_of u).
Proof.
  intros Hr El Eu Hflag Ha Hid Hgid Hg Ef. destruct (reached_balanced _ _ _ Hr) as [ls Hi].
  destruct (uid2user_runs srv_flags 60 ls (refs_to refs) s uid Hi) as (o & s1 & E1 & _ & ls' & Hi' & Ho).
  rewrite El in E1. injection E1 as <- <-. destruct Ho as (u1 & Eu1 & Hf). rewrite Eu in Eu1. injection Eu1 as <-.
  destruct (i_user _ _ _ _ Hi' l u Eu) as (Hw & _). destruct (wf_groups u Hw) as [Hgr Htake].
  assert (Huid : u_uid u = uid).
  { destruct Hf as [(_ & _ & _ & Hm)|(_ & Hu & _)]; [injection Hm as Hm; symmetry; by apply Z.eqb_eq|].
    by apply (is_uid_uid srv_flags getpwuid_r_uid). }
  destruct (np_setfsid_runs srv_flags authuid f u gid Hflag Ha) as (ok & f1 & E & Hok); [by split; [rewrite Huid|]|done|].
  rewrite Ef in E. injection E as <- <-. destruct Hok as (_ & (S1 & S2 & S3 & _) & Hgs). rewrite Huid in *.
  split; [done|]. split; [done|]. split; [apply Hw|]. split; [done|]. intros Hsg Hne. rewrite Hgs. unfold groups_after.
  rewrite Hsg, Huid, (proj2 (Z.eqb_neq _ _) Hne). exact Htake.
Qed.
End Together.

(** ** Examples *)

Module FsidSample.

(** A kernel that does what the manual says, and one in which setgroups fails. *)
Definition cred_kernel := (creds * bool)%type.

#[local] Instance sample_kernel : Kernel := {|
  kern := cred_kernel;
  setfsgid := fun g k => (c_fsgid k.1, if bool_decide (id_ok g /\ CAP_SETGID ∈ c_caps k.1) then (with_fsgid g k.1, k.2) else k);
  setfsuid := fun u k => (c_fsuid k.1, if bool_decide (id_ok u /\ CAP_SETUID ∈ c_caps k.1)
                                       then (with_fsuid u (with_caps (caps_after (c_fsuid k.1) u k.1) k.1), k.2) else k);
  sys_setgroups := fun gs k => (k.2, if k.2 then (with_groups gs k.1, k.2) else k);
  prctl_dumpable := fun k => (true, k);
  cap_get_proc := fun k => (Some (c_caps k.1), k);
  cap_set_proc := fun c k => (true, (with_caps c k.1, k.2));
  cap_free := fun k => (true, k);
  cap_get_flag := fun c x => Some (bool_decide (x ∈ c));
  cap_set_flag := fun c x b => Some (if b then c ∪ {[x]} else c ∖ {[x]});
  errno := fun _ => 0;
|}.

#[local] Instance sample_laws : KernelLaws.
Proof.
  unshelve eapply Build_KernelLaws; [exact (fun k : cred_kernel => fst k)|..].
  - intros g k r k' Hg Hc E. cbn in E. rewrite bool_decide_eq_true_2 in E by done. injection E as <- <-. done.
  - intros u k r k' Hu Hc E. cbn in E. rewrite bool_decide_eq_true_2 in E by done. injection E as <- <-. done.
  - intros gs [c b] ok k' E. cbn in E. injection E as <- <-. by destruct b.
  - intros k ok k' E. injection E as <- <-. done.
  - intros k o k' E. cbn in E. injection E as <- <-. split; [done|]. by intros c [= <-].
  - intros c k ok k' E. cbn in E. injection E as <- <-. done.
  - intros k ok k' E. injection E as <- <-. done.
  - intros c x b E. cbn in E. by injection E as <-.
  - intros c x b c' E. cbn in E. by injection E as <-.
Defined.

Definition all_caps : gset Z := {[CAP_SETGID; CAP_SETUID]} ∪ fs_caps.

Definition creds_with (uid gid : Z) (caps : gset Z) : creds :=
  {| c_fsuid := uid; c_fsgid := gid; c_groups := [gid]; c_caps := caps; c_permitted := caps |}.

(** The kernel for a server that root started, and for one that has no capabilities. *)
Definition root_kernel (groups : bool) : cred_kernel := (creds_with 0 0 all_caps, groups).
Definition plain_kernel : cred_kernel := (creds_with 500 500 ∅, true).

Definition user_with (uid gid : Z) (sg : list Z) : Npuser :=
  {| u_refcount := 1; u_uname := Some (dec uid); u_uid := uid; u_gid := gid; u_nsg := zlength sg; u_sg := Some sg; u_next := None; u_t := 0 |}.

Definition asks (u : Npuser) (gid auth : Z) : freq := {| q_user := u; q_gid := gid; q_auth := auth |}.

Definition alice : Npuser := user_with 1000 100 [100; 27].
Definition alice_moved : Npuser := user_with 1000 100 [100].
Definition bob : Npuser := user_with 1001 101 [101].

Definition multiuser : Z := SRV_FLAGS_SETFSID + SRV_FLAGS_DAC_BYPASS + SRV_FLAGS_SETGROUPS.

Definition some_requests : list freq :=
  [asks alice NONUNAME NONUNAME; asks alice 27 NONUNAME; asks alice 28 NONUNAME; asks bob NONUNAME 0; asks (user_with 0 0 [0]) 5 0].

Lemma in_set x (c : gset Z) : bool_decide (x ∈ c) = true -> x ∈ c.
Proof. apply bool_decide_eq_true_1. Qed.

Lemma root_started b : started_by 0 0 (root_kernel b : kern).
Proof.
  split; [done|]. split; [done|]. split; [unfold id_ok; lia|]. split; [unfold id_ok; lia|].
  assert (Hd : forall x, x ∈ dac_caps -> x ∈ all_caps) by (intros x Hx; apply elem_of_union; right; by apply dac_fs).
  split; [split; [by apply in_set|split; [by apply in_set|exact Hd]]|]. intros x Hx. split; [done|]. intros _. by apply Hd.
Qed.

Lemma user_with_ok uid gid sg : id_ok uid -> id_ok gid -> user_ok (user_with uid gid sg).
Proof. intros Hu Hg. split; [done|]. split; [done|]. unfold groups_ok. cbn. unfold zlength. lia. Qed.

Lemma freq_with_ok uid gid sg g a : id_ok uid -> id_ok gid -> 0 <= g < 2 ^ 32 -> freq_ok (asks (user_with uid gid sg) g a).
Proof. intros Hu Hg Hr. split; [by apply user_with_ok|done]. Qed.

Lemma some_requests_ok : Forall freq_ok some_requests.
Proof. repeat constructor; try apply user_with_ok; unfold id_ok; cbn; try lia; done. Qed.

Lemma served_as_user_witness : exists tr s', serve_all multiuser some_requests (np_wthread_start 0 0 (root_kernel true : kern)) = Ret (tr, s') /\
  tr.*1.*1 = some_requests /\ Forall (served_right multiuser) tr.
Proof. exact (served_as_user multiuser 0 0 (root_kernel true : kern) some_requests eq_refl (root_started true) some_requests_ok). Defined.

(** What can be seen of a run: for every request, was it served, and the ids and groups
    of the thread then; and the error code in the end. *)
Definition outcome (r : res (list (freq * bool * kern) * fstate)) : option (list (bool * Z * Z * list Z) * Z) :=
  match r with
  | Ret (tr, s) => Some (map (fun t => (t.1.2, c_fsuid (creds_of t.2), c_fsgid (creds_of t.2), c_groups (creds_of t.2))) tr, f_err s)
  | _ => None
  end.

(** The requests are served, but for the one with a group that is not alice's. *)
Example some_requests_served : outcome (serve_all multiuser some_requests (np_wthread_start 0 0 (root_kernel true : kern))) =
  Some ([(true, 1000, 100, [100; 27]); (true, 1000, 27, [100; 27]); (false, 1000, 27, [100; 27]); (true, 1001, 101, [101]);
         (true, 0, 5, [0])], EPERM).
Proof. vm_compute. reflexivity. Qed.

Definition lost : fstate := {| wt_fsuid := NONUNAME; wt_fsgid := 100; wt_privcap := false; f_err := 0; f_kern := (root_kernel true : kern) |}.

Lemma lost_identity_refuses_witness : exists tr s', serve_all multiuser some_requests lost = Ret (tr, s') /\
  tr.*1.*1 = some_requests /\ Forall (fun t => t.1.2 = false) tr /\ dead s'.
Proof. exact (lost_identity_refuses multiuser lost some_requests eq_refl (or_introl eq_refl) some_requests_ok). Defined.

(** What the guarantees of [np_setfsid] need, and what it does not give.  A server
    that may not change its ids serves the first request of a user in its own
    identity, and refuses the second one without an error code.  The groups of a
    user whose membership has changed stay the old ones until the thread serves
    somebody else.  One failed setgroups makes the thread refuse even root. *)
Theorem setfsid_limits :
  outcome (serve_all SRV_FLAGS_SETFSID [asks alice NONUNAME NONUNAME; asks bob NONUNAME NONUNAME] (np_wthread_start 500 500 (plain_kernel : kern))) =
    Some ([(true, 500, 500, [500]); (false, 500, 500, [500])], 0) /\
  outcome (serve_all multiuser [asks alice NONUNAME NONUNAME; asks alice_moved NONUNAME NONUNAME] (np_wthread_start 0 0 (root_kernel true : kern))) =
    Some ([(true, 1000, 100, [100; 27]); (true, 1000, 100, [100; 27])], 0) /\
  outcome (serve_all multiuser [asks alice NONUNAME NONUNAME; asks (user_with 0 0 [0]) NONUNAME 0] (np_wthread_start 0 0 (root_kernel false : kern))) =
    Some ([(false, 1000, 100, [0]); (false, 0, 0, [0])], EPERM).
Proof. split; [|split]; vm_compute; reflexivity. Qed.

(** The user that the lookup of 1000 gives, and a thread that root started. *)
#[local] Existing Instance UserSample.sample_users.

Definition found_state : ustate := match np_uid2user multiuser 1000 UserSample.created with Ret (_, s) => s | _ => UserSample.created end.

Definition found_user : Npuser :=
  {| u_refcount := 2; u_uname := Some (pw_name UserSample.alice); u_uid := 1000; u_gid := 100; u_nsg := 2; u_sg := Some [100; 27]; u_next := None; u_t := 120 |}.

Definition root_thread : fstate := np_wthread_start 0 0 (root_kernel true : kern).

Definition found_thread : fstate :=
  match np_setfsid multiuser NONUNAME found_user NONUNAME root_thread with Ret (_, s) => s | _ => root_thread end.

Definition is_served (r : res (bool * fstate)) : bool := match r with Ret (b, _) => b | _ => false end.

Lemma found_served : np_setfsid multiuser NONUNAME found_user NONUNAME root_thread = Ret (true, found_thread).
Proof.
  assert (E : is_served (np_setfsid multiuser NONUNAME found_user NONUNAME root_thread) = true) by (vm_compute; reflexivity).
  unfold found_thread. destruct (np_setfsid multiuser NONUNAME found_user NONUNAME root_thread) as [[b s]| |]; [|discriminate..].
  cbn in E. by subst b.
Qed.

Lemma created_reached : reached multiuser [] UserSample.created.
Proof. exists (UserSample.started true), UserSample.created, []. split; [done|]. split; [done|]. split; [constructor|reflexivity]. Qed.

Lemma database_to_kernel_witness : c_fsuid (creds_of (f_kern found_thread)) = 1000 /\ c_groups (creds_of (f_kern found_thread)) = [100; 27].
Proof.
  destruct (database_to_kernel multiuser NONUNAME UserSample.sample_getpwuid [] UserSample.created 1000 1%positive found_state found_user
    root_thread NONUNAME found_thread) as (H1 & _ & _ & _ & H5).
  - exact created_reached.
  - vm_compute. reflexivity.
  - vm_compute. reflexivity.
  - reflexivity.
  - exact (start_alive multiuser 0 0 _ (root_started true)).
  - unfold id_ok. lia.
  - cbn. unfold id_ok. lia.
  - change NONUNAME with (2 ^ 32 - 1). lia.
  - exact found_served.
  - split; [exact H1|]. apply H5; [reflexivity|]. cbn. lia.
Defined.
End FsidSample.
