(* ===== verification/Lists.v ===== *)
(** * Lists with iterators (liblsd/list.c)

    The singly linked lists that the server keeps its configuration and exports in.
    Nodes are objects on a heap; the address of a pointer to a node, which the code
    uses to insert and remove, is a [slot]: the head of the list, or the [next] of a
    node.  An iterator keeps a node and a slot, and every insertion and removal
    repairs all iterators of the list.  Using memory that was freed is [UB], and a
    failed [assert] is [Abort].  The mutex and the magic numbers are left out. *)
From S2P Require Import Prelude Cbuf.
From stdpp Require Import list gmap.
#[local] Open Scope Z_scope.

Declare Scope lists_scope.
Delimit Scope lists_scope with lists.

Inductive slot := Head | Next (n : positive).

#[global] Instance slot_eq_dec : EqDecision slot.
Proof. solve_decision. Defined.

Section Lists.
(** What the list holds: pointers that are not [NULL]. *)
Context {D : Type}.

Record listNode := { n_data : D; n_next : option positive }.
Record listIterator := { i_pos : option positive; i_prev : slot }.

(** [ll_iters] is the chain of the iterators; [ll_deleted] are the items that the
    deletion function was called for.  [ll_fresh] and [ll_ifresh] name the next node and
    the next iterator that is allocated. *)
Record llist := {
  ll_nodes : gmap positive listNode;
  ll_fresh : positive;
  ll_ifresh : positive;
  ll_head : option positive;
  ll_tail : slot;
  ll_count : Z;
  ll_iters : list (positive * listIterator);
  ll_fDel : bool;
  ll_deleted : list D;
}.

Definition set_nodes v s := {| ll_nodes := v; ll_fresh := ll_fresh s; ll_ifresh := ll_ifresh s; ll_head := ll_head s; ll_tail := ll_tail s; ll_count := ll_count s; ll_iters := ll_iters s; ll_fDel := ll_fDel s; ll_deleted := ll_deleted s |}.
Definition set_lfresh v s := {| ll_nodes := ll_nodes s; ll_fresh := v; ll_ifresh := ll_ifresh s; ll_head := ll_head s; ll_tail := ll_tail s; ll_count := ll_count s; ll_iters := ll_iters s; ll_fDel := ll_fDel s; ll_deleted := ll_deleted s |}.
Definition set_ifresh v s := {| ll_nodes := ll_nodes s; ll_fresh := ll_fresh s; ll_ifresh := v; ll_head := ll_head s; ll_tail := ll_tail s; ll_count := ll_count s; ll_iters := ll_iters s; ll_fDel := ll_fDel s; ll_deleted := ll_deleted s |}.
Definition set_head v s := {| ll_nodes := ll_nodes s; ll_fresh := ll_fresh s; ll_ifresh := ll_ifresh s; ll_head := v; ll_tail := ll_tail s; ll_count := ll_count s; ll_iters := ll_iters s; ll_fDel := ll_fDel s; ll_deleted := ll_deleted s |}.
Definition set_tail v s := {| ll_nodes := ll_nodes s; ll_fresh := ll_fresh s; ll_ifresh := ll_ifresh s; ll_head := ll_head s; ll_tail := v; ll_count := ll_count s; ll_iters := ll_iters s; ll_fDel := ll_fDel s; ll_deleted := ll_deleted s |}.
Definition set_count v s := {| ll_nodes := ll_nodes s; ll_fresh := ll_fresh s; ll_ifresh := ll_ifresh s; ll_head := ll_head s; ll_tail := ll_tail s; ll_count := v; ll_iters := ll_iters s; ll_fDel := ll_fDel s; ll_deleted := ll_deleted s |}.
Definition set_iters v s := {| ll_nodes := ll_nodes s; ll_fresh := ll_fresh s; ll_ifresh := ll_ifresh s; ll_head := ll_head s; ll_tail := ll_tail s; ll_count := ll_count s; ll_iters := v; ll_fDel := ll_fDel s; ll_deleted := ll_deleted s |}.
Definition set_deleted v s := {| ll_nodes := ll_nodes s; ll_fresh := ll_fresh s; ll_ifresh := ll_ifresh s; ll_head := ll_head s; ll_tail := ll_tail s; ll_count := ll_count s; ll_iters := ll_iters s; ll_fDel := ll_fDel s; ll_deleted := v |}.

Definition LM (A : Type) : Type := llist -> res (A * llist).
Definition lret {A} (a : A) : LM A := fun s => Ret (a, s).
Definition lbind {A B} (c : LM A) (f : A -> LM B) : LM B := fun s => let! (a, s) := c s in f a s.
Definition llift {A} (c : res A) : LM A := fun s => let! a := c in Ret (a, s).
Definition lmodify (f : llist -> llist) : LM unit := fun s => Ret (tt, f s).
Definition lget {A} (f : llist -> A) : LM A := fun s => Ret (f s, s).
End Lists.
Arguments listNode : clear implicits.
Arguments llist : clear implicits.
Arguments LM : clear implicits.

Notation "'do' x <- c ; k" := (lbind c (fun x => k))
  (at level 100, x pattern, c at level 100, k at level 200, right associativity) : lists_scope.
#[local] Open Scope lists_scope.

Section Operations.
Context {D : Type}.

Definition list_create (fDel : bool) : llist D :=
  {| ll_nodes := ∅; ll_fresh := 1; ll_ifresh := 1; ll_head := None; ll_tail := Head; ll_count := 0; ll_iters := []; ll_fDel := fDel; ll_deleted := [] |}.

(** [n++] of an [int] *)
Definition int_succ (n : Z) : res Z := if n <? 2 ^ 31 - 1 then Ret (n + 1) else UB.

Definition load_node (n : positive) : LM D (listNode D) :=
  do m <- lget ll_nodes; llift (match m !! n with Some x => Ret x | None => UB end).

(** [*pp], and [*pp = v] *)
Definition read_slot (pp : slot) : LM D (option positive) :=
  match pp with
  | Head => lget ll_head
  | Next n => do x <- load_node n; lret (n_next x)
  end.

Definition write_slot (pp : slot) (v : option positive) : LM D unit :=
  match pp with
  | Head => lmodify (set_head v)
  | Next n => do x <- load_node n; lmodify (fun s => set_nodes (<[n := {| n_data := n_data x; n_next := v |}]> (ll_nodes s)) s)
  end.

Definition call_fDel (x : D) : LM D unit :=
  lmodify (fun s => if ll_fDel s then set_deleted (ll_deleted s ++ [x]) s else s).

(** The iterator of an insertion of [p], before [nxt], at [pp]. *)
Definition iter_create (pp : slot) (p : positive) (nxt : option positive) (i : listIterator) : listIterator :=
  if decide (i_prev i = pp) then {| i_pos := i_pos i; i_prev := Next p |}
  else if decide (i_pos i = nxt) then {| i_pos := Some p; i_prev := i_prev i |}
  else i.

(** [ok]: there was memory for the node. *)
Definition list_node_create (ok : bool) (pp : slot) (x : D) : LM D (option D) :=
  if negb ok then lret None
  else
    do p <- lget ll_fresh;
    do _ <- lmodify (set_lfresh (Pos.succ p));
    do nxt <- read_slot pp;
    do _ <- lmodify (fun s => set_nodes (<[p := {| n_data := x; n_next := nxt |}]> (ll_nodes s)) s);
    do _ <- (if nxt is None then lmodify (set_tail (Next p)) else lret tt);
    do _ <- write_slot pp (Some p);
    do count <- lget ll_count;
    do count <- llift (int_succ count);
    do _ <- lmodify (set_count count);
    do _ <- lmodify (fun s => set_iters (prod_map id (iter_create pp p nxt) <$> ll_iters s) s);
    lret (Some x).

(** The iterator of a removal of [p], before [nxt], at [pp]. *)
Definition iter_destroy (pp : slot) (p : positive) (nxt : option positive) (i : listIterator) : listIterator :=
  if decide (i_pos i = Some p) then {| i_pos := nxt; i_prev := pp |}
  else if decide (i_prev i = Next p) then {| i_pos := i_pos i; i_prev := pp |}
  else i.

(** [assert((i->pos == *i->prev) || (i->pos == ( *i->prev)->next))] *)
Definition assert_iter (i : listIterator) : LM D unit :=
  do a <- read_slot (i_prev i);
  if decide (i_pos i = a) then lret tt
  else
    do n <- llift (match a with Some n => Ret n | None => UB end);
    do x <- load_node n;
    llift (np_assert (bool_decide (i_pos i = n_next x))).

Fixpoint assert_iters (its : list (positive * listIterator)) : LM D unit :=
  match its with
  | [] => lret tt
  | (_, i) :: its => do _ <- assert_iter i; assert_iters its
  end.

Definition list_node_destroy (pp : slot) : LM D (option D) :=
  do o <- read_slot pp;
  match o with
  | None => lret None
  | Some p =>
      do x <- load_node p;
      do _ <- write_slot pp (n_next x);
      do _ <- (if n_next x is None then lmodify (set_tail pp) else lret tt);
      do _ <- lmodify (fun s => set_count (ll_count s - 1) s);
      do _ <- lmodify (fun s => set_iters (prod_map id (iter_destroy pp p (n_next x)) <$> ll_iters s) s);
      do its <- lget ll_iters;
      do _ <- assert_iters its;
      do _ <- lmodify (fun s => set_nodes (delete p (ll_nodes s)) s);
      lret (Some (n_data x))
  end.

(** ** The list as a sequence, a stack and a queue *)

Definition list_count : LM D Z := lget ll_count.
Definition list_is_empty : LM D bool := do n <- lget ll_count; lret (n =? 0).

Definition list_append (ok : bool) (x : D) : LM D (option D) := do pp <- lget ll_tail; list_node_create ok pp x.
Definition list_enqueue (ok : bool) (x : D) : LM D (option D) := do pp <- lget ll_tail; list_node_create ok pp x.
Definition list_prepend (ok : bool) (x : D) : LM D (option D) := list_node_create ok Head x.
Definition list_push (ok : bool) (x : D) : LM D (option D) := list_node_create ok Head x.
Definition list_pop : LM D (option D) := list_node_destroy Head.
Definition list_dequeue : LM D (option D) := list_node_destroy Head.

Definition list_peek : LM D (option D) :=
  do h <- lget ll_head;
  match h with
  | Some p => do x <- load_node p; lret (Some (n_data x))
  | None => lret None
  end.

(** No list is longer than the number of nodes that there ever were. *)
Definition list_fuel : LM D nat := lget (fun s => Pos.to_nat (ll_fresh s)).

Fixpoint find_loop (fuel : nat) (f : D -> bool) (o : option positive) : LM D (option D) :=
  match fuel, o with
  | _, None => lret None
  | O, Some _ => llift UB
  | S fuel, Some p => do x <- load_node p; if f (n_data x) then lret (Some (n_data x)) else find_loop fuel f (n_next x)
  end.

Definition list_find_first (f : D -> bool) : LM D (option D) :=
  do h <- lget ll_head; do n <- list_fuel; find_loop n f h.

Fixpoint delete_loop (fuel : nat) (f : D -> bool) (pp : slot) (n : Z) : LM D Z :=
  do o <- read_slot pp;
  match fuel, o with
  | _, None => lret n
  | O, Some _ => llift UB
  | S fuel, Some p =>
      do x <- load_node p;
      if f (n_data x) then
        do v <- list_node_destroy pp;
        match v with
        | Some v => do _ <- call_fDel v; do n <- llift (int_succ n); delete_loop fuel f pp n
        | None => delete_loop fuel f pp n
        end
      else delete_loop fuel f (Next p) n
  end.

Definition list_delete_all (f : D -> bool) : LM D Z := do n <- list_fuel; delete_loop n f Head 0.

Fixpoint each_loop (fuel : nat) (f : D -> Z) (o : option positive) (n : Z) : LM D Z :=
  match fuel, o with
  | _, None => lret n
  | O, Some _ => llift UB
  | S fuel, Some p =>
      do x <- load_node p;
      do n <- llift (int_succ n);
      if f (n_data x) <? 0 then lret (- n) else each_loop fuel f (n_next x) n
  end.

Definition list_for_each (f : D -> Z) : LM D Z := do h <- lget ll_head; do n <- list_fuel; each_loop n f h 0.

Fixpoint free_loop (fuel : nat) (o : option positive) : LM D unit :=
  match fuel, o with
  | _, None => lret tt
  | O, Some _ => llift UB
  | S fuel, Some p =>
      do x <- load_node p;
      do _ <- call_fDel (n_data x);
      do _ <- lmodify (fun s => set_nodes (delete p (ll_nodes s)) s);
      free_loop fuel (n_next x)
  end.

(** The list itself is freed last. *)
Definition list_destroy : LM D unit :=
  do _ <- lmodify (set_iters []);
  do h <- lget ll_head;
  do n <- list_fuel;
  free_loop n h.

(** ** Sorting *)

Context (cmp : D -> D -> Z).

Definition data_at (pp : slot) : LM D D :=
  do o <- read_slot pp;
  do n <- llift (match o with Some n => Ret n | None => UB end);
  do x <- load_node n; lret (n_data x).

(** [&( *pp)->next] *)
Definition next_slot (pp : slot) : LM D slot :=
  do o <- read_slot pp; llift (match o with Some n => Ret (Next n) | None => UB end).

Fixpoint find_pos (fuel : nat) (y : D) (ppPos : slot) : LM D slot :=
  do z <- data_at ppPos;
  if cmp y z <? 0 then lret ppPos
  else match fuel with
       | O => llift UB
       | S fuel => do ppPos <- next_slot ppPos; find_pos fuel y ppPos
       end.

Fixpoint sort_loop (fuel : nat) (ppPrev pp : slot) : LM D slot :=
  do o <- read_slot pp;
  match fuel, o with
  | _, None => lret pp
  | O, Some _ => llift UB
  | S fuel, Some p =>
      do y <- data_at pp;
      do x <- data_at ppPrev;
      if cmp y x <? 0 then
        do n <- list_fuel;
        do ppPos <- find_pos n y Head;
        do pTmp <- read_slot (Next p);
        do at_pos <- read_slot ppPos;
        do _ <- write_slot (Next p) at_pos;
        do _ <- write_slot ppPos (Some p);
        do _ <- write_slot pp pTmp;
        do ppPrev <- (if decide (ppPrev = ppPos) then next_slot ppPrev else lret ppPrev);
        sort_loop fuel ppPrev pp
      else sort_loop fuel pp (Next p)
  end.

Definition list_sort : LM D unit :=
  do count <- lget ll_count;
  if 1 <? count then
    do pp <- next_slot Head;
    do n <- list_fuel;
    do tail <- sort_loop n Head pp;
    do _ <- lmodify (set_tail tail);
    lmodify (fun s => set_iters (prod_map id (fun _ => {| i_pos := ll_head s; i_prev := Head |}) <$> ll_iters s) s)
  else lret tt.

(** ** Iterators *)

Definition list_iterator_create (ok : bool) : LM D (option positive) :=
  if negb ok then lret None
  else
    do i <- lget ll_ifresh;
    do _ <- lmodify (set_ifresh (Pos.succ i));
    do _ <- lmodify (fun s => set_iters ((i, {| i_pos := ll_head s; i_prev := Head |}) :: ll_iters s) s);
    lret (Some i).

Fixpoint assoc_get {A} (i : positive) (l : list (positive * A)) : option A :=
  match l with
  | [] => None
  | (j, x) :: l => if decide (i = j) then Some x else assoc_get i l
  end.

Fixpoint assoc_set {A} (i : positive) (v : A) (l : list (positive * A)) : list (positive * A) :=
  match l with
  | [] => []
  | (j, x) :: l => if decide (i = j) then (j, v) :: l else (j, x) :: assoc_set i v l
  end.

Fixpoint assoc_del {A} (i : positive) (l : list (positive * A)) : list (positive * A) :=
  match l with
  | [] => []
  | (j, x) :: l => if decide (i = j) then l else (j, x) :: assoc_del i l
  end.

Definition load_iter (i : positive) : LM D listIterator :=
  do its <- lget ll_iters; llift (match assoc_get i its with Some x => Ret x | None => UB end).
Definition store_iter (i : positive) (x : listIterator) : LM D unit := lmodify (fun s => set_iters (assoc_set i x (ll_iters s)) s).

Definition list_iterator_reset (i : positive) : LM D unit :=
  do _ <- load_iter i;
  do h <- lget ll_head;
  store_iter i {| i_pos := h; i_prev := Head |}.

Definition list_iterator_destroy (i : positive) : LM D unit :=
  do _ <- load_iter i; lmodify (fun s => set_iters (assoc_del i (ll_iters s)) s).

Definition list_next (i : positive) : LM D (option D) :=
  do x <- load_iter i;
  let p := i_pos x in
  do pos <- match p with Some n => do y <- load_node n; lret (n_next y) | None => lret p end;
  do a <- read_slot (i_prev x);
  do prev <- (if decide (a = p) then lret (i_prev x) else next_slot (i_prev x));
  do _ <- store_iter i {| i_pos := pos; i_prev := prev |};
  match p with Some n => do y <- load_node n; lret (Some (n_data y)) | None => lret None end.

Definition list_insert (ok : bool) (i : positive) (x : D) : LM D (option D) :=
  do it <- load_iter i; list_node_create ok (i_prev it) x.

Fixpoint find_next (fuel : nat) (f : D -> bool) (i : positive) : LM D (option D) :=
  do v <- list_next i;
  match fuel, v with
  | _, None => lret None
  | O, Some _ => llift UB
  | S fuel, Some x => if f x then lret (Some x) else find_next fuel f i
  end.

Definition list_find (f : D -> bool) (i : positive) : LM D (option D) := do n <- list_fuel; find_next n f i.

Definition list_remove (i : positive) : LM D (option D) :=
  do it <- load_iter i;
  do a <- read_slot (i_prev it);
  if decide (a = i_pos it) then lret None else list_node_destroy (i_prev it).

Definition list_delete (i : positive) : LM D Z :=
  do v <- list_remove i;
  match v with
  | Some v => do _ <- call_fDel v; lret 1
  | None => lret 0
  end.
End Operations.
