(* ===== verification/ListsSpec.v ===== *)
(** * Lists are sequences with cursors (liblsd/list.c)

    The abstract list is a sequence of items, with iterators that are places in it;
    the lists of nodes and pointers refine it. *)
From S2P Require Import Prelude Cbuf.
From stdpp Require Import list gmap.
From S2P Require Import Lists.
#[local] Open Scope lists_scope.

(** ** Insertion into sequences *)

Definition ins {A} (m : nat) (x : A) (l : list A) : list A := take m l ++ x :: drop m l.

Lemma ins_length {A} m (x : A) l : (m <= length l)%nat -> length (ins m x l) = S (length l).
Proof. intros Hm. unfold ins. rewrite length_app, length_take. cbn. rewrite length_drop. lia. Qed.

Lemma ins_lookup {A} m (x : A) l i : (m <= length l)%nat ->
  ins m x l !! i = if decide (i < m)%nat then l !! i else if decide (i = m) then Some x else l !! Nat.pred i.
Proof.
  intros Hm. unfold ins. destruct (decide (i < m)%nat) as [Hi|Hi].
  - rewrite lookup_app_l by (rewrite length_take; lia). by rewrite lookup_take_lt.
  - rewrite lookup_app_r by (rewrite length_take; lia). rewrite length_take, Nat.min_l by lia.
    destruct (decide (i = m)) as [->|Hne]; [by rewrite Nat.sub_diag|].
    destruct (i - m)%nat as [|k] eqn:E; [lia|]. change ((x :: drop m l) !! S k) with (drop m l !! k).
    rewrite lookup_drop. f_equal. lia.
Qed.

Lemma elem_of_ins {A} m (x y : A) l : y ∈ ins m x l <-> y = x \/ y ∈ l.
Proof.
  unfold ins. rewrite elem_of_app, elem_of_cons. rewrite <- (take_drop m l) at 3. rewrite elem_of_app. tauto.
Qed.

Lemma NoDup_ins {A} m (x : A) l : NoDup l -> x ∉ l -> NoDup (ins m x l).
Proof. intros Hn Hx. unfold ins. rewrite <- Permutation_middle, take_drop. by apply NoDup_cons. Qed.

Lemma elem_of_delete_in {A} m (x y : A) l : NoDup l -> l !! m = Some x -> (y ∈ delete m l <-> y ∈ l /\ y <> x).
Proof.
  intros Hn Hm. pose proof (delete_Permutation l m x Hm) as Hp. assert (Hn' : NoDup (x :: delete m l)) by (by rewrite <- Hp).
  apply NoDup_cons in Hn' as [Hx _]. assert (He : y ∈ l <-> y ∈ x :: delete m l) by (by rewrite <- Hp).
  rewrite He, elem_of_cons. split; [intros Hy; split; [by right|by intros ->]|]. intros [[->|] Hne]; done.
Qed.

Lemma NoDup_delete {A} m (x : A) l : NoDup l -> l !! m = Some x -> NoDup (delete m l).
Proof. intros Hn Hm. rewrite (delete_Permutation l m x Hm) in Hn. by apply NoDup_cons in Hn as [_ Hn]. Qed.

(** ** Links *)

Section Links.
Context {D : Type}.

(** The address of the pointer to node [m]. *)
Definition slot_at (ns : list positive) (m : nat) : slot :=
  match m with
  | O => Head
  | S m => match ns !! m with Some n => Next n | None => Head end
  end.

(** The head and the nodes. *)
Abbreviation links_t := (option positive * gmap positive (listNode D))%type (only parsing).

Definition store (pp : slot) (v : option positive) (g : links_t) : links_t :=
  match pp with
  | Head => (v, g.2)
  | Next n => (g.1, alter (fun x => {| n_data := n_data x; n_next := v |}) n g.2)
  end.

Definition node (x : D) (v : option positive) : listNode D := {| n_data := x; n_next := v |}.

(** The nodes [ns] are linked in their order, and hold the items. *)
Record links (ns : list positive) (xs : list D) (g : links_t) : Prop := {
  k_nodup : NoDup ns;
  k_len : length ns = length xs;
  k_head : g.1 = ns !! O;
  k_node : forall i n x, ns !! i = Some n -> xs !! i = Some x -> g.2 !! n = Some (node x (ns !! S i));
}.

Lemma slot_at_inj ns i j : NoDup ns -> (i <= length ns)%nat -> (j <= length ns)%nat -> slot_at ns i = slot_at ns j -> i = j.
Proof.
  intros Hn Hi Hj. destruct i as [|i], j as [|j]; cbn; try done.
  - destruct (lookup_lt_is_Some_2 ns j) as [n ->]; [lia|done].
  - destruct (lookup_lt_is_Some_2 ns i) as [n ->]; [lia|done].
  - destruct (lookup_lt_is_Some_2 ns i) as [n En]; [lia|]. destruct (lookup_lt_is_Some_2 ns j) as [n' En']; [lia|].
    rewrite En, En'. intros [= ->]. f_equal. by eapply NoDup_lookup.
Qed.

Lemma links_insert ns xs g m p x : links ns xs g -> p ∉ ns -> (m <= length ns)%nat ->
  links (ins m p ns) (ins m x xs) (store (slot_at ns m) (Some p) (g.1, <[p := node x (ns !! m)]> g.2)).
Proof.
  intros [Hn Hl Hh Hk] Hp Hm. split.
  - by apply NoDup_ins.
  - rewrite !ins_length by lia. by rewrite Hl.
  - rewrite ins_lookup by done. destruct m as [|m]; [done|]. rewrite decide_True by lia. cbn [slot_at].
    destruct (lookup_lt_is_Some_2 ns m) as [w ->]; [lia|exact Hh].
  - intros i n y En Ey. rewrite ins_lookup in En by lia. rewrite ins_lookup in Ey by lia. rewrite ins_lookup by done.
    destruct m as [|m]; cbn [slot_at].
    + cbn [store snd]. destruct (decide (i < 0)%nat); [lia|]. destruct (decide (S i < 0)%nat); [lia|].
      destruct (decide (S i = 0)%nat); [lia|]. cbn [Nat.pred]. destruct (decide (i = 0)%nat) as [->|Hne].
      * injection En as <-. injection Ey as <-. rewrite lookup_insert_eq. done.
      * destruct i as [|i]; [done|]. cbn [Nat.pred] in *. rewrite lookup_insert_ne; [by apply Hk|].
        intros <-. apply Hp, list_elem_of_lookup. by exists i.
    + destruct (lookup_lt_is_Some_2 ns m) as [w Ew]; [lia|]. rewrite Ew. cbn [store snd].
      assert (Hwp : w <> p) by (intros ->; apply Hp, list_elem_of_lookup; by exists m).
      rewrite alter_insert_ne by done.
      destruct (decide (i = S m)) as [->|Hne].
      * rewrite decide_False in En by lia. rewrite decide_False in Ey by lia. injection En as <-. injection Ey as <-.
        rewrite lookup_insert_eq. rewrite decide_False, decide_False by lia. done.
      * assert (Hnp : n <> p) by (intros ->; apply Hp, list_elem_of_lookup; destruct (decide (i < S m)%nat); eauto).
        rewrite lookup_insert_ne by done. destruct (decide (i < S m)%nat) as [Hlt|Hge].
        -- destruct (decide (i = m)) as [->|Hnm].
           ++ rewrite Ew in En. injection En as <-. rewrite lookup_alter_eq, (Hk m w y Ew Ey). cbn.
              rewrite decide_False by lia. by rewrite decide_True.
           ++ rewrite lookup_alter_ne by (intros <-; apply Hnm; symmetry; by eapply NoDup_lookup).
              rewrite decide_True by lia. by apply Hk.
        -- rewrite lookup_alter_ne.
           2:{ intros <-. assert (Nat.pred i = m) by (by eapply NoDup_lookup). lia. }
           rewrite !decide_False by lia. destruct i as [|i]; [lia|]. cbn [Nat.pred] in *. by apply Hk.
Qed.

Lemma links_remove ns xs g m p : links ns xs g -> ns !! m = Some p ->
  links (delete m ns) (delete m xs) (store (slot_at ns m) (ns !! S m) g).
Proof.
  intros [Hn Hl Hh Hk] Hp. pose proof (lookup_lt_Some _ _ _ Hp) as Hm. split.
  - by eapply NoDup_delete.
  - destruct (lookup_lt_is_Some_2 xs m) as [x Ex]; [lia|]. rewrite !length_delete by eauto. by rewrite Hl.
  - rewrite list_lookup_delete. destruct m as [|m]; [done|]. rewrite decide_True by lia. cbn [slot_at].
    destruct (lookup_lt_is_Some_2 ns m) as [w ->]; [lia|exact Hh].
  - intros i n x En Ex. rewrite list_lookup_delete in En. rewrite list_lookup_delete in Ex.
    assert (HS : delete m ns !! S i = ns !! (if decide (S i < m)%nat then S i else S (S i))) by apply list_lookup_delete.
    destruct m as [|m]; cbn [slot_at].
    + cbn [store snd]. rewrite HS. by apply Hk.
    + destruct (lookup_lt_is_Some_2 ns m) as [w Ew]; [lia|]. rewrite Ew. cbn [store snd].
      destruct (decide (i = m)) as [->|Hne].
      * rewrite decide_True in En by lia. rewrite decide_True in Ex by lia. rewrite Ew in En. injection En as <-.
        rewrite lookup_alter_eq, (Hk m w x Ew Ex), HS, decide_False by lia. done.
      * rewrite lookup_alter_ne, HS.
        2:{ intros <-. destruct (decide (i < S m)%nat); [apply Hne; by eapply NoDup_lookup|].
            assert (S i = m) by (by eapply NoDup_lookup). lia. }
        destruct (decide (i < S m)%nat), (decide (S i < S m)%nat); try lia; by apply Hk.
Qed.

Lemma links_delete ns xs h g p : links ns xs (h, g) -> p ∉ ns -> links ns xs (h, delete p g).
Proof.
  intros [Hn Hl Hh Hk] Hp. split; [done..|]. cbn. intros i n x En Ex. rewrite lookup_delete_ne; [by apply Hk|].
  intros ->. apply Hp, list_elem_of_lookup. by exists i.
Qed.

(** ** Cursors *)

Definition cursor_of (ns : list positive) (c : nat * bool) : listIterator :=
  {| i_pos := ns !! (if c.2 then S c.1 else c.1); i_prev := slot_at ns c.1 |}.

Definition valid_cursor (n : nat) (c : nat * bool) : Prop := if c.2 then (c.1 < n)%nat else (c.1 <= n)%nat.

(** Where a cursor is after an insertion, and after a removal, at [m]. *)
Definition shift_ins (m : nat) (c : nat * bool) : nat * bool := if (m <=? c.1)%nat then (S c.1, c.2) else c.
Definition shift_del (m : nat) (c : nat * bool) : nat * bool :=
  if (c.1 =? m)%nat || (c.2 && (S c.1 =? m)%nat) then (m, false) else if (m <? c.1)%nat then (Nat.pred c.1, c.2) else c.

Lemma slot_at_ins ns m p j : (m <= length ns)%nat -> (j <= length ns)%nat ->
  slot_at (ins m p ns) (if (m <=? j)%nat then S j else j) = if decide (j = m) then Next p else slot_at ns j.
Proof.
  intros Hm Hj. destruct (Nat.leb_spec m j); cbn [slot_at].
  - rewrite ins_lookup by done. rewrite decide_False by lia. destruct (decide (j = m)); [done|]. destruct j; [lia|done].
  - rewrite decide_False by lia. destruct j as [|j]; [done|]. cbn [slot_at]. rewrite ins_lookup by done. by rewrite decide_True by lia.
Qed.

Lemma slot_at_del ns m j : (j <= length ns)%nat -> slot_at (delete m ns) (if (m <? j)%nat then Nat.pred j else j) =
  if decide (j = S m) then slot_at ns m else slot_at ns j.
Proof.
  intros Hj. destruct (Nat.ltb_spec m j).
  - destruct j as [|j]; [lia|]. cbn [Nat.pred]. destruct (decide (S j = S m)) as [[= ->]|Hne].
    + destruct m as [|m]; [done|]. cbn [slot_at]. by rewrite list_lookup_delete_lt by lia.
    + destruct j as [|j]; [lia|]. cbn [slot_at]. by rewrite list_lookup_delete_ge by lia.
  - rewrite decide_False by lia. destruct j as [|j]; [done|]. cbn [slot_at]. by rewrite list_lookup_delete_lt by lia.
Qed.

Lemma lookup_same {A} (l : list A) i j : NoDup l -> (i <= length l)%nat -> (j <= length l)%nat -> l !! i = l !! j -> i = j.
Proof.
  intros Hn Hi Hj He. destruct (l !! i) as [x|] eqn:E; [by eapply NoDup_lookup|]. symmetry in He.
  apply lookup_ge_None in E, He. lia.
Qed.

Lemma cursor_ins ns m p c : NoDup ns -> (m <= length ns)%nat -> valid_cursor (length ns) c ->
  iter_create (slot_at ns m) p (ns !! m) (cursor_of ns c) = cursor_of (ins m p ns) (shift_ins m c).
Proof.
  intros Hn Hm Hv. destruct c as [j b]. unfold cursor_of, shift_ins, iter_create. cbn [fst snd i_prev i_pos] in *.
  assert (Hj : (j <= length ns)%nat) by (destruct b; cbn in Hv; lia).
  assert (Hk : ((if b then S j else j) <= length ns)%nat) by (destruct b; cbn in Hv; lia).
  pose proof (slot_at_ins ns m p j Hm Hj) as Hs.
  destruct (decide (slot_at ns j = slot_at ns m)) as [He|He].
  - apply slot_at_inj in He as ->; [|done..]. rewrite Nat.leb_refl in *. cbn [fst snd] in *. rewrite Hs, decide_True by done.
    f_equal. destruct b; rewrite ins_lookup by done; rewrite !decide_False by lia; done.
  - assert (Hne : j <> m) by congruence. rewrite decide_False in Hs by done.
    destruct (decide (_ = ns !! m)) as [Hp|Hp].
    + apply lookup_same in Hp; [|done..]. destruct b; [|done]. subst m. destruct (Nat.leb_spec (S j) j); [lia|]. cbn [fst snd] in *.
      rewrite Hs. f_equal. rewrite ins_lookup by done. rewrite decide_False by lia. by rewrite decide_True.
    + assert (Hkm : (if b then S j else j) <> m) by congruence.
      destruct (Nat.leb_spec m j); cbn [fst snd] in *; rewrite Hs; f_equal; destruct b; rewrite ins_lookup by done.
      all: try (rewrite !decide_False by lia; done). all: rewrite decide_True by lia; done.
Qed.

Lemma cursor_del ns m p c : NoDup ns -> ns !! m = Some p -> valid_cursor (length ns) c ->
  iter_destroy (slot_at ns m) p (ns !! S m) (cursor_of ns c) = cursor_of (delete m ns) (shift_del m c).
Proof.
  intros Hn Hp Hv. destruct c as [j b]. unfold cursor_of, shift_del, iter_destroy. cbn [fst snd i_prev i_pos] in *.
  assert (Hj : (j <= length ns)%nat) by (destruct b; cbn in Hv; lia). pose proof (lookup_lt_Some _ _ _ Hp) as Hm.
  assert (Hk : ((if b then S j else j) <= length ns)%nat) by (destruct b; cbn in Hv; lia).
  assert (Hsm : slot_at (delete m ns) m = slot_at ns m).
  { pose proof (slot_at_del ns m m) as Hs. rewrite Nat.ltb_irrefl in Hs. rewrite Hs by lia. by rewrite decide_False by lia. }
  assert (Hnm : delete m ns !! m = ns !! S m) by (by apply list_lookup_delete_ge).
  assert (HN : Next p = slot_at ns (S m)) by (cbn [slot_at]; by rewrite Hp). rewrite HN, <- Hp.
  destruct (decide (ns !! (if b then S j else j) = ns !! m)) as [He|He].
  - apply lookup_same in He; [|done|done|lia]. replace ((j =? m)%nat || (b && (S j =? m)%nat)) with true.
    { cbn [fst snd]. by rewrite Hsm, Hnm. }
    symmetry. destruct b; subst m; rewrite Nat.eqb_refl; [by rewrite orb_true_r|done].
  - assert (Hkm : (if b then S j else j) <> m) by congruence.
    destruct (Nat.eqb_spec j m) as [->|Hne].
    + cbn [orb]. destruct b; [|done]. cbn [fst snd]. rewrite Hsm, Hnm. rewrite decide_False; [done|].
      intros Hs. apply slot_at_inj in Hs; [lia|done|lia|lia].
    + replace (false || (b && (S j =? m)%nat)) with false.
      2:{ cbn [orb]. destruct b; [|done]. symmetry. by apply Nat.eqb_neq. }
      pose proof (slot_at_del ns m j Hj) as Hs.
      destruct (decide (slot_at ns j = slot_at ns (S m))) as [Hd|Hd].
      * apply slot_at_inj in Hd as ->; [|done|lia|lia]. rewrite decide_True in Hs by done.
        replace (m <? S m)%nat with true in * by (symmetry; apply Nat.ltb_lt; lia). cbn [fst snd Nat.pred] in *. rewrite Hs. f_equal.
        destruct b; by rewrite list_lookup_delete_ge by lia.
      * rewrite decide_False in Hs by congruence. destruct (Nat.ltb_spec m j); cbn [fst snd]; rewrite Hs; f_equal.
        -- destruct j as [|j]; [lia|]. cbn [Nat.pred]. destruct b; by rewrite list_lookup_delete_ge by lia.
        -- destruct b; by rewrite list_lookup_delete_lt by lia.
Qed.
End Links.
