(* ===== verification/ListsRun.v ===== *)
(** * The operations of lists refine operations on sequences (liblsd/list.c) *)
From S2P Require Import Prelude Cbuf.
From stdpp Require Import list gmap.
From S2P Require Import Lists ListsSpec.
#[local] Open Scope lists_scope.

Section Abstract.
Context {D : Type}.

(** The items; the iterators, an iterator [(j, b)] standing before item [j] with, when
    [b], item [j] as its current one; the items given to the deletion function. *)
Record alist := {
  al_items : list D;
  al_iters : list (positive * (nat * bool));
  al_next : positive;
  al_fDel : bool;
  al_deleted : list D;
}.

Definition al_create (fDel : bool) : alist := {| al_items := []; al_iters := []; al_next := 1; al_fDel := fDel; al_deleted := [] |}.

Definition with_items (items : list D) (move : nat * bool -> nat * bool) (a : alist) : alist :=
  {| al_items := items; al_iters := prod_map id move <$> al_iters a; al_next := al_next a; al_fDel := al_fDel a; al_deleted := al_deleted a |}.
Definition with_iters (its : list (positive * (nat * bool))) (a : alist) : alist :=
  {| al_items := al_items a; al_iters := its; al_next := al_next a; al_fDel := al_fDel a; al_deleted := al_deleted a |}.
Definition al_fdel (x : D) (a : alist) : alist :=
  {| al_items := al_items a; al_iters := al_iters a; al_next := al_next a; al_fDel := al_fDel a;
     al_deleted := if al_fDel a then al_deleted a ++ [x] else al_deleted a |}.

Definition al_insert (m : nat) (x : D) (a : alist) : alist := with_items (ins m x (al_items a)) (shift_ins m) a.
Definition al_remove (m : nat) (a : alist) : alist := with_items (delete m (al_items a)) (shift_del m) a.

Fixpoint al_sweep (f : D -> bool) (m : nat) (todo : list D) (a : alist) : alist :=
  match todo with
  | [] => a
  | x :: todo => if f x then al_sweep f m todo (al_fdel x (al_remove m a)) else al_sweep f (S m) todo a
  end.

Fixpoint al_each (f : D -> Z) (n : Z) (l : list D) : Z :=
  match l with
  | [] => n
  | x :: l => if (f x <? 0)%Z then (- (n + 1))%Z else al_each f (n + 1) l
  end.

(** [y] before the first item that it precedes, and insertion sort *)
Fixpoint place (cmp : D -> D -> Z) (y : D) (l : list D) : list D :=
  match l with
  | [] => [y]
  | z :: l' => if (cmp y z <? 0)%Z then y :: l else z :: place cmp y l'
  end.

Definition sort_step (cmp : D -> D -> Z) (acc : list D) (y : D) : list D :=
  match last acc with
  | Some z => if (cmp y z <? 0)%Z then place cmp y acc else acc ++ [y]
  | None => [y]
  end.

Definition sorted_by (cmp : D -> D -> Z) (l : list D) : list D := foldl (sort_step cmp) [] l.

(** The first item from [k] on that [f] holds of, and where an iterator that looked for it is. *)
Fixpoint al_find (f : D -> bool) (k : nat) (l : list D) : option D * (nat * bool) :=
  match l with
  | [] => (None, (k, false))
  | x :: l => if f x then (Some x, (k, true)) else al_find f (S k) l
  end.

Definition after (c : nat * bool) : nat := if c.2 then S c.1 else c.1.

(** ** Calls *)

Inductive op :=
  | Append (ok : bool) (x : D) | Enqueue (ok : bool) (x : D) | Prepend (ok : bool) (x : D) | Push (ok : bool) (x : D)
  | Pop | Dequeue | Peek | Count | IsEmpty
  | FindFirst (f : D -> bool) | DeleteAll (f : D -> bool) | ForEach (f : D -> Z) | Sort (cmp : D -> D -> Z)
  | IterCreate (ok : bool) | IterReset (i : positive) | IterDestroy (i : positive)
  | NextItem (i : positive) | Insert (ok : bool) (i : positive) (x : D) | Find (f : D -> bool) (i : positive)
  | Remove (i : positive) | Delete (i : positive).

Inductive answer := AData (v : option D) | AInt (n : Z) | ABool (b : bool) | AIter (i : option positive) | AUnit.

Definition call (o : op) : LM D answer :=
  match o with
  | Append ok x => do v <- list_append ok x; lret (AData v)
  | Enqueue ok x => do v <- list_enqueue ok x; lret (AData v)
  | Prepend ok x => do v <- list_prepend ok x; lret (AData v)
  | Push ok x => do v <- list_push ok x; lret (AData v)
  | Pop => do v <- list_pop; lret (AData v)
  | Dequeue => do v <- list_dequeue; lret (AData v)
  | Peek => do v <- list_peek; lret (AData v)
  | Count => do n <- list_count; lret (AInt n)
  | IsEmpty => do b <- list_is_empty; lret (ABool b)
  | FindFirst f => do v <- list_find_first f; lret (AData v)
  | DeleteAll f => do n <- list_delete_all f; lret (AInt n)
  | ForEach f => do n <- list_for_each f; lret (AInt n)
  | Sort cmp => do _ <- list_sort cmp; lret AUnit
  | IterCreate ok => do i <- list_iterator_create ok; lret (AIter i)
  | IterReset i => do _ <- list_iterator_reset i; lret AUnit
  | IterDestroy i => do _ <- list_iterator_destroy i; lret AUnit
  | NextItem i => do v <- list_next i; lret (AData v)
  | Insert ok i x => do v <- list_insert ok i x; lret (AData v)
  | Find f i => do v <- list_find f i; lret (AData v)
  | Remove i => do v <- list_remove i; lret (AData v)
  | Delete i => do n <- list_delete i; lret (AInt n)
  end.

Fixpoint calls (ops : list op) : LM D (list answer) :=
  match ops with
  | [] => lret []
  | o :: ops => do r <- call o; do rs <- calls ops; lret (r :: rs)
  end.

Definition put (ok : bool) (m : nat) (x : D) (a : alist) : answer * alist :=
  if ok then (AData (Some x), al_insert m x a) else (AData None, a).

Definition take_out (m : nat) (a : alist) : option D * alist :=
  match al_items a !! m with Some x => (Some x, al_remove m a) | None => (None, a) end.

(** What a call does to a sequence with cursors; there is no value for an iterator that
    does not exist. *)
Definition meaning (o : op) (a : alist) : option (answer * alist) :=
  let l := al_items a in
  match o with
  | Append ok x | Enqueue ok x => Some (put ok (length l) x a)
  | Prepend ok x | Push ok x => Some (put ok 0 x a)
  | Pop | Dequeue => Some (prod_map AData id (take_out 0 a))
  | Peek => Some (AData (head l), a)
  | Count => Some (AInt (Z.of_nat (length l)), a)
  | IsEmpty => Some (ABool (bool_decide (l = [])), a)
  | FindFirst f => Some (AData (List.find f l), a)
  | DeleteAll f => Some (AInt (Z.of_nat (length (List.filter f l))), al_sweep f 0 l a)
  | ForEach f => Some (AInt (al_each f 0 l), a)
  | Sort cmp => Some (AUnit, if decide (1 < length l)%nat then with_items (sorted_by cmp l) (fun _ => (O, false)) a else a)
  | IterCreate ok =>
      Some (if ok then (AIter (Some (al_next a)),
        {| al_items := l; al_iters := (al_next a, (O, false)) :: al_iters a; al_next := Pos.succ (al_next a);
           al_fDel := al_fDel a; al_deleted := al_deleted a |}) else (AIter None, a))
  | IterReset i => (fun _ => (AUnit, with_iters (assoc_set i (O, false) (al_iters a)) a)) <$> assoc_get i (al_iters a)
  | IterDestroy i => (fun _ => (AUnit, with_iters (assoc_del i (al_iters a)) a)) <$> assoc_get i (al_iters a)
  | NextItem i => (fun c : nat * bool => let v := l !! after c in
      (AData v, with_iters (assoc_set i (after c, if v is Some _ then true else false) (al_iters a)) a)) <$> assoc_get i (al_iters a)
  | Insert ok i x => (fun c : nat * bool => put ok c.1 x a) <$> assoc_get i (al_iters a)
  | Find f i => (fun c : nat * bool => let r := al_find f (after c) (drop (after c) l) in
      (AData r.1, with_iters (assoc_set i r.2 (al_iters a)) a)) <$> assoc_get i (al_iters a)
  | Remove i => (fun c : nat * bool => if c.2 then prod_map AData id (take_out c.1 a) else (AData None, a)) <$> assoc_get i (al_iters a)
  | Delete i => (fun c : nat * bool => match if c.2 then take_out c.1 a else (None, a) with
      | (Some x, a') => (AInt 1, al_fdel x a')
      | (None, a') => (AInt 0, a')
      end) <$> assoc_get i (al_iters a)
  end.

Fixpoint meanings (ops : list op) (a : alist) : option (list answer * alist) :=
  match ops with
  | [] => Some ([], a)
  | o :: ops => '(r, a) ← meaning o a; '(rs, a) ← meanings ops a; Some (r :: rs, a)
  end.
End Abstract.
Arguments alist : clear implicits.
Arguments op : clear implicits.
Arguments answer : clear implicits.

(** ** The lists that stand for a sequence *)

Section Run.
Context {D : Type}.
Implicit Types (s : llist D) (a : alist D) (ns : list positive).

Record rep ns a s : Prop := {
  r_links : links ns (al_items a) (ll_head s, ll_nodes s);
  r_only : forall n, is_Some (ll_nodes s !! n) -> n ∈ ns;
  r_fresh : forall n, n ∈ ns -> (n < ll_fresh s)%positive;
  r_fuel : (length ns < Pos.to_nat (ll_fresh s))%nat;
  r_tail : ll_tail s = slot_at ns (length ns);
  r_count : ll_count s = Z.of_nat (length ns);
  r_iters : ll_iters s = prod_map id (cursor_of ns) <$> al_iters a;
  r_valid : Forall (fun c => valid_cursor (length ns) c.2) (al_iters a);
  r_next : ll_ifresh s = al_next a;
  r_fDel : ll_fDel s = al_fDel a;
  r_deleted : ll_deleted s = al_deleted a;
}.

(** The list stands for the sequence. *)
Definition stands_for a s : Prop := exists ns, rep ns a s.

Lemma create_rep fDel : rep [] (al_create fDel) (list_create (D := D) fDel).
Proof. split; cbn; try done; try lia. - split; cbn; try done. by constructor. - intros n [x Hx]. done. - intros n Hn. by apply not_elem_of_nil in Hn. Qed.

Lemma read_at ns xs s m : links ns xs (ll_head s, ll_nodes s) -> (m <= length ns)%nat -> read_slot (slot_at ns m) s = Ret (ns !! m, s).
Proof.
  intros [Hn Hl Hh Hk] Hm. destruct m as [|m]; cbn [slot_at]; [unfold read_slot, lget; by rewrite <- Hh|].
  destruct (lookup_lt_is_Some_2 ns m) as [w Ew]; [lia|]. destruct (lookup_lt_is_Some_2 xs m) as [x Ex]; [lia|].
  rewrite Ew. unfold read_slot, load_node, lbind, lget, llift, lret. cbn. cbn in Hk. by rewrite (Hk m w x Ew Ex).
Qed.

Lemma load_at ns xs s m n x : links ns xs (ll_head s, ll_nodes s) -> ns !! m = Some n -> xs !! m = Some x ->
  load_node n s = Ret (node x (ns !! S m), s).
Proof. intros [_ _ _ Hk] En Ex. unfold load_node, lbind, lget, llift. cbn. cbn in Hk. by rewrite (Hk m n x En Ex). Qed.

Definition set_links g s : llist D := set_nodes g.2 (set_head g.1 s).

Lemma write_live pp v s : (forall n, pp = Next n -> is_Some (ll_nodes s !! n)) ->
  write_slot pp v s = Ret (tt, set_links (store pp v (ll_head s, ll_nodes s)) s).
Proof.
  intros Hlive. destruct pp as [|n]; [by destruct s|]. destruct (Hlive n eq_refl) as [x Hx].
  unfold write_slot, load_node, lbind, lget, llift, lmodify. cbn. rewrite Hx. unfold set_links. cbn.
  by rewrite (alter_alt_Some _ _ _ _ Hx).
Qed.

Lemma slot_live ns (xs : list D) h g m n : links ns xs (h, g) -> slot_at ns m = Next n -> is_Some (g !! n).
Proof.
  intros [Hn Hl Hh Hk] Hs. destruct m as [|m]; [done|]. cbn in Hs. destruct (ns !! m) as [w|] eqn:Ew; [|done]. injection Hs as ->.
  destruct (lookup_lt_is_Some_2 xs m) as [x Ex]; [rewrite <- Hl; by eapply lookup_lt_Some|]. exists (node x (ns !! S m)). by apply (Hk m).
Qed.

Lemma valid_ins n m c : (m <= n)%nat -> valid_cursor n c -> valid_cursor (S n) (shift_ins m c).
Proof. intros Hm. destruct c as [j []]; unfold valid_cursor, shift_ins; cbn; destruct (Nat.leb_spec m j); cbn; lia. Qed.

Lemma valid_del n m c : (m <= n)%nat -> valid_cursor (S n) c -> valid_cursor n (shift_del m c).
Proof.
  intros Hm. destruct c as [j []]; unfold valid_cursor, shift_del; cbn [fst snd andb]; rewrite ?orb_false_r;
    destruct (Nat.eqb_spec j m), (Nat.eqb_spec (S j) m), (Nat.ltb_spec m j); cbn [orb fst snd]; lia.
Qed.

Lemma fmap_cursors ns ns' (f : listIterator -> listIterator) (g : nat * bool -> nat * bool) (its : list (positive * (nat * bool))) :
  Forall (fun c => valid_cursor (length ns) c.2) its -> (forall c, valid_cursor (length ns) c -> f (cursor_of ns c) = cursor_of ns' (g c)) ->
  prod_map id f <$> (prod_map id (cursor_of ns) <$> its) = prod_map id (cursor_of ns') <$> (prod_map id g <$> its).
Proof.
  intros Hv Hf. rewrite <- !list_fmap_compose. apply list_fmap_ext. intros k [i c] Hk. unfold compose. cbn. f_equal. apply Hf.
  rewrite Forall_lookup in Hv. exact (Hv _ _ Hk).
Qed.

Lemma store_only pp v h (g : gmap positive (listNode D)) n : is_Some ((store pp v (h, g)).2 !! n) -> is_Some (g !! n).
Proof. destruct pp; cbn; [done|]. by rewrite lookup_alter_is_Some. Qed.

(** The list after an insertion of [x] at [m]. *)
Definition inserted ns m x s : llist D :=
  let p := ll_fresh s in
  let g := store (slot_at ns m) (Some p) (ll_head s, <[p := node x (ns !! m)]> (ll_nodes s)) in
  {| ll_nodes := g.2; ll_fresh := Pos.succ p; ll_ifresh := ll_ifresh s; ll_head := g.1;
     ll_tail := slot_at (ins m p ns) (S (length ns)); ll_count := ll_count s + 1;
     ll_iters := prod_map id (iter_create (slot_at ns m) p (ns !! m)) <$> ll_iters s; ll_fDel := ll_fDel s; ll_deleted := ll_deleted s |}.

Lemma rep_not_fresh ns a s : rep ns a s -> ll_fresh s ∉ ns.
Proof. intros Hr Hin. pose proof (r_fresh _ _ _ Hr _ Hin). lia. Qed.

Lemma inserted_rep ns a s m x : rep ns a s -> (m <= length ns)%nat -> rep (ins m (ll_fresh s) ns) (al_insert m x a) (inserted ns m x s).
Proof.
  intros Hr Hm. pose proof (rep_not_fresh _ _ _ Hr) as Hp. destruct Hr as [Hk Ho Hf Hfu Ht Hc Hi Hv Hx Hd Hde].
  pose proof (k_nodup _ _ _ Hk) as Hnd. unfold inserted.
  split; cbn -[slot_at cursor_of store]; rewrite ?ins_length by done; try done; try lia.
  - pose proof (links_insert ns (al_items a) _ m (ll_fresh s) x Hk Hp Hm) as Hk'. by destruct (store (slot_at ns m) _ _).
  - intros n Hn. apply store_only in Hn. apply elem_of_ins. destruct (decide (n = ll_fresh s)) as [->|Hne]; [by left|right].
    apply Ho. by rewrite lookup_insert_ne in Hn by done.
  - intros n Hn. apply elem_of_ins in Hn as [->|Hn]; [lia|]. specialize (Hf _ Hn). lia.
  - rewrite Hi. apply fmap_cursors; [done|]. intros c Hvc. by apply cursor_ins.
  - apply Forall_fmap. eapply Forall_impl; [exact Hv|]. intros [i c] Hvc. by apply valid_ins.
Qed.

(** The tail is the slot of the new node when nothing follows it, and stays otherwise. *)
Lemma tail_ins ns m p : (m <= length ns)%nat ->
  slot_at (ins m p ns) (S (length ns)) = if ns !! m is None then Next p else slot_at ns (length ns).
Proof.
  intros Hm. pose proof (slot_at_ins ns m p (length ns) Hm) as Hs. destruct (Nat.leb_spec m (length ns)); [|lia]. rewrite Hs by done.
  destruct (ns !! m) eqn:E; [rewrite decide_False by (apply lookup_lt_Some in E; lia)|rewrite decide_True by (apply lookup_ge_None in E; lia)]; done.
Qed.

Lemma node_create_run ns a s m x : rep ns a s -> (m <= length ns)%nat -> (Z.of_nat (length ns) < 2 ^ 31 - 1)%Z ->
  list_node_create true (slot_at ns m) x s = Ret (Some x, inserted ns m x s).
Proof.
  intros Hr Hm Hl. unfold inserted. rewrite tail_ins by done.
  unfold list_node_create, lbind, lget, lmodify, llift, lret. cbn [negb]. cbn -[slot_at].
  rewrite (read_at ns (al_items a)) by (done || apply Hr). cbn -[slot_at].
  assert (Hw : forall s2, ll_nodes s2 = <[ll_fresh s := node x (ns !! m)]> (ll_nodes s) -> forall v,
    write_slot (slot_at ns m) v s2 = Ret (tt, set_links (store (slot_at ns m) v (ll_head s2, ll_nodes s2)) s2)).
  { intros s2 E v. apply write_live. intros n Hn. rewrite E. apply lookup_insert_is_Some.
    destruct (decide (ll_fresh s = n)); [by left|right]. split; [done|]. eapply slot_live; [apply Hr|done]. }
  assert (Hcs : int_succ (ll_count s) = Ret (ll_count s + 1)%Z).
  { unfold int_succ. rewrite (r_count _ _ _ Hr). by destruct (Z.ltb_spec (Z.of_nat (length ns)) (2 ^ 31 - 1)); [|lia]. }
  destruct (ns !! m) as [nx|] eqn:Enx; cbn -[slot_at store]; rewrite Hw by done; cbn -[slot_at store]; rewrite Hcs; cbn -[slot_at store].
  - by rewrite <- (r_tail _ _ _ Hr).
  - done.
Qed.

(** The list after the removal of node [p] at [m]. *)
Definition removed ns m p s : llist D :=
  let g := store (slot_at ns m) (ns !! S m) (ll_head s, ll_nodes s) in
  {| ll_nodes := delete p g.2; ll_fresh := ll_fresh s; ll_ifresh := ll_ifresh s; ll_head := g.1;
     ll_tail := slot_at (delete m ns) (Nat.pred (length ns)); ll_count := ll_count s - 1;
     ll_iters := prod_map id (iter_destroy (slot_at ns m) p (ns !! S m)) <$> ll_iters s; ll_fDel := ll_fDel s; ll_deleted := ll_deleted s |}.

Lemma not_in_delete ns m p : NoDup ns -> ns !! m = Some p -> p ∉ delete m ns.
Proof. intros Hn Hp Hin. apply (elem_of_delete_in m p) in Hin as [_ Hne]; done. Qed.

Lemma removed_rep ns a s m p : rep ns a s -> ns !! m = Some p -> rep (delete m ns) (al_remove m a) (removed ns m p s).
Proof.
  intros [Hk Ho Hf Hfu Ht Hc Hi Hv Hx Hd Hde] Hp. pose proof (k_nodup _ _ _ Hk) as Hnd. pose proof (lookup_lt_Some _ _ _ Hp) as Hm.
  assert (Hl : length (delete m ns) = Nat.pred (length ns)) by (rewrite length_delete by eauto; lia).
  unfold removed. split; cbn -[slot_at cursor_of store Nat.pred]; rewrite ?Hl; try done; try lia.
  - pose proof (links_remove ns (al_items a) _ m p Hk Hp) as Hk'. destruct (store (slot_at ns m) _ _) as [h g].
    apply links_delete; [done|]. by apply not_in_delete.
  - intros n Hn. apply lookup_delete_is_Some in Hn as [Hne Hn]. apply store_only in Hn. apply (elem_of_delete_in m p); auto.
  - intros n Hn. apply (elem_of_delete_in m p) in Hn as [Hn _]; auto.
  - rewrite Hi. apply fmap_cursors; [done|]. intros c Hvc. by apply cursor_del.
  - apply Forall_fmap. eapply Forall_impl; [exact Hv|]. intros [i c] Hvc. apply valid_del; [lia|].
    by replace (S (Nat.pred (length ns))) with (length ns) by lia.
Qed.

Lemma assert_iters_run ns xs s its : links ns xs (ll_head s, ll_nodes s) -> Forall (fun c => valid_cursor (length ns) c.2) its ->
  assert_iters (prod_map id (cursor_of ns) <$> its) s = Ret (tt, s).
Proof.
  intros Hk. induction 1 as [|[i [j b]] its Hv _ IH]; [done|].
  change (lbind (assert_iter (cursor_of ns (j, b))) (fun _ => assert_iters (prod_map id (cursor_of ns) <$> its)) s = Ret (tt, s)). unfold lbind at 1.
  enough (assert_iter (cursor_of ns (j, b)) s = Ret (tt, s)) as -> by exact IH. cbn [snd] in Hv.
  unfold assert_iter, cursor_of. cbn [i_prev i_pos fst snd]. unfold lbind at 1. rewrite (read_at ns xs) by (destruct b; cbn in Hv; done || lia).
  cbn -[lookup]. destruct b; [|by rewrite decide_True]. cbn in Hv. destruct (lookup_lt_is_Some_2 ns j Hv) as [n En].
  destruct (lookup_lt_is_Some_2 xs j) as [x Ex]; [rewrite <- (k_len _ _ _ Hk); done|]. rewrite En.
  destruct (decide _); [done|]. unfold lbind, llift. cbn -[lookup load_node]. rewrite (load_at ns xs s j n x) by done. cbn -[lookup].
  by rewrite bool_decide_eq_true_2.
Qed.

Lemma tail_del ns m p : ns !! m = Some p ->
  slot_at (delete m ns) (Nat.pred (length ns)) = if ns !! S m is None then slot_at ns m else slot_at ns (length ns).
Proof.
  intros Hp. pose proof (lookup_lt_Some _ _ _ Hp) as Hm. pose proof (slot_at_del ns m (length ns)) as Hs.
  destruct (Nat.ltb_spec m (length ns)); [|lia]. rewrite Hs by done.
  destruct (ns !! S m) eqn:E; [rewrite decide_False by (apply lookup_lt_Some in E; lia)|rewrite decide_True by (apply lookup_ge_None in E; lia)]; done.
Qed.

Lemma node_destroy_run ns a s m p x : rep ns a s -> ns !! m = Some p -> al_items a !! m = Some x ->
  list_node_destroy (slot_at ns m) s = Ret (Some x, removed ns m p s).
Proof.
  intros Hr Hp Hx. pose proof (removed_rep ns a s m p Hr Hp) as Hr'. unfold removed in *. rewrite (tail_del ns m p Hp) in *.
  pose proof (lookup_lt_Some _ _ _ Hp) as Hm. pose proof (r_links _ _ _ Hr) as Hk.
  unfold list_node_destroy, lbind, lget, lmodify, llift, lret. rewrite (read_at ns (al_items a)) by (done || lia).
  cbn -[slot_at store lookup write_slot load_node]. rewrite Hp, (load_at ns (al_items a) s m p x) by done. cbn -[slot_at store lookup write_slot].
  rewrite write_live by (intros n Hn; by eapply slot_live). cbn -[slot_at store lookup].
  pose proof (links_remove ns (al_items a) _ m p Hk Hp) as Hk'. rewrite (surjective_pairing (store _ _ _)) in Hk'.
  pose proof (r_iters _ _ _ Hr') as Hi. cbn -[slot_at store lookup cursor_of] in Hi.
  destruct (ns !! S m) as [nx|] eqn:Enx; cbn -[slot_at store lookup].
  all: rewrite Hi, (assert_iters_run (delete m ns) (delete m (al_items a))) by (exact Hk' || exact (r_valid _ _ _ Hr')).
  all: cbn -[slot_at store lookup]; rewrite <- ?(r_tail _ _ _ Hr); by rewrite <- Hi.
Qed.

Lemma node_destroy_none ns a s m : rep ns a s -> (m <= length ns)%nat -> ns !! m = None -> list_node_destroy (slot_at ns m) s = Ret (None, s).
Proof. intros Hr Hm Hp. unfold list_node_destroy, lbind. rewrite (read_at ns (al_items a)) by (done || apply Hr). by rewrite Hp. Qed.

(** ** One call *)

Definition run_to {A} (c : LM D A) s (r : A) a' : Prop := exists s', c s = Ret (r, s') /\ stands_for a' s'.

Lemma run_then {A B} (c : LM D A) (f : A -> B) s r a' : run_to c s r a' -> run_to (do v <- c; lret (f v)) s (f r) a'.
Proof. intros (s' & Hc & Hr). exists s'. split; [|done]. unfold lbind. by rewrite Hc. Qed.

Lemma put_run ok ns a s m x : rep ns a s -> (m <= length ns)%nat -> (Z.of_nat (length ns) < 2 ^ 31 - 1)%Z ->
  run_to (do v <- list_node_create ok (slot_at ns m) x; lret (AData v)) s (put ok m x a).1 (put ok m x a).2.
Proof.
  intros Hr Hm Hl. destruct ok; cbn [put fst snd].
  - exists (inserted ns m x s). split; [unfold lbind; by erewrite node_create_run|]. eexists. by apply inserted_rep.
  - exists s. split; [done|by exists ns].
Qed.

Lemma take_run ns a s m : rep ns a s -> (m <= length ns)%nat -> run_to (list_node_destroy (slot_at ns m)) s (take_out m a).1 (take_out m a).2.
Proof.
  intros Hr Hm. unfold take_out. pose proof (k_len _ _ _ (r_links _ _ _ Hr)) as Hl. destruct (al_items a !! m) as [x|] eqn:Ex; cbn.
  - destruct (lookup_lt_is_Some_2 ns m) as [p Ep]; [rewrite Hl; by eapply lookup_lt_Some|].
    eexists. split; [by eapply node_destroy_run|]. eexists. by eapply removed_rep.
  - eexists. split; [|by exists ns]. eapply node_destroy_none; [done..|]. apply lookup_ge_None. apply lookup_ge_None in Ex. lia.
Qed.

Lemma fdel_rep ns a s x : rep ns a s -> exists s', call_fDel x s = Ret (tt, s') /\ rep ns (al_fdel x a) s'.
Proof.
  intros [Hk Ho Hf Hfu Ht Hc Hi Hv Hx Hd Hde]. eexists. split; [done|]. destruct (ll_fDel s) eqn:E; split; cbn; rewrite ?E, <- ?Hd; try done.
  by rewrite Hde.
Qed.

Lemma iters_rep ns a s its : rep ns a s -> Forall (fun c => valid_cursor (length ns) c.2) its ->
  rep ns (with_iters its a) (set_iters (prod_map id (cursor_of ns) <$> its) s).
Proof. intros [Hk Ho Hf Hfu Ht Hc Hi Hv Hx Hd Hde] Hv'. by split. Qed.

Lemma assoc_get_map {A B} (f : A -> B) i (l : list (positive * A)) : assoc_get i (prod_map id f <$> l) = f <$> assoc_get i l.
Proof. induction l as [|[j x] l IH]; [done|]. cbn. unfold id. by destruct (decide (i = j)). Qed.
Lemma assoc_set_map {A B} (f : A -> B) i v (l : list (positive * A)) :
  assoc_set i (f v) (prod_map id f <$> l) = prod_map id f <$> assoc_set i v l.
Proof. induction l as [|[j x] l IH]; [done|]. cbn. unfold id. destruct (decide (i = j)); [done|]. cbn. f_equal. exact IH. Qed.
Lemma assoc_del_map {A B} (f : A -> B) i (l : list (positive * A)) :
  assoc_del i (prod_map id f <$> l) = prod_map id f <$> assoc_del i l.
Proof. induction l as [|[j x] l IH]; [done|]. cbn. unfold id. destruct (decide (i = j)); [done|]. cbn. f_equal. exact IH. Qed.
Lemma assoc_set_twice {A} i (v w : A) l : assoc_set i v (assoc_set i w l) = assoc_set i v l.
Proof. induction l as [|[j x] l IH]; [done|]. cbn. destruct (decide (i = j)) eqn:E; cbn; rewrite E; [done|by rewrite IH]. Qed.
Lemma assoc_get_set {A} i (v w : A) l : assoc_get i l = Some w -> assoc_get i (assoc_set i v l) = Some v.
Proof. induction l as [|[j x] l IH]; [done|]. cbn. destruct (decide (i = j)) eqn:E; cbn; rewrite E; [done|exact IH]. Qed.
Lemma assoc_get_Forall {A} (P : A -> Prop) i v l : Forall (fun c => P c.2) l -> assoc_get i l = Some v -> P v.
Proof. induction 1 as [|[j x] l Hx _ IH]; [done|]. cbn. destruct (decide (i = j)); [intros [= <-]; exact Hx|exact IH]. Qed.
Lemma assoc_set_Forall {A} (P : A -> Prop) i v l : Forall (fun c => P c.2) l -> P v -> Forall (fun c => P c.2) (assoc_set i v l).
Proof. intros Hl Hv. induction Hl as [|[j x] l Hx Hl IH]; [constructor|]. cbn. destruct (decide (i = j)); by constructor. Qed.
Lemma assoc_del_Forall {A} (P : positive * A -> Prop) i l : Forall P l -> Forall P (assoc_del i l).
Proof. intros Hl. induction Hl as [|[j x] l Hx Hl IH]; [constructor|]. cbn. destruct (decide (i = j)); [done|by constructor]. Qed.

Lemma load_iter_run ns a s i c : rep ns a s -> assoc_get i (al_iters a) = Some c -> load_iter i s = Ret (cursor_of ns c, s).
Proof. intros Hr Hg. unfold load_iter, lbind, lget, llift. cbn. by rewrite (r_iters _ _ _ Hr), assoc_get_map, Hg. Qed.

Lemma store_iter_run ns a s i c : rep ns a s -> valid_cursor (length ns) c ->
  exists s', store_iter i (cursor_of ns c) s = Ret (tt, s') /\ rep ns (with_iters (assoc_set i c (al_iters a)) a) s'.
Proof.
  intros Hr Hv. eexists. split; [done|]. rewrite (r_iters _ _ _ Hr), assoc_set_map. apply iters_rep; [done|].
  by apply (assoc_set_Forall (valid_cursor (length ns))); [apply Hr|].
Qed.

Lemma next_at ns xs s m p : links ns xs (ll_head s, ll_nodes s) -> ns !! m = Some p -> next_slot (slot_at ns m) s = Ret (slot_at ns (S m), s).
Proof.
  intros Hk Hp. unfold next_slot, lbind. rewrite (read_at ns xs) by (done || (apply lookup_lt_Some in Hp; lia)). cbn. by rewrite Hp.
Qed.

(** Where an iterator is after [list_next]. *)
Definition stepped a (c : nat * bool) : nat * bool := (after c, if al_items a !! after c is Some _ then true else false).

Lemma after_le n c : valid_cursor n c -> (after c <= n)%nat.
Proof. destruct c as [j []]; cbn; lia. Qed.

Lemma stepped_valid ns a s c : rep ns a s -> valid_cursor (length ns) c -> valid_cursor (length ns) (stepped a c).
Proof.
  intros Hr Hv. apply after_le in Hv. unfold stepped, valid_cursor. cbn. destruct (al_items a !! after c) eqn:E; [|done].
  rewrite (k_len _ _ _ (r_links _ _ _ Hr)). by eapply lookup_lt_Some.
Qed.

Lemma list_next_run ns a s i c : rep ns a s -> assoc_get i (al_iters a) = Some c -> exists s',
  list_next i s = Ret (al_items a !! after c, s') /\ rep ns (with_iters (assoc_set i (stepped a c) (al_iters a)) a) s'.
Proof.
  intros Hr Hg. pose proof (assoc_get_Forall _ _ _ _ (r_valid _ _ _ Hr) Hg) as Hv. pose proof (r_links _ _ _ Hr) as Hk.
  pose proof (k_len _ _ _ Hk) as Hl. pose proof (after_le _ _ Hv) as Ha.
  destruct (store_iter_run ns a s i (stepped a c) Hr (stepped_valid _ _ _ _ Hr Hv)) as (s' & Hs & Hr').
  exists s'. split; [|done]. unfold list_next, lbind at 1. rewrite (load_iter_run ns a) with (c := c) by done. cbn -[load_node next_slot store_iter read_slot].
  assert (Hc1 : (c.1 <= length ns)%nat) by (destruct c as [j []]; cbn in Hv |- *; lia).
  assert (Hpos : (match ns !! after c with Some n => do y <- load_node n; lret (n_next y) | None => lret (ns !! after c) end) s
      = Ret (i_pos (cursor_of ns (stepped a c)), s) /\
    forall s2, links ns (al_items a) (ll_head s2, ll_nodes s2) ->
      (match ns !! after c with Some n => do y <- load_node n; lret (Some (n_data y)) | None => lret None end) s2 = Ret (al_items a !! after c, s2)).
  { unfold cursor_of, stepped. cbn [i_pos fst snd]. destruct (ns !! after c) as [n|] eqn:En.
    - destruct (lookup_lt_is_Some_2 (al_items a) (after c)) as [x Ex]; [rewrite <- Hl; by eapply lookup_lt_Some|]. rewrite Ex. unfold lbind.
      split; [by rewrite (load_at ns (al_items a) s (after c) n x)|]. intros s2 Hk2. by rewrite (load_at ns (al_items a) s2 (after c) n x).
    - assert (Ex : al_items a !! after c = None) by (apply lookup_ge_None in En; apply lookup_ge_None; lia). rewrite Ex. by rewrite En. }
  destruct Hpos as [Hpos Hdata]. unfold after in Hpos, Hdata at 1. unfold lbind at 1. rewrite Hpos. cbn -[load_node next_slot store_iter read_slot].
  unfold lbind at 1. rewrite (read_at ns (al_items a)) by done. cbn -[load_node next_slot store_iter read_slot].
  assert (Hprev : forall d : Decision (ns !! c.1 = ns !! after c), (if d then lret (slot_at ns c.1) else next_slot (slot_at ns c.1)) s = Ret (slot_at ns (after c), s)).
  { intros [E|E].
    - apply lookup_same in E; [|apply Hk|done|done]. by rewrite E.
    - destruct c as [j []]; [|done]. cbn in *. destruct (lookup_lt_is_Some_2 ns j) as [p Ep]; [done|]. by eapply next_at. }
  unfold lbind at 1. unfold after in Hprev at 1 2. rewrite Hprev. cbn -[load_node store_iter].
  unfold lbind at 1. change {| i_pos := _; i_prev := _ |} with (cursor_of ns (stepped a c)). rewrite Hs. cbn -[load_node].
  apply Hdata. pose proof (r_links _ _ _ Hr') as Hk'. exact Hk'.
Qed.

Lemma find_next_run f i ns : forall fuel a s c, rep ns a s -> assoc_get i (al_iters a) = Some c -> (length (al_items a) - after c <= fuel)%nat ->
  let r := al_find f (after c) (drop (after c) (al_items a)) in
  exists s', find_next fuel f i s = Ret (r.1, s') /\ rep ns (with_iters (assoc_set i r.2 (al_iters a)) a) s'.
Proof.
  induction fuel as [|fuel IH]; intros a s c Hr Hg Hf; cbn zeta; destruct (list_next_run ns a s i c Hr Hg) as (s' & Hs & Hr');
    unfold stepped in Hr'; cbn [find_next]; unfold lbind; rewrite Hs; cbn [res_bind]; destruct (al_items a !! after c) as [x|] eqn:Ex.
  - apply lookup_lt_Some in Ex. lia.
  - rewrite drop_ge by (by apply lookup_ge_None). by exists s'.
  - rewrite (drop_S _ _ _ Ex). cbn [al_find]. destruct (f x); [by exists s'|].
    destruct (IH _ s' (after c, true) Hr') as (s2 & Hs2 & Hr2).
    + cbn [al_iters with_iters]. by eapply assoc_get_set.
    + cbn [al_items with_iters]. change (after (after c, true)) with (S (after c)). lia.
    + exists s2. split; [exact Hs2|]. unfold with_iters in Hr2. cbn [al_items al_iters al_next al_fDel al_deleted] in Hr2.
      rewrite assoc_set_twice in Hr2. exact Hr2.
  - rewrite drop_ge by (by apply lookup_ge_None). by exists s'.
Qed.

Lemma find_loop_run f ns xs s : links ns xs (ll_head s, ll_nodes s) -> forall fuel m, (length ns - m <= fuel)%nat ->
  find_loop fuel f (ns !! m) s = Ret (List.find f (drop m xs), s).
Proof.
  intros Hk. pose proof (k_len _ _ _ Hk) as Hl. induction fuel as [|fuel IH]; intros m Hf; destruct (ns !! m) as [p|] eqn:Ep.
  1: apply lookup_lt_Some in Ep; lia.
  1, 3: apply lookup_ge_None in Ep; by rewrite drop_ge by lia.
  destruct (lookup_lt_is_Some_2 xs m) as [x Ex]; [rewrite <- Hl; by eapply lookup_lt_Some|]. rewrite (drop_S _ _ _ Ex).
  cbn [find_loop List.find]. unfold lbind. rewrite (load_at ns xs s m p x) by done. cbn [res_bind n_data n_next node].
  destruct (f x); [done|]. apply IH. lia.
Qed.

Lemma int_succ_ok n : (n < 2 ^ 31 - 1)%Z -> int_succ n = Ret (n + 1)%Z.
Proof. intros Hn. unfold int_succ. by destruct (Z.ltb_spec n (2 ^ 31 - 1)); [|lia]. Qed.

Lemma each_loop_run f ns xs s : links ns xs (ll_head s, ll_nodes s) -> forall fuel m n, (length ns - m <= fuel)%nat ->
  (n + Z.of_nat (length ns - m) <= 2 ^ 31 - 1)%Z -> each_loop fuel f (ns !! m) n s = Ret (al_each f n (drop m xs), s).
Proof.
  intros Hk. pose proof (k_len _ _ _ Hk) as Hl. induction fuel as [|fuel IH]; intros m n Hf Hn; destruct (ns !! m) as [p|] eqn:Ep.
  1: apply lookup_lt_Some in Ep; lia.
  1, 3: apply lookup_ge_None in Ep; by rewrite drop_ge by lia.
  pose proof (lookup_lt_Some _ _ _ Ep) as Hm. destruct (lookup_lt_is_Some_2 xs m) as [x Ex]; [lia|]. rewrite (drop_S _ _ _ Ex).
  cbn [each_loop al_each]. unfold lbind, llift. rewrite (load_at ns xs s m p x) by done. cbn [res_bind n_data n_next node].
  rewrite int_succ_ok by lia. cbn [res_bind]. destruct (f x <? 0)%Z; [done|]. apply IH; lia.
Qed.

Lemma drop_delete {A} (l : list A) m x : l !! m = Some x -> drop m (delete m l) = drop (S m) l.
Proof. revert m. induction l as [|y l IH]; intros [|m] Hx; cbn in *; try done. apply IH. done. Qed.

Lemma slot_at_delete ns m : (m <= length ns)%nat -> slot_at (delete m ns) m = slot_at ns m.
Proof. intros Hm. pose proof (slot_at_del ns m m Hm) as Hs. rewrite Nat.ltb_irrefl in Hs. rewrite Hs. by rewrite decide_False by lia. Qed.

Lemma delete_loop_run f : forall fuel m n ns a s, rep ns a s -> (m <= length ns)%nat -> (length ns - m <= fuel)%nat ->
  (n + Z.of_nat (length ns - m) <= 2 ^ 31 - 1)%Z ->
  run_to (delete_loop fuel f (slot_at ns m) n) s (n + Z.of_nat (length (List.filter f (drop m (al_items a)))))%Z
    (al_sweep f m (drop m (al_items a)) a).
Proof.
  induction fuel as [|fuel IH]; intros m n ns a s Hr Hm Hf Hn; pose proof (r_links _ _ _ Hr) as Hk; pose proof (k_len _ _ _ Hk) as Hl;
    cbn [delete_loop]; unfold run_to, lbind at 1; rewrite (read_at ns (al_items a)) by done; cbn [res_bind]; destruct (ns !! m) as [p|] eqn:Ep.
  1: apply lookup_lt_Some in Ep; lia.
  1, 3: apply lookup_ge_None in Ep; rewrite drop_ge by lia; exists s; split; [cbn; rewrite Z.add_0_r; done|by exists ns].
  pose proof (lookup_lt_Some _ _ _ Ep) as Hlt. destruct (lookup_lt_is_Some_2 (al_items a) m) as [x Ex]; [lia|]. rewrite (drop_S _ _ _ Ex).
  unfold lbind at 1. rewrite (load_at ns (al_items a) s m p x) by done. cbn [res_bind n_data node List.filter al_sweep].
  destruct (f x); cbn [length].
  - unfold lbind at 1. rewrite (node_destroy_run ns a s m p x) by done. cbn [res_bind].
    destruct (fdel_rep _ _ _ x (removed_rep ns a s m p Hr Ep)) as (s2 & Hs2 & Hr2). unfold lbind at 1. rewrite Hs2. cbn [res_bind].
    unfold lbind, llift at 1. rewrite int_succ_ok by lia. cbn [res_bind]. rewrite <- (slot_at_delete ns m) by lia.
    assert (Hld : length (delete m ns) = Nat.pred (length ns)) by (rewrite length_delete by eauto; lia).
    destruct (IH m (n + 1)%Z _ _ s2 Hr2) as (s3 & Hs3 & Hr3); [rewrite Hld; lia..|]. cbn [al_items al_fdel al_remove with_items] in Hs3, Hr3.
    rewrite (drop_delete _ _ _ Ex) in Hs3, Hr3. exists s3. split; [|exact Hr3]. rewrite Hs3. do 2 f_equal. lia.
  - replace (Next p) with (slot_at ns (S m)) by (cbn [slot_at]; by rewrite Ep). apply IH; [done|lia..].
Qed.

(** ** Sorting *)

Lemma links_move ns (xs : list D) h g m q p y : links ns xs (h, g) -> ns !! m = Some p -> xs !! m = Some y -> (q < m)%nat ->
  links (ins q p (delete m ns)) (ins q y (delete m xs))
    (store (slot_at ns m) (ns !! S m) (store (slot_at ns q) (Some p) (store (Next p) (ns !! q) (h, g)))).
Proof.
  intros Hk Hp Hy Hq. pose proof (lookup_lt_Some _ _ _ Hp) as Hm. pose proof (k_nodup _ _ _ Hk) as Hnd.
  pose proof (links_remove ns xs _ m p Hk Hp) as Hk1. pose proof (not_in_delete ns m p Hnd Hp) as Hni.
  assert (Hg : g !! p = Some (node y (ns !! S m))) by exact (k_node _ _ _ Hk m p y Hp Hy).
  apply (links_insert _ _ _ q p y) in Hk1; [|done|rewrite length_delete by eauto; lia].
  assert (Hsq : slot_at (delete m ns) q = slot_at ns q).
  { pose proof (slot_at_del ns m q ltac:(lia)) as Hs. destruct (Nat.ltb_spec m q); [lia|]. rewrite Hs. by rewrite decide_False by lia. }
  rewrite Hsq, list_lookup_delete_lt in Hk1 by done.
  assert (Hmp : slot_at ns m <> slot_at ns (S m)) by (intros E; apply slot_at_inj in E; [lia|done|lia..]).
  assert (Hqp : slot_at ns q <> slot_at ns (S m)) by (intros E; apply slot_at_inj in E; [lia|done|lia..]).
  assert (Hmq : slot_at ns m <> slot_at ns q) by (intros E; apply slot_at_inj in E; [lia|done|lia..]).
  replace (slot_at ns (S m)) with (Next p) in Hmp, Hqp by (cbn [slot_at]; by rewrite Hp).
  assert (Hu : exists u, slot_at ns m = Next u).
  { destruct m as [|m']; [lia|]. cbn [slot_at]. destruct (lookup_lt_is_Some_2 ns m') as [u ->]; [lia|by exists u]. }
  destruct Hu as [u Hu]. rewrite Hu in *.
  replace (store (Next u) (ns !! S m) (store (slot_at ns q) (Some p) (store (Next p) (ns !! q) (h, g)))) with
    (store (slot_at ns q) (Some p) ((store (Next u) (ns !! S m) (h, g)).1, <[p:=node y (ns !! q)]> (store (Next u) (ns !! S m) (h, g)).2)); [done|].
  destruct (slot_at ns q) as [|t]; cbn [store fst snd]; f_equal; rewrite (alter_alt_Some _ g p _ Hg).
  - rewrite <- alter_insert_ne by congruence. done.
  - rewrite <- alter_insert_ne by congruence. rewrite alter_alter_ne by congruence. done.
Qed.

Context (cmp : D -> D -> Z).

Lemma data_at_run ns xs s m x : links ns xs (ll_head s, ll_nodes s) -> xs !! m = Some x -> data_at (slot_at ns m) s = Ret (x, s).
Proof.
  intros Hk Hx. pose proof (lookup_lt_Some _ _ _ Hx) as Hm. rewrite <- (k_len _ _ _ Hk) in Hm.
  destruct (lookup_lt_is_Some_2 ns m Hm) as [p Ep]. unfold data_at, lbind at 1. rewrite (read_at ns xs) by (done || lia). cbn [res_bind].
  rewrite Ep. unfold lbind, llift. cbn [res_bind]. by rewrite (load_at ns xs s m p x).
Qed.

Lemma find_pos_run ns xs s y x : links ns xs (ll_head s, ll_nodes s) -> (cmp y x <? 0)%Z = true -> forall fuel k i, (k <= i)%nat -> (i - k <= fuel)%nat ->
  xs !! i = Some x -> exists q, (k <= q <= i)%nat /\ find_pos cmp fuel y (slot_at ns k) s = Ret (slot_at ns q, s) /\
    place cmp y (drop k (take (S i) xs)) = ins (q - k) y (drop k (take (S i) xs)).
Proof.
  intros Hk Hc. induction fuel as [|fuel IH]; intros k i Hki Hf Hx; pose proof (lookup_lt_Some _ _ _ Hx) as Hi;
    (destruct (lookup_lt_is_Some_2 xs k) as [z Hz]; [lia|]); cbn [find_pos]; unfold lbind at 1; rewrite (data_at_run ns xs s k z) by done;
    cbn [res_bind]; rewrite (drop_S (take (S i) xs) z k) by (by rewrite lookup_take_lt by lia); cbn [place].
  - replace k with i in * by lia. rewrite Hx in Hz. injection Hz as <-. rewrite Hc. exists i. by rewrite Nat.sub_diag.
  - destruct (cmp y z <? 0)%Z eqn:Ez; [exists k; rewrite Nat.sub_diag; split; [lia|done]|].
    assert (Hne : k <> i) by (intros ->; congruence). pose proof (lookup_lt_is_Some_2 ns k) as [p Ep]; [rewrite (k_len _ _ _ Hk); lia|].
    unfold lbind at 1. rewrite (next_at ns xs s k p) by done. cbn [res_bind].
    destruct (IH (S k) i ltac:(lia) ltac:(lia) Hx) as (q & Hq & Hs & Hp). exists q. split; [lia|]. split; [done|].
    rewrite Hp. replace (q - k)%nat with (S (q - S k)) by lia. done.
Qed.

Lemma ins_app {A} q (y : A) l l' : (q <= length l)%nat -> ins q y (l ++ l') = ins q y l ++ l'.
Proof. intros Hq. unfold ins. rewrite take_app_le, drop_app_le by done. by rewrite <- app_assoc. Qed.

Lemma delete_mid {A} (l l' : list A) y : delete (length l) (l ++ y :: l') = l ++ l'.
Proof. by rewrite delete_middle. Qed.

Definition same_nodes (g g' : gmap positive (listNode D)) : Prop := forall n, is_Some (g !! n) <-> is_Some (g' !! n).

Lemma store_same pp v h (g : gmap positive (listNode D)) : same_nodes (store pp v (h, g)).2 g.
Proof. intros n. destruct pp; cbn; [done|]. by rewrite lookup_alter_is_Some. Qed.

Lemma slot_at_moved ns m q p j : (m < length ns)%nat -> (q < j <= m)%nat -> slot_at (ins q p (delete m ns)) (S j) = slot_at ns j.
Proof.
  intros Hm Hj. assert (Hld : length (delete m ns) = Nat.pred (length ns)) by (rewrite length_delete by (by apply lookup_lt_is_Some); lia).
  pose proof (slot_at_ins (delete m ns) q p j) as Hs. destruct (Nat.leb_spec q j); [|lia]. rewrite Hs by lia. rewrite decide_False by lia.
  pose proof (slot_at_del ns m j) as Hd. destruct (Nat.ltb_spec m j); [lia|]. rewrite Hd by lia. by rewrite decide_False by lia.
Qed.

Lemma slot_at_moved_at ns m q p : (m < length ns)%nat -> (q <= m)%nat -> slot_at (ins q p (delete m ns)) q = slot_at ns q.
Proof.
  intros Hm Hq. assert (Hld : length (delete m ns) = Nat.pred (length ns)) by (rewrite length_delete by (by apply lookup_lt_is_Some); lia).
  destruct q as [|q]; [done|]. cbn [slot_at]. rewrite ins_lookup by lia. rewrite decide_True by lia. by rewrite list_lookup_delete_lt by lia.
Qed.

(** The three writes that move node [p], at [m], to [q]. *)
Lemma move_run ns xs s m q p y : links ns xs (ll_head s, ll_nodes s) -> ns !! m = Some p -> xs !! m = Some y -> (q < m)%nat ->
  exists g, (do pTmp <- read_slot (Next p); do at_pos <- read_slot (slot_at ns q); do _ <- write_slot (Next p) at_pos;
      do _ <- write_slot (slot_at ns q) (Some p); write_slot (slot_at ns m) pTmp) s = Ret (tt, set_links g s) /\
    links (ins q p (delete m ns)) (ins q y (delete m xs)) g /\ same_nodes g.2 (ll_nodes s).
Proof.
  intros Hk Hp Hy Hq. pose proof (lookup_lt_Some _ _ _ Hp) as Hm. pose proof (links_move _ _ _ _ m q p y Hk Hp Hy Hq) as Hk'.
  assert (HN : Next p = slot_at ns (S m)) by (cbn [slot_at]; by rewrite Hp).
  assert (Hlive : forall j n s2, same_nodes (ll_nodes s2) (ll_nodes s) -> slot_at ns j = Next n -> is_Some (ll_nodes s2 !! n)).
  { intros j n s2 Hs Hj. apply Hs. by eapply slot_live. }
  eexists. split; [|split; [exact Hk'|]].
  - unfold lbind. rewrite HN at 1. rewrite (read_at ns xs) by (done || lia). cbn [res_bind]. rewrite (read_at ns xs) by (done || lia). cbn [res_bind].
    rewrite write_live by (intros n Hn; apply (Hlive (S m)); [done|congruence]). cbn [res_bind].
    rewrite write_live by (intros n Hn; apply (Hlive q); [apply store_same|done]). cbn [res_bind].
    rewrite write_live; [done|]. intros n Hn. apply (Hlive m); [|done]. intros k. unfold set_links. cbn [ll_nodes set_nodes].
    etransitivity; [apply store_same|apply store_same].
  - intros k. rewrite (surjective_pairing (store (slot_at ns q) _ _)). etransitivity; [apply store_same|].
    rewrite (surjective_pairing (store (Next p) _ _)). etransitivity; apply store_same.
Qed.

Lemma sort_move_step fuel ns acc y rest s i z : links ns (acc ++ y :: rest) (ll_head s, ll_nodes s) -> length acc = S i -> acc !! i = Some z ->
  (cmp y z <? 0)%Z = true -> (length ns < Pos.to_nat (ll_fresh s))%nat ->
  exists ns' g, sort_loop cmp (S fuel) (slot_at ns i) (slot_at ns (S i)) s = sort_loop cmp fuel (slot_at ns' (S i)) (slot_at ns' (S (S i))) (set_links g s) /\
    links ns' (place cmp y acc ++ rest) g /\ length (place cmp y acc) = S (S i) /\ ns' ≡ₚ ns /\ same_nodes g.2 (ll_nodes s).
Proof.
  intros Hk Ha Hz Hc Hfu. pose proof (k_len _ _ _ Hk) as Hl. rewrite length_app in Hl. cbn in Hl.
  destruct (lookup_lt_is_Some_2 ns (S i)) as [p Ep]; [lia|].
  assert (Hy : (acc ++ y :: rest) !! S i = Some y) by (rewrite lookup_app_r, Ha, Nat.sub_diag by lia; done).
  assert (Hz' : (acc ++ y :: rest) !! i = Some z) by (by rewrite lookup_app_l by lia).
  destruct (find_pos_run ns _ s y z Hk Hc (Pos.to_nat (ll_fresh s)) 0 i) as (q & Hq & Hpos & Hpl); [lia|lia|done|].
  rewrite drop_0, Nat.sub_0_r, take_app_le, <- Ha, take_ge in Hpl by lia.
  destruct (move_run ns _ s (S i) q p y Hk Ep Hy) as (g & Hmv & Hk' & Hsame); [lia|].
  rewrite <- Ha, delete_mid, ins_app, <- Hpl in Hk' by lia.
  exists (ins q p (delete (S i) ns)), g. rewrite Ha in Hk'. split_and!; [|done|by rewrite Hpl, ins_length, Ha by lia| |done].
  - cbn [sort_loop]. unfold lbind at 1. rewrite (read_at ns (acc ++ y :: rest)) by (done || lia). cbn [res_bind]. rewrite Ep.
    unfold lbind at 1. rewrite (data_at_run ns _ s _ y) by done. cbn [res_bind]. unfold lbind at 1. rewrite (data_at_run ns _ s _ z) by done.
    cbn [res_bind]. rewrite Hc. unfold lbind at 1, list_fuel, lget at 1. cbn [res_bind]. unfold lbind at 1. change Head with (slot_at ns 0). rewrite Hpos. cbn [res_bind].
    revert Hmv. unfold lbind. destruct (read_slot (Next p) s) as [[v s1]| |]; cbn [res_bind]; [|done..].
    destruct (read_slot (slot_at ns q) s1) as [[v2 s2]| |]; cbn [res_bind]; [|done..].
    destruct (write_slot (Next p) v2 s2) as [[[] s3]| |]; cbn [res_bind]; [|done..].
    destruct (write_slot (slot_at ns q) (Some p) s3) as [[[] s4]| |]; cbn [res_bind]; [|done..]. intros ->. cbn [res_bind].
    rewrite (slot_at_moved ns (S i) q p (S i)) by lia.
    enough (Hprev : forall d : Decision (slot_at ns i = slot_at ns q), (if d then next_slot (slot_at ns i) else lret (slot_at ns i)) (set_links g s) =
      Ret (slot_at (ins q p (delete (S i) ns)) (S i), set_links g s)) by (rewrite Hprev; done).
    intros [E|E].
    + apply slot_at_inj in E as <-; [|apply Hk|lia|lia]. rewrite <- (slot_at_moved_at ns (S i) i p) at 1 by lia.
      eapply (next_at _ (place cmp y acc ++ rest) _ i p); [by rewrite (surjective_pairing g) in Hk'|].
      rewrite ins_lookup by (rewrite length_delete by eauto; lia). rewrite decide_False by lia. by rewrite decide_True.
    + rewrite slot_at_moved by (split; [|lia]; destruct (decide (q = i)); [subst; done|lia] || lia). done.
  - unfold ins. rewrite <- Permutation_middle, take_drop. symmetry. by apply delete_Permutation.
Qed.

Lemma sort_loop_run : forall rest fuel acc ns s i, links ns (acc ++ rest) (ll_head s, ll_nodes s) -> length acc = S i -> (length rest <= fuel)%nat ->
  (length ns < Pos.to_nat (ll_fresh s))%nat ->
  exists ns' g, sort_loop cmp fuel (slot_at ns i) (slot_at ns (S i)) s = Ret (slot_at ns' (length ns'), set_links g s) /\
    links ns' (foldl (sort_step cmp) acc rest) g /\ ns' ≡ₚ ns /\ same_nodes g.2 (ll_nodes s).
Proof.
  induction rest as [|y rest IH]; intros fuel acc ns s i Hk Ha Hf Hfu; pose proof (k_len _ _ _ Hk) as Hl; rewrite length_app in Hl; cbn in Hl.
  - exists ns, (ll_head s, ll_nodes s). rewrite app_nil_r in Hk. split_and!; [|done..]. replace (set_links _ s) with s by (by destruct s).
    assert (En : ns !! S i = None) by (apply lookup_ge_None; lia). replace (length ns) with (S i) by lia.
    destruct fuel; cbn [sort_loop]; unfold lbind at 1; rewrite (read_at ns acc) by (done || lia); cbn [res_bind]; by rewrite En.
  - destruct fuel as [|fuel]; [cbn in Hf; lia|]. cbn in Hf. destruct (lookup_lt_is_Some_2 acc i) as [z Hz]; [lia|].
    assert (Hla : last acc = Some z) by (rewrite last_lookup, Ha; done). cbn [foldl]. unfold sort_step at 2. rewrite Hla.
    destruct (cmp y z <? 0)%Z eqn:Hc.
    + destruct (sort_move_step fuel ns acc y rest s i z) as (ns2 & g2 & Hs & Hk2 & Hl2 & Hp2 & Hn2); [done..|].
      destruct (IH fuel (place cmp y acc) ns2 (set_links g2 s) (S i)) as (ns3 & g3 & Hs3 & Hk3 & Hp3 & Hn3).
      * unfold set_links. cbn. by rewrite <- surjective_pairing.
      * done. * lia. * by rewrite Hp2.
      * exists ns3, g3. rewrite Hs, Hs3. split_and!; [done|done|by rewrite Hp3|]. intros n. rewrite (Hn3 n). apply Hn2.
    + destruct (lookup_lt_is_Some_2 ns (S i)) as [p Ep]; [lia|].
      destruct (IH fuel (acc ++ [y]) ns s (S i)) as (ns3 & g3 & Hs3 & Hk3 & Hp3 & Hn3).
      * by rewrite <- app_assoc. * rewrite length_app, Ha. cbn. lia. * lia. * done.
      * exists ns3, g3. split_and!; [|done..]. rewrite <- Hs3. cbn [sort_loop]. unfold lbind at 1. rewrite (read_at ns _ s (S i) Hk) by lia.
        cbn [res_bind]. rewrite Ep. unfold lbind at 1. rewrite (data_at_run ns _ s _ y Hk) by (rewrite lookup_app_r, Ha, Nat.sub_diag by lia; done).
        cbn [res_bind]. unfold lbind at 1. rewrite (data_at_run ns _ s _ z Hk) by (by rewrite lookup_app_l by lia). cbn [res_bind]. rewrite Hc.
        replace (Next p) with (slot_at ns (S (S i))) by (cbn [slot_at]; by rewrite Ep). done.
Qed.

Lemma list_sort_run a s : stands_for a s ->
  run_to (list_sort cmp) s tt (if decide (1 < length (al_items a))%nat then with_items (sorted_by cmp (al_items a)) (fun _ => (O, false)) a else a).
Proof.
  intros [ns Hr]. pose proof (r_links _ _ _ Hr) as Hk. pose proof (k_len _ _ _ Hk) as Hl. unfold run_to, list_sort, lbind at 1, lget at 1. cbn [res_bind].
  rewrite (r_count _ _ _ Hr), Hl. destruct (decide _) as [Hlt|Hge].
  2:{ exists s. split; [|by exists ns]. by destruct (Z.ltb_spec 1 (Z.of_nat (length (al_items a)))); [lia|]. }
  destruct (Z.ltb_spec 1 (Z.of_nat (length (al_items a)))); [|lia]. destruct (al_items a) as [|x rest] eqn:Ei; [cbn in Hlt; lia|].
  destruct (lookup_lt_is_Some_2 ns 0) as [p Ep]; [lia|].
  unfold lbind at 1. change Head with (slot_at ns 0). rewrite (next_at ns (x :: rest) s 0 p) by done. cbn [res_bind].
  unfold lbind at 1, list_fuel, lget at 1. cbn [res_bind]. pose proof (r_fuel _ _ _ Hr) as Hfu. cbn [length] in Hl.
  destruct (sort_loop_run rest (Pos.to_nat (ll_fresh s)) [x] ns s 0) as (ns' & g & Hs & Hk' & Hp & Hn); [done|done|lia|done|].
  unfold lbind at 1. rewrite Hs. cbn [res_bind]. eexists. split; [done|]. exists ns'. destruct Hr as [_ Ho Hf _ Ht Hc Hi Hv Hx Hd Hde].
  split; cbn -[cursor_of slot_at]; rewrite ?Hp; try done.
  - rewrite <- surjective_pairing. exact Hk'.
  - intros n Hin. rewrite Hp. apply Ho, Hn. done.
  - intros n Hin. rewrite Hp in Hin. by apply Hf.
  - rewrite Hi. rewrite <- !list_fmap_compose. apply list_fmap_ext. intros k [j c] _. unfold compose. cbn.
    f_equal. unfold cursor_of. cbn. f_equal. pose proof (k_head _ _ _ Hk') as Hh. exact Hh.
  - apply Forall_fmap, Forall_forall. intros [j c] _. cbn. lia.
Qed.
End Run.
