(* ===== verification/ListsProps.v ===== *)
(** * What lists promise (liblsd/list.c)

    Any calls on a new list answer as on a sequence with cursors, and [list_destroy] then
    frees what there is; [list_sort] sorts, and keeps the order of equal items. *)
From S2P Require Import Prelude Cbuf.
From stdpp Require Import list gmap sorting.
From S2P Require Import Lists ListsSpec ListsRun.
#[local] Open Scope lists_scope.

Section Calls.
Context {D : Type}.
Implicit Types (s : llist D) (a : alist D).

Lemma stands_count a s : stands_for a s -> ll_count s = Z.of_nat (length (al_items a)).
Proof. intros [ns Hr]. rewrite (r_count _ _ _ Hr). by rewrite (k_len _ _ _ (r_links _ _ _ Hr)). Qed.

Lemma list_remove_run ns a s i c : rep ns a s -> assoc_get i (al_iters a) = Some c ->
  let r := if c.2 then take_out c.1 a else (None, a) in run_to (list_remove i) s r.1 r.2.
Proof.
  intros Hr Hg. pose proof (assoc_get_Forall _ _ _ _ (r_valid _ _ _ Hr) Hg) as Hv. pose proof (r_links _ _ _ Hr) as Hk.
  assert (Hc : (c.1 <= length ns)%nat) by (destruct c as [j []]; cbn in Hv |- *; lia). cbn zeta.
  assert (He : list_remove i s = (if c.2 then list_node_destroy (slot_at ns c.1) else lret None) s).
  { unfold list_remove, lbind. rewrite (load_iter_run ns a s i c) by done. cbn [res_bind cursor_of i_prev i_pos].
    rewrite (read_at ns (al_items a)) by done. cbn [res_bind]. destruct c as [j []]; cbn [fst snd] in *; [|by rewrite decide_True].
    rewrite decide_False; [done|]. intros E. apply lookup_same in E; [lia|apply Hk|done|exact Hv]. }
  unfold run_to. rewrite He. destruct c as [j []]; cbn [fst snd] in *; [by apply take_run|]. exists s. split; [done|by exists ns].
Qed.

Lemma call_iter o a s r a' : stands_for a s -> (Z.of_nat (length (al_items a)) < 2 ^ 31 - 1)%Z ->
  match o with
  | IterReset _ | IterDestroy _ | NextItem _ | Insert _ _ _ | Find _ _ | Remove _ | Delete _ => True
  | _ => False
  end -> meaning o a = Some (r, a') -> run_to (call o) s r a'.
Proof.
  intros [ns Hr] Hlen Ho Hm. pose proof (r_links _ _ _ Hr) as Hk. pose proof (k_len _ _ _ Hk) as Hl.
  destruct o; try done; cbn [meaning] in Hm; apply fmap_Some in Hm as (c & Hg & Hm);
    pose proof (assoc_get_Forall _ _ _ _ (r_valid _ _ _ Hr) Hg) as Hv; pose proof (load_iter_run ns a s _ c Hr Hg) as Hli.
  - injection Hm as -> ->. destruct (store_iter_run ns a s i (O, false) Hr) as (s' & Hs & Hr'); [cbn; lia|].
    exists s'. split; [|by exists ns]. cbn [call]. unfold list_iterator_reset, lbind. rewrite Hli. cbn [res_bind]. unfold lget at 1. cbn [res_bind].
    pose proof (k_head _ _ _ Hk) as Hh. cbn [fst] in Hh. rewrite Hh. unfold cursor_of in Hs. cbn [fst snd slot_at] in Hs. by rewrite Hs.
  - injection Hm as -> ->. eexists. split; [cbn [call]; unfold list_iterator_destroy, lbind; rewrite Hli; done|]. exists ns.
    rewrite (r_iters _ _ _ Hr), assoc_del_map. apply iters_rep; [done|]. apply assoc_del_Forall, Hr.
  - injection Hm as -> ->. destruct (list_next_run ns a s i c Hr Hg) as (s' & Hs & Hr'). apply (run_then _ AData). exists s'. split; [done|by exists ns].
  - pose proof (put_run ok ns a s c.1 x Hr) as Hp. rewrite <- Hm in Hp. cbn [fst snd] in Hp.
    destruct Hp as (s' & Hs & Hr'); [destruct c as [j []]; cbn in Hv |- *; lia|lia|]. exists s'. split; [|done]. rewrite <- Hs. cbn [call].
    unfold list_insert, lbind. by rewrite Hli.
  - injection Hm as -> ->. pose proof (r_fuel _ _ _ Hr) as Hfu.
    destruct (find_next_run f i ns (Pos.to_nat (ll_fresh s)) a s c Hr Hg) as (s' & Hs & Hr'); [lia|]. apply (run_then _ AData). exists s'. split; [exact Hs|by exists ns].
  - pose proof (list_remove_run ns a s i c Hr Hg) as Hrm. cbn zeta in Hrm. apply (run_then _ AData) in Hrm. cbn [call].
    destruct c as [j []]; cbn [fst snd] in *; [destruct (take_out j a)|]; injection Hm as -> ->; exact Hrm.
  - destruct (list_remove_run ns a s i c Hr Hg) as (s' & Hs & ns' & Hr'). unfold run_to. cbn [call]. unfold list_delete, lbind. rewrite Hs. cbn [res_bind].
    destruct (if c.2 then _ else _) as [[x|] a2]; cbn [fst snd] in *; injection Hm as -> ->; [|exists s'; split; [done|by exists ns']].
    destruct (fdel_rep ns' a2 s' x Hr') as (s2 & Hs2 & Hr2). rewrite Hs2. exists s2. split; [done|by exists ns'].
Qed.

Lemma call_refines o a s r a' : stands_for a s -> (Z.of_nat (length (al_items a)) < 2 ^ 31 - 1)%Z ->
  meaning o a = Some (r, a') -> run_to (call o) s r a'.
Proof.
  intros Ha Hlen Hm. pose proof Ha as [ns Hr]. pose proof (r_links _ _ _ Hr) as Hk. pose proof (k_len _ _ _ Hk) as Hl.
  pose proof (k_head _ _ _ Hk) as Hh. cbn [fst] in Hh. pose proof (r_fuel _ _ _ Hr) as Hfu. pose proof (stands_count a s Ha) as Hc.
  assert (Hput : forall ok m x, (m <= length ns)%nat -> Some (put ok m x a) = Some (r, a') ->
    run_to (do v <- list_node_create ok (slot_at ns m) x; lret (AData v)) s r a').
  { intros ok m x Hle [= E]. pose proof (put_run ok ns a s m x Hr Hle) as Hp. rewrite E in Hp. apply Hp. lia. }
  assert (Hstay : forall r : answer D, run_to (lret r) s r a) by (intros r0; exists s; split; [done|exact Ha]).
  destruct o; try (eapply call_iter; [exact Ha|exact Hlen|exact I|exact Hm]); cbn [meaning] in Hm.
  1, 2: rewrite <- Hl in Hm; apply Hput in Hm; [|done]; destruct Hm as (s' & Hs & Hr'); exists s'; (split; [|done]);
    rewrite <- Hs; cbn [call]; unfold list_append, list_enqueue, lbind, lget; cbn [res_bind]; by rewrite (r_tail _ _ _ Hr).
  1, 2: apply (Hput _ 0%nat) in Hm; [exact Hm|lia].
  1, 2: injection Hm as <- <-; apply (run_then _ AData); apply (take_run ns a s 0 Hr); lia.
  - injection Hm as <- <-. apply (run_then list_peek AData). exists s. split; [|done]. unfold list_peek, lbind, lget. cbn [res_bind]. rewrite Hh.
    destruct (al_items a) as [|x l] eqn:Ei; [rewrite (nil_length_inv ns) by done; done|].
    destruct (lookup_lt_is_Some_2 ns 0) as [p Ep]; [rewrite Hl; cbn; lia|]. rewrite Ep. by rewrite (load_at ns (x :: l) s 0 p x).
  - injection Hm as <- <-. exists s. split; [|done]. cbn. by rewrite Hc.
  - injection Hm as <- <-. exists s. split; [|done]. cbn. rewrite Hc. by destruct (al_items a).
  - injection Hm as <- <-. apply (run_then _ AData). exists s. split; [|done]. unfold list_find_first, list_fuel, lbind, lget. cbn [res_bind].
    rewrite Hh. rewrite (find_loop_run f ns (al_items a) s Hk) by lia. by rewrite drop_0.
  - injection Hm as <- <-. apply (run_then _ AInt).
    destruct (delete_loop_run f (Pos.to_nat (ll_fresh s)) 0 0 ns a s Hr) as (s' & Hs & Hr'); [lia..|]. rewrite drop_0 in Hs, Hr'. exists s'. split; [exact Hs|done].
  - injection Hm as <- <-. apply (run_then _ AInt). exists s. split; [|done]. unfold list_for_each, list_fuel, lbind, lget. cbn [res_bind].
    rewrite Hh. rewrite (each_loop_run f ns (al_items a) s Hk) by lia. by rewrite drop_0.
  - injection Hm as <- <-. by apply (run_then (list_sort cmp) (fun _ => AUnit) s tt), list_sort_run.
  - injection Hm as Hm. destruct ok; injection Hm as <- <-; [|apply (Hstay (AIter None))].
    eexists. split; [cbn [call]; unfold list_iterator_create, lbind, lget, lmodify, lret; cbn; by rewrite (r_next _ _ _ Hr)|]. exists ns.
    destruct Hr as [_ Ho Hf _ Ht Hc' Hi Hv Hx Hd Hde]. split; cbn -[cursor_of]; try done.
    + rewrite Hh. rewrite Hi. done. + constructor; [cbn; lia|done].
Qed.

(** ** Sequences of calls *)

Lemma place_perm cmp (y : D) l : place cmp y l ≡ₚ y :: l.
Proof. induction l as [|z l IH]; [done|]. cbn. destruct (cmp y z <? 0)%Z; [done|]. rewrite IH. constructor. Qed.

Lemma sort_step_perm cmp acc (y : D) : sort_step cmp acc y ≡ₚ y :: acc.
Proof.
  unfold sort_step. destruct (last acc) as [z|] eqn:E; [|by apply last_None in E as ->].
  destruct (cmp y z <? 0)%Z; [apply place_perm|]. by rewrite <- Permutation_cons_append.
Qed.

Lemma sorted_by_perm cmp (l : list D) : sorted_by cmp l ≡ₚ l.
Proof.
  unfold sorted_by. change l with ([] ++ l) at 2. generalize (@nil D). induction l as [|y l IH]; intros acc; cbn; [by rewrite app_nil_r|].
  rewrite IH, sort_step_perm. cbn. by rewrite <- Permutation_middle.
Qed.

Lemma take_delete_at {A} (l : list A) m : take m (delete m l) = take m l.
Proof. revert m. induction l as [|y l IH]; intros [|m]; cbn; try done. f_equal. apply IH. Qed.

Lemma sweep_items f : forall todo m a, drop m (al_items a) = todo -> al_items (al_sweep f m todo a) = take m (al_items a) ++ List.filter (fun x => negb (f x)) todo.
Proof.
  induction todo as [|x todo IH]; intros m a Hd; cbn.
  - rewrite app_nil_r. symmetry. apply take_ge. assert (H0 : length (drop m (al_items a)) = O) by (by rewrite Hd). rewrite length_drop in H0. lia.
  - assert (Hx : al_items a !! m = Some x) by (rewrite <- (Nat.add_0_r m), <- lookup_drop, Hd; done).
    assert (Hd' : drop (S m) (al_items a) = todo) by (rewrite (drop_S _ _ _ Hx) in Hd; congruence).
    destruct (f x); cbn [negb]; rewrite IH; cbn [al_items al_fdel al_remove with_items].
    + by rewrite take_delete_at. + by rewrite (drop_delete _ _ _ Hx). + by rewrite (take_S_r _ _ _ Hx), <- app_assoc. + done.
Qed.

Lemma meaning_length o a r a' : meaning o a = Some (r, a') -> (length (al_items a') <= S (length (al_items a)))%nat.
Proof.
  assert (Hput : forall ok m x, (length (al_items (put (D := D) ok m x a).2) <= S (length (al_items a)))%nat).
  { intros [] m x; cbn; [|lia]. unfold ins. rewrite length_app. cbn. rewrite length_take, length_drop. lia. }
  assert (Hout : forall m, (length (al_items (take_out m a).2) <= S (length (al_items a)))%nat).
  { intros m. unfold take_out. destruct (al_items a !! m) eqn:E; cbn; [|lia]. rewrite length_delete by eauto. lia. }
  destruct o; cbn [meaning]; try (intros Hm; injection Hm as <- <-; lia).
  all: try (intros Hm; injection Hm as Hm; specialize (Hput ok); match type of Hm with put _ ?m ?x _ = _ => specialize (Hput m x); rewrite Hm in Hput; exact Hput end).
  1, 2: intros Hm; injection Hm as <- <-; exact (Hout 0%nat).
  - intros Hm. injection Hm as <- <-. rewrite (sweep_items f _ 0 a) by done. rewrite take_0. cbn [app].
    etransitivity; [apply List.filter_length_le|lia].
  - intros Hm. injection Hm as <- <-. destruct (decide _); [|lia]. cbn. rewrite (sorted_by_perm cmp). lia.
  - intros Hm. injection Hm as Hm. destruct ok; injection Hm as <- <-; cbn; lia.
  - intros (c & _ & Hm)%fmap_Some. injection Hm as -> ->. cbn. lia.
  - intros (c & _ & Hm)%fmap_Some. injection Hm as -> ->. cbn. lia.
  - intros (c & _ & Hm)%fmap_Some. injection Hm as -> ->. cbn. lia.
  - intros (c & _ & Hm)%fmap_Some. specialize (Hput ok c.1 x). by rewrite <- Hm in Hput.
  - intros (c & _ & Hm)%fmap_Some. injection Hm as -> ->. cbn. lia.
  - intros (c & _ & Hm)%fmap_Some. destruct c.2; [|injection Hm as -> ->; lia]. specialize (Hout c.1). destruct (take_out c.1 a). injection Hm as -> ->. done.
  - intros (c & _ & Hm)%fmap_Some. specialize (Hout c.1). destruct c.2; [|injection Hm as -> ->; lia].
    destruct (take_out c.1 a) as [[x|] a2]; injection Hm as -> ->; done.
Qed.

Lemma calls_refine : forall ops a s rs a', stands_for a s -> (Z.of_nat (length (al_items a) + length ops) < 2 ^ 31)%Z ->
  meanings ops a = Some (rs, a') -> run_to (calls ops) s rs a'.
Proof.
  induction ops as [|o ops IH]; intros a s rs a' Ha Hl Hm; cbn in Hm.
  - injection Hm as <- <-. by exists s.
  - apply bind_Some in Hm as ([r a1] & Hm1 & Hm). apply bind_Some in Hm as ([rs2 a2] & Hm2 & [= <- <-]). cbn [length] in Hl.
    pose proof (meaning_length _ _ _ _ Hm1) as Hl1. destruct (call_refines o a s r a1 Ha) as (s1 & Hs1 & Hr1); [lia|done|].
    destruct (IH a1 s1 rs2 a2 Hr1) as (s2 & Hs2 & Hr2); [lia|done|]. exists s2. split; [|done]. cbn [calls]. unfold lbind. rewrite Hs1. cbn [res_bind]. by rewrite Hs2.
Qed.

(** ** Destruction *)

Lemma free_loop_run ns (xs : list D) : NoDup ns -> length ns = length xs -> forall fuel m s, (length ns - m <= fuel)%nat ->
  (forall i n x, (m <= i)%nat -> ns !! i = Some n -> xs !! i = Some x -> ll_nodes s !! n = Some (node x (ns !! S i))) ->
  (forall n, is_Some (ll_nodes s !! n) -> exists i, (m <= i)%nat /\ ns !! i = Some n) ->
  exists s', free_loop fuel (ns !! m) s = Ret (tt, s') /\ ll_nodes s' = ∅ /\ ll_iters s' = ll_iters s /\
    ll_deleted s' = ll_deleted s ++ (if ll_fDel s then drop m xs else []).
Proof.
  intros Hnd Hl. induction fuel as [|fuel IH]; intros m s Hf Hk Ho; destruct (ns !! m) as [p|] eqn:Ep.
  1: apply lookup_lt_Some in Ep; lia.
  1, 3: apply lookup_ge_None in Ep; exists s; split; [done|]; rewrite drop_ge by lia; split; [|split; [done|by destruct (ll_fDel s); rewrite app_nil_r]];
    apply map_eq; intros n; rewrite lookup_empty; destruct (ll_nodes s !! n) eqn:E; [|done]; destruct (Ho n) as (i & Hi & En); [by rewrite E|];
    apply lookup_lt_Some in En; lia.
  destruct (lookup_lt_is_Some_2 xs m) as [x Ex]; [rewrite <- Hl; by eapply lookup_lt_Some|]. cbn [free_loop]. unfold lbind at 1, load_node, lget, llift, lbind at 1.
  cbn [res_bind]. rewrite (Hk m p x) by done. cbn [res_bind n_data n_next node]. unfold lbind, call_fDel, lmodify at 1. cbn [res_bind]. unfold lmodify. cbn [res_bind].
  set (s1 := set_nodes _ _). destruct (IH (S m) s1) as (s' & Hs & Hn & Hi & Hd); [lia| | |].
  - intros i n y Hi En Ey. replace (ll_nodes s1) with (delete p (ll_nodes s)) by (unfold s1; by destruct (ll_fDel s)).
    rewrite lookup_delete_ne; [apply Hk; [lia|done..]|]. intros ->. assert (i = m) by (by eapply NoDup_lookup). lia.
  - intros n. replace (ll_nodes s1) with (delete p (ll_nodes s)) by (unfold s1; by destruct (ll_fDel s)). intros [Hne Hn]%lookup_delete_is_Some.
    destruct (Ho n Hn) as (i & Hi & En). exists i. split; [|done]. destruct (decide (i = m)) as [->|]; [congruence|lia].
  - exists s'. split_and!; [exact Hs|done|rewrite Hi; unfold s1; by destruct (ll_fDel s)|]. rewrite Hd, (drop_S _ _ _ Ex). unfold s1.
    destruct (ll_fDel s) eqn:E; cbn; rewrite E; [by rewrite <- app_assoc|done].
Qed.

Lemma list_destroy_run a s : stands_for a s -> exists s', list_destroy s = Ret (tt, s') /\ ll_nodes s' = ∅ /\ ll_iters s' = [] /\
  ll_deleted s' = al_deleted a ++ (if al_fDel a then al_items a else []).
Proof.
  intros [ns Hr]. pose proof (r_links _ _ _ Hr) as Hk. pose proof (k_head _ _ _ Hk) as Hh. cbn [fst] in Hh. pose proof (r_fuel _ _ _ Hr) as Hfu.
  destruct (free_loop_run ns (al_items a) (k_nodup _ _ _ Hk) (k_len _ _ _ Hk) (Pos.to_nat (ll_fresh s)) 0 (set_iters [] s)) as (s' & Hs & Hn & Hi & Hd); [lia| | |].
  - intros i n x _. apply Hk.
  - intros n Hn. apply (r_only _ _ _ Hr), list_elem_of_lookup in Hn as [i Hi]. exists i. split; [lia|done].
  - exists s'. unfold list_destroy, list_fuel, lbind, lmodify, lget. cbn [res_bind ll_head set_iters]. rewrite Hh. split_and!; [exact Hs|done..|].
    rewrite Hd. cbn. by rewrite (r_deleted _ _ _ Hr), (r_fDel _ _ _ Hr), drop_0.
Qed.
End Calls.

(** C38: Take any calls on a new list, with memory that may or may not be there for each
    node and iterator: they answer as the same calls on a sequence whose iterators are
    places in it, and no call uses a freed node, overflows the count or fails an
    assertion; [list_destroy] then frees every node and iterator, and gives the items that
    are left to the deletion function, in their order. *)
Theorem lists_are_sequences {D : Type} (fDel : bool) (ops : list (op D)) (rs : list (answer D)) (a : alist D) :
  meanings ops (al_create fDel) = Some (rs, a) -> (Z.of_nat (length ops) < 2 ^ 31)%Z ->
  exists s, calls ops (list_create fDel) = Ret (rs, s) /\ ll_count s = Z.of_nat (length (al_items a)) /\
    exists s', list_destroy s = Ret (tt, s') /\ ll_nodes s' = ∅ /\ ll_iters s' = [] /\
      ll_deleted s' = al_deleted a ++ (if al_fDel a then al_items a else []).
Proof.
  intros Hm Hl. destruct (calls_refine ops (al_create fDel) (list_create fDel) rs a) as (s & Hs & Hr); [exists []; apply create_rep|done|done|].
  exists s. split; [done|]. split; [by apply stands_count|]. by apply list_destroy_run.
Qed.

(** ** Sorting *)

Section Sorted.
Context {D : Type} (cmp : D -> D -> Z).

Definition le_by (x y : D) : Prop := (0 <= cmp y x)%Z.

Context (Hasym : forall x y, (cmp x y < 0)%Z -> le_by x y) (Htrans : forall x y z, le_by x y -> le_by y z -> le_by x z).

Lemma place_sorted y l : StronglySorted le_by l -> StronglySorted le_by (place cmp y l).
Proof.
  induction 1 as [|z l Hl IH Hz]; cbn; [by repeat constructor|]. destruct (Z.ltb_spec (cmp y z) 0) as [Hc|Hc].
  - constructor; [by constructor|]. constructor; [by apply Hasym|]. eapply Forall_impl; [exact Hz|]. intros w Hw. eapply Htrans; [by apply Hasym|done].
  - constructor; [done|]. rewrite place_perm. by constructor.
Qed.

Lemma sort_step_sorted acc y : StronglySorted le_by acc -> StronglySorted le_by (sort_step cmp acc y).
Proof.
  intros Ha. unfold sort_step. destruct (last acc) as [z|] eqn:El; [|by repeat constructor].
  destruct (Z.ltb_spec (cmp y z) 0) as [Hc|Hc]; [by apply place_sorted|]. apply last_Some in El as [l' ->].
  apply StronglySorted_app. split_and!; [|done|by repeat constructor].
  intros w v Hw Hv. apply list_elem_of_singleton in Hv as ->. apply elem_of_app in Hw as [Hw|Hw%list_elem_of_singleton]; [|by subst].
  apply StronglySorted_app in Ha as (Hcross & _ & _). eapply Htrans; [apply (Hcross w z); [done|by apply list_elem_of_singleton]|exact Hc].
Qed.

(** The items equivalent to [w]. *)
Definition equivalent (w x : D) : bool := (0 <=? cmp x w)%Z && (0 <=? cmp w x)%Z.

Lemma place_stable w y l : StronglySorted le_by l -> List.filter (equivalent w) (place cmp y l) = List.filter (equivalent w) (l ++ [y]).
Proof.
  induction 1 as [|z l Hl IH Hz]; [done|]. cbn [place app]. destruct (Z.ltb_spec (cmp y z) 0) as [Hc|Hc].
  2:{ cbn [List.filter]. rewrite IH. done. }
  rewrite app_comm_cons, List.filter_app. cbn [List.filter]. destruct (equivalent w y) eqn:Ey; [|by rewrite app_nil_r].
  assert (Hnone : List.filter (equivalent w) (z :: l) = []).
  { assert (Hall : Forall (fun v => equivalent w v = false) (z :: l)); [|by induction Hall as [|v ? Hv _ IHv]; [|cbn; rewrite Hv]].
    assert (Hge : Forall (le_by z) (z :: l)) by (constructor; [unfold le_by; destruct (Z.le_gt_cases 0 (cmp z z)) as [H0|H0]; [done|exact (Hasym _ _ H0)]|done]).
    eapply Forall_impl; [exact Hge|]. intros v Hv. apply not_true_iff_false. intros Ev. unfold equivalent in *.
    apply andb_true_iff in Ey as [Ey1 Ey2]. apply andb_true_iff in Ev as [Ev1 Ev2]. apply Z.leb_le in Ey1, Ey2, Ev1, Ev2.
    assert (le_by z y); [|unfold le_by in *; lia]. eapply Htrans; [exact Hv|]. eapply Htrans; [exact Ev2|exact Ey1]. }
  cbn [List.filter] in Hnone. rewrite Hnone. done.
Qed.

Lemma sort_step_stable w acc y : StronglySorted le_by acc -> List.filter (equivalent w) (sort_step cmp acc y) = List.filter (equivalent w) (acc ++ [y]).
Proof.
  intros Ha. unfold sort_step. destruct (last acc) as [z|] eqn:El; [|by apply last_None in El as ->].
  destruct (cmp y z <? 0)%Z; [by apply place_stable|done].
Qed.

Lemma fold_sorts l : forall acc, StronglySorted le_by acc -> StronglySorted le_by (foldl (sort_step cmp) acc l) /\
  forall w, List.filter (equivalent w) (foldl (sort_step cmp) acc l) = List.filter (equivalent w) (acc ++ l).
Proof.
  induction l as [|y l IH]; intros acc Ha; cbn [foldl]; [by rewrite app_nil_r|].
  destruct (IH (sort_step cmp acc y)) as [Hs Hf]; [by apply sort_step_sorted|]. split; [done|]. intros w.
  rewrite Hf, List.filter_app, sort_step_stable by done. by rewrite <- List.filter_app, <- app_assoc.
Qed.
End Sorted.

(** When the comparison is a total preorder, [list_sort] of a list with any history
    of calls gives a sorted list of the same items in which equivalent items keep their
    order, and takes every iterator back to the first item. *)
Theorem list_sort_sorts {D : Type} (cmp : D -> D -> Z) (fDel : bool) (ops : list (op D)) (rs : list (answer D)) (a : alist D) :
  (forall x y, (cmp x y < 0)%Z -> le_by cmp x y) -> (forall x y z, le_by cmp x y -> le_by cmp y z -> le_by cmp x z) ->
  meanings ops (al_create fDel) = Some (rs, a) -> (Z.of_nat (length ops) < 2 ^ 31)%Z ->
  exists s s' l, calls ops (list_create fDel) = Ret (rs, s) /\ list_sort cmp s = Ret (tt, s') /\
    stands_for (if decide (1 < length l)%nat then with_items l (fun _ => (O, false)) a else a) s' /\
    StronglySorted (le_by cmp) l /\ Permutation l (al_items a) /\
    forall w, List.filter (equivalent cmp w) l = List.filter (equivalent cmp w) (al_items a).
Proof.
  intros Hasym Htrans Hm Hl. destruct (calls_refine ops (al_create fDel) (list_create fDel) rs a) as (s & Hs & Hr); [exists []; apply create_rep|done|done|].
  destruct (list_sort_run cmp a s Hr) as (s' & Hs' & Hr'). exists s, s', (sorted_by cmp (al_items a)).
  destruct (fold_sorts cmp Hasym Htrans (al_items a) [] ltac:(constructor)) as [Hsort Hstable].
  assert (Hlen : length (sorted_by cmp (al_items a)) = length (al_items a)) by (by rewrite sorted_by_perm).
  rewrite Hlen. split_and!; [done..|apply sorted_by_perm|exact Hstable].
Qed.

(** An iterator loses its current item when the item after it is removed by other
    means: a second iterator has removed 2 from 1, 2, 3, and the first, that returned 1
    last, then removes nothing, inserts 9 after 1 and not before it, and goes on with 3.
    Without that removal it removes 1, and inserts before it. *)
Theorem iterator_loses_current :
  let start := [Append true 1; Append true 2; Append true 3; IterCreate true; IterCreate true; NextItem 1; NextItem 2; NextItem 2]%Z in
  let answers ops := (fun r => skipn 8 r.1) <$> (match calls (start ++ ops) (list_create false) with Ret r => Some r | _ => None end) in
  answers [Remove 2; Remove 1; Insert true 1 9; NextItem 1; Pop; Pop]%Z =
    Some [AData (Some 2); AData None; AData (Some 9); AData (Some 3); AData (Some 1); AData (Some 9)]%Z /\
  answers [Insert true 1 9; NextItem 1; Pop; Pop]%Z =
    Some [AData (Some 9); AData (Some 2); AData (Some 9); AData (Some 1)]%Z /\
  answers [Remove 1; NextItem 1]%Z = Some [AData (Some 1); AData (Some 2)]%Z.
Proof. vm_compute. done. Qed.

(** ** A list that is used *)

Module ListSample.
Definition history : list (op Z) :=
  [Append true 3; Append true 1; Prepend true 2; Push false 7; IterCreate true; NextItem 1; NextItem 1; Insert true 1 5; Delete 1; Append true 1]%Z.

Lemma lists_are_sequences_witness : exists rs a, meanings history (al_create true) = Some (rs, a) /\
  exists s, calls history (list_create true) = Ret (rs, s) /\ ll_count s = Z.of_nat (length (al_items a)) /\
    exists s', list_destroy s = Ret (tt, s') /\ ll_nodes s' = ∅ /\ ll_iters s' = [] /\
      ll_deleted s' = al_deleted a ++ (if al_fDel a then al_items a else []).
Proof. eexists _, _. split; [vm_compute; reflexivity|]. apply (lists_are_sequences true history); [vm_compute; reflexivity|vm_compute; reflexivity]. Defined.

Lemma list_sort_sorts_witness : exists rs a, meanings history (al_create true) = Some (rs, a) /\ al_items a = [2; 5; 1; 1]%Z /\
  exists s s' l, calls history (list_create true) = Ret (rs, s) /\ list_sort Z.sub s = Ret (tt, s') /\
    stands_for (if decide (1 < length l)%nat then with_items l (fun _ => (O, false)) a else a) s' /\
    StronglySorted (le_by Z.sub) l /\ Permutation l (al_items a) /\
    forall w, List.filter (equivalent Z.sub w) l = List.filter (equivalent Z.sub w) (al_items a).
Proof.
  eexists _, _. split; [vm_compute; reflexivity|]. split; [vm_compute; reflexivity|].
  apply (list_sort_sorts Z.sub true history); [unfold le_by; lia|unfold le_by; lia|vm_compute; reflexivity|vm_compute; reflexivity].
Defined.
End ListSample.
