(* ===== verification/Client.v ===== *)
(** * The client library (libnpclient)

    What a client of the server runs: identifiers for fids and tags (pool.c), one
    request and its reply (fsys.c), and the operations built on it.  The peer is
    the class [Peer]: what comes back for a request that is sent, and the memory
    allocator.  Messages and fids are objects on a heap; freeing one twice or using
    a freed one is [UB].  A function that waits for ever, or loops longer than the
    fuel allows, does not return: its outcome is [Ret None]. *)
From S2P Require Import Prelude Cbuf Protocol Npstring Wire Fcall Hash Ioctx Ops.
From stdpp Require Import list gmap.
#[local] Open Scope Z_scope.

Declare Scope client_scope.
Delimit Scope client_scope with client.
#[global] Open Scope client_scope.

(** A message: Rreaddir is built by the server in place. *)
Inductive msg :=
| M (c : np_call)
| M_rreaddir (data : list Z).

(** What comes back: an error of the transport, the end of the stream, or a message
    with its tag. *)
Inductive arrival :=
| A_error (e : Z)
| A_eof
| A_msg (tag : Z) (m : msg).

Class Peer := {
  peer : Type;
  (** [np_trans_send] of a request with its tag, and [np_trans_recv] *)
  exchange : peer -> Z -> np_call -> arrival * peer;
  (** is there memory? *)
  alloc : peer -> bool * peer;
}.

(** ** Pools of identifiers (pool.c) *)

(** The position of the lowest bit of a byte that is 0. *)
Definition m2id : list Z :=
  [0; 1; 0; 2; 0; 1; 0; 3; 0; 1; 0; 2; 0; 1; 0; 4; 0; 1; 0; 2; 0; 1; 0; 3; 0; 1; 0; 2; 0; 1; 0; 5;
   0; 1; 0; 2; 0; 1; 0; 3; 0; 1; 0; 2; 0; 1; 0; 4; 0; 1; 0; 2; 0; 1; 0; 3; 0; 1; 0; 2; 0; 1; 0; 6;
   0; 1; 0; 2; 0; 1; 0; 3; 0; 1; 0; 2; 0; 1; 0; 4; 0; 1; 0; 2; 0; 1; 0; 3; 0; 1; 0; 2; 0; 1; 0; 5;
   0; 1; 0; 2; 0; 1; 0; 3; 0; 1; 0; 2; 0; 1; 0; 4; 0; 1; 0; 2; 0; 1; 0; 3; 0; 1; 0; 2; 0; 1; 0; 7;
   0; 1; 0; 2; 0; 1; 0; 3; 0; 1; 0; 2; 0; 1; 0; 4; 0; 1; 0; 2; 0; 1; 0; 3; 0; 1; 0; 2; 0; 1; 0; 5;
   0; 1; 0; 2; 0; 1; 0; 3; 0; 1; 0; 2; 0; 1; 0; 4; 0; 1; 0; 2; 0; 1; 0; 3; 0; 1; 0; 2; 0; 1; 0; 6;
   0; 1; 0; 2; 0; 1; 0; 3; 0; 1; 0; 2; 0; 1; 0; 4; 0; 1; 0; 2; 0; 1; 0; 3; 0; 1; 0; 2; 0; 1; 0; 5;
   0; 1; 0; 2; 0; 1; 0; 3; 0; 1; 0; 2; 0; 1; 0; 4; 0; 1; 0; 2; 0; 1; 0; 3; 0; 1; 0; 2; 0; 1; 0; 0].

(** [msize] is the length of [idmap]; it is an [int], and [msize * 8] does not
    overflow below 2^28 bytes, that is 2^31 identifiers in use at once. *)
Record Npcpool := { maxid : Z; idmap : list Z }.

Definition npc_create_pool (maxid : Z) : Npcpool := {| maxid := maxid; idmap := replicate 32 0 |}.

(** The first byte with a bit that is 0, or the length. *)
Fixpoint first_free (l : list Z) : nat :=
  match l with
  | [] => O
  | b :: l => if b =? 255 then S (first_free l) else O
  end.

(** The size after growing. *)
Definition grown (p : Npcpool) : Z :=
  let n := zlength (idmap p) + 32 in
  if maxid p <? n * 8 then maxid p / 8 + 1 else n.

Definition grow (p : Npcpool) : Npcpool :=
  {| maxid := maxid p; idmap := idmap p ++ replicate (Z.to_nat (grown p - zlength (idmap p))) 0 |}.

(** Does the pool have to grow for the next identifier? *)
Definition full (p : Npcpool) : bool := (length (idmap p) <=? first_free (idmap p))%nat.
Definition can_grow (p : Npcpool) : bool := zlength (idmap p) * 8 <? maxid p.

Definition take_id (p : Npcpool) : option (Z * Npcpool) :=
  let i := first_free (idmap p) in
  match idmap p !! i with
  | None => None
  | Some b =>
      let bit := nth (Z.to_nat b) m2id 0 in
      Some (bit + Z.of_nat i * 8, {| maxid := maxid p; idmap := <[i := Z.lor b (Z.shiftl 1 bit)]> (idmap p) |})
  end.

(** [None]: the thread waits until an identifier is put back. *)
Definition npc_get_id (mem : bool) (p : Npcpool) : option (Z * Npcpool) :=
  take_id (if full p && can_grow p && mem then grow p else p).

Definition npc_put_id (p : Npcpool) (id : Z) : res Npcpool :=
  match idmap p !! Z.to_nat (id / 8) with
  | None => UB
  | Some b => Ret {| maxid := maxid p; idmap := <[Z.to_nat (id / 8) := Z.ldiff b (Z.shiftl 1 (id mod 8))]> (idmap p) |}
  end.

(** ** State *)

Abbreviation fid_ptr := positive (only parsing).
Abbreviation msg_ptr := positive (only parsing).

(** [cf_buf] holds [buf_size] bytes.  [cf_buf_len] and [cf_buf_used] are [None] as
    long as they were not set: [npc_fid_alloc] leaves them as they are in memory. *)
Record Npcfid := {
  cf_iounit : Z;
  cf_fid : Z;
  cf_offset : Z;
  cf_buf : option (list Z);
  cf_buf_len : option Z;
  cf_buf_used : option Z;
}.

(** [trans] is [NULL] only before the transport was made. *)
Record Npcfsys := {
  fs_flags : Z;
  fs_msize : Z;
  fs_refcount : Z;
  fs_tagpool : Npcpool;
  fs_fidpool : Npcpool;
}.

Section State.
Context `{Peer}.

(** [cs_fs] is [None] once it was freed; [cs_sent] are the requests with their
    tags, [cs_err] is the error of [np_uerror]. *)
Record cstate := {
  cs_fs : option Npcfsys;
  cs_fids : gmap fid_ptr Npcfid;
  cs_msgs : gmap msg_ptr (Z * msg);
  cs_next : positive;
  cs_err : Z;
  cs_peer : peer;
  cs_sent : list (Z * np_call);
}.

Definition set_fs v s := {| cs_fs := v; cs_fids := cs_fids s; cs_msgs := cs_msgs s; cs_next := cs_next s;
  cs_err := cs_err s; cs_peer := cs_peer s; cs_sent := cs_sent s |}.
Definition set_cfids v s := {| cs_fs := cs_fs s; cs_fids := v; cs_msgs := cs_msgs s; cs_next := cs_next s;
  cs_err := cs_err s; cs_peer := cs_peer s; cs_sent := cs_sent s |}.
Definition set_msgs v s := {| cs_fs := cs_fs s; cs_fids := cs_fids s; cs_msgs := v; cs_next := cs_next s;
  cs_err := cs_err s; cs_peer := cs_peer s; cs_sent := cs_sent s |}.
Definition set_cerr v s := {| cs_fs := cs_fs s; cs_fids := cs_fids s; cs_msgs := cs_msgs s; cs_next := cs_next s;
  cs_err := v; cs_peer := cs_peer s; cs_sent := cs_sent s |}.
Definition set_peer v s := {| cs_fs := cs_fs s; cs_fids := cs_fids s; cs_msgs := cs_msgs s; cs_next := cs_next s;
  cs_err := cs_err s; cs_peer := v; cs_sent := cs_sent s |}.
Definition set_cnext v s := {| cs_fs := cs_fs s; cs_fids := cs_fids s; cs_msgs := cs_msgs s; cs_next := v;
  cs_err := cs_err s; cs_peer := cs_peer s; cs_sent := cs_sent s |}.
Definition set_sent v s := {| cs_fs := cs_fs s; cs_fids := cs_fids s; cs_msgs := cs_msgs s; cs_next := cs_next s;
  cs_err := cs_err s; cs_peer := cs_peer s; cs_sent := v |}.

Definition CM (A : Type) : Type := cstate -> res (option (A * cstate)).

Definition cret {A} (a : A) : CM A := fun s => Ret (Some (a, s)).
Definition cbind {A B} (c : CM A) (f : A -> CM B) : CM B := fun s =>
  let! o := c s in match o with Some (a, s) => f a s | None => Ret None end.
Definition clift {A} (c : res A) : CM A := fun s => let! a := c in Ret (Some (a, s)).
Definition cmodify (f : cstate -> cstate) : CM unit := fun s => Ret (Some (tt, f s)).
Definition cget {A} (f : cstate -> A) : CM A := fun s => Ret (Some (f s, s)).
Definition never {A} : CM A := fun _ => Ret None.
End State.

Notation "'do' x <- c ; k" := (cbind c (fun x => k))
  (at level 100, x pattern, c at level 100, k at level 200, right associativity) : client_scope.

Section Client.
Context `{Peer}.

Definition ECONNABORTED : Z := 103.
Definition ENOTDIR : Z := 20.
Definition ERANGE : Z := 34.

Definition cuerror (e : Z) : CM unit := cmodify (set_cerr e).
Definition crerror : CM Z := cget cs_err.

(** The sum of two [int]s; it must be one. *)
Definition int_sum (a b : Z) : res Z := if (- 2 ^ 31 <=? a + b) && (a + b <? 2 ^ 31) then Ret (a + b) else UB.

(** A member that must have been set. *)
Definition was_set (o : option Z) : res Z := match o with Some n => Ret n | None => UB end.

Definition have_memory : CM bool := fun s =>
  let '(b, w) := alloc (cs_peer s) in Ret (Some (b, set_peer w s)).

Definition load_fs : CM Npcfsys := do o <- cget cs_fs; clift (match o with Some fs => Ret fs | None => UB end).
Definition load_cfid (f : fid_ptr) : CM Npcfid :=
  do m <- cget cs_fids; clift (match m !! f with Some x => Ret x | None => UB end).
Definition load_msg (p : msg_ptr) : CM (Z * msg) :=
  do m <- cget cs_msgs; clift (match m !! p with Some x => Ret x | None => UB end).
Definition store_fs (fs : Npcfsys) : CM unit := cmodify (set_fs (Some fs)).
Definition store_cfid (f : fid_ptr) (x : Npcfid) : CM unit := cmodify (fun s => set_cfids (<[f := x]> (cs_fids s)) s).
Definition upd_cfid (f : fid_ptr) (g : Npcfid -> Npcfid) : CM unit := do x <- load_cfid f; store_cfid f (g x).

Definition new_ptr : CM positive := do x <- cget cs_next; do _ <- cmodify (set_cnext (Pos.succ x)); cret x.

Definition new_msg (tag : Z) (m : msg) : CM msg_ptr :=
  do p <- new_ptr; do _ <- cmodify (fun s => set_msgs (<[p := (tag, m)]> (cs_msgs s)) s); cret p.

(** [free] of a message, and of one that may be [NULL]. *)
Definition free_msg (p : msg_ptr) : CM unit :=
  do _ <- load_msg p; cmodify (fun s => set_msgs (delete p (cs_msgs s)) s).
Definition free_opt (o : option msg_ptr) : CM unit := match o with Some p => free_msg p | None => cret tt end.

(** The [np_create_] functions: the message, or [NULL]. *)
Definition create (c : np_call) : CM (option msg_ptr) :=
  do ok <- have_memory;
  if ok then do p <- new_msg NOTAG (M c); cret (Some p) else cret None.

Definition set_cf_iounit v x := {| cf_iounit := v; cf_fid := cf_fid x; cf_offset := cf_offset x; cf_buf := cf_buf x;
  cf_buf_len := cf_buf_len x; cf_buf_used := cf_buf_used x |}.
Definition set_cf_offset v x := {| cf_iounit := cf_iounit x; cf_fid := cf_fid x; cf_offset := v; cf_buf := cf_buf x;
  cf_buf_len := cf_buf_len x; cf_buf_used := cf_buf_used x |}.
Definition set_cf_buf v x := {| cf_iounit := cf_iounit x; cf_fid := cf_fid x; cf_offset := cf_offset x; cf_buf := v;
  cf_buf_len := cf_buf_len x; cf_buf_used := cf_buf_used x |}.
Definition set_cf_filled n u x := {| cf_iounit := cf_iounit x; cf_fid := cf_fid x; cf_offset := cf_offset x;
  cf_buf := cf_buf x; cf_buf_len := n; cf_buf_used := u |}.
Definition set_tagpool v x := {| fs_flags := fs_flags x; fs_msize := fs_msize x; fs_refcount := fs_refcount x;
  fs_tagpool := v; fs_fidpool := fs_fidpool x |}.
Definition set_fidpool v x := {| fs_flags := fs_flags x; fs_msize := fs_msize x; fs_refcount := fs_refcount x;
  fs_tagpool := fs_tagpool x; fs_fidpool := v |}.
Definition set_fs_msize v x := {| fs_flags := fs_flags x; fs_msize := v; fs_refcount := fs_refcount x;
  fs_tagpool := fs_tagpool x; fs_fidpool := fs_fidpool x |}.
Definition set_fs_refcount v x := {| fs_flags := fs_flags x; fs_msize := fs_msize x; fs_refcount := v;
  fs_tagpool := fs_tagpool x; fs_fidpool := fs_fidpool x |}.

(** [npc_get_id] on a pool of the file system: [realloc] is called to grow it. *)
Definition get_id (pool : Npcfsys -> Npcpool) (set : Npcpool -> Npcfsys -> Npcfsys) : CM Z :=
  do fs <- load_fs;
  let p := pool fs in
  do mem <- (if full p && can_grow p then have_memory else cret true);
  match npc_get_id mem p with
  | None => never
  | Some (id, p) => do _ <- store_fs (set p fs); cret id
  end.

Definition put_id (pool : Npcfsys -> Npcpool) (set : Npcpool -> Npcfsys -> Npcfsys) (id : Z) : CM unit :=
  do fs <- load_fs;
  do p <- clift (npc_put_id (pool fs) id);
  store_fs (set p fs).

(** ** The connection (fsys.c) *)

Definition npc_incref_fsys : CM unit := do fs <- load_fs; store_fs (set_fs_refcount (fs_refcount fs + 1) fs).

Definition npc_decref_fsys : CM unit :=
  do fs <- load_fs;
  let n := fs_refcount fs - 1 in
  if negb (n =? 0) then store_fs (set_fs_refcount n fs)
  else cmodify (set_fs None).

(** The file system, the transport and the pools with their maps are allocated. *)
Fixpoint allocs (n : nat) : CM bool :=
  match n with
  | O => cret true
  | S n => do ok <- have_memory; if ok then allocs n else do _ <- cuerror ENOMEM; cret false
  end.

Definition npc_create_fsys (msize flags : Z) : CM bool :=
  do ok <- have_memory;
  if negb ok then do _ <- cuerror ENOMEM; cret false
  else
    do _ <- cuerror 0;
    do ok <- allocs 6;
    if negb ok then cret false
    else
      do _ <- store_fs {| fs_flags := flags; fs_msize := u32 msize; fs_refcount := 1;
                fs_tagpool := npc_create_pool NOTAG; fs_fidpool := npc_create_pool NOFID |};
      cret true.

Definition is_tversion (c : np_call) : bool := match c with C_tversion _ _ => true | _ => false end.

(** The request is sent and the reply received and looked at; the reply that is
    not handed to the caller is freed. *)
Definition transact (tag : Z) (c : np_call) : CM (option msg_ptr) :=
  do w <- cget cs_peer;
  let '(a, w) := exchange w tag c in
  do _ <- cmodify (set_peer w);
  do _ <- cmodify (fun s => set_sent (cs_sent s ++ [(tag, c)]) s);
  match a with
  | A_error e => do _ <- cuerror e; cret None
  | A_eof => do _ <- cuerror EPROTO; cret None
  | A_msg rtag r =>
      if negb (tag =? rtag) then do _ <- cuerror EPROTO; cret None
      else match r with
           | M (C_rlerror e) => do _ <- cuerror e; cret None
           | _ => do p <- new_msg rtag r; cret (Some p)
           end
  end.

(** The reply, or [None] for -1. *)
Definition npc_rpc (tc : msg_ptr) : CM (option msg_ptr) :=
  do (_, m) <- load_msg tc;
  do c <- clift (match m with M c => Ret c | M_rreaddir _ => UB end);
  do tag <- (if is_tversion c then cret NOTAG else get_id fs_tagpool set_tagpool);
  let tag := u16 tag in
  do _ <- cmodify (fun s => set_msgs (<[tc := (tag, M c)]> (cs_msgs s)) s);
  do rc <- transact tag c;
  do _ <- (if negb (tag =? NOTAG) then put_id fs_tagpool set_tagpool tag else cret tt);
  cret rc.

(** A request and the contents of its reply; both are freed.  The code reads the
    reply before it frees it. *)
Definition npc_request (c : np_call) : CM (option msg) :=
  do tc <- create c;
  match tc with
  | None => do _ <- cuerror ENOMEM; cret None
  | Some tc =>
      do rc <- npc_rpc tc;
      match rc with
      | None => do _ <- free_msg tc; cret None
      | Some rc =>
          do (_, m) <- load_msg rc;
          do _ <- free_msg tc;
          do _ <- free_msg rc;
          cret (Some m)
      end
  end.

(** A request whose reply is not looked at: did it succeed? *)
Definition npc_request_ok (c : np_call) : CM bool := do o <- npc_request c; cret (bool_decide (is_Some o)).

(** ** Fids (fid.c, mount.c) *)

Definition npc_fid_alloc : CM (option fid_ptr) :=
  do ok <- have_memory;
  if negb ok then do _ <- cuerror ENOMEM; cret None
  else
    do id <- get_id fs_fidpool set_fidpool;
    do f <- new_ptr;
    do _ <- store_cfid f {| cf_iounit := 0; cf_fid := id; cf_offset := 0; cf_buf := None; cf_buf_len := None;
              cf_buf_used := None |};
    do _ <- npc_incref_fsys;
    cret (Some f).

Definition npc_fid_free (f : fid_ptr) : CM unit :=
  do x <- load_cfid f;
  do _ <- put_id fs_fidpool set_fidpool (cf_fid x);
  do _ <- npc_decref_fsys;
  cmodify (fun s => set_cfids (delete f (cs_fids s)) s).

Definition npc_clunk (f : fid_ptr) : CM bool :=
  do x <- load_cfid f;
  do ok <- npc_request_ok (C_tclunk (cf_fid x));
  if ok then do _ <- npc_fid_free f; cret true else cret false.

(** [(void)npc_clunk (fid)] that keeps the error. *)
Definition clunk_quietly (f : fid_ptr) : CM unit :=
  do e <- crerror;
  do _ <- npc_clunk f;
  cuerror e.
End Client.
