(* ===== verification/ClientOps.v ===== *)
(** * Operations of the client library (libnpclient)

    Mounting, walking, opening, reading and writing, directories, attributes and
    locks: one definition per function of the library.  Data that a function stores
    in a buffer of its caller is part of its result. *)
From S2P Require Import Prelude Cbuf Protocol Npstring Wire Fcall Hash Ioctx Ops Client.
From stdpp Require Import list gmap.
#[local] Open Scope Z_scope.

(** ** Paths *)

(** One round of the inner loop of [npc_walk]: at most [n] names from [s], what is
    left of [s], and whether the last [strchr] found a slash ([t]). *)
Fixpoint component (s : cstr) : cstr * option cstr :=
  match s with
  | [] => ([], None)
  | c :: s => if c =? 47 then ([], Some s) else let '(w, r) := component s in (c :: w, r)
  end.

Fixpoint skip_slashes (s : cstr) : cstr :=
  match s with
  | c :: s' => if c =? 47 then skip_slashes s' else s
  | [] => []
  end.

Fixpoint split_names (n : nat) (s : cstr) (t : bool) : list cstr * cstr * bool :=
  match n with
  | O => ([], s, t)
  | S n =>
      match skip_slashes s with
      | [] => ([], [], t)
      | s' =>
          match component s' with
          | (w, None) => ([w], s', false)
          | (w, Some r) => let '(ws, s2, t2) := split_names n r true in (w :: ws, s2, t2)
          end
      end
  end.

(** [dirname] and [basename] of libgen. *)
Definition strip_slashes (s : cstr) : cstr := reverse (skip_slashes (reverse s)).
Fixpoint drop_name (s : cstr) : cstr :=
  match s with
  | c :: s' => if c =? 47 then s else drop_name s'
  | [] => []
  end.
Fixpoint take_name (s : cstr) : cstr :=
  match s with
  | c :: s' => if c =? 47 then [] else c :: take_name s'
  | [] => []
  end.

Definition dirname (s : cstr) : cstr :=
  match strip_slashes s with
  | [] => match s with [] => [46] | _ => [47] end
  | s' =>
      match drop_name (reverse s') with
      | [] => [46]
      | d => match skip_slashes d with [] => [47] | d' => reverse d' end
      end
  end.

Definition libgen_basename (s : cstr) : cstr :=
  match s with
  | [] => [46]
  | _ => match strip_slashes s with [] => [47] | s' => reverse (take_name (reverse s')) end
  end.

Section Operations.
Context `{Peer}.

(** ** Walking (walk.c) *)

Definition npc_clone (f : fid_ptr) : CM (option fid_ptr) :=
  do x <- load_cfid f;
  do nf <- npc_fid_alloc;
  match nf with
  | None => cret None
  | Some nf =>
      do nx <- load_cfid nf;
      do ok <- npc_request_ok (C_twalk (cf_fid x) (cf_fid nx) []);
      if ok then cret (Some nf) else do _ <- npc_fid_free nf; cret None
  end.

(** The end of a failed walk: [tc] and [rc] are the messages that the variables
    point to, [from] is the fid that the last Twalk was sent for. *)
Definition walk_error (fid from : fid_ptr) (tc rc : option msg_ptr) : CM (option fid_ptr) :=
  do _ <- free_opt rc;
  do _ <- free_opt tc;
  do x <- load_cfid fid;
  do y <- load_cfid from;
  do _ <- (if cf_fid y =? cf_fid x then clunk_quietly fid else npc_fid_free fid);
  cret None.

(** The loop; [rc] is the variable as the last round left it. *)
Fixpoint npc_walk_loop (fuel : nat) (fid from : fid_ptr) (s : cstr) (t : bool) (rc : option msg_ptr) : CM (option fid_ptr) :=
  match fuel with
  | O => never
  | S fuel =>
      let '(wnames, s, t) := split_names (Z.to_nat MAXWELEM) s t in
      do x <- load_cfid fid;
      do y <- load_cfid from;
      do tc <- create (C_twalk (cf_fid y) (cf_fid x) wnames);
      match tc with
      | None => do _ <- cuerror ENOMEM; walk_error fid from None rc
      | Some tcp =>
          do r <- npc_rpc tcp;
          match r with
          | None => walk_error fid from tc rc
          | Some rcp =>
              do (_, m) <- load_msg rcp;
              do qids <- clift (match m with M (C_rwalk qids) => Ret qids | _ => UB end);
              if negb (zlength qids =? zlength wnames) then do _ <- cuerror ENOENT; walk_error fid fid tc r
              else
                do _ <- free_msg tcp;
                do _ <- free_msg rcp;
                if negb t || bool_decide (s = []) then cret (Some fid) else npc_walk_loop fuel fid fid s t r
          end
      end
  end.

Definition npc_walk (f : fid_ptr) (path : option cstr) : CM (option fid_ptr) :=
  match path with
  | None => npc_clone f
  | Some path =>
      let path := skip_slashes path in
      do ok <- have_memory;
      if negb ok then do _ <- cuerror ENOMEM; cret None
      else
        do fid <- npc_fid_alloc;
        match fid with
        | None => cret None
        | Some fid => npc_walk_loop (S (length path)) fid f path false None
        end
  end.

(** ** Mounting (mount.c) *)

Definition npc_finish : CM unit := npc_decref_fsys.

Definition npc_start (msize flags : Z) : CM bool :=
  do made <- npc_create_fsys msize flags;
  do _ <- (if negb made then cret tt
           else
             do o <- npc_request (C_tversion (u32 msize) version_L);
             match o with
             | None => cret tt
             | Some m =>
                 do (rmsize, v) <- clift (match m with M (C_rversion n v) => Ret (n, v) | _ => UB end);
                 do _ <- (if rmsize <? u32 msize then do fs <- load_fs; store_fs (set_fs_msize rmsize fs) else cret tt);
                 let v := default [] v in
                 do c <- clift (np_strcmp v {| len := zlength v; str := Some 0 |} version_L);
                 if c =? 0 then cret tt else cuerror EIO
             end);
  do e <- crerror;
  if negb (e =? 0) && made then do _ <- npc_finish; cret false else cret made.

(** [auth] is the caller's function, if there is one: did it succeed? *)
Definition npc_auth (aname : option cstr) (uid : Z) (auth : option (fid_ptr -> CM bool)) : CM (option fid_ptr) :=
  do o <- npc_fid_alloc;
  match o with
  | None => cret None
  | Some afid =>
      do x <- load_cfid afid;
      do tc <- create (C_tauth (cf_fid x) None aname uid);
      match tc with
      | None => do _ <- cuerror ENOMEM; do _ <- npc_fid_free afid; cret None
      | Some tc =>
          do rc <- npc_rpc tc;
          do res <- match rc with
                    | None =>
                        do _ <- npc_fid_free afid;
                        do e <- crerror;
                        do _ <- (if (e =? 0) || (e =? ENOENT) then cuerror 0 else cret tt);
                        cret None
                    | Some _ =>
                        do ok <- match auth with Some a => a afid | None => cret true end;
                        if ok then cret (Some afid) else do _ <- clunk_quietly afid; cret None
                    end;
          do _ <- free_msg tc;
          do _ <- free_opt rc;
          cret res
      end
  end.

Definition npc_attach (afid : option fid_ptr) (aname : option cstr) (uid : Z) : CM (option fid_ptr) :=
  do o <- npc_fid_alloc;
  do _ <- match o with
          | None => cret tt
          | Some fid =>
              do x <- load_cfid fid;
              do a <- match afid with Some a => do y <- load_cfid a; cret (cf_fid y) | None => cret NOFID end;
              do _ <- npc_request (C_tattach (cf_fid x) a None aname uid);
              cret tt
          end;
  do e <- crerror;
  match o with
  | Some fid => if negb (e =? 0) then do _ <- npc_fid_free fid; cret None else cret (Some fid)
  | None => cret None
  end.

Definition npc_mount (euid msize : Z) (aname : option cstr) (auth : option (fid_ptr -> CM bool)) : CM (option fid_ptr) :=
  do ok <- npc_start msize 0;
  if negb ok then cret None
  else
    do afid <- npc_auth aname euid auth;
    do e <- crerror;
    if bool_decide (afid = None) && negb (e =? 0) then do _ <- npc_finish; cret None
    else
      let clunk_afid := match afid with Some a => do _ <- npc_clunk a; cret tt | None => cret tt end in
      do fid <- npc_attach afid aname euid;
      match fid with
      | None =>
          do e <- crerror;
          do _ <- clunk_afid;
          do _ <- npc_finish;
          do _ <- cuerror e;
          cret None
      | Some fid => do _ <- clunk_afid; cret (Some fid)
      end.

Definition npc_umount (f : fid_ptr) : CM unit :=
  do _ <- npc_clunk f; npc_finish.

(** ** Opening (open.c) *)

Definition maxio (fs : Npcfsys) : Z := int32 (fs_msize fs - IOHDRSZ).

(** The [iounit] of an open fid. *)
Definition set_iounit (f : fid_ptr) (n : Z) : CM unit :=
  do fs <- load_fs;
  upd_cfid f (set_cf_iounit (if (n =? 0) || (u32 (maxio fs) <? n) then u32 (maxio fs) else n)).

Definition npc_create (f : fid_ptr) (name : cstr) (flags mode gid : Z) : CM bool :=
  do x <- load_cfid f;
  do o <- npc_request (C_tlcreate (cf_fid x) name flags mode gid);
  match o with
  | None => cret false
  | Some m =>
      do n <- clift (match m with M (C_rlcreate _ n) => Ret n | _ => UB end);
      do _ <- set_iounit f n;
      cret true
  end.

Definition npc_create_bypath (root : fid_ptr) (path : cstr) (flags mode gid : Z) : CM (option fid_ptr) :=
  do ok <- have_memory;
  if negb ok then do _ <- cuerror ENOMEM; cret None
  else
    do o <- npc_walk root (Some (dirname path));
    match o with
    | None => cret None
    | Some fid =>
        do ok <- have_memory;
        if negb ok then do _ <- npc_clunk fid; do _ <- cuerror ENOMEM; cret None
        else
          do ok <- npc_create fid (libgen_basename path) flags mode gid;
          if ok then cret (Some fid) else do _ <- clunk_quietly fid; cret None
    end.

Definition npc_open (f : fid_ptr) (flags : Z) : CM bool :=
  do x <- load_cfid f;
  do o <- npc_request (C_tlopen (cf_fid x) flags);
  match o with
  | None => cret false
  | Some m =>
      do n <- clift (match m with M (C_rlopen _ n) => Ret n | _ => UB end);
      do _ <- set_iounit f n;
      do _ <- upd_cfid f (set_cf_offset 0);
      cret true
  end.

Definition npc_open_bypath (root : fid_ptr) (path : option cstr) (flags : Z) : CM (option fid_ptr) :=
  do o <- npc_walk root path;
  match o with
  | None => cret None
  | Some fid =>
      do ok <- npc_open fid flags;
      if ok then cret (Some fid) else do _ <- clunk_quietly fid; cret None
  end.

Inductive seek := SEEK_SET | SEEK_CUR | SEEK_END.

Definition npc_lseek (f : fid_ptr) (offset : Z) (whence : seek) : CM Z :=
  do x <- load_cfid f;
  let o := match whence with SEEK_CUR => u64 (cf_offset x + offset) | _ => u64 offset end in
  do _ <- store_cfid f (set_cf_offset o x);
  cret o.

(** ** Reading (read.c) *)

(** The bytes, or [None] for -1, or for a count that is negative as an [int]. *)
Definition npc_pread (f : fid_ptr) (count offset : Z) : CM (option (list Z)) :=
  do fs <- load_fs;
  do x <- load_cfid f;
  let count := if u32 (maxio fs) <? count then u32 (maxio fs) else count in
  do o <- npc_request (C_tread (cf_fid x) offset count);
  match o with
  | None => cret None
  | Some m =>
      do data <- clift (match m with M (C_rread d) => Ret d | _ => UB end);
      if count <? zlength data then do _ <- cuerror EPROTO; cret None
      else if int32 (zlength data) <? 0 then cret None
      else cret (Some data)
  end.

Definition npc_read (f : fid_ptr) (count : Z) : CM (option (list Z)) :=
  do x <- load_cfid f;
  do o <- npc_pread f count (cf_offset x);
  match o with
  | None => cret None
  | Some data =>
      do _ <- (if 0 <? zlength data then upd_cfid f (fun x => set_cf_offset (u64 (cf_offset x + zlength data)) x)
               else cret tt);
      cret (Some data)
  end.

Definition NPC_SHORTREAD_EOF : Z := 2.

(** [len] is the length of [data], an [int].  [None]: -1 *)
Fixpoint get_loop (fuel : nat) (f : fid_ptr) (count : Z) (data : list Z) : CM (option (list Z)) :=
  if negb (zlength data <? count) then cret (Some data)
  else
    match fuel with
    | O => never
    | S fuel =>
        do o <- npc_read f (count - zlength data);
        match o with
        | None => cret None
        | Some d =>
            let n := zlength d in
            if n =? 0 then cret (Some data)
            else
              do _ <- clift (int_sum (zlength data) n);
              let data := data ++ d in
              do fs <- load_fs;
              if bit (fs_flags fs) NPC_SHORTREAD_EOF && (zlength data - n <? count - zlength data) then cret (Some data)
              else get_loop fuel f count data
        end
    end.

Definition npc_get (fuel : nat) (root : fid_ptr) (path : option cstr) (count : Z) : CM (option (list Z)) :=
  do o <- npc_open_bypath root path 0;
  match o with
  | None => cret None
  | Some fid =>
      do o <- get_loop fuel fid count [];
      match o with
      | None => cret None
      | Some data => do ok <- npc_clunk fid; cret (if ok then Some data else None)
      end
  end.

Definition AGET_CHUNK : Z := 4096.

(** [ssize] is the size of the buffer, 0 when there is none, [len] the length of
    [data]; both are [int]s. *)
Fixpoint aget_loop (fuel : nat) (f : fid_ptr) (ssize : Z) (data : list Z) : CM (option (list Z)) :=
  match fuel with
  | O => never
  | S fuel =>
      let len := zlength data in
      let grow := (ssize =? 0) || (ssize - len =? 1) in
      do ssize <- clift (if ssize =? 0 then Ret AGET_CHUNK
                         else if ssize - len =? 1 then int_sum ssize AGET_CHUNK else Ret ssize);
      do ok <- (if grow then have_memory else cret true);
      if negb ok then do _ <- cuerror ENOMEM; cret None
      else
        do o <- npc_read f (ssize - len - 1);
        match o with
        | None => cret None
        | Some d =>
            if zlength d =? 0 then cret (Some data)
            else
              do _ <- clift (int_sum len (zlength d));
              let data := data ++ d in
              do fs <- load_fs;
              if bit (fs_flags fs) NPC_SHORTREAD_EOF && (zlength data - zlength d <? ssize - zlength data - 1)
              then cret (Some data)
              else aget_loop fuel f ssize data
        end
  end.

(** The string, without the zero behind it. *)
Definition npc_aget (fuel : nat) (root : fid_ptr) (path : option cstr) : CM (option (list Z)) :=
  do o <- npc_open_bypath root path 0;
  match o with
  | None => cret None
  | Some fid =>
      do o <- aget_loop fuel fid 0 [];
      match o with
      | None => do _ <- npc_clunk fid; cret None
      | Some data =>
          do ok <- npc_clunk fid;
          if ok then cret (Some data) else do _ <- npc_clunk fid; cret None
      end
  end.

(** The buffer of a fid: its contents are the first [buf_size] bytes. *)
Definition buf_save (f : fid_ptr) (data : list Z) : CM bool :=
  do x <- load_cfid f;
  do ok <- have_memory;
  if negb ok then do _ <- upd_cfid f (set_cf_buf None); do _ <- cuerror ENOMEM; cret false
  else
    do _ <- upd_cfid f (set_cf_buf (Some (match cf_buf x with Some b => b ++ data | None => data end)));
    cret true.

Definition buf_restore (f : fid_ptr) (n : Z) : CM (list Z) :=
  do x <- load_cfid f;
  match cf_buf x with
  | None => cret []
  | Some b =>
      let ret := if zlength b <? n then zlength b else n in
      do out <- clift (load_bytes b 0 ret);
      do _ <- upd_cfid f (set_cf_buf (if ret <? zlength b then Some (drop (Z.to_nat ret) b) else None));
      cret out
  end.

(** The position of a byte. *)
Fixpoint strnchr (s : list Z) (c : Z) : option Z :=
  match s with
  | [] => None
  | x :: s => if x =? c then Some 0 else Z.succ <$> strnchr s c
  end.

(** What is in the buffer, and the position of a newline in it; [first] are the
    bytes that [buf_restore] gave.  [done] is the length of [data], an [int].
    [None]: an error. *)
Fixpoint gets_loop (fuel : nat) (f : fid_ptr) (count : Z) (data first : list Z) : CM (option (list Z * option Z)) :=
  if negb (zlength data <? count) then cret (Some (data, None))
  else
    match fuel with
    | O => never
    | S fuel =>
        do o <- (if (0 <? zlength data) || (zlength first =? 0)
                 then do o <- npc_read f (u32 (count - zlength data - 1));
                      match o with
                      | None => cret None
                      | Some d => cret (Some (d, zlength d =? 0))
                      end
                 else cret (Some (first, false)));
        match o with
        | None => cret None
        | Some (d, true) => cret (Some (data, None))
        | Some (d, false) =>
            do _ <- clift (int_sum (zlength data) (zlength d));
            match strnchr d 10 with
            | Some k => cret (Some (data ++ d, Some (zlength data + k)))
            | None => gets_loop fuel f count (data ++ d) []
            end
        end
    end.

(** The line, or [None] for [NULL]. *)
Definition npc_gets (fuel : nat) (f : fid_ptr) (count : Z) : CM (option (list Z)) :=
  do first <- buf_restore f (int32 (count - 1));
  do o <- gets_loop fuel f count [] first;
  match o with
  | None => cret None
  | Some (data, nl) =>
      do line <- match nl with
                 | None => cret (Some data)
                 | Some k =>
                     let extra := drop (Z.to_nat (k + 1)) data in
                     do ok <- (if 0 <? zlength extra then buf_save f extra else cret true);
                     cret (if ok then Some (take (Z.to_nat k) data) else None)
                 end;
      cret (match line with Some (c :: l) => Some (c :: l) | _ => None end)
  end.

(** ** Writing (write.c) *)

(** The count, or [None] for -1. *)
Definition npc_pwrite (f : fid_ptr) (data : list Z) (offset : Z) : CM (option Z) :=
  do fs <- load_fs;
  do x <- load_cfid f;
  let count := if u32 (maxio fs) <? zlength data then u32 (maxio fs) else zlength data in
  do o <- npc_request (C_twrite (cf_fid x) offset (take (Z.to_nat count) data));
  match o with
  | None => cret None
  | Some m => do n <- clift (match m with M (C_rwrite n) => Ret n | _ => UB end); cret (Some (int32 n))
  end.

Definition npc_write (f : fid_ptr) (data : list Z) : CM (option Z) :=
  do x <- load_cfid f;
  do o <- npc_pwrite f data (cf_offset x);
  match o with
  | None => cret None
  | Some n =>
      do _ <- (if 0 <? n then upd_cfid f (fun x => set_cf_offset (u64 (cf_offset x + n)) x) else cret tt);
      cret (if n <? 0 then None else Some n)
  end.

(** The loop of [npc_put], [npc_puts] and [npc_setxattr]: the bytes from [done] on,
    an [int]; their number is given to [npc_write] as a [u32]. *)
Fixpoint write_loop (fuel : nat) (f : fid_ptr) (data : list Z) (done : Z) : CM (option Z) :=
  if negb (done <? zlength data) then cret (Some done)
  else
    match fuel with
    | O => never
    | S fuel =>
        do o <- npc_write f (take (Z.to_nat (u32 (zlength data - done))) (drop (Z.to_nat done) data));
        match o with
        | None => cret None
        | Some n => do done <- clift (int_sum done n); write_loop fuel f data done
        end
    end.

Definition npc_put (fuel : nat) (root : fid_ptr) (path : option cstr) (data : list Z) : CM (option Z) :=
  do o <- npc_open_bypath root path 1;
  match o with
  | None => cret None
  | Some fid =>
      do n <- write_loop fuel fid data 0;
      do ok <- npc_clunk fid;
      cret (if ok then n else None)
  end.

(** [count] is the length of the string as an [int]. *)
Definition npc_puts (fuel : nat) (f : fid_ptr) (s : cstr) : CM (option Z) :=
  write_loop fuel f (take (Z.to_nat (int32 (zlength s))) s) 0.

(** ** Attributes (stat.c, chmod.c) *)

(** The fields of the reply. *)
Definition npc_getattr (f : fid_ptr) (request_mask : Z) : CM (option np_call) :=
  do x <- load_cfid f;
  do o <- npc_request (C_tgetattr (cf_fid x) request_mask);
  match o with
  | None => cret None
  | Some m =>
      do c <- clift (match m with M (C_rgetattr _ _ _ _ _ _ _ _ _ _ _ _ _ _ _ _ _ _ _ _ as c) => Ret c | _ => UB end);
      cret (Some c)
  end.

Definition Gabasic : Z := 0x000007ff.

Definition npc_fstat (f : fid_ptr) : CM (option stat) :=
  do o <- npc_getattr f Gabasic;
  cret (match o with
        | Some (C_rgetattr _ qid mode uid gid nlink rdev size blksize blocks as_ an ms mn cs cn _ _ _ _) =>
            Some {| st_dev := 0; st_ino := qpath qid; st_mode := mode; st_nlink := nlink; st_uid := uid; st_gid := gid;
                    st_rdev := rdev; st_size := int64 size; st_blksize := int64 blksize; st_blocks := int64 blocks;
                    st_atim := (int64 as_, int64 an); st_mtim := (int64 ms, int64 mn); st_ctim := (int64 cs, int64 cn) |}
        | _ => None
        end).

(** An operation on the file at a path: walk, do it, clunk. *)
Definition at_path {A} (root : fid_ptr) (path : option cstr) (op : fid_ptr -> CM (option A)) : CM (option A) :=
  do o <- npc_walk root path;
  match o with
  | None => cret None
  | Some fid =>
      do r <- op fid;
      match r with
      | None => do _ <- clunk_quietly fid; cret None
      | Some a => do ok <- npc_clunk fid; cret (if ok then Some a else None)
      end
  end.

Definition npc_stat (root : fid_ptr) (path : option cstr) : CM (option stat) := at_path root path npc_fstat.

(** 0 is [Some tt], -1 is [None]. *)
Definition unit_of (b : bool) : option unit := if b then Some tt else None.

Definition npc_setattr (f : fid_ptr) (valid mode uid gid size : Z) (atime mtime : Z * Z) : CM (option unit) :=
  do x <- load_cfid f;
  do ok <- npc_request_ok (C_tsetattr (cf_fid x) valid mode uid gid size atime.1 atime.2 mtime.1 mtime.2);
  cret (unit_of ok).

Definition npc_fchmod (mode : Z) (f : fid_ptr) : CM (option unit) := npc_setattr f Samode mode 0 0 0 (0, 0) (0, 0).
Definition npc_chmod (root : fid_ptr) (path : option cstr) (mode : Z) : CM (option unit) :=
  at_path root path (npc_fchmod mode).

Definition npc_fchown (owner group : Z) (f : fid_ptr) : CM (option unit) :=
  let valid := Z.lor (if owner =? u32 (-1) then 0 else Sauid) (if group =? u32 (-1) then 0 else Sagid) in
  npc_setattr f valid 0 owner group 0 (0, 0) (0, 0).
Definition npc_chown (root : fid_ptr) (path : option cstr) (owner group : Z) : CM (option unit) :=
  at_path root path (npc_fchown owner group).

Definition npc_ftruncate (length : Z) (f : fid_ptr) : CM (option unit) :=
  npc_setattr f Sasize 0 0 0 (u64 length) (0, 0) (0, 0).
Definition npc_truncate (root : fid_ptr) (path : option cstr) (length : Z) : CM (option unit) :=
  at_path root path (npc_ftruncate length).

(** [times]: [actime] and [modtime], or [NULL] for now. *)
Definition npc_futime (times : option (Z * Z)) (f : fid_ptr) : CM (option unit) :=
  let now := Z.lor Saatime Samtime in
  match times with
  | None => npc_setattr f now 0 0 0 0 (0, 0) (0, 0)
  | Some (a, m) => npc_setattr f (Z.lor (Z.lor now Saatimeset) Samtimeset) 0 0 0 0 (u64 a, 0) (u64 m, 0)
  end.
Definition npc_utime (root : fid_ptr) (path : option cstr) (times : option (Z * Z)) : CM (option unit) :=
  at_path root path (npc_futime times).

(** ** Directories (readdir.c) *)

(** The bytes, or [None] for -1. *)
Definition npc_readdir (f : fid_ptr) (offset count : Z) : CM (option (list Z)) :=
  do x <- load_cfid f;
  do o <- npc_request (C_treaddir (cf_fid x) offset count);
  match o with
  | None => cret None
  | Some m =>
      do data <- clift (match m with M_rreaddir d => Ret d | _ => UB end);
      do _ <- clift (np_assert (zlength data <=? count));
      cret (Some data)
  end.

Definition npc_opendir (root : fid_ptr) (path : option cstr) : CM (option fid_ptr) :=
  do o <- npc_open_bypath root path 0;
  match o with
  | None => cret None
  | Some fid =>
      do st <- npc_fstat fid;
      match st with
      | None => do _ <- npc_clunk fid; cret None
      | Some sb =>
          if negb (S_ISDIR (st_mode sb)) then do _ <- cuerror ENOTDIR; do _ <- npc_clunk fid; cret None
          else
            do fs <- load_fs;
            do ok <- have_memory;
            if negb ok then
              do _ <- npc_clunk fid;
              do _ <- cuerror ENOMEM;
              (** the fid is [NULL] now and its fields are set *)
              clift UB
            else
              do _ <- upd_cfid fid (fun x => set_cf_filled (Some 0) (Some 0) (set_cf_offset 0
                        (set_cf_buf (Some (replicate (Z.to_nat (maxio fs)) 0)) x)));
              cret (Some fid)
      end
  end.

(** The size of [d_name] in a [struct dirent]. *)
Definition D_NAME_SIZE : Z := 256.

(** An error, the end, or an entry; the name of an entry is stored in [d_name]. *)
Inductive readdir_result := D_error (e : Z) | D_end | D_entry (d : dirent).

Definition npc_readdir_r (f : fid_ptr) : CM readdir_result :=
  do x <- load_cfid f;
  match cf_buf x with
  | None => cret (D_error EINVAL)
  | Some buf =>
      do used <- clift (was_set (cf_buf_used x));
      do len <- clift (was_set (cf_buf_len x));
      do o <- (if used <? len then cret (Some true)
               else
                 do o <- npc_readdir f (cf_offset x) (zlength buf);
                 match o with
                 | None => do _ <- upd_cfid f (set_cf_filled (Some (-1)) (Some used)); cret None
                 | Some data =>
                     if zlength data =? 0 then do _ <- upd_cfid f (set_cf_filled (Some 0) (Some used)); cret (Some false)
                     else
                       do _ <- upd_cfid f (fun x => set_cf_filled (Some (zlength data)) (Some 0)
                                 (set_cf_buf (Some (data ++ drop (length data) buf)) x));
                       cret (Some true)
                 end);
      match o with
      | None => do e <- crerror; cret (D_error e)
      | Some false => cret D_end
      | Some true =>
          do x <- load_cfid f;
          do b <- clift (match cf_buf x with Some b => Ret b | None => UB end);
          do used <- clift (was_set (cf_buf_used x));
          do len <- clift (was_set (cf_buf_len x));
          do (n, e) <- clift (np_deserialize_p9dirent (PATH_MAX + 1) (drop (Z.to_nat used) b) (len - used));
          match e with
          | None => cret (D_error EIO)
          | Some e =>
              do _ <- clift (if zlength (d_name e) <? D_NAME_SIZE then Ret tt else UB);
              do _ <- upd_cfid f (fun x => set_cf_filled (Some len) (Some (used + n)) (set_cf_offset (d_offset e) x));
              cret (D_entry {| de_ino := qpath (d_qid e); de_off := d_offset e; de_type := d_type e; de_name := d_name e |})
          end
      end
  end.

Definition npc_seekdir (f : fid_ptr) (offset : Z) : CM unit :=
  upd_cfid f (fun x => set_cf_filled (cf_buf_len x) (cf_buf_len x) (set_cf_offset offset x)).
Definition npc_telldir (f : fid_ptr) : CM Z := do x <- load_cfid f; cret (int64 (cf_offset x)).

(** ** Extended attributes (xattr.c) *)

Definition npc_xattrwalk (f attrfid : fid_ptr) (name : option cstr) : CM (option Z) :=
  do x <- load_cfid f;
  do a <- load_cfid attrfid;
  do o <- npc_request (C_txattrwalk (cf_fid x) (cf_fid a) name);
  match o with
  | None => cret None
  | Some m => do n <- clift (match m with M (C_rxattrwalk n) => Ret n | _ => UB end); cret (Some (int64 n))
  end.

Definition npc_xattrcreate (f : fid_ptr) (name : option cstr) (attr_size flags : Z) : CM bool :=
  do x <- load_cfid f; npc_request_ok (C_txattrcreate (cf_fid x) name attr_size flags).

(** [n] is a [size_t]: -1 of [npc_read] is not negative, and [tot] goes back by one.
    No reply has 2^31 bytes, as the size of messages is an [int]. *)
Fixpoint attr_loop (fuel : nat) (a : fid_ptr) (size tot : Z) (data : list Z) : CM (Z * list Z) :=
  if negb (tot <? size) then cret (tot, data)
  else
    match fuel with
    | O => never
    | S fuel =>
        do o <- npc_read a (u32 (size - tot));
        match o with
        | Some [] => cret (tot, data)
        | Some d => attr_loop fuel a size (u64 (tot + zlength d))
                      (take (Z.to_nat tot) data ++ d ++ drop (Z.to_nat tot + length d) data)
        | None => attr_loop fuel a size (u64 (tot - 1)) data
        end
    end.

(** [npc_getxattr], and [npc_listxattr] with no name: the result and the bytes
    stored.  [size] is 0 also when there is no buffer. *)
Definition npc_getxattr (fuel : nat) (root : fid_ptr) (path name : option cstr) (size : Z) : CM (Z * list Z) :=
  do o <- npc_walk root path;
  match o with
  | None => cret (-1, [])
  | Some fid =>
      do oa <- npc_fid_alloc;
      match oa with
      | None => do _ <- npc_clunk fid; cret (-1, [])
      | Some attrfid =>
          do r <- npc_xattrwalk fid attrfid name;
          do res <- match r with
                    | None => cret (-1, [])
                    | Some n =>
                        if n <? 0 then cret (n, [])
                        else if size =? 0 then cret (n, [])
                        else if size <? n then do _ <- cuerror ERANGE; cret (n, [])
                        else do (tot, data) <- attr_loop fuel attrfid size 0 []; cret (int64 tot, data)
                    end;
          do _ <- npc_clunk fid;
          do _ <- npc_clunk attrfid;
          cret res
      end
  end.

Definition npc_listxattr (fuel : nat) (root : fid_ptr) (path : option cstr) (size : Z) : CM (Z * list Z) :=
  npc_getxattr fuel root path None size.

(** The result is that of the last clunk. *)
Definition npc_setxattr (fuel : nat) (root : fid_ptr) (path name : option cstr) (val : list Z) (flags : Z) : CM bool :=
  do o <- npc_walk root path;
  match o with
  | None => cret false
  | Some fid =>
      do ok <- npc_xattrcreate fid name (zlength val) flags;
      do _ <- (if ok then do _ <- write_loop fuel fid val 0; cret tt else cret tt);
      npc_clunk fid
  end.

(** ** Other requests (lock.c, mkdir.c, remove.c, rename.c) *)

Record Npclockinfo := { li_type : Z; li_start : Z; li_length : Z; li_proc_id : Z; li_client_id : cstr }.

(** The status, or [None] for -1. *)
Definition npc_lock (f : fid_ptr) (flags : Z) (info : Npclockinfo) : CM (option Z) :=
  do x <- load_cfid f;
  do o <- npc_request (C_tlock (cf_fid x) (li_type info) flags (li_start info) (li_length info) (li_proc_id info)
                     (li_client_id info));
  match o with
  | None => cret None
  | Some m => do n <- clift (match m with M (C_rlock n) => Ret n | _ => UB end); cret (Some n)
  end.

Definition npc_getlock (f : fid_ptr) (info : Npclockinfo) : CM (option Npclockinfo) :=
  do x <- load_cfid f;
  do o <- npc_request (C_tgetlock (cf_fid x) (li_type info) (li_start info) (li_length info) (li_proc_id info)
                     (li_client_id info));
  match o with
  | None => cret None
  | Some m =>
      do r <- clift (match m with
                     | M (C_rgetlock t s l p c) =>
                         Ret {| li_type := t; li_start := s; li_length := l; li_proc_id := p; li_client_id := c |}
                     | _ => UB
                     end);
      do ok <- have_memory;
      cret (if ok then Some r else None)
  end.

Definition npc_mkdir (egid : Z) (f : fid_ptr) (name : cstr) (mode : Z) : CM bool :=
  do x <- load_cfid f; npc_request_ok (C_tmkdir (cf_fid x) name mode egid).

Definition npc_mkdir_bypath (egid : Z) (root : fid_ptr) (path : cstr) (mode : Z) : CM bool :=
  do ok <- have_memory;
  if negb ok then do _ <- cuerror ENOMEM; cret false
  else
    do o <- npc_walk root (Some (dirname path));
    match o with
    | None => cret false
    | Some fid =>
        do ok <- have_memory;
        if negb ok then do _ <- npc_clunk fid; do _ <- cuerror ENOMEM; cret false
        else
          do ok <- npc_mkdir egid fid (libgen_basename path) mode;
          if ok then npc_clunk fid else do _ <- clunk_quietly fid; cret false
    end.

Definition npc_remove (f : fid_ptr) : CM bool :=
  do x <- load_cfid f;
  do ok <- npc_request_ok (C_tremove (cf_fid x));
  do _ <- npc_fid_free f;
  cret ok.

Definition npc_remove_bypath (root : fid_ptr) (path : option cstr) : CM bool :=
  do o <- npc_walk root path;
  match o with
  | None => cret false
  | Some fid => npc_remove fid
  end.

Definition npc_rename (f dfid : fid_ptr) (name : cstr) : CM bool :=
  do x <- load_cfid f;
  do d <- load_cfid dfid;
  npc_request_ok (C_trename (cf_fid x) (cf_fid d) name).
End Operations.
