(* ===== verification/ClientPool.v ===== *)
(** * Identifiers of the client (libnpclient/pool.c)

    A pool is a set of identifiers: [npc_get_id] adds one that was not in it, the
    lowest, and [npc_put_id] removes the one it is given. *)
From S2P Require Import Prelude Cbuf Protocol Npstring Wire Client.
From stdpp Require Import list gmap.
#[local] Open Scope Z_scope.

(** Is the identifier in use? *)
Definition used (p : Npcpool) (id : Z) : bool :=
  match idmap p !! Z.to_nat (id / 8) with
  | Some b => Z.testbit b (id mod 8)
  | None => false
  end.

Definition is_byte (b : Z) : Prop := 0 <= b < 256.

Definition pool_wf (p : Npcpool) : Prop :=
  Forall is_byte (idmap p) /\ 255 <= maxid p /\ zlength (idmap p) <= maxid p / 8 + 1.

(** The set of identifiers that a pool stands for. *)
Definition pool_set (p : Npcpool) (X : gset Z) : Prop :=
  pool_wf p /\ forall j, j ∈ X <-> 0 <= j /\ used p j = true.

(** ** The table *)

Definition lowest_free (b : Z) : bool :=
  let k := nth (Z.to_nat b) m2id 0 in
  (0 <=? k) && (k <? 8) && negb (Z.testbit b k) && forallb (fun j => Z.testbit b (Z.of_nat j)) (seq 0 (Z.to_nat k)).

Lemma m2id_checked : forallb (fun n => lowest_free (Z.of_nat n)) (seq 0 255) = true.
Proof. vm_compute. reflexivity. Qed.

Lemma m2id_spec b : 0 <= b < 255 -> let k := nth (Z.to_nat b) m2id 0 in
  0 <= k < 8 /\ Z.testbit b k = false /\ forall j, 0 <= j < k -> Z.testbit b j = true.
Proof.
  intros Hb. pose proof m2id_checked as Hc. rewrite forallb_forall in Hc. specialize (Hc (Z.to_nat b)).
  rewrite Z2Nat.id in Hc by lia. unfold lowest_free in Hc. cbv zeta.
  set (k := nth (Z.to_nat b) m2id 0) in *. rewrite !andb_true_iff, negb_true_iff in Hc.
  destruct Hc as [[[Hk0 Hk8] Hfree] Hlow]; [apply in_seq; lia|]. split; [lia|]. split; [done|].
  intros j Hj. rewrite forallb_forall in Hlow. specialize (Hlow (Z.to_nat j)). rewrite Z2Nat.id in Hlow by lia.
  apply Hlow, in_seq. lia.
Qed.

Lemma byte_set b k : 0 <= b < 256 -> 0 <= k < 8 -> 0 <= Z.lor b (Z.shiftl 1 k) < 256.
Proof.
  intros Hb Hk. assert (Hn : 0 <= Z.shiftl 1 k) by (rewrite Z.shiftl_nonneg; lia).
  split; [apply Z.lor_nonneg; lia|]. apply (Z.log2_lt_cancel _ 256). rewrite Z.log2_lor by lia.
  rewrite Z.shiftl_1_l, Z.log2_pow2 by lia. change (Z.log2 256) with 8.
  destruct (Z.eq_dec b 0) as [->|]; [cbn; lia|]. pose proof (Z.log2_le_mono b 255). cbn in *. lia.
Qed.

Lemma byte_clear b k : 0 <= b < 256 -> 0 <= Z.ldiff b (Z.shiftl 1 k) < 256.
Proof.
  intros Hb. rewrite Z.ldiff_land. replace b with (Z.land b (Z.ones 8)) by (rewrite Z.land_ones, Z.mod_small; lia).
  rewrite <- Z.land_assoc, (Z.land_comm (Z.ones 8)), Z.land_assoc, Z.land_ones by lia.
  apply (Z.mod_pos_bound _ (2 ^ 8)). lia.
Qed.

Lemma full_byte j : 0 <= j < 8 -> Z.testbit 255 j = true.
Proof. intros Hj. change 255 with (Z.ones 8). rewrite Z.testbit_ones_nonneg; lia. Qed.

(** ** Bits of the map *)

Lemma id_split j : 0 <= j -> 0 <= j mod 8 < 8 /\ j = 8 * (j / 8) + j mod 8 /\ 0 <= j / 8.
Proof. intros Hj. pose proof (Z.mod_pos_bound j 8). pose proof (Z.div_mod j 8). pose proof (Z.div_pos j 8). lia. Qed.

Lemma id_parts i k : 0 <= k < 8 -> Z.to_nat ((k + Z.of_nat i * 8) / 8) = i /\ (k + Z.of_nat i * 8) mod 8 = k.
Proof. intros Hk. rewrite Z.div_add, Z.mod_add, Z.div_small, Z.mod_small by lia. lia. Qed.

Lemma testbit_bit k j : 0 <= k -> 0 <= j -> Z.testbit (Z.shiftl 1 k) j = (j =? k).
Proof. intros Hk Hj. rewrite Z.shiftl_1_l, Z.pow2_bits_eqb by lia. apply Z.eqb_sym. Qed.

(** Replacing one byte changes the identifiers of that byte only. *)
Lemma used_insert p i b j : (i < length (idmap p))%nat -> 0 <= j ->
  used {| maxid := maxid p; idmap := <[i := b]> (idmap p) |} j
  = if decide (Z.to_nat (j / 8) = i) then Z.testbit b (j mod 8) else used p j.
Proof.
  intros Hi Hj. unfold used. cbn. case_decide as Hd.
  - rewrite Hd, list_lookup_insert_eq by done. reflexivity.
  - rewrite list_lookup_insert_ne by done. reflexivity.
Qed.

Lemma pool_wf_insert p i b : pool_wf p -> is_byte b -> pool_wf {| maxid := maxid p; idmap := <[i := b]> (idmap p) |}.
Proof.
  intros (Hb & Hm & Hl) Hc. split; [by apply Forall_insert|]. cbn. unfold zlength in *. rewrite length_insert. done.
Qed.

(** ** The first byte that has room *)

Lemma first_free_le l : (first_free l <= length l)%nat.
Proof. induction l as [|b l IH]; cbn; [lia|]. case_match; lia. Qed.

Lemma first_free_below l i : (i < first_free l)%nat -> l !! i = Some 255.
Proof.
  revert i. induction l as [|b l IH]; intros i Hi; cbn in *; [lia|]. case_match eqn:E; [|lia].
  destruct i; cbn; [f_equal; lia|]. apply IH. lia.
Qed.

Lemma first_free_at l b : l !! first_free l = Some b -> b <> 255.
Proof. induction l as [|c l IH]; cbn; [done|]. case_match eqn:E; cbn; [done|]. intros [= <-]. lia. Qed.

Lemma below_used p j : 0 <= j -> (Z.to_nat (j / 8) < first_free (idmap p))%nat -> used p j = true.
Proof. intros Hj Hi. unfold used. rewrite (first_free_below _ _ Hi). apply full_byte, id_split. done. Qed.

(** ** Growing *)

Lemma grown_larger p : pool_wf p -> can_grow p = true -> zlength (idmap p) < grown p <= maxid p / 8 + 1.
Proof.
  intros (_ & _ & Hl) Hc. unfold can_grow in Hc. apply Z.ltb_lt in Hc. unfold grown.
  pose proof (Z.div_mod (maxid p) 8 ltac:(lia)). pose proof (Z.mod_pos_bound (maxid p) 8 ltac:(lia)).
  case_match; lia.
Qed.

Lemma grow_length p : pool_wf p -> can_grow p = true -> zlength (idmap (grow p)) = grown p.
Proof. intros Hw Hc. pose proof (grown_larger p Hw Hc). cbn. unfold zlength in *. rewrite length_app, length_replicate. lia. Qed.

Lemma grow_wf p : pool_wf p -> can_grow p = true -> pool_wf (grow p).
Proof.
  intros Hw Hc. pose proof (grown_larger p Hw Hc). pose proof (grow_length p Hw Hc). destruct Hw as (Hb & Hm & Hl).
  split; [|split; [done|cbn [maxid grow] in *; lia]]. apply Forall_app. split; [done|]. apply Forall_replicate.
  unfold is_byte. lia.
Qed.

Lemma grow_used p j : used (grow p) j = used p j.
Proof.
  unfold used. cbn. destruct (idmap p !! _) as [b|] eqn:E; [by rewrite (lookup_app_l_Some _ _ _ _ E)|].
  rewrite lookup_app_r by by apply lookup_ge_None. destruct (replicate _ _ !! _) as [b|] eqn:Er; [|done].
  apply lookup_replicate in Er as [-> _]. apply Z.bits_0.
Qed.

(** ** Taking an identifier *)

Lemma take_id_none p : take_id p = None <-> full p = true.
Proof.
  unfold take_id, full. rewrite Nat.leb_le. destruct (idmap p !! _) as [b|] eqn:E.
  - apply lookup_lt_Some in E. split; [done|lia].
  - apply lookup_ge_None in E. done.
Qed.

Lemma full_used p j : full p = true -> 0 <= j < 8 * zlength (idmap p) -> used p j = true.
Proof.
  intros Hf Hj. apply Nat.leb_le in Hf. destruct (id_split j) as (? & ? & ?); [lia|].
  apply below_used; [lia|]. unfold zlength in *. lia.
Qed.

Lemma take_id_spec p id p' : pool_wf p -> take_id p = Some (id, p') ->
  0 <= id < 8 * zlength (idmap p) /\ pool_wf p' /\ maxid p' = maxid p /\ used p id = false /\
  (forall j, 0 <= j < id -> used p j = true) /\
  (forall j, 0 <= j -> used p' j = (j =? id) || used p j).
Proof.
  intros Hw. unfold take_id. pose proof (first_free_at (idmap p)) as Hat.
  pose proof (fun j => below_used p j) as Hbelow. set (i := first_free (idmap p)) in *.
  destruct (idmap p !! i) as [b|] eqn:Eb; [|done].
  assert (Hb : is_byte b) by (eapply Forall_lookup_1; [apply Hw|done]).
  destruct (m2id_spec b) as (Hk & Hfree & Hlow); [specialize (Hat b eq_refl); unfold is_byte in Hb; lia|].
  cbv zeta in *. set (k := nth (Z.to_nat b) m2id 0) in *. intros [= <- <-]. pose proof (lookup_lt_Some _ _ _ Eb) as Hi.
  destruct (id_parts i k Hk) as [Hdiv Hmod]. split_and!.
  - lia.
  - unfold zlength. lia.
  - by apply pool_wf_insert, byte_set.
  - done.
  - unfold used. rewrite Hdiv, Hmod, Eb. done.
  - intros j Hj. destruct (id_split j) as (Hm & Hs & Hd); [lia|].
    destruct (decide (Z.to_nat (j / 8) = i)) as [E|E]; [|apply Hbelow; lia].
    unfold used. rewrite E, Eb. apply Hlow. lia.
  - intros j Hj. destruct (id_split j) as (Hm & Hs & Hd); [lia|]. rewrite used_insert by lia.
    case_decide as E; [|destruct (Z.eqb_spec j (k + Z.of_nat i * 8)) as [->|]; [lia|done]].
    unfold used. rewrite E, Eb, Z.lor_spec, testbit_bit by lia. rewrite orb_comm. f_equal.
    destruct (Z.eqb_spec (j mod 8) k), (Z.eqb_spec j (k + Z.of_nat i * 8)); lia.
Qed.

(** ** Sets of identifiers *)

Definition bound (p : Npcpool) : Z := 8 * (maxid p / 8 + 1).

(** The first identifier that is not in a set. *)
Definition is_least (X : gset Z) (id : Z) : Prop := 0 <= id /\ id ∉ X /\ (forall j, 0 <= j < id -> j ∈ X).

Lemma taken p X id p' : pool_set p X -> take_id p = Some (id, p') ->
  is_least X id /\ id < bound p /\ pool_set p' ({[id]} ∪ X) /\ maxid p' = maxid p.
Proof.
  intros [Hw HX] Ht. destruct (take_id_spec p id p' Hw Ht) as (Hid & Hw' & Hm & Hu & Hlow & Hj).
  split; [|split; [unfold bound; destruct Hw as (_ & _ & ?); lia|split; [split; [done|]|done]]].
  - split; [lia|]. split; [rewrite HX, Hu; naive_solver|]. intros j Hj'. rewrite HX. split; [lia|by apply Hlow].
  - intros j. rewrite elem_of_union, elem_of_singleton, HX. split.
    + intros [->|[? Hu']]; (split; [lia|]); rewrite Hj by lia; [by rewrite Z.eqb_refl|by rewrite Hu', orb_true_r].
    + intros [? Hu']. rewrite Hj in Hu' by lia. destruct (Z.eqb_spec j id); [by left|by right].
Qed.

Lemma grow_set p X : pool_set p X -> can_grow p = true -> pool_set (grow p) X.
Proof. intros [Hw HX] Hc. split; [by apply grow_wf|]. intros j. rewrite grow_used. apply HX. Qed.

Lemma grow_not_full p : pool_wf p -> can_grow p = true -> full p = true -> full (grow p) = false.
Proof.
  intros Hw Hc Hf. destruct (full (grow p)) eqn:Hg; [|done]. pose proof (grown_larger p Hw Hc).
  pose proof (full_used _ (8 * zlength (idmap p)) Hg) as Hu. rewrite grow_length, grow_used in Hu by done.
  unfold used in Hu. rewrite (Z.mul_comm 8), Z.div_mul, lookup_ge_None_2 in Hu; unfold zlength in *; lia.
Qed.

(** [npc_get_id] takes the least identifier that is not in use and marks that one
    only; it waits exactly when the map is full and is not made larger. *)
Lemma npc_get_id_spec mem p X : pool_set p X ->
  match npc_get_id mem p with
  | Some (id, p') => is_least X id /\ id < bound p /\ pool_set p' ({[id]} ∪ X) /\ maxid p' = maxid p
  | None => (forall j, 0 <= j < 8 * zlength (idmap p) -> j ∈ X) /\ (mem = false \/ maxid p <= 8 * zlength (idmap p))
  end.
Proof.
  intros HX. unfold npc_get_id. destruct (full p) eqn:Hf; cbn.
  2: { destruct (take_id p) as [[id p']|] eqn:Et; [by eapply taken|]. apply take_id_none in Et. congruence. }
  destruct (can_grow p) eqn:Hc; [destruct mem|]; cbn.
  - destruct (take_id (grow p)) as [[id p']|] eqn:Et; [exact (taken _ _ _ _ (grow_set _ _ HX Hc) Et)|].
    apply take_id_none in Et. rewrite grow_not_full in Et; [done|apply HX|done|done].
  - rewrite (proj2 (take_id_none p) Hf). split; [|by left]. intros j Hj. apply HX. split; [lia|by apply full_used].
  - rewrite (proj2 (take_id_none p) Hf). split; [intros j Hj; apply HX; split; [lia|by apply full_used]|].
    right. unfold can_grow in Hc. apply Z.ltb_ge in Hc. lia.
Qed.

Lemma member_byte p X id : pool_set p X -> id ∈ X -> exists b, idmap p !! Z.to_nat (id / 8) = Some b.
Proof. intros [_ HX] Hin. apply HX in Hin as [_ Hu]. unfold used in Hu. destruct (idmap p !! _); eauto; done. Qed.

Lemma npc_put_id_spec p X id : pool_set p X -> id ∈ X ->
  exists p', npc_put_id p id = Ret p' /\ pool_set p' (X ∖ {[id]}) /\ maxid p' = maxid p.
Proof.
  intros HX Hin. destruct (member_byte p X id HX Hin) as [b Eb]. pose proof HX as [Hw HXe].
  assert (Hid : 0 <= id) by (apply HXe in Hin; lia). unfold npc_put_id. rewrite Eb. eexists. split; [reflexivity|].
  assert (Hb : is_byte b) by (eapply Forall_lookup_1; [apply Hw|done]).
  split; [|done]. split; [by apply pool_wf_insert, byte_clear|]. intros j.
  rewrite elem_of_difference, elem_of_singleton, HXe. destruct (id_split id Hid) as (Hm & Hs & Hd).
  enough (He : 0 <= j -> used {| maxid := maxid p; idmap := <[Z.to_nat (id / 8) := Z.ldiff b (Z.shiftl 1 (id mod 8))]> (idmap p) |} j
                         = used p j && negb (j =? id)).
  { split; [intros [[Hj Hu] Hne]; rewrite He, Hu by lia; destruct (Z.eqb_spec j id); done|].
    intros [Hj Hu]. rewrite He, andb_true_iff, negb_true_iff, Z.eqb_neq in Hu by lia. tauto. }
  intros Hj. destruct (id_split j Hj) as (Hm' & Hs' & Hd'). rewrite used_insert by (eauto using lookup_lt_Some).
  case_decide as E.
  - unfold used. rewrite E, Eb, Z.ldiff_spec, testbit_bit by lia. do 2 f_equal.
    destruct (Z.eqb_spec (j mod 8) (id mod 8)), (Z.eqb_spec j id); subst; lia.
  - destruct (Z.eqb_spec j id) as [->|]; [done|]. by rewrite andb_true_r.
Qed.

Lemma npc_create_pool_set m : 255 <= m -> pool_set (npc_create_pool m) ∅.
Proof.
  intros Hm. split.
  - split; [|split; [done|]]; cbn [idmap maxid npc_create_pool]; [apply Forall_replicate; unfold is_byte; lia|].
    pose proof (Z.div_le_mono 255 m 8). change (255 / 8) with 31 in *. unfold zlength. cbn. lia.
  - intros j. split; [set_solver|]. intros [_ Hu]. unfold used in Hu. cbn [idmap npc_create_pool] in Hu.
    destruct (replicate 32 0 !! _) as [b|] eqn:E; [|done]. apply lookup_replicate in E as [-> _].
    rewrite Z.bits_0 in Hu. done.
Qed.

(** ** Runs of a pool *)

(** A pool with the identifiers that its callers hold: one is taken, or one that is
    held is given back. *)
Inductive pool_step : Npcpool * gset Z -> Npcpool * gset Z -> Prop :=
| step_get mem p X id p' : npc_get_id mem p = Some (id, p') -> pool_step (p, X) (p', {[id]} ∪ X)
| step_put p X id p' : id ∈ X -> npc_put_id p id = Ret p' -> pool_step (p, X) (p', X ∖ {[id]}).

Definition agrees (m : Z) (s : Npcpool * gset Z) : Prop := pool_set s.1 s.2 /\ maxid s.1 = m.

Lemma step_agrees m s t : pool_step s t -> agrees m s -> agrees m t.
Proof.
  intros [mem p X id p' Hg|p X id p' Hin Hp] [HX Hm]; cbn in *.
  - pose proof (npc_get_id_spec mem p X HX) as Hs. rewrite Hg in Hs. destruct Hs as (_ & _ & ? & ?).
    split; cbn; [done|congruence].
  - destruct (npc_put_id_spec p X id HX Hin) as (q & Hq & ? & ?). rewrite Hp in Hq. injection Hq as <-.
    split; cbn; [done|congruence].
Qed.

Lemma run_agrees m s t : rtc pool_step s t -> agrees m s -> agrees m t.
Proof. induction 1; eauto using step_agrees. Qed.

(** C15: An identifier pool of the client is a set.  Whatever was taken and given
    back before, [npc_get_id] returns the least identifier that nobody holds, below
    the limit of the pool; it waits for ever only when no memory is left or every
    identifier below the limit is held; giving back a held one always works. *)
Theorem identifiers_refine_set m p X : 255 <= m -> rtc pool_step (npc_create_pool m, ∅) (p, X) ->
  (forall mem, match npc_get_id mem p with
               | Some (id, p') => is_least X id /\ id < 8 * (m / 8 + 1) /\ pool_step (p, X) (p', {[id]} ∪ X)
               | None => mem = false \/ forall id, 0 <= id < m -> id ∈ X
               end) /\
  (forall id, id ∈ X -> exists p', npc_put_id p id = Ret p' /\ pool_step (p, X) (p', X ∖ {[id]})) /\
  (forall id, id ∈ X <-> 0 <= id /\ used p id = true).
Proof.
  intros Hm Hr. destruct (run_agrees m _ _ Hr) as [HX <-]; [by split; [apply npc_create_pool_set|]|]. cbn in *.
  split; [|split; [|apply HX]].
  - intros mem. pose proof (npc_get_id_spec mem p X HX) as Hs. destruct (npc_get_id mem p) as [[id p']|] eqn:Hg.
    + destruct Hs as (Hl & Hb & _). split; [done|]. split; [done|by econstructor].
    + destruct Hs as [Hall [Hmem|Hbig]]; [by left|right]. intros id Hid. apply Hall. lia.
  - intros id Hin. destruct (npc_put_id_spec p X id HX Hin) as (p' & Hp & _). exists p'.
    split; [done|by econstructor].
Qed.

Lemma identifiers_refine_set_witness :
  255 <= 65535 /\ match npc_get_id true (npc_create_pool 65535) with Some (id, _) => is_least ∅ id | None => False end.
Proof.
  split; [lia|].
  destruct (identifiers_refine_set 65535 (npc_create_pool 65535) ∅ ltac:(lia) (rtc_refl _ _)) as [Hg _].
  specialize (Hg true). destruct (npc_get_id true (npc_create_pool 65535)) as [[id p']|] eqn:E.
  - apply Hg.
  - vm_compute in E. discriminate E.
Defined.
