(* ===== verification/ClientInv.v ===== *)
(** * What the client keeps (libnpclient)

    The invariant of the client library and a rule for each of the steps that its
    operations are made of: the identifiers in use are those of the fids that are
    allocated, all different; no tag is in use and no message is allocated between
    calls; the connection counts its fids. *)
From S2P Require Import Prelude Cbuf Protocol Npstring Wire Fcall Hash Ioctx Ops Client ClientOps ClientPool.
From stdpp Require Import list gmap.
#[local] Open Scope Z_scope.

(** ** The peer *)

(** A server answers a request with the reply of its type or with Rlerror; its
    version has no zero byte, it does not claim to have written more than was sent,
    and does not send more of a directory than was asked for. *)
Definition answers (c : np_call) (m : msg) : Prop :=
  match m with
  | M (C_rlerror _) => True
  | M r =>
      match c, r with
      | C_tversion _ _, C_rversion _ v => no_nul (default [] v)
      | C_twrite _ _ data, C_rwrite n => 0 <= n <= zlength data
      | C_tauth _ _ _ _, C_rauth _ | C_tattach _ _ _ _ _, C_rattach _
      | C_twalk _ _ _, C_rwalk _ | C_tlopen _ _, C_rlopen _ _ | C_tlcreate _ _ _ _ _, C_rlcreate _ _
      | C_tread _ _ _, C_rread _ | C_tclunk _, C_rclunk | C_tremove _, C_rremove
      | C_tgetattr _ _, C_rgetattr _ _ _ _ _ _ _ _ _ _ _ _ _ _ _ _ _ _ _ _
      | C_tsetattr _ _ _ _ _ _ _ _ _ _, C_rsetattr | C_txattrwalk _ _ _, C_rxattrwalk _
      | C_txattrcreate _ _ _ _, C_rxattrcreate | C_tlock _ _ _ _ _ _ _, C_rlock _
      | C_tgetlock _ _ _ _ _ _, C_rgetlock _ _ _ _ _ | C_tmkdir _ _ _ _, C_rmkdir _
      | C_trename _ _ _, C_rrename => True
      | _, _ => False
      end
  | M_rreaddir d => match c with C_treaddir _ _ count => zlength d <= count | _ => False end
  end.

Class Polite `{Peer} := {
  polite : forall w tag c rtag m, (exchange w tag c).1 = A_msg rtag m -> answers c m;
}.

(** ** Runs *)

Section Runs.
Context `{Peer}.

(** The call is defined, and if it returns, it returns such a value and state. *)
Definition cruns {A} (c : CM A) (s : cstate) (Q : A -> cstate -> Prop) : Prop :=
  match c s with
  | Ret (Some (a, s')) => Q a s'
  | Ret None => True
  | _ => False
  end.

Lemma cruns_ret {A} (a : A) s Q : Q a s -> cruns (cret a) s Q.
Proof. done. Qed.

Lemma cruns_never {A} s (Q : A -> cstate -> Prop) : cruns never s Q.
Proof. done. Qed.

Lemma cruns_bind {A B} (c : CM A) (k : A -> CM B) s Q :
  cruns c s (fun a s' => cruns (k a) s' Q) -> cruns (cbind c k) s Q.
Proof. unfold cruns, cbind. destruct (c s) as [[[a s']|]| |]; done. Qed.

Lemma cruns_mono {A} (c : CM A) s (P Q : A -> cstate -> Prop) :
  cruns c s P -> (forall a s', P a s' -> Q a s') -> cruns c s Q.
Proof. unfold cruns. destruct (c s) as [[[a s']|]| |]; naive_solver. Qed.

Lemma cruns_modify f s (Q : unit -> cstate -> Prop) : Q tt (f s) -> cruns (cmodify f) s Q.
Proof. done. Qed.

Lemma cruns_get {A} (f : cstate -> A) s (Q : A -> cstate -> Prop) : Q (f s) s -> cruns (cget f) s Q.
Proof. done. Qed.

Lemma cruns_lift {A} (r : res A) a s (Q : A -> cstate -> Prop) : r = Ret a -> Q a s -> cruns (clift r) s Q.
Proof. intros ->. done. Qed.
End Runs.

(** ** The invariant *)

(** The identifiers of the fids are these, and no two fids share one. *)
Definition ids_are (F : gmap fid_ptr Npcfid) (X : gset Z) : Prop :=
  (forall id, id ∈ X <-> exists f x, F !! f = Some x /\ cf_fid x = id) /\
  (forall f g x y, F !! f = Some x -> F !! g = Some y -> cf_fid x = cf_fid y -> f = g).

(** The connection with fids [F] and tags [T]; [b] says if [npc_start] still holds
    its reference. *)
Definition fs_ok (b : bool) (T : gset Z) (F : gmap fid_ptr Npcfid) (fs : Npcfsys) : Prop :=
  fs_refcount fs = Z.b2z b + Z.of_nat (size F) /\ 0 < fs_refcount fs /\
  pool_set (fs_tagpool fs) T /\ maxid (fs_tagpool fs) = NOTAG /\ maxid (fs_fidpool fs) = NOFID /\
  exists X, pool_set (fs_fidpool fs) X /\ ids_are F X.

Definition cinv `{Peer} (b : bool) (T : gset Z) (Ms : gmap msg_ptr (Z * msg)) (s : cstate) : Prop :=
  match cs_fs s with Some fs => fs_ok b T (cs_fids s) fs | None => b = false /\ cs_fids s = ∅ end /\
  cs_msgs s = Ms /\
  map_Forall (fun p _ => (p < cs_next s)%positive) (cs_fids s) /\
  map_Forall (fun p _ => (p < cs_next s)%positive) Ms.

Section Steps.
Context `{Polite}.
Implicit Types (T : gset Z) (Ms : gmap msg_ptr (Z * msg)) (s : cstate) (f : fid_ptr).

Definition connected s : Prop := is_Some (cs_fs s).

Lemma live_connected b T Ms s f x : cinv b T Ms s -> cs_fids s !! f = Some x -> connected s.
Proof. intros (Hf & _) Hl. unfold connected. destruct (cs_fs s); [eauto|]. destruct Hf as [_ Hf]. rewrite Hf in Hl. done. Qed.

(** Nothing but the error, the peer and the requests sent differs. *)
Definition quietly s s' : Prop :=
  cs_fs s' = cs_fs s /\ cs_fids s' = cs_fids s /\ cs_msgs s' = cs_msgs s /\ cs_next s' = cs_next s.

Lemma cinv_quietly b T Ms s s' : quietly s s' -> cinv b T Ms s -> cinv b T Ms s'.
Proof. intros (E1 & E2 & E3 & E4). unfold cinv. rewrite E1, E2, E3, E4. done. Qed.

Lemma have_memory_rule s (Q : bool -> cstate -> Prop) : (forall ok s', quietly s s' -> Q ok s') -> cruns have_memory s Q.
Proof. intros HQ. unfold cruns, have_memory. destruct (alloc (cs_peer s)) as [ok w]. apply HQ. done. Qed.

Lemma load_fs_rule s fs (Q : Npcfsys -> cstate -> Prop) : cs_fs s = Some fs -> Q fs s -> cruns load_fs s Q.
Proof. intros E HQ. unfold cruns, load_fs, cbind, cget, clift. cbn. rewrite E. done. Qed.

Lemma load_cfid_rule s f x (Q : Npcfid -> cstate -> Prop) : cs_fids s !! f = Some x -> Q x s -> cruns (load_cfid f) s Q.
Proof. intros E HQ. unfold cruns, load_cfid, cbind, cget, clift. cbn. rewrite E. done. Qed.

Lemma load_msg_rule s p x (Q : Z * msg -> cstate -> Prop) : cs_msgs s !! p = Some x -> Q x s -> cruns (load_msg p) s Q.
Proof. intros E HQ. unfold cruns, load_msg, cbind, cget, clift. cbn. rewrite E. done. Qed.

(** ** Messages *)

Lemma fresh_insert {A} (m : gmap positive A) (n : positive) x :
  map_Forall (fun p _ => (p < n)%positive) m -> map_Forall (fun p _ => (p < Pos.succ n)%positive) (<[n := x]> m).
Proof. intros Hf p y. rewrite lookup_insert_Some. intros [[<- _]|[_ Hp]]; [lia|]. specialize (Hf p y Hp). cbn in *. lia. Qed.

Lemma fresh_succ {A} (m : gmap positive A) (n : positive) :
  map_Forall (fun p _ => (p < n)%positive) m -> map_Forall (fun p _ => (p < Pos.succ n)%positive) m.
Proof. intros Hf p y Hp. specialize (Hf p y Hp). cbn in *. lia. Qed.

Lemma fresh_none {A} (m : gmap positive A) (n : positive) : map_Forall (fun p _ => (p < n)%positive) m -> m !! n = None.
Proof. intros Hf. destruct (m !! n) as [y|] eqn:E; [|done]. specialize (Hf n y E). cbn in *. lia. Qed.

Lemma new_msg_rule b T Ms s t m (Q : msg_ptr -> cstate -> Prop) : cinv b T Ms s ->
  (forall p s', Ms !! p = None -> cinv b T (<[p := (t, m)]> Ms) s' -> cs_fids s' = cs_fids s -> cs_fs s' = cs_fs s ->
     cs_err s' = cs_err s -> Q p s') -> cruns (new_msg t m) s Q.
Proof.
  intros (Hfs & HM & Hf & Hm) HQ. unfold new_msg, new_ptr. do 4 apply cruns_bind. apply HQ; cbn; [|split_and!|..]; try done.
  - by apply fresh_none.
  - by rewrite HM.
  - by apply fresh_succ.
  - by apply fresh_insert.
Qed.

Lemma free_msg_rule b T Ms s p (Q : unit -> cstate -> Prop) : cinv b T Ms s -> is_Some (Ms !! p) ->
  (forall s', cinv b T (delete p Ms) s' -> cs_fids s' = cs_fids s -> cs_fs s' = cs_fs s -> cs_err s' = cs_err s -> Q tt s') ->
  cruns (free_msg p) s Q.
Proof.
  intros (Hfs & HM & Hf & Hm) [x Hp] HQ. apply cruns_bind. eapply load_msg_rule; [by rewrite HM|].
  apply HQ; cbn; try done. split_and!; cbn; try done; [by rewrite HM|by apply map_Forall_delete].
Qed.

Lemma create_rule b T Ms s c (Q : option msg_ptr -> cstate -> Prop) : cinv b T Ms s ->
  (forall s', cinv b T Ms s' -> cs_fids s' = cs_fids s -> cs_fs s' = cs_fs s -> Q None s') ->
  (forall p s', Ms !! p = None -> cinv b T (<[p := (NOTAG, M c)]> Ms) s' -> cs_fids s' = cs_fids s -> cs_fs s' = cs_fs s ->
     Q (Some p) s') -> cruns (create c) s Q.
Proof.
  intros Hi Hn Hs. apply cruns_bind, have_memory_rule. intros [] s' Hq; pose proof Hq as (E1 & E2 & _).
  - apply cruns_bind. eapply new_msg_rule; [by eapply cinv_quietly|]. intros p s2 Hp Hi2 F2 F1 _. apply Hs; congruence.
  - apply Hn; [by eapply cinv_quietly|done|done].
Qed.

(** ** Identifiers *)

(** Taking one from a pool, for any of the two pools. *)
Lemma get_id_rule pool set s fs X (Q : Z -> cstate -> Prop) : cs_fs s = Some fs -> pool_set (pool fs) X ->
  (forall id p' s', is_least X id -> id < bound (pool fs) -> pool_set p' ({[id]} ∪ X) -> maxid p' = maxid (pool fs) ->
     cs_fs s' = Some (set p' fs) -> cs_fids s' = cs_fids s -> cs_msgs s' = cs_msgs s -> cs_next s' = cs_next s -> Q id s') ->
  cruns (get_id pool set) s Q.
Proof.
  intros Ef HX HQ. apply cruns_bind. eapply load_fs_rule; [done|]. apply cruns_bind.
  assert (Hk : forall mem s1, quietly s s1 -> cruns match npc_get_id mem (pool fs) with
     | None => never | Some (id, p) => do _ <- store_fs (set p fs); cret id end s1 Q).
  { intros mem s1 (_ & E2 & E3 & E4). pose proof (npc_get_id_spec mem _ _ HX) as Hs.
    destruct (npc_get_id mem (pool fs)) as [[id p']|]; [|apply cruns_never].
    destruct Hs as (Hid & Hb & Hs & Hm). apply cruns_bind, cruns_modify, cruns_ret. eapply HQ; eauto. }
  destruct (full _ && can_grow _); [apply have_memory_rule|apply cruns_ret]; intros; apply Hk; done.
Qed.

Lemma put_id_rule pool set s fs X id (Q : unit -> cstate -> Prop) : cs_fs s = Some fs -> pool_set (pool fs) X -> id ∈ X ->
  (forall p', pool_set p' (X ∖ {[id]}) -> maxid p' = maxid (pool fs) -> Q tt (set_fs (Some (set p' fs)) s)) ->
  cruns (put_id pool set id) s Q.
Proof.
  intros Ef HX Hin HQ. apply cruns_bind. eapply load_fs_rule; [done|]. apply cruns_bind.
  destruct (npc_put_id_spec _ _ _ HX Hin) as (p' & Hp & HX' & Hm). eapply cruns_lift; [done|].
  apply cruns_modify. by apply HQ.
Qed.

Lemma fs_ok_tags b T T' F fs p' : fs_ok b T F fs -> pool_set p' T' -> maxid p' = maxid (fs_tagpool fs) ->
  fs_ok b T' F (set_tagpool p' fs).
Proof. intros (Hr & Hp & Ht & Hmax & HX) Hp' Hm. split; [done|]. split; [done|]. split; [done|]. split; cbn; [congruence|done]. Qed.

(** A tag is taken for a request: between requests none is in use, so it is 0. *)
Lemma get_tag_rule b Ms s (Q : Z -> cstate -> Prop) : cinv b ∅ Ms s -> connected s ->
  (forall s', cinv b {[0]} Ms s' -> connected s' -> cs_fids s' = cs_fids s -> Q 0 s') ->
  cruns (get_id fs_tagpool set_tagpool) s Q.
Proof.
  intros (Hfs & HM & Hf & Hm) [fs Ef] HQ. rewrite Ef in Hfs. eapply get_id_rule; [done|apply Hfs|].
  intros id p' s' (Hid & _ & Hleast) _ Hp' Hm' E1 E2 E3 E4.
  destruct (decide (id = 0)) as [->|]; [|specialize (Hleast 0); set_solver by lia]. rewrite union_empty_r_L in Hp'.
  apply HQ; [|by eexists|done]. unfold cinv. rewrite E1, E2, E3, E4. eauto using fs_ok_tags.
Qed.

Lemma put_tag_rule b Ms s tag (Q : unit -> cstate -> Prop) : cinv b {[tag]} Ms s -> connected s ->
  (forall s', cinv b ∅ Ms s' -> connected s' -> cs_fids s' = cs_fids s -> cs_err s' = cs_err s -> Q tt s') ->
  cruns (put_id fs_tagpool set_tagpool tag) s Q.
Proof.
  intros (Hfs & HM & Hf & Hm) [fs Ef] HQ. rewrite Ef in Hfs. eapply put_id_rule; [done|apply Hfs|set_solver|].
  intros p' Hp' Hm'. rewrite difference_diag_L in Hp'. apply HQ; [|by eexists|done..]. split; [|done].
  by eapply fs_ok_tags.
Qed.

(** ** A request *)

Definition is_rlerror (m : msg) : bool := match m with M (C_rlerror _) => true | _ => false end.

(** The reply: its type, and that it is not Rlerror. *)
Definition replied (c : np_call) (m : msg) : Prop := answers c m /\ is_rlerror m = false.

Lemma transact_rule b T Ms s tag c (Q : option msg_ptr -> cstate -> Prop) : cinv b T Ms s ->
  (forall s', cinv b T Ms s' -> cs_fids s' = cs_fids s -> cs_fs s' = cs_fs s -> Q None s') ->
  (forall p t m s', Ms !! p = None -> cinv b T (<[p := (t, m)]> Ms) s' -> replied c m -> cs_fids s' = cs_fids s ->
     cs_fs s' = cs_fs s -> Q (Some p) s') ->
  cruns (transact tag c) s Q.
Proof.
  intros Hi Hn Hs. apply cruns_bind, cruns_get. pose proof (polite (cs_peer s) tag c) as Hpol.
  destruct (exchange (cs_peer s) tag c) as [a w]. do 2 (apply cruns_bind, cruns_modify).
  assert (Hfail : forall e, cruns (do _ <- cuerror e; cret None)
     (set_sent (cs_sent (set_peer w s) ++ [(tag, c)]) (set_peer w s)) Q).
  { intros e. apply cruns_bind, cruns_modify, cruns_ret, Hn; done. }
  destruct a as [e| |rtag r]; [apply Hfail..|]. case_match; [apply Hfail|].
  assert (Hnew : is_rlerror r = false -> cruns (do p <- new_msg rtag r; cret (Some p))
     (set_sent (cs_sent (set_peer w s) ++ [(tag, c)]) (set_peer w s)) Q).
  { intros Hr. apply cruns_bind. eapply new_msg_rule; [done|]. intros p s' Hp Hi' E2 E1 _. apply cruns_ret.
    eapply Hs; eauto. split; [by eapply Hpol|done]. }
  destruct r as [[]|]; try (by apply Hnew). apply Hfail.
Qed.

Lemma retag_cinv b T Ms s tc x y : cinv b T (<[tc := x]> Ms) s ->
  cinv b T (<[tc := y]> Ms) (set_msgs (<[tc := y]> (cs_msgs s)) s).
Proof.
  intros (Hfs & HM & Hf & Hm). split_and!; try done; cbn; [by rewrite HM, insert_insert_eq|].
  intros p z. rewrite lookup_insert_Some. intros [[<- _]|[Hne Hp]]; eapply Hm; [apply lookup_insert_eq|].
  by rewrite lookup_insert_ne.
Qed.

Lemma npc_rpc_rule b Ms s tc t c (Q : option msg_ptr -> cstate -> Prop) : Ms !! tc = None ->
  cinv b ∅ (<[tc := (t, M c)]> Ms) s -> connected s ->
  (forall t' s', cinv b ∅ (<[tc := (t', M c)]> Ms) s' -> connected s' -> cs_fids s' = cs_fids s -> Q None s') ->
  (forall p t' tr m s', <[tc := (t', M c)]> Ms !! p = None -> cinv b ∅ (<[p := (tr, m)]> (<[tc := (t', M c)]> Ms)) s' ->
     replied c m -> connected s' -> cs_fids s' = cs_fids s -> Q (Some p) s') ->
  cruns (npc_rpc tc) s Q.
Proof.
  intros Htc Hi Hcon Hn Hs. apply cruns_bind. eapply load_msg_rule.
  { destruct Hi as (_ & -> & _). apply lookup_insert_eq. }
  apply cruns_bind. eapply cruns_lift; [done|]. apply cruns_bind. destruct (is_tversion c).
  - apply cruns_ret. apply cruns_bind, cruns_modify. apply retag_cinv with (y := (NOTAG, M c)) in Hi.
    apply cruns_bind. change (u16 NOTAG) with NOTAG.
    eapply transact_rule; [done|..].
    + intros s' Hi' E2 E1. apply cruns_bind, cruns_ret, cruns_ret. eapply Hn; [done|by unfold connected; rewrite E1|done].
    + intros p tr m s' Hp Hi' Hr E2 E1. apply cruns_bind, cruns_ret, cruns_ret.
      eapply Hs; [done..|by unfold connected; rewrite E1|done].
  - eapply get_tag_rule; [done..|]. intros s1 Hi1 Hcon1 F1. apply cruns_bind, cruns_modify.
    apply retag_cinv with (y := (0, M c)) in Hi1. apply cruns_bind. change (u16 0) with 0.
    eapply transact_rule; [done|..].
    + intros s' Hi' E2 E1. apply cruns_bind. cbn. eapply put_tag_rule; [done|by unfold connected; rewrite E1|].
      intros s2 Hi2 Hcon2 F2 _. apply cruns_ret. eapply Hn; [done..|cbn in *; congruence].
    + intros p tr m s' Hp Hi' Hr E2 E1. apply cruns_bind. cbn. eapply put_tag_rule; [done|by unfold connected; rewrite E1|].
      intros s2 Hi2 Hcon2 F2 _. apply cruns_ret. eapply Hs; [done..|cbn in *; congruence].
Qed.

Lemma request_rule b s c (Q : option msg -> cstate -> Prop) Ms : cinv b ∅ Ms s -> connected s ->
  (forall o s', cinv b ∅ Ms s' -> connected s' -> cs_fids s' = cs_fids s -> from_option (replied c) True o -> Q o s') ->
  cruns (npc_request c) s Q.
Proof.
  intros Hi Hcon HQ. apply cruns_bind. eapply create_rule; [done|..].
  - intros s' Hi' E2 E1. apply cruns_bind, cruns_modify, cruns_ret, HQ; [done|by unfold connected; cbn; rewrite E1|done|exact I].
  - intros tc s' Htc Hi' E2 E1. apply cruns_bind. eapply npc_rpc_rule; [done|done|by unfold connected; rewrite E1|..].
    + intros t s2 Hi2 Hcon2 F2. apply cruns_bind. eapply free_msg_rule; [done|by rewrite lookup_insert_eq|].
      intros s3 Hi3 F3 G3 _. rewrite delete_insert_id in Hi3 by done. apply cruns_ret, HQ; [done| |congruence|done].
      unfold connected. by rewrite G3.
    + intros rc t tr m s2 Hrc Hi2 Hr Hcon2 F2. apply cruns_bind. eapply load_msg_rule.
      { destruct Hi2 as (_ & -> & _). apply lookup_insert_eq. }
      apply lookup_insert_None in Hrc as [Hrc Hne]. apply cruns_bind. eapply free_msg_rule; [done| |].
      { rewrite lookup_insert_ne, lookup_insert_eq by done. done. }
      intros s3 Hi3 F3 G3 _. apply cruns_bind. rewrite delete_insert_ne, delete_insert_id in Hi3 by done.
      eapply free_msg_rule; [done|by rewrite lookup_insert_eq|]. intros s4 Hi4 F4 G4 _.
      rewrite delete_insert_id in Hi4 by done. apply cruns_ret, HQ; [done| |congruence|done].
      unfold connected. by rewrite G4, G3.
Qed.

(** ** Fids *)

Lemma ids_insert F X f x : F !! f = None -> cf_fid x ∉ X -> ids_are F X -> ids_are (<[f := x]> F) ({[cf_fid x]} ∪ X).
Proof.
  intros Hf Hx [Hids Hinj]. split.
  - intros id. rewrite elem_of_union, elem_of_singleton, Hids. split.
    + intros [->|(g & y & Hg & <-)]; [exists f, x; by rewrite lookup_insert_eq|].
      exists g, y. rewrite lookup_insert_ne by congruence. done.
    + intros (g & y & Hg & <-). apply lookup_insert_Some in Hg as [[_ <-]|[_ Hg]]; [by left|right; eauto].
  - intros g h y z Hg Hh E. apply lookup_insert_Some in Hg, Hh.
    destruct Hg as [[<- <-]|[_ Hg]], Hh as [[<- <-]|[_ Hh]]; [done| | |by eapply Hinj].
    + destruct Hx. apply Hids. eauto.
    + destruct Hx. apply Hids. eauto.
Qed.

Lemma ids_delete F X f x : F !! f = Some x -> ids_are F X -> ids_are (delete f F) (X ∖ {[cf_fid x]}).
Proof.
  intros Hf [Hids Hinj]. split.
  - intros id. rewrite elem_of_difference, elem_of_singleton, Hids. split.
    + intros [(g & y & Hg & <-) Hne]. exists g, y. rewrite lookup_delete_ne by congruence. done.
    + intros (g & y & Hg & <-). apply lookup_delete_Some in Hg as [Hne Hg]. split; [eauto|].
      intros E. by apply Hne, (Hinj f g x y).
  - intros g h y z Hg Hh. apply lookup_delete_Some in Hg as [_ Hg], Hh as [_ Hh]. by apply Hinj.
Qed.

Lemma ids_update F X f x y : F !! f = Some x -> cf_fid y = cf_fid x -> ids_are F X -> ids_are (<[f := y]> F) X.
Proof.
  intros Hf E [Hids Hinj]. split.
  - intros id. rewrite Hids. split; intros (g & z & Hg & <-).
    + destruct (decide (f = g)) as [<-|]; [exists f, y; rewrite lookup_insert_eq; split; congruence|].
      exists g, z. by rewrite lookup_insert_ne.
    + apply lookup_insert_Some in Hg as [[<- <-]|[_ Hg]]; eauto.
  - intros g h u v Hg Hh Ef. apply lookup_insert_Some in Hg, Hh.
    destruct Hg as [[<- <-]|[_ Hg]], Hh as [[<- <-]|[_ Hh]]; [done|eapply Hinj; eauto; congruence..].
Qed.

(** The fields of a fid other than its identifier. *)
Lemma store_cfid_rule b T Ms s f x y (Q : unit -> cstate -> Prop) : cinv b T Ms s -> cs_fids s !! f = Some x ->
  cf_fid y = cf_fid x ->
  (forall s', cinv b T Ms s' -> cs_fids s' = <[f := y]> (cs_fids s) -> cs_fs s' = cs_fs s -> cs_err s' = cs_err s -> Q tt s') ->
  cruns (store_cfid f y) s Q.
Proof.
  intros (Hfs & HM & Hf & Hm) Hx E HQ. apply cruns_modify, HQ; try done. split_and!; cbn; try done.
  - destruct (cs_fs s) as [fs|]; [|destruct Hfs as [_ Hfs]; rewrite Hfs in Hx; done].
    destruct Hfs as (Hr & Hp & Ht & Hmax & Hfmax & X & HX & Hids). split_and!; try done.
    + rewrite map_size_insert_Some by eauto. done.
    + exists X. split; [done|by eapply ids_update].
  - intros p z. rewrite lookup_insert_Some. intros [[<- _]|[_ Hz]]; [by apply (Hf f x)|by apply (Hf p z)].
Qed.

Lemma upd_cfid_rule b T Ms s f x g (Q : unit -> cstate -> Prop) : cinv b T Ms s -> cs_fids s !! f = Some x ->
  cf_fid (g x) = cf_fid x ->
  (forall s', cinv b T Ms s' -> cs_fids s' = <[f := g x]> (cs_fids s) -> cs_fs s' = cs_fs s -> cs_err s' = cs_err s -> Q tt s') ->
  cruns (upd_cfid f g) s Q.
Proof. intros Hi Hx E HQ. apply cruns_bind. eapply load_cfid_rule; [done|]. by eapply store_cfid_rule. Qed.

Lemma npc_fid_alloc_rule b Ms s (Q : option fid_ptr -> cstate -> Prop) : cinv b ∅ Ms s -> connected s ->
  (forall s', cinv b ∅ Ms s' -> connected s' -> cs_fids s' = cs_fids s -> Q None s') ->
  (forall f x s', cinv b ∅ Ms s' -> cs_fids s !! f = None -> cs_fids s' = <[f := x]> (cs_fids s) -> Q (Some f) s') ->
  cruns npc_fid_alloc s Q.
Proof.
  intros Hi Hcon Hn Hs. apply cruns_bind, have_memory_rule. intros [] s1 Hq; pose proof Hq as (E1 & E2 & _).
  all: apply (cinv_quietly b ∅ Ms) in Hq; [|done].
  2: { apply cruns_bind, cruns_modify, cruns_ret, Hn; [done|by unfold connected; cbn; rewrite E1|done]. }
  rewrite <- E2 in Hs. unfold connected in Hcon. rewrite <- E1 in Hcon. destruct Hcon as [fs Ef].
  destruct Hq as (Hfs & HM & Hf & Hm). rewrite Ef in Hfs. destruct Hfs as (Hr & Hp & Ht & Hmax & Hfmax & X & HX & Hids).
  apply cruns_bind. eapply get_id_rule; [done..|]. intros id p' s2 (_ & Hnew & _) _ Hp' Hm' G1 G2 G3 G4.
  unfold new_ptr. apply cruns_bind, cruns_bind, cruns_get, cruns_bind, cruns_modify, cruns_ret, cruns_bind, cruns_modify.
  apply cruns_bind, cruns_bind. eapply load_fs_rule; [exact G1|]. apply cruns_modify, cruns_ret.
  assert (Hnone : cs_fids s1 !! cs_next s1 = None) by by apply fresh_none.
  eapply Hs; cbn; rewrite G4, ?G2, ?G3; [|exact Hnone|reflexivity]. split_and!; cbn; rewrite ?G2, ?G3, ?G4; try done.
  - split_and!; cbn; try done; [rewrite map_size_insert_None by done; lia|lia|congruence|].
    exists ({[id]} ∪ X). split; [done|]. by apply (ids_insert _ _ _ {| cf_fid := id |}).
  - by apply fresh_insert.
  - by apply fresh_succ.
Qed.

Lemma npc_fid_free_rule b Ms s f x (Q : unit -> cstate -> Prop) : cinv b ∅ Ms s -> cs_fids s !! f = Some x ->
  (forall s', cinv b ∅ Ms s' -> cs_fids s' = delete f (cs_fids s) -> (b = true -> connected s') -> cs_err s' = cs_err s -> Q tt s') ->
  cruns (npc_fid_free f) s Q.
Proof.
  intros Hi Hx HQ. destruct (live_connected _ _ _ _ _ _ Hi Hx) as [fs Ef]. destruct Hi as (Hfs & HM & Hf & Hm).
  rewrite Ef in Hfs. destruct Hfs as (Hr & Hp & Ht & Hmax & Hfmax & X & HX & Hids).
  apply cruns_bind. eapply load_cfid_rule; [done|]. apply cruns_bind.
  assert (Hin : cf_fid x ∈ X) by (apply Hids; eauto). eapply put_id_rule; [done..|]. intros p' Hp' Hm'.
  apply cruns_bind. unfold npc_decref_fsys. apply cruns_bind. eapply load_fs_rule; [done|]. cbn.
  assert (Hdel : map_Forall (fun p _ => (p < cs_next s)%positive) (delete f (cs_fids s))) by by apply map_Forall_delete.
  assert (Hsize : size (cs_fids s) = S (size (delete f (cs_fids s)))).
  { rewrite map_size_delete_Some by eauto. assert (size (cs_fids s) <> 0%nat) as Hne.
    { rewrite map_size_non_empty_iff. intros E. rewrite E in Hx. done. } clear -Hne. lia. }
  destruct (Z.eqb_spec (fs_refcount fs - 1) 0) as [E0|E0]; cbn; apply cruns_modify, cruns_modify, HQ; try done; cbn.
  - split; cbn; [|done]. destruct b; cbn in *; [lia|]. split; [done|]. apply map_size_empty_inv. lia.
  - intros ->. cbn in *. lia.
  - split; cbn; [|done]. split_and!; cbn; try done; [lia| |congruence|exists (X ∖ {[cf_fid x]}); split; [done|by apply ids_delete]].
    destruct b; cbn in *; lia.
  - by eexists.
Qed.

Lemma npc_decref_rule Ms s (Q : unit -> cstate -> Prop) : cinv true ∅ Ms s ->
  (forall s', cinv false ∅ Ms s' -> cs_fids s' = cs_fids s -> cs_err s' = cs_err s -> Q tt s') ->
  cruns npc_decref_fsys s Q.
Proof.
  intros (Hfs & HM & Hf & Hm) HQ. destruct (cs_fs s) as [fs|] eqn:Ef; [|by destruct Hfs].
  destruct Hfs as (Hr & Hp & Ht & Hmax & Hfmax & X & HX & Hids). apply cruns_bind. eapply load_fs_rule; [done|]. cbn in *.
  destruct (Z.eqb_spec (fs_refcount fs - 1) 0) as [E0|E0]; cbn; apply cruns_modify, HQ; try done.
  - split; cbn; [|done]. split; [done|]. apply map_size_empty_inv. lia.
  - split; cbn; [|done]. split_and!; cbn; try done; [lia..|eauto].
Qed.

Lemma npc_clunk_rule b Ms s f x (Q : bool -> cstate -> Prop) : cinv b ∅ Ms s -> cs_fids s !! f = Some x ->
  (forall s', cinv b ∅ Ms s' -> cs_fids s' = delete f (cs_fids s) -> Q true s') ->
  (forall s', cinv b ∅ Ms s' -> cs_fids s' = cs_fids s -> Q false s') ->
  cruns (npc_clunk f) s Q.
Proof.
  intros Hi Hx Ht Hf. apply cruns_bind. eapply load_cfid_rule; [done|]. apply cruns_bind. unfold npc_request_ok.
  apply cruns_bind. eapply request_rule; [done|by eapply live_connected|]. intros o s1 Hi1 Hcon E2 _. apply cruns_ret.
  case_bool_decide.
  - apply cruns_bind. eapply npc_fid_free_rule; [done|by rewrite E2|]. intros s2 Hi2 F2 _ _. apply cruns_ret.
    apply Ht; [done|congruence].
  - by apply cruns_ret, Hf.
Qed.

(** ** The fids that are allocated *)

(** The invariant, with the messages [Ms] and the fids [D] allocated. *)
Definition holds (b : bool) Ms (D : gset fid_ptr) s : Prop := cinv b ∅ Ms s /\ dom (cs_fids s) = D.

(** Somebody holds a reference to the connection. *)
Definition in_use (b : bool) (D : gset fid_ptr) : Prop := b = true \/ D <> ∅.

Lemma holds_connected b Ms D s : holds b Ms D s -> in_use b D -> connected s.
Proof.
  intros [(Hfs & _) <-] Hu. unfold connected. destruct (cs_fs s); [eauto|]. destruct Hfs as [-> E]. rewrite E in Hu.
  destruct Hu as [|[]]; [done|set_solver].
Qed.

Lemma holds_fid b Ms D s f : holds b Ms D s -> f ∈ D -> exists x, cs_fids s !! f = Some x.
Proof. intros [_ <-] Hf. by apply elem_of_dom in Hf. Qed.

Lemma member_in_use b D f : f ∈ D -> in_use b D.
Proof. right. set_solver. Qed.

Lemma holds_memory b Ms D s (Q : bool -> cstate -> Prop) : holds b Ms D s -> (forall ok s', holds b Ms D s' -> Q ok s') ->
  cruns have_memory s Q.
Proof.
  intros [Hi Hd] HQ. apply have_memory_rule. intros ok s' Hq. apply HQ. split; [by eapply cinv_quietly|].
  destruct Hq as (_ & -> & _). done.
Qed.

Lemma holds_uerror b Ms D s e (Q : unit -> cstate -> Prop) : holds b Ms D s ->
  (forall s', holds b Ms D s' -> cs_err s' = e -> Q tt s') -> cruns (cuerror e) s Q.
Proof. intros Hh HQ. by apply cruns_modify, HQ. Qed.

Lemma holds_rerror b Ms D s (Q : Z -> cstate -> Prop) : holds b Ms D s -> (holds b Ms D s -> Q (cs_err s) s) -> cruns crerror s Q.
Proof. intros Hh HQ. by apply cruns_get, HQ. Qed.

Lemma holds_load_fs b Ms D s (Q : Npcfsys -> cstate -> Prop) : holds b Ms D s -> in_use b D ->
  (forall fs, cs_fs s = Some fs -> Q fs s) -> cruns load_fs s Q.
Proof. intros Hh Hu HQ. destruct (holds_connected _ _ _ _ Hh Hu) as [fs Ef]. eapply load_fs_rule; eauto. Qed.

Lemma holds_load b Ms D s f (Q : Npcfid -> cstate -> Prop) : holds b Ms D s -> f ∈ D ->
  (forall x, cs_fids s !! f = Some x -> Q x s) -> cruns (load_cfid f) s Q.
Proof. intros Hh Hf HQ. destruct (holds_fid _ _ _ _ _ Hh Hf) as [x Hx]. eapply load_cfid_rule; eauto. Qed.

Lemma holds_upd b Ms D s f g (Q : unit -> cstate -> Prop) : holds b Ms D s -> f ∈ D -> (forall x, cf_fid (g x) = cf_fid x) ->
  (forall s', holds b Ms D s' -> Q tt s') -> cruns (upd_cfid f g) s Q.
Proof.
  intros Hh Hf Hg HQ. destruct (holds_fid _ _ _ _ _ Hh Hf) as [x Hx]. destruct Hh as [Hi Hd].
  eapply upd_cfid_rule; [done..|]. intros s' Hi' E2 _ _. apply HQ. split; [done|]. rewrite E2, dom_insert_L. set_solver.
Qed.

Lemma holds_store b Ms D s f x y (Q : unit -> cstate -> Prop) : holds b Ms D s -> cs_fids s !! f = Some x ->
  cf_fid y = cf_fid x -> (forall s', holds b Ms D s' -> Q tt s') -> cruns (store_cfid f y) s Q.
Proof.
  intros [Hi Hd] Hx E HQ. eapply store_cfid_rule; [done..|]. intros s' Hi' E2 _ _. apply HQ. split; [done|].
  rewrite E2, dom_insert_lookup_L by eauto. done.
Qed.

Lemma holds_request b Ms D s c (Q : option msg -> cstate -> Prop) : holds b Ms D s -> in_use b D ->
  (forall o s', holds b Ms D s' -> from_option (replied c) True o -> Q o s') -> cruns (npc_request c) s Q.
Proof.
  intros Hh Hu HQ. pose proof (holds_connected _ _ _ _ Hh Hu) as Hcon. destruct Hh as [Hi Hd].
  eapply request_rule; [done..|]. intros o s' Hi' _ E2 Hr. apply HQ; [|done]. split; [done|congruence].
Qed.

Lemma holds_request_ok b Ms D s c (Q : bool -> cstate -> Prop) : holds b Ms D s -> in_use b D ->
  (forall ok s', holds b Ms D s' -> Q ok s') -> cruns (npc_request_ok c) s Q.
Proof. intros Hh Hu HQ. apply cruns_bind. eapply holds_request; [done..|]. intros o s' Hh' _. by apply cruns_ret, HQ. Qed.

Lemma holds_alloc b Ms D s (Q : option fid_ptr -> cstate -> Prop) : holds b Ms D s -> in_use b D ->
  (forall s', holds b Ms D s' -> Q None s') ->
  (forall f s', f ∉ D -> holds b Ms ({[f]} ∪ D) s' -> Q (Some f) s') -> cruns npc_fid_alloc s Q.
Proof.
  intros Hh Hu Hn Hs. pose proof (holds_connected _ _ _ _ Hh Hu) as Hcon. destruct Hh as [Hi Hd].
  eapply npc_fid_alloc_rule; [done..| |].
  - intros s' Hi' _ E2. apply Hn. split; [done|congruence].
  - intros f x s' Hi' Hf E2. apply Hs; [rewrite <- Hd; by apply not_elem_of_dom|]. split; [done|].
    rewrite E2, dom_insert_L, Hd. done.
Qed.

Lemma holds_free b Ms D s f (Q : unit -> cstate -> Prop) : holds b Ms D s -> f ∈ D ->
  (forall s', holds b Ms (D ∖ {[f]}) s' -> cs_err s' = cs_err s -> Q tt s') -> cruns (npc_fid_free f) s Q.
Proof.
  intros Hh Hf HQ. destruct (holds_fid _ _ _ _ _ Hh Hf) as [x Hx]. destruct Hh as [Hi Hd].
  eapply npc_fid_free_rule; [done..|]. intros s' Hi' E2 _ He. apply HQ; [|done]. split; [done|].
  rewrite E2, dom_delete_L, Hd. done.
Qed.

(** After a clunk that failed the fid is still allocated. *)
Lemma holds_clunk b Ms D s f (Q : bool -> cstate -> Prop) : holds b Ms D s -> f ∈ D ->
  (forall s', holds b Ms (D ∖ {[f]}) s' -> Q true s') -> (forall s', holds b Ms D s' -> Q false s') ->
  cruns (npc_clunk f) s Q.
Proof.
  intros Hh Hf Ht Hn. destruct (holds_fid _ _ _ _ _ Hh Hf) as [x Hx]. destruct Hh as [Hi Hd].
  eapply npc_clunk_rule; [done..| |].
  - intros s' Hi' E2. apply Ht. split; [done|]. rewrite E2, dom_delete_L, Hd. done.
  - intros s' Hi' E2. apply Hn. split; [done|congruence].
Qed.

Lemma holds_clunk_quietly b Ms D s f (Q : unit -> cstate -> Prop) : holds b Ms D s -> f ∈ D ->
  (forall D' s', D' = D \/ D' = D ∖ {[f]} -> holds b Ms D' s' -> Q tt s') -> cruns (clunk_quietly f) s Q.
Proof.
  intros Hh Hf HQ. apply cruns_bind, cruns_get, cruns_bind. eapply holds_clunk; [done..| |]; intros s' Hh'.
  all: apply cruns_modify; eapply HQ; [|exact Hh']; eauto.
Qed.
End Steps.
