(* ===== verification/ClientRules.v ===== *)
(** * Every operation of the client keeps the invariant (libnpclient)

    One lemma per function: it is defined, and it leaves these fids allocated. *)
From S2P Require Import Prelude Cbuf Protocol Npstring Wire Fcall Hash Ioctx Ops Client ClientOps ClientPool ClientInv.
From stdpp Require Import list gmap.
#[local] Open Scope Z_scope.

(** Somebody uses the connection: a fid is allocated. *)
Ltac in_use := first [assumption | by left | right; set_solver].

(** One step of a program, by the rule for the call. *)
Ltac cstep :=
  match goal with
  | |- cruns (cbind _ _) _ _ => apply cruns_bind
  | |- cruns (cret _) _ _ => apply cruns_ret
  | |- cruns never _ _ => apply cruns_never
  | Hh : holds _ _ _ ?s |- cruns have_memory ?s _ => eapply holds_memory; [exact Hh|]; clear Hh; intros [] ? Hh
  | Hh : holds _ _ _ ?s |- cruns (cuerror _) ?s _ => eapply holds_uerror; [exact Hh|]; clear Hh; intros ? Hh _
  | Hh : holds _ _ _ ?s |- cruns crerror ?s _ => eapply holds_rerror; [exact Hh|]; clear Hh; intros Hh
  | Hh : holds _ _ _ ?s |- cruns load_fs ?s _ => eapply holds_load_fs; [exact Hh|in_use|]; intros ? ?
  | Hh : holds _ _ _ ?s |- cruns (load_cfid _) ?s _ => eapply holds_load; [exact Hh|set_solver|]; intros ? ?
  | Hh : holds _ _ _ ?s |- cruns (upd_cfid _ _) ?s _ =>
      eapply holds_upd; [exact Hh|set_solver|done|]; clear Hh; intros ? Hh
  | Hh : holds _ _ _ ?s |- cruns (store_cfid _ _) ?s _ => eapply holds_store; [exact Hh|eassumption|done|]; clear Hh; intros ? Hh
  | Hh : holds _ _ _ ?s |- cruns (npc_request_ok _) ?s _ => eapply holds_request_ok; [exact Hh|in_use|]; clear Hh; intros [] ? Hh
  | Hh : holds _ _ _ ?s |- cruns npc_fid_alloc ?s _ =>
      eapply holds_alloc; [exact Hh|in_use|clear Hh; intros ? Hh|clear Hh; intros ? ? ? Hh]
  | Hh : holds _ _ _ ?s |- cruns (npc_fid_free _) ?s _ => eapply holds_free; [exact Hh|set_solver|]; clear Hh; intros ? Hh _
  | Hh : holds _ _ _ ?s |- cruns (npc_clunk _) ?s _ => eapply holds_clunk; [exact Hh|set_solver|clear Hh; intros ? Hh..]
  | |- cruns (if ?b then _ else _) _ _ => destruct b eqn:?
  end; cbn beta iota.

(** A request, and the fields of a reply of the right type. *)
Ltac creq :=
  try match goal with |- cruns (cbind _ _) _ _ => apply cruns_bind end;
  match goal with
  | Hh : holds _ _ _ ?s |- cruns (npc_request _) ?s _ =>
      eapply holds_request; [exact Hh|in_use|]; clear Hh;
      let Hr := fresh in intros [[[]|]|] ? Hh Hr; try (by destruct Hr); clear Hr
  end.
Ltac creply := repeat (first [cstep | eapply cruns_lift; [reflexivity|]; cbn beta iota]).

Section Rules.
Context `{Polite}.
Implicit Types (Ms : gmap msg_ptr (Z * msg)) (s : cstate) (f : fid_ptr) (D : gset fid_ptr).

Lemma minus_added D f : f ∉ D -> ({[f]} ∪ D) ∖ {[f]} = D.
Proof. set_solver. Qed.

(** What an operation by path leaves: the same fids if it succeeded; if it failed,
    the fid that was walked to may be left. *)
Definition left_over b Ms D (ok : bool) s : Prop :=
  exists D', D ⊆ D' /\ holds b Ms D' s /\ (ok = true -> D' = D).

Lemma left_same b Ms D ok s : holds b Ms D s -> left_over b Ms D ok s.
Proof. intros Hh. by exists D. Qed.

Lemma left_new b Ms D f s : holds b Ms ({[f]} ∪ D) s -> left_over b Ms D false s.
Proof. intros Hh. exists ({[f]} ∪ D). split; [set_solver|done]. Qed.

Lemma left_removed b Ms D f ok s : f ∉ D -> holds b Ms (({[f]} ∪ D) ∖ {[f]}) s -> left_over b Ms D ok s.
Proof. intros Hf Hh. rewrite minus_added in Hh by done. by apply left_same. Qed.

(** A new fid, or none. *)
Definition made b Ms D (o : option fid_ptr) s : Prop :=
  match o with
  | Some f => f ∉ D /\ holds b Ms ({[f]} ∪ D) s
  | None => left_over b Ms D false s
  end.

Lemma clunk_quietly_left b Ms D f s (Q : unit -> cstate -> Prop) : f ∉ D -> holds b Ms ({[f]} ∪ D) s ->
  (forall s', left_over b Ms D false s' -> Q tt s') -> cruns (clunk_quietly f) s Q.
Proof.
  intros Hf Hh HQ. eapply holds_clunk_quietly; [done|set_solver|]. intros D' s' [->| ->] Hh'; apply HQ.
  - by eapply left_new.
  - by eapply left_removed.
Qed.

(** ** Walking *)

Ltac cdone := first [done | by apply left_same | by eapply left_removed | by eapply left_new | by split].
Ltac csteps := repeat cstep; try cdone.

Lemma npc_clone_rule b Ms D s f : holds b Ms D s -> f ∈ D -> cruns (npc_clone f) s (made b Ms D).
Proof. intros Hh Hf. unfold npc_clone. csteps. Qed.

(** The path is walked with one Twalk: it has at most 16 components. *)
Definition one_walk (path : cstr) : Prop :=
  let '(_, s, t) := split_names (Z.to_nat MAXWELEM) (skip_slashes path) false in negb t || bool_decide (s = []) = true.

Lemma holds_free_msg b Ms D s p (Q : unit -> cstate -> Prop) : holds b Ms D s -> is_Some (Ms !! p) ->
  (forall s', holds b (delete p Ms) D s' -> Q tt s') -> cruns (free_msg p) s Q.
Proof.
  intros [Hi Hd] Hp HQ. eapply free_msg_rule; [done..|]. intros s' Hi' E2 _ _. apply HQ. split; [done|congruence].
Qed.

Lemma holds_create b Ms D s c (Q : option msg_ptr -> cstate -> Prop) : holds b Ms D s ->
  (forall s', holds b Ms D s' -> Q None s') ->
  (forall p s', Ms !! p = None -> holds b (<[p := (NOTAG, M c)]> Ms) D s' -> Q (Some p) s') -> cruns (create c) s Q.
Proof.
  intros [Hi Hd] Hn Hs. eapply create_rule; [done|..].
  - intros s' Hi' E2 _. apply Hn. split; [done|congruence].
  - intros p s' Hp Hi' E2 _. apply Hs; [done|]. split; [done|congruence].
Qed.

Lemma holds_rpc b Ms D s tc t c (Q : option msg_ptr -> cstate -> Prop) : Ms !! tc = None ->
  holds b (<[tc := (t, M c)]> Ms) D s -> in_use b D ->
  (forall t' s', holds b (<[tc := (t', M c)]> Ms) D s' -> Q None s') ->
  (forall p t' tr m s', Ms !! p = None -> p <> tc -> holds b (<[p := (tr, m)]> (<[tc := (t', M c)]> Ms)) D s' ->
     replied c m -> Q (Some p) s') ->
  cruns (npc_rpc tc) s Q.
Proof.
  intros Htc Hh Hu Hn Hs. pose proof (holds_connected _ _ _ _ Hh Hu) as Hcon. destruct Hh as [Hi Hd].
  eapply npc_rpc_rule; [done..| |].
  - intros t' s' Hi' _ E2. eapply Hn. split; [done|congruence].
  - intros p t' tr m s' Hp Hi' Hr _ E2. apply lookup_insert_None in Hp as [Hp Hne].
    eapply Hs; [done|done| |done]. split; [done|congruence].
Qed.

Lemma holds_load_msg b Ms D s p x (Q : Z * msg -> cstate -> Prop) : holds b Ms D s -> Ms !! p = Some x ->
  Q x s -> cruns (load_msg p) s Q.
Proof. intros [(_ & HM & _) _] Hp HQ. eapply load_msg_rule; [by rewrite HM|done]. Qed.

(** Freeing the request, and both messages. *)
Lemma holds_free_one b Ms D s tc x (Q : unit -> cstate -> Prop) : Ms !! tc = None -> holds b (<[tc := x]> Ms) D s ->
  (forall s', holds b Ms D s' -> Q tt s') -> cruns (free_msg tc) s Q.
Proof.
  intros Htc Hh HQ. eapply holds_free_msg; [done|by rewrite lookup_insert_eq|]. intros s' Hh'.
  rewrite delete_insert_id in Hh' by done. by apply HQ.
Qed.

Lemma holds_free_two b Ms D s tc rc x y (Q : unit -> cstate -> Prop) : Ms !! tc = None -> Ms !! rc = None -> rc <> tc ->
  holds b (<[rc := y]> (<[tc := x]> Ms)) D s ->
  (forall s', holds b Ms D s' -> Q tt s') -> cruns (do _ <- free_msg tc; free_msg rc) s Q.
Proof.
  intros Htc Hrc Hne Hh HQ. apply cruns_bind. eapply holds_free_msg; [done|by rewrite lookup_insert_ne, lookup_insert_eq|].
  intros s' Hh'. rewrite delete_insert_ne, delete_insert_id in Hh' by done. by eapply holds_free_one.
Qed.

(** The end of a failed walk, with the messages that are allocated. *)
Lemma walk_end_rule b Ms D s fid from : fid ∉ D -> from ∈ {[fid]} ∪ D -> holds b Ms ({[fid]} ∪ D) s ->
  cruns (walk_error fid from None None) s (made b Ms D).
Proof.
  intros Hf Hfrom Hh. unfold walk_error. cbn [free_opt]. repeat cstep.
  - eapply clunk_quietly_left; [done..|]. intros s' Hl. by apply cruns_ret.
  - cdone.
Qed.

Lemma walk_sent_rule b Ms D s fid from tc x : Ms !! tc = None -> fid ∉ D -> from ∈ {[fid]} ∪ D ->
  holds b (<[tc := x]> Ms) ({[fid]} ∪ D) s -> cruns (walk_error fid from (Some tc) None) s (made b Ms D).
Proof.
  intros Htc Hf Hfrom Hh. do 2 apply cruns_bind. cbn [free_opt]. eapply cruns_ret, holds_free_one; [done..|]. intros s' Hh'.
  by apply (walk_end_rule b Ms D s' fid from).
Qed.

Lemma walk_short_rule b Ms D s fid from tc rc x y : Ms !! tc = None -> Ms !! rc = None -> rc <> tc -> fid ∉ D ->
  from ∈ {[fid]} ∪ D -> holds b (<[rc := y]> (<[tc := x]> Ms)) ({[fid]} ∪ D) s ->
  cruns (walk_error fid from (Some tc) (Some rc)) s (made b Ms D).
Proof.
  intros Htc Hrc Hne Hf Hfrom Hh. apply cruns_bind. cbn [free_opt]. eapply holds_free_one; [|done|].
  { by rewrite lookup_insert_ne. }
  intros s' Hh'. by eapply (walk_sent_rule b Ms D s' fid from tc x).
Qed.

Lemma walk_loop_rule b Ms D s fuel fid from path : fid ∉ D -> from ∈ D -> holds b Ms ({[fid]} ∪ D) s -> one_walk path ->
  cruns (npc_walk_loop (S fuel) fid from (skip_slashes path) false None) s (made b Ms D).
Proof.
  intros Hf Hfrom Hh Hone. unfold one_walk in Hone. cbn [npc_walk_loop].
  destruct (split_names _ _ _) as [[wnames s1] t]. do 4 cstep. apply cruns_bind.
  eapply holds_create; [done| |]; clear Hh.
  - intros s2 Hh. do 2 cstep. apply walk_end_rule; [done|set_solver|done].
  - intros tc s2 Htc Hh. cstep. eapply holds_rpc; [done..|in_use| |]; clear Hh.
    + intros t' s3 Hh. eapply walk_sent_rule; [done|done|set_solver|done].
    + intros rc t' tr m s3 Hrc Hne Hh [Ha Hl]. cstep. eapply holds_load_msg; [done|by rewrite lookup_insert_eq|].
      destruct m as [[]|]; try done. cstep. eapply cruns_lift; [done|]. cstep.
      * do 2 cstep. eapply walk_short_rule; [done|done|done|done|set_solver|done].
      * cstep. eapply holds_free_msg; [done|by rewrite lookup_insert_ne, lookup_insert_eq|]. clear Hh. intros s4 Hh.
        rewrite delete_insert_ne, delete_insert_id in Hh by done. cstep. eapply holds_free_one; [done..|].
        clear Hh. intros s5 Hh. rewrite Hone. cstep. by split.
Qed.

Definition path_ok (path : option cstr) : Prop := from_option one_walk True path.

Lemma npc_walk_rule b Ms D s f path : holds b Ms D s -> f ∈ D -> path_ok path -> cruns (npc_walk f path) s (made b Ms D).
Proof.
  intros Hh Hf Hp. destruct path as [path|]; [|by apply npc_clone_rule]. unfold npc_walk.
  do 2 cstep; [|csteps]. cbn [negb]. cstep. cstep; [csteps|]. by apply walk_loop_rule.
Qed.

(** ** Operations on one fid *)

(** The operation leaves the fids as they are. *)
Definition keeps {A} (c : CM A) (f : fid_ptr) : Prop :=
  forall b Ms D s, holds b Ms D s -> f ∈ D -> cruns c s (fun _ s' => holds b Ms D s').

Lemma keeps_at {A} (c : CM A) f b Ms D s (Q : A -> cstate -> Prop) : keeps c f -> holds b Ms D s -> f ∈ D ->
  (forall a s', holds b Ms D s' -> Q a s') -> cruns c s Q.
Proof. intros Hc Hh Hf HQ. eapply cruns_mono; [by apply Hc|]. intros a s' Hh'. by apply HQ. Qed.

(** A step that is an operation on one fid. *)
Ltac ckeep R f :=
  match goal with
  | Hh : holds _ _ _ ?s |- cruns _ ?s _ => eapply (keeps_at _ f); [apply R|exact Hh|set_solver|]; clear Hh; intros ? ? Hh
  end.

(** A reply whose fields are read, then the steps. *)
Ltac creads := repeat cstep; creq; creply; try cdone.

Lemma set_iounit_keeps f n : keeps (set_iounit f n) f.
Proof. intros b Ms D s Hh Hf. unfold set_iounit. csteps. Qed.

Lemma npc_create_keeps f name flags mode gid : keeps (npc_create f name flags mode gid) f.
Proof.
  intros b Ms D s Hh Hf. unfold npc_create. creads. ckeep set_iounit_keeps f. by cstep.
Qed.

Lemma npc_open_keeps f flags : keeps (npc_open f flags) f.
Proof.
  intros b Ms D s Hh Hf. unfold npc_open. creads. ckeep set_iounit_keeps f. csteps.
Qed.

Lemma npc_lseek_keeps f o w : keeps (npc_lseek f o w) f.
Proof. intros b Ms D s Hh Hf. unfold npc_lseek. csteps. Qed.

(** The operation leaves the fids as they are and returns such a value. *)
Definition gives {A} (c : CM A) (f : fid_ptr) (P : A -> Prop) : Prop :=
  forall b Ms D s, holds b Ms D s -> f ∈ D -> cruns c s (fun a s' => P a /\ holds b Ms D s').

Lemma gives_keeps {A} (c : CM A) f P : gives c f P -> keeps c f.
Proof. intros Hc b Ms D s Hh Hf. eapply cruns_mono; [by apply Hc|]. by intros a s' [_ ?]. Qed.

Ltac cgive R f :=
  match goal with
  | Hh : holds _ _ _ ?s |- cruns _ ?s _ =>
      eapply cruns_mono; [eapply R; [exact Hh|set_solver]|]; clear Hh; cbn beta; intros ? ? [? Hh]
  end.

Lemma int_sum_run a b : - 2 ^ 31 <= a + b < 2 ^ 31 -> int_sum a b = Ret (a + b).
Proof. intros Hab. unfold int_sum. by rewrite (proj2 (Z.leb_le _ _)), (proj2 (Z.ltb_lt _ _)) by lia. Qed.

(** A read returns no more than was asked for. *)
Definition at_most (n : Z) (o : option (list Z)) : Prop := from_option (fun d => zlength d <= n) True o.

Lemma npc_pread_gives f n o : gives (npc_pread f n o) f (at_most n).
Proof.
  intros b Ms D s Hh Hf. unfold npc_pread. do 4 cstep. cbv zeta.
  set (count := if u32 (maxio fs) <? n then u32 (maxio fs) else n).
  assert (Hc : count <= n) by (unfold count; destruct (Z.ltb_spec (u32 (maxio fs)) n); lia).
  creq; creply; try cdone. split; [|done]. cbn. lia.
Qed.

Lemma npc_read_gives f n : gives (npc_read f n) f (at_most n).
Proof.
  intros b Ms D s Hh Hf. unfold npc_read. do 3 cstep. cgive npc_pread_gives f. destruct a; csteps.
Qed.

Lemma npc_pread_keeps f n o : keeps (npc_pread f n o) f.
Proof. eapply gives_keeps, npc_pread_gives. Qed.

Lemma npc_read_keeps f n : keeps (npc_read f n) f.
Proof. eapply gives_keeps, npc_read_gives. Qed.

Lemma get_loop_keeps fuel f count data : count < 2 ^ 31 -> keeps (get_loop fuel f count data) f.
Proof.
  intros Hc. revert data. induction fuel as [|fuel IH]; intros data b Ms D s Hh Hf; cbn [get_loop].
  - csteps.
  - destruct (Z.ltb_spec (zlength data) count) as [Hlt|]; cbn [negb]; [|csteps]. cstep. cgive npc_read_gives f.
    destruct a as [d|]; [|csteps]. cstep; [csteps|]. cstep. pose proof (zlength_nonneg data). pose proof (zlength_nonneg d).
    eapply cruns_lift; [apply int_sum_run; cbn in *; lia|].
    do 2 cstep. cstep; [csteps|]. by apply IH.
Qed.

(** Each round adds at most a chunk to the buffer. *)
Lemma aget_loop_keeps fuel f ssize data : (ssize = 0 /\ data = [] \/ zlength data < ssize) ->
  ssize + AGET_CHUNK * Z.of_nat fuel < 2 ^ 31 -> keeps (aget_loop fuel f ssize data) f.
Proof.
  revert ssize data. induction fuel as [|fuel IH]; intros ssize data Hs Hmax b Ms D s Hh Hf; cbn [aget_loop]; [done|].
  cstep. unfold AGET_CHUNK in *. pose proof (zlength_nonneg data).
  assert (Hss : exists n, (if ssize =? 0 then Ret 4096 else if ssize - zlength data =? 1 then int_sum ssize 4096 else Ret ssize) = Ret n /\
    zlength data + 1 < n /\ n <= ssize + 4096).
  { destruct (Z.eqb_spec ssize 0) as [->|Hne].
    - exists 4096. split; [done|]. destruct Hs as [[_ ->]|Hs]; [unfold zlength; cbn; lia|lia].
    - destruct Hs as [[-> _]|Hs]; [done|]. destruct (Z.eqb_spec (ssize - zlength data) 1) as [E1|E1].
      + exists (ssize + 4096). rewrite int_sum_run by lia. split; [done|lia].
      + exists ssize. split; [done|lia]. }
  destruct Hss as (n & En & Hn1 & Hn2). eapply cruns_lift; [exact En|]. cstep.
  eapply (cruns_mono _ _ (fun _ s' => holds b Ms D s')); [csteps|]. clear Hh. intros [] s1 Hh; [|csteps]. cbn [negb].
  cstep. cgive npc_read_gives f. destruct a as [d|]; [|csteps]. cstep; [csteps|]. cstep. pose proof (zlength_nonneg d).
  eapply cruns_lift; [apply int_sum_run; cbn in *; lia|]. do 2 cstep. cstep; [csteps|].
  apply IH; [right; rewrite zlength_app; cbn in *; lia|lia|done|done].
Qed.

(** A write returns no more than was sent. *)
Lemma int32_le n : 0 <= n -> int32 n <= n.
Proof. intros Hn. unfold int32. pose proof (Z.mod_le (n + 2 ^ 31) (2 ^ 32) ltac:(lia) ltac:(lia)). lia. Qed.

Lemma npc_pwrite_gives f data o : gives (npc_pwrite f data o) f (fun r => forall n, r = Some n -> n <= zlength data).
Proof.
  intros b Ms D s Hh Hf. unfold npc_pwrite. do 4 cstep. cstep. eapply holds_request; [exact Hh|in_use|]. clear Hh.
  intros o1 s1 Hh Hr. destruct o1 as [m|]; [|by csteps]. destruct Hr as [Ha Hl]. destruct m as [[]|]; try done.
  cbn in Ha. cstep. eapply cruns_lift; [done|]. cstep. split; [|done]. intros n [= <-].
  pose proof (int32_le count ltac:(lia)). unfold zlength in *. rewrite length_take in Ha. lia.
Qed.

Lemma npc_write_gives f data : gives (npc_write f data) f (fun r => forall n, r = Some n -> 0 <= n <= zlength data).
Proof.
  intros b Ms D s Hh Hf. unfold npc_write. do 3 cstep. cgive npc_pwrite_gives f. destruct a as [n|]; [|by csteps].
  cstep. eapply (cruns_mono _ _ (fun _ s' => holds b Ms D s')); [csteps|]. clear Hh. intros _ s1 Hh. cstep. split; [|done].
  intros k. destruct (Z.ltb_spec n 0); [done|]. intros [= <-]. split; [done|]. by match goal with Hg : forall n, Some _ = Some n -> _ |- _ => apply Hg end.
Qed.

Lemma npc_pwrite_keeps f data o : keeps (npc_pwrite f data o) f.
Proof. eapply gives_keeps, npc_pwrite_gives. Qed.

Lemma npc_write_keeps f data : keeps (npc_write f data) f.
Proof. eapply gives_keeps, npc_write_gives. Qed.

Lemma write_loop_keeps fuel f data n : 0 <= n -> zlength data < 2 ^ 31 -> keeps (write_loop fuel f data n) f.
Proof.
  intros Hn Hd. revert n Hn. induction fuel as [|fuel IH]; intros n Hn b Ms D s Hh Hf; cbn [write_loop].
  - csteps.
  - destruct (Z.ltb_spec n (zlength data)) as [Hlt|]; cbn [negb]; [|csteps]. cstep. cgive npc_write_gives f.
    destruct a as [k|]; [|csteps]. match goal with Hg : forall n, Some k = Some n -> _ |- _ => destruct (Hg k eq_refl) as [Hk1 Hk2] end. cstep.
    eapply cruns_lift; [apply int_sum_run|]; [|by apply IH; [lia|..]].
    unfold zlength in *. rewrite length_take, length_drop in Hk2. lia.
Qed.

Lemma npc_puts_keeps fuel f text : keeps (npc_puts fuel f text) f.
Proof.
  apply write_loop_keeps; [done|]. unfold zlength at 1. rewrite length_take.
  pose proof (int32_range (zlength text)). lia.
Qed.

Lemma npc_getattr_keeps f mask : keeps (npc_getattr f mask) f.
Proof. intros b Ms D s Hh Hf. unfold npc_getattr. creads. Qed.

Lemma npc_fstat_keeps f : keeps (npc_fstat f) f.
Proof. intros b Ms D s Hh Hf. unfold npc_fstat. cstep. ckeep npc_getattr_keeps f. by cstep. Qed.

Lemma npc_setattr_keeps f valid mode uid gid size atime mtime : keeps (npc_setattr f valid mode uid gid size atime mtime) f.
Proof. intros b Ms D s Hh Hf. unfold npc_setattr. csteps. Qed.

Lemma npc_futime_keeps times f : keeps (npc_futime times f) f.
Proof. unfold npc_futime. destruct times as [[]|]; apply npc_setattr_keeps. Qed.

Lemma npc_readdir_keeps f o n : keeps (npc_readdir f o n) f.
Proof.
  intros b Ms D s Hh Hf. unfold npc_readdir. do 3 cstep.
  eapply holds_request; [done|in_use|]. clear Hh. intros o1 s1 Hh Hr. destruct o1 as [m|]; [|csteps].
  destruct Hr as [Ha Hl]. destruct m as [[]|d]; try done. cstep. eapply cruns_lift; [done|]. cstep.
  cbn in Ha. unfold np_assert. rewrite (proj2 (Z.leb_le _ _) Ha). eapply cruns_lift; [done|]. csteps.
Qed.

Lemma npc_xattrcreate_keeps f name n flags : keeps (npc_xattrcreate f name n flags) f.
Proof. intros b Ms D s Hh Hf. unfold npc_xattrcreate. csteps. Qed.

Lemma attr_loop_keeps fuel f size tot data : keeps (attr_loop fuel f size tot data) f.
Proof.
  revert tot data. induction fuel as [|fuel IH]; intros tot data b Ms D s Hh Hf; cbn [attr_loop].
  - csteps.
  - cstep; [csteps|]. cstep. ckeep npc_read_keeps f. destruct a as [[|c d]|]; [csteps|by apply IH|by apply IH].
Qed.

Lemma npc_lock_keeps f flags info : keeps (npc_lock f flags info) f.
Proof. intros b Ms D s Hh Hf. unfold npc_lock. creads. Qed.

Lemma npc_getlock_keeps f info : keeps (npc_getlock f info) f.
Proof. intros b Ms D s Hh Hf. unfold npc_getlock. creads. Qed.

Lemma npc_mkdir_keeps egid f name mode : keeps (npc_mkdir egid f name mode) f.
Proof. intros b Ms D s Hh Hf. unfold npc_mkdir. csteps. Qed.

(** ** Operations by path *)

(** Walk, do it, and give the fid back. *)
Lemma npc_open_bypath_rule b Ms D s f path flags : holds b Ms D s -> f ∈ D -> path_ok path ->
  cruns (npc_open_bypath f path flags) s (made b Ms D).
Proof.
  intros Hh Hf Hp. apply cruns_bind. eapply cruns_mono; [by apply npc_walk_rule|]. clear Hh. intros [fid|] s1 Hm; [|by cstep].
  destruct Hm as [Hfid Hh]. cstep. ckeep npc_open_keeps fid. cstep; [csteps|]. cstep.
  eapply clunk_quietly_left; [done..|]. intros s3 Hl. by cstep.
Qed.

Lemma npc_create_bypath_rule b Ms D s f path flags mode gid : holds b Ms D s -> f ∈ D -> one_walk (dirname path) ->
  cruns (npc_create_bypath f path flags mode gid) s (made b Ms D).
Proof.
  intros Hh Hf Hp. unfold npc_create_bypath. do 2 cstep; [|csteps]. cbn [negb]. cstep.
  eapply cruns_mono; [by apply npc_walk_rule|]. clear Hh. intros [fid|] s1 Hm; [|by cstep]. destruct Hm as [Hfid Hh].
  do 2 cstep; cbn [negb]; [|csteps]. cstep. ckeep npc_create_keeps fid. cstep; [csteps|]. cstep.
  eapply clunk_quietly_left; [done..|]. intros s3 Hl. by cstep.
Qed.

Definition succeeded {A} (o : option A) : bool := bool_decide (is_Some o).

Lemma at_path_rule {A} (op : fid_ptr -> CM (option A)) b Ms D s f path : (forall f, keeps (op f) f) ->
  holds b Ms D s -> f ∈ D -> path_ok path ->
  cruns (at_path f path op) s (fun o s' => left_over b Ms D (succeeded o) s').
Proof.
  intros Hop Hh Hf Hp. apply cruns_bind. eapply cruns_mono; [by apply npc_walk_rule|]. clear Hh.
  intros [fid|] s1 Hm; [|by cstep]. destruct Hm as [Hfid Hh]. cstep. ckeep Hop fid. destruct a as [a|].
  - csteps.
  - cstep. eapply clunk_quietly_left; [done..|]. intros s3 Hl. by cstep.
Qed.

Lemma npc_get_rule b Ms D s fuel f path count : count < 2 ^ 31 -> holds b Ms D s -> f ∈ D -> path_ok path ->
  cruns (npc_get fuel f path count) s (fun o s' => left_over b Ms D (succeeded o) s').
Proof.
  intros Hc Hh Hf Hp. apply cruns_bind. eapply cruns_mono; [by apply npc_open_bypath_rule|]. clear Hh.
  intros [fid|] s1 Hm; [|by cstep]. destruct Hm as [Hfid Hh]. cstep.
  pose proof (get_loop_keeps fuel fid count [] Hc) as Hk. ckeep Hk fid. destruct a; csteps.
Qed.

Lemma npc_aget_rule b Ms D s fuel f path : AGET_CHUNK * Z.of_nat fuel < 2 ^ 31 -> holds b Ms D s -> f ∈ D -> path_ok path ->
  cruns (npc_aget fuel f path) s (fun o s' => left_over b Ms D (succeeded o) s').
Proof.
  intros Hc Hh Hf Hp. apply cruns_bind. eapply cruns_mono; [by apply npc_open_bypath_rule|]. clear Hh.
  intros [fid|] s1 Hm; [|by cstep]. destruct Hm as [Hfid Hh]. cstep.
  pose proof (aget_loop_keeps fuel fid 0 [] ltac:(by left) Hc) as Hk. ckeep Hk fid. destruct a; csteps.
Qed.

Lemma npc_put_rule b Ms D s fuel f path data : zlength data < 2 ^ 31 -> holds b Ms D s -> f ∈ D -> path_ok path ->
  cruns (npc_put fuel f path data) s (fun o s' => left_over b Ms D (succeeded o) s').
Proof.
  intros Hd Hh Hf Hp. apply cruns_bind. eapply cruns_mono; [by apply npc_open_bypath_rule|]. clear Hh.
  intros [fid|] s1 Hm; [|by cstep]. destruct Hm as [Hfid Hh]. cstep.
  pose proof (write_loop_keeps fuel fid data 0 ltac:(done) Hd) as Hk. ckeep Hk fid. csteps.
Qed.

Lemma npc_mkdir_bypath_rule b Ms D s egid f path mode : holds b Ms D s -> f ∈ D -> one_walk (dirname path) ->
  cruns (npc_mkdir_bypath egid f path mode) s (fun ok s' => left_over b Ms D ok s').
Proof.
  intros Hh Hf Hp. unfold npc_mkdir_bypath. do 2 cstep; [|csteps]. cbn [negb]. cstep.
  eapply cruns_mono; [by apply npc_walk_rule|]. clear Hh. intros [fid|] s1 Hm; [|by cstep]. destruct Hm as [Hfid Hh].
  do 2 cstep; cbn [negb]; [|csteps]. cstep. ckeep npc_mkdir_keeps fid. cstep; [csteps|]. cstep.
  eapply clunk_quietly_left; [done..|]. intros s3 Hl. by cstep.
Qed.

Lemma npc_remove_rule b Ms D s f : holds b Ms D s -> f ∈ D ->
  cruns (npc_remove f) s (fun _ s' => holds b Ms (D ∖ {[f]}) s').
Proof. intros Hh Hf. unfold npc_remove. csteps. Qed.

Lemma npc_remove_bypath_rule b Ms D s f path : holds b Ms D s -> f ∈ D -> path_ok path ->
  cruns (npc_remove_bypath f path) s (fun ok s' => left_over b Ms D ok s').
Proof.
  intros Hh Hf Hp. apply cruns_bind. eapply cruns_mono; [by apply npc_walk_rule|]. clear Hh.
  intros [fid|] s1 Hm; [|by cstep]. destruct Hm as [Hfid Hh]. eapply cruns_mono; [apply npc_remove_rule; [done|set_solver]|].
  intros ok s' Hh'. cdone.
Qed.

Lemma npc_setxattr_rule b Ms D s fuel f path name val flags : zlength val < 2 ^ 31 -> holds b Ms D s -> f ∈ D -> path_ok path ->
  cruns (npc_setxattr fuel f path name val flags) s (fun ok s' => left_over b Ms D ok s').
Proof.
  intros Hd Hh Hf Hp. apply cruns_bind. eapply cruns_mono; [by apply npc_walk_rule|]. clear Hh.
  intros [fid|] s1 Hm; [|by cstep]. destruct Hm as [Hfid Hh]. cstep. ckeep npc_xattrcreate_keeps fid. cstep.
  pose proof (write_loop_keeps fuel fid val 0 ltac:(done) Hd) as Hk. cstep; [cstep; ckeep Hk fid|]; csteps.
Qed.

(** [npc_getxattr], and [npc_listxattr] with no name. *)
Lemma npc_xattrwalk_rule b Ms D s f a name : holds b Ms D s -> f ∈ D -> a ∈ D ->
  cruns (npc_xattrwalk f a name) s (fun _ s' => holds b Ms D s').
Proof. intros Hh Hf Ha. unfold npc_xattrwalk. creads. Qed.

(** The two clunks at the end: what is left are fids that could not be clunked. *)
Lemma clunk_both_rule {A} (r : A) b Ms D s f g : f ∉ D -> g ∉ {[f]} ∪ D -> holds b Ms ({[g]} ∪ ({[f]} ∪ D)) s ->
  cruns (do _ <- npc_clunk f; do _ <- npc_clunk g; cret r) s (fun _ s' => left_over b Ms D false s').
Proof.
  intros Hf Hg Hh. repeat cstep; (eexists; split; [|split; [eassumption|done]]); set_solver.
Qed.

Lemma npc_getxattr_rule b Ms D s fuel f path name size : holds b Ms D s -> f ∈ D -> path_ok path ->
  cruns (npc_getxattr fuel f path name size) s (fun _ s' => left_over b Ms D false s').
Proof.
  intros Hh Hf Hp. apply cruns_bind. eapply cruns_mono; [by apply npc_walk_rule|]. clear Hh.
  intros [fid|] s1 Hm; [|by cstep]. destruct Hm as [Hfid Hh]. cstep. cstep; [csteps|].
  cstep. eapply cruns_mono; [eapply (npc_xattrwalk_rule b Ms _ _ fid); [done|set_solver..]|]. clear Hh. intros r s2 Hh. cstep.
  eapply (cruns_mono _ _ (fun _ s' => holds b Ms ({[f0]} ∪ ({[fid]} ∪ D)) s')).
  - destruct r as [n|]; [|csteps]. do 3 (cstep; [csteps|]). cstep. ckeep attr_loop_keeps f0. destruct a. csteps.
  - intros r' s3 Hh'. by apply clunk_both_rule.
Qed.

(** ** Lines *)

Lemma buf_save_keeps f data : keeps (buf_save f data) f.
Proof. intros b Ms D s Hh Hf. unfold buf_save. csteps. Qed.

Lemma buf_restore_gives f n : 0 <= n -> gives (buf_restore f n) f (fun d => zlength d <= n).
Proof.
  intros Hn b Ms D s Hh Hf. unfold buf_restore. do 2 cstep. destruct (cf_buf x) as [buf|]; [|csteps]. cstep.
  pose proof (zlength_nonneg buf). set (k := if zlength buf <? n then zlength buf else n).
  assert (Hk : 0 <= k <= n /\ k <= zlength buf) by (unfold k; destruct (Z.ltb_spec (zlength buf) n); lia).
  eapply cruns_lift; [apply load_bytes_ok; lia|]. csteps.
  all: split; [unfold zlength; rewrite length_take; lia|done].
Qed.

Lemma gets_loop_keeps fuel f count data first : 0 < count < 2 ^ 31 -> zlength first < 2 ^ 31 ->
  keeps (gets_loop fuel f count data first) f.
Proof.
  intros Hc. revert data first. induction fuel as [|fuel IH]; intros data first Hfirst b Ms D s Hh Hf; cbn [gets_loop].
  - csteps.
  - destruct (Z.ltb_spec (zlength data) count) as [Hlt|]; cbn [negb]; [|csteps]. cstep.
    pose proof (zlength_nonneg data). pose proof (zlength_nonneg first).
    eapply (cruns_mono _ _ (fun o s' => match o with Some (d, false) => zlength data + zlength d < 2 ^ 31 | _ => True end /\
      holds b Ms D s')).
    + cstep.
      * cstep. cgive npc_read_gives f. destruct a as [d|]; [|csteps]. cstep. split; [|done].
        destruct (zlength d =? 0); [done|]. cbn in *. rewrite u32_small in * by lia. lia.
      * cstep. split; [|done]. apply orb_false_iff in Heqb0 as [H0'%Z.ltb_ge _]. lia.
    + clear Hh. intros [[d []]|] s1 [Hd Hh]; [csteps| |csteps]. cstep. pose proof (zlength_nonneg d).
      eapply cruns_lift; [apply int_sum_run; lia|]. destruct (strnchr d 10); [csteps|]. by apply IH.
Qed.

Lemma npc_gets_keeps fuel f count : 0 < count < 2 ^ 31 -> keeps (npc_gets fuel f count) f.
Proof.
  intros Hc b Ms D s Hh Hf. unfold npc_gets. cstep.
  pose proof (buf_restore_gives f (int32 (count - 1)) ltac:(rewrite int32_small; lia)) as Hr. cgive Hr f. cstep.
  rewrite int32_small in * by lia. pose proof (gets_loop_keeps fuel f count [] a Hc ltac:(lia)) as Hk. ckeep Hk f. destruct a0 as [[data [k|]]|]; [|csteps..]. cstep.
  eapply (cruns_mono _ _ (fun _ s' => holds b Ms D s')); [|intros; csteps]. cstep.
  cstep; [ckeep buf_save_keeps f|]; csteps.
Qed.

(** ** Directories *)

(** Memory does not run out. *)
Definition memory_enough : Prop := forall w, alloc w = (true, w).

Lemma npc_opendir_rule b Ms D s f path : memory_enough -> holds b Ms D s -> f ∈ D -> path_ok path ->
  cruns (npc_opendir f path) s (made b Ms D).
Proof.
  intros Hmem Hh Hf Hp. apply cruns_bind. eapply cruns_mono; [by apply npc_open_bypath_rule|]. clear Hh.
  intros [fid|] s1 Hm; [|by cstep]. destruct Hm as [Hfid Hh]. cstep. ckeep npc_fstat_keeps fid.
  destruct a as [sb|]; [|csteps]. cstep; [csteps|]. do 2 cstep. cstep.
  unfold cruns at 1, have_memory. rewrite (Hmem (cs_peer s')). cbn [negb].
  assert (Hh' : holds b Ms ({[fid]} ∪ D) (set_peer (cs_peer s') s')) by exact Hh. csteps.
Qed.

(** The next entry is in the buffer, and its name fits into a [struct dirent]. *)
Definition entry_ready (x : Npcfid) : Prop :=
  cf_buf x = None \/
  exists buf used len n e, cf_buf x = Some buf /\ cf_buf_used x = Some used /\ cf_buf_len x = Some len /\ used < len /\
    np_deserialize_p9dirent (PATH_MAX + 1) (drop (Z.to_nat used) buf) (len - used) = Ret (n, e) /\
    from_option (fun e => zlength (d_name e) < D_NAME_SIZE) True e.

Lemma npc_readdir_r_rule b Ms D s f : holds b Ms D s -> f ∈ D ->
  from_option entry_ready True (cs_fids s !! f) ->
  cruns (npc_readdir_r f) s (fun _ s' => holds b Ms D s').
Proof.
  intros Hh Hf Hr. unfold npc_readdir_r. do 2 cstep. match goal with Hx : cs_fids s !! f = Some x |- _ => rename Hx into Hfx end. rewrite Hfx in Hr.
  destruct Hr as [->|(buf & used & len & n & e & Eb & Eu & El & Hlt & Hd & Hn)]; [csteps|]. rewrite Eb, Eu, El.
  cstep. eapply cruns_lift; [done|]. cstep. eapply cruns_lift; [done|]. rewrite (proj2 (Z.ltb_lt _ _) Hlt). do 2 cstep.
  cstep. eapply load_cfid_rule; [exact Hfx|]. cstep. rewrite Eb, Eu, El. eapply cruns_lift; [done|]. cstep.
  eapply cruns_lift; [done|]. cstep. eapply cruns_lift; [done|]. cstep.
  eapply cruns_lift; [exact Hd|]. cbn beta iota. destruct e as [e|]; [|csteps]. cbn in Hn. cstep.
  rewrite (proj2 (Z.ltb_lt _ _) Hn). eapply cruns_lift; [done|]. csteps.
Qed.

Lemma npc_seekdir_keeps f o : keeps (npc_seekdir f o) f.
Proof. intros b Ms D s Hh Hf. unfold npc_seekdir. csteps. Qed.

Lemma npc_telldir_keeps f : keeps (npc_telldir f) f.
Proof. intros b Ms D s Hh Hf. unfold npc_telldir. csteps. Qed.

Lemma npc_rename_rule b Ms D s f d name : holds b Ms D s -> f ∈ D -> d ∈ D ->
  cruns (npc_rename f d name) s (fun _ s' => holds b Ms D s').
Proof. intros Hh Hf Hd. unfold npc_rename. csteps. Qed.

(** ** Mounting *)

Lemma npc_finish_rule Ms D s (Q : unit -> cstate -> Prop) : holds true Ms D s ->
  (forall s', holds false Ms D s' -> cs_err s' = cs_err s -> Q tt s') -> cruns npc_finish s Q.
Proof.
  intros [Hi Hd] HQ. eapply npc_decref_rule; [done|]. intros s' Hi' E2 He. apply HQ; [|done]. split; [done|congruence].
Qed.

Lemma allocs_rule n b Ms D s : holds b Ms D s -> cruns (allocs n) s (fun _ s' => holds b Ms D s').
Proof. revert s. induction n as [|n IH]; intros s Hh; cbn [allocs]; [csteps|]. do 2 cstep; [by apply IH|csteps]. Qed.

(** A connection that was just made. *)
Lemma npc_create_fsys_rule s msize flags : holds false ∅ ∅ s ->
  cruns (npc_create_fsys msize flags) s (fun ok s' => holds ok ∅ ∅ s').
Proof.
  intros Hh. unfold npc_create_fsys. do 2 cstep; cbn [negb]; [|csteps]. do 2 cstep. cstep.
  eapply cruns_mono; [by apply allocs_rule|]. clear Hh. intros [] s1 Hh; cbn [negb]; [|csteps].
  apply cruns_bind, cruns_modify, cruns_ret. destruct Hh as [(_ & HM & Hf & Hm) Hd].
  apply dom_empty_inv_L in Hd. split; [|cbn; by rewrite Hd]. split; cbn; [|done]. rewrite Hd.
  split_and!; cbn; try done; [by apply npc_create_pool_set|]. exists ∅.
  split; [by apply npc_create_pool_set|]. split; [|intros ????; rewrite lookup_empty; done].
  intros id. split; [set_solver|]. intros (? & ? & E & _). by rewrite lookup_empty in E.
Qed.

Lemma holds_msize Ms D s n fs : holds true Ms D s -> cs_fs s = Some fs ->
  holds true Ms D (set_fs (Some (set_fs_msize n fs)) s).
Proof. intros [(Hfs & HM & Hf & Hm) Hd] E. rewrite E in Hfs. split; [|done]. split; [exact Hfs|done]. Qed.

Lemma npc_start_rule s msize flags : holds false ∅ ∅ s ->
  cruns (npc_start msize flags) s (fun ok s' => holds ok ∅ ∅ s').
Proof.
  intros Hh. unfold npc_start. cstep. eapply cruns_mono; [by apply npc_create_fsys_rule|]. clear Hh. intros made s1 Hh. cstep.
  eapply (cruns_mono _ _ (fun _ s' => holds made ∅ ∅ s')).
  - destruct made; cbn [negb]; [|csteps]. cstep. eapply holds_request; [exact Hh|in_use|]. clear Hh.
    intros o s2 Hh Hr. destruct o as [m|]; [|csteps]. destruct Hr as [Ha Hl]. destruct m as [[]|]; try done. cbn in Ha.
    cstep. eapply cruns_lift; [reflexivity|]. cbn beta iota. cstep.
    eapply (cruns_mono _ _ (fun _ s' => holds true ∅ ∅ s')).
    { cstep; [|csteps]. do 2 cstep. apply cruns_modify. by apply holds_msize. }
    clear Hh. intros _ s3 Hh. cbv zeta. cstep. set (v := default [] version) in *.
    destruct (np_strcmp_run v {| len := zlength v; str := Some 0 |} version_L v) as (r & Er & _); [|done| |].
    + unfold npstr_bytes. cbn. rewrite load_bytes_ok by (pose proof (zlength_nonneg v); lia). unfold zlength. by rewrite drop_0, Nat2Z.id, firstn_all.
    + unfold no_nul. repeat constructor; done.
    + eapply cruns_lift; [exact Er|]. csteps.
  - clear Hh. intros _ s2 Hh. do 2 cstep. cstep; [|csteps]. apply andb_true_iff in Heqb as [_ ->]. cstep.
    eapply npc_finish_rule; [done|]. intros s3 Hh3 _. by cstep.
Qed.

(** What the caller's authentication function may do. *)
Definition auth_ok (auth : option (fid_ptr -> CM bool)) : Prop := forall a f, auth = Some a -> keeps (a f) f.

(** The result of [npc_auth] while the messages are still allocated: they do not
    matter for what was made. *)
Lemma made_free_two b Ms D s tc rc x y (o : option fid_ptr) : Ms !! tc = None -> Ms !! rc = None -> rc <> tc ->
  made b (<[rc := y]> (<[tc := x]> Ms)) D o s ->
  cruns (do _ <- free_msg tc; do _ <- free_opt (Some rc); cret o) s (made b Ms D).
Proof.
  intros Htc Hrc Hne Hm.
  assert (Hfree : forall D' s', holds b (<[rc := y]> (<[tc := x]> Ms)) D' s' -> forall Q,
            (forall s2, holds b Ms D' s2 -> Q o s2) -> cruns (do _ <- free_msg tc; do _ <- free_opt (Some rc); cret o) s' Q).
  { intros D' s' Hh Q HQ. cstep. eapply holds_free_msg; [done|by rewrite lookup_insert_ne, lookup_insert_eq|]. clear Hh.
    intros s2 Hh. rewrite delete_insert_ne, delete_insert_id in Hh by done. cstep. cbn [free_opt].
    eapply holds_free_one; [done..|]. intros s3 Hh3. by apply cruns_ret, HQ. }
  destruct o as [f|].
  - destruct Hm as [Hf Hh]. eapply Hfree; [done|]. intros s2 Hh2. by split.
  - destruct Hm as (D' & Hsub & Hh & _). eapply Hfree; [done|]. intros s2 Hh2. exists D'. done.
Qed.

Lemma npc_auth_rule b Ms D s aname uid auth : auth_ok auth -> holds b Ms D s -> in_use b D ->
  cruns (npc_auth aname uid auth) s (made b Ms D).
Proof.
  intros Ha Hh Hu. unfold npc_auth. cstep. cstep; [csteps|]. do 2 cstep. cstep. eapply holds_create; [done| |]; clear Hh.
  { intros s1 Hh. csteps. }
  intros tc s1 Htc Hh. cstep. eapply holds_rpc; [done..|in_use| |]; clear Hh.
  - intros t s2 Hh. do 3 cstep. do 2 cstep.
    eapply (cruns_mono _ _ (fun o s' => o = None /\ holds b (<[tc := (t, M (C_tauth (cf_fid x) None aname uid))]> Ms) D s')).
    { rewrite minus_added in Hh by done. csteps. }
    clear Hh. intros _ s3 [-> Hh]. cstep. eapply holds_free_one; [done..|]. clear Hh. intros s4 Hh. csteps.
  - intros rc t tr m s2 Hrc Hne Hh _. cstep.
    eapply (cruns_mono _ _ (made b (<[rc := (tr, m)]> (<[tc := (t, M (C_tauth (cf_fid x) None aname uid))]> Ms)) D)).
    2: { intros o s3 Hm. by eapply made_free_two. }
    set (Ms' := <[rc := _]> _) in *. cstep. eapply (cruns_mono _ _ (fun _ s' => holds b Ms' ({[f]} ∪ D) s')).
    + destruct auth as [a|]; [apply (Ha a f eq_refl b Ms' _ _ Hh); set_solver|by apply cruns_ret].
    + clear Hh. intros [] s3 Hh; [csteps|]. cstep. eapply clunk_quietly_left; [done..|]. intros s4 Hl. by cstep.
Qed.

Lemma npc_attach_rule b Ms D s afid aname uid : holds b Ms D s -> in_use b D -> from_option (.∈ D) True afid ->
  cruns (npc_attach afid aname uid) s (made b Ms D).
Proof.
  intros Hh Hu Ha. unfold npc_attach. cstep. cstep; [csteps|]. cstep.
  eapply (cruns_mono _ _ (fun _ s' => holds b Ms ({[f]} ∪ D) s')).
  - do 2 cstep. cstep. eapply (cruns_mono _ _ (fun _ s' => holds b Ms ({[f]} ∪ D) s')).
    { destruct afid as [a|]; [|csteps]. cbn in Ha. csteps. }
    clear Hh. intros a s1 Hh. cstep. eapply holds_request; [done|in_use|]. intros o s2 Hh2 _. by cstep.
  - clear Hh. intros _ s1 Hh. csteps.
Qed.

(** A mount: the root with the connection, or neither. *)
Definition mounted (o : option fid_ptr) s : Prop :=
  exists D, match o with Some f => f ∈ D /\ holds true ∅ D s | None => holds false ∅ D s end.

Lemma npc_mount_rule s euid msize aname auth : auth_ok auth -> holds false ∅ ∅ s ->
  cruns (npc_mount euid msize aname auth) s mounted.
Proof.
  intros Ha Hh. unfold npc_mount. cstep. eapply cruns_mono; [by apply npc_start_rule|]. clear Hh.
  intros [] s1 Hh; cbn [negb]; [|cstep; by exists ∅]. cstep.
  eapply cruns_mono; [apply (npc_auth_rule true ∅ ∅); [done|done|by left]|]. clear Hh.
  assert (Hend : forall D s', holds true ∅ D s' -> cruns (do _ <- npc_finish; cret None) s' mounted).
  { intros D s' Hh. cstep. eapply npc_finish_rule; [done|]. intros s2 Hh2 _. cstep. by exists D. }
  assert (Hattach : forall D afid s', holds true ∅ D s' -> from_option (.∈ D) True afid ->
    cruns (do fid <- npc_attach afid aname euid;
           match fid with
           | None =>
               do e <- crerror;
               do _ <- match afid with Some a => do _ <- npc_clunk a; cret tt | None => cret tt end;
               do _ <- npc_finish;
               do _ <- cuerror e;
               cret None
           | Some fid => do _ <- match afid with Some a => do _ <- npc_clunk a; cret tt | None => cret tt end; cret (Some fid)
           end) s' mounted).
  { intros D afid s' Hh Hin. cstep. eapply cruns_mono; [apply (npc_attach_rule true ∅ D); [done|by left|done]|]. clear Hh.
    assert (Hclunk : forall D' s2, D ⊆ D' -> holds true ∅ D' s2 ->
      cruns match afid with Some a => do _ <- npc_clunk a; cret tt | None => cret tt end s2
        (fun _ s3 => exists D3, (forall g, g ∈ D' -> afid <> Some g -> g ∈ D3) /\ holds true ∅ D3 s3)).
    { intros D' s2 Hsub Hh. destruct afid as [a|]; cbn [from_option] in *; repeat cstep.
      all: eexists; split; [|exact Hh]; set_solver. }
    intros [f|] s2 Hm.
    - destruct Hm as [Hf Hh]. cstep. eapply cruns_mono; [eapply Hclunk; [|done]; set_solver|].
      intros _ s3 (D3 & Hsub & Hh3). cstep. exists D3. split; [|done]. apply Hsub; [set_solver|]. intros ->. done.
    - destruct Hm as (D' & Hsub & Hh & _). do 3 cstep. eapply cruns_mono; [by eapply Hclunk|].
      intros _ s3 (D3 & _ & Hh3). cstep. eapply npc_finish_rule; [done|]. intros s4 Hh4 _. csteps. by exists D3. }
  intros [a|] s2 Hm.
  - destruct Hm as [_ Hh]. do 2 cstep. cbn. eapply Hattach; [done|]. cbn. set_solver.
  - destruct Hm as (D' & _ & Hh & _). do 2 cstep. cstep; [by eapply Hend|]. by eapply Hattach.
Qed.

Lemma npc_umount_rule Ms D s f : holds true Ms D s -> f ∈ D ->
  cruns (npc_umount f) s (fun _ s' => exists D', D ∖ {[f]} ⊆ D' /\ holds false Ms D' s').
Proof.
  intros Hh Hf. unfold npc_umount. do 2 cstep; (eapply npc_finish_rule; [done|]); intros s2 Hh2 _.
  all: eexists; split; [|exact Hh2]; set_solver.
Qed.
End Rules.
