(* ===== verification/ClientSpec.v ===== *)
(** * What the client library promises (libnpclient)

    Sequences of calls of the library against any server that answers requests with
    replies of their types: no call uses a message or a fid that was freed, and
    between calls identifiers, tags and messages are accounted for. *)
From S2P Require Import Prelude Cbuf Protocol Npstring Wire Fcall Hash Ioctx Ops Client ClientOps ClientPool ClientInv.
From S2P Require Import ClientRules.
From stdpp Require Import list gmap.
#[local] Open Scope Z_scope.

Section Spec.
Context `{Polite}.
Implicit Types (s : cstate) (f root : fid_ptr) (path : option cstr).

(** The calls of npclient.h. *)
Inductive call :=
| Mount (euid msize : Z) (aname : option cstr) (auth : option (fid_ptr -> CM bool))
| Umount (f : fid_ptr)
| Clunk (f : fid_ptr)
| Walk (f : fid_ptr) (path : option cstr)
| Open (f : fid_ptr) (flags : Z)
| Open_bypath (root : fid_ptr) (path : option cstr) (flags : Z)
| Create (f : fid_ptr) (name : cstr) (flags mode gid : Z)
| Create_bypath (root : fid_ptr) (path : cstr) (flags mode gid : Z)
| Lseek (f : fid_ptr) (offset : Z) (whence : seek)
| Pread (f : fid_ptr) (count offset : Z)
| Read (f : fid_ptr) (count : Z)
| Get (root : fid_ptr) (path : option cstr) (count : Z)
| Aget (root : fid_ptr) (path : option cstr)
| Gets (f : fid_ptr) (count : Z)
| Pwrite (f : fid_ptr) (data : list Z) (offset : Z)
| Write (f : fid_ptr) (data : list Z)
| Put (root : fid_ptr) (path : option cstr) (data : list Z)
| Puts (f : fid_ptr) (s : cstr)
| Getattr (f : fid_ptr) (mask : Z)
| Fstat (f : fid_ptr)
| Stat (root : fid_ptr) (path : option cstr)
| Setattr (f : fid_ptr) (valid mode uid gid size : Z) (atime mtime : Z * Z)
| Chmod (root : fid_ptr) (path : option cstr) (mode : Z)
| Chown (root : fid_ptr) (path : option cstr) (owner group : Z)
| Truncate (root : fid_ptr) (path : option cstr) (length : Z)
| Utime (root : fid_ptr) (path : option cstr) (times : option (Z * Z))
| Readdir (f : fid_ptr) (offset count : Z)
| Opendir (root : fid_ptr) (path : option cstr)
| Readdir_r (f : fid_ptr)
| Seekdir (f : fid_ptr) (offset : Z)
| Telldir (f : fid_ptr)
| Getxattr (root : fid_ptr) (path name : option cstr) (size : Z)
| Listxattr (root : fid_ptr) (path : option cstr) (size : Z)
| Setxattr (root : fid_ptr) (path name : option cstr) (val : list Z) (flags : Z)
| Lock (f : fid_ptr) (flags : Z) (info : Npclockinfo)
| Getlock (f : fid_ptr) (info : Npclockinfo)
| Mkdir (egid : Z) (f : fid_ptr) (name : cstr) (mode : Z)
| Mkdir_bypath (egid : Z) (root : fid_ptr) (path : cstr) (mode : Z)
| Remove (f : fid_ptr)
| Remove_bypath (root : fid_ptr) (path : option cstr)
| Rename (f dfid : fid_ptr) (name : cstr).

Definition ran {A} (c : CM (option A)) : CM bool := do o <- c; cret (succeeded o).
Definition done_ {A} (c : CM A) : CM bool := do _ <- c; cret true.
Definition counted {A} (c : CM (Z * A)) : CM bool := do r <- c; cret (0 <=? r.1).

(** The call: did it succeed? *)
Definition perform (fuel : nat) (c : call) : CM bool :=
  match c with
  | Mount euid msize aname auth => ran (npc_mount euid msize aname auth)
  | Umount f => done_ (npc_umount f)
  | Clunk f => npc_clunk f
  | Walk f path => ran (npc_walk f path)
  | Open f flags => npc_open f flags
  | Open_bypath root path flags => ran (npc_open_bypath root path flags)
  | Create f name flags mode gid => npc_create f name flags mode gid
  | Create_bypath root path flags mode gid => ran (npc_create_bypath root path flags mode gid)
  | Lseek f offset whence => done_ (npc_lseek f offset whence)
  | Pread f count offset => ran (npc_pread f count offset)
  | Read f count => ran (npc_read f count)
  | Get root path count => ran (npc_get fuel root path count)
  | Aget root path => ran (npc_aget fuel root path)
  | Gets f count => ran (npc_gets fuel f count)
  | Pwrite f data offset => ran (npc_pwrite f data offset)
  | Write f data => ran (npc_write f data)
  | Put root path data => ran (npc_put fuel root path data)
  | Puts f s => ran (npc_puts fuel f s)
  | Getattr f mask => ran (npc_getattr f mask)
  | Fstat f => ran (npc_fstat f)
  | Stat root path => ran (npc_stat root path)
  | Setattr f valid mode uid gid size atime mtime => ran (npc_setattr f valid mode uid gid size atime mtime)
  | Chmod root path mode => ran (npc_chmod root path mode)
  | Chown root path owner group => ran (npc_chown root path owner group)
  | Truncate root path length => ran (npc_truncate root path length)
  | Utime root path times => ran (npc_utime root path times)
  | Readdir f offset count => ran (npc_readdir f offset count)
  | Opendir root path => ran (npc_opendir root path)
  | Readdir_r f => done_ (npc_readdir_r f)
  | Seekdir f offset => done_ (npc_seekdir f offset)
  | Telldir f => done_ (npc_telldir f)
  | Getxattr root path name size => counted (npc_getxattr fuel root path name size)
  | Listxattr root path size => counted (npc_listxattr fuel root path size)
  | Setxattr root path name val flags => npc_setxattr fuel root path name val flags
  | Lock f flags info => ran (npc_lock f flags info)
  | Getlock f info => ran (npc_getlock f info)
  | Mkdir egid f name mode => npc_mkdir egid f name mode
  | Mkdir_bypath egid root path mode => npc_mkdir_bypath egid root path mode
  | Remove f => npc_remove f
  | Remove_bypath root path => npc_remove_bypath root path
  | Rename f dfid name => npc_rename f dfid name
  end.

(** The reference that [npc_start] made is still there. *)
Definition started s : Prop :=
  exists fs, cs_fs s = Some fs /\ fs_refcount fs = 1 + Z.of_nat (size (cs_fids s)).

Definition alive s f : Prop := f ∈ dom (cs_fids s).

(** What a caller has to ensure: fids that were not given back; paths of at most 16
    components; a line buffer that is not empty; a directory whose next entry is
    there and fits; memory for [npc_opendir]; counts and data that fit an [int].
    [npc_aget] must not take so many rounds ([fuel]) that its buffer, which grows by
    at most 4096 bytes in each, does not fit one. *)
Definition requires (fuel : nat) s (c : call) : Prop :=
  match c with
  | Mount _ _ _ auth => cs_fs s = None /\ auth_ok auth
  | Umount f => started s /\ alive s f
  | Walk f p | Open_bypath f p _ | Stat f p | Chmod f p _ | Chown f p _ _
  | Truncate f p _ | Utime f p _ | Getxattr f p _ _ | Listxattr f p _ | Remove_bypath f p => alive s f /\ path_ok p
  | Get f p count => alive s f /\ path_ok p /\ count < 2 ^ 31
  | Aget f p => alive s f /\ path_ok p /\ AGET_CHUNK * Z.of_nat fuel < 2 ^ 31
  | Put f p data | Setxattr f p _ data _ => alive s f /\ path_ok p /\ zlength data < 2 ^ 31
  | Opendir f p => memory_enough /\ alive s f /\ path_ok p
  | Create_bypath f p _ _ _ | Mkdir_bypath _ f p _ => alive s f /\ one_walk (dirname p)
  | Gets f count => alive s f /\ 0 < count < 2 ^ 31
  | Readdir_r f => alive s f /\ from_option entry_ready True (cs_fids s !! f)
  | Rename f d _ => alive s f /\ alive s d
  | Clunk f | Open f _ | Create f _ _ _ _ | Lseek f _ _ | Pread f _ _ | Read f _ | Pwrite f _ _ | Write f _
  | Puts f _ | Getattr f _ | Fstat f | Setattr f _ _ _ _ _ _ _ | Readdir f _ _ | Seekdir f _ | Telldir f | Lock f _ _
  | Getlock f _ | Mkdir _ f _ _ | Remove f => alive s f
  end.

(** The calls that walk to a file, do something with it and give it back. *)
Definition by_path (c : call) : bool :=
  match c with
  | Get _ _ _ | Aget _ _ | Put _ _ _ | Stat _ _ | Chmod _ _ _ | Chown _ _ _ _ | Truncate _ _ _ | Utime _ _ _
  | Setxattr _ _ _ _ _ | Mkdir_bypath _ _ _ _ | Remove_bypath _ _ => true
  | _ => false
  end.

Definition good s : Prop := exists b, holds b ∅ (dom (cs_fids s)) s.

(** ** Rules for the shapes of results *)

(** What a call leaves: the invariant, and the same fids if it went by path and
    succeeded. *)
Definition outcome s (c : call) (ok : bool) s' : Prop :=
  good s' /\ (by_path c = true -> ok = true -> dom (cs_fids s') = dom (cs_fids s)).

Lemma good_holds b D s : holds b ∅ D s -> good s.
Proof. intros Hh. exists b. destruct Hh as [Hi <-]. done. Qed.

Lemma outcome_same s c b ok s' : holds b ∅ (dom (cs_fids s)) s' -> outcome s c ok s'.
Proof. intros Hh. split; [by eapply good_holds|]. intros _ _. apply Hh. Qed.

Lemma outcome_left s c b ok s' : left_over b ∅ (dom (cs_fids s)) ok s' -> outcome s c ok s'.
Proof. intros (D' & _ & Hh & Heq). split; [by eapply good_holds|]. intros _ Hok. rewrite <- (Heq Hok). apply Hh. Qed.

Lemma outcome_other s c b D ok s' : by_path c = false -> holds b ∅ D s' -> outcome s c ok s'.
Proof. intros Hc Hh. split; [by eapply good_holds|]. congruence. Qed.

Lemma outcome_made s c b o ok s' : by_path c = false -> made b ∅ (dom (cs_fids s)) o s' -> outcome s c ok s'.
Proof.
  intros Hc Hm. destruct o as [f|]; [destruct Hm as [_ Hh]|destruct Hm as (D' & _ & Hh & _)]; by eapply outcome_other.
Qed.

Lemma ran_rule {A} (op : CM (option A)) s Q : cruns op s (fun o s' => Q (succeeded o) s') -> cruns (ran op) s Q.
Proof. intros Hr. apply cruns_bind. eapply cruns_mono; [done|]. intros o s' HQ. by apply cruns_ret. Qed.

Lemma done_rule {A} (op : CM A) s Q : cruns op s (fun _ s' => Q true s') -> cruns (done_ op) s Q.
Proof. intros Hr. apply cruns_bind. eapply cruns_mono; [done|]. intros o s' HQ. by apply cruns_ret. Qed.

Lemma counted_rule {A} (op : CM (Z * A)) s Q : cruns op s (fun r s' => Q (0 <=? r.1) s') -> cruns (counted op) s Q.
Proof. intros Hr. apply cruns_bind. eapply cruns_mono; [done|]. intros o s' HQ. by apply cruns_ret. Qed.

Lemma started_ref b D s : holds b ∅ D s -> started s -> b = true.
Proof.
  intros [(Hfs & _) _] (fs & Ef & Hr). rewrite Ef in Hfs. destruct Hfs as (Hr' & _). destruct b; [done|]. cbn in Hr'. lia.
Qed.

Lemma closed_holds s : good s -> cs_fs s = None -> holds false ∅ ∅ s.
Proof.
  intros [b Hh] Ef. pose proof Hh as [(Hfs & _) _]. rewrite Ef in Hfs. destruct Hfs as [-> E]. rewrite E in Hh.
  by rewrite dom_empty_L in Hh.
Qed.

(** A call that keeps the fids, one that works by path, and one that makes a fid. *)
Ltac shape := first [apply ran_rule | apply done_rule | apply counted_rule | idtac].
Ltac by_keeps R := shape; eapply cruns_mono; [eapply R; first [eassumption | lia]|]; intros ? ? Hk; eapply outcome_same; exact Hk.
Ltac by_left R := shape; eapply cruns_mono; [eapply R; eassumption|]; intros ? ? Hk; eapply outcome_left; exact Hk.
Ltac by_at R := shape; eapply cruns_mono; [eapply at_path_rule; first [eassumption | intros; apply R]|]; intros ? ? Hk; eapply outcome_left; exact Hk.
Ltac by_made R := shape; eapply cruns_mono; [eapply R; eassumption|]; intros ? ? Hk; eapply outcome_made; [done|exact Hk].

Ltac by_made' R := shape; eapply cruns_mono; [eapply R; eassumption|]; intros ? ? Hk; eapply (outcome_made _ _ _ None); [done|exact Hk].

Lemma perform_outcome fuel s c : good s -> requires fuel s c -> cruns (perform fuel c) s (outcome s c).
Proof.
  intros Hg Hr. pose proof Hg as [b Hh]. destruct c; cbn [perform requires] in *; unfold alive in *; destruct_and?.
  - apply ran_rule. eapply cruns_mono; [apply npc_mount_rule; [done|by apply closed_holds]|].
    intros o s' (D & Hm). destruct o; [destruct Hm as [_ Hm]|]; by eapply outcome_other.
  - apply done_rule. match goal with Hs : started s |- _ => pose proof (started_ref _ _ _ Hh Hs) as -> end.
    eapply cruns_mono; [by eapply npc_umount_rule|]. intros _ s' (D' & _ & Hh'). by eapply outcome_other.
  - eapply holds_clunk; [done..| |]; intros s' Hh'; by eapply outcome_other.
  - by_made npc_walk_rule.
  - by_keeps npc_open_keeps.
  - by_made npc_open_bypath_rule.
  - by_keeps npc_create_keeps.
  - by_made npc_create_bypath_rule.
  - by_keeps npc_lseek_keeps.
  - by_keeps npc_pread_keeps.
  - by_keeps npc_read_keeps.
  - by_left npc_get_rule.
  - by_left npc_aget_rule.
  - by_keeps npc_gets_keeps.
  - by_keeps npc_pwrite_keeps.
  - by_keeps npc_write_keeps.
  - by_left npc_put_rule.
  - by_keeps npc_puts_keeps.
  - by_keeps npc_getattr_keeps.
  - by_keeps npc_fstat_keeps.
  - by_at npc_fstat_keeps.
  - by_keeps npc_setattr_keeps.
  - by_at npc_setattr_keeps.
  - by_at npc_setattr_keeps.
  - by_at npc_setattr_keeps.
  - by_at npc_futime_keeps.
  - by_keeps npc_readdir_keeps.
  - by_made npc_opendir_rule.
  - by_keeps npc_readdir_r_rule.
  - by_keeps npc_seekdir_keeps.
  - by_keeps npc_telldir_keeps.
  - by_made' npc_getxattr_rule.
  - by_made' npc_getxattr_rule.
  - by_left npc_setxattr_rule.
  - by_keeps npc_lock_keeps.
  - by_keeps npc_getlock_keeps.
  - by_keeps npc_mkdir_keeps.
  - by_left npc_mkdir_bypath_rule.
  - eapply cruns_mono; [by eapply npc_remove_rule|]. intros ? ? Hk. eapply outcome_other; [done|exact Hk].
  - by_left npc_remove_bypath_rule.
  - by_keeps npc_rename_rule.
Qed.

(** ** Sequences of calls *)

(** The states after calls that were made as required, from one in which nothing is
    allocated. *)
Inductive reached : cstate -> Prop :=
| reached_start s : cs_fs s = None -> cs_fids s = ∅ -> cs_msgs s = ∅ -> reached s
| reached_call s fuel c ok s' : reached s -> requires fuel s c -> perform fuel c s = Ret (Some (ok, s')) -> reached s'.

Lemma start_good s : cs_fs s = None -> cs_fids s = ∅ -> cs_msgs s = ∅ -> good s.
Proof.
  intros Ef E2 E3. exists false. split; [|done]. unfold cinv. rewrite Ef, E2, E3. split_and!; try done; apply map_Forall_empty.
Qed.

Lemma reached_good s : reached s -> good s.
Proof.
  induction 1 as [s|s fuel c ok s' _ IH Hreq Hp]; [by apply start_good|].
  pose proof (perform_outcome fuel s c IH Hreq) as Ho. unfold cruns in Ho. rewrite Hp in Ho. apply Ho.
Qed.


(** C12: Between calls that met [requires] everything is accounted for.  No message is left allocated; no
    tag is in use; the fid identifiers in use are exactly those of the fids that
    are allocated, which are all different; the connection counts its fids, and is
    freed when the last is. *)
Theorem client_accounts s : reached s ->
  cs_msgs s = ∅ /\
  match cs_fs s with
  | None => cs_fids s = ∅
  | Some fs =>
      (forall tag, 0 <= tag -> used (fs_tagpool fs) tag = false) /\
      (forall id, 0 <= id -> used (fs_fidpool fs) id = true <-> exists f x, cs_fids s !! f = Some x /\ cf_fid x = id) /\
      (forall f g x y, cs_fids s !! f = Some x -> cs_fids s !! g = Some y -> cf_fid x = cf_fid y -> f = g) /\
      Z.of_nat (size (cs_fids s)) <= fs_refcount fs <= 1 + Z.of_nat (size (cs_fids s)) /\ 0 < fs_refcount fs
  end.
Proof.
  intros Hs. destruct (reached_good s Hs) as [b [(Hfs & HM & _) _]]. split; [done|].
  destruct (cs_fs s) as [fs|]; [|apply Hfs]. destruct Hfs as (Hr & Hp & [_ Ht] & _ & _ & X & [_ HX] & Hids & Hinj). split_and!.
  - intros tag Htag. destruct (used _ tag) eqn:E; [|done]. destruct (not_elem_of_empty (C := gset Z) tag). by apply Ht.
  - intros id Hid. rewrite <- Hids, HX. naive_solver.
  - done.
  - destruct b; cbn in Hr; lia.
  - destruct b; cbn in Hr; lia.
  - done.
Qed.

(** A call that goes by path and succeeds leaves the fids that were there: the
    one it walked to was given back. *)
Theorem by_path_gives_back fuel s c s' : reached s -> requires fuel s c -> by_path c = true ->
  perform fuel c s = Ret (Some (true, s')) -> dom (cs_fids s') = dom (cs_fids s).
Proof.
  intros Hs Hr Hc Hp. pose proof (perform_outcome fuel s c (reached_good s Hs) Hr) as Ho. unfold cruns in Ho.
  rewrite Hp in Ho. by apply Ho.
Qed.
End Spec.
