(* ===== verification/ClientRun.v ===== *)
(** * Runs of the client that succeed (libnpclient)

    What a request does when memory is there and the server answers, and how a path
    is cut into requests. *)
From S2P Require Import Prelude Cbuf Protocol Npstring Wire Fcall Hash Ioctx Ops ConfSpec Client ClientOps ClientPool.
From S2P Require Import ClientInv ClientRules.
From stdpp Require Import list gmap.
#[local] Open Scope Z_scope.

(** ** Paths *)

(** The components of a path. *)
Definition components (path : cstr) : list cstr := items 47 path.

Lemma component_split s : match component s with
  | (w, None) => split_on 47 s = [w]
  | (w, Some r) => split_on 47 s = w :: split_on 47 r /\ (length r < length s)%nat
  end.
Proof.
  induction s as [|c s IH]; [done|]. cbn [component split_on]. rewrite (Z.eqb_sym 47 c).
  destruct (c =? 47); [split; [done|cbn; lia]|].
  destruct (component s) as [w [r|]]; [destruct IH as [-> ?]; split; [done|cbn; lia]|]. by rewrite IH.
Qed.

Lemma component_items c s : c <> 47 -> match component (c :: s) with
  | (w, None) => components (c :: s) = [w]
  | (w, Some r) => components (c :: s) = w :: components r /\ (length r < length (c :: s))%nat
  end.
Proof.
  intros Hc. pose proof (component_split (c :: s)) as Hs. unfold components, items.
  cbn [component] in *. rewrite (proj2 (Z.eqb_neq _ _) Hc) in *.
  destruct (component s) as [w [r|]]; [destruct Hs as [-> ?]; done|]. by rewrite Hs.
Qed.

Lemma skip_slashes_items s : components (skip_slashes s) = components s.
Proof.
  induction s as [|c s IH]; [done|]. cbn [skip_slashes]. destruct (Z.eqb_spec c 47) as [->|]; [|done]. rewrite IH. done.
Qed.

Lemma skip_slashes_head s c s' : skip_slashes s = c :: s' -> c <> 47 /\ (length (c :: s') <= length s)%nat.
Proof.
  induction s as [|d s IH]; [done|]. cbn. destruct (Z.eqb_spec d 47) as [->|]; [|by intros [= -> ->]].
  intros E. destruct (IH E). cbn in *. split; [done|lia].
Qed.

(** One round takes at most [n] components; when there is more, the rest is shorter. *)
Lemma split_names_items n s t ws r t' : split_names n s t = (ws, r, t') ->
  (length ws <= n)%nat /\ (t' = true -> components s = ws ++ components r) /\
  (n <> O -> t' = false -> components s = ws) /\ (n <> O -> r <> [] -> t' = true -> (length r < length s)%nat).
Proof.
  revert s t ws r. induction n as [|n IH]; intros s t ws r; cbn [split_names].
  { intros [= <- <- <-]. split_and!; cbn; naive_solver lia. }
  pose proof (skip_slashes_items s) as Hi. destruct (skip_slashes s) as [|c s'] eqn:Es.
  { intros [= <- <- <-]. rewrite <- Hi. split_and!; naive_solver lia. }
  apply skip_slashes_head in Es as [Hc Hl]. pose proof (component_items c s' Hc) as Hcomp. rewrite Hi in Hcomp.
  destruct (component (c :: s')) as [w [u|]].
  2: { intros [= <- <- <-]. split_and!; cbn; naive_solver lia. }
  destruct (split_names n u true) as [[ws2 s2] t2] eqn:E. intros [= <- <- <-]. destruct (IH _ _ _ _ E) as (H1 & H2 & H3 & H4).
  destruct Hcomp as [Hcomp Hu]. rewrite Hcomp. split_and!; cbn.
  - lia.
  - intros Ht. by rewrite H2.
  - intros _ Ht. destruct n; [cbn in E; congruence|]. by rewrite H3.
  - intros _ Hr Ht. destruct n; [cbn in E; injection E as _ <- _; lia|]. specialize (H4 ltac:(lia) Hr Ht). lia.
Qed.

(** ** One request *)

Section Run.
Context `{Peer} (Hmem : memory_enough).
Implicit Types (s : cstate) (fs : Npcfsys) (w : peer).

Lemma set_peer_same s : set_peer (cs_peer s) s = s.
Proof. by destruct s. Qed.

Lemma have_memory_run s : have_memory s = Ret (Some (true, s)).
Proof. unfold have_memory. by rewrite Hmem, set_peer_same. Qed.

Lemma cbind_run {A B} (c : CM A) (k : A -> CM B) s a s' : c s = Ret (Some (a, s')) -> cbind c k s = k a s'.
Proof. intros E. unfold cbind. by rewrite E. Qed.

Lemma load_fs_run s fs : cs_fs s = Some fs -> load_fs s = Ret (Some (fs, s)).
Proof. intros E. unfold load_fs, cbind, cget, clift. cbn. by rewrite E. Qed.

Lemma load_cfid_run s f x : cs_fids s !! f = Some x -> load_cfid f s = Ret (Some (x, s)).
Proof. intros E. unfold load_cfid, cbind, cget, clift. cbn. by rewrite E. Qed.

Lemma load_msg_run s p x : cs_msgs s !! p = Some x -> load_msg p s = Ret (Some (x, s)).
Proof. intros E. unfold load_msg, cbind, cget, clift. cbn. by rewrite E. Qed.

Lemma free_msg_run s p : is_Some (cs_msgs s !! p) -> free_msg p s = Ret (Some (tt, set_msgs (delete p (cs_msgs s)) s)).
Proof. intros [x E]. unfold free_msg. by rewrite (cbind_run _ _ _ _ _ (load_msg_run _ _ _ E)). Qed.

(** A pool in which an identifier is free gives one. *)
Lemma get_id_run pool set s fs X id0 : cs_fs s = Some fs -> pool_set (pool fs) X -> 0 <= id0 < maxid (pool fs) -> id0 ∉ X ->
  exists id p', get_id pool set s = Ret (Some (id, set_fs (Some (set p' fs)) s)) /\ is_least X id /\
    pool_set p' ({[id]} ∪ X) /\ maxid p' = maxid (pool fs).
Proof.
  intros Ef HX Hid Hn. unfold get_id. rewrite (cbind_run _ _ _ _ _ (load_fs_run _ _ Ef)).
  pose proof (npc_get_id_spec true _ _ HX) as Hs.
  destruct (npc_get_id true (pool fs)) as [[id p']|] eqn:Eg.
  - exists id, p'. destruct Hs as (? & _ & ? & ?). split; [|done]. cbv zeta.
    destruct (full (pool fs) && can_grow (pool fs)).
    + rewrite (cbind_run _ _ _ _ _ (have_memory_run s)), Eg. done.
    + change (cbind (cret true) ?k s) with (k true s). cbv beta. rewrite Eg. done.
  - destruct Hs as [Hall [?|Hb]]; [done|]. destruct Hn. apply Hall. lia.
Qed.

Lemma put_id_run pool set s fs X id : cs_fs s = Some fs -> pool_set (pool fs) X -> id ∈ X ->
  exists p', put_id pool set id s = Ret (Some (tt, set_fs (Some (set p' fs)) s)) /\ pool_set p' (X ∖ {[id]}) /\
    maxid p' = maxid (pool fs).
Proof.
  intros Ef HX Hin. destruct (npc_put_id_spec _ _ _ HX Hin) as (p' & Hp & HX' & Hm). exists p'. split; [|done].
  unfold put_id. rewrite (cbind_run _ _ _ _ _ (load_fs_run _ _ Ef)). unfold cbind, clift. rewrite Hp. done.
Qed.

(** The request is answered by [m]: the messages as they are then. *)
Lemma npc_rpc_run s fs tc t c m w : cs_fs s = Some fs -> pool_set (fs_tagpool fs) ∅ -> is_tversion c = false ->
  cs_msgs s !! tc = Some (t, M c) -> exchange (cs_peer s) 0 c = (A_msg 0 m, w) -> is_rlerror m = false ->
  exists p', pool_set p' ∅ /\ maxid p' = maxid (fs_tagpool fs) /\
    npc_rpc tc s = Ret (Some (Some (cs_next s),
      {| cs_fs := Some (set_tagpool p' fs); cs_fids := cs_fids s;
         cs_msgs := <[cs_next s := (0, m)]> (<[tc := (0, M c)]> (cs_msgs s)); cs_next := Pos.succ (cs_next s);
         cs_err := cs_err s; cs_peer := w; cs_sent := cs_sent s ++ [(0, c)] |})).
Proof.
  intros Ef Ht Hc Htc Hx Hm. unfold npc_rpc. rewrite (cbind_run _ _ _ _ _ (load_msg_run _ _ _ Htc)).
  change (cbind (clift (Ret c)) ?k s) with (k c s). cbv beta. rewrite Hc.
  destruct (get_id_run fs_tagpool set_tagpool s fs ∅ 0 Ef Ht) as (id & p1 & Eg & (Hid & _ & Hleast) & Hp1 & Hm1);
    [destruct Ht as [(_ & ? & _) _]; lia|set_solver|].
  assert (id = 0) as -> by (destruct (decide (id = 0)); [done|specialize (Hleast 0); set_solver by lia]).
  rewrite (cbind_run _ _ _ _ _ Eg). change (u16 0) with 0. cbv zeta.
  assert (Htr : transact 0 c (set_msgs (<[tc := (0, M c)]> (cs_msgs s)) (set_fs (Some (set_tagpool p1 fs)) s))
    = Ret (Some (Some (cs_next s),
      {| cs_fs := Some (set_tagpool p1 fs); cs_fids := cs_fids s;
         cs_msgs := <[cs_next s := (0, m)]> (<[tc := (0, M c)]> (cs_msgs s)); cs_next := Pos.succ (cs_next s);
         cs_err := cs_err s; cs_peer := w; cs_sent := cs_sent s ++ [(0, c)] |}))).
  { unfold transact, cbind, cget. cbn. rewrite Hx. cbn. destruct m as [[]|]; done. }
  change (cbind (cmodify ?f) ?k ?s1) with (k tt (f s1)). cbv beta. cbn [cs_msgs set_fs].
  rewrite (cbind_run _ _ _ _ _ Htr).
  match type of Htr with _ = Ret (Some (_, ?st)) =>
    destruct (put_id_run fs_tagpool set_tagpool st (set_tagpool p1 fs) ({[0]} ∪ ∅) 0 eq_refl Hp1) as (p2 & Ep & Hp2 & Hm2)
  end; [set_solver|].
  exists p2. split; [by replace (({[0]} ∪ ∅) ∖ {[0]}) with (∅ : gset Z) in Hp2 by set_solver|].
  split; [cbn in Hm2; congruence|]. change (negb (0 =? NOTAG)) with true. cbv iota. rewrite (cbind_run _ _ _ _ _ Ep). done.
Qed.

(** Between calls; [b] says if [npc_start] still holds its reference. *)
Definition ready (b : bool) s : Prop := cinv b ∅ ∅ s /\ connected s.

(** What a call that succeeded did: the fids are now [F] and the server is [w],
    these requests were sent, and the limits of the connection are the same. *)
Definition went (b : bool) s (F : gmap fid_ptr Npcfid) w (cs : list np_call) s' : Prop :=
  ready b s' /\ cs_fids s' = F /\ cs_peer s' = w /\ cs_err s' = cs_err s /\
  cs_sent s' = cs_sent s ++ ((fun c => (0, c)) <$> cs) /\
  fs_msize <$> cs_fs s' = fs_msize <$> cs_fs s /\ fs_flags <$> cs_fs s' = fs_flags <$> cs_fs s.

Lemma went_refl b s : ready b s -> went b s (cs_fids s) (cs_peer s) [] s.
Proof. intros Hr. split_and!; try apply Hr; try done. by rewrite app_nil_r. Qed.

Lemma went_trans b s F w cs s1 F2 w2 cs2 s2 : went b s F w cs s1 -> went b s1 F2 w2 cs2 s2 -> went b s F2 w2 (cs ++ cs2) s2.
Proof.
  intros (_ & _ & _ & E1 & E2 & E3 & E4) (? & ? & ? & G1 & G2 & G3 & G4). split_and!; try done; try congruence.
  rewrite G2, E2, fmap_app, app_assoc. done.
Qed.

(** A request and its reply, as [npc_walk] does it. *)
Lemma create_rpc_run b s c m w : ready b s -> exchange (cs_peer s) 0 c = (A_msg 0 m, w) ->
  is_tversion c = false -> is_rlerror m = false ->
  exists tc rc s1 s2 s3, create c s = Ret (Some (Some tc, s1)) /\ npc_rpc tc s1 = Ret (Some (Some rc, s2)) /\
    load_msg rc s2 = Ret (Some ((0, m), s2)) /\ cbind (free_msg tc) (fun _ => free_msg rc) s2 = Ret (Some (tt, s3)) /\
    went b s (cs_fids s) w [c] s3.
Proof.
  intros [(Hfs & HM & Hf & _) [fs Ef]] Hx Hc Hm. rewrite Ef in Hfs. exists (cs_next s), (Pos.succ (cs_next s)).
  set (s1 := set_msgs (<[cs_next s := (NOTAG, M c)]> (cs_msgs s)) (set_cnext (Pos.succ (cs_next s)) s)).
  destruct (npc_rpc_run s1 fs (cs_next s) NOTAG c m w) as (p' & Hp' & Hmax & Er); try done.
  { apply Hfs. }
  { cbn. apply lookup_insert_eq. }
  cbn [s1 cs_msgs cs_fids cs_next cs_err cs_peer cs_sent set_msgs set_cnext] in Er. rewrite insert_insert_eq in Er.
  eexists s1, _, _. split; [|split; [exact Er|split; [|split]]].
  - unfold create. by rewrite (cbind_run _ _ _ _ _ (have_memory_run s)).
  - apply load_msg_run. apply lookup_insert_eq.
  - unfold cbind. rewrite free_msg_run; cbn; [|rewrite lookup_insert_ne, lookup_insert_eq by lia; done].
    rewrite free_msg_run; cbn; [done|]. rewrite delete_insert_ne by lia. rewrite lookup_insert_eq. done.
  - assert (Hm0 : delete (Pos.succ (cs_next s)) (delete (cs_next s)
       (<[Pos.succ (cs_next s) := (0, m)]> (<[cs_next s := (0, M c)]> (cs_msgs s)))) = ∅).
    { rewrite HM, delete_insert_ne, !delete_insert_eq, delete_empty by lia. done. }
    split_and!; cbn; rewrite ?Ef; try done. split; [|by eexists]. split_and!; cbn; try done; [by eapply fs_ok_tags|].
    intros f x Hx'. specialize (Hf f x Hx'). cbn in Hf. lia.
Qed.

Lemma request_run b s c m w : ready b s -> exchange (cs_peer s) 0 c = (A_msg 0 m, w) ->
  is_tversion c = false -> is_rlerror m = false ->
  exists s', npc_request c s = Ret (Some (Some m, s')) /\ went b s (cs_fids s) w [c] s'.
Proof.
  intros Hu Hx Hc Hm. destruct (create_rpc_run b s c m w Hu Hx Hc Hm) as (tc & rc & s1 & s2 & s3 & E1 & E2 & E3 & E4 & Hw).
  exists s3. split; [|done]. unfold npc_request. rewrite (cbind_run _ _ _ _ _ E1), (cbind_run _ _ _ _ _ E2), (cbind_run _ _ _ _ _ E3).
  unfold cbind in E4 |- *. destruct (free_msg tc s2) as [[[[] s4]|]| |]; try done. cbn in *.
  destruct (free_msg rc s4) as [[[[] s5]|]| |]; try done. injection E4 as ->. done.
Qed.

(** ** Fids *)

(** An identifier is free for a new fid. *)
Definition room s : Prop := exists id, 0 <= id < NOFID /\ forall f x, cs_fids s !! f = Some x -> cf_fid x <> id.

Definition new_fid (id : Z) : Npcfid :=
  {| cf_iounit := 0; cf_fid := id; cf_offset := 0; cf_buf := None; cf_buf_len := None; cf_buf_used := None |}.

Lemma npc_fid_alloc_run b s : ready b s -> room s ->
  exists f id s', npc_fid_alloc s = Ret (Some (Some f, s')) /\ cs_fids s !! f = None /\
    (forall g x, cs_fids s !! g = Some x -> cf_fid x <> id) /\ went b s (<[f := new_fid id]> (cs_fids s)) (cs_peer s) [] s'.
Proof.
  intros [Hi Hcon] (id0 & Hid0 & Hfree). pose proof Hi as (Hfs & _). pose proof Hcon as [fs Ef]. rewrite Ef in Hfs.
  destruct Hfs as (_ & _ & _ & _ & Hmax & X & HX & Hids & _).
  destruct (get_id_run fs_fidpool set_fidpool s fs X id0 Ef HX) as (id & p' & Eg & (_ & Hn & _) & _ & _);
    [rewrite Hmax; lia|rewrite Hids; naive_solver|].
  assert (Hall : exists s', npc_fid_alloc s = Ret (Some (Some (cs_next s), s')) /\
    cs_fids s' = <[cs_next s := new_fid id]> (cs_fids s) /\ cs_peer s' = cs_peer s /\ cs_err s' = cs_err s /\
    cs_sent s' = cs_sent s /\ fs_msize <$> cs_fs s' = Some (fs_msize fs) /\ fs_flags <$> cs_fs s' = Some (fs_flags fs)).
  { eexists. split.
    { unfold npc_fid_alloc. rewrite (cbind_run _ _ _ _ _ (have_memory_run s)). cbn [negb].
      rewrite (cbind_run _ _ _ _ _ Eg). reflexivity. }
    cbn. split_and!; reflexivity. }
  destruct Hall as (s' & Ea & E2 & E3 & E4 & E5 & E6 & E7). exists (cs_next s), id, s'. split; [done|].
  assert (Hnone : cs_fids s !! cs_next s = None) by (apply fresh_none; apply Hi). split; [done|].
  split; [intros g x Hg <-; apply Hn, Hids; eauto|].
  pose proof (npc_fid_alloc_rule b ∅ s (fun _ s' => cinv b ∅ ∅ s') Hi Hcon) as Hr. unfold cruns in Hr. rewrite Ea in Hr.
  split_and!; rewrite ?Ef; try done; [|by rewrite E5, app_nil_r]. split; [by apply Hr; intros|].
  unfold connected. destruct (cs_fs s'); [by eexists|done].
Qed.

(** Another fid stays, so the connection does. *)
Lemma npc_fid_free_run b s f x g y : ready b s -> cs_fids s !! f = Some x -> cs_fids s !! g = Some y -> g <> f ->
  exists s', npc_fid_free f s = Ret (Some (tt, s')) /\ went b s (delete f (cs_fids s)) (cs_peer s) [] s'.
Proof.
  intros [Hi Hcon] Hx Hg Hne. pose proof Hi as (Hfs & _). pose proof Hcon as [fs Ef]. rewrite Ef in Hfs.
  destruct Hfs as (_ & _ & _ & _ & _ & X & HX & Hids & _).
  destruct (put_id_run fs_fidpool set_fidpool s fs X (cf_fid x) Ef HX) as (p' & Ep & _); [apply Hids; eauto|].
  pose proof (npc_fid_free_rule b ∅ s f x (fun _ s' => cinv b ∅ ∅ s') Hi Hx) as Hr. unfold cruns in Hr.
  assert (Hrun : exists s', npc_fid_free f s = Ret (Some (tt, s')) /\ cs_fids s' = delete f (cs_fids s) /\
    cs_peer s' = cs_peer s /\ cs_err s' = cs_err s /\ cs_sent s' = cs_sent s /\
    (connected s' -> fs_msize <$> cs_fs s' = Some (fs_msize fs) /\ fs_flags <$> cs_fs s' = Some (fs_flags fs))).
  { unfold npc_fid_free. rewrite (cbind_run _ _ _ _ _ (load_cfid_run _ _ _ Hx)), (cbind_run _ _ _ _ _ Ep).
    unfold npc_decref_fsys, cbind at 1, cbind at 1. rewrite (load_fs_run _ (set_fidpool p' fs)) by done. cbn -[Z.sub Z.eqb].
    destruct (negb _); (eexists; split; [reflexivity|]); cbn; split_and!; try done. by intros [? [=]]. }
  destruct Hrun as (s' & Er & E2 & E3 & E4 & E5 & E6). exists s'. split; [done|]. rewrite Er in Hr.
  assert (Hc' : connected s').
  { eapply (live_connected b ∅ ∅ s' g y); [by apply Hr; intros|]. by rewrite E2, lookup_delete_ne. }
  destruct (E6 Hc') as [E7 E8]. split_and!; rewrite ?Ef; try done; [|by rewrite E5, app_nil_r].
  split; [by apply Hr; intros|done].
Qed.

Lemma npc_clunk_run b s f x g y w : ready b s -> cs_fids s !! f = Some x -> cs_fids s !! g = Some y -> g <> f ->
  exchange (cs_peer s) 0 (C_tclunk (cf_fid x)) = (A_msg 0 (M C_rclunk), w) ->
  exists s', npc_clunk f s = Ret (Some (true, s')) /\ went b s (delete f (cs_fids s)) w [C_tclunk (cf_fid x)] s'.
Proof.
  intros Hr Hx Hg Hne Hex. destruct (request_run b s _ _ _ Hr Hex eq_refl eq_refl) as (s1 & E1 & Hw1).
  pose proof Hw1 as (Hr1 & F1 & P1 & _). rewrite <- F1 in Hx, Hg.
  destruct (npc_fid_free_run b s1 f x g y Hr1 Hx Hg Hne) as (s2 & E2 & Hw2). exists s2. rewrite F1 in Hx, Hw2. rewrite P1 in Hw2.
  split; [|exact (went_trans _ _ _ _ _ _ _ _ _ _ Hw1 Hw2)]. unfold npc_clunk, npc_request_ok.
  rewrite (cbind_run _ _ _ _ _ (load_cfid_run _ _ _ Hx)). unfold cbind at 1, cbind at 1. rewrite E1. cbn.
  by rewrite (cbind_run _ _ _ _ _ E2).
Qed.

Lemma upd_cfid_run b s f x h : ready b s -> cs_fids s !! f = Some x -> cf_fid (h x) = cf_fid x ->
  exists s', upd_cfid f h s = Ret (Some (tt, s')) /\ went b s (<[f := h x]> (cs_fids s)) (cs_peer s) [] s' /\ cs_fs s' = cs_fs s.
Proof.
  intros [Hi Hcon] Hx Hid. eexists. unfold upd_cfid. rewrite (cbind_run _ _ _ _ _ (load_cfid_run _ _ _ Hx)).
  split; [reflexivity|]. split; [|done].
  pose proof (store_cfid_rule b ∅ ∅ s f x (h x) (fun _ s' => cinv b ∅ ∅ s') Hi Hx Hid) as Hr.
  split_and!; cbn; rewrite ?app_nil_r; try done. split; [by apply Hr; intros|done].
Qed.
End Run.
