(* ===== verification/ClientFile.v ===== *)
(** * The client reads and writes whole files (libnpclient)

    A file server is an interface: what its clients may rely on when they walk,
    open, read, write and clunk.  Against any server that keeps it the client's
    operations by path do what they say. *)
From S2P Require Import Prelude Cbuf Protocol Npstring Wire Fcall Hash Ioctx Ops ConfSpec Client ClientOps ClientPool.
From S2P Require Import ClientInv ClientRules ClientRun.
From stdpp Require Import list gmap.
#[local] Open Scope Z_scope.

(** What writing [d] at [off] makes of a file. *)
Definition splice (c : list Z) (off : Z) (d : list Z) : list Z :=
  take (Z.to_nat off) c ++ d ++ drop (Z.to_nat off + length d) c.

(** ** The server *)

(** [sv_fids] is where the fids are, [sv_open] those that are open, [sv_tree] the
    files.  A server may send less than it was asked for, but not nothing, and may
    write less. *)
Class FileServer `{Peer} := {
  sv_fids : peer -> gmap Z (list cstr);
  sv_open : peer -> gset Z;
  sv_tree : peer -> gmap (list cstr) (list Z);
  sv_walk w tag n m p names q c : sv_fids w !! n = Some p -> n ∉ sv_open w -> m = n \/ sv_fids w !! m = None ->
    zlength names <= MAXWELEM -> sv_tree w !! (p ++ names ++ q) = Some c ->
    exists qids w', exchange w tag (C_twalk n m names) = (A_msg tag (M (C_rwalk qids)), w') /\
      zlength qids = zlength names /\ sv_fids w' = <[m := p ++ names]> (sv_fids w) /\
      sv_open w' = sv_open w /\ sv_tree w' = sv_tree w;
  sv_lopen w tag n p c flags : sv_fids w !! n = Some p -> sv_tree w !! p = Some c -> n ∉ sv_open w -> 0 <= flags <= 1 ->
    exists qid iounit w', exchange w tag (C_tlopen n flags) = (A_msg tag (M (C_rlopen qid iounit)), w') /\
      sv_fids w' = sv_fids w /\ sv_open w' = {[n]} ∪ sv_open w /\ sv_tree w' = sv_tree w;
  sv_read w tag n p c off count : sv_fids w !! n = Some p -> sv_tree w !! p = Some c -> n ∈ sv_open w -> 0 <= off -> 0 < count ->
    exists d w', exchange w tag (C_tread n off count) = (A_msg tag (M (C_rread d)), w') /\
      d `prefix_of` drop (Z.to_nat off) c /\ zlength d <= count /\ (d = [] -> zlength c <= off) /\
      sv_fids w' = sv_fids w /\ sv_open w' = sv_open w /\ sv_tree w' = sv_tree w;
  sv_write w tag n p c off data : sv_fids w !! n = Some p -> sv_tree w !! p = Some c -> n ∈ sv_open w ->
    0 <= off <= zlength c -> data <> [] ->
    exists k w', exchange w tag (C_twrite n off data) = (A_msg tag (M (C_rwrite k)), w') /\ 0 < k <= zlength data /\
      sv_fids w' = sv_fids w /\ sv_open w' = sv_open w /\
      sv_tree w' = <[p := splice c off (take (Z.to_nat k) data)]> (sv_tree w);
  sv_clunk w tag n p : sv_fids w !! n = Some p ->
    exists w', exchange w tag (C_tclunk n) = (A_msg tag (M C_rclunk), w') /\
      sv_fids w' = delete n (sv_fids w) /\ sv_open w' = sv_open w ∖ {[n]} /\ sv_tree w' = sv_tree w;
}.

Section File.
Context `{FileServer} (Hmem : memory_enough).
Implicit Types (s : cstate) (w : peer) (f root : fid_ptr) (p : list cstr).

(** ** Walking *)

(** The requests of a walk from [n] to [m] in these batches. *)
Definition walk_requests (n m : Z) (bs : list (list cstr)) : list np_call :=
  match bs with
  | [] => []
  | b :: bs => C_twalk n m b :: (C_twalk m m <$> bs)
  end.

Lemma walk_requests_again n m b bs : walk_requests n m (b :: bs) = C_twalk n m b :: walk_requests m m bs.
Proof. by destruct bs. Qed.

Lemma cbind_then {A B} (c1 : CM unit) (c2 : CM A) (k : A -> CM B) s a s' :
  cbind c1 (fun _ => c2) s = Ret (Some (a, s')) -> cbind c1 (fun _ => cbind c2 k) s = k a s'.
Proof.
  unfold cbind. destruct (c1 s) as [[[u s1]|]| |]; try done. cbn. destruct (c2 s1) as [[[v s2]|]| |]; try done.
  intros E. by injection E as -> ->.
Qed.

(** The walk: the components of the path, in order, in requests of at most 16. *)
Definition walked (names : list cstr) (bs : list (list cstr)) : Prop :=
  concat bs = names /\ Forall (fun b => zlength b <= MAXWELEM) bs /\ bs <> [].

Lemma walk_loop_run b fuel s fid from x y p path t rc q c : (length path < fuel)%nat -> ready b s ->
  cs_fids s !! fid = Some x -> cs_fids s !! from = Some y -> sv_fids (cs_peer s) !! cf_fid y = Some p ->
  cf_fid y ∉ sv_open (cs_peer s) -> cf_fid x ∉ sv_open (cs_peer s) ->
  cf_fid x = cf_fid y \/ sv_fids (cs_peer s) !! cf_fid x = None ->
  sv_tree (cs_peer s) !! (p ++ components path ++ q) = Some c ->
  exists s' w' bs, npc_walk_loop fuel fid from path t rc s = Ret (Some (Some fid, s')) /\
    went b s (cs_fids s) w' (walk_requests (cf_fid y) (cf_fid x) bs) s' /\ walked (components path) bs /\
    sv_fids w' = <[cf_fid x := p ++ components path]> (sv_fids (cs_peer s)) /\ sv_open w' = sv_open (cs_peer s) /\
    sv_tree w' = sv_tree (cs_peer s).
Proof.
  revert s from y p path t rc. induction fuel as [|fuel IH]; [lia|].
  intros s from y p path t rc Hfuel Hr Hx Hy Hp Hno Hno' Hxy Ht. cbn [npc_walk_loop].
  destruct (split_names (Z.to_nat MAXWELEM) path t) as [[ws r] t'] eqn:Es.
  destruct (split_names_items _ _ _ _ _ _ Es) as (Hlen & Hmore & Hlast & Hless).
  assert (Hnames : exists rest, components path = ws ++ rest /\ (negb t' || bool_decide (r = []) = true -> rest = []) /\
    (negb t' || bool_decide (r = []) = false -> rest = components r /\ (length r < length path)%nat)).
  { destruct t'; cbn.
    - exists (components r). split; [by apply Hmore|]. split; intros Hb; case_bool_decide; try done; [by subst r|].
      split; [done|by apply Hless].
    - exists []. rewrite app_nil_r. split; [by apply Hlast|done]. }
  destruct Hnames as (rest & Hcomp & Hdone & Hcont). rewrite Hcomp, <- app_assoc in Ht.
  destruct (sv_walk _ 0 _ (cf_fid x) _ ws (rest ++ q) c Hp Hno Hxy) as (qids & w1 & Hex & Hq & Hf1 & Ho1 & Ht1); [|done|].
  { unfold zlength, MAXWELEM in *. lia. }
  destruct (create_rpc_run Hmem b s _ _ _ Hr Hex eq_refl eq_refl) as (tc & rcp & s1 & s2 & s3 & E1 & E2 & E3 & E4 & Hw).
  pose proof Hw as (Hr3 & F3 & P3 & _).
  rewrite (cbind_run _ _ _ _ _ (load_cfid_run _ _ _ Hx)), (cbind_run _ _ _ _ _ (load_cfid_run _ _ _ Hy)),
    (cbind_run _ _ _ _ _ E1), (cbind_run _ _ _ _ _ E2), (cbind_run _ _ _ _ _ E3).
  change (cbind (clift (Ret qids)) ?k s2) with (k qids s2). cbv beta. rewrite Hq, Z.eqb_refl. cbn [negb].
  rewrite (cbind_then _ _ _ _ _ _ E4).
  assert (Hws : zlength ws <= MAXWELEM) by (unfold zlength, MAXWELEM in *; lia).
  destruct (negb t' || bool_decide (r = [])) eqn:Eend.
  - rewrite (Hdone eq_refl), app_nil_r in *. exists s3, w1, [ws]. split; [done|]. split; [done|]. rewrite Hcomp.
    split; [|done]. split; [cbn; by rewrite app_nil_r|]. split; [by repeat constructor|done].
  - destruct (Hcont eq_refl) as [Hrest Hl]. subst rest.
    destruct (IH s3 fid x (p ++ ws) r t' (Some rcp)) as (s' & w' & bs & E & Hw' & (Hbs & Hall & _) & Hf' & Ho' & Ht');
      rewrite ?F3, ?P3, ?Hf1, ?Ho1, ?Ht1, ?lookup_insert_eq; try done; [lia|by left|by rewrite <- app_assoc|].
    rewrite F3 in Hw'. exists s', w', (ws :: bs). split; [done|]. split.
    { rewrite walk_requests_again. exact (went_trans _ _ _ _ _ _ _ _ _ _ Hw Hw'). }
    rewrite Hcomp. split; [split; [cbn; by rewrite Hbs|split; [by constructor|done]]|].
    rewrite Hf', Ho', Ht', P3, Hf1, insert_insert_eq, <- app_assoc. done.
Qed.

(** The server knows the fids of the client and no others. *)
Definition linked s : Prop :=
  (forall n, is_Some (sv_fids (cs_peer s) !! n) <-> exists f x, cs_fids s !! f = Some x /\ cf_fid x = n) /\
  (forall n, n ∈ sv_open (cs_peer s) -> is_Some (sv_fids (cs_peer s) !! n)).

Lemma linked_new s id : linked s -> (forall g x, cs_fids s !! g = Some x -> cf_fid x <> id) ->
  sv_fids (cs_peer s) !! id = None /\ id ∉ sv_open (cs_peer s).
Proof.
  intros [Hl Ho] Hn. assert (Hnone : sv_fids (cs_peer s) !! id = None).
  { destruct (sv_fids (cs_peer s) !! id) eqn:E; [|done]. destruct (proj1 (Hl id)) as (g & x & Hg & Hid); [by eexists|].
    by destruct (Hn g x). }
  split; [done|]. intros Hin. destruct (Ho _ Hin). congruence.
Qed.

(** The fid [root] of the client is at [p] in the server, and may be walked from. *)
Definition rooted b s root p : Prop :=
  ready b s /\ room s /\ linked s /\
  exists y, cs_fids s !! root = Some y /\ sv_fids (cs_peer s) !! cf_fid y = Some p /\ cf_fid y ∉ sv_open (cs_peer s).

Lemma npc_walk_run b s root p path q c : rooted b s root p -> sv_tree (cs_peer s) !! (p ++ components path ++ q) = Some c ->
  exists fid id y s' w' bs, npc_walk root (Some path) s = Ret (Some (Some fid, s')) /\
    cs_fids s !! root = Some y /\ cs_fids s !! fid = None /\ sv_fids (cs_peer s) !! id = None /\ id ∉ sv_open (cs_peer s) /\
    went b s (<[fid := new_fid id]> (cs_fids s)) w' (walk_requests (cf_fid y) id bs) s' /\ walked (components path) bs /\
    sv_fids w' = <[id := p ++ components path]> (sv_fids (cs_peer s)) /\ sv_open w' = sv_open (cs_peer s) /\
    sv_tree w' = sv_tree (cs_peer s).
Proof.
  intros (Hr & Hroom & Hl & y & Hy & Hp & Hno) Ht. rewrite <- skip_slashes_items in Ht |- *.
  destruct (npc_fid_alloc_run Hmem b s Hr Hroom) as (fid & id & s1 & E1 & Hfid & Hid & Hw1).
  destruct (linked_new s id Hl Hid) as [Hnone Hnopen]. pose proof Hw1 as (Hr1 & F1 & P1 & _).
  destruct (walk_loop_run b (S (length (skip_slashes path))) s1 fid root (new_fid id) y p (skip_slashes path) false None q c)
    as (s' & w' & bs & E & Hw & Hwalked & Hf & Ho & Ht'); rewrite ?F1, ?P1; try done.
  { lia. }
  { apply lookup_insert_eq. }
  { rewrite lookup_insert_ne; congruence. }
  { by right. }
  exists fid, id, y, s', w', bs. rewrite F1 in Hw. rewrite P1 in Hf, Ho, Ht'. cbn in Hf, Hw. split.
  { unfold npc_walk. rewrite (cbind_run _ _ _ _ _ (have_memory_run Hmem s)). cbn [negb]. by rewrite (cbind_run _ _ _ _ _ E1). }
  split_and!; try done. exact (went_trans _ _ _ _ _ _ _ _ _ _ Hw1 Hw).
Qed.

(** ** Opening *)

(** What the connection allows, and that a short read is not taken for the end. *)
Definition limits s : Prop :=
  exists m fl, fs_msize <$> cs_fs s = Some m /\ IOHDRSZ < m < 2 ^ 31 /\ fs_flags <$> cs_fs s = Some fl /\ bit fl NPC_SHORTREAD_EOF = false.

Lemma limits_went b s F w cs s' : went b s F w cs s' -> limits s -> limits s'.
Proof.
  intros (_ & _ & _ & _ & _ & E1 & E2) (m & fl & Hm & Hb & Hf & Hfl). exists m, fl. rewrite E1, E2. done.
Qed.

Lemma npc_open_run b s f x p c flags : ready b s -> cs_fids s !! f = Some x -> sv_fids (cs_peer s) !! cf_fid x = Some p ->
  sv_tree (cs_peer s) !! p = Some c -> cf_fid x ∉ sv_open (cs_peer s) -> 0 <= flags <= 1 ->
  exists s' w' x', npc_open f flags s = Ret (Some (true, s')) /\
    went b s (<[f := x']> (cs_fids s)) w' [C_tlopen (cf_fid x) flags] s' /\ cf_fid x' = cf_fid x /\ cf_offset x' = 0 /\
    sv_fids w' = sv_fids (cs_peer s) /\ sv_open w' = {[cf_fid x]} ∪ sv_open (cs_peer s) /\ sv_tree w' = sv_tree (cs_peer s).
Proof.
  intros Hr Hx Hp Ht Hno Hfl. destruct (sv_lopen _ 0 _ _ _ _ Hp Ht Hno Hfl) as (qid & n & w1 & Hex & Hf1 & Ho1 & Ht1).
  destruct (request_run Hmem b s _ _ _ Hr Hex eq_refl eq_refl) as (s1 & E1 & Hw1). pose proof Hw1 as (Hr1 & F1 & P1 & _).
  pose proof Hr1 as [_ [fs Ef]]. rewrite <- F1 in Hx.
  destruct (upd_cfid_run b s1 f x (set_cf_iounit (if (n =? 0) || (u32 (maxio fs) <? n) then u32 (maxio fs) else n)) Hr1 Hx)
    as (s2 & E2 & Hw2 & _); [done|]. pose proof Hw2 as (Hr2 & F2 & P2 & _).
  set (x2 := set_cf_iounit _ x) in *. assert (Hx2 : cs_fids s2 !! f = Some x2) by by rewrite F2, lookup_insert_eq.
  destruct (upd_cfid_run b s2 f x2 (set_cf_offset 0) Hr2 Hx2) as (s3 & E3 & Hw3 & _); [done|].
  exists s3, w1, (set_cf_offset 0 x2). split.
  { unfold npc_open. rewrite F1 in Hx. rewrite (cbind_run _ _ _ _ _ (load_cfid_run _ _ _ Hx)), (cbind_run _ _ _ _ _ E1).
    change (cbind (clift (Ret n)) ?k s1) with (k n s1). cbv beta. unfold set_iounit.
    unfold cbind at 1, cbind at 1. rewrite (load_fs_run _ _ Ef). cbn -[upd_cfid]. rewrite E2. cbn -[upd_cfid].
    by rewrite (cbind_run _ _ _ _ _ E3). }
  split; [|done]. rewrite F2, P2, F1, P1, insert_insert_eq in Hw3. rewrite F1, P1 in Hw2.
  exact (went_trans _ _ _ _ _ _ _ _ _ _ Hw1 (went_trans _ _ _ _ _ _ _ _ _ _ Hw2 Hw3)).
Qed.

(** A file that the client has open at an offset. *)
Definition open_at s f (x : Npcfid) p (c : list Z) : Prop :=
  cs_fids s !! f = Some x /\ sv_fids (cs_peer s) !! cf_fid x = Some p /\ sv_tree (cs_peer s) !! p = Some c /\
  cf_fid x ∈ sv_open (cs_peer s) /\ 0 <= cf_offset x /\ zlength c < 2 ^ 63.

(** The server knows the same fids. *)
Definition same_fids w w' : Prop := sv_fids w' = sv_fids w /\ sv_open w' = sv_open w.

(** ** Reading *)

Lemma set_offset_same x : set_cf_offset (cf_offset x) x = x.
Proof. by destruct x. Qed.

Lemma maxio_pos m : IOHDRSZ < m < 2 ^ 31 -> 0 < u32 (int32 (m - IOHDRSZ)) < 2 ^ 31.
Proof. intros Hm. unfold IOHDRSZ in *. rewrite int32_small, u32_small; lia. Qed.

Lemma npc_pread_run b s f x p c count : ready b s -> limits s -> open_at s f x p c -> 0 < count ->
  exists d s' w' cs, npc_pread f count (cf_offset x) s = Ret (Some (Some d, s')) /\
    d `prefix_of` drop (Z.to_nat (cf_offset x)) c /\ zlength d <= count /\ (d = [] -> zlength c <= cf_offset x) /\
    went b s (cs_fids s) w' cs s' /\ same_fids (cs_peer s) w' /\ sv_tree w' = sv_tree (cs_peer s).
Proof.
  intros Hr (m & fl & Hm & Hb & _ & _) (Hx & Hp & Ht & Ho & Hoff & Hc) Hcount. pose proof Hr as [_ [fs Ef]].
  rewrite Ef in Hm. injection Hm as <-. pose proof (maxio_pos _ Hb) as Hmax. fold (maxio fs) in Hmax.
  unfold npc_pread. rewrite (cbind_run _ _ _ _ _ (load_fs_run _ _ Ef)), (cbind_run _ _ _ _ _ (load_cfid_run _ _ _ Hx)).
  set (n := if u32 (maxio fs) <? count then u32 (maxio fs) else count).
  assert (Hn : 0 < n <= count) by (unfold n; destruct (Z.ltb_spec (u32 (maxio fs)) count); lia).
  destruct (sv_read _ 0 _ _ _ (cf_offset x) n Hp Ht Ho Hoff) as (d & w1 & Hex & Hd & Hl & He & Hf1 & Ho1 & Ht1); [lia|].
  destruct (request_run Hmem b s _ _ _ Hr Hex eq_refl eq_refl) as (s1 & E1 & Hw1).
  exists d, s1, w1, [C_tread (cf_fid x) (cf_offset x) n]. split; [|split; [done|split; [lia|done]]].
  rewrite (cbind_run _ _ _ _ _ E1). change (cbind (clift (Ret d)) ?k s1) with (k d s1). cbv beta.
  pose proof (zlength_nonneg d). assert (Hd31 : zlength d < 2 ^ 31).
  { unfold n in Hl. destruct (Z.ltb_spec (u32 (maxio fs)) count); lia. }
  rewrite (proj2 (Z.ltb_ge _ _)), int32_small, (proj2 (Z.ltb_ge _ _)) by lia. done.
Qed.

Lemma npc_read_run b s f x p c count : ready b s -> limits s -> open_at s f x p c -> 0 < count ->
  exists d s' w' cs, npc_read f count s = Ret (Some (Some d, s')) /\
    d `prefix_of` drop (Z.to_nat (cf_offset x)) c /\ zlength d <= count /\ (d = [] -> zlength c <= cf_offset x) /\
    went b s (<[f := set_cf_offset (cf_offset x + zlength d) x]> (cs_fids s)) w' cs s' /\
    same_fids (cs_peer s) w' /\ sv_tree w' = sv_tree (cs_peer s).
Proof.
  intros Hr Hlim Hopen Hcount. pose proof Hopen as (Hx & _ & _ & _ & Hoff & Hc).
  destruct (npc_pread_run b s f x p c count Hr Hlim Hopen Hcount) as (d & s1 & w1 & cs & E1 & Hd & Hl & He & Hw1 & Hs1 & Ht1).
  pose proof Hw1 as (Hr1 & F1 & P1 & _). unfold npc_read. rewrite (cbind_run _ _ _ _ _ (load_cfid_run _ _ _ Hx)), (cbind_run _ _ _ _ _ E1).
  destruct (Z.ltb_spec 0 (zlength d)) as [Hpos|Hz].
  - pose proof (prefix_length _ _ Hd) as Hlen. rewrite length_drop in Hlen. unfold zlength in *.
    rewrite <- F1 in Hx. destruct (upd_cfid_run b s1 f x (fun x => set_cf_offset (u64 (cf_offset x + Z.of_nat (length d))) x) Hr1 Hx)
      as (s2 & E2 & Hw2 & _); [done|]. rewrite F1, P1 in Hw2. cbn beta in Hw2. rewrite u64_small in Hw2 by lia.
    exists d, s2, w1, (cs ++ []). rewrite (cbind_run _ _ _ _ _ E2). split; [done|]. split_and!; try done; try apply Hs1.
    exact (went_trans _ _ _ _ _ _ _ _ _ _ Hw1 Hw2).
  - assert (d = []) as -> by (destruct d; [done|unfold zlength in Hz; cbn in Hz; lia]).
    exists [], s1, w1, cs. split; [done|]. split_and!; try done; try apply Hs1.
    change (zlength []) with 0. rewrite Z.add_0_r, set_offset_same, insert_id by done. done.
Qed.

(** Reading on from [x], the file is still open behind what was read. *)
Lemma opened_on s s' b f x p c d w cs : open_at s f x p c -> d `prefix_of` drop (Z.to_nat (cf_offset x)) c ->
  went b s (<[f := set_cf_offset (cf_offset x + zlength d) x]> (cs_fids s)) w cs s' -> same_fids (cs_peer s) w ->
  sv_tree w = sv_tree (cs_peer s) ->
  open_at s' f (set_cf_offset (cf_offset x + zlength d) x) p c /\
  d ++ drop (Z.to_nat (cf_offset x + zlength d)) c = drop (Z.to_nat (cf_offset x)) c.
Proof.
  intros (Hx & Hp & Ht & Ho & Hoff & Hc) [k Hk] (_ & F1 & P1 & _) [Hf1 Ho1] Ht1. split.
  - split_and!; cbn; rewrite ?F1, ?P1, ?Hf1, ?Ho1, ?Ht1; try done; [apply lookup_insert_eq|]. unfold zlength. lia.
  - unfold zlength. replace (Z.to_nat (cf_offset x + Z.of_nat (length d))) with (Z.to_nat (cf_offset x) + length d)%nat by lia.
    by rewrite <- drop_drop, Hk, drop_app_length.
Qed.

Lemma int_sum_at a n s : - 2 ^ 31 <= a + n < 2 ^ 31 -> clift (int_sum a n) s = Ret (Some (a + n, s)).
Proof. intros Hs. unfold clift. by rewrite int_sum_run. Qed.

(** The loop of [npc_get] reads up to the end of the file or of the buffer. *)
Lemma get_loop_run b fuel s f x p c count data : ready b s -> limits s -> open_at s f x p c ->
  (length (drop (Z.to_nat (cf_offset x)) c) < fuel)%nat ->
  zlength data + zlength (drop (Z.to_nat (cf_offset x)) c) < 2 ^ 31 ->
  exists s' w' cs x', get_loop fuel f count data s =
      Ret (Some (Some (data ++ take (Z.to_nat (count - zlength data)) (drop (Z.to_nat (cf_offset x)) c)), s')) /\
    went b s (<[f := x']> (cs_fids s)) w' cs s' /\ cf_fid x' = cf_fid x /\ same_fids (cs_peer s) w' /\
    sv_tree w' = sv_tree (cs_peer s).
Proof.
  revert s x data. induction fuel as [|fuel IH]; [lia|]. intros s x data Hr Hlim Hopen Hfuel Hmax. pose proof Hopen as (Hx & _).
  cbn [get_loop]. destruct (Z.ltb_spec (zlength data) count) as [Hlt|Hge]; cbn [negb].
  2: { exists s, (cs_peer s), [], x. replace (Z.to_nat (count - zlength data)) with O by lia. rewrite take_0, app_nil_r, insert_id by done.
       split; [done|]. split; [by apply went_refl|done]. }
  destruct (npc_read_run b s f x p c (count - zlength data) Hr Hlim Hopen) as (d & s1 & w1 & cs1 & E1 & Hd & Hl & He & Hw1 & Hs1 & Ht1); [lia|].
  destruct (opened_on _ _ _ _ _ _ _ _ _ _ Hopen Hd Hw1 Hs1 Ht1) as [Hopen1 Hcat]. pose proof Hw1 as (Hr1 & F1 & P1 & _).
  rewrite (cbind_run _ _ _ _ _ E1). destruct (Z.eqb_spec (zlength d) 0) as [Hz|Hnz].
  - assert (d = []) as -> by (destruct d; [done|unfold zlength in Hz; cbn in Hz; lia]). specialize (He eq_refl).
    rewrite (drop_ge c) by (unfold zlength in He; lia). rewrite take_nil, app_nil_r.
    eexists s1, w1, cs1, _. split; [done|]. split; [exact Hw1|done].
  - pose proof (limits_went _ _ _ _ _ _ Hw1 Hlim) as Hlim1. pose proof Hlim1 as (m & fl & _ & _ & Hfl & Hbit).
    pose proof Hr1 as [_ [fs Ef]]. rewrite Ef in Hfl. injection Hfl as <-.
    rewrite <- Hcat, zlength_app in Hmax. pose proof (zlength_nonneg data) as Hp1. pose proof (zlength_nonneg d) as Hp2.
    pose proof (zlength_nonneg (drop (Z.to_nat (cf_offset x + zlength d)) c)) as Hp3.
    rewrite (cbind_run _ _ _ _ _ (int_sum_at (zlength data) (zlength d) s1 ltac:(unfold AGET_CHUNK in *; lia))). cbv zeta.
    rewrite (cbind_run _ _ _ _ _ (load_fs_run _ _ Ef)), Hbit. cbn [andb].
    destruct (IH s1 (set_cf_offset (cf_offset x + zlength d) x) (data ++ d) Hr1 Hlim1 Hopen1) as (s2 & w2 & cs2 & x2 & E2 & Hw2 & Hx2 & Hs2 & Ht2).
    { rewrite <- Hcat in Hfuel. rewrite length_app in Hfuel. unfold zlength in *. cbn [cf_offset set_cf_offset]. lia. }
    { rewrite zlength_app. cbn [cf_offset set_cf_offset]. lia. }
    exists s2, w2, (cs1 ++ cs2), x2. rewrite E2. cbn [cf_offset set_cf_offset] in *. split.
    { do 3 f_equal. rewrite <- Hcat, zlength_app, <- app_assoc. f_equal. unfold zlength in *. rewrite take_app_ge by lia. do 3 f_equal. lia. }
    rewrite F1, insert_insert_eq in Hw2. split; [exact (went_trans _ _ _ _ _ _ _ _ _ _ Hw1 Hw2)|].
    split; [done|]. rewrite P1 in Hs2, Ht2. destruct Hs1, Hs2. split; [split; congruence|congruence].
Qed.

(** The loop of [npc_aget]: the buffer has room for more, or there is none yet; one
    more chunk than the file needs fits an [int]. *)
Lemma aget_loop_run b fuel s f x p c ssize data : ready b s -> limits s -> open_at s f x p c ->
  (length (drop (Z.to_nat (cf_offset x)) c) < fuel)%nat -> (ssize = 0 /\ data = [] \/ zlength data < ssize) -> ssize < 2 ^ 31 ->
  zlength data + zlength (drop (Z.to_nat (cf_offset x)) c) < 2 ^ 31 - AGET_CHUNK - 1 ->
  exists s' w' cs x', aget_loop fuel f ssize data s = Ret (Some (Some (data ++ drop (Z.to_nat (cf_offset x)) c), s')) /\
    went b s (<[f := x']> (cs_fids s)) w' cs s' /\ cf_fid x' = cf_fid x /\ same_fids (cs_peer s) w' /\
    sv_tree w' = sv_tree (cs_peer s).
Proof.
  revert s x ssize data. induction fuel as [|fuel IH]; [lia|]. intros s x ssize data Hr Hlim Hopen Hfuel Hss Hs31 Hmax.
  pose proof Hopen as (Hx & _). cbn [aget_loop]. pose proof (zlength_nonneg (drop (Z.to_nat (cf_offset x)) c)) as Hz0.
  assert (Hss' : exists n, (if ssize =? 0 then Ret AGET_CHUNK
                            else if ssize - zlength data =? 1 then int_sum ssize AGET_CHUNK else Ret ssize) = Ret n /\
    zlength data + 1 < n < 2 ^ 31).
  { unfold AGET_CHUNK in *. destruct Hss as [[-> ->]|Hss]; [exists 4096; split; [done|unfold zlength; cbn; lia]|].
    pose proof (zlength_nonneg data). destruct (Z.eqb_spec ssize 0); [lia|].
    destruct (Z.eqb_spec (ssize - zlength data) 1); [|exists ssize; split; [done|lia]].
    exists (ssize + 4096). rewrite int_sum_run by lia. split; [done|lia]. }
  destruct Hss' as (ssize' & -> & Hss'). change (cbind (clift (Ret ssize')) ?k s) with (k ssize' s). cbv beta.
  assert (Hm : forall g : bool, (if g then have_memory else cret true) s = Ret (Some (true, s))).
  { intros []; [apply (have_memory_run Hmem)|done]. }
  rewrite (cbind_run _ _ _ _ _ (Hm _)). cbn [negb].
  destruct (npc_read_run b s f x p c (ssize' - zlength data - 1) Hr Hlim Hopen) as (d & s1 & w1 & cs1 & E1 & Hd & Hl & He & Hw1 & Hs1 & Ht1); [lia|].
  destruct (opened_on _ _ _ _ _ _ _ _ _ _ Hopen Hd Hw1 Hs1 Ht1) as [Hopen1 Hcat]. pose proof Hw1 as (Hr1 & F1 & P1 & _).
  rewrite (cbind_run _ _ _ _ _ E1). destruct (Z.eqb_spec (zlength d) 0) as [Hz|Hnz].
  - assert (d = []) as -> by (destruct d; [done|unfold zlength in Hz; cbn in Hz; lia]). specialize (He eq_refl).
    rewrite (drop_ge c), app_nil_r by (unfold zlength in He; lia). eexists s1, w1, cs1, _. split; [done|]. split; [exact Hw1|done].
  - pose proof (limits_went _ _ _ _ _ _ Hw1 Hlim) as Hlim1. pose proof Hlim1 as (m & fl & _ & _ & Hfl & Hbit).
    pose proof Hr1 as [_ [fs Ef]]. rewrite Ef in Hfl. injection Hfl as <-.
    rewrite <- Hcat, zlength_app in Hmax. pose proof (zlength_nonneg data) as Hp1. pose proof (zlength_nonneg d) as Hp2.
    pose proof (zlength_nonneg (drop (Z.to_nat (cf_offset x + zlength d)) c)) as Hp3.
    rewrite (cbind_run _ _ _ _ _ (int_sum_at (zlength data) (zlength d) s1 ltac:(unfold AGET_CHUNK in *; lia))). cbv zeta.
    rewrite (cbind_run _ _ _ _ _ (load_fs_run _ _ Ef)), Hbit. cbn [andb].
    destruct (IH s1 (set_cf_offset (cf_offset x + zlength d) x) ssize' (data ++ d) Hr1 Hlim1 Hopen1) as (s2 & w2 & cs2 & x2 & E2 & Hw2 & Hx2 & Hs2 & Ht2).
    { rewrite <- Hcat in Hfuel. rewrite length_app in Hfuel. unfold zlength in *. cbn [cf_offset set_cf_offset]. lia. }
    { right. rewrite zlength_app. lia. }
    { lia. }
    { rewrite zlength_app. cbn [cf_offset set_cf_offset]. lia. }
    exists s2, w2, (cs1 ++ cs2), x2. rewrite E2. cbn [cf_offset set_cf_offset] in *. split; [by rewrite <- Hcat, <- app_assoc|].
    rewrite F1, insert_insert_eq in Hw2. split; [exact (went_trans _ _ _ _ _ _ _ _ _ _ Hw1 Hw2)|].
    split; [done|]. rewrite P1 in Hs2, Ht2. destruct Hs1, Hs2. split; [split; congruence|congruence].
Qed.

(** ** Writing *)

Lemma npc_write_run b s f x p c data : ready b s -> limits s -> open_at s f x p c -> cf_offset x <= zlength c ->
  cf_offset x + zlength data < 2 ^ 63 -> data <> [] ->
  exists k s' w' cs, npc_write f data s = Ret (Some (Some k, s')) /\ 0 < k <= zlength data /\
    went b s (<[f := set_cf_offset (cf_offset x + k) x]> (cs_fids s)) w' cs s' /\ same_fids (cs_peer s) w' /\
    sv_tree w' = <[p := splice c (cf_offset x) (take (Z.to_nat k) data)]> (sv_tree (cs_peer s)).
Proof.
  intros Hr (m & fl & Hm & Hb & _ & _) (Hx & Hp & Ht & Ho & Hoff & Hc) Hle Hbig Hne. pose proof Hr as [_ [fs Ef]].
  rewrite Ef in Hm. injection Hm as <-. pose proof (maxio_pos _ Hb) as Hmax. fold (maxio fs) in Hmax.
  assert (Hpos : 0 < zlength data) by (destruct data; [done|unfold zlength; cbn; lia]).
  set (n := if u32 (maxio fs) <? zlength data then u32 (maxio fs) else zlength data).
  assert (Hn : 0 < n <= zlength data /\ n < 2 ^ 31) by (unfold n; destruct (Z.ltb_spec (u32 (maxio fs)) (zlength data)); lia).
  assert (Hlen : zlength (take (Z.to_nat n) data) = n) by (unfold zlength in *; rewrite length_take; lia).
  destruct (sv_write _ 0 _ _ _ (cf_offset x) (take (Z.to_nat n) data) Hp Ht Ho) as (k & w1 & Hex & Hk & Hf1 & Ho1 & Ht1); [lia| |].
  { intros E. rewrite E in Hlen. unfold zlength in Hlen. cbn in Hlen. lia. }
  rewrite Hlen in Hk. rewrite take_take, Nat.min_l in Ht1 by lia.
  destruct (request_run Hmem b s _ _ _ Hr Hex eq_refl eq_refl) as (s1 & E1 & Hw1). pose proof Hw1 as (Hr1 & F1 & P1 & _).
  rewrite <- F1 in Hx. destruct (upd_cfid_run b s1 f x (fun x => set_cf_offset (u64 (cf_offset x + k)) x) Hr1 Hx) as (s2 & E2 & Hw2 & _); [done|].
  rewrite F1, P1 in Hw2. cbn beta in Hw2. rewrite u64_small in Hw2 by lia. rewrite F1 in Hx.
  exists k, s2, w1, [C_twrite (cf_fid x) (cf_offset x) (take (Z.to_nat n) data)]. split_and!; try done; try lia.
  2: { exact (went_trans _ _ _ _ _ _ _ _ _ _ Hw1 Hw2). }
  unfold npc_write, npc_pwrite. rewrite (cbind_run _ _ _ _ _ (load_cfid_run _ _ _ Hx)). unfold cbind at 1.
  rewrite (cbind_run _ _ _ _ _ (load_fs_run _ _ Ef)), (cbind_run _ _ _ _ _ (load_cfid_run _ _ _ Hx)). cbv zeta. fold n.
  rewrite (cbind_run _ _ _ _ _ E1). cbn -[upd_cfid int32 Z.ltb u64]. rewrite int32_small by lia.
  rewrite (proj2 (Z.ltb_lt 0 k)), (cbind_run _ _ _ _ _ E2) by lia. rewrite (proj2 (Z.ltb_ge k 0)) by lia. done.
Qed.

Lemma splice_zero c d : splice c 0 d = d ++ drop (length d) c.
Proof. done. Qed.

Lemma splice_on c data i k : (i + k <= length data)%nat ->
  splice (splice c 0 (take i data)) (Z.of_nat i) (take k (drop i data)) = splice c 0 (take (i + k) data).
Proof.
  intros Hik. rewrite !splice_zero. unfold splice. rewrite Nat2Z.id, take_app_length' by (rewrite length_take; lia).
  rewrite <- (take_take_drop data i k), <- app_assoc. do 2 f_equal.
  rewrite length_app, !length_take, length_drop, drop_app_ge by (rewrite length_take; lia).
  rewrite length_take, drop_drop. f_equal. lia.
Qed.

Lemma splice_length c d : zlength (splice c 0 d) = zlength c `max` zlength d.
Proof. rewrite splice_zero. unfold zlength. rewrite length_app, length_drop. lia. Qed.

Lemma write_loop_run b fuel s f x p c data done : ready b s -> limits s -> 0 <= done <= zlength data -> cf_offset x = done ->
  open_at s f x p (splice c 0 (take (Z.to_nat done) data)) -> zlength c < 2 ^ 63 -> zlength data < 2 ^ 31 ->
  (length data - Z.to_nat done < fuel)%nat ->
  exists s' w' cs x', write_loop fuel f data done s = Ret (Some (Some (zlength data), s')) /\
    went b s (<[f := x']> (cs_fids s)) w' cs s' /\ cf_fid x' = cf_fid x /\ same_fids (cs_peer s) w' /\
    sv_tree w' = <[p := splice c 0 data]> (sv_tree (cs_peer s)).
Proof.
  revert s x done. induction fuel as [|fuel IH]; [lia|]. intros s x done Hr Hlim Hdone Hoff Hopen Hc Hdata Hfuel.
  pose proof Hopen as (Hx & Hp & Ht & Ho & _). cbn [write_loop].
  destruct (Z.ltb_spec done (zlength data)) as [Hlt|Hge]; cbn [negb].
  2: { assert (done = zlength data) as -> by lia. unfold zlength in Ht. rewrite Nat2Z.id, firstn_all in Ht.
       exists s, (cs_peer s), [], x. split; [done|]. rewrite !insert_id by done. split; [by apply went_refl|done]. }
  assert (Hlen : zlength (take (Z.to_nat done) data) = done) by (unfold zlength in *; rewrite length_take; lia).
  destruct (npc_write_run b s f x p _ (drop (Z.to_nat done) data) Hr Hlim Hopen) as (k & s1 & w1 & cs1 & E1 & Hk & Hw1 & Hs1 & Ht1).
  { rewrite splice_length. lia. }
  { unfold zlength in *. rewrite length_drop. lia. }
  { intros E. apply (f_equal length) in E. rewrite length_drop in E. unfold zlength in *. cbn in E. lia. }
  assert (Hk2 : 0 < k <= zlength data - done) by (unfold zlength in *; rewrite length_drop in Hk; lia). clear Hk.
  rewrite u32_small, take_ge by (unfold zlength in *; rewrite ?length_drop; lia).
  rewrite (cbind_run _ _ _ _ _ E1), (cbind_run _ _ _ _ _ (int_sum_at done k s1 ltac:(lia))).
  pose proof Hw1 as (Hr1 & F1 & P1 & _). rewrite Hoff in Ht1, Hw1, F1.
  replace done with (Z.of_nat (Z.to_nat done)) in Ht1 at 2 by lia.
  rewrite splice_on in Ht1 by (unfold zlength in *; lia). rewrite <- Z2Nat.inj_add in Ht1 by lia.
  destruct (IH s1 (set_cf_offset (done + k) x) (done + k)) as (s2 & w2 & cs2 & x2 & E2 & Hw2 & Hx2 & Hs2 & Ht2); try done; try lia.
  { by eapply limits_went. }
  { destruct Hs1 as [Hf1 Ho1]. split_and!; cbn; rewrite ?F1, ?P1, ?Hf1, ?Ho1, ?Ht1; try done; [apply lookup_insert_eq..|lia|].
    rewrite splice_length. unfold zlength in *. rewrite length_take. lia. }
  { unfold zlength in *. lia. }
  exists s2, w2, (cs1 ++ cs2), x2. split; [done|]. rewrite F1, insert_insert_eq in Hw2.
  split; [exact (went_trans _ _ _ _ _ _ _ _ _ _ Hw1 Hw2)|]. split; [done|]. rewrite P1 in Hs2, Ht2. destruct Hs1, Hs2.
  split; [split; congruence|]. by rewrite Ht2, Ht1, insert_insert_eq.
Qed.

(** ** Files by path *)

(** After a call the client and the server are as before, but for the files. *)
Definition back (b : bool) s (tree : gmap (list cstr) (list Z)) s' : Prop :=
  exists w' (cs : list np_call), went b s (cs_fids s) w' cs s' /\ same_fids (cs_peer s) w' /\ sv_tree w' = tree.

Lemma back_rooted b s tree s' root p : back b s tree s' -> rooted b s root p -> rooted b s' root p.
Proof.
  intros (w' & cs & (Hr' & F' & P' & _) & [Hf Ho] & _) (_ & Hroom & Hl & y & Hy & Hp & Hno). split; [done|].
  unfold room, linked in *. rewrite F', P', Hf, Ho. split_and!; try done; try apply Hl. by exists y.
Qed.

(** The file was walked to and open_at. *)
Lemma npc_open_bypath_run b s root p path c flags : rooted b s root p -> sv_tree (cs_peer s) !! (p ++ components path) = Some c ->
  zlength c < 2 ^ 63 -> 0 <= flags <= 1 ->
  exists fid x s' w' cs, npc_open_bypath root (Some path) flags s = Ret (Some (Some fid, s')) /\
    cs_fids s !! fid = None /\ sv_fids (cs_peer s) !! cf_fid x = None /\ cf_fid x ∉ sv_open (cs_peer s) /\ cf_offset x = 0 /\
    went b s (<[fid := x]> (cs_fids s)) w' cs s' /\ open_at s' fid x (p ++ components path) c /\
    sv_fids w' = <[cf_fid x := p ++ components path]> (sv_fids (cs_peer s)) /\
    sv_open w' = {[cf_fid x]} ∪ sv_open (cs_peer s) /\ sv_tree w' = sv_tree (cs_peer s).
Proof.
  intros Hroot Ht Hc Hfl.
  destruct (npc_walk_run b s root p path [] c) as (fid & id & y & s1 & w1 & bs & E1 & Hy & Hfid & Hid & Hno & Hw1 & _ & Hf1 & Ho1 & Ht1);
    [done|by rewrite app_nil_r|].
  pose proof Hw1 as (Hr1 & F1 & P1 & _).
  destruct (npc_open_run b s1 fid (new_fid id) (p ++ components path) c flags Hr1)
    as (s2 & w2 & x & E2 & Hw2 & Hx & Hoff & Hf2 & Ho2 & Ht2); rewrite ?F1, ?P1, ?Hf1, ?Ho1, ?Ht1; try done; [apply lookup_insert_eq..|].
  rewrite F1, insert_insert_eq in Hw2. rewrite P1 in Hf2, Ho2, Ht2. cbn in Hx, Ho2, Hw2. subst id.
  pose proof Hw2 as (_ & F2 & P2 & _).
  exists fid, x, s2, w2, (walk_requests (cf_fid y) (cf_fid x) bs ++ [C_tlopen (cf_fid x) flags]). split_and!; try done; try congruence.
  - unfold npc_open_bypath. by rewrite (cbind_run _ _ _ _ _ E1), (cbind_run _ _ _ _ _ E2).
  - exact (went_trans _ _ _ _ _ _ _ _ _ _ Hw1 Hw2).
  - split_and!; rewrite ?F2, ?P2, ?Hf2, ?Ho2, ?Ht2, ?Hf1, ?Ht1; try done; [apply lookup_insert_eq..|set_solver|lia].
Qed.

(** The fid is given back. *)
Lemma npc_clunk_back b s s1 root p f x q w1 cs tree : rooted b s root p -> cs_fids s !! f = None ->
  sv_fids (cs_peer s) !! cf_fid x = None -> cf_fid x ∉ sv_open (cs_peer s) ->
  went b s (<[f := x]> (cs_fids s)) w1 cs s1 -> sv_fids w1 = <[cf_fid x := q]> (sv_fids (cs_peer s)) ->
  sv_open w1 = {[cf_fid x]} ∪ sv_open (cs_peer s) -> sv_tree w1 = tree ->
  exists s2, npc_clunk f s1 = Ret (Some (true, s2)) /\ back b s tree s2.
Proof.
  intros (_ & _ & _ & y & Hy & _) Hf Hn Hno Hw1 Hf1 Ho1 Ht1. pose proof Hw1 as (Hr1 & F1 & P1 & _).
  assert (Hne : root <> f) by congruence.
  destruct (sv_clunk w1 0 (cf_fid x) q) as (w2 & Hex & Hf2 & Ho2 & Ht2); [by rewrite Hf1, lookup_insert_eq|].
  destruct (npc_clunk_run Hmem b s1 f x root y w2 Hr1) as (s2 & E2 & Hw2);
    [by rewrite F1, lookup_insert_eq|by rewrite F1, lookup_insert_ne|done|by rewrite P1|].
  exists s2. split; [done|]. rewrite F1, delete_insert_id in Hw2 by done. eexists w2, _.
  split; [exact (went_trans _ _ _ _ _ _ _ _ _ _ Hw1 Hw2)|]. split; [|congruence]. split.
  - by rewrite Hf2, Hf1, delete_insert_id.
  - rewrite Ho2, Ho1. set_solver.
Qed.

(** [npc_walk] on a server that has the file sends the components of the path,
    in order, in Twalk requests of at most 16 names each, the first from the fid it
    was given to a new one and the others from the new one, and returns that. *)
Theorem npc_walk_correct b s root p path q c : rooted b s root p -> sv_tree (cs_peer s) !! (p ++ components path ++ q) = Some c ->
  exists fid s' y id bs, npc_walk root (Some path) s = Ret (Some (Some fid, s')) /\
    cs_fids s !! root = Some y /\ cs_fids s !! fid = None /\ cs_fids s' = <[fid := new_fid id]> (cs_fids s) /\
    sv_fids (cs_peer s') = <[id := p ++ components path]> (sv_fids (cs_peer s)) /\ sv_tree (cs_peer s') = sv_tree (cs_peer s) /\
    cs_sent s' = cs_sent s ++ ((fun c => (0, c)) <$> walk_requests (cf_fid y) id bs) /\ walked (components path) bs.
Proof.
  intros Hroot Ht.
  destruct (npc_walk_run b s root p path q c Hroot Ht) as (fid & id & y & s' & w' & bs & E & Hy & Hfid & _ & _ & Hw & Hb & Hf & _ & Ht').
  destruct Hw as (_ & F & P & _ & S & _). exists fid, s', y, id, bs. rewrite P. done.
Qed.

Section Whole.
Context (b : bool) s root p (path : cstr) (c : list Z) (Hroot : rooted b s root p) (Hlim : limits s).
Context (Ht : sv_tree (cs_peer s) !! (p ++ components path) = Some c).

Lemma npc_get_run fuel count : zlength c < 2 ^ 31 -> (length c < fuel)%nat ->
  exists s', npc_get fuel root (Some path) count s = Ret (Some (Some (take (Z.to_nat count) c), s')) /\
    back b s (sv_tree (cs_peer s)) s'.
Proof.
  intros Hc Hfuel.
  destruct (npc_open_bypath_run b s root p path c 0 Hroot Ht)
    as (fid & x & s1 & w1 & cs & E1 & Hfid & Hn & Hno & Hoff & Hw1 & Hopen & Hf1 & Ho1 & Ht1); [unfold AGET_CHUNK in *; lia|lia|].
  pose proof Hw1 as (Hr1 & F1 & P1 & _).
  destruct (get_loop_run b fuel s1 fid x _ c count [] Hr1 (limits_went _ _ _ _ _ _ Hw1 Hlim) Hopen)
    as (s2 & w2 & cs2 & x2 & E2 & Hw2 & Hx2 & [Hf2 Ho2] & Ht2); [by rewrite Hoff, drop_0|by rewrite Hoff, drop_0|].
  rewrite F1, insert_insert_eq in Hw2. rewrite P1 in Hf2, Ho2, Ht2.
  destruct (npc_clunk_back b s s2 root p fid x2 (p ++ components path) w2 (cs ++ cs2) (sv_tree (cs_peer s)) Hroot Hfid)
    as (s3 & E3 & Hback); rewrite ?Hx2; try congruence; [exact (went_trans _ _ _ _ _ _ _ _ _ _ Hw1 Hw2)|].
  exists s3. split; [|done]. unfold npc_get.
  rewrite (cbind_run _ _ _ _ _ E1), (cbind_run _ _ _ _ _ E2), (cbind_run _ _ _ _ _ E3), Hoff.
  change (zlength []) with 0. rewrite Z.sub_0_r, drop_0. done.
Qed.

Lemma npc_aget_run fuel : zlength c < 2 ^ 31 - AGET_CHUNK - 1 -> (length c < fuel)%nat ->
  exists s', npc_aget fuel root (Some path) s = Ret (Some (Some c, s')) /\ back b s (sv_tree (cs_peer s)) s'.
Proof.
  intros Hc Hfuel.
  destruct (npc_open_bypath_run b s root p path c 0 Hroot Ht)
    as (fid & x & s1 & w1 & cs & E1 & Hfid & Hn & Hno & Hoff & Hw1 & Hopen & Hf1 & Ho1 & Ht1); [unfold AGET_CHUNK in *; lia|lia|].
  pose proof Hw1 as (Hr1 & F1 & P1 & _).
  destruct (aget_loop_run b fuel s1 fid x _ c 0 [] Hr1 (limits_went _ _ _ _ _ _ Hw1 Hlim) Hopen)
    as (s2 & w2 & cs2 & x2 & E2 & Hw2 & Hx2 & [Hf2 Ho2] & Ht2); [by rewrite Hoff, drop_0|by left|done|by rewrite Hoff, drop_0|].
  rewrite F1, insert_insert_eq in Hw2. rewrite P1 in Hf2, Ho2, Ht2.
  destruct (npc_clunk_back b s s2 root p fid x2 (p ++ components path) w2 (cs ++ cs2) (sv_tree (cs_peer s)) Hroot Hfid)
    as (s3 & E3 & Hback); rewrite ?Hx2; try congruence; [exact (went_trans _ _ _ _ _ _ _ _ _ _ Hw1 Hw2)|].
  exists s3. split; [|done]. unfold npc_aget.
  rewrite (cbind_run _ _ _ _ _ E1), (cbind_run _ _ _ _ _ E2), (cbind_run _ _ _ _ _ E3), Hoff, drop_0. done.
Qed.

Lemma npc_put_run fuel data : zlength c < 2 ^ 63 -> (length data < fuel)%nat -> zlength data < 2 ^ 31 ->
  exists s', npc_put fuel root (Some path) data s = Ret (Some (Some (zlength data), s')) /\
    back b s (<[p ++ components path := splice c 0 data]> (sv_tree (cs_peer s))) s'.
Proof.
  intros Hc Hfuel Hdata.
  destruct (npc_open_bypath_run b s root p path c 1 Hroot Ht Hc)
    as (fid & x & s1 & w1 & cs & E1 & Hfid & Hn & Hno & Hoff & Hw1 & Hopen & Hf1 & Ho1 & Ht1); [lia|].
  pose proof Hw1 as (Hr1 & F1 & P1 & _).
  destruct (write_loop_run b fuel s1 fid x (p ++ components path) c data 0 Hr1 (limits_went _ _ _ _ _ _ Hw1 Hlim))
    as (s2 & w2 & cs2 & x2 & E2 & Hw2 & Hx2 & [Hf2 Ho2] & Ht2); try done; [pose proof (zlength_nonneg data); lia|cbn; lia|].
  rewrite F1, insert_insert_eq in Hw2. rewrite P1 in Hf2, Ho2, Ht2.
  destruct (npc_clunk_back b s s2 root p fid x2 (p ++ components path) w2 (cs ++ cs2) (sv_tree w2) Hroot Hfid)
    as (s3 & E3 & Hback); rewrite ?Hx2; try congruence; [exact (went_trans _ _ _ _ _ _ _ _ _ _ Hw1 Hw2)|].
  exists s3. split; [|by rewrite <- Ht1, <- Ht2]. unfold npc_put.
  by rewrite (cbind_run _ _ _ _ _ E1), (cbind_run _ _ _ _ _ E2), (cbind_run _ _ _ _ _ E3).
Qed.

(** C13: [npc_get] and [npc_aget] return the contents of the file at the path, the
    first up to the size of the buffer, however many bytes the server sends at a
    time; the fid they walked to is given back and nothing else changes.  The file
    has fewer than 2^31 - 4097 bytes: [npc_aget] counts the size of its buffer, which
    grows by 4096 bytes, in an [int], which would overflow for a longer file. *)
Theorem npc_get_correct fuel count : 0 <= count < 2 ^ 32 -> zlength c < 2 ^ 31 - AGET_CHUNK - 1 -> (length c < fuel)%nat ->
  (exists s', npc_get fuel root (Some path) count s = Ret (Some (Some (take (Z.to_nat count) c), s')) /\
     back b s (sv_tree (cs_peer s)) s') /\
  (exists s', npc_aget fuel root (Some path) s = Ret (Some (Some c, s')) /\ back b s (sv_tree (cs_peer s)) s').
Proof. intros _ Hc Hfuel. split; [apply npc_get_run; [unfold AGET_CHUNK in Hc; lia|done]|by apply npc_aget_run]. Qed.

End Whole.

(** C14: What [npc_put] wrote, [npc_aget] reads: all data is written at the start of
    the file, however few bytes the server takes at a time, the rest of a longer
    file stays, and reading the file gives just that; for data and files of fewer
    than 2^31 - 4097 bytes, as the counters are [int]s. *)
Theorem put_get_roundtrip b s root p path c fuel data : rooted b s root p -> limits s ->
  sv_tree (cs_peer s) !! (p ++ components path) = Some c ->
  zlength c < 2 ^ 31 - AGET_CHUNK - 1 -> zlength data < 2 ^ 31 - AGET_CHUNK - 1 ->
  (length c `max` length data < fuel)%nat ->
  exists s1 s2, npc_put fuel root (Some path) data s = Ret (Some (Some (zlength data), s1)) /\
    npc_aget fuel root (Some path) s1 = Ret (Some (Some (data ++ drop (length data) c), s2)) /\
    cs_fids s2 = cs_fids s /\
    sv_tree (cs_peer s2) = <[p ++ components path := data ++ drop (length data) c]> (sv_tree (cs_peer s)).
Proof.
  intros Hroot Hlim Ht Hc Hdata Hfuel.
  destruct (npc_put_run b s root p path c Hroot Hlim Ht fuel data) as (s1 & E1 & Hb1); [unfold AGET_CHUNK in *; lia..|].
  pose proof (back_rooted _ _ _ _ _ _ Hb1 Hroot) as Hroot1. destruct Hb1 as (w1 & cs1 & Hw1 & _ & Ht1).
  pose proof (limits_went _ _ _ _ _ _ Hw1 Hlim) as Hlim1. destruct Hw1 as (_ & F1 & P1 & _).
  destruct (npc_aget_run b s1 root p path (splice c 0 data) Hroot1 Hlim1) with (fuel := fuel) as (s2 & E2 & w2 & cs2 & Hw2 & _ & Ht2).
  - rewrite P1, Ht1. apply lookup_insert_eq.
  - rewrite splice_length. lia.
  - pose proof (splice_length c data). unfold zlength in *. lia.
  - destruct Hw2 as (_ & F2 & P2 & _). exists s1, s2. split; [done|]. split; [done|]. rewrite F2, P2, Ht2, P1, Ht1. done.
Qed.
End File.
