(* ===== verification/ClientSample.v ===== *)
(** * A file server in memory, and runs of the client (libnpclient)

    The server keeps the interface of ClientFile.v; it sends at most three bytes and
    takes at most two at a time.  The runs show that the theorems apply, and what
    happens when their conditions do not hold. *)
From S2P Require Import Prelude Cbuf Protocol Npstring Wire Fcall Hash Ioctx Ops ConfSpec Client ClientOps ClientPool.
From S2P Require Import ClientInv ClientRules ClientSpec ClientRun ClientFile.
From stdpp Require Import list gmap.
#[local] Open Scope Z_scope.

(** ** The server *)

Record mem := { m_fids : gmap Z (list cstr); m_open : gset Z; m_tree : gmap (list cstr) (list Z) }.

Definition some_qid : Npqid := {| qtype := 0; qversion := 0; qpath := 0 |}.

Definition mem_file (w : mem) (n : Z) : option (list cstr * list Z) :=
  match m_fids w !! n with
  | Some p => match m_tree w !! p with Some c => if decide (n ∈ m_open w) then Some (p, c) else None | None => None end
  | None => None
  end.

Definition mem_reply (w : mem) (c : np_call) : np_call * mem :=
  match c with
  | C_tversion n _ => (C_rversion n (Some version_L), w)
  | C_tauth _ _ _ _ => (C_rlerror ENOENT, w)
  | C_tattach n _ _ _ _ =>
      (C_rattach some_qid, {| m_fids := <[n := []]> (m_fids w); m_open := m_open w; m_tree := m_tree w |})
  | C_twalk n m names =>
      match m_fids w !! n with
      | Some p =>
          (C_rwalk (replicate (length names) some_qid),
           {| m_fids := <[m := p ++ names]> (m_fids w); m_open := m_open w; m_tree := m_tree w |})
      | None => (C_rlerror EIO, w)
      end
  | C_tlopen n _ => (C_rlopen some_qid 0, {| m_fids := m_fids w; m_open := {[n]} ∪ m_open w; m_tree := m_tree w |})
  | C_tread n off count =>
      match mem_file w n with
      | Some (_, c) => (C_rread (take (Z.to_nat (Z.min 3 count)) (drop (Z.to_nat off) c)), w)
      | None => (C_rlerror EIO, w)
      end
  | C_twrite n off data =>
      match mem_file w n with
      | Some (p, c) =>
          let k := Z.min 2 (zlength data) in
          (C_rwrite k, {| m_fids := m_fids w; m_open := m_open w;
                          m_tree := <[p := splice c off (take (Z.to_nat k) data)]> (m_tree w) |})
      | None => (C_rlerror EIO, w)
      end
  | C_tclunk n => (C_rclunk, {| m_fids := delete n (m_fids w); m_open := m_open w ∖ {[n]}; m_tree := m_tree w |})
  | _ => (C_rlerror EIO, w)
  end.

#[local] Instance mem_peer : Peer := {|
  peer := mem;
  exchange w tag c := let '(r, w) := mem_reply w c in (A_msg tag (M r), w);
  alloc w := (true, w);
|}.

#[local] Instance mem_polite : Polite.
Proof.
  split. intros w tag c rtag m. cbn. destruct c; cbn; repeat case_match; cbn; intros E; injection E as <- <-; try done.
  all: simplify_eq; cbn; try done.
  - repeat constructor; done.
  - pose proof (zlength_nonneg data). lia.
Qed.

Lemma mem_enough : memory_enough.
Proof. done. Qed.

Lemma mem_file_open w n p c : m_fids w !! n = Some p -> m_tree w !! p = Some c -> n ∈ m_open w -> mem_file w n = Some (p, c).
Proof. intros Hn Ht Ho. unfold mem_file. rewrite Hn, Ht, decide_True by done. done. Qed.

#[local] Instance mem_server : FileServer.
Proof.
  refine {| sv_fids := m_fids; sv_open := m_open; sv_tree := m_tree |}.
  - intros w tag n m p names q c Hn _ _ _ _. cbn. rewrite Hn. eexists _, _. split; [reflexivity|]. cbn. split; [|done].
    unfold zlength. by rewrite length_replicate.
  - intros w tag n p c flags _ _ _ _. eexists _, _, _. split; [reflexivity|]. done.
  - intros w tag n p c off count Hn Ht Ho Hoff Hc. cbn. rewrite (mem_file_open w n p c) by done.
    eexists _, _. split; [reflexivity|]. split; [apply prefix_take|]. split; [unfold zlength; rewrite length_take; lia|].
    split; [|done]. intros E. apply (f_equal length) in E. rewrite length_take, length_drop in E. unfold zlength. cbn in E. lia.
  - intros w tag n p c off data Hn Ht Ho Hoff Hd. cbn. rewrite (mem_file_open w n p c) by done.
    eexists _, _. split; [reflexivity|]. split; [|done]. destruct data; [done|]. unfold zlength. cbn. lia.
  - intros w tag n p Hn. eexists. split; [reflexivity|]. done.
Defined.

(** ** A mounted file system *)

(** Paths and contents as bytes: /ab and its contents. *)
Definition hello : list Z := [104; 101; 108; 108; 111; 32; 116; 104; 101; 114; 101].
Definition path_ab : cstr := [47; 97; 47; 47; 98].

Definition unmounted : cstate := {|
  cs_fs := None; cs_fids := ∅; cs_msgs := ∅; cs_next := 1; cs_err := 0;
  cs_peer := {| m_fids := ∅; m_open := ∅; m_tree := {[ [[97]; [98]] := hello ]} |} : mem;
  cs_sent := [];
|}.

(** A call that returns, and the state after it. *)
Definition returned {A} (c : CM A) s : option (A * cstate) := match c s with Ret (Some (a, s')) => Some (a, s') | _ => None end.
Definition after {A} (c : CM A) s : cstate := match returned c s with Some (_, s') => s' | None => s end.

Definition home : cstate := after (npc_mount 0 8192 None None) unmounted.

Lemma returned_run {A} (c : CM A) s a : fst <$> returned c s = Some a -> c s = Ret (Some (a, after c s)).
Proof. unfold after, returned. destruct (c s) as [[[a' s']|]| |]; try done. cbn. by intros [= ->]. Qed.

Lemma mounting_run : npc_mount 0 8192 None None unmounted = Ret (Some (Some 5%positive, home)).
Proof. apply (returned_run (npc_mount 0 8192 None None) unmounted (Some 5%positive)). vm_compute. reflexivity. Qed.

Lemma reached_mount s euid msize aname f s' : reached s -> cs_fs s = None ->
  npc_mount euid msize aname None s = Ret (Some (Some f, s')) -> reached s'.
Proof.
  intros Hs Hn E. apply (reached_call s 0 (Mount euid msize aname None) true); [done|by split|].
  cbn [perform]. unfold ran, cbind. by rewrite E.
Qed.

Lemma home_reached : reached home.
Proof.
  apply (reached_mount unmounted 0 8192 None 5 home); [by apply reached_start|reflexivity|exact mounting_run].
Qed.

Lemma home_fids : cs_fids home = {[ 5%positive := new_fid 0 ]}.
Proof. vm_compute. reflexivity. Qed.

Lemma home_server : m_fids (cs_peer home) = {[ 0 := [] ]} /\ m_open (cs_peer home) = ∅ /\
  m_tree (cs_peer home) = {[ [[97]; [98]] := hello ]}.
Proof. vm_compute. done. Qed.

Lemma home_limits : limits home.
Proof. exists 8192, 0. vm_compute. done. Qed.

Lemma home_file : sv_tree (cs_peer home) !! ([] ++ components path_ab) = Some hello.
Proof. vm_compute. reflexivity. Qed.

Lemma home_read : fst <$> returned (perform 100 (Aget 5 (Some path_ab))) home = Some true.
Proof. vm_compute. reflexivity. Qed.

#[local] Opaque home.

Lemma home_linked : linked home.
Proof.
  destruct home_server as (Hf & Ho & _). unfold linked. cbn [sv_fids sv_open mem_server]. rewrite home_fids, Hf, Ho.
  clear Hf Ho. split; [|intros n Hn; by apply not_elem_of_empty in Hn].
  intros n. split.
  - intros [p Hp]. apply lookup_singleton_Some in Hp as [<- _]. exists 5%positive, (new_fid 0). by rewrite lookup_singleton_eq.
  - intros (f & x & Hx & <-). apply lookup_singleton_Some in Hx as [_ <-]. by rewrite lookup_singleton_eq.
Qed.

Lemma home_rooted : exists b, rooted b home 5 [].
Proof.
  destruct (reached_good home home_reached) as [b [Hi _]]. exists b. destruct home_server as (Hf & Ho & _). split_and!.
  - split; [exact Hi|]. apply (live_connected b ∅ ∅ home 5 (new_fid 0) Hi). by rewrite home_fids, lookup_singleton_eq.
  - exists 1. split; [split; [lia|reflexivity]|]. intros f x. rewrite home_fids. intros Hx. apply lookup_singleton_Some in Hx as [_ <-]. cbn. lia.
  - apply home_linked.
  - exists (new_fid 0). rewrite home_fids, lookup_singleton_eq. cbn [sv_fids sv_open mem_server]. rewrite Hf, Ho, lookup_singleton_eq.
    split; [reflexivity|]. split; [reflexivity|apply not_elem_of_empty].
Qed.

(** ** The theorems apply *)

Lemma home_requires : requires 100 home (Aget 5 (Some path_ab)).
Proof.
  split; [unfold alive; rewrite home_fids, dom_singleton_L; by apply elem_of_singleton|]. split; vm_compute; reflexivity.
Qed.


Lemma client_accounts_witness : reached home /\ cs_msgs home = ∅.
Proof. split; [exact home_reached|]. destruct (client_accounts home home_reached) as [Hm _]. exact Hm. Defined.

Lemma by_path_gives_back_witness : dom (cs_fids (after (perform 100 (Aget 5 (Some path_ab))) home)) = dom (cs_fids home).
Proof.
  apply (by_path_gives_back 100 home (Aget 5 (Some path_ab))); [exact home_reached| |reflexivity|].
  - exact home_requires.
  - exact (returned_run (perform 100 (Aget 5 (Some path_ab))) home true home_read).
Defined.

Lemma npc_walk_correct_witness : exists b, rooted b home 5 [] /\
  exists fid s', npc_walk 5 (Some path_ab) home = Ret (Some (Some fid, s')).
Proof.
  destruct home_rooted as [b Hb]. exists b. split; [exact Hb|].
  destruct (npc_walk_correct mem_enough b home 5 [] path_ab [] hello Hb) as (fid & s' & y & id & bs & E & _).
  - rewrite app_nil_r. exact home_file.
  - exists fid, s'. exact E.
Defined.

Lemma npc_get_correct_witness : exists b, rooted b home 5 [] /\
  exists s', npc_get 20 5 (Some path_ab) 7 home = Ret (Some (Some [104; 101; 108; 108; 111; 32; 116], s')).
Proof.
  destruct home_rooted as [b Hb]. exists b. split; [exact Hb|].
  destruct (npc_get_correct mem_enough b home 5 [] path_ab hello Hb home_limits home_file) with (fuel := 20%nat) (count := 7)
    as [(s' & E & _) _]; [lia|reflexivity|cbn; lia|]. exists s'. exact E.
Defined.

Lemma put_get_roundtrip_witness : exists b, rooted b home 5 [] /\
  exists s1 s2, npc_put 20 5 (Some path_ab) [72; 69; 76] home = Ret (Some (Some 3, s1)) /\
    npc_aget 20 5 (Some path_ab) s1 = Ret (Some (Some [72; 69; 76; 108; 111; 32; 116; 104; 101; 114; 101], s2)).
Proof.
  destruct home_rooted as [b Hb]. exists b. split; [exact Hb|].
  destruct (put_get_roundtrip mem_enough b home 5 [] path_ab hello 20 [72; 69; 76] Hb home_limits home_file)
    as (s1 & s2 & E1 & E2 & _); [reflexivity|reflexivity|cbn; lia|]. exists s1, s2. split; [exact E1|exact E2].
Defined.

(** ** What happens otherwise *)

(** A server that sends these replies in turn, and an allocator that gives memory
    when told so, and then always. *)
Module Scripted.

Record script := { replies : list msg; memory : list bool }.

#[local] Instance script_peer : Peer := {|
  peer := script;
  exchange w tag _ := match replies w with
                      | m :: r => (A_msg tag m, {| replies := r; memory := memory w |})
                      | [] => (A_eof, w)
                      end;
  alloc w := match memory w with
             | b :: r => (b, {| replies := replies w; memory := r |})
             | [] => (true, w)
             end;
|}.

(** A client with one fid. *)
Definition connected_to (w : script) (x : Npcfid) : cstate := {|
  cs_fs := Some {| fs_flags := 0; fs_msize := 8192; fs_refcount := 2; fs_tagpool := npc_create_pool NOTAG;
                   fs_fidpool := match npc_get_id true (npc_create_pool NOFID) with Some (_, p) => p | None => npc_create_pool NOFID end |};
  cs_fids := {[ 1%positive := x ]}; cs_msgs := ∅; cs_next := 2; cs_err := 0; cs_peer := w; cs_sent := [];
|}.

Definition talking (ms : list msg) : cstate := connected_to {| replies := ms; memory := [] |} (new_fid 0).

Definition is_ub {A} (r : res A) : bool := match r with UB => true | _ => false end.

(** 17 components. *)
Definition deep : cstr := concat (replicate 16 [97; 47]) ++ [98].

Definition dir_attr : msg :=
  M (C_rgetattr 0 some_qid 0x4000 0 0 0 0 0 0 0 0 0 0 0 0 0 0 0 0 0).

(** An entry of a directory with a name of 300 bytes. *)
Definition long_entry : list Z := replicate 22 0 ++ [44; 1] ++ replicate 300 97.

Definition reading (buf : list Z) : Npcfid :=
  {| cf_iounit := 0; cf_fid := 0; cf_offset := 0; cf_buf := Some buf; cf_buf_len := Some (zlength buf);
     cf_buf_used := Some 0 |}.

(** The conditions of the client's theorems are needed.  A path of 17 components
    whose second Twalk fails frees a reply twice; a reply of another type is read
    as if it had the right one; the name of a directory entry of 300 bytes
    overflows [d_name]; [npc_opendir] without memory uses a null pointer; a version
    with a zero byte is compared past its end; a server that claims to have written
    more than it was sent overflows the counter; after [npc_gets] kept a line,
    [npc_readdir_r] uses members that were never set.  A walk
    that stops half way leaves its fid allocated; [npc_setxattr] reports success
    when the write failed; [npc_gets] returns the same for an empty line and for
    the end of the file. *)
Theorem client_conditions_needed :
  is_ub (npc_walk 1 (Some deep) (talking [M (C_rwalk (replicate 16 some_qid)); M (C_rlerror EIO)])) = true /\
  is_ub (npc_open 1 0 (talking [M C_rclunk])) = true /\
  is_ub (npc_readdir_r 1 (connected_to {| replies := []; memory := [] |} (reading long_entry))) = true /\
  is_ub (npc_opendir 1 None (connected_to {| replies := [M (C_rwalk []); M (C_rlopen some_qid 0); dir_attr; M C_rclunk];
                                            memory := [true; true; true; true; false] |} (new_fid 0))) = true /\
  is_ub (npc_start 8192 0 {| cs_fs := None; cs_fids := ∅; cs_msgs := ∅; cs_next := 1; cs_err := 0; cs_sent := [];
    cs_peer := {| replies := [M (C_rversion 8192 (Some (version_L ++ [0; 1])))]; memory := [] |} |}) = true /\
  is_ub (npc_puts 5 1 [97; 98] (talking [M (C_rwrite 1); M (C_rwrite (2 ^ 31 - 1))])) = true /\
  is_ub ((do _ <- npc_gets 5 1 10; npc_readdir_r 1) (talking [M (C_rread [97; 10; 98])])) = true /\
  (exists s, npc_walk 1 (Some [97; 47; 98]) (talking [M (C_rwalk [some_qid]); M (C_rlerror EIO)]) = Ret (Some (None, s)) /\
     size (cs_fids s) = 2%nat) /\
  (exists s, npc_setxattr 5 1 None (Some [97]) [1; 2] 0
       (talking [M (C_rwalk []); M C_rxattrcreate; M (C_rlerror 28); M C_rclunk]) = Ret (Some (true, s))) /\
  (exists s, npc_gets 5 1 10 (talking [M (C_rread [10; 97])]) = Ret (Some (None, s)) /\ cs_err s = 0) /\
  (exists s, npc_gets 5 1 10 (talking [M (C_rread [])]) = Ret (Some (None, s)) /\ cs_err s = 0).
Proof.
  do 7 (split; [vm_compute; reflexivity|]).
  repeat split; (eexists; vm_compute; repeat split; reflexivity).
Qed.
End Scripted.
