(* ===== verification/Rawbuf.v ===== *)
(** * Buffers from the allocator

    Bytes on the heap that may not have been written yet ([None]): reading one of those,
    or going past the end, is [UB]. *)
From S2P Require Import Prelude Cbuf Npstring.
From stdpp Require Import list.
#[local] Open Scope Z_scope.

(** The string in a buffer; there is one if it ends inside it. *)
Fixpoint buf_str (b : list (option Z)) : res cstr :=
  match b with
  | Some c :: b => if c =? 0 then Ret [] else let! s := buf_str b in Ret (c :: s)
  | _ => UB
  end.

Definition malloc_buf (n : Z) : list (option Z) := replicate (Z.to_nat n) None.
Definition realloc_buf (b : list (option Z)) (n : Z) : list (option Z) :=
  take (Z.to_nat n) b ++ replicate (Z.to_nat n - length b) None.

(** [memcpy (b + offset, data, count)], with [data] what can be read there. *)
Definition memcpy_buf (b : list (option Z)) (offset : Z) (data : list Z) (count : Z) : res (list (option Z)) :=
  if (0 <=? offset) && (0 <=? count) && (offset + count <=? zlength b) && (count <=? zlength data)
  then Ret (take (Z.to_nat offset) b ++ (Some <$> take (Z.to_nat count) data) ++ drop (Z.to_nat (offset + count)) b)
  else UB.

(** ** Buffers that hold a string *)

Definition holds_str (b : list (option Z)) (s : cstr) : Prop := no_nul s /\ exists rest, b = (Some <$> s) ++ Some 0 :: rest.

Lemma buf_str_holds b s : holds_str b s -> buf_str b = Ret s.
Proof.
  intros [Hn [rest ->]]. induction Hn as [|c s Hc _ IH]; [done|]. cbn. rewrite (proj2 (Z.eqb_neq _ _) Hc). cbn in IH. by rewrite IH.
Qed.

(** Bytes written behind a string, with a 0 after them. *)
Lemma holds_append s data rest : no_nul s -> holds_str ((Some <$> s) ++ (Some <$> data) ++ Some 0 :: rest) (s ++ c_string data).
Proof.
  intros Hs. split; [apply Forall_app; split; [done|apply c_string_no_nul]|]. rewrite fmap_app. setoid_rewrite <- app_assoc.
  enough (exists r, (Some <$> data) ++ Some 0 :: rest = (Some <$> c_string data) ++ Some 0 :: r) as [r ->] by (by exists r).
  induction data as [|c data IH]; [by exists rest|]. cbn. destruct (Z.eqb_spec c 0) as [->|]; [by eexists|]. destruct IH as [r Hr].
  exists r. cbn in Hr |- *. by rewrite Hr.
Qed.

Lemma zlength_fmap {A B} (f : A -> B) l : zlength (f <$> l) = zlength l.
Proof. unfold zlength. by rewrite length_fmap. Qed.

(** [memcpy] of the data and the 0 behind it into a buffer that starts with [s]. *)
Lemma written_buf s data count b : no_nul s -> 0 <= count <= zlength data -> take (length s) b = Some <$> s -> zlength b = zlength s + count + 1 ->
  exists b2, (let! b1 := memcpy_buf b (zlength s) data count in memcpy_buf b1 (zlength s + count) [0] 1) = Ret b2 /\
    holds_str b2 (s ++ c_string (take (Z.to_nat count) data)).
Proof.
  intros Hs Hc Ht Hl. unfold memcpy_buf at 1. rewrite (proj2 (Z.leb_le 0 _)), (proj2 (Z.leb_le 0 count)) by (unfold zlength; lia).
  rewrite (proj2 (Z.leb_le (zlength s + count) _)), (proj2 (Z.leb_le count _)) by (unfold zlength in *; lia). cbn [andb res_bind].
  replace (Z.to_nat (zlength s)) with (length s) by (unfold zlength; lia). rewrite Ht.
  set (m := (Some <$> s) ++ (Some <$> take (Z.to_nat count) data)).
  rewrite app_assoc. fold m.
  assert (Hm : zlength m = zlength s + count) by (unfold m, zlength in *; rewrite length_app, !length_fmap, length_take; lia).
  unfold memcpy_buf. rewrite (proj2 (Z.leb_le 0 _)) by (unfold zlength; lia). change (0 <=? 1) with true. change (1 <=? zlength [0]) with true.
  rewrite (proj2 (Z.leb_le (zlength s + count + 1) _)).
  2:{ unfold zlength in *. rewrite length_app, length_drop. lia. }
  cbn [andb]. eexists. split; [reflexivity|]. replace (Z.to_nat (zlength s + count)) with (length m) by (unfold zlength in *; lia).
  rewrite take_app_length. unfold m. rewrite <- app_assoc. by apply holds_append.
Qed.
