(* ===== verification/DiodAuth.v ===== *)
(** * Authentication with credentials (libdiod/diod_auth.c)

    The functions behind [Npauth], and the client's [diod_auth].  The state that hangs on
    the [aux] of an afid is a table from fids; the credential is a buffer on the heap.  MUNGE and the allocator are the
    class [Munge].  Log messages and the magic number are left out. *)
From S2P Require Import Prelude Cbuf Protocol Npstring Fidpool Rawbuf Client ClientOps.
From stdpp Require Import list gmap.
#[local] Open Scope Z_scope.

Declare Scope auth_scope.
Delimit Scope auth_scope with auth.

Definition EMUNGE_SUCCESS : Z := 0.

(** MUNGE: a credential or an error for the caller, and what a credential says of who
    made it (error, uid, gid); a credential may be accepted only once. *)
Class Munge := {
  munge : Type;
  munge_malloc : munge -> bool * munge;
  munge_ctx_create : munge -> bool * munge;
  munge_encode : munge -> (Z * cstr) * munge;
  munge_decode : munge -> cstr -> (Z * Z * Z) * munge;
}.

Record da_t := {
  datastr : option (list (option Z));
  mungerr : option Z;
  mungeuid : Z;
  mungegid : Z;
}.

Definition set_datastr v da := {| datastr := v; mungerr := mungerr da; mungeuid := mungeuid da; mungegid := mungegid da |}.
Definition set_munge e u g da := {| datastr := datastr da; mungerr := Some e; mungeuid := u; mungegid := g |}.

Section State.
Context `{Munge}.

(** [au_aux] is [fid->aux] of the afids, [au_uid] is [fid->user->uid]; [au_err] is the
    error of [np_uerror]. *)
Record auth_state := {
  au_aux : gmap loc da_t;
  au_uid : gmap loc Z;
  au_err : Z;
  au_munge : munge;
}.

Definition AM (A : Type) : Type := auth_state -> res (A * auth_state).
Definition aret {A} (a : A) : AM A := fun s => Ret (a, s).
Definition abind {A B} (c : AM A) (f : A -> AM B) : AM B := fun s => let! (a, s) := c s in f a s.
Definition alift {A} (c : res A) : AM A := fun s => let! a := c in Ret (a, s).

End State.

Notation "'do' x <- c ; k" := (abind c (fun x => k))
  (at level 100, x pattern, c at level 100, k at level 200, right associativity) : auth_scope.
#[local] Open Scope auth_scope.

Section Auth.
Context `{Munge}.
(** Was the server built with [AUTH]? *)
Context (AUTH : bool).

Definition auerror (e : Z) : AM unit := fun s =>
  Ret (tt, {| au_aux := au_aux s; au_uid := au_uid s; au_err := e; au_munge := au_munge s |}).
Definition get_aux (l : loc) : AM (option da_t) := fun s => Ret (au_aux s !! l, s).
Definition put_aux (l : loc) (o : option da_t) : AM unit := fun s =>
  Ret (tt, {| au_aux := partial_alter (fun _ => o) l (au_aux s); au_uid := au_uid s; au_err := au_err s; au_munge := au_munge s |}).
Definition outside {A} (f : munge -> A * munge) : AM A := fun s =>
  let '(a, w) := f (au_munge s) in Ret (a, {| au_aux := au_aux s; au_uid := au_uid s; au_err := au_err s; au_munge := w |}).
(** [fid->user->uid] *)
Definition fid_uid (l : loc) : AM Z := fun s => match au_uid s !! l with Some u => Ret (u, s) | None => UB end.

Definition _da_create : AM (option da_t) :=
  do ok <- outside munge_malloc;
  if negb (ok : bool) then do _ <- auerror ENOMEM; aret None
  else
    do ok <- (if AUTH then outside munge_ctx_create else aret true);
    if negb (ok : bool) then do _ <- auerror ENOMEM; aret None
    else aret (Some {| datastr := None; mungerr := None; mungeuid := u32 (-1); mungegid := u32 (-1) |}).

(** [aqid]: is the pointer to the qid not [NULL]?  The qid, for success. *)
Definition startauth (afid : option loc) (aqid : bool) : AM (option Npqid) :=
  match afid with
  | None => do _ <- auerror EIO; aret None
  | Some l =>
      do aux <- get_aux l;
      if bool_decide (is_Some aux) || negb aqid then do _ <- auerror EIO; aret None
      else
        do da <- _da_create;
        do _ <- put_aux l da;
        match da with
        | None => aret None
        | Some _ => aret (Some {| qtype := Qtauth; qversion := 0; qpath := 0 |})
        end
  end.

(** [fid->user] is used for the log message. *)
Definition checkauth (fid afid : option loc) : AM Z :=
  match fid, afid with
  | Some f, Some l =>
      do aux <- get_aux l;
      match aux with
      | None => do _ <- auerror EIO; aret 0
      | Some da =>
          do fuid <- fid_uid f;
          if AUTH then
            match datastr da with
            | None => do _ <- auerror EPERM; aret 0
            | Some b =>
                do s <- alift (buf_str b);
                do r <- outside (fun w => munge_decode w s);
                let '(e, u, g) := (r : Z * Z * Z) in
                do _ <- put_aux l (Some (set_munge e u g da));
                if negb (e =? EMUNGE_SUCCESS) then do _ <- auerror EPERM; aret 0
                else
                  do auid <- fid_uid l;
                  do _ <- alift (np_assert (auid =? fuid));
                  if negb (auid =? u) then do _ <- auerror EPERM; aret 0
                  else aret 1
            end
          else do _ <- auerror EPERM; aret 0
      end
  | _, _ => do _ <- auerror EIO; aret 0
  end.

Definition readafid : AM Z := do _ <- auerror EIO; aret (-1).

(** [offset] is a [u64] and [count] a [u32]. *)
Definition writeafid (afid : option loc) (offset count : Z) (data : option (list Z)) : AM Z :=
  match afid, data with
  | Some l, Some data =>
      do aux <- get_aux l;
      match aux with
      | None => do _ <- auerror EIO; aret (-1)
      | Some da =>
          if count =? 0 then do _ <- auerror EIO; aret (-1)
          else
            do r <- match datastr da with
                    | None =>
                        if offset =? 0 then
                          do ok <- outside munge_malloc; aret (Some (if (ok : bool) then Some (malloc_buf (u32 (count + 1))) else None))
                        else aret None
                    | Some b =>
                        do s <- alift (buf_str b);
                        if offset =? zlength s then
                          do ok <- outside munge_malloc; aret (Some (if (ok : bool) then Some (realloc_buf b (u64 (offset + count + 1))) else None))
                        else aret None
                    end;
            match r with
            | None => do _ <- auerror EIO; aret (-1)
            | Some None => do _ <- put_aux l (Some (set_datastr None da)); do _ <- auerror ENOMEM; aret (-1)
            | Some (Some b) =>
                do b <- alift (memcpy_buf b offset data count);
                do b <- alift (memcpy_buf b (offset + count) [0] 1);
                do _ <- put_aux l (Some (set_datastr (Some b) da));
                aret (int32 count)
            end
      end
  | _, _ => do _ <- auerror EIO; aret (-1)
  end.

Definition clunkafid (afid : option loc) : AM Z :=
  match afid with
  | None => aret 1
  | Some l => do _ <- put_aux l None; aret 1
  end.
End Auth.

(** ** The client *)
#[local] Close Scope auth_scope.

Section Client.
Context `{Peer} `{Munge}.
(** What the peer is, with the client's MUNGE. *)
Context (client_munge : peer -> munge) (set_client_munge : munge -> peer -> peer).

Definition coutside {A} (f : munge -> A * munge) : CM A := fun s =>
  let '(a, w) := f (client_munge (cs_peer s)) in Ret (Some (a, set_peer (set_client_munge w (cs_peer s)) s)).

(** Did it succeed?  Without [AUTH] it never does. *)
Definition diod_auth (AUTH : bool) (fuel : nat) (afid : fid_ptr) : CM bool :=
  if negb AUTH then cret false
  else
    do ok <- coutside munge_ctx_create;
    if negb (ok : bool) then do _ <- cuerror ENOMEM; cret false
    else
      do r <- coutside munge_encode;
      let '(e, cred) := (r : Z * cstr) in
      if negb (e =? EMUNGE_SUCCESS) then do _ <- cuerror EPERM; cret false
      else
        do n <- npc_puts fuel afid cred;
        cret (bool_decide (is_Some n)).
End Client.
