(* ===== verification/DiodAuthSpec.v ===== *)
(** * What authentication promises (libdiod/diod_auth.c)

    Abstractly an afid holds the text that was written to it so far. *)
From S2P Require Import Prelude Cbuf Protocol Npstring Fidpool Rawbuf Client ClientOps DiodAuth.
From stdpp Require Import list gmap.
#[local] Open Scope Z_scope.
#[local] Open Scope auth_scope.

(** ** Calls *)

Inductive aop :=
| AStart (l : loc)
| AWrite (l : loc) (offset count : Z) (data : list Z)
| ARead (l : loc)
| ACheck (f l : loc)
| AClunk (l : loc).

Section Spec.
Context `{Munge} (AUTH : bool).

Definition aperform (o : aop) : AM Z :=
  match o with
  | AStart l => do q <- startauth AUTH (Some l) true; aret (if q is Some _ then 1 else 0)
  | AWrite l offset count data => writeafid (Some l) offset count (Some data)
  | ARead _ => readafid
  | ACheck f l => checkauth AUTH (Some f) (Some l)
  | AClunk l => clunkafid (Some l)
  end.

Fixpoint aperforms (ops : list aop) : AM (list Z) :=
  match ops with
  | [] => aret []
  | o :: ops => do r <- aperform o; do rs <- aperforms ops; aret (r :: rs)
  end.

(** The text written to each afid, [None] before the first write. *)
Record acreds := { ac_text : gmap loc (option cstr); ac_err : Z; ac_munge : munge }.

Definition failed (r e : Z) (a : acreds) : Z * acreds := (r, {| ac_text := ac_text a; ac_err := e; ac_munge := ac_munge a |}).
Definition in_world (w : munge) (a : acreds) : acreds := {| ac_text := ac_text a; ac_err := ac_err a; ac_munge := w |}.
Definition with_text (l : loc) (t : option cstr) (a : acreds) : acreds :=
  {| ac_text := <[l := t]> (ac_text a); ac_err := ac_err a; ac_munge := ac_munge a |}.

Definition spec_start (l : loc) (a : acreds) : Z * acreds :=
  match ac_text a !! l with
  | Some _ => failed 0 EIO a
  | None =>
      let '(ok, w) := munge_malloc (ac_munge a) in
      if negb ok then failed 0 ENOMEM (in_world w a)
      else
        let '(ok, w) := if AUTH then munge_ctx_create w else (true, w) in
        if negb ok then failed 0 ENOMEM (in_world w a) else (1, with_text l None (in_world w a))
  end.

(** Text is only added at the end, and what is behind a NUL is not part of it. *)
Definition spec_write (l : loc) (offset count : Z) (data : list Z) (a : acreds) : Z * acreds :=
  match ac_text a !! l with
  | None => failed (-1) EIO a
  | Some t =>
      if (count =? 0) || negb (offset =? zlength (default [] t)) then failed (-1) EIO a
      else
        let '(ok, w) := munge_malloc (ac_munge a) in
        if negb ok then failed (-1) ENOMEM (with_text l None (in_world w a))
        else (int32 count, with_text l (Some (default [] t ++ c_string (take (Z.to_nat count) data))) (in_world w a))
  end.

(** 1 only when MUNGE accepts the text, and says that the user of the afid made it. *)
Definition spec_check (uid : Z) (l : loc) (a : acreds) : Z * acreds :=
  match ac_text a !! l with
  | None => failed 0 EIO a
  | Some t =>
      match AUTH, t with
      | true, Some s =>
          let '((e, u, _), w) := munge_decode (ac_munge a) s in
          if (e =? EMUNGE_SUCCESS) && (uid =? u) then (1, in_world w a) else failed 0 EPERM (in_world w a)
      | _, _ => failed 0 EPERM a
      end
  end.

Definition spec_perform (uids : gmap loc Z) (o : aop) (a : acreds) : Z * acreds :=
  match o with
  | AStart l => spec_start l a
  | AWrite l offset count data => spec_write l offset count data a
  | ARead _ => failed (-1) EIO a
  | ACheck _ l => spec_check (default 0 (uids !! l)) l a
  | AClunk l => (1, {| ac_text := delete l (ac_text a); ac_err := ac_err a; ac_munge := ac_munge a |})
  end.

Fixpoint spec_performs (uids : gmap loc Z) (ops : list aop) (a : acreds) : list Z * acreds :=
  match ops with
  | [] => ([], a)
  | o :: ops => let '(r, a) := spec_perform uids o a in let '(rs, a) := spec_performs uids ops a in (r :: rs, a)
  end.

(** What the handlers guarantee of their calls: the data of a write is there, and the
    fid that is attached has the user of the afid. *)
Definition aop_ok (uids : gmap loc Z) (o : aop) : Prop :=
  match o with
  | AWrite _ offset count data => 0 <= offset < 2 ^ 63 /\ 0 <= count < 2 ^ 32 - 1 /\ count <= zlength data
  | ACheck f l => exists u, uids !! f = Some u /\ uids !! l = Some u
  | _ => True
  end.

(** ** Refinement *)

Definition text_of (t : option cstr) (da : da_t) : Prop :=
  match t with
  | None => datastr da = None
  | Some s => exists b, datastr da = Some b /\ holds_str b s
  end.

Record arep (a : acreds) (s : auth_state) : Prop := {
  ar_text : forall l, option_relation text_of (fun _ => False) (fun _ => False) (ac_text a !! l) (au_aux s !! l);
  ar_err : au_err s = ac_err a;
  ar_munge : au_munge s = ac_munge a;
}.

Implicit Types (a : acreds) (s : auth_state).

Definition astate s aux e w : auth_state := {| au_aux := aux; au_uid := au_uid s; au_err := e; au_munge := w |}.

(** The code went from [s] to the result and the texts of [p]. *)
Definition goes s (c : AM Z) (p : Z * acreds) : Prop := exists s', c s = Ret (p.1, s') /\ arep p.2 s' /\ au_uid s' = au_uid s.

Lemma arep_none a s l : arep a s -> ac_text a !! l = None -> au_aux s !! l = None.
Proof. intros Hr Hl. pose proof (ar_text _ _ Hr l) as Ht. rewrite Hl in Ht. by destruct (au_aux s !! l). Qed.

Lemma arep_some a s l t : arep a s -> ac_text a !! l = Some t -> exists da, au_aux s !! l = Some da /\ text_of t da.
Proof. intros Hr Hl. pose proof (ar_text _ _ Hr l) as Ht. rewrite Hl in Ht. destruct (au_aux s !! l) as [da|]; [by exists da|done]. Qed.

(** Only the error and the world change. *)
Lemma arep_same a s e w : arep a s -> arep {| ac_text := ac_text a; ac_err := e; ac_munge := w |} (astate s (au_aux s) e w).
Proof. intros [Ht _ _]. by split. Qed.

Lemma arep_put a s l t da e w : arep a s -> text_of t da ->
  arep {| ac_text := <[l := t]> (ac_text a); ac_err := e; ac_munge := w |} (astate s (partial_alter (fun _ => Some da) l (au_aux s)) e w).
Proof.
  intros [Ht _ _] Hda. split; try done. intros k. cbn. destruct (decide (k = l)) as [->|Hne].
  - by rewrite lookup_insert_eq, lookup_partial_alter_eq.
  - rewrite lookup_insert_ne, lookup_partial_alter_ne by done. apply Ht.
Qed.

Lemma arep_del a s l e w : arep a s ->
  arep {| ac_text := delete l (ac_text a); ac_err := e; ac_munge := w |} (astate s (partial_alter (fun _ => None) l (au_aux s)) e w).
Proof.
  intros [Ht _ _]. split; try done. intros k. cbn. destruct (decide (k = l)) as [->|Hne].
  - by rewrite lookup_delete_eq, lookup_partial_alter_eq.
  - rewrite lookup_delete_ne, lookup_partial_alter_ne by done. apply Ht.
Qed.

Lemma goes_to s c r a' s' : c s = Ret (r, s') -> arep a' s' -> au_uid s' = au_uid s -> goes s c (r, a').
Proof. intros Hc Hr Hu. by exists s'. Qed.

Lemma start_goes a s l : arep a s -> goes s (aperform (AStart l)) (spec_start l a).
Proof.
  intros Hr. pose proof (ar_err _ _ Hr) as He. pose proof (ar_munge _ _ Hr) as Hw. unfold spec_start.
  destruct (ac_text a !! l) as [t|] eqn:El.
  - destruct (arep_some _ _ _ _ Hr El) as (da & Hda & _). eapply goes_to; [|by apply arep_same|done].
    unfold aperform, startauth, abind, get_aux, auerror, aret. cbn. rewrite Hda. cbn. by rewrite Hw.
  - assert (Hn : delete l (ac_text a) = ac_text a) by (by rewrite delete_id).
    assert (Hfail : forall w, _da_create AUTH s = Ret (None, astate s (au_aux s) ENOMEM w) -> goes s (aperform (AStart l)) (failed 0 ENOMEM (in_world w a))).
    { intros w E. eapply goes_to; [|rewrite <- Hn at 1; by apply (arep_del a s l)|done].
      unfold aperform, startauth, abind, get_aux. cbn. rewrite (arep_none _ _ _ Hr El). cbn. by rewrite E. }
    unfold _da_create, abind, outside, auerror, aret in Hfail. rewrite Hw in Hfail. cbn in Hfail.
    destruct (munge_malloc (ac_munge a)) as [[] w] eqn:Em; cbn in *; [|by apply Hfail].
    destruct (if AUTH then munge_ctx_create w else (true, w)) as [[] w2] eqn:Ec; cbn.
    + eapply goes_to; [|apply (arep_put a s l None {| datastr := None; mungerr := None; mungeuid := u32 (-1); mungegid := u32 (-1) |} _ w2 Hr eq_refl)|done].
      unfold aperform, startauth, _da_create, abind, get_aux, outside, auerror, aret, put_aux. cbn. rewrite (arep_none _ _ _ Hr El). cbn. rewrite Hw, Em. cbn.
      destruct AUTH; cbn in *; [rewrite Ec|injection Ec as <-]; cbn; by rewrite <- He.
    + apply Hfail. destruct AUTH; cbn in *; [by rewrite Ec|done].
Qed.

(** The buffer a write goes to: new, or the old one with more room. *)
Lemma room_malloc count : 0 <= count < 2 ^ 32 - 1 -> take (length (@nil Z)) (malloc_buf (u32 (count + 1))) = Some <$> [] /\
  zlength (malloc_buf (u32 (count + 1))) = zlength (@nil Z) + count + 1.
Proof. intros Hc. rewrite u32_small by lia. split; [done|]. unfold malloc_buf, zlength. rewrite length_replicate. cbn. lia. Qed.

Lemma room_realloc b t count : holds_str b t -> 0 <= count < 2 ^ 32 - 1 -> zlength t < 2 ^ 63 ->
  let b' := realloc_buf b (u64 (zlength t + count + 1)) in take (length t) b' = Some <$> t /\ zlength b' = zlength t + count + 1.
Proof.
  intros [_ [rest ->]] Hc Ht. cbn zeta. rewrite u64_small by (unfold zlength in *; lia). unfold realloc_buf, zlength in *. split.
  - rewrite take_app_le by (rewrite length_take, length_app, length_fmap; lia). rewrite take_take, Nat.min_l by lia.
    by rewrite take_app_length' by (by rewrite length_fmap).
  - rewrite length_app, length_take, length_replicate. lia.
Qed.

Lemma write_goes a s l offset count data : arep a s -> 0 <= offset < 2 ^ 63 -> 0 <= count < 2 ^ 32 - 1 -> count <= zlength data ->
  goes s (writeafid (Some l) offset count (Some data)) (spec_write l offset count data a).
Proof.
  intros Hr Ho Hc Hd. pose proof (ar_err _ _ Hr) as He. pose proof (ar_munge _ _ Hr) as Hw. unfold spec_write.
  destruct (ac_text a !! l) as [t|] eqn:El.
  2:{ eapply goes_to; [|by apply arep_same|done]. unfold writeafid, abind, get_aux, auerror, aret. cbn.
      rewrite (arep_none _ _ _ Hr El). cbn. by rewrite Hw. }
  destruct (arep_some _ _ _ _ Hr El) as (da & Hda & Ht).
  destruct (count =? 0) eqn:E0; cbn [orb].
  { eapply goes_to; [|by apply arep_same|done]. unfold writeafid, abind, get_aux, auerror, aret. cbn. rewrite Hda, E0. cbn. by rewrite Hw. }
  assert (Hbuf : exists fit : bool -> option (list (option Z)), forall k : option (option (list (option Z))) -> AM Z,
    (abind match datastr da with
      | None => if offset =? 0 then do ok <- outside munge_malloc; aret (Some (if (ok : bool) then Some (malloc_buf (u32 (count + 1))) else None)) else aret None
      | Some b => do t0 <- alift (buf_str b);
          if offset =? zlength t0 then do ok <- outside munge_malloc; aret (Some (if (ok : bool) then Some (realloc_buf b (u64 (offset + count + 1))) else None)) else aret None
      end k) s =
    (if offset =? zlength (default [] t) then (do ok <- outside munge_malloc; k (Some (fit ok))) else k None) s /\
    fit false = None /\ (offset = zlength (default [] t) -> exists b, fit true = Some b /\ no_nul (default [] t) /\
      take (length (default [] t)) b = Some <$> default [] t /\ zlength b = zlength (default [] t) + count + 1)).
  { destruct t as [t|]; cbn [default text_of] in *.
    - destruct Ht as (b & -> & Hb). exists (fun ok : bool => if ok then Some (realloc_buf b (u64 (offset + count + 1))) else None). intros k.
      unfold abind, alift, outside, aret. rewrite (buf_str_holds _ _ Hb). cbn [res_bind]. split; [|split; [done|]].
      + unfold id. destruct (offset =? zlength t); [by destruct (munge_malloc (au_munge s))|done].
      + unfold id. intros ->. eexists. split; [done|]. split; [apply Hb|]. apply room_realloc; [done|done|lia].
    - rewrite Ht. exists (fun ok : bool => if ok then Some (malloc_buf (u32 (count + 1))) else None). intros k. unfold abind, outside, aret.
      split; [|split; [done|]].
      + change (zlength (@nil Z)) with 0. destruct (offset =? 0); [by destruct (munge_malloc (au_munge s))|done].
      + intros _. eexists. split; [done|]. split; [constructor|]. by apply room_malloc. }
  destruct Hbuf as [fit Hbuf]. unfold goes, writeafid. unfold abind at 1, get_aux at 1. cbn [res_bind]. rewrite Hda, E0.
  match goal with |- exists s', abind _ ?k s = _ /\ _ => destruct (Hbuf k) as (-> & Hno & Hyes) end. clear Hbuf.
  destruct (Z.eqb_spec offset (zlength (default [] t))) as [Eo|Eo]; cbn [negb].
  2:{ eexists. split; [reflexivity|]. split; [|done]. cbn [snd failed]. rewrite <- Hw. by apply arep_same. }
  unfold abind at 1, outside. rewrite Hw. destruct (munge_malloc (ac_munge a)) as [[] w]; cbn [res_bind negb].
  - destruct (Hyes Eo) as (b & -> & Hn & Hb1 & Hb2). destruct (written_buf (default [] t) data count b Hn) as (b2 & E2 & Hh); [lia|done|done|].
    rewrite <- Eo in E2. unfold abind at 1, alift. destruct (memcpy_buf b offset data count) as [b1| |]; cbn [res_bind] in *; [|done..].
    unfold abind at 1. cbn [res_bind]. rewrite E2. cbn [res_bind]. unfold abind, put_aux, aret. cbn [res_bind].
    eexists. split; [reflexivity|]. split; [|done]. unfold with_text, in_world. cbn [snd ac_text ac_err ac_munge au_aux au_uid au_err au_munge].
    rewrite He. apply (arep_put a s); [done|]. by exists b2.
  - rewrite Hno. unfold abind, put_aux, auerror, aret. cbn [res_bind].
    eexists. split; [reflexivity|]. split; [|done]. by apply (arep_put a s).
Qed.

Lemma check_goes a s f l u : arep a s -> au_uid s !! f = Some u -> au_uid s !! l = Some u ->
  goes s (checkauth AUTH (Some f) (Some l)) (spec_check u l a).
Proof.
  intros Hr Hf Hl. pose proof (ar_err _ _ Hr) as He. pose proof (ar_munge _ _ Hr) as Hw. unfold spec_check, goes, checkauth.
  unfold abind at 1, get_aux at 1. cbn [res_bind]. destruct (ac_text a !! l) as [t|] eqn:El.
  2:{ rewrite (arep_none _ _ _ Hr El). eexists. split; [reflexivity|]. split; [|done]. cbn [snd failed]. rewrite <- Hw. by apply arep_same. }
  destruct (arep_some _ _ _ _ Hr El) as (da & Hda & Ht). rewrite Hda. unfold abind at 1, fid_uid at 1. rewrite Hf. cbn [res_bind].
  destruct AUTH; [|eexists; split; [reflexivity|]; split; [|done]; cbn [snd failed]; rewrite <- Hw; by apply arep_same].
  destruct t as [t|]; cbn [text_of] in Ht.
  2:{ rewrite Ht. eexists. split; [reflexivity|]. split; [|done]. cbn [snd failed]. rewrite <- Hw. by apply arep_same. }
  destruct Ht as (b & Hb & Hh). rewrite Hb. unfold abind at 1, alift at 1. rewrite (buf_str_holds _ _ Hh). cbn [res_bind].
  unfold abind at 1, outside. rewrite Hw. destruct (munge_decode (ac_munge a) t) as [[[e v] g] w]. cbn [res_bind].
  unfold abind at 1, put_aux. cbn [res_bind]. assert (Hput : forall e', arep {| ac_text := ac_text a; ac_err := e'; ac_munge := w |}
    (astate s (partial_alter (fun _ => Some (set_munge e v g da)) l (au_aux s)) e' w)).
  { intros e'. rewrite <- (insert_id (ac_text a) l (Some t)) by done. apply (arep_put a s); [done|]. by exists b. }
  destruct (e =? EMUNGE_SUCCESS); cbn [negb andb].
  - unfold abind at 1, fid_uid. cbn [au_uid]. rewrite Hl. cbn [res_bind]. unfold abind at 1, alift, np_assert. rewrite Z.eqb_refl. cbn [res_bind].
    destruct (u =? v); cbn [negb]; eexists; (split; [reflexivity|]); (split; [|done]); [rewrite He|]; apply Hput.
  - eexists. split; [reflexivity|]. split; [|done]. apply Hput.
Qed.

Lemma aperform_goes a s o : arep a s -> aop_ok (au_uid s) o -> goes s (aperform o) (spec_perform (au_uid s) o a).
Proof.
  intros Hr Ho. pose proof (ar_err _ _ Hr) as He. pose proof (ar_munge _ _ Hr) as Hw. destruct o; cbn [spec_perform aop_ok] in *.
  - by apply start_goes.
  - apply write_goes; tauto.
  - eapply goes_to; [|by apply arep_same|done]. cbn. by rewrite Hw.
  - destruct Ho as (u & Hf & Hl). rewrite Hl. by apply check_goes.
  - eapply goes_to; [|by apply arep_del|done]. cbn. unfold astate. by rewrite <- He, <- Hw.
Qed.

Lemma aperforms_goes : forall ops a s, arep a s -> Forall (aop_ok (au_uid s)) ops ->
  exists s', aperforms ops s = Ret ((spec_performs (au_uid s) ops a).1, s') /\ arep (spec_performs (au_uid s) ops a).2 s' /\ au_uid s' = au_uid s.
Proof.
  induction ops as [|o ops IH]; intros a s Hr Hok; [by exists s|]. apply Forall_cons in Hok as [Ho Hok].
  destruct (aperform_goes a s o Hr Ho) as (s1 & E1 & Hr1 & Hu1). cbn [spec_performs aperforms].
  destruct (spec_perform (au_uid s) o a) as [r a1]. cbn [fst snd] in *. rewrite <- Hu1 in Hok.
  destruct (IH a1 s1 Hr1 Hok) as (s2 & E2 & Hr2 & Hu2). rewrite Hu1 in *. destruct (spec_performs (au_uid s) ops a1) as [rs a2]. cbn [fst snd] in *.
  exists s2. split; [|split; [done|congruence]]. unfold abind. rewrite E1. cbn [res_bind]. by rewrite E2.
Qed.
End Spec.
