(* ===== verification/DiodAuthProps.v ===== *)
(** * Authentication, from the client to the attach (libdiod/diod_auth.c)

    A check succeeds only for the user that MUNGE says made the text that was written to
    the afid; the client writes its credential so that the server has it in full; and
    what goes wrong with a write whose count is larger than the message. *)
From S2P Require Import Prelude Cbuf Protocol Npstring Wire Fcall Fidpool Hash Ioctx Ops Client ClientOps ClientPool.
From S2P Require Import ClientInv ClientRules ClientRun ClientFile Rawbuf DiodAuth DiodAuthSpec.
From stdpp Require Import list gmap.
#[local] Open Scope Z_scope.

Section Check.
Context `{Munge} (AUTH : bool).

Definition auth_init (uids : gmap loc Z) (w : munge) : auth_state := {| au_aux := ∅; au_uid := uids; au_err := 0; au_munge := w |}.
Definition acreds_init (w : munge) : acreds := {| ac_text := ∅; ac_err := 0; ac_munge := w |}.

Lemma init_arep uids w : arep (acreds_init w) (auth_init uids w).
Proof. by split. Qed.

Lemma spec_check_one uid l a : (spec_check AUTH uid l a).1 = 1 <-> AUTH = true /\ exists text g w', ac_text a !! l = Some (Some text) /\
  munge_decode (ac_munge a) text = ((EMUNGE_SUCCESS, uid, g), w').
Proof.
  unfold spec_check. destruct (ac_text a !! l) as [[t|]|] eqn:El; destruct AUTH; cbn; try (split; [done|]; intros (? & ? & ? & ? & ? & ?); congruence).
  destruct (munge_decode (ac_munge a) t) as [[[e u] g] w] eqn:Ed. split.
  - destruct (Z.eqb_spec e EMUNGE_SUCCESS), (Z.eqb_spec uid u); cbn; try done. intros _. subst. split; [done|]. by exists t, g, w.
  - intros (_ & t' & g' & w' & [= <-] & Hd). rewrite Ed in Hd. injection Hd as -> -> -> ->. by rewrite !Z.eqb_refl.
Qed.

Lemma spec_check_zero uid l a : (spec_check AUTH uid l a).1 = 1 \/ (spec_check AUTH uid l a).1 = 0 /\ ac_err (spec_check AUTH uid l a).2 ∈ [EPERM; EIO].
Proof.
  unfold spec_check. destruct (ac_text a !! l) as [[t|]|]; destruct AUTH; cbn; try (right; split; [done|set_solver]).
  destruct (munge_decode (ac_munge a) t) as [[[e u] g] w]. destruct ((e =? EMUNGE_SUCCESS) && (uid =? u)); cbn; [by left|right; split; [done|set_solver]].
Qed.
End Check.

(** C34: Take any calls of the authentication functions for any number of afids that meet
    [aop_ok]: a write has as many bytes of data as its count says, a count below 2^32 - 1
    and an offset below 2^63 (the server does not enforce it: a Twrite with a count of
    2^31 or more and no data gets through to [writeafid]), and an attach is by the user of
    its afid.  None uses memory
    that it must not or fails an assertion, and each answers as on the texts that were
    written to the afids.  A check then succeeds if and only if MUNGE accepts the text of
    the afid as made by the user of the afid, and fails with EPERM or EIO otherwise. *)
Theorem auth_by_credential `{Munge} (AUTH : bool) (uids : gmap loc Z) (w : munge) (ops : list aop) (f l : loc) :
  Forall (aop_ok uids) (ops ++ [ACheck f l]) ->
  let a := (spec_performs AUTH uids ops (acreds_init w)).2 in
  exists s r s', aperforms AUTH ops (auth_init uids w) = Ret ((spec_performs AUTH uids ops (acreds_init w)).1, s) /\
    aperform AUTH (ACheck f l) s = Ret (r, s') /\
    (r = 1 <-> AUTH = true /\ exists text u g w', ac_text a !! l = Some (Some text) /\ uids !! l = Some u /\
       munge_decode (ac_munge a) text = ((EMUNGE_SUCCESS, u, g), w')) /\
    (r <> 1 -> r = 0 /\ au_err s' ∈ [EPERM; EIO]).
Proof.
  intros Hok. cbn zeta. apply Forall_app in Hok as [Hok (u & Hf & Hl)%Forall_singleton].
  destruct (aperforms_goes AUTH ops (acreds_init w) (auth_init uids w) (init_arep uids w) Hok) as (s & Hs & Hr & Hu). cbn [au_uid auth_init] in *.
  set (a := (spec_performs AUTH uids ops (acreds_init w)).2) in *.
  destruct (check_goes AUTH a s f l u Hr) as (s' & Hs' & Hr' & _); [by rewrite Hu..|].
  exists s, (spec_check AUTH u l a).1, s'. split; [done|]. split; [done|]. split.
  - rewrite spec_check_one. split; intros (Ha & H1); (split; [done|]).
    + destruct H1 as (t & g & w' & ? & ?). by exists t, u, g, w'. + destruct H1 as (t & u' & g & w' & ? & E & ?). rewrite Hl in E. injection E as <-. by exists t, g, w'.
  - intros Hne. destruct (spec_check_zero AUTH u l a) as [|[H0 He]]; [done|]. split; [done|]. by rewrite (ar_err _ _ Hr').
Qed.

(** ** The handshake *)

Section Handshake.
Context `{HM : Munge}.

(** A server with one afid of the client: what [np_write] does with a Twrite to it.
    The client has its own MUNGE. *)
Record auth_server := {
  as_auth : auth_state;
  as_afid : Z;
  as_loc : loc;
  as_client : munge;
}.

Definition set_as_auth a w := {| as_auth := a; as_afid := as_afid w; as_loc := as_loc w; as_client := as_client w |}.
Definition set_as_client c w := {| as_auth := as_auth w; as_afid := as_afid w; as_loc := as_loc w; as_client := c |}.

Definition auth_reply (w : auth_server) (tag : Z) (c : np_call) : arrival * auth_server :=
  match c with
  | C_twrite n offset data =>
      if n =? as_afid w then
        match writeafid (Some (as_loc w)) offset (zlength data) (Some data) (as_auth w) with
        | Ret (r, a) => (A_msg tag (M (if 0 <=? r then C_rwrite r else C_rlerror (au_err a))), set_as_auth a w)
        | _ => (A_eof, w)
        end
      else (A_msg tag (M (C_rlerror EIO)), w)
  | C_tversion n v => (A_msg tag (M (C_rversion n (Some v))), w)
  | _ => (A_msg tag (M (C_rlerror ENOSYS)), w)
  end.

#[local] Instance auth_peer : Peer := {| peer := auth_server; exchange := auth_reply; alloc w := (true, w) |}.

Lemma auth_memory : memory_enough.
Proof. by intros w. Qed.

(** The server has the text, and gets memory whenever it asks for it. *)
Definition has_text (w : auth_server) (t : option cstr) : Prop := exists a, arep a (as_auth w) /\ ac_text a !! as_loc w = Some t.
Definition server_memory : Prop := forall w, (munge_malloc w).1 = true.
Definition same_server (w w' : auth_server) : Prop :=
  as_afid w' = as_afid w /\ as_loc w' = as_loc w /\ as_client w' = as_client w /\ au_uid (as_auth w') = au_uid (as_auth w).

Lemma auth_write_reply w tag t data : server_memory -> has_text w t -> data <> [] -> zlength data < 2 ^ 31 -> zlength (default [] t) < 2 ^ 63 ->
  exists w', auth_reply w tag (C_twrite (as_afid w) (zlength (default [] t)) data) = (A_msg tag (M (C_rwrite (zlength data))), w') /\
    has_text w' (Some (default [] t ++ c_string data)) /\ same_server w w'.
Proof.
  intros Hmem (a & Hr & Ht) Hne Hd Hl. cbn [auth_reply]. rewrite Z.eqb_refl.
  assert (Hpos : 0 < zlength data) by (destruct data; [done|unfold zlength; cbn; lia]).
  destruct (write_goes a (as_auth w) (as_loc w) (zlength (default [] t)) (zlength data) data Hr) as (s' & Hs & Hr' & Hu); [unfold zlength in *; lia..|].
  specialize (Hmem (ac_munge a)). destruct (munge_malloc (ac_munge a)) as [ok wm] eqn:Em. cbn in Hmem. subst ok.
  assert (Esp : spec_write (as_loc w) (zlength (default [] t)) (zlength data) data a = (zlength data,
    with_text (as_loc w) (Some (default [] t ++ c_string (take (Z.to_nat (zlength data)) data))) (in_world wm a))).
  { unfold spec_write, cstr in *. rewrite Ht, (proj2 (Z.eqb_neq (zlength data) 0)), Z.eqb_refl, Em by lia. cbn. by rewrite int32_small by lia. }
  rewrite Hs. rewrite Esp in Hr' |- *. cbn [fst snd] in *. rewrite (proj2 (Z.leb_le 0 (zlength data))) by lia. eexists. split; [done|]. split; [|done].
  eexists. split; [exact Hr'|]. cbn. rewrite lookup_insert_eq. do 3 f_equal. unfold zlength. rewrite Nat2Z.id. by rewrite take_ge.
Qed.

Implicit Types s : cstate.

Lemma auth_write_run b s f x t data : server_memory -> ready b s -> limits s -> cs_fids s !! f = Some x -> cf_fid x = as_afid (cs_peer s) ->
  cf_offset x = zlength (default [] t) -> has_text (cs_peer s) t -> no_nul data -> data <> [] -> zlength (default [] t) + zlength data < 2 ^ 63 ->
  exists k s' w' cs, npc_write f data s = Ret (Some (Some k, s')) /\ 0 < k <= zlength data /\
    went b s (<[f := set_cf_offset (cf_offset x + k) x]> (cs_fids s)) w' cs s' /\ same_server (cs_peer s) w' /\
    has_text w' (Some (default [] t ++ take (Z.to_nat k) data)).
Proof.
  intros Hmem Hr (m & fl & Hm & Hb & _ & _) Hx Hfid Hoff Ht Hnn Hne Hbig. pose proof Hr as [_ [fs Ef]].
  rewrite Ef in Hm. injection Hm as <-. pose proof (maxio_pos _ Hb) as Hmax. fold (maxio fs) in Hmax.
  assert (Hpos : 0 < zlength data) by (destruct data; [done|unfold zlength; cbn; lia]).
  set (n := if u32 (maxio fs) <? zlength data then u32 (maxio fs) else zlength data).
  assert (Hn : 0 < n <= zlength data /\ n < 2 ^ 31) by (unfold n; destruct (Z.ltb_spec (u32 (maxio fs)) (zlength data)); lia).
  assert (Hlen : zlength (take (Z.to_nat n) data) = n) by (unfold zlength in *; rewrite length_take; lia).
  assert (Hz : 0 <= zlength (default [] t)) by (unfold zlength; lia).
  destruct (auth_write_reply (cs_peer s) 0 t (take (Z.to_nat n) data) Hmem Ht) as (w1 & Hex & Ht1 & Hs1); [|lia..|].
  { intros E. rewrite E in Hlen. unfold zlength in Hlen. cbn in Hlen. lia. }
  rewrite Hlen, <- Hoff, <- Hfid in Hex.
  assert (Hcs : c_string (take (Z.to_nat n) data) = take (Z.to_nat n) data).
  { assert (Hnt : no_nul (take (Z.to_nat n) data)) by (by apply Forall_take). clear -Hnt. induction Hnt as [|c l Hc _ IH]; [done|]. cbn. rewrite (proj2 (Z.eqb_neq _ _) Hc). by rewrite IH. }
  rewrite Hcs in Ht1. destruct (request_run auth_memory b s _ _ _ Hr Hex eq_refl eq_refl) as (s1 & E1 & Hw1). pose proof Hw1 as (Hr1 & F1 & P1 & _).
  rewrite <- F1 in Hx. destruct (upd_cfid_run b s1 f x (fun x => set_cf_offset (u64 (cf_offset x + n)) x) Hr1 Hx) as (s2 & E2 & Hw2 & _); [done|].
  rewrite F1, P1 in Hw2. cbn beta in Hw2. rewrite u64_small in Hw2 by lia. rewrite F1 in Hx.
  exists n, s2, w1, [C_twrite (cf_fid x) (cf_offset x) (take (Z.to_nat n) data)]. split_and!; try done; try lia.
  2: { exact (went_trans _ _ _ _ _ _ _ _ _ _ Hw1 Hw2). }
  unfold npc_write, npc_pwrite. rewrite (cbind_run _ _ _ _ _ (load_cfid_run _ _ _ Hx)). unfold cbind at 1.
  rewrite (cbind_run _ _ _ _ _ (load_fs_run _ _ Ef)), (cbind_run _ _ _ _ _ (load_cfid_run _ _ _ Hx)). cbv zeta. fold n.
  rewrite (cbind_run _ _ _ _ _ E1). cbn -[upd_cfid int32 Z.ltb u64]. rewrite int32_small by lia.
  rewrite (proj2 (Z.ltb_lt 0 n)), (cbind_run _ _ _ _ _ E2) by lia. rewrite (proj2 (Z.ltb_ge n 0)) by lia. done.
Qed.

Lemma same_server_trans w w1 w2 : same_server w w1 -> same_server w1 w2 -> same_server w w2.
Proof. unfold same_server. naive_solver congruence. Qed.

(** What was written is the text, once there is any. *)
Definition written_so_far (done : Z) (cred : cstr) : option cstr := if done =? 0 then None else Some (take (Z.to_nat done) cred).

Lemma puts_loop_run b cred : server_memory -> no_nul cred -> zlength cred < 2 ^ 31 -> forall fuel s f x done, ready b s -> limits s ->
  0 <= done <= zlength cred -> cs_fids s !! f = Some x -> cf_fid x = as_afid (cs_peer s) -> cf_offset x = done ->
  has_text (cs_peer s) (written_so_far done cred) -> (length cred - Z.to_nat done < fuel)%nat ->
  exists s' w' cs x', write_loop fuel f cred done s = Ret (Some (Some (zlength cred), s')) /\
    went b s (<[f := x']> (cs_fids s)) w' cs s' /\ same_server (cs_peer s) w' /\ has_text w' (written_so_far (zlength cred) cred).
Proof.
  intros Hmem Hnn Hlen. induction fuel as [|fuel IH]; [lia|]. intros s f x done Hr Hlim Hdone Hx Hfid Hoff Ht Hfuel. cbn [write_loop].
  destruct (Z.ltb_spec done (zlength cred)) as [Hlt|Hge]; cbn [negb].
  2: { assert (done = zlength cred) as -> by lia. exists s, (cs_peer s), [], x. rewrite insert_id by done. split_and!; [done|by apply went_refl|done|done]. }
  assert (Hdef : default [] (written_so_far done cred) = take (Z.to_nat done) cred).
  { unfold written_so_far. by destruct (Z.eqb_spec done 0) as [->|]. }
  assert (Hz : zlength (take (Z.to_nat done) cred) = done) by (unfold zlength in *; rewrite length_take; lia).
  assert (Hzd : zlength (drop (Z.to_nat done) cred) = zlength cred - done) by (unfold zlength in *; rewrite length_drop; lia).
  destruct (auth_write_run b s f x (written_so_far done cred) (drop (Z.to_nat done) cred) Hmem Hr Hlim Hx Hfid) as (k & s1 & w1 & cs1 & E1 & Hk & Hw1 & Hs1 & Ht1).
  { by rewrite Hdef, Hz. } { done. } { by apply Forall_drop. } { intros E. apply (f_equal length) in E. rewrite length_drop in E. unfold zlength in *. cbn in E. lia. } { rewrite Hdef, Hz, Hzd. lia. }
  rewrite u32_small, take_ge by (unfold zlength in *; rewrite ?length_drop; lia). rewrite Hzd in Hk.
  rewrite (cbind_run _ _ _ _ _ E1), (cbind_run _ _ _ _ _ (int_sum_at done k s1 ltac:(lia))). pose proof Hw1 as (Hr1 & F1 & P1 & _).
  rewrite Hdef, take_take_drop, <- Z2Nat.inj_add in Ht1 by lia.
  destruct (IH s1 f (set_cf_offset (cf_offset x + k) x) (done + k)) as (s2 & w2 & cs2 & x2 & E2 & Hw2 & Hs2 & Ht2).
  - done. - by eapply limits_went. - lia. - rewrite F1. apply lookup_insert_eq. - rewrite P1. cbn. destruct Hs1 as [-> _]. done.
  - cbn. lia. - rewrite P1. unfold written_so_far. by rewrite (proj2 (Z.eqb_neq (done + k) 0)) by lia. - unfold zlength in *. lia.
  - exists s2, w2, (cs1 ++ cs2), x2. split; [done|]. rewrite F1, insert_insert_eq in Hw2.
    split; [exact (went_trans _ _ _ _ _ _ _ _ _ _ Hw1 Hw2)|]. rewrite P1 in Hs2. split; [by eapply same_server_trans|done].
Qed.

Definition auth_client (AUTH : bool) (fuel : nat) (f : fid_ptr) : CM bool := diod_auth as_client set_as_client AUTH fuel f.

Lemma ready_peer b s w : ready b s -> ready b (set_peer w s).
Proof. done. Qed.

Lemma coutside_run {A} (g : munge -> A * munge) s r w : g (as_client (cs_peer s)) = (r, w) ->
  coutside as_client set_as_client g s = Ret (Some (r, set_peer (set_as_client w (cs_peer s)) s)).
Proof. intros E. unfold coutside. by rewrite E. Qed.

(** C35: The client's [diod_auth] on a fresh afid: when MUNGE gives it a credential, it
    returns success, and the server then has the whole credential, however many writes it
    took: the check of an attach by the user of the afid succeeds if and only if the
    server's MUNGE accepts that credential as made by this user. *)
Theorem diod_auth_handshake b s f x cred w1 w2 fuel : server_memory -> ready b s -> limits s -> cs_fids s !! f = Some x ->
  cf_fid x = as_afid (cs_peer s) -> cf_offset x = 0 -> has_text (cs_peer s) None ->
  munge_ctx_create (as_client (cs_peer s)) = (true, w1) -> munge_encode w1 = ((EMUNGE_SUCCESS, cred), w2) ->
  no_nul cred -> cred <> [] -> zlength cred < 2 ^ 31 -> (length cred < fuel)%nat ->
  exists s', auth_client true fuel f s = Ret (Some (true, s')) /\ ready b s' /\ cs_err s' = cs_err s /\
    forall g u, au_uid (as_auth (cs_peer s)) !! g = Some u -> au_uid (as_auth (cs_peer s)) !! as_loc (cs_peer s) = Some u ->
    exists r a', checkauth true (Some g) (Some (as_loc (cs_peer s))) (as_auth (cs_peer s')) = Ret (r, a') /\
      (r = 1 <-> exists gid w', munge_decode (au_munge (as_auth (cs_peer s'))) cred = ((EMUNGE_SUCCESS, u, gid), w')).
Proof.
  intros Hmem Hr Hlim Hx Hfid Hoff Ht Hctx Henc Hnn Hne Hlen Hfuel.
  set (s1 := @set_peer auth_peer (set_as_client w1 (cs_peer s)) s). set (s2 := @set_peer auth_peer (set_as_client w2 (cs_peer s1)) s1).
  assert (Hpos : 0 < zlength cred) by (destruct cred; [done|unfold zlength; cbn; lia]).
  destruct (puts_loop_run b cred Hmem Hnn ltac:(lia) fuel s2 f x 0) as (s3 & w3 & cs & x' & E & Hw & (_ & Hloc & _ & Huid) & Ht3); try done; try lia.
  destruct Hw as (Hr3 & _ & P3 & He3 & _). exists s3. split; [|split; [done|split; [exact He3|]]].
  - unfold auth_client, diod_auth. cbn [negb]. rewrite (cbind_run _ _ _ _ _ (coutside_run munge_ctx_create s true w1 Hctx)). cbn [negb].
    rewrite (cbind_run _ _ _ _ _ (coutside_run munge_encode s1 (EMUNGE_SUCCESS, cred) w2 Henc)). fold s2.
    change (negb (EMUNGE_SUCCESS =? EMUNGE_SUCCESS)) with false. cbn iota. unfold npc_puts.
    rewrite int32_small, take_ge by (unfold zlength in *; lia). rewrite (cbind_run _ _ _ _ _ E). done.
  - intros g u Hg Hl. destruct Ht3 as (a & Ha & Hta). rewrite P3. unfold s2 in Hloc, Huid. cbn in Hloc, Huid. rewrite Hloc in Hta.
    destruct (check_goes true a (as_auth w3) g (as_loc (cs_peer s)) u Ha) as (a' & Ea & _); [by rewrite Huid..|]. eexists _, a'. split; [exact Ea|].
    rewrite spec_check_one, (ar_munge _ _ Ha), Hta. unfold written_so_far. rewrite (proj2 (Z.eqb_neq (zlength cred) 0)) by lia.
    unfold zlength. rewrite Nat2Z.id, take_ge by done. split; [intros (_ & t & gid & w' & [= <-] & Hd); by exists gid, w'|intros (gid & w' & Hd); split; [done|]; by exists cred, gid, w'].
Qed.
End Handshake.

(** ** A MUNGE that knows one credential *)

Module AuthSample.
Definition toy_cred : cstr := [77; 85; 78; 71; 69; 58].
#[local] Instance toy : Munge := {|
  munge := unit;
  munge_malloc _ := (true, tt);
  munge_ctx_create _ := (true, tt);
  munge_encode _ := ((EMUNGE_SUCCESS, toy_cred), tt);
  munge_decode _ t := (if bool_decide (t = toy_cred) then (EMUNGE_SUCCESS, 1000, 100) else (7, u32 (-1), u32 (-1)), tt);
|}.

Definition toy_uids : gmap loc Z := {[1%positive := 1000; 2%positive := 1000]}.
Definition toy_ops : list aop := [AStart 2%positive; AWrite 2%positive 0 4 (take 4 toy_cred); AWrite 2%positive 0 1 [0]; AWrite 2%positive 4 2 (drop 4 toy_cred)].

Lemma auth_by_credential_witness : Forall (aop_ok toy_uids) (toy_ops ++ [ACheck 1%positive 2%positive]) /\
  exists s s', aperforms true toy_ops (auth_init toy_uids tt) = Ret ([1; 4; -1; 2], s) /\ aperform true (ACheck 1%positive 2%positive) s = Ret (1, s').
Proof.
  assert (Hok : Forall (aop_ok toy_uids) (toy_ops ++ [ACheck 1%positive 2%positive])) by (repeat constructor; try (vm_compute; congruence); by exists 1000).
  split; [exact Hok|]. destruct (@auth_by_credential toy true toy_uids tt toy_ops 1%positive 2%positive Hok) as (s & r & s' & E & E' & [_ H1] & _). exists s, s'. split; [exact E|].
  rewrite E', H1; [done|]. split; [done|]. exists toy_cred, 1000, 100, tt. vm_compute. done.
Defined.

(** The client with one afid, number 0, after [npc_start] and [npc_fid_alloc]. *)
#[local] Existing Instance auth_peer.
Definition toy_server : auth_server := {|
  as_auth := {| au_aux := {[2%positive := {| datastr := None; mungerr := None; mungeuid := u32 (-1); mungegid := u32 (-1) |}]};
                au_uid := toy_uids; au_err := 0; au_munge := tt |};
  as_afid := 0; as_loc := 2%positive; as_client := tt |}.

Definition toy_pool : Npcpool := match npc_get_id true (npc_create_pool NOFID) with Some (_, p) => p | None => npc_create_pool NOFID end.
Definition toy_fid : Npcfid := new_fid 0.
Definition toy_client : cstate := {|
  cs_fs := Some {| fs_flags := 0; fs_msize := 26; fs_refcount := 2; fs_tagpool := npc_create_pool NOTAG; fs_fidpool := toy_pool |};
  cs_fids := {[1%positive := toy_fid]}; cs_msgs := ∅; cs_next := 2%positive; cs_err := 0; cs_peer := toy_server; cs_sent := [] |}.

Lemma toy_ready : ready true toy_client.
Proof.
  assert (Hp : pool_set toy_pool {[0]} /\ maxid toy_pool = NOFID).
  { unfold toy_pool. pose proof (npc_get_id_spec true _ _ (npc_create_pool_set NOFID ltac:(vm_compute; done))) as Hs.
    destruct (npc_get_id true (npc_create_pool NOFID)) as [[id p]|] eqn:E; [|by vm_compute in E].
    destruct Hs as (_ & _ & Hs & Hm). assert (id = 0) as -> by (vm_compute in E; congruence). split; [|done]. by rewrite union_empty_r_L in Hs. }
  split; [|by eexists]. split; [|split; [done|split; [|by apply map_Forall_empty]]].
  - cbn [cs_fs toy_client]. split; [done|]. split; [done|]. split; [apply npc_create_pool_set; vm_compute; done|]. split; [done|]. split; [apply Hp|].
    exists {[0]}. split; [apply Hp|]. split.
    + intros id. rewrite elem_of_singleton. split; [intros ->; by exists 1%positive, toy_fid|]. intros (f & x & Hf & Hid).
      cbn [cs_fids toy_client] in Hf. apply lookup_singleton_Some in Hf as [<- <-]. by rewrite <- Hid.
    + intros f g x y Hf Hg _. cbn [cs_fids toy_client] in Hf, Hg. apply lookup_singleton_Some in Hf as [<- _], Hg as [<- _]. done.
  - apply map_Forall_singleton. done.
Qed.

Lemma toy_text : has_text (cs_peer toy_client) None.
Proof.
  exists (@Build_acreds toy {[2%positive := None]} 0 tt). split; [|done]. split; try done. intros l. cbn.
  destruct (decide (l = 2%positive)) as [->|Hne]; [by vm_compute|]. by rewrite !lookup_singleton_ne.
Qed.

Lemma diod_auth_handshake_witness : ready true toy_client /\ exists s', auth_client true 10 1 toy_client = Ret (Some (true, s')) /\
  exists a', checkauth true (Some 1%positive) (Some 2%positive) (as_auth (cs_peer s')) = Ret (1, a').
Proof.
  split; [exact toy_ready|].
  destruct (@diod_auth_handshake toy true toy_client 1 toy_fid toy_cred tt tt 10) as (s' & E & _ & _ & Hc);
    [by intros []|exact toy_ready|by exists 26, 0|done|done|done|exact toy_text|done|done|repeat constructor; done|done|done|vm_compute; lia|].
  exists s'. split; [exact E|]. destruct (Hc 1%positive 1000) as (r & a' & Ec & [_ H1]); [done|done|]. exists a'.
  assert (r = 1) as <- by (apply H1; exists 100, tt; destruct (au_munge _); vm_compute; done). exact Ec.
Defined.
End AuthSample.
