(* ===== verification/AttachAuth.v ===== *)
(** * Attaches and authentication (libnpfs/fcall.c, libdiod/diod_auth.c)

    When authentication is required, no hook of the server and no attach of a file
    system is called for a client that has not authenticated. *)
From S2P Require Import Prelude Cbuf Protocol Create Deserialize Wire Builders Npstring Fidpool Replies Fcall Sample FcallSpec Srv SrvSpec.
From S2P Require Import Session Rawbuf DiodAuth DiodAuthSpec.
From stdpp Require Import list gmap.
#[local] Open Scope Z_scope.

Section Attach.
Context `{SrvEnv} (srv : Npsrv).
Implicit Types s : hstate.

(** The calls that were made, by the operations allowed; the user of the connection is
    the same. *)
Definition called (P : srv_op -> Prop) s s' (cs : list (scall * outcome)) : Prop :=
  h_calls s' = h_calls s ++ cs /\ Forall (fun c => P (sc_op c.1)) cs.

Lemma called_nil P s s' : h_calls s' = h_calls s -> called P s s' [].
Proof. intros E. split; [by rewrite app_nil_r|constructor]. Qed.

Lemma called_trans P s s1 s2 cs cs2 : called P s s1 cs -> called P s1 s2 cs2 -> called P s s2 (cs ++ cs2).
Proof. intros [E1 H1] [E2 H2]. split; [by rewrite E2, E1, app_assoc|by apply Forall_app]. Qed.

Lemma called_weaken (P Q : srv_op -> Prop) s s' cs : (forall o, P o -> Q o) -> called P s s' cs -> called Q s s' cs.
Proof. intros Hi [E Hf]. split; [done|]. eapply Forall_impl; [exact Hf|]. intros c. apply Hi. Qed.

Lemma call_inv op fs args s o s' : call op fs args s = Ret (o, s') ->
  called (eq op) s s' [({| sc_op := op; sc_fids := fs; sc_args := args |}, o)] /\ h_authuser s' = h_authuser s /\ h_fid s' = h_fid s.
Proof.
  unfold call. destruct (env _ _) as [o1 w]. destruct fs as [|f fs].
  - intros [= <- <-]. cbn. split; [|done]. split; [done|]. by constructor.
  - cbn. destruct (match o_user o1 with Some _ => _ | None => _ end) as [q| |]; cbn; try done.
    destruct (match o_flags o1 with Some _ => _ | None => _ end) as [q2| |]; cbn; try done. intros [= <- <-]. cbn.
    split; [|done]. split; [done|]. by constructor.
Qed.

(** Which proof of identity was given. *)
Definition checked (fid0 l : loc) (cs : list (scall * outcome)) : Prop :=
  exists o, ({| sc_op := Op_checkauth; sc_fids := [fid0; l]; sc_args := [] |}, o) ∈ cs /\ o_int o <> 0.

Definition vouched (x : Nptattach) s (cs : list (scall * outcome)) (w : world) : Prop :=
  bit (srv_flags srv) SRV_FLAGS_AUTHCONN = true /\ h_authuser s <> NONUNAME /\
  exists o u, ({| sc_op := Op_attach2user; sc_fids := []; sc_args := [AS (tattach_uname x); AZ (tattach_n_uname x)] |}, o) ∈ cs /\
    o_ptr o = Some u /\ (h_authuser s = 0 \/ uid_of w u = h_authuser s).

Definition identifying (op : srv_op) : Prop := op ∈ [Op_auth_required; Op_afid2user; Op_checkauth; Op_attach2user].

Lemma attach_auth_inv x fid0 afid s b s' : attach_auth srv x fid0 afid true s = Ret (b, s') ->
  exists cs, called identifying s s' cs /\
    (b = true -> match afid with Some l => checked fid0 l cs | None => vouched x s cs (h_world s') end).
Proof.
  unfold attach_auth. destruct afid as [l|]; intros (o & s1 & E1 & E)%hbind_inv; apply call_inv in E1 as (C1 & A1 & F1);
    (apply (called_weaken _ identifying) in C1; [|intros op <-; unfold identifying; set_solver]);
    apply hbind_inv in E as ([] & s2 & E2 & E); unfold put_fid in E2; apply hlift_inv in E2 as (K2 & A2 & _ & W2);
    pose proof (called_trans _ _ _ _ _ _ C1 (called_nil identifying _ _ K2)) as C2; rewrite app_nil_r in C2.
  - destruct (o_ptr o) as [u|]; [|injection E as <- <-; eexists; split; [exact C2|done]].
    apply hbind_inv in E as (o3 & s3 & E3 & E). apply call_inv in E3 as (C3 & _).
    apply (called_weaken _ identifying) in C3; [|intros op <-; unfold identifying; set_solver]. pose proof (called_trans _ _ _ _ _ _ C2 C3) as C4.
    destruct (Z.eqb_spec (o_int o3) 0) as [Hz|Hz]; [injection E as <- <-; eexists; split; [exact C4|done]|].
    apply hbind_inv in E as (f & s4 & E4 & E). unfold get_fid in E4. apply hlift_inv in E4 as (K4 & _). destruct (user f) as [v|]; [|done].
    apply hbind_inv in E as (uid & s5 & [= <- <-] & E). apply hbind_inv in E as ([] & s6 & [= <-] & E). injection E as <- <-.
    exists ([({| sc_op := Op_afid2user; sc_fids := [l]; sc_args := [AS (tattach_uname x); AZ (tattach_n_uname x)] |}, o)] ++
      [({| sc_op := Op_checkauth; sc_fids := [fid0; l]; sc_args := [] |}, o3)]). split.
    + destruct C4 as [E4 H4]. split; [|done]. cbn. by rewrite K4.
    + intros _. exists o3. split; [set_solver|done].
  - destruct (o_ptr o) as [u|] eqn:Eu; [|injection E as <- <-; eexists; split; [exact C2|done]].
    destruct (bit (srv_flags srv) SRV_FLAGS_AUTHCONN) eqn:Ef; cbn [negb] in E.
    2:{ apply hbind_inv in E as ([] & s3 & [= <-] & [= <- <-]). eexists. split; [split; [exact (proj1 C2)|exact (proj2 C2)]|done]. }
    apply hbind_inv in E as (au & s3 & [= <- <-] & E). destruct (Z.eqb_spec (h_authuser s2) NONUNAME) as [Hn|Hn].
    { apply hbind_inv in E as ([] & s3 & [= <-] & [= <- <-]). eexists. split; [split; [exact (proj1 C2)|exact (proj2 C2)]|done]. }
    apply hbind_inv in E as (fuid & s4 & [= <- <-] & E).
    destruct (negb (h_authuser s2 =? 0) && negb (h_authuser s2 =? uid_of (h_world s2) u)) eqn:Ec.
    { apply hbind_inv in E as ([] & s3 & [= <-] & [= <- <-]). eexists. split; [split; [exact (proj1 C2)|exact (proj2 C2)]|done]. }
    injection E as <- <-. eexists. split; [exact C2|]. intros _. rewrite A2, A1 in *. split; [done|]. split; [done|]. exists o, u. split; [set_solver|]. split; [done|].
    apply andb_false_iff in Ec as [Ec|Ec]; apply negb_false_iff, Z.eqb_eq in Ec; auto.
Qed.

Lemma authrequired_inv uname n aname s b s' : authrequired srv uname n aname s = Ret (b, s') ->
  exists cs, called identifying s s' cs /\ h_authuser s' = h_authuser s.
Proof.
  unfold authrequired. destruct (negb (has_auth srv) || _ || _); [intros [= <- <-]; exists []; split; [by apply called_nil|done]|].
  destruct (negb (has srv Op_auth_required)); [intros [= <- <-]; exists []; split; [by apply called_nil|done]|].
  intros (o & s1 & E1 & [= <- <-])%hbind_inv. apply call_inv in E1 as (C1 & A1 & _). eexists. split; [|done].
  eapply called_weaken; [|exact C1]. intros op <-. unfold identifying. set_solver.
Qed.

(** The fid that the number of the afid stands for is an afid. *)
Definition is_afid (n : Z) (q : Npfidpool) (l : loc) : Prop :=
  exists q' f, np_fid_find n q = Ret (Some l, q') /\ load_fid q' l = Ret f /\ bit (type f) Qtauth = true.

Definition granting (op : srv_op) : Prop := op ∈ [Op_remapuser; Op_exportok; Op_attach; Op_ctl_attach].

(** Calls are only added. *)
Definition grows {A} (c : HM A) : Prop := forall s a s', c s = Ret (a, s') -> exists cs, h_calls s' = h_calls s ++ cs.

Lemma grows_same {A} (c : HM A) : (forall s a s', c s = Ret (a, s') -> h_calls s' = h_calls s) -> grows c.
Proof. intros Hc s a s' E. exists []. rewrite app_nil_r. by eapply Hc. Qed.
Lemma grows_bind {A B} (c : HM A) (k : A -> HM B) : grows c -> (forall a, grows (k a)) -> grows (hbind c k).
Proof.
  intros Hc Hk s b s' (a & s1 & E1 & E)%hbind_inv. apply Hc in E1 as [c1 E1]. apply Hk in E as [c2 E]. exists (c1 ++ c2). by rewrite E, E1, app_assoc.
Qed.
Lemma grows_ret {A} (a : A) : grows (hret a).
Proof. apply grows_same. by intros s b s' [= <- <-]. Qed.
Lemma grows_call op fs args : grows (call op fs args).
Proof. intros s o s' E. apply call_inv in E as ((E & _) & _). by eexists. Qed.
Lemma grows_lift {A} (c : Npfidpool -> res (A * Npfidpool)) : grows (hlift c).
Proof. apply grows_same. intros s a s' E. apply (hlift_inv c s a s' E). Qed.
Lemma grows_uerror e : grows (np_uerror e).
Proof. apply grows_same. by intros s a s' [= <- <-]. Qed.
Lemma grows_aname f : grows (fid_aname f).
Proof. apply grows_same. unfold fid_aname. destruct (aname f); [by intros s a s' [= <- <-]|done]. Qed.

Ltac grow := repeat first [apply grows_bind; [|intros ?] | apply grows_ret | apply grows_call | apply grows_lift | apply grows_uerror | apply grows_aname | case_match].

Lemma finish_grows x fid0 afid : grows (attach_finish srv x fid0 afid).
Proof. unfold attach_finish, fail, get_fid, fid_incref. grow. Qed.

Lemma drop_grows o : grows (drop_fid srv o).
Proof. unfold drop_fid, fid_decref. grow. Qed.

Lemma drop_calls o s u s' : drop_fid srv o s = Ret (u, s') -> h_calls s' = h_calls s.
Proof.
  unfold drop_fid, fid_decref. destruct o as [l|]; [|by intros [= <- <-]].
  intros (o & s1 & E1 & [= <- <-])%hbind_inv. apply hbind_inv in E1 as (g & s2 & E2 & [= <- <-]). by apply hlift_inv in E2 as [? _].
Qed.

Lemma not_granting cs c : Forall (fun c : scall * outcome => identifying (sc_op c.1)) cs -> c ∈ cs -> ~ granting (sc_op c.1).
Proof. intros Hf Hc. rewrite Forall_forall in Hf. specialize (Hf c Hc). unfold identifying, granting in *. destruct (sc_op c.1); set_solver. Qed.

Lemma checked_app fid0 l cs cs2 : checked fid0 l cs -> checked fid0 l (cs ++ cs2).
Proof. intros (o & Ho & Hz). exists o. split; [set_solver|done]. Qed.
Lemma vouched_app x s cs cs2 w : vouched x s cs w -> vouched x s (cs ++ cs2) w.
Proof. intros (Hf & Hn & o & u & Ho & Hu). split; [done|]. split; [done|]. exists o, u. split; [set_solver|done]. Qed.

(** What was given for the identity with this afid. *)
Definition identified x fid0 (afid : option loc) s cs w : Prop :=
  match afid with Some l => checked fid0 l cs | None => vouched x s cs w end.

(** The part of [np_attach] after the afid was looked up. *)
Lemma attach_tail_inv x fid0 afid (good : bool) t rc s' : (forall w w' u, uid_of w u = uid_of w' u) ->
  hbind (if negb good then fail EPERM
         else hbind (attach_auth srv x fid0 afid true) (fun ok => if negb (ok : bool) then hret None else attach_finish srv x fid0 afid))
    (fun rc => hbind (drop_fid srv afid) (fun _ => hret rc)) t = Ret (rc, s') ->
  exists cs, h_calls s' = h_calls t ++ cs /\
    (is_Some rc \/ (exists c, c ∈ cs /\ granting (sc_op c.1)) -> good = true /\ identified x fid0 afid t cs (h_world s')).
Proof.
  intros Huid (rc' & t1 & E1 & E)%hbind_inv. apply hbind_inv in E as (u & t2 & E2 & [= <- <-]). apply drop_calls in E2. rewrite E2.
  destruct good; cbn [negb] in E1.
  2:{ apply hbind_inv in E1 as ([] & t3 & [= <-] & [= <- <-]). exists []. rewrite app_nil_r. split; [done|].
      intros [[? ?]|(c & Hc & _)]; [done|]. by apply not_elem_of_nil in Hc. }
  apply hbind_inv in E1 as (ok & t3 & E3 & E). apply attach_auth_inv in E3 as (cs & [K3 H3] & Hok). destruct ok; cbn [negb] in E.
  - apply finish_grows in E as [c2 E]. exists (cs ++ c2). split; [by rewrite E, K3, app_assoc|]. intros _. split; [done|].
    specialize (Hok eq_refl). unfold identified. destruct afid as [l|]; [by apply checked_app|].
    destruct Hok as (Hf & Hn & o & v & Ho & Hv & Hz). apply vouched_app. split; [done|]. split; [done|]. exists o, v.
    split; [done|]. split; [done|]. by rewrite (Huid _ (h_world t3)).
  - injection E as <- <-. exists cs. split; [done|]. intros [[? ?]|(c & Hc & Hg)]; [done|]. exfalso. by eapply not_granting.
Qed.

(** C36: When authentication is required, an attach calls no hook of the server and no
    file system, and is not answered, unless [checkauth] succeeded for the fid and an
    afid that the client names, or, on a server that trusts connections, the connection
    was authenticated before, for root or for this user. *)
Theorem attach_needs_auth x s s1 rc s' : (forall w w' u, uid_of w u = uid_of w' u) ->
  authrequired srv (tattach_uname x) (tattach_n_uname x) (tattach_aname x) s = Ret (true, s1) -> np_attach srv x s = Ret (rc, s') ->
  exists cs, h_calls s' = h_calls s ++ cs /\
    (is_Some rc \/ (exists c, c ∈ cs /\ granting (sc_op c.1)) ->
     exists fid0, h_fid s = Some fid0 /\
       if tattach_afid x =? NOFID then vouched x s cs (h_world s')
       else exists l, is_afid (tattach_afid x) (h_pool s1) l /\ checked fid0 l cs).
Proof.
  intros Huid Hreq. unfold np_attach. intros (o & t0 & [= <- <-] & E)%hbind_inv. apply hbind_inv in E as (b & t1 & E1 & E).
  rewrite Hreq in E1. injection E1 as <- <-. destruct (authrequired_inv _ _ _ _ _ _ Hreq) as (c0 & [K0 H0'] & A0).
  assert (Hno : forall t, h_calls t = h_calls s1 -> exists cs, h_calls t = h_calls s ++ cs /\
    (is_Some (None : option Npfcall) \/ (exists c, c ∈ cs /\ granting (sc_op c.1)) -> False)).
  { intros t Et. exists c0. split; [by rewrite Et|]. intros [[? ?]|(c & Hc & Hg)]; [done|]. by eapply not_granting. }
  destruct (h_fid s) as [fid0|] eqn:Ef.
  2:{ apply hbind_inv in E as ([] & t2 & [= <-] & [= <- <-]). destruct (Hno _ eq_refl) as (cs & E1 & Hn). exists cs. split; [exact E1|]. by intros ?%Hn. }
  destruct (tattach_afid x =? NOFID).
  - apply hbind_inv in E as (r & t2 & [= <- <-] & E). apply hbind_inv in E as (g & t3 & [= <- <-] & E).
    destruct (attach_tail_inv x fid0 None true s1 rc s' Huid E) as (cs & K & Hid). exists (c0 ++ cs). split; [by rewrite K, K0, app_assoc|].
    intros Hg. exists fid0. split; [done|]. destruct Hid as [_ Hid].
    { destruct Hg as [|(c & [Hc|Hc]%elem_of_app & Hc')]; [by left| |right; by exists c]. exfalso. by eapply not_granting. }
    destruct Hid as (Hf & Hn & p & u & Hp & Hu). rewrite A0 in *. split; [done|]. split; [done|]. exists p, u. split; [set_solver|done].
  - apply hbind_inv in E as (r & t2 & E2 & E). apply hbind_inv in E2 as (a & t3 & E3 & E2). unfold fid_find, hlift in E3.
    destruct (np_fid_find (tattach_afid x) (h_pool s1)) as [[a' q]| |] eqn:Efind; [|done..]. injection E3 as -> <-. destruct a as [l|].
    2:{ apply hbind_inv in E2 as ([] & t4 & [= <-] & [= <- <-]). injection E as <- <-.
        destruct (Hno _ eq_refl) as (cs & E1 & Hn). exists cs. split; [exact E1|]. by intros ?%Hn. }
    injection E2 as <- <-. apply hbind_inv in E as (good & t4 & E4 & E). apply hbind_inv in E4 as (f & t5 & E5 & [= <- <-]).
    unfold get_fid, hlift in E5. cbn in E5. destruct (load_fid q l) as [f'| |] eqn:El; [|done..]. cbn in E5. injection E5 as -> <-.
    destruct (attach_tail_inv x fid0 (Some l) _ _ rc s' Huid E) as (cs & K & Hid). cbn in K. exists (c0 ++ cs). split; [by rewrite K, K0, app_assoc|].
    intros Hg. exists fid0. split; [done|]. destruct Hid as [Hgood Hid].
    { destruct Hg as [|(c & [Hc|Hc]%elem_of_app & Hc')]; [by left| |right; by exists c]. exfalso. by eapply not_granting. }
    exists l. split; [by exists q, f|]. destruct Hid as (p & Hp & Hz). exists p. split; [set_solver|done].
Qed.
End Attach.

(** ** Writes that are larger than the message *)

(** A Twrite at offset 0 of a fid, with a count and no data. *)
Definition empty_write (tag n count : Z) : list Z :=
  le_bytes 4 23 ++ le_bytes 1 Twrite ++ le_bytes 2 tag ++ le_bytes 4 n ++ le_bytes 8 0 ++ le_bytes 4 count.

(** Reading an integer that is next in the buffer. *)
Lemma load_here b n k v pre post : n = Z.of_nat k -> mem b = pre ++ le_bytes k v ++ post -> p b = zlength pre ->
  buf_load n b = Ret (le_bytes k v, set_p (p b + n) b).
Proof.
  intros -> Hm Hp. unfold buf_load. rewrite Hm, Hp, load_bytes_ok.
  - cbn [res_bind]. unfold zlength. rewrite !Nat2Z.id, drop_app_length, take_app_length' by (by rewrite le_bytes_length). done.
  - apply zlength_nonneg.
  - lia.
  - rewrite !zlength_app, zlength_le_bytes. pose proof (zlength_nonneg post). lia.
Qed.

Ltac get_here :=
  intros Hm Hp He; unfold bind; rewrite check_size_run by lia; rewrite (proj2 (Z.leb_le _ _)) by lia; cbn [res_bind].

Lemma get_int8_here b v pre post : mem b = pre ++ le_bytes 1 v ++ post -> p b = zlength pre -> p b + 1 <= ep b ->
  buf_get_int8 b = Ret (u8 v, set_p (p b + 1) b).
Proof.
  unfold buf_get_int8. get_here. rewrite (load_here b 1 1 v pre post eq_refl Hm Hp). cbn [res_bind ret]. unfold ret. do 2 f_equal.
  cbn. unfold u8. by rewrite Z.mod_mod.
Qed.

Lemma get_int16_here b v pre post : mem b = pre ++ le_bytes 2 v ++ post -> p b = zlength pre -> p b + 2 <= ep b ->
  buf_get_int16 b = Ret (u16 v, set_p (p b + 2) b).
Proof.
  unfold buf_get_int16. get_here. rewrite (load_here b 2 2 v pre post eq_refl Hm Hp). cbn [res_bind]. unfold ret.
  rewrite get16_le, le_value_bytes by (done || apply le_bytes_bytes). done.
Qed.

Lemma get_int32_here b v pre post : mem b = pre ++ le_bytes 4 v ++ post -> p b = zlength pre -> p b + 4 <= ep b ->
  buf_get_int32 b = Ret (u32 v, set_p (p b + 4) b).
Proof.
  unfold buf_get_int32. get_here. rewrite (load_here b 4 4 v pre post eq_refl Hm Hp). cbn [res_bind]. unfold ret.
  rewrite get32_le, le_value_bytes by (done || apply le_bytes_bytes). done.
Qed.

Lemma get_int64_here b v pre post : mem b = pre ++ le_bytes 8 v ++ post -> p b = zlength pre -> p b + 8 <= ep b ->
  buf_get_int64 b = Ret (u64 v, set_p (p b + 8) b).
Proof.
  unfold buf_get_int64. get_here. rewrite (load_here b 8 8 v pre post eq_refl Hm Hp). cbn [res_bind]. unfold ret.
  rewrite get64_le, le_value_bytes by (done || apply le_bytes_bytes). done.
Qed.

Definition empty_request (tag n count : Z) : Nptwrite :=
  {| twrite_fid := n; twrite_offset := 0; twrite_count := count; twrite_data := Some 23 |}.

Lemma empty_write_accepted fc tag n count : 0 <= tag < 2 ^ 16 -> 0 <= n < 2 ^ 32 -> 2 ^ 31 <= count < 2 ^ 32 ->
  fc_pkt fc = empty_write tag n count ->
  np_deserialize fc = Ret (23, {| fc_size := 23; fc_type := Twrite; fc_tag := tag; fc_pkt := empty_write tag n count;
    fc_u := U_twrite (empty_request tag n count) |}).
Proof.
  intros Htag Hn Hc Hp. rewrite np_deserialize_eq, Hp.
  rewrite (get_int32_here _ 23 [] (drop 4 (empty_write tag n count))) by done.
  change (u32 23) with 23. cbn [res_bind]. unfold get_rest. unfold bind at 1.
  rewrite (get_int8_here _ Twrite (le_bytes 4 23) (drop 5 (empty_write tag n count))) by done.
  cbn [res_bind]. unfold bind at 1. rewrite (get_int16_here _ tag (take 5 (empty_write tag n count)) (drop 7 (empty_write tag n count))) by done.
  cbn [res_bind]. rewrite (u16_small tag) by lia. unfold bind at 1, get_body. eval_switch. unfold got, get_twrite. unfold bind at 1, bind at 1.
  rewrite (get_int32_here _ n (take 7 (empty_write tag n count)) (drop 11 (empty_write tag n count))) by done.
  cbn [res_bind]. unfold bind at 1. rewrite (u32_small n) by lia.
  rewrite (get_int64_here _ 0 (take 11 (empty_write tag n count)) (drop 19 (empty_write tag n count))) by done.
  cbn [res_bind]. unfold bind at 1.
  rewrite (get_int32_here _ count (take 19 (empty_write tag n count)) []) by done.
  cbn [res_bind]. rewrite (u32_small count) by lia. unfold bind, buf_alloc, bind, buf_check_size.
  assert (Hi : int32 count = count - 2 ^ 32) by (rewrite int32_wrap by lia; done).
  rewrite Hi. cbn [ep p set_p buf_init]. change (int32 (u32 (23 - 4))) with 19.
  rewrite (proj2 (Z.ltb_ge _ _)) by lia. cbn [res_bind ret fst snd ep p set_p buf_init].
  unfold buf_check_overflow. cbn [p ep set_p buf_init]. change (int32 (u32 (23 - 4))) with 19.
  rewrite (proj2 (Z.ltb_ge _ _)) by lia. done.
Qed.

(** C37: [buf_alloc] takes the count of a Twrite as an [int], so that a message of 23
    bytes with any count of 2^31 or more and no data is accepted, whatever its tag and
    fid; on an afid [np_write] hands it to the [write] of the authentication hooks before
    the count is compared with the message size; and [writeafid], when nothing was written
    to the afid yet and memory for the count is there, copies that many bytes from
    behind the message.  A client needs no credential for it: a Tauth gives the afid. *)
Theorem auth_write_overreads tag n count : 0 <= tag < 2 ^ 16 -> 0 <= n < 2 ^ 32 -> 2 ^ 31 <= count < 2 ^ 32 ->
  exists tc x, fc_u tc = U_twrite x /\ twrite_fid x = n /\ twrite_count x = count /\ np_check_allowed tc = true /\
    (forall fc, fc_pkt fc = empty_write tag n count -> np_deserialize fc = Ret (23, tc)) /\
    (forall `{CHeap} `{SrvEnv} (srv : Npsrv) s l f, has_auth srv = true -> on s l f -> bit (type f) Qtauth = true ->
       np_write srv x s = hbind (call Op_auth_write [l] [AZ 0; AZ count; AP (Some 23)])
         (fun o => if 0 <=? o_int o then or_enomem (np_create_rwrite (o_int o)) else hret None) s) /\
    (forall `{Munge} (a : acreds) (s : auth_state) (l : loc),
       arep a s -> ac_text a !! l = Some None -> (munge_malloc (au_munge s)).1 = true ->
       writeafid (Some l) 0 count (Some (drop 23 (fc_pkt tc))) s = UB).
Proof.
  intros Htag Hn Hc. exists {| fc_size := 23; fc_type := Twrite; fc_tag := tag; fc_pkt := empty_write tag n count;
    fc_u := U_twrite (empty_request tag n count) |}, (empty_request tag n count).
  do 3 (split; [done|]). split; [vm_compute; reflexivity|]. split; [|split].
  - intros fc. by apply empty_write_accepted.
  - intros HC HS srv s l f Ha [E1 E2] Hq. unfold np_write. unfold hbind at 1, reqfid. cbn [res_bind]. rewrite E1. cbv beta.
    unfold hbind at 1. rewrite (get_fid_run _ _ _ E2). cbn [res_bind]. by rewrite Hq, Ha.
  - intros HMu a s l Hr Ht Hmem. destruct (arep_some _ _ _ _ Hr Ht) as (da & Hda & Hno). cbn in Hno.
    change (drop 23 _) with (@nil Z).
    unfold writeafid, abind, get_aux, outside. cbn [res_bind]. rewrite Hda, Hno, (proj2 (Z.eqb_neq count 0)) by lia. cbn [res_bind Z.eqb].
    destruct (munge_malloc (au_munge s)) as [[] w]; [|done]. cbn [res_bind aret alift]. unfold memcpy_buf at 1.
    rewrite (proj2 (Z.leb_gt count (zlength []))) by (unfold zlength; cbn; lia). by rewrite andb_false_r.
Qed.

Lemma auth_write_overreads_witness : exists tc x, fc_u tc = U_twrite x /\ twrite_count x = 2 ^ 31 /\
  (forall fc, fc_pkt fc = empty_write 2 7 (2 ^ 31) -> np_deserialize fc = Ret (23, tc)).
Proof.
  destruct (auth_write_overreads 2 7 (2 ^ 31)) as (tc & x & Hu & _ & Hc & _ & Hd & _); [lia|lia|lia|].
  exists tc, x. split; [exact Hu|]. split; [exact Hc|exact Hd].
Defined.

(** ** An attach on a connection that root authenticated *)

Definition trusting_srv : Npsrv := {| has := has sample_srv; has_auth := true; srv_flags := SRV_FLAGS_AUTHCONN; fidconf := demo_srv |}.
Definition root_attach : Nptattach := {| tattach_fid := 5; tattach_afid := NOFID; tattach_uname := {| len := 0; str := None |};
  tattach_aname := {| len := 0; str := None |}; tattach_n_uname := 7 |}.
Definition rooted_state : @hstate sample_env := 
  match @np_conn_set_authuser sample_env 0 (@sample_state sample_env tt (Some 1%positive)) with Ret (_, s) => s | _ => @sample_state sample_env tt None end.

Lemma attach_needs_auth_witness : exists s1 rc s', authrequired trusting_srv (tattach_uname root_attach) (tattach_n_uname root_attach) (tattach_aname root_attach) rooted_state = Ret (true, s1) /\
  @np_attach sample_env trusting_srv root_attach rooted_state = Ret (Some rc, s') /\
  exists cs, h_calls s' = h_calls rooted_state ++ cs /\ @vouched sample_env trusting_srv root_attach rooted_state cs (h_world s').
Proof.
  eexists _, _, _. split; [vm_compute; reflexivity|]. split; [vm_compute; reflexivity|].
  match goal with |- exists cs, h_calls ?t = _ /\ _ =>
    destruct (@attach_needs_auth sample_env trusting_srv root_attach rooted_state _ _ t (fun _ _ _ => eq_refl) (eq_refl _) (eq_refl _)) as (cs & E & Hv) end.
  exists cs. split; [exact E|]. destruct Hv as (fid0 & _ & Hv); [by left|]. exact Hv.
Defined.
