(* ===== verification/Opt.v ===== *)
(** * Mount options (cmd/opt.c)

    A list of options ["key"] or ["key=value"], kept in a list of liblsd.  [msg_exit]
    ends the process: its outcome is [Ret None].  Whether memory is there is a list of
    answers, and there is memory once they are used up.  The text that [vasprintf] makes
    of the arguments of [opt_addf], and what [vsscanf] does with an item, are
    arguments. *)
From S2P Require Import Prelude Cbuf Npstring Rawbuf Conf.
From stdpp Require Import list gmap.
From S2P Require Import Lists.
#[local] Open Scope Z_scope.

Declare Scope opt_scope.
Delimit Scope opt_scope with opt.

Record opt_state := { op_list : llist cstr; op_mem : list bool }.

Definition OM (A : Type) : Type := opt_state -> res (option (A * opt_state)).
Definition oret {A} (a : A) : OM A := fun s => Ret (Some (a, s)).
Definition obind {A B} (c : OM A) (f : A -> OM B) : OM B := fun s =>
  let! o := c s in match o with Some (a, s) => f a s | None => Ret None end.
Definition olift {A} (c : res A) : OM A := fun s => let! a := c in Ret (Some (a, s)).
Definition onlist {A} (c : LM cstr A) : OM A := fun s =>
  let! (a, l) := c (op_list s) in Ret (Some (a, {| op_list := l; op_mem := op_mem s |})).
Definition set_list (l : llist cstr) : OM unit := fun s => Ret (Some (tt, {| op_list := l; op_mem := op_mem s |})).
Definition get_list : OM (llist cstr) := fun s => Ret (Some (op_list s, s)).
Definition memory : OM bool := fun s =>
  Ret (Some (match op_mem s with b :: _ => b | [] => true end, {| op_list := op_list s; op_mem := tail (op_mem s) |})).
(** [if (!ok) msg_exit ("out of memory");] *)
Definition need (ok : bool) : OM unit := fun s => Ret (if ok then Some (tt, s) else None).

Notation "'do' x <- c ; k" := (obind c (fun x => k))
  (at level 100, x pattern, c at level 100, k at level 200, right associativity) : opt_scope.
#[local] Open Scope opt_scope.

Definition equals : Z := 61.

(** ** Strings *)

Definition tolower (c : Z) : Z := if (65 <=? c) && (c <=? 90) then c + 32 else c.

(** [strncasecmp (a, b, n) == 0] *)
Fixpoint strncasecmp (n : nat) (a b : cstr) : bool :=
  match n, a, b with
  | O, _, _ => true
  | S n, x :: a, y :: b => (tolower x =? tolower y) && strncasecmp n a b
  | _, [], [] => true
  | _, _, _ => false
  end.

(** [strcasecmp (a, b) == 0] *)
Definition strcasecmp (a b : cstr) : bool := bool_decide (tolower <$> a = tolower <$> b).

(** What is behind the last [c] in the string. *)
Definition strrchr (c : Z) (s : cstr) : option cstr :=
  match strchr c (reverse s) with Some (x, _) => Some (reverse x) | None => None end.

(** [p ? p - s : strlen (s)] for the first '=' *)
Definition key_len (s : cstr) : nat := match strchr equals s with Some (k, _) => length k | None => length s end.

Definition _match_keyval (item key : cstr) : bool := strcasecmp item key.
Definition _match_key (item key : cstr) : bool :=
  let n := key_len item in
  let m := key_len key in
  (m =? n)%nat && strncasecmp n item key.

Definition _optstr (s : cstr) : cstr := match strrchr equals s with Some v => v | None => [] end.

(** ** Operations *)

Definition opt_destroy : OM unit := onlist list_destroy.

Definition opt_create : OM unit :=
  do ok <- memory;
  do _ <- need ok;
  do ok <- memory;
  do _ <- need ok;
  set_list (list_create true).

(** A new iterator, or the end of the process. *)
Definition iterator : OM positive :=
  do ok <- memory;
  do o <- onlist (list_iterator_create ok);
  match o with Some i => oret i | None => fun _ => Ret None end.

(** [int] addition *)
Definition int_plus (a b : Z) : res Z := if a + b <? 2 ^ 31 then Ret (a + b) else UB.

Fixpoint csv_size (fuel : nat) (i : positive) (strsize : Z) : OM Z :=
  do o <- onlist (list_next i);
  match o, fuel with
  | None, _ => oret strsize
  | Some _, O => olift UB
  | Some item, S fuel => do n <- olift (int_plus strsize (zlength item + 1)); csv_size fuel i n
  end.

(** [snprintf (b + n, size, ..)] of this text *)
Definition snprintf_buf (b : list (option Z)) (n size : Z) (text : cstr) : res (list (option Z)) :=
  if size =? 0 then Ret b
  else let k := Z.min (zlength text) (size - 1) in memcpy_buf b n (take (Z.to_nat k) text ++ [0]) (k + 1).

Fixpoint csv_fill (fuel : nat) (i : positive) (strsize n : Z) (b : list (option Z)) : OM (list (option Z)) :=
  do o <- onlist (list_next i);
  match o, fuel with
  | None, _ => oret b
  | Some _, O => olift UB
  | Some item, S fuel =>
      do b <- olift (snprintf_buf b n (u64 (strsize - n)) ((if 0 <? n then [comma] else []) ++ item));
      do s <- olift (buf_str b);
      csv_fill fuel i strsize (zlength s) b
  end.

(** The buffer that the result points to. *)
Definition opt_csv : OM (list (option Z)) :=
  do itr <- iterator;
  do fuel <- onlist list_fuel;
  do strsize <- csv_size fuel itr 1;
  do _ <- onlist (list_iterator_reset itr);
  do count <- onlist list_count;
  do ok <- memory;
  do _ <- need ok;
  do s <- csv_fill fuel itr strsize 0 (malloc_buf (strsize + count - 1));
  do _ <- onlist (list_iterator_destroy itr);
  oret s.

Fixpoint addf_loop (fuel : nat) (save : cstr) : OM unit :=
  match strtok_r comma save, fuel with
  | None, _ => oret tt
  | Some _, O => olift UB
  | Some (item, save), S fuel =>
      do ok <- memory;
      do _ <- need ok;
      do _ <- onlist (list_delete_all (fun x => _match_key x item));
      do ok <- memory;
      do v <- onlist (list_append ok item);
      do _ <- need (if v is Some _ then true else false);
      addf_loop fuel save
  end.

Definition opt_addf (csv : cstr) : OM Z :=
  do ok <- memory;
  do _ <- need ok;
  do _ <- addf_loop (length csv) csv;
  oret 1.

Definition opt_find (key : cstr) : OM (option cstr) :=
  do s <- onlist (list_find_first (fun x => (if strchr equals key is Some _ then _match_keyval else _match_key) x key));
  oret (_optstr <$> s).

Definition opt_delete (key : cstr) : OM Z := onlist (list_delete_all (fun x => _match_key x key)).

(** [scan] is [vsscanf] of an item. *)
Fixpoint scan_loop (fuel : nat) (scan : cstr -> Z) (i : positive) (ret : Z) : OM Z :=
  do o <- onlist (list_next i);
  match o, fuel with
  | None, _ => oret ret
  | Some _, O => olift UB
  | Some item, S fuel => if 0 <? scan item then oret (scan item) else scan_loop fuel scan i (scan item)
  end.

Definition opt_vscanf (scan : cstr -> Z) : OM Z :=
  do itr <- iterator;
  do fuel <- onlist list_fuel;
  do ret <- scan_loop fuel scan itr 0;
  do _ <- onlist (list_iterator_destroy itr);
  oret ret.

Definition opt_scanf (scan : cstr -> Z) : OM Z := opt_vscanf scan.

Fixpoint allowed_loop (fuel : nat) (allow : llist cstr) (i : positive) : OM Z :=
  do o <- onlist (list_next i);
  match o, fuel with
  | None, _ => oret 0
  | Some _, O => olift UB
  | Some item, S fuel =>
      do ok <- memory;
      do _ <- need ok;
      let cpy := take (key_len item) item in
      do s <- get_list;
      do _ <- set_list allow;
      do v <- opt_find cpy;
      do allow <- get_list;
      do _ <- set_list s;
      if v is None then oret 1 else allowed_loop fuel allow i
  end.

(** The list of what is allowed is a second [Opt]; the list of the caller is put back. *)
Definition opt_check_allowed_csv (csv : cstr) : OM Z :=
  do s <- get_list;
  do _ <- opt_create;
  do _ <- opt_addf csv;
  do allow <- get_list;
  do _ <- set_list s;
  do itr <- iterator;
  do fuel <- onlist list_fuel;
  do ret <- allowed_loop fuel allow itr;
  do _ <- onlist (list_iterator_destroy itr);
  do s <- get_list;
  do _ <- set_list allow;
  do _ <- opt_destroy;
  do _ <- set_list s;
  oret ret.
