(* ===== verification/OptSpec.v ===== *)
(** * What mount options promise (cmd/opt.c)

    A set of options is a sequence in which no key is there twice: adding an option puts
    it at the end and takes away the one with its key. *)
From S2P Require Import Prelude Cbuf Npstring Rawbuf Conf Exports ConfSpec.
From stdpp Require Import list gmap.
From S2P Require Import Lists ListsSpec ListsRun ListsProps Opt.
#[local] Open Scope Z_scope.
#[local] Open Scope opt_scope.

(** ** Keys *)

Definition key_of (item : cstr) : cstr := tolower <$> take (key_len item) item.

Lemma strchr_length c s k v : strchr c s = Some (k, v) -> (length k < length s)%nat.
Proof.
  revert k v. induction s as [|x s IH]; intros k v; [done|]. cbn. destruct (x =? c); [intros [= <- <-]; cbn; lia|].
  destruct (strchr c s) as [[k' v']|]; [|done]. intros [= <- <-]. specialize (IH _ _ eq_refl). cbn. lia.
Qed.

Lemma key_len_le s : (key_len s <= length s)%nat.
Proof. unfold key_len. destruct (strchr equals s) as [[k v]|] eqn:E; [apply strchr_length in E; lia|done]. Qed.

Lemma strncasecmp_take n : forall a b, (n <= length a)%nat -> (n <= length b)%nat ->
  strncasecmp n a b = bool_decide (tolower <$> take n a = tolower <$> take n b).
Proof.
  induction n as [|n IH]; intros a b Ha Hb; [done|]. destruct a as [|x a], b as [|y b]; cbn in Ha, Hb; try lia.
  cbn [strncasecmp]. rewrite IH by lia. cbn [take fmap list_fmap]. destruct (Z.eqb_spec (tolower x) (tolower y)) as [E|E]; cbn [andb].
  - apply bool_decide_ext. cbn. rewrite E. split; [intros H1; f_equal; exact H1|by intros [= H1]].
  - symmetry. apply bool_decide_eq_false. cbn. congruence.
Qed.

Lemma match_key_spec item key : _match_key item key = bool_decide (key_of item = key_of key).
Proof.
  unfold _match_key, key_of. pose proof (key_len_le item). pose proof (key_len_le key). destruct (Nat.eqb_spec (key_len key) (key_len item)) as [E|E]; cbn [andb].
  - rewrite E in *. by apply strncasecmp_take.
  - symmetry. apply bool_decide_eq_false. intros Ek. apply (f_equal length) in Ek. rewrite !length_fmap, !length_take in Ek. lia.
Qed.

(** ** Setting options *)

Definition set_opt (l : list cstr) (item : cstr) : list cstr := List.filter (fun x => negb (_match_key x item)) l ++ [item].
Definition set_opts (l : list cstr) (items : list cstr) : list cstr := foldl set_opt l items.

Lemma filter_all {A} (f : A -> bool) l : (forall x, x ∈ l -> f x = true) -> List.filter f l = l.
Proof. induction l as [|x l IH]; intros Hf; [done|]. cbn. rewrite Hf by set_solver. f_equal. apply IH. set_solver. Qed.

Lemma set_opt_keys l item : NoDup (key_of <$> l) -> NoDup (key_of <$> set_opt l item).
Proof.
  intros Hn. unfold set_opt. rewrite fmap_app. apply NoDup_app. split_and!; [| |by apply NoDup_singleton].
  - induction l as [|x l IH]; [constructor|]. cbn in Hn |- *. apply NoDup_cons in Hn as [Hx Hn]. destruct (negb _); [|by apply IH].
    cbn. apply NoDup_cons. split; [|by apply IH]. intros (y & Hy & Hin)%list_elem_of_fmap. apply Hx. rewrite Hy. apply list_elem_of_fmap_2.
    apply list_elem_of_In, List.filter_In in Hin as [Hin _]. by apply list_elem_of_In.
  - intros k (y & -> & Hin)%list_elem_of_fmap. apply list_elem_of_In, List.filter_In in Hin as [_ Hm]. rewrite match_key_spec in Hm.
    apply negb_true_iff, bool_decide_eq_false in Hm. cbn. set_solver.
Qed.

Lemma set_opts_keys items : forall l, NoDup (key_of <$> l) -> NoDup (key_of <$> set_opts l items).
Proof. induction items as [|x items IH]; intros l Hn; [done|]. cbn. by apply IH, set_opt_keys. Qed.

(** Options with different keys that are set one after the other are all there. *)
Lemma set_opts_distinct items : forall l, NoDup (key_of <$> l ++ items) -> set_opts l items = l ++ items.
Proof.
  induction items as [|x items IH]; intros l Hn; [by rewrite app_nil_r|]. cbn [set_opts foldl].
  assert (E : set_opt l x = l ++ [x]).
  { unfold set_opt. f_equal. apply filter_all. intros y Hy. rewrite match_key_spec. apply negb_true_iff, bool_decide_eq_false. intros Ek.
    rewrite fmap_app in Hn. apply NoDup_app in Hn as (_ & Hd & _). apply (Hd (key_of y)); [by apply list_elem_of_fmap_2|]. rewrite Ek. cbn. set_solver. }
  rewrite E. fold (set_opts (l ++ [x]) items). rewrite IH by (by rewrite <- app_assoc). by rewrite <- app_assoc.
Qed.

Lemma set_opts_elem items : forall l x, x ∈ set_opts l items -> x ∈ l \/ x ∈ items.
Proof.
  induction items as [|y items IH]; intros l x Hx; [by left|]. cbn in Hx. apply IH in Hx as [Hx|Hx]; [|set_solver].
  unfold set_opt in Hx. apply elem_of_app in Hx as [Hx|Hx]; [|set_solver]. apply list_elem_of_In, List.filter_In in Hx as [Hx _].
  left. by apply list_elem_of_In.
Qed.

(** The last option that was set with a key is the one that is there. *)
Lemma find_set_opt key l x : List.find (fun y => _match_key y key) (set_opt l x) =
  if _match_key x key then Some x else List.find (fun y => _match_key y key) l.
Proof.
  unfold set_opt. assert (Happ : forall l2, List.find (fun y => _match_key y key) (l2 ++ [x]) =
    match List.find (fun y => _match_key y key) l2 with Some y => Some y | None => if _match_key x key then Some x else None end).
  { induction l2 as [|z l2 IH]; [done|]. cbn. by destruct (_match_key z key). }
  rewrite Happ. destruct (_match_key x key) eqn:Ex.
  - destruct (List.find _ _) as [y|] eqn:Ey; [|done]. apply List.find_some in Ey as [Hin Hm]. apply List.filter_In in Hin as [_ Hn].
    rewrite match_key_spec in Ex, Hm, Hn. apply bool_decide_eq_true in Ex, Hm. apply negb_true_iff, bool_decide_eq_false in Hn. congruence.
  - assert (E : List.find (fun y => _match_key y key) (List.filter (fun y => negb (_match_key y x)) l) = List.find (fun y => _match_key y key) l).
    { induction l as [|z l IH]; [done|]. cbn. destruct (_match_key z x) eqn:Ez; cbn; destruct (_match_key z key) eqn:Ek; try done.
      rewrite match_key_spec in Ex, Ez, Ek. apply bool_decide_eq_true in Ez, Ek. apply bool_decide_eq_false in Ex. congruence. }
    rewrite E. by destruct (List.find _ l).
Qed.

Lemma find_set_opts key items : List.find (fun y => _match_key y key) (set_opts [] items) = List.find (fun y => _match_key y key) (reverse items).
Proof.
  induction items as [|x items IH] using rev_ind; [done|]. unfold set_opts in *. rewrite foldl_app. cbn [foldl]. rewrite find_set_opt, IH, reverse_app. done.
Qed.

(** ** The text of a list of options *)

Definition join (l : list cstr) : cstr := tail (concat ((cons comma) <$> l)).

Definition plain (item : cstr) : Prop := item <> [] /\ comma ∉ item /\ no_nul item.

Lemma join_snoc l x : join (l ++ [x]) = join l ++ (if l is [] then [] else [comma]) ++ x.
Proof.
  unfold join. rewrite fmap_app, concat_app. cbn. rewrite app_nil_r. destruct l as [|y l]; [done|]. cbn. by rewrite <- app_assoc.
Qed.

Lemma split_on_piece x rest : comma ∉ x -> split_on comma (x ++ comma :: rest) = x :: split_on comma rest.
Proof.
  induction x as [|c x IH]; intros Hx; cbn [app split_on]; [by rewrite Z.eqb_refl|]. rewrite (proj2 (Z.eqb_neq comma c)) by set_solver.
  rewrite IH by set_solver. done.
Qed.

Lemma split_on_last x : comma ∉ x -> split_on comma x = [x].
Proof. induction x as [|c x IH]; intros Hx; [done|]. cbn [split_on]. rewrite (proj2 (Z.eqb_neq comma c)) by set_solver. by rewrite IH by set_solver. Qed.

Lemma items_join l : Forall plain l -> items comma (join l) = l.
Proof.
  destruct l as [|x l]; [done|]. unfold join. cbn [fmap list_fmap concat tail app]. revert x. induction l as [|y l IH]; intros x Hl; apply Forall_cons in Hl as [(Hx & Hc & _) Hl].
  - cbn. rewrite app_nil_r. unfold items. rewrite split_on_last by done. cbn. by destruct x.
  - cbn [fmap list_fmap concat app]. unfold items. rewrite split_on_piece by done. specialize (IH y Hl). unfold items in IH. cbn [pieces]. rewrite IH. by destruct x.
Qed.

Lemma split_on_parts d s : Forall (fun t => d ∉ t /\ (no_nul s -> no_nul t)) (split_on d s).
Proof.
  induction s as [|c s IH]; cbn; [repeat constructor; set_solver|]. destruct (Z.eqb_spec d c) as [->|Hne].
  - constructor; [split; [set_solver|constructor]|]. eapply Forall_impl; [exact IH|]. intros t [Ht Hn]. split; [done|]. intros H1. apply Hn. by apply Forall_cons in H1 as [_ ?].
  - destruct (split_on_cons d s) as (t & ts & E). rewrite E in *. apply Forall_cons in IH as [[Ht Hn] IH]. constructor.
    + split; [set_solver|]. intros [H1 H2]%Forall_cons. constructor; [done|by apply Hn].
    + eapply Forall_impl; [exact IH|]. intros u [Hu Hn']. split; [done|]. intros [_ H2]%Forall_cons. by apply Hn'.
Qed.

Lemma items_plain s : no_nul s -> Forall plain (items comma s).
Proof.
  intros Hs. unfold items. pose proof (split_on_parts comma s) as Hp. induction Hp as [|t ts [Ht Hn] _ IH]; [constructor|].
  destruct t as [|c t]; [exact IH|]. constructor; [split; [done|]; split; [done|by apply Hn]|exact IH].
Qed.

Lemma items_length s : (length (items comma s) <= length s)%nat.
Proof.
  remember (length s) as n eqn:E. revert s E. induction n as [n IH] using lt_wf_ind. intros s ->. pose proof (strtok_items comma s) as Ht.
  destruct (strtok_r comma s) as [[t save]|]; [|rewrite Ht; cbn; lia]. destruct Ht as [-> Hl]. cbn. specialize (IH (length save) Hl save eq_refl). lia.
Qed.
