(* ===== verification/OptProps.v ===== *)
(** * Mount options: the calls (cmd/opt.c)

    Each call, on a list of liblsd, does what it does to the sequence of options. *)
From Stdlib Require Import String.
From S2P Require Import Prelude Cbuf Npstring Rawbuf Conf Exports ConfSpec.
From stdpp Require Import list gmap.
From S2P Require Import Lists ListsSpec ListsRun ListsProps Opt OptSpec.
#[local] Open Scope Z_scope.
#[local] Open Scope opt_scope.

Implicit Types (s : opt_state) (l : list cstr).

(** The options are [l], and memory is there. *)
Definition opts l s : Prop :=
  op_mem s = [] /\ exists a, stands_for a (op_list s) /\ al_items a = l /\ al_iters a = [] /\ al_fDel a = true.

(** The same with one iterator, that returns item [k] next. *)
Definition iterating l (i : positive) (k : nat) s : Prop :=
  op_mem s = [] /\ exists a c, stands_for a (op_list s) /\ al_items a = l /\ al_iters a = [(i, c)] /\ al_fDel a = true /\ after c = k.

Lemma run_then_inv {D A B} (c : LM D A) (f : A -> B) t r a' : (forall x y, f x = f y -> x = y) ->
  run_to (lbind c (fun v => lret (f v))) t (f r) a' -> run_to c t r a'.
Proof.
  intros Hf (t' & E & Hr). unfold lbind in E. destruct (c t) as [[v t2]| |] eqn:Ec; cbn in E; try done. injection E as E <-.
  apply Hf in E as ->. by exists t2.
Qed.

Lemma onlist_run {A} (c : LM cstr A) s r a' : run_to c (op_list s) r a' -> exists t, stands_for a' t /\
  onlist c s = Ret (Some (r, {| op_list := t; op_mem := op_mem s |})).
Proof. intros (t & E & Hr). exists t. split; [done|]. unfold onlist. by rewrite E. Qed.

Lemma obind_run {A B} (c : OM A) (k : A -> OM B) s a s' : c s = Ret (Some (a, s')) -> obind c k s = k a s'.
Proof. intros E. unfold obind. by rewrite E. Qed.

Lemma memory_run s : op_mem s = [] -> memory s = Ret (Some (true, s)).
Proof. destruct s as [t m]. cbn. intros ->. done. Qed.

Lemma need_run s : need true s = Ret (Some (tt, s)).
Proof. done. Qed.

Lemma data_inj {D} (x y : option D) : AData x = AData y -> x = y. Proof. by intros [= ->]. Qed.
Lemma int_inj {D} (x y : Z) : AInt (D := D) x = AInt y -> x = y. Proof. by intros [= ->]. Qed.
Lemma iter_inj {D} (x y : option positive) : AIter (D := D) x = AIter y -> x = y. Proof. by intros [= ->]. Qed.

Definition small l : Prop := Z.of_nat (length l) < 2 ^ 31 - 1.

Lemma delete_run l s key : opts l s -> small l -> exists s', onlist (list_delete_all (fun x => _match_key x key)) s =
    Ret (Some (Z.of_nat (length (List.filter (fun x => _match_key x key) l)), s')) /\ opts (List.filter (fun x => negb (_match_key x key)) l) s'.
Proof.
  intros (Hm & a & Ha & <- & Hi & Hd) Hl. assert (Hc := call_refines (DeleteAll (fun x => _match_key x key)) a (op_list s) _ _ Ha Hl eq_refl).
  apply (run_then_inv _ AInt) in Hc; [|apply int_inj]. apply onlist_run in Hc as (t & Ht & E). eexists. split; [exact E|]. split; [done|].
  exists (al_sweep (fun x => _match_key x key) 0 (al_items a) a). split; [done|]. split; [by rewrite (sweep_items _ _ 0 a)|].
  assert (Hg : forall todo m a, al_iters a = [] -> al_fDel a = true -> al_iters (al_sweep (fun x => _match_key x key) m todo a) = [] /\
    al_fDel (al_sweep (fun x => _match_key x key) m todo a) = true).
  { clear. induction todo as [|x todo IH]; intros m a Hi Hd; [done|]. cbn. destruct (_match_key x key); apply IH; cbn; try done. by rewrite Hi. }
  by apply Hg.
Qed.

Lemma append_run l s x : opts l s -> small l -> exists s', onlist (list_append true x) s = Ret (Some (Some x, s')) /\ opts (l ++ [x]) s'.
Proof.
  intros (Hm & a & Ha & <- & Hi & Hd) Hl. assert (Hc := call_refines (Append true x) a (op_list s) _ _ Ha Hl eq_refl).
  apply (run_then_inv _ AData _ (Some x)) in Hc; [|apply data_inj]. apply onlist_run in Hc as (t & Ht & E). eexists. split; [exact E|]. split; [done|].
  eexists. split; [exact Ht|]. cbn. rewrite Hi. split; [|done]. unfold ins. by rewrite take_ge, drop_ge by done.
Qed.

Lemma addf_loop_run : forall fuel save l s, opts l s -> (length save <= fuel)%nat -> Z.of_nat (length l + length save) < 2 ^ 31 - 1 ->
  exists s', addf_loop fuel save s = Ret (Some (tt, s')) /\ opts (set_opts l (items comma save)) s'.
Proof.
  induction fuel as [|fuel IH]; intros save l s Hs Hf Hl; cbn [addf_loop]; pose proof (strtok_items comma save) as Ht;
    destruct (strtok_r comma save) as [[t save']|]; try (rewrite Ht; by exists s).
  - destruct Ht. lia.
  - destruct Ht as [-> Hlt]. destruct (delete_run l s t Hs ltac:(unfold small; lia)) as (s1 & E1 & H1).
    assert (Hlf : (length (List.filter (fun x => negb (_match_key x t)) l) <= length l)%nat) by apply List.filter_length_le.
    destruct (append_run _ s1 t H1 ltac:(unfold small; lia)) as (s2 & E2 & H2).
    destruct (IH save' _ s2 H2) as (s3 & E3 & H3); [lia|rewrite length_app; cbn; lia|]. exists s3. split; [|exact H3].
    rewrite (obind_run _ _ _ _ _ (memory_run s (proj1 Hs))), (obind_run _ _ _ _ _ (need_run s)), (obind_run _ _ _ _ _ E1).
    rewrite (obind_run _ _ _ _ _ (memory_run s1 (proj1 H1))), (obind_run _ _ _ _ _ E2), (obind_run _ _ _ _ _ (need_run s2)). exact E3.
Qed.

Lemma addf_run csv l s : opts l s -> Z.of_nat (length l + length csv) < 2 ^ 31 - 1 ->
  exists s', opt_addf csv s = Ret (Some (1, s')) /\ opts (set_opts l (items comma csv)) s'.
Proof.
  intros Hs Hl. destruct (addf_loop_run (length csv) csv l s Hs (le_n _) Hl) as (s' & E & H'). exists s'. split; [|done]. unfold opt_addf.
  rewrite (obind_run _ _ _ _ _ (memory_run s (proj1 Hs))), (obind_run _ _ _ _ _ (need_run s)), (obind_run _ _ _ _ _ E). done.
Qed.

Lemma opt_create_run s : op_mem s = [] -> exists s', opt_create s = Ret (Some (tt, s')) /\ opts [] s'.
Proof.
  intros Hm. exists {| op_list := list_create true; op_mem := op_mem s |}. split.
  - unfold opt_create. rewrite (obind_run _ _ _ _ _ (memory_run s Hm)), (obind_run _ _ _ _ _ (need_run s)), (obind_run _ _ _ _ _ (memory_run s Hm)). done.
  - split; [done|]. exists (al_create true). split; [exists []; apply create_rep|done].
Qed.

Lemma find_first_run l s f : opts l s -> small l -> exists s', onlist (list_find_first f) s = Ret (Some (List.find f l, s')) /\ opts l s'.
Proof.
  intros (Hm & a & Ha & <- & Hi & Hd) Hl. assert (Hc := call_refines (FindFirst f) a (op_list s) _ _ Ha Hl eq_refl).
  apply (run_then_inv _ AData) in Hc; [|apply data_inj]. apply onlist_run in Hc as (t & Ht & E). eexists. split; [exact E|]. split; [done|]. by exists a.
Qed.

(** ** Iterators *)

Lemma iterator_run l s : opts l s -> small l -> exists i s', iterator s = Ret (Some (i, s')) /\ iterating l i 0 s'.
Proof.
  intros (Hm & a & Ha & <- & Hi & Hd) Hl. assert (Hc := call_refines (IterCreate true) a (op_list s) _ _ Ha Hl eq_refl).
  apply (run_then_inv _ AIter _ (Some (al_next a))) in Hc; [|apply iter_inj]. apply onlist_run in Hc as (t & Ht & E). exists (al_next a). eexists. split.
  - unfold iterator. rewrite (obind_run _ _ _ _ _ (memory_run s Hm)), (obind_run _ _ _ _ _ E). done.
  - split; [done|]. eexists _, (O, false). split; [exact Ht|]. cbn. by rewrite Hi.
Qed.

Lemma next_run l i k s : iterating l i k s -> small l -> exists s', onlist (list_next i) s = Ret (Some (l !! k, s')) /\
  iterating l i (if l !! k is Some _ then S k else k) s'.
Proof.
  intros (Hm & a & c & Ha & <- & Hi & Hd & <-) Hl.
  assert (Hmean : meaning (NextItem i) a = Some (AData (al_items a !! after c),
    with_iters [(i, (after c, if al_items a !! after c is Some _ then true else false))] a)).
  { cbn [meaning]. rewrite Hi. cbn [assoc_get]. rewrite decide_True by done. cbn [fmap option_fmap option_map assoc_set]. by rewrite decide_True. }
  assert (Hc := call_refines (NextItem i) a (op_list s) _ _ Ha Hl Hmean).
  apply (run_then_inv _ AData) in Hc; [|apply data_inj]. apply onlist_run in Hc as (t & Ht & E). eexists. split; [exact E|]. split; [done|].
  eexists _, _. split; [exact Ht|]. cbn. split_and!; [done..|]. by destruct (al_items a !! after c).
Qed.

Lemma iter_unit o l i k s (c : LM cstr unit) a' : iterating l i k s -> small l -> call o = lbind c (fun _ => lret AUnit) ->
  (forall a cu, al_items a = l -> al_iters a = [(i, cu)] -> al_fDel a = true -> exists a'', meaning o a = Some (AUnit, a'') /\ a' a'') ->
  exists s' a, onlist c s = Ret (Some (tt, s')) /\ op_mem s' = [] /\ stands_for a (op_list s') /\ a' a.
Proof.
  intros (Hm & a & cu & Ha & Hit & Hi & Hd & _) Hl Hcall Hmean. destruct (Hmean a cu Hit Hi Hd) as (a2 & Hm2 & Ha2). subst l.
  destruct (call_refines o a (op_list s) _ _ Ha Hl Hm2) as (t & E & Ht). rewrite Hcall in E. unfold lbind in E.
  destruct (c (op_list s)) as [[[] t2]| |] eqn:Ec; cbn in E; try done. injection E as ->. eexists _, a2. split; [unfold onlist; by rewrite Ec|]. done.
Qed.

Lemma reset_run l i k s : iterating l i k s -> small l -> exists s', onlist (list_iterator_reset i) s = Ret (Some (tt, s')) /\ iterating l i 0 s'.
Proof.
  intros Hs Hl. destruct (iter_unit (IterReset i) l i k s (list_iterator_reset i)
    (fun a => al_items a = l /\ al_iters a = [(i, (O, false))] /\ al_fDel a = true) Hs Hl eq_refl) as (s' & a & E & Hm & Ha & H1 & H2 & H3).
  { intros a cu H1 H2 H3. cbn [meaning]. rewrite H2. cbn [assoc_get]. rewrite decide_True by done. cbn [fmap option_fmap option_map assoc_set assoc_del].
    rewrite decide_True by done. eexists. split; [done|]. done. }
  exists s'. split; [done|]. split; [done|]. by exists a, (O, false).
Qed.

Lemma done_run l i k s : iterating l i k s -> small l -> exists s', onlist (list_iterator_destroy i) s = Ret (Some (tt, s')) /\ opts l s'.
Proof.
  intros Hs Hl. destruct (iter_unit (IterDestroy i) l i k s (list_iterator_destroy i)
    (fun a => al_items a = l /\ al_iters a = [] /\ al_fDel a = true) Hs Hl eq_refl) as (s' & a & E & Hm & Ha & H1).
  { intros a cu H1 H2 H3. cbn [meaning]. rewrite H2. cbn [assoc_get]. rewrite decide_True by done. cbn [fmap option_fmap option_map assoc_set assoc_del].
    rewrite decide_True by done. eexists. split; [done|]. done. }
  exists s'. split; [done|]. split; [done|]. by exists a.
Qed.

Lemma fuel_run l i k s : iterating l i k s -> exists n, onlist list_fuel s = Ret (Some (n, s)) /\ (length l < n)%nat.
Proof.
  intros (Hm & a & c & [ns Hr] & <- & _). exists (Pos.to_nat (ll_fresh (op_list s))). split; [by destruct s|].
  pose proof (r_fuel _ _ _ Hr). by rewrite (k_len _ _ _ (r_links _ _ _ Hr)) in *.
Qed.

(** ** [opt_csv] *)

Definition total l : Z := foldr (fun x n => zlength x + 1 + n) 0 l.

Lemma total_nonneg l : 0 <= total l.
Proof. unfold total. induction l as [|x l IH]; cbn; unfold zlength in *; lia. Qed.

Lemma total_app l l' : total (l ++ l') = total l + total l'.
Proof. unfold total. induction l as [|x l IH]; cbn; lia. Qed.

Lemma csv_size_run l i : small l -> forall fuel k n s, iterating l i k s -> (length l - k <= fuel)%nat -> n + total (drop k l) < 2 ^ 31 ->
  exists k' s', csv_size fuel i n s = Ret (Some (n + total (drop k l), s')) /\ iterating l i k' s'.
Proof.
  intros Hl. induction fuel as [|fuel IH]; intros k n s Hs Hf Hn; destruct (next_run l i k s Hs Hl) as (s1 & E1 & H1); cbn [csv_size];
    rewrite (obind_run _ _ _ _ _ E1); destruct (l !! k) as [x|] eqn:Ex.
  1: apply lookup_lt_Some in Ex; lia.
  1, 3: rewrite drop_ge by (by apply lookup_ge_None); cbn; rewrite Z.add_0_r; exists k, s1; by split.
  pose proof (total_nonneg (drop (S k) l)) as Hp. rewrite (drop_S _ _ _ Ex) in Hn |- *. cbn [total foldr] in Hn |- *. fold (total (drop (S k) l)) in *.
  destruct (IH (S k) (n + (zlength x + 1)) s1 H1) as (k' & s' & E & H'); [lia|lia|]. exists k', s'. split; [|done].
  assert (Ei : olift (int_plus n (zlength x + 1)) s1 = Ret (Some (n + (zlength x + 1), s1))).
  { unfold olift, int_plus. by rewrite (proj2 (Z.ltb_lt _ _)) by lia. }
  rewrite (obind_run _ _ _ _ _ Ei), E. do 3 f_equal. lia.
Qed.

Lemma join_length l : l <> [] -> zlength (join l) = total l - 1.
Proof.
  induction l as [|x l IH] using rev_ind; [done|]. intros _. rewrite join_snoc, total_app. cbn [total foldr]. rewrite !zlength_app.
  destruct l as [|y l]; [unfold zlength; cbn; lia|]. rewrite IH by done. change (zlength [comma]) with 1. lia.
Qed.

Lemma join_no_nul l : Forall plain l -> no_nul (join l).
Proof.
  intros Hl. induction l as [|x l IH] using rev_ind; [constructor|]. rewrite join_snoc. apply Forall_app in Hl as [Hl Hx].
  apply Forall_singleton in Hx as (_ & _ & Hx). apply Forall_app. split; [by apply IH|]. apply Forall_app. split; [|done].
  destruct l; repeat constructor. done.
Qed.

(** One item more in the buffer. *)
Lemma fill_step l k x b strsize : Forall plain l -> l !! k = Some x -> strsize = total l + 1 -> strsize < 2 ^ 31 -> strsize <= zlength b ->
  (k <> O -> holds_str b (join (take k l))) ->
  let n := zlength (join (take k l)) in
  exists b', snprintf_buf b n (u64 (strsize - n)) ((if 0 <? n then [comma] else []) ++ x) = Ret b' /\ zlength b' = zlength b /\
    holds_str b' (join (take (S k) l)).
Proof.
  intros Hl Hx -> Hbig Hb Hh. cbn zeta. set (n := zlength (join (take k l))). pose proof (lookup_lt_Some _ _ _ Hx) as Hk.
  assert (Et : take (S k) l = take k l ++ [x]) by (by apply take_S_r). set (text := (if 0 <? n then [comma] else []) ++ x).
  assert (HS : join (take (S k) l) = join (take k l) ++ text).
  { rewrite Et, join_snoc. f_equal. unfold text. f_equal. unfold n. destruct k as [|k]; [done|].
    destruct l as [|y l]; [done|]. cbn [take]. rewrite join_length by done. cbn [total foldr]. pose proof (total_nonneg (take k l)) as Hp. fold (total (take k l)).
    apply Forall_cons in Hl as [(Hy & _) _]. rewrite (proj2 (Z.ltb_lt 0 _)); [done|]. destruct y; [done|]. unfold zlength. cbn. lia. }
  assert (Hfit : n + zlength text <= total l).
  { assert (E : zlength (join (take (S k) l)) = n + zlength text) by (rewrite HS, zlength_app; done). rewrite <- E.
    rewrite join_length by (rewrite Et; by destruct (take k l)).
    rewrite <- (take_drop (S k) l) at 2. rewrite total_app. pose proof (total_nonneg (drop (S k) l)). lia. }
  assert (Hn0 : 0 <= n) by (unfold n, zlength; lia). assert (Ht0 : 0 <= zlength text) by (unfold zlength; lia).
  unfold snprintf_buf. rewrite u64_small by lia. rewrite (proj2 (Z.eqb_neq _ 0)) by lia. rewrite Z.min_l by lia.
  replace (take (Z.to_nat (zlength text)) text) with text by (symmetry; apply take_ge; unfold zlength; lia).
  unfold memcpy_buf. rewrite !(proj2 (Z.leb_le 0 _)) by lia. rewrite (proj2 (Z.leb_le (n + _) _)), (proj2 (Z.leb_le (zlength text + 1) _)) by (rewrite ?zlength_app; change (zlength [0]) with 1; lia).
  cbn [andb]. eexists. split; [reflexivity|].
  replace (take (Z.to_nat (zlength text + 1)) (text ++ [0])) with (text ++ [0]) by (symmetry; apply take_ge; rewrite length_app; unfold zlength; cbn; lia). split.
  { rewrite !zlength_app. unfold zlength in *. rewrite length_take, length_drop, length_fmap, length_app. cbn. lia. }
  assert (Hpre : take (Z.to_nat n) b = Some <$> join (take k l)).
  { destruct k as [|k]; [done|]. destruct (Hh ltac:(done)) as [_ [rest ->]]. unfold n. apply take_app_length'. rewrite length_fmap. unfold zlength. lia. }
  rewrite Hpre, HS, fmap_app. cbn [fmap list_fmap]. rewrite <- app_assoc. cbn [app].
  split; [rewrite <- HS; apply join_no_nul; by apply Forall_take|]. rewrite fmap_app. eexists. by rewrite <- !app_assoc.
Qed.

Lemma csv_fill_run l i strsize : Forall plain l -> small l -> strsize = total l + 1 -> strsize < 2 ^ 31 -> forall fuel k b s, iterating l i k s ->
  (length l - k <= fuel)%nat -> strsize <= zlength b -> (k <> O -> holds_str b (join (take k l))) ->
  exists k' b' s', csv_fill fuel i strsize (zlength (join (take k l))) b s = Ret (Some (b', s')) /\ iterating l i k' s' /\
    ((k < length l)%nat \/ k <> O -> holds_str b' (join l)).
Proof.
  intros Hp Hl Hsz Hbig. induction fuel as [|fuel IH]; intros k b s Hs Hf Hb Hh; destruct (next_run l i k s Hs Hl) as (s1 & E1 & H1); cbn [csv_fill];
    rewrite (obind_run _ _ _ _ _ E1); destruct (l !! k) as [x|] eqn:Ex.
  1: apply lookup_lt_Some in Ex; lia.
  1, 3: apply lookup_ge_None in Ex; exists k, b, s1; split; [done|]; split; [done|]; intros [?|Hk]; [lia|]; rewrite <- (take_ge l k) by done; by apply Hh.
  destruct (fill_step l k x b strsize Hp Ex Hsz Hbig Hb Hh) as (b1 & Eb & Hb1 & Hh1). pose proof (lookup_lt_Some _ _ _ Ex) as Hk.
  destruct (IH (S k) b1 s1 H1) as (k' & b' & s' & E & H' & Hd); [lia|by rewrite Hb1|done|]. exists k', b', s'. split; [|split; [done|intros _; apply Hd; by right]].
  assert (El : olift (snprintf_buf b (zlength (join (take k l))) (u64 (strsize - zlength (join (take k l)))) ((if 0 <? zlength (join (take k l)) then [comma] else []) ++ x)) s1 = Ret (Some (b1, s1)))
    by (unfold olift; by rewrite Eb).
  rewrite (obind_run _ _ _ _ _ El). assert (Es : olift (buf_str b1) s1 = Ret (Some (join (take (S k) l), s1))) by (unfold olift; by rewrite (buf_str_holds _ _ Hh1)).
  rewrite (obind_run _ _ _ _ _ Es). exact E.
Qed.

Lemma csv_run l s : opts l s -> Forall plain l -> small l -> total l + 1 < 2 ^ 31 ->
  exists b s', opt_csv s = Ret (Some (b, s')) /\ opts l s' /\ if decide (l = []) then b = [] else buf_str b = Ret (join l).
Proof.
  intros Hs Hp Hl Hbig. destruct (iterator_run l s Hs Hl) as (i & s1 & E1 & H1). destruct (fuel_run l i 0 s1 H1) as (n & E2 & Hn).
  destruct (csv_size_run l i Hl n 0 1 s1 H1) as (k & s3 & E3 & H3); [lia|rewrite drop_0; lia|]. rewrite drop_0 in E3.
  destruct (reset_run l i k s3 H3 Hl) as (s4 & E4 & H4).
  assert (Ec : onlist list_count s4 = Ret (Some (Z.of_nat (length l), s4))).
  { destruct H4 as (_ & a & c & Ha & <- & _). unfold onlist, list_count, lget. cbn. rewrite (stands_count _ _ Ha). by destruct s4. }
  set (b0 := malloc_buf (1 + total l + Z.of_nat (length l) - 1)).
  assert (Hb0 : zlength b0 = total l + Z.of_nat (length l)) by (pose proof (total_nonneg l); unfold b0, malloc_buf, zlength; rewrite length_replicate; lia).
  assert (Hrun : exists k' b s5, csv_fill n i (1 + total l) 0 b0 s4 = Ret (Some (b, s5)) /\ iterating l i k' s5 /\
    if decide (l = []) then b = [] else buf_str b = Ret (join l)).
  { destruct (decide (l = [])) as [->|Hne].
    - destruct (next_run [] i 0 s4 H4 Hl) as (s5 & E5 & H5). exists 0%nat, [], s5. split; [|by split].
      destruct n as [|n]; [cbn in Hn; lia|]. cbn [csv_fill]. by rewrite (obind_run _ _ _ _ _ E5).
    - destruct (csv_fill_run l i (1 + total l) Hp Hl) with (fuel := n) (k := 0%nat) (b := b0) (s := s4) as (k' & b & s5 & E5 & H5 & Hh); try done; try lia.
      { destruct l; [done|]. cbn [length] in *. lia. }
      exists k', b, s5. split; [exact E5|]. split; [done|]. apply buf_str_holds, Hh. left. destruct l; [done|cbn; lia]. }
  destruct Hrun as (k' & b & s5 & E5 & H5 & Hb). destruct (done_run l i k' s5 H5 Hl) as (s6 & E6 & H6). exists b, s6. split; [|by split].
  unfold opt_csv. rewrite (obind_run _ _ _ _ _ E1), (obind_run _ _ _ _ _ E2), (obind_run _ _ _ _ _ E3), (obind_run _ _ _ _ _ E4), (obind_run _ _ _ _ _ Ec).
  rewrite (obind_run _ _ _ _ _ (memory_run s4 (proj1 H4))), (obind_run _ _ _ _ _ (need_run s4)). fold b0. rewrite (obind_run _ _ _ _ _ E5), (obind_run _ _ _ _ _ E6). done.
Qed.

(** ** Histories *)

Fixpoint addfs (csvs : list cstr) : OM unit :=
  match csvs with
  | [] => oret tt
  | csv :: csvs => do _ <- opt_addf csv; addfs csvs
  end.

(** All options that were given, in their order. *)
Definition given (csvs : list cstr) : list cstr := concat (items comma <$> csvs).
Definition length_sum (csvs : list cstr) : Z := foldr (fun x n => zlength x + n) 0 csvs.

Lemma set_opts_length items : forall l, (length (set_opts l items) <= length l + length items)%nat.
Proof.
  induction items as [|x items IH]; intros l; cbn; [lia|]. etransitivity; [apply IH|]. unfold set_opt. rewrite length_app. cbn.
  pose proof (List.filter_length_le (fun y => negb (_match_key y x)) l). lia.
Qed.

Lemma addfs_run csvs : forall l s, opts l s -> Z.of_nat (length l) + length_sum csvs < 2 ^ 31 - 1 ->
  exists s', addfs csvs s = Ret (Some (tt, s')) /\ opts (set_opts l (given csvs)) s'.
Proof.
  induction csvs as [|csv csvs IH]; intros l s Hs Hl; [by exists s|]. cbn [length_sum foldr] in Hl. fold (length_sum csvs) in Hl.
  assert (Hpos : 0 <= length_sum csvs) by (clear; unfold length_sum; induction csvs; cbn; unfold zlength in *; lia).
  destruct (addf_run csv l s Hs) as (s1 & E1 & H1); [unfold zlength in Hl; lia|].
  destruct (IH _ s1 H1) as (s2 & E2 & H2).
  { pose proof (set_opts_length (items comma csv) l). pose proof (items_length csv). unfold zlength in Hl. lia. }
  exists s2. split; [cbn [addfs]; by rewrite (obind_run _ _ _ _ _ E1)|]. unfold given. cbn [fmap list_fmap concat]. unfold set_opts. rewrite foldl_app. exact H2.
Qed.

Lemma split_total d (s : cstr) : total (split_on d s) = zlength s + 1.
Proof.
  induction s as [|c s IH]; [done|]. cbn [split_on]. unfold total, zlength in *. destruct (d =? c); [cbn; lia|].
  destruct (split_on_cons d s) as (t & ts & E). rewrite E in *. cbn in *. lia.
Qed.

Lemma items_total (s : cstr) : total (items comma s) <= zlength s + 1.
Proof.
  rewrite <- (split_total comma s). unfold items. unfold total. induction (split_on comma s) as [|t ts IH]; [done|]. destruct t; cbn [pieces foldr]; unfold zlength in *; cbn [length]; lia.
Qed.

Lemma filter_total f l : total (List.filter f l) <= total l.
Proof. unfold total. induction l as [|x l IH]; [done|]. cbn. destruct (f x); cbn [foldr]; unfold zlength in *; lia. Qed.

Lemma set_opts_total items : forall l, total (set_opts l items) <= total l + total items.
Proof.
  induction items as [|x items IH]; intros l; [change (total l <= total l + 0); lia|].
  change (total (set_opts (set_opt l x) items) <= total l + (zlength x + 1 + total items)). etransitivity; [apply IH|]. unfold set_opt. rewrite total_app.
  pose proof (filter_total (fun y => negb (_match_key y x)) l). change (total [x]) with (zlength x + 1 + 0). lia.
Qed.

Lemma given_total csvs : total (given csvs) <= length_sum csvs + Z.of_nat (length csvs).
Proof.
  unfold given, length_sum. induction csvs as [|c csvs IH]; [done|]. cbn [fmap list_fmap concat foldr length]. rewrite total_app. pose proof (items_total c). lia.
Qed.

Lemma given_plain (csvs : list cstr) : Forall no_nul csvs -> Forall plain (given csvs).
Proof. unfold given. induction 1 as [|c csvs Hc _ IH]; [constructor|]. cbn. apply Forall_app. split; [by apply items_plain|exact IH]. Qed.

Lemma set_opts_plain (csvs : list cstr) : Forall no_nul csvs -> Forall plain (set_opts [] (given csvs)).
Proof.
  intros Hn%given_plain. rewrite Forall_forall in Hn |- *. intros x [Hx|Hx]%set_opts_elem; [by apply not_elem_of_nil in Hx|by apply Hn].
Qed.

Lemma started (csvs : list cstr) s : op_mem s = [] -> Forall no_nul csvs -> length_sum csvs + Z.of_nat (length csvs) < 2 ^ 31 - 2 ->
  exists s', (do _ <- opt_create; addfs csvs) s = Ret (Some (tt, s')) /\ opts (set_opts [] (given csvs)) s' /\ small (set_opts [] (given csvs)) /\
    total (set_opts [] (given csvs)) + 1 < 2 ^ 31.
Proof.
  intros Hm Hn Hl. destruct (opt_create_run s Hm) as (s1 & E1 & H1). destruct (addfs_run csvs [] s1 H1) as (s2 & E2 & H2); [change (0 + length_sum csvs < 2 ^ 31 - 1); lia|].
  exists s2. split; [by rewrite (obind_run _ _ _ _ _ E1)|]. split; [done|].
  pose proof (set_opts_total (given csvs) []) as Ht. pose proof (given_total csvs) as Hg. change (total []) with 0 in Ht. split; [|lia].
  unfold small. assert (Z.of_nat (length (set_opts [] (given csvs))) <= total (set_opts [] (given csvs))); [|lia].
  clear. unfold total. induction (set_opts [] (given csvs)) as [|x l IH]; cbn; unfold zlength in *; lia.
Qed.

(** C39: Take any texts that are added to a new set of options, with memory there and less
    than [2^31] bytes: no two options have the same key, and [opt_csv] gives a text from
    which [opt_addf] makes the same options again.  When no option is there the result of
    [opt_csv] points to a buffer without a single byte, and is not a string. *)
Theorem options_roundtrip (csvs : list cstr) s : op_mem s = [] -> Forall no_nul csvs -> length_sum csvs + Z.of_nat (length csvs) < 2 ^ 31 - 2 ->
  let l := set_opts [] (given csvs) in
  NoDup (key_of <$> l) /\
  exists s1 b s2, (do _ <- opt_create; addfs csvs) s = Ret (Some (tt, s1)) /\ opts l s1 /\ opt_csv s1 = Ret (Some (b, s2)) /\ opts l s2 /\
    if decide (l = []) then buf_str b = UB
    else exists text s3 s4, buf_str b = Ret text /\ opt_create s2 = Ret (Some (tt, s3)) /\ opt_addf text s3 = Ret (Some (1, s4)) /\ opts l s4.
Proof.
  intros Hm Hn Hl. cbn zeta. set (l := set_opts [] (given csvs)). split; [apply set_opts_keys; constructor|].
  destruct (started csvs s Hm Hn Hl) as (s1 & E1 & H1 & Hs & Ht). fold l in H1, Hs, Ht. pose proof (set_opts_plain csvs Hn) as Hp. fold l in Hp.
  destruct (csv_run l s1 H1 Hp Hs Ht) as (b & s2 & E2 & H2 & Hb). exists s1, b, s2. split_and!; [done..|]. destruct (decide (l = [])) as [El|El]; [by rewrite Hb|].
  destruct (opt_create_run s2 (proj1 H2)) as (s3 & E3 & H3). destruct (addf_run (join l) [] s3 H3) as (s4 & E4 & H4).
  { pose proof (join_length l El) as Hj. unfold zlength in Hj. cbn. lia. }
  exists (join l), s3, s4. split_and!; [done..|]. rewrite items_join in H4 by done. rewrite set_opts_distinct in H4; [done|]. apply set_opts_keys. constructor.
Qed.

(** ** Questions about options *)

(** The result for the first item that something was scanned from, or for the last item. *)
Fixpoint scan_result (scan : cstr -> Z) (ret : Z) l : Z :=
  match l with
  | [] => ret
  | x :: l => if 0 <? scan x then scan x else scan_result scan (scan x) l
  end.

Lemma scan_loop_run l i scan : small l -> forall fuel k ret s, iterating l i k s -> (length l - k <= fuel)%nat ->
  exists k' s', scan_loop fuel scan i ret s = Ret (Some (scan_result scan ret (drop k l), s')) /\ iterating l i k' s'.
Proof.
  intros Hl. induction fuel as [|fuel IH]; intros k ret s Hs Hf; destruct (next_run l i k s Hs Hl) as (s1 & E1 & H1); cbn [scan_loop];
    rewrite (obind_run _ _ _ _ _ E1); destruct (l !! k) as [x|] eqn:Ex.
  1: apply lookup_lt_Some in Ex; lia.
  1, 3: rewrite drop_ge by (by apply lookup_ge_None); exists k, s1; by split.
  rewrite (drop_S _ _ _ Ex). cbn [scan_result]. destruct (0 <? scan x); [by exists (S k), s1|]. apply IH; [done|lia].
Qed.

Lemma scanf_run l s scan : opts l s -> small l -> exists s', opt_scanf scan s = Ret (Some (scan_result scan 0 l, s')) /\ opts l s'.
Proof.
  intros Hs Hl. destruct (iterator_run l s Hs Hl) as (i & s1 & E1 & H1). destruct (fuel_run l i 0 s1 H1) as (n & E2 & Hn).
  destruct (scan_loop_run l i scan Hl n 0 0 s1 H1) as (k & s3 & E3 & H3); [lia|]. rewrite drop_0 in E3.
  destruct (done_run l i k s3 H3 Hl) as (s4 & E4 & H4). exists s4. split; [|done]. unfold opt_scanf, opt_vscanf.
  rewrite (obind_run _ _ _ _ _ E1), (obind_run _ _ _ _ _ E2), (obind_run _ _ _ _ _ E3), (obind_run _ _ _ _ _ E4). done.
Qed.

Lemma opt_find_run l s key : opts l s -> small l -> strchr equals key = None ->
  exists s', opt_find key s = Ret (Some (_optstr <$> List.find (fun x => _match_key x key) l, s')) /\ opts l s'.
Proof.
  intros Hs Hl Hk. unfold opt_find. rewrite Hk. destruct (find_first_run l s (fun x => _match_key x key) Hs Hl) as (s1 & E1 & H1).
  exists s1. split; [|done]. by rewrite (obind_run _ _ _ _ _ E1).
Qed.

(** The key of an option is a key. *)
Lemma strchr_none c (s : cstr) : strchr c s = None <-> c ∉ s.
Proof.
  induction s as [|x s IH]; cbn; [split; [set_solver|done]|]. destruct (Z.eqb_spec x c) as [->|Hne]; [split; [done|set_solver]|].
  destruct (strchr c s) as [[k v]|]; [split; [done|]|split; [|done]].
  - intros Hn. assert (c ∉ s) as Hn'%IH by set_solver. done.
  - intros _. assert (c ∉ s) by (by apply IH). set_solver.
Qed.

Lemma strchr_some c (s : cstr) k v : strchr c s = Some (k, v) -> s = k ++ c :: v /\ c ∉ k.
Proof.
  revert k v. induction s as [|x s IH]; intros k v; cbn; [done|]. destruct (Z.eqb_spec x c) as [->|Hne]; [intros [= <- <-]; set_solver|].
  destruct (strchr c s) as [[k' v']|]; [|done]. intros [= <- <-]. destruct (IH k' v' eq_refl) as [-> Hk]. set_solver.
Qed.

Lemma key_text x : strchr equals (take (key_len x) x) = None /\ key_of (take (key_len x) x) = key_of x.
Proof.
  assert (Hno : strchr equals (take (key_len x) x) = None).
  { apply strchr_none. unfold key_len. destruct (strchr equals x) as [[k v]|] eqn:E; [|rewrite take_ge by done; by apply strchr_none].
    apply strchr_some in E as [-> Hk]. by rewrite take_app_length. }
  split; [done|]. unfold key_of. f_equal. unfold key_len at 1. rewrite Hno. rewrite take_ge by done. done.
Qed.

(** Is there an option with this key in [la]? *)
Definition key_in (la : list cstr) (x : cstr) : bool := existsb (fun y => bool_decide (key_of y = key_of x)) la.

Lemma find_key la x : (if List.find (fun y => _match_key y (take (key_len x) x)) la is Some _ then true else false) = key_in la x.
Proof.
  unfold key_in. induction la as [|y la IH]; [done|]. cbn. rewrite match_key_spec, (proj2 (key_text x)). by destruct (bool_decide _).
Qed.

Lemma allowed_loop_run l i la : small l -> small la -> forall fuel k s allow, iterating l i k s -> opts la {| op_list := allow; op_mem := [] |} ->
  (length l - k <= fuel)%nat ->
  exists k' s', allowed_loop fuel allow i s = Ret (Some (if forallb (key_in la) (drop k l) then 0 else 1, s')) /\ iterating l i k' s'.
Proof.
  intros Hl Hla. induction fuel as [|fuel IH]; intros k s allow Hs Ha Hf; destruct (next_run l i k s Hs Hl) as (s1 & E1 & H1); cbn [allowed_loop];
    rewrite (obind_run _ _ _ _ _ E1); destruct (l !! k) as [x|] eqn:Ex.
  1: apply lookup_lt_Some in Ex; lia.
  1, 3: rewrite drop_ge by (by apply lookup_ge_None); exists k, s1; by split.
  rewrite (drop_S _ _ _ Ex). cbn [forallb]. rewrite (obind_run _ _ _ _ _ (memory_run s1 (proj1 H1))), (obind_run _ _ _ _ _ (need_run s1)).
  destruct s1 as [t1 m1]. pose proof (proj1 H1) as Hm1. cbn in Hm1. subst m1.
  destruct (opt_find_run la _ (take (key_len x) x) Ha Hla (proj1 (key_text x))) as ([t2 m2] & E2 & H2). pose proof (proj1 H2) as Hm2. cbn in Hm2. subst m2.
  rewrite <- find_key. unfold get_list at 1, set_list at 1, obind at 1 2. cbn [res_bind op_list op_mem]. rewrite (obind_run _ _ _ _ _ E2).
  unfold get_list, set_list, obind at 1 2. cbn [res_bind op_list op_mem]. destruct (List.find _ la) as [y|]; cbn [fmap option_fmap option_map andb].
  - apply IH; [done|done|lia].
  - exists (S k). eexists. split; [reflexivity|done].
Qed.

Lemma check_run l s csv : opts l s -> small l -> zlength csv < 2 ^ 31 - 1 ->
  exists s', opt_check_allowed_csv csv s = Ret (Some (if forallb (key_in (set_opts [] (items comma csv))) l then 0 else 1, s')) /\ opts l s'.
Proof.
  intros Hs Hl Hc. pose proof (proj1 Hs) as Hm. destruct (opt_create_run s Hm) as (s1 & E1 & H1).
  destruct (addf_run csv [] s1 H1) as (s2 & E2 & H2); [unfold zlength in Hc; cbn; lia|]. set (la := set_opts [] (items comma csv)) in *.
  assert (Hla : small la) by (unfold small, la; pose proof (set_opts_length (items comma csv) []); pose proof (items_length csv); unfold zlength in Hc; cbn in *; lia).
  assert (Hback : {| op_list := op_list s; op_mem := op_mem s2 |} = s) by (destruct s; cbn in *; by rewrite (proj1 H2), Hm).
  destruct (iterator_run l s Hs Hl) as (i & s3 & E3 & H3). destruct (fuel_run l i 0 s3 H3) as (n & E4 & Hn).
  destruct (allowed_loop_run l i la Hl Hla n 0 s3 (op_list s2) H3) as (k & s5 & E5 & H5).
  { destruct s2 as [t2 m2]. pose proof (proj1 H2) as Hm2. cbn in Hm2. by subst m2. } { lia. }
  rewrite drop_0 in E5. destruct (done_run l i k s5 H5 Hl) as (s6 & E6 & H6). destruct H2 as (Hm2 & a & Ha & _).
  destruct (list_destroy_run a (op_list s2) Ha) as (t & Ed & _). exists {| op_list := op_list s6; op_mem := op_mem s6 |}. split; [|by destruct s6].
  unfold opt_check_allowed_csv. unfold get_list at 1, obind at 1. cbn [res_bind]. rewrite (obind_run _ _ _ _ _ E1), (obind_run _ _ _ _ _ E2).
  unfold get_list at 1, set_list at 1, obind at 1 2. cbn [res_bind]. rewrite Hback.
  rewrite (obind_run _ _ _ _ _ E3), (obind_run _ _ _ _ _ E4), (obind_run _ _ _ _ _ E5), (obind_run _ _ _ _ _ E6).
  unfold get_list, set_list, opt_destroy, onlist, obind. cbn [res_bind op_list op_mem]. rewrite Ed. done.
Qed.

Lemma key_in_set its x : key_in (set_opts [] its) x = key_in its x.
Proof.
  rewrite <- find_key, find_set_opts, find_key. unfold key_in. induction its as [|y its IH]; [done|].
  rewrite reverse_cons, List.existsb_app. cbn. by rewrite IH, orb_false_r, orb_comm.
Qed.

(** In options that were made from any texts, [opt_find] gives the value of the last
    option with the key that was given, in any case of letters, and nothing if there was
    none, the value being what is behind the last '='; [opt_scanf] gives the result for
    the first item that anything was scanned from; [opt_check_allowed_csv] accepts the
    options if and only if the key of each is one of those that are allowed.  None changes
    the options; [opt_delete] takes away those with the key. *)
Theorem options_answers (csvs : list cstr) s : op_mem s = [] -> Forall no_nul csvs -> length_sum csvs + Z.of_nat (length csvs) < 2 ^ 31 - 2 ->
  let l := set_opts [] (given csvs) in
  exists s1, (do _ <- opt_create; addfs csvs) s = Ret (Some (tt, s1)) /\
    (forall key, strchr equals key = None -> exists s2,
       opt_find key s1 = Ret (Some (_optstr <$> List.find (fun x => bool_decide (key_of x = key_of key)) (reverse (given csvs)), s2)) /\ opts l s2) /\
    (forall scan, exists s2, opt_scanf scan s1 = Ret (Some (scan_result scan 0 l, s2)) /\ opts l s2) /\
    (forall csv, zlength csv < 2 ^ 31 - 1 -> exists s2, opt_check_allowed_csv csv s1 =
       Ret (Some (if forallb (key_in (items comma csv)) l then 0 else 1, s2)) /\ opts l s2) /\
    (forall key, exists s2, opt_delete key s1 = Ret (Some (Z.of_nat (length (List.filter (fun x => _match_key x key) l)), s2)) /\
       opts (List.filter (fun x => negb (bool_decide (key_of x = key_of key))) l) s2).
Proof.
  intros Hm Hn Hl. cbn zeta. destruct (started csvs s Hm Hn Hl) as (s1 & E1 & H1 & Hs & _). exists s1. split; [done|]. split_and!.
  - intros key Hk. destruct (opt_find_run _ s1 key H1 Hs Hk) as (s2 & E2 & H2). exists s2. split; [|done]. rewrite E2, find_set_opts. do 4 f_equal.
    induction (reverse (given csvs)) as [|x xs IH]; [done|]. cbn. by rewrite match_key_spec, IH.
  - intros scan. by apply scanf_run.
  - intros csv Hc. destruct (check_run _ s1 csv H1 Hs Hc) as (s2 & E2 & H2). exists s2. split; [|done]. rewrite E2.
    assert (E : forall xs, forallb (key_in (set_opts [] (items comma csv))) xs = forallb (key_in (items comma csv)) xs); [|by rewrite E].
    induction xs as [|x xs IH]; [done|]. cbn. by rewrite key_in_set, IH.
  - intros key. destruct (delete_run _ s1 key H1 Hs) as (s2 & E2 & H2). exists s2. split; [exact E2|].
    rewrite (List.filter_ext _ (fun x => negb (_match_key x key))); [exact H2|]. intros x. by rewrite match_key_spec.
Qed.

(** ** The options of a mount *)

Module OptSample.
Definition mount_texts : list cstr := [lit "mickey=42,Donald"%string; lit "MICKEY=string,,foo=a=b"%string].
Definition no_opts : opt_state := {| op_list := list_create true; op_mem := [] |}.

Lemma mount_no_nul : Forall no_nul mount_texts.
Proof. repeat constructor; vm_compute; congruence. Qed.

Lemma options_roundtrip_witness : set_opts [] (given mount_texts) = [lit "Donald"%string; lit "MICKEY=string"%string; lit "foo=a=b"%string] /\
  exists s1 b s2, (do _ <- opt_create; addfs mount_texts) no_opts = Ret (Some (tt, s1)) /\ opt_csv s1 = Ret (Some (b, s2)) /\
    exists text, buf_str b = Ret text.
Proof.
  split; [vm_compute; reflexivity|].
  destruct (options_roundtrip mount_texts no_opts eq_refl mount_no_nul ltac:(vm_compute; done)) as (_ & s1 & b & s2 & E1 & _ & E2 & _ & Hb).
  exists s1, b, s2. split; [exact E1|]. split; [exact E2|]. destruct (decide _) as [E|_]; [by vm_compute in E|]. destruct Hb as (text & _ & _ & Hb & _). by exists text.
Defined.

Lemma options_answers_witness : exists s1, (do _ <- opt_create; addfs mount_texts) no_opts = Ret (Some (tt, s1)) /\
  (exists s2, opt_find (lit "mickey"%string) s1 = Ret (Some (Some (lit "string"%string), s2))) /\ (exists s2, opt_find (lit "FOO"%string) s1 = Ret (Some (Some (lit "b"%string), s2))) /\
  exists s2, opt_check_allowed_csv (lit "donald,foo"%string) s1 = Ret (Some (1, s2)).
Proof.
  destruct (options_answers mount_texts no_opts eq_refl mount_no_nul ltac:(vm_compute; done)) as (s1 & E1 & Hf & _ & Hc & _).
  exists s1. split; [exact E1|]. split; [|split].
  - destruct (Hf (lit "mickey"%string) eq_refl) as (s2 & E2 & _). by exists s2.
  - destruct (Hf (lit "FOO"%string) eq_refl) as (s2 & E2 & _). by exists s2.
  - destruct (Hc (lit "donald,foo"%string) ltac:(vm_compute; done)) as (s2 & E2 & _). by exists s2.
Defined.
End OptSample.
